(* ===== verification/_CoqProject ===== *)
-Q . S2P
Prelude.v
Strconv.v
Bencode.v
BencodeFacts.v
BencodeTyped.v
BencodeStruct.v
Pieces.v
PeerMessage.v
Extension.v
PeerConn.v
PeerConnFacts.v
Pex.v
Sha1.v
Hash.v
Metainfo.v
MetainfoFacts.v
Storage.v
Routing.v
RoutingFacts.v
DhtState.v
DataStore.v
Net.v
NetFacts.v
Address.v
Krpc.v
KrpcFacts.v
DhtServer.v
DhtServerFacts.v
DhtRun.v
UdpTracker.v
UdpTrackerFacts.v
GoLib.v
QueueManager.v
QueueFacts.v
Blocklist.v
Bandwidth.v
BandwidthFacts.v
PexManager.v
Downloader.v
DownloaderFacts.v
BlockHandlers.v
Url.v
Magnet.v
TorrentFile.v
HttpTracker.v
HttpFacts.v
Tracker.v
WebSeed.v
RpcTypes.v
Hooks.v
FileManager.v
InfoBuild.v
TorrentManager.v
EventNotification.v
Plugins.v
Scripts.v
Metadata.v
MetadataFacts.v
EventFacts.v
PluginFacts.v
RpcMessages.v
RpcMethods.v
RpcServer.v
WebHandler.v
WebSocket.v
TorrentManagerFacts.v
DaemonFacts.v
VerifyFacts.v
RpcFacts.v
ScheduleFacts.v
RpcServerFacts.v
WebFacts.v
Mux.v
WebSeedClient.v
Json.v
Persistence.v
PersistenceFacts.v
Analytics.v
MetadataExtensions.v
PluginPersistence.v
