(* ===== verification/Prelude.v ===== *)
(** * go-i2p-bt: a verification library for the BitTorrent code

    The program is a BitTorrent library in Go with I2P support. Its core parts
    and how they interact:

    - [src/bencode]: the codec every other package serialises with;
    - [src/metainfo]: info hashes, addresses, torrent files and magnet links,
      the layout of a torrent (files, pieces, blocks) and the storage that
      reads and writes blocks across files;
    - [src/peerprotocol]: the peer wire protocol: handshake, messages, the
      extension messages carried in bencode, the state of a connection, the
      server loop that feeds received messages to user handlers, peer exchange
      and the allowed-fast set;
    - [src/downloader], [src/downloadhandler], [src/uploadhandler]: handlers on
      top of a peer connection that fetch the metadata and the blocks;
    - [src/krpc], [src/dht]: the messages of the DHT and its node: routing
      table, tokens, blacklist, transactions, the peers and the BEP 44 data it
      stores, and the server that ties them together;
    - [src/tracker]: the UDP and HTTP tracker protocols, client and server, and
      the client that asks many trackers at once;
    - [src/rpc]: a daemon that manages torrents (queues, bandwidth, blocklists,
      peer exchange, web seeds, files, lifecycle hooks, custom metadata, events,
      plugins, scripts), the methods of the Transmission protocol that control
      it, and the HTTP server, web interface and websockets in front of them;
    - [src/webseed]: a client that downloads pieces from web seeds;
    - [src/examples]: three stores for the state of the daemon, and three
      components built on the events, the metadata and the plugins of the daemon.

    ** Files

    - [Prelude]: bytes, machine integers, outcomes ([res]: a value, an error, a
      panic, or fuel exhausted), big-endian integers, automation, shared lemmas.
    - Packages of the Go library, as far as the sources use them: [Strconv]
      ([strconv]), [Net], [NetFacts] (IP addresses and their texts), [GoLib]
      ([sort], [strings], [bufio]), [Url] ([net/url]), [Sha1] (SHA-1).
    - [Bencode], [BencodeFacts], [BencodeTyped], [BencodeStruct]:
      [src/bencode]. The code works by reflection; the model has a universe of
      Go types ([gotype]) and values ([goval]). [BencodeTyped] and
      [BencodeStruct] are the framework with which the typed messages of the
      other files are shown to round-trip: a struct is the list of its fields.
    - [Pieces]: [Pieces] and [BitField] of [peerprotocol/message.go].
    - [PeerMessage]: the rest of [message.go], [protocol.go], [handshake.go].
    - [Extension]: [extension.go].
    - [PeerConn], [PeerConnFacts]: [peerconn.go], [server.go],
      [noop_handler.go]. A connection is a record with its socket (pending
      input, output, possible write failure), and a handler a record of
      callbacks over a handler state; the optional interfaces of Go
      ([Bep3Handler] and so on) are optional records.
    - [Pex]: [pex_handler.go]; [fastset.go] is module [FastSet] of [Sha1].
    - [Hash]: [metainfo/infohash.go].
    - [Metainfo], [MetainfoFacts]: [info.go], [file.go], [piece.go].
      [InfoBuild]: making an [Info] from a tree of files, with its theorems.
    - [Storage]: [reader.go], [writer.go] over a file system given as a map
      from paths to contents.
    - [Address]: [metainfo/address.go] and [utils/addr.go]; its module
      [PeerStore] is [dht/peer_manager.go].
    - [Magnet]: [magnet.go]. [TorrentFile], with its theorems: [metainfo.go]
      and the bencode form of [Info].
    - [Routing], [RoutingFacts]: [dht/routing_table.go] and
      [routing_table_storage.go]; the goroutine of the table is a step relation.
    - [DhtState]: [token_manager.go], [blacklist.go], [transaction_manager.go].
    - [DataStore]: [data_storage.go], with an executable SHA-256.
    - [Krpc], [KrpcFacts]: [krpc/node.go], [krpc/message.go].
    - [DhtServer], [DhtServerFacts]: [dht_server.go] over the five components
      above; a packet received, a query sent, a response and a timeout are
      steps on the state of the server, which keeps the packets it wrote.
      [DhtRun]: the running server with its goroutines as a step relation (a
      packet, or a turn of anything else), and what holds of all of its state.
    - [UdpTracker], [UdpTrackerFacts]: [tracker/udptracker].
    - [HttpTracker], [HttpFacts]: [tracker/httptracker].
    - [Tracker], with its theorems: [tracker/tracker.go]; the workers of
      [GetPeers] are a step relation.
    - [Downloader], [DownloaderFacts]: [downloader/torrent.go].
    - [BlockHandlers]: the two block handlers.
    - [QueueManager], [QueueFacts]: [rpc/queue_manager.go].
    - [Blocklist], with its theorems: [rpc/blocklist.go].
    - [Bandwidth], [BandwidthFacts]: [rpc/bandwidth_limiter.go],
      [rpc/bandwidth_scheduler.go].
    - [PexManager], with its theorems: [rpc/pex_manager.go].
    - [WebSeed]: [rpc/webseed_manager.go] and [URLList.FullURL].
    - [RpcTypes]: the data of [rpc/types.go]; its module [ExchangeSort] is the
      sort written out in [hooks.go] and [file_manager.go], with its
      specification.
    - [Hooks], with its theorems: [rpc/hooks.go].
    - [FileManager], with its theorems: [rpc/file_manager.go] over the class
      [Disk].
    - [Metadata], [MetadataFacts]: [rpc/metadata.go].
    - [EventNotification], [EventFacts]: [rpc/event_notification.go]; publishers,
      worker, deliveries and shutdown are a step relation, in which sending an
      event and counting it are two steps.
    - [Plugins], [PluginFacts]: [rpc/plugin.go], with the slices that running
      executions share. [Scripts]: [rpc/script_manager.go].
    - [TorrentManager]: [rpc/torrent_manager.go], over the queue, bandwidth,
      blocklist, peer exchange, web seed and hook components. Its theorems are
      in [TorrentManagerFacts] (invariant), [DaemonFacts] (start, stop, magnet
      links) and [VerifyFacts] (verification).
    - [RpcMessages], [RpcMethods]: the requests and responses of
      [rpc/types.go] and the methods of [rpc/methods.go] with their dispatch;
      theorems in [RpcFacts] and [ScheduleFacts]. Module [Http] of
      [RpcMessages] is what the servers use of [net/http].
    - [RpcServer], [RpcServerFacts]: [rpc/server.go] over the class
      [RpcService], of which the daemon is an instance.
    - [WebHandler], [WebFacts]: [rpc/web_handler.go]. [WebSocket]:
      [rpc/websocket_handler.go], its goroutines a step relation. [Mux]: the two
      multiplexers of [web_handler.go] that put the three behind one
      [http.ServeMux].
    - [WebSeedClient]: [src/webseed].
    - [Json], [Persistence], [PersistenceFacts]: [src/examples/persistence]; the
      interface of a store is the class [TorrentPersistence], its three
      implementations are instances.
    - [Analytics], [MetadataExtensions], [PluginPersistence]: the components of
      [src/examples/integration], on the events, the metadata manager and the
      plugins of the daemon.

    Definitions keep the names of the source; a method whose name is taken is
    prefixed with its type or an abbreviation of it. Methods take and return
    the state they change. Error values are named by their text without the
    formatted arguments. A clock, a random string or the order of a map
    enumeration is an argument, or the theorem quantifies over it.

    ** What the theorems show

    - Codecs: bencode, peer messages, handshakes, extension messages, KRPC
      messages, addresses, hashes, bit fields, torrent files and magnet links
      round-trip exactly, within the conditions stated at each, consuming
      exactly their own bytes; the decoder of bencode answers on every input.
    - Connection: [HandleMessage] refines an abstract state per message; the
      message order rules hold for every accepted conversation; the server loop
      ends on every input and serves every legal stream up to the first message
      the encoder writes without its index; choke and interest agree at both
      ends. On top of it the downloader assembles the metadata
      from pieces in any order and delivers only verified bytes, and the block
      handler requests and hands over blocks one by one.
    - Storage: the blocks of a file tile it, merging ranges keeps their bytes,
      piece hashes cover all data, what is written is read back; the info made
      from a directory lists and hashes exactly its files.
    - DHT: [Closest] returns the nearest nodes; nodes sit in the bucket of
      their distance; tokens live for one rotation; every transaction is
      settled once; stored items are valid and their versions increase; the
      blacklist is bounded and answers as specified. Servers exchange a ping to
      its end unless one knows the other under another address, answer queries
      to their sender only, and return what was put, whatever happens in
      between. In every interleaving of packets, timers and calls the state of a
      running server stays consistent; a table stopped and opened again has its
      nodes, if the storage loads what was dumped.
    - Tracker: client and server run an announce to its end over UDP, or the
      server refuses an address it takes for IPv6; the HTTP client asks for
      exactly its request and returns exactly the response it is sent; the UDP
      server serves nobody who did not connect; however the
      workers of [GetPeers] are scheduled, every answer is accounted for.
    - Daemon: the queues stay well formed and activate their first torrents
      within the limit; exactly the listed addresses are blocked; the scheduler
      applies the best rule that matches the time; a peer exchange message
      announces what is new; web seeds fail after three failures in a row and a
      piece comes from the first that answers. The torrent manager keeps its
      torrents well formed under every operation, turns a magnet link whose
      metadata arrives into a running download, and verification counts
      exactly the pieces whose data hash right. [torrent-set] applies each of
      its fields to the torrents named and to no other, [session-get] returns
      what [session-set] stored, and a bandwidth schedule is replaced as a
      whole. Hooks run in order of priority, each as often as registered; a
      move of files that fails loses none of them. Custom metadata obey
      their constraints and a request applies exactly what it does not report.
      Events are taken in the order of their acceptance and each is handed once
      to its subscribers, in every interleaving, and the worker empties the
      channel unless it is shut down. Plugins run in order of
      registration, each on the result of the one before; a script sees the
      documented variables.
    - Front end: a request reaches a method exactly if it passes the checks of
      the server, and else changes nothing; behind the multiplexer the daemon
      changes by such requests and by uploads only, an upload adds exactly the
      bytes of its file, and a request for a static file opens its clean path
      inside the static directory and nothing else, or is refused; at most twice the configured requests pass the rate limiter in
      a second. A broadcast reaches exactly the subscribed clients.
    - Web seeds: a downloaded piece has the length and the hash of the piece
      and was answered for its range.
    - Stores: memory and files answer every history alike within the stated
      bounds, and a fault of the file system leaves the old or the new
      document, never half of one; the database gives no torrent back.
    - Defects found on the way are theorems too: each states the behaviour the
      code has where a comment or its evident purpose says otherwise.

    ** Fuel

    The decoder takes fuel [decode_fuel] computed from the length of its input,
    and [decode_terminates] shows that it is never exhausted. The server loop
    takes one more round than there are input bytes and
    [server_loop_terminates] shows that this is enough; the loop of the
    downloader takes one round per message and [metadata_download] gives a
    number that is enough. The allowed-fast set takes fuel because the loop of
    the source may not end ([fastset_diverges]). Loops that consume a list of
    bytes take its length as fuel, which [read_nodes_ok] and its like show to
    be enough. All other recursion is structural.

    ** Parameters

    Code outside the repository is an argument of the definitions that use it,
    with what is assumed of it stated at the theorem: the I2P key library (the
    class [I2PKeys] of [Address], [DestHashFromBytes] in [Extension] and
    [Pex]), the DNS lookup, [ed25519.Verify], the order in which a map is
    enumerated, [sort.Slice] (the class [SortSlice] of [GoLib]), the sockets
    and their failures, the storage of the routing table, HTTP requests and clients, the conversion of
    floating-point numbers out of range, the authority parser and the limit on
    parameters of [net/url], opening a file, and the handlers and callbacks a
    user supplies. The daemon adds the class [OperatingSystem] (what the
    torrent manager asks of the system), [Disk] with its laws [DiskLaws] (the
    file operations of the file manager), [MapRange] (the order of map
    enumeration; [SetRange] for string keys), [RequestJSON] (decoding the
    arguments of a request) and dialling I2P addresses. The front end adds
    [RpcJSON] (decoding a request), [StaticFS] (the static files) and the
    parsed form of an upload; the components around the daemon add
    [ScriptHost] (running scripts), [PluginDisk] (the files of a plugin), [SliceGrowth] (the capacity of a grown
    slice), [GoValue] and [Payload] (values the caller chose); the web seed
    client takes what the web answers, and the stores take the faults of the
    file system and the class [Bolt] (the database).

    ** Not modelled

    Goroutines and channels, except as sequences of the events they receive or
    as the step relations named above; locks (each method is atomic); dialling,
    listening, deadlines and logging; links in the file system; the texts of
    most [String] methods and of reports; the text of JSON documents; the
    completion of tracker URLs in [GetPeers]. The HTTP shims of [httptracker]
    for older versions of Go, the helpers of [src/utils] beyond addresses and
    the demonstration programs of [src/examples], which walk through the
    components modelled here and print, are not modelled. The uploader is a
    stub in the source. *)

From Stdlib Require Import String Ascii.
From stdpp Require Export base list gmap numbers option sorting.
From stdpp Require Export strings.
#[global] Open Scope Z_scope.

(** ** Bytes, strings and machine integers

    A Go byte is an integer of [0..255], a [[]byte] and a Go [string] are
    lists of bytes, and a [w]-bit integer is kept in [Z] with its wrap-around
    written out. *)
Abbreviation bytes := (list Z).

Definition wrap (w z : Z) : Z := z mod 2 ^ w.
Definition u8 (z : Z) : Z := wrap 8 z.
Definition u16 (z : Z) : Z := wrap 16 z.
Definition u32 (z : Z) : Z := wrap 32 z.
Definition u64 (z : Z) : Z := wrap 64 z.

(** Two's complement: the value of type [intw] with the low [w] bits of [z]. *)
Definition swrap (w z : Z) : Z :=
  let r := wrap w z in if decide (r < 2 ^ (w - 1)) then r else r - 2 ^ w.
Definition i32 (z : Z) : Z := swrap 32 z.
Definition i64 (z : Z) : Z := swrap 64 z.

Definition is_byte (b : Z) : Prop := 0 <= b < 256.
#[global] Instance is_byte_dec b : Decision (is_byte b).
Proof. unfold is_byte. apply _. Defined.

Abbreviation bytes_ok := (Forall is_byte).

(** A Rocq string literal as the bytes of the Go literal. *)
Fixpoint bs (s : string) : bytes :=
  match s with
  | EmptyString => []
  | String c s' => Z.of_N (N_of_ascii c) :: bs s'
  end.

(** Go's [len] is an [int]. *)
Definition len {A} (l : list A) : Z := Z.of_nat (length l).

(** ** Outcomes

    A Go function returns a value, returns an error, or panics. [NoFuel] is
    the answer of a fuelled loop that was cut short; each fuelled definition
    comes with a theorem that gives the fuel under which it never appears. *)
Inductive res (A : Type) : Type :=
  | Ok (a : A)
  | Err (e : string)
  | Panic (msg : string)
  | NoFuel.
Arguments Ok {A} _.
Arguments Err {A} _.
Arguments Panic {A} _.
Arguments NoFuel {A}.

#[global] Instance res_ret : MRet res := fun A a => Ok a.
#[global] Instance res_bind : MBind res := fun A B f m =>
  match m with Ok a => f a | Err e => Err e | Panic p => Panic p | NoFuel => NoFuel end.

Definition is_ok {A} (r : res A) : bool := match r with Ok _ => true | _ => false end.

(** ** Interfaces of the standard library used as such by the components. *)

(** [net.Addr], of which the components only print the address. *)
Class NetAddr (A : Type) := addr_String : A -> bytes.

(** ** Big-endian integers ([encoding/binary]) *)
Fixpoint be_bytes (n : nat) (z : Z) : bytes :=
  match n with
  | O => []
  | S n' => (z / 256 ^ Z.of_nat n') mod 256 :: be_bytes n' z
  end.

Fixpoint be_val (l : bytes) : Z :=
  match l with
  | [] => 0
  | x :: l' => x * 256 ^ Z.of_nat (length l') + be_val l'
  end.

(** ** Automation

    [go_db] holds the lemmas on lengths, bounds and byte lists that close the
    side conditions of the codecs; [go_simpl] rewrites with the equations of
    [go_rw]; [simp_res] inverts equalities between outcomes. *)
Create HintDb go_db discriminated.
Create Rewrite HintDb go_rw.

Ltac simp_res := simplify_eq.

(** Splits a bind that is known to have returned a value. *)
Ltac inv_bind_step H m :=
  let x := fresh "x" in
  let E := fresh "E" in
  destruct m as [x|?|?|] eqn:E; cbn [mbind res_bind] in H;
  [ lazymatch type of x with prod _ _ => destruct x | unit => destruct x | _ => idtac end;
    cbn beta iota in H
  | discriminate H | discriminate H | discriminate H ].

Ltac inv_bind :=
  repeat (simp_res; match goal with
  | H : mbind _ ?m = Ok _ |- _ => inv_bind_step H m
  end); simp_res.

Lemma bind_Ok {A B} (f : A -> res B) (a : A) : mbind f (Ok a) = f a.
Proof. done. Qed.

Lemma bind_NoFuel {A B} (f : A -> res B) (m : res A) :
  mbind f m = NoFuel -> m = NoFuel \/ exists a, m = Ok a /\ f a = NoFuel.
Proof. destruct m; cbn; eauto; discriminate. Qed.

(** Splits a bind that is supposed to have run out of fuel: one goal per
    action that could have. *)
Ltac inv_nofuel H :=
  let x := fresh "x" in
  let E := fresh "E" in
  apply bind_NoFuel in H as [H | (x & E & H)];
  [ | lazymatch type of x with prod _ _ => destruct x | unit => destruct x | _ => idtac end;
      cbn beta iota in H ].

Ltac go_simpl := autorewrite with go_rw in *.

(** Case analysis on the innermost test of the goal or of a hypothesis. *)
Ltac case_test :=
  match goal with
  | |- context [decide ?P] => destruct (decide P)
  | |- context [if ?b then _ else _] => let E := fresh "Eb" in destruct b eqn:E
  | H : context [decide ?P] |- _ => destruct (decide P)
  end.

(** ** Lengths *)
Lemma len_nil {A} : len (@nil A) = 0.
Proof. done. Qed.

Lemma len_cons {A} (x : A) l : len (x :: l) = 1 + len l.
Proof. unfold len. cbn [length]. lia. Qed.

Lemma len_app {A} (l k : list A) : len (l ++ k) = len l + len k.
Proof. unfold len. rewrite length_app. lia. Qed.

Lemma len_nonneg {A} (l : list A) : 0 <= len l.
Proof. unfold len. lia. Qed.

Lemma len_zero {A} (l : list A) : len l = 0 <-> l = [].
Proof. destruct l; [done|]. rewrite len_cons. pose proof (len_nonneg l). split; [lia|done]. Qed.

Lemma len_replicate {A} n (x : A) : len (replicate n x) = Z.of_nat n.
Proof. unfold len. by rewrite length_replicate. Qed.

#[export] Hint Rewrite @len_nil @len_cons @len_app @len_replicate : go_rw.
#[export] Hint Resolve len_nonneg : go_db.

(** ** Filtering all or nothing *)
Lemma filter_everything {A} (P : A -> Prop) `{forall x, Decision (P x)} l : Forall P l -> filter P l = l.
Proof. induction 1 as [|x l Hx _ IH]; [done|]. by rewrite filter_cons_True, IH. Qed.

Lemma filter_nothing {A} (P : A -> Prop) `{forall x, Decision (P x)} l : Forall (fun x => ~ P x) l -> filter P l = [].
Proof. induction 1 as [|x l Hx _ IH]; [done|]. by rewrite filter_cons_False, IH. Qed.

(** ** Wrap-around *)
Lemma wrap_range w z : 0 <= w -> 0 <= wrap w z < 2 ^ w.
Proof. intros. unfold wrap. apply Z.mod_pos_bound. lia. Qed.

Lemma wrap_small w z : 0 <= z < 2 ^ w -> wrap w z = z.
Proof. intros. by apply Z.mod_small. Qed.

Lemma u8_small z : 0 <= z < 256 -> u8 z = z.
Proof. intros. by apply wrap_small. Qed.

Lemma u16_small z : 0 <= z < 65536 -> u16 z = z.
Proof. intros. by apply wrap_small. Qed.

Lemma u32_small z : 0 <= z < 4294967296 -> u32 z = z.
Proof. intros. by apply wrap_small. Qed.

Lemma swrap_small w z : 0 < w -> - 2 ^ (w - 1) <= z < 2 ^ (w - 1) -> swrap w z = z.
Proof.
  intros Hw Hz. unfold swrap, wrap.
  assert (2 ^ w = 2 * 2 ^ (w - 1)) as E
    by (rewrite <- Z.pow_succ_r by lia; f_equal; lia).
  destruct (decide (0 <= z)).
  - rewrite Z.mod_small by lia. rewrite decide_True by lia. done.
  - replace (z mod 2 ^ w) with (z + 2 ^ w).
    + rewrite decide_False by lia. lia.
    + apply Z.mod_unique with (-1); lia.
Qed.

Lemma swrap_wrap w z : 0 <= w -> swrap w (wrap w z) = swrap w z.
Proof. intros. unfold swrap, wrap. rewrite Z.mod_mod by lia. done. Qed.

Lemma swrap_of_wrap w v z : 0 < w <= v -> - 2 ^ (w - 1) <= z < 2 ^ (w - 1) -> swrap w (wrap v z) = z.
Proof.
  intros Hw Hz. rewrite <- (swrap_small w z) at 2 by lia. unfold swrap, wrap.
  assert (E : (z mod 2 ^ v) mod 2 ^ w = z mod 2 ^ w); [|by rewrite E].
  replace v with (w + (v - w)) by lia. rewrite Z.pow_add_r by lia. rewrite Z.rem_mul_r by lia.
  rewrite Z.mul_comm, Z.mod_add by lia. apply Z.mod_mod. lia.
Qed.

Lemma wrap_swrap w z : 0 <= w -> wrap w (swrap w z) = wrap w z.
Proof.
  intros. unfold swrap. case_decide.
  - unfold wrap. by rewrite Z.mod_mod by lia.
  - unfold wrap. rewrite <- (Z.mod_add _ 1) by lia.
    replace (z mod 2 ^ w - 2 ^ w + 1 * 2 ^ w) with (z mod 2 ^ w) by lia.
    by rewrite Z.mod_mod by lia.
Qed.

(** ** Big-endian codec *)
Lemma length_be_bytes n z : length (be_bytes n z) = n.
Proof. induction n; cbn; congruence. Qed.

Lemma len_be_bytes n z : len (be_bytes n z) = Z.of_nat n.
Proof. unfold len. by rewrite length_be_bytes. Qed.
#[export] Hint Rewrite length_be_bytes len_be_bytes : go_rw.

Lemma be_bytes_ok n z : bytes_ok (be_bytes n z).
Proof. induction n; cbn; constructor; [apply Z.mod_pos_bound; lia | done]. Qed.
#[export] Hint Resolve be_bytes_ok : go_db.

Lemma be_val_range l : bytes_ok l -> 0 <= be_val l < 256 ^ Z.of_nat (length l).
Proof.
  induction 1 as [|x l Hx _ IH]; cbn [be_val length]; [done|].
  rewrite Nat2Z.inj_succ, Z.pow_succ_r by lia. unfold is_byte in Hx. nia.
Qed.

Lemma be_val_be_bytes n z : be_val (be_bytes n z) = z mod 256 ^ Z.of_nat n.
Proof.
  induction n as [|n IH]; [cbn; by rewrite Z.mod_1_r|].
  cbn [be_bytes be_val]. rewrite IH, length_be_bytes.
  rewrite Nat2Z.inj_succ, Z.pow_succ_r by lia.
  rewrite (Z.mul_comm 256), Z.rem_mul_r by lia. lia.
Qed.

Lemma be_val_be_bytes_id n z : 0 <= z < 256 ^ Z.of_nat n -> be_val (be_bytes n z) = z.
Proof. intros. rewrite be_val_be_bytes. by apply Z.mod_small. Qed.

Lemma be_bytes_mod n m z : (m <= n)%nat ->
  be_bytes m (z mod 256 ^ Z.of_nat n) = be_bytes m z.
Proof.
  induction m as [|m IH]; intros Hm; cbn [be_bytes]; [done|]. f_equal; [|apply IH; lia].
  assert (256 ^ Z.of_nat n = 256 ^ Z.of_nat m * 256 ^ (Z.of_nat n - Z.of_nat m)) as ->.
  { rewrite <- Z.pow_add_r by lia. f_equal. lia. }
  rewrite Z.rem_mul_r by lia.
  rewrite Z.mul_comm, Z.div_add by lia.
  rewrite (Z.div_small (z mod _)) by (apply Z.mod_pos_bound; lia). rewrite Z.add_0_l.
  replace (Z.of_nat n - Z.of_nat m) with (1 + (Z.of_nat n - Z.of_nat m - 1)) by lia.
  rewrite Z.pow_add_r by lia. change (256 ^ 1) with 256.
  rewrite Z.rem_mul_r by lia. rewrite Z.mul_comm, Z.mod_add by lia.
  by rewrite Z.mod_mod by lia.
Qed.

Lemma be_bytes_be_val l : bytes_ok l -> be_bytes (length l) (be_val l) = l.
Proof.
  induction 1 as [|x l Hx Hl IH]; cbn [be_val be_bytes length]; [done|].
  pose proof (be_val_range l Hl) as Hr. unfold is_byte in Hx. f_equal.
  - rewrite Z.div_add_l, Z.div_small, Z.add_0_r by lia. apply Z.mod_small. lia.
  - rewrite <- (be_bytes_mod (length l)) by lia.
    rewrite Z.add_comm, Z.mod_add, Z.mod_small by lia. done.
Qed.

(** Reading an integer of [n] bytes off the front of a buffer gives back what
    [binary.Write] wrote there. *)
Lemma take_be_bytes n z rest : take n (be_bytes n z ++ rest) = be_bytes n z.
Proof. apply take_app_length'. by rewrite length_be_bytes. Qed.

Lemma drop_be_bytes n z rest : drop n (be_bytes n z ++ rest) = rest.
Proof. apply drop_app_length'. by rewrite length_be_bytes. Qed.
#[export] Hint Rewrite take_be_bytes drop_be_bytes : go_rw.

Lemma be_bytes_wrap n z : be_bytes n (wrap (8 * Z.of_nat n) z) = be_bytes n z.
Proof.
  unfold wrap. replace (2 ^ (8 * Z.of_nat n)) with (256 ^ Z.of_nat n).
  - by apply be_bytes_mod.
  - rewrite Z.pow_mul_r by lia. done.
Qed.

Lemma bytes_ok_app l k : bytes_ok (l ++ k) <-> bytes_ok l /\ bytes_ok k.
Proof. apply Forall_app. Qed.

Lemma bs_ok s : bytes_ok (bs s).
Proof.
  induction s as [|c s IH]; cbn; constructor; [|done].
  unfold is_byte. pose proof (N_ascii_bounded c). lia.
Qed.
#[export] Hint Resolve bs_ok : go_db.

(** ** Go's order on strings, and sorting by key ([sort.Sort]) *)
Fixpoint bytes_cmp (a b : bytes) : comparison :=
  match a, b with
  | [], [] => Eq
  | [], _ :: _ => Lt
  | _ :: _, [] => Gt
  | x :: a', y :: b' => match x ?= y with Eq => bytes_cmp a' b' | c => c end
  end.

Definition bytes_le (a b : bytes) : Prop := bytes_cmp a b <> Gt.
Definition bytes_lt (a b : bytes) : Prop := bytes_cmp a b = Lt.

#[global] Instance bytes_le_dec a b : Decision (bytes_le a b).
Proof. unfold bytes_le. destruct (bytes_cmp a b); [left|left|right]; congruence. Defined.
#[global] Instance bytes_lt_dec a b : Decision (bytes_lt a b).
Proof. unfold bytes_lt. destruct (bytes_cmp a b); [right|left|right]; congruence. Defined.

Lemma bytes_cmp_eq a b : bytes_cmp a b = Eq <-> a = b.
Proof.
  revert b. induction a as [|x a IH]; intros [|y b]; cbn; try done.
  destruct (Z.compare_spec x y) as [-> | |]; [rewrite IH; naive_solver|..]; split; try done;
    intros [= ??]; lia.
Qed.

Lemma bytes_cmp_antisym a b : bytes_cmp b a = CompOpp (bytes_cmp a b).
Proof.
  revert b. induction a as [|x a IH]; intros [|y b]; cbn; try done.
  rewrite (Z.compare_antisym x y). destruct (x ?= y); cbn; auto.
Qed.

Lemma bytes_lt_trans a b c : bytes_lt a b -> bytes_lt b c -> bytes_lt a c.
Proof.
  unfold bytes_lt. revert b c. induction a as [|x a IH]; intros [|y b] [|z c]; cbn; try done.
  destruct (Z.compare_spec x y), (Z.compare_spec y z); intros; subst; try done;
    try (rewrite (proj2 (Z.compare_lt_iff _ _)) by lia; done).
  rewrite Z.compare_refl. eauto.
Qed.

Lemma bytes_le_lteq a b : bytes_le a b <-> bytes_lt a b \/ a = b.
Proof.
  unfold bytes_le, bytes_lt. rewrite <- bytes_cmp_eq. destruct (bytes_cmp a b); naive_solver.
Qed.

#[global] Instance bytes_le_trans : Transitive bytes_le.
Proof.
  intros a b c. rewrite !bytes_le_lteq. intros [?| ->] [?| ->]; eauto using bytes_lt_trans.
Qed.

#[global] Instance bytes_le_total : Total bytes_le.
Proof. intros a b. unfold bytes_le. rewrite (bytes_cmp_antisym a b). destruct (bytes_cmp a b); cbn; auto. Qed.

#[global] Instance bytes_le_antisymm : AntiSymm (=) bytes_le.
Proof.
  intros a b. unfold bytes_le. rewrite (bytes_cmp_antisym a b), <- (bytes_cmp_eq a b).
  destruct (bytes_cmp a b); done.
Qed.

Lemma bytes_lt_irrefl a : ~ bytes_lt a a.
Proof. unfold bytes_lt. rewrite (proj2 (bytes_cmp_eq a a) eq_refl). done. Qed.

Definition key_le {A} (p q : bytes * A) : Prop := bytes_le p.1 q.1.
#[global] Instance key_le_dec {A} (p q : bytes * A) : Decision (key_le p q).
Proof. unfold key_le. apply _. Defined.
#[global] Instance key_le_trans {A} : Transitive (@key_le A).
Proof. intros p q r. unfold key_le. apply transitivity. Qed.
#[global] Instance key_le_total {A} : Total (@key_le A).
Proof. intros p q. apply bytes_le_total. Qed.

Definition sort_keys {A} (l : list (bytes * A)) : list (bytes * A) := merge_sort key_le l.

Lemma nodup_keys_eq {A} (l : list (bytes * A)) p q :
  NoDup l.*1 -> p ∈ l -> q ∈ l -> p.1 = q.1 -> p = q.
Proof.
  induction l as [|r l IH]; cbn; intros Hnd Hp Hq E; [set_solver|].
  apply NoDup_cons in Hnd as [Hr Hnd].
  apply elem_of_cons in Hp as [->|Hp]; apply elem_of_cons in Hq as [->|Hq]; auto;
    destruct Hr; [rewrite E|rewrite <- E]; by apply list_elem_of_fmap_2.
Qed.

(** Sorting by distinct keys does not depend on the order of the input. *)
Lemma sort_keys_perm {A} (l k : list (bytes * A)) :
  NoDup l.*1 -> l ≡ₚ k -> sort_keys l = sort_keys k.
Proof.
  intros Hnd Hp. unfold sort_keys. apply (StronglySorted_unique_strong key_le).
  - intros p q Hpl Hql H1 H2. rewrite merge_sort_Permutation in Hpl. rewrite merge_sort_Permutation in Hql.
    apply (nodup_keys_eq l); [done..| by rewrite Hp | by apply bytes_le_antisymm].
  - apply StronglySorted_merge_sort; apply _.
  - apply StronglySorted_merge_sort; apply _.
  - by rewrite !merge_sort_Permutation.
Qed.

(** Strictly increasing keys. *)
Definition keys_sorted {A} (l : list (bytes * A)) : Prop := StronglySorted bytes_lt l.*1.

Lemma keys_sorted_nodup {A} (l : list (bytes * A)) : keys_sorted l -> NoDup l.*1.
Proof.
  unfold keys_sorted. generalize l.*1. induction 1 as [|x k _ IH Hx]; constructor; [|done].
  intros Hin. rewrite Forall_forall in Hx. by apply (bytes_lt_irrefl x), Hx.
Qed.

Lemma sort_keys_sorted {A} (l : list (bytes * A)) : keys_sorted l -> sort_keys l = l.
Proof.
  intros Hs. unfold sort_keys. symmetry. apply (StronglySorted_unique_strong key_le).
  - intros p q Hpl Hql H1 H2. rewrite merge_sort_Permutation in Hql.
    apply (nodup_keys_eq l); [by apply keys_sorted_nodup|done..| by apply bytes_le_antisymm].
  - unfold keys_sorted in Hs. clear -Hs. induction l as [|p l IH]; cbn in Hs; constructor.
    + inversion Hs; auto.
    + inversion_clear Hs as [|?? _ Hx]. rewrite Forall_fmap in Hx.
      eapply Forall_impl; [exact Hx|]. intros q Hq. apply bytes_le_lteq. by left.
  - apply StronglySorted_merge_sort; apply _.
  - by rewrite merge_sort_Permutation.
Qed.
