(* ===== verification/Strconv.v ===== *)
(** * Decimal text of integers

    The part of Go's [strconv] and [fmt] the sources call: the verb [%d]
    ([FormatInt]), [strconv.FormatUint] in a base up to 36, [strconv.ParseUint]
    and [strconv.ParseInt] in base 10. Parsing follows the loop of the standard
    library: one digit at a time with the overflow tests of a 64-bit
    accumulator, so that the theorems of the callers hold at machine width. *)

From S2P Require Import Prelude.

Module Strconv.

Definition ErrSyntax : string := "invalid syntax".
Definition ErrRange : string := "value out of range".

Definition digit_char (d : Z) : Z := if decide (d < 10) then 48 + d else 87 + d.

(** [format_aux] prints [n] in base [base]; [fuel] bounds the number of digits. *)
Fixpoint format_aux (fuel : nat) (base n : Z) : bytes :=
  match fuel with
  | O => []
  | S fuel' =>
      if decide (n < base) then [digit_char n]
      else format_aux fuel' base (n / base) ++ [digit_char (n mod base)]
  end.

Definition FormatUint (base n : Z) : bytes := format_aux (S (Z.to_nat (Z.log2 n))) base n.

(** The verb [%d]. *)
Definition FormatInt (n : Z) : bytes :=
  if decide (n < 0) then 45 :: FormatUint 10 (- n) else FormatUint 10 n.

(** Bytes as the text of an error, and a number in one. *)
Definition text (b : bytes) : string :=
  foldr (fun c s => String.String (Ascii.ascii_of_N (Z.to_N c)) s) EmptyString b.
Definition format_d (n : Z) : string := text (FormatInt n).

Lemma bs_text b : bytes_ok b -> bs (text b) = b.
Proof.
  induction 1 as [|c b Hc _ IH]; [done|].
  change (Z.of_N (Ascii.N_of_ascii (Ascii.ascii_of_N (Z.to_N c))) :: bs (text b) = c :: b). rewrite IH. f_equal. unfold is_byte in Hc.
  rewrite Ascii.N_ascii_embedding by lia. lia.
Qed.

Definition is_digit (c : Z) : bool := bool_decide (48 <= c <= 57).

Definition maxUint64 : Z := 2 ^ 64 - 1.

Fixpoint parse_loop (bits acc : Z) (s : bytes) : res Z :=
  match s with
  | [] => Ok acc
  | c :: s' =>
      if is_digit c then
        if decide (maxUint64 / 10 + 1 <= acc) then Err ErrRange
        else
          let n1 := acc * 10 + (c - 48) in
          if decide (maxUint64 < n1 \/ 2 ^ bits - 1 < n1) then Err ErrRange
          else parse_loop bits n1 s'
      else Err ErrSyntax
  end.

Definition ParseUint (bits : Z) (s : bytes) : res Z :=
  match s with [] => Err ErrSyntax | _ => parse_loop bits 0 s end.

Definition ParseInt (bits : Z) (s : bytes) : res Z :=
  match s with
  | [] => Err ErrSyntax
  | c :: s' =>
      let neg := bool_decide (c = 45) in
      let digits := if bool_decide (c = 43 \/ c = 45) then s' else s in
      match ParseUint bits digits with
      | Ok un =>
          if negb neg && bool_decide (2 ^ (bits - 1) <= un) then Err ErrRange
          else if neg && bool_decide (2 ^ (bits - 1) < un) then Err ErrRange
          else Ok (if neg then - un else un)
      | r => r
      end
  end.

(** ** Lemmas *)

Lemma parse_loop_app bits s1 s2 acc n :
  parse_loop bits acc s1 = Ok n -> parse_loop bits acc (s1 ++ s2) = parse_loop bits n s2.
Proof.
  revert acc. induction s1 as [|c s1 IH]; intros acc; cbn [parse_loop app]; intros H.
  - by simp_res.
  - repeat case_match; simp_res; eauto.
Qed.

Lemma is_digit_digit_char d : 0 <= d < 10 -> is_digit (digit_char d) = true.
Proof.
  intros. unfold is_digit, digit_char. rewrite decide_True by lia. rewrite bool_decide_true; [done|lia].
Qed.

Lemma parse_digit bits acc d s :
  0 <= acc -> 0 <= d < 10 -> 0 < bits <= 64 -> acc * 10 + d < 2 ^ bits ->
  parse_loop bits acc (digit_char d :: s) = parse_loop bits (acc * 10 + d) s.
Proof.
  intros Ha Hd Hb Hlt. cbn [parse_loop]. rewrite is_digit_digit_char by lia.
  assert (2 ^ bits <= 2 ^ 64) by (apply (Z.pow_le_mono_r 2 bits 64); lia).
  unfold digit_char. destruct (decide (d < 10)); [|lia].
  assert (~ maxUint64 / 10 + 1 <= acc).
  { unfold maxUint64. change ((2 ^ 64 - 1) / 10 + 1) with 1844674407370955162. lia. }
  rewrite decide_False by done. rewrite decide_False by (unfold maxUint64; lia).
  f_equal. lia.
Qed.

Lemma parse_format_aux fuel bits n :
  0 <= n < 2 ^ bits -> 0 < bits <= 64 -> n < 2 ^ Z.of_nat fuel ->
  parse_loop bits 0 (format_aux fuel 10 n) = Ok n.
Proof.
  revert n. induction fuel as [|fuel IH]; intros n Hn Hb Hf; cbn [format_aux].
  - cbn in Hf. replace n with 0 by lia. done.
  - case_decide.
    + rewrite parse_digit by lia. cbn. f_equal.
    + assert (n / 10 < 2 ^ Z.of_nat fuel).
      { rewrite Nat2Z.inj_succ, Z.pow_succ_r in Hf by lia.
        apply Z.div_lt_upper_bound; lia. }
      pose proof (Z.div_mod n 10 ltac:(lia)). pose proof (Z.mod_pos_bound n 10 ltac:(lia)).
      rewrite (parse_loop_app _ _ _ _ (n / 10)).
      * rewrite parse_digit by lia. cbn [parse_loop]. f_equal. lia.
      * apply IH; [split; [apply Z.div_pos; lia|lia] | lia | done].
Qed.

Lemma format_aux_nil fuel base n : format_aux (S fuel) base n <> [].
Proof. cbn [format_aux]. case_decide; [done|]. by destruct (format_aux fuel base (n / base)). Qed.

Lemma format_aux_digits fuel n :
  0 <= n -> Forall (fun c => is_digit c = true) (format_aux fuel 10 n).
Proof.
  revert n. induction fuel as [|fuel IH]; intros n Hn; cbn [format_aux]; [constructor|].
  case_decide.
  - constructor; [|done]. apply is_digit_digit_char; lia.
  - apply Forall_app. split; [apply IH; by apply Z.div_pos; lia|].
    constructor; [|done]. apply is_digit_digit_char. apply Z.mod_pos_bound. lia.
Qed.

Lemma log2_fuel n : 0 <= n -> n < 2 ^ Z.of_nat (S (Z.to_nat (Z.log2 n))).
Proof.
  intros Hn. pose proof (Z.log2_nonneg n).
  rewrite Nat2Z.inj_succ, Z2Nat.id by lia.
  destruct (decide (n = 0)) as [->|]; [cbn; lia|].
  apply Z.log2_spec. lia.
Qed.

Lemma FormatUint_digits n : 0 <= n -> Forall (fun c => is_digit c = true) (FormatUint 10 n).
Proof. apply format_aux_digits. Qed.

Lemma FormatUint_nonempty n : FormatUint 10 n <> [].
Proof. apply format_aux_nil. Qed.

Lemma ParseUint_FormatUint bits n :
  0 <= n < 2 ^ bits -> 0 < bits <= 64 -> ParseUint bits (FormatUint 10 n) = Ok n.
Proof.
  intros Hn Hb. unfold ParseUint.
  destruct (FormatUint 10 n) eqn:E; [by destruct (FormatUint_nonempty n)|].
  rewrite <- E. apply parse_format_aux; [done..|]. apply log2_fuel. lia.
Qed.

Lemma ParseInt_FormatInt bits n :
  - 2 ^ (bits - 1) <= n < 2 ^ (bits - 1) -> 0 < bits <= 64 ->
  ParseInt bits (FormatInt n) = Ok n.
Proof.
  intros Hn Hb. unfold FormatInt.
  assert (2 ^ bits = 2 * 2 ^ (bits - 1)) as E2
    by (rewrite <- Z.pow_succ_r by lia; f_equal; lia).
  case_decide as Hneg.
  - cbn [ParseInt]. rewrite !bool_decide_true by lia.
    rewrite ParseUint_FormatUint by lia. cbn [negb andb].
    rewrite bool_decide_false by lia. f_equal. lia.
  - unfold ParseInt. pose proof (FormatUint_digits n ltac:(lia)) as Hd.
    destruct (FormatUint 10 n) as [|c s] eqn:E; [by destruct (FormatUint_nonempty n)|].
    inversion_clear Hd as [|?? Hc _]. unfold is_digit in Hc. apply bool_decide_eq_true in Hc.
    rewrite !(bool_decide_false (c = 45)) by lia. rewrite (bool_decide_false (c = 43 \/ c = 45)) by lia.
    rewrite <- E, ParseUint_FormatUint by lia. cbn [negb andb].
    rewrite bool_decide_false by lia. done.
Qed.

(** A value that does not fit the width is refused, not truncated. *)
Lemma ParseInt_range bits s n :
  0 < bits <= 64 -> ParseInt bits s = Ok n -> - 2 ^ (bits - 1) <= n < 2 ^ (bits - 1).
Proof.
  intros Hb. unfold ParseInt. destruct s as [|c s']; [done|].
  assert (forall l un, ParseUint bits l = Ok un -> 0 <= un) as Hpos.
  { intros l un. unfold ParseUint. destruct l; [done|]. generalize (z :: l).
    assert (forall l acc, 0 <= acc -> parse_loop bits acc l = Ok un -> 0 <= un) as Hl.
    { clear. induction l as [|c l IH]; intros acc Ha; cbn [parse_loop]; intros H; [by simp_res|].
      repeat case_match; simp_res; try done. eapply IH; [|done].
      match goal with H : is_digit c = true |- _ => unfold is_digit in H; apply bool_decide_eq_true in H end.
      lia. }
    intros l'. apply Hl. lia. }
  destruct (ParseUint bits _) as [un| | |] eqn:E; try done. specialize (Hpos _ _ E).
  destruct (bool_decide (c = 45)); cbn [negb andb]; repeat case_bool_decide; intros; simp_res; lia.
Qed.

Lemma FormatInt_chars n :
  Forall (fun c => is_digit c = true \/ c = 45) (FormatInt n) /\ FormatInt n <> [].
Proof.
  unfold FormatInt. case_decide; split; try done.
  - constructor; [by right|]. pose proof (FormatUint_digits (- n) ltac:(lia)) as Hd.
    eapply Forall_impl; [exact Hd|]. by left.
  - pose proof (FormatUint_digits n ltac:(lia)) as Hd.
    eapply Forall_impl; [exact Hd|]. by left.
  - apply FormatUint_nonempty.
Qed.

Lemma is_digit_spec c : is_digit c = true <-> 48 <= c <= 57.
Proof. apply bool_decide_eq_true. Qed.

Lemma FormatInt_bytes_ok n : bytes_ok (FormatInt n).
Proof.
  eapply Forall_impl; [exact (proj1 (FormatInt_chars n))|]. intros c [Hc%is_digit_spec | ->];
    unfold is_byte; lia.
Qed.

Lemma ParseUint_fuel bits s : ParseUint bits s <> NoFuel.
Proof.
  unfold ParseUint. destruct s as [|c s]; [done|].
  generalize (c :: s), 0. clear. induction l as [|c l IH]; intros acc; cbn [parse_loop]; [done|].
  repeat case_match; done.
Qed.

Lemma ParseInt_fuel bits s : ParseInt bits s <> NoFuel.
Proof.
  unfold ParseInt. destruct s as [|c s]; [done|].
  pose proof (ParseUint_fuel bits (if bool_decide (c = 43 \/ c = 45) then s else c :: s)).
  destruct (ParseUint bits _); try done. repeat case_match; done.
Qed.
#[export] Hint Resolve ParseUint_fuel ParseInt_fuel : go_db.

End Strconv.
