(* ===== verification/Bencode.v ===== *)
(** * Package bencode: the encoder and the decoder

    Models [src/bencode/encode.go], [src/bencode/decode.go], [src/bencode/tag.go]
    and [src/bencode/raw.go]. The code works by reflection, so the model has a
    universe of the Go types and values it is used at: [gotype] is what
    [reflect.Type] tells the decoder, [goval] what [reflect.Value] tells the
    encoder. A type with its own [UnmarshalBencode] is [TCustom], carrying that
    method; a value with its own [MarshalBencode] is [VCustom], carrying the
    bytes the method returns.

    Not in the universe: pointers inside values, fixed-size arrays without
    methods of their own, channels and functions ([TOther]/[VOther] stand for
    kinds the package refuses). Struct tags are ASCII, as all those of the
    repository are. A decoding that fails returns the error without the
    partially filled target. *)

From S2P Require Import Prelude Strconv.
Import Strconv.

Module Bencode.

(** ** Types and values *)

(** [reflect.StructField]: [fi_tag] is [Tag.Get("bencode")] and [fi_tagged]
    tells whether the whole tag string is non-empty. *)
Record finfo := FInfo {
  fi_name : bytes;
  fi_tag : bytes;
  fi_tagged : bool;
  fi_exported : bool;
  fi_anonymous : bool
}.

(** A slice, a map or a byte slice is [None] when nil. A map is kept as the
    list of its entries in increasing order of the keys. *)
Inductive goval : Type :=
  | VInt (z : Z)
  | VUint (z : Z)
  | VBool (b : bool)
  | VString (s : bytes)
  | VBytes (o : option bytes)
  | VRaw (o : option bytes)
  | VByteArray (l : bytes)
  | VSlice (o : option (list goval))
  | VMap (o : option (list (bytes * goval)))
  | VStruct (fs : list (finfo * goval))
  | VIface (o : option goval)
  | VCustom (repr : goval) (marshal : res bytes)
  | VText (repr : goval) (marshal : res bytes)
  | VOther.

Inductive gotype : Type :=
  | TInt (bits : Z)
  | TUint (bits : Z)
  | TBool
  | TString
  | TBytes
  | TRaw
  | TSlice (t : gotype)
  | TMap (t : gotype)
  | TMapOtherKey (t : gotype)
  | TStruct (fs : list (finfo * gotype))
  | TIface
  | TCustom (zero : goval) (unmarshal : goval -> bytes -> res goval)
  | TText (zero : goval) (unmarshal : bytes -> res goval)
  | TOther.

(** [reflect.Zero]. *)
Fixpoint zero_of (t : gotype) : goval :=
  match t with
  | TInt _ => VInt 0
  | TUint _ => VUint 0
  | TBool => VBool false
  | TString => VString []
  | TBytes => VBytes None
  | TRaw => VRaw None
  | TSlice _ => VSlice None
  | TMap _ => VMap None
  | TMapOtherKey _ => VOther
  | TStruct fs =>
      VStruct ((fix go (fs : list (finfo * gotype)) : list (finfo * goval) :=
        match fs with [] => [] | (fi, ft) :: fs' => (fi, zero_of ft) :: go fs' end) fs)
  | TIface => VIface None
  | TCustom z _ => z
  | TText z _ => z
  | TOther => VOther
  end.

(** ** tag.go *)

(** [strings.Index(s, ",")] and the two halves around the comma. *)
Fixpoint split_comma (s : bytes) : option (bytes * bytes) :=
  match s with
  | [] => None
  | c :: s' =>
      if decide (c = 44) then Some ([], s')
      else match split_comma s' with Some (a, b) => Some (c :: a, b) | None => None end
  end.

Definition parseTag (tag : bytes) : bytes * bytes :=
  match split_comma tag with Some (name, opts) => (name, opts) | None => (tag, []) end.

(** [tagOptions.Contains]; the loop shortens [s] at each turn. *)
Fixpoint options_Contains (fuel : nat) (s optionName : bytes) : bool :=
  match fuel with
  | O => false
  | S fuel' =>
      match s with
      | [] => false
      | _ =>
          let '(s1, next) := match split_comma s with Some (a, b) => (a, b) | None => (s, []) end in
          if decide (s1 = optionName) then true else options_Contains fuel' next optionName
      end
  end.

Definition Contains (options optionName : bytes) : bool :=
  options_Contains (S (length options)) options optionName.

Definition is_letter (c : Z) : bool := bool_decide (65 <= c <= 90 \/ 97 <= c <= 122).

Definition tag_char (c : Z) : bool :=
  bool_decide (c = 32 \/ c = 36 \/ c = 45 \/ c = 95 \/ c = 46) || is_letter c || is_digit c.

Definition isValidTag (key : bytes) : bool :=
  match key with [] => false | _ => forallb tag_char key end.

(** [reflect.Value.IsZero]. *)
Fixpoint isZero (v : goval) : bool :=
  match v with
  | VInt z | VUint z => bool_decide (z = 0)
  | VBool b => negb b
  | VString s => bool_decide (s = [])
  | VBytes o | VRaw o => match o with None => true | Some _ => false end
  | VByteArray l => forallb (fun b => bool_decide (b = 0)) l
  | VSlice o => match o with None => true | Some _ => false end
  | VMap o => match o with None => true | Some _ => false end
  | VStruct fs =>
      (fix go (fs : list (finfo * goval)) : bool :=
        match fs with [] => true | (_, fv) :: fs' => isZero fv && go fs' end) fs
  | VIface o => match o with None => true | Some _ => false end
  | VCustom r _ | VText r _ => isZero r
  | VOther => true
  end.

Fixpoint isEmptyValue (v : goval) : bool :=
  match v with
  | VByteArray l => bool_decide (len l = 0)
  | VMap o => match o with None => true | Some m => bool_decide (len m = 0) end
  | VSlice o => match o with None => true | Some l => bool_decide (len l = 0) end
  | VBytes o | VRaw o => match o with None => true | Some l => bool_decide (len l = 0) end
  | VString s => bool_decide (len s = 0)
  | VBool b => negb b
  | VInt z | VUint z => bool_decide (z = 0)
  | VIface o => match o with None => true | Some _ => false end
  | VCustom r _ | VText r _ => isEmptyValue r
  | _ => isZero v
  end.

(** ** encode.go *)

Definition isNilValue (v : goval) : bool := match v with VIface None => true | _ => false end.

(** [shouldProcessField] and [processFieldTag]: the key of a field, [None]
    when the field is left out. *)
Definition shouldProcessField (fi : finfo) (fv : goval) : bool :=
  if fi_exported fi then negb (isNilValue fv) else false.

Definition processFieldTag (fi : finfo) (fv : goval) : option bytes :=
  let tagValue := fi_tag fi in
  if decide (tagValue = []) then Some (fi_name fi)
  else if decide (tagValue = bs "-") then None
  else
    let '(name, options) := parseTag tagValue in
    if Contains options (bs "omitempty") && isEmptyValue fv then None
    else if isValidTag name then Some name else Some (fi_name fi).

Definition shouldEmbedAnonymousStruct (fi : finfo) (fv : goval) : bool :=
  fi_anonymous fi && (match fv with VStruct _ => true | _ => false end) && bool_decide (fi_tag fi = []).

(** [fmt.Fprintf(w, "%d:%s", len(b), b)]. *)
Definition encode_string (b : bytes) : bytes := FormatInt (len b) ++ [58] ++ b.

Definition encodeNumeric (n : Z) : bytes := [105] ++ FormatInt n ++ [101].

(** Concatenates the entries of a dictionary: the key, then the value. *)
Fixpoint encode_entries (l : list (bytes * res bytes)) : res bytes :=
  match l with
  | [] => Ok []
  | (k, rv) :: l' =>
      v ← rv; rest ← encode_entries l'; Ok (encode_string k ++ v ++ rest)
  end.

Fixpoint encode_seq (l : list (res bytes)) : res bytes :=
  match l with
  | [] => Ok []
  | rv :: l' => v ← rv; rest ← encode_seq l'; Ok (v ++ rest)
  end.

(** [encodeValue], paired with the entries [readStruct] collects when the
    value is a struct. *)
Fixpoint encode_with (v : goval) : res bytes * list (bytes * res bytes) :=
  match v with
  | VInt z | VUint z => (Ok (encodeNumeric z), [])
  | VBool b => (Ok (encodeNumeric (if b then 1 else 0)), [])
  | VString s => (Ok (encode_string s), [])
  | VBytes o => (Ok (encode_string (default [] o)), [])
  | VRaw o => (Ok (default [] o), [])
  | VByteArray l => (Ok ([108] ++ concat (map encodeNumeric l) ++ [101]), [])
  | VSlice o =>
      (body ← encode_seq (match o with
          | None => []
          | Some l => (fix go (l : list goval) : list (res bytes) :=
              match l with [] => [] | x :: l' => (encode_with x).1 :: go l' end) l
          end);
       Ok ([108] ++ body ++ [101]), [])
  | VMap o =>
      (body ← encode_entries (sort_keys (match o with
          | None => []
          | Some m => (fix go (m : list (bytes * goval)) : list (bytes * res bytes) :=
              match m with
              | [] => []
              | (k, x) :: m' => (if isNilValue x then [] else [(k, (encode_with x).1)]) ++ go m'
              end) m
          end));
       Ok ([100] ++ body ++ [101]), [])
  | VStruct fs =>
      let dict := (fix readStruct (fs : list (finfo * goval)) : list (bytes * res bytes) :=
        match fs with
        | [] => []
        | (fi, fv) :: fs' =>
            (if shouldProcessField fi fv then
               match processFieldTag fi fv with
               | None => []
               | Some rkey =>
                   if shouldEmbedAnonymousStruct fi fv then (encode_with fv).2
                   else [(rkey, (encode_with fv).1)]
               end
             else []) ++ readStruct fs'
        end) fs in
      (body ← encode_entries (sort_keys dict); Ok ([100] ++ body ++ [101]), dict)
  | VIface None => (Ok [], [])
  | VIface (Some x) => ((encode_with x).1, [])
  | VCustom _ m => (m, [])
  | VText _ m => (b ← m; Ok (encode_string b), [])
  | VOther => (Err "can't encode type", [])
  end.

Definition encodeValue (v : goval) : res bytes := (encode_with v).1.

Definition EncodeBytes (v : goval) : res bytes := encodeValue v.

(** ** decode.go *)

(** The decoder over an in-memory reader ([bytes.Reader], [strings.Reader]):
    [d_r] is the unread input, [d_buf] the bytes recorded while [d_raw] is
    set, [d_n] the count behind [BytesParsed]. *)
Record Decoder := MkDecoder {
  d_r : bytes;
  d_raw : bool;
  d_buf : bytes;
  d_n : Z;
  d_failUnordered : bool
}.

Definition NewDecoder (r : bytes) : Decoder := MkDecoder r false [] 0 false.
Definition SetFailOnUnorderedKeys (fail : bool) (d : Decoder) : Decoder :=
  MkDecoder (d_r d) (d_raw d) (d_buf d) (d_n d) fail.
Definition BytesParsed (d : Decoder) : Z := d_n d.

Definition set_raw (raw : bool) (buf : bytes) (d : Decoder) : Decoder :=
  MkDecoder (d_r d) raw buf (d_n d) (d_failUnordered d).

Definition EOF : string := "EOF".
Definition ErrUnexpectedEOF : string := "unexpected EOF".

(** What every reading method does with the [p] bytes it took off the input:
    it records them when [d_raw] is set and counts them. *)
Definition took (p rest : bytes) (d : Decoder) : Decoder :=
  MkDecoder rest (d_raw d) (if d_raw d then d_buf d ++ p else d_buf d) (d_n d + len p) (d_failUnordered d).

Fixpoint split_delim (delim : Z) (l : bytes) : option (bytes * bytes) :=
  match l with
  | [] => None
  | c :: l' =>
      if decide (c = delim) then Some ([c], l')
      else match split_delim delim l' with Some (a, b) => Some (c :: a, b) | None => None end
  end.

Definition readBytes (delim : Z) (d : Decoder) : res (bytes * Decoder) :=
  match split_delim delim (d_r d) with
  | Some (line, rest) => Ok (line, took line rest d)
  | None => Err EOF
  end.

Definition readByte (d : Decoder) : res (Z * Decoder) :=
  match d_r d with
  | [] => Err EOF
  | b :: rest => Ok (b, took [b] rest d)
  end.

Definition readFull (l : Z) (d : Decoder) : res (bytes * Decoder) :=
  if decide (l <= len (d_r d)) then
    Ok (take (Z.to_nat l) (d_r d), took (take (Z.to_nat l) (d_r d)) (drop (Z.to_nat l) (d_r d)) d)
  else if decide (d_r d = []) then Err EOF else Err ErrUnexpectedEOF.

Definition peekByte (d : Decoder) : res Z :=
  match d_r d with [] => Err EOF | b :: _ => Ok b end.

(** The target of a decoding: [None] is the invalid [reflect.Value] used in
    raw mode, [Some (t, v)] a settable value of type [t] holding [v]. *)
Abbreviation target := (option (gotype * goval)).

Definition target_val (tv : target) : goval := match tv with Some (_, v) => v | None => VOther end.

(** *** Integers *)
Definition readIntegerDigits (d : Decoder) : res (bytes * Decoder) :=
  '(ch, d1) ← readByte d;
  if decide (ch = 105) then
    '(line, d2) ← readBytes 101 d1;
    if d_raw d2 then Ok ([], d2) else Ok (take (length line - 1) line, d2)
  else Panic "got not an i when peek returned an i".

Definition assignIntegerValue (tv : target) (digits : bytes) : res goval :=
  match tv with
  | None => Ok VOther
  | Some (TIface, _) => n ← ParseInt 64 digits; Ok (VIface (Some (VInt n)))
  | Some (TInt bits, _) => n ← ParseInt 64 digits; Ok (VInt (swrap bits n))
  | Some (TUint bits, _) => n ← ParseUint 64 digits; Ok (VUint (wrap bits n))
  | Some (TBool, _) => n ← ParseUint 64 digits; Ok (VBool (negb (bool_decide (n = 0))))
  | Some (_, _) => Err "Cannot store int64"
  end.

Definition decodeInt (tv : target) (d : Decoder) : res (goval * Decoder) :=
  '(digits, d1) ← readIntegerDigits d;
  v ← assignIntegerValue tv digits;
  Ok (v, d1).

(** *** Strings *)
Definition assignStringValue (tv : target) (buf : bytes) : res goval :=
  match tv with
  | Some (TBytes, _) => Ok (VBytes (Some buf))
  | Some (TString, _) => Ok (VString buf)
  | Some (TIface, _) => Ok (VIface (Some (VString buf)))
  | _ => Err "Cannot store string"
  end.

Definition decodeString (tv : target) (d : Decoder) : res (goval * Decoder) :=
  '(line, d1) ← readBytes 58 d;
  l ← ParseInt 32 (take (length line - 1) line);
  if decide (l < 0) then Err "invalid negative string length"
  else
    '(buf, d2) ← readFull l d1;
    if d_raw d2 then Ok (target_val tv, d2)
    else v ← assignStringValue tv buf; Ok (v, d2).

(** *** Struct fields *)

(** [extractFieldName]. *)
Definition extractFieldName (fi : finfo) : bytes :=
  let '(name, _) := parseTag (fi_tag fi) in
  if decide (name = []) then (if fi_anonymous fi then [] else fi_name fi) else name.

(** [setStructValues]: the keys of a struct with the path of the field each
    one is decoded into, a later entry replacing an earlier one. *)
Fixpoint setStructValues (t : gotype) : list (bytes * list nat) :=
  match t with
  | TStruct fs =>
      let processEmbeddedFields :=
        (fix go (i : nat) (fs : list (finfo * gotype)) : list (bytes * list nat) :=
          match fs with
          | [] => []
          | (fi, ft) :: fs' =>
              (if fi_exported fi && fi_anonymous fi && negb (fi_tagged fi)
               then map (fun e => (e.1, i :: e.2)) (setStructValues ft) else []) ++ go (S i) fs'
          end) O fs in
      let processRegularFields :=
        (fix go (i : nat) (fs : list (finfo * gotype)) : list (bytes * list nat) :=
          match fs with
          | [] => []
          | (fi, ft) :: fs' =>
              let name := extractFieldName fi in
              (if fi_exported fi && negb (bool_decide (name = [])) && isValidTag name
               then [(name, [i])] else []) ++ go (S i) fs'
          end) O fs in
      processEmbeddedFields ++ processRegularFields
  | _ => []
  end.

(** [vals[key]] after the assignments of the list, in order. *)
Fixpoint assoc_get {A} (key : bytes) (l : list (bytes * A)) : option A :=
  match l with
  | [] => None
  | (k, x) :: l' => if decide (k = key) then Some x else assoc_get key l'
  end.

Definition lookup_last {A} (key : bytes) (l : list (bytes * A)) : option A :=
  assoc_get key (reverse l).

Fixpoint type_at (p : list nat) (t : gotype) : option gotype :=
  match p, t with
  | [], _ => Some t
  | i :: p', TStruct fs => match fs !! i with Some (_, ft) => type_at p' ft | None => None end
  | _, _ => None
  end.

Fixpoint val_at (p : list nat) (v : goval) : option goval :=
  match p, v with
  | [], _ => Some v
  | i :: p', VStruct fs => match fs !! i with Some (_, fv) => val_at p' fv | None => None end
  | _, _ => None
  end.

Fixpoint val_set (p : list nat) (x : goval) (v : goval) : goval :=
  match p, v with
  | [], _ => x
  | i :: p', VStruct fs =>
      match fs !! i with
      | Some (fi, fv) => VStruct (<[i := (fi, val_set p' x fv)]> fs)
      | None => v
      end
  | _, _ => v
  end.

(** *** Dictionaries *)

(** [v.SetMapIndex(key, subv)]. *)
Fixpoint map_put {A} (key : bytes) (x : A) (m : list (bytes * A)) : list (bytes * A) :=
  match m with
  | [] => [(key, x)]
  | (k, y) :: m' =>
      match bytes_cmp key k with
      | Lt => (key, x) :: m
      | Eq => (key, x) :: m'
      | Gt => (k, y) :: map_put key x m'
      end
  end.

(** What [setupDictTarget] prepares: a map with its element type, or a struct
    with the table of its fields. *)
Inductive dict_target : Type :=
  | DMap (elem : gotype) (m : list (bytes * goval))
  | DStruct (t : gotype) (v : goval).

Definition setupDictTarget (tv : target) : res dict_target :=
  match tv with
  | Some (TMap t, VMap o) => Ok (DMap t (default [] o))
  | Some (TStruct fs, v) => Ok (DStruct (TStruct fs) v)
  | _ => Err "Can't store a map[string]interface{}"
  end.

Definition dict_val (dt : dict_target) : goval :=
  match dt with DMap _ m => VMap (Some m) | DStruct _ v => v end.

(** [prepareValueTarget]: [None] when the key names no field. *)
Definition prepareValueTarget (dt : dict_target) (key : bytes) : target :=
  match dt with
  | DMap t _ => Some (t, zero_of t)
  | DStruct t v =>
      match lookup_last key (setStructValues t) with
      | Some p =>
          match type_at p t, val_at p v with Some ft, Some fv => Some (ft, fv) | _, _ => None end
      | None => None
      end
  end.

Definition store_value (dt : dict_target) (key : bytes) (x : goval) : dict_target :=
  match dt with
  | DMap t m => DMap t (map_put key x m)
  | DStruct t v =>
      match lookup_last key (setStructValues t) with
      | Some p => DStruct t (val_set p x v)
      | None => dt
      end
  end.

(** [validateKeyOrder]; [last] is [None] before the first key. *)
Definition validateKeyOrder (d : Decoder) (last : option bytes) (key : bytes) : res unit :=
  match last with
  | Some lastKey =>
      if d_failUnordered d && bool_decide (bytes_lt key lastKey)
      then Err "unordered dictionary" else Ok tt
  | None => Ok tt
  end.

Definition readDictKey (d : Decoder) : res (bytes * Decoder) :=
  '(v, d1) ← decodeString (Some (TString, VString [])) d;
  match v with VString key => Ok (key, d1) | _ => Ok ([], d1) end.

(** [checkDictEnd], also the test at the head of the list loops: [None] when
    the end marker has been consumed. *)
Definition checkEnd (d : Decoder) : res (option Decoder) :=
  ch ← peekByte d;
  if decide (ch = 101) then '(_, d1) ← readByte d; Ok (Some d1) else Ok None.

(** [consumeListToken] and [consumeDictToken]. *)
Definition consumeToken (tok : Z) (d : Decoder) : res Decoder :=
  '(ch, d1) ← readByte d;
  if decide (ch = tok) then Ok d1 else Panic "got an incorrect token when it was checked already".

(** [decodeList] and [decodeDict], given the loops over the elements. *)
Definition decodeList (rawLoop : Decoder -> res Decoder)
    (loop : gotype -> list goval -> list goval -> Decoder -> res (list goval * Decoder))
    (tv : target) (d : Decoder) : res (goval * Decoder) :=
  if d_raw d then
    d1 ← consumeToken 108 d; d2 ← rawLoop d1; Ok (target_val tv, d2)
  else
    match tv with
    | Some (TIface, _) =>
        d1 ← consumeToken 108 d;
        '(l, d2) ← loop TIface [] [] d1;
        Ok (VIface (Some (VSlice (if decide (l = []) then None else Some l))), d2)
    | Some (TSlice t, VSlice o) =>
        d1 ← consumeToken 108 d;
        '(l, d2) ← loop t [] (default [] o) d1;
        Ok (VSlice (if decide (l = []) then o else Some l), d2)
    | Some (TBytes, VBytes o) =>
        d1 ← consumeToken 108 d;
        '(l, d2) ← loop (TUint 8) [] (map VUint (default [] o)) d1;
        Ok (VBytes (if decide (l = []) then o
                    else Some (map (fun x => match x with VUint b => b | _ => 0 end) l)), d2)
    | _ => Err "Cant store a []interface{}"
    end.

Definition decodeDict (rawLoop : Decoder -> res Decoder)
    (loop : dict_target -> option bytes -> Decoder -> res (dict_target * Decoder))
    (tv : target) (d : Decoder) : res (goval * Decoder) :=
  d1 ← consumeToken 100 d;
  if d_raw d then
    d2 ← rawLoop d1; Ok (target_val tv, d2)
  else
    match tv with
    | Some (TIface, _) =>
        '(dt, d2) ← loop (DMap TIface []) None d1; Ok (VIface (Some (dict_val dt)), d2)
    | _ =>
        dt ← setupDictTarget tv;
        '(dt', d2) ← loop dt None d1; Ok (dict_val dt', d2)
    end.

Definition dispatchDecodeByType (decList decDict : target -> Decoder -> res (goval * Decoder))
    (tv : target) (d : Decoder) : res (goval * Decoder) :=
  next ← peekByte d;
  if decide (next = 105) then decodeInt tv d
  else if is_digit next then decodeString tv d
  else if decide (next = 108) then decList tv d
  else if decide (next = 100) then decDict tv d
  else Err "invalid input".

(** Decoding into a [RawMessage]: raw mode for the rest of the call. *)
Definition decodeRawMessage (dispatch : target -> Decoder -> res (goval * Decoder))
    (d : Decoder) : res (bytes * Decoder) :=
  '(_, d1) ← dispatch None (set_raw true [] d);
  Ok (d_buf d1, set_raw false (d_buf d1) d1).

(** The recursion: [fuel] bounds the number of values and elements met; twice
    the length of the input plus two is enough. A target of an interface type is
    taken as nil, as every caller here passes it: [indirect] descends into the
    value a non-nil one holds, where this overwrites it. *)
Fixpoint decodeInto (fuel : nat) (tv : target) (d : Decoder) {struct fuel} : res (goval * Decoder) :=
  match fuel with
  | O => NoFuel
  | S f =>
      let dispatch :=
        dispatchDecodeByType
          (decodeList (processListInRawMode f) (processListElements f))
          (decodeDict (processDictInRawMode f) (processDictKeyValuePairs f)) in
      if d_raw d then dispatch tv d
      else
        match tv with
        | Some (TCustom _ um, v) =>
            '(x, d1) ← decodeRawMessage dispatch d; v' ← um v x; Ok (v', d1)
        | Some (TText _ um, _) =>
            '(b, d1) ← decodeString (Some (TBytes, VBytes None)) d;
            match b with VBytes (Some x) => v' ← um x; Ok (v', d1) | _ => Ok (b, d1) end
        | Some (TRaw, _) =>
            '(x, d1) ← decodeRawMessage dispatch d; Ok (VRaw (Some x), d1)
        | _ => dispatch tv d
        end
  end
with processListInRawMode (fuel : nat) (d : Decoder) {struct fuel} : res Decoder :=
  match fuel with
  | O => NoFuel
  | S f =>
      e ← checkEnd d;
      match e with
      | Some d1 => Ok d1
      | None => '(_, d1) ← decodeInto f None d; processListInRawMode f d1
      end
  end
with processListElements (fuel : nat) (t : gotype) (acc old : list goval) (d : Decoder)
    {struct fuel} : res (list goval * Decoder) :=
  match fuel with
  | O => NoFuel
  | S f =>
      e ← checkEnd d;
      match e with
      | Some d1 => Ok (reverse acc ++ old, d1)
      | None =>
          '(x, d1) ← decodeInto f (Some (t, default (zero_of t) (head old))) d;
          processListElements f t (x :: acc) (tail old) d1
      end
  end
with processDictInRawMode (fuel : nat) (d : Decoder) {struct fuel} : res Decoder :=
  match fuel with
  | O => NoFuel
  | S f =>
      e ← checkEnd d;
      match e with
      | Some d1 => Ok d1
      | None =>
          '(_, d1) ← decodeString None d;
          '(_, d2) ← decodeInto f None d1;
          processDictInRawMode f d2
      end
  end
with processDictKeyValuePairs (fuel : nat) (dt : dict_target) (last : option bytes) (d : Decoder)
    {struct fuel} : res (dict_target * Decoder) :=
  match fuel with
  | O => NoFuel
  | S f =>
      e ← checkEnd d;
      match e with
      | Some d1 => Ok (dt, d1)
      | None =>
          '(key, d1) ← readDictKey d;
          _ ← validateKeyOrder d1 last key;
          match prepareValueTarget dt key with
          | None =>
              (* skipInvalidValue *)
              '(_, d2) ← decodeInto f (Some (TIface, VIface None)) d1;
              processDictKeyValuePairs f dt (Some key) d2
          | Some tv =>
              '(x, d2) ← decodeInto f (Some tv) d1;
              processDictKeyValuePairs f (store_value dt key x) (Some key) d2
          end
      end
  end.

Definition decode_fuel (b : bytes) : nat := 2 * length b + 2.

(** [Decoder.Decode] at a pointer to a value [v] of type [t]. *)
Definition Decode (t : gotype) (v : goval) (d : Decoder) : res (goval * Decoder) :=
  decodeInto (decode_fuel (d_r d)) (Some (t, v)) d.

Definition DecodeBytes (b : bytes) (t : gotype) (v : goval) : res goval :=
  '(v', _) ← Decode t v (NewDecoder b); Ok v'.

End Bencode.
