(* ===== verification/BencodeFacts.v ===== *)
(** * Theorems about package bencode

    - every successful decoding consumes a non-empty prefix of the input,
      counts it and, in raw mode, records exactly it ([reads]);
    - the decoder terminates: [decode_fuel] is always enough;
    - [bval], the abstract bencode data, is encoded and decoded back in both
      the generic ([interface{}]) and the raw mode;
    - the output of the encoder is a function of the map, not of the order in
      which Go iterates over it. *)

From S2P Require Import Prelude Strconv Bencode.
Import Strconv Bencode.

Module BencodeFacts.

(** ** Consumption *)

Definition reads (d : Decoder) (p : bytes) (d' : Decoder) : Prop :=
  d_r d = p ++ d_r d' /\ d_raw d' = d_raw d /\ d_failUnordered d' = d_failUnordered d /\
  d_n d' = d_n d + len p /\ (d_raw d = true -> d_buf d' = d_buf d ++ p).

Definition consumes (d d' : Decoder) : Prop := exists p, p <> [] /\ reads d p d'.

(** The consumption step of a sub-decoder, carried by the hint database of
    this file. *)
Create HintDb bencode discriminated.

Lemma reads_nil d : reads d [] d.
Proof. repeat split; rewrite ?app_nil_r, ?len_nil; try done; lia. Qed.

Lemma reads_took p rest d : d_r d = p ++ rest -> reads d p (took p rest d).
Proof. intros H. repeat split; cbn; try done. by intros ->. Qed.

Lemma reads_trans d p d1 q d2 : reads d p d1 -> reads d1 q d2 -> reads d (p ++ q) d2.
Proof.
  intros (H1 & H2 & H3 & H4 & H5) (K1 & K2 & K3 & K4 & K5).
  repeat split; [by rewrite H1, K1, app_assoc|congruence|congruence|rewrite len_app; lia|].
  intros Hr. rewrite K5 by congruence. rewrite H5 by done. by rewrite app_assoc.
Qed.

Lemma consumes_reads d d1 q d2 : consumes d d1 -> reads d1 q d2 -> consumes d d2.
Proof. intros (p & Hp & H) K. exists (p ++ q). split; [by destruct p|]. by eapply reads_trans. Qed.

Lemma reads_consumes d p d1 d2 : reads d p d1 -> consumes d1 d2 -> consumes d d2.
Proof. intros H (q & Hq & K). exists (p ++ q). split; [by destruct p, q|]. by eapply reads_trans. Qed.

Lemma consumes_trans d d1 d2 : consumes d d1 -> consumes d1 d2 -> consumes d d2.
Proof. intros H (q & _ & K). by eapply consumes_reads. Qed.

Lemma consumes_raw d d' : consumes d d' -> d_raw d' = d_raw d.
Proof. by intros (p & _ & _ & H & _). Qed.

Lemma consumes_length d d' : consumes d d' -> (length (d_r d') < length (d_r d))%nat.
Proof. intros ([|b p] & Hp & H & _); [done|]. rewrite H. cbn. rewrite length_app. lia. Qed.

Lemma split_delim_spec c l a b : split_delim c l = Some (a, b) -> l = a ++ b /\ a <> [].
Proof.
  revert a b. induction l as [|x l IH]; intros a b; cbn; [done|].
  case_decide; [intros [= <- <-]; done|].
  destruct (split_delim c l) as [[a' b']|]; [|done]. intros [= <- <-].
  destruct (IH _ _ eq_refl) as [-> _]. done.
Qed.

Lemma readByte_consumes d b d' : readByte d = Ok (b, d') -> consumes d d'.
Proof.
  unfold readByte. destruct (d_r d) eqn:E; intros; simp_res.
  exists [b]. split; [done|]. apply reads_took. by rewrite E.
Qed.

Lemma readBytes_consumes c d line d' : readBytes c d = Ok (line, d') -> consumes d d'.
Proof.
  unfold readBytes. destruct (split_delim c (d_r d)) as [[a b]|] eqn:E; intros; simp_res.
  apply split_delim_spec in E as [E Ha]. exists line. split; [done|]. by apply reads_took.
Qed.

Lemma readFull_reads l d buf d' : readFull l d = Ok (buf, d') -> exists p, reads d p d'.
Proof.
  unfold readFull. repeat case_decide; intros; simp_res.
  eexists. apply reads_took. by rewrite take_drop.
Qed.

Lemma checkEnd_consumes d d' : checkEnd d = Ok (Some d') -> consumes d d'.
Proof.
  unfold checkEnd. intros H. inv_bind. case_decide; inv_bind.
  by eapply readByte_consumes.
Qed.

Lemma consumeToken_consumes tok d d' : consumeToken tok d = Ok d' -> consumes d d'.
Proof.
  unfold consumeToken. intros H. inv_bind. case_decide; simp_res.
  by eapply readByte_consumes.
Qed.

Lemma decodeInt_consumes tv d v d' : decodeInt tv d = Ok (v, d') -> consumes d d'.
Proof.
  unfold decodeInt, readIntegerDigits. intros H. inv_bind.
  case_decide; inv_bind. eapply consumes_trans; [by eapply readByte_consumes|].
  destruct (d_raw _); simp_res; by eapply readBytes_consumes.
Qed.

Lemma decodeString_consumes tv d v d' : decodeString tv d = Ok (v, d') -> consumes d d'.
Proof.
  unfold decodeString. intros H. inv_bind. case_decide; inv_bind.
  apply readBytes_consumes in E as HE. apply readFull_reads in E1 as [p Hp].
  destruct (d_raw _); inv_bind; by eapply consumes_reads.
Qed.

Lemma readDictKey_consumes d key d' : readDictKey d = Ok (key, d') -> consumes d d'.
Proof.
  unfold readDictKey. intros H. inv_bind. apply decodeString_consumes in E.
  by destruct g; simp_res.
Qed.

#[export] Hint Resolve decodeInt_consumes decodeString_consumes readDictKey_consumes
  checkEnd_consumes consumeToken_consumes consumes_trans : bencode.

Lemma decodeList_consumes rawLoop loop tv d v d' :
  (forall d d', rawLoop d = Ok d' -> consumes d d') ->
  (forall t acc old d l d', loop t acc old d = Ok (l, d') -> consumes d d') ->
  decodeList rawLoop loop tv d = Ok (v, d') -> consumes d d'.
Proof.
  intros Hraw Hloop. unfold decodeList. intros H.
  repeat case_match; inv_bind; eauto with bencode.
Qed.

Lemma decodeDict_consumes rawLoop loop tv d v d' :
  (forall d d', rawLoop d = Ok d' -> consumes d d') ->
  (forall dt last d dt' d', loop dt last d = Ok (dt', d') -> consumes d d') ->
  decodeDict rawLoop loop tv d = Ok (v, d') -> consumes d d'.
Proof.
  intros Hraw Hloop. unfold decodeDict. intros H. inv_bind.
  repeat case_match; inv_bind; eauto with bencode.
Qed.

Lemma dispatch_consumes decList decDict tv d v d' :
  (forall tv d v d', decList tv d = Ok (v, d') -> consumes d d') ->
  (forall tv d v d', decDict tv d = Ok (v, d') -> consumes d d') ->
  dispatchDecodeByType decList decDict tv d = Ok (v, d') -> consumes d d'.
Proof.
  intros HL HD. unfold dispatchDecodeByType. intros H. inv_bind.
  repeat (case_decide || case_match); simp_res; eauto with bencode.
Qed.

Lemma set_raw_consumes raw buf d d' :
  d_raw d = false -> consumes (set_raw true buf d) d' -> consumes d (set_raw false raw d').
Proof.
  intros Hd (p & Hp & H1 & H2 & H3 & H4 & H5). exists p. split; [done|].
  cbn in *. repeat split; cbn; try congruence.
Qed.

Lemma decodeRawMessage_consumes dispatch d x d' :
  d_raw d = false ->
  (forall tv d v d', dispatch tv d = Ok (v, d') -> consumes d d') ->
  decodeRawMessage dispatch d = Ok (x, d') ->
  consumes d d' /\ d_r d = x ++ d_r d'.
Proof.
  unfold decodeRawMessage. intros Hd Hdisp H. inv_bind. apply Hdisp in E.
  split; [by eapply set_raw_consumes|].
  destruct E as (p & _ & H1 & _ & _ & _ & H5). cbn in *. rewrite H5 by done. done.
Qed.

(** The five mutually recursive functions of the decoder, in one statement. *)
Lemma decoder_consumes fuel :
  (forall tv d v d', decodeInto fuel tv d = Ok (v, d') -> consumes d d') /\
  (forall d d', processListInRawMode fuel d = Ok d' -> consumes d d') /\
  (forall t acc old d l d', processListElements fuel t acc old d = Ok (l, d') -> consumes d d') /\
  (forall d d', processDictInRawMode fuel d = Ok d' -> consumes d d') /\
  (forall dt last d dt' d', processDictKeyValuePairs fuel dt last d = Ok (dt', d') -> consumes d d').
Proof.
  induction fuel as [|f (IHd & IHrl & IHl & IHrd & IHdict)]; [done|].
  assert (forall tv d v d',
    dispatchDecodeByType
          (decodeList (processListInRawMode f) (processListElements f))
          (decodeDict (processDictInRawMode f) (processDictKeyValuePairs f)) tv d = Ok (v, d') ->
    consumes d d') as Hdisp.
  { intros *. apply dispatch_consumes; intros *.
    - by apply decodeList_consumes.
    - by apply decodeDict_consumes. }
  split_and!; intros *; cbn [decodeInto processListInRawMode processListElements
    processDictInRawMode processDictKeyValuePairs]; intros H.
  - destruct (d_raw d) eqn:Hraw; [by apply Hdisp in H|].
    destruct tv as [[[] v0]|]; try (by apply Hdisp in H); inv_bind;
      try (by apply decodeRawMessage_consumes in E as [? _]).
    apply decodeString_consumes in E. by repeat case_match; inv_bind.
  - inv_bind. destruct x; inv_bind; eauto with bencode.
  - inv_bind. destruct x; inv_bind; eauto with bencode.
  - inv_bind. destruct x; inv_bind; eauto 6 with bencode.
  - inv_bind. destruct x; inv_bind; [eauto with bencode|].
    case_match; inv_bind; eauto 6 with bencode.
Qed.

(** A decoding that succeeds has consumed a non-empty prefix [p] of the input,
    and [BytesParsed] has grown by its length. *)
Lemma Decode_consumes t v d v' d' : Decode t v d = Ok (v', d') -> consumes d d'.
Proof. apply decoder_consumes. Qed.

(** ** Termination *)

(** The user-defined unmarshalers of a type answer. *)
Fixpoint fuel_free (t : gotype) : Prop :=
  match t with
  | TCustom _ um => forall v b, um v b <> NoFuel
  | TText _ um => forall b, um b <> NoFuel
  | TSlice t' | TMap t' | TMapOtherKey t' => fuel_free t'
  | TStruct fs =>
      (fix go (fs : list (finfo * gotype)) : Prop :=
        match fs with [] => True | (_, ft) :: fs' => fuel_free ft /\ go fs' end) fs
  | _ => True
  end.

Definition target_ok (tv : target) : Prop :=
  match tv with Some (t, _) => fuel_free t | None => True end.

Definition dict_ok (dt : dict_target) : Prop :=
  match dt with DMap t _ => fuel_free t | DStruct t _ => fuel_free t end.

Lemma fuel_free_field fs i fi ft :
  fuel_free (TStruct fs) -> fs !! i = Some (fi, ft) -> fuel_free ft.
Proof.
  cbn. revert i. induction fs as [|[fi' ft'] fs IH]; intros i; [done|].
  intros [H1 H2]. destruct i as [|i]; cbn; [by intros [= <- <-]|]. by apply IH.
Qed.

Lemma fuel_free_type_at p t ft : fuel_free t -> type_at p t = Some ft -> fuel_free ft.
Proof.
  revert t. induction p as [|i p IH]; intros t Ht; cbn [type_at]; [by intros [= <-]|].
  destruct t; try done. destruct (fs !! i) as [[fi ft']|] eqn:E; [|done].
  apply IH. by eapply fuel_free_field.
Qed.

Lemma prepareValueTarget_ok dt key : dict_ok dt -> target_ok (prepareValueTarget dt key).
Proof.
  destruct dt as [t m|t v]; cbn; [done|]. intros Ht.
  destruct (lookup_last _ _) as [p|]; [|done].
  destruct (type_at p t) eqn:E; [|done]. destruct (val_at p v); [|done]. cbn.
  by eapply fuel_free_type_at.
Qed.

Lemma store_value_ok dt key x : dict_ok dt -> dict_ok (store_value dt key x).
Proof. destruct dt as [t m|t v]; cbn; [done|]. by destruct (lookup_last _ _). Qed.

Lemma setupDictTarget_ok tv dt : target_ok tv -> setupDictTarget tv = Ok dt -> dict_ok dt.
Proof. destruct tv as [[[] []]|]; cbn; intros; simp_res; done. Qed.

Lemma readByte_fuel d : readByte d <> NoFuel.
Proof. unfold readByte. by case_match. Qed.
Lemma readBytes_fuel c d : readBytes c d <> NoFuel.
Proof. unfold readBytes. by repeat case_match. Qed.
Lemma readFull_fuel l d : readFull l d <> NoFuel.
Proof. unfold readFull. by repeat case_decide. Qed.
Lemma peekByte_fuel d : peekByte d <> NoFuel.
Proof. unfold peekByte. by case_match. Qed.
Lemma checkEnd_fuel d : checkEnd d <> NoFuel.
Proof.
  unfold checkEnd. intros H. inv_nofuel H; [by apply peekByte_fuel in H|].
  case_decide; [|done]. inv_nofuel H; [by apply readByte_fuel in H|done].
Qed.
Lemma consumeToken_fuel tok d : consumeToken tok d <> NoFuel.
Proof. unfold consumeToken. intros H. inv_nofuel H; [by apply readByte_fuel in H|]. by case_decide. Qed.
Lemma decodeString_fuel tv d : decodeString tv d <> NoFuel.
Proof.
  unfold decodeString. intros H. inv_nofuel H; [by apply readBytes_fuel in H|].
  inv_nofuel H; [by apply ParseInt_fuel in H|]. case_decide; [done|].
  inv_nofuel H; [by apply readFull_fuel in H|]. case_match; [done|].
  inv_nofuel H; [|done]. unfold assignStringValue in H. by repeat case_match.
Qed.
Lemma decodeInt_fuel tv d : decodeInt tv d <> NoFuel.
Proof.
  unfold decodeInt, readIntegerDigits. intros H. inv_nofuel H.
  - inv_nofuel H; [by apply readByte_fuel in H|]. case_decide; [|done].
    inv_nofuel H; [by apply readBytes_fuel in H|]. by case_match.
  - inv_nofuel H; [|done]. unfold assignIntegerValue in H. repeat case_match; try done;
      inv_nofuel H; try done;
      solve [by apply ParseInt_fuel in H | by apply ParseUint_fuel in H].
Qed.
Lemma readDictKey_fuel d : readDictKey d <> NoFuel.
Proof.
  unfold readDictKey. intros H. inv_nofuel H; [by apply decodeString_fuel in H|]. by case_match.
Qed.
Lemma validateKeyOrder_fuel d last key : validateKeyOrder d last key <> NoFuel.
Proof. unfold validateKeyOrder. by repeat case_match. Qed.
#[export] Hint Resolve readByte_fuel readBytes_fuel readFull_fuel peekByte_fuel checkEnd_fuel
  consumeToken_fuel decodeString_fuel decodeInt_fuel readDictKey_fuel validateKeyOrder_fuel : bencode.

Lemma dispatch_fuel decList decDict tv d :
  decList tv d <> NoFuel -> decDict tv d <> NoFuel ->
  dispatchDecodeByType decList decDict tv d <> NoFuel.
Proof.
  intros HL HD H. unfold dispatchDecodeByType in H.
  inv_nofuel H; [by apply peekByte_fuel in H|].
  repeat (case_decide || case_match); try congruence;
    solve [by apply decodeInt_fuel in H | by apply decodeString_fuel in H].
Qed.

Lemma decodeList_fuel rawLoop loop tv d :
  target_ok tv ->
  (forall d1, consumes d d1 -> rawLoop d1 <> NoFuel) ->
  (forall t acc old d1, fuel_free t -> consumes d d1 -> loop t acc old d1 <> NoFuel) ->
  decodeList rawLoop loop tv d <> NoFuel.
Proof.
  intros Ht Hr Hl H. unfold decodeList in H.
  repeat case_match; try done;
    (inv_nofuel H; [by apply consumeToken_fuel in H|]; apply consumeToken_consumes in E;
     inv_nofuel H; [|done]); [by apply (Hr x)|..]; by eapply Hl in H.
Qed.

Lemma decodeDict_fuel rawLoop loop tv d :
  target_ok tv ->
  (forall d1, consumes d d1 -> rawLoop d1 <> NoFuel) ->
  (forall dt last d1, dict_ok dt -> consumes d d1 -> loop dt last d1 <> NoFuel) ->
  decodeDict rawLoop loop tv d <> NoFuel.
Proof.
  intros Ht Hr Hl H. unfold decodeDict in H.
  inv_nofuel H; [by apply consumeToken_fuel in H|]. apply consumeToken_consumes in E.
  destruct (d_raw d); [inv_nofuel H; [by apply (Hr x)|done]|].
  assert ((exists v, tv = Some (TIface, v)) \/
    (dt ← setupDictTarget tv; '(dt', d2) ← loop dt None x; Ok (dict_val dt', d2)) = NoFuel) as [[v ->]|H'].
  { destruct tv as [[[] ?]|]; eauto. }
  - inv_nofuel H; [by eapply Hl in H|done].
  - clear H. inv_nofuel H'.
    + destruct tv as [[[] []]|]; done.
    + apply setupDictTarget_ok in E0; [|done]. inv_nofuel H'; [by eapply Hl in H'|done].
Qed.

Lemma decoder_fuel fuel :
  (forall tv d, target_ok tv -> (2 * length (d_r d) + 1 <= fuel)%nat -> decodeInto fuel tv d <> NoFuel) /\
  (forall d, (2 * length (d_r d) + 2 <= fuel)%nat -> processListInRawMode fuel d <> NoFuel) /\
  (forall t acc old d, fuel_free t -> (2 * length (d_r d) + 2 <= fuel)%nat ->
     processListElements fuel t acc old d <> NoFuel) /\
  (forall d, (2 * length (d_r d) + 2 <= fuel)%nat -> processDictInRawMode fuel d <> NoFuel) /\
  (forall dt last d, dict_ok dt -> (2 * length (d_r d) + 2 <= fuel)%nat ->
     processDictKeyValuePairs fuel dt last d <> NoFuel).
Proof.
  induction fuel as [|f (IHd & IHrl & IHl & IHrd & IHdict)].
  { split_and!; intros; lia. }
  destruct (decoder_consumes f) as (HCd & HCrl & HCl & HCrd & HCdict).
  assert (forall tv d, target_ok tv -> (2 * length (d_r d) + 1 <= S f)%nat ->
    dispatchDecodeByType
          (decodeList (processListInRawMode f) (processListElements f))
          (decodeDict (processDictInRawMode f) (processDictKeyValuePairs f)) tv d <> NoFuel) as Hdisp.
  { intros tv d Ht Hf. apply dispatch_fuel;
      [apply decodeList_fuel | apply decodeDict_fuel]; try done;
      intros; match goal with Hc : consumes _ _ |- _ => apply consumes_length in Hc end; eauto with lia. }
  assert (forall d, (2 * length (d_r d) + 1 <= S f)%nat ->
    decodeRawMessage (dispatchDecodeByType
          (decodeList (processListInRawMode f) (processListElements f))
          (decodeDict (processDictInRawMode f) (processDictKeyValuePairs f))) d <> NoFuel) as Hraw.
  { intros d Hf H. unfold decodeRawMessage in H. inv_nofuel H; [|done]. by apply Hdisp in H. }
  split_and!; intros *; cbn [decodeInto processListInRawMode processListElements
    processDictInRawMode processDictKeyValuePairs].
  - intros Ht Hf. destruct (d_raw d) eqn:Hr; [by apply Hdisp|].
    destruct tv as [[[] v0]|]; try (by apply Hdisp); intros H;
      (inv_nofuel H; [first [by apply Hraw in H | by apply decodeString_fuel in H]|]); [done|..].
    + inv_nofuel H; [by apply Ht in H|done].
    + repeat case_match; try done. inv_nofuel H; [by apply Ht in H|done].
  - intros Hf H. inv_nofuel H; [by apply checkEnd_fuel in H|]. destruct x; [done|].
    inv_nofuel H; [apply IHd in H; [done|done|lia]|]. apply HCd, consumes_length in E0.
    apply IHrl in H; [done|lia].
  - intros Ht Hf H. inv_nofuel H; [by apply checkEnd_fuel in H|]. destruct x; [done|].
    inv_nofuel H; [apply IHd in H; [done|done|lia]|]. apply HCd, consumes_length in E0.
    apply IHl in H; [done|done|lia].
  - intros Hf H. inv_nofuel H; [by apply checkEnd_fuel in H|]. destruct x; [done|].
    inv_nofuel H; [by apply decodeString_fuel in H|]. apply decodeString_consumes, consumes_length in E0.
    inv_nofuel H; [apply IHd in H; [done|done|lia]|]. apply HCd, consumes_length in E1.
    apply IHrd in H; [done|lia].
  - intros Hdt Hf H. inv_nofuel H; [by apply checkEnd_fuel in H|]. destruct x; [done|].
    inv_nofuel H; [by apply readDictKey_fuel in H|]. apply readDictKey_consumes, consumes_length in E0.
    inv_nofuel H; [by apply validateKeyOrder_fuel in H|].
    pose proof (prepareValueTarget_ok dt l Hdt) as Htv.
    destruct (prepareValueTarget dt l) as [tv|];
      (inv_nofuel H; [apply IHd in H; [done|done|lia]|]); apply HCd, consumes_length in E2;
      (apply IHdict in H; [done|auto using store_value_ok|lia]).
Qed.

(** The decoder answers on every input, whatever the bytes. *)
Lemma Decode_fuel t v d : fuel_free t -> Decode t v d <> NoFuel.
Proof.
  intros Ht. apply decoder_fuel; [done|]. unfold decode_fuel. lia.
Qed.

Lemma DecodeBytes_fuel b t v : fuel_free t -> DecodeBytes b t v <> NoFuel.
Proof. intros Ht H. unfold DecodeBytes in H. inv_nofuel H; [by eapply Decode_fuel|done]. Qed.
#[export] Hint Resolve DecodeBytes_fuel : bencode.

(** ** The abstract data and its reference encoding *)

(** What a bencode document says, without the Go types. *)
Inductive bval : Type :=
  | BInt (z : Z)
  | BStr (s : bytes)
  | BList (l : list bval)
  | BDict (m : list (bytes * bval)).

Section bval_ind.
  Variable P : bval -> Prop.
  Hypothesis HI : forall z, P (BInt z).
  Hypothesis HS : forall s, P (BStr s).
  Hypothesis HL : forall l, Forall P l -> P (BList l).
  Hypothesis HD : forall m, Forall (fun e => P e.2) m -> P (BDict m).

Fixpoint bval_nested_ind (b : bval) : P b :=
  match b with
  | BInt z => HI z
  | BStr s => HS s
  | BList l => HL l ((fix go (l : list bval) : Forall P l :=
      match l with
      | [] => Forall_nil_2 P
      | x :: l' => Forall_cons_2 P x l' (bval_nested_ind x) (go l')
      end) l)
  | BDict m => HD m ((fix go (m : list (bytes * bval)) : Forall (fun e => P e.2) m :=
      match m with
      | [] => Forall_nil_2 _
      | e :: m' => Forall_cons_2 _ e m' (bval_nested_ind e.2) (go m')
      end) m)
  end.
End bval_ind.

Fixpoint bencode (b : bval) : bytes :=
  match b with
  | BInt z => encodeNumeric z
  | BStr s => encode_string s
  | BList l => [108] ++ concat (map bencode l) ++ [101]
  | BDict m => [100] ++ concat (map (fun e => encode_string e.1 ++ bencode e.2) m) ++ [101]
  end.

(** The documents the decoder accepts in full: [int64] integers, strings whose
    length fits 31 bits, keys in strictly increasing order. *)
Fixpoint bval_ok (b : bval) : Prop :=
  match b with
  | BInt z => - 2 ^ 63 <= z < 2 ^ 63
  | BStr s => len s < 2 ^ 31
  | BList l => (fix go (l : list bval) : Prop :=
      match l with [] => True | x :: l' => bval_ok x /\ go l' end) l
  | BDict m => keys_sorted m /\ (fix go (m : list (bytes * bval)) : Prop :=
      match m with [] => True | e :: m' => (len e.1 < 2 ^ 31 /\ bval_ok e.2) /\ go m' end) m
  end.

(** The Go value the decoder builds for a document in an [interface{}]. *)
Fixpoint to_iface (b : bval) : goval :=
  VIface (Some (match b with
  | BInt z => VInt z
  | BStr s => VString s
  | BList l => VSlice (match l with [] => None | _ => Some (map to_iface l) end)
  | BDict m => VMap (Some (map (fun e => (e.1, to_iface e.2)) m))
  end)).

Lemma bval_ok_list l : bval_ok (BList l) <-> Forall bval_ok l.
Proof. cbn. induction l as [|x l IH]; [done|]. by rewrite Forall_cons, <- IH. Qed.

Lemma bval_ok_dict m :
  bval_ok (BDict m) <-> keys_sorted m /\ Forall (fun e => len e.1 < 2 ^ 31 /\ bval_ok e.2) m.
Proof.
  cbn. f_equiv. induction m as [|x m IH]; [done|]. by rewrite Forall_cons, <- IH.
Qed.

(** *** The encoder writes the reference encoding *)
Lemma encode_seq_ok l : encode_seq (map (fun b => Ok b) l) = Ok (concat l).
Proof. induction l as [|x l IH]; cbn [encode_seq map concat]; [done|]. by rewrite IH. Qed.

Lemma encode_entries_ok l :
  encode_entries (map (fun e => (e.1, Ok e.2)) l) =
  Ok (concat (map (fun e => encode_string e.1 ++ e.2) l)).
Proof.
  induction l as [|[k x] l IH]; cbn [encode_entries map concat fst snd]; [done|].
  rewrite IH. cbn. by rewrite <- app_assoc.
Qed.

Lemma encodeValue_slice l :
  encodeValue (VSlice (Some l)) =
  (body ← encode_seq (map encodeValue l); Ok ([108] ++ body ++ [101])).
Proof. reflexivity. Qed.

Lemma encodeValue_map m :
  encodeValue (VMap (Some m)) =
  (body ← encode_entries (sort_keys
     (map (fun e => (e.1, encodeValue e.2)) (filter (fun e => isNilValue e.2 = false) m)));
   Ok ([100] ++ body ++ [101])).
Proof.
  unfold encodeValue at 1. cbn [encode_with fst]. do 3 f_equal.
  induction m as [|[k x] m IH]; [done|]. rewrite filter_cons, IH. cbn [snd].
  destruct (isNilValue x); cbn; [by case_decide|]. by case_decide.
Qed.

Lemma isNilValue_to_iface b : isNilValue (to_iface b) = false.
Proof. by destruct b. Qed.

Lemma keys_sorted_map {A B} (f : bytes * A -> bytes * B) m :
  (forall e, (f e).1 = e.1) -> keys_sorted m -> keys_sorted (map f m).
Proof.
  intros Hf. unfold keys_sorted. enough ((map f m).*1 = m.*1) as -> by done.
  induction m as [|e m IH]; cbn; [done|]. by rewrite Hf, IH.
Qed.

Lemma encode_bencode b : bval_ok b -> encodeValue (to_iface b) = Ok (bencode b).
Proof.
  induction b as [z|s|l IH|m IH] using bval_nested_ind; intros Hok; [done|done|..].
  - apply bval_ok_list in Hok. destruct l as [|x l]; [done|].
    change (encodeValue (VSlice (Some (map to_iface (x :: l)))) = Ok (bencode (BList (x :: l)))).
    rewrite encodeValue_slice. cbn [bencode]. generalize dependent (x :: l). clear. intros l IH Hok.
    replace (map encodeValue (map to_iface l)) with (map (fun b => Ok b) (map bencode l)).
    + by rewrite encode_seq_ok.
    + induction l as [|y l IHl]; [done|]. inversion_clear IH; inversion_clear Hok.
      cbn [map]. rewrite IHl by done. f_equal. symmetry. auto.
  - apply bval_ok_dict in Hok as [Hs Hok].
    change (encodeValue (VMap (Some (map (fun e => (e.1, to_iface e.2)) m))) = Ok (bencode (BDict m))).
    rewrite encodeValue_map.
    assert (filter (fun e => isNilValue e.2 = false) (map (fun e => (e.1, to_iface e.2)) m) =
      map (fun e => (e.1, to_iface e.2)) m) as ->.
    { clear. induction m as [|e m IHm]; [done|]. rewrite map_cons, filter_cons. cbn [snd].
      rewrite decide_True by apply isNilValue_to_iface. by rewrite IHm. }
    rewrite map_map. cbn [fst snd].
    assert (map (fun e => (e.1, encodeValue (to_iface e.2))) m =
      map (fun e => (e.1, Ok e.2)) (map (fun e => (e.1, bencode e.2)) m)) as ->.
    { clear Hs. induction m as [|e m IHm]; [done|]. inversion_clear IH; inversion_clear Hok.
      cbn [map fst snd]. rewrite IHm by done. do 2 f_equal. intuition. }
    rewrite sort_keys_sorted by (rewrite map_map; by apply keys_sorted_map).
    rewrite encode_entries_ok. cbn [mbind res_bind bencode]. by rewrite map_map.
Qed.

(** *** The decoder reads it back *)
Lemma took_took p r1 q r2 d : took q r2 (took p r1 d) = took (p ++ q) r2 d.
Proof.
  unfold took. cbn. destruct (d_raw d); f_equal; rewrite ?len_app, ?app_assoc; try done; lia.
Qed.

Lemma split_delim_app c p rest :
  Forall (fun x => x <> c) p -> split_delim c (p ++ c :: rest) = Some (p ++ [c], rest).
Proof.
  induction 1 as [|x p Hx _ IH]; cbn; [by rewrite decide_True|].
  by rewrite decide_False, IH.
Qed.

Lemma FormatInt_no c n : c <> 45 -> ~ 48 <= c <= 57 -> Forall (fun x => x <> c) (FormatInt n).
Proof.
  intros Hc Hd. eapply Forall_impl; [exact (proj1 (FormatInt_chars n))|].
  intros x [Hx%is_digit_spec | ->]; lia.
Qed.

Lemma readBytes_ok c p rest d :
  Forall (fun x => x <> c) p -> d_r d = p ++ c :: rest ->
  readBytes c d = Ok (p ++ [c], took (p ++ [c]) rest d).
Proof. intros Hp Hd. unfold readBytes. by rewrite Hd, split_delim_app. Qed.

Lemma take_init {A} (p : list A) (c : A) : take (length (p ++ [c]) - 1) (p ++ [c]) = p.
Proof. rewrite length_app. cbn. rewrite Nat.add_sub. apply take_app_length. Qed.

Lemma readByte_ok b rest d : d_r d = b :: rest -> readByte d = Ok (b, took [b] rest d).
Proof. intros H. unfold readByte. by rewrite H. Qed.

(** What a target is left with by a decoding in one of the two modes. *)
Definition mode_ok (tv : target) (d : Decoder) : Prop :=
  match tv with None => d_raw d = true | Some (t, _) => t = TIface /\ d_raw d = false end.
Definition outcome (tv : target) (b : bval) : goval :=
  match tv with None => VOther | Some _ => to_iface b end.

Lemma decodeInt_ok tv z rest d :
  mode_ok tv d -> bval_ok (BInt z) -> d_r d = encodeNumeric z ++ rest ->
  decodeInt tv d = Ok (outcome tv (BInt z), took (encodeNumeric z) rest d).
Proof.
  intros Hm Hz Hd. unfold encodeNumeric in Hd. cbn in Hd.
  unfold decodeInt, readIntegerDigits. rewrite (readByte_ok _ _ _ Hd). cbn [mbind res_bind].
  rewrite decide_True by done.
  rewrite (readBytes_ok 101 (FormatInt z) rest); cbn [d_r took].
  2: apply FormatInt_no; lia. 2: by rewrite <- app_assoc.
  cbn [mbind res_bind]. rewrite took_took. cbn [d_raw took].
  destruct tv as [[t v]|]; cbn in Hm.
  - destruct Hm as [-> ->]. cbn [mbind res_bind assignIntegerValue]. rewrite take_init.
    rewrite ParseInt_FormatInt by (cbn in Hz |- *; lia). done.
  - rewrite Hm. done.
Qed.

Lemma decodeString_read tv s rest d :
  len s < 2 ^ 31 -> d_r d = encode_string s ++ rest ->
  decodeString tv d =
  (if d_raw d then Ok (target_val tv, took (encode_string s) rest d)
   else v ← assignStringValue tv s; Ok (v, took (encode_string s) rest d)).
Proof.
  intros Hs Hd. unfold encode_string in Hd. rewrite <- !app_assoc in Hd. cbn in Hd.
  unfold decodeString. rewrite (readBytes_ok 58 (FormatInt (len s)) (s ++ rest)); [|apply FormatInt_no; lia|done].
  cbn [mbind res_bind]. rewrite take_init.
  pose proof (len_nonneg s).
  rewrite ParseInt_FormatInt by (cbn in *; lia). cbn [mbind res_bind].
  rewrite decide_False by lia. unfold readFull. cbn [d_r took].
  rewrite decide_True by (rewrite len_app; pose proof (len_nonneg rest); lia).
  replace (Z.to_nat (len s)) with (length s) by (unfold len; lia).
  rewrite take_app_length, drop_app_length.
  cbn [mbind res_bind]. rewrite took_took. cbn [d_raw took].
  unfold encode_string. rewrite <- app_assoc. done.
Qed.

Lemma decodeString_ok tv s rest d :
  mode_ok tv d -> bval_ok (BStr s) -> d_r d = encode_string s ++ rest ->
  decodeString tv d = Ok (outcome tv (BStr s), took (encode_string s) rest d).
Proof.
  intros Hm Hs Hd. rewrite (decodeString_read _ _ _ _ Hs Hd).
  destruct tv as [[t v]|]; cbn in Hm; [destruct Hm as [-> ->]|rewrite Hm]; done.
Qed.

Lemma checkEnd_end d rest : d_r d = 101 :: rest -> checkEnd d = Ok (Some (took [101] rest d)).
Proof. intros H. unfold checkEnd, peekByte. rewrite H. cbn. by rewrite (readByte_ok _ _ _ H). Qed.

Lemma checkEnd_more d c rest : d_r d = c :: rest -> c <> 101 -> checkEnd d = Ok None.
Proof. intros H Hc. unfold checkEnd, peekByte. rewrite H. cbn. by rewrite decide_False. Qed.

Lemma encode_string_head s : exists c t, encode_string s = c :: t /\ 48 <= c <= 57.
Proof.
  unfold encode_string. pose proof (len_nonneg s).
  pose proof (FormatUint_digits (len s) ltac:(lia)) as Hd.
  unfold FormatInt. rewrite decide_False by lia.
  destruct (FormatUint 10 (len s)) as [|c t] eqn:E; [by destruct (FormatUint_nonempty (len s))|].
  inversion_clear Hd as [|?? Hc]. apply is_digit_spec in Hc. exists c, (t ++ [58] ++ s). done.
Qed.

Lemma bencode_head b : exists c t, bencode b = c :: t /\ c <> 101.
Proof.
  destruct b as [z|s|l|m]; cbn; [by eexists _, _| |by eexists _, _|by eexists _, _].
  destruct (encode_string_head s) as (c & t & -> & Hc). exists c, t. split; [done|lia].
Qed.

Definition decodes (b : bval) : Prop :=
  forall fuel tv rest d, mode_ok tv d -> bval_ok b -> d_r d = bencode b ++ rest ->
    (2 * length (d_r d) + 1 <= fuel)%nat ->
    decodeInto fuel tv d = Ok (outcome tv b, took (bencode b) rest d).

(** The state of a loop after one element has been read. *)
Lemma loop_step b rest d : d_r d = bencode b ++ rest ->
  checkEnd d = Ok None /\ (length rest < length (d_r d))%nat.
Proof.
  intros H. destruct (bencode_head b) as (c & t & E & Hc). rewrite E in H. split.
  - by eapply checkEnd_more.
  - rewrite H, length_app. cbn. lia.
Qed.

Lemma rawList_decodes l fuel d rest :
  Forall decodes l -> Forall bval_ok l -> d_raw d = true ->
  d_r d = concat (map bencode l) ++ 101 :: rest -> (2 * length (d_r d) + 2 <= fuel)%nat ->
  processListInRawMode fuel d = Ok (took (concat (map bencode l) ++ [101]) rest d).
Proof.
  revert fuel d. induction l as [|b l IH]; intros [|f] d HD Hok Hr Hd Hf; try lia;
    cbn [processListInRawMode map concat] in *.
  - by rewrite (checkEnd_end d rest).
  - inversion_clear HD as [|?? Hb HD']. inversion_clear Hok as [|?? Hbok Hok'].
    rewrite <- app_assoc in Hd. destruct (loop_step _ _ _ Hd) as [-> Hlt]. cbn [mbind res_bind].
    rewrite (Hb f None _ d Hr Hbok Hd) by lia. cbn [mbind res_bind].
    rewrite (IH f) by (cbn [d_r d_raw took]; done || lia).
    by rewrite took_took, <- app_assoc.
Qed.

Lemma list_decodes l fuel acc d rest :
  Forall decodes l -> Forall bval_ok l -> d_raw d = false ->
  d_r d = concat (map bencode l) ++ 101 :: rest -> (2 * length (d_r d) + 2 <= fuel)%nat ->
  processListElements fuel TIface acc [] d =
  Ok (reverse acc ++ map to_iface l, took (concat (map bencode l) ++ [101]) rest d).
Proof.
  revert fuel acc d. induction l as [|b l IH]; intros [|f] acc d HD Hok Hr Hd Hf; try lia;
    cbn [processListElements map concat] in *.
  - by rewrite (checkEnd_end d rest).
  - inversion_clear HD as [|?? Hb HD']. inversion_clear Hok as [|?? Hbok Hok'].
    rewrite <- app_assoc in Hd. destruct (loop_step _ _ _ Hd) as [-> Hlt]. cbn [mbind res_bind].
    change (default (zero_of TIface) (head [])) with (VIface None).
    rewrite (Hb f (Some (TIface, VIface None)) _ d (conj eq_refl Hr) Hbok Hd) by lia.
    cbn [mbind res_bind tail outcome].
    rewrite (IH f) by (cbn [d_r d_raw took]; done || lia).
    rewrite took_took, reverse_cons, <- !app_assoc. done.
Qed.

Lemma dict_key_step k b rest d :
  d_r d = (encode_string k ++ bencode b) ++ rest ->
  checkEnd d = Ok None /\ d_r d = encode_string k ++ bencode b ++ rest /\
  (length (bencode b ++ rest) < length (d_r d))%nat /\
  (length rest < length (bencode b ++ rest))%nat.
Proof.
  rewrite <- app_assoc. intros H. destruct (encode_string_head k) as (c & t & E & Hc).
  destruct (bencode_head b) as (c' & t' & E' & _). split_and!; [|done|..].
  - rewrite E in H. eapply checkEnd_more; [exact H|lia].
  - rewrite H, E. rewrite !length_app. cbn. lia.
  - rewrite E', !length_app. cbn. lia.
Qed.

Abbreviation encode_entry := (fun e : bytes * bval => encode_string e.1 ++ bencode e.2).
Abbreviation entry_ok := (fun e : bytes * bval => len e.1 < 2 ^ 31 /\ bval_ok e.2).

Lemma rawDict_decodes m fuel d rest :
  Forall (fun e => decodes e.2) m -> Forall entry_ok m -> d_raw d = true ->
  d_r d = concat (map encode_entry m) ++ 101 :: rest -> (2 * length (d_r d) + 2 <= fuel)%nat ->
  processDictInRawMode fuel d = Ok (took (concat (map encode_entry m) ++ [101]) rest d).
Proof.
  revert fuel d. induction m as [|[k b] m IH]; intros [|f] d HD Hok Hr Hd Hf; try lia;
    cbn [processDictInRawMode map concat fst snd] in *.
  - by rewrite (checkEnd_end d rest).
  - inversion_clear HD as [|?? Hb HD']. inversion_clear Hok as [|?? [Hk Hbok] Hok']. cbn [fst snd] in *.
    rewrite <- app_assoc in Hd. destruct (dict_key_step _ _ _ _ Hd) as (-> & Hd' & Hl1 & Hl2).
    cbn [mbind res_bind]. rewrite (decodeString_read _ _ _ _ Hk Hd'), Hr. cbn [mbind res_bind].
    rewrite (Hb f None (concat (map encode_entry m) ++ 101 :: rest) _) by (cbn [d_r took mode_ok d_raw]; done || lia).
    cbn [mbind res_bind]. rewrite took_took.
    rewrite (IH f) by (cbn [d_r d_raw took]; done || lia).
    by rewrite took_took, <- !app_assoc.
Qed.

Lemma map_put_last {A} (m : list (bytes * A)) k x :
  Forall (fun e => bytes_lt e.1 k) m -> map_put k x m = m ++ [(k, x)].
Proof.
  induction 1 as [|[k' y] m Hk _ IH]; cbn; [done|]. cbn in Hk.
  rewrite (bytes_cmp_antisym k' k), Hk. cbn. by rewrite IH.
Qed.

Lemma bytes_lt_asym a b : bytes_lt a b -> ~ bytes_lt b a.
Proof. intros H1 H2. by apply (bytes_lt_irrefl a), (bytes_lt_trans a b a). Qed.

Lemma keys_sorted_cons {A} (e : bytes * A) m :
  keys_sorted (e :: m) <-> Forall (fun e' => bytes_lt e.1 e'.1) m /\ keys_sorted m.
Proof. unfold keys_sorted. cbn. rewrite StronglySorted_cons, Forall_fmap. done. Qed.

Lemma dict_decodes m fuel acc last d rest :
  Forall (fun e => decodes e.2) m -> Forall entry_ok m -> d_raw d = false -> keys_sorted m ->
  Forall (fun a => Forall (fun e => bytes_lt a.1 e.1) m) acc ->
  (forall k, last = Some k -> Forall (fun e => bytes_lt k e.1) m) ->
  d_r d = concat (map encode_entry m) ++ 101 :: rest -> (2 * length (d_r d) + 2 <= fuel)%nat ->
  processDictKeyValuePairs fuel (DMap TIface acc) last d =
  Ok (DMap TIface (acc ++ map (fun e => (e.1, to_iface e.2)) m),
      took (concat (map encode_entry m) ++ [101]) rest d).
Proof.
  revert fuel acc last d.
  induction m as [|[k b] m IH]; intros [|f] acc last d HD Hok Hr Hs Hacc Hlast Hd Hf; try lia;
    cbn [processDictKeyValuePairs map concat fst snd] in *.
  - rewrite (checkEnd_end d rest) by done. cbn. by rewrite app_nil_r.
  - inversion_clear HD as [|?? Hb HD']. inversion_clear Hok as [|?? [Hk Hbok] Hok']. cbn [fst snd] in *.
    apply keys_sorted_cons in Hs as [Hkm Hs']. cbn [fst] in Hkm.
    rewrite <- app_assoc in Hd. destruct (dict_key_step _ _ _ _ Hd) as (-> & Hd' & Hl1 & Hl2).
    cbn [mbind res_bind]. unfold readDictKey.
    rewrite (decodeString_read _ _ _ _ Hk Hd'), Hr. cbn [mbind res_bind assignStringValue].
    assert (validateKeyOrder (took (encode_string k) (bencode b ++ concat (map encode_entry m) ++ 101 :: rest) d)
      last k = Ok tt) as ->.
    { unfold validateKeyOrder. destruct last as [k0|]; [|done].
      specialize (Hlast k0 eq_refl). inversion_clear Hlast as [|?? Hk0 _]. cbn [fst] in Hk0.
      rewrite bool_decide_false by (by apply bytes_lt_asym). by rewrite andb_false_r. }
    cbn [mbind res_bind prepareValueTarget zero_of].
    rewrite (Hb f (Some (TIface, VIface None)) (concat (map encode_entry m) ++ 101 :: rest) _)
      by (cbn [d_r took mode_ok d_raw]; done || lia).
    cbn [mbind res_bind store_value outcome]. rewrite took_took.
    rewrite map_put_last.
    2: { eapply Forall_impl; [exact Hacc|]. intros a Ha. by inversion_clear Ha. }
    rewrite (IH f); try (cbn [d_r d_raw took]; done || lia).
    + rewrite took_took, <- !app_assoc. done.
    + apply Forall_app. split; [|by repeat constructor].
      eapply Forall_impl; [exact Hacc|]. intros a Ha. by inversion_clear Ha.
    + by intros ? [= <-].
Qed.

Lemma decodeInto_dispatch f tv d :
  mode_ok tv d ->
  decodeInto (S f) tv d =
  dispatchDecodeByType
          (decodeList (processListInRawMode f) (processListElements f))
          (decodeDict (processDictInRawMode f) (processDictKeyValuePairs f)) tv d.
Proof.
  intros Hm. cbn [decodeInto]. destruct tv as [[t v]|]; cbn in Hm.
  - by destruct Hm as [-> ->].
  - by rewrite Hm.
Qed.

Lemma consumeToken_ok tok d rest : d_r d = tok :: rest -> consumeToken tok d = Ok (took [tok] rest d).
Proof. intros H. unfold consumeToken. rewrite (readByte_ok _ _ _ H). cbn. by rewrite decide_True. Qed.

(** Every document is read back, in the generic and in the raw mode. *)
Lemma bencode_decodes b : decodes b.
Proof.
  induction b as [z|s|l IH|m IH] using bval_nested_ind;
    intros [|f] tv rest d Hm Hok Hd Hf; try lia; rewrite decodeInto_dispatch by done;
    unfold dispatchDecodeByType, peekByte.
  - rewrite Hd. cbn [bencode]. change ((encodeNumeric z ++ rest)) with (105 :: (FormatInt z ++ [101]) ++ rest).
    cbn [mbind res_bind]. rewrite decide_True by done. by apply decodeInt_ok.
  - rewrite Hd. cbn [bencode] in *. destruct (encode_string_head s) as (c & t & E & Hc).
    rewrite E at 1. cbn [app mbind res_bind]. rewrite decide_False by lia.
    rewrite (proj2 (is_digit_spec c)) by lia. by apply decodeString_ok.
  - apply bval_ok_list in Hok. cbn [bencode] in *. cbn [app] in Hd. rewrite Hd. cbn [mbind res_bind].
    rewrite decide_False by done. change (is_digit 108) with false. cbn iota.
    rewrite decide_True by done. unfold decodeList. rewrite (consumeToken_ok 108 _ _ Hd).
    cbn [mbind res_bind]. rewrite <- app_assoc in *. cbn [app] in *. rewrite Hd in Hf. cbn [length] in Hf.
    destruct tv as [[t v]|]; cbn in Hm.
    + destruct Hm as [-> Hr]. rewrite Hr.
      rewrite (list_decodes l f [] _ rest) by (cbn [d_raw d_r took]; done || lia).
      cbn [mbind res_bind]. rewrite took_took. by destruct l.
    + rewrite Hm. rewrite (rawList_decodes l f _ rest) by (cbn [d_raw d_r took]; done || lia).
      cbn [mbind res_bind]. by rewrite took_took.
  - apply bval_ok_dict in Hok as [Hs Hok]. cbn [bencode] in *. cbn [app] in Hd. rewrite Hd. cbn [mbind res_bind].
    rewrite decide_False by done. change (is_digit 100) with false. cbn iota.
    rewrite decide_False, decide_True by done. unfold decodeDict. rewrite (consumeToken_ok 100 _ _ Hd).
    cbn [mbind res_bind]. rewrite <- app_assoc in *. cbn [app] in *. rewrite Hd in Hf. cbn [length] in Hf.
    destruct tv as [[t v]|]; cbn in Hm.
    + destruct Hm as [-> Hr]. rewrite Hr.
      rewrite (dict_decodes m f [] None _ rest) by (cbn [d_raw d_r took]; done || lia).
      cbn [mbind res_bind]. by rewrite took_took.
    + rewrite Hm. rewrite (rawDict_decodes m f _ rest) by (cbn [d_raw d_r took]; done || lia).
      cbn [mbind res_bind]. by rewrite took_took.
Qed.

(** ** Sample data for the witnesses *)
Definition sample_doc : bval :=
  BDict [(bs "a", BInt (-42)); (bs "list", BList [BStr (bs "x"); BInt 7]); (bs "z", BDict [])].

Lemma sample_doc_ok : bval_ok sample_doc.
Proof.
  cbn. repeat split; try (cbn; lia); repeat constructor; vm_compute; done.
Qed.

(** ** Properties *)

(** C1: encoding a document and decoding the bytes into an [interface{}] gives
    the document back, leaves whatever follows it unread, and [BytesParsed] is
    the length of the encoding. *)
Theorem bencode_roundtrip b :
  bval_ok b ->
  exists e, EncodeBytes (to_iface b) = Ok e /\
    forall rest, exists d',
      Decode TIface (VIface None) (NewDecoder (e ++ rest)) = Ok (to_iface b, d') /\
      d_r d' = rest /\ BytesParsed d' = len e.
Proof.
  intros Hok. exists (bencode b). split; [by apply encode_bencode|]. intros rest.
  eexists. split; [|split; [|]].
  - apply (bencode_decodes b); [done|done|done|]. unfold decode_fuel. lia.
  - done.
  - cbn. lia.
Qed.

Lemma bencode_roundtrip_witness :
  bval_ok sample_doc /\
  exists e, EncodeBytes (to_iface sample_doc) = Ok e /\
    forall rest, exists d',
      Decode TIface (VIface None) (NewDecoder (e ++ rest)) = Ok (to_iface sample_doc, d') /\
      d_r d' = rest /\ BytesParsed d' = len e.
Proof. split; [exact sample_doc_ok|]. apply (bencode_roundtrip sample_doc). exact sample_doc_ok. Defined.

(** a [RawMessage] receives exactly the bytes the decoder consumed, never
    empty, and they are what [BytesParsed] counts; this is what the info hash of
    a torrent is computed from. *)
Theorem raw_message_exact v d x d' :
  d_raw d = false -> Decode TRaw v d = Ok (x, d') ->
  exists p, x = VRaw (Some p) /\ p <> [] /\ d_r d = p ++ d_r d' /\
    BytesParsed d' = BytesParsed d + len p /\ d_raw d' = false.
Proof.
  intros Hr H. pose proof (Decode_consumes _ _ _ _ _ H) as (q & Hq & Hd & Hraw & _ & Hn & _).
  unfold Decode, decode_fuel in H. rewrite Nat.add_comm in H. cbn [Nat.add decodeInto] in H.
  rewrite Hr in H. inv_bind. apply decodeRawMessage_consumes in E as [_ E]; [|done|].
  - exists l. assert (l = q) as -> by (apply (app_inv_tail (d_r d')); congruence).
    split_and!; [done|done|done|exact Hn|by rewrite Hraw].
  - intros tv0 d0 v0 d0' Hd0. eapply dispatch_consumes; [..|exact Hd0]; intros *.
    + apply decodeList_consumes; apply decoder_consumes.
    + apply decodeDict_consumes; apply decoder_consumes.
Qed.

Lemma raw_message_exact_witness :
  let d := NewDecoder (bs "d4:name3:abcei5e") in
  exists x d', Decode TRaw (VRaw None) d = Ok (x, d') /\ d_raw d = false /\
  exists p, x = VRaw (Some p) /\ p <> [] /\ d_r d = p ++ d_r d' /\
    BytesParsed d' = BytesParsed d + len p /\ d_raw d' = false.
Proof.
  eexists _, _. split; [vm_compute; reflexivity|]. split; [reflexivity|].
  apply (raw_message_exact (VRaw None)); vm_compute; reflexivity.
Defined.

(** C37: the decoder answers on every input, at every type whose own
    unmarshalers answer: the fuel given by [decode_fuel] is never exhausted. *)
Theorem decode_terminates b t v : fuel_free t -> DecodeBytes b t v <> NoFuel.
Proof. apply DecodeBytes_fuel. Qed.

Lemma decode_terminates_witness :
  fuel_free (TStruct [(FInfo (bs "A") (bs "a") true true false, TSlice TIface)]) /\
  DecodeBytes (bs "d1:alllleeeee")
    (TStruct [(FInfo (bs "A") (bs "a") true true false, TSlice TIface)]) (VStruct []) <> NoFuel.
Proof.
  split; [cbn; done|].
  apply (decode_terminates _ (TStruct [(FInfo (bs "A") (bs "a") true true false, TSlice TIface)])).
  cbn. done.
Defined.

(** the bytes a map is encoded to do not depend on the order in which the
    runtime enumerates its entries. *)
Theorem encode_map_order_independent m m' :
  NoDup m.*1 -> m ≡ₚ m' -> EncodeBytes (VMap (Some m)) = EncodeBytes (VMap (Some m')).
Proof.
  intros Hnd Hp. unfold EncodeBytes. rewrite !encodeValue_map.
  rewrite (sort_keys_perm _ (map (fun e => (e.1, encodeValue e.2))
    (filter (fun e => isNilValue e.2 = false) m'))); [done|..].
  - enough (forall l : list (bytes * goval), (map (fun e => (e.1, encodeValue e.2)) l).*1 = l.*1) as ->.
    { eapply sublist_NoDup; [exact Hnd|]. apply fmap_sublist, sublist_filter. }
    induction l as [|e l IH]; cbn; [done|]. by rewrite IH.
  - by rewrite Hp.
Qed.

Lemma encode_map_order_independent_witness :
  let m := [(bs "b", VInt 1); (bs "a", VString (bs "x"))] in
  let m' := [(bs "a", VString (bs "x")); (bs "b", VInt 1)] in
  EncodeBytes (VMap (Some m)) = Ok (bs "d1:a1:x1:bi1ee") /\
  EncodeBytes (VMap (Some m)) = EncodeBytes (VMap (Some m')).
Proof.
  split; [vm_compute; reflexivity|]. apply encode_map_order_independent.
  - vm_compute. repeat constructor; set_solver.
  - apply perm_swap.
Defined.

(** an integer too large for the field it is decoded into is silently
    reduced modulo the width of the field, for every width. *)
Theorem decode_uint_truncates bits n v :
  0 <= n < 2 ^ 63 ->
  DecodeBytes (encodeNumeric n) (TUint bits) v = Ok (VUint (wrap bits n)).
Proof.
  intros Hn. unfold DecodeBytes, Decode, decode_fuel. rewrite Nat.add_comm.
  cbn [Nat.add decodeInto NewDecoder d_raw]. unfold dispatchDecodeByType, peekByte.
  unfold encodeNumeric. cbn [d_r NewDecoder app mbind res_bind]. rewrite decide_True by done.
  unfold decodeInt, readIntegerDigits. rewrite (readByte_ok 105 (FormatInt n ++ [101])) by done.
  cbn [mbind res_bind]. rewrite decide_True by done.
  rewrite (readBytes_ok 101 (FormatInt n) []); [|apply FormatInt_no; lia|done].
  cbn [mbind res_bind d_raw took]. rewrite take_init.
  unfold FormatInt. rewrite decide_False by lia. cbn [assignIntegerValue].
  cbn [d_raw NewDecoder mbind res_bind]. by rewrite ParseUint_FormatUint by lia.
Qed.

Lemma decode_uint_truncates_witness :
  0 <= 70000 < 2 ^ 63 /\
  DecodeBytes (encodeNumeric 70000) (TUint 16) (VUint 0) = Ok (VUint 4464).
Proof. split; [lia|]. rewrite (decode_uint_truncates 16 70000) by lia. reflexivity. Defined.

End BencodeFacts.
