(* ===== verification/BencodeTyped.v ===== *)
(** * Decoding into typed targets

    The decoder of [src/bencode/decode.go] at the types the protocols use:
    integers of a width, strings, byte slices, raw messages, types with their
    own [UnmarshalBencode], slices, maps and structs. [decodes_as tv p v] says
    that the bytes [p] are read into the target [tv] as [v], whatever follows
    them; it is closed under the constructions of bencode, so the message
    types of the other packages are read back by composing its lemmas. *)

From S2P Require Import Prelude Strconv Bencode BencodeFacts.
Import Strconv Bencode BencodeFacts.

Module BencodeTyped.

(** [p] starts a value: it is not empty and not the end marker. *)
Definition starts (p : bytes) : Prop := exists c t, p = c :: t /\ c <> 101.

(** The decoder after [p] was read off it outside raw mode. *)
Definition after (p rest : bytes) (d d' : Decoder) : Prop :=
  d_r d' = rest /\ d_raw d' = false /\ d_failUnordered d' = false /\ d_n d' = d_n d + len p.

Definition ready (p rest : bytes) (d : Decoder) : Prop :=
  d_r d = p ++ rest /\ d_raw d = false /\ d_failUnordered d = false.

Definition decodes_as (tv : gotype * goval) (p : bytes) (v : goval) : Prop :=
  starts p /\
  forall fuel rest d, ready p rest d -> (2 * length (d_r d) + 1 <= fuel)%nat ->
    exists d', decodeInto fuel (Some tv) d = Ok (v, d') /\ after p rest d d'.

Lemma took_after p rest d : ready p rest d -> after p rest d (took p rest d).
Proof. by intros (H1 & H2 & H3). Qed.

Lemma after_trans p q rest1 rest2 d d1 d2 :
  after p rest1 d d1 -> after q rest2 d1 d2 -> after (p ++ q) rest2 d d2.
Proof.
  intros (H1 & H2 & H3 & H4) (K1 & K2 & K3 & K4). repeat split; try done. rewrite len_app. lia.
Qed.

Lemma after_ready p q rest d d' : after p (q ++ rest) d d' -> ready q rest d'.
Proof. by intros (H1 & H2 & H3 & H4). Qed.

Lemma ready_app p q rest d : ready (p ++ q) rest d <-> ready p (q ++ rest) d.
Proof. unfold ready. by rewrite <- app_assoc. Qed.

Lemma decodes_as_Decode tv p v rest :
  decodes_as tv p v ->
  exists d', Decode tv.1 tv.2 (NewDecoder (p ++ rest)) = Ok (v, d') /\ d_r d' = rest /\ BytesParsed d' = len p.
Proof.
  intros [_ H]. unfold Decode. rewrite <- surjective_pairing.
  destruct (H (decode_fuel (p ++ rest)) rest (NewDecoder (p ++ rest))) as (d' & E & (H1 & _ & _ & H4)).
  - done.
  - unfold decode_fuel. cbn. lia.
  - exists d'. cbn [d_r NewDecoder]. rewrite E. done.
Qed.

Lemma decodes_as_DecodeBytes t v0 p v : decodes_as (t, v0) p v -> DecodeBytes p t v0 = Ok v.
Proof.
  intros H. unfold DecodeBytes. destruct (decodes_as_Decode _ _ _ [] H) as (d' & E & _).
  rewrite app_nil_r in E. cbn [fst snd] in E. by rewrite E.
Qed.

(** ** The dispatch on the first byte *)
Definition plain (t : gotype) : Prop :=
  match t with TCustom _ _ | TText _ _ | TRaw => False | _ => True end.

Lemma decodeInto_plain f t v d : d_raw d = false -> plain t ->
  decodeInto (S f) (Some (t, v)) d =
  dispatchDecodeByType
    (decodeList (processListInRawMode f) (processListElements f))
    (decodeDict (processDictInRawMode f) (processDictKeyValuePairs f)) (Some (t, v)) d.
Proof. intros Hr Ht. cbn [decodeInto]. rewrite Hr. by destruct t. Qed.

Lemma dispatch_int dl dd tv d rest :
  d_r d = 105 :: rest -> dispatchDecodeByType dl dd tv d = decodeInt tv d.
Proof. intros H. unfold dispatchDecodeByType, peekByte. by rewrite H. Qed.

Lemma dispatch_string dl dd tv d s rest :
  d_r d = encode_string s ++ rest -> dispatchDecodeByType dl dd tv d = decodeString tv d.
Proof.
  intros H. unfold dispatchDecodeByType, peekByte. destruct (encode_string_head s) as (c & t & E & Hc).
  rewrite H, E. cbn [app mbind res_bind]. rewrite decide_False by lia.
  by rewrite (proj2 (is_digit_spec c)) by lia.
Qed.

Lemma dispatch_list dl dd tv d rest :
  d_r d = 108 :: rest -> dispatchDecodeByType dl dd tv d = dl tv d.
Proof. intros H. unfold dispatchDecodeByType, peekByte. by rewrite H. Qed.

Lemma dispatch_dict dl dd tv d rest :
  d_r d = 100 :: rest -> dispatchDecodeByType dl dd tv d = dd tv d.
Proof. intros H. unfold dispatchDecodeByType, peekByte. by rewrite H. Qed.

Lemma starts_string s : starts (encode_string s).
Proof. destruct (encode_string_head s) as (c & t & E & Hc). exists c, t. split; [done|lia]. Qed.

(** ** Scalars *)
Lemma readIntegerDigits_ok z rest d :
  d_raw d = false -> d_r d = encodeNumeric z ++ rest ->
  readIntegerDigits d = Ok (FormatInt z, took (encodeNumeric z) rest d).
Proof.
  intros Hr Hd. unfold encodeNumeric in Hd. cbn in Hd.
  unfold readIntegerDigits. rewrite (readByte_ok _ _ _ Hd). cbn [mbind res_bind].
  rewrite decide_True by done.
  rewrite (readBytes_ok 101 (FormatInt z) rest); cbn [d_r took].
  2: apply FormatInt_no; lia. 2: by rewrite <- app_assoc.
  cbn [mbind res_bind]. rewrite took_took. cbn [d_raw took]. rewrite Hr. by rewrite take_init.
Qed.

Lemma decodes_number t v0 z v :
  plain t -> assignIntegerValue (Some (t, v0)) (FormatInt z) = Ok v ->
  decodes_as (t, v0) (encodeNumeric z) v.
Proof.
  intros Ht Ha. split; [by eexists _, _|]. intros [|f] rest d Hd Hf; [lia|].
  eexists. split; [|by apply took_after]. destruct Hd as (Hd & Hr & _).
  rewrite decodeInto_plain by done. erewrite dispatch_int by exact Hd.
  unfold decodeInt. rewrite (readIntegerDigits_ok z rest d) by done. cbn [mbind res_bind]. by rewrite Ha.
Qed.

Lemma decodes_int bits v0 z :
  0 < bits <= 64 -> - 2 ^ (bits - 1) <= z < 2 ^ (bits - 1) ->
  decodes_as (TInt bits, v0) (encodeNumeric z) (VInt z).
Proof.
  intros Hb Hz. assert (2 ^ (bits - 1) <= 2 ^ 63) by (apply Z.pow_le_mono_r; lia).
  apply decodes_number; [done|]. cbn [assignIntegerValue].
  rewrite ParseInt_FormatInt by lia. cbn [mbind res_bind]. by rewrite swrap_small by lia.
Qed.

Lemma decodes_uint bits v0 z :
  0 < bits <= 64 -> 0 <= z < 2 ^ bits -> decodes_as (TUint bits, v0) (encodeNumeric z) (VUint z).
Proof.
  intros Hb Hz. assert (2 ^ bits <= 2 ^ 64) by (apply Z.pow_le_mono_r; lia).
  apply decodes_number; [done|]. cbn [assignIntegerValue]. unfold FormatInt. rewrite decide_False by lia.
  rewrite ParseUint_FormatUint by lia. cbn [mbind res_bind]. by rewrite wrap_small by lia.
Qed.

Lemma decodes_stringlike t v0 s v :
  plain t -> len s < 2 ^ 31 -> assignStringValue (Some (t, v0)) s = Ok v ->
  decodes_as (t, v0) (encode_string s) v.
Proof.
  intros Ht Hs Ha. split; [apply starts_string|]. intros [|f] rest d Hd Hf; [lia|].
  eexists. split; [|by apply took_after]. destruct Hd as (Hd & Hr & _).
  rewrite decodeInto_plain by done. erewrite dispatch_string by exact Hd.
  rewrite (decodeString_read _ _ _ _ Hs Hd), Hr, Ha. done.
Qed.

Lemma decodes_string v0 s : len s < 2 ^ 31 -> decodes_as (TString, v0) (encode_string s) (VString s).
Proof. intros. by apply decodes_stringlike. Qed.

Lemma decodes_bytes v0 s : len s < 2 ^ 31 -> decodes_as (TBytes, v0) (encode_string s) (VBytes (Some s)).
Proof. intros. by apply decodes_stringlike. Qed.

Lemma decodes_iface v0 b : bval_ok b -> decodes_as (TIface, v0) (bencode b) (to_iface b).
Proof.
  intros Hb. split; [apply bencode_head|]. intros fuel rest d Hd Hf.
  eexists. split; [|by apply took_after]. destruct Hd as (Hd & Hr & _).
  by rewrite (bencode_decodes b fuel _ rest d).
Qed.

(** ** Raw messages and types with their own [UnmarshalBencode] *)
Lemma decodeRaw_ok b f d rest :
  bval_ok b -> d_raw d = false -> d_r d = bencode b ++ rest -> (2 * length (d_r d) + 1 <= S f)%nat ->
  exists buf, decodeRawMessage (dispatchDecodeByType
      (decodeList (processListInRawMode f) (processListElements f))
      (decodeDict (processDictInRawMode f) (processDictKeyValuePairs f))) d
    = Ok (bencode b, set_raw false buf (took (bencode b) rest d)).
Proof.
  intros Hb Hr Hd Hf. exists (bencode b). unfold decodeRawMessage.
  assert (decodeInto (S f) None (set_raw true [] d) =
    Ok (VOther, took (bencode b) rest (set_raw true [] d))) as E.
  { apply (bencode_decodes b (S f) None rest (set_raw true [] d)); done. }
  rewrite decodeInto_dispatch in E by done. rewrite E. cbn [mbind res_bind]. done.
Qed.

Lemma decodes_raw v0 b : bval_ok b -> decodes_as (TRaw, v0) (bencode b) (VRaw (Some (bencode b))).
Proof.
  intros Hb. split; [apply bencode_head|]. intros [|f] rest d (Hd & Hr & Hu) Hf; [lia|].
  destruct (decodeRaw_ok b f d rest Hb Hr Hd Hf) as [buf E].
  eexists. cbn [decodeInto]. rewrite Hr, E. split; [done|]. by repeat split.
Qed.

Lemma decodes_custom z um v0 b v :
  bval_ok b -> um v0 (bencode b) = Ok v -> decodes_as (TCustom z um, v0) (bencode b) v.
Proof.
  intros Hb Hv. split; [apply bencode_head|]. intros [|f] rest d (Hd & Hr & Hu) Hf; [lia|].
  destruct (decodeRaw_ok b f d rest Hb Hr Hd Hf) as [buf E].
  eexists. cbn [decodeInto]. rewrite Hr, E. cbn [mbind res_bind]. rewrite Hv. split; [done|]. by repeat split.
Qed.

(** ** Slices *)
Lemma starts_checkEnd p rest d : starts p -> d_r d = p ++ rest -> checkEnd d = Ok None.
Proof. intros (c & t & -> & Hc) Hd. by eapply checkEnd_more. Qed.

Lemma starts_length p (rest : bytes) : starts p -> (length rest < length (p ++ rest))%nat.
Proof. intros (c & t & -> & _). rewrite length_app. cbn. lia. Qed.

Lemma elements_as t ps vs acc fuel rest d :
  Forall2 (decodes_as (t, zero_of t)) ps vs -> ready (concat ps ++ [101]) rest d ->
  (2 * length (d_r d) + 2 <= fuel)%nat ->
  exists d', processListElements fuel t acc [] d = Ok (reverse acc ++ vs, d') /\
    after (concat ps ++ [101]) rest d d'.
Proof.
  intros H. revert acc fuel d. induction H as [|p v ps vs Hp _ IH]; intros acc [|f] d Hd Hf; try lia;
    cbn [processListElements concat] in *.
  - exists (took [101] rest d). rewrite (checkEnd_end d rest) by apply Hd. cbn [mbind res_bind].
    split; [done|]. by apply took_after.
  - rewrite <- app_assoc in Hd. apply ready_app in Hd. pose proof Hd as (Hr & _ & _).
    rewrite (starts_checkEnd p _ d (proj1 Hp) Hr). cbn [mbind res_bind head default tail].
    destruct (proj2 Hp f _ d Hd) as (d1 & E & Ha); [lia|]. cbn in E |- *. rewrite E. cbn [mbind res_bind].
    destruct (IH (v :: acc) f d1) as (d2 & E2 & Ha2).
    + by eapply after_ready.
    + rewrite (proj1 Ha). pose proof (starts_length p ((concat ps ++ [101]) ++ rest) (proj1 Hp)).
      rewrite Hr in Hf. lia.
    + exists d2. rewrite E2, reverse_cons, <- app_assoc. split; [done|].
      rewrite <- app_assoc. by eapply after_trans.
Qed.

Lemma decodes_slice t ps vs :
  Forall2 (decodes_as (t, zero_of t)) ps vs ->
  decodes_as (TSlice t, VSlice None) ([108] ++ concat ps ++ [101])
    (VSlice (if decide (vs = []) then None else Some vs)).
Proof.
  intros H. split; [by eexists _, _|]. intros [|f] rest d Hd Hf; [lia|].
  pose proof Hd as (Hr & Hraw & _). apply ready_app in Hd.
  rewrite decodeInto_plain by done. erewrite dispatch_list by exact Hr.
  unfold decodeList. rewrite Hraw, (consumeToken_ok 108 d _ (proj1 Hd)). cbn [mbind res_bind default].
  destruct (elements_as t ps vs [] f rest (took [108] ((concat ps ++ [101]) ++ rest) d) H) as (d' & E & Ha).
  - eapply after_ready. by apply took_after.
  - cbn [d_r took]. rewrite Hr in Hf. cbn [app length] in Hf. lia.
  - exists d'. rewrite E. split; [done|]. eapply after_trans; [by apply took_after|done].
Qed.

(** ** Dictionaries: the entries, in the order they are read *)
Inductive entries_as : dict_target -> list (bytes * bytes) -> dict_target -> Prop :=
  | entries_nil dt : entries_as dt [] dt
  | entries_field dt k p es tv v dt' :
      prepareValueTarget dt k = Some tv -> len k < 2 ^ 31 -> decodes_as tv p v ->
      entries_as (store_value dt k v) es dt' -> entries_as dt ((k, p) :: es) dt'
  | entries_skip dt k b es dt' :
      prepareValueTarget dt k = None -> len k < 2 ^ 31 -> bval_ok b ->
      entries_as dt es dt' -> entries_as dt ((k, bencode b) :: es) dt'.

Definition entry_bytes (e : bytes * bytes) : bytes := encode_string e.1 ++ e.2.

Lemma readDictKey_ok k rest d :
  len k < 2 ^ 31 -> d_raw d = false -> d_r d = encode_string k ++ rest ->
  readDictKey d = Ok (k, took (encode_string k) rest d).
Proof. intros Hk Hr Hd. unfold readDictKey. rewrite (decodeString_read _ _ _ _ Hk Hd), Hr. done. Qed.

(** Key and value of one entry, whatever the loop does with them. *)
Lemma entry_step k p tv v rest f d :
  len k < 2 ^ 31 -> decodes_as tv p v -> ready (entry_bytes (k, p)) rest d -> (2 * length (d_r d) + 2 <= S f)%nat ->
  checkEnd d = Ok None /\
  exists d1 d2, readDictKey d = Ok (k, d1) /\ d_failUnordered d1 = false /\
    decodeInto f (Some tv) d1 = Ok (v, d2) /\ after (entry_bytes (k, p)) rest d d2 /\
    (length (d_r d2) < length (d_r d))%nat.
Proof.
  intros Hk Hp Hd Hf. unfold entry_bytes in *. cbn [fst snd] in *. apply ready_app in Hd.
  pose proof Hd as (Hr & Hraw & _). split; [by eapply starts_checkEnd; [apply starts_string|]|].
  pose proof (starts_length (encode_string k) (p ++ rest) (starts_string k)) as Hl.
  pose proof (starts_length p rest (proj1 Hp)) as Hl'. rewrite Hr in Hf |- *.
  exists (took (encode_string k) (p ++ rest) d).
  destruct (proj2 Hp f rest (took (encode_string k) (p ++ rest) d)) as (d2 & E & Ha).
  - eapply after_ready. by apply took_after.
  - cbn [d_r took]. lia.
  - exists d2. split_and!; [by apply readDictKey_ok|by apply Hd|done| |rewrite (proj1 Ha); lia].
    eapply after_trans; [by apply took_after|done].
Qed.

Lemma validateKeyOrder_off d last k : d_failUnordered d = false -> validateKeyOrder d last k = Ok tt.
Proof. intros H. unfold validateKeyOrder. rewrite H. by destruct last. Qed.

Lemma pairs_as dt es dt' last fuel rest d :
  entries_as dt es dt' -> ready (concat (map entry_bytes es) ++ [101]) rest d ->
  (2 * length (d_r d) + 2 <= fuel)%nat ->
  exists d', processDictKeyValuePairs fuel dt last d = Ok (dt', d') /\
    after (concat (map entry_bytes es) ++ [101]) rest d d'.
Proof.
  intros H. revert last fuel d. induction H as [dt|dt k p es tv v dt' Ht Hk Hp _ IH|dt k b es dt' Ht Hk Hb _ IH];
    intros last [|f] d Hd Hf; try lia; cbn [processDictKeyValuePairs concat map] in *.
  - exists (took [101] rest d). rewrite (checkEnd_end d rest) by apply Hd. split; [done|]. by apply took_after.
  - rewrite <- app_assoc in Hd. apply ready_app in Hd.
    destruct (entry_step k p tv v _ f d Hk Hp Hd Hf) as (-> & d1 & d2 & E1 & Hu & E2 & Ha & Hl).
    cbn [mbind res_bind]. rewrite E1. cbn [mbind res_bind]. rewrite validateKeyOrder_off by done.
    cbn [mbind res_bind]. rewrite Ht, E2. cbn [mbind res_bind].
    destruct (IH (Some k) f d2) as (d3 & E3 & Ha3); [by eapply after_ready|lia|].
    exists d3. split; [done|]. rewrite <- app_assoc. by eapply after_trans.
  - rewrite <- app_assoc in Hd. apply ready_app in Hd.
    destruct (entry_step k (bencode b) _ _ _ f d Hk (decodes_iface (VIface None) b Hb) Hd Hf)
      as (-> & d1 & d2 & E1 & Hu & E2 & Ha & Hl).
    cbn [mbind res_bind]. rewrite E1. cbn [mbind res_bind]. rewrite validateKeyOrder_off by done.
    cbn [mbind res_bind]. rewrite Ht, E2. cbn [mbind res_bind].
    destruct (IH (Some k) f d2) as (d3 & E3 & Ha3); [by eapply after_ready|lia|].
    exists d3. split; [done|]. rewrite <- app_assoc. by eapply after_trans.
Qed.

Lemma decodes_dict t v0 es dt dt' :
  plain t -> t <> TIface -> setupDictTarget (Some (t, v0)) = Ok dt -> entries_as dt es dt' ->
  decodes_as (t, v0) ([100] ++ concat (map entry_bytes es) ++ [101]) (dict_val dt').
Proof.
  intros Ht Hi Hs H. split; [by eexists _, _|]. intros [|f] rest d Hd Hf; [lia|].
  pose proof Hd as (Hr & Hraw & _). apply ready_app in Hd.
  rewrite decodeInto_plain by done. erewrite dispatch_dict by exact Hr.
  unfold decodeDict. rewrite Hraw, (consumeToken_ok 100 d _ (proj1 Hd)). cbn [mbind res_bind].
  destruct (pairs_as dt es dt' None f rest (took [100] ((concat (map entry_bytes es) ++ [101]) ++ rest) d) H)
    as (d' & E & Ha).
  - eapply after_ready. by apply took_after.
  - cbn [d_r took]. rewrite Hr in Hf. cbn [app length] in Hf. lia.
  - exists d'. split; [|eapply after_trans; [by apply took_after|done]].
    destruct t; try done; rewrite Hs; cbn [mbind res_bind]; rewrite E; done.
Qed.

Lemma entries_app dt es1 dt1 es2 dt2 :
  entries_as dt es1 dt1 -> entries_as dt1 es2 dt2 -> entries_as dt (es1 ++ es2) dt2.
Proof. induction 1; cbn [app]; eauto using entries_as. Qed.

(** A field that is left out when it is empty: [x] is then what the target
    already holds. *)
Definition opt {A} (omit : bool) (x : A) : list A := if omit then [] else [x].

Lemma entries_opt dt (omit : bool) k p tv v dt' :
  prepareValueTarget dt k = Some tv -> len k < 2 ^ 31 ->
  (omit = false -> decodes_as tv p v) -> store_value dt k v = dt' -> (omit = true -> dt' = dt) ->
  entries_as dt (opt omit (k, p)) dt'.
Proof.
  intros Ht Hk Hd <- Ho. destruct omit; cbn [opt].
  - rewrite Ho by done. constructor.
  - econstructor; eauto using entries_as.
Qed.

(** ** The encoder at a struct *)

(** The entries [readStruct] collects from the fields of a struct. *)
Definition struct_entries (fs : list (finfo * goval)) : list (bytes * res bytes) :=
  (encode_with (VStruct fs)).2.

Lemma encodeValue_struct fs :
  encodeValue (VStruct fs) =
  (body ← encode_entries (sort_keys (struct_entries fs)); Ok ([100] ++ body ++ [101])).
Proof. reflexivity. Qed.

(** What the tag alone decides: the key, and whether an empty value is left
    out. *)
Definition field_key (fi : finfo) : option (bytes * bool) :=
  if decide (fi_tag fi = []) then Some (fi_name fi, false)
  else if decide (fi_tag fi = bs "-") then None
  else
    let '(name, options) := parseTag (fi_tag fi) in
    Some (if isValidTag name then name else fi_name fi, Contains options (bs "omitempty")).

Lemma processFieldTag_key fi fv :
  processFieldTag fi fv =
  match field_key fi with
  | Some (k, o) => if o && isEmptyValue fv then None else Some k
  | None => None
  end.
Proof.
  unfold processFieldTag, field_key. repeat case_decide; try done.
  destruct (parseTag (fi_tag fi)) as [name options]. by destruct (Contains _ _ && _), (isValidTag name).
Qed.

Lemma struct_entries_field fi fv fs k o :
  field_key fi = Some (k, o) -> fi_exported fi = true -> fi_anonymous fi = false -> isNilValue fv = false ->
  struct_entries ((fi, fv) :: fs) = opt (o && isEmptyValue fv) (k, encodeValue fv) ++ struct_entries fs.
Proof.
  intros Hk He Ha Hn. unfold struct_entries. cbn [encode_with snd]. f_equal.
  unfold shouldProcessField, shouldEmbedAnonymousStruct. rewrite He, Hn, Ha. cbn [negb andb].
  rewrite processFieldTag_key, Hk. by destruct (o && isEmptyValue fv).
Qed.

Lemma struct_entries_out fi fv fs :
  field_key fi = None -> struct_entries ((fi, fv) :: fs) = struct_entries fs.
Proof.
  intros Hk. unfold struct_entries. cbn [encode_with snd].
  rewrite processFieldTag_key, Hk. by destruct (shouldProcessField fi fv).
Qed.

(** Evaluates [struct_entries] on the fields of a concrete struct type. *)
Ltac struct_fields :=
  repeat ((erewrite struct_entries_field; [|vm_compute; reflexivity|reflexivity|reflexivity|reflexivity])
          || (rewrite struct_entries_out by reflexivity));
  change (struct_entries []) with (@nil (bytes * res bytes)).

Definition all_ok (es : list (bytes * bytes)) : list (bytes * res bytes) := map (fun e => (e.1, Ok e.2)) es.

(** The dictionary of a struct lists its entries by increasing key, whatever
    the order of the fields. *)
Lemma encode_struct_as fs es :
  struct_entries fs ≡ₚ all_ok es -> keys_sorted es ->
  encodeValue (VStruct fs) = Ok ([100] ++ concat (map entry_bytes es) ++ [101]).
Proof.
  intros Hp Hs. rewrite encodeValue_struct.
  assert (keys_sorted (all_ok es)) as Hs' by (by apply keys_sorted_map).
  rewrite <- (sort_keys_perm (all_ok es)); [|by apply keys_sorted_nodup|done].
  rewrite sort_keys_sorted by done. unfold all_ok. rewrite encode_entries_ok. done.
Qed.

(** The part of a sorted dictionary that is not left out is sorted. *)
Lemma keys_sorted_sublist {A} (l k : list (bytes * A)) : l `sublist_of` k -> keys_sorted k -> keys_sorted l.
Proof.
  unfold keys_sorted. intros H. induction H as [|x l k H IH|x l k H IH]; cbn; [done|..];
    intros Hs; apply StronglySorted_cons in Hs as [Hx Hs]; [|by apply IH].
  apply StronglySorted_cons. split; [|by apply IH].
  rewrite Forall_forall in Hx |- *. intros y Hy. apply Hx.
  eapply elem_of_sublist; [exact Hy|]. by apply fmap_sublist.
Qed.

Lemma opt_sublist {A} omit (x : A) : opt omit x `sublist_of` [x].
Proof. destruct omit; cbn; [apply sublist_nil_l|done]. Qed.

End BencodeTyped.
