(* ===== verification/BencodeStruct.v ===== *)
(** * Structs in bencode

    A struct whose fields round-trip one by one round-trips as a whole: the
    encoder sorts the fields by key and leaves the empty ones out, the decoder
    finds each field by its key. [struct_roundtrip] reduces a message type to
    the list of its fields. *)

From S2P Require Import Prelude Strconv Bencode BencodeFacts BencodeTyped.
Import Bencode BencodeFacts BencodeTyped.

Module BencodeStruct.

(** A field: its description, what its tag says, its type, the value the
    target starts with, the value that was encoded, and its encoding. *)
Record field := MkField {
  fd_info : finfo; fd_key : bytes; fd_omit : bool;
  fd_type : gotype; fd_zero : goval; fd_val : goval; fd_bytes : bytes
}.

Definition present (f : field) : bool := negb (fd_omit f && isEmptyValue (fd_val f)).

(** What reflection sees of the field, whatever its value. *)
Definition field_static (fi : finfo) (key : bytes) (omit : bool) : Prop :=
  field_key fi = Some (key, omit) /\ extractFieldName fi = key /\ isValidTag key = true /\
  fi_exported fi = true /\ fi_anonymous fi = false /\ len key < 2 ^ 31.

Record field_ok (f : field) : Prop := {
  ok_static : field_static (fd_info f) (fd_key f) (fd_omit f);
  ok_nil : isNilValue (fd_val f) = false;
  ok_present : present f = true ->
    encodeValue (fd_val f) = Ok (fd_bytes f) /\ decodes_as (fd_type f, fd_zero f) (fd_bytes f) (fd_val f);
  ok_absent : present f = false -> fd_val f = fd_zero f
}.

Definition types (fs : list field) : list (finfo * gotype) := map (fun f => (fd_info f, fd_type f)) fs.
Definition vals (fs : list field) : list (finfo * goval) := map (fun f => (fd_info f, fd_val f)) fs.
Definition zeros (fs : list field) : list (finfo * goval) := map (fun f => (fd_info f, fd_zero f)) fs.
Definition entry (f : field) : bytes * bytes := (fd_key f, fd_bytes f).
Definition entries (fs : list field) : list (bytes * bytes) := map entry (filter (fun f => present f = true) fs).

(** ** Encoding *)
Lemma struct_entries_ok fs : Forall field_ok fs -> struct_entries (vals fs) = all_ok (entries fs).
Proof.
  induction 1 as [|f fs Hf _ IH]; [done|]. cbn [vals map]. fold (vals fs).
  destruct (ok_static f Hf) as (Hk & _ & _ & He & Ha & _).
  rewrite (struct_entries_field _ _ _ _ _ Hk He Ha (ok_nil f Hf)), IH. unfold entries.
  rewrite filter_cons.
  assert (fd_omit f && isEmptyValue (fd_val f) = negb (present f)) as -> by (unfold present; by rewrite negb_involutive).
  destruct (present f) eqn:Ep; [|by rewrite decide_False by done].
  rewrite decide_True by done. cbn [negb opt app]. by destruct (ok_present f Hf Ep) as [-> _].
Qed.

Lemma entries_keys fs : NoDup (map fd_key fs) -> NoDup (entries fs).*1.
Proof.
  intros Hnd. unfold entries. rewrite <-list_fmap_compose. eapply (sublist_NoDup _ (fd_key <$> fs)); [exact Hnd|].
  apply fmap_sublist, sublist_filter.
Qed.

Lemma sort_keys_keys_sorted {A} (l : list (bytes * A)) : NoDup l.*1 -> keys_sorted (sort_keys l) /\ sort_keys l ≡ₚ l.
Proof.
  intros Hnd. assert (Hp : sort_keys l ≡ₚ l) by (apply merge_sort_Permutation).
  split; [|done]. unfold keys_sorted.
  assert (Hnd' : NoDup (sort_keys l).*1) by (by rewrite Hp).
  assert (Hs : StronglySorted key_le (sort_keys l)) by (apply StronglySorted_merge_sort; apply _).
  clear Hp. revert Hnd'. induction Hs as [|x k Hs IH Hx]; intros Hnd'; [constructor|].
  cbn in Hnd'. apply NoDup_cons in Hnd' as [Hnin Hnd']. constructor; [by apply IH|].
  rewrite Forall_forall in Hx. change (Forall (bytes_lt x.1) k.*1). rewrite Forall_forall.
  intros y (e & -> & He)%list_elem_of_fmap.
  pose proof (Hx e He) as Hle. unfold key_le in Hle. apply bytes_le_lteq in Hle as [|E]; [done|].
  exfalso. apply Hnin. rewrite E. by apply (list_elem_of_fmap_2 fst).
Qed.

(** ** Decoding *)
Lemma assoc_get_elem {A} (k : bytes) (x : A) l : NoDup l.*1 -> (k, x) ∈ l -> assoc_get k l = Some x.
Proof.
  induction l as [|[k' y] l IH]; cbn; intros Hnd Hin; [set_solver|]. apply NoDup_cons in Hnd as [Hn Hnd].
  apply elem_of_cons in Hin as [[= <- <-]|Hin]; [by rewrite decide_True|].
  rewrite decide_False; [by apply IH|]. intros ->. apply Hn. by apply (list_elem_of_fmap_2 fst _ (k, x)).
Qed.

(** The table of the fields: every key with the position of its field. *)
Lemma setStructValues_ok fs : Forall field_ok fs ->
  setStructValues (TStruct (types fs)) = imap (fun i f => (fd_key f, [i])) fs.
Proof.
  intros Hok. cbn [setStructValues].
  assert (Hemb : forall i, (fix go (i : nat) (fs : list (finfo * gotype)) : list (bytes * list nat) :=
    match fs with
    | [] => []
    | (fi, ft) :: fs' =>
        (if fi_exported fi && fi_anonymous fi && negb (fi_tagged fi)
         then map (fun e => (e.1, i :: e.2)) (setStructValues ft) else []) ++ go (S i) fs'
    end) i (types fs) = []).
  { induction Hok as [|f fs Hf _ IH]; intros i; [done|]. cbn [types map]. fold (types fs).
    destruct (ok_static f Hf) as (_ & _ & _ & _ & -> & _). rewrite andb_false_r. cbn [andb app]. apply IH. }
  rewrite Hemb. cbn [app]. clear Hemb.
  assert (Hreg : forall k, (fix go (i : nat) (fs : list (finfo * gotype)) : list (bytes * list nat) :=
    match fs with
    | [] => []
    | (fi, ft) :: fs' =>
        let name := extractFieldName fi in
        (if fi_exported fi && negb (bool_decide (name = [])) && isValidTag name
         then [(name, [i])] else []) ++ go (S i) fs'
    end) k (types fs) = imap (fun i f => (fd_key f, [(k + i)%nat])) fs).
  { induction Hok as [|f fs Hf _ IH]; intros k; [done|]. cbn [types map imap]. fold (types fs).
    destruct (ok_static f Hf) as (_ & -> & Hv & -> & _ & _). rewrite Hv.
    rewrite bool_decide_false by (intros E; rewrite E in Hv; done). cbn [andb negb app].
    rewrite Nat.add_0_r. f_equal. rewrite IH. apply imap_ext. intros i g _. cbn. do 3 f_equal. lia. }
  apply Hreg.
Qed.

Lemma imap_keys fs : (imap (fun i f => (fd_key f, [i])) fs).*1 = map fd_key fs.
Proof. apply list_eq. intros i. rewrite !list_lookup_fmap, list_lookup_imap. by destruct (fs !! i). Qed.

Lemma field_path fs i f : Forall field_ok fs -> NoDup (map fd_key fs) -> fs !! i = Some f ->
  lookup_last (fd_key f) (setStructValues (TStruct (types fs))) = Some [i].
Proof.
  intros Hok Hnd Hi. unfold lookup_last. rewrite setStructValues_ok by done. apply assoc_get_elem.
  - rewrite reverse_Permutation, imap_keys. done.
  - rewrite elem_of_reverse. apply list_elem_of_lookup_2 with i. by rewrite list_lookup_imap, Hi.
Qed.

(** The target when the entries with the keys [ks] have been read. *)
Definition cur (ks : list bytes) (f : field) : finfo * goval :=
  (fd_info f, if decide (fd_key f ∈ ks) then fd_val f else fd_zero f).

Lemma map_cur_snoc fs i f ks : NoDup (map fd_key fs) -> fs !! i = Some f ->
  <[i := (fd_info f, fd_val f)]> (map (cur ks) fs) = map (cur (ks ++ [fd_key f])) fs.
Proof.
  intros Hnd Hi. apply list_eq. intros j. destruct (decide (i = j)) as [<-|Hij].
  - rewrite list_lookup_insert_eq by (rewrite length_map; by eapply lookup_lt_Some).
    rewrite list_lookup_fmap, Hi. cbn. unfold cur. rewrite decide_True by set_solver. done.
  - rewrite list_lookup_insert_ne by done. rewrite !list_lookup_fmap.
    destruct (fs !! j) as [g|] eqn:Hj; [|done]. cbn. unfold cur. f_equal. f_equal.
    assert (fd_key g <> fd_key f).
    { intros E. apply Hij. eapply NoDup_lookup; [exact Hnd| |].
      - by rewrite list_lookup_fmap, Hi.
      - rewrite list_lookup_fmap, Hj. cbn. by rewrite E. }
    destruct (decide (fd_key g ∈ ks)); [rewrite decide_True by set_solver; done|].
    rewrite decide_False by set_solver. done.
Qed.

Lemma entries_decode fs ks es : Forall field_ok fs -> NoDup (map fd_key fs) ->
  Forall (fun e => exists f, f ∈ fs /\ present f = true /\ e = entry f) es -> NoDup (ks ++ es.*1) ->
  entries_as (DStruct (TStruct (types fs)) (VStruct (map (cur ks) fs))) es
    (DStruct (TStruct (types fs)) (VStruct (map (cur (ks ++ es.*1)) fs))).
Proof.
  intros Hok Hnd Hes. revert ks. induction Hes as [|e es (f & Hf & Hp & ->) _ IH]; intros ks Hks.
  { cbn. rewrite app_nil_r. constructor. }
  apply list_elem_of_lookup in Hf as [i Hi]. change ((entry f :: es).*1) with (fd_key f :: es.*1) in *.
  assert (Hfok : field_ok f) by (rewrite Forall_lookup in Hok; by eapply Hok).
  pose proof (field_path fs i f Hok Hnd Hi) as Hpath.
  assert (Hnin : fd_key f ∉ ks).
  { intros Hin. apply NoDup_app in Hks as (_ & Hd & _). apply (Hd _ Hin). by left. }
  assert (Hcur : map (cur ks) fs !! i = Some (fd_info f, fd_zero f)).
  { rewrite list_lookup_fmap, Hi. cbn. unfold cur. by rewrite decide_False. }
  eapply entries_field.
  - cbn [prepareValueTarget]. rewrite Hpath. cbn [type_at val_at]. unfold types at 1. rewrite list_lookup_fmap, Hi. cbn.
    rewrite Hcur. cbn. reflexivity.
  - by destruct (ok_static f Hfok) as (_ & _ & _ & _ & _ & ?).
  - by apply (ok_present f Hfok).
  - cbn [store_value]. rewrite Hpath. cbn [val_set]. rewrite Hcur, (map_cur_snoc fs i f ks) by done.
    assert (ks ++ fd_key f :: es.*1 = (ks ++ [fd_key f]) ++ es.*1) as E by (by rewrite <-app_assoc).
    rewrite E in Hks |- *. by apply IH.
Qed.

(** A struct of fields that round-trip is read back as it was encoded. *)
Lemma struct_roundtrip fs : Forall field_ok fs -> NoDup (map fd_key fs) ->
  exists p, encodeValue (VStruct (vals fs)) = Ok p /\
    decodes_as (TStruct (types fs), VStruct (zeros fs)) p (VStruct (vals fs)).
Proof.
  intros Hok Hnd. destruct (sort_keys_keys_sorted (entries fs) (entries_keys fs Hnd)) as [Hs Hp].
  set (es := sort_keys (entries fs)) in *. exists ([100] ++ concat (map entry_bytes es) ++ [101]). split.
  - apply encode_struct_as; [|done]. rewrite struct_entries_ok by done. unfold all_ok. by rewrite Hp.
  - replace (VStruct (vals fs)) with (dict_val (DStruct (TStruct (types fs)) (VStruct (map (cur ([] ++ es.*1)) fs)))).
    + replace (VStruct (zeros fs)) with (VStruct (map (cur []) fs)) by done.
      eapply decodes_dict; [done|done|reflexivity|]. apply entries_decode; [done|done| |].
      * rewrite Hp. apply Forall_forall. intros e (f & -> & Hf)%list_elem_of_fmap.
        apply list_elem_of_filter in Hf as [Hpr Hf]. by exists f.
      * cbn [app]. by apply keys_sorted_nodup.
    + cbn [dict_val app]. f_equal. apply map_ext_in. intros f Hf%list_elem_of_In. unfold cur. f_equal.
      destruct (present f) eqn:Ep.
      * rewrite decide_True; [done|]. rewrite Hp. apply (list_elem_of_fmap_2 fst _ (entry f)).
        apply list_elem_of_fmap_2. by apply list_elem_of_filter.
      * rewrite Forall_forall in Hok. rewrite (ok_absent f (Hok f Hf) Ep). by case_decide.
Qed.

(** The encoding of a struct is a document when those of its fields are. *)
Definition is_doc (p : bytes) : Prop := exists b, bval_ok b /\ bencode b = p.

Lemma entries_doc (es : list (bytes * bytes)) : Forall (fun e => len e.1 < 2 ^ 31 /\ is_doc e.2) es ->
  exists m, Forall (fun e => len e.1 < 2 ^ 31 /\ bval_ok e.2) m /\ m.*1 = es.*1 /\
    map (fun e => encode_string e.1 ++ bencode e.2) m = map entry_bytes es.
Proof.
  induction 1 as [|[k p] es [Hk (b & Hb & E)] _ (m & Hm & E1 & E2)]; [by exists []|]. exists ((k, b) :: m).
  split; [by constructor|]. split; [cbn; by rewrite E1|]. cbn [map]. rewrite E2. unfold entry_bytes at 2. cbn in *. by rewrite E.
Qed.

Lemma struct_doc fs : Forall field_ok fs -> NoDup (map fd_key fs) -> Forall (fun f => present f = true -> is_doc (fd_bytes f)) fs ->
  exists b, bval_ok b /\ encodeValue (VStruct (vals fs)) = Ok (bencode b).
Proof.
  intros Hok Hnd Hdoc. destruct (sort_keys_keys_sorted (entries fs) (entries_keys fs Hnd)) as [Hs Hp].
  destruct (entries_doc (sort_keys (entries fs))) as (m & Hm & E1 & E2).
  { rewrite Hp. apply Forall_forall. intros e (f & -> & [Hpr Hf]%list_elem_of_filter)%list_elem_of_fmap.
    rewrite Forall_forall in Hok, Hdoc. split; [by apply (ok_static f (Hok f Hf))|by apply Hdoc]. }
  exists (BDict m). split.
  - apply bval_ok_dict. split; [|done]. unfold keys_sorted in *. by rewrite E1.
  - cbn [bencode]. rewrite E2. apply encode_struct_as; [|done]. rewrite struct_entries_ok by done. unfold all_ok. by rewrite Hp.
Qed.

End BencodeStruct.
