(* ===== verification/Pieces.v ===== *)
(** * Piece sets of the peer protocol

    Models [Pieces] and [BitField] of [src/peerprotocol/message.go]. A bit
    field is a list of bytes, bit [7 - i mod 8] of byte [i / 8] being piece
    [i]; updates out of range do nothing, as in the code. *)

From S2P Require Import Prelude.

Module Pieces.

(** ** Pieces: a sorted list of piece indexes *)
Abbreviation Pieces := (list Z).

Definition Sort (ps : Pieces) : Pieces := merge_sort Z.le ps.

Definition Append (ps : Pieces) (index : Z) : Pieces :=
  if decide (index ∈ ps) then ps else Sort (ps ++ [index]).

Fixpoint Remove (ps : Pieces) (index : Z) : Pieces :=
  match ps with
  | [] => []
  | p :: ps' => if decide (p = index) then ps' else p :: Remove ps' index
  end.

Definition pieces_ok (ps : Pieces) : Prop := StronglySorted Z.lt ps.

(** ** BitField *)
Definition NewBitField (pieceNum : Z) (set : bool) : bytes :=
  replicate (Z.to_nat ((pieceNum + 7) / 8)) (if set then 255 else 0).

Definition bit_mask (index : Z) : Z := Z.shiftl 1 (7 - index mod 8).

Definition byte_index (index : Z) : nat := Z.to_nat (index / 8).

Definition Set_ (bf : bytes) (index : Z) : bytes :=
  match bf !! byte_index index with
  | Some b => <[byte_index index := Z.lor b (bit_mask index)]> bf
  | None => bf
  end.

(** [&^=] is [Z.ldiff]. *)
Definition Unset (bf : bytes) (index : Z) : bytes :=
  match bf !! byte_index index with
  | Some b => <[byte_index index := Z.ldiff b (bit_mask index)]> bf
  | None => bf
  end.

Definition IsSet (bf : bytes) (index : Z) : bool :=
  match bf !! byte_index index with
  | Some b => negb (bool_decide (Z.land b (bit_mask index) = 0))
  | None => false
  end.

Fixpoint set_bools (bf : bytes) (i : Z) (l : list bool) : bytes :=
  match l with
  | [] => bf
  | has :: l' => set_bools (if has then Set_ bf i else bf) (i + 1) l'
  end.

Definition NewBitFieldFromBools (l : list bool) : bytes :=
  set_bools (NewBitField (len l) false) 0 l.

(** The bits of a byte, the most significant first. *)
Definition byte_bools (b : Z) : list bool :=
  map (fun i => bool_decide (Z.land (Z.shiftr b i) 1 = 1)) [7; 6; 5; 4; 3; 2; 1; 0].

Definition Bools (bf : bytes) : list bool := concat (map byte_bools bf).

Definition indexes (bf : bytes) : list Z := seqZ 0 (len bf * 8).

Definition Sets (bf : bytes) : Pieces := filter (fun i => IsSet bf i = true) (indexes bf).
Definition Unsets (bf : bytes) : Pieces := filter (fun i => IsSet bf i = false) (indexes bf).

(** ** Lemmas *)

Lemma elem_of_Remove ps index x :
  pieces_ok ps -> x ∈ Remove ps index <-> x ∈ ps /\ x <> index.
Proof.
  induction 1 as [|p ps Hs IH Hp]; cbn; [set_solver|].
  rewrite Forall_forall in Hp. case_decide as E.
  - subst. split; [intros Hx|set_solver]. split; [set_solver|]. specialize (Hp x Hx). lia.
  - rewrite !elem_of_cons, IH. set_solver.
Qed.

Lemma elem_of_Append ps index x : x ∈ Append ps index <-> x ∈ ps \/ x = index.
Proof.
  unfold Append, Sort. case_decide; [set_solver|].
  rewrite (merge_sort_Permutation Z.le). set_solver.
Qed.

Lemma sorted_nodup_lt (l : list Z) : StronglySorted Z.le l -> NoDup l -> StronglySorted Z.lt l.
Proof.
  induction 1 as [|x l Hs IH Hx]; intros Hnd; constructor.
  - apply IH. by apply NoDup_cons in Hnd as [_ ?].
  - apply NoDup_cons in Hnd as [Hin _]. rewrite Forall_forall in *. intros y Hy.
    specialize (Hx y Hy). destruct (decide (x = y)) as [->|]; [done|lia].
Qed.

Lemma pieces_ok_nodup ps : pieces_ok ps -> NoDup ps.
Proof.
  induction 1 as [|x l _ IH Hx]; constructor; [|done].
  intros Hin. rewrite Forall_forall in Hx. specialize (Hx x Hin). lia.
Qed.

Lemma Append_ok ps index : pieces_ok ps -> pieces_ok (Append ps index).
Proof.
  intros Hok. unfold Append. case_decide as Hin; [done|]. apply sorted_nodup_lt.
  - apply StronglySorted_merge_sort; apply _.
  - unfold Sort. rewrite (merge_sort_Permutation Z.le). apply NoDup_app.
    split_and!; [by apply pieces_ok_nodup| set_solver | apply NoDup_singleton].
Qed.

Lemma Remove_ok ps index : pieces_ok ps -> pieces_ok (Remove ps index).
Proof.
  induction 1 as [|p ps Hs IH Hp]; cbn; [constructor|]. case_decide; [done|].
  constructor; [done|]. rewrite Forall_forall in *. intros x Hx.
  apply elem_of_Remove in Hx as [Hx _]; auto.
Qed.

(** *** Bits *)
Lemma land_bit b k : 0 <= k -> Z.land b (Z.shiftl 1 k) <> 0 <-> Z.testbit b k = true.
Proof.
  intros Hk. split.
  - intros H. destruct (Z.testbit b k) eqn:E; [done|]. destruct H.
    apply Z.bits_inj'. intros n Hn. rewrite Z.land_spec, Z.bits_0, Z.shiftl_spec by lia.
    destruct (decide (n = k)) as [->|]; [by rewrite E|].
    rewrite andb_false_iff. right. destruct (decide (n < k)); [by apply Z.testbit_neg_r; lia|].
    change 1 with (2 ^ 0). apply Z.pow2_bits_false. lia.
  - intros H E. apply (f_equal (fun z => Z.testbit z k)) in E.
    rewrite Z.land_spec, Z.bits_0, Z.shiftl_spec, Z.sub_diag, H in E by lia. done.
Qed.

Lemma mask_bit k n : 0 <= k -> 0 <= n -> Z.testbit (Z.shiftl 1 k) n = bool_decide (n = k).
Proof.
  intros Hk Hn. rewrite Z.shiftl_spec by lia. case_bool_decide as E.
  - subst. by rewrite Z.sub_diag.
  - destruct (decide (n < k)); [by apply Z.testbit_neg_r; lia|].
    change 1 with (2 ^ 0). apply Z.pow2_bits_false. lia.
Qed.

(** [IsSet] as a bit of a byte. *)
Lemma IsSet_testbit bf index :
  IsSet bf index =
  match bf !! byte_index index with Some b => Z.testbit b (7 - index mod 8) | None => false end.
Proof.
  unfold IsSet, bit_mask. destruct (bf !! byte_index index) as [b|]; [|done].
  pose proof (Z.mod_pos_bound index 8 ltac:(lia)).
  pose proof (land_bit b (7 - index mod 8) ltac:(lia)) as H'. case_bool_decide as E.
  - destruct (Z.testbit b _); [|done]. by destruct (proj2 H').
  - symmetry. by apply H'.
Qed.

Lemma same_byte i j : 0 <= i -> 0 <= j ->
  byte_index i = byte_index j -> 7 - i mod 8 = 7 - j mod 8 -> i = j.
Proof.
  unfold byte_index. intros Hi Hj H1 H2.
  pose proof (Z.div_mod i 8 ltac:(lia)). pose proof (Z.div_mod j 8 ltac:(lia)).
  assert (i / 8 = j / 8); [|lia].
  apply Z2Nat.inj in H1; [done|apply Z.div_pos; lia..].
Qed.

Lemma byte_index_lt (bf : bytes) i :
  0 <= i -> (byte_index i < length bf)%nat <-> i < len bf * 8.
Proof.
  intros Hi. unfold byte_index, len.
  pose proof (Z.div_pos i 8 ltac:(lia) ltac:(lia)).
  assert (Z.of_nat (Z.to_nat (i / 8)) = i / 8) by lia.
  split; intros Hl.
  - assert (i / 8 < Z.of_nat (length bf)) by lia. pose proof (Z.div_mod i 8 ltac:(lia)).
    pose proof (Z.mod_pos_bound i 8 ltac:(lia)). lia.
  - assert (i / 8 < Z.of_nat (length bf)); [|lia]. apply Z.div_lt_upper_bound; lia.
Qed.

Lemma IsSet_Set bf i j : 0 <= i -> 0 <= j ->
  IsSet (Set_ bf i) j = bool_decide (i = j /\ i < len bf * 8) || IsSet bf j.
Proof.
  intros Hi Hj. rewrite !IsSet_testbit. unfold Set_, bit_mask.
  pose proof (byte_index_lt bf i Hi) as Hlt.
  pose proof (Z.mod_pos_bound i 8 ltac:(lia)). pose proof (Z.mod_pos_bound j 8 ltac:(lia)).
  destruct (bf !! byte_index i) as [b|] eqn:E.
  - apply lookup_lt_Some in E as Hb. apply Hlt in Hb as Hb'.
    destruct (decide (byte_index i = byte_index j)) as [Eij|Eij].
    + rewrite <- Eij, list_lookup_insert_eq, E by done.
      rewrite Z.lor_spec, mask_bit by lia. rewrite orb_comm. f_equal.
      apply bool_decide_ext. split; [|by intros [-> _]]. intros. split; [|done].
      by apply same_byte.
    + rewrite list_lookup_insert_ne by done.
      rewrite bool_decide_false; [done|]. by intros [-> _].
  - apply lookup_ge_None in E. rewrite bool_decide_false; [done|]. intros [_ Hi'].
    apply Hlt in Hi'. lia.
Qed.

Lemma IsSet_Unset bf i j : 0 <= i -> 0 <= j ->
  IsSet (Unset bf i) j = negb (bool_decide (i = j)) && IsSet bf j.
Proof.
  intros Hi Hj. rewrite !IsSet_testbit. unfold Unset, bit_mask.
  pose proof (Z.mod_pos_bound i 8 ltac:(lia)). pose proof (Z.mod_pos_bound j 8 ltac:(lia)).
  destruct (bf !! byte_index i) as [b|] eqn:E.
  - apply lookup_lt_Some in E as Hb.
    destruct (decide (byte_index i = byte_index j)) as [Eij|Eij].
    + rewrite <- Eij, list_lookup_insert_eq, E by done.
      rewrite Z.ldiff_spec, mask_bit by lia. rewrite andb_comm. do 2 f_equal.
      apply bool_decide_ext. split; [|by intros ->]. intros Em. apply same_byte; [done..|lia].
    + rewrite list_lookup_insert_ne by done.
      rewrite bool_decide_false; [done|]. by intros ->.
  - destruct (decide (i = j)) as [->|]; [by rewrite E, andb_false_r|].
    by rewrite bool_decide_false.
Qed.

Lemma length_Set bf i : length (Set_ bf i) = length bf.
Proof. unfold Set_. case_match; [|done]. apply length_insert. Qed.

Lemma len_Set bf i : len (Set_ bf i) = len bf.
Proof. unfold len. by rewrite length_Set. Qed.

Lemma IsSet_range bf j : 0 <= j -> IsSet bf j = true -> j < len bf * 8.
Proof.
  intros Hj H. apply byte_index_lt; [done|]. unfold IsSet in H.
  destruct (bf !! byte_index j) eqn:E; [|done]. by apply lookup_lt_Some in E.
Qed.

Lemma IsSet_New n j : 0 <= j -> IsSet (NewBitField n false) j = false.
Proof.
  intros Hj. rewrite IsSet_testbit. destruct (NewBitField n false !! byte_index j) as [b|] eqn:E; [|done].
  apply lookup_replicate in E as [-> _]. apply Z.bits_0.
Qed.

Lemma IsSet_set_bools l bf i j : 0 <= i -> 0 <= j -> i + len l <= len bf * 8 ->
  IsSet (set_bools bf i l) j =
  (bool_decide (i <= j) && default false (l !! Z.to_nat (j - i))) || IsSet bf j.
Proof.
  revert bf i. induction l as [|has l IH]; intros bf i Hi Hj Hl; cbn [set_bools].
  - rewrite lookup_nil. cbn. by rewrite andb_false_r.
  - rewrite len_cons in Hl. pose proof (len_nonneg l).
    rewrite IH by (destruct has; rewrite ?len_Set; lia).
    destruct (decide (j < i)) as [Hji|Hji].
    { rewrite !bool_decide_false by lia. cbn. destruct has; [|done].
      rewrite IsSet_Set by lia. by rewrite bool_decide_false by lia. }
    destruct (decide (j = i)) as [->|Hne].
    + rewrite (bool_decide_false (i + 1 <= i)), (bool_decide_true (i <= i)) by lia.
      rewrite Z.sub_diag. cbn. destruct has; [|done].
      rewrite IsSet_Set by lia. by rewrite bool_decide_true by lia.
    + rewrite !bool_decide_true by lia.
      replace (Z.to_nat (j - i)) with (S (Z.to_nat (j - (i + 1)))) by lia. cbn.
      f_equal. destruct has; [|done]. rewrite IsSet_Set by lia. by rewrite bool_decide_false by lia.
Qed.

(** ** Bools *)
Lemma byte_bools_lookup b k : (k < 8)%nat ->
  byte_bools b !! k = Some (Z.testbit b (7 - Z.of_nat k)).
Proof.
  intros Hk. unfold byte_bools.
  assert (forall i, 0 <= i -> bool_decide (Z.land (Z.shiftr b i) 1 = 1) = Z.testbit b i) as Hi.
  { intros i Hi. assert (Z.land (Z.shiftr b i) 1 = Z.shiftr b i mod 2) as ->
      by (apply (Z.land_ones _ 1); lia).
    rewrite <- Z.bit0_mod. rewrite Z.shiftr_spec by lia. rewrite Z.add_0_l.
    destruct (Z.testbit b i); [by rewrite bool_decide_true|by rewrite bool_decide_false]. }
  destruct k as [|[|[|[|[|[|[|[|]]]]]]]]; try lia; cbn [map lookup list_lookup];
    by rewrite Hi by lia.
Qed.

Lemma length_byte_bools b : length (byte_bools b) = 8%nat.
Proof. done. Qed.

Lemma Bools_lookup bf j : 0 <= j -> Bools bf !! Z.to_nat j =
  (if bool_decide (j < len bf * 8) then Some (IsSet bf j) else None).
Proof.
  revert j. induction bf as [|b bf IH]; intros j Hj.
  - rewrite bool_decide_false by (change (len (@nil Z)) with 0; lia). done.
  - unfold Bools. cbn [map concat]. rewrite len_cons. fold (Bools bf).
    rewrite IsSet_testbit. unfold byte_index. destruct (decide (j < 8)) as [Hlt|Hge].
    + rewrite lookup_app_l by (rewrite length_byte_bools; lia).
      rewrite byte_bools_lookup by lia. pose proof (len_nonneg bf).
      rewrite bool_decide_true by lia. rewrite Z.div_small, Z.mod_small by lia. cbn.
      do 2 f_equal. lia.
    + rewrite lookup_app_r by (rewrite length_byte_bools; lia). rewrite length_byte_bools.
      replace (Z.to_nat j - 8)%nat with (Z.to_nat (j - 8)) by lia. rewrite IH by lia.
      replace (bool_decide (j < (1 + len bf) * 8)) with (bool_decide (j - 8 < len bf * 8))
        by (apply bool_decide_ext; lia).
      case_bool_decide; [|done]. f_equal. rewrite IsSet_testbit. unfold byte_index.
      assert (j = 1 * 8 + (j - 8)) as E by lia.
      assert (j / 8 = 1 + (j - 8) / 8) as Ed by (rewrite E at 1; rewrite Z.div_add_l by lia; done).
      assert (j mod 8 = (j - 8) mod 8) as Em
        by (rewrite E at 1; rewrite Z.add_comm, Z.mod_add by lia; done).
      rewrite Ed, Em. replace (Z.to_nat (1 + (j - 8) / 8)) with (S (Z.to_nat ((j - 8) / 8))); [done|].
      pose proof (Z.div_pos (j - 8) 8 ltac:(lia) ltac:(lia)). lia.
Qed.

Lemma len_Bools bf : len (Bools bf) = len bf * 8.
Proof.
  unfold Bools. induction bf as [|b bf IH]; [done|]. cbn [map concat].
  rewrite len_app, IH, len_cons. change (len (byte_bools b)) with 8. lia.
Qed.

Lemma len_NewBitField n set : 0 <= n -> len (NewBitField n set) = (n + 7) / 8.
Proof. intros. unfold NewBitField. rewrite len_replicate, Z2Nat.id; [done|]. apply Z.div_pos; lia. Qed.

Lemma newbitfield_room n set : 0 <= n -> n <= len (NewBitField n set) * 8.
Proof.
  intros. rewrite len_NewBitField by done.
  pose proof (Z.div_mod (n + 7) 8 ltac:(lia)). pose proof (Z.mod_pos_bound (n + 7) 8 ltac:(lia)). lia.
Qed.

Lemma IsSet_FromBools l j : 0 <= j ->
  IsSet (NewBitFieldFromBools l) j = default false (l !! Z.to_nat j).
Proof.
  intros Hj. unfold NewBitFieldFromBools. pose proof (len_nonneg l).
  rewrite IsSet_set_bools by (try lia; rewrite Z.add_0_l; by apply newbitfield_room).
  rewrite IsSet_New, orb_false_r by done. rewrite bool_decide_true by lia.
  by rewrite Z.sub_0_r.
Qed.

Lemma len_set_bools l bf i : len (set_bools bf i l) = len bf.
Proof.
  revert bf i. induction l as [|has l IH]; intros bf i; cbn [set_bools]; [done|].
  rewrite IH. by destruct has; rewrite ?len_Set.
Qed.

Lemma elem_of_Sets bf i : i ∈ Sets bf <-> 0 <= i /\ IsSet bf i = true.
Proof.
  unfold Sets, indexes. rewrite list_elem_of_filter, elem_of_seqZ. split; [naive_solver lia|].
  intros [Hi H]. split; [done|]. split; [lia|]. by apply IsSet_range.
Qed.

(** ** Properties *)

(** setting a piece changes that bit and no other, and only when the piece
    is inside the field; unsetting clears that bit and no other; neither changes
    the size of the field. *)
Theorem bitfield_update bf i j :
  0 <= i -> 0 <= j ->
  IsSet (Set_ bf i) j = bool_decide (i = j /\ i < len bf * 8) || IsSet bf j /\
  IsSet (Unset bf i) j = negb (bool_decide (i = j)) && IsSet bf j /\
  len (Set_ bf i) = len bf /\ len (Unset bf i) = len bf.
Proof.
  intros Hi Hj. split_and!; [by apply IsSet_Set | by apply IsSet_Unset | apply len_Set |].
  unfold Unset, len. case_match; [|done]. by rewrite length_insert.
Qed.

Lemma bitfield_update_witness :
  IsSet (Set_ (NewBitField 10 false) 9) 9 = true /\
  IsSet (Set_ [0; 0] 9) 9 = bool_decide (9 = 9 /\ 9 < len [0; 0] * 8) || IsSet [0; 0] 9.
Proof.
  split; [vm_compute; reflexivity|].
  apply (bitfield_update [0; 0] 9 9); lia.
Defined.

(** a list of booleans made into a bit field and read back with [Bools] is
    the list followed by fewer than eight [false], the padding of the last
    byte; [Sets] lists exactly the indexes of the [true] entries. *)
Theorem bitfield_bools_roundtrip l :
  exists pad, Bools (NewBitFieldFromBools l) = l ++ replicate pad false /\ (pad < 8)%nat /\
  forall i, i ∈ Sets (NewBitFieldFromBools l) <-> 0 <= i /\ l !! Z.to_nat i = Some true.
Proof.
  pose proof (len_nonneg l) as Hl0. set (bf := NewBitFieldFromBools l).
  assert (len bf = (len l + 7) / 8) as Hbf.
  { unfold bf, NewBitFieldFromBools. rewrite len_set_bools. by apply len_NewBitField. }
  pose proof (Z.div_mod (len l + 7) 8 ltac:(lia)). pose proof (Z.mod_pos_bound (len l + 7) 8 ltac:(lia)).
  exists (Z.to_nat (len bf * 8 - len l)). split_and!.
  - apply list_eq. intros k. replace k with (Z.to_nat (Z.of_nat k)) by lia.
    rewrite Bools_lookup by lia. subst bf. rewrite IsSet_FromBools by lia. rewrite !Nat2Z.id.
    unfold len in *. case_bool_decide as Hk.
    + destruct (l !! k) eqn:E; [by rewrite (lookup_app_l_Some _ _ _ _ E)|].
      apply lookup_ge_None in E. rewrite lookup_app_r by done. symmetry.
      apply lookup_replicate. split; [done|lia].
    + symmetry. apply lookup_ge_None. rewrite length_app, length_replicate. lia.
  - lia.
  - intros i. rewrite elem_of_Sets. split; intros [Hi Hs]; (split; [done|]).
    + unfold bf in Hs. rewrite IsSet_FromBools in Hs by done.
      by destruct (l !! Z.to_nat i) as [[]|].
    + unfold bf. by rewrite IsSet_FromBools, Hs by done.
Qed.

End Pieces.
