(* ===== verification/PeerMessage.v ===== *)
(** * Messages of the peer protocol

    Models [MessageType] ([src/peerprotocol/protocol.go]), [Message] with its
    codec ([src/peerprotocol/message.go]), and the handshake
    ([src/peerprotocol/handshake.go]). The connection is the list of the bytes
    it still delivers before it ends; [io.LimitedReader] is its own record, and
    the check that a message was consumed to the byte is the deferred function
    of [Message.Decode]. *)

From S2P Require Import Prelude Strconv.

Module PeerMessage.

(** ** protocol.go *)
Definition MTypeChoke : Z := 0.
Definition MTypeUnchoke : Z := 1.
Definition MTypeInterested : Z := 2.
Definition MTypeNotInterested : Z := 3.
Definition MTypeHave : Z := 4.
Definition MTypeBitField : Z := 5.
Definition MTypeRequest : Z := 6.
Definition MTypePiece : Z := 7.
Definition MTypeCancel : Z := 8.
Definition MTypePort : Z := 9.
Definition MTypeSuggest : Z := 13.
Definition MTypeHaveAll : Z := 14.
Definition MTypeHaveNone : Z := 15.
Definition MTypeReject : Z := 16.
Definition MTypeAllowedFast : Z := 17.
Definition MTypeExtended : Z := 20.

Definition MessageType_String (mt : Z) : bytes :=
  if decide (mt = MTypeChoke) then bs "Choke"
  else if decide (mt = MTypeUnchoke) then bs "Unchoke"
  else if decide (mt = MTypeInterested) then bs "Interested"
  else if decide (mt = MTypeNotInterested) then bs "NotInterested"
  else if decide (mt = MTypeHave) then bs "Have"
  else if decide (mt = MTypeBitField) then bs "Bitfield"
  else if decide (mt = MTypeRequest) then bs "Request"
  else if decide (mt = MTypePiece) then bs "Piece"
  else if decide (mt = MTypeCancel) then bs "Cancel"
  else if decide (mt = MTypePort) then bs "Port"
  else if decide (mt = MTypeSuggest) then bs "Suggest"
  else if decide (mt = MTypeHaveAll) then bs "HaveAll"
  else if decide (mt = MTypeHaveNone) then bs "HaveNone"
  else if decide (mt = MTypeReject) then bs "Reject"
  else if decide (mt = MTypeAllowedFast) then bs "AllowedFast"
  else if decide (mt = MTypeExtended) then bs "Extended"
  else bs "MessageType(" ++ Strconv.FormatInt mt ++ bs ")".

Definition FastExtension (mt : Z) : bool := bool_decide (MTypeSuggest <= mt) && bool_decide (mt <= MTypeAllowedFast).

(** ** message.go: the message *)
Record Message := MkMessage {
  Keepalive : bool;
  Type_ : Z;
  Index : Z;
  Begin : Z;
  Length : Z;
  Piece : bytes;
  BitField : bytes;
  ExtendedID : Z;
  ExtendedPayload : bytes;
  Port : Z;
  UnknownTypePayload : bytes
}.

Definition zeroMessage : Message := MkMessage false 0 0 0 0 [] [] 0 [] 0 [].

Definition set_Keepalive (m : Message) (b : bool) : Message :=
  MkMessage b (Type_ m) (Index m) (Begin m) (Length m) (Piece m) (BitField m)
    (ExtendedID m) (ExtendedPayload m) (Port m) (UnknownTypePayload m).
Definition set_Type (m : Message) (t : Z) : Message :=
  MkMessage (Keepalive m) t (Index m) (Begin m) (Length m) (Piece m) (BitField m)
    (ExtendedID m) (ExtendedPayload m) (Port m) (UnknownTypePayload m).
Definition set_Index (m : Message) (i : Z) : Message :=
  MkMessage (Keepalive m) (Type_ m) i (Begin m) (Length m) (Piece m) (BitField m)
    (ExtendedID m) (ExtendedPayload m) (Port m) (UnknownTypePayload m).
Definition set_Begin (m : Message) (b : Z) : Message :=
  MkMessage (Keepalive m) (Type_ m) (Index m) b (Length m) (Piece m) (BitField m)
    (ExtendedID m) (ExtendedPayload m) (Port m) (UnknownTypePayload m).
Definition set_Length (m : Message) (l : Z) : Message :=
  MkMessage (Keepalive m) (Type_ m) (Index m) (Begin m) l (Piece m) (BitField m)
    (ExtendedID m) (ExtendedPayload m) (Port m) (UnknownTypePayload m).
Definition set_Piece (m : Message) (p : bytes) : Message :=
  MkMessage (Keepalive m) (Type_ m) (Index m) (Begin m) (Length m) p (BitField m)
    (ExtendedID m) (ExtendedPayload m) (Port m) (UnknownTypePayload m).
Definition set_BitField (m : Message) (b : bytes) : Message :=
  MkMessage (Keepalive m) (Type_ m) (Index m) (Begin m) (Length m) (Piece m) b
    (ExtendedID m) (ExtendedPayload m) (Port m) (UnknownTypePayload m).
Definition set_Extended (m : Message) (id : Z) (p : bytes) : Message :=
  MkMessage (Keepalive m) (Type_ m) (Index m) (Begin m) (Length m) (Piece m) (BitField m)
    id p (Port m) (UnknownTypePayload m).
Definition set_Port (m : Message) (p : Z) : Message :=
  MkMessage (Keepalive m) (Type_ m) (Index m) (Begin m) (Length m) (Piece m) (BitField m)
    (ExtendedID m) (ExtendedPayload m) p (UnknownTypePayload m).
Definition set_Unknown (m : Message) (p : bytes) : Message :=
  MkMessage (Keepalive m) (Type_ m) (Index m) (Begin m) (Length m) (Piece m) (BitField m)
    (ExtendedID m) (ExtendedPayload m) (Port m) p.

(** ** Reading *)
Definition EOF : string := "EOF".
Definition ErrUnexpectedEOF : string := "unexpected EOF".
Definition errMessageTooLong : string := "the peer message is too long".

(** [io.ReadFull] of [n] bytes. *)
Definition ReadFull (n : Z) (r : bytes) : res (bytes * bytes) :=
  if decide (n <= len r) then Ok (take (Z.to_nat n) r, drop (Z.to_nat n) r)
  else if decide (r = []) then Err EOF else Err ErrUnexpectedEOF.

(** [io.LimitedReader]: [lr_R] is the underlying reader, [lr_N] what may
    still be read of it. *)
Record LimitedReader := MkLR { lr_R : bytes; lr_N : Z }.

Definition lr_view (lr : LimitedReader) : bytes := take (Z.to_nat (lr_N lr)) (lr_R lr).
Definition lr_advance (n : Z) (lr : LimitedReader) : LimitedReader :=
  MkLR (drop (Z.to_nat n) (lr_R lr)) (lr_N lr - n).

Definition lr_ReadFull (n : Z) (lr : LimitedReader) : res (bytes * LimitedReader) :=
  '(p, _) ← ReadFull n (lr_view lr); Ok (p, lr_advance n lr).

(** [readByte]: one call of [Read] with a buffer of one byte. *)
Definition readByte (lr : LimitedReader) : res (Z * LimitedReader) :=
  match lr_view lr with
  | [] => Err EOF
  | b :: _ => Ok (b, lr_advance 1 lr)
  end.

(** [io.ReadAll]. *)
Definition ReadAll (lr : LimitedReader) : bytes * LimitedReader :=
  (lr_view lr, lr_advance (len (lr_view lr)) lr).

(** [binary.Read] of an unsigned integer of [n] bytes. *)
Definition binaryRead (n : Z) (lr : LimitedReader) : res (Z * LimitedReader) :=
  '(p, lr1) ← lr_ReadFull n lr; Ok (be_val p, lr1).

Definition readMessageLength (r : bytes) : res (Z * bytes) :=
  match ReadFull 4 r with
  | Ok (p, r1) => Ok (be_val p, r1)
  | Err e => if decide (e = EOF) then Err EOF else Err "reading length error"
  | Panic p => Panic p
  | NoFuel => NoFuel
  end.

Definition validateMessageLength (length maxLength : Z) : res unit :=
  if decide (0 < maxLength /\ maxLength < length) then Err errMessageTooLong else Ok tt.

Definition decodeIndexOnlyMessage (m : Message) (lr : LimitedReader) : res (Message * LimitedReader) :=
  '(i, lr1) ← binaryRead 4 lr; Ok (set_Index m i, lr1).

Definition decodeRequestLikeMessage (m : Message) (lr : LimitedReader) : res (Message * LimitedReader) :=
  '(i, lr1) ← binaryRead 4 lr;
  '(b, lr2) ← binaryRead 4 lr1;
  '(l, lr3) ← binaryRead 4 lr2;
  Ok (set_Length (set_Begin (set_Index m i) b) l, lr3).

(** A short read is swallowed here; the deferred check of [Decode] sees it. *)
Definition decodeBitFieldMessage (m : Message) (lr : LimitedReader) (length : Z) : res (Message * LimitedReader) :=
  let _len := u32 (length - 1) in
  match lr_ReadFull _len lr with
  | Ok (bs, lr1) => Ok (set_BitField m bs, lr1)
  | _ => Ok (m, lr_advance (len (lr_view lr)) lr)
  end.

Definition decodePieceMessage (m : Message) (lr : LimitedReader) : res (Message * LimitedReader) :=
  '(i, lr1) ← binaryRead 4 lr;
  '(b, lr2) ← binaryRead 4 lr1;
  match lr_ReadFull (lr_N lr2) lr2 with
  | Ok (p, lr3) => Ok (set_Piece (set_Begin (set_Index m i) b) p, lr3)
  | _ => Err "reading piece data error"
  end.

Definition decodeExtendedMessage (m : Message) (lr : LimitedReader) : res (Message * LimitedReader) :=
  '(id, lr1) ← readByte lr;
  let '(p, lr2) := ReadAll lr1 in
  Ok (set_Extended m id p, lr2).

Definition decodePortMessage (m : Message) (lr : LimitedReader) : res (Message * LimitedReader) :=
  '(p, lr1) ← binaryRead 2 lr; Ok (set_Port m p, lr1).

Definition decodeUnknownMessage (m : Message) (lr : LimitedReader) : res (Message * LimitedReader) :=
  let '(p, lr1) := ReadAll lr in Ok (set_Unknown m p, lr1).

Definition no_payload (t : Z) : bool :=
  bool_decide (t ∈ [MTypeChoke; MTypeUnchoke; MTypeInterested; MTypeNotInterested; MTypeHaveAll; MTypeHaveNone]).

Definition decodeByMessageType (m : Message) (lr : LimitedReader) (length : Z) : res (Message * LimitedReader) :=
  let t := Type_ m in
  if no_payload t then Ok (m, lr)
  else if decide (t = MTypeHave \/ t = MTypeAllowedFast \/ t = MTypeSuggest) then decodeIndexOnlyMessage m lr
  else if decide (t = MTypeRequest \/ t = MTypeCancel \/ t = MTypeReject) then decodeRequestLikeMessage m lr
  else if decide (t = MTypeBitField) then decodeBitFieldMessage m lr length
  else if decide (t = MTypePiece) then decodePieceMessage m lr
  else if decide (t = MTypeExtended) then decodeExtendedMessage m lr
  else if decide (t = MTypePort) then decodePortMessage m lr
  else decodeUnknownMessage m lr.

(** [Message.Decode] into [m], with what remains of the connection. *)
Definition Decode (m : Message) (r : bytes) (maxLength : Z) : res (Message * bytes) :=
  '(length, r1) ← readMessageLength r;
  if decide (length = 0) then Ok (set_Keepalive m true, r1)
  else
    _ ← validateMessageLength length maxLength;
    let m1 := set_Keepalive m false in
    '(t, lr1) ← readByte (MkLR r1 length);
    '(m2, lr2) ← decodeByMessageType (set_Type m1 t) lr1 length;
    if decide (lr_N lr2 = 0) then Ok (m2, lr_R lr2) else Err "bytes unused in message".

Definition DecodeToMessage (r : bytes) (maxLength : Z) : res (Message * bytes) :=
  Decode zeroMessage r maxLength.

Definition UnmarshalBinary (m : Message) (data : bytes) : res (Message * bytes) := Decode m data 0.

(** ** Writing *)
Definition marshalRequestLikeMessage (m : Message) : bytes :=
  be_bytes 4 (Index m) ++ be_bytes 4 (Begin m) ++ be_bytes 4 (Length m).
Definition marshalPieceMessage (m : Message) : bytes :=
  be_bytes 4 (Index m) ++ be_bytes 4 (Begin m) ++ Piece m.
Definition marshalExtendedMessage (m : Message) : bytes := ExtendedID m :: ExtendedPayload m.

Definition marshalBinaryType (m : Message) : bytes :=
  let t := Type_ m in
  if no_payload t then []
  else if decide (t = MTypeHave) then be_bytes 4 (Index m)
  else if decide (t = MTypeRequest \/ t = MTypeCancel \/ t = MTypeReject) then marshalRequestLikeMessage m
  else if decide (t = MTypeBitField) then BitField m
  else if decide (t = MTypePiece) then marshalPieceMessage m
  else if decide (t = MTypeExtended) then marshalExtendedMessage m
  else if decide (t = MTypePort) then be_bytes 2 (Port m)
  else UnknownTypePayload m.

(** [Message.Encode] into an empty buffer; writing to a [bytes.Buffer] does
    not fail. *)
Definition Encode (m : Message) : bytes :=
  if Keepalive m then [0; 0; 0; 0]
  else
    let body := Type_ m :: marshalBinaryType m in
    be_bytes 4 (u32 (len body)) ++ body.

Definition MarshalBinary (m : Message) : bytes := Encode m.

(** ** handshake.go *)
Definition ProtocolHeader : bytes := 19 :: bs "BitTorrent protocol".

Definition ExtensionBitDHT : Z := 0.
Definition ExtensionBitFast : Z := 2.
Definition ExtensionBitExtended : Z := 20.

(** [eb[7-bit/8]]: the index is unsigned, so a bit past 63 is out of range. *)
Definition ext_byte (eb : bytes) (bit : Z) : res Z :=
  if decide (bit / 8 <= 7) then
    match eb !! Z.to_nat (7 - bit / 8) with Some b => Ok b | None => Panic "index out of range" end
  else Panic "index out of range".

(** [ExtensionBits.Set] and [Unset] have a value receiver: the array they
    change is their own copy ([local]), and the caller keeps [eb]. *)
Definition ext_Set_local (eb : bytes) (bit : Z) : res bytes :=
  b ← ext_byte eb bit; Ok (<[Z.to_nat (7 - bit / 8) := u8 (Z.lor b (Z.shiftl 1 (bit mod 8)))]> eb).
Definition ext_Unset_local (eb : bytes) (bit : Z) : res bytes :=
  b ← ext_byte eb bit; Ok (<[Z.to_nat (7 - bit / 8) := Z.ldiff b (Z.shiftl 1 (bit mod 8))]> eb).
Definition ext_Set (eb : bytes) (bit : Z) : res bytes := local ← ext_Set_local eb bit; Ok eb.
Definition ext_Unset (eb : bytes) (bit : Z) : res bytes := local ← ext_Unset_local eb bit; Ok eb.

Definition ext_IsSet (eb : bytes) (bit : Z) : res bool :=
  b ← ext_byte eb bit; Ok (negb (bool_decide (Z.land b (Z.shiftl 1 (bit mod 8)) = 0))).

Definition IsSupportDHT (eb : bytes) : res bool := ext_IsSet eb ExtensionBitDHT.
Definition IsSupportFast (eb : bytes) : res bool := ext_IsSet eb ExtensionBitFast.
Definition IsSupportExtended (eb : bytes) : res bool := ext_IsSet eb ExtensionBitExtended.

Record HandshakeMsg := MkHandshake {
  hs_ExtensionBits : bytes;
  hs_PeerID : bytes;
  hs_InfoHash : bytes
}.

Definition zeroHash : bytes := replicate 20 0.
Definition zeroBits : bytes := replicate 8 0.

Definition NewHandshakeMsg (peerID infoHash : bytes) (es : list bytes) : HandshakeMsg :=
  MkHandshake (default zeroBits (head es)) peerID infoHash.

(** A socket: the bytes it will deliver, the bytes written to it, and after how
    many more writes it starts failing ([None]: never). *)
Record Sock := MkSock { sk_in : bytes; sk_out : bytes; sk_fail : option nat }.

Definition sock_write (b : bytes) (s : Sock) : res Sock :=
  match sk_fail s with
  | None => Ok (MkSock (sk_in s) (sk_out s ++ b) None)
  | Some O => Err "write error"
  | Some (S n) => Ok (MkSock (sk_in s) (sk_out s ++ b) (Some n))
  end.

Definition getPeerHandshakeMsg (s : Sock) : res (HandshakeMsg * Sock) :=
  '(b, rest) ← ReadFull 68 (sk_in s);
  if decide (take 20 b = ProtocolHeader) then
    Ok (MkHandshake (take 8 (drop 20 b)) (take 20 (drop 48 b)) (take 20 (drop 28 b)),
        MkSock rest (sk_out s) (sk_fail s))
  else Err "unexpected peer protocol header string".

Definition writeHandshakeMessage (msg : HandshakeMsg) (s : Sock) : res Sock :=
  s1 ← sock_write ProtocolHeader s;
  s2 ← sock_write (hs_ExtensionBits msg) s1;
  s3 ← sock_write (hs_InfoHash msg) s2;
  sock_write (hs_PeerID msg) s3.

(** [Handshake]: with a zero info hash the peer's message is read first and its
    info hash sent back. *)
Definition Handshake (s : Sock) (msg : HandshakeMsg) : res (HandshakeMsg * Sock) :=
  if decide (hs_InfoHash msg = zeroHash) then
    '(ret, s1) ← getPeerHandshakeMsg s;
    s2 ← writeHandshakeMessage (MkHandshake (hs_ExtensionBits msg) (hs_PeerID msg) (hs_InfoHash ret)) s1;
    Ok (ret, s2)
  else
    s1 ← writeHandshakeMessage msg s;
    getPeerHandshakeMsg s1.

(** ** Lemmas on reading *)

Lemma lr_view_app p rest n :
  0 <= n -> len p <= n -> lr_view (MkLR (p ++ rest) n) = p ++ lr_view (MkLR rest (n - len p)).
Proof.
  intros Hn Hp. unfold lr_view. cbn. unfold len in *.
  rewrite take_app_ge by lia. do 2 f_equal. lia.
Qed.

Lemma ReadFull_app p rest : ReadFull (len p) (p ++ rest) = Ok (p, rest).
Proof.
  unfold ReadFull. pose proof (len_nonneg rest). rewrite len_app, decide_True by lia.
  unfold len. by rewrite Nat2Z.id, take_app_length, drop_app_length.
Qed.

Lemma lr_advance_app p rest n : lr_advance (len p) (MkLR (p ++ rest) n) = MkLR rest (n - len p).
Proof. unfold lr_advance, len. cbn. by rewrite Nat2Z.id, drop_app_length. Qed.

Lemma lr_ReadFull_app p rest n :
  len p <= n -> lr_ReadFull (len p) (MkLR (p ++ rest) n) = Ok (p, MkLR rest (n - len p)).
Proof.
  intros Hn. pose proof (len_nonneg p). unfold lr_ReadFull. rewrite lr_view_app by lia.
  rewrite ReadFull_app. cbn [mbind res_bind]. by rewrite lr_advance_app.
Qed.

Lemma binaryRead_app k z rest n :
  0 <= z < 256 ^ Z.of_nat k -> Z.of_nat k <= n ->
  binaryRead (Z.of_nat k) (MkLR (be_bytes k z ++ rest) n) = Ok (z, MkLR rest (n - Z.of_nat k)).
Proof.
  intros Hz Hn. unfold binaryRead. rewrite <- (len_be_bytes k z) at 1.
  rewrite lr_ReadFull_app by (rewrite len_be_bytes; done). cbn [mbind res_bind].
  by rewrite be_val_be_bytes_id, len_be_bytes.
Qed.

Lemma readByte_app b rest n :
  1 <= n -> readByte (MkLR (b :: rest) n) = Ok (b, MkLR rest (n - 1)).
Proof.
  intros Hn. unfold readByte, lr_view, lr_advance. cbn [lr_N lr_R].
  destruct (Z.to_nat n) eqn:E; [lia|]. by cbn [take].
Qed.

(** Everything the limit still allows, when the rest is there. *)
Lemma ReadAll_app p rest : ReadAll (MkLR (p ++ rest) (len p)) = (p, MkLR rest 0).
Proof.
  unfold ReadAll. pose proof (len_nonneg p). rewrite lr_view_app by lia.
  rewrite Z.sub_diag. change (lr_view (MkLR rest 0)) with (@nil Z). rewrite app_nil_r.
  rewrite lr_advance_app. do 2 f_equal. lia.
Qed.

Lemma readMessageLength_app z rest :
  0 <= z < 2 ^ 32 -> readMessageLength (be_bytes 4 z ++ rest) = Ok (z, rest).
Proof.
  intros Hz. unfold readMessageLength. change 4 with (Z.of_nat 4).
  rewrite <- (len_be_bytes 4 z), ReadFull_app. by rewrite be_val_be_bytes_id by lia.
Qed.

(** ** The codec: every message a peer can send survives the wire *)

(** The field values the Go types allow. *)
Definition msg_typed (m : Message) : Prop :=
  is_byte (Type_ m) /\ 0 <= Index m < 2 ^ 32 /\ 0 <= Begin m < 2 ^ 32 /\ 0 <= Length m < 2 ^ 32 /\
  is_byte (ExtendedID m) /\ 0 <= Port m < 2 ^ 16.
#[global] Instance msg_typed_dec m : Decision (msg_typed m).
Proof. unfold msg_typed. apply _. Defined.

(** The fields its type carries: what the receiver of [m] can know of it. *)
Definition carried (m : Message) : Message :=
  if Keepalive m then set_Keepalive zeroMessage true
  else
    let t := Type_ m in
    let z := set_Type zeroMessage t in
    if no_payload t then z
    else if decide (t = MTypeHave \/ t = MTypeAllowedFast \/ t = MTypeSuggest) then set_Index z (Index m)
    else if decide (t = MTypeRequest \/ t = MTypeCancel \/ t = MTypeReject) then
      set_Length (set_Begin (set_Index z (Index m)) (Begin m)) (Length m)
    else if decide (t = MTypeBitField) then set_BitField z (BitField m)
    else if decide (t = MTypePiece) then set_Piece (set_Begin (set_Index z (Index m)) (Begin m)) (Piece m)
    else if decide (t = MTypeExtended) then set_Extended z (ExtendedID m) (ExtendedPayload m)
    else if decide (t = MTypePort) then set_Port z (Port m)
    else set_Unknown z (UnknownTypePayload m).

(** The message fits the length field and the receiver's limit. *)
Definition fits (m : Message) (maxLength : Z) : Prop :=
  1 + len (marshalBinaryType m) < 2 ^ 32 /\ (maxLength <= 0 \/ 1 + len (marshalBinaryType m) <= maxLength).
#[global] Instance fits_dec m l : Decision (fits m l).
Proof. unfold fits. apply _. Defined.

Lemma decode_payload m rest :
  msg_typed m -> Keepalive m = false -> Type_ m <> MTypeSuggest -> Type_ m <> MTypeAllowedFast ->
  1 + len (marshalBinaryType m) < 2 ^ 32 ->
  decodeByMessageType (set_Type zeroMessage (Type_ m))
    (MkLR (marshalBinaryType m ++ rest) (len (marshalBinaryType m))) (1 + len (marshalBinaryType m))
  = Ok (carried m, MkLR rest 0).
Proof.
  intros (Ht & Hi & Hb & Hl & Hid & Hp) Hk Hs Ha Hlen.
  unfold decodeByMessageType, carried. rewrite Hk. cbn [Type_ set_Type].
  revert Hlen. unfold marshalBinaryType. destruct (no_payload (Type_ m)) eqn:En; [done|].
  destruct (decide (Type_ m = MTypeHave \/ _)) as [Hh|Hh].
  { destruct (decide (Type_ m = MTypeHave)) as [_|]; [|naive_solver].
    intros _. unfold decodeIndexOnlyMessage. change 4 with (Z.of_nat 4).
    rewrite len_be_bytes. by rewrite binaryRead_app by lia. }
  destruct (decide (Type_ m = MTypeHave)) as [|_]; [naive_solver|].
  destruct (decide (Type_ m = MTypeRequest \/ _)) as [Hr|Hr].
  { intros _. unfold decodeRequestLikeMessage, marshalRequestLikeMessage.
    rewrite !len_app, !len_be_bytes, <- !app_assoc. change 4 with (Z.of_nat 4).
    do 3 (rewrite binaryRead_app by lia; cbn [mbind res_bind]). done. }
  repeat case_decide; try done; intros Hlen.
  - unfold decodeBitFieldMessage. rewrite u32_small by (pose proof (len_nonneg (BitField m)); lia).
    replace (1 + len (BitField m) - 1) with (len (BitField m)) by lia.
    rewrite lr_ReadFull_app by lia. by rewrite Z.sub_diag.
  - unfold decodePieceMessage, marshalPieceMessage.
    rewrite !len_app, !len_be_bytes, <- !app_assoc. change 4 with (Z.of_nat 4).
    pose proof (len_nonneg (Piece m)).
    do 2 (rewrite binaryRead_app by lia; cbn [mbind res_bind]). cbn [lr_N].
    replace (_ - Z.of_nat 4 - Z.of_nat 4) with (len (Piece m)) by lia.
    rewrite lr_ReadFull_app by lia. by rewrite Z.sub_diag.
  - unfold decodeExtendedMessage, marshalExtendedMessage. rewrite <- app_comm_cons, len_cons.
    pose proof (len_nonneg (ExtendedPayload m)). rewrite readByte_app by lia. cbn [mbind res_bind].
    replace (1 + len (ExtendedPayload m) - 1) with (len (ExtendedPayload m)) by lia. by rewrite ReadAll_app.
  - unfold decodePortMessage. rewrite len_be_bytes. change 2 with (Z.of_nat 2) at 1.
    by rewrite binaryRead_app by lia.
  - unfold decodeUnknownMessage. by rewrite ReadAll_app.
Qed.

Lemma Decode_Encode m rest maxLength :
  msg_typed m -> fits m maxLength -> Type_ m <> MTypeSuggest -> Type_ m <> MTypeAllowedFast ->
  DecodeToMessage (Encode m ++ rest) maxLength = Ok (carried m, rest).
Proof.
  intros Hm [Hf Hmax] Hs Ha. pose proof (len_nonneg (marshalBinaryType m)).
  unfold DecodeToMessage, Decode, Encode. destruct (Keepalive m) eqn:Hk.
  { unfold carried. rewrite Hk. change [0; 0; 0; 0] with (be_bytes 4 0).
    by rewrite readMessageLength_app by lia. }
  rewrite len_cons, u32_small, <- app_assoc by lia. rewrite readMessageLength_app by lia.
  cbn [mbind res_bind]. rewrite decide_False by lia.
  unfold validateMessageLength. rewrite decide_False by lia. cbn [mbind res_bind].
  rewrite <- app_comm_cons, readByte_app by lia. cbn [mbind res_bind].
  replace (1 + len (marshalBinaryType m) - 1) with (len (marshalBinaryType m)) by lia.
  change (set_Keepalive zeroMessage false) with zeroMessage.
  rewrite decode_payload by done. done.
Qed.

(** C3: Round trip of the peer wire format: for a message of any type but
    Suggest and AllowedFast whose body fits the 32-bit length field and the
    receiver's limit, decoding the encoded message followed by any further
    bytes returns exactly the fields that message type carries (every other
    field zero) and leaves exactly the further bytes on the connection. *)
Theorem message_roundtrip m rest maxLength :
  msg_typed m -> fits m maxLength -> Type_ m <> MTypeSuggest -> Type_ m <> MTypeAllowedFast ->
  DecodeToMessage (Encode m ++ rest) maxLength = Ok (carried m, rest).
Proof. apply Decode_Encode. Qed.

Lemma message_roundtrip_witness :
  let m := MkMessage false 7 5 16384 0 (bs "data") [] 0 [] 0 [] in
  DecodeToMessage (Encode m ++ bs "next") 20 = Ok (m, bs "next").
Proof.
  cbv zeta. apply (message_roundtrip (MkMessage false 7 5 16384 0 (bs "data") [] 0 [] 0 []) (bs "next") 20);
    [vm_compute; intuition congruence..|done|done].
Defined.

(** A Suggest or AllowedFast message loses its piece index: with no
    payload of the unknown kind set, which is how both messages are sent, the
    encoding is the type byte alone, and whatever the index and whatever
    follows, the receiver does not accept it. *)
Theorem suggest_index_lost m rest maxLength :
  Keepalive m = false -> Type_ m = MTypeSuggest \/ Type_ m = MTypeAllowedFast -> UnknownTypePayload m = [] ->
  Encode m = [0; 0; 0; 1; Type_ m] /\ DecodeToMessage (Encode m ++ rest) maxLength = Err EOF.
Proof.
  intros Hk Ht Hu.
  assert (Encode m = be_bytes 4 1 ++ [Type_ m]) as E.
  { unfold Encode, marshalBinaryType. rewrite Hk, Hu. by destruct Ht as [-> | ->]. }
  rewrite E. split; [done|]. unfold DecodeToMessage, Decode.
  rewrite <- app_assoc, readMessageLength_app by lia. cbn [mbind res_bind]. rewrite decide_False by lia.
  unfold validateMessageLength. rewrite decide_False by lia. cbn [mbind res_bind app].
  rewrite readByte_app by lia. by destruct Ht as [-> | ->].
Qed.

Lemma suggest_index_lost_witness :
  let m := MkMessage false 13 42 0 0 [] [] 0 [] 0 [] in
  Encode m = [0; 0; 0; 1; 13] /\ DecodeToMessage (Encode m ++ []) 0 = Err EOF.
Proof.
  apply (suggest_index_lost (MkMessage false 13 42 0 0 [] [] 0 [] 0 []) [] 0); [done|by left|done].
Defined.

(** ** The handshake *)

Definition hs_ok (m : HandshakeMsg) : Prop :=
  length (hs_ExtensionBits m) = 8%nat /\ length (hs_PeerID m) = 20%nat /\ length (hs_InfoHash m) = 20%nat.
#[global] Instance hs_ok_dec m : Decision (hs_ok m).
Proof. unfold hs_ok. apply _. Defined.

(** The 68 bytes of BEP 3. *)
Definition hs_wire (m : HandshakeMsg) : bytes :=
  ProtocolHeader ++ hs_ExtensionBits m ++ hs_InfoHash m ++ hs_PeerID m.

Lemma len_hs_wire m : hs_ok m -> len (hs_wire m) = 68.
Proof.
  intros (H1 & H2 & H3). unfold hs_wire. rewrite !len_app. unfold len. rewrite H1, H2, H3. done.
Qed.

Lemma writeHandshakeMessage_ok m inp out :
  writeHandshakeMessage m (MkSock inp out None) = Ok (MkSock inp (out ++ hs_wire m) None).
Proof. unfold writeHandshakeMessage, hs_wire. cbn. by rewrite <- !app_assoc. Qed.

Lemma getPeerHandshakeMsg_ok m rest out f :
  hs_ok m -> getPeerHandshakeMsg (MkSock (hs_wire m ++ rest) out f) = Ok (m, MkSock rest out f).
Proof.
  intros Hm. unfold getPeerHandshakeMsg. cbn [sk_in]. rewrite <- (len_hs_wire m) by done.
  rewrite ReadFull_app. cbn [mbind res_bind]. destruct Hm as (H1 & H2 & H3).
  unfold hs_wire. rewrite take_app_length' by done. cbn [mbind res_bind]. rewrite decide_True by done.
  rewrite (drop_app_length' ProtocolHeader) by done. rewrite (take_app_length' (hs_ExtensionBits m)) by done.
  rewrite (app_assoc ProtocolHeader), (drop_app_length' (ProtocolHeader ++ _) _ 28) by (by rewrite length_app, H1).
  rewrite (take_app_length' (hs_InfoHash m)) by done.
  rewrite (app_assoc _ (hs_InfoHash m)), (drop_app_length' (_ ++ hs_InfoHash m) _ 48)
    by (by rewrite !length_app, H1, H3).
  rewrite take_ge by lia. by destruct m.
Qed.

(** The two halves of a handshake agree. The client sends its message and
    the server, which does not know the torrent yet (zero info hash), answers
    it: the server learns the client's message exactly, its answer carries the
    client's info hash with its own id and bits, and the client, reading that
    answer, returns exactly it; neither consumes a byte of what follows. *)
Theorem handshake_agrees cm sm rest1 rest2 :
  hs_ok cm -> hs_ok sm -> hs_InfoHash cm <> zeroHash -> hs_InfoHash sm = zeroHash ->
  let answer := MkHandshake (hs_ExtensionBits sm) (hs_PeerID sm) (hs_InfoHash cm) in
  Handshake (MkSock (hs_wire cm ++ rest1) [] None) sm = Ok (cm, MkSock rest1 (hs_wire answer) None) /\
  Handshake (MkSock (hs_wire answer ++ rest2) [] None) cm = Ok (answer, MkSock rest2 (hs_wire cm) None).
Proof.
  intros Hc Hs Hnz Hz answer. unfold Handshake. split.
  - rewrite decide_True by done. rewrite getPeerHandshakeMsg_ok by done. cbn [mbind res_bind].
    by rewrite writeHandshakeMessage_ok.
  - rewrite decide_False by done. rewrite writeHandshakeMessage_ok. cbn [mbind res_bind].
    apply getPeerHandshakeMsg_ok. destruct Hc as (? & ? & ?), Hs as (? & ? & ?). done.
Qed.

Definition demo_client : HandshakeMsg :=
  NewHandshakeMsg (replicate 20 65) (replicate 20 66) [[0; 0; 0; 0; 0; 16; 0; 5]].
Definition demo_server : HandshakeMsg := NewHandshakeMsg (replicate 20 67) zeroHash [].

Lemma handshake_agrees_witness :
  let answer := MkHandshake (hs_ExtensionBits demo_server) (hs_PeerID demo_server) (hs_InfoHash demo_client) in
  Handshake (MkSock (hs_wire demo_client ++ [1]) [] None) demo_server =
    Ok (demo_client, MkSock [1] (hs_wire answer) None) /\
  Handshake (MkSock (hs_wire answer ++ [2]) [] None) demo_client =
    Ok (answer, MkSock [2] (hs_wire demo_client) None).
Proof. by apply (handshake_agrees demo_client demo_server [1] [2]). Defined.

(** [ExtensionBits.Set] and [Unset] never change the caller's bits: for
    every bit the array has room for, the call returns without a panic and the
    caller's array is the one it had, so a bit reported clear stays clear. *)
Theorem extension_bits_set_noop eb bit :
  length eb = 8%nat -> 0 <= bit < 64 -> ext_Set eb bit = Ok eb /\ ext_Unset eb bit = Ok eb.
Proof.
  intros Hl Hb. unfold ext_Set, ext_Unset, ext_Set_local, ext_Unset_local, ext_byte.
  assert (0 <= bit / 8 <= 7) by (split; [apply Z.div_pos; lia|apply Z.lt_succ_r, Z.div_lt_upper_bound; lia]).
  rewrite decide_True by lia. destruct (lookup_lt_is_Some_2 eb (Z.to_nat (7 - bit / 8))) as [b ->]; [lia|].
  done.
Qed.

Lemma extension_bits_set_noop_witness :
  ext_Set zeroBits ExtensionBitFast = Ok zeroBits /\ ext_Unset zeroBits ExtensionBitFast = Ok zeroBits /\
  IsSupportFast zeroBits = Ok false.
Proof.
  destruct (extension_bits_set_noop zeroBits ExtensionBitFast) as [H1 H2]; [done|split; done|].
  split; [exact H1|split; [exact H2|reflexivity]].
Defined.

(** The printed names of two message types differ. *)
Theorem message_type_names a b :
  0 <= a < 256 -> 0 <= b < 256 -> MessageType_String a = MessageType_String b -> a = b.
Proof.
  intros Ha Hb E. assert (Hn : NoDup (map MessageType_String (seqZ 0 256))) by (apply (bool_decide_unpack _); vm_compute; exact I).
  assert (Hl : forall x, 0 <= x < 256 -> map MessageType_String (seqZ 0 256) !! Z.to_nat x = Some (MessageType_String x)).
  { intros x Hx. rewrite list_lookup_fmap, lookup_seqZ_lt by lia. cbn. do 2 f_equal. lia. }
  pose proof (NoDup_lookup _ _ _ _ Hn (Hl a Ha) (eq_trans (Hl b Hb) (f_equal Some (eq_sym E)))). lia.
Qed.

End PeerMessage.
