(* ===== verification/Extension.v ===== *)
(** * Extension messages of the peer protocol

    Models [src/peerprotocol/extension.go]: [CompactIP] with its bencode
    methods, the extended handshake (BEP 10), the metadata messages (BEP 9) and
    the peer-exchange message. Each Go struct is a record here; [*_type] and
    [*_val] are what reflection shows of it to package bencode, and [*_of]
    reads the record back from a decoded struct.

    [i2pkeys.DestHashFromBytes] is outside the repository: it is a parameter,
    and what the code relies on is that it accepts 32 bytes and keeps them. *)

From S2P Require Import Prelude Strconv Bencode BencodeFacts BencodeTyped.
Import Bencode BencodeFacts BencodeTyped.

Module Extension.

Definition ExtendedIDHandshake : Z := 0.
Definition ExtendedMessageNameMetadata : bytes := bs "ut_metadata".
Definition ExtendedMessageNamePex : bytes := bs "i2p_pex".
Definition UtMetadataExtendedMsgTypeRequest : Z := 0.
Definition UtMetadataExtendedMsgTypeData : Z := 1.
Definition UtMetadataExtendedMsgTypeReject : Z := 2.
Definition errInvalidIP : string := "invalid ipv4 or ipv6".

(** An exported field with its bencode tag. *)
Definition fld (name tag : string) : finfo := FInfo (bs name) (bs tag) true true false.

Section Extension.
Context (DestHashFromBytes : bytes -> res bytes).

(** ** CompactIP *)
Definition CompactIP_MarshalBencode (ci : bytes) : res bytes :=
  if decide (len ci = 4) then EncodeBytes (VBytes (Some ci))
  else if decide (len ci = 16) then EncodeBytes (VBytes (Some ci))
  else if decide (len ci = 32) then
    i2p ← DestHashFromBytes ci; EncodeBytes (VBytes (Some i2p))
  else Err errInvalidIP.

(** [b[len(b)-n:]]. *)
Definition last_bytes (n : Z) (b : bytes) : bytes := drop (Z.to_nat (len b - n)) b.

(** [To4] of 4 bytes and [To16] of 16 are the bytes themselves; the error of
    [DestHashFromBytes] is dropped and its zero hash stored. *)
Definition CompactIP_UnmarshalBencode (b : bytes) : res bytes :=
  if decide (4 <= len b < 16) then Ok (last_bytes 4 b)
  else if decide (16 <= len b < 32) then Ok (last_bytes 16 b)
  else if decide (32 <= len b) then
    Ok (match DestHashFromBytes (last_bytes 32 b) with Ok h => h | _ => replicate 32 0 end)
  else Err errInvalidIP.

Definition CompactIP_val (ci : bytes) : goval :=
  VCustom (VBytes (if decide (ci = []) then None else Some ci)) (CompactIP_MarshalBencode ci).

Definition CompactIP_of (v : goval) : bytes :=
  match v with VCustom (VBytes (Some ci)) _ => ci | _ => [] end.

Definition CompactIP_type : gotype :=
  TCustom (CompactIP_val []) (fun _ b => ip ← CompactIP_UnmarshalBencode b; Ok (CompactIP_val ip)).

(** ** ExtendedHandshakeMsg *)
Record ExtendedHandshakeMsg := MkEHM {
  ehm_M : option (list (bytes * Z));
  ehm_V : bytes;
  ehm_Reqq : Z;
  ehm_Port : Z;
  ehm_IPv6 : option bytes;
  ehm_IPv4 : bytes;
  ehm_YourIP : bytes;
  ehm_MetadataSize : Z
}.

Definition zeroEHM : ExtendedHandshakeMsg := MkEHM None [] 0 0 None [] [] 0.

Definition ehm_type : gotype := TStruct
  [(fld "M" "m", TMap (TUint 8)); (fld "V" "v,omitempty", TString); (fld "Reqq" "reqq,omitempty", TInt 64);
   (fld "Port" "p,omitempty", TUint 16); (fld "IPv6" "ipv6,omitempty", TBytes);
   (fld "IPv4" "ipv4,omitempty", CompactIP_type); (fld "YourIP" "yourip,omitempty", CompactIP_type);
   (fld "MetadataSize" "metadata_size,omitempty", TInt 64)].

Definition ehm_val (m : ExtendedHandshakeMsg) : goval := VStruct
  [(fld "M" "m", VMap (option_map (map (fun e => (e.1, VUint e.2))) (ehm_M m)));
   (fld "V" "v,omitempty", VString (ehm_V m)); (fld "Reqq" "reqq,omitempty", VInt (ehm_Reqq m));
   (fld "Port" "p,omitempty", VUint (ehm_Port m)); (fld "IPv6" "ipv6,omitempty", VBytes (ehm_IPv6 m));
   (fld "IPv4" "ipv4,omitempty", CompactIP_val (ehm_IPv4 m));
   (fld "YourIP" "yourip,omitempty", CompactIP_val (ehm_YourIP m));
   (fld "MetadataSize" "metadata_size,omitempty", VInt (ehm_MetadataSize m))].

Definition uint_of (v : goval) : Z := match v with VUint z => z | _ => 0 end.
Definition int_of (v : goval) : Z := match v with VInt z => z | _ => 0 end.

Definition ehm_of (v : goval) : option ExtendedHandshakeMsg :=
  match v with
  | VStruct [(_, VMap m); (_, VString v); (_, VInt reqq); (_, VUint port); (_, VBytes ip6); (_, ip4);
             (_, yourip); (_, VInt msize)] =>
      Some (MkEHM (option_map (map (fun e => (e.1, uint_of e.2))) m) v reqq port ip6
              (CompactIP_of ip4) (CompactIP_of yourip) msize)
  | _ => None
  end.

(** A decoded struct has the fields of its type. *)
Definition reread {A} (read : goval -> option A) (v : goval) : res A :=
  match read v with Some m => Ok m | None => Panic "not a value of the type" end.

Definition ehm_Decode (ehm : ExtendedHandshakeMsg) (b : bytes) : res ExtendedHandshakeMsg :=
  v ← DecodeBytes b ehm_type (ehm_val ehm); reread ehm_of v.

(** [ExtendedHandshakeMsg.Encode] fills [b] only [if err != nil]. *)
Definition ehm_Encode (ehm : ExtendedHandshakeMsg) : res bytes :=
  _ ← EncodeBytes (ehm_val ehm); Ok [].

(** ** UtMetadataExtendedMsg *)
Record UtMetadataExtendedMsg := MkUtMetadata {
  um_MsgType : Z;
  um_Piece : Z;
  um_TotalSize : Z;
  um_Data : bytes
}.

Definition um_type : gotype := TStruct
  [(fld "MsgType" "msg_type", TUint 8); (fld "Piece" "piece", TInt 64);
   (fld "TotalSize" "total_size,omitempty", TInt 64); (fld "Data" "-", TBytes)].

Definition um_val (um : UtMetadataExtendedMsg) : goval := VStruct
  [(fld "MsgType" "msg_type", VUint (um_MsgType um)); (fld "Piece" "piece", VInt (um_Piece um));
   (fld "TotalSize" "total_size,omitempty", VInt (um_TotalSize um)); (fld "Data" "-", VBytes (Some (um_Data um)))].

Definition um_of (v : goval) : option UtMetadataExtendedMsg :=
  match v with
  | VStruct [(_, VUint t); (_, VInt p); (_, VInt s); (_, VBytes d)] => Some (MkUtMetadata t p s (default [] d))
  | _ => None
  end.

Definition um_EncodeToPayload (um : UtMetadataExtendedMsg) (buf : bytes) : res bytes :=
  let um' := if decide (um_MsgType um = UtMetadataExtendedMsgTypeData) then um
             else MkUtMetadata (um_MsgType um) (um_Piece um) 0 [] in
  b ← EncodeBytes (um_val um'); Ok (buf ++ b ++ um_Data um').

Definition um_EncodeToBytes (um : UtMetadataExtendedMsg) : res bytes := um_EncodeToPayload um [].

Definition um_DecodeFromPayload (um : UtMetadataExtendedMsg) (b : bytes) : res UtMetadataExtendedMsg :=
  '(v, d) ← Decode um_type (um_val um) (NewDecoder b);
  um' ← reread um_of v;
  Ok (MkUtMetadata (um_MsgType um') (um_Piece um') (um_TotalSize um') (drop (Z.to_nat (BytesParsed d)) b)).

(** ** UtPexExtendedMsg *)
Record CompactPeer := MkCompactPeer { cp_IP : bytes; cp_Port : Z }.

Record UtPexExtendedMsg := MkUtPex {
  px_Added : list CompactPeer;
  px_AddedF : bytes;
  px_Added6 : list CompactPeer;
  px_Added6F : bytes;
  px_Dropped : list CompactPeer;
  px_Dropped6 : list CompactPeer
}.

Definition cp_type : gotype := TStruct [(fld "IP" "ip", CompactIP_type); (fld "Port" "port", TUint 16)].
Definition cp_val (p : CompactPeer) : goval :=
  VStruct [(fld "IP" "ip", CompactIP_val (cp_IP p)); (fld "Port" "port", VUint (cp_Port p))].
Definition cp_of (v : goval) : CompactPeer :=
  match v with VStruct [(_, ip); (_, VUint port)] => MkCompactPeer (CompactIP_of ip) port | _ => MkCompactPeer [] 0 end.

Definition px_type : gotype := TStruct
  [(fld "Added" "added", TSlice cp_type); (fld "AddedF" "added.f", TBytes);
   (fld "Added6" "added6", TSlice cp_type); (fld "Added6F" "added6.f", TBytes);
   (fld "Dropped" "dropped", TSlice cp_type); (fld "Dropped6" "dropped6", TSlice cp_type)].

(** A nil slice and an empty one are encoded alike; both are [[]] here. *)
Definition nilable {A} (l : list A) : option (list A) := match l with [] => None | _ => Some l end.

Definition px_val (m : UtPexExtendedMsg) : goval := VStruct
  [(fld "Added" "added", VSlice (nilable (map cp_val (px_Added m)))); (fld "AddedF" "added.f", VBytes (nilable (px_AddedF m)));
   (fld "Added6" "added6", VSlice (nilable (map cp_val (px_Added6 m)))); (fld "Added6F" "added6.f", VBytes (nilable (px_Added6F m)));
   (fld "Dropped" "dropped", VSlice (nilable (map cp_val (px_Dropped m)))); (fld "Dropped6" "dropped6", VSlice (nilable (map cp_val (px_Dropped6 m))))].

Definition peers_of (o : option (list goval)) : list CompactPeer := map cp_of (default [] o).

Definition px_of (v : goval) : option UtPexExtendedMsg :=
  match v with
  | VStruct [(_, VSlice a); (_, VBytes af); (_, VSlice a6); (_, VBytes a6f); (_, VSlice d); (_, VSlice d6)] =>
      Some (MkUtPex (peers_of a) (default [] af) (peers_of a6) (default [] a6f) (peers_of d) (peers_of d6))
  | _ => None
  end.

Definition zeroPex : UtPexExtendedMsg := MkUtPex [] [] [] [] [] [].

Definition px_EncodeToPayload (m : UtPexExtendedMsg) (buf : bytes) : res bytes :=
  b ← EncodeBytes (px_val m); Ok (buf ++ b).
Definition px_EncodeToBytes (m : UtPexExtendedMsg) : res bytes := px_EncodeToPayload m [].
Definition px_DecodeFromPayload (m : UtPexExtendedMsg) (b : bytes) : res UtPexExtendedMsg :=
  v ← DecodeBytes b px_type (px_val m); reread px_of v.

(** ** The metadata message *)

Definition um_ok (um : UtMetadataExtendedMsg) : Prop :=
  0 <= um_MsgType um < 2 ^ 8 /\ - 2 ^ 63 <= um_Piece um < 2 ^ 63 /\ - 2 ^ 63 <= um_TotalSize um < 2 ^ 63.

(** The fields the type of the message has. *)
Definition um_sent (um : UtMetadataExtendedMsg) : UtMetadataExtendedMsg :=
  if decide (um_MsgType um = UtMetadataExtendedMsgTypeData) then um
  else MkUtMetadata (um_MsgType um) (um_Piece um) 0 [].

Definition um_entries (um : UtMetadataExtendedMsg) : list (bytes * bytes) :=
  (bs "msg_type", encodeNumeric (um_MsgType um)) :: (bs "piece", encodeNumeric (um_Piece um)) ::
  opt (bool_decide (um_TotalSize um = 0)) (bs "total_size", encodeNumeric (um_TotalSize um)).

Lemma um_encodes um :
  EncodeBytes (um_val um) = Ok ([100] ++ concat (map entry_bytes (um_entries um)) ++ [101]).
Proof.
  apply encode_struct_as; unfold um_entries, opt.
  - unfold um_val. struct_fields. cbn [isEmptyValue andb]. by case_bool_decide.
  - case_bool_decide; repeat constructor.
Qed.

Lemma um_decodes um d0 :
  um_ok um ->
  decodes_as (um_type, um_val (MkUtMetadata 0 0 0 d0))
    ([100] ++ concat (map entry_bytes (um_entries um)) ++ [101])
    (um_val (MkUtMetadata (um_MsgType um) (um_Piece um) (um_TotalSize um) d0)).
Proof.
  intros (H1 & H2 & H3).
  eapply (decodes_dict _ _ _ _ (DStruct um_type (um_val (MkUtMetadata _ _ _ d0)))); [done..|].
  unfold um_entries. eapply entries_field; [reflexivity|done|by apply decodes_uint|].
  eapply entries_field; [reflexivity|done|by apply decodes_int|].
  eapply entries_opt; [reflexivity|done|intros _; by apply decodes_int|reflexivity|].
  intros E%bool_decide_eq_true. by rewrite E.
Qed.

Lemma um_sent_ok um : um_ok um -> um_ok (um_sent um).
Proof. intros (H1 & H2 & H3). unfold um_sent. case_decide; repeat split; cbn; lia. Qed.

Lemma um_roundtrip_lemma um d0 :
  um_ok um ->
  (b ← um_EncodeToBytes um; um_DecodeFromPayload (MkUtMetadata 0 0 0 d0) b) = Ok (um_sent um).
Proof.
  intros Hu%um_sent_ok. unfold um_EncodeToBytes, um_EncodeToPayload. fold (um_sent um).
  rewrite um_encodes. cbn [mbind res_bind]. rewrite app_nil_l. unfold um_DecodeFromPayload.
  destruct (decodes_as_Decode _ _ _ (um_Data (um_sent um)) (um_decodes (um_sent um) d0 Hu)) as (d' & E & _ & Hn).
  cbn [fst snd] in E. rewrite E. cbn [mbind res_bind reread um_of um_val].
  unfold BytesParsed in *. rewrite Hn. unfold len. rewrite Nat2Z.id, drop_app_length.
  by destruct (um_sent um).
Qed.

(** ** CompactIP *)
Definition ip_ok (ci : bytes) : Prop := len ci = 4 \/ len ci = 16 \/ len ci = 32.

(** What the code relies on of [i2pkeys]. *)
Context (dest_hash : forall b, len b = 32 -> DestHashFromBytes b = Ok b).

Lemma CompactIP_Marshal_ok ci : ip_ok ci -> CompactIP_MarshalBencode ci = Ok (encode_string ci).
Proof.
  unfold CompactIP_MarshalBencode, ip_ok. intros H. repeat case_decide; try lia; try done.
  by rewrite dest_hash.
Qed.

Lemma last_bytes_app p ci : last_bytes (len ci) (p ++ ci) = ci.
Proof.
  unfold last_bytes. rewrite len_app. replace (len p + len ci - len ci) with (len p) by lia.
  unfold len. by rewrite Nat2Z.id, drop_app_length.
Qed.

Lemma CompactIP_Unmarshal_ok ci : ip_ok ci -> CompactIP_UnmarshalBencode (encode_string ci) = Ok ci.
Proof.
  intros H. unfold CompactIP_UnmarshalBencode.
  assert (exists p, encode_string ci = p ++ ci /\ 2 <= len p <= 3) as (p & -> & Hp).
  { unfold encode_string. exists (Strconv.FormatInt (len ci) ++ [58]). rewrite <- app_assoc. split; [done|].
    rewrite len_app. destruct H as [-> | [-> | ->]]; vm_compute; split; congruence. }
  rewrite len_app. destruct H as [E | [E | E]]; rewrite E; repeat (case_decide; try lia).
  - by rewrite <- E, last_bytes_app.
  - by rewrite <- E, last_bytes_app.
  - rewrite <- E at 1. by rewrite last_bytes_app, dest_hash.
Qed.

Lemma ip_bytes_ok ci : ip_ok ci -> bval_ok (BStr ci).
Proof. unfold ip_ok. cbn. lia. Qed.

Lemma decodes_CompactIP v0 ci :
  ip_ok ci -> decodes_as (CompactIP_type, v0) (encode_string ci) (CompactIP_val ci).
Proof.
  intros H. apply (decodes_custom _ _ v0 (BStr ci)); [by apply ip_bytes_ok|].
  cbn [bencode]. by rewrite CompactIP_Unmarshal_ok.
Qed.

Lemma CompactIP_of_val ci : CompactIP_of (CompactIP_val ci) = ci.
Proof. unfold CompactIP_val. by case_decide; subst. Qed.

(** ** The peer-exchange message *)
Definition cp_ok (p : CompactPeer) : Prop := ip_ok (cp_IP p) /\ 0 <= cp_Port p < 2 ^ 16.
Definition cp_bytes (p : CompactPeer) : bytes :=
  [100] ++ concat (map entry_bytes [(bs "ip", encode_string (cp_IP p)); (bs "port", encodeNumeric (cp_Port p))]) ++ [101].

Lemma cp_encodes p : cp_ok p -> encodeValue (cp_val p) = Ok (cp_bytes p).
Proof.
  intros [Hi _]. apply encode_struct_as; [|by repeat constructor].
  unfold cp_val. struct_fields. cbn [andb opt app all_ok map fst snd].
  unfold CompactIP_val, encodeValue. cbn [encode_with fst]. by rewrite CompactIP_Marshal_ok.
Qed.

Lemma cp_decodes p : cp_ok p -> decodes_as (cp_type, zero_of cp_type) (cp_bytes p) (cp_val p).
Proof.
  intros [Hi Hp]. eapply (decodes_dict _ _ _ _ (DStruct cp_type (cp_val p))); [done..|].
  eapply entries_field; [reflexivity|done|by apply decodes_CompactIP|].
  eapply entries_field; [reflexivity|done|by apply decodes_uint|]. constructor.
Qed.

Lemma cp_of_val p : cp_of (cp_val p) = p.
Proof. destruct p. unfold cp_of, cp_val. by rewrite CompactIP_of_val. Qed.

Definition peers_bytes (l : list CompactPeer) : bytes := [108] ++ concat (map cp_bytes l) ++ [101].

Lemma peers_encode l : Forall cp_ok l -> encodeValue (VSlice (nilable (map cp_val l))) = Ok (peers_bytes l).
Proof.
  intros H. destruct l as [|p l]; [done|]. cbn [nilable map]. rewrite encodeValue_slice.
  change (cp_val p :: map cp_val l) with (map cp_val (p :: l)). rewrite map_map.
  rewrite (map_ext_Forall _ (fun q => Ok (cp_bytes q))) by (eapply Forall_impl; [exact H|]; apply cp_encodes).
  rewrite <- (map_map cp_bytes (fun b => Ok b)), encode_seq_ok. done.
Qed.

Lemma peers_decode l :
  Forall cp_ok l ->
  decodes_as (TSlice cp_type, VSlice None) (peers_bytes l) (VSlice (nilable (map cp_val l))).
Proof.
  intros H. replace (nilable (map cp_val l))
    with (if decide (map cp_val l = []) then None else Some (map cp_val l)) by (by destruct l).
  apply decodes_slice. induction H; constructor; [by apply cp_decodes|done].
Qed.

Lemma peers_of_val l : peers_of (nilable (map cp_val l)) = l.
Proof.
  unfold peers_of. replace (default [] (nilable (map cp_val l))) with (map cp_val l) by (by destruct l).
  rewrite map_map. rewrite (map_ext _ id) by apply cp_of_val. apply map_id.
Qed.

Definition px_ok (m : UtPexExtendedMsg) : Prop :=
  Forall cp_ok (px_Added m) /\ Forall cp_ok (px_Added6 m) /\ Forall cp_ok (px_Dropped m) /\
  Forall cp_ok (px_Dropped6 m) /\ len (px_AddedF m) < 2 ^ 31 /\ len (px_Added6F m) < 2 ^ 31.

Definition px_entries (m : UtPexExtendedMsg) : list (bytes * bytes) :=
  [(bs "added", peers_bytes (px_Added m)); (bs "added.f", encode_string (px_AddedF m));
   (bs "added6", peers_bytes (px_Added6 m)); (bs "added6.f", encode_string (px_Added6F m));
   (bs "dropped", peers_bytes (px_Dropped m)); (bs "dropped6", peers_bytes (px_Dropped6 m))].

Lemma flags_encode b : encodeValue (VBytes (nilable b)) = Ok (encode_string b).
Proof. by destruct b. Qed.

Lemma px_encodes m : px_ok m ->
  EncodeBytes (px_val m) = Ok ([100] ++ concat (map entry_bytes (px_entries m)) ++ [101]).
Proof.
  intros (H1 & H2 & H3 & H4 & _). apply encode_struct_as; [|by repeat constructor].
  unfold px_val. struct_fields. cbn [andb opt app].
  by rewrite !peers_encode, !flags_encode.
Qed.

(** An empty flag string is read as an empty, not a nil, slice. *)
Definition px_read (m : UtPexExtendedMsg) : goval := VStruct
  [(fld "Added" "added", VSlice (nilable (map cp_val (px_Added m)))); (fld "AddedF" "added.f", VBytes (Some (px_AddedF m)));
   (fld "Added6" "added6", VSlice (nilable (map cp_val (px_Added6 m)))); (fld "Added6F" "added6.f", VBytes (Some (px_Added6F m)));
   (fld "Dropped" "dropped", VSlice (nilable (map cp_val (px_Dropped m)))); (fld "Dropped6" "dropped6", VSlice (nilable (map cp_val (px_Dropped6 m))))].

Lemma px_decodes m : px_ok m ->
  decodes_as (px_type, px_val zeroPex) ([100] ++ concat (map entry_bytes (px_entries m)) ++ [101]) (px_read m).
Proof.
  intros (H1 & H2 & H3 & H4 & H5 & H6).
  eapply (decodes_dict _ _ _ _ (DStruct px_type (px_read m))); [done..|]. unfold px_entries.
  eapply entries_field; [reflexivity|done|by apply peers_decode|].
  eapply entries_field; [reflexivity|done|by apply decodes_bytes|].
  eapply entries_field; [reflexivity|done|by apply peers_decode|].
  eapply entries_field; [reflexivity|done|by apply decodes_bytes|].
  eapply entries_field; [reflexivity|done|by apply peers_decode|].
  eapply entries_field; [reflexivity|done|by apply peers_decode|]. constructor.
Qed.

Lemma px_of_read m : px_of (px_read m) = Some m.
Proof. unfold px_of, px_read. rewrite !peers_of_val. by destruct m. Qed.

Lemma px_roundtrip_lemma m :
  px_ok m -> (b ← px_EncodeToBytes m; px_DecodeFromPayload zeroPex b) = Ok m.
Proof.
  intros H. unfold px_EncodeToBytes, px_EncodeToPayload, px_DecodeFromPayload.
  rewrite px_encodes, !bind_Ok, app_nil_l by done.
  rewrite (decodes_as_DecodeBytes _ _ _ _ (px_decodes m H)), bind_Ok. unfold reread. by rewrite px_of_read.
Qed.

(** ** The extended handshake *)
Definition ehm_ok (m : ExtendedHandshakeMsg) : Prop :=
  match ehm_M m with
  | Some l => keys_sorted l /\ Forall (fun e => len e.1 < 2 ^ 31 /\ 0 <= e.2 < 2 ^ 8) l
  | None => False
  end /\
  len (ehm_V m) < 2 ^ 31 /\ - 2 ^ 63 <= ehm_Reqq m < 2 ^ 63 /\ 0 <= ehm_Port m < 2 ^ 16 /\
  match ehm_IPv6 m with Some b => 0 < len b < 2 ^ 31 | None => True end /\
  (ehm_IPv4 m = [] \/ ip_ok (ehm_IPv4 m)) /\ (ehm_YourIP m = [] \/ ip_ok (ehm_YourIP m)) /\
  - 2 ^ 63 <= ehm_MetadataSize m < 2 ^ 63.

Definition ids_entries (l : list (bytes * Z)) : list (bytes * bytes) := map (fun e => (e.1, encodeNumeric e.2)) l.
Definition ids_bytes (l : list (bytes * Z)) : bytes := [100] ++ concat (map entry_bytes (ids_entries l)) ++ [101].
Definition ids_val (l : list (bytes * Z)) : list (bytes * goval) := map (fun e => (e.1, VUint e.2)) l.

Lemma ids_encode l : keys_sorted l -> encodeValue (VMap (Some (ids_val l))) = Ok (ids_bytes l).
Proof.
  intros Hs. rewrite encodeValue_map. unfold ids_val.
  assert (filter (fun e => isNilValue e.2 = false) (map (fun e => (e.1, VUint e.2)) l) =
    map (fun e => (e.1, VUint e.2)) l) as ->.
  { clear. induction l as [|e l IH]; [done|]. rewrite map_cons, filter_cons. cbn [snd].
    rewrite decide_True by done. by rewrite IH. }
  rewrite map_map. change (map _ l) with (map (fun e => (e.1, Ok (A := bytes) (encodeNumeric e.2))) l).
  rewrite sort_keys_sorted by (by apply keys_sorted_map).
  replace (map _ l) with (map (fun e => (e.1, Ok e.2)) (ids_entries l)) by (unfold ids_entries; by rewrite map_map).
  rewrite encode_entries_ok. done.
Qed.

Lemma ids_decode_from acc l :
  Forall (fun e => len e.1 < 2 ^ 31 /\ 0 <= e.2 < 2 ^ 8) l -> keys_sorted (acc ++ l) ->
  entries_as (DMap (TUint 8) (ids_val acc)) (ids_entries l) (DMap (TUint 8) (ids_val (acc ++ l))).
Proof.
  intros H. revert acc. induction H as [|[k z] l [Hk Hz] _ IH]; intros acc Hs.
  { rewrite app_nil_r. constructor. }
  cbn [ids_entries map fst snd] in *. eapply entries_field; [reflexivity|done|by apply decodes_uint|].
  cbn [store_value]. rewrite map_put_last.
  - replace (ids_val acc ++ [(k, VUint z)]) with (ids_val (acc ++ [(k, z)])) by (unfold ids_val; by rewrite map_app).
    change ((k, z) :: l) with ([(k, z)] ++ l) in *. rewrite (app_assoc acc) in Hs |- *. by apply IH.
  - unfold keys_sorted in Hs. rewrite fmap_app in Hs. apply StronglySorted_app in Hs as (Hs & _).
    unfold ids_val. apply Forall_fmap. apply Forall_forall. intros e He. cbn [compose fst].
    apply Hs; [by apply (list_elem_of_fmap_2 fst)|left].
Qed.

Lemma ids_decode v0 l :
  (v0 = None \/ v0 = Some []) ->
  Forall (fun e => len e.1 < 2 ^ 31 /\ 0 <= e.2 < 2 ^ 8) l -> keys_sorted l ->
  decodes_as (TMap (TUint 8), VMap v0) (ids_bytes l) (VMap (Some (ids_val l))).
Proof.
  intros Hv H Hs. eapply (decodes_dict _ _ _ (DMap (TUint 8) []) (DMap (TUint 8) (ids_val l))); [done..| |].
  - by destruct Hv as [-> | ->].
  - by apply (ids_decode_from [] l).
Qed.

Definition ehm_entries (m : ExtendedHandshakeMsg) (ids : list (bytes * Z)) : list (bytes * bytes) :=
  opt (bool_decide (len (ehm_IPv4 m) = 0)) (bs "ipv4", encode_string (ehm_IPv4 m)) ++
  opt (isEmptyValue (VBytes (ehm_IPv6 m))) (bs "ipv6", encode_string (default [] (ehm_IPv6 m))) ++
  [(bs "m", ids_bytes ids)] ++
  opt (bool_decide (ehm_MetadataSize m = 0)) (bs "metadata_size", encodeNumeric (ehm_MetadataSize m)) ++
  opt (bool_decide (ehm_Port m = 0)) (bs "p", encodeNumeric (ehm_Port m)) ++
  opt (bool_decide (ehm_Reqq m = 0)) (bs "reqq", encodeNumeric (ehm_Reqq m)) ++
  opt (bool_decide (len (ehm_V m) = 0)) (bs "v", encode_string (ehm_V m)) ++
  opt (bool_decide (len (ehm_YourIP m) = 0)) (bs "yourip", encode_string (ehm_YourIP m)).

Lemma ehm_entries_sorted m ids : keys_sorted (ehm_entries m ids).
Proof.
  eapply (keys_sorted_sublist _ ([(bs "ipv4", _)] ++ [(bs "ipv6", _)] ++ [(bs "m", _)] ++ [(bs "metadata_size", _)] ++
    [(bs "p", _)] ++ [(bs "reqq", _)] ++ [(bs "v", _)] ++ [(bs "yourip", _)])).
  - unfold ehm_entries. repeat apply sublist_app; try apply opt_sublist. done.
  - repeat constructor.
Qed.

Lemma isEmpty_ip ci : isEmptyValue (CompactIP_val ci) = bool_decide (len ci = 0).
Proof. unfold CompactIP_val. cbn. case_decide; [by subst|]. done. Qed.

Lemma opt_map {A B} (f : A -> B) o x : map f (opt o x) = opt o (f x).
Proof. by destruct o. Qed.

Lemma opt_ip ci k :
  ci = [] \/ ip_ok ci ->
  opt (bool_decide (len ci = 0)) (k, encodeValue (CompactIP_val ci)) =
  opt (bool_decide (len ci = 0)) (k : bytes, Ok (encode_string ci)).
Proof.
  intros [-> | H]; [done|]. unfold CompactIP_val, encodeValue. cbn [encode_with fst].
  by rewrite CompactIP_Marshal_ok.
Qed.

Lemma ehm_encodes m ids :
  ehm_ok m -> ehm_M m = Some ids ->
  EncodeBytes (ehm_val m) = Ok ([100] ++ concat (map entry_bytes (ehm_entries m ids)) ++ [101]).
Proof.
  intros (HM & _ & _ & _ & H6 & H4 & HY & _) EM. rewrite EM in HM. destruct HM as [Hs _].
  apply encode_struct_as; [|apply ehm_entries_sorted].
  unfold ehm_val. struct_fields. rewrite EM. cbn [option_map andb].
  fold (ids_val ids). rewrite ids_encode, !isEmpty_ip, !opt_ip by done.
  unfold all_ok, ehm_entries. rewrite !map_app, !opt_map. cbn [andb isEmptyValue opt map fst snd].
  change (encodeValue (VBytes (ehm_IPv6 m))) with (Ok (encode_string (default [] (ehm_IPv6 m)))).
  solve_Permutation.
Qed.

Lemma decodes_opt_ip v0 ci :
  ci = [] \/ ip_ok ci -> bool_decide (len ci = 0) = false ->
  decodes_as (CompactIP_type, v0) (encode_string ci) (CompactIP_val ci).
Proof. intros [-> | H] Ho; [done|]. by apply decodes_CompactIP. Qed.

Lemma len_zero_nil (l : bytes) : bool_decide (len l = 0) = true -> l = [].
Proof. intros E%bool_decide_eq_true. by apply len_zero. Qed.

Lemma ehm_decodes m ids :
  ehm_ok m -> ehm_M m = Some ids ->
  decodes_as (ehm_type, ehm_val zeroEHM)
    ([100] ++ concat (map entry_bytes (ehm_entries m ids)) ++ [101]) (ehm_val m).
Proof.
  intros (HM & HV & Hr & Hp & H6 & H4 & HY & Hms) EM. rewrite EM in HM. destruct HM as [Hs HM].
  destruct m as [M V reqq port ip6 ip4 yip msize]. cbn in EM, HV, Hr, Hp, H6, H4, HY, Hms. subst M.
  eapply (decodes_dict _ _ _ _ (DStruct ehm_type (ehm_val _))); [done..|]. unfold ehm_entries.
  cbn [ehm_M ehm_V ehm_Reqq ehm_Port ehm_IPv6 ehm_IPv4 ehm_YourIP ehm_MetadataSize].
  eapply (entries_app _ _ (DStruct ehm_type (ehm_val (MkEHM None [] 0 0 None ip4 [] 0)))).
  { eapply entries_opt; [reflexivity|done|by apply decodes_opt_ip|reflexivity|].
    intros ->%len_zero_nil. reflexivity. }
  eapply (entries_app _ _ (DStruct ehm_type (ehm_val (MkEHM None [] 0 0 ip6 ip4 [] 0)))).
  { destruct ip6 as [b|]; [|constructor]. change (0 < len b < 2 ^ 31) in H6.
    change (isEmptyValue (VBytes (Some b))) with (bool_decide (len b = 0)). change (default [] (Some b)) with b.
    eapply entries_opt; [reflexivity|done|intros _; apply decodes_bytes; lia|reflexivity|].
    intros E%bool_decide_eq_true. lia. }
  eapply (entries_app _ _ (DStruct ehm_type (ehm_val (MkEHM (Some ids) [] 0 0 ip6 ip4 [] 0)))).
  { eapply entries_field; [reflexivity|done|by apply ids_decode; [left|..]|]. constructor. }
  eapply (entries_app _ _ (DStruct ehm_type (ehm_val (MkEHM (Some ids) [] 0 0 ip6 ip4 [] msize)))).
  { eapply entries_opt; [reflexivity|done|intros _; by apply decodes_int|reflexivity|].
    intros ->%bool_decide_eq_true. reflexivity. }
  eapply (entries_app _ _ (DStruct ehm_type (ehm_val (MkEHM (Some ids) [] 0 port ip6 ip4 [] msize)))).
  { eapply entries_opt; [reflexivity|done|intros _; by apply decodes_uint|reflexivity|].
    intros ->%bool_decide_eq_true. reflexivity. }
  eapply (entries_app _ _ (DStruct ehm_type (ehm_val (MkEHM (Some ids) [] reqq port ip6 ip4 [] msize)))).
  { eapply entries_opt; [reflexivity|done|intros _; by apply decodes_int|reflexivity|].
    intros ->%bool_decide_eq_true. reflexivity. }
  eapply (entries_app _ _ (DStruct ehm_type (ehm_val (MkEHM (Some ids) V reqq port ip6 ip4 [] msize)))).
  { eapply entries_opt; [reflexivity|done|intros _; by apply decodes_string|reflexivity|].
    intros ->%len_zero_nil. reflexivity. }
  eapply entries_opt; [reflexivity|done|by apply decodes_opt_ip|reflexivity|].
  intros ->%len_zero_nil. reflexivity.
Qed.

Lemma ehm_of_val m : ehm_of (ehm_val m) = Some m.
Proof.
  destruct m as [M ? ? ? ? ? ? ?]. unfold ehm_of, ehm_val. cbn [ehm_M ehm_V ehm_Reqq ehm_Port ehm_IPv6 ehm_IPv4 ehm_YourIP ehm_MetadataSize].
  rewrite !CompactIP_of_val. do 2 f_equal. destruct M as [l|]; [|done]. cbn [option_map]. f_equal.
  rewrite map_map. rewrite (map_ext _ id) by (by intros []). apply map_id.
Qed.

Lemma ehm_roundtrip_lemma m :
  ehm_ok m -> (b ← EncodeBytes (ehm_val m); ehm_Decode zeroEHM b) = Ok m.
Proof.
  intros H. pose proof H as (HM & _). destruct (ehm_M m) as [ids|] eqn:EM; [|done].
  rewrite (ehm_encodes m ids), bind_Ok by done. unfold ehm_Decode.
  rewrite (decodes_as_DecodeBytes _ _ _ _ (ehm_decodes m ids H EM)), bind_Ok. unfold reread. by rewrite ehm_of_val.
Qed.
End Extension.

(** ** The properties *)

(** A metadata message (BEP 9) read back from its payload is the one that
    was sent: type, piece and, for data messages only, total size and the
    metadata bytes that follow the dictionary; for the other types the size and
    the data are not sent. *)
Theorem metadata_roundtrip um d0 :
  um_ok um ->
  (b ← um_EncodeToBytes um; um_DecodeFromPayload (MkUtMetadata 0 0 0 d0) b) = Ok (um_sent um).
Proof. apply um_roundtrip_lemma. Qed.

Lemma metadata_roundtrip_witness :
  (b ← um_EncodeToBytes (MkUtMetadata 1 2 34256 (bs "xxi1e")); um_DecodeFromPayload (MkUtMetadata 0 0 0 []) b)
  = Ok (MkUtMetadata 1 2 34256 (bs "xxi1e")).
Proof. apply (metadata_roundtrip (MkUtMetadata 1 2 34256 (bs "xxi1e")) []). repeat split; cbn; lia. Defined.

(** A peer-exchange message whose peers have IPv4, IPv6 or I2P addresses
    is read back exactly as it was sent: the same peers in the same lists and
    order, with their ports and flags. *)
Theorem pex_roundtrip DestHashFromBytes m :
  (forall b, len b = 32 -> DestHashFromBytes b = Ok b) -> px_ok m ->
  (b ← px_EncodeToBytes DestHashFromBytes m; px_DecodeFromPayload DestHashFromBytes zeroPex b) = Ok m.
Proof. intros. by apply px_roundtrip_lemma. Qed.

Definition demo_DestHash (b : bytes) : res bytes := if decide (len b = 32) then Ok b else Err "invalid length".
Definition demo_pex : UtPexExtendedMsg :=
  MkUtPex [MkCompactPeer [10; 0; 0; 1] 6881; MkCompactPeer (replicate 32 7) 80] [0; 2]
    [MkCompactPeer (replicate 16 9) 65535] [1] [] [].

Lemma pex_roundtrip_witness :
  (b ← px_EncodeToBytes demo_DestHash demo_pex; px_DecodeFromPayload demo_DestHash zeroPex b) = Ok demo_pex.
Proof.
  apply (pex_roundtrip demo_DestHash demo_pex).
  - intros b Hb. unfold demo_DestHash. by rewrite decide_True.
  - unfold px_ok, cp_ok, ip_ok. cbn. repeat split; repeat constructor; cbn; try lia; vm_compute; auto; intuition congruence.
Defined.

(** The extended handshake (BEP 10) as [SendExtHandshakeMsg] encodes it is
    read back exactly by the peer, every optional field included; but
    [ExtendedHandshakeMsg.Encode] returns no bytes for the same message, which
    the peer refuses. *)
Theorem ext_handshake_roundtrip DestHashFromBytes m :
  (forall b, len b = 32 -> DestHashFromBytes b = Ok b) -> ehm_ok m ->
  (b ← EncodeBytes (ehm_val DestHashFromBytes m); ehm_Decode DestHashFromBytes zeroEHM b) = Ok m /\
  (b ← ehm_Encode DestHashFromBytes m; ehm_Decode DestHashFromBytes zeroEHM b) = Err EOF.
Proof.
  intros Hd Hm. split; [by apply ehm_roundtrip_lemma|].
  destruct (ehm_M m) as [ids|] eqn:EM; [|destruct Hm as [HM _]; by rewrite EM in HM].
  unfold ehm_Encode. by rewrite (ehm_encodes _ Hd m ids Hm EM).
Qed.

Definition demo_ehm : ExtendedHandshakeMsg :=
  MkEHM (Some [(bs "i2p_pex", 2); (bs "ut_metadata", 3)]) (bs "go-i2p-bt") 250 0 None [127; 0; 0; 1] [] 31235.

Lemma ext_handshake_roundtrip_witness :
  (b ← EncodeBytes (ehm_val demo_DestHash demo_ehm); ehm_Decode demo_DestHash zeroEHM b) = Ok demo_ehm /\
  (b ← ehm_Encode demo_DestHash demo_ehm; ehm_Decode demo_DestHash zeroEHM b) = Err EOF.
Proof.
  apply (ext_handshake_roundtrip demo_DestHash demo_ehm).
  - intros b Hb. unfold demo_DestHash. by rewrite decide_True.
  - unfold ehm_ok, ip_ok. cbn. split_and!; try lia; auto; repeat constructor; cbn; lia.
Defined.

End Extension.
