(* ===== verification/PeerConn.v ===== *)
(** * The peer connection and the peer server

    Models [PeerConn] ([src/peerprotocol/peerconn.go]) and the connection loop
    of [Server] ([src/peerprotocol/server.go]).

    A handler is a record of callbacks. The optional interfaces
    [Bep3Handler], [Bep5Handler], [Bep6Handler] and [Bep10Handler], which the
    code finds by type assertion, are optional fields. A callback may change
    the connection and the handler's own state of type [H], and may fail; what
    it changed before failing stays changed. [OnWriteMsg] is a parameter of the
    operations that send. Deadlines are not modelled, and after a failed read
    or write the contents of the socket are not tracked further. *)

From S2P Require Import Prelude Strconv Bencode BencodeFacts BencodeTyped Pieces PeerMessage Extension.
Import Pieces PeerMessage Extension.

Module PeerConn.

Definition ErrNotFirstMsg : string := "not the first message".
Definition ErrNotSupportDHT : string := "not support DHT extension".
Definition ErrNotSupportFast : string := "not support Fast extension".
Definition ErrNotSupportExtended : string := "not support Extended extension".
Definition ErrSecondExtHandshake : string := "second extended handshake".
Definition ErrNoExtHandshake : string := "no extended handshake".

(** [pc_ids] groups what the handshake settles, [pc_local] the state the local
    peer controls, [pc_remote] what the remote peer's messages control, and
    [pc_priv] the two unexported flags. *)
Record Ids := MkIds { InfoHash : bytes; ID : bytes; ExtBits : bytes; PeerID : bytes; PeerExtBits : bytes }.
Record Local := MkLocal { Choked : bool; Interested : bool }.
Record Remote := MkRemote {
  PeerChoked : bool;
  PeerInterested : bool;
  Fasts : Pieces;
  Suggests : Pieces;
  pc_BitField : bytes;
  pc_ExtendedHandshakeMsg : ExtendedHandshakeMsg
}.
Record Private := MkPrivate { notFirstMsg : bool; extHandshake : bool }.

Record PeerConn := MkPeerConn {
  pc_conn : Sock;
  pc_closed : bool;
  pc_MaxLength : Z;
  pc_ids : Ids;
  pc_local : Local;
  pc_remote : Remote;
  pc_priv : Private
}.

Definition set_conn (s : Sock) (pc : PeerConn) : PeerConn :=
  MkPeerConn s (pc_closed pc) (pc_MaxLength pc) (pc_ids pc) (pc_local pc) (pc_remote pc) (pc_priv pc).
Definition set_ids (i : Ids) (pc : PeerConn) : PeerConn :=
  MkPeerConn (pc_conn pc) (pc_closed pc) (pc_MaxLength pc) i (pc_local pc) (pc_remote pc) (pc_priv pc).
Definition set_local (l : Local) (pc : PeerConn) : PeerConn :=
  MkPeerConn (pc_conn pc) (pc_closed pc) (pc_MaxLength pc) (pc_ids pc) l (pc_remote pc) (pc_priv pc).
Definition set_remote (r : Remote) (pc : PeerConn) : PeerConn :=
  MkPeerConn (pc_conn pc) (pc_closed pc) (pc_MaxLength pc) (pc_ids pc) (pc_local pc) r (pc_priv pc).
Definition set_priv (p : Private) (pc : PeerConn) : PeerConn :=
  MkPeerConn (pc_conn pc) (pc_closed pc) (pc_MaxLength pc) (pc_ids pc) (pc_local pc) (pc_remote pc) p.
Definition Close (pc : PeerConn) : PeerConn :=
  MkPeerConn (pc_conn pc) true (pc_MaxLength pc) (pc_ids pc) (pc_local pc) (pc_remote pc) (pc_priv pc).

Definition freshRemote : Remote := MkRemote true false [] [] [] zeroEHM.

Definition NewPeerConn (conn : Sock) (id infohash : bytes) : PeerConn :=
  MkPeerConn conn false (256 * 1024) (MkIds infohash id zeroBits zeroHash zeroBits)
    (MkLocal true false) freshRemote (MkPrivate false false).

Section PeerConn.
Context (DestHashFromBytes : bytes -> res bytes) {H : Type}.

(** A callback, or an operation of the connection: the new states and the
    error returned. *)
Abbreviation outcome := (PeerConn * H * option string)%type.
Abbreviation act := (PeerConn -> H -> outcome).

Context (OnWriteMsg : option (Message -> act)).

(** ** Sending *)

(** The result of an I/O call on the socket. *)
Definition with_conn (r : res Sock) : act := fun pc h =>
  match r with
  | Ok s => (set_conn s pc, h, None)
  | Err e | Panic e => (pc, h, Some e)
  | NoFuel => (pc, h, Some ErrUnexpectedEOF)
  end.

Definition WriteMsg (m : Message) : act := fun pc h =>
  match OnWriteMsg with
  | Some f => f m pc h
  | None => with_conn (sock_write (Encode m) (pc_conn pc)) pc h
  end.

Definition mtype (t : Z) : Message := set_Type zeroMessage t.

Definition SendKeepalive : act := WriteMsg (set_Keepalive zeroMessage true).
Definition SendChoke : act := WriteMsg (mtype MTypeChoke).
Definition SendUnchoke : act := WriteMsg (mtype MTypeUnchoke).
Definition SendInterested : act := WriteMsg (mtype MTypeInterested).
Definition SendNotInterested : act := WriteMsg (mtype MTypeNotInterested).
Definition SendBitfield (bits : bytes) : act := WriteMsg (set_BitField (mtype MTypeBitField) bits).
Definition SendHave (index : Z) : act := WriteMsg (set_Index (mtype MTypeHave) index).
Definition request_like (t index begin length : Z) : Message :=
  set_Length (set_Begin (set_Index (mtype t) index) begin) length.
Definition SendRequest (index begin length : Z) : act := WriteMsg (request_like MTypeRequest index begin length).
Definition SendCancel (index begin length : Z) : act := WriteMsg (request_like MTypeCancel index begin length).
Definition SendPiece (index begin : Z) (piece : bytes) : act :=
  WriteMsg (set_Piece (set_Begin (set_Index (mtype MTypePiece) index) begin) piece).
Definition SendPort (port : Z) : act := WriteMsg (set_Port (mtype MTypePort) port).
Definition SendHaveAll : act := WriteMsg (mtype MTypeHaveAll).
Definition SendHaveNone : act := WriteMsg (mtype MTypeHaveNone).
Definition SendSuggest (index : Z) : act := WriteMsg (set_Index (mtype MTypeSuggest) index).
Definition SendReject (index begin length : Z) : act := WriteMsg (request_like MTypeReject index begin length).
Definition SendAllowedFast (index : Z) : act := WriteMsg (set_Index (mtype MTypeAllowedFast) index).
Definition SendExtMsg (extID : Z) (payload : bytes) : act :=
  WriteMsg (set_Extended (mtype MTypeExtended) extID payload).
Definition SendExtHandshakeMsg (m : ExtendedHandshakeMsg) : act := fun pc h =>
  match Bencode.EncodeBytes (ehm_val DestHashFromBytes m) with
  | Ok b => SendExtMsg ExtendedIDHandshake b pc h
  | Err e | Panic e => (pc, h, Some e)
  | NoFuel => (pc, h, Some ErrUnexpectedEOF)
  end.

(** [if err = send(); err == nil { ... }]. *)
Definition on_success (send : act) (f : PeerConn -> PeerConn) : act := fun pc h =>
  match send pc h with (pc1, h1, None) => (f pc1, h1, None) | o => o end.

Definition SetChoked : act := fun pc h =>
  if negb (Choked (pc_local pc)) then
    on_success SendChoke (fun pc => set_local (MkLocal true (Interested (pc_local pc))) pc) pc h
  else (pc, h, None).
Definition SetUnchoked : act := fun pc h =>
  if Choked (pc_local pc) then
    on_success SendUnchoke (fun pc => set_local (MkLocal false (Interested (pc_local pc))) pc) pc h
  else (pc, h, None).
Definition SetInterested : act := fun pc h =>
  if negb (Interested (pc_local pc)) then
    on_success SendInterested (fun pc => set_local (MkLocal (Choked (pc_local pc)) true) pc) pc h
  else (pc, h, None).
Definition SetNotInterested : act := fun pc h =>
  if Interested (pc_local pc) then
    on_success SendNotInterested (fun pc => set_local (MkLocal (Choked (pc_local pc)) false) pc) pc h
  else (pc, h, None).

(** ** The handshake and reading *)
Definition pc_Handshake : act := fun pc h =>
  let i := pc_ids pc in
  match Handshake (pc_conn pc) (MkHandshake (ExtBits i) (ID i) (InfoHash i)) with
  | Ok (rhm, s) =>
      let i' ih := MkIds ih (ID i) (ExtBits i) (hs_PeerID rhm) (hs_ExtensionBits rhm) in
      if decide (InfoHash i = zeroHash) then (set_ids (i' (hs_InfoHash rhm)) (set_conn s pc), h, None)
      else if decide (InfoHash i = hs_InfoHash rhm) then (set_ids (i' (InfoHash i)) (set_conn s pc), h, None)
      else (set_ids (i' (InfoHash i)) (set_conn s pc), h, Some "inconsistent infohash"%string)
  | Err e | Panic e => (pc, h, Some e)
  | NoFuel => (pc, h, Some ErrUnexpectedEOF)
  end.

Definition ReadMsg (pc : PeerConn) : res (Message * PeerConn) :=
  let s := pc_conn pc in
  '(m, rest) ← Decode zeroMessage (sk_in s) (pc_MaxLength pc);
  Ok (m, set_conn (MkSock rest (sk_out s) (sk_fail s)) pc).

(** ** Handlers *)
Record Bep3Handler := MkBep3 {
  h_Choke : act; h_Unchoke : act; h_Interested : act; h_NotInterested : act;
  h_Have : Z -> act;
  h_BitField : bytes -> act;
  h_Request : Z -> Z -> Z -> act;
  h_Piece : Z -> Z -> bytes -> act;
  h_Cancel : Z -> Z -> Z -> act
}.
Record Bep5Handler := MkBep5 { h_Port : Z -> act }.
Record Bep6Handler := MkBep6 {
  h_HaveAll : act; h_HaveNone : act;
  h_Suggest : Z -> act; h_AllowedFast : Z -> act;
  h_Reject : Z -> Z -> Z -> act
}.
Record Bep10Handler := MkBep10 { h_OnExtHandShake : act; h_OnPayload : Z -> bytes -> act }.
Record Handler := MkHandler {
  OnHandShake : act;
  OnMessage : Message -> act;
  OnClose : PeerConn -> H -> PeerConn * H;
  as_bep3 : option Bep3Handler;
  as_bep5 : option Bep5Handler;
  as_bep6 : option Bep6Handler;
  as_bep10 : option Bep10Handler
}.

(** The answer of an extension test; [ExtBits] is an array of 8 bytes and the
    bits asked for are below 64, so there is no panic. *)
Definition supports (t : bytes -> res bool) (pc : PeerConn) : bool :=
  match t (ExtBits (pc_ids pc)) with Ok b => b | _ => false end.

Definition isBep3MessageType (t : Z) : bool := bool_decide (t ∈
  [MTypeChoke; MTypeUnchoke; MTypeInterested; MTypeNotInterested; MTypeHave; MTypeBitField; MTypeRequest;
   MTypePiece; MTypeCancel]).
Definition isBep6MessageType (t : Z) : bool := bool_decide (t ∈
  [MTypeSuggest; MTypeHaveAll; MTypeHaveNone; MTypeReject; MTypeAllowedFast]).

Section Handle.
Context (handler : Handler).

Definition fail (e : string) : act := fun pc h => (pc, h, Some e).
Definition upd (f : Remote -> Remote) (k : act) : act := fun pc h => k (set_remote (f (pc_remote pc)) pc) h.

Definition invokeBep3Handler (f : Bep3Handler -> act) (msg : Message) : act :=
  match as_bep3 handler with Some h => f h | None => OnMessage handler msg end.
Definition invokeBep6Handler (f : Bep6Handler -> act) (msg : Message) : act :=
  match as_bep6 handler with Some h => f h | None => OnMessage handler msg end.

Definition set_PeerChoked (b : bool) (r : Remote) : Remote :=
  MkRemote b (PeerInterested r) (Fasts r) (Suggests r) (pc_BitField r) (pc_ExtendedHandshakeMsg r).
Definition set_PeerInterested (b : bool) (r : Remote) : Remote :=
  MkRemote (PeerChoked r) b (Fasts r) (Suggests r) (pc_BitField r) (pc_ExtendedHandshakeMsg r).
Definition set_PeerBitField (bits : bytes) (r : Remote) : Remote :=
  MkRemote (PeerChoked r) (PeerInterested r) (Fasts r) (Suggests r) bits (pc_ExtendedHandshakeMsg r).
Definition add_Suggest (i : Z) (r : Remote) : Remote :=
  MkRemote (PeerChoked r) (PeerInterested r) (Fasts r) (Append (Suggests r) i) (pc_BitField r) (pc_ExtendedHandshakeMsg r).
Definition add_Fast (i : Z) (r : Remote) : Remote :=
  MkRemote (PeerChoked r) (PeerInterested r) (Append (Fasts r) i) (Suggests r) (pc_BitField r) (pc_ExtendedHandshakeMsg r).
Definition set_ExtHS (m : ExtendedHandshakeMsg) (r : Remote) : Remote :=
  MkRemote (PeerChoked r) (PeerInterested r) (Fasts r) (Suggests r) (pc_BitField r) m.

Definition handleBitFieldMessage (msg : Message) : act := fun pc h =>
  if notFirstMsg (pc_priv pc) then fail ErrNotFirstMsg pc h
  else upd (set_PeerBitField (BitField msg))
         (invokeBep3Handler (fun b => h_BitField b (BitField msg)) msg) pc h.

Definition handleBep3Message (msg : Message) : act := fun pc h =>
  let t := Type_ msg in
  if decide (t = MTypeChoke) then upd (set_PeerChoked true) (invokeBep3Handler h_Choke msg) pc h
  else if decide (t = MTypeUnchoke) then upd (set_PeerChoked false) (invokeBep3Handler h_Unchoke msg) pc h
  else if decide (t = MTypeInterested) then upd (set_PeerInterested true) (invokeBep3Handler h_Interested msg) pc h
  else if decide (t = MTypeNotInterested) then
    upd (set_PeerInterested false) (invokeBep3Handler h_NotInterested msg) pc h
  else if decide (t = MTypeHave) then invokeBep3Handler (fun b => h_Have b (Index msg)) msg pc h
  else if decide (t = MTypeBitField) then handleBitFieldMessage msg pc h
  else if decide (t = MTypeRequest) then
    invokeBep3Handler (fun b => h_Request b (Index msg) (Begin msg) (Length msg)) msg pc h
  else if decide (t = MTypePiece) then
    invokeBep3Handler (fun b => h_Piece b (Index msg) (Begin msg) (Piece msg)) msg pc h
  else if decide (t = MTypeCancel) then
    invokeBep3Handler (fun b => h_Cancel b (Index msg) (Begin msg) (Length msg)) msg pc h
  else (pc, h, None).

Definition handleBep5Message (msg : Message) : act := fun pc h =>
  if supports IsSupportDHT pc then
    match as_bep5 handler with
    | Some b => h_Port b (Port msg) pc h
    | None => OnMessage handler msg pc h
    end
  else fail ErrNotSupportDHT pc h.

Definition handleSuggestMessage (msg : Message) : act := fun pc h =>
  if supports IsSupportFast pc then
    upd (add_Suggest (Index msg)) (invokeBep6Handler (fun b => h_Suggest b (Index msg)) msg) pc h
  else fail ErrNotSupportFast pc h.
Definition handleHaveAllMessage (msg : Message) : act := fun pc h =>
  if notFirstMsg (pc_priv pc) then fail ErrNotFirstMsg pc h
  else if supports IsSupportFast pc then invokeBep6Handler h_HaveAll msg pc h
  else fail ErrNotSupportFast pc h.
Definition handleHaveNoneMessage (msg : Message) : act := fun pc h =>
  if notFirstMsg (pc_priv pc) then fail ErrNotFirstMsg pc h
  else if supports IsSupportFast pc then invokeBep6Handler h_HaveNone msg pc h
  else fail ErrNotSupportFast pc h.
Definition handleRejectMessage (msg : Message) : act := fun pc h =>
  if supports IsSupportFast pc then
    invokeBep6Handler (fun b => h_Reject b (Index msg) (Begin msg) (Length msg)) msg pc h
  else fail ErrNotSupportFast pc h.
Definition handleAllowedFastMessage (msg : Message) : act := fun pc h =>
  if supports IsSupportFast pc then
    upd (add_Fast (Index msg)) (invokeBep6Handler (fun b => h_AllowedFast b (Index msg)) msg) pc h
  else fail ErrNotSupportFast pc h.

Definition handleBep6Message (msg : Message) : act := fun pc h =>
  let t := Type_ msg in
  if decide (t = MTypeSuggest) then handleSuggestMessage msg pc h
  else if decide (t = MTypeHaveAll) then handleHaveAllMessage msg pc h
  else if decide (t = MTypeHaveNone) then handleHaveNoneMessage msg pc h
  else if decide (t = MTypeReject) then handleRejectMessage msg pc h
  else if decide (t = MTypeAllowedFast) then handleAllowedFastMessage msg pc h
  else (pc, h, None).

(** The payload is decoded into the message of an earlier attempt; a decoding
    that fails leaves the one it had here. A panic of the decoder, which ends the
    program, is one of its errors here: either ends the conversation. *)
Definition handleExtMsg (b : Bep10Handler) (m : Message) : act := fun pc h =>
  if decide (ExtendedID m = ExtendedIDHandshake) then
    if extHandshake (pc_priv pc) then fail ErrSecondExtHandshake pc h
    else
      let pc1 := set_priv (MkPrivate (notFirstMsg (pc_priv pc)) true) pc in
      match ehm_Decode DestHashFromBytes (pc_ExtendedHandshakeMsg (pc_remote pc1)) (ExtendedPayload m) with
      | Ok ehm => upd (set_ExtHS ehm) (h_OnExtHandShake b) pc1 h
      | Err e | Panic e => fail e pc1 h
      | NoFuel => fail ErrUnexpectedEOF pc1 h
      end
  else if extHandshake (pc_priv pc) then h_OnPayload b (ExtendedID m) (ExtendedPayload m) pc h
  else fail ErrNoExtHandshake pc h.

Definition handleBep10Message (msg : Message) : act := fun pc h =>
  if supports IsSupportExtended pc then
    match as_bep10 handler with
    | Some b => handleExtMsg b msg pc h
    | None => OnMessage handler msg pc h
    end
  else fail ErrNotSupportExtended pc h.

Definition dispatch (msg : Message) : act := fun pc h =>
  let t := Type_ msg in
  if isBep3MessageType t then handleBep3Message msg pc h
  else if decide (t = MTypePort) then handleBep5Message msg pc h
  else if isBep6MessageType t then handleBep6Message msg pc h
  else if decide (t = MTypeExtended) then handleBep10Message msg pc h
  else OnMessage handler msg pc h.

Definition HandleMessage (msg : Message) : act := fun pc h =>
  if Keepalive msg then (pc, h, None)
  else
    let '(pc1, h1, err) := dispatch msg pc h in
    (set_priv (MkPrivate true (extHandshake (pc_priv pc1))) pc1, h1, err).

(** ** server.go *)

(** [loopRun]: [None] when the fuel is spent. *)
Fixpoint loopRun (fuel : nat) (pc : PeerConn) (h : H) : option outcome :=
  match fuel with
  | O => None
  | S f =>
      match ReadMsg pc with
      | Ok (msg, pc1) =>
          match HandleMessage msg pc1 h with
          | (pc2, h2, None) => loopRun f pc2 h2
          | (pc2, h2, Some e) => Some (pc2, h2, Some (String.append "fail to handle peer message: " e))
          end
      | Err e | Panic e =>
          if decide (e = EOF) then Some (pc, h, None)
          else match String.index 0 "closed" e with
               | Some _ => Some (pc, h, None)
               | None => Some (pc, h, Some (String.append "fail to decode the message: " e))
               end
      | NoFuel => None
      end
  end.

Definition close_all (o : option outcome) : option outcome :=
  match o with
  | Some (pc, h, e) => let '(pc1, h1) := OnClose handler pc h in Some (Close pc1, h1, e)
  | None => None
  end.

Definition handlePeerMessage (fuel : nat) (pc : PeerConn) (h : H) : option outcome :=
  match pc_Handshake pc h with
  | (pc1, h1, Some e) => Some (Close pc1, h1, Some (String.append "fail to handshake: " e))
  | (pc1, h1, None) =>
      match OnHandShake handler pc1 h1 with
      | (pc2, h2, Some e) => Some (Close pc2, h2, Some (String.append "handshake error: " e))
      | (pc2, h2, None) => close_all (loopRun fuel pc2 h2)
      end
  end.

(** [Config.set]: the limit on messages when none is configured. *)
Definition Config_set (maxLength : Z) : Z := if decide (maxLength = 0) then 262144 else maxLength.

(** The connection [handleConn] sets up, and the error it logs. *)
Definition handleConn (fuel : nat) (id extBits : bytes) (maxLength : Z) (conn : Sock) (h : H) : option outcome :=
  handlePeerMessage fuel
    (MkPeerConn conn false maxLength (MkIds zeroHash id extBits zeroHash zeroBits)
       (MkLocal true false) freshRemote (MkPrivate false false)) h.
End Handle.

(** ** noop_handler.go *)
Definition noop : act := fun pc h => (pc, h, None).
Definition NoopHandler : Handler := MkHandler noop (fun _ => noop) (fun pc h => (pc, h)) None None None None.
Definition NoopBep3Handler : Bep3Handler :=
  MkBep3 noop noop noop noop (fun _ => noop) (fun _ => noop) (fun _ _ _ => noop) (fun _ _ _ => noop)
    (fun _ _ _ => noop).
Definition NoopBep5Handler : Bep5Handler := MkBep5 (fun _ => noop).
Definition NoopBep6Handler : Bep6Handler := MkBep6 noop noop (fun _ => noop) (fun _ => noop) (fun _ _ _ => noop).
Definition NoopBep10Handler : Bep10Handler := MkBep10 noop (fun _ _ => noop).

(** A handler that embeds all of them. *)
Definition NoopAll : Handler :=
  MkHandler noop (fun _ => noop) (fun pc h => (pc, h)) (Some NoopBep3Handler) (Some NoopBep5Handler)
    (Some NoopBep6Handler) (Some NoopBep10Handler).
End PeerConn.
End PeerConn.
