(* ===== verification/PeerConnFacts.v ===== *)
(** * What a peer connection guarantees

    Properties of [PeerConn.HandleMessage], of the server's loop and of the
    choke and interest state, for handlers known only through what their
    callbacks keep: [keeps_priv] (every handler outside the package, which
    cannot reach the unexported flags) and [transparent] (handlers that leave
    to the connection the state its peer controls). *)

From S2P Require Import Prelude Strconv Bencode BencodeFacts BencodeTyped Pieces PeerMessage Extension PeerConn.
Import Pieces PeerMessage Extension PeerConn.

Module PeerConnFacts.

(** Messages that may only open the conversation. *)
Definition opening (t : Z) : bool := bool_decide (t ∈ [MTypeBitField; MTypeHaveAll; MTypeHaveNone]).

(** Evaluates the tests on a message type that is a known constant. *)
Ltac eval_bool b := let v := eval vm_compute in b in change b with v.
Ltac known_type :=
  repeat match goal with
  | |- context [opening ?t] => is_const t; eval_bool (opening t)
  | |- context [isBep3MessageType ?t] => is_const t; eval_bool (isBep3MessageType t)
  | |- context [isBep6MessageType ?t] => is_const t; eval_bool (isBep6MessageType t)
  | |- context [bool_decide (@eq Z ?a ?b)] => is_const a; is_const b; eval_bool (bool_decide (a = b))
  | |- context [@decide (@eq Z ?a ?b) ?i] =>
      is_const a; is_const b;
      let Ht := fresh in destruct (@decide (a = b) i) as [Ht|Ht];
      [first [clear Ht; constr_eq a b | exfalso; vm_compute in Ht; discriminate Ht]
      |first [exfalso; apply Ht; reflexivity | clear Ht]]
  end; cbn [andb orb negb].

Section Facts.
Context (DestHashFromBytes : bytes -> res bytes) {H : Type}.
Abbreviation act := (PeerConn -> H -> PeerConn * H * option string).
Abbreviation HandleMessage := (HandleMessage DestHashFromBytes).
Abbreviation dispatch := (dispatch DestHashFromBytes).

(** The connection, the handler's state and the error after an action. *)
Definition conn_after (a : act) pc h : PeerConn := (a pc h).1.1.
Definition err_after (a : act) pc h : option string := (a pc h).2.

(** Every callback of a handler satisfies [P]. *)
Definition every (P : act -> Prop) (hd : Handler (H := H)) : Prop :=
  P (OnHandShake hd) /\ (forall m, P (OnMessage hd m)) /\
  (forall b, as_bep3 hd = Some b ->
     P (h_Choke b) /\ P (h_Unchoke b) /\ P (h_Interested b) /\ P (h_NotInterested b) /\
     (forall i, P (h_Have b i)) /\ (forall f, P (h_BitField b f)) /\ (forall i o l, P (h_Request b i o l)) /\
     (forall i o d, P (h_Piece b i o d)) /\ (forall i o l, P (h_Cancel b i o l))) /\
  (forall b, as_bep5 hd = Some b -> forall p, P (h_Port b p)) /\
  (forall b, as_bep6 hd = Some b ->
     P (h_HaveAll b) /\ P (h_HaveNone b) /\ (forall i, P (h_Suggest b i)) /\ (forall i, P (h_AllowedFast b i)) /\
     (forall i o l, P (h_Reject b i o l))) /\
  (forall b, as_bep10 hd = Some b -> P (h_OnExtHandShake b) /\ (forall i d, P (h_OnPayload b i d))).

(** ** The protocol rules, apart from the code

    What makes the connection refuse a message. *)

Definition has_bep10 (hd : Handler (H := H)) : bool := match as_bep10 hd with Some _ => true | None => false end.

Definition ext_error (p : Private) (m : Message) : option string :=
  if decide (ExtendedID m = ExtendedIDHandshake)
  then (if extHandshake p then Some ErrSecondExtHandshake else None)
  else (if extHandshake p then None else Some ErrNoExtHandshake).

Definition bit_on (t : bytes -> res bool) (bits : bytes) : bool := match t bits with Ok b => b | _ => false end.

Definition refusal (hd : Handler (H := H)) (bits : bytes) (p : Private) (m : Message) : option string :=
  let t := Type_ m in
  if opening t && notFirstMsg p then Some ErrNotFirstMsg
  else if bool_decide (t = MTypePort) && negb (bit_on IsSupportDHT bits) then Some ErrNotSupportDHT
  else if isBep6MessageType t && negb (bit_on IsSupportFast bits) then Some ErrNotSupportFast
  else if bool_decide (t = MTypeExtended) then
    if negb (bit_on IsSupportExtended bits) then Some ErrNotSupportExtended
    else if has_bep10 hd then ext_error p m else None
  else None.

Definition protocol_error (hd : Handler (H := H)) (pc : PeerConn) (m : Message) : option string :=
  refusal hd (ExtBits (pc_ids pc)) (pc_priv pc) m.

(** What an accepted message changes before the handler sees it. *)
Definition remote_after (m : Message) (r : Remote) : Remote :=
  let t := Type_ m in
  if decide (t = MTypeChoke) then set_PeerChoked true r
  else if decide (t = MTypeUnchoke) then set_PeerChoked false r
  else if decide (t = MTypeInterested) then set_PeerInterested true r
  else if decide (t = MTypeNotInterested) then set_PeerInterested false r
  else if decide (t = MTypeBitField) then set_PeerBitField (BitField m) r
  else if decide (t = MTypeSuggest) then add_Suggest (Index m) r
  else if decide (t = MTypeAllowedFast) then add_Fast (Index m) r
  else r.

Definition is_ext_handshake (hd : Handler (H := H)) (m : Message) : bool :=
  bool_decide (Type_ m = MTypeExtended) && has_bep10 hd && bool_decide (ExtendedID m = ExtendedIDHandshake).

Definition open_ext (pc : PeerConn) : PeerConn := set_priv (MkPrivate (notFirstMsg (pc_priv pc)) true) pc.

(** A callback of the handler. *)
Definition callback (hd : Handler (H := H)) (a : act) : Prop := forall P, every P hd -> P a.

Lemma invoke3 hd f m :
  (forall b P, as_bep3 hd = Some b -> every P hd -> P (f b)) -> callback hd (invokeBep3Handler hd f m).
Proof.
  intros Hf P HP. unfold invokeBep3Handler. destruct (as_bep3 hd) eqn:E; [by eapply Hf|apply HP].
Qed.

Lemma invoke6 hd f m :
  (forall b P, as_bep6 hd = Some b -> every P hd -> P (f b)) -> callback hd (invokeBep6Handler hd f m).
Proof.
  intros Hf P HP. unfold invokeBep6Handler. destruct (as_bep6 hd) eqn:E; [by eapply Hf|apply HP].
Qed.

Ltac pick_callback :=
  let b := fresh "b" in let P := fresh "P" in let Hb := fresh "Hb" in
  intros b P Hb (_ & _ & H3 & _ & H6 & _);
  first [specialize (H3 b Hb) | specialize (H6 b Hb)]; naive_solver.

(** The three ways a message is handled. *)
Definition dispatch_result (hd : Handler (H := H)) (m : Message) (pc : PeerConn) (h : H)
    (o : PeerConn * H * option string) : Prop :=
  match protocol_error hd pc m with
  | Some e => o = (pc, h, Some e)
  | None =>
      if is_ext_handshake hd m then
        match ehm_Decode DestHashFromBytes (pc_ExtendedHandshakeMsg (pc_remote pc)) (ExtendedPayload m) with
        | Ok ehm => exists a, callback hd a /\ o = a (set_remote (set_ExtHS ehm (pc_remote pc)) (open_ext pc)) h
        | _ => exists e, o = (open_ext pc, h, Some e)
        end
      else exists a, callback hd a /\ o = a (set_remote (remote_after m (pc_remote pc)) pc) h
  end.

Lemma supports_bit t pc : supports t pc = bit_on t (ExtBits (pc_ids pc)).
Proof. done. Qed.

Lemma set_remote_same pc : set_remote (pc_remote pc) pc = pc.
Proof. by destruct pc. Qed.

(** The type of a message, by cases. *)
Lemma type_cases t :
  t ∈ [MTypeChoke; MTypeUnchoke; MTypeInterested; MTypeNotInterested; MTypeHave; MTypeBitField; MTypeRequest;
       MTypePiece; MTypeCancel] \/
  t = MTypePort \/ t ∈ [MTypeSuggest; MTypeHaveAll; MTypeHaveNone; MTypeReject; MTypeAllowedFast] \/
  t = MTypeExtended \/
  (isBep3MessageType t = false /\ t <> MTypePort /\ isBep6MessageType t = false /\ t <> MTypeExtended).
Proof.
  unfold isBep3MessageType, isBep6MessageType. repeat case_bool_decide; try tauto.
  destruct (decide (t = MTypePort)), (decide (t = MTypeExtended)); tauto.
Qed.

Lemma dispatch_bep3 hd m pc h :
  isBep3MessageType (Type_ m) = true -> dispatch_result hd m pc h (dispatch hd m pc h).
Proof.
  unfold dispatch_result, PeerConn.dispatch. intros E. rewrite E.
  unfold isBep3MessageType in E. apply bool_decide_eq_true in E.
  repeat (apply elem_of_cons in E as [E|E]); [..|by apply elem_of_nil in E];
    unfold handleBep3Message, protocol_error, refusal, remote_after, is_ext_handshake; rewrite E; known_type;
    try (rewrite ?set_remote_same; eexists; split; [|reflexivity]; apply invoke3; pick_callback).
  unfold handleBitFieldMessage. destruct (notFirstMsg (pc_priv pc)); [done|].
  eexists; split; [|reflexivity]; apply invoke3; pick_callback.
Qed.

Lemma dispatch_bep6 hd m pc h :
  isBep6MessageType (Type_ m) = true -> dispatch_result hd m pc h (dispatch hd m pc h).
Proof.
  unfold dispatch_result, PeerConn.dispatch. intros E.
  unfold isBep6MessageType in E. apply bool_decide_eq_true in E.
  repeat (apply elem_of_cons in E as [E|E]); [..|by apply elem_of_nil in E];
    unfold handleBep6Message, handleSuggestMessage, handleHaveAllMessage, handleHaveNoneMessage, handleRejectMessage,
      handleAllowedFastMessage, protocol_error, refusal, remote_after, is_ext_handshake; rewrite E, ?supports_bit; known_type;
    try (destruct (notFirstMsg (pc_priv pc)); [done|]); destruct (bit_on IsSupportFast (ExtBits (pc_ids pc))); try done;
    cbn [negb]; rewrite ?set_remote_same; (eexists; split; [|reflexivity]; apply invoke6; pick_callback).
Qed.

Lemma dispatch_port hd m pc h :
  Type_ m = MTypePort -> dispatch_result hd m pc h (dispatch hd m pc h).
Proof.
  intros E. unfold dispatch_result, PeerConn.dispatch, protocol_error, refusal, remote_after, is_ext_handshake, handleBep5Message.
  rewrite E, ?supports_bit. known_type. destruct (bit_on IsSupportDHT (ExtBits (pc_ids pc))); [|done]. cbn [negb]. rewrite set_remote_same.
  destruct (as_bep5 hd) as [b|] eqn:Eb.
  - exists (h_Port b (Port m)). split; [|done]. intros P (_ & _ & _ & H5 & _). by apply H5.
  - exists (OnMessage hd m). split; [|done]. intros P HP. apply HP.
Qed.

Lemma dispatch_extended hd m pc h :
  Type_ m = MTypeExtended -> dispatch_result hd m pc h (dispatch hd m pc h).
Proof.
  intros E. unfold dispatch_result, PeerConn.dispatch, protocol_error, refusal, remote_after, is_ext_handshake,
    handleBep10Message, has_bep10, ext_error.
  rewrite E, ?supports_bit. known_type. destruct (bit_on IsSupportExtended (ExtBits (pc_ids pc))); [|done]. cbn [negb]. rewrite set_remote_same.
  destruct (as_bep10 hd) as [b|] eqn:Eb.
  2: { cbn [andb]. exists (OnMessage hd m). split; [|done]. intros P HP. apply HP. }
  assert (forall P, every P hd -> P (h_OnExtHandShake b) /\ (forall i d, P (h_OnPayload b i d))) as Hcb.
  { intros P (_ & _ & _ & _ & _ & H10). by apply H10. }
  unfold handleExtMsg. cbn [andb].
  destruct (decide (ExtendedID m = ExtendedIDHandshake)) as [Ei|Ei].
  - rewrite bool_decide_true by done. destruct (extHandshake (pc_priv pc)); [done|].
    fold (open_ext pc). change (pc_remote (open_ext pc)) with (pc_remote pc).
    destruct (ehm_Decode _ _ _) as [ehm|e|e|]; [|by eexists..].
    exists (h_OnExtHandShake b). split; [|done]. intros P HP. by apply Hcb.
  - rewrite bool_decide_false by done. destruct (extHandshake (pc_priv pc)); [|done].
    exists (h_OnPayload b (ExtendedID m) (ExtendedPayload m)). split; [|done]. intros P HP. by apply Hcb.
Qed.

Lemma elem_of_neq (l : list Z) t c : t ∉ l -> c ∈ l -> t <> c.
Proof. set_solver. Qed.

Lemma dispatch_other hd m pc h :
  isBep3MessageType (Type_ m) = false -> Type_ m <> MTypePort -> isBep6MessageType (Type_ m) = false ->
  Type_ m <> MTypeExtended -> dispatch_result hd m pc h (dispatch hd m pc h).
Proof.
  intros E3 Ep E6 Ee. unfold dispatch_result, PeerConn.dispatch, protocol_error, refusal, is_ext_handshake.
  rewrite E3, E6, decide_False, decide_False, !bool_decide_false by done. cbn [andb].
  unfold isBep3MessageType in E3. unfold isBep6MessageType in E6.
  apply bool_decide_eq_false in E3, E6.
  assert (opening (Type_ m) = false) as ->.
  { unfold opening. apply bool_decide_false. set_solver. }
  cbn [andb]. exists (OnMessage hd m). split; [intros P HP; apply HP|]. f_equal.
  unfold remote_after. repeat (case_decide as Hc; [rewrite Hc in *; set_solver|clear Hc]). by rewrite set_remote_same.
Qed.

(** Every message ends in one of the three ways. *)
Lemma dispatch_spec hd m pc h : dispatch_result hd m pc h (dispatch hd m pc h).
Proof.
  destruct (type_cases (Type_ m)) as [E|[E|[E|[E|(E3 & Ep & E6 & Ee)]]]].
  - apply dispatch_bep3. by apply bool_decide_true.
  - by apply dispatch_port.
  - apply dispatch_bep6. by apply bool_decide_true.
  - by apply dispatch_extended.
  - by apply dispatch_other.
Qed.

(** ** Callbacks that cannot reach the unexported flags *)
Definition keeps_priv (a : act) : Prop := forall pc h, pc_priv (conn_after a pc h) = pc_priv pc.

(** One message that the handler accepted. *)
Lemma HandleMessage_ok hd m pc h pc1 h1 :
  every keeps_priv hd -> HandleMessage hd m pc h = (pc1, h1, None) ->
  if Keepalive m then pc1 = pc
  else protocol_error hd pc m = None /\
       pc_priv pc1 = MkPrivate true (extHandshake (pc_priv pc) || is_ext_handshake hd m).
Proof.
  intros Hk. unfold PeerConn.HandleMessage. destruct (Keepalive m); [by intros [= -> ->]|].
  pose proof (dispatch_spec hd m pc h) as Hs. destruct (dispatch hd m pc h) as [[pc2 h2] e]. intros [= <- <- ->].
  unfold dispatch_result in Hs. destruct (protocol_error hd pc m); [done|]. split; [done|].
  cbn [pc_priv set_priv]. f_equal. destruct (is_ext_handshake hd m).
  - rewrite orb_true_r. destruct (ehm_Decode _ _ _) as [ehm|?|?|]; [|by destruct Hs as [? [=]]..].
    destruct Hs as (a & Ha & Hs).
    pose proof (Ha _ Hk (set_remote (set_ExtHS ehm (pc_remote pc)) (open_ext pc)) h) as Hp.
    unfold conn_after in Hp. rewrite <- Hs in Hp. cbn in Hp. by rewrite Hp.
  - rewrite orb_false_r. destruct Hs as (a & Ha & Hs).
    pose proof (Ha _ Hk (set_remote (remote_after m (pc_remote pc)) pc) h) as Hp.
    unfold conn_after in Hp. rewrite <- Hs in Hp. cbn in Hp. by rewrite Hp.
Qed.

(** Handling the messages of a conversation until one fails. *)
Fixpoint handle_all (hd : Handler (H := H)) (ms : list Message) (pc : PeerConn) (h : H)
    : PeerConn * H * option string :=
  match ms with
  | [] => (pc, h, None)
  | m :: ms' =>
      match HandleMessage hd m pc h with
      | (pc1, h1, None) => handle_all hd ms' pc1 h1
      | o => o
      end
  end.

(** Splits a conversation that went well at its first message. *)
Lemma handle_all_cons hd m ms pc h pc' h' :
  handle_all hd (m :: ms) pc h = (pc', h', None) ->
  exists pc1 h1, HandleMessage hd m pc h = (pc1, h1, None) /\ handle_all hd ms pc1 h1 = (pc', h', None).
Proof.
  cbn [handle_all]. destruct (HandleMessage hd m pc h) as [[pc1 h1] [e|]]; [done|]. eauto.
Qed.

Definition is_opening (m : Message) : bool := negb (Keepalive m) && opening (Type_ m).

Lemma opening_rejected hd pc m :
  is_opening m = true -> notFirstMsg (pc_priv pc) = true -> protocol_error hd pc m <> None.
Proof.
  unfold is_opening, protocol_error, refusal. intros [_ Ho]%andb_prop Hn. by rewrite Ho, Hn.
Qed.

Lemma started_no_opening hd ms pc h pc' h' :
  every keeps_priv hd -> notFirstMsg (pc_priv pc) = true -> handle_all hd ms pc h = (pc', h', None) ->
  Forall (fun m => is_opening m = false) ms.
Proof.
  intros Hk. revert pc h. induction ms as [|m ms IH]; intros pc h Hn Hr; [constructor|].
  apply handle_all_cons in Hr as (pc1 & h1 & E1 & Hr). apply HandleMessage_ok in E1; [|done].
  destruct (is_opening m) eqn:Ho.
  - pose proof Ho as Ho'. unfold is_opening in Ho'. destruct (Keepalive m); [done|].
    destruct E1 as [E1 _]. by apply opening_rejected with (hd := hd) (pc := pc) in Ho.
  - constructor; [done|]. eapply IH; [|done]. destruct (Keepalive m); [by subst|].
    destruct E1 as [_ ->]. done.
Qed.

Definition first_rule (ms : list Message) : Prop :=
  forall i m, ms !! i = Some m -> is_opening m = true ->
  forall j m', (j < i)%nat -> ms !! j = Some m' -> Keepalive m' = true.

Lemma first_rule_lemma hd ms pc h pc' h' :
  every keeps_priv hd -> handle_all hd ms pc h = (pc', h', None) -> first_rule ms.
Proof.
  intros Hk. revert pc h. induction ms as [|m ms IH]; intros pc h Hr i m0 Hi Ho j m' Hj Hm'; [done|].
  apply handle_all_cons in Hr as (pc1 & h1 & E1 & Hr). destruct i as [|i]; [lia|]. cbn in Hi.
  destruct (Keepalive m) eqn:Km.
  - destruct j as [|j]; [by simplify_eq/=|]. cbn in Hm'. eapply (IH _ _ Hr i _ Hi Ho j); [lia|done].
  - apply HandleMessage_ok in E1; [|done]. rewrite Km in E1. destruct E1 as [_ E1].
    apply started_no_opening in Hr; [|done|by rewrite E1].
    rewrite Forall_forall in Hr. rewrite Hr in Ho; [done|]. by eapply list_elem_of_lookup_2.
Qed.

(** ** The order of the extended messages *)
Definition is_extended (m : Message) : bool := negb (Keepalive m) && bool_decide (Type_ m = MTypeExtended).

(** The extended handshake comes first, and once. *)
Definition ext_order (opened : bool) (ms : list Message) : Prop :=
  match filter (fun m => is_extended m = true) ms with
  | [] => True
  | m :: ms' =>
      (if opened then ExtendedID m <> ExtendedIDHandshake else ExtendedID m = ExtendedIDHandshake) /\
      Forall (fun m => ExtendedID m <> ExtendedIDHandshake) ms'
  end.

Lemma ext_order_lemma hd ms pc h pc' h' :
  every keeps_priv hd -> has_bep10 hd = true -> handle_all hd ms pc h = (pc', h', None) ->
  ext_order (extHandshake (pc_priv pc)) ms.
Proof.
  intros Hk H10. revert pc h. induction ms as [|m ms IH]; intros pc h Hr; [done|].
  apply handle_all_cons in Hr as (pc1 & h1 & E1 & Hr). specialize (IH _ _ Hr).
  apply HandleMessage_ok in E1; [|done]. unfold ext_order in *. rewrite filter_cons.
  destruct (decide (is_extended m = true)) as [Hx|Hx]; unfold is_extended in Hx; destruct (Keepalive m);
    cbn [negb andb] in Hx; try done; try (by subst); destruct E1 as [Hp Hpc]; rewrite Hpc in IH;
    cbn [extHandshake] in IH; unfold is_ext_handshake in IH; rewrite H10, andb_true_r in IH.
  2: { apply not_true_is_false in Hx. rewrite Hx, orb_false_r in IH. done. }
  rewrite Hx in IH. cbn [andb] in IH. apply bool_decide_eq_true in Hx as Et.
  unfold protocol_error, refusal in Hp. rewrite Et, H10 in Hp. revert Hp. known_type.
  destruct (bit_on IsSupportExtended (ExtBits (pc_ids pc))); [|done]. cbn [negb]. unfold ext_error.
  destruct (decide (ExtendedID m = ExtendedIDHandshake)) as [Ei|Ei].
  - destruct (extHandshake (pc_priv pc)); [done|]. intros _. rewrite bool_decide_true in IH by done. cbn [orb] in IH.
    split; [done|]. by destruct (filter _ ms); [|constructor; apply IH].
  - destruct (extHandshake (pc_priv pc)); [|done]. intros _. cbn [orb] in IH.
    split; [done|]. by destruct (filter _ ms); [|constructor; apply IH].
Qed.

(** ** The abstract conversation

    What a peer has told so far: its choke and interest, the pieces it
    allows and suggests as sets, its bit field and extended handshake. *)
Record Abs := MkAbs {
  a_choked : bool;
  a_interested : bool;
  a_fasts : gset Z;
  a_suggests : gset Z;
  a_bits : bytes;
  a_ehm : ExtendedHandshakeMsg;
  a_priv : Private
}.

Definition abs (pc : PeerConn) : Abs :=
  let r := pc_remote pc in
  MkAbs (PeerChoked r) (PeerInterested r) (list_to_set (Fasts r)) (list_to_set (Suggests r)) (pc_BitField r)
    (pc_ExtendedHandshakeMsg r) (pc_priv pc).

Definition on_type (t : Z) {A} (m : Message) (x y : A) : A := if decide (Type_ m = t) then x else y.

Definition ehm_payload (a : Abs) (m : Message) : res ExtendedHandshakeMsg :=
  ehm_Decode DestHashFromBytes (a_ehm a) (ExtendedPayload m).

(** An accepted message updates the part its type is about. *)
Definition abs_step (hd : Handler (H := H)) (a : Abs) (m : Message) : Abs :=
  if Keepalive m then a
  else MkAbs
    (on_type MTypeChoke m true (on_type MTypeUnchoke m false (a_choked a)))
    (on_type MTypeInterested m true (on_type MTypeNotInterested m false (a_interested a)))
    (on_type MTypeAllowedFast m ({[Index m]} ∪ a_fasts a) (a_fasts a))
    (on_type MTypeSuggest m ({[Index m]} ∪ a_suggests a) (a_suggests a))
    (on_type MTypeBitField m (BitField m) (a_bits a))
    (if is_ext_handshake hd m then match ehm_payload a m with Ok e => e | _ => a_ehm a end else a_ehm a)
    (MkPrivate true (extHandshake (a_priv a) || is_ext_handshake hd m)).

(** Handlers that leave the peer's state, the ids and the input to the
    connection. *)
Definition transparent (a : act) : Prop := forall pc h,
  let pc' := conn_after a pc h in
  pc_remote pc' = pc_remote pc /\ pc_priv pc' = pc_priv pc /\ pc_ids pc' = pc_ids pc /\
  pc_MaxLength pc' = pc_MaxLength pc /\ sk_in (pc_conn pc') = sk_in (pc_conn pc).

Definition pieces_inv (pc : PeerConn) : Prop := pieces_ok (Fasts (pc_remote pc)) /\ pieces_ok (Suggests (pc_remote pc)).

Lemma Append_set ps i : (list_to_set (Append ps i) : gset Z) = {[i]} ∪ list_to_set ps.
Proof. apply set_eq. intros x. rewrite elem_of_union, !elem_of_list_to_set, elem_of_Append. set_solver. Qed.

(** A message has one type. *)
Ltac type_clash :=
  exfalso; unfold MTypeChoke, MTypeUnchoke, MTypeInterested, MTypeNotInterested, MTypeBitField, MTypeSuggest,
    MTypeAllowedFast, MTypeExtended in *; lia.

Lemma remote_after_abs hd m pc :
  is_ext_handshake hd m = false -> Keepalive m = false ->
  abs (set_priv (MkPrivate true (extHandshake (pc_priv pc))) (set_remote (remote_after m (pc_remote pc)) pc))
  = abs_step hd (abs pc) m.
Proof.
  intros He Hk. unfold abs_step, abs. rewrite He, Hk, orb_false_r.
  unfold on_type, remote_after. cbn [pc_remote set_priv set_remote pc_priv a_choked a_interested a_fasts a_suggests a_bits a_ehm a_priv].
  repeat case_decide; try type_clash; cbn [set_PeerChoked set_PeerInterested set_PeerBitField add_Suggest add_Fast
    PeerChoked PeerInterested Fasts Suggests pc_BitField pc_ExtendedHandshakeMsg]; rewrite ?Append_set; done.
Qed.

Lemma remote_after_pieces m pc :
  pieces_inv pc -> pieces_inv (set_remote (remote_after m (pc_remote pc)) pc).
Proof.
  intros [H1 H2]. unfold pieces_inv, remote_after. repeat case_decide; cbn; auto using Append_ok.
Qed.

(** One message, for a transparent handler. *)
Definition step_result (hd : Handler (H := H)) (m : Message) (pc : PeerConn) (h : H)
    (o : PeerConn * H * option string) : Prop :=
  match protocol_error hd pc m with
  | Some e => o.2 = Some e /\ o.1.2 = h /\ pc_remote o.1.1 = pc_remote pc
  | None =>
      abs o.1.1 = abs_step hd (abs pc) m /\ (pieces_inv pc -> pieces_inv o.1.1) /\
      pc_ids o.1.1 = pc_ids pc /\ pc_MaxLength o.1.1 = pc_MaxLength pc /\
      sk_in (pc_conn o.1.1) = sk_in (pc_conn pc)
  end.

Lemma HandleMessage_refines hd m pc h :
  every transparent hd -> Keepalive m = false -> step_result hd m pc h (HandleMessage hd m pc h).
Proof.
  intros Ht Hk. unfold step_result, PeerConn.HandleMessage. rewrite Hk.
  pose proof (dispatch_spec hd m pc h) as Hs. destruct (dispatch hd m pc h) as [[pc2 h2] e].
  unfold dispatch_result in Hs. destruct (protocol_error hd pc m) as [e'|]; cbn [fst snd].
  { by simplify_eq. }
  destruct (is_ext_handshake hd m) eqn:Ex.
  - unfold abs_step. rewrite Hk, Ex, orb_true_r.
    assert (Type_ m = MTypeExtended) as Et.
    { unfold is_ext_handshake in Ex. apply andb_prop in Ex as [[Ex _]%andb_prop _]. by apply bool_decide_eq_true in Ex. }
    unfold on_type. rewrite Et. known_type. unfold ehm_payload. change (a_ehm (abs pc)) with (pc_ExtendedHandshakeMsg (pc_remote pc)).
    destruct (ehm_Decode _ _ _) as [ehm|?|?|].
    { destruct Hs as (a & Ha & Hs).
      destruct (Ha _ Ht (set_remote (set_ExtHS ehm (pc_remote pc)) (open_ext pc)) h) as (T1 & T2 & T3 & T4 & T5).
      unfold conn_after in *. rewrite <- Hs in *. cbn [fst snd] in *.
      unfold abs, pieces_inv. cbn [pc_remote pc_priv set_priv pc_ids pc_MaxLength pc_conn].
      rewrite T1, T2, T3, T4, T5. done. }
    all: destruct Hs as [? [= -> -> ->]]; done.
  - destruct Hs as (a & Ha & Hs).
    destruct (Ha _ Ht (set_remote (remote_after m (pc_remote pc)) pc) h) as (T1 & T2 & T3 & T4 & T5).
    unfold conn_after in *. rewrite <- Hs in *. cbn [fst snd] in *. rewrite <- remote_after_abs by done.
    pose proof (remote_after_pieces m pc) as Hp.
    unfold abs, pieces_inv in *. cbn [pc_remote pc_priv set_priv pc_ids pc_MaxLength pc_conn set_remote] in *.
    rewrite T1, T2, T3, T4, T5. done.
Qed.

(** ** The server's loop over a stream of messages *)

(** A conversation the protocol allows, told by the abstract state alone. *)
Fixpoint legal (hd : Handler (H := H)) (bits : bytes) (a : Abs) (ms : list Message) : Prop :=
  match ms with
  | [] => True
  | m :: ms' =>
      (Keepalive m = false ->
         refusal hd bits (a_priv a) m = None /\ (is_ext_handshake hd m = true -> is_ok (ehm_payload a m) = true)) /\
      legal hd bits (abs_step hd a m) ms'
  end.

Definition never_fails (a : act) : Prop := forall pc h, err_after a pc h = None.

Lemma HandleMessage_succeeds hd m pc h :
  every never_fails hd ->
  (Keepalive m = false -> protocol_error hd pc m = None /\
     (is_ext_handshake hd m = true -> is_ok (ehm_payload (abs pc) m) = true)) ->
  (HandleMessage hd m pc h).2 = None.
Proof.
  intros Hn Hl. unfold PeerConn.HandleMessage. destruct (Keepalive m); [done|]. destruct (Hl eq_refl) as [Hp Hx].
  pose proof (dispatch_spec hd m pc h) as Hs. destruct (dispatch hd m pc h) as [[pc2 h2] e]. cbn [snd].
  unfold dispatch_result in Hs. rewrite Hp in Hs. destruct (is_ext_handshake hd m).
  - specialize (Hx eq_refl). unfold ehm_payload in Hx. change (a_ehm (abs pc)) with (pc_ExtendedHandshakeMsg (pc_remote pc)) in Hx.
    destruct (ehm_Decode _ _ _) as [ehm|?|?|]; try done. destruct Hs as (a & Ha & Hs).
    specialize (Ha _ Hn (set_remote (set_ExtHS ehm (pc_remote pc)) (open_ext pc)) h). unfold err_after in Ha.
    by rewrite <- Hs in Ha.
  - destruct Hs as (a & Ha & Hs).
    specialize (Ha _ Hn (set_remote (remote_after m (pc_remote pc)) pc) h). unfold err_after in Ha.
    by rewrite <- Hs in Ha.
Qed.

(** A message as a peer can send it to this connection. *)
Definition sendable (maxLength : Z) (m : Message) : Prop :=
  msg_typed m /\ fits m maxLength /\ Type_ m <> MTypeSuggest /\ Type_ m <> MTypeAllowedFast.

Lemma ReadMsg_next pc m rest :
  sendable (pc_MaxLength pc) m -> sk_in (pc_conn pc) = Encode m ++ rest ->
  ReadMsg pc = Ok (carried m, set_conn (MkSock rest (sk_out (pc_conn pc)) (sk_fail (pc_conn pc))) pc).
Proof.
  intros (H1 & H2 & H3 & H4) E. unfold ReadMsg. rewrite E.
  pose proof (Decode_Encode m rest (pc_MaxLength pc) H1 H2 H3 H4) as Hd. unfold DecodeToMessage in Hd. by rewrite Hd.
Qed.

Lemma Keepalive_step (hd : Handler (H := H)) m pc h : Keepalive m = true -> HandleMessage hd m pc h = (pc, h, None).
Proof. intros E. unfold PeerConn.HandleMessage. by rewrite E. Qed.

Lemma abs_conn s pc : abs (set_conn s pc) = abs pc.
Proof. done. Qed.

Lemma loop_step_lemma hd m pc h :
  every transparent hd -> every never_fails hd ->
  (Keepalive m = false -> refusal hd (ExtBits (pc_ids pc)) (a_priv (abs pc)) m = None /\
     (is_ext_handshake hd m = true -> is_ok (ehm_payload (abs pc) m) = true)) ->
  exists pc1 h1, HandleMessage hd m pc h = (pc1, h1, None) /\ abs pc1 = abs_step hd (abs pc) m /\
    pc_ids pc1 = pc_ids pc /\ pc_MaxLength pc1 = pc_MaxLength pc /\ sk_in (pc_conn pc1) = sk_in (pc_conn pc).
Proof.
  intros Ht Hn Hl. destruct (Keepalive m) eqn:Hk.
  { exists pc, h. rewrite Keepalive_step by done. unfold abs_step. by rewrite Hk. }
  pose proof (HandleMessage_succeeds hd m pc h Hn) as Hs. rewrite Hk in Hs. specialize (Hs Hl).
  pose proof (HandleMessage_refines hd m pc h Ht Hk) as Hr.
  destruct (HandleMessage hd m pc h) as [[pc1 h1] e]. cbn in Hs. subst e. exists pc1, h1. split; [done|].
  unfold step_result in Hr. unfold protocol_error in Hr.
  change (pc_priv pc) with (a_priv (abs pc)) in Hr. rewrite (proj1 (Hl eq_refl)) in Hr. naive_solver.
Qed.

(** Where the loop ends: at the end of the input, or at a Suggest or AllowedFast
    message as it is sent. *)
Definition stops (input : bytes) : Prop :=
  input = [] \/ exists m rest, input = Encode m ++ rest /\ Keepalive m = false /\ (Type_ m = MTypeSuggest \/ Type_ m = MTypeAllowedFast) /\
    UnknownTypePayload m = [].

Lemma ReadMsg_stops pc : stops (sk_in (pc_conn pc)) -> ReadMsg pc = Err EOF.
Proof.
  unfold ReadMsg. intros [->|(m & rest & -> & Hk & Ht & Hu)]; [done|].
  destruct (suggest_index_lost m rest (pc_MaxLength pc) Hk Ht Hu) as [_ Hd]. unfold DecodeToMessage in Hd. by rewrite Hd.
Qed.

Lemma loop_serves ms tail hd pc h :
  every transparent hd -> every never_fails hd ->
  sk_in (pc_conn pc) = concat (map Encode ms) ++ tail -> stops tail -> Forall (sendable (pc_MaxLength pc)) ms ->
  legal hd (ExtBits (pc_ids pc)) (abs pc) (map carried ms) ->
  exists pc' h', loopRun DestHashFromBytes hd (S (length ms)) pc h = Some (pc', h', None) /\
    sk_in (pc_conn pc') = tail /\ abs pc' = foldl (abs_step hd) (abs pc) (map carried ms).
Proof.
  intros Ht Hn. revert pc h. induction ms as [|m ms IH]; intros pc h Hin Hst Hok Hl.
  { exists pc, h. cbn [loopRun]. cbn in Hin. rewrite ReadMsg_stops by (by rewrite Hin). done. }
  inversion_clear Hok as [|?? Hm Hok']. cbn [map concat] in Hin. rewrite <- app_assoc in Hin. destruct Hl as [Hm1 Hl].
  cbn [length]. remember (S (length ms)) as f. cbn [loopRun].
  rewrite (ReadMsg_next pc m _ Hm Hin).
  set (pc0 := set_conn _ pc).
  destruct (loop_step_lemma hd (carried m) pc0 h Ht Hn Hm1) as (pc1 & h1 & -> & Ha & Hi & Hx & Hs).
  destruct (IH pc1 h1) as (pc' & h' & Hr & Hrest & Habs).
  - rewrite Hs. done.
  - done.
  - by rewrite Hx.
  - rewrite Hi, Ha. done.
  - exists pc', h'. split_and!; [done|done|]. rewrite Habs, Ha. done.
Qed.

(** ** The loop ends on any input *)
Lemma ReadFull_shorter n r p rest : ReadFull n r = Ok (p, rest) -> (length rest <= length r - Z.to_nat n)%nat /\ n <= len r.
Proof. unfold ReadFull. repeat case_decide; intros; simp_res. rewrite length_drop. lia. Qed.

Lemma lr_advance_shorter n lr : (length (lr_R (lr_advance n lr)) <= length (lr_R lr))%nat.
Proof. cbn. rewrite length_drop. lia. Qed.

Lemma lr_ReadFull_shorter n lr p lr' : lr_ReadFull n lr = Ok (p, lr') -> (length (lr_R lr') <= length (lr_R lr))%nat.
Proof. unfold lr_ReadFull. intros E. inv_bind. apply lr_advance_shorter. Qed.

Lemma binaryRead_shorter n lr z lr' : binaryRead n lr = Ok (z, lr') -> (length (lr_R lr') <= length (lr_R lr))%nat.
Proof. unfold binaryRead. intros E. inv_bind. by eapply lr_ReadFull_shorter. Qed.

Lemma readByte_shorter lr z lr' : readByte lr = Ok (z, lr') -> (length (lr_R lr') <= length (lr_R lr))%nat.
Proof. unfold readByte. destruct (lr_view lr); intros; simp_res. apply lr_advance_shorter. Qed.

Lemma decodeByMessageType_shorter m lr l m' lr' :
  decodeByMessageType m lr l = Ok (m', lr') -> (length (lr_R lr') <= length (lr_R lr))%nat.
Proof.
  unfold decodeByMessageType, decodeIndexOnlyMessage, decodeRequestLikeMessage, decodeBitFieldMessage,
    decodePieceMessage, decodeExtendedMessage, decodePortMessage, decodeUnknownMessage, ReadAll.
  intros E. destruct (no_payload (Type_ m)); [simp_res; lia|]. repeat case_test; inv_bind;
    repeat match goal with
    | Hx : binaryRead _ _ = Ok _ |- _ => apply binaryRead_shorter in Hx
    | Hx : readByte _ = Ok _ |- _ => apply readByte_shorter in Hx
    | Hx : context [match ?r with Ok _ => _ | _ => _ end] |- _ => destruct r as [[? ?]|?|?|] eqn:?; simp_res
    | Hx : lr_ReadFull _ _ = Ok _ |- _ => apply lr_ReadFull_shorter in Hx
    end; try lia; try (etrans; [apply lr_advance_shorter|]; lia); apply lr_advance_shorter.
Qed.

Lemma Decode_shorter m r maxLength m' rest :
  Decode m r maxLength = Ok (m', rest) -> (length rest < length r)%nat.
Proof.
  unfold Decode, readMessageLength. intros E. destruct (ReadFull 4 r) as [[p r1]|e|?|] eqn:Er;
    [|case_decide; discriminate E|discriminate E|discriminate E].
  apply ReadFull_shorter in Er as [Hl H4]. unfold len in H4. cbn [mbind res_bind] in E.
  case_decide; simp_res; [lia|]. inv_bind. case_decide; simp_res.
  apply readByte_shorter in E1. apply decodeByMessageType_shorter in E2. cbn in E1. lia.
Qed.

Lemma ReadFull_fuel n r : ReadFull n r <> NoFuel.
Proof. unfold ReadFull. by repeat case_decide. Qed.

Lemma lr_ReadFull_fuel n lr : lr_ReadFull n lr <> NoFuel.
Proof. unfold lr_ReadFull. intros E. inv_nofuel E; [by apply ReadFull_fuel in E|done]. Qed.

Lemma binaryRead_fuel n lr : binaryRead n lr <> NoFuel.
Proof. unfold binaryRead. intros E. inv_nofuel E; [by apply lr_ReadFull_fuel in E|done]. Qed.

Lemma Message_Decode_fuel m r maxLength : Decode m r maxLength <> NoFuel.
Proof.
  unfold Decode, readMessageLength, validateMessageLength. intros E. inv_nofuel E.
  { pose proof (ReadFull_fuel 4 r). destruct (ReadFull 4 r) as [[??]|?|?|]; try done. by case_decide. }
  case_decide; [done|]. inv_nofuel E; [by case_decide|]. inv_nofuel E.
  { unfold readByte in E. by destruct (lr_view _). }
  inv_nofuel E; [|by case_decide].
  revert E. unfold decodeByMessageType, decodeIndexOnlyMessage, decodeRequestLikeMessage, decodeBitFieldMessage,
    decodePieceMessage, decodeExtendedMessage, decodePortMessage, decodeUnknownMessage, ReadAll.
  repeat case_test; try done; intros E;
    repeat first [inv_nofuel E; [by apply binaryRead_fuel in E|]
                 | inv_nofuel E; [unfold readByte in E; by destruct (lr_view _)|]
                 | done
                 | match type of E with context [lr_ReadFull ?n ?l] => destruct (lr_ReadFull n l) as [[??]|?|?|]; try done end ].
Qed.

Definition keeps_input (a : act) : Prop := forall pc h, sk_in (pc_conn (conn_after a pc h)) = sk_in (pc_conn pc).

Lemma HandleMessage_input hd m pc h :
  every keeps_input hd -> sk_in (pc_conn (HandleMessage hd m pc h).1.1) = sk_in (pc_conn pc).
Proof.
  intros Hk. unfold PeerConn.HandleMessage. destruct (Keepalive m); [done|].
  pose proof (dispatch_spec hd m pc h) as Hs. destruct (dispatch hd m pc h) as [[pc2 h2] e]. cbn [fst pc_conn set_priv].
  unfold dispatch_result in Hs. destruct (protocol_error hd pc m); [by simplify_eq|].
  destruct (is_ext_handshake hd m).
  - destruct (ehm_Decode _ _ _) as [ehm|?|?|]; [|by destruct Hs as [? [= -> _ _]]..].
    destruct Hs as (a & Ha & Hs). specialize (Ha _ Hk (set_remote (set_ExtHS ehm (pc_remote pc)) (open_ext pc)) h).
    unfold conn_after in Ha. by rewrite <- Hs in Ha.
  - destruct Hs as (a & Ha & Hs). specialize (Ha _ Hk (set_remote (remote_after m (pc_remote pc)) pc) h).
    unfold conn_after in Ha. by rewrite <- Hs in Ha.
Qed.

Lemma loop_ends (hd : Handler (H := H)) pc h fuel :
  every keeps_input hd -> (length (sk_in (pc_conn pc)) < fuel)%nat ->
  loopRun DestHashFromBytes hd fuel pc h <> None.
Proof.
  intros Hk. revert pc h. induction fuel as [|f IH]; intros pc h Hf; [lia|]. cbn [loopRun].
  destruct (ReadMsg pc) as [[m pc1]|e|e|] eqn:Er.
  - pose proof (HandleMessage_input hd m pc1 h Hk) as Hi.
    destruct (HandleMessage hd m pc1 h) as [[pc2 h2] [e|]]; [done|]. apply IH. cbn in Hi. rewrite Hi.
    unfold ReadMsg in Er. inv_bind. apply Decode_shorter in E. cbn. lia.
  - case_decide; [done|]. by destruct (String.index 0 "closed" e).
  - case_decide; [done|]. by destruct (String.index 0 "closed" e).
  - unfold ReadMsg in Er. inv_nofuel Er; [by apply Message_Decode_fuel in Er|done].
Qed.

Lemma loopRun_mono (hd : Handler (H := H)) f f' pc h o :
  loopRun DestHashFromBytes hd f pc h = Some o -> (f <= f')%nat -> loopRun DestHashFromBytes hd f' pc h = Some o.
Proof.
  revert f' pc h. induction f as [|f IH]; intros [|f'] pc h Hr Hf; try done; [lia|]. cbn [loopRun] in *.
  destruct (ReadMsg pc) as [[m pc1]|?|?|]; try done.
  destruct (HandleMessage hd m pc1 h) as [[pc2 h2] [e|]]; [done|]. apply IH; [done|lia].
Qed.

(** Every encoded message has at least the four bytes of its length. *)
Lemma Encode_length m : (4 <= length (Encode m))%nat.
Proof. unfold Encode. destruct (Keepalive m); [done|]. rewrite length_app, length_be_bytes. lia. Qed.

Lemma stream_length ms : (length ms <= length (concat (map Encode ms)))%nat.
Proof.
  induction ms as [|m ms IH]; cbn [map concat length]; [done|]. rewrite length_app.
  pose proof (Encode_length m). lia.
Qed.

Lemma loop_serves_input ms tail hd pc h :
  every transparent hd -> every never_fails hd ->
  sk_in (pc_conn pc) = concat (map Encode ms) ++ tail -> stops tail -> Forall (sendable (pc_MaxLength pc)) ms ->
  legal hd (ExtBits (pc_ids pc)) (abs pc) (map carried ms) ->
  exists pc' h', loopRun DestHashFromBytes hd (S (length (sk_in (pc_conn pc)))) pc h = Some (pc', h', None) /\
    sk_in (pc_conn pc') = tail /\ abs pc' = foldl (abs_step hd) (abs pc) (map carried ms).
Proof.
  intros Ht Hn Hin Hst Hok Hl. destruct (loop_serves ms tail hd pc h Ht Hn Hin Hst Hok Hl) as (pc' & h' & Hr & Hs & Ha).
  exists pc', h'. split_and!; [|done|done]. eapply loopRun_mono; [exact Hr|]. rewrite Hin, length_app.
  pose proof (stream_length ms). lia.
Qed.

(** ** Choke and interest, seen from both ends *)
Inductive LocalOp := OpChoke | OpUnchoke | OpInterested | OpNotInterested.

Definition run_op (op : LocalOp) : act :=
  match op with
  | OpChoke => SetChoked None
  | OpUnchoke => SetUnchoked None
  | OpInterested => SetInterested None
  | OpNotInterested => SetNotInterested None
  end.

Fixpoint run_ops (ops : list LocalOp) (pc : PeerConn) (h : H) : PeerConn * H * option string :=
  match ops with
  | [] => (pc, h, None)
  | op :: ops' => match run_op op pc h with (pc1, h1, None) => run_ops ops' pc1 h1 | o => o end
  end.

(** The messages of the four state changes. *)
Definition state_msg (m : Message) : Prop :=
  exists t, m = mtype t /\ t ∈ [MTypeChoke; MTypeUnchoke; MTypeInterested; MTypeNotInterested].

Definition synced (l : Local) (a : Abs) : Prop := a_choked a = Choked l /\ a_interested a = Interested l.

Lemma run_op_ok op pc h :
  sk_fail (pc_conn pc) = None ->
  exists pc1 ms, run_op op pc h = (pc1, h, None) /\
    sk_out (pc_conn pc1) = sk_out (pc_conn pc) ++ concat (map Encode ms) /\ sk_fail (pc_conn pc1) = None /\
    Forall state_msg ms /\
    (forall hd a, synced (pc_local pc) a -> synced (pc_local pc1) (foldl (abs_step hd) a ms)).
Proof.
  intros Hf. destruct pc as [[i o f] c ml ids [ch it] r p]. cbn in Hf. subst f.
  assert (forall t, t ∈ [MTypeChoke; MTypeUnchoke; MTypeInterested; MTypeNotInterested] -> Forall state_msg [mtype t]) as Hst
    by (intros t Ht; constructor; [by exists t|constructor]).
  destruct op; unfold run_op, SetChoked, SetUnchoked, SetInterested, SetNotInterested; cbn [pc_local Choked Interested];
    [destruct ch | destruct ch | destruct it | destruct it]; cbn [negb];
    first [ eexists _, []; split; [reflexivity|]; cbn; rewrite app_nil_r; done
          | unfold on_success, SendChoke, SendUnchoke, SendInterested, SendNotInterested, WriteMsg;
            eexists _, [mtype _]; split; [reflexivity|]; cbn [pc_conn set_local set_conn sk_out sk_fail map concat];
            rewrite app_nil_r; split; [reflexivity|]; split; [done|]; split; [apply Hst; set_solver|];
            intros hd a [H1 H2]; done ].
Qed.

Lemma run_ops_ok ops pc h :
  sk_fail (pc_conn pc) = None ->
  exists pc1 ms, run_ops ops pc h = (pc1, h, None) /\
    sk_out (pc_conn pc1) = sk_out (pc_conn pc) ++ concat (map Encode ms) /\
    Forall state_msg ms /\
    (forall hd a, synced (pc_local pc) a -> synced (pc_local pc1) (foldl (abs_step hd) a ms)).
Proof.
  revert pc. induction ops as [|op ops IH]; intros pc Hf.
  { exists pc, []. cbn. by rewrite app_nil_r. }
  destruct (run_op_ok op pc h Hf) as (pc1 & ms1 & E1 & Ho1 & Hf1 & Hm1 & Hs1).
  destruct (IH pc1 Hf1) as (pc2 & ms2 & E2 & Ho2 & Hm2 & Hs2).
  exists pc2, (ms1 ++ ms2). cbn [run_ops]. rewrite E1. split_and!; [done| |by apply Forall_app|].
  - rewrite Ho2, Ho1, map_app, concat_app, app_assoc. done.
  - intros hd a Ha. rewrite foldl_app. auto.
Qed.

Lemma state_msg_facts hd bits p m ml :
  state_msg m -> (ml = 0 \/ 1 <= ml) ->
  sendable ml m /\ carried m = m /\ refusal hd bits p m = None /\ is_ext_handshake hd m = false.
Proof.
  intros (t & -> & Ht) Hml. repeat (apply elem_of_cons in Ht as [-> |Ht]); [..|by apply elem_of_nil in Ht];
    (split; [unfold sendable, msg_typed, fits; vm_compute len; cbn; unfold is_byte; repeat split; try lia; done|done]).
Qed.

Lemma state_msgs_legal hd bits a ms ml :
  Forall state_msg ms -> (ml = 0 \/ 1 <= ml) ->
  Forall (sendable ml) ms /\ map carried ms = ms /\ legal hd bits a ms.
Proof.
  intros Hm Hml. revert a. induction Hm as [|m ms Hm _ IH]; intros a; [done|].
  destruct (state_msg_facts hd bits (a_priv a) m ml Hm Hml) as (H1 & H2 & H3 & H4).
  destruct (IH (abs_step hd a m)) as (I1 & I2 & I3).
  split_and!; [by constructor|cbn [map]; by rewrite H2, I2|]. cbn [legal]. split; [|done].
  intros _. rewrite H4. done.
Qed.

Lemma handle_all_refines hd ms pc h pc' h' :
  every transparent hd -> pieces_inv pc -> handle_all hd ms pc h = (pc', h', None) ->
  abs pc' = foldl (abs_step hd) (abs pc) ms /\ pieces_inv pc'.
Proof.
  intros Ht. revert pc h. induction ms as [|m ms IH]; intros pc h Hi Hr; [by cbn in Hr; simplify_eq|].
  apply handle_all_cons in Hr as (pc1 & h1 & E1 & Hr). cbn [foldl]. destruct (Keepalive m) eqn:Hk.
  - rewrite Keepalive_step in E1 by done. simplify_eq. unfold abs_step at 2. rewrite Hk. by eapply IH.
  - pose proof (HandleMessage_refines hd m pc h Ht Hk) as Hs. rewrite E1 in Hs. unfold step_result in Hs.
    destruct (protocol_error hd pc m); [by destruct Hs|]. cbn [fst snd] in Hs. destruct Hs as (<- & Hp & _).
    eapply IH; [by apply Hp|done].
Qed.

Lemma every_noop (P : act -> Prop) : P noop -> every P NoopAll.
Proof. intros Hp. repeat split; intros; simplify_eq/=; repeat split; intros; done. Qed.
End Facts.

(** ** The properties *)

(** In every conversation the connection accepts, a Bitfield, HaveAll or
    HaveNone message is preceded by keepalives only: it is refused once any
    other message has been handled. The handler is any that cannot write the
    connection's unexported flags. *)
Theorem first_message_rule D {H} (hd : Handler (H := H)) ms pc h pc' h' :
  every keeps_priv hd -> handle_all D hd ms pc h = (pc', h', None) ->
  forall i m, ms !! i = Some m -> is_opening m = true ->
  forall j m', (j < i)%nat -> ms !! j = Some m' -> Keepalive m' = true.
Proof. apply first_rule_lemma. Qed.

Definition demo_D (b : bytes) : res bytes := Ok b.
Definition demo_bits : bytes := [0; 0; 0; 0; 0; 16; 0; 5].
Definition demo_pc (inp : bytes) : PeerConn :=
  set_ids (MkIds (replicate 20 1) (replicate 20 2) demo_bits (replicate 20 3) demo_bits)
    (NewPeerConn (MkSock inp [] None) (replicate 20 2) (replicate 20 1)).
Definition keepalive_msg : Message := set_Keepalive zeroMessage true.
Definition bitfield_msg : Message := set_BitField (mtype MTypeBitField) [192].

Definition after_handling (ms : list Message) (pc : PeerConn) : PeerConn :=
  (handle_all demo_D (NoopAll (H := unit)) ms pc ()).1.1.

Lemma first_message_rule_witness :
  handle_all demo_D (NoopAll (H := unit)) [keepalive_msg; bitfield_msg] (demo_pc []) () =
    (after_handling [keepalive_msg; bitfield_msg] (demo_pc []), (), None) /\
  (forall j m', (j < 1)%nat -> [keepalive_msg; bitfield_msg] !! j = Some m' -> Keepalive m' = true).
Proof.
  assert (handle_all demo_D (NoopAll (H := unit)) [keepalive_msg; bitfield_msg] (demo_pc []) () =
    (after_handling [keepalive_msg; bitfield_msg] (demo_pc []), (), None)) as E by reflexivity.
  split; [exact E|]. intros j m' Hj Hm.
  apply (first_message_rule demo_D NoopAll [keepalive_msg; bitfield_msg] (demo_pc []) () _ () (every_noop keeps_priv ltac:(done)) E
    1%nat bitfield_msg eq_refl eq_refl j m' Hj Hm).
Defined.

(** In every conversation accepted by a connection whose handler takes
    extended messages itself, the first extended message is the extended
    handshake and no later one is: a payload before it and a second handshake
    are both refused. *)
Theorem ext_handshake_order D {H} (hd : Handler (H := H)) ms pc h pc' h' :
  every keeps_priv hd -> has_bep10 hd = true -> extHandshake (pc_priv pc) = false ->
  handle_all D hd ms pc h = (pc', h', None) ->
  match filter (fun m => is_extended m = true) ms with
  | [] => True
  | m :: later => ExtendedID m = ExtendedIDHandshake /\ Forall (fun m => ExtendedID m <> ExtendedIDHandshake) later
  end.
Proof.
  intros Hk H10 He Hr. pose proof (ext_order_lemma D hd ms pc h pc' h' Hk H10 Hr) as Ho.
  unfold ext_order in Ho. by rewrite He in Ho.
Qed.

Definition ext_msgs : list Message :=
  [set_Extended (mtype MTypeExtended) 0 (bs "d1:md7:i2p_pexi2eee"); mtype MTypeUnchoke;
   set_Extended (mtype MTypeExtended) 2 (bs "de")].

Lemma ext_handshake_order_witness :
  handle_all demo_D (NoopAll (H := unit)) ext_msgs (demo_pc []) () = (after_handling ext_msgs (demo_pc []), (), None) /\
  match filter (fun m => is_extended m = true) ext_msgs with
  | [] => True
  | m :: later => ExtendedID m = ExtendedIDHandshake /\ Forall (fun m => ExtendedID m <> ExtendedIDHandshake) later
  end.
Proof.
  assert (handle_all demo_D (NoopAll (H := unit)) ext_msgs (demo_pc []) () = (after_handling ext_msgs (demo_pc []), (), None))
    as E by (vm_compute; reflexivity).
  split; [exact E|].
  apply (ext_handshake_order demo_D NoopAll ext_msgs (demo_pc []) () _ () (every_noop keeps_priv ltac:(done)) eq_refl eq_refl E).
Defined.

(** C2: Refinement: under a handler that leaves the peer's state to the
    connection, an accepted conversation leaves exactly the abstract state its
    messages describe (choke, interest, the sets of allowed and suggested
    pieces, bit field, extended handshake), each message updating only the
    part its type is about; the stored piece lists stay sorted and free of
    duplicates. *)
Theorem conversation_refines D {H} (hd : Handler (H := H)) ms pc h pc' h' :
  every transparent hd -> pieces_inv pc -> handle_all D hd ms pc h = (pc', h', None) ->
  abs pc' = foldl (abs_step D hd) (abs pc) ms /\ pieces_inv pc'.
Proof. apply handle_all_refines. Qed.

Definition fast_msgs : list Message :=
  [bitfield_msg; set_Index (mtype MTypeAllowedFast) 7; set_Index (mtype MTypeAllowedFast) 3; keepalive_msg;
   set_Index (mtype MTypeAllowedFast) 7; mtype MTypeUnchoke; mtype MTypeInterested].

Lemma conversation_refines_witness :
  abs (after_handling fast_msgs (demo_pc [])) = foldl (abs_step demo_D (NoopAll (H := unit))) (abs (demo_pc [])) fast_msgs /\
  Fasts (pc_remote (after_handling fast_msgs (demo_pc []))) = [3; 7].
Proof.
  split; [|vm_compute; reflexivity].
  apply (conversation_refines demo_D NoopAll fast_msgs (demo_pc []) () _ ()).
  - apply every_noop. repeat split.
  - split; constructor.
  - vm_compute. reflexivity.
Defined.

(** C14: the server's loop over a stream of encoded messages. It reads and handles
    every message up to the first Suggest or AllowedFast message, or up to the
    end of the input, there ends without an error (at the end with nothing left to read), and
    leaves the state the messages it read describe. (A Suggest or AllowedFast message is encoded
    without its index, so the decoder takes it for the end of the input: it and
    what follows it are not handled.) The conditions: the fields of the messages
    have their widths and their encodings fit the connection's limit; the
    conversation is one the protocol allows; and the callbacks of the handler
    return no error and change neither the state nor the input of the
    connection. *)
Theorem server_serves_stream D {H} (hd : Handler (H := H)) ms tail pc h :
  every transparent hd -> every never_fails hd ->
  sk_in (pc_conn pc) = concat (map Encode ms) ++ tail -> stops tail -> Forall (sendable (pc_MaxLength pc)) ms ->
  legal D hd (ExtBits (pc_ids pc)) (abs pc) (map carried ms) ->
  exists pc' h', loopRun D hd (S (length (sk_in (pc_conn pc)))) pc h = Some (pc', h', None) /\
    (tail = [] -> sk_in (pc_conn pc') = []) /\ abs pc' = foldl (abs_step D hd) (abs pc) (map carried ms).
Proof. intros. destruct (loop_serves_input D ms tail hd pc h) as (pc' & h' & ? & E & ?); [done..|]. exists pc', h'. split_and!; [done|by intros <-|done]. Qed.

Definition stream_msgs : list Message :=
  [bitfield_msg; mtype MTypeUnchoke; keepalive_msg; set_Piece (set_Index (mtype MTypePiece) 4) [1; 2; 3]].

(** An AllowedFast message and one more that is not read. *)
Definition stream_tail : bytes := Encode (set_Index (mtype MTypeAllowedFast) 7) ++ Encode (mtype MTypeChoke).
Definition stream_pc : PeerConn := demo_pc (concat (map Encode stream_msgs) ++ stream_tail).

Lemma server_serves_stream_witness :
  exists pc' h', loopRun demo_D (NoopAll (H := unit)) (S (length (sk_in (pc_conn stream_pc)))) stream_pc () =
      Some (pc', h', None) /\
    (stream_tail = [] -> sk_in (pc_conn pc') = []) /\ abs pc' = foldl (abs_step demo_D (NoopAll (H := unit))) (abs stream_pc) (map carried stream_msgs).
Proof.
  apply (server_serves_stream demo_D NoopAll stream_msgs stream_tail stream_pc ()).
  - apply every_noop. repeat split.
  - apply every_noop. done.
  - reflexivity.
  - right. exists (set_Index (mtype MTypeAllowedFast) 7), (Encode (mtype MTypeChoke)). split_and!; [reflexivity|reflexivity|by right|reflexivity].
  - repeat constructor; cbn; try lia; try done; vm_compute; intuition congruence.
  - repeat split; intros;
      first [vm_compute; reflexivity | exfalso; match goal with Hx : _ = _ |- _ => vm_compute in Hx; discriminate Hx end].
Defined.

(** The server's loop ends on every input, whatever bytes arrive: each
    round reads at least the length field, so one more round than there are
    bytes is enough, for any handler that does not refill the input. *)
Theorem server_loop_terminates D {H} (hd : Handler (H := H)) pc h :
  every keeps_input hd -> loopRun D hd (S (length (sk_in (pc_conn pc)))) pc h <> None.
Proof. intros Hk. apply loop_ends; [done|lia]. Qed.

Lemma server_loop_terminates_witness :
  loopRun demo_D (NoopAll (H := unit)) 8 (demo_pc [0; 0; 0; 9; 7; 255; 255]) () <> None.
Proof.
  apply (server_loop_terminates demo_D (NoopAll (H := unit)) (demo_pc [0; 0; 0; 9; 7; 255; 255]) ()).
  apply every_noop. done.
Defined.

(** Choke and interest agree at both ends: after any sequence of
    SetChoked, SetUnchoked, SetInterested and SetNotInterested on a new
    connection, the peer that reads exactly the bytes written holds the same
    choke and interest for us as we do. *)
Theorem choke_state_agrees D {H} (hd : Handler (H := H)) ops mine h peer hp :
  every transparent hd -> every never_fails hd ->
  sk_out (pc_conn mine) = [] -> sk_fail (pc_conn mine) = None ->
  pc_MaxLength peer = 0 \/ 1 <= pc_MaxLength peer -> synced (pc_local mine) (abs peer) ->
  exists mine', run_ops (H := H) ops mine h = (mine', h, None) /\
    (sk_in (pc_conn peer) = sk_out (pc_conn mine') ->
     exists peer' hp', loopRun D hd (S (length (sk_in (pc_conn peer)))) peer hp = Some (peer', hp', None) /\
       PeerChoked (pc_remote peer') = Choked (pc_local mine') /\
       PeerInterested (pc_remote peer') = Interested (pc_local mine')).
Proof.
  intros Ht Hn Ho Hf Hml Hs. destruct (run_ops_ok D ops mine h Hf) as (mine' & ms & Er & Hout & Hm & Hsync).
  exists mine'. split; [done|]. intros Hin. rewrite Ho, app_nil_l in Hout.
  destruct (state_msgs_legal D hd (ExtBits (pc_ids peer)) (abs peer) ms (pc_MaxLength peer) Hm Hml) as (H1 & H2 & H3).
  destruct (loop_serves_input D ms [] hd peer hp Ht Hn) as (peer' & hp' & Hr & _ & Ha); [by rewrite Hin, app_nil_r|by left|done|by rewrite H2|].
  exists peer', hp'. split; [done|]. rewrite H2 in Ha. destruct (Hsync hd (abs peer) Hs) as [S1 S2].
  rewrite <- Ha in S1, S2. done.
Qed.

Definition demo_ops : list LocalOp := [OpUnchoke; OpInterested; OpUnchoke; OpChoke; OpNotInterested; OpInterested].
Definition demo_written : bytes :=
  sk_out (pc_conn (run_ops (H := unit) demo_ops (demo_pc []) ()).1.1).

Definition written_pc : PeerConn := demo_pc demo_written.

Lemma choke_state_agrees_witness :
  exists mine', run_ops (H := unit) demo_ops (demo_pc []) () = (mine', (), None) /\
    (sk_in (pc_conn written_pc) = sk_out (pc_conn mine') ->
     exists peer' hp', loopRun demo_D (NoopAll (H := unit)) (S (length (sk_in (pc_conn written_pc)))) written_pc () =
         Some (peer', hp', None) /\
       PeerChoked (pc_remote peer') = Choked (pc_local mine') /\
       PeerInterested (pc_remote peer') = Interested (pc_local mine')).
Proof.
  apply (choke_state_agrees demo_D NoopAll demo_ops (demo_pc []) () written_pc ()).
  - apply every_noop. repeat split.
  - apply every_noop. done.
  - reflexivity.
  - reflexivity.
  - right. vm_compute. congruence.
  - split; reflexivity.
Defined.

End PeerConnFacts.
