(* ===== verification/Pex.v ===== *)
(** * Peer exchange

    Models [src/peerprotocol/pex_handler.go]: [DefaultPEXHandler], which
    gathers the peers added and dropped per connection and turns them into
    rate-limited messages, and the two helpers that connect a [PEXHandler] to a
    peer connection. A connection is named by the string of its remote address,
    and the clock is an argument. *)

From S2P Require Import Prelude Strconv Bencode BencodeFacts BencodeTyped Pieces PeerMessage Extension PeerConn.
Import PeerMessage Extension PeerConn.

Module Pex.

Record DefaultPEXHandler := MkPEX {
  pexInterval : Z;
  lastPEXSent : gmap bytes Z;
  addedPeers : gmap bytes (list CompactPeer);
  droppedPeers : gmap bytes (list CompactPeer)
}.

Definition NewDefaultPEXHandler (interval : Z) : DefaultPEXHandler := MkPEX interval ∅ ∅ ∅.

Definition HandlePEXMessage (msg : UtPexExtendedMsg) : option string :=
  if decide (len (px_Added msg) <> len (px_AddedF msg)) then Some "pex: added peers count doesn't match flags count"%string
  else if decide (len (px_Added6 msg) <> len (px_Added6F msg)) then
    Some "pex: added6 peers count doesn't match flags count"%string
  else None.

(** The loop over the added peers. *)
Definition add_to_msg (msg : UtPexExtendedMsg) (peer : CompactPeer) : UtPexExtendedMsg :=
  if decide (len (cp_IP peer) = 4) then
    MkUtPex (px_Added msg ++ [peer]) (px_AddedF msg ++ [0]) (px_Added6 msg) (px_Added6F msg)
      (px_Dropped msg) (px_Dropped6 msg)
  else if decide (len (cp_IP peer) = 16) then
    MkUtPex (px_Added msg) (px_AddedF msg) (px_Added6 msg ++ [peer]) (px_Added6F msg ++ [0])
      (px_Dropped msg) (px_Dropped6 msg)
  else msg.

Definition too_soon (h : DefaultPEXHandler) (peerKey : bytes) (now : Z) : bool :=
  match lastPEXSent h !! peerKey with
  | Some lastSent => bool_decide (now - lastSent < pexInterval h)
  | None => false
  end.

Definition GeneratePEXMessage (peerKey : bytes) (now : Z) (h : DefaultPEXHandler)
    : option UtPexExtendedMsg * DefaultPEXHandler :=
  if too_soon h peerKey now then (None, h)
  else
    match addedPeers h !! peerKey, droppedPeers h !! peerKey with
    | None, None => (None, h)
    | added, dropped =>
        let msg := foldl add_to_msg (MkUtPex [] [] [] [] (default [] dropped) []) (default [] added) in
        (Some msg, MkPEX (pexInterval h) (<[peerKey := now]> (lastPEXSent h))
                     (delete peerKey (addedPeers h)) (delete peerKey (droppedPeers h)))
    end.

Definition AddPeer (peerKey : bytes) (peer : CompactPeer) (h : DefaultPEXHandler) : DefaultPEXHandler :=
  MkPEX (pexInterval h) (lastPEXSent h)
    (<[peerKey := default [] (addedPeers h !! peerKey) ++ [peer]]> (addedPeers h)) (droppedPeers h).

Definition DropPeer (peerKey : bytes) (peer : CompactPeer) (h : DefaultPEXHandler) : DefaultPEXHandler :=
  MkPEX (pexInterval h) (lastPEXSent h) (addedPeers h)
    (<[peerKey := default [] (droppedPeers h !! peerKey) ++ [peer]]> (droppedPeers h)).

(** ** On a connection

    A [PEXHandler] with state [P]: what it generates for a connection, and
    what it does with a message received. *)
Record PEXHandler (P : Type) := MkPEXHandler {
  gen : PeerConn -> P -> res (option UtPexExtendedMsg) * P;
  recv : PeerConn -> UtPexExtendedMsg -> P -> option string * P
}.
Arguments gen {P} _.
Arguments recv {P} _.

Section OnConnection.
Context (DestHashFromBytes : bytes -> res bytes) {P : Type}.
Context (OnWriteMsg : option (Message -> PeerConn -> P -> PeerConn * P * option string)).

Definition SendPEXMessage (handler : PEXHandler P) (conn : PeerConn) (p : P) : PeerConn * P * option string :=
  match Bencode.assoc_get ExtendedMessageNamePex (default [] (ehm_M (pc_ExtendedHandshakeMsg (pc_remote conn)))) with
  | None => (conn, p, None)
  | Some pexID =>
      if decide (pexID = 0) then (conn, p, None)
      else
        match gen handler conn p with
        | (Ok None, p1) => (conn, p1, None)
        | (Ok (Some pexMsg), p1) =>
            match Bencode.EncodeBytes (px_val DestHashFromBytes pexMsg) with
            | Ok payload => WriteMsg OnWriteMsg (set_Extended (mtype MTypeExtended) pexID payload) conn p1
            | Err e | Panic e => (conn, p1, Some (String.append "failed to encode PEX message: " e))
            | NoFuel => (conn, p1, Some ErrUnexpectedEOF)
            end
        | (Err e, p1) | (Panic e, p1) => (conn, p1, Some (String.append "failed to generate PEX message: " e))
        | (NoFuel, p1) => (conn, p1, Some ErrUnexpectedEOF)
        end
  end.

Definition HandlePEXPayload (handler : PEXHandler P) (conn : PeerConn) (payload : bytes) (p : P) : option string * P :=
  match px_DecodeFromPayload DestHashFromBytes zeroPex payload with
  | Ok pexMsg => recv handler conn pexMsg p
  | Err e | Panic e => (Some (String.append "failed to decode PEX message: " e), p)
  | NoFuel => (Some ErrUnexpectedEOF, p)
  end.
End OnConnection.

(** ** What is announced *)
Inductive PexEvent := Added (k : bytes) (p : CompactPeer) | Dropped (k : bytes) (p : CompactPeer).

Definition record (h : DefaultPEXHandler) (e : PexEvent) : DefaultPEXHandler :=
  match e with Added k p => AddPeer k p h | Dropped k p => DropPeer k p h end.

Definition added_for (k : bytes) (evs : list PexEvent) : list CompactPeer :=
  omap (fun e => match e with Added k' p => if decide (k' = k) then Some p else None | _ => None end) evs.
Definition dropped_for (k : bytes) (evs : list PexEvent) : list CompactPeer :=
  omap (fun e => match e with Dropped k' p => if decide (k' = k) then Some p else None | _ => None end) evs.

Definition of_len (n : Z) (l : list CompactPeer) : list CompactPeer := filter (fun p => len (cp_IP p) = n) l.

Lemma add_to_msg_fold l msg :
  let msg' := foldl add_to_msg msg l in
  px_Added msg' = px_Added msg ++ of_len 4 l /\ px_AddedF msg' = px_AddedF msg ++ replicate (length (of_len 4 l)) 0 /\
  px_Added6 msg' = px_Added6 msg ++ of_len 16 l /\ px_Added6F msg' = px_Added6F msg ++ replicate (length (of_len 16 l)) 0 /\
  px_Dropped msg' = px_Dropped msg /\ px_Dropped6 msg' = px_Dropped6 msg.
Proof.
  revert msg. induction l as [|p l IH]; intros msg; cbn [foldl].
  { cbn. by rewrite !app_nil_r. }
  unfold of_len in *. rewrite !filter_cons. destruct (IH (add_to_msg msg p)) as (H1 & H2 & H3 & H4 & H5 & H6).
  rewrite H1, H2, H3, H4, H5, H6. unfold add_to_msg.
  repeat case_decide; try lia; cbn; rewrite <- ?app_assoc; done.
Qed.

Lemma record_key k evs h :
  let h' := foldl record h evs in
  pexInterval h' = pexInterval h /\ lastPEXSent h' = lastPEXSent h /\
  default [] (addedPeers h' !! k) = default [] (addedPeers h !! k) ++ added_for k evs /\
  default [] (droppedPeers h' !! k) = default [] (droppedPeers h !! k) ++ dropped_for k evs /\
  (is_Some (addedPeers h' !! k) <-> is_Some (addedPeers h !! k) \/ added_for k evs <> []) /\
  (is_Some (droppedPeers h' !! k) <-> is_Some (droppedPeers h !! k) \/ dropped_for k evs <> []).
Proof.
  revert h. induction evs as [|e evs IH]; intros h; cbn [foldl].
  { cbn. rewrite !app_nil_r. split_and!; try done; split; [by left|by intros [?|?]|by left|by intros [?|?]]. }
  destruct (IH (record h e)) as (H1 & H2 & H3 & H4 & H5 & H6). rewrite H1, H2, H3, H4, H5, H6.
  unfold added_for, dropped_for. destruct e as [k' p|k' p]; cbn [record AddPeer DropPeer pexInterval lastPEXSent
    addedPeers droppedPeers omap list_omap]; case_decide; subst;
    rewrite ?lookup_insert_eq, ?lookup_insert_ne by done; split_and!;
    first [reflexivity | by cbn; rewrite <- app_assoc | split; intros _; [right; discriminate|left; eexists; reflexivity]].
Qed.

(** What a peer-exchange message announces: when neither an added nor a
    dropped peer was pending for a connection, then after any interleaving of
    AddPeer and DropPeer calls for any connections, the message generated for
    this one carries exactly its dropped peers and its added peers with 4-byte
    and 16-byte addresses, in order and each with a flag, so the receiving
    handler accepts it; peers with any other address, 32-byte I2P
    destinations among them, are lost; and the pending lists are empty again. *)
Theorem pex_generate_complete k evs now h :
  addedPeers h !! k = None -> droppedPeers h !! k = None ->
  added_for k evs <> [] \/ dropped_for k evs <> [] -> too_soon h k now = false ->
  exists msg h', GeneratePEXMessage k now (foldl record h evs) = (Some msg, h') /\
    px_Added msg = of_len 4 (added_for k evs) /\ px_Added6 msg = of_len 16 (added_for k evs) /\
    px_Dropped msg = dropped_for k evs /\ px_Dropped6 msg = [] /\
    HandlePEXMessage msg = None /\
    addedPeers h' !! k = None /\ droppedPeers h' !! k = None /\ lastPEXSent h' !! k = Some now.
Proof.
  intros Ha Hd Hne Hs. destruct (record_key k evs h) as (H1 & H2 & H3 & H4 & H5 & H6).
  rewrite Ha, Hd in *. cbn [default app] in H3, H4.
  unfold GeneratePEXMessage, too_soon in *. rewrite H1, H2, Hs.
  set (h' := foldl record h evs) in *.
  set (msg := foldl add_to_msg (MkUtPex [] [] [] [] (dropped_for k evs) []) (added_for k evs)).
  exists msg, (MkPEX (pexInterval h) (<[k := now]> (lastPEXSent h)) (delete k (addedPeers h')) (delete k (droppedPeers h'))).
  destruct (add_to_msg_fold (added_for k evs) (MkUtPex [] [] [] [] (dropped_for k evs) [])) as (M1 & M2 & M3 & M4 & M5 & M6).
  fold msg in M1, M2, M3, M4, M5, M6. cbn [px_Added px_AddedF px_Added6 px_Added6F px_Dropped px_Dropped6 app] in *.
  split.
  - unfold msg. rewrite <- H3, <- H4.
    destruct (addedPeers h' !! k) eqn:Ea, (droppedPeers h' !! k) eqn:Ed; [reflexivity..|].
    exfalso. apply (is_Some_None (A := list CompactPeer)).
    destruct Hne; [apply H5|apply H6]; by right.
  - split_and!; try done.
    + unfold HandlePEXMessage. rewrite M1, M2, M3, M4, !len_replicate. unfold len. rewrite !decide_False by lia. done.
    + apply lookup_delete_eq.
    + apply lookup_delete_eq.
    + apply lookup_insert_eq.
Qed.

Definition demo_events : list PexEvent :=
  [Added [1] (MkCompactPeer [10; 0; 0; 1] 80); Added [2] (MkCompactPeer [10; 0; 0; 9] 80);
   Added [1] (MkCompactPeer (replicate 32 7) 81); Dropped [1] (MkCompactPeer [10; 0; 0; 2] 82);
   Added [1] (MkCompactPeer (replicate 16 4) 83)].

Lemma pex_generate_complete_witness :
  exists msg h', GeneratePEXMessage [1] 1000 (foldl record (NewDefaultPEXHandler 60) demo_events) = (Some msg, h') /\
    px_Added msg = of_len 4 (added_for [1] demo_events) /\ px_Added6 msg = of_len 16 (added_for [1] demo_events) /\
    px_Dropped msg = dropped_for [1] demo_events /\ px_Dropped6 msg = [] /\
    HandlePEXMessage msg = None /\
    addedPeers h' !! [1] = None /\ droppedPeers h' !! [1] = None /\ lastPEXSent h' !! [1] = Some 1000.
Proof.
  apply (pex_generate_complete [1] demo_events 1000 (NewDefaultPEXHandler 60));
    [reflexivity|reflexivity|left; vm_compute; discriminate|reflexivity].
Defined.

End Pex.
