(* ===== verification/Sha1.v ===== *)
(** * SHA-1 and the allowed-fast set

    [crypto/sha1] as the code uses it ([sha1.Sum] over a byte slice), written
    out so that definitions that hash stay executable, and
    [src/peerprotocol/fastset.go], which draws piece indexes from a chain of
    digests. *)

From S2P Require Import Prelude.

Module Sha1.

Definition rotl (n x : Z) : Z := u32 (Z.lor (Z.shiftl x n) (Z.shiftr x (32 - n))).

(** Message padding: a one bit, zeros, and the length in bits. *)
Definition pad (m : bytes) : bytes :=
  m ++ [128] ++ replicate (Z.to_nat ((55 - len m) mod 64)) 0 ++ be_bytes 8 (8 * len m).

Fixpoint words (n : nat) (b : bytes) : list Z :=
  match n with O => [] | S n' => be_val (take 4 b) :: words n' (drop 4 b) end.

(** The 80 words of the schedule, latest first. *)
Fixpoint expand (n : nat) (w : list Z) : list Z :=
  match n with
  | O => w
  | S n' => expand n' (rotl 1 (Z.lxor (Z.lxor (nth 2 w 0) (nth 7 w 0)) (Z.lxor (nth 13 w 0) (nth 15 w 0))) :: w)
  end.

Definition f_k (t b c d : Z) : Z * Z :=
  if decide (t < 20) then (Z.lor (Z.land b c) (Z.land (Z.lxor b 4294967295) d), 1518500249)
  else if decide (t < 40) then (Z.lxor (Z.lxor b c) d, 1859775393)
  else if decide (t < 60) then (Z.lor (Z.lor (Z.land b c) (Z.land b d)) (Z.land c d), 2400959708)
  else (Z.lxor (Z.lxor b c) d, 3395469782).

Definition state := (Z * Z * Z * Z * Z)%type.

Fixpoint rounds (t : Z) (ws : list Z) (s : state) : state :=
  match ws with
  | [] => s
  | w :: ws' =>
      let '(a, b, c, d, e) := s in
      let '(f, k) := f_k t b c d in
      rounds (t + 1) ws' (u32 (rotl 5 a + f + e + k + w), a, rotl 30 b, c, d)
  end.

Definition block (s : state) (b : bytes) : state :=
  let ws := reverse (expand 64 (reverse (words 16 b))) in
  let '(a, b, c, d, e) := s in
  let '(a', b', c', d', e') := rounds 0 ws s in
  (u32 (a + a'), u32 (b + b'), u32 (c + c'), u32 (d + d'), u32 (e + e')).

Fixpoint blocks (n : nat) (m : bytes) (s : state) : state :=
  match n with O => s | S n' => blocks n' (drop 64 m) (block s (take 64 m)) end.

Definition Sum (m : bytes) : bytes :=
  let p := pad m in
  let '(a, b, c, d, e) :=
    blocks (length p / 64) p (1732584193, 4023233417, 2562383102, 271733878, 3285377520) in
  be_bytes 4 a ++ be_bytes 4 b ++ be_bytes 4 c ++ be_bytes 4 d ++ be_bytes 4 e.

Lemma length_Sum m : length (Sum m) = 20%nat.
Proof. unfold Sum. destruct (blocks _ _ _) as [[[[a b] c] d] e]. by rewrite !length_app, !length_be_bytes. Qed.

Lemma Sum_ok m : bytes_ok (Sum m).
Proof. unfold Sum. destruct (blocks _ _ _) as [[[[a b] c] d] e]. rewrite !Forall_app. auto 10 with go_db. Qed.

(** The digests of the empty string and of "abc" (FIPS 180). *)
Example Sum_empty : Sum [] = [218; 57; 163; 238; 94; 107; 75; 13; 50; 85; 191; 239; 149; 96; 24; 144; 175; 216; 7; 9].
Proof. vm_compute. reflexivity. Qed.
Example Sum_abc : Sum (bs "abc") =
  [169; 153; 62; 54; 71; 6; 129; 106; 186; 62; 37; 113; 120; 80; 194; 108; 156; 208; 216; 157].
Proof. vm_compute. reflexivity. Qed.

End Sha1.

Module FastSet.
Import Sha1.

(** [net.IP.To4], nil as [None]. *)
Definition To4 (ip : bytes) : option bytes :=
  if decide (len ip = 4) then Some ip
  else if decide (len ip = 16 /\ take 12 ip = replicate 10 0 ++ [255; 255]) then Some (drop 12 ip)
  else None.

(** The first input of the chain. *)
Definition fast_seed (ip infohash : bytes) : bytes :=
  let ip := default ip (To4 ip) in
  if decide (len ip = 4) then take 3 ip ++ [0] ++ infohash
  else map (fun b => Z.land b 255) ip ++ infohash.

Definition uint32Contains (ss : list Z) (s : Z) : bool := bool_decide (s ∈ ss).

(** The inner loop, for the indexes [i .. 4] of the digest [x]. *)
Fixpoint draw (n i : nat) (x : bytes) (sz k : Z) (set : list Z) (cur : Z) : res (list Z * Z) :=
  match n with
  | O => Ok (set, cur)
  | S n' =>
      if decide (cur < k) then
        let y := be_val (take 4 (drop (i * 4) x)) in
        if decide (sz = 0) then Panic "integer divide by zero"
        else
          let index := y mod sz in
          if uint32Contains set index then draw n' (S i) x sz k set cur
          else draw n' (S i) x sz k (<[Z.to_nat cur := index]> set) (cur + 1)
      else Ok (set, cur)
  end.

Fixpoint fill (fuel : nat) (x : bytes) (sz k : Z) (set : list Z) (cur : Z) : res (list Z) :=
  match fuel with
  | O => NoFuel
  | S f =>
      if decide (cur < k) then
        let x' := Sum x in
        '(set', cur') ← draw 5 0 x' sz k set cur; fill f x' sz k set' cur'
      else Ok set
  end.

(** [fuel] bounds the number of digests computed. *)
Definition GenerateAllowedFastSet (fuel : nat) (set : list Z) (sz : Z) (ip infohash : bytes) : res (list Z) :=
  fill fuel (fast_seed ip infohash) sz (len set) set 0.

(** The example of BEP 6. *)
Example bep6_vector :
  GenerateAllowedFastSet 3 (replicate 7 0) 1313 [80; 4; 4; 200] (replicate 20 170) =
  Ok [1059; 431; 808; 1217; 287; 376; 1188].
Proof. vm_compute. reflexivity. Qed.

(** The drawn indexes, followed by the zeros the set was made with. *)
Definition fast_inv (sz k : Z) (set : list Z) (cur : Z) : Prop :=
  exists done, set = done ++ replicate (Z.to_nat (k - cur)) 0 /\ len done = cur /\ 0 <= cur <= k /\
    NoDup done /\ Forall (fun i => 0 < i < sz) done.

Lemma fast_inv_draw sz k set cur y :
  0 < sz -> cur < k -> 0 <= y -> fast_inv sz k set cur -> uint32Contains set (y mod sz) = false ->
  fast_inv sz k (<[Z.to_nat cur := y mod sz]> set) (cur + 1).
Proof.
  intros Hsz Hk Hy (d & -> & Hd & Hc & Hnd & Hr) Hn. unfold uint32Contains in Hn.
  apply bool_decide_eq_false in Hn. pose proof (Z.mod_pos_bound y sz Hsz).
  replace (Z.to_nat (k - cur)) with (S (Z.to_nat (k - (cur + 1)))) in * by lia. cbn [replicate] in *.
  rewrite elem_of_app, elem_of_cons in Hn.
  assert (length d = Z.to_nat cur) as Hl by (unfold len in Hd; lia).
  exists (d ++ [y mod sz]). split_and!.
  - rewrite <- Hl. rewrite insert_app_r_alt by lia. rewrite Nat.sub_diag. cbn. by rewrite <- app_assoc.
  - rewrite len_app, len_cons, len_nil. lia.
  - lia.
  - lia.
  - apply NoDup_app. split_and!; [done|set_solver|apply NoDup_singleton].
  - apply Forall_app. split; [done|]. constructor; [|constructor]. split; [|lia]. assert (y mod sz <> 0) by tauto. lia.
Qed.

Lemma draw_inv n i x sz k set cur set' cur' :
  0 < sz -> bytes_ok x -> fast_inv sz k set cur -> draw n i x sz k set cur = Ok (set', cur') -> fast_inv sz k set' cur'.
Proof.
  intros Hsz Hx. revert i set cur. induction n as [|n IH]; intros i set cur Hi; cbn [draw]; [by intros [= <- <-]|].
  case_decide; [|by intros [= <- <-]]. rewrite decide_False by lia.
  destruct (uint32Contains set _) eqn:Ec; [by apply IH|]. apply IH. apply fast_inv_draw; try done.
  apply be_val_range. by apply Forall_take, Forall_drop.
Qed.

Lemma fill_inv fuel x sz k set cur set' :
  0 < sz -> fast_inv sz k set cur -> fill fuel x sz k set cur = Ok set' -> fast_inv sz k set' k.
Proof.
  intros Hsz. revert x set cur. induction fuel as [|f IH]; intros x set cur Hi; cbn [fill]; [done|].
  case_decide as Hk.
  - intros E. inv_bind. eapply IH; [|done]. eapply draw_inv; [done|apply Sum_ok|done|done].
  - intros [= <-]. destruct Hi as (d & E & Hd & Hc & Hi). assert (cur = k) as -> by lia. by exists d.
Qed.

Lemma fast_inv_start sz k : fast_inv sz (Z.of_nat k) (replicate k 0) 0.
Proof. exists []. split_and!; try done; try lia; [|constructor]. cbn. f_equal. lia. Qed.

(** The allowed-fast set of a fresh set of [k] entries, when it is
    generated, has [k] distinct piece indexes below the number of pieces; none
    of them is piece 0, which the zeros of the set make the code skip. *)
Theorem fastset_sound fuel k sz ip infohash set' :
  0 < sz -> GenerateAllowedFastSet fuel (replicate k 0) sz ip infohash = Ok set' ->
  length set' = k /\ NoDup set' /\ Forall (fun i => 0 < i < sz) set'.
Proof.
  intros Hsz E. unfold GenerateAllowedFastSet in E. rewrite len_replicate in E.
  apply fill_inv in E as (d & -> & Hd & _ & Hnd & Hr); [|done|apply fast_inv_start].
  rewrite Z.sub_diag. change (replicate (Z.to_nat 0) 0) with (@nil Z). rewrite app_nil_r.
  split_and!; [unfold len in Hd; lia|done|done].
Qed.

Lemma fastset_sound_witness :
  length [1059; 431; 808; 1217; 287; 376; 1188] = 7%nat /\ NoDup [1059; 431; 808; 1217; 287; 376; 1188] /\
  Forall (fun i => 0 < i < 1313) [1059; 431; 808; 1217; 287; 376; 1188].
Proof.
  apply (fastset_sound 3 7 1313 [80; 4; 4; 200] (replicate 20 170)); [lia|vm_compute; reflexivity].
Defined.

Lemma draw_no_err n i x sz k set cur : sz <> 0 -> exists p, draw n i x sz k set cur = Ok p.
Proof.
  intros Hsz. revert i set cur. induction n as [|n IH]; intros i set cur; cbn [draw]; [eauto|].
  case_decide; [|eauto]. rewrite decide_False by done. case_match; apply IH.
Qed.

Lemma fill_Ok_or_NoFuel fuel x sz k set cur :
  sz <> 0 -> fill fuel x sz k set cur = NoFuel \/ exists s, fill fuel x sz k set cur = Ok s.
Proof.
  intros Hsz. revert x set cur. induction fuel as [|f IH]; intros x set cur; cbn [fill]; [by left|].
  case_decide; [|eauto]. destruct (draw_no_err 5 0 (Sum x) sz k set cur Hsz) as [[s c] ->]. apply IH.
Qed.

(** Distinct integers between 1 and [sz - 1] are fewer than [sz]. *)
Lemma nodup_bounded (l : list Z) sz : NoDup l -> Forall (fun i => 0 < i < sz) l -> l <> [] -> len l < sz.
Proof.
  intros Hnd Hr Hne.
  assert (l ⊆+ seqZ 1 (sz - 1)) as Hs.
  { apply NoDup_submseteq; [done|]. intros x Hx. rewrite Forall_forall in Hr. specialize (Hr x Hx).
    apply elem_of_seqZ. lia. }
  apply submseteq_length in Hs. rewrite length_seqZ in Hs. unfold len.
  destruct l as [|x l]; [done|]. inversion_clear Hr. cbn [length] in *. lia.
Qed.

(** Asking for as many allowed-fast pieces as the torrent has, or more,
    never ends: whatever number of digests is computed, the loop is still
    running, since only the pieces 1 to [sz - 1] can ever be drawn. *)
Theorem fastset_diverges fuel k sz ip infohash :
  0 < sz -> sz <= Z.of_nat k -> GenerateAllowedFastSet fuel (replicate k 0) sz ip infohash = NoFuel.
Proof.
  intros Hsz Hk. unfold GenerateAllowedFastSet. rewrite len_replicate.
  destruct (fill_Ok_or_NoFuel fuel (fast_seed ip infohash) sz (Z.of_nat k) (replicate k 0) 0) as [|[s E]]; [lia|done|].
  apply fill_inv in E as (d & -> & Hd & _ & Hnd & Hr); [|done|apply fast_inv_start].
  assert (d <> []) by (intros ->; change (len (@nil Z)) with 0 in Hd; lia).
  pose proof (nodup_bounded d sz Hnd Hr ltac:(done)). lia.
Qed.

Lemma fastset_diverges_witness :
  GenerateAllowedFastSet 20 (replicate 4 0) 4 [80; 4; 4; 200] (replicate 20 170) = NoFuel.
Proof. apply (fastset_diverges 20 4 4 [80; 4; 4; 200] (replicate 20 170)); lia. Defined.

End FastSet.
