(* ===== verification/Hash.v ===== *)
(** * Info hashes

    Models [src/metainfo/infohash.go]: the 20-byte [Hash] with its string and
    bencode forms, the XOR used as the distance of the DHT, and [Hashes], the
    list of piece hashes. [encoding/hex] and [encoding/base32] are written out
    as far as they are used. A [Hash] is a list of 20 bytes. *)

From S2P Require Import Prelude Strconv Bencode BencodeFacts BencodeTyped Sha1.
Import Bencode BencodeFacts BencodeTyped.

Module Hash.

Definition HashSize : Z := 20.
Definition hash_ok (h : bytes) : Prop := length h = 20%nat /\ bytes_ok h.
#[global] Instance hash_ok_dec h : Decision (hash_ok h).
Proof. unfold hash_ok. apply _. Defined.
Definition zeroHash : bytes := replicate 20 0.

(** [b[:HashSize]] panics on a shorter slice. *)
Definition NewHash (b : bytes) : res bytes :=
  if decide (len b < HashSize) then Panic "slice bounds out of range" else Ok (take 20 b).

Definition NewHashFromBytes (b : bytes) : bytes := Sha1.Sum b.

Definition IsZero (h : bytes) : bool := bool_decide (h = zeroHash).

(** ** Hex *)
Definition hex_digit (n : Z) : Z := if decide (n < 10) then 48 + n else 87 + n.
Definition HexString (h : bytes) : bytes := concat (map (fun b => [hex_digit (b / 16); hex_digit (b mod 16)]) h).

Definition fromHexChar (c : Z) : option Z :=
  if decide (48 <= c <= 57) then Some (c - 48)
  else if decide (97 <= c <= 102) then Some (c - 87)
  else if decide (65 <= c <= 70) then Some (c - 55)
  else None.

Fixpoint hexDecode (s : bytes) : res bytes :=
  match s with
  | [] => Ok []
  | [_] => Err "encoding/hex: odd length hex string"
  | a :: b :: s' =>
      match fromHexChar a, fromHexChar b with
      | Some x, Some y => r ← hexDecode s'; Ok (16 * x + y :: r)
      | _, _ => Err "encoding/hex: invalid byte"
      end
  end.

(** ** Base 32 ([base32.StdEncoding]) *)
Definition base32_digit (c : Z) : option Z :=
  if decide (65 <= c <= 90) then Some (c - 65)
  else if decide (50 <= c <= 55) then Some (c - 24)
  else None.

Definition corrupt32 : string := "illegal base32 data".

(** One quantum of eight characters, of which [got] have been read: its digits,
    whether padding ended the input, and what follows. *)
Fixpoint base32_quantum (n : nat) (src : bytes) (got : list Z) : res (list Z * bool * bytes) :=
  match n with
  | O => Ok (got, false, src)
  | S n' =>
      match src with
      | [] => Err corrupt32
      | c :: src' =>
          let j := len got in
          if decide (c = 61 /\ 2 <= j /\ len src' < 8) then
            if decide (len src' + j < 7) then Err corrupt32
            else if forallb (fun d => bool_decide (d = 61)) (take (Z.to_nat (7 - j)) src') then
              if decide (j = 3 \/ j = 6) then Err corrupt32 else Ok (got, true, src')
            else Err corrupt32
          else match base32_digit c with
               | Some d => base32_quantum n' src' (got ++ [d])
               | None => Err corrupt32
               end
      end
  end.

(** The bytes of a quantum of 8, 7, 5, 4 or 2 digits. *)
Definition quantum_bytes (ds : list Z) : bytes :=
  take (length ds * 5 / 8) (be_bytes 5 (fold_left (fun acc d => 32 * acc + d) (ds ++ replicate (8 - length ds) 0) 0)).

Fixpoint base32_decode (fuel : nat) (src : bytes) : res bytes :=
  match fuel, src with
  | _, [] => Ok []
  | O, _ => NoFuel
  | S fuel', _ =>
      '(ds, end_, rest) ← base32_quantum 8 src [];
      if (end_ : bool) then Ok (quantum_bytes ds)
      else (b ← base32_decode fuel' rest; Ok (quantum_bytes ds ++ b))
  end.

(** Line breaks are dropped first. *)
Definition stripNewlines (s : bytes) : bytes := filter (fun c => c <> 13 /\ c <> 10) s.
Definition base32Decode (s : bytes) : res bytes := base32_decode (length s) (stripNewlines s).

(** ** Reading a hash *)
Definition FromHexString (s : bytes) : res bytes :=
  if decide (len s <> 2 * HashSize) then Err "hash hex string has bad length" else hexDecode s.

Definition FromString (s : bytes) : res bytes :=
  if decide (len s = HashSize) then Ok s
  else if decide (len s = 2 * HashSize) then FromHexString s
  else if decide (len s = 32) then
    b ← base32Decode s;
    if decide (len b <> HashSize) then Err "base32 decoded hash has wrong length" else Ok b
  else Err "hash string has bad length".

Definition NewHashFromString (s : bytes) : res bytes :=
  match FromString s with Err e => Panic e | r => r end.
Definition NewHashFromHexString (s : bytes) : res bytes :=
  match FromHexString s with Err e => Panic e | r => r end.

Definition UnmarshalBinary (b : bytes) : res bytes :=
  if decide (len b < HashSize) then Err "Hash.UnmarshalBinary: too few bytes" else Ok (take 20 b).
Definition MarshalBinary (h : bytes) : bytes := h.

Definition MarshalBencode (h : bytes) : res bytes := EncodeBytes (VBytes (Some h)).
Definition UnmarshalBencode (b : bytes) : res bytes :=
  '(v, _) ← Decode TString (VString []) (NewDecoder b);
  match v with VString s => FromString s | _ => Err "not a string" end.

(** A hash inside a bencoded struct. *)
Definition hash_val (h : bytes) : goval := VCustom (VByteArray h) (MarshalBencode h).
Definition hash_type : gotype := TCustom (hash_val zeroHash) (fun _ b => h ← UnmarshalBencode b; Ok (hash_val h)).
Definition hash_of (v : goval) : bytes := match v with VCustom (VByteArray h) _ => h | _ => zeroHash end.

(** ** Distance and order *)
Fixpoint Xor (h o : bytes) : bytes :=
  match h, o with x :: h', y :: o' => Z.lxor x y :: Xor h' o' | _, _ => [] end.
Definition Compare (h o : bytes) : Z := match bytes_cmp h o with Lt => -1 | Eq => 0 | Gt => 1 end.

(** ** Hashes *)
Definition Contains (hs : list bytes) (h : bytes) : bool := bool_decide (h ∈ hs).

Definition Hashes_MarshalBencode (hs : list bytes) : res bytes := EncodeBytes (VBytes (Some (concat hs))).

Fixpoint split_hashes (n : nat) (b : bytes) : list bytes :=
  match n with O => [] | S n' => take 20 b :: split_hashes n' (drop 20 b) end.

Definition Hashes_UnmarshalBencode (b : bytes) : res (list bytes) :=
  v ← DecodeBytes b TBytes (VBytes None);
  let s := match v with VBytes (Some s) => s | _ => [] end in
  if decide (len s mod HashSize <> 0) then Err "Hashes: invalid bytes length"
  else Ok (split_hashes (Z.to_nat (len s / HashSize)) s).

(** ** Lemmas *)
Lemma fromHex_digit n : 0 <= n < 16 -> fromHexChar (hex_digit n) = Some n.
Proof. intros Hn. unfold hex_digit, fromHexChar. repeat case_decide; try lia; f_equal; lia. Qed.

Lemma hexDecode_HexString h : bytes_ok h -> hexDecode (HexString h) = Ok h.
Proof.
  induction 1 as [|b h Hb _ IH]; [done|]. unfold HexString in *. cbn [map concat app hexDecode].
  unfold is_byte in Hb. rewrite !fromHex_digit.
  - rewrite IH. cbn [mbind res_bind]. do 2 f_equal. pose proof (Z.div_mod b 16). lia.
  - apply Z.mod_pos_bound. lia.
  - split; [apply Z.div_pos; lia|apply Z.div_lt_upper_bound; lia].
Qed.

Lemma length_HexString h : length (HexString h) = (2 * length h)%nat.
Proof. induction h as [|b h IH]; [done|]. unfold HexString in *. cbn [map concat app length]. lia. Qed.

Lemma FromString_raw h : hash_ok h -> FromString h = Ok h.
Proof. intros [Hl _]. unfold FromString, len. rewrite Hl. done. Qed.

Lemma FromString_hex h : hash_ok h -> FromString (HexString h) = Ok h.
Proof.
  intros [Hl Hb]. unfold FromString, FromHexString, len. rewrite length_HexString, Hl. cbn.
  by apply hexDecode_HexString.
Qed.

Lemma hash_marshal h : MarshalBencode h = Ok (encode_string h).
Proof. done. Qed.

Lemma hash_bencode h : hash_ok h -> UnmarshalBencode (encode_string h) = Ok h.
Proof.
  intros Hh. unfold UnmarshalBencode.
  assert (decodes_as (TString, VString []) (encode_string h) (VString h)) as Hd
    by (apply decodes_string; destruct Hh; unfold len; lia).
  destruct (decodes_as_Decode _ _ _ [] Hd) as (d' & E & _). rewrite app_nil_r in E. cbn [fst snd] in E.
  rewrite E, bind_Ok. by apply FromString_raw.
Qed.

Lemma decodes_hash v0 h : hash_ok h -> decodes_as (hash_type, v0) (encode_string h) (hash_val h).
Proof.
  intros Hh. apply (decodes_custom _ _ v0 (BStr h)); [destruct Hh; cbn; unfold len; lia|].
  cbn [bencode]. by rewrite hash_bencode.
Qed.

Lemma encode_hash h : encodeValue (hash_val h) = Ok (encode_string h).
Proof. done. Qed.

Lemma len_concat_hashes hs : Forall hash_ok hs -> len (concat hs) = HashSize * len hs.
Proof.
  induction 1 as [|h hs [Hl _] _ IH]; [done|]. cbn [concat]. rewrite len_app, len_cons, IH.
  assert (len h = 20) by (unfold len; lia). unfold HashSize in *. lia.
Qed.

Lemma split_concat hs rest : Forall hash_ok hs -> split_hashes (length hs) (concat hs ++ rest) = hs.
Proof.
  induction 1 as [|h hs [Hl _] _ IH]; [done|]. cbn [concat length split_hashes]. rewrite <- app_assoc.
  rewrite take_app_length', drop_app_length' by done. by rewrite IH.
Qed.

Lemma Hashes_roundtrip hs :
  Forall hash_ok hs -> len (concat hs) < 2 ^ 31 ->
  (b ← Hashes_MarshalBencode hs; Hashes_UnmarshalBencode b) = Ok hs.
Proof.
  intros Hh Hl. unfold Hashes_MarshalBencode, Hashes_UnmarshalBencode. 
  change (EncodeBytes (VBytes (Some (concat hs)))) with (Ok (encode_string (concat hs))). rewrite bind_Ok.
  rewrite (decodes_as_DecodeBytes _ _ _ _ (decodes_bytes (VBytes None) _ Hl)), bind_Ok.
  rewrite len_concat_hashes, Z.mul_comm, Z.mod_mul, Z.div_mul by (done || unfold HashSize; lia).
  rewrite decide_False by lia. f_equal. unfold len. rewrite Nat2Z.id.
  rewrite <- (app_nil_r (concat hs)). by apply split_concat.
Qed.

Lemma hash_ok_zero : hash_ok zeroHash.
Proof. split; [done|]. unfold zeroHash. apply Forall_replicate. unfold is_byte. lia. Qed.

Lemma length_Xor h o : length (Xor h o) = Nat.min (length h) (length o).
Proof. revert o. induction h as [|x h IH]; intros [|y o]; cbn; [done..|]. by rewrite IH. Qed.

Lemma byte_lxor x y : is_byte x -> is_byte y -> is_byte (Z.lxor x y).
Proof.
  unfold is_byte. intros Hx Hy.
  assert (0 <= Z.lxor x y) by (apply Z.lxor_nonneg; lia). split; [done|].
  destruct (decide (Z.lxor x y = 0)); [lia|]. apply (Z.log2_lt_pow2 _ 8); [lia|].
  pose proof (Z.log2_lxor x y). assert (Z.log2 x < 8 /\ Z.log2 y < 8); [|lia].
  split; (destruct (decide (x = 0)), (decide (y = 0)); subst; cbn; try lia; apply Z.log2_lt_pow2; lia).
Qed.

Lemma Xor_ok h o : hash_ok h -> hash_ok o -> hash_ok (Xor h o).
Proof.
  intros [Hl Hb] [Kl Kb]. split; [rewrite length_Xor; lia|]. clear Hl Kl. revert o Kb.
  induction Hb as [|x h Hx _ IH]; intros o Kb; [constructor|]. destruct o as [|y o]; [constructor|].
  inversion_clear Kb. cbn. constructor; [by apply byte_lxor|by apply IH].
Qed.

Lemma Xor_comm h o : Xor h o = Xor o h.
Proof. revert o. induction h as [|x h IH]; intros [|y o]; cbn; [done..|]. by rewrite Z.lxor_comm, IH. Qed.

Lemma Xor_assoc a b c : length a = length b -> Xor (Xor a b) c = Xor a (Xor b c).
Proof.
  revert b c. induction a as [|x a IH]; intros [|y b] [|z c] Hl; cbn in *; try done.
  rewrite Z.lxor_assoc, IH by lia. done.
Qed.

Lemma Xor_self h : Xor h h = replicate (length h) 0.
Proof. induction h as [|x h IH]; cbn; [done|]. by rewrite Z.lxor_nilpotent, IH. Qed.

Lemma Xor_zero_l h : Xor (replicate (length h) 0) h = h.
Proof. induction h as [|x h IH]; cbn; [done|]. by rewrite IH. Qed.

Lemma Xor_cancel h o : length h = length o -> Xor h (Xor h o) = o.
Proof. intros Hl. rewrite <- Xor_assoc by done. rewrite Xor_self, Hl. apply Xor_zero_l. Qed.

(** A hash is recovered from each of its printed forms: the raw 20 bytes,
    the 40 hexadecimal digits, and the bencoded string; and a list of hashes
    from its bencoded concatenation. *)
Theorem hash_roundtrip h hs :
  hash_ok h -> Forall hash_ok hs -> len (concat hs) < 2 ^ 31 ->
  FromString h = Ok h /\ FromString (HexString h) = Ok h /\
  (b ← MarshalBencode h; UnmarshalBencode b) = Ok h /\
  (b ← Hashes_MarshalBencode hs; Hashes_UnmarshalBencode b) = Ok hs.
Proof.
  intros Hh Hhs Hl. split_and!; [by apply FromString_raw|by apply FromString_hex| |by apply Hashes_roundtrip].
  rewrite hash_marshal, bind_Ok. by apply hash_bencode.
Qed.

Lemma hash_roundtrip_witness :
  let h := Sha1.Sum (bs "abc") in
  FromString h = Ok h /\ FromString (HexString h) = Ok h /\
  (b ← MarshalBencode h; UnmarshalBencode b) = Ok h /\
  (b ← Hashes_MarshalBencode [h; zeroHash]; Hashes_UnmarshalBencode b) = Ok [h; zeroHash].
Proof.
  assert (hash_ok (Sha1.Sum (bs "abc"))) as Hh by (split; [apply Sha1.length_Sum|apply Sha1.Sum_ok]).
  apply (hash_roundtrip (Sha1.Sum (bs "abc")) [Sha1.Sum (bs "abc"); zeroHash]).
  - exact Hh.
  - constructor; [exact Hh|]. constructor; [apply hash_ok_zero|constructor].
  - rewrite len_concat_hashes; [reflexivity|]. constructor; [exact Hh|]. constructor; [apply hash_ok_zero|constructor].
Defined.

End Hash.
