(* ===== verification/Metainfo.v ===== *)
(** * The files and pieces of a torrent

    Models [src/metainfo/info.go], [src/metainfo/file.go] and
    [src/metainfo/piece.go]: how the bytes of a torrent are divided into files
    and pieces, how an offset is located in a file, which ranges of pieces a
    file uses, the 16 KiB blocks of a range, the merging of ranges, and the
    hashing of the data into pieces. [filepath.Join] is written out for
    slash-separated paths. [GeneratePiecesFromFiles] takes the contents [open]
    gives; [InfoBuild] reads a directory with it. *)

From S2P Require Import Prelude Strconv Bencode BencodeFacts BencodeTyped Sha1 Hash.

Module Metainfo.

(** ** Paths *)
Definition slash : Z := 47.

Fixpoint split_slash (cur : bytes) (s : bytes) : list bytes :=
  match s with
  | [] => [reverse cur]
  | c :: s' => if decide (c = slash) then reverse cur :: split_slash [] s' else split_slash (c :: cur) s'
  end.

Fixpoint join_slash (l : list bytes) : bytes :=
  match l with [] => [] | [x] => x | x :: l' => x ++ [slash] ++ join_slash l' end.

(** The elements [filepath.Clean] keeps, the last one first. *)
Definition clean_step (rooted : bool) (out : list bytes) (e : bytes) : list bytes :=
  if decide (e = [] \/ e = bs ".") then out
  else if decide (e = bs "..") then
    match out with
    | x :: out' => if decide (x = bs "..") then e :: out else out'
    | [] => if rooted then [] else [e]
    end
  else e :: out.

Definition Clean (path : bytes) : bytes :=
  if decide (path = []) then bs "."
  else
    let rooted := bool_decide (head path = Some slash) in
    let out := join_slash (reverse (foldl (clean_step rooted) [] (split_slash [] path))) in
    if rooted then slash :: out else if decide (out = []) then bs "." else out.

Fixpoint Join (elems : list bytes) : bytes :=
  match elems with
  | [] => []
  | e :: elems' => if decide (e = []) then Join elems' else Clean (join_slash elems)
  end.

(** ** info.go *)
Record File := MkFile { f_Length : Z; f_Paths : list bytes }.

Record Info := MkInfo {
  i_Name : bytes;
  i_PieceLength : Z;
  i_Pieces : list bytes;
  i_Length : Z;
  i_Files : list File
}.

Definition IsDir (info : Info) : bool := negb (bool_decide (i_Files info = [])).
Definition CountPieces (info : Info) : Z := len (i_Pieces info).

Definition total (l : list File) : Z := foldl (fun ret f => i64 (ret + f_Length f)) 0 l.
Definition TotalLength (info : Info) : Z := if IsDir info then total (i_Files info) else i_Length info.
Definition PieceOffset (info : Info) (index offset : Z) : Z := i64 (index * i_PieceLength info + offset).
Definition AllFiles (info : Info) : list File :=
  if IsDir info then i_Files info else [MkFile (i_Length info) []].

(** The loop over the files; the last one gets special treatment. *)
Fixpoint find_file (files : list File) (fileOffset : Z) : res (File * Z) :=
  match files with
  | [] => Panic "no files"
  | file :: rest =>
      if decide (fileOffset < f_Length file) then Ok (file, fileOffset)
      else
        let fo := i64 (fileOffset - f_Length file) in
        match rest with
        | [] =>
            if decide (fileOffset = f_Length file) then Ok (file, fileOffset)
            else if decide (f_Length file < fo) then Panic "offset exceeds the maximum length"
            else Ok (file, fo)
        | _ => find_file rest fo
        end
  end.

Definition GetFileByOffset (info : Info) (offset : Z) : res (File * Z) :=
  if IsDir info then find_file (i_Files info) offset
  else if decide (i_Length info < offset) then Panic "offset exceeds the maximum length"
  else Ok (MkFile (i_Length info) [i_Name info], offset).

(** ** file.go *)
Definition File_String (f : File) : bytes := Join (f_Paths f).
Definition File_Path (f : File) (info : Info) : bytes :=
  if IsDir info then Join (i_Name info :: f_Paths f) else i_Name info.
Definition PathWithPrefix (f : File) (prefix : bytes) (info : Info) : bytes :=
  if IsDir info then Join (prefix :: i_Name info :: f_Paths f) else Join [prefix; i_Name info].

Fixpoint offset_loop (path : bytes) (info : Info) (files : list File) (ret : Z) : res Z :=
  match files with
  | [] => Panic "not found"
  | file :: files' =>
      if decide (path = File_Path file info) then Ok ret
      else offset_loop path info files' (i64 (ret + f_Length file))
  end.
Definition File_Offset (f : File) (info : Info) : res Z :=
  offset_loop (File_Path f info) info (AllFiles info) 0.

Record FilePiece := MkFP { fp_Index : Z; fp_Offset : Z; fp_Length : Z }.

Definition middle_pieces (first n pieceLength : Z) : list FilePiece :=
  map (fun i => MkFP (u32 i) 0 (u32 pieceLength)) (seqZ first n).

Definition FilePieces (f : File) (info : Info) : res (list FilePiece) :=
  if decide (f_Length f < 1) then Ok []
  else
    startOffset ← File_Offset f info;
    let pl := i_PieceLength info in
    if decide (pl = 0) then Panic "integer divide by zero"
    else
      let startPieceIndex := Z.quot startOffset pl in
      let startPieceOffset := Z.rem startOffset pl in
      let endOffset := i64 (startOffset + f_Length f) in
      let endPieceIndex := Z.quot endOffset pl in
      let endPieceOffset := Z.rem endOffset pl in
      if decide (startPieceIndex = endPieceIndex) then
        Ok [MkFP (u32 startPieceIndex) (u32 startPieceOffset) (u32 (endPieceOffset - startPieceOffset))]
      else
        Ok ([MkFP (u32 startPieceIndex) (u32 startPieceOffset) (u32 (pl - startPieceOffset))] ++
            middle_pieces (startPieceIndex + 1) (endPieceIndex - (startPieceIndex + 1)) pl ++
            [MkFP (u32 endPieceIndex) 0 (u32 endPieceOffset)]).

(** ** piece.go *)
Record Piece := MkPiece { p_info : Info; p_index : Z }.

Definition Info_Piece (info : Info) (index : Z) : res Piece :=
  if decide (len (i_Pieces info) <= index) then Panic "Info.Piece: index exceeds maximum" else Ok (MkPiece info index).
Definition Piece_Offset (p : Piece) : Z := i64 (p_index p * i_PieceLength (p_info p)).
Definition Piece_Length (p : Piece) : Z :=
  if decide (p_index p = CountPieces (p_info p) - 1)
  then i64 (TotalLength (p_info p) - p_index p * i_PieceLength (p_info p))
  else i_PieceLength (p_info p).

(** [GeneratePieces]: the reader delivers [data] and then the error [e]. *)
Fixpoint GeneratePieces (fuel : nat) (data : bytes) (e : string) (pieceLength : Z) : res (list bytes) :=
  match fuel with
  | O => NoFuel
  | S f =>
      if decide (pieceLength <= len data) then
        let chunk := take (Z.to_nat pieceLength) data in
        hs ← GeneratePieces f (drop (Z.to_nat pieceLength) data) e pieceLength;
        Ok ((if decide (0 < len chunk) then [Sha1.Sum chunk] else []) ++ hs)
      else
        if decide (e = "EOF"%string) then Ok (if decide (0 < len data) then [Sha1.Sum data] else [])
        else Err e
  end.

(** [writeFiles] into the pipe: the bytes that reach the reader and the error
    the pipe is closed with. A file shorter than its length fails; of a longer
    one only its length is read. *)
Fixpoint writeFiles (files : list File) (open : File -> res bytes) : bytes * string :=
  match files with
  | [] => ([], "EOF"%string)
  | file :: files' =>
      match open file with
      | Ok content =>
          if decide (0 <= f_Length file <= len content) then
            let '(b, e) := writeFiles files' open in (take (Z.to_nat (f_Length file)) content ++ b, e)
          else (if decide (0 <= f_Length file) then content else [], "error copying"%string)
      | _ => ([], "error opening"%string)
      end
  end.

Definition GeneratePiecesFromFiles (files : list File) (pieceLength : Z) (open : File -> res bytes) : res (list bytes) :=
  if decide (pieceLength <= 0) then Err "piece length must be a positive integer"
  else
    let '(data, e) := writeFiles files open in
    GeneratePieces (S (length data)) data e pieceLength.

Record PieceBlock := MkBlock { b_Index : Z; b_Offset : Z; b_Length : Z }.

Definition TotalOffset (fp : FilePiece) (pieceLength : Z) : Z := i64 (fp_Index fp * pieceLength + fp_Offset fp).

Fixpoint blocks_loop (fuel : nat) (index offset rest : Z) : list PieceBlock :=
  match fuel with
  | O => []
  | S f =>
      if decide (0 < rest) then
        let length := if decide (rest < 16384) then rest else 16384 in
        MkBlock index offset length :: blocks_loop f index (u32 (offset + length)) (u32 (rest - length))
      else []
  end.

(** The rest shrinks by up to 16 KiB a round, so its size in bytes is more
    rounds than needed. *)
Definition Blocks (fp : FilePiece) : list PieceBlock :=
  blocks_loop (Z.to_nat (fp_Length fp / 16384 + 1)) (fp_Index fp) (fp_Offset fp) (fp_Length fp).

(** [FilePieces.Less], made an order for [sort.Sort]. *)
Definition fp_le (a b : FilePiece) : Prop :=
  fp_Index a < fp_Index b \/ (fp_Index a = fp_Index b /\ fp_Offset a <= fp_Offset b).
#[global] Instance fp_le_dec a b : Decision (fp_le a b).
Proof. unfold fp_le. apply _. Defined.

Fixpoint merge_loop (index offset length : Z) (l : list FilePiece) : list FilePiece :=
  match l with
  | [] => [MkFP index offset length]
  | fp :: l' =>
      if decide (u32 (offset + length) = fp_Offset fp) then merge_loop index offset (u32 (length + fp_Length fp)) l'
      else MkFP index offset length :: merge_loop index (fp_Offset fp) (fp_Length fp) l'
  end.

Definition merge (fpset : list FilePiece) : list FilePiece :=
  match fpset with
  | [] => []
  | [fp] => [fp]
  | fp :: l => merge_loop (fp_Index fp) (fp_Offset fp) (fp_Length fp) l
  end.

(** The runs of pieces with the same index. *)
Fixpoint runs (l : list FilePiece) : list (list FilePiece) :=
  match l with
  | [] => []
  | x :: l' =>
      match runs l' with
      | (y :: g) :: gs => if decide (fp_Index x = fp_Index y) then (x :: y :: g) :: gs else [x] :: (y :: g) :: gs
      | gs => [x] :: gs
      end
  end.

Definition Merge (fps : list FilePiece) : list FilePiece :=
  if decide (len fps < 2) then fps else concat (map merge (runs (merge_sort fp_le fps))).

End Metainfo.
