(* ===== verification/MetainfoFacts.v ===== *)
(** * Files, pieces and blocks: properties

    The blocks a file is downloaded in tile exactly the bytes of the file; the
    merging of ranges keeps the bytes they cover; the data of a torrent is
    hashed chunk by chunk; and where locating an offset goes wrong. *)

From S2P Require Import Prelude Sha1 Hash Metainfo.
Import Metainfo.

Module MetainfoFacts.

(** [l] lists consecutive non-empty ranges (offset, length) from [start] to
    [stop]. *)
Fixpoint tiles (start : Z) (l : list (Z * Z)) (stop : Z) : Prop :=
  match l with
  | [] => start = stop
  | (o, n) :: l' => o = start /\ 0 < n /\ tiles (o + n) l' stop
  end.

Lemma tiles_app a l b k c : tiles a l b -> tiles b k c -> tiles a (l ++ k) c.
Proof.
  revert a. induction l as [|[o n] l IH]; intros a; cbn [tiles app]; [by intros ->|].
  intros (-> & Hn & Hl) Hk. auto.
Qed.

(** Where a block lies in the torrent. *)
Definition block_at (pl : Z) (b : PieceBlock) : Z * Z := (b_Index b * pl + b_Offset b, b_Length b).

Definition block_fits (pl : Z) (b : PieceBlock) : Prop :=
  0 < b_Length b <= 16384 /\ 0 <= b_Offset b /\ b_Offset b + b_Length b <= pl.

Lemma i64_small z : - 2 ^ 63 <= z < 2 ^ 63 -> i64 z = z.
Proof. intros. apply swrap_small; lia. Qed.
Lemma i64_add a b : i64 (i64 a + b) = i64 (a + b).
Proof.
  unfold i64. rewrite <- (swrap_wrap 64 (swrap 64 a + b)), <- (swrap_wrap 64 (a + b)) by lia. f_equal.
  unfold swrap, wrap. cbv zeta. case_decide; rewrite ?Z.add_mod_idemp_l by lia; [done|].
  replace (a mod 2 ^ 64 - 2 ^ 64 + b) with (a mod 2 ^ 64 + b + (-1) * 2 ^ 64) by lia.
  rewrite Z.mod_add, Z.add_mod_idemp_l by lia. done.
Qed.

Lemma blocks_loop_tiles pl fuel index offset rest :
  0 <= offset -> 0 <= rest -> offset + rest <= pl -> pl < 2 ^ 32 -> rest <= 16384 * Z.of_nat fuel ->
  tiles (index * pl + offset) (map (block_at pl) (blocks_loop fuel index offset rest)) (index * pl + offset + rest) /\
  Forall (block_fits pl) (blocks_loop fuel index offset rest).
Proof.
  intros Ho Hr Hpl H32. revert offset rest Ho Hr Hpl. induction fuel as [|f IH]; intros offset rest Ho Hr Hpl Hf.
  { assert (rest = 0) as -> by lia. cbn. split; [lia|constructor]. }
  cbn [blocks_loop]. destruct (decide (0 < rest)) as [H0|H0].
  2: { assert (rest = 0) as -> by lia. cbn. split; [lia|constructor]. }
  set (n := if decide (rest < 16384) then rest else 16384).
  assert (0 < n <= 16384 /\ n <= rest /\ (n = rest \/ n = 16384)) as (Hn & Hnr & Hcase) by (unfold n; case_decide; lia).
  rewrite (u32_small (offset + n)), (u32_small (rest - n)) by lia.
  destruct (IH (offset + n) (rest - n)) as [H1 H2]; [lia..|].
  split.
  - cbn [map tiles block_at b_Index b_Offset b_Length]. split_and!; [done|lia|].
    replace (index * pl + offset + n) with (index * pl + (offset + n)) by lia.
    replace (index * pl + offset + rest) with (index * pl + (offset + n) + (rest - n)) by lia. done.
  - constructor; [|done]. unfold block_fits. cbn. lia.
Qed.

(** A range inside its piece. *)
Definition fp_fits (pl : Z) (fp : FilePiece) : Prop :=
  0 <= fp_Offset fp /\ 0 <= fp_Length fp /\ fp_Offset fp + fp_Length fp <= pl.

Lemma Blocks_tiles pl fp :
  fp_fits pl fp -> pl < 2 ^ 32 ->
  tiles (fp_Index fp * pl + fp_Offset fp) (map (block_at pl) (Blocks fp)) (fp_Index fp * pl + fp_Offset fp + fp_Length fp) /\
  Forall (block_fits pl) (Blocks fp).
Proof.
  intros (H1 & H2 & H3) H4. unfold Blocks. apply blocks_loop_tiles; try lia.
  rewrite Z2Nat.id by (pose proof (Z.div_pos (fp_Length fp) 16384); lia).
  pose proof (Z.div_mod (fp_Length fp) 16384). pose proof (Z.mod_pos_bound (fp_Length fp) 16384). lia.
Qed.

(** Ranges that follow each other in the torrent, empty ones allowed. *)
Fixpoint chain (pl start : Z) (fps : list FilePiece) (stop : Z) : Prop :=
  match fps with
  | [] => start = stop
  | fp :: fps' =>
      fp_fits pl fp /\ fp_Index fp * pl + fp_Offset fp = start /\ chain pl (start + fp_Length fp) fps' stop
  end.

Lemma chain_app pl a l b k c : chain pl a l b -> chain pl b k c -> chain pl a (l ++ k) c.
Proof.
  revert a. induction l as [|fp l IH]; intros a; cbn [chain app]; [by intros ->|].
  intros (Hf & <- & Hl) Hk. auto.
Qed.

Lemma chain_blocks pl start fps stop :
  pl < 2 ^ 32 -> chain pl start fps stop ->
  tiles start (map (block_at pl) (concat (map Blocks fps))) stop /\ Forall (block_fits pl) (concat (map Blocks fps)).
Proof.
  intros Hpl. revert start. induction fps as [|fp fps IH]; intros start; cbn [chain map concat].
  { by intros ->. }
  intros (Hf & <- & Hc). destruct (Blocks_tiles pl fp Hf Hpl) as [H1 H2]. destruct (IH _ Hc) as [H3 H4].
  rewrite map_app. split; [by eapply tiles_app|by apply Forall_app].
Qed.

Lemma middle_chain pl first n :
  0 < pl < 2 ^ 32 -> 0 <= first -> first + n < 2 ^ 32 -> 0 <= n ->
  chain pl (first * pl) (middle_pieces first n pl) ((first + n) * pl).
Proof.
  intros Hpl H0 H1 H2. unfold middle_pieces. rewrite (u32_small pl) by lia. remember (Z.to_nat n) as k eqn:Ek.
  revert first n H0 H1 H2 Ek. induction k as [|k IH]; intros first n H0 H1 H2 Ek.
  - assert (n = 0) as -> by lia. change (first * pl = (first + 0) * pl). lia.
  - rewrite seqZ_cons by lia. cbn [map chain fp_Index fp_Offset fp_Length].
    rewrite (u32_small first) by lia. split_and!; [unfold fp_fits; cbn; lia|lia|].
    replace (first * pl + pl) with (Z.succ first * pl) by lia.
    replace (first + n) with (Z.succ first + Z.pred n) by lia. apply IH; lia.
Qed.

Lemma FilePieces_chain f info start :
  File_Offset f info = Ok start -> 0 <= start -> 0 < f_Length f -> start + f_Length f < 2 ^ 63 ->
  0 < i_PieceLength info < 2 ^ 32 -> (start + f_Length f) / i_PieceLength info < 2 ^ 32 ->
  exists fps, FilePieces f info = Ok fps /\ chain (i_PieceLength info) start fps (start + f_Length f) /\
    ((start + f_Length f) mod i_PieceLength info = 0 ->
     last fps = Some (MkFP ((start + f_Length f) / i_PieceLength info) 0 0)).
Proof.
  intros Ho Hs Hl H63 Hpl Hidx. unfold FilePieces. rewrite decide_False by lia. rewrite Ho, bind_Ok.
  set (pl := i_PieceLength info) in *. rewrite decide_False by lia. set (stop := start + f_Length f) in *.
  rewrite (i64_small stop) by lia. rewrite !Z.quot_div_nonneg, !Z.rem_mod_nonneg by lia.
  pose proof (Z.div_mod start pl ltac:(lia)) as Ds. pose proof (Z.div_mod stop pl ltac:(lia)) as De.
  pose proof (Z.mod_pos_bound start pl ltac:(lia)). pose proof (Z.mod_pos_bound stop pl ltac:(lia)).
  pose proof (Z.div_pos start pl ltac:(lia) ltac:(lia)).
  assert (start / pl <= stop / pl) by (apply Z.div_le_mono; lia).
  destruct (decide (start / pl = stop / pl)) as [E|E].
  - eexists. split; [reflexivity|]. rewrite E in *.
    rewrite (u32_small (stop / pl)), (u32_small (start mod pl)), (u32_small (stop mod pl - start mod pl)) by lia.
    split.
    + cbn [chain fp_Index fp_Offset fp_Length]. unfold fp_fits. cbn [fp_Index fp_Offset fp_Length]. lia.
    + intros Hz. exfalso. lia.
  - eexists. split; [reflexivity|].
    rewrite (u32_small (start / pl)), (u32_small (start mod pl)), (u32_small (pl - start mod pl)),
      (u32_small (stop / pl)), (u32_small (stop mod pl)) by lia.
    split.
    + apply (chain_app _ _ _ ((start / pl + 1) * pl)).
      { cbn [chain fp_Index fp_Offset fp_Length]. unfold fp_fits. cbn [fp_Index fp_Offset fp_Length]. lia. }
      apply (chain_app _ _ _ (stop / pl * pl)).
      { replace (stop / pl * pl) with ((start / pl + 1 + (stop / pl - (start / pl + 1))) * pl) by lia.
        apply middle_chain; lia. }
      cbn [chain fp_Index fp_Offset fp_Length]. unfold fp_fits. cbn [fp_Index fp_Offset fp_Length]. lia.
    + intros Hz. rewrite Hz. rewrite app_assoc. by rewrite last_snoc.
Qed.

(** ** Merging ranges *)
Definition covers (fp : FilePiece) (i x : Z) : Prop :=
  fp_Index fp = i /\ fp_Offset fp <= x < fp_Offset fp + fp_Length fp.
Definition covered (l : list FilePiece) (i x : Z) : Prop := exists fp, fp ∈ l /\ covers fp i x.

Definition fp_wf (fp : FilePiece) : Prop :=
  0 <= fp_Offset fp /\ 0 <= fp_Length fp /\ fp_Offset fp + fp_Length fp < 2 ^ 32.

Lemma covered_cons fp l i x : covered (fp :: l) i x <-> covers fp i x \/ covered l i x.
Proof.
  unfold covered. split.
  - intros (q & Hq & Hc). apply elem_of_cons in Hq as [-> |Hq]; eauto.
  - intros [Hc|(q & Hq & Hc)]; [exists fp|exists q]; split; try done; [left|by right].
Qed.

Lemma covered_app l k i x : covered (l ++ k) i x <-> covered l i x \/ covered k i x.
Proof.
  induction l as [|fp l IH]; cbn [app]; [|rewrite !covered_cons, IH; tauto].
  split; [by right|]. intros [(q & Hq & _)|?]; [|done]. by apply elem_of_nil in Hq.
Qed.

Lemma merge_loop_covered index offset length l i x :
  fp_wf (MkFP index offset length) -> Forall (fun fp => fp_wf fp /\ fp_Index fp = index) l ->
  covered (merge_loop index offset length l) i x <-> covered (MkFP index offset length :: l) i x.
Proof.
  intros Hw Hl. revert offset length Hw. induction Hl as [|fp l [Hf Hi] _ IH]; intros offset length Hw; cbn [merge_loop]; [done|].
  unfold fp_wf in *. cbn [fp_Index fp_Offset fp_Length] in *. rewrite (u32_small (offset + length)) by lia.
  destruct (decide (offset + length = fp_Offset fp)) as [E|E].
  - rewrite (u32_small (length + fp_Length fp)) by lia. rewrite IH by (cbn; lia). rewrite !covered_cons.
    unfold covers. cbn [fp_Index fp_Offset fp_Length]. rewrite Hi. intuition lia.
  - rewrite covered_cons, IH, !covered_cons by lia. unfold covers. cbn [fp_Index fp_Offset fp_Length]. rewrite Hi. tauto.
Qed.

Lemma merge_covered g i x :
  Forall fp_wf g -> (forall a b, a ∈ g -> b ∈ g -> fp_Index a = fp_Index b) ->
  covered (merge g) i x <-> covered g i x.
Proof.
  intros Hw Hsame. destruct g as [|fp [|fp2 l]]; [done..|]. unfold merge.
  inversion_clear Hw as [|?? Hf Hl]. rewrite merge_loop_covered; [by destruct fp|by destruct fp|].
  rewrite Forall_forall in Hl |- *. intros q Hq. split; [by apply Hl|]. apply Hsame; [by right|by left].
Qed.

Lemma runs_concat l : concat (runs l) = l.
Proof.
  induction l as [|x l IH]; [done|]. cbn [runs]. destruct (runs l) as [|[|y g] gs]; cbn in IH |- *; [by subst..|].
  case_decide; cbn; by rewrite <- IH.
Qed.

Lemma runs_same l : Forall (fun g => forall a b, a ∈ g -> b ∈ g -> fp_Index a = fp_Index b) (runs l).
Proof.
  assert (forall x, forall a b : FilePiece, a ∈ [x] -> b ∈ [x] -> fp_Index a = fp_Index b) as H1.
  { intros x a b ->%list_elem_of_singleton ->%list_elem_of_singleton. done. }
  induction l as [|x l IH]; [constructor|]. cbn [runs]. destruct (runs l) as [|[|y g] gs].
  - constructor; [apply H1|done].
  - constructor; [apply H1|done].
  - inversion_clear IH as [|?? Hg Hgs]. case_decide as E.
    + constructor; [|done]. intros a b Ha Hb.
      assert (forall c, c ∈ x :: y :: g -> fp_Index c = fp_Index y) as Hy.
      { intros c Hc. apply elem_of_cons in Hc as [-> |Hc]; [done|]. apply Hg; [done|left]. }
      by rewrite (Hy a Ha), (Hy b Hb).
    + constructor; [apply H1|]. by constructor.
Qed.

Lemma runs_merge_covered gs i x :
  Forall (fun g => Forall fp_wf g /\ forall a b, a ∈ g -> b ∈ g -> fp_Index a = fp_Index b) gs ->
  covered (concat (map merge gs)) i x <-> covered (concat gs) i x.
Proof.
  induction 1 as [|g gs [Hw Hs] _ IH]; [done|]. cbn [map concat]. by rewrite !covered_app, IH, merge_covered.
Qed.

Lemma covered_perm l k i x : l ≡ₚ k -> covered l i x <-> covered k i x.
Proof. intros Hp. unfold covered. by setoid_rewrite Hp. Qed.

Lemma Merge_covered fps i x : Forall fp_wf fps -> covered (Merge fps) i x <-> covered fps i x.
Proof.
  intros Hw. unfold Merge. case_decide; [done|].
  assert (Forall fp_wf (merge_sort fp_le fps)) as Hw' by (by rewrite merge_sort_Permutation).
  rewrite runs_merge_covered, runs_concat; [by apply covered_perm, merge_sort_Permutation|].
  apply Forall_and. split; [|apply runs_same].
  rewrite <- (runs_concat (merge_sort fp_le fps)) in Hw'. revert Hw'. generalize (runs (merge_sort fp_le fps)).
  clear. induction l as [|g gs IH]; [constructor|]. cbn [concat]. intros [H1 H2]%Forall_app. constructor; auto.
Qed.

(** ** Hashing *)
Fixpoint chunked (pl : Z) (l : list bytes) : Prop :=
  match l with
  | [] => True
  | c :: l' => 0 < len c <= pl /\ (l' <> [] -> len c = pl) /\ chunked pl l'
  end.

Lemma GeneratePieces_chunks fuel data pl :
  0 < pl -> (length data < fuel)%nat ->
  exists chunks, GeneratePieces fuel data "EOF" pl = Ok (map Sha1.Sum chunks) /\ concat chunks = data /\ chunked pl chunks.
Proof.
  intros Hpl. revert data. induction fuel as [|f IH]; intros data Hf; [lia|]. cbn [GeneratePieces].
  destruct (decide (pl <= len data)) as [Hle|Hlt].
  - assert (length (take (Z.to_nat pl) data) = Z.to_nat pl) as Hlen by (rewrite length_take; unfold len in Hle; lia).
    destruct (IH (drop (Z.to_nat pl) data)) as (cs & E & Hc & Hch); [rewrite length_drop; unfold len in Hle; lia|].
    exists (take (Z.to_nat pl) data :: cs). rewrite E, bind_Ok.
    assert (len (take (Z.to_nat pl) data) = pl) as Hl by (unfold len; lia).
    rewrite Hl, decide_True by done. cbn [map concat chunked]. rewrite Hc, take_drop, Hl. split_and!; done || lia.
  - rewrite decide_True by done. destruct (decide (0 < len data)) as [H0|H0].
    + exists [data]. cbn. rewrite app_nil_r. split_and!; done || lia.
    + exists []. assert (data = []) as -> by (apply len_zero; pose proof (len_nonneg data); lia). done.
Qed.

Lemma writeFiles_ok files open contents :
  Forall2 (fun f c => open f = Ok c /\ f_Length f = len c) files contents ->
  writeFiles files open = (concat contents, "EOF"%string).
Proof.
  induction 1 as [|f c files contents [Ho Hl] _ IH]; [done|]. cbn [writeFiles concat]. rewrite Ho, IH, Hl.
  pose proof (len_nonneg c). rewrite decide_True by lia. f_equal. f_equal. unfold len. rewrite Nat2Z.id. by apply take_ge.
Qed.

(** ** The properties *)

(** C31: The blocks requested for a file tile it exactly: the 16 KiB blocks of
    its piece ranges, in order, are non-empty, at most 16384 bytes, inside
    their piece, and cover every byte of the file once and nothing else. When
    the file ends at a piece boundary the list of ranges still ends with an
    empty range in the next piece, which may not exist. *)
Theorem file_blocks_tile f info start :
  File_Offset f info = Ok start -> 0 <= start -> 0 < f_Length f -> start + f_Length f < 2 ^ 63 ->
  0 < i_PieceLength info < 2 ^ 32 -> (start + f_Length f) / i_PieceLength info < 2 ^ 32 ->
  exists fps, FilePieces f info = Ok fps /\
    tiles start (map (block_at (i_PieceLength info)) (concat (map Blocks fps))) (start + f_Length f) /\
    Forall (block_fits (i_PieceLength info)) (concat (map Blocks fps)) /\
    ((start + f_Length f) mod i_PieceLength info = 0 ->
     last fps = Some (MkFP ((start + f_Length f) / i_PieceLength info) 0 0)).
Proof.
  intros Ho H1 H2 H3 H4 H5. destruct (FilePieces_chain f info start Ho H1 H2 H3 H4 H5) as (fps & E & Hc & Hl).
  exists fps. destruct (chain_blocks _ _ _ _ (proj2 H4) Hc). done.
Qed.

Definition demo_file : File := MkFile 60000 [bs "b"].
Definition demo_info : Info :=
  MkInfo (bs "t") 32768 [] 0 [MkFile 5536 [bs "a"]; demo_file].

Lemma file_blocks_tile_witness :
  exists fps, FilePieces demo_file demo_info = Ok fps /\
    tiles 5536 (map (block_at 32768) (concat (map Blocks fps))) 65536 /\
    Forall (block_fits 32768) (concat (map Blocks fps)) /\
    (65536 mod 32768 = 0 -> last fps = Some (MkFP 2 0 0)).
Proof.
  apply (file_blocks_tile demo_file demo_info 5536); [vm_compute; reflexivity|cbn; lia..|vm_compute; reflexivity].
Defined.

(** Merging keeps the bytes: the merged ranges cover exactly the offsets
    of exactly the pieces that the given ranges cover, in whatever order they
    are given. *)
Theorem merge_keeps_bytes fps i x :
  Forall fp_wf fps -> covered (Merge fps) i x <-> covered fps i x.
Proof. apply Merge_covered. Qed.

Definition demo_fps : list FilePiece := [MkFP 3 16 4; MkFP 1 0 8; MkFP 3 0 16; MkFP 3 30 2].

Lemma merge_keeps_bytes_witness :
  Merge demo_fps = [MkFP 1 0 8; MkFP 3 0 20; MkFP 3 30 2] /\ (covered (Merge demo_fps) 3 17 <-> covered demo_fps 3 17).
Proof.
  split; [vm_compute; reflexivity|]. apply (merge_keeps_bytes demo_fps 3 17).
  repeat constructor; cbn; lia.
Defined.

(** The piece hashes of a torrent's files are the SHA-1 digests of
    consecutive chunks of the concatenated files, every chunk of the piece
    length but the last, which is not empty: no byte is left out, and hashing
    always ends. *)
Theorem pieces_hash_all_data files open contents pl :
  0 < pl -> Forall2 (fun f c => open f = Ok c /\ f_Length f = len c) files contents ->
  exists chunks, GeneratePiecesFromFiles files pl open = Ok (map Sha1.Sum chunks) /\
    concat chunks = concat contents /\ chunked pl chunks.
Proof.
  intros Hpl Hf. unfold GeneratePiecesFromFiles. rewrite decide_False by lia. rewrite (writeFiles_ok _ _ _ Hf).
  apply GeneratePieces_chunks; [done|lia].
Qed.

Lemma pieces_hash_all_data_witness :
  exists chunks, GeneratePiecesFromFiles [MkFile 5 []; MkFile 3 []] 4
      (fun f => if decide (f_Length f = 5) then Ok (bs "hello") else Ok (bs "abc")) = Ok (map Sha1.Sum chunks) /\
    concat chunks = bs "helloabc" /\ chunked 4 chunks.
Proof.
  apply (pieces_hash_all_data [MkFile 5 []; MkFile 3 []]
    (fun f => if decide (f_Length f = 5) then Ok (bs "hello") else Ok (bs "abc")) [bs "hello"; bs "abc"] 4); [lia|].
  repeat constructor.
Defined.

End MetainfoFacts.
