(* ===== verification/Storage.v ===== *)
(** * Reading and writing the data of a torrent

    Models [src/metainfo/reader.go] and [src/metainfo/writer.go]: the bytes of
    a torrent addressed as one array over its files. The file system maps path
    names to contents; opening a file to write creates it, directories are not
    represented, and creating or syncing a file does not fail. The map of open
    files of a reader or writer is kept as the set of its keys. *)

From S2P Require Import Prelude Sha1 Hash Metainfo MetainfoFacts.
Import Metainfo MetainfoFacts.

Module Storage.

Abbreviation FS := (gmap bytes bytes).

Definition EOF : string := "EOF".
Definition ErrShortWrite : string := "short write".

(** [os.File.ReadAt] and [WriteAt] on the contents of a file. *)
Definition file_ReadAt (content : bytes) (n off : Z) : bytes * option string :=
  if decide (off < 0) then ([], Some "negative offset"%string)
  else
    let got := take (Z.to_nat n) (drop (Z.to_nat off) content) in
    (got, if decide (len got < n) then Some EOF else None).

Definition file_WriteAt (content data : bytes) (off : Z) : bytes :=
  let o := Z.to_nat off in
  take o (content ++ replicate (o - length content) 0) ++ data ++ drop (o + length data) content.

(** ** reader.go *)
Record reader := MkReader { r_info : Info; r_root : bytes; r_files : gset bytes }.

Definition NewReader (rootDir : bytes) (info : Info) : reader := MkReader info rootDir ∅.
Definition reader_Close (r : reader) : reader := MkReader (r_info r) (r_root r) ∅.

Definition reader_open (fs : FS) (r : reader) (filename : bytes) : res (bytes * reader) :=
  match fs !! filename with
  | Some c => Ok (c, MkReader (r_info r) (r_root r) ({[filename]} ∪ r_files r))
  | None => Err "no such file"
  end.

(** The bytes read, the error, and the reader. *)
Fixpoint ReadAt_loop (fuel : nat) (fs : FS) (r : reader) (want offset : Z) : res (bytes * option string * reader) :=
  match fuel with
  | O => NoFuel
  | S f =>
      if decide (want <= 0) then Ok ([], None, r)
      else
        '(file, fileOffset) ← GetFileByOffset (r_info r) offset;
        if decide (f_Length file = 0 \/ f_Length file = fileOffset) then Ok ([], Some EOF, r)
        else
          let n := Z.min want (f_Length file - fileOffset) in
          match reader_open fs r (PathWithPrefix file (r_root r) (r_info r)) with
          | Ok (content, r1) =>
              if decide (n < 0) then Panic "slice bounds out of range"
              else
                let '(got, err) := file_ReadAt content n fileOffset in
                match err with
                | Some e => Ok (got, Some e, r1)
                | None =>
                    '(more, e, r2) ← ReadAt_loop f fs r1 (want - len got) (i64 (offset + len got));
                    Ok (got ++ more, e, r2)
                end
          | Err e | Panic e => Ok ([], Some e, r)
          | NoFuel => NoFuel
          end
  end.

Definition ReadAt (fs : FS) (r : reader) (want offset : Z) : res (bytes * option string * reader) :=
  ReadAt_loop (S (Z.to_nat want)) fs r want offset.
Definition ReadBlock (fs : FS) (r : reader) (pieceIndex pieceOffset want : Z) : res (bytes * option string * reader) :=
  ReadAt fs r want (PieceOffset (r_info r) pieceIndex pieceOffset).

(** ** writer.go *)
Record writer := MkWriter { w_info : Info; w_root : bytes; w_mode : Z; w_files : gset bytes }.

Definition NewWriter (rootDir : bytes) (info : Info) (fileMode : Z) : writer :=
  MkWriter info rootDir (if decide (fileMode = 0) then 384 else fileMode) ∅.
Definition writer_Close (w : writer) : writer := MkWriter (w_info w) (w_root w) (w_mode w) ∅.

Definition writer_open (fs : FS) (w : writer) (filename : bytes) : bytes * writer :=
  (default [] (fs !! filename), MkWriter (w_info w) (w_root w) (w_mode w) ({[filename]} ∪ w_files w)).

(** The count written, the error, the file system and the writer. *)
Fixpoint WriteAt_loop (fuel : nat) (fs : FS) (w : writer) (p : bytes) (offset : Z)
    : res (Z * option string * FS * writer) :=
  match fuel with
  | O => NoFuel
  | S f =>
      if decide (p = []) then Ok (0, None, fs, w)
      else
        '(file, fileOffset) ← GetFileByOffset (w_info w) offset;
        if decide (f_Length file = 0 \/ f_Length file = fileOffset) then Ok (0, Some ErrShortWrite, fs, w)
        else
          let room := f_Length file - fileOffset in
          if decide (room <= len p /\ room <= 0) then Ok (0, None, fs, w)
          else
            let filename := PathWithPrefix file (w_root w) (w_info w) in
            let '(content, w1) := writer_open fs w filename in
            let chunk := take (Z.to_nat room) p in
            if decide (fileOffset < 0) then Ok (0, Some "negative offset"%string, <[filename := content]> fs, w1)
            else
              '(n, e, fs2, w2) ← WriteAt_loop f (<[filename := file_WriteAt content chunk fileOffset]> fs) w1
                                   (drop (length chunk) p) (i64 (offset + len chunk));
              Ok (len chunk + n, e, fs2, w2)
  end.

Definition WriteAt (fs : FS) (w : writer) (p : bytes) (offset : Z) : res (Z * option string * FS * writer) :=
  WriteAt_loop (S (length p)) fs w p offset.
Definition WriteBlock (fs : FS) (w : writer) (pieceIndex pieceOffset : Z) (p : bytes)
    : res (Z * option string * FS * writer) :=
  WriteAt fs w p (PieceOffset (w_info w) pieceIndex pieceOffset).

(** ** The torrent as one array *)
Definition files_of (info : Info) : list File :=
  if IsDir info then i_Files info else [MkFile (i_Length info) [i_Name info]].

Fixpoint size (l : list File) : Z := match l with [] => 0 | f :: l' => f_Length f + size l' end.

(** Lengths that make sense, and a path of its own for every file. *)
Definition info_wf (root : bytes) (info : Info) : Prop :=
  Forall (fun f => 0 <= f_Length f) (files_of info) /\ size (files_of info) < 2 ^ 63 /\
  NoDup (map (fun f => PathWithPrefix f root info) (files_of info)).

(** Offset [x] is byte [o] of the [i]th file. *)
Definition at_file (l : list File) (i : nat) (f : File) (o x : Z) : Prop :=
  l !! i = Some f /\ x = size (take i l) + o /\ 0 <= o < f_Length f.

Lemma size_nonneg l : Forall (fun f => 0 <= f_Length f) l -> 0 <= size l.
Proof. induction 1; cbn; lia. Qed.

Lemma find_file_at l x :
  Forall (fun f => 0 <= f_Length f) l -> size l < 2 ^ 63 -> 0 <= x < size l ->
  exists i f o, find_file l x = Ok (f, o) /\ at_file l i f o x.
Proof.
  intros Hl. revert x. induction Hl as [|f l Hf Hl IH]; intros x Hs Hx; cbn [size] in *; [lia|].
  cbn [find_file]. case_decide as Hlt.
  - exists O, f, x. split; [done|]. repeat split; try done; cbn; lia.
  - pose proof (size_nonneg l Hl). rewrite i64_small by lia. destruct l as [|g l]; [cbn in *; lia|].
    destruct (IH (x - f_Length f)) as (i & f' & o & E & H1 & H2 & H3); [lia..|].
    exists (S i), f', o. split; [done|]. repeat split; [done|cbn [take size]; lia|lia|lia].
Qed.

Lemma find_file_end l :
  Forall (fun f => 0 <= f_Length f) l -> size l < 2 ^ 63 -> l <> [] ->
  exists f o, find_file l (size l) = Ok (f, o) /\ (f_Length f = 0 \/ f_Length f = o).
Proof.
  intros Hl. induction Hl as [|f l Hf Hl IH]; intros Hs Hne; [done|]. cbn [size find_file] in *.
  pose proof (size_nonneg l Hl). rewrite decide_False by lia. rewrite i64_small by lia. destruct l as [|g l].
  - cbn [size] in *. rewrite decide_True by lia. exists f, (f_Length f + 0). split; [done|lia].
  - replace (f_Length f + size (g :: l) - f_Length f) with (size (g :: l)) by lia. apply IH; [lia|done].
Qed.

Lemma GetFile_at root info x :
  info_wf root info -> 0 <= x < size (files_of info) ->
  exists i f o, GetFileByOffset info x = Ok (f, o) /\ at_file (files_of info) i f o x.
Proof.
  intros (Hl & Hs & _) Hx. unfold GetFileByOffset, files_of in *. destruct (IsDir info).
  - by apply find_file_at.
  - cbn [size] in Hx. cbn [f_Length] in Hx. rewrite decide_False by lia. exists O. eexists _, x. split; [done|].
    repeat split; cbn; lia.
Qed.

Lemma GetFile_end root info :
  info_wf root info -> exists f o, GetFileByOffset info (size (files_of info)) = Ok (f, o) /\ (f_Length f = 0 \/ f_Length f = o).
Proof.
  intros (Hl & Hs & _). unfold GetFileByOffset, files_of in *. destruct (IsDir info) eqn:Ed.
  - apply find_file_end; [done..|]. unfold IsDir in Ed. intros E. rewrite E in Ed. done.
  - cbn [size f_Length]. rewrite decide_False by lia. eexists _, _. split; [done|]. cbn. lia.
Qed.

Lemma size_app l k : size (l ++ k) = size l + size k.
Proof. induction l; cbn; lia. Qed.

Lemma size_prefix l i j :
  Forall (fun f => 0 <= f_Length f) l -> (i <= j)%nat -> size (take i l) <= size (take j l).
Proof.
  intros Hl Hij. rewrite <- (take_drop i (take j l)), take_take, Nat.min_l, size_app by done.
  pose proof (size_nonneg (drop i (take j l)) ltac:(by apply Forall_drop, Forall_take)). lia.
Qed.

Lemma size_take_S l i f : l !! i = Some f -> size (take (S i) l) = size (take i l) + f_Length f.
Proof. intros E. rewrite (take_S_r _ _ _ E), size_app. cbn. lia. Qed.

(** An offset lies in one file. *)
Lemma at_file_unique l i f o j f' o' x :
  Forall (fun f => 0 <= f_Length f) l -> at_file l i f o x -> at_file l j f' o' x -> i = j /\ f = f' /\ o = o'.
Proof.
  intros Hl (E1 & X1 & B1) (E2 & X2 & B2).
  assert (i = j) as ->.
  { pose proof (size_take_S _ _ _ E1). pose proof (size_take_S _ _ _ E2).
    destruct (lt_eq_lt_dec i j) as [[Hij|]|Hij]; [|done|].
    - pose proof (size_prefix l (S i) j Hl ltac:(lia)). lia.
    - pose proof (size_prefix l (S j) i Hl ltac:(lia)). lia. }
  split; [done|]. rewrite E1 in E2. simplify_eq. split; [done|lia].
Qed.

(** The byte of the torrent at an offset, when it is on disk. *)
Definition disk (root : bytes) (info : Info) (fs : FS) (x : Z) : option Z :=
  match GetFileByOffset info x with
  | Ok (f, o) => match fs !! PathWithPrefix f root info with Some c => c !! Z.to_nat o | None => None end
  | _ => None
  end.

Lemma disk_at root info fs i f o x :
  info_wf root info -> at_file (files_of info) i f o x ->
  disk root info fs x = match fs !! PathWithPrefix f root info with Some c => c !! Z.to_nat o | None => None end.
Proof.
  intros Hw Ha. pose proof Hw as (Hl & Hs & _). pose proof Ha as (E & -> & Ho).
  pose proof (size_nonneg (take i (files_of info)) ltac:(by apply Forall_take)).
  pose proof (size_prefix (files_of info) (S i) (length (files_of info)) Hl) as Hp.
  rewrite firstn_all, (size_take_S _ _ _ E) in Hp. specialize (Hp ltac:(apply lookup_lt_Some in E; lia)).
  destruct (GetFile_at root info (size (take i (files_of info)) + o) Hw) as (j & f' & o' & Eg & Ha'); [lia|].
  unfold disk. rewrite Eg. destruct (at_file_unique _ _ _ _ _ _ _ _ Hl Ha Ha') as (_ & <- & <-). done.
Qed.

(** The same file, further on. *)
Lemma at_file_shift l i f o x k : at_file l i f o x -> 0 <= o + k < f_Length f -> at_file l i f (o + k) (x + k).
Proof. intros (E & -> & _) Hk. repeat split; [done|lia|lia|lia]. Qed.

(** ** Writing *)
Lemma file_WriteAt_lookup c data off k :
  0 <= off -> (k < length (file_WriteAt c data off))%nat ->
  file_WriteAt c data off !! k =
  (if decide (Z.to_nat off <= k < Z.to_nat off + length data)%nat then data !! (k - Z.to_nat off)%nat
   else if decide (k < length c)%nat then c !! k else Some 0).
Proof.
  intros Ho. unfold file_WriteAt. set (o := Z.to_nat off).
  assert (length (take o (c ++ replicate (o - length c) 0)) = o) as Hlen.
  { rewrite length_take, length_app, length_replicate. lia. }
  rewrite !length_app, length_drop, Hlen. intros Hk.
  destruct (decide (k < o)%nat) as [H1|H1].
  - rewrite decide_False by lia. rewrite lookup_app_l by lia. rewrite lookup_take_lt by lia.
    case_decide as Hc; [by rewrite lookup_app_l by lia|].
    rewrite lookup_app_r by lia. rewrite lookup_replicate_2 by lia. done.
  - rewrite lookup_app_r by lia. rewrite Hlen. destruct (decide (k < o + length data)%nat) as [H2|H2].
    + rewrite decide_True by lia. by rewrite lookup_app_l by lia.
    + rewrite decide_False by lia. rewrite lookup_app_r by lia. rewrite lookup_drop.
      replace (o + length data + (k - o - length data))%nat with k by lia. rewrite decide_True by lia. done.
Qed.

Lemma length_file_WriteAt c data off :
  (length (file_WriteAt c data off) = Nat.max (length c) (Z.to_nat off + length data))%nat.
Proof.
  unfold file_WriteAt. rewrite !length_app, length_take, length_app, length_replicate, length_drop. lia.
Qed.

(** What one chunk written inside a file does to the array. *)
Lemma write_chunk root info fs i f o off chunk c x :
  info_wf root info -> at_file (files_of info) i f o off -> o + len chunk <= f_Length f ->
  c = default [] (fs !! PathWithPrefix f root info) -> 0 <= x < size (files_of info) ->
  let fs1 := <[PathWithPrefix f root info := file_WriteAt c chunk o]> fs in
  (off <= x < off + len chunk -> disk root info fs1 x = chunk !! Z.to_nat (x - off)) /\
  (~ off <= x < off + len chunk -> forall b, disk root info fs x = Some b -> disk root info fs1 x = Some b).
Proof.
  intros Hw Ha Hlen Hc Hx fs1. pose proof Hw as (Hl & Hs & Hnd). pose proof Ha as (E & Eoff & Ho).
  destruct (GetFile_at root info x Hw Hx) as (j & g & q & Eg & Hg). rewrite !(disk_at _ _ _ _ _ _ _ Hw Hg).
  pose proof Hg as (Ej & Ex & Hq). unfold fs1.
  destruct (decide (i = j)) as [<-|Hij].
  - rewrite E in Ej. simplify_eq. rewrite lookup_insert_eq.
    pose proof (length_file_WriteAt (default [] (fs !! PathWithPrefix g root info)) chunk o) as Hfl.
    unfold len in *. split.
    + intros Hin. rewrite file_WriteAt_lookup by lia. rewrite decide_True by lia. f_equal. lia.
    + intros Hout b Hb. revert Hb Hfl. destruct (fs !! PathWithPrefix g root info) as [c|]; [|done].
      change (default [] (Some c)) with c. intros Hb Hfl. apply lookup_lt_Some in Hb as Hlt.
      rewrite file_WriteAt_lookup by lia. rewrite decide_False by lia. by rewrite decide_True.
  - assert (PathWithPrefix f root info <> PathWithPrefix g root info) as Hne.
    { intros Hp. apply Hij. eapply NoDup_lookup; [exact Hnd|..]; rewrite list_lookup_fmap; [by rewrite E|].
      rewrite Ej. cbn. by rewrite Hp. }
    rewrite lookup_insert_ne by done. split; [|done]. intros Hin. exfalso.
    pose proof (at_file_shift _ _ _ _ _ (x - off) Ha ltac:(lia)) as Hsh.
    replace (off + (x - off)) with x in Hsh by lia.
    by destruct (at_file_unique _ _ _ _ _ _ _ _ Hl Hsh Hg).
Qed.

(** The loop writes everything when there is room for it. *)
Lemma WriteAt_loop_ok fuel fs w p off :
  let info := w_info w in let root := w_root w in
  info_wf root info -> 0 <= off -> off + len p <= size (files_of info) -> (length p < fuel)%nat ->
  exists fs' w', WriteAt_loop fuel fs w p off = Ok (len p, None, fs', w') /\ w_info w' = info /\ w_root w' = root /\
    forall x, 0 <= x < size (files_of info) ->
      (off <= x < off + len p -> disk root info fs' x = p !! Z.to_nat (x - off)) /\
      (~ off <= x < off + len p -> forall b, disk root info fs x = Some b -> disk root info fs' x = Some b).
Proof.
  intros info root Hw. revert fs w p off info root Hw.
  induction fuel as [|f IH]; intros fs w p off info root Hw H0 Hp Hf; [lia|]. cbn [WriteAt_loop].
  destruct (decide (p = [])) as [-> |Hne].
  { exists fs, w. split_and!; try done. intros x Hx. split; [|done]. change (len (@nil Z)) with 0. lia. }
  assert (0 < len p) by (destruct p; [done|]; rewrite len_cons; pose proof (len_nonneg p); lia).
  destruct (GetFile_at root info off Hw ltac:(lia)) as (i & file & o & Eg & Ha). fold info. rewrite Eg, bind_Ok.
  pose proof Ha as (E & Eoff & Ho). rewrite decide_False by lia. rewrite decide_False by lia.
  fold root. cbn [writer_open]. set (name := PathWithPrefix file root info).
  set (c := default [] (fs !! name)). set (chunk := take (Z.to_nat (f_Length file - o)) p).
  rewrite decide_False by lia.
  assert (len chunk = Z.min (f_Length file - o) (len p)) as Hcl by (unfold chunk, len; rewrite length_take; lia).
  assert (Z.of_nat (length chunk) = len chunk) as Hcl' by done.
  assert (0 < len chunk) by lia.
  assert (size (files_of info) < 2 ^ 63) by apply Hw.
  rewrite i64_small by lia.
  set (w1 := MkWriter (w_info w) (w_root w) (w_mode w) ({[name]} ∪ w_files w)).
  set (fs1 := <[name := file_WriteAt c chunk o]> fs).
  assert (len (drop (length chunk) p) = len p - len chunk) as Hdl by (unfold len in *; rewrite length_drop; lia).
  destruct (IH fs1 w1 (drop (length chunk) p) (off + len chunk)) as (fs2 & w2 & E2 & Hi2 & Hr2 & Hd2);
    [exact Hw|lia|change (off + len chunk + len (drop (length chunk) p) <= size (files_of info)); lia
    |rewrite length_drop; unfold len in *; lia|].
  exists fs2, w2. rewrite E2, bind_Ok. split_and!; [repeat f_equal; lia|done|done|].
  intros x Hx. destruct (Hd2 x Hx) as [Hin Hout].
  destruct (write_chunk root info fs i file o off chunk c x Hw Ha ltac:(lia) eq_refl Hx) as [Cin Cout].
  change (w_root w1) with root in *. change (w_info w1) with info in *. fold name in Cin, Cout. fold fs1 in Cin, Cout.
  split.
  - intros Hr. destruct (decide (x < off + len chunk)) as [Hc|Hc].
    + destruct (lookup_lt_is_Some_2 chunk (Z.to_nat (x - off))) as [b Eb]; [unfold len in *; lia|].
      rewrite (Hout ltac:(lia) b); [|by rewrite Cin by lia].
      unfold chunk in Eb. apply lookup_take_Some in Eb as [Eb _]. by rewrite Eb.
    + rewrite Hin by lia. rewrite lookup_drop. f_equal. lia.
  - intros Hr b Hb. apply Hout; [lia|]. apply Cout; [lia|done].
Qed.

(** ** Reading *)

(** A piece of a file whose bytes are all on disk. *)
Lemma file_ReadAt_ok c n o d :
  0 <= o -> 0 < n <= len d -> (forall k, (k < Z.to_nat n)%nat -> c !! (Z.to_nat o + k)%nat = d !! k) ->
  file_ReadAt c n o = (take (Z.to_nat n) d, None).
Proof.
  intros Ho Hn Hk. unfold file_ReadAt. rewrite decide_False by lia.
  assert (take (Z.to_nat n) (drop (Z.to_nat o) c) = take (Z.to_nat n) d) as ->.
  { apply list_eq. intros k. destruct (decide (k < Z.to_nat n)%nat).
    - rewrite !lookup_take_lt by done. rewrite lookup_drop. by apply Hk.
    - rewrite !lookup_take_ge by lia. done. }
  f_equal. rewrite decide_False; [done|]. unfold len in *. rewrite length_take. lia.
Qed.

(** The loop reads everything there is, and reports the end when it is met. *)
Lemma ReadAt_loop_ok fuel fs r want off d :
  let info := r_info r in let root := r_root r in
  info_wf root info -> 0 <= off <= size (files_of info) -> 0 <= want ->
  len d = Z.min want (size (files_of info) - off) ->
  (forall k, (k < length d)%nat -> disk root info fs (off + Z.of_nat k) = d !! k) ->
  (Z.to_nat want < fuel)%nat ->
  exists r', ReadAt_loop fuel fs r want off =
    Ok (d, if decide (size (files_of info) < off + want) then Some EOF else None, r').
Proof.
  intros info root Hw. revert r want off d info root Hw.
  induction fuel as [|f IH]; intros r want off d info root Hw Hoff Hwant Hd Hdisk Hf; [lia|]. cbn [ReadAt_loop].
  destruct (decide (want <= 0)) as [H0|H0].
  { exists r. assert (d = []) as -> by (apply len_zero; lia). rewrite decide_False by lia. done. }
  fold info. destruct (decide (off = size (files_of info))) as [-> |Hlt].
  { destruct (GetFile_end root info Hw) as (file & o & -> & He). rewrite bind_Ok, decide_True by lia.
    exists r. assert (d = []) as -> by (apply len_zero; lia). rewrite decide_True by lia. done. }
  destruct (GetFile_at root info off Hw ltac:(lia)) as (i & file & o & Eg & Ha). rewrite Eg, bind_Ok.
  pose proof Ha as (E & Eoff & Ho). rewrite decide_False by lia. set (n := Z.min want (f_Length file - o)).
  assert (off + (f_Length file - o) <= size (files_of info)) as Hroom.
  { pose proof (size_prefix (files_of info) (S i) (length (files_of info)) (proj1 Hw)) as Hp.
    rewrite firstn_all, (size_take_S _ _ _ E) in Hp. specialize (Hp ltac:(apply lookup_lt_Some in E; lia)). lia. }
  assert (0 < n <= len d) as Hn by lia. fold root. unfold reader_open.
  assert (forall k, (k < Z.to_nat n)%nat -> exists c, fs !! PathWithPrefix file root info = Some c /\
    c !! (Z.to_nat o + k)%nat = d !! k) as Hc.
  { intros k Hk. specialize (Hdisk k ltac:(unfold len in *; lia)).
    rewrite (disk_at _ _ _ _ _ _ _ Hw (at_file_shift _ _ _ _ _ (Z.of_nat k) Ha ltac:(lia))) in Hdisk.
    destruct (lookup_lt_is_Some_2 d k ltac:(unfold len in *; lia)) as [b Eb]. rewrite Eb in *.
    destruct (fs !! PathWithPrefix file root info) as [c|]; [|done]. exists c. split; [done|].
    rewrite <- Hdisk. f_equal. lia. }
  destruct (Hc O ltac:(lia)) as (c & Ec & _). rewrite Ec.
  rewrite decide_False by lia. rewrite (file_ReadAt_ok c n o d); [|lia|done|].
  2: { intros k Hk. destruct (Hc k Hk) as (c' & Ec' & <-). by simplify_eq. }
  set (r1 := MkReader _ _ _).
  assert (len (take (Z.to_nat n) d) = n) as Hlen by (unfold len in *; rewrite length_take; lia).
  rewrite Hlen. assert (size (files_of info) < 2 ^ 63) by apply Hw. rewrite i64_small by lia.
  destruct (IH r1 (want - n) (off + n) (drop (Z.to_nat n) d)) as [r2 E2].
  - exact Hw.
  - change (0 <= off + n <= size (files_of info)). lia.
  - lia.
  - change (files_of (r_info r1)) with (files_of info). unfold len in *. rewrite length_drop. lia.
  - change (forall k, (k < length (drop (Z.to_nat n) d))%nat ->
      disk root info fs (off + n + Z.of_nat k) = drop (Z.to_nat n) d !! k).
    intros k Hk. rewrite lookup_drop. rewrite length_drop in Hk. rewrite <- Hdisk by lia. f_equal. lia.
  - lia.
  - exists r2. rewrite E2, bind_Ok. rewrite take_drop. change (files_of (r_info r1)) with (files_of info).
    replace (off + n + (want - n)) with (off + want) by lia. done.
Qed.

(** ** The properties *)

(** C6: What is written is read back: writing [p] anywhere inside the torrent
    succeeds in full across file boundaries, on any disk, and reading the same
    range then returns exactly [p]; every other byte that was on disk keeps
    its value. *)
Theorem write_then_read fs w p off :
  info_wf (w_root w) (w_info w) -> 0 <= off -> off + len p <= size (files_of (w_info w)) ->
  exists fs' w', WriteAt fs w p off = Ok (len p, None, fs', w') /\
    (exists r', ReadAt fs' (NewReader (w_root w) (w_info w)) (len p) off = Ok (p, None, r')) /\
    (forall x b, 0 <= x < size (files_of (w_info w)) -> ~ off <= x < off + len p ->
       disk (w_root w) (w_info w) fs x = Some b -> disk (w_root w) (w_info w) fs' x = Some b).
Proof.
  intros Hw H0 Hp. destruct (WriteAt_loop_ok (S (length p)) fs w p off Hw H0 Hp ltac:(lia)) as (fs' & w' & E & _ & _ & Hd).
  exists fs', w'. split; [done|]. pose proof (len_nonneg p). split.
  - destruct (ReadAt_loop_ok (S (Z.to_nat (len p))) fs' (NewReader (w_root w) (w_info w)) (len p) off p) as [r' E'];
      cbn [r_info r_root NewReader]; [done|lia|lia|lia| |lia|].
    + intros k Hk. rewrite (proj1 (Hd (off + Z.of_nat k) ltac:(unfold len in *; lia))) by (unfold len in *; lia).
      f_equal. lia.
    + exists r'. unfold ReadAt. rewrite E'. cbn [r_info NewReader]. by rewrite decide_False by lia.
  - intros x b Hx Hout Hb. by apply (proj2 (Hd x Hx) Hout).
Qed.

Definition demo_store : Info :=
  MkInfo (bs "t") 4 [] 0 [MkFile 3 [bs "a"]; MkFile 0 [bs "e"]; MkFile 5 [bs "d"; bs "b"]].

Lemma write_then_read_witness :
  exists fs' w', WriteAt ∅ (NewWriter (bs "/dl") demo_store 0) (bs "wxyz") 1 = Ok (4, None, fs', w') /\
    (exists r', ReadAt fs' (NewReader (bs "/dl") demo_store) 4 1 = Ok (bs "wxyz", None, r')) /\
    (forall x b, 0 <= x < 8 -> ~ 1 <= x < 1 + 4 ->
       disk (bs "/dl") demo_store ∅ x = Some b -> disk (bs "/dl") demo_store fs' x = Some b).
Proof.
  apply (write_then_read ∅ (NewWriter (bs "/dl") demo_store 0) (bs "wxyz") 1).
  - split_and!; [repeat constructor; cbn; lia|cbn; lia|].
    apply (bool_decide_unpack _). vm_compute. exact I.
  - lia.
  - vm_compute. discriminate.
Defined.

(** An offset past the end of a multi-file torrent is not refused: when it
    exceeds the total size by no more than the length of the last file, it is
    located inside the last file again, at the distance past the end, so a
    block addressed there is read from and written over the last file's data. *)
Theorem offset_past_end_aliases info f k :
  IsDir info = true -> last (i_Files info) = Some f -> Forall (fun g => 0 <= f_Length g) (i_Files info) ->
  size (i_Files info) + k < 2 ^ 63 -> 0 < k <= f_Length f ->
  GetFileByOffset info (size (i_Files info) + k) = Ok (f, k).
Proof.
  intros Hd Hl Hn Hs Hk. unfold GetFileByOffset. rewrite Hd. clear Hd.
  assert (forall l, last l = Some f -> Forall (fun g => 0 <= f_Length g) l -> size l + k < 2 ^ 63 ->
    find_file l (size l + k) = Ok (f, k)) as Hfind; [|by apply Hfind].
  clear info Hl Hn Hs. induction l as [|g l IH]; intros Hl Hn Hs; [done|].
  inversion_clear Hn as [|?? Hg Hn']. pose proof (size_nonneg l Hn'). cbn [size find_file] in *.
  rewrite decide_False by lia. rewrite i64_small by lia. destruct l as [|g' l].
  - cbn in Hl. simplify_eq. cbn [size]. rewrite decide_False by lia. rewrite decide_False by lia.
    do 2 f_equal. lia.
  - replace (f_Length g + size (g' :: l) + k - f_Length g) with (size (g' :: l) + k) by lia.
    apply IH; [done|done|lia].
Qed.

Lemma offset_past_end_aliases_witness :
  GetFileByOffset demo_store (8 + 2) = Ok (MkFile 5 [bs "d"; bs "b"], 2).
Proof.
  apply (offset_past_end_aliases demo_store (MkFile 5 [bs "d"; bs "b"]) 2);
    [reflexivity|reflexivity|repeat constructor; cbn; lia|cbn; lia|cbn; lia].
Defined.

End Storage.
