(* ===== verification/Routing.v ===== *)
(** * The DHT routing table

    Models [src/dht/routing_table.go] and [src/dht/routing_table_storage.go]:
    the table of 160 buckets, [AddNode], [CheckAllNodes] and [Closest], the
    storage it is loaded from and dumped to, and the goroutine of [Start] as a
    step relation. Times and durations are nanoseconds, and the clock is an
    argument. An address is any [net.Addr], of which the table only uses the
    printed form.

    The slots of a bucket are pointers to nodes. Two slots hold the same node
    exactly when they have the same ID, since a node is only added when no
    slot has its ID; an update through one of them is seen in all, so the
    update is written for every slot with the ID. *)

From S2P Require Import Prelude Sha1 Hash.
Import Hash.

Module Routing.

Section Routing.
Context {A : Type} `{NetAddr A}.

(** [krpc.Node] with its [metainfo.Address]. *)
Record Node := MkNode { n_ID : bytes; n_IP : A; n_Port : Z }.

(** [Address.Equal]. *)
Definition Addr_Equal (a b : Node) : bool :=
  bool_decide (n_Port a = n_Port b) && bool_decide (addr_String (n_IP a) = addr_String (n_IP b)).

Record wrappedNode := MkWrapped { w_Node : Node; w_LastChanged : Z }.
Definition w_ID (w : wrappedNode) : bytes := n_ID (w_Node w).

Record bucket := MkBucket { b_Nodes : list wrappedNode; b_LastChanged : Z }.
Record routingTable := MkTable { rt_k : Z; rt_root : bytes; rt_bkts : list bucket }.

Definition minute : Z := 60 * 1000000000.
Definition badTimeout : Z := 20 * minute.
Definition dubiousTimeout : Z := 15 * minute.

(** The zero [time.Time], in nanoseconds of the Unix epoch. *)
Definition zeroTime : Z := - 62135596800 * 1000000000.

Definition bktlen : nat := 160.

Inductive AddStatus := NodeAdded | NodeNotAdded | NodeExistAndUpdated | NodeExistAndChanged.
Inductive NodeStatus := nodeStatusGood | nodeStatusDubious | nodeStatusBad.

Definition IsBad (now : Z) (n : wrappedNode) : bool := bool_decide (badTimeout < now - w_LastChanged n).
Definition IsDubious (now : Z) (n : wrappedNode) : bool := bool_decide (dubiousTimeout < now - w_LastChanged n).
Definition Status (now : Z) (n : wrappedNode) : NodeStatus :=
  let duration := now - w_LastChanged n in
  if decide (badTimeout < duration) then nodeStatusBad
  else if decide (dubiousTimeout < duration) then nodeStatusDubious
  else nodeStatusGood.

(** ** Distance and buckets *)
Fixpoint distcmp (target a b : bytes) : Z :=
  match target, a, b with
  | t :: target', x :: a', y :: b' =>
      let da := Z.lxor x t in
      let db := Z.lxor y t in
      if decide (db < da) then 1 else if decide (da < db) then -1 else distcmp target' a' b'
  | _, _, _ => 0
  end.

(** The position of the highest bit of a byte, as the switch finds it. *)
Definition bitDiff (v : Z) : option Z :=
  if decide (0 < Z.land v 128) then Some 7
  else if decide (0 < Z.land v 64) then Some 6
  else if decide (0 < Z.land v 32) then Some 5
  else if decide (0 < Z.land v 16) then Some 4
  else if decide (0 < Z.land v 8) then Some 3
  else if decide (0 < Z.land v 4) then Some 2
  else if decide (0 < Z.land v 2) then Some 1
  else if decide (0 < Z.land v 1) then Some 0
  else None.

Fixpoint bucketid_loop (i : Z) (ownerid nid : bytes) : Z :=
  match ownerid, nid with
  | bite :: ownerid', x :: nid' =>
      match bitDiff (Z.lxor bite x) with
      | Some d => i * 8 + (7 - d)
      | None => match ownerid' with [] => i * 8 + 7 | _ => bucketid_loop (i + 1) ownerid' nid' end
      end
  | _, _ => i * 8 + 7
  end.
Definition bucketid (ownerid nid : bytes) : Z := bucketid_loop 0 ownerid nid.

(** ** Buckets *)
Definition UpdateLastChangedTime (id : bytes) (now : Z) (l : list wrappedNode) : list wrappedNode :=
  map (fun w => if decide (w_ID w = id) then MkWrapped (w_Node w) now else w) l.

Fixpoint find_bad (now : Z) (i : nat) (l : list wrappedNode) : option nat :=
  match l with [] => None | w :: l' => if IsBad now w then Some i else find_bad now (S i) l' end.

(** [copy(b.Nodes[i:], b.Nodes[i+1:])]: the slots after [i] move down one, and
    the last slot keeps what it had. *)
Definition shift_down (i : nat) (l : list wrappedNode) : list wrappedNode :=
  take i l ++ drop (S i) l ++ match last l with Some w => [w] | None => [] end.

Definition bucket_AddNode (k : Z) (n : Node) (now : Z) (b : bucket) : AddStatus * bucket :=
  match list_find (fun w => w_ID w = n_ID n) (b_Nodes b) with
  | Some (_, orig) =>
      if Addr_Equal (w_Node orig) n
      then (NodeExistAndUpdated, MkBucket (UpdateLastChangedTime (n_ID n) now (b_Nodes b)) now)
      else (NodeExistAndChanged, b)
  | None =>
      if decide (len (b_Nodes b) < k) then (NodeAdded, MkBucket (b_Nodes b ++ [MkWrapped n now]) now)
      else
        match find_bad now 0 (b_Nodes b) with
        | Some i => (NodeAdded, MkBucket (shift_down i (b_Nodes b) ++ [MkWrapped n now]) now)
        | None => (NodeNotAdded, b)
        end
  end.

Definition delNodeByIndex (index : nat) (l : list wrappedNode) : res (list wrappedNode) :=
  if decide (S index <= length l)%nat then Ok (take index l ++ drop (S index) l)
  else Panic "slice bounds out of range".

(** The nodes left and whether a deletion panicked, after those before it. *)
Fixpoint del_all (indexes : list nat) (l : list wrappedNode) : list wrappedNode * bool :=
  match indexes with
  | [] => (l, false)
  | i :: indexes' => match delNodeByIndex i l with Ok l' => del_all indexes' l' | _ => (l, true) end
  end.

Fixpoint bad_indexes (now : Z) (i : nat) (l : list wrappedNode) : list nat :=
  match l with
  | [] => []
  | w :: l' => match Status now w with nodeStatusBad => [i] | _ => [] end ++ bad_indexes now (S i) l'
  end.

(** The nodes that get a ping. *)
Definition pinged (now : Z) (l : list wrappedNode) : list Node :=
  omap (fun w => match Status now w with nodeStatusDubious => Some (w_Node w) | _ => None end) l.

(** [CheckAllNodes]: the nodes pinged, the bucket left, and whether it
    panicked. *)
Definition CheckAllNodes (now : Z) (b : bucket) : list Node * bucket * bool :=
  if decide (b_Nodes b = [] \/ now - b_LastChanged b < dubiousTimeout) then ([], b, false)
  else
    let '(l, panicked) := del_all (bad_indexes now 0 (b_Nodes b)) (b_Nodes b) in
    (pinged now (b_Nodes b), MkBucket l (b_LastChanged b), panicked).

(** ** The table *)
Definition newRoutingTable (k : Z) (root : bytes) : routingTable :=
  MkTable k root (replicate bktlen (MkBucket [] zeroTime)).

Definition addNode (n : Node) (now : Z) (rt : routingTable) : res (AddStatus * routingTable) :=
  let i := Z.to_nat (bucketid (rt_root rt) (n_ID n)) in
  match rt_bkts rt !! i with
  | Some b =>
      let '(s, b') := bucket_AddNode (rt_k rt) n now b in
      Ok (s, MkTable (rt_k rt) (rt_root rt) (<[i := b']> (rt_bkts rt)))
  | None => Panic "index out of range"
  end.

Definition AddNode (n : Node) (now : Z) (rt : routingTable) : res (AddStatus * routingTable) :=
  if decide (n_ID n = rt_root rt) then Ok (NodeNotAdded, rt) else addNode n now rt.

(** The loading loop of [newRoutingTable]. *)
Fixpoint load (nodes : list wrappedNode) (now : Z) (rt : routingTable) : res routingTable :=
  match nodes with
  | [] => Ok rt
  | w :: nodes' =>
      if decide (now - w_LastChanged w < dubiousTimeout)
      then '(_, rt') ← addNode (w_Node w) (w_LastChanged w) rt; load nodes' now rt'
      else load nodes' now rt
  end.

Definition all_nodes (rt : routingTable) : list wrappedNode := concat (map b_Nodes (rt_bkts rt)).
Definition Len (rt : routingTable) : Z := len (all_nodes rt).

(** [checkAllBuckets]: a panic in one bucket is recovered, and the buckets
    after it are left unchecked. *)
Fixpoint check_buckets (now : Z) (l : list bucket) : list Node * list bucket :=
  match l with
  | [] => ([], [])
  | b :: l' =>
      let '(p, b', panicked) := CheckAllNodes now b in
      if panicked then (p, b' :: l')
      else let '(ps, l'') := check_buckets now l' in (p ++ ps, b' :: l'')
  end.

Definition checkAllBuckets (now : Z) (rt : routingTable) : list Node * routingTable :=
  let '(ps, l) := check_buckets now (rt_bkts rt) in (ps, MkTable (rt_k rt) (rt_root rt) l).

(** ** Closest *)

(** [sort.Search]: the least index with [f], by bisection. *)
Fixpoint Search_loop (fuel : nat) (i j : nat) (f : nat -> bool) : nat :=
  match fuel with
  | O => i
  | S fuel' =>
      if decide (i < j)%nat then
        let h := ((i + j) / 2)%nat in
        if f h then Search_loop fuel' i h f else Search_loop fuel' (S h) j f
      else i
  end.
Definition Search (n : nat) (f : nat -> bool) : nat := Search_loop (S n) 0 n f.

Definition push (target : bytes) (maxnum : Z) (nodes : list Node) (node : Node) : list Node :=
  let ix := Search (length nodes)
    (fun i => match nodes !! i with Some m => bool_decide (0 < distcmp target (n_ID m) (n_ID node)) | None => false end) in
  let nodes1 := if decide (len nodes < maxnum) then nodes ++ [node] else nodes in
  if decide (ix = length nodes1) then nodes1
  else take ix nodes1 ++ [node] ++ take (length nodes1 - S ix) (drop ix nodes1).

Definition Closest (target : bytes) (maxnum : Z) (rt : routingTable) : list Node :=
  foldl (push target maxnum) [] (map w_Node (all_nodes rt)).

(** ** The storage *)

(** [RoutingTableStorage]: what [Load] and [Dump] return, with the storage
    afterwards. A [RoutingTableNode] is a node with its time, as in a bucket. *)
Class RoutingTableStorage (S : Type) := {
  storage_Load : bytes -> bool -> S -> res (list wrappedNode) * S;
  storage_Dump : bytes -> list wrappedNode -> bool -> S -> res () * S
}.

(** [NewNoopRoutingTableStorage]. *)
#[global] Instance noopStorage : RoutingTableStorage () :=
  {| storage_Load := fun _ _ s => (Ok [], s); storage_Dump := fun _ _ _ s => (Ok (), s) |}.

Section Storage.
Context {S : Type} `{!RoutingTableStorage S}.

(** The whole of [newRoutingTable]: an error of [Load] is logged, and the table
    starts empty. *)
Definition openRoutingTable (k : Z) (root : bytes) (ipv6 : bool) (now : Z) (s : S) : res routingTable * S :=
  let rt := newRoutingTable k root in
  match storage_Load root ipv6 s with
  | (Ok nodes, s) => (load nodes now rt, s)
  | (Err _, s) => (Ok rt, s)
  | (Panic p, s) => (Panic p, s)
  | (NoFuel, s) => (NoFuel, s)
  end.

(** [dump]: an empty table is not stored, and an error of [Dump] is logged. *)
Definition dump (ipv6 : bool) (rt : routingTable) (s : S) : S :=
  let nodes := all_nodes rt in
  if decide (nodes = []) then s else (storage_Dump (rt_root rt) nodes ipv6 s).2.

(** ** The goroutine

    [l_waiting]: the calls of [Sync] that have not been received; [l_exit]:
    the exit channel is closed; [l_running]: [Start] has not returned. *)
Record looper := MkLooper { l_table : routingTable; l_store : S; l_waiting : nat; l_exit : bool; l_running : bool }.
Definition started (rt : routingTable) (s : S) : looper := MkLooper rt s 0 false true.

(** [Stop], by one caller at a time: closing twice is avoided. *)
Definition Stop (l : looper) : looper :=
  if l_exit l then l else MkLooper (l_table l) (l_store l) (l_waiting l) true (l_running l).

(** One iteration of [Start], or a call from outside. [Sync] returns at once
    or later when the exit channel is closed. *)
Inductive step (ipv6 : bool) : looper -> looper -> Prop :=
  | start_exit rt s n : step ipv6 (MkLooper rt s n true true) (MkLooper rt (dump ipv6 rt s) n true false)
  | start_sync rt s n ex : step ipv6 (MkLooper rt s (Datatypes.S n) ex true) (MkLooper rt (dump ipv6 rt s) n ex true)
  | start_tick rt s n ex now : step ipv6 (MkLooper rt s n ex true) (MkLooper (checkAllBuckets now rt).2 s n ex true)
  | sync_call rt s n ex r : step ipv6 (MkLooper rt s n ex r) (MkLooper rt s (Datatypes.S n) ex r)
  | sync_exit rt s n r : step ipv6 (MkLooper rt s (Datatypes.S n) true r) (MkLooper rt s n true r)
  | stop_call l : step ipv6 l (Stop l)
  | add_call rt s n ex r node now st rt' :
      AddNode node now rt = Ok (st, rt') -> step ipv6 (MkLooper rt s n ex r) (MkLooper rt' s n ex r).
End Storage.
End Routing.
End Routing.
