(* ===== verification/RoutingFacts.v ===== *)
(** * The routing table: properties

    [Closest] returns the nearest nodes in order; every node lies in the
    bucket of its distance to the owner; and two places where the handling of
    bad nodes goes wrong. *)

From S2P Require Import Prelude Sha1 Hash Routing.
Import Hash Routing.

Module RoutingFacts.

Section Facts.
Context {A : Type} `{NetAddr A}.
Abbreviation Node := (Node (A := A)).

(** ** Distance *)
Definition dist (target : bytes) (n : Node) : bytes := Xor (n_ID n) target.
Definition nearer (target : bytes) (a b : Node) : Prop := bytes_lt (dist target a) (dist target b).
Definition near_le (target : bytes) (a b : Node) : Prop := bytes_le (dist target a) (dist target b).
#[local] Instance nearer_dec t a b : Decision (nearer t a b).
Proof. unfold nearer. apply _. Defined.

Lemma distcmp_cmp t a b :
  length a = length t -> length b = length t ->
  distcmp t a b = match bytes_cmp (Xor a t) (Xor b t) with Lt => -1 | Eq => 0 | Gt => 1 end.
Proof.
  revert a b. induction t as [|z t IH]; intros [|x a] [|y b] Ha Hb; cbn in *; try done.
  rewrite IH by lia. destruct (Z.compare_spec (Z.lxor x z) (Z.lxor y z)); repeat case_decide; try lia; done.
Qed.

Lemma distcmp_pos t a b :
  length (n_ID a) = length t -> length (n_ID b) = length t ->
  bool_decide (0 < distcmp t (n_ID a) (n_ID b)) = bool_decide (nearer t b a).
Proof.
  intros Ha Hb. apply bool_decide_ext. rewrite distcmp_cmp by done. unfold nearer, bytes_lt, dist.
  rewrite (bytes_cmp_antisym (Xor (n_ID a) t)). by destruct (bytes_cmp _ _).
Qed.

Lemma near_le_nlt t a b : near_le t a b <-> ~ nearer t b a.
Proof.
  unfold near_le, nearer, bytes_le, bytes_lt. rewrite (bytes_cmp_antisym (dist t a)).
  destruct (bytes_cmp _ _); cbn; split; try done; by intros [].
Qed.

#[local] Instance near_le_trans t : Transitive (near_le t).
Proof. intros a b c. unfold near_le. apply transitivity. Qed.

Lemma nearer_le t a b : nearer t a b -> near_le t a b.
Proof. intros Hn. apply bytes_le_lteq. by left. Qed.

(** ** Bisection finds the least index *)
Lemma Search_loop_spec n f fuel i j :
  (forall a b, (a <= b < n)%nat -> f a = true -> f b = true) ->
  (i <= j <= n)%nat -> (j - i < fuel)%nat ->
  (forall a, (a < i)%nat -> f a = false) -> (forall a, (j <= a < n)%nat -> f a = true) ->
  let r := Search_loop fuel i j f in
  (i <= r <= j)%nat /\ (forall a, (a < r)%nat -> f a = false) /\ (forall a, (r <= a < n)%nat -> f a = true).
Proof.
  intros Hmono. revert i j. induction fuel as [|fuel IH]; intros i j Hij Hf Hlo Hhi; [lia|]. cbn [Search_loop].
  case_decide as Hlt; [|cbn; split_and!; [lia|lia|done|]; intros a Ha; apply Hhi; lia].
  set (h := ((i + j) / 2)%nat).
  assert (i <= h < j)%nat as Hh.
  { unfold h. split; [apply Nat.div_le_lower_bound; lia|apply Nat.Div0.div_lt_upper_bound; lia]. }
  destruct (f h) eqn:Eh.
  - destruct (IH i h) as (H1 & H2 & H3); [lia|lia|done| |split_and!; [lia|lia|done|done]].
    intros a Ha. apply (Hmono h a); [lia|done].
  - destruct (IH (S h) j) as (H1 & H2 & H3); [lia|lia| |done|split_and!; [lia|lia|done|done]].
    intros a Ha. destruct (f a) eqn:Ea; [|done]. rewrite (Hmono a h) in Eh; [done|lia|done].
Qed.

Lemma Search_spec n f :
  (forall a b, (a <= b < n)%nat -> f a = true -> f b = true) ->
  let r := Search n f in
  (r <= n)%nat /\ (forall a, (a < r)%nat -> f a = false) /\ (forall a, (r <= a < n)%nat -> f a = true).
Proof.
  intros Hm. unfold Search. destruct (Search_loop_spec n f (S n) 0 n Hm) as (H1 & H2 & H3); try lia.
  split_and!; [lia|done|done].
Qed.

(** ** Insertion by distance, the reference for [push] *)
Fixpoint ins (t : bytes) (x : Node) (l : list Node) : list Node :=
  match l with
  | [] => [x]
  | y :: l' => if decide (nearer t x y) then x :: y :: l' else y :: ins t x l'
  end.

Definition by_distance (t : bytes) (l : list Node) : Prop := StronglySorted (near_le t) l.

Lemma ins_perm t x l : ins t x l ≡ₚ x :: l.
Proof. induction l as [|y l IH]; cbn; [done|]. case_decide; [done|]. rewrite IH. constructor. Qed.

Lemma ins_sorted t x l : by_distance t l -> by_distance t (ins t x l).
Proof.
  induction 1 as [|y l Hs IH Hy]; cbn; [by repeat constructor|]. case_decide as Hxy.
  - constructor; [by constructor|]. constructor; [by apply nearer_le|].
    eapply Forall_impl; [exact Hy|]. intros z Hz. etrans; [by apply nearer_le|done].
  - constructor; [done|]. rewrite ins_perm. constructor; [by apply near_le_nlt|done].
Qed.

Lemma ins_at t x l r :
  (r <= length l)%nat -> (forall a y, (a < r)%nat -> l !! a = Some y -> ~ nearer t x y) ->
  (forall y, l !! r = Some y -> nearer t x y) -> ins t x l = take r l ++ x :: drop r l.
Proof.
  revert r. induction l as [|y l IH]; intros [|r] Hr Hlo Hhi; cbn in *; try done; try lia.
  - by rewrite decide_True by (by apply Hhi).
  - rewrite decide_False by (apply (Hlo O y); [lia|done]). f_equal. apply IH; [lia| |done].
    intros a z Ha Hz. by apply (Hlo (S a)); [lia|].
Qed.

Lemma take_ins t x l m : take m (ins t x (take m l)) = take m (ins t x l).
Proof.
  revert m. induction l as [|y l IH]; intros [|m]; cbn; try done. case_decide; [|cbn; by rewrite IH].
  destruct m as [|m]; cbn; [done|]. f_equal. f_equal. rewrite take_take. f_equal. lia.
Qed.

Definition ids_ok (t : bytes) (l : list Node) : Prop := Forall (fun n => length (n_ID n) = length t) l.

Lemma sorted_lookup t l a b x y :
  by_distance t l -> (a < b)%nat -> l !! a = Some x -> l !! b = Some y -> near_le t x y.
Proof.
  intros Hs. revert a b. induction Hs as [|z l _ IH Hz]; intros [|a] [|b] Hab Ha Hb; cbn in *; try done; try lia.
  - simplify_eq. by eapply (Forall_lookup_1 _ _ _ _ Hz).
  - eapply IH; [|done|done]. lia.
Qed.

Lemma sorted_take t l m : by_distance t l -> by_distance t (take m l).
Proof. intros Hs. rewrite <- (take_drop m l) in Hs. by apply StronglySorted_app_1_l in Hs. Qed.

Lemma bytes_lt_le_trans a b c : bytes_lt a b -> bytes_le b c -> bytes_lt a c.
Proof. rewrite bytes_le_lteq. intros H1 [H2| <-]; [by eapply bytes_lt_trans|done]. Qed.

Lemma push_ins t m l x :
  by_distance t l -> ids_ok t (x :: l) -> len l <= Z.max 0 m ->
  push t m l x = take (Z.to_nat m) (ins t x l).
Proof.
  intros Hs Hok Hm. inversion_clear Hok as [|?? Hx Hl]. unfold push.
  set (f := fun i => match l !! i with Some y => bool_decide (0 < distcmp t (n_ID y) (n_ID x)) | None => false end).
  assert (forall a y, l !! a = Some y -> f a = bool_decide (nearer t x y)) as Hf.
  { intros a y E. unfold f. rewrite E. apply distcmp_pos; [|done]. by eapply (Forall_lookup_1 _ _ _ _ Hl). }
  destruct (Search_spec (length l) f) as (Hr & Hlo & Hhi).
  { intros a b [Hab Hb] Ha. destruct (lookup_lt_is_Some_2 l b Hb) as [y Ey].
    destruct (lookup_lt_is_Some_2 l a ltac:(lia)) as [z Ez]. rewrite (Hf _ _ Ey). rewrite (Hf _ _ Ez) in Ha.
    apply bool_decide_eq_true in Ha. apply bool_decide_eq_true.
    destruct (decide (a = b)) as [-> |Hne]; [by simplify_eq|].
    eapply bytes_lt_le_trans; [exact Ha|]. exact (sorted_lookup t l a b z y Hs ltac:(lia) Ez Ey). }
  set (r := Search (length l) f) in *.
  assert (ins t x l = take r l ++ x :: drop r l) as Hins.
  { apply ins_at; [done|..].
    - intros a y Ha Ey Hn. specialize (Hlo a Ha). rewrite (Hf _ _ Ey) in Hlo. by apply bool_decide_eq_false in Hlo.
    - intros y Ey. apply lookup_lt_Some in Ey as Hlt. specialize (Hhi r ltac:(lia)). rewrite (Hf _ _ Ey) in Hhi.
      by apply bool_decide_eq_true in Hhi. }
  rewrite Hins. unfold len in *. destruct (decide (Z.of_nat (length l) < m)) as [Hroom|Hfull].
  - rewrite length_app. cbn [length]. rewrite decide_False by lia.
    rewrite take_app_le, drop_app_le by lia. rewrite (take_ge _ (Z.to_nat m)).
    + rewrite take_app_le by (rewrite length_drop; lia). rewrite (take_ge (drop r l)) by (rewrite length_drop; lia). done.
    + rewrite length_app, length_take. cbn. rewrite length_drop. lia.
  - destruct (decide (r = length l)) as [Er|Er].
    + rewrite Er, firstn_all, drop_all. rewrite take_app_le by lia.
      destruct (decide (m <= 0)).
      * assert (l = []) as -> by (destruct l; [done|cbn in *; lia]). by rewrite take_nil.
      * by rewrite take_ge by lia.
    + assert (Z.to_nat m = length l) as -> by lia. rewrite take_app_ge by (rewrite length_take; lia).
      rewrite length_take. replace (length l - r `min` length l)%nat with (S (length l - S r))%nat by lia. done.
Qed.

Lemma foldl_push t m l acc :
  by_distance t acc -> ids_ok t acc -> ids_ok t l ->
  foldl (push t m) (take (Z.to_nat m) acc) l = take (Z.to_nat m) (foldl (fun a x => ins t x a) acc l) /\
  by_distance t (foldl (fun a x => ins t x a) acc l) /\ foldl (fun a x => ins t x a) acc l ≡ₚ l ++ acc.
Proof.
  intros Hs Ha Hl. revert acc Hs Ha. induction Hl as [|x l Hx Hl IH]; intros acc Hs Ha; cbn [foldl]; [done|].
  rewrite push_ins.
  - rewrite take_ins. destruct (IH (ins t x acc)) as (H1 & H2 & H3).
    + by apply ins_sorted.
    + unfold ids_ok. rewrite ins_perm. by constructor.
    + split_and!; [done|done|]. rewrite H3, ins_perm. cbn. by rewrite Permutation_middle.
  - by apply sorted_take.
  - constructor; [done|]. by apply Forall_take.
  - unfold len. rewrite length_take. lia.
Qed.

(** ** Buckets *)
Lemma bitDiff_range v d : bitDiff v = Some d -> 0 <= d <= 7.
Proof. unfold bitDiff. repeat case_decide; intros [= <-]; lia. Qed.

Lemma bucketid_loop_range i owner nid :
  0 <= i -> owner <> [] -> 0 <= bucketid_loop i owner nid < (i + len owner) * 8.
Proof.
  intros Hi Hne. revert i nid Hi Hne. induction owner as [|b owner IH]; intros i nid Hi Hne; [done|].
  rewrite len_cons. pose proof (len_nonneg owner). destruct nid as [|x nid]; cbn [bucketid_loop]; [lia|].
  destruct (bitDiff (Z.lxor b x)) as [d|] eqn:Ed; [apply bitDiff_range in Ed; lia|].
  destruct owner as [|b' owner]; [lia|]. specialize (IH (i + 1) nid ltac:(lia) ltac:(done)). lia.
Qed.

Lemma bucketid_range root id : length root = 20%nat -> 0 <= bucketid root id < 160.
Proof.
  intros Hl. unfold bucketid. pose proof (bucketid_loop_range 0 root id ltac:(lia)) as Hr.
  unfold len in Hr. rewrite Hl in Hr. apply Hr. by destruct root.
Qed.

(** Every node is in the bucket of its distance; and the owner in none. *)
Definition table_placed (rt : routingTable (A := A)) : Prop :=
  length (rt_root rt) = 20%nat /\ length (rt_bkts rt) = bktlen /\
  forall i b, rt_bkts rt !! i = Some b -> Forall (fun w => bucketid (rt_root rt) (w_ID w) = Z.of_nat i) (b_Nodes b).
Definition table_ok (rt : routingTable (A := A)) : Prop :=
  length (rt_root rt) = 20%nat /\ length (rt_bkts rt) = bktlen /\
  forall i b, rt_bkts rt !! i = Some b ->
    Forall (fun w => bucketid (rt_root rt) (w_ID w) = Z.of_nat i /\ w_ID w <> rt_root rt) (b_Nodes b).

Lemma table_ok_placed rt : table_ok rt -> table_placed rt.
Proof. intros (Hr & Hl & Hb). split_and!; [done..|]. intros i b Eb. eapply Forall_impl; [exact (Hb i b Eb)|]. by intros w []. Qed.

Lemma new_table_ok k root : length root = 20%nat -> table_ok (newRoutingTable (A := A) k root).
Proof.
  intros Hl. split_and!; [done|apply length_replicate|]. intros i b Hb. cbn [rt_bkts newRoutingTable] in Hb.
  apply lookup_replicate in Hb as [-> _]. constructor.
Qed.

Lemma shift_down_subset i (l : list (wrappedNode (A := A))) w : w ∈ shift_down i l -> w ∈ l.
Proof.
  unfold shift_down. rewrite !elem_of_app. intros [Hw|[Hw|Hw]].
  - by eapply elem_of_take in Hw as (? & ?%list_elem_of_lookup_2 & _).
  - rewrite <- (take_drop (S i) l). apply elem_of_app. by right.
  - destruct (last l) as [x|] eqn:El; [|by apply elem_of_nil in Hw].
    apply list_elem_of_singleton in Hw as ->. rewrite last_lookup in El. by eapply list_elem_of_lookup_2.
Qed.

Lemma bucket_AddNode_nodes k n now b (P : Node -> Prop) :
  P n -> Forall (fun w => P (w_Node w)) (b_Nodes b) -> Forall (fun w => P (w_Node w)) (b_Nodes (bucket_AddNode k n now b).2).
Proof.
  intros Hn Hb. unfold bucket_AddNode. destruct (list_find _ _) as [[i orig]|].
  - destruct (Addr_Equal _ _); [|done]. cbn [snd b_Nodes]. unfold UpdateLastChangedTime. apply Forall_fmap.
    eapply Forall_impl; [exact Hb|]. intros w Hw. cbn. by case_decide.
  - case_decide; [cbn; apply Forall_app; split; [done|by repeat constructor]|].
    destruct (find_bad _ _ _) as [i|]; [|done]. cbn. apply Forall_app. split; [|by repeat constructor].
    rewrite Forall_forall in Hb |- *. intros w Hw. by apply Hb, (shift_down_subset i).
Qed.

Lemma AddNode_total n now rt :
  table_ok rt -> exists s rt', AddNode n now rt = Ok (s, rt') /\ table_ok rt' /\ rt_root rt' = rt_root rt /\ rt_k rt' = rt_k rt.
Proof.
  intros (Hr & Hl & Hb). unfold AddNode. case_decide as Hself; [by exists NodeNotAdded, rt|].
  unfold addNode. pose proof (bucketid_range (rt_root rt) (n_ID n) Hr) as Hrange.
  set (i := Z.to_nat (bucketid (rt_root rt) (n_ID n))).
  destruct (lookup_lt_is_Some_2 (rt_bkts rt) i) as [b Eb]; [rewrite Hl; unfold bktlen; lia|]. rewrite Eb.
  pose proof (bucket_AddNode_nodes (rt_k rt) n now b
    (fun m => bucketid (rt_root rt) (n_ID m) = Z.of_nat i /\ n_ID m <> rt_root rt)) as Hnodes.
  destruct (bucket_AddNode (rt_k rt) n now b) as [s b']. eexists s, _. split; [done|]. split; [|done].
  split_and!; [done|cbn [rt_bkts]; by rewrite length_insert|]. cbn [rt_bkts rt_root].
  intros j c Hc. apply list_lookup_insert_Some in Hc as [(<- & <- & _)|(Hij & Hc)]; [|by apply Hb].
  apply Hnodes; [|by apply Hb]. split; [unfold i; lia|done].
Qed.
Lemma AddNode_ok n now rt :
  table_ok rt -> length (n_ID n) = 20%nat ->
  exists s rt', AddNode n now rt = Ok (s, rt') /\ table_ok rt' /\ rt_root rt' = rt_root rt.
Proof. intros Ht _. destruct (AddNode_total n now rt Ht) as (s & rt' & ? & ? & ? & _). by exists s, rt'. Qed.

Fixpoint add_all (evs : list (Node * Z)) (rt : routingTable) : res routingTable :=
  match evs with
  | [] => Ok rt
  | (n, now) :: evs' => '(_, rt') ← AddNode n now rt; add_all evs' rt'
  end.

Lemma add_all_ok evs rt :
  table_ok rt -> Forall (fun e => length (n_ID e.1) = 20%nat) evs ->
  exists rt', add_all evs rt = Ok rt' /\ table_ok rt' /\ rt_root rt' = rt_root rt.
Proof.
  intros Ht He. revert rt Ht. induction He as [|[n now] evs Hn _ IH]; intros rt Ht; cbn [add_all]; [by exists rt|].
  destruct (AddNode_ok n now rt Ht Hn) as (s & rt1 & -> & Ht1 & Hr1). rewrite bind_Ok.
  destruct (IH rt1 Ht1) as (rt2 & E & Ht2 & Hr2). exists rt2. split_and!; [done|done|congruence].
Qed.

(** ** Bad nodes *)
Lemma find_bad_Some now i (l : list (wrappedNode (A := A))) j :
  find_bad now i l = Some j -> (i <= j < i + length l)%nat.
Proof.
  revert i. induction l as [|w l IH]; intros i; cbn; [done|]. destruct (IsBad now w); [intros [= <-]; lia|].
  intros Hj%IH. lia.
Qed.

Lemma length_shift_down i (l : list (wrappedNode (A := A))) : (i < length l)%nat -> length (shift_down i l) = length l.
Proof.
  intros Hi. unfold shift_down. rewrite !length_app, length_take, length_drop.
  destruct (last l) eqn:El; [cbn; lia|]. apply last_None in El. subst. cbn in Hi. lia.
Qed.

Lemma bad_indexes_app now i (l k : list (wrappedNode (A := A))) :
  bad_indexes now i (l ++ k) = bad_indexes now i l ++ bad_indexes now (i + length l) k.
Proof.
  revert i. induction l as [|w l IH]; intros i; cbn [app bad_indexes length]; [f_equal; lia|].
  rewrite IH, <- app_assoc. do 3 f_equal. lia.
Qed.

Lemma bad_indexes_none now i (l : list (wrappedNode (A := A))) :
  Forall (fun w => Status now w <> nodeStatusBad) l -> bad_indexes now i l = [].
Proof.
  intros Hl. revert i. induction Hl as [|w l Hw _ IH]; intros i; cbn; [done|]. rewrite IH. by destruct (Status now w).
Qed.

Lemma delNode_at (pre : list (wrappedNode (A := A))) w post :
  delNodeByIndex (length pre) (pre ++ w :: post) = Ok (pre ++ post).
Proof.
  unfold delNodeByIndex. rewrite length_app. cbn [length]. rewrite decide_True by lia.
  rewrite take_app_length, <- (Nat.add_1_r (length pre)), drop_app_add. done.
Qed.

Lemma addNode_placed n now rt :
  table_placed rt -> exists s rt', addNode n now rt = Ok (s, rt') /\ table_placed rt' /\ rt_root rt' = rt_root rt /\ rt_k rt' = rt_k rt.
Proof.
  intros (Hr & Hl & Hb). unfold addNode. pose proof (bucketid_range (rt_root rt) (n_ID n) Hr) as Hrange.
  set (i := Z.to_nat (bucketid (rt_root rt) (n_ID n))).
  destruct (lookup_lt_is_Some_2 (rt_bkts rt) i) as [b Eb]; [rewrite Hl; unfold bktlen; lia|]. rewrite Eb.
  pose proof (bucket_AddNode_nodes (rt_k rt) n now b (fun m => bucketid (rt_root rt) (n_ID m) = Z.of_nat i)) as Hnodes.
  destruct (bucket_AddNode (rt_k rt) n now b) as [s b']. eexists s, _. split; [done|]. split; [|done].
  split_and!; [done|cbn [rt_bkts]; by rewrite length_insert|]. cbn [rt_bkts rt_root].
  intros j c Hc. apply list_lookup_insert_Some in Hc as [(<- & <- & _)|(Hij & Hc)]; [|by apply Hb].
  apply Hnodes; [unfold i; lia|by apply Hb].
Qed.

(** ** What every node of a table satisfies *)
Definition table_all (P : Node -> Prop) (rt : routingTable (A := A)) : Prop :=
  Forall (fun w => P (w_Node w)) (all_nodes rt).

Lemma table_all_buckets P rt : table_all P rt <-> forall i b, rt_bkts rt !! i = Some b -> Forall (fun w => P (w_Node w)) (b_Nodes b).
Proof.
  unfold table_all, all_nodes. rewrite Forall_concat, Forall_fmap, Forall_lookup. done.
Qed.

Lemma addNode_all P n now rt r rt' :
  addNode n now rt = Ok (r, rt') -> P n -> table_all P rt -> table_all P rt'.
Proof.
  unfold addNode. destruct (rt_bkts rt !! _) as [b|] eqn:Eb; [|done].
  rewrite !table_all_buckets. intros E Hn Ht. pose proof (bucket_AddNode_nodes (rt_k rt) n now b P Hn (Ht _ _ Eb)) as Hb.
  destruct (bucket_AddNode (rt_k rt) n now b) as [st b']. injection E as <- <-. cbn [rt_bkts snd] in *.
  intros j c Hc. apply list_lookup_insert_Some in Hc as [(<- & <- & _)|(_ & Hc)]; [done|by eapply Ht].
Qed.

Lemma AddNode_all P n now rt r rt' :
  AddNode n now rt = Ok (r, rt') -> P n -> table_all P rt -> table_all P rt'.
Proof. unfold AddNode. case_decide; [by intros [= <- <-]|]. apply addNode_all. Qed.

Lemma Closest_all P target maxnum rt : length target = 20%nat -> table_all (fun n => length (n_ID n) = 20%nat) rt ->
  table_all P rt -> Forall P (Closest target maxnum rt) /\ len (Closest target maxnum rt) <= Z.max 0 maxnum.
Proof.
  intros Ht Hid HP.
  destruct (foldl_push target maxnum (map w_Node (all_nodes rt)) [] ltac:(constructor) ltac:(constructor)) as (E & _ & Hp).
  { unfold ids_ok. apply Forall_fmap. eapply Forall_impl; [exact Hid|]. intros w Hw. cbn. by rewrite Ht. }
  rewrite take_nil in E. unfold Closest. rewrite E. split; [|unfold len; rewrite length_take; lia].
  apply Forall_take. rewrite Hp, app_nil_r. by apply Forall_fmap.
Qed.

(** ** Checking the buckets keeps the nodes in their buckets *)
Lemma del_all_subset ix (l : list (wrappedNode (A := A))) w : w ∈ (del_all ix l).1 -> w ∈ l.
Proof.
  revert l. induction ix as [|i ix IH]; intros l; cbn; [done|]. unfold delNodeByIndex. case_decide; [|done].
  intros Hw%IH. rewrite <- (take_drop i l). apply elem_of_app in Hw as [Hw|Hw]; apply elem_of_app; [by left|right].
  rewrite <- (Nat.add_1_r i), <- drop_drop in Hw. rewrite <- (take_drop 1 (drop i l)). apply elem_of_app. by right.
Qed.
Lemma CheckAllNodes_subset now b (w : wrappedNode (A := A)) : w ∈ b_Nodes (CheckAllNodes now b).1.2 -> w ∈ b_Nodes b.
Proof.
  unfold CheckAllNodes. case_decide; [done|]. destruct (del_all _ _) as [l p] eqn:E. cbn. intros Hw.
  eapply (del_all_subset (bad_indexes now 0 (b_Nodes b))). by rewrite E.
Qed.
Lemma check_buckets_subset now (l : list (bucket (A := A))) :
  Forall2 (fun b b' => forall w, w ∈ b_Nodes b' -> w ∈ b_Nodes b) l (check_buckets now l).2.
Proof.
  induction l as [|b l IH]; cbn; [constructor|]. pose proof (fun w => CheckAllNodes_subset now b w) as Hb.
  destruct (CheckAllNodes now b) as [[p b'] panicked]. cbn in Hb. destruct panicked; cbn.
  - constructor; [done|]. apply Forall_Forall2_diag, Forall_forall. done.
  - destruct (check_buckets now l). by constructor.
Qed.
Lemma check_ok now rt : table_ok rt -> table_ok (checkAllBuckets (A := A) now rt).2.
Proof.
  intros (Hr & Hl & Hb). unfold checkAllBuckets. pose proof (check_buckets_subset now (rt_bkts rt)) as Hs.
  destruct (check_buckets now (rt_bkts rt)) as [ps l]. cbn [snd] in Hs |- *. split_and!; cbn [rt_root rt_bkts]; [done|by rewrite <- (Forall2_length _ _ _ Hs)|].
  intros i b' Hb'. destruct (Forall2_lookup_r _ _ _ _ _ Hs Hb') as (b & Eb & Hsub). pose proof (Hb _ _ Eb) as Hall.
  rewrite Forall_forall in Hall |- *. auto.
Qed.
Lemma check_root now (rt : routingTable (A := A)) : rt_root (checkAllBuckets now rt).2 = rt_root rt /\ rt_k (checkAllBuckets now rt).2 = rt_k rt.
Proof. unfold checkAllBuckets. by destruct (check_buckets now (rt_bkts rt)). Qed.

(** ** Loading *)
Definition fresh (now : Z) (w : wrappedNode (A := A)) : Prop := now - w_LastChanged w < dubiousTimeout.
#[global] Instance fresh_dec now w : Decision (fresh now w).
Proof. unfold fresh. apply _. Defined.
(** No slot is doubled and no bucket is over its size. *)
Definition tidy (rt : routingTable (A := A)) : Prop :=
  Forall (fun b => NoDup (w_ID <$> b_Nodes b) /\ len (b_Nodes b) <= rt_k rt) (rt_bkts rt).
#[global] Instance tidy_dec rt : Decision (tidy rt).
Proof. unfold tidy. apply _. Defined.
Definition slot (root : bytes) (w : wrappedNode (A := A)) : nat := Z.to_nat (bucketid root (w_ID w)).
Definition in_bucket (root : bytes) (i : nat) (l : list (wrappedNode (A := A))) : list wrappedNode := filter (fun w => slot root w = i) l.

Lemma append_to_bucket k (w : wrappedNode (A := A)) b :
  w_ID w ∉ w_ID <$> b_Nodes b -> len (b_Nodes b) < k ->
  bucket_AddNode k (w_Node w) (w_LastChanged w) b = (NodeAdded, MkBucket (b_Nodes b ++ [w]) (w_LastChanged w)).
Proof.
  intros Hn Hk. unfold bucket_AddNode. replace (list_find _ _) with (@None (nat * wrappedNode (A := A))).
  - rewrite decide_True by done. by destruct w.
  - symmetry. apply list_find_None, Forall_forall. intros v Hv He. apply Hn, list_elem_of_fmap. exists v. split; [by symmetry|done].
Qed.

Lemma load_spec nodes now rt :
  length (rt_root rt) = 20%nat -> length (rt_bkts rt) = bktlen -> NoDup (w_ID <$> nodes) ->
  (forall i b, rt_bkts rt !! i = Some b -> (forall w, w ∈ nodes -> w_ID w ∉ w_ID <$> b_Nodes b) /\
     len (b_Nodes b) + len (in_bucket (rt_root rt) i nodes) <= rt_k rt) ->
  exists rt', load nodes now rt = Ok rt' /\ rt_root rt' = rt_root rt /\ rt_k rt' = rt_k rt /\ length (rt_bkts rt') = bktlen /\
    forall i b, rt_bkts rt !! i = Some b ->
      exists b', rt_bkts rt' !! i = Some b' /\ b_Nodes b' = b_Nodes b ++ filter (fresh now) (in_bucket (rt_root rt) i nodes).
Proof.
  revert rt. induction nodes as [|w nodes IH]; intros rt Hr Hl Hnd Hb.
  { exists rt. split_and!; [done..|]. intros i b E. exists b. by rewrite app_nil_r. }
  inversion_clear Hnd as [|?? Hw Hnd']. cbn [load]. unfold in_bucket in *. case_decide as Hf.
  - unfold addNode. set (j := Z.to_nat (bucketid (rt_root rt) (n_ID (w_Node w)))).
    pose proof (bucketid_range (rt_root rt) (n_ID (w_Node w)) Hr) as Hrange.
    destruct (lookup_lt_is_Some_2 (rt_bkts rt) j) as [b Eb]; [rewrite Hl; unfold bktlen, j; lia|]. rewrite Eb.
    destruct (Hb j b Eb) as [Hnew Hroom]. rewrite filter_cons_True in Hroom by done. rewrite len_cons in Hroom.
    rewrite append_to_bucket; [|apply Hnew; by left|pose proof (len_nonneg (filter (fun v => slot (rt_root rt) v = j) nodes)); lia].
    rewrite bind_Ok. set (rt1 := MkTable _ _ _).
    destruct (IH rt1) as (rt' & E & Hr' & Hk' & Hl' & Hb'); [done|cbn; by rewrite length_insert|done| |].
    + intros i c Hc. cbn [rt_bkts rt1] in Hc. apply list_lookup_insert_Some in Hc as [(<- & <- & _)|(Hij & Hc)]; cbn [b_Nodes rt_root rt_k rt1].
      * split; [|rewrite len_app; change (len [w]) with 1; lia]. intros v Hv. rewrite fmap_app, elem_of_app. intros [Hin|Hin].
        -- apply (Hnew v); [by right|done].
        -- apply list_elem_of_singleton in Hin. apply Hw. cbn in Hin. rewrite <- Hin. apply list_elem_of_fmap. eauto.
      * destruct (Hb i c Hc) as [H1 H2]. rewrite filter_cons_False in H2 by done. split; [|done]. intros v Hv. apply H1. by right.
    + exists rt'. split_and!; [done..|]. intros i c Hc. destruct (decide (i = j)) as [->|Hij].
      * destruct (Hb' j (MkBucket (b_Nodes b ++ [w]) (w_LastChanged w))) as (b' & ? & En); [unfold rt1; cbn [rt_bkts]; apply list_lookup_insert_eq; eapply lookup_lt_Some, Eb|].
        exists b'. split; [done|]. rewrite En. cbn [b_Nodes rt_root rt1]. rewrite (filter_cons_True _ w) by done.
        rewrite filter_cons_True by done. rewrite <- app_assoc. rewrite Eb in Hc. by injection Hc as <-.
      * destruct (Hb' i c) as (b' & ? & En); [unfold rt1; cbn [rt_bkts]; by rewrite list_lookup_insert_ne|]. exists b'. split; [done|].
        rewrite En. cbn [rt_root rt1]. rewrite (filter_cons_False _ w); [done|]. intros Hi. apply Hij. exact (eq_sym Hi).
  - destruct (IH rt Hr Hl Hnd') as (rt' & E & Hr' & Hk' & Hl' & Hb').
    + intros i b Eb. destruct (Hb i b Eb) as [H1 H2]. split; [intros v Hv; apply H1; by right|].
      rewrite filter_cons in H2. case_decide; [rewrite len_cons in H2|]; lia.
    + exists rt'. split_and!; [done..|]. intros i b Eb. destruct (Hb' i b Eb) as (b' & ? & En). exists b'. split; [done|].
      rewrite En, (filter_cons _ w). case_decide; [|done]. by rewrite (filter_cons_False _ w).
Qed.

(** The nodes of a table by bucket, and that no ID occurs twice. *)
Definition slotted (root : bytes) (i0 : nat) (bkts : list (bucket (A := A))) : Prop :=
  forall j b, bkts !! j = Some b -> Forall (fun w => slot root w = (i0 + j)%nat) (b_Nodes b).
Lemma slotted_tail root i0 b bkts : slotted root i0 (b :: bkts) -> Forall (fun w => slot root w = i0) (b_Nodes b) /\ slotted root (S i0) bkts.
Proof.
  intros Hs. split; [rewrite <- (Nat.add_0_r i0); by apply (Hs 0%nat)|]. intros j c Hc.
  rewrite Nat.add_succ_comm. by apply (Hs (S j)).
Qed.
Lemma slotted_concat root i0 bkts : slotted root i0 bkts -> Forall (fun w => (i0 <= slot root w)%nat) (concat (map b_Nodes bkts)).
Proof.
  intros Hs. apply Forall_concat, Forall_fmap, Forall_lookup. intros j b Hb. cbn. eapply Forall_impl; [by apply (Hs j)|]. cbn. lia.
Qed.
Lemma in_bucket_concat root i0 bkts i b :
  slotted root i0 bkts -> bkts !! i = Some b -> in_bucket root (i0 + i) (concat (map b_Nodes bkts)) = b_Nodes b.
Proof.
  revert i0 i. induction bkts as [|c bkts IH]; intros i0 i Hs Hi; [done|]. cbn. unfold in_bucket. rewrite filter_app.
  apply slotted_tail in Hs as [Hc Hs]. destruct i as [|i]; cbn in Hi.
  - injection Hi as ->. rewrite Nat.add_0_r, filter_everything by done. rewrite filter_nothing; [by rewrite app_nil_r|].
    eapply Forall_impl; [by apply slotted_concat|]. cbn. lia.
  - rewrite <- Nat.add_succ_comm, filter_nothing; [by apply IH|]. eapply Forall_impl; [exact Hc|]. cbn. lia.
Qed.
Lemma slotted_NoDup root i0 bkts :
  slotted root i0 bkts -> Forall (fun b => NoDup (w_ID <$> b_Nodes b)) bkts -> NoDup (w_ID <$> concat (map b_Nodes bkts)).
Proof.
  intros Hs Hn. revert i0 Hs. induction Hn as [|b bkts Hb _ IH]; intros i0 Hs; cbn; [constructor|].
  apply slotted_tail in Hs as [Hc Hs]. rewrite fmap_app. apply NoDup_app. split_and!; [done| |by eapply IH].
  intros id (v & -> & Hv)%list_elem_of_fmap (w & Hid & Hw)%list_elem_of_fmap.
  pose proof (slotted_concat _ _ _ Hs) as Hge. rewrite Forall_forall in Hc, Hge. apply Hc in Hv. apply Hge in Hw.
  unfold slot in Hv, Hw. rewrite Hid in Hv. lia.
Qed.
Lemma table_slotted rt : table_ok rt -> slotted (rt_root rt) 0 (rt_bkts rt).
Proof. intros (_ & _ & Hb) j b Hj. eapply Forall_impl; [by apply (Hb j)|]. intros w [Hw _]. unfold slot. lia. Qed.

Lemma load_all_nodes now rt :
  table_ok rt -> tidy rt ->
  exists rt', load (all_nodes rt) now (newRoutingTable (rt_k rt) (rt_root rt)) = Ok rt' /\ rt_root rt' = rt_root rt /\ rt_k rt' = rt_k rt /\
    length (rt_bkts rt') = bktlen /\
    forall i b, rt_bkts rt !! i = Some b -> exists b', rt_bkts rt' !! i = Some b' /\ b_Nodes b' = filter (fresh now) (b_Nodes b).
Proof.
  intros Hok Ht. unfold tidy in Ht. rewrite Forall_lookup in Ht. pose proof (table_slotted rt Hok) as Hs. destruct Hok as (Hr & Hl & _).
  destruct (load_spec (all_nodes rt) now (newRoutingTable (rt_k rt) (rt_root rt))) as (rt' & E & Hr' & Hk' & Hl' & Hb').
  - done.
  - apply length_replicate.
  - eapply slotted_NoDup; [exact Hs|]. apply Forall_lookup. intros i b Hb. by apply (Ht i).
  - cbn [rt_bkts newRoutingTable rt_root rt_k]. intros i b Hi. pose proof (lookup_lt_Some _ _ _ Hi) as Hlt. apply lookup_replicate in Hi as [-> _].
    split; [intros w _; apply not_elem_of_nil|]. rewrite length_replicate in Hlt. rewrite <- Hl in Hlt. destruct (lookup_lt_is_Some_2 _ _ Hlt) as [c Hc].
    change i with (0 + i)%nat. unfold all_nodes. rewrite (in_bucket_concat _ _ _ _ _ Hs Hc). by apply (Ht i).
  - exists rt'. split_and!; [done..|]. intros i b Hb. destruct (Hb' i (MkBucket [] zeroTime)) as (b' & ? & En).
    { apply lookup_replicate. split; [done|]. rewrite <- Hl. by eapply lookup_lt_Some. }
    exists b'. split; [done|]. rewrite En. cbn [b_Nodes newRoutingTable rt_root app]. f_equal. change i with (0 + i)%nat.
    by apply in_bucket_concat.
Qed.

(** ** The goroutine *)
Section Loop.
Context {S : Type} `{!RoutingTableStorage (A := A) S} (v6 : bool).

Lemma loop_step_ok l l' :
  step v6 l l' -> table_ok (l_table l) ->
  table_ok (l_table l') /\ rt_root (l_table l') = rt_root (l_table l) /\ rt_k (l_table l') = rt_k (l_table l).
Proof.
  intros Hst Hok. destruct Hst as [| |rt s n ex now| | |l|rt s n ex r node now st rt' E]; cbn [l_table] in *; try done.
  - split; [by apply check_ok|apply check_root].
  - unfold Stop. by destruct (l_exit l).
  - destruct (AddNode_total node now rt Hok) as (? & ? & E' & ? & ? & ?). rewrite E in E'. by injection E' as <- <-.
Qed.
Lemma loop_steps_ok l l' :
  rtc (step v6) l l' -> table_ok (l_table l) ->
  table_ok (l_table l') /\ rt_root (l_table l') = rt_root (l_table l) /\ rt_k (l_table l') = rt_k (l_table l).
Proof.
  induction 1 as [l|l l1 l2 Hst _ IH]; [done|]. intros Hok. destruct (loop_step_ok _ _ Hst Hok) as (Hok1 & Hr1 & Hk1).
  destruct (IH Hok1) as (? & ? & ?). split_and!; congruence.
Qed.
Lemma return_dumps l l' :
  step v6 l l' -> l_running l = true -> l_running l' = false ->
  l_table l' = l_table l /\ l_store l' = dump v6 (l_table l) (l_store l) /\ l_exit l = true.
Proof. intros [| | | | |k|] H1 H2; cbn in *; try congruence; [done|]. unfold Stop in H2. destruct (l_exit k); cbn in H2; congruence. Qed.
End Loop.
End Facts.

(** ** The properties *)

(** C17: [Closest] returns the nearest nodes: as many as asked for or as there
    are, ordered by XOR distance to the target, and no node of the table that
    was left out is nearer than one returned. *)
Theorem closest_nodes {A} `{NetAddr A} target maxnum (rt : routingTable (A := A)) :
  length target = 20%nat -> Forall (fun w => length (w_ID w) = 20%nat) (all_nodes rt) -> 0 <= maxnum ->
  let found := Closest target maxnum rt in
  exists left, map w_Node (all_nodes rt) ≡ₚ found ++ left /\ len found = Z.min maxnum (Len rt) /\
    by_distance target found /\ Forall (fun x => Forall (near_le target x) left) found.
Proof.
  intros Ht Hn Hm found.
  assert (ids_ok target (map w_Node (all_nodes rt))) as Hok.
  { unfold ids_ok. apply Forall_fmap. eapply Forall_impl; [exact Hn|]. intros w Hw. cbn. rewrite Ht. exact Hw. }
  destruct (foldl_push target maxnum (map w_Node (all_nodes rt)) [] ltac:(constructor) ltac:(constructor) Hok) as (E & Hs & Hp).
  set (sorted := foldl (fun a x => ins target x a) [] (map w_Node (all_nodes rt))) in *.
  rewrite take_nil in E. exists (drop (Z.to_nat maxnum) sorted). unfold found, Closest. rewrite E, take_drop.
  rewrite app_nil_r in Hp. split_and!.
  - by rewrite Hp.
  - unfold Len, len. rewrite length_take, Hp, length_map. lia.
  - by apply sorted_take.
  - rewrite <- (take_drop (Z.to_nat maxnum) sorted) in Hs. apply StronglySorted_app in Hs as (Hs & _).
    rewrite Forall_forall. intros x Hx. rewrite Forall_forall. intros y Hy. by apply Hs.
Qed.

#[global] Instance demo_addr : NetAddr Z := fun a => [a].
Definition demo_id (b : Z) : bytes := replicate 19 0 ++ [b].
Definition demo_node (b : Z) : Node (A := Z) := MkNode (demo_id b) b 6881.
Definition demo_table : routingTable (A := Z) :=
  match add_all [(demo_node 5, 1); (demo_node 9, 2); (demo_node 3, 3); (demo_node 200, 4)]
          (newRoutingTable 8 (demo_id 0)) with Ok rt => rt | _ => newRoutingTable 8 (demo_id 0) end.

Lemma closest_nodes_witness :
  map n_ID (Closest (demo_id 4) 2 demo_table) = [demo_id 5; demo_id 3] /\
  exists left, map w_Node (all_nodes demo_table) ≡ₚ Closest (demo_id 4) 2 demo_table ++ left /\
    len (Closest (demo_id 4) 2 demo_table) = Z.min 2 (Len demo_table) /\
    by_distance (demo_id 4) (Closest (demo_id 4) 2 demo_table) /\
    Forall (fun x => Forall (near_le (demo_id 4) x) left) (Closest (demo_id 4) 2 demo_table).
Proof.
  split; [vm_compute; reflexivity|]. apply (closest_nodes (demo_id 4) 2 demo_table); [reflexivity| |lia].
  apply (bool_decide_unpack _). vm_compute. exact I.
Defined.

(** From an empty table, adding any nodes at any times never panics, and
    leaves every node in the one of the 160 buckets that [bucketid] computes
    from its id and the owner's; the owner itself is never in the table. *)
Theorem routing_table_invariant {A} `{NetAddr A} k root (evs : list (Node (A := A) * Z)) :
  length root = 20%nat -> Forall (fun e => length (n_ID e.1) = 20%nat) evs ->
  exists rt, add_all evs (newRoutingTable k root) = Ok rt /\ length (rt_bkts rt) = bktlen /\
    forall i b, rt_bkts rt !! i = Some b ->
      Forall (fun w => bucketid root (w_ID w) = Z.of_nat i /\ w_ID w <> root) (b_Nodes b).
Proof.
  intros Hr He. destruct (add_all_ok evs (newRoutingTable k root)) as (rt & E & (_ & Hl & Hb) & Hroot);
    [by apply new_table_ok|done|].
  exists rt. cbn [rt_root newRoutingTable] in Hroot. rewrite Hroot in Hb. done.
Qed.

Lemma routing_table_invariant_witness :
  exists rt, add_all [(demo_node 5, 1); (demo_node 200, 4)] (newRoutingTable 8 (demo_id 0)) = Ok rt /\
    length (rt_bkts rt) = bktlen /\
    forall i b, rt_bkts rt !! i = Some b ->
      Forall (fun w => bucketid (demo_id 0) (w_ID w) = Z.of_nat i /\ w_ID w <> demo_id 0) (b_Nodes b).
Proof.
  apply (routing_table_invariant 8 (demo_id 0) [(demo_node 5, 1); (demo_node 200, 4)]); [reflexivity|].
  repeat constructor.
Defined.

(** A full bucket grows past its limit: when it holds a bad node, adding a
    new one reports success but frees no slot, since the slots are moved down
    without being cut, so the bucket ends up with one more entry than before,
    above the limit. *)
Theorem full_bucket_grows {A} `{NetAddr A} k (n : Node (A := A)) now b i :
  Forall (fun w => w_ID w <> n_ID n) (b_Nodes b) -> k <= len (b_Nodes b) -> find_bad now 0 (b_Nodes b) = Some i ->
  exists b', bucket_AddNode k n now b = (NodeAdded, b') /\
    len (b_Nodes b') = len (b_Nodes b) + 1 /\ k < len (b_Nodes b').
Proof.
  intros Hid Hk Hbad. unfold bucket_AddNode.
  assert (list_find (fun w => w_ID w = n_ID n) (b_Nodes b) = None) as ->.
  { apply list_find_None. eapply Forall_impl; [exact Hid|]. done. }
  rewrite decide_False by lia. rewrite Hbad. apply find_bad_Some in Hbad. eexists. split; [done|].
  cbn [b_Nodes]. rewrite len_app, len_cons, len_nil. unfold len in *. rewrite length_shift_down by lia. lia.
Qed.

Definition old_node (b t : Z) : wrappedNode (A := Z) := MkWrapped (demo_node b) t.
Definition full_bucket : bucket (A := Z) := MkBucket [old_node 1 0; old_node 2 (badTimeout * 2)] 0.

Lemma full_bucket_grows_witness :
  exists b', bucket_AddNode 2 (demo_node 3) (badTimeout * 2) full_bucket = (NodeAdded, b') /\
    len (b_Nodes b') = 2 + 1 /\ 2 < len (b_Nodes b').
Proof.
  apply (full_bucket_grows 2 (demo_node 3) (badTimeout * 2) full_bucket 0%nat);
    [repeat constructor; vm_compute; discriminate|vm_compute; discriminate|vm_compute; reflexivity].
Defined.

(** Checking a bucket drops the wrong nodes: of two bad nodes side by side
    only the first is removed, and the good node after them is removed in
    place of the second, because the indexes are not adjusted after a
    deletion. *)
Theorem check_drops_good_node {A} `{NetAddr A} now (pre : list (wrappedNode (A := A))) bad1 bad2 good post t :
  Status now bad1 = nodeStatusBad -> Status now bad2 = nodeStatusBad ->
  Forall (fun w => Status now w <> nodeStatusBad) (pre ++ good :: post) -> dubiousTimeout <= now - t ->
  (CheckAllNodes now (MkBucket (pre ++ bad1 :: bad2 :: good :: post) t)).1.2 = MkBucket (pre ++ bad2 :: post) t.
Proof.
  intros H1 H2 Hg Ht. unfold CheckAllNodes. cbn [b_Nodes b_LastChanged].
  rewrite decide_False by (intros [E|E]; [by destruct pre|lia]).
  apply Forall_app in Hg as [Hp Hq].
  assert (bad_indexes now 0 (pre ++ bad1 :: bad2 :: good :: post) = [length pre; S (length pre)]) as ->.
  { rewrite bad_indexes_app, (bad_indexes_none _ _ _ Hp). cbn [app bad_indexes]. rewrite H1, H2.
    fold (bad_indexes now (S (S (0 + length pre))) (good :: post)). cbn [app].
    pose proof (bad_indexes_none now (S (S (0 + length pre))) (good :: post) Hq) as E. cbn [bad_indexes] in E. by rewrite E. }
  cbn [del_all]. rewrite delNode_at. 
  replace (pre ++ bad2 :: good :: post) with ((pre ++ [bad2]) ++ good :: post) by (by rewrite <- app_assoc).
  replace (S (length pre)) with (length (pre ++ [bad2])) by (rewrite length_app; cbn; lia).
  rewrite delNode_at. cbn. by rewrite <- app_assoc.
Qed.

Lemma check_drops_good_node_witness :
  (CheckAllNodes (badTimeout * 2) (MkBucket [old_node 1 0; old_node 2 0; old_node 3 (badTimeout * 2)] 0)).1.2 =
  MkBucket [old_node 2 0] 0.
Proof.
  apply (check_drops_good_node (badTimeout * 2) [] (old_node 1 0) (old_node 2 0) (old_node 3 (badTimeout * 2)) [] 0);
    [reflexivity|reflexivity|repeat constructor; vm_compute; discriminate|vm_compute; discriminate].
Defined.

(** C38: what the goroutine of a routing table leaves for the next start, at
    the end of whatever nodes were added and checked before it was stopped. The
    table is as it was at the last step. An empty table is not dumped, and the
    storage keeps what it had. Any other table is handed to [Dump] with all its
    nodes, and the storage is what [Dump] leaves, its error being only logged.
    If that storage then loads what was dumped (the default one, which does
    nothing, does not), no bucket holds a node twice and none is over its size,
    then the table opened from it at [now] has in every bucket the nodes that
    were there and were seen in the fifteen minutes before [now], in the same
    order. *)
Theorem restart_restores {A} `{NetAddr A} {S} `{!RoutingTableStorage (A := A) S} k root v6 (s : S) l0 l :
  length root = 20%nat -> rtc (step v6) (started (newRoutingTable k root) s) l0 -> step v6 l0 l ->
  l_running l0 = true -> l_running l = false ->
  let nodes := all_nodes (l_table l) in
  l_table l = l_table l0 /\ (nodes = [] -> l_store l = l_store l0) /\
  (nodes <> [] -> let s' := (storage_Dump root nodes v6 (l_store l0)).2 in
    l_store l = s' /\
    forall now, (storage_Load root v6 s').1 = Ok nodes -> tidy (l_table l) ->
      exists rt, (openRoutingTable k root v6 now (l_store l)).1 = Ok rt /\ length (rt_bkts rt) = bktlen /\
        forall i b, rt_bkts (l_table l) !! i = Some b -> exists b', rt_bkts rt !! i = Some b' /\ b_Nodes b' = filter (fresh now) (b_Nodes b)).
Proof.
  intros Hr Hex Hst Hrun Hret nodes.
  destruct (loop_steps_ok v6 _ _ Hex (new_table_ok k root Hr)) as (Hok & Hroot & Hk). cbn in Hroot, Hk.
  destruct (return_dumps v6 _ _ Hst Hrun Hret) as (Etab & Est & _). subst nodes. rewrite Etab in *. split; [done|]. unfold dump in Est.
  split; [intros He; by rewrite decide_True in Est|]. intros Hne. rewrite decide_False, Hroot in Est by done.
  set (s' := (storage_Dump _ _ _ _).2) in *. split; [done|]. intros now Hload Ht.
  unfold openRoutingTable. rewrite Est. destruct (storage_Load root v6 s') as [r' s'']. cbn in Hload. subst r'. cbn [fst].
  destruct (load_all_nodes now (l_table l0) Hok Ht) as (rt & El & _ & _ & Hl & Hb). rewrite Hroot, Hk in El. by exists rt.
Qed.

(** A storage that keeps the last dump. *)
#[local] Instance last_dump : RoutingTableStorage (A := Z) (list (wrappedNode (A := Z))) :=
  {| storage_Load := fun _ _ s => (Ok s, s); storage_Dump := fun _ nodes _ _ => (Ok (), nodes) |}.
Definition demo_run : looper (A := Z) (S := list (wrappedNode (A := Z))) := MkLooper demo_table [] 0 true true.

Lemma restart_restores_witness :
  let l := MkLooper demo_table (dump false demo_table []) 0 true false in
  exists rt, (openRoutingTable 8 (demo_id 0) false (dubiousTimeout + 3) (l_store l)).1 = Ok rt /\ length (rt_bkts rt) = bktlen /\
    forall i b, rt_bkts demo_table !! i = Some b ->
      exists b', rt_bkts rt !! i = Some b' /\ b_Nodes b' = filter (fresh (dubiousTimeout + 3)) (b_Nodes b).
Proof.
  intros l. destruct (restart_restores 8 (demo_id 0) false [] demo_run l) as (_ & _ & Hdump).
  - reflexivity.
  - eapply rtc_l; [eapply add_call with (node := demo_node 5) (now := 1); vm_compute; reflexivity|].
    eapply rtc_l; [eapply add_call with (node := demo_node 9) (now := 2); vm_compute; reflexivity|].
    eapply rtc_l; [eapply add_call with (node := demo_node 3) (now := 3); vm_compute; reflexivity|].
    eapply rtc_l; [eapply add_call with (node := demo_node 200) (now := 4); vm_compute; reflexivity|].
    eapply rtc_l; [apply stop_call|]. eapply eq_ind; [apply rtc_refl|vm_compute; reflexivity].
  - apply start_exit.
  - reflexivity.
  - reflexivity.
  - destruct Hdump as [_ Hopen]; [vm_compute; discriminate|]. apply Hopen; [reflexivity|].
    apply (bool_decide_unpack _). vm_compute. exact I.
Defined.

(** An empty table is not dumped: nodes that were all dropped are loaded
    again by the next start. *)
Example dropped_nodes_come_back :
  dump (S := list (wrappedNode (A := Z))) false (newRoutingTable 8 (demo_id 0)) (all_nodes demo_table) = all_nodes demo_table.
Proof. reflexivity. Qed.

End RoutingFacts.
