(* ===== verification/DhtState.v ===== *)
(** * The bookkeeping of the DHT server

    Models [src/dht/token_manager.go] (module [Tokens]), [src/dht/blacklist.go]
    (module [Blacklist]) and [src/dht/transaction_manager.go] (module
    [Transactions]). Each manager is a map under a lock; its methods are state
    transformers, and the goroutine that cleans it is the sequence of the ticks
    it receives. Times and durations are nanoseconds, the clock and the random
    strings are arguments. *)

From S2P Require Import Prelude Strconv.
Import Strconv.

(** ** Tokens *)
Module Tokens.

Section Tokens.
Context {A : Type} `{NetAddr A}.

Record tokenManager := MkTokenManager {
  tm_last : bytes;
  tm_new : bytes;
  tm_exit : bool;               (* the channel [exit] is closed *)
  tm_addrs : gmap bytes Z
}.

Definition newTokenManager (random : bytes) : tokenManager := MkTokenManager random random false ∅.

Definition updateToken (random : bytes) (tm : tokenManager) : tokenManager :=
  MkTokenManager (tm_new tm) random (tm_exit tm) (tm_addrs tm).

Definition clear (now expired : Z) (tm : tokenManager) : tokenManager :=
  MkTokenManager (tm_last tm) (tm_new tm) (tm_exit tm)
    (filter (fun kv => ~ (expired <= now - kv.2)) (tm_addrs tm)).

Definition Stop (tm : tokenManager) : tokenManager :=
  MkTokenManager (tm_last tm) (tm_new tm) true (tm_addrs tm).

Definition Token (addr : A) (now : Z) (tm : tokenManager) : bytes * tokenManager :=
  (tm_new tm,
   MkTokenManager (tm_last tm) (tm_new tm) (tm_exit tm) (<[addr_String addr := now]> (tm_addrs tm))).

Definition Check (addr : A) (token : bytes) (tm : tokenManager) : bool :=
  if decide (tm_last tm = token \/ tm_new tm = token)
  then bool_decide (is_Some (tm_addrs tm !! addr_String addr))
  else false.

(** What the goroutine of [Start] receives on its channels and the requests
    the server makes meanwhile. *)
Inductive event :=
  | Tick2 (random : bytes)
  | Tick1 (now : Z)
  | Ask (addr : A) (now : Z).

(** One turn of the loop of [Start], or one call of [Token]. Once [exit] is
    closed the goroutine is gone and the ticks have no effect. *)
Definition step (expired : Z) (tm : tokenManager) (e : event) : tokenManager :=
  match e with
  | Tick2 random => if tm_exit tm then tm else updateToken random tm
  | Tick1 now => if tm_exit tm then tm else clear now expired tm
  | Ask addr now => (Token addr now tm).2
  end.

Definition run (expired : Z) (tm : tokenManager) (es : list event) : tokenManager :=
  fold_left (step expired) es tm.

Definition updates (es : list event) : list bytes :=
  omap (fun e => match e with Tick2 random => Some random | _ => None end) es.

(** The clock as seen from a token issued at [t] to [addr]: no clearing is
    [expired] later than [t], and what is asked again is asked later. *)
Definition within (expired : Z) (addr : A) (t : Z) (e : event) : Prop :=
  match e with
  | Tick2 _ => True
  | Tick1 now => now - t < expired
  | Ask a now => addr_String a = addr_String addr -> t <= now
  end.

Lemma run_exit expired es tm : tm_exit (run expired tm es) = tm_exit tm.
Proof.
  revert tm. induction es as [|e es IH]; intros tm; [done|]. cbn. unfold run in IH. rewrite IH.
  destruct e; cbn; try done; by case_match.
Qed.

Lemma run_tokens expired es tm :
  tm_exit tm = false ->
  (tm_last (run expired tm es), tm_new (run expired tm es)) =
  fold_left (fun '(_, n) r => (n, r)) (updates es) (tm_last tm, tm_new tm).
Proof.
  revert tm. induction es as [|e es IH]; intros tm He; [done|].
  unfold run in IH. destruct e; cbn; rewrite ?He; by rewrite IH.
Qed.

(** After two updates both tokens are among the new ones. *)
Lemma rotate_two (rs : list bytes) l n P :
  Forall P rs -> (2 <= length rs)%nat ->
  let '(l', n') := fold_left (fun '(_, n) r => (n, r)) rs (l, n) in P l' /\ P n'.
Proof.
  destruct rs as [|r1 [|r2 rs]]; cbn; try lia. intros HP _.
  apply Forall_cons in HP as [H1 HP]. apply Forall_cons in HP as [H2 HP].
  revert r1 r2 H1 H2. induction HP as [|r rs Hr HP IH]; intros r1 r2 H1 H2; cbn; [done|].
  by apply IH.
Qed.

Lemma run_addr expired es tm addr t t0 :
  tm_addrs tm !! addr_String addr = Some t0 -> t <= t0 -> Forall (within expired addr t) es ->
  is_Some (tm_addrs (run expired tm es) !! addr_String addr).
Proof.
  revert tm t0. induction es as [|e es IH]; intros tm t0 Ht Hle Hw; [by exists t0|].
  apply Forall_cons in Hw as [He Hw]. unfold run in IH. cbn [run fold_left].
  destruct e as [r|now|a now]; cbn in *; try case_match; try (by eapply IH).
  - eapply (IH _ t0); [|done|done]. cbn. apply map_lookup_filter_Some. cbn. split; [done|lia].
  - destruct (decide (addr_String a = addr_String addr)) as [E|E].
    + eapply (IH _ now); [|by apply He|done]. cbn. rewrite E. apply lookup_insert_eq.
    + eapply (IH _ t0); [|done|done]. cbn. by rewrite lookup_insert_ne.
Qed.

(** the life of a token. From the moment [Token] gives a token to an
    address, and as long as the cleaning goroutine sees the address as fresh
    and the new random tokens differ from the given one, [Check] accepts the
    token for the address exactly until the second rotation: an announce is
    good for one rotation and refused after two, whatever happens in between. *)
Theorem token_lifetime expired tm addr t token tm1 es :
  tm_exit tm = false -> Token addr t tm = (token, tm1) ->
  Forall (within expired addr t) es -> Forall (fun r => r <> token) (updates es) ->
  Check addr token (run expired tm1 es) = bool_decide (length (updates es) <= 1)%nat.
Proof.
  intros Hexit HT Hw Hr. injection HT as <- <-.
  set (tm1 := MkTokenManager _ _ _ _).
  assert (Ha : is_Some (tm_addrs (run expired tm1 es) !! addr_String addr)).
  { eapply run_addr; [apply lookup_insert_eq|reflexivity|done]. }
  pose proof (run_tokens expired es tm1 Hexit) as Hrun.
  unfold Check. rewrite (bool_decide_true (is_Some _)) by done.
  destruct (decide (length (updates es) <= 1)%nat) as [Hle|Hgt].
  - rewrite bool_decide_true by done. rewrite decide_True; [done|].
    destruct (updates es) as [|r [|? ?]]; cbn in Hrun, Hle; [| |lia]; injection Hrun as -> ->; auto.
  - rewrite bool_decide_false by done.
    pose proof (rotate_two (updates es) (tm_last tm1) (tm_new tm1) _ Hr ltac:(lia)) as H2.
    rewrite <-Hrun in H2. destruct H2. rewrite decide_False; [done|naive_solver].
Qed.

(** a token is only good for an address that was served: whatever token a
    query carries, [Check] accepts it only if [Token] was called for the
    printed address since the manager was made. *)
Theorem token_needs_issue expired random es addr token :
  Check addr token (run expired (newTokenManager random) es) = true ->
  exists a t, Ask a t ∈ es /\ addr_String a = addr_String addr.
Proof.
  assert (Hinv : forall es tm, is_Some (tm_addrs (run expired tm es) !! addr_String addr) ->
    is_Some (tm_addrs tm !! addr_String addr) \/ exists a t, Ask a t ∈ es /\ addr_String a = addr_String addr).
  { clear es. induction es as [|e es IH]; intros tm Hs; [by left|].
    apply IH in Hs as [Hs|(a & t & ? & ?)]; [|right; exists a, t; split; [by right|done]].
    destruct e as [r|now|a now]; cbn in Hs; try case_match; cbn in Hs; auto.
    - destruct Hs as [t0 Hs]. apply map_lookup_filter_Some in Hs as [Hs _]. left. by exists t0.
    - destruct (decide (addr_String a = addr_String addr)) as [E|E].
      + right. exists a, now. split; [by left|done].
      + rewrite lookup_insert_ne in Hs by done. by left. }
  unfold Check. case_decide; [|done]. intros Hs%bool_decide_eq_true.
  apply Hinv in Hs as [Hs|?]; [|done]. cbn in Hs. rewrite lookup_empty in Hs. by destruct Hs.
Qed.
End Tokens.

#[local] Instance bytes_addr : NetAddr bytes := fun a => a.

Lemma token_lifetime_witness :
  Check (bs "1.2.3.4:1") (bs "aaaaaaaa")
    (run 600 (Token (bs "1.2.3.4:1") 10 (newTokenManager (bs "aaaaaaaa"))).2
       [Tick2 (bs "bbbbbbbb"); Tick1 600; Ask (bs "1.2.3.4:2") 601; Tick2 (bs "cccccccc")]) = false.
Proof.
  rewrite (token_lifetime 600 (newTokenManager (bs "aaaaaaaa")) (bs "1.2.3.4:1") 10 (bs "aaaaaaaa")
    (Token (bs "1.2.3.4:1") 10 (newTokenManager (bs "aaaaaaaa"))).2); [reflexivity|reflexivity|reflexivity| |].
  - repeat constructor; cbn; lia || discriminate.
  - cbn. repeat constructor; discriminate.
Defined.

Lemma token_needs_issue_witness :
  exists (a : bytes) t, Ask a t ∈ [Ask (bs "1.2.3.4:1") 5] /\ addr_String a = addr_String (bs "1.2.3.4:1").
Proof. apply (token_needs_issue 600 (bs "aaaaaaaa") _ (bs "1.2.3.4:1") (bs "aaaaaaaa")). vm_compute. reflexivity. Defined.

End Tokens.

(** ** The blacklist *)
Module Blacklist.

(** The interface [Blacklist]; the clock is an argument of what reads it. *)
Class Blacklist (B : Type) := {
  bl_In : bytes -> Z -> B -> bool;
  bl_Add : Z -> bytes -> Z -> B -> B;
  bl_Del : Z -> bytes -> Z -> B -> B;
  bl_Close : B -> B
}.

Inductive noopBlacklist := NoopBlacklist.
#[global] Instance noop_Blacklist : Blacklist noopBlacklist := {
  bl_In := fun _ _ _ => false;
  bl_Add := fun _ _ _ bl => bl;
  bl_Del := fun _ _ _ bl => bl;
  bl_Close := fun bl => bl
}.

(** [logBlacklist]: what [logf] was called with is kept beside the list. *)
Inductive logged := LogAdd (ip : bytes) (port : Z) | LogDel (ip : bytes) (port : Z).
Record logBlacklist (B : Type) := MkLog { lb_inner : B; lb_log : list logged }.
Arguments MkLog {B} _ _.
Arguments lb_inner {B} _.
Arguments lb_log {B} _.

#[global] Instance log_Blacklist {B} `{Blacklist B} : Blacklist (logBlacklist B) := {
  bl_In := fun ip port bl => bl_In ip port (lb_inner bl);
  bl_Add := fun now ip port bl => MkLog (bl_Add now ip port (lb_inner bl)) (lb_log bl ++ [LogAdd ip port]);
  bl_Del := fun now ip port bl => MkLog (bl_Del now ip port (lb_inner bl)) (lb_log bl ++ [LogDel ip port]);
  bl_Close := fun bl => MkLog (bl_Close (lb_inner bl)) (lb_log bl)
}.

(** A nil map of ports answers as an empty one. *)
Record wrappedPort := MkWrappedPort { wp_Time : Z; wp_Enable : bool; wp_Ports : gset Z }.
Record blacklist := MkBlacklist { b_exit : bool; b_ips : gmap bytes wrappedPort; b_num : Z }.

Definition NewMemoryBlacklist (maxnum : Z) : blacklist := MkBlacklist false ∅ maxnum.

Definition with_ips (bl : blacklist) (ips : gmap bytes wrappedPort) : blacklist :=
  MkBlacklist (b_exit bl) ips (b_num bl).

Definition cleanExpiredEntries (now interval : Z) (bl : blacklist) : blacklist :=
  with_ips bl (filter (fun kv => ~ (interval < now - wp_Time kv.2)) (b_ips bl)).

(** A tick after [Close] is not received: the loop has returned. *)
Definition processTickerEvent (now interval : Z) (bl : blacklist) : bool * blacklist :=
  if b_exit bl then (false, bl) else (true, cleanExpiredEntries now interval bl).

Definition In (ip : bytes) (port : Z) (bl : blacklist) : bool :=
  match b_ips bl !! ip with
  | Some wp => if wp_Enable wp then bool_decide (port ∈ wp_Ports wp) else true
  | None => false
  end.

Definition Add_port (now port : Z) (wp : wrappedPort) : wrappedPort :=
  if decide (port < 1) then MkWrappedPort now false ∅
  else MkWrappedPort now (wp_Enable wp) ({[port]} ∪ wp_Ports wp).

Definition Add (now : Z) (ip : bytes) (port : Z) (bl : blacklist) : blacklist :=
  match b_ips bl !! ip with
  | Some wp => with_ips bl (<[ip := Add_port now port wp]> (b_ips bl))
  | None =>
      if decide (0 < b_num bl /\ b_num bl <= Z.of_nat (size (b_ips bl))) then bl
      else with_ips bl (<[ip := Add_port now port (MkWrappedPort 0 true ∅)]> (b_ips bl))
  end.

Definition Del (now : Z) (ip : bytes) (port : Z) (bl : blacklist) : blacklist :=
  match b_ips bl !! ip with
  | Some wp =>
      if decide (port < 1) then with_ips bl (delete ip (b_ips bl))
      else if wp_Enable wp then
        if decide (size (wp_Ports wp) <= 1)%nat then with_ips bl (delete ip (b_ips bl))
        else with_ips bl (<[ip := MkWrappedPort now true (wp_Ports wp ∖ {[port]})]> (b_ips bl))
      else bl
  | None => bl
  end.

Definition Close (bl : blacklist) : blacklist := MkBlacklist true (b_ips bl) (b_num bl).

#[global] Instance memory_Blacklist : Blacklist blacklist := {
  bl_In := In; bl_Add := Add; bl_Del := Del; bl_Close := Close
}.

(** *** What a blacklist answers *)

(** [Add] has an effect: the address is known or there is room for it. *)
Definition accepts (ip : bytes) (bl : blacklist) : bool :=
  bool_decide (is_Some (b_ips bl !! ip) \/ b_num bl <= 0 \/ Z.of_nat (size (b_ips bl)) < b_num bl).

(** The ports of an address that is listed by ports, and [None] when it is
    listed as a whole or not at all. *)
Definition listed_ports (ip : bytes) (bl : blacklist) : option (gset Z) :=
  match b_ips bl !! ip with
  | Some wp => if wp_Enable wp then Some (wp_Ports wp) else None
  | None => None
  end.

Lemma In_Add now ip port bl ip' port' :
  In ip' port' (Add now ip port bl) =
  if bool_decide (ip' = ip) && accepts ip bl
  then bool_decide (port < 1 \/ port' = port) || In ip' port' bl else In ip' port' bl.
Proof.
  unfold In, Add, accepts. destruct (b_ips bl !! ip) as [wp|] eqn:E; [|case_decide as Hfull].
  - rewrite (bool_decide_true (is_Some _ \/ _)) by (left; by exists wp). cbn [with_ips b_ips].
    destruct (decide (ip' = ip)) as [->|].
    + rewrite lookup_insert_eq, E, (bool_decide_true (ip = ip)) by done. cbn. unfold Add_port.
      case_decide; cbn; [by rewrite bool_decide_true by auto|].
      destruct (wp_Enable wp); [|by rewrite orb_true_r].
      rewrite <-bool_decide_or. apply bool_decide_ext. set_unfold. tauto.
    + by rewrite lookup_insert_ne, (bool_decide_false (ip' = ip)) by done.
  - rewrite (bool_decide_false (is_Some _ \/ _)); [by rewrite andb_false_r|].
    intros [[? ?]|]; [done|lia].
  - rewrite (bool_decide_true (is_Some _ \/ _)) by lia. cbn [with_ips b_ips].
    destruct (decide (ip' = ip)) as [->|].
    + rewrite lookup_insert_eq, E, (bool_decide_true (ip = ip)) by done. cbn. unfold Add_port.
      case_decide; cbn; [by rewrite bool_decide_true by auto|].
      rewrite orb_false_r. apply bool_decide_ext. set_unfold. tauto.
    + by rewrite lookup_insert_ne, (bool_decide_false (ip' = ip)) by done.
Qed.

Lemma In_Del now ip port bl ip' port' :
  In ip' port' (Del now ip port bl) =
  if bool_decide (ip' = ip) then
    if bool_decide (port < 1) then false
    else match listed_ports ip bl with
         | Some ports => bool_decide (2 <= size ports)%nat && bool_decide (port' <> port) && In ip' port' bl
         | None => In ip' port' bl
         end
  else In ip' port' bl.
Proof.
  unfold In, Del, listed_ports. destruct (decide (ip' = ip)) as [->|Hne].
  - rewrite (bool_decide_true (ip = ip)) by done.
    destruct (b_ips bl !! ip) as [wp|] eqn:E; [|rewrite E; by case_bool_decide].
    destruct (decide (port < 1)).
    { rewrite bool_decide_true by done. cbn. by rewrite lookup_delete_eq. }
    rewrite (bool_decide_false (port < 1)) by done.
    destruct (wp_Enable wp) eqn:En; [|by rewrite E, En].
    case_decide as Hs; cbn.
    + by rewrite lookup_delete_eq, bool_decide_false by lia.
    + rewrite lookup_insert_eq, (bool_decide_true (2 <= _)%nat) by lia. cbn.
      rewrite <-bool_decide_and. apply bool_decide_ext. set_unfold. tauto.
  - rewrite bool_decide_false by done.
    destruct (b_ips bl !! ip) as [wp|]; [|done].
    destruct (wp_Enable wp); repeat case_decide; cbn;
      rewrite ?lookup_delete_ne, ?lookup_insert_ne by congruence; done.
Qed.

(** what a listed address answers after [Add] and [Del]. An accepted
    [Add(ip, port)] lists the port, or the whole address for a port below 1,
    and nothing else; an [Add] of a new address to a full list changes
    nothing. [Del(ip, 0)] clears the address; [Del(ip, port)] clears the port
    when the address has two ports or more, but with one port recorded it
    clears the address even when the recorded port is another one, and it
    leaves alone an address listed as a whole. No other address is touched. *)
Theorem blacklist_spec now ip port bl ip' port' :
  In ip' port' (Add now ip port bl) =
    (if bool_decide (ip' = ip) && accepts ip bl
     then bool_decide (port < 1 \/ port' = port) || In ip' port' bl else In ip' port' bl) /\
  In ip' port' (Del now ip port bl) =
    (if bool_decide (ip' = ip) then
       if bool_decide (port < 1) then false
       else match listed_ports ip bl with
            | Some ports => bool_decide (2 <= size ports)%nat && bool_decide (port' <> port) && In ip' port' bl
            | None => In ip' port' bl
            end
     else In ip' port' bl).
Proof. split; [apply In_Add | apply In_Del]. Qed.

(** *** The bound *)
Inductive event := EvAdd (now : Z) (ip : bytes) (port : Z) | EvDel (now : Z) (ip : bytes) (port : Z)
  | EvTick (now : Z) | EvClose.
Definition step (interval : Z) (bl : blacklist) (e : event) : blacklist :=
  match e with
  | EvAdd now ip port => Add now ip port bl
  | EvDel now ip port => Del now ip port bl
  | EvTick now => (processTickerEvent now interval bl).2
  | EvClose => Close bl
  end.

Lemma size_delete_le {V} (m : gmap bytes V) i : (size (delete i m) <= size m)%nat.
Proof. destruct (m !! i) eqn:E; [rewrite map_size_delete_Some by done; lia|by rewrite delete_id]. Qed.

Lemma step_size interval bl e :
  0 < b_num bl -> Z.of_nat (size (b_ips bl)) <= b_num bl ->
  b_num (step interval bl e) = b_num bl /\ Z.of_nat (size (b_ips (step interval bl e))) <= b_num bl.
Proof.
  intros Hn Hs. destruct e as [now ip port|now ip port|now|]; cbn; [| | |done].
  - unfold Add. destruct (b_ips bl !! ip) eqn:E; [|case_decide; [done|]]; cbn; split; try done.
    + rewrite map_size_insert_Some; [done|by rewrite E].
    + rewrite map_size_insert_None by done. lia.
  - unfold Del. destruct (b_ips bl !! ip) eqn:E; [|done]. repeat case_match; cbn; split; try done.
    + pose proof (size_delete_le (b_ips bl) ip). lia.
    + pose proof (size_delete_le (b_ips bl) ip). lia.
    + rewrite map_size_insert_Some; [done|by rewrite E].
  - unfold processTickerEvent. destruct (b_exit bl); cbn; [done|]. split; [done|].
    etransitivity; [|exact Hs]. apply inj_le, map_subseteq_size, map_filter_subseteq.
Qed.

(** a blacklist made with a positive maximum never holds more addresses
    than that, whatever sequence of additions, deletions and expiries it sees. *)
Theorem blacklist_bounded maxnum interval es :
  0 < maxnum ->
  Z.of_nat (size (b_ips (fold_left (step interval) es (NewMemoryBlacklist maxnum)))) <= maxnum.
Proof.
  intros Hm.
  assert (Hinv : forall bl, b_num bl = maxnum -> Z.of_nat (size (b_ips bl)) <= maxnum ->
    Z.of_nat (size (b_ips (fold_left (step interval) es bl))) <= maxnum).
  { induction es as [|e es IH]; intros bl Hb Hs; [done|]. cbn [fold_left].
    destruct (step_size interval bl e) as [H1 H2]; [lia|lia|]. apply IH; lia. }
  apply Hinv; cbn; [done|]. rewrite map_size_empty. lia.
Qed.

Lemma blacklist_bounded_witness :
  Z.of_nat (size (b_ips (fold_left (step 10) [EvAdd 0 (bs "a") 1; EvAdd 0 (bs "b") 0] (NewMemoryBlacklist 1)))) <= 1.
Proof. apply (blacklist_bounded 1 10). lia. Defined.

End Blacklist.

(** ** Transactions *)
Module Transactions.

Section Transactions.
Context {A : Type} `{NetAddr A}.
(** The arguments of a query, and the callbacks: the managers only keep them
    and hand them back. *)
Context {Arg CB : Type}.

Record transaction := MkTransaction {
  t_ID : bytes;
  t_Query : bytes;
  t_Arg : Arg;
  t_Addr : A;
  t_Time : Z;
  t_Depth : Z;
  t_Visited : list bytes;
  t_Callback : option CB;
  t_OnError : option CB;
  t_OnTimeout : option CB;
  t_OnResponse : option CB
}.

(** [onError], [onTimeout] and [noopResponse] are the methods it installs. *)
Definition newTransaction (onError onTimeout noopResponse : CB) (now : Z) (a : A) (q : bytes) (qa : Arg)
  (callback : list CB) : transaction :=
  MkTransaction [] q qa a now 0 [] (head callback) (Some onError) (Some onTimeout) (Some noopResponse).

Definition with_ID (t : transaction) (id : bytes) : transaction :=
  MkTransaction id (t_Query t) (t_Arg t) (t_Addr t) (t_Time t) (t_Depth t) (t_Visited t)
    (t_Callback t) (t_OnError t) (t_OnTimeout t) (t_OnResponse t).

Abbreviation transactionkey := (bytes * bytes)%type.

Record transactionManager := MkTransactionManager {
  tm_trans : gmap transactionkey transaction;
  tm_tid : Z
}.

Definition newTransactionManager : transactionManager := MkTransactionManager ∅ 0.

Definition isTransactionExpired (t : transaction) (now interval : Z) : bool :=
  bool_decide (interval < now - t_Time t).

Definition handleTransactionTimeout (t : transaction) : list transaction :=
  match t_OnTimeout t with Some _ => [t] | None => [] end.

(** The transactions whose [OnTimeout] is called, in the order of the range. *)
Definition cleanupExpiredTransactions (now interval : Z) (tm : transactionManager)
  : transactionManager * list transaction :=
  (MkTransactionManager (filter (fun kt => isTransactionExpired kt.2 now interval = false) (tm_trans tm)) (tm_tid tm),
   concat (map (fun kt => handleTransactionTimeout kt.2)
     (map_to_list (filter (fun kt => isTransactionExpired kt.2 now interval = true) (tm_trans tm))))).

Definition GetTransactionID (tm : transactionManager) : bytes * transactionManager :=
  let tid := u32 (tm_tid tm + 1) in
  (FormatUint 36 tid, MkTransactionManager (tm_trans tm) tid).

Definition key_of (t : transaction) : transactionkey := (t_ID t, addr_String (t_Addr t)).

Definition AddTransaction (t : transaction) (tm : transactionManager) : transactionManager :=
  MkTransactionManager (<[key_of t := t]> (tm_trans tm)) (tm_tid tm).

Definition DeleteTransaction (t : transaction) (tm : transactionManager) : transactionManager :=
  MkTransactionManager (delete (key_of t) (tm_trans tm)) (tm_tid tm).

Definition PopTransaction (tid : bytes) (addr : A) (tm : transactionManager)
  : option transaction * transactionManager :=
  let key := (tid, addr_String addr) in
  match tm_trans tm !! key with
  | Some t => (Some t, MkTransactionManager (delete key (tm_trans tm)) (tm_tid tm))
  | None => (None, tm)
  end.

(** *** A history of the manager

    [Issue] is what [Server.request] does with a new transaction: it takes an
    ID and, when the query was [sent], adds the transaction. [Answer] is a
    response or an error message for an ID from an address, [Tick] the
    cleaning goroutine. A step returns the transactions it adds and those
    whose [OnResponse], [OnError] or [OnTimeout] is called. *)
Inductive event :=
  | Issue (t : transaction) (sent : bool)
  | Answer (tid : bytes) (addr : A)
  | Tick (now : Z).

Record history := MkHistory { h_tm : transactionManager; h_added : list transaction; h_done : list transaction }.

Definition step (interval : Z) (h : history) (e : event) : history :=
  match e with
  | Issue t sent =>
      let '(id, tm) := GetTransactionID (h_tm h) in
      let t := with_ID t id in
      if sent then MkHistory (AddTransaction t tm) (h_added h ++ [t]) (h_done h)
      else MkHistory tm (h_added h) (h_done h)
  | Answer tid addr =>
      let '(r, tm) := PopTransaction tid addr (h_tm h) in
      MkHistory tm (h_added h) (h_done h ++ match r with Some t => [t] | None => [] end)
  | Tick now =>
      let '(tm, ts) := cleanupExpiredTransactions now interval (h_tm h) in
      MkHistory tm (h_added h) (h_done h ++ ts)
  end.

Definition run (interval : Z) (es : list event) : history :=
  fold_left (step interval) es (MkHistory newTransactionManager [] []).

Fixpoint issues (es : list event) : nat :=
  match es with
  | [] => O
  | Issue _ _ :: es' => S (issues es')
  | _ :: es' => issues es'
  end.

(** A transaction of the server: [newTransaction] sets [OnTimeout]. *)
Definition from_server (e : event) : Prop :=
  match e with Issue t _ => t_OnTimeout t <> None | _ => True end.

(** *** Base 36 *)
Definition undigit (c : Z) : Z := if decide (c < 58) then c - 48 else c - 87.
Definition base_value (base : Z) (s : bytes) : Z := fold_left (fun acc c => acc * base + undigit c) s 0.

Lemma undigit_digit_char d : 0 <= d < 36 -> undigit (digit_char d) = d.
Proof. intros. unfold undigit, digit_char. repeat case_decide; lia. Qed.

Lemma base_value_format fuel base n :
  2 <= base <= 36 -> 0 <= n < 2 ^ Z.of_nat fuel -> base_value base (format_aux fuel base n) = n.
Proof.
  intros Hb. revert n. induction fuel as [|fuel IH]; intros n Hn; cbn [format_aux].
  - cbn in *. lia.
  - case_decide; unfold base_value.
    + cbn [fold_left]. rewrite undigit_digit_char by lia. lia.
    + pose proof (Z.div_mod n base ltac:(lia)). pose proof (Z.mod_pos_bound n base ltac:(lia)).
      rewrite fold_left_app. cbn [fold_left]. rewrite undigit_digit_char by lia.
      fold (base_value base (format_aux fuel base (n / base))). rewrite IH; [lia|].
      rewrite Nat2Z.inj_succ, Z.pow_succ_r in Hn by lia.
      split; [apply Z.div_pos; lia | apply Z.div_lt_upper_bound; nia].
Qed.

Lemma FormatUint_inj base n m :
  2 <= base <= 36 -> 0 <= n -> 0 <= m -> FormatUint base n = FormatUint base m -> n = m.
Proof.
  intros Hb Hn Hm E. unfold FormatUint in E.
  rewrite <-(base_value_format (S (Z.to_nat (Z.log2 n))) base n), E
    by first [done | split; [lia|by apply log2_fuel]].
  apply base_value_format; [done|]. split; [lia|]. by apply log2_fuel.
Qed.

(** *** The invariant: what was added is pending or done, and every ID given
    so far is below the counter. *)
Definition id_below (n : Z) (t : transaction) : Prop :=
  exists j, 1 <= j <= n /\ t_ID t = FormatUint 36 j.

Record good (n : Z) (h : history) : Prop := {
  good_tid : tm_tid (h_tm h) = n;
  good_ids : Forall (id_below n) (h_added h);
  good_nodup : NoDup (map t_ID (h_added h));
  good_keys : forall k t, tm_trans (h_tm h) !! k = Some t -> k = key_of t /\ t_OnTimeout t <> None;
  good_split : h_added h ≡ₚ map snd (map_to_list (tm_trans (h_tm h))) ++ h_done h
}.

Lemma id_below_mono n t : id_below n t -> id_below (n + 1) t.
Proof. intros (j & ? & ?). exists j. split; [lia|done]. Qed.

Lemma good_pending n h k t : good n h -> tm_trans (h_tm h) !! k = Some t -> id_below n t.
Proof.
  intros G Hk. pose proof (good_ids _ _ G) as Hids. rewrite (good_split _ _ G) in Hids.
  apply Forall_app in Hids as [Hids _]. rewrite Forall_forall in Hids. apply Hids.
  apply list_elem_of_fmap. exists (k, t). split; [done|]. by apply elem_of_map_to_list.
Qed.

Lemma good_issue interval n h t sent :
  good n h -> 0 <= n < 2 ^ 32 - 1 -> t_OnTimeout t <> None -> good (n + 1) (step interval h (Issue t sent)).
Proof.
  intros G Hn Ht. cbn. rewrite (good_tid _ _ G).
  assert (Hu : u32 (n + 1) = n + 1) by (unfold u32, wrap; apply Z.mod_small; lia). rewrite Hu.
  assert (Hfresh : Forall (fun x => t_ID x <> FormatUint 36 (n + 1)) (h_added h)).
  { eapply Forall_impl; [exact (good_ids _ _ G)|]. intros x (j & Hj & ->) E.
    apply FormatUint_inj in E; lia. }
  assert (Hids : Forall (id_below (n + 1)) (h_added h)).
  { eapply Forall_impl; [exact (good_ids _ _ G)|]. intros x. apply id_below_mono. }
  destruct sent.
  - set (t' := with_ID t _). constructor; cbn.
    + done.
    + apply Forall_app. split; [done|]. repeat constructor. exists (n + 1). split; [lia|done].
    + rewrite map_app. apply NoDup_app. split; [exact (good_nodup _ _ G)|]. split; [|apply NoDup_singleton].
      intros id (x & -> & Hx)%list_elem_of_fmap Hid. rewrite Forall_forall in Hfresh.
      apply (Hfresh x Hx). cbn in Hid. by apply list_elem_of_singleton in Hid.
    + intros k x. destruct (decide (k = key_of t')) as [->|].
      * rewrite lookup_insert_eq. intros [= <-]. done.
      * rewrite lookup_insert_ne by done. apply (good_keys _ _ G).
    + rewrite map_to_list_insert; [cbn; rewrite (good_split _ _ G); by rewrite <-Permutation_cons_append|].
      destruct (tm_trans (h_tm h) !! key_of t') as [x|] eqn:E; [|done]. exfalso.
      pose proof (good_pending _ _ _ _ G E) as (j & Hj & Ej).
      apply (good_keys _ _ G) in E as [E _]. injection E as E _. rewrite Ej in E.
      apply FormatUint_inj in E; lia.
  - destruct G. by constructor.
Qed.

Lemma good_answer interval n h tid addr : good n h -> good n (step interval h (Answer tid addr)).
Proof.
  intros G. cbn. unfold PopTransaction.
  destruct (tm_trans (h_tm h) !! (tid, addr_String addr)) as [t|] eqn:E; [|by destruct G, h; constructor; rewrite ?app_nil_r].
  destruct G as [G1 G2 G3 G4 G5]. constructor; cbn; [done|done|done| |].
  - intros k x [_ Hk]%lookup_delete_Some. by apply G4.
  - rewrite G5, <-(map_to_list_delete _ _ _ E). cbn. rewrite (Permutation_app_comm (h_done h)). cbn.
    by rewrite <-Permutation_middle.
Qed.

Lemma timeouts_all (l : list (transactionkey * transaction)) :
  Forall (fun kt => t_OnTimeout kt.2 <> None) l ->
  concat (map (fun kt => handleTransactionTimeout kt.2) l) = map snd l.
Proof.
  induction 1 as [|[k t] l Ht _ IH]; [done|]. cbn. rewrite IH. unfold handleTransactionTimeout.
  cbn in Ht. by destruct (t_OnTimeout t).
Qed.

Lemma map_to_list_filter_split {V} (P : V -> bool) (m : gmap transactionkey V) :
  map_to_list m ≡ₚ map_to_list (filter (fun kt => P kt.2 = false) m) ++ map_to_list (filter (fun kt => P kt.2 = true) m).
Proof.
  apply NoDup_Permutation.
  - apply NoDup_map_to_list.
  - apply NoDup_app. split; [apply NoDup_map_to_list|]. split; [|apply NoDup_map_to_list].
    intros [k x] H1%elem_of_map_to_list H2%elem_of_map_to_list.
    apply map_lookup_filter_Some in H1 as [_ H1]. apply map_lookup_filter_Some in H2 as [_ H2]. congruence.
  - intros [k x]. rewrite elem_of_app, !elem_of_map_to_list, !map_lookup_filter_Some. cbn.
    destruct (P x); intuition congruence.
Qed.

Lemma good_tick interval n h now : good n h -> good n (step interval h (Tick now)).
Proof.
  intros [G1 G2 G3 G4 G5]. cbn. constructor; cbn; [done|done|done| |].
  - intros k x [Hk _]%map_lookup_filter_Some. by apply G4.
  - rewrite timeouts_all.
    + rewrite G5. rewrite (map_to_list_filter_split (fun t => isTransactionExpired t now interval)).
      rewrite map_app, <-!app_assoc. f_equiv. apply Permutation_app_comm.
    + apply Forall_forall. intros [k t] Hk%elem_of_map_to_list.
      apply map_lookup_filter_Some in Hk as [Hk _]. cbn. by apply (G4 k).
Qed.

Lemma good_run interval es h n :
  good n h -> 0 <= n -> n + Z.of_nat (issues es) < 2 ^ 32 -> Forall from_server es ->
  exists n', good n' (fold_left (step interval) es h).
Proof.
  revert h n. induction es as [|e es IH]; intros h n G Hn Hi Hs; [by exists n|].
  apply Forall_cons in Hs as [He Hs]. cbn [fold_left].
  destruct e as [t sent|tid addr|now]; cbn [issues] in Hi.
  - apply (IH _ (n + 1)); [apply good_issue; [done|lia|done]|lia|lia|done].
  - apply (IH _ n); [by apply good_answer|done|done|done].
  - apply (IH _ n); [by apply good_tick|done|done|done].
Qed.

(** C18: every query is settled once. Through any history of fewer than 2^32
    requests, answers and ticks, the transactions that were added are exactly,
    as a multiset, those still pending and those whose callback was called by
    an answer or by the timeout; and their IDs are pairwise different, so none
    is lost, none is settled twice and no answer reaches another query. *)
Theorem transactions_settled_once interval es :
  Z.of_nat (issues es) < 2 ^ 32 -> Forall from_server es ->
  let h := run interval es in
  h_added h ≡ₚ map snd (map_to_list (tm_trans (h_tm h))) ++ h_done h /\ NoDup (map t_ID (h_added h)).
Proof.
  intros Hi Hs. destruct (good_run interval es (MkHistory newTransactionManager [] []) 0) as [n G].
  - constructor; cbn; [done|constructor|constructor| |].
    + intros k t. by rewrite lookup_empty.
    + by rewrite map_to_list_empty.
  - lia.
  - done.
  - done.
  - destruct G. done.
Qed.
End Transactions.

#[local] Instance bytes_addr : NetAddr bytes := fun a => a.

Definition demo : @transaction bytes unit unit := newTransaction tt tt tt 0 (bs "1.2.3.4:1") (bs "ping") tt [].

Lemma transactions_settled_once_witness :
  let h := run 10 [Issue demo true; Issue demo false; Issue demo true; Answer (bs "1") (bs "1.2.3.4:1"); Tick 11] in
  h_added h ≡ₚ map snd (map_to_list (tm_trans (h_tm h))) ++ h_done h /\ NoDup (map t_ID (h_added h)).
Proof.
  apply (transactions_settled_once 10
    [Issue demo true; Issue demo false; Issue demo true; Answer (bs "1") (bs "1.2.3.4:1"); Tick 11]).
  - vm_compute. reflexivity.
  - repeat constructor; discriminate.
Defined.

End Transactions.
