(* ===== verification/DataStore.v ===== *)
(** * The data store of the DHT

    Models [src/dht/data_storage.go] (BEP 44): items, the message a signature
    covers, the target under which an item is kept, and [DataStore] with
    [Put], [Get], [CleanupExpired] and [Count]. SHA-256 is executable (module
    [Sha256]); the verification of an Ed25519 signature is an argument, of
    which nothing is assumed. The clock is an argument, in nanoseconds. *)

From S2P Require Import Prelude Strconv Bencode BencodeFacts Sha1 Hash.
Import Strconv Bencode BencodeFacts Hash.

Module Sha256.

Definition rotr (n x : Z) : Z := u32 (Z.lor (Z.shiftr x n) (Z.shiftl x (32 - n))).

(** The constants are the first 32 bits of the fractional parts of the cube
    and square roots of the first primes. *)
Definition is_prime (n : nat) : bool :=
  forallb (fun d => negb (Nat.eqb (Nat.modulo n d) 0)) (seq 2 (n - 2)).
Definition primes : list Z := Eval vm_compute in map Z.of_nat (List.filter is_prime (seq 2 310)).

Definition cube_root (n : Z) : Z :=
  fold_left (fun r b => let r' := r + 2 ^ Z.of_nat b in if decide (r' * r' * r' <= n) then r' else r)
    (reverse (seq 0 36)) 0.

Definition K : list Z := Eval vm_compute in map (fun p => u32 (cube_root (p * 2 ^ 96))) primes.
Definition init : list Z := Eval vm_compute in map (fun p => u32 (Z.sqrt (p * 2 ^ 64))) (take 8 primes).

Definition s0 (x : Z) : Z := Z.lxor (Z.lxor (rotr 7 x) (rotr 18 x)) (Z.shiftr x 3).
Definition s1 (x : Z) : Z := Z.lxor (Z.lxor (rotr 17 x) (rotr 19 x)) (Z.shiftr x 10).
Definition S0 (x : Z) : Z := Z.lxor (Z.lxor (rotr 2 x) (rotr 13 x)) (rotr 22 x).
Definition S1 (x : Z) : Z := Z.lxor (Z.lxor (rotr 6 x) (rotr 11 x)) (rotr 25 x).

(** The 64 words of the schedule, latest first. *)
Fixpoint expand (n : nat) (w : list Z) : list Z :=
  match n with
  | O => w
  | S n' => expand n' (u32 (s1 (nth 1 w 0) + nth 6 w 0 + s0 (nth 14 w 0) + nth 15 w 0) :: w)
  end.

Definition round (s : list Z) (kw : Z * Z) : list Z :=
  match s with
  | [a; b; c; d; e; f; g; h] =>
      let ch := Z.lxor (Z.land e f) (Z.land (Z.lxor e 4294967295) g) in
      let maj := Z.lxor (Z.lxor (Z.land a b) (Z.land a c)) (Z.land b c) in
      let t1 := h + S1 e + ch + kw.1 + kw.2 in
      [u32 (t1 + S0 a + maj); a; b; c; u32 (d + t1); e; f; g]
  | _ => s
  end.

Definition block (s : list Z) (b : bytes) : list Z :=
  let ws := reverse (expand 48 (reverse (Sha1.words 16 b))) in
  zip_with (fun x y => u32 (x + y)) s (fold_left round (zip K ws) s).

Fixpoint blocks (n : nat) (m : bytes) (s : list Z) : list Z :=
  match n with O => s | S n' => blocks n' (drop 64 m) (block s (take 64 m)) end.

Definition Sum256 (m : bytes) : bytes :=
  let p := Sha1.pad m in concat (map (be_bytes 4) (blocks (length p / 64) p init)).

Example sum256_abc : HexString (Sum256 (bs "abc")) = bs "ba7816bf8f01cfea414140de5dae2223b00361a396177a9cb410ff61f20015ad".
Proof. vm_compute. reflexivity. Qed.

Lemma length_round s kw : length s = 8%nat -> length (round s kw) = 8%nat.
Proof. intros Hs. do 9 (destruct s as [|? s]; try discriminate Hs). done. Qed.

Lemma length_block s b : length s = 8%nat -> length (block s b) = 8%nat.
Proof.
  intros Hs. unfold block. rewrite length_zip_with, Hs.
  assert (forall l t, length t = 8%nat -> length (fold_left round l t) = 8%nat) as ->; [|done|done].
  induction l as [|kw l IH]; intros t Ht; [done|]. apply IH. by apply length_round.
Qed.

Lemma length_blocks n m s : length s = 8%nat -> length (blocks n m s) = 8%nat.
Proof. revert m s. induction n; intros m s Hs; cbn; [done|]. by apply IHn, length_block. Qed.

Lemma length_Sum256 m : length (Sum256 m) = 32%nat.
Proof.
  unfold Sum256. cbv zeta. generalize (length_blocks (length (Sha1.pad m) / 64) (Sha1.pad m) init eq_refl).
  generalize (blocks (length (Sha1.pad m) / 64) (Sha1.pad m) init). intros l Hl.
  do 9 (destruct l as [|? l]; try discriminate Hl). cbn [map concat].
  by rewrite !length_app, !length_be_bytes.
Qed.

End Sha256.

Module DataStore.

Definition MaxValueSize : Z := 1000.
Definition MaxSaltSize : Z := 64.
Definition DataExpirationTime : Z := 2 * 3600 * 1000000000.
Definition PublicKeySize : Z := 32.
Definition SignatureSize : Z := 64.

(** A nil slice behaves as an empty one throughout. *)
Record StorageItem := MkItem {
  Value : bytes;
  IsMutable : bool;
  PublicKey : bytes;
  Signature : bytes;
  Seq : Z;
  Salt : bytes;
  CAS : Z;
  StoredAt : Z;
  Target : bytes
}.

Definition IsExpired (now : Z) (item : StorageItem) : bool :=
  bool_decide (DataExpirationTime < now - StoredAt item).

(** The map literal has a dynamic type per entry; its order is the encoder's. *)
Definition signature_dict (item : StorageItem) : goval :=
  VMap (Some ((if decide (0 < len (Salt item)) then [(bs "salt", VIface (Some (VBytes (Some (Salt item)))))] else []) ++
    [(bs "seq", VIface (Some (VInt (Seq item)))); (bs "v", VIface (Some (VBytes (Some (Value item)))))])).

Definition CreateSignatureMessage (item : StorageItem) : bytes :=
  match EncodeBytes (signature_dict item) with Ok buf => buf | _ => [] end.

(** [NewHash] of the 32 bytes of a digest keeps the first 20. *)
Definition ComputeTarget (item : StorageItem) : res bytes :=
  if negb (IsMutable item) then NewHash (Sha256.Sum256 (Value item))
  else NewHash (Sha256.Sum256 (PublicKey item ++ (if decide (0 < len (Salt item)) then Salt item else []))).

Section Store.
(** [ed25519.Verify], of the standard library: key, message, signature. *)
Variable Verify : bytes -> bytes -> bytes -> bool.

Definition VerifySignature (item : StorageItem) : bool :=
  if negb (IsMutable item) then true
  else if decide (len (PublicKey item) <> PublicKeySize) then false
  else if decide (len (Signature item) <> SignatureSize) then false
  else Verify (PublicKey item) (CreateSignatureMessage item) (Signature item).

Abbreviation DataStore := (gmap bytes StorageItem).
Definition NewDataStore : DataStore := ∅.

Definition set_Target (item : StorageItem) (target : bytes) : StorageItem :=
  MkItem (Value item) (IsMutable item) (PublicKey item) (Signature item) (Seq item) (Salt item) (CAS item)
    (StoredAt item) target.

Definition set_StoredAt (item : StorageItem) (now : Z) : StorageItem :=
  MkItem (Value item) (IsMutable item) (PublicKey item) (Signature item) (Seq item) (Salt item) (CAS item)
    now (Target item).

(** The test against the item already stored under the target. *)
Definition check_existing (item : StorageItem) (ds : DataStore) : res unit :=
  match ds !! Target item with
  | Some existing =>
      if IsMutable existing && IsMutable item then
        if decide (CAS item <> 0 /\ CAS item <> Seq existing) 
        then Err ("CAS mismatch: expected " +:+ format_d (CAS item) +:+ ", got " +:+ format_d (Seq existing))%string
        else if decide (Seq item <= Seq existing)
        then Err ("sequence number must be greater than current: " +:+ format_d (Seq item) +:+ " <= " +:+ format_d (Seq existing))%string
        else Ok tt
      else Ok tt
  | None => Ok tt
  end.

(** [Put] returns the store, which holds the caller's item with its target and
    time filled in. *)
Definition Put (now : Z) (item : StorageItem) (ds : DataStore) : res DataStore :=
  if decide (MaxValueSize < len (Value item)) then Err "value too large"
  else if decide (MaxSaltSize < len (Salt item)) then Err "salt too large"
  else if IsMutable item && negb (VerifySignature item) then Err "invalid signature"
  else
    item ← (if IsZero (Target item) then target ← ComputeTarget item; Ok (set_Target item target) else Ok item);
    _ ← check_existing item ds;
    let item := set_StoredAt item now in
    Ok (<[Target item := item]> ds).

Definition Get (now : Z) (target : bytes) (ds : DataStore) : option StorageItem :=
  match ds !! target with
  | Some item => if IsExpired now item then None else Some item
  | None => None
  end.

Definition CleanupExpired (now : Z) (ds : DataStore) : Z * DataStore :=
  (Z.of_nat (size (filter (fun kv => IsExpired now kv.2 = true) ds)),
   filter (fun kv => IsExpired now kv.2 = false) ds).

Definition Count (ds : DataStore) : Z := Z.of_nat (size ds).

(** ** Histories of the store *)
Inductive op := OpPut (now : Z) (item : StorageItem) | OpCleanup (now : Z).

Definition apply (ds : DataStore) (o : op) : DataStore :=
  match o with
  | OpPut now item => match Put now item ds with Ok ds' => ds' | _ => ds end
  | OpCleanup now => (CleanupExpired now ds).2
  end.

Definition run (ops : list op) (ds : DataStore) : DataStore := fold_left apply ops ds.

(** What the handler of a put query stores: the target is left to [Put]. *)
Definition from_query (o : op) : Prop := match o with OpPut _ item => Target item = zeroHash | _ => True end.

Definition put_mutable (o : op) : Prop := match o with OpPut _ item => IsMutable item = true | _ => False end.

Lemma ComputeTarget_total item : exists target, ComputeTarget item = Ok target /\ length target = 20%nat.
Proof.
  assert (HN : forall m, exists target, NewHash (Sha256.Sum256 m) = Ok target /\ length target = 20%nat).
  { intros m. unfold NewHash. pose proof (Sha256.length_Sum256 m) as HL.
    rewrite decide_False by (unfold len, HashSize; rewrite HL; lia). eexists. split; [done|].
    rewrite length_take, HL. done. }
  unfold ComputeTarget. case_match; apply HN.
Qed.

(** What an accepted [Put] implies, and what it stores. *)
Lemma Put_Ok now item ds ds' :
  Put now item ds = Ok ds' ->
  exists target, ds' = <[target := set_StoredAt (set_Target item target) now]> ds /\
    (if IsZero (Target item) then ComputeTarget item = Ok target else target = Target item) /\
    len (Value item) <= MaxValueSize /\ len (Salt item) <= MaxSaltSize /\ VerifySignature item = true /\
    forall old, ds !! target = Some old -> IsMutable old = true -> IsMutable item = true ->
      Seq old < Seq item /\ (CAS item = 0 \/ CAS item = Seq old).
Proof.
  unfold Put. repeat case_decide; try discriminate.
  destruct (IsMutable item && negb (VerifySignature item)) eqn:EV; [discriminate|]. intros HP.
  assert (HV : VerifySignature item = true).
  { unfold VerifySignature in *. destruct (IsMutable item); [|done]. by apply negb_false_iff in EV. }
  assert (exists target, (if IsZero (Target item) then ComputeTarget item = Ok target else target = Target item) /\
    (_ ← check_existing (set_Target item target) ds;
     Ok (<[target := set_StoredAt (set_Target item target) now]> ds)) = Ok ds') as (target & HT & HP').
  { destruct (IsZero (Target item)).
    - destruct (ComputeTarget_total item) as (target & E & _). rewrite E in HP. by exists target.
    - exists (Target item). split; [done|]. by destruct item. }
  clear HP. exists target. destruct (check_existing (set_Target item target) ds) as [[]|?|?|] eqn:EC; try discriminate HP'.
  injection HP' as <-. split_and!; [done|done|lia|lia|done|].
  intros old Hold Ho Hi. unfold check_existing in EC. cbn in EC. rewrite Hold, Ho, Hi in EC. cbn in EC.
  repeat case_decide; try discriminate EC. lia.
Qed.

(** An immutable item within the limits is always stored. *)
Lemma Put_immutable now item ds target :
  IsMutable item = false -> Target item = zeroHash -> len (Value item) <= MaxValueSize -> len (Salt item) <= MaxSaltSize ->
  ComputeTarget item = Ok target ->
  Put now item ds = Ok (<[target := set_StoredAt (set_Target item target) now]> ds).
Proof.
  intros Hm Hz Hv Hs HT. unfold Put. rewrite !decide_False by lia. rewrite Hm, Hz. cbn [andb].
  replace (IsZero zeroHash) with true by (symmetry; by apply bool_decide_true). rewrite HT, bind_Ok, bind_Ok.
  unfold check_existing. cbn [Target set_Target IsMutable].
  by destruct (ds !! target) as [x|]; rewrite ?Hm, ?andb_false_r.
Qed.

(** A valid item under its key, whatever its metadata. *)
Definition item_ok (target : bytes) (item : StorageItem) : Prop :=
  Target item = target /\ ComputeTarget item = Ok target /\
  len (Value item) <= MaxValueSize /\ len (Salt item) <= MaxSaltSize /\ VerifySignature item = true.

Lemma apply_ok ds o : from_query o -> map_Forall item_ok ds -> map_Forall item_ok (apply ds o).
Proof.
  intros Hq Hds. destruct o as [now item|now]; cbn in *.
  - destruct (Put now item ds) as [ds'|?|?|] eqn:E; try done.
    apply Put_Ok in E as (target & -> & HT & Hv & Hs & HV & _). apply map_Forall_insert_2; [|done].
    assert (IsZero (Target item) = true) as HZ by (by apply bool_decide_true). rewrite HZ in HT. done.
  - intros k x [Hk _]%map_lookup_filter_Some. by apply Hds.
Qed.

(** C21: the store only holds what it may: after any history of put queries
    and cleanings, whatever [Get] returns for a target was put under the hash of
    its value or of its key and salt, is within the size limits, carries a
    signature that verifies when it is mutable, and is at most two hours old. *)
Theorem store_holds_valid_items ops now target item :
  Forall from_query ops -> Get now target (run ops NewDataStore) = Some item ->
  item_ok target item /\ now - StoredAt item <= DataExpirationTime.
Proof.
  intros Hops. assert (Hinv : map_Forall item_ok (run ops NewDataStore)).
  { unfold run. assert (H0 : map_Forall item_ok NewDataStore) by apply map_Forall_empty.
    revert H0. generalize NewDataStore. induction Hops as [|o ops Ho _ IH]; intros ds Hds; [done|].
    apply IH. by apply apply_ok. }
  unfold Get. destruct (run ops NewDataStore !! target) as [x|] eqn:E; [|done].
  destruct (IsExpired now x) eqn:EX; [done|]. intros [= ->]. split; [by apply Hinv|].
  unfold IsExpired in EX. apply bool_decide_eq_false in EX. lia.
Qed.

(** versions only go forward. While mutable items are put, whatever their
    targets and in whatever order, the mutable item stored under a target is
    either untouched or replaced by one with a larger sequence number. *)
Theorem store_versions_increase ops ds target old :
  Forall put_mutable ops -> ds !! target = Some old -> IsMutable old = true ->
  exists item, run ops ds !! target = Some item /\ IsMutable item = true /\ (item = old \/ Seq old < Seq item).
Proof.
  intros Hops. revert ds old. induction Hops as [|o ops Ho _ IH]; intros ds old Hold Hm; [by exists old; auto|].
  destruct o as [now item|]; [|done]. cbn in Ho.
  assert (exists x, apply ds (OpPut now item) !! target = Some x /\ IsMutable x = true /\ (x = old \/ Seq old < Seq x))
    as (x & Hx & Hxm & Hxo).
  { cbn. destruct (Put now item ds) as [ds'|?|?|] eqn:E; try (by exists old; auto).
    apply Put_Ok in E as (tgt & -> & _ & _ & _ & _ & Hseq). destruct (decide (tgt = target)) as [->|].
    - rewrite lookup_insert_eq. eexists. split; [done|]. split; [done|]. right. by apply (Hseq old).
    - rewrite lookup_insert_ne by done. exists old. auto. }
  destruct (IH _ _ Hx Hxm) as (y & Hy & Hym & Hyo). exists y. split_and!; [done|done|].
  destruct Hxo as [->|]; [done|]. right. destruct Hyo as [->|]; lia.
Qed.
End Store.

(** ** The signed message *)
Definition signature_doc (item : StorageItem) : bval :=
  BDict ((if decide (0 < len (Salt item)) then [(bs "salt", BStr (Salt item))] else []) ++
    [(bs "seq", BInt (Seq item)); (bs "v", BStr (Value item))]).

Definition signable (item : StorageItem) : Prop :=
  - 2 ^ 63 <= Seq item < 2 ^ 63 /\
  len (Value item) <= MaxValueSize /\ len (Salt item) <= MaxSaltSize.

Lemma CreateSignatureMessage_doc item : CreateSignatureMessage item = bencode (signature_doc item).
Proof. unfold CreateSignatureMessage, signature_dict, signature_doc. case_decide; cbn -[bs]; done. Qed.

(** ** Witnesses *)
Definition accept_all (key msg sig : bytes) : bool := true.
Definition demo (seq : Z) : StorageItem :=
  MkItem (bs "hello") true (replicate 32 7) (replicate 64 9) seq (bs "s") 0 0 zeroHash.

Lemma store_holds_valid_items_witness :
  match Get 5 (replicate 20 0) (run accept_all [OpPut 1 (demo 4); OpCleanup 3] NewDataStore),
        ComputeTarget (demo 4) with
  | None, Ok target =>
      match Get 5 target (run accept_all [OpPut 1 (demo 4); OpCleanup 3] NewDataStore) with
      | Some item => item_ok accept_all target item /\ 5 - StoredAt item <= DataExpirationTime
      | None => False
      end
  | _, _ => False
  end.
Proof.
  destruct (Get 5 (replicate 20 0) _) eqn:E0; [vm_compute in E0; discriminate E0|].
  destruct (ComputeTarget (demo 4)) as [target|?|?|] eqn:ET; [|vm_compute in ET; discriminate ET..].
  destruct (Get 5 target _) as [item|] eqn:E.
  - apply (store_holds_valid_items accept_all [OpPut 1 (demo 4); OpCleanup 3]); [|exact E].
    repeat constructor.
  - vm_compute in ET. injection ET as <-. vm_compute in E. discriminate E.
Defined.

Lemma store_versions_increase_witness :
  exists item, run accept_all [OpPut 1 (demo 6); OpPut 2 (demo 5)] {[ zeroHash := demo 4 ]} !! zeroHash = Some item /\
    IsMutable item = true /\ (item = demo 4 \/ 4 < Seq item).
Proof.
  apply (store_versions_increase accept_all [OpPut 1 (demo 6); OpPut 2 (demo 5)] {[ zeroHash := demo 4 ]} zeroHash (demo 4));
    [repeat constructor|apply lookup_singleton_eq|reflexivity].
Defined.

Lemma bencode_inj b b' : bval_ok b -> bval_ok b' -> bencode b = bencode b' -> to_iface b = to_iface b'.
Proof.
  intros Hb Hb' E.
  assert (Hd : forall c, bval_ok c -> bencode c = bencode b -> exists d,
    Decode TIface (VIface None) (NewDecoder (bencode b ++ [])) = Ok (to_iface c, d)).
  { intros c Hc Ec. eexists. apply (bencode_decodes c); [done|done|by rewrite Ec|].
    unfold decode_fuel. lia. }
  destruct (Hd b Hb eq_refl) as [d1 H1]. destruct (Hd b' Hb' (eq_sym E)) as [d2 H2]. congruence.
Qed.

Lemma signature_doc_ok item : signable item -> bval_ok (signature_doc item).
Proof.
  intros (Hq & Hlv & Hls). unfold MaxValueSize, MaxSaltSize in *. apply bval_ok_dict.
  split; [case_decide; cbn; repeat constructor; vm_compute; done|].
  case_decide; cbn; repeat constructor; cbn; try done; try lia.
Qed.

(** a signature binds the content: two items whose signed messages are
    the same bytes have the same sequence number, value and salt, so that a
    signature for one version, value or salt is never one for another. *)
Theorem signature_binds_content i j :
  signable i -> signable j -> CreateSignatureMessage i = CreateSignatureMessage j ->
  Seq i = Seq j /\ Value i = Value j /\ Salt i = Salt j.
Proof.
  intros Hi Hj. rewrite !CreateSignatureMessage_doc. intros E.
  apply bencode_inj in E; [|by apply signature_doc_ok|by apply signature_doc_ok].
  unfold signature_doc in E. pose proof (len_nonneg (Salt i)). pose proof (len_nonneg (Salt j)).
  destruct (decide (0 < len (Salt i))), (decide (0 < len (Salt j))); try discriminate E;
    injection E; intros; subst; split_and!; try done.
  rewrite (proj1 (len_zero (Salt i))), (proj1 (len_zero (Salt j))) by lia. done.
Qed.

Lemma signature_binds_content_witness : Seq (demo 3) = Seq (demo 3) /\ Value (demo 3) = Value (demo 3) /\ Salt (demo 3) = Salt (demo 3).
Proof.
  apply (signature_binds_content (demo 3) (demo 3)); [| |reflexivity];
    (split_and!; [cbn; lia|cbn; lia|vm_compute; done|vm_compute; done]).
Defined.

End DataStore.
