(* ===== verification/Net.v ===== *)
(** * Network addresses

    The part of Go's [net] the sources use (IP addresses in text, host and
    port strings, the concrete [net.Addr] types), the destinations of
    [i2pkeys] as a class, and [src/utils/addr.go] on top of them. *)

From S2P Require Import Prelude Strconv Sha1 Hash.
Import Strconv Hash.

Module Net.

Definition IPv4len : Z := 4.
Definition IPv6len : Z := 16.

(** ** IP addresses *)
Definition To4 (ip : bytes) : option bytes := FastSet.To4 ip.

Definition v4InV6Prefix : bytes := replicate 10 0 ++ [255; 255].

Definition To16 (ip : bytes) : option bytes :=
  if decide (len ip = IPv4len) then Some (v4InV6Prefix ++ ip)
  else if decide (len ip = IPv6len) then Some ip
  else None.

Definition loopback4 : bytes := [127; 0; 0; 1].
Definition IPv6loopback : bytes := replicate 15 0 ++ [1].

Fixpoint join (sep : Z) (l : list bytes) : bytes :=
  match l with
  | [] => []
  | [x] => x
  | x :: l' => x ++ sep :: join sep l'
  end.

Definition dotted (ip : bytes) : bytes := join 46 (map (FormatUint 10) ip).

(** The 16-bit groups of an IPv6 address. *)
Fixpoint groups (b : bytes) : list Z :=
  match b with
  | x :: y :: b' => 256 * x + y :: groups b'
  | _ => []
  end.

Fixpoint zero_run (gs : list Z) : nat :=
  match gs with 0 :: gs' => S (zero_run gs') | _ => O end.

(** The first of the longest runs of two or more zero groups, as its bounds. *)
Fixpoint longest_run (i : nat) (gs : list Z) (best : nat * nat) : nat * nat :=
  match gs with
  | [] => best
  | _ :: gs' =>
      let l := zero_run gs in
      longest_run (S i) gs' (if decide (2 <= l /\ best.2 - best.1 < l)%nat then (i, i + l)%nat else best)
  end.

Definition ipv6_text (ip : bytes) : bytes :=
  let gs := groups ip in
  let '(a, b) := longest_run 0 gs (0, 0)%nat in
  let text := fun l => join 58 (map (FormatUint 16) l) in
  if decide (a = b) then text gs else text (take a gs) ++ [58; 58] ++ text (drop b gs).

(** [net.IP.String]. *)
Definition IP_String (ip : bytes) : bytes :=
  if decide (len ip = 0) then bs "<nil>"
  else match To4 ip with
       | Some ip4 => dotted ip4
       | None => if decide (len ip <> IPv6len) then 63 :: HexString ip else ipv6_text ip
       end.

(** *** Parsing *)

(** The fields of a dotted address: [pos] fields are done, the current one has
    the value [val] and [digits] digits. *)
Fixpoint parse_v4 (s : bytes) (done_ : bytes) (val digits : Z) : option bytes :=
  match s with
  | [] => if decide (len done_ = 3 /\ 0 < digits) then Some (done_ ++ [val]) else None
  | c :: s' =>
      if is_digit c then
        if decide (digits = 1 /\ val = 0) then None
        else
          let val := val * 10 + (c - 48) in
          if decide (255 < val) then None else parse_v4 s' done_ val (digits + 1)
      else if decide (c = 46) then
        if decide (digits = 0) then None
        else if decide (len done_ = 3) then None
        else parse_v4 s' (done_ ++ [val]) 0 0
      else None
  end.
Definition parseIPv4 (s : bytes) : option bytes := parse_v4 s [] 0 0.

(** The hexadecimal digits at the front: their value, number and what follows. *)
Fixpoint hex_field (s : bytes) (acc off : Z) : Z * Z * bytes :=
  match s with
  | c :: s' =>
      match fromHexChar c with
      | Some v => hex_field s' (16 * acc + v) (off + 1)
      | None => (acc, off, s)
      end
  | [] => (acc, off, s)
  end.

(** The loop of [parseIPv6]; [ip] holds the bytes so far and [ellipsis] where
    a [::] was seen. The text gets shorter at each turn. *)
Fixpoint parse_v6 (fuel : nat) (s ip : bytes) (ellipsis : option nat) : option (bytes * option nat * bytes) :=
  match fuel with
  | O => None
  | S f =>
      if decide (len ip = 16) then Some (ip, ellipsis, s)
      else
        let '(acc, off, rest) := hex_field s 0 0 in
        if decide (4 < off) then None
        else if decide (off = 0) then None
        else
          match rest with
          | [] => Some (ip ++ [acc / 256; acc mod 256], ellipsis, [])
          | c :: rest' =>
              if decide (c = 46) then
                if decide ((ellipsis = None /\ len ip <> 12) \/ 12 < len ip) then None
                else match parseIPv4 s with Some v4 => Some (ip ++ v4, ellipsis, []) | None => None end
              else
                let ip := ip ++ [acc / 256; acc mod 256] in
                if decide (c <> 58) then None
                else
                  match rest' with
                  | [] => None
                  | c2 :: rest2 =>
                      if decide (c2 = 58) then
                        match ellipsis with
                        | Some _ => None
                        | None =>
                            match rest2 with
                            | [] => Some (ip, Some (length ip), [])
                            | _ => parse_v6 f rest2 ip (Some (length ip))
                            end
                        end
                      else parse_v6 f rest' ip ellipsis
                  end
          end
  end.

Definition expand_v6 (ip : bytes) (ellipsis : option nat) : option bytes :=
  match ellipsis with
  | None => if decide (len ip < 16) then None else Some ip
  | Some e =>
      if decide (len ip < 16) then Some (take e ip ++ replicate (16 - length ip) 0 ++ drop e ip) else None
  end.

Definition parseIPv6 (s : bytes) : option bytes :=
  let '(s, ellipsis) := if decide (take 2 s = [58; 58]) then (drop 2 s, Some O) else (s, None) in
  match ellipsis, s with
  | Some _, [] => Some (replicate 16 0)
  | _, _ =>
      match parse_v6 (S (length s)) s [] ellipsis with
      | Some (ip, ellipsis, []) => expand_v6 ip ellipsis
      | _ => None
      end
  end.

(** [net.ParseIP]: the first of [.], [:] and [%] decides; a zone is refused. *)
Fixpoint family (s : bytes) : option Z :=
  match s with
  | [] => None
  | c :: s' => if decide (c = 46 \/ c = 58 \/ c = 37) then Some c else family s'
  end.

Definition ParseIP (s : bytes) : option bytes :=
  match family s with
  | Some 46 => match parseIPv4 s with Some ip => Some (v4InV6Prefix ++ ip) | None => None end
  | Some 58 => if bool_decide (37 ∈ s) then None else parseIPv6 s
  | _ => None
  end.

Example parse_v4_text : ParseIP (bs "1.2.3.4") = Some (v4InV6Prefix ++ [1; 2; 3; 4]).
Proof. vm_compute. reflexivity. Qed.
Example parse_v6_text : ParseIP (bs "2001:db8::1:0:0:9") = Some [32; 1; 13; 184; 0; 0; 0; 0; 0; 1; 0; 0; 0; 0; 0; 9].
Proof. vm_compute. reflexivity. Qed.
Example print_v6_text : IP_String [32; 1; 13; 184; 0; 0; 0; 0; 0; 1; 0; 0; 0; 0; 0; 9] = bs "2001:db8::1:0:0:9".
Proof. vm_compute. reflexivity. Qed.
Example parse_v6_mixed : ParseIP (bs "::ffff:1.2.3.4") = Some (v4InV6Prefix ++ [1; 2; 3; 4]).
Proof. vm_compute. reflexivity. Qed.

(** ** Hosts and ports *)
Definition JoinHostPort (host port : bytes) : bytes :=
  if bool_decide (58 ∈ host) then [91] ++ host ++ [93; 58] ++ port else host ++ [58] ++ port.

(** The position of the last [c], counted from the front. *)
Fixpoint last_index (c : Z) (s : bytes) : option nat :=
  match s with
  | [] => None
  | x :: s' => match last_index c s' with
               | Some i => Some (S i)
               | None => if decide (x = c) then Some O else None
               end
  end.

Fixpoint index_byte (c : Z) (s : bytes) : option nat :=
  match s with
  | [] => None
  | x :: s' => if decide (x = c) then Some O else option_map S (index_byte c s')
  end.

Definition missingPort : string := "missing port in address".
Definition tooManyColons : string := "too many colons in address".

(** [net.SplitHostPort]; with an error both strings are empty. *)
Definition SplitHostPort (s : bytes) : res (bytes * bytes) :=
  match last_index 58 s with
  | None => Err missingPort
  | Some i =>
      '(host, j, k) ← match s with
        | 91 :: _ =>
            match index_byte 93 s with
            | None => Err "missing ']' in address"
            | Some e =>
                if decide (S e = length s) then Err missingPort
                else if decide (S e = i) then Ok (take (e - 1) (drop 1 s), 1, S e)%nat
                else if decide (s !! S e = Some 58) then Err tooManyColons
                else Err missingPort
            end
        | _ => if bool_decide (58 ∈ take i s) then Err tooManyColons else Ok (take i s, O, O)
        end;
      if bool_decide (91 ∈ drop j s) then Err "unexpected '[' in address"
      else if bool_decide (93 ∈ drop k s) then Err "unexpected ']' in address"
      else Ok (host, drop (S i) s)
  end.

(** ** Concrete addresses *)

(** [i2pkeys.I2PAddr], which is outside the repository. *)
Class I2PKeys (I : Type) := {
  I2P_String : I -> bytes;
  I2P_DestHash : I -> bytes;
  I2P_ToBytes : I -> res bytes;
  NewI2PAddrFromBytes : bytes -> res I;
  I2P_Lookup : bytes -> res I
}.

Section Addr.
Context {I : Type} `{I2PKeys I}.

(** The dynamic types of a [net.Addr] the sources distinguish; [OtherAddr] is
    any other one, of which only the printed form is used. *)
Inductive netAddr :=
  | TCPAddr (ip : bytes) (port : Z) (zone : bytes)
  | UDPAddr (ip : bytes) (port : Z) (zone : bytes)
  | IPAddr (ip : bytes) (zone : bytes)
  | I2PAddrPtr (a : I)
  | I2PAddrVal (a : I)
  | OtherAddr (s : bytes).

Definition ipEmptyString (ip : bytes) : bytes := if decide (len ip = 0) then [] else IP_String ip.

Definition zoned (ip zone : bytes) : bytes :=
  if decide (zone = []) then ipEmptyString ip else ipEmptyString ip ++ [37] ++ zone.

#[global] Instance netAddr_String : NetAddr netAddr := fun a =>
  match a with
  | TCPAddr ip port zone | UDPAddr ip port zone => JoinHostPort (zoned ip zone) (FormatInt port)
  | IPAddr ip zone => zoned ip zone
  | I2PAddrPtr a | I2PAddrVal a => I2P_String a
  | OtherAddr s => s
  end.

(** ** utils/addr.go: a nil [net.IP] is the empty list. *)
Definition NetIPAddr (a : netAddr) : bytes :=
  match a with
  | TCPAddr ip _ _ | UDPAddr ip _ _ => ip
  | I2PAddrPtr _ | I2PAddrVal _ => v4InV6Prefix ++ loopback4
  | IPAddr _ _ | OtherAddr _ =>
      match SplitHostPort (addr_String a) with
      | Ok (ip, _) => default [] (ParseIP ip)
      | _ => []
      end
  end.

Definition utils_IPAddr (a : netAddr) : bytes :=
  match a with
  | TCPAddr ip _ _ | UDPAddr ip _ _ => IP_String ip
  | I2PAddrPtr i | I2PAddrVal i => I2P_DestHash i
  | IPAddr _ _ | OtherAddr _ => match SplitHostPort (addr_String a) with Ok (ip, _) => ip | _ => [] end
  end.

Definition utils_Port (a : netAddr) : Z :=
  match a with
  | TCPAddr _ port _ | UDPAddr _ port _ => port
  | I2PAddrPtr _ | I2PAddrVal _ => 6881
  | IPAddr _ _ | OtherAddr _ =>
      match SplitHostPort (addr_String a) with
      | Ok (_, port) => match ParseInt 64 port with Ok n => n | _ => 0 end
      | _ => 0
      end
  end.

Definition IsIPv6Addr (a : netAddr) : bool :=
  match a with
  | TCPAddr ip _ _ | UDPAddr ip _ _ | IPAddr ip _ => match To4 ip with None => true | Some _ => false end
  | I2PAddrPtr _ | I2PAddrVal _ | OtherAddr _ => false
  end.

Definition IpIsZero (ip : bytes) : bool := forallb (fun b => bool_decide (b = 0)) ip.
End Addr.

End Net.
