(* ===== verification/NetFacts.v ===== *)
(** * Printing and parsing IP addresses

    [ParseIP] reads back what [IP_String] prints, for IPv4 and for IPv6 with
    its run of zeros left out. *)

From S2P Require Import Prelude Strconv Sha1 Hash Net.
Import Strconv Hash Net.

Module NetFacts.

(** ** Dotted addresses *)
Definition v4_step (n : Z) : Prop := forall rest done_,
  exists k, 0 < k /\ parse_v4 (FormatUint 10 n ++ rest) done_ 0 0 = parse_v4 rest done_ n k.

Lemma v4_steps : Forall v4_step (seqZ 0 256).
Proof.
  change (seqZ 0 256) with (Z.of_nat <$> seq 0 256). apply Forall_fmap.
  assert (forall n, (n < 256)%nat -> v4_step (Z.of_nat n)) as Hall.
  { intros n Hn rest done_. do 256 (destruct n as [|n]; [eexists; split; [|reflexivity]; lia|]). lia. }
  apply Forall_forall. intros n Hn. apply Hall. apply elem_of_seq in Hn. lia.
Qed.

Lemma parse_v4_field n rest done_ : is_byte n ->
  exists k, 0 < k /\ parse_v4 (FormatUint 10 n ++ rest) done_ 0 0 = parse_v4 rest done_ n k.
Proof.
  intros Hn. pose proof v4_steps as Hall. rewrite Forall_forall in Hall. apply Hall.
  apply elem_of_seqZ. unfold is_byte in Hn. lia.
Qed.

Lemma parse_v4_dot n rest done_ : is_byte n -> len done_ < 3 ->
  parse_v4 (FormatUint 10 n ++ 46 :: rest) done_ 0 0 = parse_v4 rest (done_ ++ [n]) 0 0.
Proof.
  intros Hn Hl. destruct (parse_v4_field n (46 :: rest) done_ Hn) as (k & Hk & ->).
  cbn [parse_v4]. change (is_digit 46) with false. cbn iota.
  rewrite decide_True by done. rewrite !decide_False by lia. done.
Qed.

Lemma parseIPv4_dotted ip : length ip = 4%nat -> bytes_ok ip -> parseIPv4 (dotted ip) = Some ip.
Proof.
  intros Hl Hb. do 5 (destruct ip as [|? ip]; try discriminate Hl). do 4 (apply Forall_cons in Hb as [? Hb]).
  unfold parseIPv4, dotted. cbn [map join].
  rewrite !parse_v4_dot by first [done | unfold len; cbn; lia].
  rewrite <-(app_nil_r (FormatUint 10 _)). cbn [app].
  edestruct parse_v4_field as (k & Hk & E); [eassumption|]. rewrite E. cbn [parse_v4].
  rewrite decide_True; [done|]. split; [done|lia].
Qed.

(** ** Groups *)
Definition group_ok (g : Z) : Prop := 0 <= g < 65536.
Definition group_bytes (gs : list Z) : bytes := concat (map (fun g => [g / 256; g mod 256]) gs).

Lemma group_bytes_app gs hs : group_bytes (gs ++ hs) = group_bytes gs ++ group_bytes hs.
Proof. unfold group_bytes. by rewrite map_app, concat_app. Qed.

Lemma length_group_bytes gs : length (group_bytes gs) = (2 * length gs)%nat.
Proof. induction gs as [|g gs IH]; [done|]. unfold group_bytes in *. cbn. lia. Qed.

Lemma group_bytes_zero n : group_bytes (replicate n 0) = replicate (2 * n) 0.
Proof.
  induction n as [|n IH]; [done|]. replace (2 * S n)%nat with (S (S (2 * n))) by lia.
  unfold group_bytes in *. cbn [replicate map concat app]. by rewrite IH.
Qed.

Lemma groups_bytes n ip : length ip = (2 * n)%nat -> bytes_ok ip ->
  length (groups ip) = n /\ Forall group_ok (groups ip) /\ group_bytes (groups ip) = ip.
Proof.
  revert ip. induction n as [|n IH]; intros ip Hl Hb; [by destruct ip|].
  destruct ip as [|x [|y ip]]; try (cbn in Hl; lia).
  apply Forall_cons in Hb as [Hx Hb]. apply Forall_cons in Hb as [Hy Hb]. unfold is_byte in Hx, Hy.
  destruct (IH ip) as (H1 & H2 & H3); [cbn in Hl; lia|done|]. cbn [groups]. split_and!.
  - cbn. lia.
  - constructor; [unfold group_ok; lia|done].
  - unfold group_bytes in *. cbn [map concat app]. rewrite H3.
    rewrite (Z.mul_comm 256), Z.div_add_l, Z.div_small, Z.add_0_r by lia.
    by rewrite Z.add_comm, Z.mod_add, Z.mod_small by lia.
Qed.

(** *** One group in hexadecimal *)
Lemma fromHex_digit_char d : 0 <= d < 16 -> fromHexChar (digit_char d) = Some d.
Proof. apply fromHex_digit. Qed.

(** The text ends before [t]. *)
Definition no_hex (t : bytes) : Prop := match t with c :: _ => fromHexChar c = None | [] => True end.

Lemma hex_field_stop t acc off : no_hex t -> hex_field t acc off = (acc, off, t).
Proof. destruct t as [|c t]; [done|]. cbn. by intros ->. Qed.

Lemma format16_fuel n fuel x u : (1 <= n)%nat -> 0 <= x < 16 ^ Z.of_nat n -> (n <= fuel)%nat ->
  exists k, 1 <= k <= Z.of_nat n /\ hex_field (format_aux fuel 16 x ++ u) 0 0 = hex_field u x k.
Proof.
  revert fuel x u. induction n as [|n IH]; intros fuel x u Hn Hx Hfu; [lia|]. destruct fuel as [|fuel]; [lia|].
  cbn [format_aux]. case_decide as Hx16.
  - exists 1. split; [lia|]. cbn [app hex_field]. rewrite fromHex_digit_char by lia. f_equal; lia.
  - destruct n as [|n]; [cbn in Hx; lia|].
    pose proof (Z.div_mod x 16 ltac:(lia)). pose proof (Z.mod_pos_bound x 16 ltac:(lia)).
    rewrite (Nat2Z.inj_succ (S n)), Z.pow_succ_r in Hx by lia.
    destruct (IH fuel (x / 16) (digit_char (x mod 16) :: u)) as (k & Hk & E); [lia| |lia|].
    { split; [apply Z.div_pos; lia|apply Z.div_lt_upper_bound; lia]. }
    exists (k + 1). split; [lia|]. rewrite <-app_assoc. cbn [app]. rewrite E. cbn [hex_field].
    rewrite fromHex_digit_char by lia. f_equal; lia.
Qed.

Lemma format16 g t : group_ok g -> no_hex t ->
  exists k, 1 <= k <= 4 /\ hex_field (FormatUint 16 g ++ t) 0 0 = (g, k, t).
Proof.
  unfold group_ok. intros Hg Ht. unfold FormatUint. set (f := Z.to_nat (Z.log2 g)).
  assert (exists n, (1 <= n <= 4)%nat /\ g < 16 ^ Z.of_nat n /\ (n <= S f)%nat) as (n & Hn & Hgn & Hnf).
  { assert (Hlog : forall b, 2 ^ Z.of_nat b <= g -> (b <= f)%nat).
    { intros b Hb. unfold f. assert (Z.of_nat b <= Z.log2 g) by (apply Z.log2_le_pow2; lia). lia. }
    destruct (decide (g < 16)); [exists 1%nat; cbn; lia|].
    destruct (decide (g < 256)); [exists 2%nat; pose proof (Hlog 4%nat ltac:(cbn; lia)); cbn; lia|].
    destruct (decide (g < 4096)); [exists 3%nat; pose proof (Hlog 8%nat ltac:(cbn; lia)); cbn; lia|].
    exists 4%nat; pose proof (Hlog 12%nat ltac:(cbn; lia)); cbn; lia. }
  destruct (format16_fuel n (S f) g t) as (k & Hk & E); [lia|lia|done|].
  exists k. split; [lia|]. rewrite E. by apply hex_field_stop.
Qed.

(** *** A list of groups *)
Definition text (gs : list Z) : bytes := join 58 (map (FormatUint 16) gs).

Lemma text_cons g g2 gs : text (g :: g2 :: gs) = FormatUint 16 g ++ 58 :: text (g2 :: gs).
Proof. done. Qed.

(** What the parser does after a group [g]: stop at the end of the text, or
    go on behind the colon. *)
Lemma parse_group f g t ip e : group_ok g -> len ip < 16 -> no_hex t -> match t with 46 :: _ => False | _ => True end ->
  parse_v6 (S f) (FormatUint 16 g ++ t) ip e =
  match t with
  | [] => Some (ip ++ [g / 256; g mod 256], e, [])
  | c :: t' =>
      if decide (c <> 58) then None
      else match t' with
           | [] => None
           | c2 :: t2 =>
               if decide (c2 = 58) then
                 match e with
                 | Some _ => None
                 | None =>
                     match t2 with
                     | [] => Some (ip ++ [g / 256; g mod 256], Some (length (ip ++ [g / 256; g mod 256])), [])
                     | _ => parse_v6 f t2 (ip ++ [g / 256; g mod 256]) (Some (length (ip ++ [g / 256; g mod 256])))
                     end
                 end
               else parse_v6 f t' (ip ++ [g / 256; g mod 256]) e
           end
  end.
Proof.
  intros Hg Hip Ht Hdot. cbn [parse_v6]. rewrite decide_False by lia.
  destruct (format16 g t Hg Ht) as (k & Hk & ->). rewrite !decide_False by lia.
  destruct t as [|c t']; [done|]. rewrite (decide_False (P := c = 46)); [done|].
  intros ->. done.
Qed.

Lemma text_head g gs : group_ok g -> exists c s, text (g :: gs) = c :: s /\ is_Some (fromHexChar c).
Proof.
  intros Hg. destruct (format16 g [] Hg I) as (k & Hk & E). rewrite app_nil_r in E.
  destruct (FormatUint 16 g) as [|c s] eqn:Ef; [cbn in E; injection E; lia|].
  exists c. unfold text. cbn [map join]. rewrite Ef.
  assert (is_Some (fromHexChar c)).
  { cbn [hex_field] in E. destruct (fromHexChar c); [done|]. injection E. lia. }
  destruct (map (FormatUint 16) gs); [by eexists|]. cbn. by eexists.
Qed.

Lemma hex_not_colon c : is_Some (fromHexChar c) -> c <> 58 /\ c <> 46 /\ c <> 37.
Proof. intros [v Hv]. split_and!; intros ->; discriminate Hv. Qed.

(** The groups up to the end of the text. *)
Lemma parse_text gs f ip e :
  gs <> [] -> Forall group_ok gs -> len ip + 2 * len gs <= 16 -> (length gs <= f)%nat ->
  parse_v6 f (text gs) ip e = Some (ip ++ group_bytes gs, e, []).
Proof.
  revert f ip. induction gs as [|g gs IH]; intros f ip Hne Hok Hl Hf; [done|].
  apply Forall_cons in Hok as [Hg Hok]. rewrite len_cons in Hl. pose proof (len_nonneg gs).
  destruct f as [|f]; [cbn in Hf; lia|]. destruct gs as [|g2 gs].
  - unfold text. cbn [map join]. rewrite <-(app_nil_r (FormatUint 16 g)), parse_group by (done || lia). done.
  - rewrite text_cons, parse_group by (done || lia). rewrite decide_False by tauto.
    apply Forall_cons in Hok as [Hg2 Hok].
    destruct (text_head g2 gs Hg2) as (c & s & E & Hc). rewrite E.
    destruct (hex_not_colon c Hc) as (Hc1 & _). rewrite decide_False by done. rewrite <-E.
    rewrite IH; [|done|by constructor|rewrite len_app; change (len [g / 256; g mod 256]) with 2; lia|cbn in *; lia].
    rewrite <-app_assoc. done.
Qed.

(** The groups up to a double colon, and then those behind it. *)
Lemma parse_text_ellipsis gs hs f ip :
  gs <> [] -> Forall group_ok gs -> Forall group_ok hs -> len ip + 2 * len gs + 2 * len hs <= 16 ->
  (length gs + length hs <= f)%nat ->
  parse_v6 f (text gs ++ [58; 58] ++ text hs) ip None =
  Some (ip ++ group_bytes gs ++ group_bytes hs, Some (length ip + 2 * length gs)%nat, []).
Proof.
  revert f ip. induction gs as [|g gs IH]; intros f ip Hne Hok Hh Hl Hf; [done|].
  apply Forall_cons in Hok as [Hg Hok]. rewrite len_cons in Hl. pose proof (len_nonneg gs). pose proof (len_nonneg hs).
  destruct f as [|f]; [cbn in Hf; lia|]. destruct gs as [|g2 gs].
  - unfold text at 1. cbn [map join app]. rewrite parse_group by (done || lia).
    rewrite decide_False by tauto. rewrite decide_True by done. rewrite length_app. cbn [length].
    destruct hs as [|h hs]; [by rewrite app_nil_r|].
    destruct (text_head h hs) as (c & s & E & Hc); [by inversion Hh|]. rewrite E, <-E.
    rewrite parse_text; [by rewrite <-app_assoc|done|done| |cbn in *; lia].
    rewrite len_app. change (len [g / 256; g mod 256]) with 2. change (len []) with 0 in Hl. lia.
  - rewrite text_cons, <-app_assoc. cbn [app]. rewrite parse_group by (done || lia). rewrite decide_False by tauto.
    apply Forall_cons in Hok as [Hg2 Hok].
    destruct (text_head g2 gs Hg2) as (c & s & E & Hc). rewrite E. cbn [app].
    destruct (hex_not_colon c Hc) as (Hc1 & _). rewrite decide_False by done.
    change (c :: s ++ 58 :: 58 :: text hs) with ((c :: s) ++ [58; 58] ++ text hs). rewrite <-E.
    rewrite IH; [|done|by constructor|done|rewrite len_app; change (len [g / 256; g mod 256]) with 2; lia|cbn in *; lia].
    rewrite <-app_assoc, length_app. cbn. do 3 f_equal. f_equal. lia.
Qed.

(** *** The run of zeros that is left out *)
Definition run_ok (gs : list Z) (r : nat * nat) : Prop :=
  r.1 = r.2 \/ (r.1 + 2 <= r.2 <= length gs)%nat /\ take (r.2 - r.1) (drop r.1 gs) = replicate (r.2 - r.1) 0.

Lemma zero_run_spec gs : (zero_run gs <= length gs)%nat /\ take (zero_run gs) gs = replicate (zero_run gs) 0.
Proof.
  induction gs as [|g gs [IH1 IH2]]; [done|]. destruct (decide (g = 0)) as [->|].
  - cbn. split; [lia|]. by rewrite IH2.
  - destruct g; cbn; split; done || lia.
Qed.

Lemma longest_run_ok whole i gs best :
  drop i whole = gs -> run_ok whole best -> run_ok whole (longest_run i gs best).
Proof.
  revert i best. induction gs as [|g gs IH]; intros i best Hd Hb; [done|]. cbn [longest_run].
  apply IH; [by rewrite (drop_S whole g i) in Hd by (by rewrite <-(Nat.add_0_r i), <-lookup_drop, Hd); injection Hd|].
  case_decide as Hl; [|done]. destruct (zero_run_spec (g :: gs)) as [H1 H2]. right. cbn [fst snd].
  replace (i + zero_run (g :: gs) - i)%nat with (zero_run (g :: gs)) by lia.
  assert (length (g :: gs) = length whole - i)%nat as HL by (by rewrite <-Hd, length_drop).
  rewrite Hd. split; [|done]. lia.
Qed.

Lemma split_run gs a b : run_ok gs (a, b) -> a <> b ->
  gs = take a gs ++ replicate (b - a) 0 ++ drop b gs /\ (a + 2 <= b <= length gs)%nat.
Proof.
  intros [|[Hl Ht]] Hne; [done|]. cbn in *. split; [|done]. rewrite <-Ht.
  rewrite <-(take_drop a gs) at 1. f_equal. rewrite <-(take_drop (b - a) (drop a gs)) at 1. f_equal.
  rewrite drop_drop. f_equal. lia.
Qed.

(** *** The characters *)
Definition hex_char (c : Z) : Prop := is_Some (fromHexChar c).

Lemma format_aux_hex fuel n : 0 <= n -> Forall hex_char (format_aux fuel 16 n).
Proof.
  revert n. induction fuel as [|fuel IH]; intros n Hn; cbn [format_aux]; [constructor|].
  pose proof (Z.mod_pos_bound n 16 ltac:(lia)). case_decide.
  - repeat constructor. unfold hex_char. rewrite fromHex_digit_char by lia. done.
  - apply Forall_app. split; [apply IH, Z.div_pos; lia|]. repeat constructor.
    unfold hex_char. rewrite fromHex_digit_char by lia. done.
Qed.

Lemma text_chars gs : Forall group_ok gs -> Forall (fun c => hex_char c \/ c = 58) (text gs).
Proof.
  assert (Hg : forall g, group_ok g -> Forall (fun c => hex_char c \/ c = 58) (FormatUint 16 g)).
  { intros g Hg. eapply Forall_impl; [apply format_aux_hex; unfold group_ok in Hg; lia|]. auto. }
  induction 1 as [|g gs Hgo _ IH]; [constructor|]. destruct gs as [|g2 gs]; [by apply Hg|].
  rewrite text_cons. apply Forall_app. split; [by apply Hg|]. constructor; auto.
Qed.

Lemma family_colon s t : Forall hex_char s -> family (s ++ 58 :: t) = Some 58.
Proof.
  induction 1 as [|c s Hc _ IH]; [done|]. cbn [app family]. apply hex_not_colon in Hc. rewrite decide_False by lia. done.
Qed.

Lemma ipv6_chars_ok s : Forall (fun c => hex_char c \/ c = 58) s -> bool_decide (37 ∈ s) = false.
Proof.
  intros Hs. apply bool_decide_eq_false. intros Hin. rewrite Forall_forall in Hs.
  destruct (Hs _ Hin) as [[v Hv]|]; [discriminate Hv|done].
Qed.

Lemma text_length gs : Forall group_ok gs -> (length gs <= length (text gs))%nat.
Proof.
  induction 1 as [|g gs Hg Hok IH]; [done|]. destruct gs as [|g2 gs].
  - destruct (text_head g [] Hg) as (c & s & -> & _). cbn. lia.
  - rewrite text_cons, length_app. cbn [length] in *. lia.
Qed.

Lemma parseIPv6_text ip : length ip = 16%nat -> bytes_ok ip -> parseIPv6 (ipv6_text ip) = Some ip.
Proof.
  intros Hl Hb. destruct (groups_bytes 8 ip Hl Hb) as (H8 & Hok & Hgs). unfold ipv6_text.
  destruct (longest_run 0 (groups ip) (0, 0)%nat) as [a b] eqn:E.
  assert (Hrun : run_ok (groups ip) (a, b)) by (rewrite <-E; apply longest_run_ok; [done|by left]).
  set (gs := groups ip) in *. fold (text gs) (text (take a gs)) (text (drop b gs)).
  assert (Hlen : forall l : list Z, len l = Z.of_nat (length l)) by done.
  case_decide as Hab.
  - destruct gs as [|g gs'] eqn:Egs; [done|].
    destruct (text_head g gs') as (c & s & Et & Hc); [by inversion Hok|].
    unfold parseIPv6. rewrite decide_False by (rewrite Et; destruct s; cbn; destruct (hex_not_colon _ Hc); congruence).
    rewrite Et, <-Et. pose proof (text_length _ Hok).
    rewrite parse_text; [|done|done|unfold len; cbn in *; lia|lia].
    cbn [app]. rewrite Hgs. unfold expand_v6. by rewrite decide_False by (unfold len; lia).
  - destruct (split_run gs a b Hrun Hab) as [Hsplit Hbnd].
    assert (Htk : Forall group_ok (take a gs)) by (by apply Forall_take).
    assert (Hdr : Forall group_ok (drop b gs)) by (by apply Forall_drop).
    assert (La : length (take a gs) = a) by (rewrite length_take; lia).
    assert (Lb : length (drop b gs) = (8 - b)%nat) by (rewrite length_drop; lia).
    assert (Hexp : forall e, e = (2 * a)%nat ->
      expand_v6 (group_bytes (take a gs) ++ group_bytes (drop b gs)) (Some e) = Some ip).
    { intros e ->. unfold expand_v6. rewrite len_app. unfold len. rewrite !length_app, !length_group_bytes, La, Lb.
      rewrite decide_True by lia. rewrite take_app_length', drop_app_length' by (rewrite length_group_bytes; lia).
      rewrite <-Hgs. assert (group_bytes gs = group_bytes (take a gs) ++ replicate (2 * (b - a)) 0 ++ group_bytes (drop b gs)) as ->
        by (rewrite Hsplit at 1; by rewrite !group_bytes_app, group_bytes_zero).
      do 4 f_equal. lia. }
    destruct (decide (a = 0)%nat) as [->|Ha].
    + rewrite take_0. change (text []) with (@nil Z). cbn [app]. unfold parseIPv6. cbn [take drop]. rewrite decide_True by done.
      rewrite take_0 in Hexp. cbn [app group_bytes map concat] in Hexp.
      destruct (drop b gs) as [|h hs] eqn:Ed; [by rewrite <-(Hexp O)|].
      destruct (text_head h hs) as (c & s & Et & Hc); [by inversion Hdr|]. rewrite !drop_0, Et, <-Et.
      pose proof (text_length _ Hdr). rewrite parse_text; [|done|done|rewrite !Hlen, Lb; cbn; lia|lia]. by apply Hexp.
    + destruct (take a gs) as [|g gs'] eqn:Eg; [cbn in La; lia|].
      destruct (text_head g gs') as (c & s & Et & Hc); [by inversion Htk|].
      unfold parseIPv6. rewrite decide_False by (rewrite Et; destruct s; cbn; destruct (hex_not_colon _ Hc); congruence).
      rewrite Et. cbn [app]. change (c :: s ++ ?x) with ((c :: s) ++ x). rewrite <-Et.
      pose proof (text_length _ Htk). pose proof (text_length _ Hdr).
      rewrite (parse_text_ellipsis (g :: gs') (drop b gs));
        [|done|done|done|rewrite !Hlen, La, Lb; cbn; lia|rewrite !length_app; cbn [length] in *; lia].
      cbn [app]. apply Hexp. rewrite La. cbn. lia.
Qed.

Lemma FormatUint16_hex g : group_ok g -> Forall hex_char (FormatUint 16 g).
Proof. intros Hg. apply format_aux_hex. unfold group_ok in Hg. lia. Qed.

Lemma family_text gs t : Forall group_ok gs -> family (text gs ++ 58 :: t) = Some 58.
Proof.
  destruct gs as [|g [|g2 gs]]; intros Hok; [done| |]; inversion Hok; subst.
  - apply family_colon. by apply FormatUint16_hex.
  - rewrite text_cons, <-app_assoc. apply family_colon. by apply FormatUint16_hex.
Qed.

(** ** Reading back a printed address *)
Lemma ParseIP_v4 ip : length ip = 4%nat -> bytes_ok ip -> ParseIP (IP_String ip) = Some (v4InV6Prefix ++ ip).
Proof.
  intros Hl Hb. unfold IP_String, To4, FastSet.To4. rewrite decide_False, decide_True by (unfold len; lia).
  unfold ParseIP. assert (family (dotted ip) = Some 46) as ->.
  { do 5 (destruct ip as [|? ip]; try discriminate Hl). unfold dotted. cbn [map join].
    assert (Hd : forall s t, Forall (fun c => is_digit c = true) s -> family (s ++ 46 :: t) = Some 46).
    { induction 1 as [|c s Hc _ IH]; [done|]. cbn [app family]. apply is_digit_spec in Hc. rewrite decide_False by lia. done. }
    apply Hd, FormatUint_digits. inversion Hb. unfold is_byte in *. lia. }
  by rewrite parseIPv4_dotted.
Qed.

Lemma ipv6_text_shape ip : length ip = 16%nat -> bytes_ok ip ->
  exists gs t, ipv6_text ip = text gs ++ 58 :: t /\ Forall group_ok gs /\
    Forall (fun c => hex_char c \/ c = 58) (ipv6_text ip).
Proof.
  intros Hl Hb. destruct (groups_bytes 8 ip Hl Hb) as (H8 & Hok & _).
  unfold ipv6_text. destruct (longest_run 0 (groups ip) (0, 0)%nat) as [a b]. case_decide.
  - destruct (groups ip) as [|g [|g2 gs]]; try discriminate H8. exists [g], (text (g2 :: gs)).
    inversion Hok; subst. split_and!; [apply text_cons|by constructor|by apply text_chars].
  - exists (take a (groups ip)), (58 :: text (drop b (groups ip))). split_and!; [done|by apply Forall_take|].
    apply Forall_app. split; [by apply text_chars, Forall_take|]. do 2 (constructor; [by right|]).
    by apply text_chars, Forall_drop.
Qed.

Lemma ParseIP_v6 ip : length ip = 16%nat -> bytes_ok ip -> To4 ip = None -> ParseIP (IP_String ip) = Some ip.
Proof.
  intros Hl Hb H4. unfold IP_String. rewrite H4, !decide_False by (unfold len, IPv6len; lia).
  destruct (ipv6_text_shape ip Hl Hb) as (gs & t & E & Hgs & Hchars). unfold ParseIP. rewrite E at 1.
  rewrite family_text by done. rewrite ipv6_chars_ok by done. by apply parseIPv6_text.
Qed.

(** ** Lengths of the printed forms *)
Lemma length_format_aux fuel base n : (length (format_aux fuel base n) <= fuel)%nat.
Proof.
  revert n. induction fuel as [|fuel IH]; intros n; cbn [format_aux]; [done|].
  case_decide; [cbn; lia|]. rewrite length_app. cbn. specialize (IH (n / base)). lia.
Qed.

Lemma length_FormatUint base n : 0 <= n < 65536 -> (length (FormatUint base n) <= 16)%nat.
Proof.
  intros Hn. unfold FormatUint. etransitivity; [apply length_format_aux|].
  assert (Z.log2 n <= Z.log2 65535) by (apply Z.log2_le_mono; lia). change (Z.log2 65535) with 15 in *. lia.
Qed.

Lemma length_join sep base l : Forall (fun n => 0 <= n < 65536) l ->
  (length (join sep (map (FormatUint base) l)) <= 17 * length l)%nat.
Proof.
  induction 1 as [|n l Hn Hl IH]; [done|]. pose proof (length_FormatUint base n Hn).
  destruct l as [|m l]; [cbn in *; lia|].
  change (join sep (map (FormatUint base) (n :: m :: l))) with
    (FormatUint base n ++ sep :: join sep (map (FormatUint base) (m :: l))).
  rewrite length_app. cbn [length] in *. lia.
Qed.

Lemma length_IP_String ip : bytes_ok ip -> length ip = 4%nat \/ length ip = 16%nat /\ To4 ip = None ->
  (length (IP_String ip) <= 300)%nat.
Proof.
  intros Hb Hl. unfold IP_String. rewrite decide_False by (unfold len; lia).
  destruct Hl as [Hl|[Hl H4]].
  - unfold To4, FastSet.To4. rewrite decide_True by (unfold len; lia). unfold dotted.
    etransitivity; [apply length_join|lia]. eapply Forall_impl; [exact Hb|]. unfold is_byte. lia.
  - rewrite H4, decide_False by (unfold len, IPv6len; lia).
    destruct (groups_bytes 8 ip Hl Hb) as (H8 & Hok & _). unfold ipv6_text.
    destruct (longest_run _ _ _) as [a b]. cbv zeta beta. case_decide.
    + etransitivity; [by apply length_join|lia].
    + rewrite !length_app. pose proof (length_join 58 16 (take a (groups ip)) ltac:(by apply Forall_take)).
      pose proof (length_join 58 16 (drop b (groups ip)) ltac:(by apply Forall_drop)).
      rewrite length_take in H0. rewrite length_drop in H1. cbn [length]. lia.
Qed.

(** The dotted form has at most fifteen characters. *)
Lemma length_decimal fuel k n : 0 <= n < 10 ^ Z.of_nat (S k) -> (length (format_aux fuel 10 n) <= S k)%nat.
Proof.
  revert k n. induction fuel as [|fuel IH]; intros k n Hn; cbn [format_aux]; [cbn; lia|].
  case_decide; [cbn; lia|]. rewrite length_app. cbn [length].
  destruct k as [|k]; [cbn in Hn; lia|]. assert (length (format_aux fuel 10 (n / 10)) <= S k)%nat; [|lia].
  apply IH. rewrite Nat2Z.inj_succ, Z.pow_succ_r in Hn by lia.
  split; [apply Z.div_pos; lia|apply Z.div_lt_upper_bound; lia].
Qed.

Lemma length_IP4_String ip : bytes_ok ip -> length ip = 4%nat -> (length (IP_String ip) <= 15)%nat.
Proof.
  intros Hb Hl. unfold IP_String. rewrite decide_False by (unfold len; lia). unfold To4, FastSet.To4.
  rewrite decide_True by (unfold len; lia). unfold dotted.
  destruct ip as [|a [|b [|c [|d [|]]]]]; try discriminate Hl. repeat apply Forall_cons in Hb as [? Hb].
  assert (Hd : forall x, is_byte x -> (length (FormatUint 10 x) <= 3)%nat)
    by (unfold is_byte; intros x Hx; apply (length_decimal _ 2); change (10 ^ Z.of_nat 3) with 1000; lia).
  cbn [map join]. pose proof (Hd a). pose proof (Hd b). pose proof (Hd c). pose proof (Hd d).
  rewrite !length_app. cbn [length]. rewrite !length_app. cbn [length]. rewrite !length_app. cbn [length]. intuition lia.
Qed.

End NetFacts.
