(* ===== verification/Address.v ===== *)
(** * Addresses

    Models [src/metainfo/address.go] and [src/utils/addr.go]. An [Address]
    keeps a [net.Addr], which may be the nil interface; calling a method on it
    then panics. The resolvers ([net.LookupIP], [i2pkeys.Lookup]) are
    arguments. *)

From S2P Require Import Prelude Strconv Bencode BencodeFacts BencodeTyped Sha1 Hash Net NetFacts Routing.
Import Strconv Bencode BencodeFacts BencodeTyped Net NetFacts.

Module Address.

Section Address.
Context {I : Type} `{I2PKeys I}.
Context (LookupIP : bytes -> res (list bytes)).

Definition ErrInvalidAddr : string := "invalid compact information of ip and port".
Definition nilDeref : string := "invalid memory address or nil pointer dereference".

Record Address := MkAddress { a_IP : option (netAddr (I := I)); a_Port : Z }.

(** The dynamic type of the [interface{}] argument of [NewAddress]. *)
Inductive ip_arg := ArgIP (ip : bytes) | ArgAddr (a : netAddr (I := I)) | ArgOther.

Definition NewAddress (ip : ip_arg) (port : Z) : Address :=
  match ip with
  | ArgIP v => MkAddress (Some (IPAddr v [])) port
  | ArgAddr (IPAddr v zone) => MkAddress (Some (IPAddr v zone)) port
  | ArgAddr (I2PAddrVal v) => MkAddress (Some (I2PAddrVal v)) port
  | _ => MkAddress None 0
  end.

(** [strings.HasSuffix(s, ".i2p")]. *)
Definition is_i2p (s : bytes) : bool := bool_decide (drop (length s - 4) s = bs ".i2p").

Definition to_addrs (ips : list bytes) : list (netAddr (I := I)) :=
  map (fun ip => match To4 ip with Some ip4 => IPAddr ip4 [] | None => IPAddr ip [] end) ips.

Definition Lookup (shost : bytes) (port : Z) : res (list Address) :=
  if is_i2p shost then iaddr ← I2P_Lookup shost; Ok [MkAddress (Some (I2PAddrVal iaddr)) 6881]
  else
    match LookupIP shost with
    | Ok ips => Ok (map (fun a => MkAddress (Some a) (u16 port)) (to_addrs ips))
    | Err _ => Err "fail to lookup the domain"
    | r => _ ← r; Ok []
    end.

Definition LookupNetAddr (shost : bytes) : res (list (netAddr (I := I))) :=
  if is_i2p shost then iaddr ← I2P_Lookup shost; Ok [I2PAddrVal iaddr]
  else
    match LookupIP shost with
    | Ok ips => Ok (to_addrs ips)
    | Err _ => Err "fail to lookup the domain"
    | r => _ ← r; Ok []
    end.

(** Host and port of an address string: the error of [SplitHostPort] is
    forgiven for an I2P host without a port. *)
Definition split_addr (s : bytes) : res (bytes * bytes) :=
  match SplitHostPort s with
  | Ok hp => Ok hp
  | Err _ =>
      let '(host, port) := ([] : bytes, [] : bytes) in
      if bool_decide (port = []) && is_i2p host then Ok (host, bs "6881") else Err "invalid address"
  | Panic p => Panic p
  | NoFuel => NoFuel
  end.

(** The port of an address string, [old] when it is empty. *)
Definition parse_port (old : Z) (port : bytes) : res Z :=
  if decide (port = []) then Ok old
  else match ParseUint 16 port with Ok v => Ok (u16 v) | Err _ => Err "invalid address" | r => r end.

Definition NewAddressesFromString (s : bytes) : res (list Address) :=
  '(shost, sport) ← split_addr s;
  port ← parse_port 0 sport;
  match Lookup shost port with Err _ => Err "fail to lookup the domain" | r => r end.

Definition FromString (a : Address) (addr : bytes) : res Address :=
  '(host, sport) ← split_addr addr;
  port ← parse_port (a_Port a) sport;
  match LookupNetAddr host with
  | Ok (ip :: _) => Ok (MkAddress (Some ip) port)
  | Ok [] => Err "the domain has no ips"
  | Err _ => Err "fail to lookup the domain"
  | Panic p => Panic p
  | NoFuel => NoFuel
  end.

Definition zeroAddress : Address := MkAddress None 0.
Definition NewAddressFromString (s : bytes) : res Address := FromString zeroAddress s.

Definition FromAddr (ua : netAddr) : Address := MkAddress (Some ua) (u16 (utils_Port ua)).
Definition FromUDPAddr (ua : netAddr) : Address := FromAddr ua.

(** [Addr]; [None] is the nil interface. *)
Definition Addr (a : Address) : option (netAddr (I := I)) :=
  match a_IP a with
  | Some (IPAddr ip _) | Some (UDPAddr ip _ _) => Some (UDPAddr ip (a_Port a) [])
  | Some (I2PAddrPtr v) | Some (I2PAddrVal v) => Some (I2PAddrPtr v)
  | _ => None
  end.

Definition IsIPv6 (a : Address) : bool :=
  match a_IP a with
  | Some (IPAddr ip _) | Some (UDPAddr ip _ _) => match To4 ip with None => true | Some _ => false end
  | _ => false
  end.

(** The [*net.IPAddr] of [To4] and [To16]. *)
Definition addr_To4 (a : Address) : netAddr (I := I) :=
  match a_IP a with
  | Some (IPAddr ip _) | Some (UDPAddr ip _ _) => IPAddr (default [] (To4 ip)) []
  | _ => IPAddr loopback4 []
  end.
Definition addr_To16 (a : Address) : netAddr (I := I) :=
  match a_IP a with
  | Some (IPAddr ip _) | Some (UDPAddr ip _ _) => IPAddr (default [] (To16 ip)) []
  | _ => IPAddr IPv6loopback []
  end.

Definition IP_text (a : Address) : res bytes :=
  match a_IP a with Some ip => Ok (addr_String ip) | None => Panic nilDeref end.

Definition Address_String (a : Address) : res bytes :=
  ip ← IP_text a;
  if decide (a_Port a = 0) then Ok ip else Ok (JoinHostPort ip (FormatUint 10 (a_Port a))).

(** Both sides are only evaluated when the ports agree. *)
Definition Address_Equal (a o : Address) : res bool :=
  if decide (a_Port a = a_Port o) then x ← IP_text a; y ← IP_text o; Ok (bool_decide (x = y)) else Ok false.

Definition HasIPAndPort (a : Address) (ip : netAddr) (port : Z) : res bool :=
  if decide (port = a_Port a) then x ← IP_text a; Ok (bool_decide (x = addr_String ip)) else Ok false.

(** ** The compact form *)
Definition WriteBinary (a : Address) : res bytes :=
  ip ← match a_IP a with
       | Some (IPAddr ip _) | Some (UDPAddr ip _ _) => Ok ip
       | Some (I2PAddrVal v) => I2P_ToBytes v
       | _ => Ok []
       end;
  Ok (ip ++ be_bytes 2 (a_Port a)).

Definition MarshalBinary (a : Address) : res bytes := WriteBinary a.

Definition UnmarshalBinary (b : bytes) : res Address :=
  let n := len b - 2 in
  if decide (n <= IPv6len) then
    if decide (n = IPv4len \/ n = IPv6len) then
      Ok (MkAddress (Some (IPAddr (take (Z.to_nat n) b) [])) (be_val (take 2 (drop (Z.to_nat n) b))))
    else Err ErrInvalidAddr
  else i ← NewI2PAddrFromBytes b; Ok (MkAddress (Some (I2PAddrVal i)) 6881).

(** ** The bencode form *)

(** A failed assertion or index of [decode] is recovered into an error. *)
Definition decode (vs : list goval) : res Address :=
  match vs with
  | VIface (Some (VString host)) :: vs' =>
      if is_i2p host then i ← NewI2PAddrFromBytes host; Ok (MkAddress (Some (I2PAddrVal i)) 6881)
      else
        match ParseIP host with
        | None => Err ErrInvalidAddr
        | Some ip =>
            match vs' with
            | VIface (Some (VInt port)) :: _ => Ok (MkAddress (Some (IPAddr (default ip (To4 ip)) [])) (u16 port))
            | _ => Err "recovered panic"
            end
        end
  | _ => Err "recovered panic"
  end.

Definition UnmarshalBencode (a : Address) (b : bytes) : res Address :=
  '(iface, _) ← Decode TIface (VIface None) (NewDecoder b);
  match iface with
  | VIface (Some (VString v)) => FromString a v
  | VIface (Some (VSlice v)) => decode (default [] v)
  | _ => Err "unsupported type"
  end.

Definition MarshalBencode (a : Address) : res bytes :=
  ip ← IP_text a;
  EncodeBytes (VSlice (Some [VIface (Some (VString ip)); VIface (Some (VUint (a_Port a)))])).

(** [ConvertAddress] passes the typed pointer on to [NewAddress]. *)
Definition ConvertAddress (addr : netAddr) : res Address :=
  match addr with
  | TCPAddr _ port _ | UDPAddr _ port _ => Ok (NewAddress (ArgAddr addr) (u16 port))
  | I2PAddrPtr _ | I2PAddrVal _ => Ok (NewAddress (ArgAddr addr) 6881)
  | _ => Err "unsupported address type"
  end.
End Address.

(** ** HostAddress *)
Record HostAddress := MkHost { h_Host : bytes; h_Port : Z }.

Definition NewHostAddress (host : bytes) (port : Z) : HostAddress := MkHost host port.

Definition Host_FromString (a : HostAddress) (addr : bytes) : res HostAddress :=
  match SplitHostPort addr with
  | Ok (host, port) =>
      if decide (host = []) then Err "missing host"
      else p ← parse_port (h_Port a) port; Ok (MkHost host p)
  | Err _ => Err "invalid address"
  | Panic p => Panic p
  | NoFuel => NoFuel
  end.

Definition NewHostAddressFromString (s : bytes) : res HostAddress := Host_FromString (MkHost [] 0) s.

Definition Host_String (a : HostAddress) : bytes :=
  if decide (h_Port a = 0) then h_Host a else JoinHostPort (h_Host a) (FormatUint 10 (h_Port a)).

Definition Addresses {I} (LookupIP : bytes -> res (list bytes)) (a : HostAddress) : res (list (Address (I := I))) :=
  match ParseIP (h_Host a) with
  | Some ip => Ok [NewAddress (ArgIP ip) (h_Port a)]
  | None =>
      match LookupIP (h_Host a) with
      | Ok ips => Ok (map (fun ip => NewAddress (ArgIP ip) (h_Port a)) ips)
      | Err _ => Err "fail to lookup the domain"
      | r => _ ← r; Ok []
      end
  end.

Definition Host_Equal (a o : HostAddress) : bool := bool_decide (h_Port a = h_Port o /\ h_Host a = h_Host o).

Definition Host_decode (vs : list goval) : res HostAddress :=
  match vs with
  | VIface (Some (VString host)) :: VIface (Some (VInt port)) :: _ => Ok (MkHost host (u16 port))
  | _ => Err "recovered panic"
  end.

Definition Host_UnmarshalBencode (a : HostAddress) (b : bytes) : res HostAddress :=
  '(iface, _) ← Decode TIface (VIface None) (NewDecoder b);
  match iface with
  | VIface (Some (VString v)) => Host_FromString a v
  | VIface (Some (VSlice v)) => Host_decode (default [] v)
  | _ => Err "unsupported type"
  end.

Definition Host_MarshalBencode (a : HostAddress) : res bytes :=
  EncodeBytes (VSlice (Some [VIface (Some (VString (h_Host a))); VIface (Some (VUint (h_Port a)))])).

(** ** Lemmas *)
Section Facts.
Context {I : Type} `{I2PKeys I}.
Context (LookupIP : bytes -> res (list bytes)).

(** An address as the compact form carries it: the family is the length. *)
Definition ip_len_ok (ip : bytes) : Prop := length ip = 4%nat \/ length ip = 16%nat.

Lemma WriteBinary_ip ip zone port : @WriteBinary I _ (MkAddress (Some (IPAddr ip zone)) port) = Ok (ip ++ be_bytes 2 port).
Proof. done. Qed.

Lemma UnmarshalBinary_ip ip port : ip_len_ok ip -> 0 <= port < 2 ^ 16 ->
  @UnmarshalBinary I _ (ip ++ be_bytes 2 port) = Ok (MkAddress (Some (IPAddr ip [])) port).
Proof.
  intros Hip Hp. unfold UnmarshalBinary. rewrite len_app, len_be_bytes. cbv zeta.
  replace (len ip + Z.of_nat 2 - 2) with (len ip) by lia.
  rewrite decide_True by (unfold len, IPv6len; destruct Hip; lia).
  rewrite decide_True by (unfold len, IPv4len, IPv6len; destruct Hip; lia).
  unfold len. rewrite Nat2Z.id, take_app_length, drop_app_length. cbn [Nat.add].
  rewrite take_ge by (rewrite length_be_bytes; lia). rewrite be_val_be_bytes_id; [done|]. cbn. lia.
Qed.

(** A printed address inside the bencoded pair is not an I2P name. *)
Lemma dotted_not_i2p ip : length ip = 4%nat -> bytes_ok ip -> is_i2p (IP_String ip) = false.
Proof.
  intros Hl Hb. unfold is_i2p. apply bool_decide_eq_false. intros E.
  assert (Hin : 105 ∈ IP_String ip).
  { rewrite <-(take_drop (length (IP_String ip) - 4) (IP_String ip)), E. apply elem_of_app. right. cbn. set_solver. }
  clear E. unfold IP_String, To4, FastSet.To4 in Hin. rewrite decide_False, decide_True in Hin by (unfold len; lia).
  do 5 (destruct ip as [|? ip]; try discriminate Hl). unfold dotted in Hin. cbn [map join] in Hin.
  do 4 (apply Forall_cons in Hb as [? Hb]).
  assert (Hd : forall n, is_byte n -> 105 ∉ FormatUint 10 n).
  { intros n Hn Hi. pose proof (FormatUint_digits n ltac:(unfold is_byte in Hn; lia)) as HF.
    rewrite Forall_forall in HF. discriminate (HF _ Hi). }
  do 3 (apply elem_of_app in Hin as [Hin|Hin]; [by eapply Hd; [|exact Hin]|apply elem_of_cons in Hin as [?|Hin]; [done|]]).
  by eapply Hd; [|exact Hin].
Qed.

Lemma v6_not_i2p ip : length ip = 16%nat -> bytes_ok ip -> To4 ip = None -> is_i2p (IP_String ip) = false.
Proof.
  intros Hl Hb H4. unfold is_i2p. apply bool_decide_eq_false. intros E.
  assert (Hin : 105 ∈ IP_String ip).
  { rewrite <-(take_drop (length (IP_String ip) - 4) (IP_String ip)), E. apply elem_of_app. right. cbn. set_solver. }
  clear E. unfold IP_String in Hin. rewrite H4, !decide_False in Hin by (unfold len, IPv6len; lia).
  destruct (ipv6_text_shape ip Hl Hb) as (_ & _ & _ & _ & Hc). rewrite Forall_forall in Hc.
  destruct (Hc _ Hin) as [[v Hv]|]; [discriminate Hv|done].
Qed.

(** An IP address in its shortest form, as the decoders leave it. *)
Definition ip_ok (ip : bytes) : Prop :=
  bytes_ok ip /\ (length ip = 4%nat \/ length ip = 16%nat /\ To4 ip = None).

Lemma ip_ok_not_i2p ip : ip_ok ip -> is_i2p (IP_String ip) = false.
Proof. intros [Hb [Hl|[Hl H4]]]; [by apply dotted_not_i2p|by apply v6_not_i2p]. Qed.

Lemma ip_ok_parse ip : ip_ok ip -> exists ip16, ParseIP (IP_String ip) = Some ip16 /\ default ip16 (To4 ip16) = ip.
Proof.
  intros [Hb [Hl|[Hl H4]]].
  - exists (v4InV6Prefix ++ ip). split; [by apply ParseIP_v4|]. unfold To4, FastSet.To4.
    rewrite decide_False, decide_True; [done| |].
    + rewrite len_app. unfold len. rewrite Hl. split; [done|]. by rewrite take_app_length' by done.
    + rewrite len_app. unfold len. rewrite Hl. cbn. lia.
  - exists ip. split; [by apply ParseIP_v6|]. by rewrite H4.
Qed.

Lemma len_IP_String ip : ip_ok ip -> len (IP_String ip) < 2 ^ 31.
Proof. intros [Hb Hl]. pose proof (length_IP_String ip Hb Hl). unfold len. lia. Qed.

(** What an address is in bencode. *)
Definition addr_doc (ip : bytes) (port : Z) : bval := BList [BStr (IP_String ip); BInt port].

Lemma addr_doc_ok ip port : ip_ok ip -> 0 <= port < 2 ^ 16 -> bval_ok (addr_doc ip port).
Proof. intros Hip Hp. apply bval_ok_list. repeat constructor; cbn; [by apply len_IP_String|lia|lia]. Qed.

Lemma zoned_nil ip : ip_ok ip -> zoned ip [] = IP_String ip.
Proof.
  intros [_ Hl]. unfold zoned, ipEmptyString. rewrite decide_True by done.
  rewrite decide_False; [done|]. unfold len. lia.
Qed.

Lemma MarshalBencode_ok ip port : ip_ok ip ->
  MarshalBencode (I := I) (MkAddress (Some (IPAddr ip [])) port) = Ok (bencode (addr_doc ip port)).
Proof.
  intros Hip. unfold MarshalBencode, IP_text. cbn [a_IP a_Port addr_String netAddr_String].
  rewrite zoned_nil by done. reflexivity.
Qed.

Lemma UnmarshalBencode_ok a ip port : ip_ok ip -> 0 <= port < 2 ^ 16 ->
  UnmarshalBencode (I := I) LookupIP a (bencode (addr_doc ip port)) = Ok (MkAddress (Some (IPAddr ip [])) port).
Proof.
  intros Hip Hp. unfold UnmarshalBencode.
  destruct (decodes_as_Decode (TIface, VIface None) _ _ [] (decodes_iface (VIface None) _ (addr_doc_ok ip port Hip Hp)))
    as (d & E & _). rewrite app_nil_r in E. cbn [fst snd] in E. rewrite E. rewrite bind_Ok.
  cbn [addr_doc to_iface map default from_option id]. unfold decode.
  rewrite ip_ok_not_i2p by done. destruct (ip_ok_parse ip Hip) as (ip16 & -> & ->).
  by rewrite u16_small by lia.
Qed.
End Facts.

(** ** Properties *)

Section Claims.
Context {I : Type} `{I2PKeys I}.
Context (LookupIP : bytes -> res (list bytes)).

(** an IPv4 or IPv6 address is recovered from its compact form and from
    its bencode form, in which the address is printed and parsed again. *)
Theorem address_roundtrip ip port a0 :
  ip_ok ip -> 0 <= port < 2 ^ 16 ->
  let a : Address (I := I) := MkAddress (Some (IPAddr ip [])) port in
  (b ← MarshalBinary a; UnmarshalBinary b) = Ok a /\
  (b ← MarshalBencode a; UnmarshalBencode LookupIP a0 b) = Ok a.
Proof.
  intros Hip Hp a. split.
  - unfold MarshalBinary, a. rewrite WriteBinary_ip, bind_Ok. apply UnmarshalBinary_ip; [|done].
    destruct Hip as [_ [?|[? _]]]; [by left|by right].
  - unfold a. rewrite MarshalBencode_ok, bind_Ok by done. by apply UnmarshalBencode_ok.
Qed.

(** an I2P address does not survive its compact form: the two bytes of the
    port are handed to the destination parser with the destination, and the
    port that comes back is 6881 whatever it was. *)
Theorem i2p_compact_port_lost (i : I) port dest :
  I2P_ToBytes i = Ok dest -> 16 < len dest ->
  (b ← MarshalBinary (MkAddress (Some (I2PAddrVal i)) port); UnmarshalBinary b) =
  (j ← NewI2PAddrFromBytes (dest ++ be_bytes 2 port); Ok (MkAddress (Some (I2PAddrVal j)) 6881)).
Proof.
  intros Hd Hl. unfold MarshalBinary, WriteBinary. cbn [a_IP a_Port]. rewrite Hd, !bind_Ok. unfold UnmarshalBinary.
  rewrite len_app, len_be_bytes, decide_False by (unfold IPv6len; lia). done.
Qed.

(** the port of an I2P host is not optional: whenever the string has no
    port, which is when [SplitHostPort] fails, it returns no host either, so
    the default port 6881 is never used and the string is refused. *)
Theorem i2p_host_needs_port a s e :
  SplitHostPort s = Err e ->
  FromString (I := I) LookupIP a s = Err "invalid address" /\
  NewAddressesFromString (I := I) LookupIP s = Err "invalid address".
Proof. intros E. unfold FromString, NewAddressesFromString, split_addr. by rewrite E. Qed.

(** [ConvertAddress] accepts UDP and TCP addresses and pointers to I2P
    addresses, but returns the zero address for them, without an error; any use
    of its IP then panics. *)
Theorem convert_address_nil (addr : netAddr (I := I)) :
  match addr with UDPAddr _ _ _ | TCPAddr _ _ _ | I2PAddrPtr _ => True | _ => False end ->
  exists a, ConvertAddress addr = Ok a /\ a_IP a = None /\ a_Port a = 0 /\
    Address_String a = Panic nilDeref /\ MarshalBencode a = Panic nilDeref.
Proof. destruct addr; try done; intros _; eexists; split; done. Qed.
End Claims.

(** ** Witnesses: destinations as their own bytes. *)
Definition demo_keys : I2PKeys bytes := {|
  I2P_String := fun b => b; I2P_DestHash := fun b => b; I2P_ToBytes := fun b => Ok b;
  NewI2PAddrFromBytes := fun b => Ok b; I2P_Lookup := fun b => Ok b |}.
#[local] Existing Instance demo_keys.

Lemma address_roundtrip_witness :
  let a : Address (I := bytes) := MkAddress (Some (IPAddr [1; 2; 3; 4] [])) 1234 in
  (b ← MarshalBinary a; UnmarshalBinary b) = Ok a /\
  (b ← MarshalBencode a; UnmarshalBencode (fun _ => Ok []) zeroAddress b) = Ok a.
Proof.
  apply (address_roundtrip (fun _ => Ok []) [1; 2; 3; 4] 1234 zeroAddress); [|lia].
  split; [repeat constructor; unfold is_byte; lia|by left].
Defined.

Lemma i2p_compact_port_lost_witness :
  (b ← MarshalBinary (MkAddress (Some (I2PAddrVal (replicate 40 7))) 80); UnmarshalBinary b) =
  (j ← NewI2PAddrFromBytes (replicate 40 7 ++ be_bytes 2 80); Ok (MkAddress (Some (I2PAddrVal j)) 6881)).
Proof. apply (i2p_compact_port_lost (replicate 40 7) 80 (replicate 40 7)); [reflexivity|]. vm_compute. reflexivity. Defined.

Lemma i2p_host_needs_port_witness :
  FromString (I := bytes) (fun _ => Ok []) zeroAddress (bs "tracker.i2p") = Err "invalid address" /\
  NewAddressesFromString (I := bytes) (fun _ => Ok []) (bs "tracker.i2p") = Err "invalid address".
Proof. apply (i2p_host_needs_port (fun _ => Ok []) zeroAddress (bs "tracker.i2p") missingPort). vm_compute. reflexivity. Defined.

Lemma convert_address_nil_witness :
  exists a : Address (I := bytes), ConvertAddress (UDPAddr [1; 2; 3; 4] 6881 []) = Ok a /\ a_IP a = None /\ a_Port a = 0 /\
    Address_String a = Panic nilDeref /\ MarshalBencode a = Panic nilDeref.
Proof. apply (convert_address_nil (I := bytes) (UDPAddr [1; 2; 3; 4] 6881 [])). exact I. Defined.

End Address.

(** * The peer store of the DHT

    Models [src/dht/peer_manager.go]: the tokens other nodes gave us, which is
    also the default source of the peers the server returns. The order in
    which Go enumerates a map is the argument [range]. *)

Import Net Address.

Module PeerStore.

Section PeerStore.
Context {I : Type} `{I2PKeys I}.
(** The enumeration of a map by [range]: all its entries, in some order. *)
Context (range : forall V, gmap bytes V -> list (bytes * V)).

Record peer := MkPeer {
  p_ID : bytes; p_IP : netAddr (I := I); p_Port : Z; p_Token : bytes; p_Time : Z
}.

Record tokenPeerManager := MkPeerManager { tpm_exit : bool; tpm_peers : gmap bytes (gmap bytes peer) }.

Definition newTokenPeerManager : tokenPeerManager := MkPeerManager false ∅.

Definition removeExpiredPeersFromMap (now interval : Z) (peers : gmap bytes peer) : gmap bytes peer :=
  filter (fun kp => ~ (interval < now - p_Time kp.2)) peers.

Definition cleanupExpiredPeers (now interval : Z) (tpm : tokenPeerManager) : tokenPeerManager :=
  MkPeerManager (tpm_exit tpm)
    (filter (fun kp => size kp.2 <> 0%nat) (removeExpiredPeersFromMap now interval <$> tpm_peers tpm)).

Definition Set_ (id : bytes) (addr : netAddr) (token : bytes) (now : Z) (tpm : tokenPeerManager) : tokenPeerManager :=
  let peers := default ∅ (tpm_peers tpm !! id) in
  MkPeerManager (tpm_exit tpm)
    (<[id := <[addr_String addr := MkPeer id addr (u16 (utils_Port addr)) token now]> peers]> (tpm_peers tpm)).

(** [Get]; no token is the empty string. *)
Definition Get (id : bytes) (addr : netAddr (I := I)) (tpm : tokenPeerManager) : bytes :=
  match tpm_peers tpm !! id with
  | Some peers => match peers !! addr_String addr with Some p => p_Token p | None => [] end
  | None => []
  end.

Definition Stop (tpm : tokenPeerManager) : tokenPeerManager := MkPeerManager true (tpm_peers tpm).

(** The loop of [GetPeers]: [maxnum] counts down. *)
Definition GetPeers (infohash : bytes) (maxnum : Z) (ipv6 : bool) (tpm : tokenPeerManager) : res (list (Address (I := I))) :=
  if decide (maxnum < 0) then Panic "makeslice: cap out of range"
  else
    match tpm_peers tpm !! infohash with
    | Some peers =>
        Ok (map (fun kp => NewAddress (ArgAddr (p_IP kp.2)) (p_Port kp.2)) (take (Z.to_nat maxnum) (range _ peers)))
    | None => Ok []
    end.

Definition GetSampleInfoHashes (target : bytes) (maxnum : Z) (tpm : tokenPeerManager) : res (list bytes * Z) :=
  let num := Z.of_nat (size (tpm_peers tpm)) in
  if decide (num = 0) then Ok ([], 0)
  else
    let allHashes := (range _ (tpm_peers tpm)).*1 in
    if decide (len allHashes <= maxnum) then Ok (allHashes, num)
    else if decide (maxnum < 0) then Panic "makeslice: len out of range"
    else Ok (take (Z.to_nat maxnum) allHashes, num).
End PeerStore.

End PeerStore.
