(* ===== verification/Krpc.v ===== *)
(** * KRPC messages

    Models [src/krpc/node.go] and [src/krpc/message.go]: DHT nodes with their
    compact form, and the query, response and error messages with their
    bencode form. The address of a node is never the nil interface: nodes come
    from the wire or from the address of a packet. *)

From S2P Require Import Prelude Strconv Bencode BencodeFacts BencodeTyped BencodeStruct Sha1 Hash Net NetFacts Routing Address.
Import Strconv Bencode BencodeFacts BencodeTyped BencodeStruct Net Address.

Module Krpc.

Definition ErrorCodeServer : Z := 202.
Definition ErrorCodeMethodUnknown : Z := 204.
Definition ErrorCodeMessageValueFieldTooBig : Z := 205.
Definition ErrorCodeInvalidSignature : Z := 206.
Definition ErrorCodeSaltFieldTooBig : Z := 207.
Definition ErrorCodeCasHashMismatched : Z := 301.
Definition ErrorCodeSequenceNumberLessThanCurrent : Z := 302.

Section Krpc.
Context {I : Type} `{I2PKeys I}.
Context (LookupIP : bytes -> res (list bytes)).

(** ** Nodes *)
Abbreviation Node := (Routing.Node (A := netAddr (I := I))).
Abbreviation MkNode := Routing.MkNode.
Abbreviation Address := (Address (I := I)).

Definition node_Addr (n : Node) : Address := MkAddress (Some (Routing.n_IP n)) (Routing.n_Port n).

Definition NewNode (id ip : bytes) (port : Z) : Node := MkNode id (IPAddr ip []) (u16 port).

Definition NewNodeByUDPAddr (id : bytes) (addr : netAddr) : Node := MkNode id addr (u16 (utils_Port addr)).

Definition Node_Equal (n o : Node) : bool :=
  bool_decide (Routing.n_ID n = Routing.n_ID o) && Routing.Addr_Equal n o.

Definition Node_WriteBinary (n : Node) : res bytes :=
  a ← WriteBinary (node_Addr n); Ok (Routing.n_ID n ++ a).

Definition Node_MarshalBinary (n : Node) : res bytes := Node_WriteBinary n.

Definition Node_UnmarshalBinary (b : bytes) : res Node :=
  if decide (len b < 26) then Err "short buffer"
  else
    a ← UnmarshalBinary (drop 20 b);
    match a_IP a with
    | Some ip => Ok (MkNode (take 20 b) ip (a_Port a))
    | None => Panic nilDeref
    end.

(** *** Compact node lists: [size] is 26 for IPv4 and 38 for IPv6. *)
Fixpoint write_nodes (size : Z) (conv : Node -> netAddr (I := I)) (skip_empty : bool) (ns : list Node) : res bytes :=
  match ns with
  | [] => Ok []
  | ni :: ns' =>
      let ip := conv ni in
      if skip_empty && bool_decide (len (addr_String ip) = 0) then write_nodes size conv skip_empty ns'
      else
        b ← Node_WriteBinary (MkNode (Routing.n_ID ni) ip (Routing.n_Port ni));
        if decide (len b <> size) then Panic "the invalid NodeInfo length"
        else rest ← write_nodes size conv skip_empty ns'; Ok (b ++ rest)
  end.

Definition CompactIPv4Node_MarshalBinary (cn : list Node) : res bytes :=
  write_nodes 26 (fun n => addr_To4 (node_Addr n)) true cn.
Definition CompactIPv6Node_MarshalBinary (cn : list Node) : res bytes :=
  write_nodes 38 (fun n => addr_To16 (node_Addr n)) false cn.

Fixpoint read_nodes (fuel : nat) (size : nat) (b : bytes) : res (list Node) :=
  match fuel with
  | O => Ok []
  | S f =>
      match b with
      | [] => Ok []
      | _ => n ← Node_UnmarshalBinary (take size b); rest ← read_nodes f size (drop size b); Ok (n :: rest)
      end
  end.

Definition CompactNode_UnmarshalBinary (size : nat) (b : bytes) : res (list Node) :=
  if decide (len b mod Z.of_nat size <> 0) then Err "CompactNodeInfo: invalid bytes length"
  else read_nodes (length b) size b.

Definition CompactNode_MarshalBencode (marshal : list Node -> res bytes) (cn : list Node) : res bytes :=
  b ← marshal cn; EncodeBytes (VBytes (Some b)).

Definition CompactNode_UnmarshalBencode (size : nat) (b : bytes) : res (list Node) :=
  v ← DecodeBytes b TString (VString []);
  match v with VString s => CompactNode_UnmarshalBinary size s | _ => Err "not a string" end.

(** ** CompactAddresses

    [MarshalBinary] and [UnmarshalBinary] are not what package bencode calls: a
    list of addresses in a message is a bencode list of what
    [Address.MarshalBencode] returns. [UnmarshalBinary] never assigns its
    receiver, which keeps the value [cas]. *)
Definition CompactAddresses_MarshalBinary (cas : list Address) : res bytes :=
  (fix go (l : list Address) (ss : list goval) : res bytes :=
    match l with
    | [] => EncodeBytes (VSlice (Some ss))
    | a :: l' => data ← MarshalBinary a; go l' (ss ++ [VString data])
    end) cas [].

Definition CompactAddresses_UnmarshalBinary (cas : list Address) (b : bytes) : res (list Address) :=
  v ← DecodeBytes b (TSlice TString) (VSlice None);
  let ss := match v with VSlice (Some l) => l | _ => [] end in
  (fix go (l : list goval) : res (list Address) :=
    match l with
    | VString s :: l' => _ ← UnmarshalBinary (I := I) s; go l'
    | _ => Ok cas
    end) ss.

(** ** Errors *)
Record Error := MkError { e_Code : Z; e_Reason : bytes }.

Definition Error_decode (vs : list goval) : res Error :=
  match vs with
  | VIface (Some (VInt code)) :: VIface (Some (VString reason)) :: _ => Ok (MkError code reason)
  | _ => Err "panic"
  end.

Definition Error_UnmarshalBencode (e : Error) (b : bytes) : res Error :=
  '(iface, _) ← Decode TIface (VIface None) (NewDecoder b);
  match iface with
  | VIface (Some (VSlice v)) => Error_decode (default [] v)
  | VIface (Some (VString v)) => Ok (MkError (e_Code e) v)
  | _ => Err "KRPC error bencode value has unexpected type"
  end.

Definition Error_MarshalBencode (e : Error) : res bytes :=
  if decide (e_Code e = 0 /\ e_Reason e = []) then Ok []
  else EncodeBytes (VSlice (Some [VIface (Some (VInt (e_Code e))); VIface (Some (VString (e_Reason e)))])).

(** ** Query arguments and response results *)
Definition WantNodes : bytes := bs "n4".
Definition WantNodes6 : bytes := bs "n6".

Record QueryArg := MkQueryArg {
  q_ID : bytes; q_Target : bytes; q_InfoHash : bytes; q_Port : Z; q_Token : bytes; q_ImpliedPort : bool;
  q_Wants : list bytes; q_V : option bytes; q_K : option bytes; q_Sig : option bytes; q_Seq : Z;
  q_Salt : option bytes; q_CAS : Z
}.

Definition zeroQueryArg : QueryArg :=
  MkQueryArg Hash.zeroHash Hash.zeroHash Hash.zeroHash 0 [] false [] None None None 0 None 0.

Definition ContainsWant (a : QueryArg) (w : bytes) : bool := bool_decide (w ∈ q_Wants a).
Definition GetPort (a : QueryArg) (port : Z) : Z := if q_ImpliedPort a then u16 port else q_Port a.

Record ResponseResult := MkResponse {
  r_ID : bytes; r_Nodes : list Node; r_Nodes6 : list Node; r_Token : bytes; r_Values : list Address;
  r_Samples : list bytes; r_Num : Z; r_Interval : Z; r_V : option bytes; r_K : option bytes;
  r_Sig : option bytes; r_Seq : Z
}.

Definition zeroResponse : ResponseResult :=
  MkResponse Hash.zeroHash [] [] [] [] [] 0 0 None None None 0.

Record Message := MkMessage {
  m_T : bytes; m_Y : bytes; m_Q : bytes; m_A : QueryArg; m_R : ResponseResult; m_E : Error; m_RO : bool
}.

Definition NewQueryMsg (tid method : bytes) (arg : QueryArg) : Message :=
  MkMessage tid (bs "q") method arg zeroResponse (MkError 0 []) false.
Definition NewResponseMsg (tid : bytes) (data : ResponseResult) : Message :=
  MkMessage tid (bs "r") [] zeroQueryArg data (MkError 0 []) false.
Definition NewErrorMsg (tid : bytes) (code : Z) (reason : bytes) : Message :=
  MkMessage tid (bs "e") [] zeroQueryArg zeroResponse (MkError code reason) false.

Definition IsQuery (m : Message) : bool := bool_decide (m_Y m = bs "q").
Definition IsResponse (m : Message) : bool := bool_decide (m_Y m = bs "r").
Definition IsError (m : Message) : bool := bool_decide (m_Y m = bs "e").

Definition Message_ID (m : Message) : res bytes :=
  if IsQuery m then Ok (q_ID (m_A m)) else if IsResponse m then Ok (r_ID (m_R m)) else Panic "unknown message type".

(** ** What package bencode sees of the messages

    A node or an address inside a value is kept as its own encoding, from
    which it is read back. *)
Definition fld (name tag : string) : finfo := FInfo (bs name) (bs tag) true true false.

Definition strs_val (l : list bytes) : goval := VSlice (if decide (l = []) then None else Some (map VString l)).
Definition hashes_val (l : list bytes) : goval :=
  VSlice (if decide (l = []) then None else Some (map Hash.hash_val l)).

Definition node_repr (n : Node) : goval :=
  VBytes (Some (match Node_MarshalBinary n with Ok b => b | _ => [] end)).
Definition nodes_val (marshal : list Node -> res bytes) (ns : list Node) : goval :=
  VCustom (VSlice (if decide (ns = []) then None else Some (map node_repr ns))) (CompactNode_MarshalBencode marshal ns).
Definition nodes_type (marshal : list Node -> res bytes) (size : nat) : gotype :=
  TCustom (nodes_val marshal []) (fun _ b => ns ← CompactNode_UnmarshalBencode size b; Ok (nodes_val marshal ns)).

Definition addr_val (a : Address) : goval :=
  VCustom (VRaw (Some (match MarshalBencode a with Ok b => b | _ => [] end))) (MarshalBencode a).
Definition addr_type : gotype :=
  TCustom (addr_val zeroAddress)
    (fun _ b => a ← UnmarshalBencode LookupIP zeroAddress b; Ok (VCustom (VRaw (Some b)) (MarshalBencode a))).
Definition addrs_val (l : list Address) : goval := VSlice (if decide (l = []) then None else Some (map addr_val l)).

Definition error_val (e : Error) : goval :=
  VCustom (VStruct [(fld "Code" EmptyString, VInt (e_Code e)); (fld "Reason" EmptyString, VString (e_Reason e))])
    (Error_MarshalBencode e).
Definition error_of (v : goval) : Error :=
  match v with VCustom (VStruct [(_, VInt code); (_, VString reason)]) _ => MkError code reason | _ => MkError 0 [] end.
Definition error_type : gotype :=
  TCustom (error_val (MkError 0 [])) (fun v b => e ← Error_UnmarshalBencode (error_of v) b; Ok (error_val e)).

Definition qa_type : gotype := TStruct
  [(fld "ID" "id", Hash.hash_type); (fld "Target" "target,omitempty", Hash.hash_type);
   (fld "InfoHash" "info_hash,omitempty", Hash.hash_type); (fld "Port" "port,omitempty", TUint 16);
   (fld "Token" "token,omitempty", TString); (fld "ImpliedPort" "implied_port,omitempty", TBool);
   (fld "Wants" "want,omitempty", TSlice TString); (fld "V" "v,omitempty", TBytes); (fld "K" "k,omitempty", TBytes);
   (fld "Sig" "sig,omitempty", TBytes); (fld "Seq" "seq,omitempty", TInt 64); (fld "Salt" "salt,omitempty", TBytes);
   (fld "CAS" "cas,omitempty", TInt 64)].

Definition qa_val (a : QueryArg) : goval := VStruct
  [(fld "ID" "id", Hash.hash_val (q_ID a)); (fld "Target" "target,omitempty", Hash.hash_val (q_Target a));
   (fld "InfoHash" "info_hash,omitempty", Hash.hash_val (q_InfoHash a)); (fld "Port" "port,omitempty", VUint (q_Port a));
   (fld "Token" "token,omitempty", VString (q_Token a)); (fld "ImpliedPort" "implied_port,omitempty", VBool (q_ImpliedPort a));
   (fld "Wants" "want,omitempty", strs_val (q_Wants a)); (fld "V" "v,omitempty", VBytes (q_V a));
   (fld "K" "k,omitempty", VBytes (q_K a)); (fld "Sig" "sig,omitempty", VBytes (q_Sig a));
   (fld "Seq" "seq,omitempty", VInt (q_Seq a)); (fld "Salt" "salt,omitempty", VBytes (q_Salt a));
   (fld "CAS" "cas,omitempty", VInt (q_CAS a))].

Definition rr_type : gotype := TStruct
  [(fld "ID" "id", Hash.hash_type); (fld "Nodes" "nodes,omitempty", nodes_type CompactIPv4Node_MarshalBinary 26);
   (fld "Nodes6" "nodes6,omitempty", nodes_type CompactIPv6Node_MarshalBinary 38); (fld "Token" "token,omitempty", TString);
   (fld "Values" "values,omitempty", TSlice addr_type); (fld "Samples" "samples,omitempty", TSlice Hash.hash_type);
   (fld "Num" "num,omitempty", TInt 64); (fld "Interval" "interval,omitempty", TInt 64); (fld "V" "v,omitempty", TBytes);
   (fld "K" "k,omitempty", TBytes); (fld "Sig" "sig,omitempty", TBytes); (fld "Seq" "seq,omitempty", TInt 64)].

Definition rr_val (r : ResponseResult) : goval := VStruct
  [(fld "ID" "id", Hash.hash_val (r_ID r)); (fld "Nodes" "nodes,omitempty", nodes_val CompactIPv4Node_MarshalBinary (r_Nodes r));
   (fld "Nodes6" "nodes6,omitempty", nodes_val CompactIPv6Node_MarshalBinary (r_Nodes6 r));
   (fld "Token" "token,omitempty", VString (r_Token r)); (fld "Values" "values,omitempty", addrs_val (r_Values r));
   (fld "Samples" "samples,omitempty", hashes_val (r_Samples r)); (fld "Num" "num,omitempty", VInt (r_Num r));
   (fld "Interval" "interval,omitempty", VInt (r_Interval r)); (fld "V" "v,omitempty", VBytes (r_V r));
   (fld "K" "k,omitempty", VBytes (r_K r)); (fld "Sig" "sig,omitempty", VBytes (r_Sig r));
   (fld "Seq" "seq,omitempty", VInt (r_Seq r))].

Definition msg_type : gotype := TStruct
  [(fld "T" "t", TString); (fld "Y" "y", TString); (fld "Q" "q,omitempty", TString); (fld "A" "a,omitempty", qa_type);
   (fld "R" "r,omitempty", rr_type); (fld "E" "e,omitempty", error_type); (fld "RO" "ro,omitempty", TBool)].

Definition msg_val (m : Message) : goval := VStruct
  [(fld "T" "t", VString (m_T m)); (fld "Y" "y", VString (m_Y m)); (fld "Q" "q,omitempty", VString (m_Q m));
   (fld "A" "a,omitempty", qa_val (m_A m)); (fld "R" "r,omitempty", rr_val (m_R m));
   (fld "E" "e,omitempty", error_val (m_E m)); (fld "RO" "ro,omitempty", VBool (m_RO m))].

Definition zeroMessage : Message := MkMessage [] [] [] zeroQueryArg zeroResponse (MkError 0 []) false.

(** *** Reading the record back from a decoded value *)
Fixpoint mapR {X Y} (f : X -> res Y) (l : list X) : res (list Y) :=
  match l with [] => Ok [] | x :: l' => y ← f x; ys ← mapR f l'; Ok (y :: ys) end.

Definition notOfType : string := "not a value of the type".
Definition elems (v : goval) : res (list goval) :=
  match v with VSlice o => Ok (default [] o) | _ => Panic notOfType end.
Definition str_of (v : goval) : res bytes := match v with VString s => Ok s | _ => Panic notOfType end.
Definition node_of (v : goval) : res Node :=
  match v with VBytes (Some b) => Node_UnmarshalBinary b | _ => Panic notOfType end.
Definition nodes_of (v : goval) : res (list Node) :=
  match v with VCustom r _ => l ← elems r; mapR node_of l | _ => Panic notOfType end.
Definition addr_of (v : goval) : res Address :=
  match v with VCustom (VRaw (Some b)) _ => UnmarshalBencode LookupIP zeroAddress b | _ => Panic notOfType end.

Definition qa_of (v : goval) : res QueryArg :=
  match v with
  | VStruct [(_, id); (_, target); (_, ih); (_, VUint port); (_, VString token); (_, VBool implied); (_, wants);
             (_, VBytes v); (_, VBytes k); (_, VBytes sig); (_, VInt seq); (_, VBytes salt); (_, VInt cas)] =>
      l ← elems wants; ws ← mapR str_of l;
      Ok (MkQueryArg (Hash.hash_of id) (Hash.hash_of target) (Hash.hash_of ih) port token implied ws v k sig seq salt cas)
  | _ => Panic notOfType
  end.

Definition rr_of (v : goval) : res ResponseResult :=
  match v with
  | VStruct [(_, id); (_, n4); (_, n6); (_, VString token); (_, values); (_, samples); (_, VInt num); (_, VInt interval);
             (_, VBytes v); (_, VBytes k); (_, VBytes sig); (_, VInt seq)] =>
      ns4 ← nodes_of n4; ns6 ← nodes_of n6; vl ← elems values; vs ← mapR addr_of vl; sl ← elems samples;
      Ok (MkResponse (Hash.hash_of id) ns4 ns6 token vs (map Hash.hash_of sl) num interval v k sig seq)
  | _ => Panic notOfType
  end.

Definition msg_of (v : goval) : res Message :=
  match v with
  | VStruct [(_, VString t); (_, VString y); (_, VString q); (_, a); (_, r); (_, e); (_, VBool ro)] =>
      a ← qa_of a; r ← rr_of r; Ok (MkMessage t y q a r (error_of e) ro)
  | _ => Panic notOfType
  end.

(** [bencode.EncodeBytes(m)] and [bencode.DecodeBytes(data, &msg)]. *)
Definition EncodeMessage (m : Message) : res bytes := EncodeBytes (msg_val m).
Definition DecodeMessage (b : bytes) : res Message := v ← DecodeBytes b msg_type (msg_val zeroMessage); msg_of v.
End Krpc.

End Krpc.
