(* ===== verification/KrpcFacts.v ===== *)
(** * KRPC messages round-trip

    Every well-formed query, response or error message is read back exactly
    from its bencode form. *)

From S2P Require Import Prelude Strconv Bencode BencodeFacts BencodeTyped BencodeStruct Sha1 Hash Net NetFacts Routing Address Krpc.
Import Strconv Bencode BencodeFacts BencodeTyped BencodeStruct Net NetFacts Address Krpc.

Module KrpcFacts.

(** ** Fields of the basic kinds *)
Section Fields.
Context (fi : finfo) (key : bytes) (omit : bool) (Hs : field_static fi key omit).

Lemma int_field z : - 2 ^ 63 <= z < 2 ^ 63 ->
  field_ok (MkField fi key omit (TInt 64) (VInt 0) (VInt z) (encodeNumeric z)).
Proof.
  intros Hz. constructor; cbn; [done|done| |].
  - intros _. split; [done|]. by apply decodes_int.
  - unfold present. cbn. intros [_ ->%bool_decide_eq_true]%negb_false_iff%andb_true_iff. done.
Qed.

Lemma uint_field bits z : 0 < bits <= 64 -> 0 <= z < 2 ^ bits ->
  field_ok (MkField fi key omit (TUint bits) (VUint 0) (VUint z) (encodeNumeric z)).
Proof.
  intros Hb Hz. constructor; cbn; [done|done| |].
  - intros _. split; [done|]. by apply decodes_uint.
  - unfold present. cbn. intros [_ ->%bool_decide_eq_true]%negb_false_iff%andb_true_iff. done.
Qed.

Lemma bool_field b : field_ok (MkField fi key omit TBool (VBool false) (VBool b) (encodeNumeric (if b then 1 else 0))).
Proof.
  constructor; cbn; [done|done| |].
  - intros _. split; [done|]. destruct b; by apply decodes_number.
  - unfold present. cbn. intros [_ Hb%negb_true_iff]%negb_false_iff%andb_true_iff. by rewrite Hb.
Qed.

Lemma string_field s : len s < 2 ^ 31 ->
  field_ok (MkField fi key omit TString (VString []) (VString s) (encode_string s)).
Proof.
  intros Hl. constructor; cbn; [done|done| |].
  - intros _. split; [done|]. by apply decodes_string.
  - unfold present. cbn. intros [_ Hb%bool_decide_eq_true]%negb_false_iff%andb_true_iff.
    by apply len_zero in Hb as ->.
Qed.

(** An optional byte string: nil, or not empty. *)
Definition obytes_ok (o : option bytes) : Prop := match o with Some b => 0 < len b < 2 ^ 31 | None => True end.

Lemma bytes_field o : omit = true -> obytes_ok o ->
  field_ok (MkField fi key omit TBytes (VBytes None) (VBytes o) (encode_string (default [] o))).
Proof.
  intros Ho Hl. constructor; cbn; [done|done| |].
  - unfold present. cbn. rewrite Ho. destruct o as [b|]; [|done]. intros _. split; [done|].
    apply decodes_bytes. cbn in *. lia.
  - unfold present. cbn. rewrite Ho. destruct o as [b|]; [|done].
    intros Hb%negb_false_iff%bool_decide_eq_true. cbn in *. lia.
Qed.

Lemma hash_field h : Hash.hash_ok h ->
  field_ok (MkField fi key omit Hash.hash_type (Hash.hash_val Hash.zeroHash) (Hash.hash_val h) (encode_string h)).
Proof.
  intros Hh. constructor; cbn; [done|done| |].
  - intros _. split; [done|]. by apply Hash.decodes_hash.
  - unfold present. cbn. intros [_ Hb%bool_decide_eq_true]%negb_false_iff%andb_true_iff.
    destruct Hh as [Hl _]. unfold len in Hb. lia.
Qed.

(** A list whose elements round-trip; the empty list is nil and left out. *)
Lemma slice_field {X} t (val : X -> goval) (enc : X -> bytes) (l : list X) :
  Forall (fun x => encodeValue (val x) = Ok (enc x) /\ decodes_as (t, zero_of t) (enc x) (val x)) l ->
  field_ok (MkField fi key omit (TSlice t) (VSlice None)
    (VSlice (if decide (l = []) then None else Some (map val l))) ([108] ++ concat (map enc l) ++ [101])).
Proof.
  intros Hl. constructor; cbn [fd_info fd_key fd_omit fd_type fd_zero fd_val fd_bytes]; [done|done| |].
  - intros _. destruct (decide (l = [])) as [->|Hne].
    + split; [done|]. apply (decodes_slice t [] []). constructor.
    + split.
      * unfold encodeValue. cbn [encode_with fst].
        assert (encode_seq ((fix go (l : list goval) : list (res bytes) :=
          match l with [] => [] | x :: l' => (encode_with x).1 :: go l' end) (map val l)) = Ok (concat (map enc l))) as ->; [|done].
        clear Hne. induction Hl as [|x l [Hx _] _ IH]; [done|]. cbn [map encode_seq concat]. unfold encodeValue in Hx.
        rewrite Hx, bind_Ok, IH, bind_Ok. done.
      * pose proof (decodes_slice t (map enc l) (map val l)) as Hd. rewrite decide_False in Hd by (by destruct l).
        apply Hd. apply Forall2_fmap, Forall_Forall2_diag. eapply Forall_impl; [exact Hl|]. by intros x [_ ?].
  - unfold present. cbn. destruct (decide (l = [])) as [->|Hne]; [done|].
    intros [_ Hb%bool_decide_eq_true]%negb_false_iff%andb_true_iff. destruct l; [done|]. cbn in Hb. unfold len in Hb. cbn in Hb. lia.
Qed.
End Fields.

Section Facts.
Context {I : Type} `{I2PKeys I}.
Context (LookupIP : bytes -> res (list bytes)).
Abbreviation Node := (Routing.Node (A := netAddr (I := I))).

(** ** Nodes *)
Definition node_ok (n : nat) (x : Node) : Prop :=
  Hash.hash_ok (Routing.n_ID x) /\ 0 <= Routing.n_Port x < 2 ^ 16 /\
  exists ip, Routing.n_IP x = IPAddr ip [] /\ length ip = n /\ bytes_ok ip.

Definition node_bytes (x : Node) : bytes := match Node_MarshalBinary x with Ok b => b | _ => [] end.

Lemma node_marshal n x : node_ok n x ->
  exists ip, x = Routing.MkNode (Routing.n_ID x) (IPAddr ip []) (Routing.n_Port x) /\ length ip = n /\ bytes_ok ip /\
    Node_MarshalBinary x = Ok (Routing.n_ID x ++ ip ++ be_bytes 2 (Routing.n_Port x)) /\
    node_bytes x = Routing.n_ID x ++ ip ++ be_bytes 2 (Routing.n_Port x).
Proof.
  intros (_ & _ & ip & Eip & Hl & Hb). exists ip. destruct x as [id a port]. cbn in *. subst a.
  split_and!; done.
Qed.

Lemma length_node_bytes n x : node_ok n x -> length (node_bytes x) = (22 + n)%nat.
Proof.
  intros Hx. destruct (node_marshal n x Hx) as (ip & _ & Hl & _ & _ & ->).
  destruct Hx as ([Hid _] & _). rewrite !length_app, length_be_bytes. lia.
Qed.

Lemma node_unmarshal n x : (n = 4 \/ n = 16)%nat -> node_ok n x -> Node_UnmarshalBinary (node_bytes x) = Ok x.
Proof.
  intros Hn Hx. pose proof (length_node_bytes n x Hx) as HL.
  destruct (node_marshal n x Hx) as (ip & Ex & Hl & Hb & _ & E). destruct Hx as ([Hid _] & Hp & _).
  unfold Node_UnmarshalBinary. rewrite decide_False by (unfold len; lia). rewrite E.
  rewrite drop_app_length', take_app_length' by done. rewrite UnmarshalBinary_ip; [|unfold ip_len_ok; lia|done].
  rewrite bind_Ok. cbn [a_IP a_Port]. by rewrite Ex at 3.
Qed.

Lemma read_nodes_ok n xs fuel : (n = 4 \/ n = 16)%nat -> Forall (node_ok n) xs -> (length xs <= fuel)%nat ->
  read_nodes fuel (22 + n) (concat (map node_bytes xs)) = Ok xs.
Proof.
  intros Hn Hxs. revert fuel. induction Hxs as [|x xs Hx _ IH]; intros fuel Hf; [by destruct fuel|].
  destruct fuel as [|fuel]; [cbn in Hf; lia|]. cbn [map concat].
  pose proof (length_node_bytes n x Hx) as HL.
  destruct (node_bytes x) as [|c s] eqn:Eb; [cbn in HL; lia|]. cbn [read_nodes app].
  change (c :: s ++ concat (map node_bytes xs)) with ((c :: s) ++ concat (map node_bytes xs)). rewrite <-Eb in HL |- *.
  rewrite take_app_length', drop_app_length' by done. rewrite (node_unmarshal n), bind_Ok by done.
  rewrite IH, bind_Ok; [done|]. cbn in Hf. lia.
Qed.

Lemma length_concat_nodes n xs : Forall (node_ok n) xs -> length (concat (map node_bytes xs)) = (length xs * (22 + n))%nat.
Proof.
  induction 1 as [|x xs Hx _ IH]; [done|]. cbn [map concat]. rewrite length_app, IH, (length_node_bytes n x Hx). cbn. lia.
Qed.

Lemma IP_String_nonempty ip : length ip = 4%nat -> bytes_ok ip -> IP_String ip <> [].
Proof. intros Hl Hb E. pose proof (ParseIP_v4 ip Hl Hb) as HP. by rewrite E in HP. Qed.

Lemma write_nodes4 xs : Forall (node_ok 4) xs -> CompactIPv4Node_MarshalBinary xs = Ok (concat (map node_bytes xs)).
Proof.
  induction 1 as [|x xs Hx _ IH]; [done|]. unfold CompactIPv4Node_MarshalBinary in *. cbn [write_nodes map concat].
  destruct (node_marshal 4 x Hx) as (ip & Ex & Hl & Hb & Em & Eb). pose proof (length_node_bytes 4 x Hx) as HL.
  assert (addr_To4 (node_Addr x) = IPAddr ip []) as ->.
  { rewrite Ex. unfold addr_To4, node_Addr, To4, FastSet.To4. cbn [a_IP Routing.n_IP].
    rewrite decide_True by (unfold len; lia). done. }
  assert (bool_decide (len (addr_String (IPAddr (I := I) ip [])) = 0) = false) as ->.
  { apply bool_decide_eq_false. rewrite len_zero. cbn. unfold zoned, ipEmptyString.
    rewrite decide_True by done. rewrite decide_False by (unfold len; lia). by apply IP_String_nonempty. }
  cbn [andb]. rewrite <-Ex. unfold Node_MarshalBinary in Em. rewrite Em, bind_Ok, <-Eb.
  rewrite decide_False by (unfold len; lia). rewrite IH, bind_Ok. done.
Qed.

Lemma write_nodes6 xs : Forall (node_ok 16) xs -> CompactIPv6Node_MarshalBinary xs = Ok (concat (map node_bytes xs)).
Proof.
  induction 1 as [|x xs Hx _ IH]; [done|]. unfold CompactIPv6Node_MarshalBinary in *. cbn [write_nodes map concat andb].
  destruct (node_marshal 16 x Hx) as (ip & Ex & Hl & Hb & Em & Eb). pose proof (length_node_bytes 16 x Hx) as HL.
  assert (addr_To16 (node_Addr x) = IPAddr ip []) as ->.
  { rewrite Ex. unfold addr_To16, node_Addr, To16. cbn [a_IP Routing.n_IP].
    rewrite decide_False, decide_True by (unfold len, IPv4len, IPv6len; lia). done. }
  rewrite <-Ex. unfold Node_MarshalBinary in Em. rewrite Em, bind_Ok, <-Eb.
  rewrite decide_False by (unfold len; lia). rewrite IH, bind_Ok. done.
Qed.

Lemma nodes_field fi key n marshal xs :
  field_static fi key true -> (n = 4 \/ n = 16)%nat -> Forall (node_ok n) xs -> len xs < 2 ^ 24 ->
  marshal xs = Ok (concat (map node_bytes xs)) ->
  field_ok (MkField fi key true (nodes_type marshal (22 + n)) (nodes_val marshal []) (nodes_val marshal xs)
    (encode_string (concat (map node_bytes xs)))).
Proof.
  intros Hs Hn Hxs Hlen Hm. pose proof (length_concat_nodes n xs Hxs) as HL.
  constructor; cbn [fd_info fd_key fd_omit fd_type fd_zero fd_val fd_bytes]; [done|done| |].
  - intros _. split.
    + unfold encodeValue, nodes_val. cbn [encode_with fst]. unfold CompactNode_MarshalBencode. by rewrite Hm.
    + assert (Hb : bval_ok (BStr (concat (map node_bytes xs)))).
      { cbn. unfold len in *. rewrite HL. lia. }
      apply (decodes_custom _ _ _ (BStr (concat (map node_bytes xs)))); [done|].
      unfold CompactNode_UnmarshalBencode. cbn [bencode].
      rewrite (decodes_as_DecodeBytes TString _ _ _ (decodes_string _ _ Hb)), !bind_Ok.
      unfold CompactNode_UnmarshalBinary, len. rewrite HL, Nat2Z.inj_mul, Z.mod_mul, decide_False by lia.
      rewrite read_nodes_ok, bind_Ok by (done || lia). done.
  - unfold present. cbn. destruct (decide (xs = [])) as [->|]; [done|].
    intros Hb%negb_false_iff%bool_decide_eq_true. destruct xs; [done|]. unfold len in Hb. cbn in Hb. lia.
Qed.

(** ** Addresses and errors *)
Definition address_ok (a : Address (I := I)) : Prop :=
  exists ip port, a = MkAddress (Some (IPAddr ip [])) port /\ ip_ok ip /\ 0 <= port < 2 ^ 16.

Definition address_bytes (a : Address (I := I)) : bytes := match MarshalBencode a with Ok b => b | _ => [] end.

Lemma address_elem a : address_ok a ->
  encodeValue (addr_val a) = Ok (address_bytes a) /\
  decodes_as (addr_type LookupIP, zero_of (addr_type LookupIP)) (address_bytes a) (addr_val a) /\
  UnmarshalBencode LookupIP zeroAddress (address_bytes a) = Ok a.
Proof.
  intros (ip & port & -> & Hip & Hp). unfold address_bytes, addr_val. rewrite MarshalBencode_ok by done.
  split_and!; [done| |by apply UnmarshalBencode_ok].
  apply (decodes_custom _ _ _ (addr_doc ip port)); [by apply addr_doc_ok|].
  rewrite UnmarshalBencode_ok, bind_Ok, MarshalBencode_ok by done. done.
Qed.

Definition error_ok (e : Error) : Prop := - 2 ^ 63 <= e_Code e < 2 ^ 63 /\ len (e_Reason e) < 2 ^ 31.
Definition error_doc (e : Error) : bval := BList [BInt (e_Code e); BStr (e_Reason e)].

Lemma error_field fi key e : field_static fi key true -> error_ok e ->
  field_ok (MkField fi key true error_type (error_val (MkError 0 [])) (error_val e) (bencode (error_doc e))).
Proof.
  intros Hs [Hc Hr]. constructor; cbn [fd_info fd_key fd_omit fd_type fd_zero fd_val fd_bytes]; [done|done| |].
  - unfold present. cbn. intros Hp. assert (Hne : ~ (e_Code e = 0 /\ e_Reason e = [])).
    { intros [Ec Er]. rewrite Ec, Er in Hp. done. }
    split.
    + unfold encodeValue, error_val. cbn [encode_with fst]. unfold Error_MarshalBencode. rewrite decide_False by done. done.
    + assert (Hok : bval_ok (error_doc e)) by (apply bval_ok_list; repeat constructor; cbn; lia).
      apply (decodes_custom _ _ _ (error_doc e)); [done|]. unfold Error_UnmarshalBencode.
      destruct (decodes_as_Decode (TIface, VIface None) _ _ [] (decodes_iface (VIface None) _ Hok)) as (d & E & _).
      rewrite app_nil_r in E. cbn [fst snd] in E. rewrite E, bind_Ok. cbn. by destruct e.
  - unfold present. cbn. rewrite andb_true_r.
    intros [Ec%bool_decide_eq_true Er%bool_decide_eq_true]%negb_false_iff%andb_true_iff. destruct e. cbn in *. by subst.
Qed.

(** ** Messages *)
Ltac static := split_and!; vm_compute; reflexivity.
Ltac distinct_keys := apply (bool_decide_unpack _); vm_compute; exact Logic.I.

Definition qa_ok (a : QueryArg) : Prop :=
  Hash.hash_ok (q_ID a) /\ Hash.hash_ok (q_Target a) /\ Hash.hash_ok (q_InfoHash a) /\ 0 <= q_Port a < 2 ^ 16 /\
  len (q_Token a) < 2 ^ 31 /\ Forall (fun w => len w < 2 ^ 31) (q_Wants a) /\
  obytes_ok (q_V a) /\ obytes_ok (q_K a) /\ obytes_ok (q_Sig a) /\ obytes_ok (q_Salt a) /\
  - 2 ^ 63 <= q_Seq a < 2 ^ 63 /\ - 2 ^ 63 <= q_CAS a < 2 ^ 63.

Definition zhash : goval := Hash.hash_val Hash.zeroHash.

Definition qa_fields (a : QueryArg) : list field :=
  [MkField (fld "ID" "id") (bs "id") false Hash.hash_type zhash (Hash.hash_val (q_ID a)) (encode_string (q_ID a));
   MkField (fld "Target" "target,omitempty") (bs "target") true Hash.hash_type zhash (Hash.hash_val (q_Target a)) (encode_string (q_Target a));
   MkField (fld "InfoHash" "info_hash,omitempty") (bs "info_hash") true Hash.hash_type zhash (Hash.hash_val (q_InfoHash a)) (encode_string (q_InfoHash a));
   MkField (fld "Port" "port,omitempty") (bs "port") true (TUint 16) (VUint 0) (VUint (q_Port a)) (encodeNumeric (q_Port a));
   MkField (fld "Token" "token,omitempty") (bs "token") true TString (VString []) (VString (q_Token a)) (encode_string (q_Token a));
   MkField (fld "ImpliedPort" "implied_port,omitempty") (bs "implied_port") true TBool (VBool false) (VBool (q_ImpliedPort a))
     (encodeNumeric (if q_ImpliedPort a then 1 else 0));
   MkField (fld "Wants" "want,omitempty") (bs "want") true (TSlice TString) (VSlice None) (strs_val (q_Wants a))
     ([108] ++ concat (map encode_string (q_Wants a)) ++ [101]);
   MkField (fld "V" "v,omitempty") (bs "v") true TBytes (VBytes None) (VBytes (q_V a)) (encode_string (default [] (q_V a)));
   MkField (fld "K" "k,omitempty") (bs "k") true TBytes (VBytes None) (VBytes (q_K a)) (encode_string (default [] (q_K a)));
   MkField (fld "Sig" "sig,omitempty") (bs "sig") true TBytes (VBytes None) (VBytes (q_Sig a)) (encode_string (default [] (q_Sig a)));
   MkField (fld "Seq" "seq,omitempty") (bs "seq") true (TInt 64) (VInt 0) (VInt (q_Seq a)) (encodeNumeric (q_Seq a));
   MkField (fld "Salt" "salt,omitempty") (bs "salt") true TBytes (VBytes None) (VBytes (q_Salt a)) (encode_string (default [] (q_Salt a)));
   MkField (fld "CAS" "cas,omitempty") (bs "cas") true (TInt 64) (VInt 0) (VInt (q_CAS a)) (encodeNumeric (q_CAS a))].

Lemma strings_elem l : Forall (fun w => len w < 2 ^ 31) l ->
  Forall (fun w => encodeValue (VString w) = Ok (encode_string w) /\
    decodes_as (TString, zero_of TString) (encode_string w) (VString w)) l.
Proof. intros Hl. eapply Forall_impl; [exact Hl|]. intros w Hw. split; [done|]. by apply decodes_string. Qed.

Lemma qa_roundtrip a : qa_ok a ->
  exists p, encodeValue (qa_val a) = Ok p /\ decodes_as (qa_type, qa_val zeroQueryArg) p (qa_val a).
Proof.
  intros (H1 & H2 & H3 & H4 & H5 & H6 & H7 & H8 & H9 & H10 & H11 & H12).
  change (qa_val a) with (VStruct (vals (qa_fields a))). change (qa_val zeroQueryArg) with (VStruct (zeros (qa_fields a))).
  change qa_type with (TStruct (types (qa_fields a))). apply struct_roundtrip; [|distinct_keys].
  unfold qa_fields. repeat apply Forall_cons_2; try apply Forall_nil_2.
  - apply hash_field; [static|done].
  - apply hash_field; [static|done].
  - apply hash_field; [static|done].
  - apply uint_field; [static|lia|done].
  - apply string_field; [static|done].
  - apply bool_field; static.
  - refine (slice_field _ _ _ _ TString VString encode_string _ _); [static|by apply strings_elem].
  - apply bytes_field; [static|done|done].
  - apply bytes_field; [static|done|done].
  - apply bytes_field; [static|done|done].
  - apply int_field; [static|done].
  - apply bytes_field; [static|done|done].
  - apply int_field; [static|done].
Qed.

Definition rr_ok (r : ResponseResult (I := I)) : Prop :=
  Hash.hash_ok (r_ID r) /\ Forall (node_ok 4) (r_Nodes r) /\ len (r_Nodes r) < 2 ^ 24 /\
  Forall (node_ok 16) (r_Nodes6 r) /\ len (r_Nodes6 r) < 2 ^ 24 /\ len (r_Token r) < 2 ^ 31 /\
  Forall address_ok (r_Values r) /\ Forall Hash.hash_ok (r_Samples r) /\
  - 2 ^ 63 <= r_Num r < 2 ^ 63 /\ - 2 ^ 63 <= r_Interval r < 2 ^ 63 /\
  obytes_ok (r_V r) /\ obytes_ok (r_K r) /\ obytes_ok (r_Sig r) /\ - 2 ^ 63 <= r_Seq r < 2 ^ 63.

Definition nodes4 : list Node -> res bytes := CompactIPv4Node_MarshalBinary.
Definition nodes6 : list Node -> res bytes := CompactIPv6Node_MarshalBinary.

Definition rr_fields (r : ResponseResult (I := I)) : list field :=
  [MkField (fld "ID" "id") (bs "id") false Hash.hash_type zhash (Hash.hash_val (r_ID r)) (encode_string (r_ID r));
   MkField (fld "Nodes" "nodes,omitempty") (bs "nodes") true (nodes_type nodes4 26) (nodes_val nodes4 []) (nodes_val nodes4 (r_Nodes r))
     (encode_string (concat (map node_bytes (r_Nodes r))));
   MkField (fld "Nodes6" "nodes6,omitempty") (bs "nodes6") true (nodes_type nodes6 38) (nodes_val nodes6 []) (nodes_val nodes6 (r_Nodes6 r))
     (encode_string (concat (map node_bytes (r_Nodes6 r))));
   MkField (fld "Token" "token,omitempty") (bs "token") true TString (VString []) (VString (r_Token r)) (encode_string (r_Token r));
   MkField (fld "Values" "values,omitempty") (bs "values") true (TSlice (addr_type LookupIP)) (VSlice None) (addrs_val (r_Values r))
     ([108] ++ concat (map address_bytes (r_Values r)) ++ [101]);
   MkField (fld "Samples" "samples,omitempty") (bs "samples") true (TSlice Hash.hash_type) (VSlice None) (hashes_val (r_Samples r))
     ([108] ++ concat (map encode_string (r_Samples r)) ++ [101]);
   MkField (fld "Num" "num,omitempty") (bs "num") true (TInt 64) (VInt 0) (VInt (r_Num r)) (encodeNumeric (r_Num r));
   MkField (fld "Interval" "interval,omitempty") (bs "interval") true (TInt 64) (VInt 0) (VInt (r_Interval r)) (encodeNumeric (r_Interval r));
   MkField (fld "V" "v,omitempty") (bs "v") true TBytes (VBytes None) (VBytes (r_V r)) (encode_string (default [] (r_V r)));
   MkField (fld "K" "k,omitempty") (bs "k") true TBytes (VBytes None) (VBytes (r_K r)) (encode_string (default [] (r_K r)));
   MkField (fld "Sig" "sig,omitempty") (bs "sig") true TBytes (VBytes None) (VBytes (r_Sig r)) (encode_string (default [] (r_Sig r)));
   MkField (fld "Seq" "seq,omitempty") (bs "seq") true (TInt 64) (VInt 0) (VInt (r_Seq r)) (encodeNumeric (r_Seq r))].

Lemma rr_roundtrip r : rr_ok r ->
  exists p, encodeValue (rr_val r) = Ok p /\ decodes_as (rr_type LookupIP, rr_val zeroResponse) p (rr_val r).
Proof.
  intros (H1 & H2 & H3 & H4 & H5 & H6 & H7 & H8 & H9 & H10 & H11 & H12 & H13 & H14).
  change (rr_val r) with (VStruct (vals (rr_fields r))). change (rr_val zeroResponse) with (VStruct (zeros (rr_fields r))).
  change (rr_type LookupIP) with (TStruct (types (rr_fields r))). apply struct_roundtrip; [|distinct_keys].
  unfold rr_fields. repeat apply Forall_cons_2; try apply Forall_nil_2.
  - apply hash_field; [static|done].
  - apply (nodes_field _ _ 4); [static|by left|done|done|by apply write_nodes4].
  - apply (nodes_field _ _ 16); [static|by right|done|done|by apply write_nodes6].
  - apply string_field; [static|done].
  - refine (slice_field _ _ _ _ (addr_type LookupIP) addr_val address_bytes _ _); [static|].
    eapply Forall_impl; [exact H7|]. intros a Ha. by destruct (address_elem a Ha) as (? & ? & _).
  - refine (slice_field _ _ _ _ Hash.hash_type Hash.hash_val encode_string _ _); [static|].
    eapply Forall_impl; [exact H8|]. intros h Hh. split; [done|]. by apply Hash.decodes_hash.
  - apply int_field; [static|done].
  - apply int_field; [static|done].
  - apply bytes_field; [static|done|done].
  - apply bytes_field; [static|done|done].
  - apply bytes_field; [static|done|done].
  - apply int_field; [static|done].
Qed.

(** *** A zero argument or result is left out *)
Lemma hash_isZero h : Hash.hash_ok h -> isZero (Hash.hash_val h) = true -> h = Hash.zeroHash.
Proof.
  intros [Hl _] Hz. change (forallb (fun b => bool_decide (b = 0)) h = true) in Hz. unfold Hash.zeroHash. rewrite <-Hl.
  clear Hl. induction h as [|b h IH]; [done|]. cbn in Hz. apply andb_true_iff in Hz as [->%bool_decide_eq_true Hz].
  cbn. f_equal. by apply IH.
Qed.

Lemma slice_isZero {X} (val : X -> goval) l :
  isZero (VSlice (if decide (l = []) then None else Some (map val l))) = true -> l = [].
Proof. destruct (decide (l = [])); [done|]. cbn. done. Qed.

Lemma obytes_isZero o : isZero (VBytes o) = true -> o = None.
Proof. by destruct o. Qed.

(** Splits the conjunction [isZero] of a struct is. *)
Ltac split_zero Hz :=
  cbn [isZero qa_val rr_val] in Hz; repeat (apply andb_true_iff in Hz as [?Hf Hz]); clear Hz;
  repeat match goal with
  | E : isZero (Hash.hash_val _) = true |- _ => apply hash_isZero in E; [|done]
  | E : bool_decide _ = true |- _ => apply bool_decide_eq_true in E
  | E : negb _ = true |- _ => apply negb_true_iff in E
  | E : match ?o with Some _ => false | None => true end = true |- _ => apply (obytes_isZero o) in E
  end.

Lemma qa_zero a : qa_ok a -> isZero (qa_val a) = true -> a = zeroQueryArg.
Proof.
  intros (H1 & H2 & H3 & _) Hz. destruct a. cbn [q_ID q_Target q_InfoHash] in *. unfold qa_val in Hz.
  cbn [q_ID q_Target q_InfoHash q_Port q_Token q_ImpliedPort q_Wants q_V q_K q_Sig q_Seq q_Salt q_CAS] in Hz.
  split_zero Hz. unfold strs_val in *.
  match goal with E : isZero (VSlice _) = true |- _ => apply slice_isZero in E | E : _ |- _ => idtac end.
  by subst.
Qed.

Lemma rr_zero r : rr_ok r -> isZero (rr_val r) = true -> r = zeroResponse.
Proof.
  intros (H1 & _) Hz. destruct r. cbn [r_ID] in *. unfold rr_val in Hz.
  cbn [r_ID r_Nodes r_Nodes6 r_Token r_Values r_Samples r_Num r_Interval r_V r_K r_Sig r_Seq] in Hz.
  split_zero Hz. unfold addrs_val, hashes_val, nodes_val in *. cbn [isZero] in *.
  repeat match goal with
  | E : isZero (VSlice _) = true |- _ => apply slice_isZero in E
  | E : match (if decide (?l = []) then None else Some (map ?f ?l)) with Some _ => false | None => true end = true |- _ =>
      apply (slice_isZero f l) in E
  end.
  by subst.
Qed.

(** *** The record read back *)
Lemma elems_slice {X} (val : X -> goval) l :
  elems (VSlice (if decide (l = []) then None else Some (map val l))) = Ok (map val l).
Proof. destruct (decide (l = [])) as [->|]; done. Qed.

Lemma mapR_map {X Y} (f : Y -> res X) (val : X -> Y) l :
  Forall (fun x => f (val x) = Ok x) l -> mapR f (map val l) = Ok l.
Proof. induction 1 as [|x l Hx _ IH]; [done|]. cbn. by rewrite Hx, bind_Ok, IH. Qed.

Lemma qa_of_val a : qa_of (qa_val a) = Ok a.
Proof.
  destruct a. unfold qa_of, qa_val. cbn [q_ID q_Target q_InfoHash q_Port q_Token q_ImpliedPort q_Wants q_V q_K q_Sig q_Seq q_Salt q_CAS].
  unfold strs_val. rewrite elems_slice, bind_Ok, mapR_map, bind_Ok by (by apply Forall_forall). done.
Qed.

Lemma nodes_of_val n marshal xs : (n = 4 \/ n = 16)%nat -> Forall (node_ok n) xs -> nodes_of (nodes_val marshal xs) = Ok xs.
Proof.
  intros Hn Hxs. unfold nodes_of, nodes_val. rewrite elems_slice, bind_Ok. apply mapR_map.
  eapply Forall_impl; [exact Hxs|]. intros x Hx. by apply (node_unmarshal n).
Qed.

Lemma rr_of_val r : rr_ok r -> rr_of LookupIP (rr_val r) = Ok r.
Proof.
  intros (_ & H2 & _ & H4 & _ & _ & H7 & _). destruct r as [id ns4 ns6 tok vals sams num intv v k sig sq]. unfold rr_of, rr_val.
  cbn [r_ID r_Nodes r_Nodes6 r_Token r_Values r_Samples r_Num r_Interval r_V r_K r_Sig r_Seq] in *.
  rewrite (nodes_of_val 4 _ ns4), bind_Ok by (done || by left). rewrite (nodes_of_val 16 _ ns6), bind_Ok by (done || by right).
  unfold addrs_val, hashes_val. rewrite (elems_slice addr_val vals), bind_Ok, mapR_map, bind_Ok.
  - rewrite (elems_slice Hash.hash_val sams), bind_Ok, map_map. cbn [Hash.hash_of Hash.hash_val]. by rewrite map_id.
  - eapply Forall_impl; [exact H7|]. intros a Ha. by destruct (address_elem a Ha) as (_ & _ & ?).
Qed.

(** *** Messages *)
Definition msg_ok (m : Message (I := I)) : Prop :=
  len (m_T m) < 2 ^ 31 /\ len (m_Y m) < 2 ^ 31 /\ len (m_Q m) < 2 ^ 31 /\
  qa_ok (m_A m) /\ rr_ok (m_R m) /\ error_ok (m_E m).

Definition msg_fields (m : Message (I := I)) (pa pr : bytes) : list field :=
  [MkField (fld "T" "t") (bs "t") false TString (VString []) (VString (m_T m)) (encode_string (m_T m));
   MkField (fld "Y" "y") (bs "y") false TString (VString []) (VString (m_Y m)) (encode_string (m_Y m));
   MkField (fld "Q" "q,omitempty") (bs "q") true TString (VString []) (VString (m_Q m)) (encode_string (m_Q m));
   MkField (fld "A" "a,omitempty") (bs "a") true qa_type (qa_val zeroQueryArg) (qa_val (m_A m)) pa;
   MkField (fld "R" "r,omitempty") (bs "r") true (rr_type LookupIP) (rr_val zeroResponse) (rr_val (m_R m)) pr;
   MkField (fld "E" "e,omitempty") (bs "e") true error_type (error_val (MkError 0 [])) (error_val (m_E m)) (bencode (error_doc (m_E m)));
   MkField (fld "RO" "ro,omitempty") (bs "ro") true TBool (VBool false) (VBool (m_RO m)) (encodeNumeric (if m_RO m then 1 else 0))].

Lemma struct_field fi key t z v p : field_static fi key true ->
  (exists fs, v = VStruct fs) -> encodeValue v = Ok p -> decodes_as (t, z) p v -> (isZero v = true -> v = z) ->
  field_ok (MkField fi key true t z v p).
Proof.
  intros Hs [fs ->] He Hd Hz. constructor; cbn [fd_info fd_key fd_omit fd_type fd_zero fd_val fd_bytes]; [done|done|done|].
  unfold present. cbn [fd_omit fd_val]. intros E%negb_false_iff. by apply Hz.
Qed.

Lemma message_fields_ok m pa pr : msg_ok m ->
  encodeValue (qa_val (m_A m)) = Ok pa -> decodes_as (qa_type, qa_val zeroQueryArg) pa (qa_val (m_A m)) ->
  encodeValue (rr_val (m_R m)) = Ok pr -> decodes_as (rr_type LookupIP, rr_val zeroResponse) pr (rr_val (m_R m)) ->
  Forall field_ok (msg_fields m pa pr).
Proof.
  intros (H1 & H2 & H3 & H4 & H5 & H6) Ha Da Hr Dr.
  unfold msg_fields. repeat apply Forall_cons_2; try apply Forall_nil_2.
  - apply string_field; [static|done].
  - apply string_field; [static|done].
  - apply string_field; [static|done].
  - apply struct_field; [static|by eexists|done|done|]. intros Hz. by rewrite (qa_zero _ H4 Hz).
  - apply struct_field; [static|by eexists|done|done|]. intros Hz. by rewrite (rr_zero _ H5 Hz).
  - apply error_field; [static|done].
  - apply bool_field; static.
Qed.

Lemma message_roundtrip_lemma m : msg_ok m -> (b ← EncodeMessage m; DecodeMessage LookupIP b) = Ok m.
Proof.
  intros Hm. pose proof Hm as (_ & _ & _ & H4 & H5 & _).
  destruct (qa_roundtrip _ H4) as (pa & Ea & Da). destruct (rr_roundtrip _ H5) as (pr & Er & Dr).
  destruct (struct_roundtrip (msg_fields m pa pr)) as (p & E & D);
    [by apply message_fields_ok|distinct_keys|].
  change (VStruct (vals (msg_fields m pa pr))) with (msg_val m) in E, D.
  change (VStruct (zeros (msg_fields m pa pr))) with (msg_val (I := I) zeroMessage) in D.
  change (TStruct (types (msg_fields m pa pr))) with (msg_type LookupIP) in D.
  unfold EncodeMessage, EncodeBytes. rewrite E, bind_Ok. unfold DecodeMessage.
  rewrite (decodes_as_DecodeBytes _ _ _ _ D), bind_Ok. destruct m as [t y q a r [c re] ro]. unfold msg_val, msg_of.
  cbn [m_T m_Y m_Q m_A m_R m_E m_RO] in *. rewrite qa_of_val, bind_Ok, rr_of_val, bind_Ok by done. done.
Qed.

(** *** What the compact form keeps of a node

    A response carries a node as the four or sixteen bytes of its IP: the
    address kind, the zone and an I2P destination are lost. *)
Definition canon4 (n : Node) : Node := Routing.MkNode (Routing.n_ID n) (addr_To4 (node_Addr n)) (Routing.n_Port n).

Lemma To4_len ip ip4 : To4 ip = Some ip4 -> len ip4 = 4.
Proof.
  unfold To4, FastSet.To4. intros E. repeat case_decide; simplify_eq; try done. destruct_and!.
  unfold len in *. rewrite length_drop. lia.
Qed.

Lemma addr_To4_idem (n : Node) : addr_To4 (node_Addr (canon4 n)) = addr_To4 (node_Addr n).
Proof.
  unfold canon4, node_Addr. cbn. destruct (Routing.n_IP n); cbn; try done.
  all: destruct (To4 ip) as [ip4|] eqn:E; cbn; [|done].
  all: assert (len ip4 = 4) as Hl by (by apply To4_len in E).
  all: unfold To4, FastSet.To4; by rewrite decide_True.
Qed.

Lemma write_nodes_canon ns :
  CompactIPv4Node_MarshalBinary (map canon4 ns) = CompactIPv4Node_MarshalBinary ns.
Proof.
  unfold CompactIPv4Node_MarshalBinary. induction ns as [|n ns IH]; [done|]. cbn [map write_nodes].
  rewrite addr_To4_idem, IH. done.
Qed.

Lemma encode_canon m :
  let r := m_R m in
  EncodeMessage (MkMessage (m_T m) (m_Y m) (m_Q m) (m_A m)
    (MkResponse (r_ID r) (map canon4 (r_Nodes r)) (r_Nodes6 r) (r_Token r) (r_Values r) (r_Samples r) (r_Num r)
       (r_Interval r) (r_V r) (r_K r) (r_Sig r) (r_Seq r)) (m_E m) (m_RO m)) = EncodeMessage m.
Proof.
  destruct m as [t y q a [id n4 n6 tok vals sams num intv v k sig sq] e ro].
  unfold EncodeMessage, EncodeBytes, msg_val, rr_val.
  cbn [m_T m_Y m_Q m_A m_R m_E m_RO r_ID r_Nodes r_Nodes6 r_Token r_Values r_Samples r_Num r_Interval r_V r_K r_Sig r_Seq].
  unfold nodes_val at 1 3. unfold CompactNode_MarshalBencode. rewrite write_nodes_canon.
  destruct n4; [done|]. cbn [map]. rewrite !decide_False by done. reflexivity.
Qed.

Definition canon6 (n : Node) : Node := Routing.MkNode (Routing.n_ID n) (addr_To16 (node_Addr n)) (Routing.n_Port n).

Lemma To16_idem ip ip16 : To16 ip = Some ip16 -> To16 ip16 = Some ip16.
Proof.
  intros E. assert (Hl : len ip16 = 16).
  { unfold To16 in E. repeat case_decide; simplify_eq; [|done]. rewrite len_app. change (len v4InV6Prefix) with 12. unfold IPv4len in *. lia. }
  unfold To16, IPv4len, IPv6len. by rewrite decide_False, decide_True by lia.
Qed.

Lemma addr_To16_idem (n : Node) : addr_To16 (node_Addr (canon6 n)) = addr_To16 (node_Addr n).
Proof.
  unfold canon6, node_Addr. cbn. destruct (Routing.n_IP n); cbn; try done.
  all: destruct (To16 ip) as [ip16|] eqn:E; cbn; [|done].
  all: by rewrite (To16_idem _ _ E).
Qed.

Lemma write_nodes6_canon ns :
  CompactIPv6Node_MarshalBinary (map canon6 ns) = CompactIPv6Node_MarshalBinary ns.
Proof.
  unfold CompactIPv6Node_MarshalBinary. induction ns as [|n ns IH]; [done|]. cbn [map write_nodes].
  rewrite addr_To16_idem, IH. done.
Qed.

(** The message with its nodes as they are read back. *)
Definition canon_msg (m : Message (I := I)) : Message (I := I) :=
  let r := m_R m in
  MkMessage (m_T m) (m_Y m) (m_Q m) (m_A m)
    (MkResponse (r_ID r) (map canon4 (r_Nodes r)) (map canon6 (r_Nodes6 r)) (r_Token r) (r_Values r) (r_Samples r) (r_Num r)
       (r_Interval r) (r_V r) (r_K r) (r_Sig r) (r_Seq r)) (m_E m) (m_RO m).

Lemma encode_canon_msg m : EncodeMessage (canon_msg m) = EncodeMessage m.
Proof.
  rewrite <- (encode_canon m). destruct m as [t y q a [id n4 n6 tok vals sams num intv v k sig sq] e ro].
  unfold EncodeMessage, EncodeBytes, canon_msg, msg_val, rr_val.
  cbn [m_T m_Y m_Q m_A m_R m_E m_RO r_ID r_Nodes r_Nodes6 r_Token r_Values r_Samples r_Num r_Interval r_V r_K r_Sig r_Seq].
  unfold nodes_val at 2 4. unfold CompactNode_MarshalBencode. rewrite write_nodes6_canon.
  destruct n6; [done|]. cbn [map]. rewrite !decide_False by done. reflexivity.
Qed.

End Facts.

(** ** Properties *)

(** C8: a KRPC message is read back as it was sent: query arguments, response
    results with their compact IPv4 and IPv6 nodes, peer addresses, samples and
    stored data, error code and reason, read-only flag, each optional part
    included or left out; but of a node only its ID, port and IP are kept. So a
    message whose nodes are plain IPs is read back exactly; a node with a UDP
    address or a zone is read back as the plain IP, and one with an I2P
    destination as the loopback address. The conditions: hashes are 20 bytes,
    numbers within their widths, strings shorter than 2^31 bytes; the IPs of the
    nodes have the length of their list; the peer addresses are plain IPs
    without a zone and not I2P destinations; and an optional byte string is nil
    or not empty (an empty one is read back as nil). *)
Theorem krpc_roundtrip {I} `{I2PKeys I} LookupIP (m : Message (I := I)) :
  (msg_ok (canon_msg m) -> (b ← EncodeMessage m; DecodeMessage LookupIP b) = Ok (canon_msg m)) /\
  (msg_ok m -> (b ← EncodeMessage m; DecodeMessage LookupIP b) = Ok m).
Proof. split; [rewrite <- (encode_canon_msg m)|]; apply message_roundtrip_lemma. Qed.

#[local] Existing Instance Address.demo_keys.

Definition demo_response : Message (I := bytes) :=
  NewResponseMsg (bs "a1") (MkResponse (replicate 20 5)
    [Routing.MkNode (replicate 20 7) (IPAddr [10; 0; 0; 1] []) 6881] [] (bs "token")
    [MkAddress (Some (IPAddr [1; 2; 3; 4] [])) 80] [] 0 0 None None None 0).

Lemma qa_ok_zero : qa_ok zeroQueryArg.
Proof.
  unfold qa_ok. cbn [q_ID q_Target q_InfoHash q_Port q_Token q_Wants q_V q_K q_Sig q_Salt q_Seq q_CAS zeroQueryArg].
  split_and!; try exact Hash.hash_ok_zero; try exact Logic.I; try constructor; try lia; done.
Qed.

Lemma hash_ok_replicate b : is_byte b -> Hash.hash_ok (replicate 20 b).
Proof. intros Hb. split; [done|]. by apply Forall_replicate. Qed.

Lemma demo_response_ok : msg_ok demo_response.
Proof.
  split; [vm_compute; done|]. split; [vm_compute; done|]. split; [vm_compute; done|].
  split; [exact qa_ok_zero|]. split; [|split; [split; cbn; lia|vm_compute; done]].
  split; [apply hash_ok_replicate; unfold is_byte; lia|]. split.
  { constructor; [|constructor]. split; [apply hash_ok_replicate; unfold is_byte; lia|]. split; [cbn; lia|].
    exists [10; 0; 0; 1]. split_and!; [done|done|]. repeat constructor; unfold is_byte; lia. }
  split; [vm_compute; done|]. split; [constructor|]. split; [vm_compute; done|]. split; [vm_compute; done|]. split.
  { constructor; [|constructor]. exists [1; 2; 3; 4], 80. split_and!; [done| |lia|lia].
    split; [repeat constructor; unfold is_byte; lia|by left]. }
  split; [constructor|]. cbn. split_and!; lia || done.
Qed.

(** The response with its node under a UDP address. *)
Definition demo_udp_response : Message (I := bytes) :=
  NewResponseMsg (bs "a1") (MkResponse (replicate 20 5)
    [Routing.MkNode (replicate 20 7) (UDPAddr [10; 0; 0; 1] 9999 []) 6881] [] (bs "token")
    [MkAddress (Some (IPAddr [1; 2; 3; 4] [])) 80] [] 0 0 None None None 0).

Lemma krpc_roundtrip_witness :
  (b ← EncodeMessage demo_response; DecodeMessage (fun _ => Err "no such host") b) = Ok demo_response /\
  (b ← EncodeMessage demo_udp_response; DecodeMessage (fun _ => Err "no such host") b) = Ok demo_response.
Proof.
  split.
  - apply (krpc_roundtrip (fun _ => Err "no such host") demo_response). exact demo_response_ok.
  - apply (krpc_roundtrip (fun _ => Err "no such host") demo_udp_response). exact demo_response_ok.
Defined.

(** An empty optional byte string is not told from an absent one. *)
Example empty_value_dropped :
  (b ← EncodeMessage (I := bytes) (NewResponseMsg (bs "a1") (MkResponse (replicate 20 5) [] [] [] [] [] 0 0 (Some []) None None 0));
   DecodeMessage (fun _ => Err "no such host") b) =
  Ok (NewResponseMsg (bs "a1") (MkResponse (replicate 20 5) [] [] [] [] [] 0 0 None None None 0)).
Proof. vm_compute. reflexivity. Qed.

End KrpcFacts.
