(* ===== verification/DhtServer.v ===== *)
(** * The DHT server

    Models [src/dht/dht_server.go]: what the server does with a packet, the
    queries it answers, the queries it sends and what it does with the answers,
    over the routing tables, tokens, peer store, transactions, data store and
    blacklist of the other files.

    The server state is a record; an operation is a state transformer that
    returns a value, or panics. The socket is the argument [WriteTo]; the
    packets written are kept in the state, as are the calls of the user's
    callbacks and the results handed to them. A packet is handled in one step:
    the goroutine started for it is not interleaved with others. The list of
    visited ids a search appends to is a value: that two transactions may share
    its backing array is not modelled. *)

From S2P Require Import Prelude Strconv Bencode Sha1 Hash Net Address Routing Krpc DhtState DataStore.
Import Net Address Krpc.

Module DhtServer.

Section DhtServer.
Context {I : Type} `{I2PKeys I}.
Context {B : Type} `{Blacklist.Blacklist B}.
Context (LookupIP : bytes -> res (list bytes)).
Context (range : forall V, gmap bytes V -> list (bytes * V)).
Context (Verify : bytes -> bytes -> bytes -> bool).
(** [conn.WriteTo]: the number of bytes written, or the error. *)
Context (WriteTo : netAddr (I := I) -> bytes -> res Z).

Abbreviation addr := (netAddr (I := I)).
Abbreviation Node := (Routing.Node (A := addr)).
Abbreviation Message := (Message (I := I)).
Abbreviation ResponseResult := (ResponseResult (I := I)).

Definition queryMethodPing : bytes := bs "ping".
Definition queryMethodFindNode : bytes := bs "find_node".
Definition queryMethodGetPeers : bytes := bs "get_peers".
Definition queryMethodAnnouncePeer : bytes := bs "announce_peer".
Definition queryMethodSampleInfoHash : bytes := bs "sample_infohashes".
Definition queryMethodPut : bytes := bs "put".
Definition queryMethodGet : bytes := bs "get".
Definition errUnsupportedIPProtocol : string := "unsupported ip protocol".

(** [Result], as it is given to the callback of a transaction. *)
Record Result := MkResult {
  res_Addr : option addr; res_Code : Z; res_Reason : bytes; res_Timeout : bool; res_Peers : list (Address (I := I))
}.

(** The methods a transaction may call, and the callbacks of the user, which
    are named by a number. *)
Inductive method := MOnError | MOnTimeout | MNoop | MPing | MGetPeers | MFindNode | MUser (cb : nat).

Abbreviation transaction := (@Transactions.transaction addr QueryArg method).
Abbreviation transactionManager := (@Transactions.transactionManager addr QueryArg method).

(** What the server did that can be seen outside. *)
Inductive output :=
  | Sent (to : addr) (m : Message)
  | OnSearch (infohash : bytes) (ip : addr)
  | OnTorrent (infohash : bytes) (ip : option addr)
  | Called (cb : nat) (r : Result).

Record Config := MkConfig {
  c_K : Z; c_ID : bytes; c_ReadOnly : bool; c_SearchDepth : Z;
  c_HandleInMessage : addr -> Message -> bool * Message;
  c_HandleOutMessage : addr -> Message -> bool * option string * Message
}.

Record Server := MkServer {
  s_conf : Config;
  s_ipv4 : bool;
  s_ipv6 : bool;
  s_want : list bytes;
  s_rt4 : Routing.routingTable (A := addr);
  s_rt6 : Routing.routingTable (A := addr);
  s_tokens : Tokens.tokenManager;
  s_tokenPeers : PeerStore.tokenPeerManager (I := I);
  s_trans : transactionManager;
  s_store : gmap bytes DataStore.StorageItem;
  s_blacklist : B;
  s_out : list output
}.

(** ** The monad of the handlers *)
Definition act (A : Type) : Type := Server -> res (A * Server).
#[local] Instance act_ret : MRet act := fun A a s => Ok (a, s).
#[local] Instance act_bind : MBind act := fun A C f m s => '(a, s') ← m s; f a s'.

Definition get_server : act Server := fun s => Ok (s, s).
Definition panic {A} (p : string) : act A := fun _ => Panic p.
Definition lift {A} (r : res A) : act A := fun s => a ← r; Ok (a, s).
Definition emit (o : output) : act unit := fun s =>
  Ok (tt, MkServer (s_conf s) (s_ipv4 s) (s_ipv6 s) (s_want s) (s_rt4 s) (s_rt6 s) (s_tokens s) (s_tokenPeers s)
            (s_trans s) (s_store s) (s_blacklist s) (s_out s ++ [o])).
Definition set_rt4 rt : act unit := fun s =>
  Ok (tt, MkServer (s_conf s) (s_ipv4 s) (s_ipv6 s) (s_want s) rt (s_rt6 s) (s_tokens s) (s_tokenPeers s)
            (s_trans s) (s_store s) (s_blacklist s) (s_out s)).
Definition set_rt6 rt : act unit := fun s =>
  Ok (tt, MkServer (s_conf s) (s_ipv4 s) (s_ipv6 s) (s_want s) (s_rt4 s) rt (s_tokens s) (s_tokenPeers s)
            (s_trans s) (s_store s) (s_blacklist s) (s_out s)).
Definition set_tokens t : act unit := fun s =>
  Ok (tt, MkServer (s_conf s) (s_ipv4 s) (s_ipv6 s) (s_want s) (s_rt4 s) (s_rt6 s) t (s_tokenPeers s)
            (s_trans s) (s_store s) (s_blacklist s) (s_out s)).
Definition set_tokenPeers p : act unit := fun s =>
  Ok (tt, MkServer (s_conf s) (s_ipv4 s) (s_ipv6 s) (s_want s) (s_rt4 s) (s_rt6 s) (s_tokens s) p
            (s_trans s) (s_store s) (s_blacklist s) (s_out s)).
Definition set_trans t : act unit := fun s =>
  Ok (tt, MkServer (s_conf s) (s_ipv4 s) (s_ipv6 s) (s_want s) (s_rt4 s) (s_rt6 s) (s_tokens s) (s_tokenPeers s)
            t (s_store s) (s_blacklist s) (s_out s)).
Definition set_store d : act unit := fun s =>
  Ok (tt, MkServer (s_conf s) (s_ipv4 s) (s_ipv6 s) (s_want s) (s_rt4 s) (s_rt6 s) (s_tokens s) (s_tokenPeers s)
            (s_trans s) d (s_blacklist s) (s_out s)).
Definition set_blacklist b : act unit := fun s =>
  Ok (tt, MkServer (s_conf s) (s_ipv4 s) (s_ipv6 s) (s_want s) (s_rt4 s) (s_rt6 s) (s_tokens s) (s_tokenPeers s)
            (s_trans s) (s_store s) b (s_out s)).

(** A loop over a list. *)
Fixpoint for_each {X} (f : X -> act unit) (l : list X) : act unit :=
  match l with [] => mret tt | x :: l' => f x ≫= fun _ => for_each f l' end.

(** ** Configuration *)
Definition setBasicDefaults (random : bytes) (c : Config) : Config :=
  MkConfig (if decide (c_K c <= 0) then 8 else c_K c) (if Hash.IsZero (c_ID c) then random else c_ID c)
    (c_ReadOnly c) (c_SearchDepth c) (c_HandleInMessage c) (c_HandleOutMessage c).
Definition setNetworkDefaults (c : Config) : Config :=
  MkConfig (c_K c) (c_ID c) (c_ReadOnly c) (if decide (c_SearchDepth c < 1) then 8 else c_SearchDepth c)
    (c_HandleInMessage c) (c_HandleOutMessage c).
Definition Config_in (a : addr) (m : Message) : bool * Message := (true, m).
Definition Config_out (a : addr) (m : Message) : bool * option string * Message := (false, None, m).
Definition Config_set (random : bytes) (c : Config) : Config := setNetworkDefaults (setBasicDefaults random c).

Inductive IPProtocolStack := IPv4Protocol | IPv6Protocol.

Definition buildWantAndFlags (ps : list IPProtocolStack) : bool * bool * list bytes :=
  fold_left (fun '(v4, v6, want) p =>
    match p with
    | IPv4Protocol => (true, v6, want ++ [WantNodes])
    | IPv6Protocol => (v4, true, want ++ [WantNodes6])
    end) ps (false, false, []).

(** [detectIPProtocols] on the local address; a nil IP is zero. *)
Definition detectIPProtocols (local : addr) : res (list IPProtocolStack) :=
  match SplitHostPort (addr_String local) with
  | Ok (host, _) =>
      let ip := default [] (ParseIP host) in
      Ok (if IpIsZero ip then [IPv4Protocol; IPv6Protocol]
          else match To4 ip with Some _ => [IPv4Protocol] | None => [IPv6Protocol] end)
  | Err e => Panic e
  | Panic p => Panic p
  | NoFuel => NoFuel
  end.

(** The server with its two tables; [token] is the first random token. *)
Definition with_tables (conf : Config) (ipv4 ipv6 : bool) (want : list bytes) (token : bytes) (bl : B) (rt4 rt6 : Routing.routingTable) : Server :=
  MkServer conf ipv4 ipv6 want rt4 rt6 (Tokens.newTokenManager token) PeerStore.newTokenPeerManager
    Transactions.newTransactionManager DataStore.NewDataStore bl [].

(** [NewServer] and [initializeServer]: the tables are opened from the storage;
    [random] is a random id, [local] the address of the socket. *)
Definition initializeServer {S} `{!Routing.RoutingTableStorage (A := addr) S} (conf : Config) (ipv4 ipv6 : bool) (want : list bytes)
    (token : bytes) (bl : B) (now : Z) (st : S) : res Server * S :=
  let '(r4, st) := Routing.openRoutingTable (c_K conf) (c_ID conf) false now st in
  match r4 with
  | Ok rt4 =>
      let '(r6, st) := Routing.openRoutingTable (c_K conf) (c_ID conf) true now st in
      (rt6 ← r6; Ok (with_tables conf ipv4 ipv6 want token bl rt4 rt6), st)
  | Err e => (Err e, st) | Panic p => (Panic p, st) | NoFuel => (NoFuel, st)
  end.
Definition NewServer {S} `{!Routing.RoutingTableStorage (A := addr) S} (random token : bytes) (local : addr) (config : Config)
    (protocols : list IPProtocolStack) (bl : B) (now : Z) (st : S) : res Server * S :=
  let conf := Config_set random config in
  match (if decide (protocols = []) then detectIPProtocols local else Ok protocols) with
  | Ok protocols =>
      let '(ipv4, ipv6, want) := buildWantAndFlags protocols in
      initializeServer conf ipv4 ipv6 want token bl now st
  | Err e => (Err e, st) | Panic p => (Panic p, st) | NoFuel => (NoFuel, st)
  end.

(** ** Sending *)
Definition blacklist_add (now : Z) (ip : bytes) (port : Z) : act unit :=
  s ← get_server; set_blacklist (Blacklist.bl_Add now ip port (s_blacklist s)).

Definition _send (now : Z) (raddr : addr) (m : Message) : act (bool * option string) :=
  if decide (m_T m = [] \/ m_Y m = []) then panic "DHT message t or y must not be empty"
  else
    buf ← lift (match EncodeMessage m with Err e => Panic e | r => r end);
    match WriteTo raddr buf with
    | Ok n =>
        emit (Sent raddr m) ≫= fun _ =>
        mret (true, if decide (n <> len buf) then Some "short write"%string else None)
    | Err _ =>
        blacklist_add now (utils_IPAddr raddr) 0 ≫= fun _ => mret (false, Some "error writing"%string)
    | Panic p => panic p
    | NoFuel => fun _ => NoFuel
    end.

Definition send (now : Z) (raddr : addr) (m : Message) : act (bool * option string) :=
  s ← get_server;
  let m := MkMessage (m_T m) (m_Y m) (m_Q m) (m_A m) (m_R m) (m_E m) (c_ReadOnly (s_conf s)) in
  let '(wrote, err, m) := c_HandleOutMessage (s_conf s) raddr m in
  match wrote, err with
  | false, None => _send now raddr m
  | _, _ => mret (wrote, err)
  end.

Definition sendError (now : Z) (raddr : addr) (tid reason : bytes) (code : Z) : act unit :=
  send now raddr (NewErrorMsg tid code reason) ≫= fun _ => mret tt.

Definition with_rID (r : ResponseResult) (id : bytes) : ResponseResult :=
  MkResponse id (r_Nodes r) (r_Nodes6 r) (r_Token r) (r_Values r) (r_Samples r) (r_Num r) (r_Interval r)
    (r_V r) (r_K r) (r_Sig r) (r_Seq r).

Definition reply (now : Z) (raddr : addr) (tid : bytes) (r : ResponseResult) : act unit :=
  s ← get_server;
  send now raddr (NewResponseMsg tid (with_rID r (c_ID (s_conf s)))) ≫= fun _ => mret tt.

Definition isDisabled (s : Server) (raddr : addr) : bool :=
  if IsIPv6Addr raddr then negb (s_ipv6 s) else negb (s_ipv4 s).

Definition with_qID (a : QueryArg) (id : bytes) : QueryArg :=
  MkQueryArg id (q_Target a) (q_InfoHash a) (q_Port a) (q_Token a) (q_ImpliedPort a) (q_Wants a) (q_V a) (q_K a)
    (q_Sig a) (q_Seq a) (q_Salt a) (q_CAS a).

Definition with_arg (t : transaction) (id : bytes) (a : QueryArg) : transaction :=
  Transactions.MkTransaction id (Transactions.t_Query t) a (Transactions.t_Addr t) (Transactions.t_Time t)
    (Transactions.t_Depth t) (Transactions.t_Visited t) (Transactions.t_Callback t) (Transactions.t_OnError t)
    (Transactions.t_OnTimeout t) (Transactions.t_OnResponse t).

(** [request]: the error, if any. *)
Definition request (now : Z) (t : transaction) : act (option string) :=
  s ← get_server;
  if isDisabled s (Transactions.t_Addr t) then mret (Some errUnsupportedIPProtocol)
  else
    id ← (if decide (Transactions.t_ID t = []) then
            let '(id, tm) := Transactions.GetTransactionID (s_trans s) in set_trans tm ≫= fun _ => mret id
          else mret (Transactions.t_ID t));
    let t := with_arg t id (with_qID (Transactions.t_Arg t) (c_ID (s_conf s))) in
    '(_, err) ← send now (Transactions.t_Addr t) (NewQueryMsg id (Transactions.t_Query t) (Transactions.t_Arg t));
    match err with
    | Some e => mret (Some e)
    | None =>
        s ← get_server; set_trans (Transactions.AddTransaction t (s_trans s)) ≫= fun _ => mret None
    end.

(** ** Nodes *)
Definition Server_AddNode (now : Z) (node : Node) : act Routing.AddStatus :=
  s ← get_server;
  if IsIPv6 (node_Addr node) then
    if s_ipv6 s then '(r, rt) ← lift (Routing.AddNode node now (s_rt6 s)); set_rt6 rt ≫= fun _ => mret r
    else mret Routing.NodeNotAdded
  else if s_ipv4 s then '(r, rt) ← lift (Routing.AddNode node now (s_rt4 s)); set_rt4 rt ≫= fun _ => mret r
  else mret Routing.NodeNotAdded.

Definition addNode (now : Z) (a : addr) (id : bytes) (ro : bool) : act Routing.AddStatus :=
  if ro then mret Routing.NodeNotAdded
  else
    r ← Server_AddNode now (NewNodeByUDPAddr id a);
    match r with
    | Routing.NodeExistAndChanged => blacklist_add now (utils_IPAddr a) (utils_Port a) ≫= fun _ => mret r
    | _ => mret r
    end.

Definition addNode2 (now : Z) (node : Node) (ro : bool) : act Routing.AddStatus :=
  if ro then mret Routing.NodeNotAdded else Server_AddNode now node.

(** ** Queries *)
Definition closest4 (target : bytes) (s : Server) : list Node := Routing.Closest target (c_K (s_conf s)) (s_rt4 s).
Definition closest6 (target : bytes) (s : Server) : list Node := Routing.Closest target (c_K (s_conf s)) (s_rt6 s).

Definition with_nodes (r : ResponseResult) (n4 n6 : list Node) : ResponseResult :=
  MkResponse (r_ID r) n4 n6 (r_Token r) (r_Values r) (r_Samples r) (r_Num r) (r_Interval r)
    (r_V r) (r_K r) (r_Sig r) (r_Seq r).

Definition populateNodesBasedOnAddress (s : Server) (raddr : addr) (infoHash : bytes) (r : ResponseResult) : ResponseResult :=
  if IsIPv6Addr raddr then with_nodes r (r_Nodes r) (closest6 infoHash s) else with_nodes r (closest4 infoHash s) (r_Nodes6 r).

Definition populateRequestedNodes (s : Server) (n4 n6 : bool) (infoHash : bytes) (r : ResponseResult) : ResponseResult :=
  let r := if n4 then with_nodes r (closest4 infoHash s) (r_Nodes6 r) else r in
  if n6 then with_nodes r (r_Nodes r) (closest6 infoHash s) else r.

(** The choice every query handler makes. *)
Definition populate (s : Server) (raddr : addr) (arg : QueryArg) (target : bytes) (r : ResponseResult) : ResponseResult :=
  let n4 := ContainsWant arg WantNodes in
  let n6 := ContainsWant arg WantNodes6 in
  if negb n4 && negb n6 then populateNodesBasedOnAddress s raddr target r else populateRequestedNodes s n4 n6 target r.

Definition populatePeersResponse (s : Server) (n4 n6 : bool) (raddr : addr) (infoHash : bytes) : res (list (Address (I := I))) :=
  let get := fun ipv6 => PeerStore.GetPeers range infoHash (c_K (s_conf s)) ipv6 (s_tokenPeers s) in
  if negb n4 && negb n6 then get (IsIPv6Addr raddr)
  else
    values ← (if n4 then get false else Ok []);
    if n6 then values6 ← get true; Ok (values ++ values6) else Ok values.

Definition handleFindNodeQuery (now : Z) (raddr : addr) (m : Message) : act unit :=
  s ← get_server; reply now raddr (m_T m) (populate s raddr (m_A m) (q_InfoHash (m_A m)) zeroResponse).

Definition handleGetPeersQuery (now : Z) (raddr : addr) (m : Message) : act unit :=
  s ← get_server;
  let n4 := ContainsWant (m_A m) WantNodes in
  let n6 := ContainsWant (m_A m) WantNodes6 in
  values ← lift (populatePeersResponse s n4 n6 raddr (q_InfoHash (m_A m)));
  let r := MkResponse Hash.zeroHash [] [] [] values [] 0 0 None None None 0 in
  let r := if decide (len values = 0) then populate s raddr (m_A m) (q_InfoHash (m_A m)) r else r in
  let '(token, tm) := Tokens.Token raddr now (s_tokens s) in
  set_tokens tm ≫= fun _ =>
  let r := MkResponse (r_ID r) (r_Nodes r) (r_Nodes6 r) token (r_Values r) (r_Samples r) (r_Num r) (r_Interval r)
    (r_V r) (r_K r) (r_Sig r) (r_Seq r) in
  reply now raddr (m_T m) r ≫= fun _ =>
  emit (OnSearch (Hash.HexString (q_InfoHash (m_A m))) raddr).

Definition handleAnnouncePeerQuery (now : Z) (raddr : addr) (m : Message) : act unit :=
  s ← get_server;
  if Tokens.Check raddr (q_Token (m_A m)) (s_tokens s) then mret tt
  else
    reply now raddr (m_T m) zeroResponse ≫= fun _ =>
    emit (OnTorrent (Hash.HexString (q_InfoHash (m_A m))) (Some raddr)).

Definition handleSampleInfoHashQuery (now : Z) (raddr : addr) (m : Message) : act unit :=
  s ← get_server;
  '(samples, num) ← lift (PeerStore.GetSampleInfoHashes range (q_Target (m_A m)) (c_K (s_conf s)) (s_tokenPeers s));
  let r := MkResponse Hash.zeroHash [] [] [] [] samples num 300 None None None 0 in
  reply now raddr (m_T m) (populate s raddr (m_A m) (q_Target (m_A m)) r).

(** The code an error of [Put] is answered with. The comparisons with the
    prefixed texts compare a string with a longer one. *)
Definition put_error_code (err : string) : Z :=
  if decide (err = "invalid signature"%string) then ErrorCodeInvalidSignature
  else if decide (err = String.append "CAS mismatch: " err) then ErrorCodeCasHashMismatched
  else if decide (err = String.append "sequence number must be greater than current: " err)
  then ErrorCodeSequenceNumberLessThanCurrent
  else ErrorCodeServer.

Definition handlePutQuery (now : Z) (raddr : addr) (m : Message) : act unit :=
  let a := m_A m in
  let V := default [] (q_V a) in
  let Salt := default [] (q_Salt a) in
  if decide (DataStore.MaxValueSize < len V) then
    sendError now raddr (m_T m) (bs "value too large") ErrorCodeMessageValueFieldTooBig
  else if decide (DataStore.MaxSaltSize < len Salt) then
    sendError now raddr (m_T m) (bs "salt too large") ErrorCodeSaltFieldTooBig
  else
    s ← get_server;
    let K := default [] (q_K a) in
    let item := DataStore.MkItem V (bool_decide (0 < len K)) K (default [] (q_Sig a)) (q_Seq a) Salt (q_CAS a)
      Routing.zeroTime Hash.zeroHash in
    match DataStore.Put Verify now item (s_store s) with
    | Ok ds => set_store ds ≫= fun _ => reply now raddr (m_T m) zeroResponse
    | Err e => sendError now raddr (m_T m) (bs e) (put_error_code e)
    | Panic p => panic p
    | NoFuel => fun _ => NoFuel
    end.

Definition handleGetQuery (now : Z) (raddr : addr) (m : Message) : act unit :=
  s ← get_server;
  let r := match DataStore.Get now (q_Target (m_A m)) (s_store s) with
    | Some item =>
        if DataStore.IsMutable item
        then MkResponse Hash.zeroHash [] [] [] [] [] 0 0 (Some (DataStore.Value item)) (Some (DataStore.PublicKey item))
               (Some (DataStore.Signature item)) (DataStore.Seq item)
        else MkResponse Hash.zeroHash [] [] [] [] [] 0 0 (Some (DataStore.Value item)) None None 0
    | None => zeroResponse
    end in
  reply now raddr (m_T m) (populate s raddr (m_A m) (q_Target (m_A m)) r).

Definition handleQuery (now : Z) (raddr : addr) (m : Message) : act unit :=
  if decide (m_Q m = queryMethodPing) then reply now raddr (m_T m) zeroResponse
  else if decide (m_Q m = queryMethodFindNode) then handleFindNodeQuery now raddr m
  else if decide (m_Q m = queryMethodGetPeers) then handleGetPeersQuery now raddr m
  else if decide (m_Q m = queryMethodAnnouncePeer) then handleAnnouncePeerQuery now raddr m
  else if decide (m_Q m = queryMethodSampleInfoHash) then handleSampleInfoHashQuery now raddr m
  else if decide (m_Q m = queryMethodPut) then handlePutQuery now raddr m
  else if decide (m_Q m = queryMethodGet) then handleGetQuery now raddr m
  else sendError now raddr (m_T m) (bs "unknown query method") ErrorCodeMethodUnknown.

Definition handleQueryMessage (now : Z) (raddr : addr) (m : Message) : act unit :=
  if Hash.IsZero (q_ID (m_A m)) then mret tt
  else
    r ← addNode now raddr (q_ID (m_A m)) (m_RO m);
    s ← get_server;
    match r with
    | Routing.NodeExistAndChanged => mret tt
    | _ => if c_ReadOnly (s_conf s) then mret tt else handleQuery now raddr m
    end.

(** ** Queries the server sends *)
Definition Done (t : transaction) (r : Result) : act unit :=
  match Transactions.t_Callback t with
  | Some (MUser cb) =>
      emit (Called cb (MkResult (Some (Transactions.t_Addr t)) (res_Code r) (res_Reason r) (res_Timeout r) (res_Peers r)))
  | _ => mret tt
  end.

Definition emptyResult : Result := MkResult None 0 [] false [].

Definition newTransaction (now : Z) (a : addr) (q : bytes) (qa : QueryArg) (cbs : list nat)
  (onResponse : method) (depth : Z) (visited : list bytes) : transaction :=
  let t := Transactions.newTransaction MOnError MOnTimeout MNoop now a q qa (map MUser cbs) in
  Transactions.MkTransaction (Transactions.t_ID t) (Transactions.t_Query t) (Transactions.t_Arg t) (Transactions.t_Addr t)
    (Transactions.t_Time t) depth visited (Transactions.t_Callback t) (Transactions.t_OnError t) (Transactions.t_OnTimeout t)
    (Some onResponse).

(** A query to the nil address, which [Address.Addr] returns for the address
    types it does not know: unless IPv4 is off, writing to it, logging it or
    recording its transaction calls a method on nil. *)
Definition request_nil : act (option string) :=
  s ← get_server;
  if s_ipv4 s then panic nilDeref else mret (Some errUnsupportedIPProtocol).

Definition query_arg_target (target : bytes) (want : list bytes) : QueryArg :=
  MkQueryArg Hash.zeroHash target Hash.zeroHash 0 [] false want None None None 0 None 0.
Definition query_arg_infohash (info : bytes) (want : list bytes) : QueryArg :=
  MkQueryArg Hash.zeroHash Hash.zeroHash info 0 [] false want None None None 0 None 0.

Definition getPeers (now : Z) (info : bytes) (a : Address) (depth : Z) (ids : list bytes) (cbs : list nat) : act unit :=
  s ← get_server;
  _ ← match Addr a with
      | Some ua => request now (newTransaction now ua queryMethodGetPeers (query_arg_infohash info (s_want s)) cbs MGetPeers depth ids)
      | None => request_nil
      end;
  mret tt.

Definition Ping (now : Z) (a : addr) (cbs : list nat) : act (option string) :=
  request now (newTransaction now a queryMethodPing zeroQueryArg cbs MPing 0 []).

(** [findNode] does not put [depth] into the transaction. *)
Definition findNode (now : Z) (target : bytes) (a : option addr) (depth : Z) (ids : list bytes) : act (option string) :=
  s ← get_server;
  match a with
  | Some ua => request now (newTransaction now ua queryMethodFindNode (query_arg_target target (s_want s)) [] MFindNode 0 ids)
  | None => request_nil
  end.

Definition FindNode (now : Z) (a : addr) (target : bytes) : act (option string) :=
  if Hash.IsZero target then mret (Some "the target node id is ZERO"%string)
  else s ← get_server; findNode now target (Some a) (c_SearchDepth (s_conf s)) [].

Definition collectClosestNodes (infohash : bytes) (s : Server) : list Node :=
  (if s_ipv4 s then closest4 infohash s else []) ++ (if s_ipv6 s then closest6 infohash s else []).

Definition Server_GetPeers (now : Z) (infohash : bytes) (cbs : list nat) : act unit :=
  if Hash.IsZero infohash then panic "the infohash of the torrent is ZERO"
  else
    s ← get_server;
    let nodes := collectClosestNodes infohash s in
    if decide (nodes = []) then
      match cbs with cb :: _ => emit (Called cb emptyResult) | [] => mret tt end
    else
      let ids := map Routing.n_ID nodes in
      for_each (fun node => getPeers now infohash (node_Addr node) (c_SearchDepth (s_conf s)) ids cbs) nodes.

(** [AnnouncePeer]: the nodes the query was sent to. *)
Fixpoint announce_loop (now : Z) (infohash : bytes) (port : Z) (impliedPort : bool) (nodes : list Node) : act (list Node) :=
  match nodes with
  | [] => mret []
  | node :: nodes' =>
      s ← get_server;
      match Addr (node_Addr node) with
      | None => panic nilDeref
      | Some a =>
          let token := PeerStore.Get infohash a (s_tokenPeers s) in
          if decide (token = []) then announce_loop now infohash port impliedPort nodes'
          else
            let arg := MkQueryArg Hash.zeroHash Hash.zeroHash infohash port token impliedPort [] None None None 0 None 0 in
            err ← request now (newTransaction now a queryMethodAnnouncePeer arg [] MNoop 0 []);
            rest ← announce_loop now infohash port impliedPort nodes';
            mret (match err with None => node :: rest | Some _ => rest end)
      end
  end.

Definition AnnouncePeer (now : Z) (infohash : bytes) (port : Z) (impliedPort : bool) : act (list Node) :=
  if Hash.IsZero infohash then panic "the infohash of the torrent is ZERO"
  else s ← get_server; announce_loop now infohash port impliedPort (collectClosestNodes infohash s).

Definition Bootstrap (now : Z) (addrs : list bytes) : act unit :=
  s ← get_server;
  if (s_ipv4 s && bool_decide (Routing.Len (s_rt4 s) = 0)) || (s_ipv6 s && bool_decide (Routing.Len (s_rt6 s) = 0)) then
    for_each (fun a =>
      match NewAddressesFromString (I := I) LookupIP a with
      | Ok addrs =>
          for_each (fun x =>
            if Hash.IsZero (c_ID (s_conf s)) then mret tt
            else findNode now (c_ID (s_conf s)) (Addr x) (c_SearchDepth (s_conf s)) [] ≫= fun _ => mret tt) addrs
      | Err _ => mret tt
      | Panic p => panic p
      | NoFuel => fun _ => NoFuel
      end) addrs
  else mret tt.

(** ** Answers *)

(** [processNodeList], also [processFindNodeList]: [ids] is the list of visited
    ids before the call, [nodes] and [updatedIds] what the pointers hold. *)
Fixpoint processNodeList (now : Z) (nodeList : list Node) (target : bytes) (ids : list bytes) (ro found : bool)
  (nodes : list Node) (updatedIds : list bytes) : act (bool * list Node * list bytes) :=
  match nodeList with
  | [] => mret (found, nodes, updatedIds)
  | node :: nodeList' =>
      let found := found || bool_decide (Routing.n_ID node = target) in
      if Hash.Contains ids (Routing.n_ID node) then processNodeList now nodeList' target ids ro found nodes updatedIds
      else
        r ← addNode2 now node ro;
        match r with
        | Routing.NodeAdded =>
            processNodeList now nodeList' target ids ro found (nodes ++ [node]) (updatedIds ++ [Routing.n_ID node])
        | _ => processNodeList now nodeList' target ids ro found nodes updatedIds
        end
  end.

(** [processResponseNodes], also [processFoundNodes]. *)
Definition processResponseNodes (now : Z) (t : transaction) (target : bytes) (m : Message) : act (bool * list Node * list bytes) :=
  '(found, nodes, ids) ← processNodeList now (r_Nodes (m_R m)) target (Transactions.t_Visited t) (m_RO m) false [] (Transactions.t_Visited t);
  if found : bool then mret (found, nodes, ids)
  else processNodeList now (r_Nodes6 (m_R m)) target ids (m_RO m) false nodes ids.

Definition user_callbacks (t : transaction) : list nat :=
  match Transactions.t_Callback t with Some (MUser cb) => [cb] | _ => [] end.

Definition storeTokenIfPresent (now : Z) (m : Message) (a : addr) : act unit :=
  if decide (r_Token (m_R m) <> []) then
    s ← get_server; set_tokenPeers (PeerStore.Set_ (r_ID (m_R m)) a (r_Token (m_R m)) now (s_tokenPeers s))
  else mret tt.

Definition handlePeersIfFound (t : transaction) (m : Message) : act bool :=
  if decide (0 < len (r_Values (m_R m))) then
    Done t (MkResult None 0 [] false (r_Values (m_R m))) ≫= fun _ =>
    for_each (fun a => emit (OnTorrent (Hash.HexString (q_InfoHash (Transactions.t_Arg t))) (a_IP a))) (r_Values (m_R m)) ≫= fun _ =>
    mret true
  else mret false.

Definition onGetPeersResp (now : Z) (t : transaction) (a : addr) (m : Message) : act unit :=
  storeTokenIfPresent now m a ≫= fun _ =>
  peers ← handlePeersIfFound t m;
  if peers : bool then mret tt
  else
    Done t emptyResult ≫= fun _ =>
    let depth := Transactions.t_Depth t - 1 in
    if decide (1 <= depth) then
      '(found, nodes, ids) ← processResponseNodes now t (q_InfoHash (Transactions.t_Arg t)) m;
      if (found : bool) || bool_decide (nodes = []) then mret tt
      else for_each (fun node => getPeers now (q_InfoHash (Transactions.t_Arg t)) (node_Addr node) depth ids (user_callbacks t)) nodes
    else mret tt.

Definition onFindNodeResp (now : Z) (t : transaction) (a : addr) (m : Message) : act unit :=
  let depth := Transactions.t_Depth t - 1 in
  if decide (1 <= depth) then
    '(found, nodes, ids) ← processResponseNodes now t (q_Target (Transactions.t_Arg t)) m;
    if (found : bool) || bool_decide (nodes = []) then mret tt
    else for_each (fun node => findNode now (q_Target (Transactions.t_Arg t)) (Addr (node_Addr node)) depth ids ≫= fun _ => mret tt) nodes
  else mret tt.

Definition onError (t : transaction) (code : Z) (reason : bytes) : act unit := Done t (MkResult None code reason false []).
Definition onTimeout (t : transaction) : act unit := Done t (MkResult None 0 [] true []).

Definition OnResponse (now : Z) (t : transaction) (raddr : addr) (m : Message) : act unit :=
  match Transactions.t_OnResponse t with
  | Some MPing => Done t emptyResult
  | Some MGetPeers => onGetPeersResp now t raddr m
  | Some MFindNode => onFindNodeResp now t raddr m
  | _ => mret tt
  end.

Definition pop (tid : bytes) (raddr : addr) : act (option transaction) :=
  s ← get_server;
  let '(t, tm) := Transactions.PopTransaction tid raddr (s_trans s) in set_trans tm ≫= fun _ => mret t.

Definition processTransaction (now : Z) (raddr : addr) (m : Message) : act unit :=
  t ← pop (m_T m) raddr;
  match t with Some t => OnResponse now t raddr m | None => mret tt end.

Definition handleResponseMessage (now : Z) (raddr : addr) (m : Message) : act unit :=
  if Hash.IsZero (r_ID (m_R m)) then mret tt
  else
    r ← addNode now raddr (r_ID (m_R m)) (m_RO m);
    match r with Routing.NodeExistAndChanged => mret tt | _ => processTransaction now raddr m end.

Definition handleErrorMessage (raddr : addr) (m : Message) : act unit :=
  t ← pop (m_T m) raddr;
  match t with Some t => onError t (e_Code (m_E m)) (e_Reason (m_E m)) | None => mret tt end.

Definition handleMessage (now : Z) (raddr : addr) (m : Message) : act unit :=
  s ← get_server;
  let '(go, m) := c_HandleInMessage (s_conf s) raddr m in
  if negb go then mret tt
  else if decide (m_Y m = bs "q") then handleQueryMessage now raddr m
  else if decide (m_Y m = bs "r") then handleResponseMessage now raddr m
  else if decide (m_Y m = bs "e") then handleErrorMessage raddr m
  else mret tt.

Definition handlePacket (now : Z) (raddr : addr) (data : bytes) : act unit :=
  s ← get_server;
  if isDisabled s raddr then mret tt
  else if Blacklist.bl_In (utils_IPAddr raddr) (utils_Port raddr) (s_blacklist s) then mret tt
  else
    match DecodeMessage LookupIP data with
    | Ok msg => if decide (m_T msg = []) then mret tt else handleMessage now raddr msg
    | Err _ => mret tt
    | Panic p => panic p
    | NoFuel => fun _ => NoFuel
    end.
End DhtServer.

End DhtServer.
