(* ===== verification/DhtServerFacts.v ===== *)
(** * Properties of the DHT server *)

From S2P Require Import Prelude Strconv Bencode BencodeFacts BencodeTyped Sha1 Hash Net NetFacts Address Routing RoutingFacts Krpc KrpcFacts DhtState DataStore DhtServer.
Import Bencode BencodeTyped Net Address Krpc KrpcFacts DhtServer.

Module DhtServerFacts.

Section Facts.
Context {I : Type} `{I2PKeys I}.
Context {B : Type} `{Blacklist.Blacklist B}.
Context (LookupIP : bytes -> res (list bytes)).
Context (range : forall V, gmap bytes V -> list (bytes * V)).
Context (Verify : bytes -> bytes -> bytes -> bool).
Context (WriteTo : netAddr (I := I) -> bytes -> res Z).

Abbreviation Server := (Server (I := I) (B := B)).
Abbreviation act := (act (I := I) (B := B)).
Abbreviation addr := (netAddr (I := I)).

(** ** Running a handler *)
Lemma run_bind {X Y} (m : act X) (f : X -> act Y) s :
  act_bind X Y f m s = match m s with Ok (x, s') => f x s' | Err e => Err e | Panic p => Panic p | NoFuel => NoFuel end.
Proof. unfold act_bind. by destruct (m s) as [[x s']|e|p|]. Qed.

Lemma run_bind_Ok {X Y} (m : act X) (f : X -> act Y) s r :
  act_bind X Y f m s = Ok r -> exists x s', m s = Ok (x, s') /\ f x s' = Ok r.
Proof. rewrite run_bind. destruct (m s) as [[x s']|e|p|]; try discriminate. eauto. Qed.

(** Opens the innermost step of a handler in the goal. *)
Ltac step := unfold mbind, mret; rewrite ?run_bind; cbn beta iota.

Definition sents (os : list (output (I := I))) : list (addr * Message (I := I)) :=
  omap (fun o => match o with Sent a m => Some (a, m) | _ => None end) os.

(** ** Packets go to the sender of the query only *)

(** [act] leaves the configuration alone and writes at most [n] packets, all
    of them to [to] and with the transaction id [tid]. *)
Definition answers (to : addr) (tid : bytes) (n : nat) {X} (m : act X) : Prop :=
  forall s x s', c_HandleOutMessage (s_conf s) = Config_out -> m s = Ok (x, s') ->
    s_conf s' = s_conf s /\
    exists os, s_out s' = s_out s ++ os /\ (length (sents os) <= n)%nat /\
      Forall (fun p => p.1 = to /\ m_T p.2 = tid) (sents os).

Lemma sents_app l k : sents (l ++ k) = sents l ++ sents k.
Proof. unfold sents. by rewrite omap_app. Qed.

Lemma answers_ret to tid {X} (x : X) : answers to tid 0 (fun s => Ok (x, s)).
Proof. intros s y s' _ [= <- <-]. split; [done|]. exists []. rewrite app_nil_r. by repeat constructor. Qed.

Lemma answers_bind to tid n k {X Y} (m : act X) (f : X -> act Y) :
  answers to tid n m -> (forall x, answers to tid k (f x)) -> answers to tid (n + k) (act_bind X Y f m).
Proof.
  intros Hm Hf s y s2 Hc (x & s1 & E1 & E2)%run_bind_Ok.
  destruct (Hm s x s1 Hc E1) as (C1 & os1 & O1 & L1 & F1).
  destruct (Hf x s1 y s2) as (C2 & os2 & O2 & L2 & F2); [by rewrite C1|done|].
  split; [by rewrite C2|]. exists (os1 ++ os2). rewrite O2, O1, sents_app, app_assoc, length_app.
  split_and!; [done|lia|by apply Forall_app].
Qed.

Lemma answers_le to tid n k {X} (m : act X) : answers to tid n m -> (n <= k)%nat -> answers to tid k m.
Proof.
  intros Hm Hle s x s' Hc E. destruct (Hm s x s' Hc E) as (C & os & O & L & F). split; [done|].
  exists os. split_and!; [done|lia|done].
Qed.

Lemma answers_bind0 to tid n {X Y} (m : act X) (f : X -> act Y) :
  answers to tid 0 m -> (forall x, answers to tid n (f x)) -> answers to tid n (act_bind X Y f m).
Proof. intros. by apply (answers_bind to tid 0 n). Qed.

(** Operations that neither write nor touch the configuration. *)
Definition silent {X} (m : act X) : Prop := forall s x s', m s = Ok (x, s') -> s_conf s' = s_conf s /\ s_out s' = s_out s.

Lemma silent_answers to tid {X} (m : act X) : silent m -> answers to tid 0 m.
Proof.
  intros Hm s x s' _ E. destruct (Hm s x s' E) as [C O]. split; [done|]. exists []. rewrite O, app_nil_r. by repeat constructor.
Qed.

Lemma silent_bind {X Y} (m : act X) (f : X -> act Y) : silent m -> (forall x, silent (f x)) -> silent (act_bind X Y f m).
Proof.
  intros Hm Hf s y s2 (x & s1 & E1 & E2)%run_bind_Ok. destruct (Hm _ _ _ E1), (Hf _ _ _ _ E2). split; congruence.
Qed.

Lemma silent_get : silent get_server.
Proof. by intros s x s' [= <- <-]. Qed.
Lemma silent_ret {X} (x : X) : silent (fun s => Ok (x, s)).
Proof. by intros s y s' [= <- <-]. Qed.
Lemma silent_lift {X} (r : res X) : silent (lift r).
Proof. intros s x s'. unfold lift. destruct r; try discriminate. by intros [= <- <-]. Qed.
Lemma silent_panic {X} p : silent (panic (A := X) p).
Proof. by intros s x s'. Qed.
Lemma silent_rt4 rt : silent (set_rt4 rt).
Proof. by intros s x s' [= <- <-]. Qed.
Lemma silent_rt6 rt : silent (set_rt6 rt).
Proof. by intros s x s' [= <- <-]. Qed.
Lemma silent_tokens t : silent (set_tokens t).
Proof. by intros s x s' [= <- <-]. Qed.
Lemma silent_store d : silent (set_store d).
Proof. by intros s x s' [= <- <-]. Qed.
Lemma silent_blacklist b : silent (set_blacklist b).
Proof. by intros s x s' [= <- <-]. Qed.
End Facts.

Create HintDb silent_db.
#[export] Hint Resolve silent_get silent_ret silent_lift silent_panic silent_rt4 silent_rt6 silent_tokens silent_store
  silent_blacklist silent_bind silent_answers answers_ret : silent_db.

(** Splits every branch of a handler and follows its binds. *)
Ltac silent := repeat first
  [ progress (unfold mbind, mret, act_ret)
  | apply silent_bind; [|intros]
  | progress case_match
  | solve [eauto with silent_db] ].

Section Answers.
Context {I : Type} `{I2PKeys I}.
Context {B : Type} `{Blacklist.Blacklist B}.
Context (range : forall V, gmap bytes V -> list (bytes * V)).
Context (Verify : bytes -> bytes -> bytes -> bool).
Context (WriteTo : netAddr (I := I) -> bytes -> res Z).
Abbreviation act := (act (I := I) (B := B)).
Abbreviation addr := (netAddr (I := I)).

Lemma silent_blacklist_add now ip port : silent (I := I) (B := B) (blacklist_add now ip port).
Proof. unfold blacklist_add. silent. Qed.

Lemma silent_Server_AddNode now node : silent (I := I) (B := B) (Server_AddNode now node).
Proof. unfold Server_AddNode. silent. Qed.

Lemma silent_addNode now a id ro : silent (I := I) (B := B) (addNode now a id ro).
Proof.
  unfold addNode. silent; try apply silent_Server_AddNode; try apply silent_blacklist_add.
Qed.

Lemma answers_emit to tid (o : output (I := I)) :
  (match o with Sent _ _ => False | _ => True end) -> answers (B := B) to tid 0 (emit o).
Proof.
  intros Ho s x s' _ [= <- <-]. split; [done|]. exists [o]. destruct o; [done|by repeat constructor..].
Qed.

Lemma answers_sent (to : addr) (m : Message (I := I)) : answers (B := B) to (m_T m) 1 (emit (Sent to m)).
Proof. intros s x s' _ [= <- <-]. split; [done|]. exists [Sent to m]. by repeat constructor. Qed.

Lemma answers_fail to tid {X} (m : act X) : (forall s, ~ exists r, m s = Ok r) -> answers to tid 0 m.
Proof. intros Hm s x s' _ E. destruct (Hm s). eauto. Qed.

Lemma answers__send now (to : addr) m : answers (B := B) to (m_T m) 1 (_send WriteTo now to m).
Proof.
  unfold _send, mbind, mret, act_ret. case_match; [apply (answers_le _ _ 0); [auto with silent_db|lia]|].
  apply answers_bind0; [auto with silent_db|]. intros buf. case_match.
  - apply (answers_bind _ _ 1 0); [apply answers_sent|]. intros. auto with silent_db.
  - apply (answers_le _ _ 0); [|lia]. apply answers_bind0; [apply silent_answers, silent_blacklist_add|].
    intros. auto with silent_db.
  - apply (answers_le _ _ 0); [auto with silent_db|lia].
  - apply (answers_le _ _ 0); [apply answers_fail|lia]. by intros s [? ?].
Qed.

Lemma answers_send now (to : addr) m : answers (B := B) to (m_T m) 1 (send WriteTo now to m).
Proof.
  intros s x s' Hc. unfold send, mbind. rewrite run_bind. cbn. rewrite Hc. cbn.
  intros E. exact (answers__send now to (MkMessage (m_T m) _ _ _ _ _ _) _ _ _ Hc E).
Qed.

Lemma answers_sendError now (to : addr) tid reason code : answers (B := B) to tid 1 (sendError WriteTo now to tid reason code).
Proof.
  apply (answers_bind _ _ 1 0); [apply (answers_send now to (NewErrorMsg tid code reason))|].
  intros. apply answers_ret.
Qed.

Lemma answers_reply now (to : addr) tid r : answers (B := B) to tid 1 (reply WriteTo now to tid r).
Proof.
  apply answers_bind0; [auto with silent_db|]. intros s. apply (answers_bind _ _ 1 0); [|intros; apply answers_ret].
  apply (answers_send now to (NewResponseMsg tid _)).
Qed.

Lemma answers_find_node now (to : addr) m : answers (B := B) to (m_T m) 1 (handleFindNodeQuery WriteTo now to m).
Proof. apply answers_bind0; [auto with silent_db|]. intros. apply answers_reply. Qed.

Lemma answers_get_peers now (to : addr) m : answers (B := B) to (m_T m) 1 (handleGetPeersQuery range WriteTo now to m).
Proof.
  apply answers_bind0; [auto with silent_db|]. intros s. apply answers_bind0; [auto with silent_db|]. intros vs.
  cbn zeta. case_match. apply answers_bind0; [auto with silent_db|]. intros _.
  apply (answers_bind _ _ 1 0); [apply answers_reply|]. intros _. by apply answers_emit.
Qed.

Lemma answers_announce_peer now (to : addr) m : answers (B := B) to (m_T m) 1 (handleAnnouncePeerQuery WriteTo now to m).
Proof.
  apply answers_bind0; [auto with silent_db|]. intros s. case_match.
  - apply (answers_le _ _ 0); [apply answers_ret|lia].
  - apply (answers_bind _ _ 1 0); [apply answers_reply|]. intros _. by apply answers_emit.
Qed.

Lemma answers_sample now (to : addr) m : answers (B := B) to (m_T m) 1 (handleSampleInfoHashQuery range WriteTo now to m).
Proof.
  apply answers_bind0; [auto with silent_db|]. intros s. apply answers_bind0; [auto with silent_db|].
  intros [samples num]. apply answers_reply.
Qed.

Lemma answers_put now (to : addr) m : answers (B := B) to (m_T m) 1 (handlePutQuery Verify WriteTo now to m).
Proof.
  unfold handlePutQuery. cbn zeta.
  destruct (decide _); [apply answers_sendError|]. destruct (decide _); [apply answers_sendError|].
  apply answers_bind0; [auto with silent_db|]. intros s. case_match.
  - apply answers_bind0; [auto with silent_db|]. intros _. apply answers_reply.
  - apply answers_sendError.
  - apply (answers_le _ _ 0); [auto with silent_db|lia].
  - apply (answers_le _ _ 0); [apply answers_fail|lia]. by intros ? [? ?].
Qed.

Lemma answers_get now (to : addr) m : answers (B := B) to (m_T m) 1 (handleGetQuery WriteTo now to m).
Proof. apply answers_bind0; [auto with silent_db|]. intros s. apply answers_reply. Qed.

Lemma answers_query now (to : addr) m : answers (B := B) to (m_T m) 1 (handleQuery range Verify WriteTo now to m).
Proof.
  unfold handleQuery.
  destruct (decide _); [apply answers_reply|]. destruct (decide _); [apply answers_find_node|].
  destruct (decide _); [apply answers_get_peers|]. destruct (decide _); [apply answers_announce_peer|].
  destruct (decide _); [apply answers_sample|]. destruct (decide _); [apply answers_put|].
  destruct (decide _); [apply answers_get|]. apply answers_sendError.
Qed.

Lemma answers_queryMessage now (to : addr) m :
  answers (B := B) to (m_T m) 1 (handleQueryMessage range Verify WriteTo now to m).
Proof.
  unfold handleQueryMessage. case_match; [apply (answers_le _ _ 0); [apply answers_ret|lia]|].
  apply answers_bind0; [apply silent_answers, silent_addNode|]. intros r.
  apply answers_bind0; [auto with silent_db|]. intros s.
  repeat case_match; try apply answers_query; (apply (answers_le _ _ 0); [apply answers_ret|lia]).
Qed.
End Answers.

(** ** A server with the default hooks and a socket that writes *)
Section Run.
Context {I : Type} `{I2PKeys I}.
Context {B : Type} `{Blacklist.Blacklist B}.
Context (LookupIP : bytes -> res (list bytes)).
Context (range : forall V, gmap bytes V -> list (bytes * V)).
Context (Verify : bytes -> bytes -> bytes -> bool).
Context (WriteTo : netAddr (I := I) -> bytes -> res Z).
Abbreviation Server := (Server (I := I) (B := B)).
Abbreviation addr := (netAddr (I := I)).
Abbreviation Message := (Message (I := I)).

(** The hooks [Config.set] installs, in a server that is not read only. *)
Record default_conf (c : Config (I := I)) : Prop := {
  dc_in : c_HandleInMessage c = Config_in;
  dc_out : c_HandleOutMessage c = Config_out;
  dc_rw : c_ReadOnly c = false;
  dc_id : Hash.hash_ok (c_ID c);
  dc_nonzero : Hash.IsZero (c_ID c) = false
}.

(** The socket writes every packet in full. *)
Definition writes : Prop := forall a b, WriteTo a b = Ok (len b).

Definition emitted (o : output (I := I)) (s : Server) : Server :=
  MkServer (s_conf s) (s_ipv4 s) (s_ipv6 s) (s_want s) (s_rt4 s) (s_rt6 s) (s_tokens s) (s_tokenPeers s)
    (s_trans s) (s_store s) (s_blacklist s) (s_out s ++ [o]).
Definition with_rt4 rt (s : Server) : Server :=
  MkServer (s_conf s) (s_ipv4 s) (s_ipv6 s) (s_want s) rt (s_rt6 s) (s_tokens s) (s_tokenPeers s)
    (s_trans s) (s_store s) (s_blacklist s) (s_out s).
Definition with_trans tm (s : Server) : Server :=
  MkServer (s_conf s) (s_ipv4 s) (s_ipv6 s) (s_want s) (s_rt4 s) (s_rt6 s) (s_tokens s) (s_tokenPeers s)
    tm (s_store s) (s_blacklist s) (s_out s).

Definition set_RO (m : Message) (ro : bool) : Message :=
  MkMessage (m_T m) (m_Y m) (m_Q m) (m_A m) (m_R m) (m_E m) ro.

Lemma send_ok now to m buf s : default_conf (s_conf s) -> writes -> m_T m <> [] -> m_Y m <> [] ->
  EncodeMessage (set_RO m false) = Ok buf ->
  send WriteTo now to m s = Ok ((true, None), emitted (Sent to (set_RO m false)) s).
Proof.
  intros Hc Hw Ht Hy He. unfold send, mbind. rewrite run_bind. cbn. rewrite (dc_out _ Hc), (dc_rw _ Hc). cbn.
  unfold _send. rewrite decide_False by (by intros [?|?]). unfold mbind. rewrite run_bind. unfold lift.
  fold (set_RO m false). rewrite He. rewrite bind_Ok, Hw. rewrite run_bind. unfold emit. rewrite decide_False by (intros Hn; by apply Hn). done.
Qed.

Lemma reply_ok now to tid r buf s : default_conf (s_conf s) -> writes -> tid <> [] ->
  EncodeMessage (NewResponseMsg tid (with_rID r (c_ID (s_conf s)))) = Ok buf ->
  reply WriteTo now to tid r s = Ok (tt, emitted (Sent to (NewResponseMsg tid (with_rID r (c_ID (s_conf s))))) s).
Proof.
  intros Hc Hw Ht He. unfold reply, mbind. rewrite run_bind. cbn [get_server]. cbv beta iota. rewrite run_bind.
  by rewrite (send_ok now to _ buf).
Qed.

(** ** Hearing from an IPv4 or I2P node *)

(** A packet from [a] gets past the guards of [handlePacket], and the node it
    claims to be is not known under another address. *)
Record heard (now : Z) (a : addr) (id : bytes) (s : Server) : Prop := {
  hd_v4 : s_ipv4 s = true;
  hd_addr : IsIPv6Addr a = false;
  hd_listed : Blacklist.bl_In (utils_IPAddr a) (utils_Port a) (s_blacklist s) = false;
  hd_table : RoutingFacts.table_ok (s_rt4 s);
  hd_same : forall r rt, Routing.AddNode (NewNodeByUDPAddr id a) now (s_rt4 s) = Ok (r, rt) -> r <> Routing.NodeExistAndChanged
}.

Lemma IsIPv6_node id (a : addr) : IsIPv6Addr a = false -> IsIPv6 (node_Addr (NewNodeByUDPAddr id a)) = false.
Proof. destruct a; cbn; by try done. Qed.

Lemma addNode_heard now a id s : heard now a id s -> Hash.hash_ok id ->
  exists r rt, r <> Routing.NodeExistAndChanged /\ RoutingFacts.table_ok rt /\
    Routing.AddNode (NewNodeByUDPAddr id a) now (s_rt4 s) = Ok (r, rt) /\
    addNode now a id false s = Ok (r, with_rt4 rt s).
Proof.
  intros [Hv Ha Hl Ht Hs] [Hid _].
  destruct (RoutingFacts.AddNode_ok (NewNodeByUDPAddr id a) now (s_rt4 s) Ht Hid) as (r & rt & E & Hrt & _).
  exists r, rt. split_and!; [by apply (Hs _ _ E)|done|done|]. specialize (Hs _ _ E).
  unfold addNode, mbind. rewrite run_bind. unfold Server_AddNode, mbind. rewrite run_bind. cbn [get_server]. cbv beta iota.
  rewrite (IsIPv6_node id a Ha), Hv, run_bind. unfold lift. rewrite E, bind_Ok. cbv beta iota. rewrite run_bind. unfold set_rt4.
  by destruct r.
Qed.

Lemma handlePacket_heard now a id m b s : default_conf (s_conf s) -> heard now a id s ->
  DecodeMessage LookupIP b = Ok m -> m_T m <> [] ->
  handlePacket LookupIP range Verify WriteTo now a b s =
    (if decide (m_Y m = bs "q") then handleQueryMessage range Verify WriteTo now a m s
     else if decide (m_Y m = bs "r") then handleResponseMessage WriteTo now a m s
     else if decide (m_Y m = bs "e") then handleErrorMessage a m s
     else Ok (tt, s)).
Proof.
  intros Hc [Hv Ha Hl _ _] Hd Ht. unfold handlePacket, mbind. rewrite run_bind. cbn [get_server]. cbv beta iota.
  unfold isDisabled. rewrite Ha, Hv, Hl, Hd. cbv beta iota. cbn [negb]. rewrite decide_False by done.
  unfold handleMessage, mbind. rewrite run_bind. cbn [get_server]. cbv beta iota. rewrite (dc_in _ Hc). cbn [Config_in negb].
  by repeat case_decide.
Qed.
(** *** What becomes of the sender *)

#[local] Instance AddStatus_eq : EqDecision Routing.AddStatus.
Proof. solve_decision. Defined.

(** A packet from [a], over IPv4 or I2P and not blacklisted, gets past the
    guards of [handlePacket]. *)
Record hears (a : addr) (s : Server) : Prop := {
  hs_v4 : s_ipv4 s = true;
  hs_addr : IsIPv6Addr a = false;
  hs_listed : Blacklist.bl_In (utils_IPAddr a) (utils_Port a) (s_blacklist s) = false;
  hs_table : RoutingFacts.table_ok (s_rt4 s)
}.

(** The table knows the node [id] under another address than [a]. *)
Definition known_elsewhere (id : bytes) (a : addr) (rt : Routing.routingTable (A := addr)) : Prop :=
  exists w, w ∈ Routing.all_nodes rt /\ Routing.w_ID w = id /\ Routing.Addr_Equal (Routing.w_Node w) (NewNodeByUDPAddr id a) = false.

(** The node [id] at [a] is in the table, seen at [now]; or there is no place
    for it: it has the ID of the server, or its bucket is full of other nodes
    none of which is bad. *)
Definition recorded (now : Z) (id : bytes) (a : addr) (rt rt' : Routing.routingTable (A := addr)) : Prop :=
  (exists w, w ∈ Routing.all_nodes rt' /\ Routing.w_ID w = id /\ Routing.w_LastChanged w = now /\
     Routing.Addr_Equal (Routing.w_Node w) (NewNodeByUDPAddr id a) = true) \/
  (rt' = rt /\ (id = Routing.rt_root rt \/
     exists b, Routing.rt_bkts rt !! Z.to_nat (Routing.bucketid (Routing.rt_root rt) id) = Some b /\ Routing.rt_k rt <= len (Routing.b_Nodes b) /\
       Forall (fun w => Routing.w_ID w <> id /\ Routing.IsBad now w = false) (Routing.b_Nodes b))).

Lemma Addr_Equal_refl (n : Routing.Node (A := addr)) : Routing.Addr_Equal n n = true.
Proof. unfold Routing.Addr_Equal. by rewrite !bool_decide_eq_true_2. Qed.

Lemma find_bad_None now i (l : list (Routing.wrappedNode (A := addr))) :
  Routing.find_bad now i l = None -> Forall (fun w => Routing.IsBad now w = false) l.
Proof.
  revert i. induction l as [|w l IH]; intros i; cbn; [by constructor|]. destruct (Routing.IsBad now w) eqn:E; [done|].
  intros Hn%IH. by constructor.
Qed.

Lemma in_table (rt : Routing.routingTable (A := addr)) i b w :
  Routing.rt_bkts rt !! i = Some b -> w ∈ Routing.b_Nodes b -> w ∈ Routing.all_nodes rt.
Proof.
  intros Hb Hw. unfold Routing.all_nodes. apply list_elem_of_In, in_concat. exists (Routing.b_Nodes b). split; [|by apply list_elem_of_In].
  apply in_map, list_elem_of_In. by eapply list_elem_of_lookup_2.
Qed.

Lemma bucket_recorded k now (n : Routing.Node (A := addr)) b r b' : Routing.bucket_AddNode k n now b = (r, b') ->
  (r = Routing.NodeExistAndChanged -> b' = b /\ exists w, w ∈ Routing.b_Nodes b /\ Routing.w_ID w = Routing.n_ID n /\ Routing.Addr_Equal (Routing.w_Node w) n = false) /\
  (r <> Routing.NodeExistAndChanged ->
    (exists w, w ∈ Routing.b_Nodes b' /\ Routing.w_ID w = Routing.n_ID n /\ Routing.w_LastChanged w = now /\ Routing.Addr_Equal (Routing.w_Node w) n = true) \/
    (b' = b /\ k <= len (Routing.b_Nodes b) /\ Forall (fun w => Routing.w_ID w <> Routing.n_ID n /\ Routing.IsBad now w = false) (Routing.b_Nodes b))).
Proof.
  unfold Routing.bucket_AddNode. destruct (list_find _ (Routing.b_Nodes b)) as [[i w]|] eqn:Ef.
  - apply list_find_Some in Ef as (Hi & Hid & _). destruct (Routing.Addr_Equal _ _) eqn:Ea; intros [= <- <-]; (split; [|done || intros _]); [done| |].
    + left. exists (Routing.MkWrapped (Routing.w_Node w) now). split_and!; [|done..]. cbn [Routing.b_Nodes]. unfold Routing.UpdateLastChangedTime.
      apply list_elem_of_fmap. exists w. rewrite decide_True by done. split; [done|]. by eapply list_elem_of_lookup_2.
    + intros _. split; [done|]. exists w. split_and!; [by eapply list_elem_of_lookup_2|done..].
  - apply list_find_None in Ef.
    assert (Hnew : forall l, exists w, w ∈ l ++ [Routing.MkWrapped n now] /\ Routing.w_ID w = Routing.n_ID n /\ Routing.w_LastChanged w = now /\
      Routing.Addr_Equal (Routing.w_Node w) n = true).
    { intros l. exists (Routing.MkWrapped n now). split_and!; [set_solver|done|done|apply Addr_Equal_refl]. }
    case_decide as Hk; [intros [= <- <-]; split; [done|left; apply Hnew]|].
    destruct (Routing.find_bad now 0 (Routing.b_Nodes b)) eqn:Eb; intros [= <- <-]; (split; [done|]); [left; apply Hnew|right].
    split_and!; [done|lia|]. apply Forall_and. split; [exact Ef|]. by eapply find_bad_None.
Qed.

Lemma AddNode_recorded now id a rt r rt' : Routing.AddNode (NewNodeByUDPAddr id a) now rt = Ok (r, rt') ->
  if decide (r = Routing.NodeExistAndChanged) then rt' = rt /\ known_elsewhere id a rt else recorded now id a rt rt'.
Proof.
  unfold Routing.AddNode. case_decide as Hself; [intros [= <- <-]; rewrite decide_False by done; right; auto|].
  unfold Routing.addNode. destruct (Routing.rt_bkts rt !! _) as [b|] eqn:Eb; [|done].
  destruct (Routing.bucket_AddNode _ _ _ _) as [st b'] eqn:Ea. intros [= <- <-]. apply bucket_recorded in Ea as [Hch Hrec].
  set (i := Z.to_nat _) in *. assert (Hi : (i < length (Routing.rt_bkts rt))%nat) by (by eapply lookup_lt_Some).
  case_decide as Hr.
  - destruct (Hch Hr) as [-> (w & Hw & Hid & Hne)]. split; [destruct rt; cbn; by rewrite list_insert_id|].
    exists w. split; [by eapply in_table|done].
  - destruct (Hrec Hr) as [(w & Hw & Hrest)|(-> & Hk & Hfull)]; [left; exists w|right].
    + split; [|exact Hrest]. eapply (in_table _ i b'); [|done]. cbn. by apply list_lookup_insert_eq.
    + split; [destruct rt; cbn; by rewrite list_insert_id|]. right. by exists b.
Qed.

(** A query or response of a node that is known elsewhere: it is dropped and
    its sender blacklisted. *)
Lemma dropped now a id m b s rt : default_conf (s_conf s) -> hears a s ->
  Routing.AddNode (NewNodeByUDPAddr id a) now (s_rt4 s) = Ok (Routing.NodeExistAndChanged, rt) ->
  DecodeMessage LookupIP b = Ok m -> m_T m <> [] -> m_RO m = false -> Hash.IsZero id = false ->
  (m_Y m = bs "q" /\ q_ID (m_A m) = id \/ m_Y m = bs "r" /\ r_ID (m_R m) = id) ->
  exists s', handlePacket LookupIP range Verify WriteTo now a b s = Ok (tt, s') /\ s_out s' = s_out s /\ s_trans s' = s_trans s /\
    s_rt4 s' = s_rt4 s /\ s_blacklist s' = Blacklist.bl_Add now (utils_IPAddr a) (utils_Port a) (s_blacklist s).
Proof.
  intros Hc [Hv Ha Hl _] Hadd Hd Ht Hro Hz Hm. destruct (AddNode_recorded _ _ _ _ _ _ Hadd) as [-> _].
  pose (s' := MkServer (s_conf s) (s_ipv4 s) (s_ipv6 s) (s_want s) (s_rt4 s) (s_rt6 s) (s_tokens s) (s_tokenPeers s) (s_trans s) (s_store s)
      (Blacklist.bl_Add now (utils_IPAddr a) (utils_Port a) (s_blacklist s)) (s_out s)).
  assert (Ea : addNode now a id false s = Ok (Routing.NodeExistAndChanged, s')).
  { unfold addNode, mbind. rewrite run_bind. unfold Server_AddNode, mbind. rewrite run_bind. cbn [get_server]. cbv beta iota.
    rewrite (IsIPv6_node id a Ha), Hv, run_bind. unfold lift. by rewrite Hadd, bind_Ok. }
  exists s'. split; [|split_and!; reflexivity].
  unfold handlePacket, mbind. rewrite run_bind. cbn [get_server]. cbv beta iota. unfold isDisabled. rewrite Ha, Hv, Hl, Hd.
  cbv beta iota. cbn [negb]. rewrite decide_False by done. unfold handleMessage, mbind. rewrite run_bind. cbn [get_server].
  cbv beta iota. rewrite (dc_in _ Hc). cbn [Config_in negb]. destruct Hm as [[Hy Hid]|[Hy Hid]].
  - rewrite decide_True by done. unfold handleQueryMessage. rewrite Hid, Hz, Hro. unfold mbind. by rewrite run_bind, Ea.
  - rewrite decide_False, decide_True by (by rewrite Hy). unfold handleResponseMessage. rewrite Hid, Hz, Hro. unfold mbind. by rewrite run_bind, Ea.
Qed.

(** Whether a sender is dropped or heard. *)
Lemma hears_cases now a id s : hears a s -> Hash.hash_ok id ->
  (exists rt, Routing.AddNode (NewNodeByUDPAddr id a) now (s_rt4 s) = Ok (Routing.NodeExistAndChanged, rt) /\ known_elsewhere id a (s_rt4 s)) \/
  (heard now a id s /\ forall r rt, Routing.AddNode (NewNodeByUDPAddr id a) now (s_rt4 s) = Ok (r, rt) -> recorded now id a (s_rt4 s) rt).
Proof.
  intros [Hv Ha Hl Ht] [Hid _]. destruct (RoutingFacts.AddNode_ok (NewNodeByUDPAddr id a) now (s_rt4 s) Ht Hid) as (r & rt & E & _ & _).
  pose proof (AddNode_recorded _ _ _ _ _ _ E) as Hrec. destruct (decide (r = Routing.NodeExistAndChanged)) as [->|Hr].
  - left. exists rt. split; [done|]. apply Hrec.
  - right. split; [constructor; try done|]; intros r' rt'; rewrite E; intros [= <- <-]; done.
Qed.

(** ** A query and its answer *)
Lemma issued_id (tm : @Transactions.transactionManager addr QueryArg method) :
  (Transactions.GetTransactionID tm).1 <> [] /\ len (Transactions.GetTransactionID tm).1 < 2 ^ 31.
Proof.
  unfold Transactions.GetTransactionID, Strconv.FormatUint. cbn [fst]. split; [apply Strconv.format_aux_nil|].
  set (n := u32 _). assert (Hn : 0 <= n < 2 ^ 32) by (apply Z.mod_pos_bound; lia).
  pose proof (NetFacts.length_format_aux (S (Z.to_nat (Z.log2 n))) 36 n) as Hl.
  assert (Z.log2 n < 32) by (destruct (decide (n = 0)) as [->|]; [done|apply Z.log2_lt_pow2; lia]).
  unfold len. lia.
Qed.

Lemma rr_ok_id id : Hash.hash_ok id -> rr_ok (I := I) (with_rID zeroResponse id).
Proof. intros Hid. unfold rr_ok. cbn. split_and!; try done; try constructor; lia. Qed.

Lemma error_ok_zero : error_ok (MkError 0 []).
Proof. split; [split; cbn; lia|vm_compute; done]. Qed.

Lemma msg_ok_query tid q a : len tid < 2 ^ 31 -> len q < 2 ^ 31 -> qa_ok a -> msg_ok (I := I) (NewQueryMsg tid q a).
Proof.
  intros. do 3 (split; [done|]). split; [done|]. split; [|apply error_ok_zero]. apply (rr_ok_id Hash.zeroHash), Hash.hash_ok_zero.
Qed.

Lemma msg_ok_response tid r : len tid < 2 ^ 31 -> rr_ok r -> msg_ok (I := I) (NewResponseMsg tid r).
Proof. intros. do 3 (split; [done|]). split; [apply qa_ok_zero|]. split; [done|apply error_ok_zero]. Qed.

(** A well-formed message has an encoding, which is read back as it was. *)
Lemma encodes m : msg_ok (I := I) m -> exists b, EncodeMessage m = Ok b /\ DecodeMessage LookupIP b = Ok m.
Proof.
  intros Hm. pose proof (message_roundtrip_lemma LookupIP m Hm) as E. destruct (EncodeMessage m) as [b|?|?|]; try discriminate.
  by exists b.
Qed.

Lemma request_ok now (t : @Transactions.transaction addr QueryArg method) s :
  default_conf (s_conf s) -> writes -> s_ipv4 s = true -> IsIPv6Addr (Transactions.t_Addr t) = false ->
  Transactions.t_ID t = [] -> len (Transactions.t_Query t) < 2 ^ 31 ->
  qa_ok (with_qID (Transactions.t_Arg t) (c_ID (s_conf s))) ->
  let '(id, tm) := Transactions.GetTransactionID (s_trans s) in
  let t' := with_arg t id (with_qID (Transactions.t_Arg t) (c_ID (s_conf s))) in
  let q := NewQueryMsg id (Transactions.t_Query t) (Transactions.t_Arg t') in
  msg_ok q /\
  request WriteTo now t s =
    Ok (None, with_trans (Transactions.AddTransaction t' tm) (emitted (Sent (Transactions.t_Addr t) q) s)).
Proof.
  intros Hc Hw Hv Ha Hid Hq Hqa. pose proof (issued_id (s_trans s)) as [Hne Hlen].
  destruct (Transactions.GetTransactionID (s_trans s)) as [id tm] eqn:Eid. cbn [fst] in *. cbv zeta.
  assert (Hm : msg_ok (I := I) (NewQueryMsg id (Transactions.t_Query t) (with_qID (Transactions.t_Arg t) (c_ID (s_conf s)))))
    by (by apply msg_ok_query).
  split; [exact Hm|]. destruct (encodes _ Hm) as (b & Eb & _).
  unfold request, mbind, mret, act_ret. rewrite run_bind. cbn [get_server]. cbv beta iota. unfold isDisabled. rewrite Ha, Hv. cbn [negb].
  rewrite run_bind, decide_True by done. rewrite Eid. rewrite run_bind. unfold set_trans at 1. cbv beta iota.
  rewrite run_bind. fold (with_trans tm s).
  rewrite (send_ok now _ _ b (with_trans tm s)); try done.
Qed.
(** What the server does with a query it hears, once the sender is recorded. *)
Lemma query_heard now a m b s : default_conf (s_conf s) -> heard now a (q_ID (m_A m)) s ->
  DecodeMessage LookupIP b = Ok m -> m_T m <> [] -> m_Y m = bs "q" -> m_RO m = false ->
  Hash.hash_ok (q_ID (m_A m)) -> Hash.IsZero (q_ID (m_A m)) = false ->
  exists r rt, RoutingFacts.table_ok rt /\
    Routing.AddNode (NewNodeByUDPAddr (q_ID (m_A m)) a) now (s_rt4 s) = Ok (r, rt) /\
    handlePacket LookupIP range Verify WriteTo now a b s = handleQuery range Verify WriteTo now a m (with_rt4 rt s).
Proof.
  intros Hc Hh Hd Ht Hy Hro Hid Hz. destruct (addNode_heard now a _ s Hh Hid) as (r & rt & Hr & Hrt & Ea & E).
  exists r, rt. split_and!; [done|done|]. rewrite (handlePacket_heard now a _ m b s Hc Hh Hd Ht), decide_True by done.
  unfold handleQueryMessage. rewrite Hz. unfold mbind. rewrite run_bind, Hro, E, run_bind. cbn [get_server]. cbv beta iota.
  change (s_conf (with_rt4 rt s)) with (s_conf s). rewrite (dc_rw _ Hc). by destruct r.
Qed.

(** The answer to a pending query: the transaction is taken off the table. *)
Lemma response_heard now a m b s t : default_conf (s_conf s) -> heard now a (r_ID (m_R m)) s ->
  DecodeMessage LookupIP b = Ok m -> m_T m <> [] -> m_Y m = bs "r" -> m_RO m = false ->
  Hash.hash_ok (r_ID (m_R m)) -> Hash.IsZero (r_ID (m_R m)) = false ->
  Transactions.tm_trans (s_trans s) !! (m_T m, addr_String a) = Some t ->
  exists r rt, Routing.AddNode (NewNodeByUDPAddr (r_ID (m_R m)) a) now (s_rt4 s) = Ok (r, rt) /\
    handlePacket LookupIP range Verify WriteTo now a b s =
      OnResponse WriteTo now t a m
        (with_trans (Transactions.MkTransactionManager (delete (m_T m, addr_String a) (Transactions.tm_trans (s_trans s)))
           (Transactions.tm_tid (s_trans s))) (with_rt4 rt s)).
Proof.
  intros Hc Hh Hd Ht Hy Hro Hid Hz Hk. destruct (addNode_heard now a _ s Hh Hid) as (r & rt & Hr & _ & Ea & E).
  exists r, rt. split; [done|]. rewrite (handlePacket_heard now a _ m b s Hc Hh Hd Ht), decide_False by (by rewrite Hy).
  rewrite decide_True by done. unfold handleResponseMessage. rewrite Hz. unfold mbind. rewrite run_bind, Hro, E.
  assert (Hp : processTransaction WriteTo now a m (with_rt4 rt s) = OnResponse WriteTo now t a m
    (with_trans (Transactions.MkTransactionManager (delete (m_T m, addr_String a) (Transactions.tm_trans (s_trans s)))
       (Transactions.tm_tid (s_trans s))) (with_rt4 rt s))); [|by destruct r].
  unfold processTransaction, pop, mbind, mret, act_ret. rewrite run_bind, run_bind. cbn [get_server]. cbv beta iota.
  unfold Transactions.PopTransaction. change (s_trans (with_rt4 rt s)) with (s_trans s). by rewrite Hk, run_bind.
Qed.

Definition ping_query (tid id : bytes) : Message := NewQueryMsg tid queryMethodPing (with_qID zeroQueryArg id).
Definition pong (tid id : bytes) : Message := NewResponseMsg tid (with_rID zeroResponse id).

Lemma qa_ok_id id : Hash.hash_ok id -> qa_ok (with_qID zeroQueryArg id).
Proof. intros Hid. destruct qa_ok_zero as (_ & ?). by split. Qed.

Lemma ping_answered now a tid id b s : default_conf (s_conf s) -> writes -> heard now a id s ->
  Hash.hash_ok id -> Hash.IsZero id = false -> tid <> [] -> len tid < 2 ^ 31 ->
  DecodeMessage LookupIP b = Ok (ping_query tid id) ->
  exists r rt p, Routing.AddNode (NewNodeByUDPAddr id a) now (s_rt4 s) = Ok (r, rt) /\
    EncodeMessage (pong tid (c_ID (s_conf s))) = Ok p /\ DecodeMessage LookupIP p = Ok (pong tid (c_ID (s_conf s))) /\
    handlePacket LookupIP range Verify WriteTo now a b s = Ok (tt, emitted (Sent a (pong tid (c_ID (s_conf s)))) (with_rt4 rt s)).
Proof.
  intros Hc Hw Hh Hid Hz Ht Hl Hd.
  destruct (query_heard now a (ping_query tid id) b s) as (r & rt & _ & Ea & E); try done.
  destruct (encodes (pong tid (c_ID (s_conf s)))) as (p & Ep & Dp);
    [apply msg_ok_response; [done|apply rr_ok_id, Hc]|].
  exists r, rt, p. split_and!; try done. rewrite E. unfold handleQuery. rewrite decide_True by done.
  by apply (reply_ok now a tid zeroResponse p).
Qed.
(** ** Answers that carry nodes *)

(** A node that can be put into a compact IPv4 list. *)
Definition sendable (n : Routing.Node (A := addr)) : Prop := node_ok 4 (canon4 n).
Definition table_sendable (rt : Routing.routingTable (A := addr)) : Prop := RoutingFacts.table_all sendable rt.

(** The response as the other side reads it. *)
Definition canon_rr (r : ResponseResult (I := I)) : ResponseResult (I := I) := with_nodes r (map canon4 (r_Nodes r)) (r_Nodes6 r).

Lemma canon_encodes tid r : len tid < 2 ^ 31 -> rr_ok (canon_rr r) ->
  exists p, EncodeMessage (NewResponseMsg tid r) = Ok p /\ DecodeMessage LookupIP p = Ok (NewResponseMsg tid (canon_rr r)).
Proof.
  intros Ht Hr. destruct (encodes (NewResponseMsg tid (canon_rr r))) as (p & Ep & Dp); [by apply msg_ok_response|].
  exists p. split; [|done]. rewrite <- Ep. symmetry. exact (encode_canon (NewResponseMsg tid r)).
Qed.

(** A response result apart from its ID and its IPv4 nodes. *)
Definition rest_ok (r : ResponseResult (I := I)) : Prop := rr_ok (with_nodes (with_rID r Hash.zeroHash) [] (r_Nodes6 r)).

Lemma sendable_ids rt : table_sendable rt -> RoutingFacts.table_all (fun n => length (Routing.n_ID n) = 20%nat) rt.
Proof. intros Ht. eapply Forall_impl; [exact Ht|]. intros w ([Hw _] & _). exact Hw. Qed.

Lemma nodes_ok target k rt r id : length target = 20%nat -> k < 2 ^ 24 -> table_sendable rt -> Hash.hash_ok id -> rest_ok r ->
  rr_ok (canon_rr (with_rID (with_nodes r (Routing.Closest target k rt) (r_Nodes6 r)) id)).
Proof.
  intros Ht Hk Hrt Hid (_ & _ & _ & Hrest). destruct (RoutingFacts.Closest_all sendable target k rt Ht (sendable_ids _ Hrt) Hrt) as [Hs Hl].
  split; [done|]. split; [by apply Forall_fmap|]. split; [|exact Hrest]. cbn [canon_rr with_nodes r_Nodes with_rID].
  unfold len in *. rewrite length_map. lia.
Qed.

(** A query over IPv4 or I2P that does not want IPv6 nodes is answered with the
    nodes of the IPv4 table. *)
Lemma populate_v4 s a (m : Message) target r : IsIPv6Addr a = false -> ContainsWant (m_A m) WantNodes6 = false ->
  populate (I := I) (B := B) s a (m_A m) target r = with_nodes r (Routing.Closest target (c_K (s_conf s)) (s_rt4 s)) (r_Nodes6 r).
Proof.
  intros Ha Hw. unfold populate. rewrite Hw. destruct (ContainsWant (m_A m) WantNodes); [done|]. cbn [negb andb].
  unfold populateNodesBasedOnAddress. by rewrite Ha.
Qed.

(** The reply to such a query: it is written, and read back as the node
    list in compact form. *)
Lemma reply_nodes now a (m : Message) target r s : default_conf (s_conf s) -> writes -> c_K (s_conf s) < 2 ^ 24 ->
  table_sendable (s_rt4 s) -> length target = 20%nat -> rest_ok r -> IsIPv6Addr a = false -> ContainsWant (m_A m) WantNodes6 = false ->
  m_T m <> [] -> len (m_T m) < 2 ^ 31 ->
  let r' := with_rID (with_nodes r (Routing.Closest target (c_K (s_conf s)) (s_rt4 s)) (r_Nodes6 r)) (c_ID (s_conf s)) in
  exists p, EncodeMessage (NewResponseMsg (m_T m) r') = Ok p /\
    DecodeMessage LookupIP p = Ok (NewResponseMsg (m_T m) (canon_rr r')) /\
    reply WriteTo now a (m_T m) (populate s a (m_A m) target r) s = Ok (tt, emitted (Sent a (NewResponseMsg (m_T m) r')) s).
Proof.
  intros Hc Hw Hk Hrt Ht Hr Ha Hwant Hm Hl r'. destruct (canon_encodes (m_T m) r') as (p & Ep & Dp);
    [done|apply nodes_ok; try done; apply Hc|].
  exists p. split_and!; [done|done|]. rewrite populate_v4 by done. by apply (reply_ok now a (m_T m) _ p).
Qed.

Definition with_store d (s : Server) : Server :=
  MkServer (s_conf s) (s_ipv4 s) (s_ipv6 s) (s_want s) (s_rt4 s) (s_rt6 s) (s_tokens s) (s_tokenPeers s)
    (s_trans s) d (s_blacklist s) (s_out s).

(** A well-formed query from a node the server hears, in the packet [b]. *)
Record asked (now : Z) (a : addr) (m : Message) (b : bytes) (q : bytes) (s : Server) : Prop := {
  as_heard : heard now a (q_ID (m_A m)) s;
  as_packet : DecodeMessage LookupIP b = Ok m;
  as_query : m_Y m = bs "q" /\ m_Q m = q;
  as_id : Hash.hash_ok (q_ID (m_A m)) /\ Hash.IsZero (q_ID (m_A m)) = false;
  as_tid : m_T m <> [] /\ len (m_T m) < 2 ^ 31;
  as_rw : m_RO m = false;
  as_node : sendable (NewNodeByUDPAddr (q_ID (m_A m)) a)
}.

Lemma asked_handled now a m b q s : default_conf (s_conf s) -> asked now a m b q s -> table_sendable (s_rt4 s) ->
  exists rt, table_sendable rt /\
    handlePacket LookupIP range Verify WriteTo now a b s = handleQuery range Verify WriteTo now a m (with_rt4 rt s).
Proof.
  intros Hc [Hh Hd [Hy _] [Hid Hz] [Ht _] Hro Hn] Hrt.
  destruct (query_heard now a m b s) as (r & rt & _ & Ea & E); try done.
  exists rt. split; [by eapply RoutingFacts.AddNode_all|done].
Qed.

Lemma handleQuery_put now a m s : m_Q m = queryMethodPut -> handleQuery range Verify WriteTo now a m s = handlePutQuery (B := B) Verify WriteTo now a m s.
Proof. intros Hq. unfold handleQuery. rewrite Hq. repeat (rewrite decide_False by done). by rewrite decide_True. Qed.
Lemma handleQuery_get now a m s : m_Q m = queryMethodGet -> handleQuery range Verify WriteTo now a m s = handleGetQuery (B := B) WriteTo now a m s.
Proof. intros Hq. unfold handleQuery. rewrite Hq. repeat (rewrite decide_False by done). by rewrite decide_True. Qed.
Lemma handleQuery_find now a m s : m_Q m = queryMethodFindNode -> handleQuery range Verify WriteTo now a m s = handleFindNodeQuery (B := B) WriteTo now a m s.
Proof. intros Hq. unfold handleQuery. rewrite Hq. repeat (rewrite decide_False by done). by rewrite decide_True. Qed.
(** ** Storing and fetching a value *)
Definition put_item (m : Message) : DataStore.StorageItem :=
  DataStore.MkItem (default [] (q_V (m_A m))) false [] (default [] (q_Sig (m_A m))) (q_Seq (m_A m))
    (default [] (q_Salt (m_A m))) (q_CAS (m_A m)) Routing.zeroTime Hash.zeroHash.

Lemma put_handled now a m s target : default_conf (s_conf s) -> writes -> m_T m <> [] -> len (m_T m) < 2 ^ 31 ->
  q_K (m_A m) = None -> len (default [] (q_V (m_A m))) <= DataStore.MaxValueSize ->
  len (default [] (q_Salt (m_A m))) <= DataStore.MaxSaltSize -> DataStore.ComputeTarget (put_item m) = Ok target ->
  handlePutQuery Verify WriteTo now a m s =
    Ok (tt, emitted (Sent a (pong (m_T m) (c_ID (s_conf s))))
      (with_store (<[target := DataStore.set_StoredAt (DataStore.set_Target (put_item m) target) now]> (s_store s)) s)).
Proof.
  intros Hc Hw Ht Hl HK HV HS HT. unfold handlePutQuery. cbv zeta. rewrite !decide_False by lia. unfold mbind. rewrite run_bind.
  cbn [get_server]. cbv beta iota. rewrite HK.
  change (DataStore.Put Verify now _ (s_store s)) with (DataStore.Put Verify now (put_item m) (s_store s)).
  rewrite (DataStore.Put_immutable Verify now (put_item m) (s_store s) target) by done. rewrite run_bind. unfold set_store.
  fold (with_store (<[target := DataStore.set_StoredAt (DataStore.set_Target (put_item m) target) now]> (s_store s)) s).
  destruct (encodes (pong (m_T m) (c_ID (s_conf s)))) as (p & Ep & _); [apply msg_ok_response; [done|apply rr_ok_id, Hc]|].
  by rewrite (reply_ok now a (m_T m) zeroResponse p).
Qed.

Lemma rest_ok_value v : 0 < len v <= DataStore.MaxValueSize ->
  rest_ok (MkResponse Hash.zeroHash [] [] [] [] [] 0 0 (Some v) None None 0).
Proof.
  unfold DataStore.MaxValueSize. intros Hv. pose proof (rr_ok_id Hash.zeroHash Hash.hash_ok_zero) as Hz.
  unfold rest_ok, rr_ok in *. cbn [r_ID r_Nodes r_Nodes6 r_Token r_Values r_Samples r_Num r_Interval r_V r_K r_Sig r_Seq with_nodes with_rID zeroResponse] in *.
  repeat match goal with H : _ /\ _ |- _ => destruct H end. split_and!; try done; unfold obytes_ok; lia.
Qed.

Lemma get_handled now a m s item : default_conf (s_conf s) -> writes -> c_K (s_conf s) < 2 ^ 24 ->
  table_sendable (s_rt4 s) -> length (q_Target (m_A m)) = 20%nat -> IsIPv6Addr a = false -> ContainsWant (m_A m) WantNodes6 = false ->
  m_T m <> [] -> len (m_T m) < 2 ^ 31 -> DataStore.Get now (q_Target (m_A m)) (s_store s) = Some item ->
  DataStore.IsMutable item = false -> 0 < len (DataStore.Value item) <= DataStore.MaxValueSize ->
  exists r p r', handleGetQuery WriteTo now a m s = Ok (tt, emitted (Sent a r) s) /\ EncodeMessage r = Ok p /\
    DecodeMessage LookupIP p = Ok r' /\ m_T r' = m_T m /\ r_V (m_R r') = Some (DataStore.Value item).
Proof.
  intros Hc Hw Hk Hrt Ht Ha Hwant Hm Hl Hg Him Hv.
  destruct (reply_nodes now a m (q_Target (m_A m)) (MkResponse Hash.zeroHash [] [] [] [] [] 0 0 (Some (DataStore.Value item)) None None 0) s)
    as (p & Ep & Dp & E); try done; [by apply rest_ok_value|].
  eexists _, p, _. split; [|done]. unfold handleGetQuery, mbind. rewrite run_bind. cbn [get_server]. cbv beta iota. rewrite Hg, Him.
  exact E.
Qed.
(** ** Peers that cannot be sent *)
Lemma encode_nil_peer tid id token (v : list (Address (I := I))) :
  EncodeMessage (NewResponseMsg tid (MkResponse id [] [] token (MkAddress None 0 :: v) [] 0 0 None None None 0)) = Panic nilDeref.
Proof.
  set (r := MkResponse _ _ _ _ _ _ _ _ _ _ _ _).
  assert (He : isEmptyValue (rr_val r) = false).
  { unfold rr_val. cbn -[fld Hash.hash_val]. by rewrite !andb_false_r. }
  assert (Hr : encodeValue (rr_val r) = Panic nilDeref) by (destruct token; vm_compute; reflexivity).
  unfold EncodeMessage, EncodeBytes, msg_val, NewResponseMsg. cbn [m_T m_Y m_Q m_A m_R m_E m_RO].
  rewrite encodeValue_struct. struct_fields. rewrite Hr, He. reflexivity.
Qed.

Lemma reply_panics now to tid r p s : default_conf (s_conf s) -> tid <> [] ->
  EncodeMessage (NewResponseMsg tid (with_rID r (c_ID (s_conf s)))) = Panic p ->
  reply WriteTo now to tid r s = Panic p.
Proof.
  intros Hc Ht He. unfold reply, mbind. rewrite run_bind. cbn [get_server]. cbv beta iota. rewrite run_bind.
  unfold send, mbind. rewrite run_bind. cbn [get_server]. cbv beta iota. rewrite (dc_out _ Hc), (dc_rw _ Hc). cbn [Config_out].
  unfold _send. rewrite decide_False by (by intros [?|?]). unfold mbind. rewrite run_bind. unfold lift.
  change (MkMessage _ _ _ _ _ _ _) with (NewResponseMsg tid (with_rID r (c_ID (s_conf s)))). by rewrite He.
Qed.

(** The enumeration of a map visits each entry once. *)
Definition enumerates : Prop := forall V (m : gmap bytes V), range V m ≡ₚ map_to_list m.

Lemma handleQuery_get_peers now a m s : m_Q m = queryMethodGetPeers ->
  handleQuery range Verify WriteTo now a m s = handleGetPeersQuery (B := B) range WriteTo now a m s.
Proof. intros Hq. unfold handleQuery. rewrite Hq. repeat (rewrite decide_False by done). by rewrite decide_True. Qed.

Lemma udp_peer_panics now a m s k ip port zone p : default_conf (s_conf s) -> enumerates -> 1 <= c_K (s_conf s) ->
  q_Wants (m_A m) = [] -> m_T m <> [] -> PeerStore.tpm_peers (s_tokenPeers s) !! q_InfoHash (m_A m) = Some {[ k := p ]} ->
  PeerStore.p_IP p = UDPAddr ip port zone -> handleGetPeersQuery range WriteTo now a m s = Panic nilDeref.
Proof.
  intros Hc Hr Hk Hw Ht Hp Hip. unfold handleGetPeersQuery, mbind. rewrite run_bind. cbn [get_server]. cbv beta iota.
  unfold ContainsWant. rewrite Hw. rewrite !bool_decide_eq_false_2 by apply not_elem_of_nil. rewrite run_bind.
  unfold populatePeersResponse. cbn [negb andb]. unfold PeerStore.GetPeers. rewrite decide_False by lia. rewrite Hp.
  assert (Er : range _ {[ k := p ]} = [(k, p)]) by (apply Permutation_singleton_r; rewrite (Hr _ {[ k := p ]}); by rewrite map_to_list_singleton).
  rewrite Er. replace (take (Z.to_nat (c_K (s_conf s))) [(k, p)]) with [(k, p)] by (symmetry; apply take_ge; cbn; lia).
  cbn [map snd]. rewrite Hip. unfold lift. rewrite bind_Ok. cbn [NewAddress].
  destruct (Tokens.Token a now (s_tokens s)) as [token tm]. rewrite run_bind. unfold set_tokens. rewrite run_bind.
  rewrite (reply_panics now a (m_T m) _ nilDeref); [done|exact Hc|done|]. apply encode_nil_peer.
Qed.

(** The answer to a get_peers query that brings a token and nothing else. *)
Lemma token_stored now t a m s : Transactions.t_OnResponse t = Some MGetPeers -> r_Token (m_R m) <> [] ->
  r_Values (m_R m) = [] -> r_Nodes (m_R m) = [] -> r_Nodes6 (m_R m) = [] ->
  exists s', OnResponse WriteTo now t a m s = Ok (tt, s') /\ s_conf s' = s_conf s /\
    s_tokenPeers s' = PeerStore.Set_ (r_ID (m_R m)) a (r_Token (m_R m)) now (s_tokenPeers s) /\ s_rt4 s' = s_rt4 s.
Proof.
  intros Hon Ht Hv H4 H6. unfold OnResponse. rewrite Hon. unfold onGetPeersResp, storeTokenIfPresent, handlePeersIfFound, Done, processResponseNodes.
  destruct (decide (r_Token (m_R m) <> [])); [|done]. rewrite Hv, H4, H6. unfold mbind, mret, act_ret. rewrite run_bind, run_bind. cbn [get_server].
  unfold set_tokenPeers. cbv beta iota. rewrite run_bind. destruct (decide (0 < len (@nil (Address (I := I))))) as [Hn|_]; [by vm_compute in Hn|].
  cbv beta iota. rewrite run_bind. destruct (Transactions.t_Callback t) as [[]|]; case_decide; (eexists; split; [reflexivity|done]).
Qed.
(** ** Nodes learned from a list *)
Lemma find_added k n now b r b' : Routing.bucket_AddNode (A := addr) k n now b = (r, b') -> r = Routing.NodeAdded ->
  exists i w, list_find (fun w => Routing.w_ID w = Routing.n_ID n) (Routing.b_Nodes b') = Some (i, w) /\ Routing.w_Node w = n.
Proof.
  unfold Routing.bucket_AddNode. intros E ->. destruct (list_find _ (Routing.b_Nodes b)) as [[i w]|] eqn:Ef.
  { by destruct (Routing.Addr_Equal _ _). }
  apply list_find_None in Ef.
  assert (Happ : forall l, Forall (fun w => ~ Routing.w_ID w = Routing.n_ID n) l ->
    list_find (fun w => Routing.w_ID w = Routing.n_ID n) (l ++ [Routing.MkWrapped n now]) = Some (length l, Routing.MkWrapped n now)).
  { intros l Hl. apply list_find_Some. split_and!; [by rewrite list_lookup_middle|done|].
    intros j y Hj Hlt. rewrite lookup_app_l in Hj by done. by eapply (Forall_lookup_1 _ _ _ _ Hl). }
  case_decide; [injection E as <-; eexists _, _; split; [by apply Happ|done]|].
  destruct (Routing.find_bad _ _ _); [|done]. injection E as <-. eexists _, _. split; [apply Happ|done].
  rewrite Forall_forall in Ef |- *. intros w Hw. by apply Ef, (RoutingFacts.shift_down_subset n0).
Qed.

(** A node added under one address, heard from under another. *)
Lemma AddNode_changed (n n' : Routing.Node (A := addr)) now0 now rt0 rt :
  Routing.AddNode n now0 rt0 = Ok (Routing.NodeAdded, rt) -> Routing.n_ID n' = Routing.n_ID n -> Routing.Addr_Equal n n' = false ->
  Routing.AddNode n' now rt = Ok (Routing.NodeExistAndChanged, rt).
Proof.
  unfold Routing.AddNode. case_decide as Hr; [done|]. unfold Routing.addNode. intros E Hid Hne.
  destruct (Routing.rt_bkts rt0 !! _) as [b|] eqn:Eb; [|done]. set (i := Z.to_nat _) in *.
  destruct (Routing.bucket_AddNode _ _ _ _) as [r b'] eqn:Ea. injection E as -> <-. cbn [Routing.rt_root Routing.rt_k Routing.rt_bkts].
  destruct (find_added _ _ _ _ _ _ Ea eq_refl) as (j & w & Ef & Hw).
  rewrite decide_False by congruence. rewrite Hid. fold i. rewrite list_lookup_insert_eq by (by eapply lookup_lt_Some).
  unfold Routing.bucket_AddNode at 1. rewrite Hid, Ef, Hw, Hne. by rewrite list_insert_insert_eq.
Qed.

Lemma udp_differs id ip (port p : Z) : Routing.Addr_Equal (A := addr) (Routing.MkNode id (IPAddr ip []) p) (Routing.MkNode id (UDPAddr ip port []) p) = false.
Proof.
  unfold Routing.Addr_Equal. apply andb_false_iff. right. apply bool_decide_eq_false_2. cbn. intros E.
  apply (f_equal (length (A := Z))) in E. unfold JoinHostPort in E.
  repeat case_match; rewrite ?length_app in E; cbn in E; rewrite ?length_app in E; cbn in E; lia.
Qed.

Lemma handleQuery_announce now a m s : m_Q m = queryMethodAnnouncePeer ->
  handleQuery range Verify WriteTo now a m s = handleAnnouncePeerQuery (B := B) WriteTo now a m s.
Proof. intros Hq. unfold handleQuery. rewrite Hq. repeat (rewrite decide_False by done). by rewrite decide_True. Qed.
End Run.

(** ** Properties *)


(** a node the server has asked for peers can crash it with two packets.
    Its answer, with a token, is stored in the peer store under the ID the node
    gives itself; a get_peers query for that ID as the info_hash then makes
    the server encode a peer without an IP, since [NewAddress] has no case for
    a [*net.UDPAddr], and the goroutine of the query panics. *)
Theorem get_peers_crash {I} `{I2PKeys I} {B} `{Blacklist.Blacklist B} LookupIP range Verify WriteTo
  now1 ip port zone m1 b1 t (s : Server (I := I) (B := B)) :
  let a := UDPAddr ip port zone in
  default_conf (s_conf s) -> enumerates range -> 1 <= c_K (s_conf s) -> table_sendable (s_rt4 s) ->
  heard now1 a (r_ID (m_R m1)) s -> sendable (NewNodeByUDPAddr (r_ID (m_R m1)) a) ->
  DecodeMessage LookupIP b1 = Ok m1 -> m_T m1 <> [] -> m_Y m1 = bs "r" -> m_RO m1 = false ->
  Hash.hash_ok (r_ID (m_R m1)) -> Hash.IsZero (r_ID (m_R m1)) = false ->
  Transactions.tm_trans (s_trans s) !! (m_T m1, addr_String a) = Some t -> Transactions.t_OnResponse t = Some MGetPeers ->
  r_Token (m_R m1) <> [] -> r_Values (m_R m1) = [] -> r_Nodes (m_R m1) = [] -> r_Nodes6 (m_R m1) = [] ->
  PeerStore.tpm_peers (s_tokenPeers s) !! r_ID (m_R m1) = None ->
  exists s1, handlePacket LookupIP range Verify WriteTo now1 a b1 s = Ok (tt, s1) /\
    forall now2 a2 m2 b2, asked LookupIP now2 a2 m2 b2 queryMethodGetPeers s1 -> q_InfoHash (m_A m2) = r_ID (m_R m1) ->
      q_Wants (m_A m2) = [] -> handlePacket LookupIP range Verify WriteTo now2 a2 b2 s1 = Panic nilDeref.
Proof.
  intros a Hc Hr Hk Hrt Hh Hn Hd Ht Hy Hro Hid Hz Hp Hon Htok Hv H4 H6 Hnone.
  destruct (response_heard LookupIP range Verify WriteTo now1 a m1 b1 s t) as (st & rt & Ea & E); try done.
  set (s0 := with_trans _ _) in E.
  destruct (token_stored WriteTo now1 t a m1 s0) as (s1 & E1 & Ec & Et & Er); try done.
  exists s1. split; [by rewrite E|]. intros now2 a2 m2 b2 Hq Hih Hwant. assert (Hc1 : default_conf (s_conf s1)) by (by rewrite Ec).
  destruct (asked_handled LookupIP range Verify WriteTo now2 a2 m2 b2 _ s1 Hc1 Hq) as (rt2 & _ & E2).
  { rewrite Er. by eapply RoutingFacts.AddNode_all. }
  destruct Hq as [_ _ [_ Hq] _ [Ht2 _] _ _]. rewrite E2, handleQuery_get_peers by done.
  eapply udp_peer_panics; try done.
  - cbn. by rewrite Ec.
  - cbn [s_tokenPeers with_rt4]. rewrite Et. unfold PeerStore.Set_. cbn [PeerStore.tpm_peers s_tokenPeers s0 with_trans with_rt4].
    rewrite Hih, lookup_insert_eq, Hnone. reflexivity.
  - reflexivity.
Qed.

(** a node the server learned from another node's list is blacklisted as
    soon as it speaks. The table keeps a node of a compact list with a
    [*net.IPAddr], whose text has no port, and compares it with the text of the
    [*net.UDPAddr] a packet comes from, which has one: the first query or
    response of the very node, from the very address and port, counts as a
    changed address, so it is dropped without an answer and its address is put
    on the blacklist. *)
Theorem learned_node_blacklisted {I} `{I2PKeys I} {B} `{Blacklist.Blacklist B} LookupIP range Verify WriteTo
  now0 now rt0 id ip port m b (s : Server (I := I) (B := B)) :
  let a := UDPAddr ip port [] in
  c_HandleInMessage (s_conf s) = Config_in -> s_ipv4 s = true -> IsIPv6Addr a = false ->
  Blacklist.bl_In (utils_IPAddr a) (utils_Port a) (s_blacklist s) = false ->
  Routing.AddNode (Routing.MkNode id (IPAddr ip []) (u16 port)) now0 rt0 = Ok (Routing.NodeAdded, s_rt4 s) ->
  DecodeMessage LookupIP b = Ok m -> m_T m <> [] -> m_RO m = false -> Hash.IsZero id = false ->
  (m_Y m = bs "q" /\ q_ID (m_A m) = id \/ m_Y m = bs "r" /\ r_ID (m_R m) = id) ->
  exists s', handlePacket LookupIP range Verify WriteTo now a b s = Ok (tt, s') /\ s_out s' = s_out s /\
    s_rt4 s' = s_rt4 s /\ s_trans s' = s_trans s /\
    s_blacklist s' = Blacklist.bl_Add now (utils_IPAddr a) (utils_Port a) (s_blacklist s).
Proof.
  intros a Hin Hv Ha Hbl Hadd Hd Ht Hro Hz Hm.
  assert (Hch : Routing.AddNode (NewNodeByUDPAddr id a) now (s_rt4 s) = Ok (Routing.NodeExistAndChanged, s_rt4 s))
    by (eapply AddNode_changed; [exact Hadd|done|apply udp_differs]).
  pose (s' := MkServer (s_conf s) (s_ipv4 s) (s_ipv6 s) (s_want s) (s_rt4 s) (s_rt6 s) (s_tokens s) (s_tokenPeers s) (s_trans s) (s_store s)
      (Blacklist.bl_Add now (utils_IPAddr a) (utils_Port a) (s_blacklist s)) (s_out s)).
  assert (Ea : addNode now a id false s = Ok (Routing.NodeExistAndChanged, s')).
  { unfold addNode, mbind. rewrite run_bind. unfold Server_AddNode, mbind. rewrite run_bind. cbn [get_server]. cbv beta iota.
    rewrite (IsIPv6_node id a Ha), Hv, run_bind. unfold lift. by rewrite Hch, bind_Ok. }
  exists s'. split; [|split_and!; reflexivity].
  unfold handlePacket, mbind. rewrite run_bind. cbn [get_server]. cbv beta iota. unfold isDisabled. rewrite Ha, Hv, Hbl, Hd.
  cbv beta iota. cbn [negb]. rewrite decide_False by done. unfold handleMessage, mbind. rewrite run_bind. cbn [get_server].
  cbv beta iota. rewrite Hin. cbn [Config_in negb]. destruct Hm as [[Hy Hid]|[Hy Hid]].
  - rewrite decide_True by done. unfold handleQueryMessage. rewrite Hid, Hz, Hro. unfold mbind. by rewrite run_bind, Ea.
  - rewrite decide_False, decide_True by (by rewrite Hy). unfold handleResponseMessage. rewrite Hid, Hz, Hro. unfold mbind. by rewrite run_bind, Ea.
Qed.

(** announce_peer does the opposite of what its token is for. A query with
    a token the server gave to that address is dropped without an answer; one
    with any other token is acknowledged and handed to [OnTorrent]. *)
Theorem announce_token_inverted {I} `{I2PKeys I} {B} `{Blacklist.Blacklist B} LookupIP range Verify WriteTo
  now (a : netAddr (I := I)) m b (s : Server (I := I) (B := B)) :
  default_conf (s_conf s) -> writes WriteTo -> table_sendable (s_rt4 s) -> asked LookupIP now a m b queryMethodAnnouncePeer s ->
  exists s', handlePacket LookupIP range Verify WriteTo now a b s = Ok (tt, s') /\
    s_out s' = s_out s ++
      (if Tokens.Check a (q_Token (m_A m)) (s_tokens s) then []
       else [Sent a (pong (m_T m) (c_ID (s_conf s))); OnTorrent (Hash.HexString (q_InfoHash (m_A m))) (Some a)]).
Proof.
  intros Hc Hw Hrt Hq. destruct (asked_handled LookupIP range Verify WriteTo now a m b _ s Hc Hq Hrt) as (rt & _ & E).
  destruct Hq as [_ _ [_ Hq] _ [Ht Hl] _ _]. rewrite E, handleQuery_announce by done.
  unfold handleAnnouncePeerQuery, mbind. rewrite run_bind. cbn [get_server]. cbv beta iota.
  change (s_tokens (with_rt4 rt s)) with (s_tokens s). destruct (Tokens.Check a (q_Token (m_A m)) (s_tokens s)).
  - eexists. split; [reflexivity|]. cbn. by rewrite app_nil_r.
  - destruct (encodes LookupIP (pong (m_T m) (c_ID (s_conf s)))) as (p & Ep & _); [apply msg_ok_response; [done|apply rr_ok_id, Hc]|].
    rewrite run_bind, (reply_ok WriteTo now a (m_T m) zeroResponse p) by done. eexists. split; [reflexivity|].
    cbn [s_out emitted with_rt4]. by rewrite <- app_assoc.
Qed.

(** [FindNode] never goes on. Its transaction is made with depth 0 whatever
    the search depth, so the nodes of the answer are neither queried nor added
    to a routing table: the answer only settles the transaction. *)
Theorem find_node_never_continues {I} `{I2PKeys I} {B} `{Blacklist.Blacklist B} LookupIP range Verify WriteTo
  now1 now2 (a : netAddr (I := I)) target (s : Server (I := I) (B := B)) :
  default_conf (s_conf s) -> writes WriteTo -> s_ipv4 s = true -> IsIPv6Addr a = false -> Forall (fun w => len w < 2 ^ 31) (s_want s) ->
  Hash.hash_ok target -> Hash.IsZero target = false ->
  exists q s1, FindNode WriteTo now1 a target s = Ok (None, s1) /\ s_out s1 = s_out s ++ [Sent a q] /\
    forall m b, heard now2 a (r_ID (m_R m)) s1 -> DecodeMessage LookupIP b = Ok m -> m_T m = m_T q -> m_Y m = bs "r" -> m_RO m = false ->
      Hash.hash_ok (r_ID (m_R m)) -> Hash.IsZero (r_ID (m_R m)) = false ->
      exists s2 st, handlePacket LookupIP range Verify WriteTo now2 a b s1 = Ok (tt, s2) /\ s_out s2 = s_out s1 /\
        Routing.AddNode (NewNodeByUDPAddr (r_ID (m_R m)) a) now2 (s_rt4 s1) = Ok (st, s_rt4 s2) /\ s_rt6 s2 = s_rt6 s1.
Proof.
  intros Hc Hw Hv Ha Hwant Ht Hz. pose proof (issued_id (s_trans s)) as [Hne Hlen].
  set (t := newTransaction now1 a queryMethodFindNode (query_arg_target target (s_want s)) [] MFindNode 0 []).
  assert (Hqa : qa_ok (with_qID (Transactions.t_Arg t) (c_ID (s_conf s)))).
  { unfold qa_ok. cbn. split_and!; try done; try apply Hc; try apply Hash.hash_ok_zero; lia. }
  pose proof (request_ok LookupIP WriteTo now1 t s Hc Hw Hv Ha eq_refl ltac:(vm_compute; done) Hqa) as Hreq.
  destruct (Transactions.GetTransactionID (s_trans s)) as [id tm] eqn:Eid. cbn [fst] in *. cbv zeta in Hreq. destruct Hreq as [_ Hreq].
  set (t' := with_arg t id (with_qID (Transactions.t_Arg t) (c_ID (s_conf s)))) in Hreq.
  set (q := NewQueryMsg id (Transactions.t_Query t) (Transactions.t_Arg t')) in Hreq.
  set (s1 := with_trans _ _) in Hreq. exists q, s1. split; [|split; [reflexivity|]].
  { unfold FindNode. rewrite Hz. unfold mbind. rewrite run_bind. cbn [get_server]. cbv beta iota. unfold findNode, mbind.
    rewrite run_bind. exact Hreq. }
  intros m b Hh Hd HT Hy Hro Hid Hzid.
  destruct (response_heard LookupIP range Verify WriteTo now2 a m b s1 t') as (st & rt & Er & E); try done.
  - by rewrite HT.
  - rewrite HT. cbn [s_trans with_trans Transactions.AddTransaction Transactions.tm_trans s1]. by rewrite lookup_insert_eq.
  - eexists _, st. split; [exact E|]. by split_and!.
Qed.

(** *** Two servers to try the properties on *)
#[local] Existing Instance Address.demo_keys.

Definition demo_conf (b : Z) : Config (I := bytes) := Config_set [] (MkConfig 0 (replicate 20 b) false 0 Config_in Config_out).
Definition demo_server (b : Z) : Server (I := bytes) (B := Blacklist.blacklist) :=
  let rt := Routing.newRoutingTable (c_K (demo_conf b)) (c_ID (demo_conf b)) in
  with_tables (demo_conf b) true false [WantNodes] (bs "first") (Blacklist.NewMemoryBlacklist 8) rt rt.
Definition demo_addr (b : Z) : netAddr (I := bytes) := UDPAddr [10; 0; 0; b] 6881 [].
Definition demo_write (a : netAddr (I := bytes)) (b : bytes) : res Z := Ok (len b).
Definition no_host (host : bytes) : res (list bytes) := Err "no such host".
Definition demo_range V (m : gmap bytes V) : list (bytes * V) := map_to_list m.
Definition no_verify (pk msg sig : bytes) : bool := false.

Lemma demo_default b : 0 < b < 256 -> default_conf (demo_conf b).
Proof.
  intros Hb. assert (E : c_ID (demo_conf b) = replicate 20 b).
  { cbn. unfold Hash.IsZero. rewrite bool_decide_eq_false_2; [done|]. intros E. injection E. lia. }
  constructor; try done; rewrite E.
  - apply hash_ok_replicate. unfold is_byte. lia.
  - unfold Hash.IsZero. rewrite bool_decide_eq_false_2; [done|]. intros E'. injection E'. lia.
Qed.

Lemma demo_writes : writes demo_write.
Proof. done. Qed.

Lemma demo_hears a b : Blacklist.In (utils_IPAddr (demo_addr a)) (utils_Port (demo_addr a)) (Blacklist.NewMemoryBlacklist 8) = false ->
  length (c_ID (demo_conf b)) = 20%nat -> hears (demo_addr a) (demo_server b).
Proof. intros Hl Hb. constructor; [reflexivity|reflexivity|exact Hl|by apply RoutingFacts.new_table_ok]. Qed.


(** handling a query writes at most one packet, to the address the query
    came from and under its transaction ID, whatever the query asks and
    whatever state the server is in: a query cannot make the server send
    anything to a third party. *)
Theorem query_answers_sender_only {I} `{I2PKeys I} {B} `{Blacklist.Blacklist B} LookupIP range Verify WriteTo
  now (a : netAddr (I := I)) data m (s s' : Server (I := I) (B := B)) :
  c_HandleInMessage (s_conf s) = Config_in -> c_HandleOutMessage (s_conf s) = Config_out ->
  DecodeMessage LookupIP data = Ok m -> m_Y m = bs "q" ->
  handlePacket LookupIP range Verify WriteTo now a data s = Ok (tt, s') ->
  exists os, s_out s' = s_out s ++ os /\ (length (sents os) <= 1)%nat /\
    Forall (fun p => p.1 = a /\ m_T p.2 = m_T m) (sents os).
Proof.
  intros Hin Hout Hd Hy. unfold handlePacket, mbind. rewrite run_bind. cbn [get_server]. cbv beta iota.
  assert (Hnone : forall s'', Ok (tt, s) = Ok (tt, s'') -> exists os, s_out s'' = s_out s ++ os /\ (length (sents os) <= 1)%nat /\
    Forall (fun p => p.1 = a /\ m_T p.2 = m_T m) (sents os)).
  { intros s'' [= <-]. exists []. rewrite app_nil_r. cbn. split_and!; [done|lia|constructor]. }
  case_match; [apply Hnone|]. case_match; [apply Hnone|]. rewrite Hd. case_decide; [apply Hnone|].
  unfold handleMessage, mbind. rewrite run_bind. cbn [get_server]. cbv beta iota. rewrite Hin. cbn [Config_in negb].
  rewrite decide_True by done. intros E. by destruct (answers_queryMessage range Verify WriteTo now a m s tt s' Hout E).
Qed.

(** [find_node] does not look at its target. A find_node query as BEP 5
    and as this server itself sends it, without an info_hash, is answered with
    the nodes of the table that are nearest to the zero ID, whatever target it
    names; and the asker reads every node that is known by its I2P destination
    as 127.0.0.1. *)
Theorem find_node_ignores_target {I} `{I2PKeys I} {B} `{Blacklist.Blacklist B} LookupIP range Verify WriteTo
  now (a : netAddr (I := I)) m b (s : Server (I := I) (B := B)) :
  default_conf (s_conf s) -> writes WriteTo -> c_K (s_conf s) < 2 ^ 24 -> table_sendable (s_rt4 s) ->
  asked LookupIP now a m b queryMethodFindNode s -> q_InfoHash (m_A m) = Hash.zeroHash -> q_Wants (m_A m) = [] ->
  exists s' r p r', handlePacket LookupIP range Verify WriteTo now a b s = Ok (tt, s') /\ s_out s' = s_out s ++ [Sent a r] /\
    EncodeMessage r = Ok p /\ DecodeMessage LookupIP p = Ok r' /\ m_T r' = m_T m /\
    let found := Routing.Closest Hash.zeroHash (c_K (s_conf s)) (s_rt4 s') in
    r_Nodes (m_R r') = map canon4 found /\
    forall i n d, found !! i = Some n -> Routing.n_IP n = I2PAddrPtr d \/ Routing.n_IP n = I2PAddrVal d ->
      r_Nodes (m_R r') !! i = Some (Routing.MkNode (Routing.n_ID n) (IPAddr [127; 0; 0; 1] []) (Routing.n_Port n)).
Proof.
  intros Hc Hw Hk Hrt Hq Hih Hwant. destruct (asked_handled LookupIP range Verify WriteTo now a m b _ s Hc Hq Hrt) as (rt & Hrt1 & E1).
  destruct Hq as [Hh _ [_ Hq] _ [Ht Hl] _ _]. rewrite handleQuery_find in E1 by done.
  destruct (reply_nodes LookupIP WriteTo now a m Hash.zeroHash zeroResponse (with_rt4 rt s)) as (p & Ep & Dp & E); try done.
  - apply (rr_ok_id Hash.zeroHash), Hash.hash_ok_zero.
  - apply Hh.
  - unfold ContainsWant. rewrite Hwant. by rewrite bool_decide_eq_false_2 by apply not_elem_of_nil.
  - eexists _, _, p, _. rewrite E1. unfold handleFindNodeQuery, mbind. rewrite run_bind. cbn [get_server]. cbv beta iota.
    rewrite Hih, E. do 5 (split; [done|]). cbv zeta. split; [done|].
    intros i [id ip port] d Hi Hip. cbn [r_Nodes m_R NewResponseMsg canon_rr with_nodes with_rID].
    etransitivity; [apply (list_lookup_fmap canon4)|]. etransitivity; [exact (f_equal (fmap canon4) Hi)|].
    cbn in Hip. by destruct Hip as [-> | ->].
Qed.

(** *** Queries of node 1 to server 2 *)
Definition packet (m : Message (I := bytes)) : bytes := match EncodeMessage m with Ok b => b | _ => [] end.

Definition demo_arg (target : bytes) (v : option bytes) : QueryArg :=
  MkQueryArg (replicate 20 1) target Hash.zeroHash 0 [] false [] v None None 0 None 0.
Definition demo_put : Message (I := bytes) := NewQueryMsg (bs "aa") queryMethodPut (demo_arg Hash.zeroHash (Some (bs "hello"))).
Definition demo_target : bytes := match Hash.NewHash (Sha256.Sum256 (bs "hello")) with Ok t => t | _ => [] end.
Definition demo_get : Message (I := bytes) := NewQueryMsg (bs "ab") queryMethodGet (demo_arg demo_target None).
Definition demo_find : Message (I := bytes) := NewQueryMsg (bs "ac") queryMethodFindNode (demo_arg (replicate 20 9) None).

Lemma demo_heard now : heard now (demo_addr 1) (replicate 20 1) (demo_server 2).
Proof.
  constructor; try reflexivity; [apply RoutingFacts.new_table_ok; reflexivity|].
  intros r rt E. vm_compute in E. injection E as <- _. discriminate.
Qed.

Lemma demo_sendable : sendable (NewNodeByUDPAddr (replicate 20 1) (demo_addr 1)).
Proof.
  split; [apply hash_ok_replicate; unfold is_byte; lia|].
  split; [vm_compute; split; [discriminate|reflexivity]|]. exists [10; 0; 0; 1]. split_and!; [reflexivity|reflexivity|]. repeat constructor; unfold is_byte; lia.
Qed.

Lemma demo_table : table_sendable (s_rt4 (demo_server 2)).
Proof. apply RoutingFacts.table_all_buckets. intros i b [-> _]%lookup_replicate. constructor. Qed.

Lemma query_answers_sender_only_witness :
  match handlePacket no_host demo_range no_verify demo_write 5 (demo_addr 1) (packet demo_find) (demo_server 2) with
  | Ok (_, s') => exists os, s_out s' = s_out (demo_server 2) ++ os /\ (length (sents os) <= 1)%nat /\
      Forall (fun p => p.1 = demo_addr 1 /\ m_T p.2 = bs "ac") (sents os)
  | _ => False
  end.
Proof.
  destruct (handlePacket _ _ _ _ _ _ _ _) as [[[] s']|?|?|] eqn:E; [|vm_compute in E; discriminate E..].
  apply (query_answers_sender_only no_host demo_range no_verify demo_write 5 (demo_addr 1) (packet demo_find) demo_find);
    [reflexivity|reflexivity|vm_compute; reflexivity|reflexivity|exact E].
Defined.

Lemma find_node_ignores_target_witness :
  exists s' r, handlePacket no_host demo_range no_verify demo_write 5 (demo_addr 1) (packet demo_find) (demo_server 2) = Ok (tt, s') /\
    s_out s' = [Sent (demo_addr 1) r].
Proof.
  destruct (find_node_ignores_target no_host demo_range no_verify demo_write 5 (demo_addr 1) demo_find (packet demo_find) (demo_server 2))
    as (s' & r & p & r' & E & O & _).
  - apply demo_default; lia.
  - exact demo_writes.
  - reflexivity.
  - exact demo_table.
  - constructor; [exact (demo_heard 5)|vm_compute; reflexivity|split; reflexivity| |split; [discriminate|reflexivity]|reflexivity|exact demo_sendable].
    split; [apply hash_ok_replicate; unfold is_byte; lia|reflexivity].
  - reflexivity.
  - reflexivity.
  - exists s', r. split; [exact E|exact O].
Defined.

Lemma demo_enumerates : enumerates demo_range.
Proof. intros V m. reflexivity. Qed.

(** Server 2 looks for the torrent 3...3 and has asked node 1. *)
Definition demo_searching : Server (I := bytes) (B := Blacklist.blacklist) :=
  match getPeers demo_write 0 (replicate 20 3) (MkAddress (Some (IPAddr [10; 0; 0; 1] [])) 6881) 8 [] [] (demo_server 2) with
  | Ok (_, s) => s
  | _ => demo_server 2
  end.
Definition demo_token_response : Message (I := bytes) :=
  NewResponseMsg (bs "1") (MkResponse (replicate 20 1) [] [] (bs "tok") [] [] 0 0 None None None 0).
Definition demo_crash : Message (I := bytes) :=
  NewQueryMsg (bs "ad") queryMethodGetPeers (MkQueryArg (replicate 20 1) Hash.zeroHash (replicate 20 1) 0 [] false [] None None None 0 None 0).

Lemma demo_searching_table : s_rt4 demo_searching = s_rt4 (demo_server 2).
Proof. vm_compute. reflexivity. Qed.

Lemma get_peers_crash_witness :
  match handlePacket no_host demo_range no_verify demo_write 5 (demo_addr 1) (packet demo_token_response) demo_searching with
  | Ok (_, s1) => handlePacket no_host demo_range no_verify demo_write 6 (demo_addr 1) (packet demo_crash) s1 = Panic nilDeref
  | _ => False
  end.
Proof.
  destruct (Transactions.tm_trans (s_trans demo_searching) !! (bs "1", addr_String (demo_addr 1))) as [t|] eqn:Et;
    [|vm_compute in Et; discriminate Et].
  destruct (get_peers_crash no_host demo_range no_verify demo_write 5 [10; 0; 0; 1] 6881 [] demo_token_response (packet demo_token_response) t demo_searching)
    as (s1 & E & _); [ | | | | | |vm_compute; reflexivity|discriminate|reflexivity|reflexivity| |reflexivity|exact Et| |discriminate|reflexivity|reflexivity|reflexivity|reflexivity|].
  - apply (demo_default 2). lia.
  - exact demo_enumerates.
  - vm_compute. discriminate.
  - rewrite demo_searching_table. exact demo_table.
  - destruct (demo_heard 5). constructor; rewrite ?demo_searching_table; try assumption; vm_compute; reflexivity.
  - exact demo_sendable.
  - apply hash_ok_replicate. unfold is_byte. lia.
  - vm_compute in Et. injection Et as <-. reflexivity.
  - change (UDPAddr [10; 0; 0; 1] 6881 []) with (demo_addr 1) in E. rewrite E. vm_compute in E. injection E as <-. vm_compute. reflexivity.
Defined.

(** Server 2 after it learned node 1 from the list of another node. *)
Definition demo_learned : Server (I := bytes) (B := Blacklist.blacklist) :=
  match addNode2 0 (Routing.MkNode (replicate 20 1) (IPAddr [10; 0; 0; 1] []) 6881) false (demo_server 2) with
  | Ok (_, s) => s
  | _ => demo_server 2
  end.

Lemma learned_node_blacklisted_witness :
  match handlePacket no_host demo_range no_verify demo_write 5 (demo_addr 1) (packet demo_find) demo_learned with
  | Ok (_, s') => s_out s' = [] /\ Blacklist.In (bs "10.0.0.1") 6881 (s_blacklist s') = true
  | _ => False
  end.
Proof.
  destruct (learned_node_blacklisted no_host demo_range no_verify demo_write 0 5 (s_rt4 (demo_server 2)) (replicate 20 1) [10; 0; 0; 1] 6881
    demo_find (packet demo_find) demo_learned) as (s' & E & O & _ & _ & Hb);
    [reflexivity|vm_compute; reflexivity|reflexivity|vm_compute; reflexivity|vm_compute; reflexivity|vm_compute; reflexivity|discriminate|reflexivity|reflexivity| |].
  - left. split; reflexivity.
  - change (UDPAddr [10; 0; 0; 1] 6881 []) with (demo_addr 1) in E. rewrite E, O, Hb. split; vm_compute; reflexivity.
Defined.

Definition demo_announce (token : bytes) : Message (I := bytes) :=
  NewQueryMsg (bs "ae") queryMethodAnnouncePeer (MkQueryArg (replicate 20 1) Hash.zeroHash (replicate 20 3) 6881 token false [] None None None 0 None 0).

Lemma announce_token_inverted_witness :
  exists s', handlePacket no_host demo_range no_verify demo_write 5 (demo_addr 1) (packet (demo_announce (bs "forged"))) (demo_server 2) = Ok (tt, s') /\
    length (s_out s') = 2%nat.
Proof.
  destruct (announce_token_inverted no_host demo_range no_verify demo_write 5 (demo_addr 1) (demo_announce (bs "forged"))
    (packet (demo_announce (bs "forged"))) (demo_server 2)) as (s' & E & O).
  - apply demo_default; lia.
  - exact demo_writes.
  - exact demo_table.
  - constructor; [exact (demo_heard 5)|vm_compute; reflexivity|split; reflexivity| |split; [discriminate|reflexivity]|reflexivity|exact demo_sendable].
    split; [apply hash_ok_replicate; unfold is_byte; lia|reflexivity].
  - exists s'. split; [exact E|]. rewrite O. vm_compute. reflexivity.
Defined.

Lemma find_node_never_continues_witness :
  exists q s1, FindNode demo_write 0 (demo_addr 1) (replicate 20 9) (demo_server 2) = Ok (None, s1) /\ s_out s1 = [Sent (demo_addr 1) q].
Proof.
  destruct (find_node_never_continues no_host demo_range no_verify demo_write 0 1 (demo_addr 1) (replicate 20 9) (demo_server 2))
    as (q & s1 & E & O & _); [ |exact demo_writes|reflexivity|reflexivity| | |reflexivity|].
  - apply (demo_default 2). lia.
  - repeat constructor.
  - apply hash_ok_replicate. unfold is_byte. lia.
  - exists q, s1. split; [exact E|exact O].
Defined.

End DhtServerFacts.
