(* ===== verification/DhtRun.v ===== *)
(** * The running DHT server

    Models [Run], [Sync], [Close] and [stop] of [src/dht/dht_server.go] with
    the goroutines they start and stop: the reader of the socket, the two
    routing tables, the tokens, the peers and the transactions. A process is the
    server with its storage and the goroutines that have not returned; one step
    is one turn of a loop, one packet or one call of the interface. A panic ends
    the process and has no step.

    The properties: what holds of the whole state in every process, and what a
    closed server still does. *)

From S2P Require Import Prelude Sha1 Hash Net Address Routing RoutingFacts Krpc KrpcFacts DhtState DataStore DhtServer DhtServerFacts.
Import Net Address Krpc DhtServer DhtServerFacts.

Module DhtRun.

Section DhtRun.
Context {I : Type} `{I2PKeys I}.
Context {B : Type} `{Blacklist.Blacklist B}.
Context (LookupIP : bytes -> res (list bytes)).
Context (range : forall V, gmap bytes V -> list (bytes * V)).
Context (Verify : bytes -> bytes -> bytes -> bool).
Context (WriteTo : netAddr (I := I) -> bytes -> res Z).
Context {S : Type} `{!Routing.RoutingTableStorage (A := netAddr (I := I)) S}.

Abbreviation addr := (netAddr (I := I)).
Abbreviation Server := (Server (I := I) (B := B)).
Abbreviation Node := (Routing.Node (A := addr)).
Abbreviation wrappedNode := (Routing.wrappedNode (A := addr)).
Abbreviation bucket := (Routing.bucket (A := addr)).
Abbreviation routingTable := (Routing.routingTable (A := addr)).
Abbreviation act := (act (I := I) (B := B)).
#[local] Existing Instance act_ret.
#[local] Existing Instance act_bind.

(** ** The goroutines *)
Definition table (v6 : bool) (s : Server) : routingTable := if v6 then s_rt6 s else s_rt4 s.
Definition with_table (v6 : bool) (rt : routingTable) (s : Server) : Server :=
  MkServer (s_conf s) (s_ipv4 s) (s_ipv6 s) (s_want s) (if v6 then s_rt4 s else rt) (if v6 then rt else s_rt6 s) (s_tokens s)
    (s_tokenPeers s) (s_trans s) (s_store s) (s_blacklist s) (s_out s).

(** The pings of [CheckAllNodes]: whether one panicked, and the server. The
    panic is one of the nil address, before anything is changed. *)
Fixpoint ping_dubious (now : Z) (l : list wrappedNode) (s : Server) : bool * Server :=
  match l with
  | [] => (false, s)
  | w :: l' =>
      match Routing.Status now w with
      | Routing.nodeStatusDubious =>
          match (match Addr (node_Addr (Routing.w_Node w)) with Some a => Ping WriteTo now a [] | None => request_nil end) s with
          | Ok (_, s') => ping_dubious now l' s'
          | _ => (true, s)
          end
      | _ => ping_dubious now l' s
      end
  end.

(** [checkAllBuckets] with its pings: a panic is recovered, and the buckets
    after it are not checked. *)
Fixpoint check_buckets (now : Z) (l : list bucket) (s : Server) : list bucket * Server :=
  match l with
  | [] => ([], s)
  | b :: l' =>
      if decide (Routing.b_Nodes b = [] \/ now - Routing.b_LastChanged b < Routing.dubiousTimeout)
      then let '(l'', s) := check_buckets now l' s in (b :: l'', s)
      else
        let '(panicked, s) := ping_dubious now (Routing.b_Nodes b) s in
        if panicked : bool then (b :: l', s)
        else
          let '(nodes, panicked) := Routing.del_all (Routing.bad_indexes now 0 (Routing.b_Nodes b)) (Routing.b_Nodes b) in
          let b' := Routing.MkBucket nodes (Routing.b_LastChanged b) in
          if panicked : bool then (b' :: l', s) else let '(l'', s) := check_buckets now l' s in (b' :: l'', s)
  end.
Definition check_table (v6 : bool) (now : Z) (s : Server) : Server :=
  let rt := table v6 s in
  let '(l, s) := check_buckets now (Routing.rt_bkts rt) s in
  with_table v6 (Routing.MkTable (Routing.rt_k rt) (Routing.rt_root rt) l) s.

(** [cleanupExpiredTransactions] with the timeouts it calls. *)
Definition expire (now interval : Z) : act unit :=
  s ← get_server;
  let '(tm, expired) := Transactions.cleanupExpiredTransactions now interval (s_trans s) in
  set_trans tm ≫= fun _ => for_each onTimeout expired.

(** ** The interface *)
Inductive call :=
  | CallAddNode (node : Node) | CallPing (a : addr) (cbs : list nat) | CallFindNode (a : addr) (target : bytes)
  | CallGetPeers (infohash : bytes) (cbs : list nat) | CallAnnouncePeer (infohash : bytes) (port : Z) (impliedPort : bool)
  | CallBootstrap (addrs : list bytes).
Definition do_call (now : Z) (c : call) : act unit :=
  match c with
  | CallAddNode node => Server_AddNode now node ≫= fun _ => mret tt
  | CallPing a cbs => Ping WriteTo now a cbs ≫= fun _ => mret tt
  | CallFindNode a target => FindNode WriteTo now a target ≫= fun _ => mret tt
  | CallGetPeers infohash cbs => Server_GetPeers WriteTo now infohash cbs
  | CallAnnouncePeer infohash port implied => AnnouncePeer WriteTo now infohash port implied ≫= fun _ => mret tt
  | CallBootstrap addrs => Bootstrap LookupIP WriteTo now addrs
  end.

(** ** The process *)
Inductive goroutine := GRead | GTable (v6 : bool) | GTokens | GPeers | GTransactions.
#[global] Instance goroutine_eq : EqDecision goroutine.
Proof. solve_decision. Defined.

(** [p_syncs]: the calls of [Sync] that wait, by the table they wait for. *)
Record process := MkProcess { p_server : Server; p_store : S; p_closed : bool; p_running : list goroutine; p_syncs : list bool }.

Definition Run (s : Server) (st : S) : process :=
  MkProcess s st false [GTable false; GTable true; GTokens; GPeers; GTransactions; GRead] [].
Definition with_server (s : Server) (p : process) : process := MkProcess s (p_store p) (p_closed p) (p_running p) (p_syncs p).
Definition with_syncs (v : list bool) (p : process) : process := MkProcess (p_server p) (p_store p) (p_closed p) (p_running p) v.
Definition with_store (st : S) (p : process) : process := MkProcess (p_server p) st (p_closed p) (p_running p) (p_syncs p).
Definition returned (g : goroutine) (p : process) : process :=
  MkProcess (p_server p) (p_store p) (p_closed p) (filter (.≠ g) (p_running p)) (p_syncs p).
Definition dumped (v6 : bool) (p : process) : process := with_store (Routing.dump v6 (table v6 (p_server p)) (p_store p)) p.
(** [Sync] goes on to the second table. *)
Definition next_sync (v6 : bool) : list bool := if v6 then [] else [true].

(** [stop], which [Close] calls once. *)
Definition stop (s : Server) : Server :=
  MkServer (s_conf s) (s_ipv4 s) (s_ipv6 s) (s_want s) (s_rt4 s) (s_rt6 s) (Tokens.Stop (s_tokens s)) (PeerStore.Stop (s_tokenPeers s))
    (s_trans s) (s_store s) (Blacklist.bl_Close (s_blacklist s)) (s_out s).
Definition Close (p : process) : process :=
  if p_closed p then p else MkProcess (stop (p_server p)) (p_store p) true (p_running p) (p_syncs p).

Definition with_tokens (t : Tokens.tokenManager) (s : Server) : Server :=
  MkServer (s_conf s) (s_ipv4 s) (s_ipv6 s) (s_want s) (s_rt4 s) (s_rt6 s) t (s_tokenPeers s) (s_trans s) (s_store s) (s_blacklist s) (s_out s).
Definition with_peers (t : PeerStore.tokenPeerManager (I := I)) (s : Server) : Server :=
  MkServer (s_conf s) (s_ipv4 s) (s_ipv6 s) (s_want s) (s_rt4 s) (s_rt6 s) (s_tokens s) t (s_trans s) (s_store s) (s_blacklist s) (s_out s).

(** One turn of a loop of [Run] other than a packet, or a call. Every loop
    chooses among the channels that are ready, so a tick may still be taken after
    [Close]. *)
Inductive turn (respTimeout : Z) (p : process) : process -> Prop :=
  | run_read_error : GRead ∈ p_running p -> turn respTimeout p (returned GRead p)
  | table_tick v6 now : GTable v6 ∈ p_running p -> turn respTimeout p (with_server (check_table v6 now (p_server p)) p)
  | table_sync v6 l r : GTable v6 ∈ p_running p -> p_syncs p = l ++ v6 :: r -> turn respTimeout p (with_syncs (l ++ next_sync v6 ++ r) (dumped v6 p))
  | table_exit v6 : GTable v6 ∈ p_running p -> p_closed p = true -> turn respTimeout p (returned (GTable v6) (dumped v6 p))
  | token_update random : GTokens ∈ p_running p -> turn respTimeout p (with_server (with_tokens (Tokens.updateToken random (s_tokens (p_server p))) (p_server p)) p)
  | token_clear now : GTokens ∈ p_running p ->
      turn respTimeout p (with_server (with_tokens (Tokens.clear now (10 * Routing.minute) (s_tokens (p_server p))) (p_server p)) p)
  | peers_clear now : GPeers ∈ p_running p ->
      turn respTimeout p (with_server (with_peers (PeerStore.cleanupExpiredPeers now (24 * 60 * Routing.minute) (s_tokenPeers (p_server p))) (p_server p)) p)
  | trans_expire now s : GTransactions ∈ p_running p -> expire now respTimeout (p_server p) = Ok (tt, s) -> turn respTimeout p (with_server s p)
  | loop_exit g : g ∈ [GTokens; GPeers; GTransactions] -> g ∈ p_running p -> p_closed p = true -> turn respTimeout p (returned g p)
  | sync_call : turn respTimeout p (with_syncs (p_syncs p ++ [false]) p)
  | sync_exit v6 l r : p_closed p = true -> p_syncs p = l ++ v6 :: r -> turn respTimeout p (with_syncs (l ++ next_sync v6 ++ r) p)
  | close_call : turn respTimeout p (Close p)
  | api_call now c s : do_call now c (p_server p) = Ok (tt, s) -> turn respTimeout p (with_server s p).

(** A packet is read and handled, or something else happens. *)
Inductive step (respTimeout : Z) (p : process) : process -> Prop :=
  | run_packet now raddr data s :
      GRead ∈ p_running p -> handlePacket LookupIP range Verify WriteTo now raddr data (p_server p) = Ok (tt, s) -> step respTimeout p (with_server s p)
  | run_turn p' : turn respTimeout p p' -> step respTimeout p p'.
End DhtRun.

(** ** What holds of every process *)
Section Facts.
Context {I : Type} `{I2PKeys I}.
Context {B : Type} `{Blacklist.Blacklist B}.
Context (LookupIP : bytes -> res (list bytes)).
Context (range : forall V, gmap bytes V -> list (bytes * V)).
Context (Verify : bytes -> bytes -> bytes -> bool).
Context (WriteTo : netAddr (I := I) -> bytes -> res Z).
Abbreviation addr := (netAddr (I := I)).
Abbreviation Server := (Server (I := I) (B := B)).
Abbreviation Node := (Routing.Node (A := addr)).
Abbreviation act := (act (I := I) (B := B)).
Abbreviation Trans := (@Transactions.transactionManager addr QueryArg method).

(** A table of the server with the configuration [conf]: the buckets are those
    of the distances to its ID, and the nodes satisfy [P]. *)
Record table_fits (conf : Config (I := I)) (P : Node -> Prop) (rt : Routing.routingTable (A := addr)) : Prop := {
  tf_placed : RoutingFacts.table_placed rt;
  tf_root : Routing.rt_root rt = c_ID conf;
  tf_k : Routing.rt_k rt = c_K conf;
  tf_nodes : RoutingFacts.table_all P rt
}.
Definition keyed (tm : Trans) : Prop := forall k t, Transactions.tm_trans tm !! k = Some t -> Transactions.key_of t = k.
Definition of_v4 (v4 : bool) (n : Node) : Prop := v4 = true /\ IsIPv6 (node_Addr n) = false.
Definition of_v6 (v6 : bool) (n : Node) : Prop := v6 = true /\ IsIPv6 (node_Addr n) = true.
(** A node the storage gave, whatever it is; or another one than the server
    itself, of the protocol of the table. *)
Definition fits_table (conf : Config (I := I)) (L : list Node) (pr : Node -> Prop) (n : Node) : Prop :=
  n ∈ L \/ Routing.n_ID n <> c_ID conf /\ pr n.

(** [L4] and [L6] are the nodes the storage gave when the server was made. *)
Record server_ok (conf : Config (I := I)) (L4 L6 : list Node) (v4 v6 : bool) (s : Server) : Prop := {
  so_conf : s_conf s = conf;
  so_ipv4 : s_ipv4 s = v4;
  so_ipv6 : s_ipv6 s = v6;
  so_rt4 : table_fits conf (fits_table conf L4 (of_v4 v4)) (s_rt4 s);
  so_rt6 : table_fits conf (fits_table conf L6 (of_v6 v6)) (s_rt6 s);
  so_trans : keyed (s_trans s)
}.

Section Keeps.
Context (conf : Config (I := I)) (L4 L6 : list Node) (v4 v6 : bool).
Definition keeps {X} (m : act X) : Prop := forall s x s', m s = Ok (x, s') -> server_ok conf L4 L6 v4 v6 s -> server_ok conf L4 L6 v4 v6 s'.

Lemma keeps_ret {X} (x : X) : keeps (fun s => Ok (x, s)).
Proof. by intros s y s' [= <- <-]. Qed.
Lemma keeps_bind {X Y} (m : act X) (f : X -> act Y) : keeps m -> (forall x, keeps (f x)) -> keeps (act_bind X Y f m).
Proof. intros Hm Hf s y s2 (x & s1 & E1 & E2)%run_bind_Ok Hok. eapply Hf; [exact E2|]. by eapply Hm. Qed.
Lemma keeps_get {Y} (f : Server -> act Y) : (forall s, server_ok conf L4 L6 v4 v6 s -> keeps (f s)) -> keeps (act_bind _ Y f get_server).
Proof. intros Hf s y s2 E Hok. exact (Hf s Hok s y s2 E Hok). Qed.
Lemma keeps_lift {X Y} (r : res X) (f : X -> act Y) : (forall x, r = Ok x -> keeps (f x)) -> keeps (act_bind X Y f (lift r)).
Proof.
  intros Hf s y s2 (x & s1 & E1 & E2)%run_bind_Ok Hok. unfold lift in E1. destruct r; try discriminate. injection E1 as -> ->.
  by eapply Hf.
Qed.
Lemma keeps_panic {X} p : keeps (panic (A := X) p).
Proof. by intros s x s'. Qed.
Lemma keeps_nofuel {X} : keeps (fun _ => NoFuel : res (X * Server)).
Proof. by intros s x s'. Qed.
Lemma keeps_emit o : keeps (emit o).
Proof. intros s x s' [= <- <-] []. by constructor. Qed.
Lemma keeps_tokens t : keeps (set_tokens t).
Proof. intros s x s' [= <- <-] []. by constructor. Qed.
Lemma keeps_tokenPeers t : keeps (set_tokenPeers t).
Proof. intros s x s' [= <- <-] []. by constructor. Qed.
Lemma keeps_store d : keeps (set_store d).
Proof. intros s x s' [= <- <-] []. by constructor. Qed.
Lemma keeps_blacklist b : keeps (set_blacklist b).
Proof. intros s x s' [= <- <-] []. by constructor. Qed.
Lemma keeps_trans tm : keyed tm -> keeps (set_trans tm).
Proof. intros Hk s x s' [= <- <-] []. by constructor. Qed.
Lemma keeps_for_each {X} (f : X -> act unit) l : (forall x, keeps (f x)) -> keeps (for_each f l).
Proof. intros Hf. induction l as [|x l IH]; [apply keeps_ret|]. by apply keeps_bind. Qed.
End Keeps.

(** ** The transactions stay under their keys *)
Lemma keyed_id (tm : Trans) : keyed tm -> keyed (Transactions.GetTransactionID tm).2.
Proof. done. Qed.
Lemma keyed_add t (tm : Trans) : keyed tm -> keyed (Transactions.AddTransaction t tm).
Proof. intros Hk k u. cbn. rewrite lookup_insert_Some. intros [[<- <-]|[_ Hu]]; [done|by apply Hk]. Qed.
Lemma keyed_pop id a (tm : Trans) : keyed tm -> keyed (Transactions.PopTransaction id a tm).2.
Proof.
  intros Hk. unfold Transactions.PopTransaction. destruct (Transactions.tm_trans tm !! _); [|done].
  intros k u. cbn. rewrite lookup_delete_Some. intros [_ Hu]. by apply Hk.
Qed.
Lemma keyed_cleanup now i (tm : Trans) : keyed tm -> keyed (Transactions.cleanupExpiredTransactions now i tm).1.
Proof. intros Hk k u. cbn. intros [Hu _]%map_lookup_filter_Some. by apply Hk. Qed.

(** ** The tables stay in shape *)
Lemma addNode_fits conf P n now rt r rt' :
  Routing.addNode n now rt = Ok (r, rt') -> P n -> table_fits conf P rt -> table_fits conf P rt'.
Proof.
  intros E Hn [Hok Hr Hk Hall]. destruct (RoutingFacts.addNode_placed n now rt Hok) as (? & ? & E' & Hok' & Hr' & Hk').
  rewrite E in E'. injection E' as <- <-. split; [done|congruence|congruence|]. by eapply RoutingFacts.addNode_all.
Qed.
Lemma AddNode_fits conf L pr n now rt r rt' :
  Routing.AddNode n now rt = Ok (r, rt') -> pr n -> table_fits conf (fits_table conf L pr) rt -> table_fits conf (fits_table conf L pr) rt'.
Proof.
  unfold Routing.AddNode. case_decide as Hself; [by intros [= <- <-]|]. intros E Hn Hrt. eapply addNode_fits; [exact E| |exact Hrt].
  right. split; [|done]. by rewrite <- (tf_root _ _ _ Hrt).
Qed.
Lemma subset_fits conf P rt l :
  Forall2 (fun b b' => forall w, w ∈ Routing.b_Nodes b' -> w ∈ Routing.b_Nodes b) (Routing.rt_bkts rt) l ->
  table_fits conf P rt -> table_fits conf P (Routing.MkTable (Routing.rt_k rt) (Routing.rt_root rt) l).
Proof.
  intros Hs [(Hr & Hl & Hb) Hroot Hk Hall]. rewrite RoutingFacts.table_all_buckets in Hall. split; [|done|done|].
  - split_and!; [done|cbn; by rewrite <- (Forall2_length _ _ _ Hs)|]. intros i b' Hb'.
    destruct (Forall2_lookup_r _ _ _ _ _ Hs Hb') as (b & Eb & Hsub). pose proof (Hb _ _ Eb) as Hf.
    rewrite Forall_forall in Hf |- *. auto.
  - apply RoutingFacts.table_all_buckets. intros i b' Hb'. destruct (Forall2_lookup_r _ _ _ _ _ Hs Hb') as (b & Eb & Hsub).
    pose proof (Hall _ _ Eb) as Hf. rewrite Forall_forall in Hf |- *. auto.
Qed.
End Facts.

Create HintDb keeps_db.
#[export] Hint Resolve keeps_panic keeps_nofuel keeps_emit keeps_tokens keeps_tokenPeers keeps_store keeps_blacklist : keeps_db.
#[export] Hint Constants Opaque : keeps_db.

(** Follows the binds of an operation and splits its branches. *)
Ltac keep := unfold mbind, mret, act_ret; repeat match goal with
  | |- keeps _ _ _ _ _ (act_bind _ _ _ get_server) => apply keeps_get; intros ? ?
  | |- keeps _ _ _ _ _ (act_bind _ _ _ (lift _)) => apply keeps_lift; intros
  | |- keeps _ _ _ _ _ (act_bind _ _ _ _) => apply keeps_bind; [|intros]
  | |- keeps _ _ _ _ _ (for_each _ _) => apply keeps_for_each; intros
  | |- keeps _ _ _ _ _ (fun s => Ok (_, s)) => apply keeps_ret
  | |- keeps _ _ _ _ _ (set_trans _) => apply keeps_trans
  | E : _ = (_, ?tm) |- keyed ?tm => apply (f_equal snd) in E; cbn [snd] in E; rewrite <- E; clear E
  | E : _ = (?tm, _) |- keyed ?tm => apply (f_equal fst) in E; cbn [fst] in E; rewrite <- E; clear E
  | |- keyed (s_trans _) => eapply so_trans; eassumption
  | |- keyed (Transactions.AddTransaction _ _) => apply keyed_add
  | |- keyed (Transactions.GetTransactionID _).2 => apply keyed_id
  | |- keyed (Transactions.PopTransaction _ _ _).2 => apply keyed_pop
  | |- keyed (Transactions.cleanupExpiredTransactions _ _ _).1 => apply keyed_cleanup
  | |- keeps _ _ _ _ _ _ => solve [eauto with keeps_db nocore]
  | |- keeps _ _ _ _ _ _ => progress case_match
  end.

Section Operations.
Context {I : Type} `{I2PKeys I}.
Context {B : Type} `{Blacklist.Blacklist B}.
Context (LookupIP : bytes -> res (list bytes)).
Context (range : forall V, gmap bytes V -> list (bytes * V)).
Context (Verify : bytes -> bytes -> bytes -> bool).
Context (WriteTo : netAddr (I := I) -> bytes -> res Z).
Context (conf : Config (I := I)) (L4 L6 : list (Routing.Node (A := netAddr (I := I)))) (v4 v6 : bool).
Abbreviation addr := (netAddr (I := I)).
Abbreviation keeps := (keeps (I := I) (B := B) conf L4 L6 v4 v6).

Lemma keeps_blacklist_add now ip port : keeps (blacklist_add now ip port).
Proof. unfold blacklist_add. keep. Qed.
#[local] Hint Resolve keeps_blacklist_add : keeps_db.
Lemma keeps__send now a m : keeps (_send WriteTo now a m).
Proof. unfold _send. keep. Qed.
#[local] Hint Resolve keeps__send : keeps_db.
Lemma keeps_send now a m : keeps (send WriteTo now a m).
Proof. unfold send. keep. Qed.
#[local] Hint Resolve keeps_send : keeps_db.
Lemma keeps_sendError now a tid reason code : keeps (sendError WriteTo now a tid reason code).
Proof. unfold sendError. keep. Qed.
Lemma keeps_reply now a tid r : keeps (reply WriteTo now a tid r).
Proof. unfold reply. keep. Qed.
#[local] Hint Resolve keeps_sendError keeps_reply : keeps_db.
Lemma keeps_request now t : keeps (request WriteTo now t).
Proof. unfold request. keep. Qed.
Lemma keeps_request_nil : keeps request_nil.
Proof. unfold request_nil. keep. Qed.
#[local] Hint Resolve keeps_request keeps_request_nil : keeps_db.

Lemma keeps_AddNode now node : keeps (Server_AddNode now node).
Proof.
  unfold Server_AddNode. keep; subst; intros s' x s2 [= <- <-] []; constructor; try done;
    match goal with Hs : server_ok _ _ _ _ _ _ |- _ => destruct Hs end; (eapply AddNode_fits; [eassumption|split; [congruence|done]|done]).
Qed.
#[local] Hint Resolve keeps_AddNode : keeps_db.
Lemma keeps_addNode now a id ro : keeps (addNode now a id ro).
Proof. unfold addNode. keep. Qed.
Lemma keeps_addNode2 now node ro : keeps (addNode2 now node ro).
Proof. unfold addNode2. keep. Qed.
Lemma keeps_Done t r : keeps (Done t r).
Proof. unfold Done. keep. Qed.
Lemma keeps_getPeers now info a depth ids cbs : keeps (getPeers WriteTo now info a depth ids cbs).
Proof. unfold getPeers. keep. Qed.
Lemma keeps_Ping now a cbs : keeps (Ping WriteTo now a cbs).
Proof. unfold Ping. keep. Qed.
Lemma keeps_findNode now target a depth ids : keeps (findNode WriteTo now target a depth ids).
Proof. unfold findNode. keep. Qed.
#[local] Hint Resolve keeps_addNode keeps_addNode2 keeps_Done keeps_getPeers keeps_Ping keeps_findNode : keeps_db.

(** The queries *)
Lemma keeps_handleQuery now a m : keeps (handleQuery range Verify WriteTo now a m).
Proof.
  unfold handleQuery, handleFindNodeQuery, handleGetPeersQuery, handleAnnouncePeerQuery, handleSampleInfoHashQuery, handlePutQuery, handleGetQuery.
  keep.
Qed.
#[local] Hint Resolve keeps_handleQuery : keeps_db.
Lemma keeps_handleQueryMessage now a m : keeps (handleQueryMessage range Verify WriteTo now a m).
Proof. unfold handleQueryMessage. keep. Qed.

(** The answers *)
Lemma keeps_processNodeList now l target ids ro found nodes upd : keeps (processNodeList now l target ids ro found nodes upd).
Proof. revert found nodes upd. induction l as [|n l IH]; intros found nodes upd; cbn [processNodeList]; keep. Qed.
#[local] Hint Resolve keeps_processNodeList : keeps_db.
Lemma keeps_processResponseNodes now t target m : keeps (processResponseNodes now t target m).
Proof. unfold processResponseNodes. keep. Qed.
#[local] Hint Resolve keeps_processResponseNodes : keeps_db.
Lemma keeps_OnResponse now t a m : keeps (OnResponse WriteTo now t a m).
Proof. unfold OnResponse, onGetPeersResp, onFindNodeResp, storeTokenIfPresent, handlePeersIfFound. keep. Qed.
Lemma keeps_pop tid a : keeps (pop tid a).
Proof. unfold pop. keep. Qed.
#[local] Hint Resolve keeps_handleQueryMessage keeps_OnResponse keeps_pop : keeps_db.
Lemma keeps_handlePacket now a data : keeps (handlePacket LookupIP range Verify WriteTo now a data).
Proof. unfold handlePacket, handleMessage, handleResponseMessage, processTransaction, handleErrorMessage, onError. keep. Qed.

(** The interface and the timers *)
Lemma keeps_announce_loop now info port implied l : keeps (announce_loop WriteTo now info port implied l).
Proof. induction l as [|n l IH]; cbn [announce_loop]; keep. Qed.
#[local] Hint Resolve keeps_announce_loop : keeps_db.
Lemma keeps_call now c : keeps (do_call LookupIP WriteTo now c).
Proof. unfold do_call, FindNode, Server_GetPeers, AnnouncePeer, Bootstrap. keep. Qed.
Lemma keeps_expire now interval : keeps (expire now interval).
Proof. unfold expire, onTimeout. keep. Qed.

Abbreviation ok := (server_ok (I := I) (B := B) conf L4 L6 v4 v6).
Lemma ping_dubious_ok now l s : ok s -> ok (ping_dubious WriteTo now l s).2.
Proof.
  revert s. induction l as [|w l IH]; intros s Hs; cbn [ping_dubious]; [done|]. destruct (Routing.Status now w); [by apply IH| |by apply IH].
  destruct (Addr _) as [a|].
  - destruct (Ping WriteTo now a [] s) as [[x s']| | |] eqn:E; [|done..]. apply IH. by eapply keeps_Ping.
  - destruct (request_nil s) as [[x s']| | |] eqn:E; [|done..]. apply IH. by eapply keeps_request_nil.
Qed.
Lemma check_buckets_ok now l s : ok s ->
  ok (check_buckets WriteTo now l s).2 /\
  Forall2 (fun b b' => forall w, w ∈ Routing.b_Nodes b' -> w ∈ Routing.b_Nodes b) l (check_buckets WriteTo now l s).1.
Proof.
  assert (Hself : forall l : list (Routing.bucket (A := addr)), Forall2 (fun b b' => forall w, w ∈ Routing.b_Nodes b' -> w ∈ Routing.b_Nodes b) l l).
  { intros k. apply Forall_Forall2_diag, Forall_forall. done. }
  revert s. induction l as [|b l IH]; intros s Hs; cbn [check_buckets]; [by split|]. case_decide.
  - specialize (IH s Hs). destruct (check_buckets WriteTo now l s) as [l' s']. destruct IH. split; [done|by constructor].
  - pose proof (ping_dubious_ok now (Routing.b_Nodes b) s Hs) as Hp. destruct (ping_dubious _ _ _ s) as [[|] s1]; cbn [snd] in Hp; [by split|].
    pose proof (RoutingFacts.del_all_subset (Routing.bad_indexes now 0 (Routing.b_Nodes b)) (Routing.b_Nodes b)) as Hd.
    destruct (Routing.del_all _ _) as [nodes [|]]; cbn [fst] in Hd.
    + split; [done|]. by constructor.
    + specialize (IH s1 Hp). destruct (check_buckets WriteTo now l s1) as [l' s']. destruct IH. split; [done|by constructor].
Qed.
Lemma check_table_ok w6 now s : ok s -> ok (check_table WriteTo w6 now s).
Proof.
  intros Hs. unfold check_table. pose proof (check_buckets_ok now (Routing.rt_bkts (table w6 s)) s Hs) as [Hs' Hsub].
  destruct (check_buckets _ _ _ s) as [l s']. cbn [fst snd] in *. destruct Hs, Hs'.
  constructor; try done; destruct w6; cbn [s_rt4 s_rt6 with_table table] in *; try done; by apply subset_fits.
Qed.
End Operations.

Section Process.
Context {I : Type} `{I2PKeys I}.
Context {B : Type} `{Blacklist.Blacklist B}.
Context (LookupIP : bytes -> res (list bytes)).
Context (range : forall V, gmap bytes V -> list (bytes * V)).
Context (Verify : bytes -> bytes -> bytes -> bool).
Context (WriteTo : netAddr (I := I) -> bytes -> res Z).
Context {S : Type} `{!Routing.RoutingTableStorage (A := netAddr (I := I)) S}.
Context (conf : Config (I := I)) (L4 L6 : list (Routing.Node (A := netAddr (I := I)))) (v4 v6 : bool) (respTimeout : Z).
Abbreviation ok := (server_ok (I := I) (B := B) conf L4 L6 v4 v6).
Abbreviation step := (step LookupIP range Verify WriteTo respTimeout (B := B) (S := S)).

Abbreviation process := (process (I := I) (B := B) (S := S)).

(** The goroutines all run until the server is closed, only the reader may
    have returned. *)
Definition process_ok (p : process) : Prop :=
  ok (p_server p) /\ (p_closed p = false -> forall g, g <> GRead -> g ∈ p_running p).

Lemma tokens_ok t s : ok s -> ok (with_tokens t s).
Proof. intros []. by constructor. Qed.
Lemma peers_ok t s : ok s -> ok (with_peers t s).
Proof. intros []. by constructor. Qed.
Lemma stopped_ok s : ok s -> ok (stop s).
Proof. intros []. by constructor. Qed.

Lemma step_process_ok p p' : step p p' -> process_ok p -> process_ok p'.
Proof.
  intros Hst [Hok Hrun]. destruct Hst as [now a data s _ E|? [| | | |random|now|now|now s _ E|g Hg| | | |now c s E]]; (split; [cbn [p_server with_server with_syncs dumped with_store returned]; try done|]); try done.
  - by eapply keeps_handlePacket.
  - intros Hc g Hg. apply list_elem_of_filter. auto.
  - by apply check_table_ok.
  - intros Hc. cbn in Hc. congruence.
  - by apply tokens_ok.
  - by apply tokens_ok.
  - by apply peers_ok.
  - by eapply keeps_expire.
  - intros Hc. cbn in Hc. congruence.
  - unfold Close. destruct (p_closed p); [done|]. by apply stopped_ok.
  - unfold Close. destruct (p_closed p) eqn:Ec; [by rewrite Ec|done].
  - by eapply keeps_call.
Qed.
Lemma steps_process_ok p p' : rtc step p p' -> process_ok p -> process_ok p'.
Proof. induction 1; [done|]. eauto using step_process_ok. Qed.

(** *** The start *)

(** The nodes the storage gives the table [w6] at [now]: those seen in the last
    fifteen minutes. *)
Definition stored (w6 : bool) (now : Z) (st : S) : list (Routing.Node (A := netAddr (I := I))) :=
  match (Routing.storage_Load (c_ID conf) w6 st).1 with
  | Ok nodes => map Routing.w_Node (filter (fun w => now - Routing.w_LastChanged w < Routing.dubiousTimeout) nodes)
  | _ => []
  end.
(** The storage after [Load]. *)
Definition loaded (w6 : bool) (st : S) : S := (Routing.storage_Load (c_ID conf) w6 st).2.

Lemma new_fits P : length (c_ID conf) = 20%nat -> table_fits conf P (Routing.newRoutingTable (c_K conf) (c_ID conf)).
Proof.
  intros Hid. split; [by apply RoutingFacts.table_ok_placed, RoutingFacts.new_table_ok|done|done|]. apply RoutingFacts.table_all_buckets. intros i b Hb.
  apply lookup_replicate in Hb as [-> _]. constructor.
Qed.
Lemma load_fits P nodes now rt rt' :
  Routing.load nodes now rt = Ok rt' -> Forall (fun w => now - Routing.w_LastChanged w < Routing.dubiousTimeout -> P (Routing.w_Node w)) nodes ->
  table_fits conf P rt -> table_fits conf P rt'.
Proof.
  intros E Hn. revert rt E. induction Hn as [|w nodes HP _ IH]; intros rt E Hrt; cbn [Routing.load] in E; [by injection E as <-|].
  case_decide; [|by eapply IH]. destruct (Routing.addNode _ _ rt) as [[st rt1]| | |] eqn:Ea; try discriminate.
  rewrite bind_Ok in E. eapply IH; [exact E|]. eapply addNode_fits; [exact Ea|auto|exact Hrt].
Qed.
Lemma open_fits w6 now (st st' : S) pr rt :
  length (c_ID conf) = 20%nat -> Routing.openRoutingTable (c_K conf) (c_ID conf) w6 now st = (Ok rt, st') ->
  table_fits conf (fits_table conf (stored w6 now st) pr) rt /\ st' = loaded w6 st.
Proof.
  intros Hid. unfold Routing.openRoutingTable, stored, loaded. destruct (Routing.storage_Load _ _ st) as [[nodes|e| |] st1] eqn:E; try discriminate.
  - intros [= El <-]. split; [|done]. eapply load_fits; [exact El| |by apply new_fits]. apply Forall_forall. intros w Hw Hf. left.
    apply list_elem_of_fmap. exists w. split; [done|]. by apply list_elem_of_filter.
  - intros [= <- <-]. split; [|done]. by apply new_fits.
Qed.
End Process.

Lemma initialize_ok {I} `{I2PKeys I} {B} `{Blacklist.Blacklist B} {S} `{!Routing.RoutingTableStorage (A := netAddr (I := I)) S}
    (conf : Config (I := I)) v4 v6 want token (bl : B) now (st st' : S) s :
  length (c_ID conf) = 20%nat -> initializeServer conf v4 v6 want token bl now st = (Ok s, st') ->
  server_ok conf (stored conf false now st) (stored conf true now (loaded conf false st)) v4 v6 s.
Proof.
  intros Hid. unfold initializeServer. destruct (Routing.openRoutingTable _ _ false now st) as [[rt4| | |] st1] eqn:E4; try discriminate.
  destruct (Routing.openRoutingTable _ _ true now st1) as [[rt6| | |] st2] eqn:E6; try discriminate. rewrite bind_Ok. intros [= <- <-].
  eapply open_fits in E4 as [Hf4 ->]; [|done]. eapply open_fits in E6 as [Hf6 _]; [|done]. by constructor.
Qed.

(** C16: of a server made by [NewServer] and run, in every order of packets,
    timers, calls, [Sync] and [Close]: the configuration stays; the two tables
    keep every node in the bucket of its distance to the server; a node that the
    storage did not give is never the server itself, and is of IPv4 (or I2P) in
    the first table and of IPv6 in the second, of a protocol that is on; every
    transaction is filed under its id and address; and until [Close] every
    goroutine but the reader runs. The nodes the storage gave at the start, and
    that were seen in the last fifteen minutes, are taken as they are: the code
    checks neither their ID nor their protocol. The ID is 20 bytes, as its type
    has it. A packet is handled in one step, and a run in which one panics
    ends there. *)
Theorem server_invariant {I} `{I2PKeys I} {B} `{Blacklist.Blacklist B} LookupIP range Verify WriteTo
    {S} `{!Routing.RoutingTableStorage (A := netAddr (I := I)) S} respTimeout random token local (config : Config (I := I)) protocols (bl : B) now
    (st st' : S) s p :
  let conf := Config_set random config in
  NewServer random token local config protocols bl now st = (Ok s, st') ->
  length (c_ID conf) = 20%nat ->
  rtc (step LookupIP range Verify WriteTo respTimeout) (Run s st') p ->
  process_ok conf (stored conf false now st) (stored conf true now (loaded conf false st)) (s_ipv4 s) (s_ipv6 s) p.
Proof.
  intros conf E Hid Hsteps. eapply steps_process_ok; [exact Hsteps|]. split; [|intros _ g Hg; cbn [p_running Run]; destruct g as [|[|]| | |]; try done; set_solver].
  unfold NewServer in E. destruct (if decide (protocols = []) then _ else _) as [ps| | |]; try discriminate.
  destruct (buildWantAndFlags ps) as [[w4 w6] want]. fold conf in E.
  assert (Hf : s_ipv4 s = w4 /\ s_ipv6 s = w6).
  { unfold initializeServer in E. destruct (Routing.openRoutingTable _ _ false now st) as [[rt4| | |] st1]; try discriminate.
    destruct (Routing.openRoutingTable _ _ true now st1) as [[rt6| | |] st2]; try discriminate. rewrite bind_Ok in E. by injection E as <- <-. }
  destruct Hf as [<- <-]. by eapply initialize_ok.
Qed.

(** ** What only a put changes *)

(** The operation leaves the configuration and the data store alone. *)
Definition steady {I B X} (m : act (I := I) (B := B) X) : Prop :=
  forall s x s', m s = Ok (x, s') -> s_conf s' = s_conf s /\ s_store s' = s_store s.

Section Steady.
Context {I : Type} `{I2PKeys I}.
Context {B : Type} `{Blacklist.Blacklist B}.
Abbreviation act := (act (I := I) (B := B)).

Lemma steady_ret {X} (x : X) : steady (I := I) (B := B) (fun s => Ok (x, s)).
Proof. by intros s y s' [= <- <-]. Qed.
Lemma steady_bind {X Y} (m : act X) (f : X -> act Y) : steady m -> (forall x, steady (f x)) -> steady (act_bind X Y f m).
Proof. intros Hm Hf s y s2 (x & s1 & E1 & E2)%run_bind_Ok. destruct (Hm _ _ _ E1), (Hf _ _ _ _ E2). split; congruence. Qed.
Lemma steady_get : steady (I := I) (B := B) get_server.
Proof. by intros s x s' [= <- <-]. Qed.
Lemma steady_lift {X} (r : res X) : steady (I := I) (B := B) (lift r).
Proof. intros s x s'. unfold lift. destruct r; try discriminate. by intros [= <- <-]. Qed.
Lemma steady_panic {X} p : steady (I := I) (B := B) (panic (A := X) p).
Proof. by intros s x s'. Qed.
Lemma steady_nofuel {X} : steady (I := I) (B := B) (fun _ => NoFuel : res (X * _)).
Proof. by intros s x s'. Qed.
Lemma steady_emit o : steady (I := I) (B := B) (emit o).
Proof. by intros s x s' [= <- <-]. Qed.
Lemma steady_rt4 rt : steady (I := I) (B := B) (set_rt4 rt).
Proof. by intros s x s' [= <- <-]. Qed.
Lemma steady_rt6 rt : steady (I := I) (B := B) (set_rt6 rt).
Proof. by intros s x s' [= <- <-]. Qed.
Lemma steady_tokens t : steady (I := I) (B := B) (set_tokens t).
Proof. by intros s x s' [= <- <-]. Qed.
Lemma steady_tokenPeers t : steady (I := I) (B := B) (set_tokenPeers t).
Proof. by intros s x s' [= <- <-]. Qed.
Lemma steady_trans t : steady (I := I) (B := B) (set_trans t).
Proof. by intros s x s' [= <- <-]. Qed.
Lemma steady_blacklist b : steady (I := I) (B := B) (set_blacklist b).
Proof. by intros s x s' [= <- <-]. Qed.
Lemma steady_for_each {X} (f : X -> act unit) l : (forall x, steady (f x)) -> steady (for_each f l).
Proof. intros Hf. induction l as [|x l IH]; [apply steady_ret|]. by apply steady_bind. Qed.
End Steady.

Create HintDb steady_db.
#[export] Hint Resolve steady_ret steady_get steady_lift steady_panic steady_nofuel steady_emit steady_rt4 steady_rt6 steady_tokens
  steady_tokenPeers steady_trans steady_blacklist : steady_db.
#[export] Hint Constants Opaque : steady_db.

(** Follows the binds of an operation and splits its branches. *)
Ltac steady := unfold mbind, mret, act_ret; repeat match goal with
  | |- steady (act_bind _ _ _ _) => apply steady_bind; [|intros]
  | |- steady (for_each _ _) => apply steady_for_each; intros
  | |- steady (fun s => Ok (_, s)) => apply steady_ret
  | |- steady _ => solve [eauto with steady_db nocore]
  | |- steady _ => progress case_match
  end.

Section Stored.
Context {I : Type} `{I2PKeys I}.
Context {B : Type} `{Blacklist.Blacklist B}.
Context (LookupIP : bytes -> res (list bytes)).
Context (range : forall V, gmap bytes V -> list (bytes * V)).
Context (Verify : bytes -> bytes -> bytes -> bool).
Context (WriteTo : netAddr (I := I) -> bytes -> res Z).
Abbreviation Server := (Server (I := I) (B := B)).
Abbreviation steady := (steady (I := I) (B := B)).

Lemma steady_blacklist_add now ip port : steady (blacklist_add now ip port).
Proof. unfold blacklist_add. steady. Qed.
#[local] Hint Resolve steady_blacklist_add : steady_db.
Lemma steady__send now a m : steady (_send WriteTo now a m).
Proof. unfold _send. steady. Qed.
#[local] Hint Resolve steady__send : steady_db.
Lemma steady_send now a m : steady (send WriteTo now a m).
Proof. unfold send. steady. Qed.
#[local] Hint Resolve steady_send : steady_db.
Lemma steady_sendError now a tid reason code : steady (sendError WriteTo now a tid reason code).
Proof. unfold sendError. steady. Qed.
Lemma steady_reply now a tid r : steady (reply WriteTo now a tid r).
Proof. unfold reply. steady. Qed.
Lemma steady_request now t : steady (request WriteTo now t).
Proof. unfold request. steady. Qed.
Lemma steady_request_nil : steady request_nil.
Proof. unfold request_nil. steady. Qed.
Lemma steady_Server_AddNode now node : steady (Server_AddNode now node).
Proof. unfold Server_AddNode. steady. Qed.
#[local] Hint Resolve steady_sendError steady_reply steady_request steady_request_nil steady_Server_AddNode : steady_db.
Lemma steady_addNode now a id ro : steady (addNode now a id ro).
Proof. unfold addNode. steady. Qed.
Lemma steady_addNode2 now node ro : steady (addNode2 now node ro).
Proof. unfold addNode2. steady. Qed.
Lemma steady_Done t r : steady (Done t r).
Proof. unfold Done. steady. Qed.
Lemma steady_getPeers now info a depth ids cbs : steady (getPeers WriteTo now info a depth ids cbs).
Proof. unfold getPeers. steady. Qed.
Lemma steady_Ping now a cbs : steady (Ping WriteTo now a cbs).
Proof. unfold Ping. steady. Qed.
Lemma steady_findNode now target a depth ids : steady (findNode WriteTo now target a depth ids).
Proof. unfold findNode. steady. Qed.
#[local] Hint Resolve steady_addNode steady_addNode2 steady_Done steady_getPeers steady_Ping steady_findNode : steady_db.
Lemma steady_processNodeList now l target ids ro found nodes upd : steady (processNodeList now l target ids ro found nodes upd).
Proof. revert found nodes upd. induction l as [|n l IH]; intros found nodes upd; cbn [processNodeList]; steady. Qed.
#[local] Hint Resolve steady_processNodeList : steady_db.
Lemma steady_processResponseNodes now t target m : steady (processResponseNodes now t target m).
Proof. unfold processResponseNodes. steady. Qed.
#[local] Hint Resolve steady_processResponseNodes : steady_db.
Lemma steady_OnResponse now t a m : steady (OnResponse WriteTo now t a m).
Proof. unfold OnResponse, onGetPeersResp, onFindNodeResp, storeTokenIfPresent, handlePeersIfFound. steady. Qed.
Lemma steady_pop tid a : steady (pop tid a).
Proof. unfold pop. steady. Qed.
#[local] Hint Resolve steady_OnResponse steady_pop : steady_db.
Lemma steady_handleResponseMessage now a m : steady (handleResponseMessage WriteTo now a m).
Proof. unfold handleResponseMessage, processTransaction. steady. Qed.
Lemma steady_handleErrorMessage a m : steady (handleErrorMessage a m).
Proof. unfold handleErrorMessage, onError. steady. Qed.
Lemma steady_announce_loop now info port implied l : steady (announce_loop WriteTo now info port implied l).
Proof. induction l as [|n l IH]; cbn [announce_loop]; steady. Qed.
#[local] Hint Resolve steady_announce_loop : steady_db.
Lemma steady_call now c : steady (do_call LookupIP WriteTo now c).
Proof. unfold do_call, FindNode, Server_GetPeers, AnnouncePeer, Bootstrap. steady. Qed.
Lemma steady_expire now interval : steady (expire now interval).
Proof. unfold expire, onTimeout. steady. Qed.

(** *** The item under [target] *)
Context (conf : Config (I := I)) (target : bytes) (item : DataStore.StorageItem).
Definition holds (s : Server) : Prop := s_conf s = conf /\ s_store s !! target = Some item.
Definition keeping {X} (m : act (I := I) (B := B) X) : Prop := forall s x s', m s = Ok (x, s') -> holds s -> holds s'.

Lemma steady_keeping {X} (m : act X) : steady m -> keeping m.
Proof. intros Hm s x s' E [Hc Hs]. destruct (Hm _ _ _ E) as [H1 H2]. split; [by rewrite H1|by rewrite H2]. Qed.

(** The packet puts nothing under [target]. *)
Definition spares (data : bytes) : Prop :=
  forall m, DecodeMessage LookupIP data = Ok m -> m_Y m = bs "q" -> m_Q m = queryMethodPut ->
    let K := default [] (q_K (m_A m)) in
    DataStore.ComputeTarget (DataStore.MkItem (default [] (q_V (m_A m))) (bool_decide (0 < len K)) K (default [] (q_Sig (m_A m))) (q_Seq (m_A m))
      (default [] (q_Salt (m_A m))) (q_CAS (m_A m)) Routing.zeroTime Hash.zeroHash) <> Ok target.

Lemma keeping_put now a m data : spares data -> DecodeMessage LookupIP data = Ok m -> m_Y m = bs "q" -> m_Q m = queryMethodPut ->
  keeping (handlePutQuery Verify WriteTo now a m).
Proof.
  intros Hsp Hd Hy Hq s x s' E Hh. unfold handlePutQuery in E. cbv zeta in E. specialize (Hsp m Hd Hy Hq). cbv zeta in Hsp.
  case_decide; [by eapply (steady_keeping _ (steady_sendError _ _ _ _ _))|]. case_decide; [by eapply (steady_keeping _ (steady_sendError _ _ _ _ _))|].
  unfold mbind in E. rewrite run_bind in E. cbn [get_server] in E. cbv beta iota in E.
  destruct (DataStore.Put Verify now _ (s_store s)) as [ds|e|e|] eqn:EP; [|by eapply (steady_keeping _ (steady_sendError _ _ _ _ _))|done|done].
  apply DataStore.Put_Ok in EP as (t & -> & HT & _). cbn [DataStore.Target] in HT.
  replace (Hash.IsZero Hash.zeroHash) with true in HT by (symmetry; by apply bool_decide_true).
  rewrite run_bind in E. eapply (steady_keeping _ (steady_reply _ _ _ _)); [exact E|]. destruct Hh as [Hc Hs]. split; [done|].
  cbn [s_store]. rewrite lookup_insert_ne; [done|]. intros ->. done.
Qed.

Lemma keeping_packet now a data : c_HandleInMessage conf = Config_in -> spares data -> keeping (handlePacket LookupIP range Verify WriteTo now a data).
Proof.
  intros Hin Hsp s x s' E Hh. unfold handlePacket, mbind in E. rewrite run_bind in E. cbn [get_server] in E. cbv beta iota in E.
  assert (Hret : Ok (tt, s) = Ok (x, s') -> holds s') by (by intros [= _ <-]).
  destruct (isDisabled s a); [by apply Hret|]. destruct (Blacklist.bl_In _ _ _); [by apply Hret|]. destruct (DecodeMessage LookupIP data) as [m|e|e|] eqn:Ed; [|by apply Hret|done|done].
  destruct (decide (m_T m = [])); [by apply Hret|]. unfold handleMessage, mbind in E. rewrite run_bind in E. cbn [get_server] in E. cbv beta iota in E.
  destruct Hh as [Hc Hs]. rewrite Hc, Hin in E. cbn [Config_in negb] in E.
  destruct (decide (m_Y m = bs "q")) as [Hy|_]; [|destruct (decide (m_Y m = bs "r")); [by eapply (steady_keeping _ (steady_handleResponseMessage _ _ _))|
    destruct (decide (m_Y m = bs "e")); [by eapply (steady_keeping _ (steady_handleErrorMessage _ _))|by apply Hret]]].
  unfold handleQueryMessage, mbind in E. destruct (Hash.IsZero _); [by apply Hret|].
  apply run_bind_Ok in E as (r & s1 & E1 & E). pose proof (steady_keeping _ (steady_addNode _ _ _ _) _ _ _ E1 (conj Hc Hs)) as Hh1.
  rewrite run_bind in E. cbn [get_server] in E. cbv beta iota in E.
  assert (Hret1 : Ok (tt, s1) = Ok (x, s') -> holds s') by (by intros [= _ <-]).
  assert (Hq : handleQuery range Verify WriteTo now a m s1 = Ok (x, s') -> holds s').
  { unfold handleQuery. do 5 (case_decide; [intros Eq; eapply steady_keeping; [|exact Eq|exact Hh1];
      unfold handleFindNodeQuery, handleGetPeersQuery, handleAnnouncePeerQuery, handleSampleInfoHashQuery; steady|]).
    case_decide as Hput; [intros Eq; by eapply keeping_put|]. unfold handleGetQuery.
    case_decide; intros Eq; (eapply steady_keeping; [|exact Eq|exact Hh1]); steady. }
  destruct r; [..|by apply Hret1]; (destruct (c_ReadOnly (s_conf s1)); [by apply Hret1|by apply Hq]).
Qed.

Lemma ping_dubious_holds now l s : holds s -> holds (ping_dubious WriteTo now l s).2.
Proof.
  revert s. induction l as [|w l IH]; intros s Hs; cbn [ping_dubious]; [done|]. destruct (Routing.Status now w); [by apply IH| |by apply IH].
  destruct (Addr _) as [a|].
  - destruct (Ping WriteTo now a [] s) as [[x s']| | |] eqn:E; [|done..]. apply IH. by eapply (steady_keeping _ (steady_Ping _ _ _)).
  - destruct (request_nil s) as [[x s']| | |] eqn:E; [|done..]. apply IH. by eapply (steady_keeping _ steady_request_nil).
Qed.
Lemma check_buckets_holds now l s : holds s -> holds (check_buckets WriteTo now l s).2.
Proof.
  revert s. induction l as [|b l IH]; intros s Hs; cbn [check_buckets]; [done|]. case_decide.
  - specialize (IH s Hs). by destruct (check_buckets WriteTo now l s).
  - pose proof (ping_dubious_holds now (Routing.b_Nodes b) s Hs) as Hp. destruct (ping_dubious _ _ _ s) as [[|] s1]; cbn [snd] in Hp; [done|].
    destruct (Routing.del_all _ _) as [nodes [|]]; [done|]. specialize (IH s1 Hp). by destruct (check_buckets WriteTo now l s1).
Qed.
Lemma check_table_holds v6 now s : holds s -> holds (check_table WriteTo v6 now s).
Proof.
  intros Hs. unfold check_table. pose proof (check_buckets_holds now (Routing.rt_bkts (table v6 s)) s Hs) as Hs'.
  destruct (check_buckets _ _ _ s) as [l s']. exact Hs'.
Qed.

(** Steps in which nothing is put under [target]. *)
Context {S : Type} `{!Routing.RoutingTableStorage (A := netAddr (I := I)) S} (respTimeout : Z).
Inductive sparing (p : process (I := I) (B := B) (S := S)) : process -> Prop :=
  | sparing_packet now raddr data s :
      GRead ∈ p_running p -> spares data -> handlePacket LookupIP range Verify WriteTo now raddr data (p_server p) = Ok (tt, s) -> sparing p (with_server s p)
  | sparing_turn p' : turn LookupIP WriteTo respTimeout p p' -> sparing p p'.

Lemma turn_holds p p' : turn (S := S) LookupIP WriteTo respTimeout p p' -> holds (p_server p) -> holds (p_server p').
Proof.
  intros Hst Hh. destruct Hst as [| | | |random|now|now|now s _ E|g Hg| | | |now c s E]; cbn [p_server with_server with_syncs dumped with_store returned]; try done.
  - by apply check_table_holds.
  - by eapply (steady_keeping _ (steady_expire _ _)).
  - unfold Close. by destruct (p_closed p).
  - by eapply (steady_keeping _ (steady_call _ _)).
Qed.
Lemma sparing_holds p p' : c_HandleInMessage conf = Config_in -> rtc sparing p p' -> holds (p_server p) -> holds (p_server p').
Proof.
  intros Hin. induction 1 as [|p p1 p2 Hst _ IH]; [done|]. intros Hh. apply IH. destruct Hst as [now a data s _ Hsp E|p1 Ht].
  - by eapply keeping_packet.
  - by eapply turn_holds.
Qed.
End Stored.

(** C15: what is put can be fetched. A server that hears a put query for an
    immutable value of 1 to 1000 bytes, with a salt of at most 64 bytes,
    acknowledges it. After any further packets, timers and calls, among which no
    other put stores something under the hash of the value, a get query for
    that hash within two hours is answered with a response that the asker
    decodes to the value. The server has the hooks of [Config.set], is not read
    only, has a [K] below 2^24, a socket that writes every packet in full and,
    at both queries, an IPv4 table whose nodes have a compact form; each query
    comes over IPv4 or I2P from an address that is not blacklisted and has a
    compact form, under an ID that is not zero and that the table does not know
    under another address, with a transaction ID that is not empty, is not read
    only, and the get query does not want IPv6 nodes. *)
Theorem put_then_get {I} `{I2PKeys I} {B} `{Blacklist.Blacklist B} LookupIP range Verify WriteTo
    {S} `{!Routing.RoutingTableStorage (A := netAddr (I := I)) S} respTimeout
    now1 (a1 : netAddr (I := I)) m1 b1 (p0 : process (I := I) (B := B) (S := S)) v target :
  let s := p_server p0 in
  default_conf (s_conf s) -> writes WriteTo -> c_K (s_conf s) < 2 ^ 24 -> table_sendable (s_rt4 s) ->
  asked LookupIP now1 a1 m1 b1 queryMethodPut s -> q_V (m_A m1) = Some v -> 0 < len v <= DataStore.MaxValueSize ->
  q_K (m_A m1) = None -> len (default [] (q_Salt (m_A m1))) <= DataStore.MaxSaltSize -> Hash.NewHash (Sha256.Sum256 v) = Ok target ->
  exists s1, handlePacket LookupIP range Verify WriteTo now1 a1 b1 s = Ok (tt, s1) /\
    s_out s1 = s_out s ++ [Sent a1 (pong (m_T m1) (c_ID (s_conf s)))] /\
    forall p now2 a2 m2 b2, rtc (sparing LookupIP range Verify WriteTo target respTimeout) (with_server s1 p0) p ->
      table_sendable (s_rt4 (p_server p)) -> asked LookupIP now2 a2 m2 b2 queryMethodGet (p_server p) ->
      q_Target (m_A m2) = target -> ContainsWant (m_A m2) WantNodes6 = false -> now2 - now1 <= DataStore.DataExpirationTime ->
      exists s2 r pk r', handlePacket LookupIP range Verify WriteTo now2 a2 b2 (p_server p) = Ok (tt, s2) /\
        s_out s2 = s_out (p_server p) ++ [Sent a2 r] /\ EncodeMessage r = Ok pk /\
        DecodeMessage LookupIP pk = Ok r' /\ m_T r' = m_T m2 /\ r_V (m_R r') = Some v.
Proof.
  intros s Hc Hw Hk Hrt Hq HV Hv HK HS HT. destruct (asked_handled LookupIP range Verify WriteTo now1 a1 m1 b1 _ s Hc Hq Hrt) as (rt & _ & E1).
  destruct Hq as [_ _ [_ Hq] _ [Ht Hl] _ _].
  assert (HT' : DataStore.ComputeTarget (put_item m1) = Ok target) by (unfold put_item; by rewrite HV).
  rewrite handleQuery_put, (put_handled LookupIP Verify WriteTo now1 a1 m1 (with_rt4 rt s) target) in E1 by (done || (rewrite HV; cbn; lia)).
  eexists. split; [exact E1|]. split; [done|]. set (s1 := emitted _ _). intros p now2 a2 m2 b2 Hsteps Hrt2 Hq2 HT2 Hwant Hnow.
  set (item := DataStore.set_StoredAt (DataStore.set_Target (put_item m1) target) now1) in *.
  assert (Hh : holds (s_conf s) target item (p_server p)).
  { eapply sparing_holds; [apply Hc|exact Hsteps|]. split; [done|]. cbn [p_server with_server s1 s_store emitted DhtServerFacts.with_store with_rt4].
    by rewrite lookup_insert_eq. }
  destruct Hh as [Hc2 Hst]. assert (Hcp : default_conf (s_conf (p_server p))) by (by rewrite Hc2).
  destruct (asked_handled LookupIP range Verify WriteTo now2 a2 m2 b2 _ (p_server p) Hcp Hq2 Hrt2) as (rt2 & Hrt3 & E2).
  destruct Hq2 as [Hh2 _ [_ Hq2] _ [Ht2 Hl2] _ _]. rewrite handleQuery_get in E2 by done.
  assert (Hlen : length (q_Target (m_A m2)) = 20%nat).
  { destruct (DataStore.ComputeTarget_total (put_item m1)) as (t & Et & Hlen). rewrite HT2. congruence. }
  assert (Hgot : DataStore.Get now2 (q_Target (m_A m2)) (s_store (p_server p)) = Some item).
  { rewrite HT2. unfold DataStore.Get. rewrite Hst. unfold DataStore.IsExpired. rewrite bool_decide_eq_false_2; [done|]. cbn. lia. }
  assert (Hval : 0 < len (DataStore.Value item) <= DataStore.MaxValueSize) by (cbn; by rewrite HV).
  destruct (get_handled LookupIP WriteTo now2 a2 m2 (with_rt4 rt2 (p_server p)) item) as (r & pk & r' & Eg & Ep & Dp & HT3 & HV3); try done.
  - cbn. by rewrite Hc2.
  - apply Hh2.
  - eexists _, r, pk, r'. rewrite E2, Eg. split_and!; try done. rewrite HV3. cbn. by rewrite HV.
Qed.

(** *** A server that runs *)
#[local] Existing Instance Address.demo_keys.
Definition demo_config : Config (I := bytes) := MkConfig 0 (replicate 20 2) false 0 Config_in Config_out.
Definition demo_ping : bytes := packet (ping_query (bs "aa") (replicate 20 1)).
(** A storage that gives a node seen at time 0, and the server itself. *)
#[local] Instance demo_storage : Routing.RoutingTableStorage (A := netAddr (I := bytes)) bool :=
  {| Routing.storage_Load := fun root w6 st =>
       (Ok (if w6 : bool then [] else [Routing.MkWrapped (Routing.MkNode (replicate 20 7) (IPAddr [10; 0; 0; 7] []) 6881) 0;
                                Routing.MkWrapped (Routing.MkNode root (IPAddr [10; 0; 0; 2] []) 6881) 0]), st);
     Routing.storage_Dump := fun _ _ _ st => (Ok (), st) |}.
Definition demo_opened : Server (I := bytes) (B := Blacklist.blacklist) :=
  match (NewServer [] (bs "first") (demo_addr 2) demo_config [IPv4Protocol] (Blacklist.NewMemoryBlacklist 8) 0 true).1 with Ok s => s | _ => demo_server 2 end.
Definition demo_pinged : Server (I := bytes) (B := Blacklist.blacklist) :=
  match handlePacket no_host demo_range no_verify demo_write 5 (demo_addr 1) demo_ping demo_opened with Ok (_, s) => s | _ => demo_opened end.

Lemma server_invariant_witness :
  let conf := Config_set [] demo_config in
  process_ok (S := bool) conf (stored conf false 0 true) (stored conf true 0 (loaded conf false true)) (s_ipv4 demo_opened) (s_ipv6 demo_opened)
    (Close (with_server demo_pinged (Run demo_opened true))) /\
  map Routing.n_ID (stored conf false 0 true) = [replicate 20 7; replicate 20 2] /\ Routing.Len (s_rt4 demo_pinged) = 3.
Proof.
  split; [|split; vm_compute; reflexivity].
  apply (server_invariant (S := bool) no_host demo_range no_verify demo_write 10 [] (bs "first") (demo_addr 2) demo_config [IPv4Protocol]
    (Blacklist.NewMemoryBlacklist 8) 0 true true demo_opened).
  - vm_compute. reflexivity.
  - reflexivity.
  - eapply rtc_l; [apply (run_packet _ _ _ _ _ _ 5 (demo_addr 1) demo_ping demo_pinged); [cbn; set_solver|vm_compute; reflexivity]|].
    eapply rtc_l; [apply run_turn, close_call|]. apply rtc_refl.
Defined.

(** Server 2 stores a value; the tables are checked and a find_node query
    answered; then the value is fetched. *)
Definition put_done : Server (I := bytes) (B := Blacklist.blacklist) :=
  match handlePacket no_host demo_range no_verify demo_write 5 (demo_addr 1) (packet demo_put) (demo_server 2) with Ok (_, s) => s | _ => demo_server 2 end.
Definition found_done : Server (I := bytes) (B := Blacklist.blacklist) :=
  match handlePacket no_host demo_range no_verify demo_write 6 (demo_addr 1) (packet demo_find) put_done with Ok (_, s) => s | _ => put_done end.
Definition demo_serving : process (I := bytes) (B := Blacklist.blacklist) (S := ()) := Run (demo_server 2) ().

Lemma demo_asked now m q s : heard now (demo_addr 1) (replicate 20 1) s -> DecodeMessage no_host (packet m) = Ok m -> m_Y m = bs "q" -> m_Q m = q ->
  q_ID (m_A m) = replicate 20 1 -> m_T m <> [] -> len (m_T m) < 2 ^ 31 -> m_RO m = false ->
  asked no_host now (demo_addr 1) m (packet m) q s.
Proof.
  intros Hh Hd Hy Hq Hid Ht Hl Hro. constructor; rewrite ?Hid; try done; [|exact demo_sendable].
  split; [apply KrpcFacts.hash_ok_replicate; unfold is_byte; lia|reflexivity].
Qed.

Lemma found_table : s_rt4 found_done = match Routing.AddNode (NewNodeByUDPAddr (replicate 20 1) (demo_addr 1)) 5 (s_rt4 (demo_server 2)) with
    | Ok (_, rt) => match Routing.AddNode (NewNodeByUDPAddr (replicate 20 1) (demo_addr 1)) 6 rt with Ok (_, rt') => rt' | _ => rt end
    | _ => s_rt4 (demo_server 2) end.
Proof. vm_compute. reflexivity. Qed.

Lemma AddNode_sendable_twice : table_sendable (s_rt4 found_done) /\ heard 7 (demo_addr 1) (replicate 20 1) found_done.
Proof.
  assert (Hs : table_sendable (s_rt4 found_done) /\ RoutingFacts.table_ok (s_rt4 found_done)).
  { rewrite found_table.
    destruct (RoutingFacts.AddNode_ok (NewNodeByUDPAddr (replicate 20 1) (demo_addr 1)) 5 (s_rt4 (demo_server 2))) as (r1 & rt1 & E1 & H1 & _);
      [apply RoutingFacts.new_table_ok; reflexivity|reflexivity|]. rewrite E1.
    destruct (RoutingFacts.AddNode_ok (NewNodeByUDPAddr (replicate 20 1) (demo_addr 1)) 6 rt1) as (r2 & rt2 & E2 & H2 & _); [done|reflexivity|]. rewrite E2.
    split; [|done]. eapply RoutingFacts.AddNode_all; [exact E2|exact demo_sendable|]. eapply RoutingFacts.AddNode_all; [exact E1|exact demo_sendable|exact demo_table]. }
  destruct Hs as [Hs Hok]. split; [exact Hs|]. constructor; try (vm_compute; reflexivity); [exact Hok|].
  intros r rt E. rewrite found_table in E. vm_compute in E. injection E as <- _. discriminate.
Qed.

Lemma found_handled : handlePacket no_host demo_range no_verify demo_write 6 (demo_addr 1) (packet demo_find) put_done = Ok (tt, found_done).
Proof. vm_compute. reflexivity. Qed.
Lemma demo_sparing : sparing no_host demo_range no_verify demo_write demo_target 10 (with_server put_done demo_serving)
  (with_server found_done (with_server put_done demo_serving)).
Proof.
  refine (sparing_packet _ _ _ _ _ _ _ 6 (demo_addr 1) (packet demo_find) found_done _ _ _); [cbn; set_solver| |exact found_handled].
  intros m Em Hy Hq. vm_compute in Em. injection Em as <-. discriminate Hq.
Qed.

Lemma put_then_get_witness :
  exists s2 r, handlePacket no_host demo_range no_verify demo_write 7 (demo_addr 1) (packet demo_get) found_done = Ok (tt, s2) /\
    s_out s2 = s_out found_done ++ [Sent (demo_addr 1) r].
Proof.
  destruct (put_then_get (S := ()) no_host demo_range no_verify demo_write 10 5 (demo_addr 1) demo_put (packet demo_put) demo_serving (bs "hello") demo_target)
    as (s1 & E & O & Hget).
  - apply demo_default; lia.
  - exact demo_writes.
  - reflexivity.
  - exact demo_table.
  - apply demo_asked; [exact (demo_heard 5)|vm_compute; reflexivity|reflexivity|reflexivity|reflexivity|discriminate|reflexivity|reflexivity].
  - reflexivity.
  - vm_compute. split; [reflexivity|discriminate].
  - reflexivity.
  - vm_compute. discriminate.
  - vm_compute. reflexivity.
  - assert (Es : s1 = put_done) by (unfold put_done; cbn [p_server demo_serving Run] in E; by rewrite E).
    destruct (AddNode_sendable_twice) as [Hs Hok].
    destruct (Hget (with_server found_done (with_server s1 demo_serving)) 7 (demo_addr 1) demo_get (packet demo_get)) as (s2 & r & pk & r' & E2 & O2 & _).
    + rewrite Es. eapply rtc_l; [exact demo_sparing|apply rtc_refl].
    + exact Hs.
    + apply demo_asked; [exact Hok|vm_compute; reflexivity|reflexivity|reflexivity|reflexivity|discriminate|reflexivity|reflexivity].
    + reflexivity.
    + reflexivity.
    + vm_compute. discriminate.
    + exists s2, r. split; [exact E2|exact O2].
Defined.

(** [Close] leaves the socket open: a closed server answers the next ping. *)
Definition demo_closed : process (I := bytes) (B := Blacklist.blacklist) (S := ()) := Close (Run (demo_server 2) ()).
Definition closed_pinged : Server (I := bytes) (B := Blacklist.blacklist) :=
  match handlePacket no_host demo_range no_verify demo_write 5 (demo_addr 1) demo_ping (p_server demo_closed) with
  | Ok (_, s) => s
  | _ => p_server demo_closed
  end.
Example closed_server_answers :
  p_closed demo_closed = true /\ step no_host demo_range no_verify demo_write 10 demo_closed (with_server closed_pinged demo_closed) /\
  exists m, s_out closed_pinged = [Sent (demo_addr 1) m].
Proof.
  split; [reflexivity|]. split; [|eexists; vm_compute; reflexivity].
  apply (run_packet _ _ _ _ _ _ 5 (demo_addr 1) demo_ping closed_pinged); [cbn; set_solver|vm_compute; reflexivity].
Qed.
End DhtRun.
