(* ===== verification/UdpTracker.v ===== *)
(** * The UDP tracker protocol

    Models [src/tracker/udptracker]: the packets of [udp.go] (BEP 15, with the
    options of BEP 41), the server of [udp_server.go] and the client of
    [udp_client.go].

    The handler of a server is a record of callbacks over its own state. The
    packets the server hands to [WriteTo] are kept in its state; the result of
    [WriteTo] is only logged. The connection of a client is the list of what
    the next reads return (a packet, or the error of the socket or of the
    context) and the packets written; the result of a write is an argument. A
    packet longer than the buffer it is read into is cut. *)

From S2P Require Import Prelude Strconv Bencode Sha1 Hash Net Routing Address.
Import Strconv Net Address.

Module UdpTracker.

(** [0x41727101980]. *)
Definition ProtocolID : Z := 4497486125440.
Definition ActionConnect : Z := 0.
Definition ActionAnnounce : Z := 1.
Definition ActionScrape : Z := 2.
Definition ActionError : Z := 3.

Definition sliceBounds : string := "slice bounds out of range".

(** ** Extensions *)
Record Extension := MkExtension { x_Type : Z; x_Length : Z; x_Data : bytes }.

Definition EndOfOptions : Z := 0.
Definition Nop : Z := 1.
Definition URLData : Z := 2.

Definition NewEndOfOptions : Extension := MkExtension EndOfOptions 0 [].
Definition NewNop : Extension := MkExtension Nop 0 [].
Definition NewURLData (data : bytes) : Extension := MkExtension URLData (u8 (len data)) data.

Definition Extension_EncodeTo (e : Extension) : res bytes :=
  let _len := u8 (len (x_Data e)) in
  length ← (if decide (x_Length e = 0 /\ _len <> 0) then Ok _len
            else if decide (_len <> x_Length e) then Panic "the length of data is inconsistent"
            else Ok (x_Length e));
  Ok ([x_Type e] ++ [length] ++ x_Data e).

(** The extension and the number of bytes parsed. Where the data reach past
    the end of [b], the slice expression may still succeed on the capacity of
    the buffer, but the caller then cuts [b] past its end: both panic. *)
Definition Extension_DecodeFrom (b : bytes) : res (Extension * Z) :=
  match b with
  | [] => Ok (MkExtension 0 0 [], 0)
  | [t] => Ok (MkExtension t 0 [], 1)
  | t :: l :: data =>
      if decide (0 < l) then
        if decide (len data < l) then Panic sliceBounds
        else Ok (MkExtension t l (take (Z.to_nat l) data), 2 + l)
      else Ok (MkExtension t l [], 2)
  end.

(** [for len(b) > 0]: every round parses at least one byte. *)
Fixpoint decode_exts (fuel : nat) (b : bytes) : res (list Extension) :=
  match fuel with
  | O => Ok []
  | S fuel' =>
      match b with
      | [] => Ok []
      | _ =>
          '(ext, parsed) ← Extension_DecodeFrom b;
          exts ← decode_exts fuel' (drop (Z.to_nat parsed) b);
          Ok (ext :: exts)
      end
  end.

Fixpoint encode_exts (exts : list Extension) : res bytes :=
  match exts with
  | [] => Ok []
  | e :: exts' => b ← Extension_EncodeTo e; rest ← encode_exts exts'; Ok (b ++ rest)
  end.

Section UdpTracker.
Context {I : Type} `{I2PKeys I}.
Abbreviation addr := (netAddr (I := I)).
Abbreviation Address := (Address (I := I)).

(** ** Requests and responses *)
Record AnnounceRequest := MkRequest {
  ar_InfoHash : bytes; ar_PeerID : bytes; ar_Downloaded : Z; ar_Left : Z; ar_Uploaded : Z; ar_Event : Z;
  ar_IP : option addr; ar_Key : Z; ar_NumWant : Z; ar_Port : Z; ar_Exts : list Extension
}.

(** The slice [b[i:j]] of a buffer that is long enough. *)
Definition slice (i j : nat) (b : bytes) : bytes := take (j - i) (drop i b).

(** [w] is 1 for IPv4, 0 for IPv6 and another number for an I2P destination
    hash, read with [i2pkeys.DestHashFromBytes] ([dest]). The key, the number
    of peers and the port follow at offset 72 or 84. *)
Definition AnnounceRequest_DecodeFrom (dest : bytes -> addr) (b : bytes) (w : Z) : res AnnounceRequest :=
  let need := if decide (w = 1) then 82 else if decide (w = 0) then 94 else 100 in
  if decide (len b < need) then Panic sliceBounds
  else
    let ip := if decide (w = 1) then IPAddr (slice 68 72 b) []
              else if decide (w = 0) then IPAddr (slice 68 84 b) []
              else dest (slice 68 100 b) in
    let b' := if decide (w = 1) then drop 72 b else drop 84 b in
    exts ← decode_exts (length b') (drop 10 b');
    Ok (MkRequest (slice 0 20 b) (slice 20 40 b) (i64 (be_val (slice 40 48 b))) (i64 (be_val (slice 48 56 b)))
          (i64 (be_val (slice 56 64 b))) (be_val (slice 64 68 b)) (Some ip)
          (i32 (be_val (slice 0 4 b'))) (i32 (be_val (slice 4 8 b'))) (be_val (slice 8 10 b')) exts).

(** The IP of the request as it is written: at most sixteen bytes when the
    text is short, the text itself otherwise. *)
Definition encode_ip (ip : addr) : bytes :=
  let s := addr_String ip in
  if decide (len s < 31) then
    match ParseIP s with
    | Some v => default v (To4 v)
    | None => []
    end
  else s.

Definition AnnounceRequest_EncodeTo (r : AnnounceRequest) : res bytes :=
  match ar_IP r with
  | None => Panic nilDeref
  | Some ip =>
      exts ← encode_exts (ar_Exts r);
      Ok (ar_InfoHash r ++ ar_PeerID r ++ be_bytes 8 (ar_Downloaded r) ++ be_bytes 8 (ar_Left r) ++ be_bytes 8 (ar_Uploaded r) ++
          be_bytes 4 (ar_Event r) ++ encode_ip ip ++ be_bytes 4 (ar_Key r) ++ be_bytes 4 (ar_NumWant r) ++ be_bytes 2 (ar_Port r) ++ exts)
  end.

Record AnnounceResponse := MkAnnounce {
  an_Interval : Z; an_Leechers : Z; an_Seeders : Z; an_Addresses : list Address
}.

(** [To4] never returns a nil pointer, so its IP is written whatever it is. *)
Definition encode_peer (a : Address) : bytes :=
  match addr_To4 a with IPAddr ip _ => ip | _ => [] end ++ be_bytes 2 (a_Port a).

Definition AnnounceResponse_EncodeTo (r : AnnounceResponse) : bytes :=
  be_bytes 4 (an_Interval r) ++ be_bytes 4 (an_Leechers r) ++ be_bytes 4 (an_Seeders r) ++ concat (map encode_peer (an_Addresses r)).

(** Whole chunks of [step] bytes; a rest is ignored. *)
Fixpoint chunks {X} (fuel : nat) (step : nat) (f : bytes -> X) (b : bytes) : list X :=
  match fuel with
  | O => []
  | S fuel' => if decide (length b < step)%nat then [] else f (take step b) :: chunks fuel' step f (drop step b)
  end.

Definition decode_peer (iplen : nat) (b : bytes) : Address :=
  MkAddress (Some (IPAddr (take iplen b) [])) (be_val (drop iplen b)).

(** Fewer than twelve bytes panic at [b[12:]] at the latest. *)
Definition AnnounceResponse_DecodeFrom (b : bytes) (ipv4 : bool) : res AnnounceResponse :=
  if decide (len b < 12) then Panic sliceBounds
  else
    let iplen := if ipv4 then 4%nat else 16%nat in
    Ok (MkAnnounce (be_val (slice 0 4 b)) (be_val (slice 4 8 b)) (be_val (slice 8 12 b))
          (chunks (length b) (iplen + 2) (decode_peer iplen) (drop 12 b))).

Record ScrapeResponse := MkScrape { sc_Seeders : Z; sc_Leechers : Z; sc_Completed : Z }.

Definition ScrapeResponse_EncodeTo (r : ScrapeResponse) : bytes :=
  be_bytes 4 (sc_Seeders r) ++ be_bytes 4 (sc_Completed r) ++ be_bytes 4 (sc_Leechers r).

(** On twelve bytes. *)
Definition ScrapeResponse_DecodeFrom (b : bytes) : ScrapeResponse :=
  MkScrape (be_val (slice 0 4 b)) (be_val (slice 8 12 b)) (be_val (slice 4 8 b)).

(** ** The server *)
Section Server.
Context {HS : Type}.
Context (dest : bytes -> addr).

(** A callback returns the handler, and its answer or the text of its error. *)
Record ServerHandler := MkHandler {
  OnConnect : addr -> HS -> HS * (bytes + unit);
  OnAnnounce : addr -> AnnounceRequest -> HS -> HS * (bytes + AnnounceResponse);
  OnScrap : addr -> list bytes -> HS -> HS * (bytes + list ScrapeResponse)
}.

Record wrappedPeerAddr := MkPeerAddr { wa_Addr : addr; wa_Time : Z }.

Record Server := MkServer {
  us_MaxBufSize : Z;
  us_cid : Z;
  us_conns : gmap Z wrappedPeerAddr;
  us_handler : HS;
  us_out : list (addr * bytes)
}.

Definition NewServer (MaxBufSize : Z) (h : HS) : Server :=
  MkServer (if decide (MaxBufSize <= 0) then 2048 else MaxBufSize) 0 ∅ h [].

Definition with_handler (s : Server) (h : HS) : Server := MkServer (us_MaxBufSize s) (us_cid s) (us_conns s) h (us_out s).

Definition cleanExpiredConnections (now interval : Z) (s : Server) : Server :=
  MkServer (us_MaxBufSize s) (us_cid s) (filter (fun kw => ~ interval < now - wa_Time kw.2) (us_conns s)) (us_handler s) (us_out s).

Definition encodeResponseHeader (action tid : Z) : bytes := be_bytes 4 action ++ be_bytes 4 tid.

Definition send (raddr : addr) (b : bytes) (s : Server) : Server :=
  MkServer (us_MaxBufSize s) (us_cid s) (us_conns s) (us_handler s) (us_out s ++ [(raddr, b)]).

Definition getConnectionID (s : Server) : Z * Server :=
  let cid := u64 (us_cid s + 1) in
  (cid, MkServer (us_MaxBufSize s) cid (us_conns s) (us_handler s) (us_out s)).

Definition addConnection (now cid : Z) (raddr : addr) (s : Server) : Server :=
  MkServer (us_MaxBufSize s) (us_cid s) (<[cid := MkPeerAddr raddr now]> (us_conns s)) (us_handler s) (us_out s).

Definition checkConnection (cid : Z) (raddr : addr) (s : Server) : bool :=
  match us_conns s !! cid with
  | Some w => bool_decide (addr_String (wa_Addr w) = addr_String raddr)
  | None => false
  end.

Definition sendError (raddr : addr) (tid : Z) (reason : bytes) (s : Server) : Server :=
  send raddr (encodeResponseHeader ActionError tid ++ reason) s.
Definition sendConnResp (raddr : addr) (tid cid : Z) (s : Server) : Server :=
  send raddr (encodeResponseHeader ActionConnect tid ++ be_bytes 8 cid) s.
Definition sendAnnounceResp (raddr : addr) (tid : Z) (resp : AnnounceResponse) (s : Server) : Server :=
  send raddr (encodeResponseHeader ActionAnnounce tid ++ AnnounceResponse_EncodeTo resp) s.
Definition sendScrapResp (raddr : addr) (tid : Z) (rs : list ScrapeResponse) (s : Server) : Server :=
  send raddr (encodeResponseHeader ActionScrape tid ++ concat (map ScrapeResponse_EncodeTo rs)) s.

Context (handler : ServerHandler).

Definition handleConnectionRequest (now : Z) (raddr : addr) (tid : Z) (s : Server) : Server :=
  let '(h, r) := OnConnect handler raddr (us_handler s) in
  let s := with_handler s h in
  match r with
  | inl err => sendError raddr tid err s
  | inr _ =>
      let '(cid, s) := getConnectionID s in
      sendConnResp raddr tid cid (addConnection now cid raddr s)
  end.

Definition invalidRequest : string := "invalid announce request".

(** The family is guessed from the length of the text of the remote address,
    which includes the port. *)
Definition decodeAnnounceRequest (raddr : addr) (b : bytes) : res AnnounceRequest :=
  let addrLen := len (addr_String raddr) in
  if decide (addrLen < 16) then
    if decide (len b < 82) then Err invalidRequest else AnnounceRequest_DecodeFrom dest b 1
  else if decide (addrLen < 32) then
    if decide (len b < 94) then Err invalidRequest else AnnounceRequest_DecodeFrom dest b 0
  else if decide (len b < 110) then Err invalidRequest else AnnounceRequest_DecodeFrom dest b 0.

Definition handleAnnounceAction (raddr : addr) (tid : Z) (b : bytes) (s : Server) : res Server :=
  match decodeAnnounceRequest raddr b with
  | Ok req =>
      let '(h, r) := OnAnnounce handler raddr req (us_handler s) in
      let s := with_handler s h in
      Ok (match r with inl err => sendError raddr tid err s | inr resp => sendAnnounceResp raddr tid resp s end)
  | Err e => Ok (sendError raddr tid (bs e) s)
  | Panic p => Panic p
  | NoFuel => NoFuel
  end.

Definition extractInfohashes (b : bytes) : list bytes := chunks (length b) 20 (fun h => h) b.

Definition handleScrapeAction (raddr : addr) (tid : Z) (b : bytes) (s : Server) : Server :=
  let infohashes := extractInfohashes b in
  if decide (len infohashes = 0) then sendError raddr tid (bs "no infohash") s
  else
    let '(h, r) := OnScrap handler raddr infohashes (us_handler s) in
    let s := with_handler s h in
    match r with inl err => sendError raddr tid err s | inr rs => sendScrapResp raddr tid rs s end.

Definition processAction (raddr : addr) (action tid : Z) (b : bytes) (s : Server) : res Server :=
  if decide (action = ActionAnnounce) then handleAnnounceAction raddr tid b s
  else if decide (action = ActionScrape) then Ok (handleScrapeAction raddr tid b s)
  else Ok (sendError raddr tid (bs "unkwnown action") s).

(** On at least sixteen bytes. *)
Definition handlePacket (now : Z) (raddr : addr) (b : bytes) (s : Server) : res Server :=
  let cid := be_val (slice 0 8 b) in
  let action := be_val (slice 8 12 b) in
  let tid := be_val (slice 12 16 b) in
  let b := drop 16 b in
  if decide (cid = ProtocolID /\ action = ActionConnect) then Ok (handleConnectionRequest now raddr tid s)
  else if negb (checkConnection cid raddr s) then Ok (sendError raddr tid (bs "connection is expired") s)
  else processAction raddr action tid b s.

(** One round of [Run]: a packet read into the buffer. *)
Definition Run_step (now : Z) (raddr : addr) (packet : bytes) (s : Server) : res Server :=
  let b := take (Z.to_nat (us_MaxBufSize s)) packet in
  if decide (len b < 16) then Ok s else handlePacket now raddr b s.
End Server.
(** ** The client *)
Section Client.
(** [conn.Write]: the number of bytes written, or the error. *)
Context (Write : bytes -> res Z).

Record Client := MkClient {
  cl_ipv4 : bool;
  cl_ID : bytes;
  cl_MaxBufSize : Z;
  cl_last : Z;
  cl_cid : Z;
  cl_tid : Z;
  cl_in : list (res bytes);
  cl_out : list bytes
}.

(** [local] is the local address, [random] the hash drawn for a missing ID. *)
Definition NewClient (local : addr) (ID random : bytes) (MaxBufSize : Z) (input : list (res bytes)) : Client :=
  MkClient (bool_decide (46 ∈ addr_String local)) (if Hash.IsZero ID then random else ID)
    (if decide (MaxBufSize <= 0) then 2048 else MaxBufSize) Routing.zeroTime 0 0 input [].

(** An operation of the client: its result, and the client it leaves also when
    it fails. *)
Definition op (A : Type) : Type := Client -> res A * Client.
#[local] Instance op_ret : MRet op := fun A a c => (Ok a, c).
#[local] Instance op_bind : MBind op := fun A B f m c =>
  match m c with
  | (Ok a, c') => f a c'
  | (Err e, c') => (Err e, c')
  | (Panic p, c') => (Panic p, c')
  | (NoFuel, c') => (NoFuel, c')
  end.

Definition fail {A} (r : res A) : op A := fun c => (r, c).
Definition get_client : op Client := fun c => (Ok c, c).

Definition ErrShortBuffer : string := "short buffer".
Definition ErrShortWrite : string := "short write".

(** A read into a buffer of [size] bytes; without a packet the context ends it. *)
Definition readResp (size : Z) : op bytes := fun c =>
  match cl_in c with
  | r :: rest =>
      (data ← r; Ok (take (Z.to_nat size) data),
       MkClient (cl_ipv4 c) (cl_ID c) (cl_MaxBufSize c) (cl_last c) (cl_cid c) (cl_tid c) rest (cl_out c))
  | [] => (Err "context deadline exceeded", c)
  end.

Definition getTranID : op Z := fun c =>
  let tid := u32 (cl_tid c + 1) in
  (Ok tid, MkClient (cl_ipv4 c) (cl_ID c) (cl_MaxBufSize c) (cl_last c) (cl_cid c) tid (cl_in c) (cl_out c)).

Definition parseError (b : bytes) : Z * bytes := (be_val (slice 0 4 b), drop 4 b).

Definition client_send (b : bytes) : op unit := fun c =>
  match Write b with
  | Ok n => ((if decide (n < len b) then Err ErrShortWrite else Ok tt),
             MkClient (cl_ipv4 c) (cl_ID c) (cl_MaxBufSize c) (cl_last c) (cl_cid c) (cl_tid c) (cl_in c) (cl_out c ++ [b]))
  | Err e => (Err e, c)
  | Panic p => (Panic p, c)
  | NoFuel => (NoFuel, c)
  end.

(** The action of a response is the expected one; an error response is an
    error with its reason. *)
Definition checkAction (expected : Z) (data : bytes) : res unit :=
  let action := be_val (slice 0 4 data) in
  if decide (action = expected) then Ok tt
  else if decide (action = ActionError) then Err (text (snd (parseError (drop 4 data))))
  else Err "tracker response not connect action".

Definition checkTID (tid : Z) (data : bytes) : res unit :=
  if decide (be_val (slice 4 8 data) <> tid) then Err "invalid transaction id" else Ok tt.

Definition set_connection (cid now : Z) : op unit := fun c =>
  (Ok tt, MkClient (cl_ipv4 c) (cl_ID c) (cl_MaxBufSize c) now cid (cl_tid c) (cl_in c) (cl_out c)).

Definition connect (now : Z) : op unit :=
  tid ← getTranID;
  _ ← client_send (be_bytes 8 ProtocolID ++ be_bytes 4 ActionConnect ++ be_bytes 4 tid);
  data ← readResp 32;
  if decide (len data < 8) then fail (Err ErrShortBuffer)
  else
    _ ← fail (checkAction ActionConnect data);
    if decide (len data < 16) then fail (Err ErrShortBuffer)
    else
      _ ← fail (checkTID tid data);
      set_connection (be_val (slice 8 16 data)) now.

Definition minute : Z := 60 * 1000000000.

(** [now] is when the call reads the clock and [later] when it has connected. *)
Definition client_getConnectionID (now later : Z) : op Z :=
  c ← get_client;
  if decide (minute < now - cl_last c) then _ ← connect later; c ← get_client; mret (cl_cid c)
  else mret (cl_cid c).

Definition sendAnnounceRequest (cid tid : Z) (req : AnnounceRequest) : op unit :=
  b ← fail (AnnounceRequest_EncodeTo req);
  client_send (be_bytes 8 cid ++ be_bytes 4 ActionAnnounce ++ be_bytes 4 tid ++ b).

(** [readAnnounceResponse], also [readScrapeResponse]. *)
Definition readAnnounceResponse : op bytes :=
  c ← get_client;
  data ← readResp (cl_MaxBufSize c);
  if decide (len data < 8) then fail (Err ErrShortBuffer) else mret data.

Definition validateAnnounceResponse (data : bytes) (expectedTid : Z) : res unit :=
  _ ← checkAction ActionAnnounce data;
  if decide (len data < 16) then Err ErrShortBuffer else checkTID expectedTid data.

Definition announce (now later : Z) (req : AnnounceRequest) : op AnnounceResponse :=
  cid ← client_getConnectionID now later;
  tid ← getTranID;
  _ ← sendAnnounceRequest cid tid req;
  data ← readAnnounceResponse;
  _ ← fail (validateAnnounceResponse data tid);
  c ← get_client;
  fail (AnnounceResponse_DecodeFrom (drop 8 data) (cl_ipv4 c)).

(** The request [Announce] sends; it also fills the caller's. *)
Definition fill_PeerID (ID : bytes) (r : AnnounceRequest) : AnnounceRequest :=
  MkRequest (ar_InfoHash r) (if Hash.IsZero (ar_PeerID r) then ID else ar_PeerID r) (ar_Downloaded r) (ar_Left r)
    (ar_Uploaded r) (ar_Event r) (ar_IP r) (ar_Key r) (ar_NumWant r) (ar_Port r) (ar_Exts r).

Definition Announce (now later : Z) (r : AnnounceRequest) : op AnnounceResponse :=
  c ← get_client; announce now later (fill_PeerID (cl_ID c) r).

Definition buildScrapeRequest (cid tid : Z) (ihs : list bytes) : bytes :=
  be_bytes 8 cid ++ be_bytes 4 ActionScrape ++ be_bytes 4 tid ++ concat ihs.

Definition validateScrapeResponse (data : bytes) (expectedTid : Z) : res unit :=
  _ ← checkAction ActionScrape data; checkTID expectedTid data.

Definition parseScrapeResults (data : bytes) : list ScrapeResponse :=
  chunks (length data) 12 ScrapeResponse_DecodeFrom data.

Definition Scrape (now later : Z) (ihs : list bytes) : op (list ScrapeResponse) :=
  cid ← client_getConnectionID now later;
  tid ← getTranID;
  _ ← client_send (buildScrapeRequest cid tid ihs);
  data ← readAnnounceResponse;
  _ ← fail (validateScrapeResponse data tid);
  mret (parseScrapeResults (drop 8 data)).
End Client.
End UdpTracker.
End UdpTracker.
