(* ===== verification/UdpTrackerFacts.v ===== *)
(** * Properties of the UDP tracker protocol *)

From S2P Require Import Prelude Strconv Bencode Sha1 Hash Net NetFacts Routing Address UdpTracker.
Import Strconv Net NetFacts Address UdpTracker.

Module UdpTrackerFacts.

(** ** Fields of a packet *)
Lemma slice_skip n i j (a b : bytes) : length a = n -> (n <= i <= j)%nat -> slice i j (a ++ b) = slice (i - n) (j - n) b.
Proof.
  intros <- Hi. unfold slice. rewrite drop_app_ge by lia. f_equal. lia.
Qed.

Lemma slice_here n (a b : bytes) : length a = n -> slice 0 n (a ++ b) = a.
Proof. intros <-. unfold slice. rewrite drop_0, Nat.sub_0_r. apply take_app_length. Qed.

Lemma slice_all n (a : bytes) : length a = n -> slice 0 n a = a.
Proof. intros <-. unfold slice. rewrite drop_0, Nat.sub_0_r. by rewrite take_ge by lia. Qed.

(** Reads a field at its offset in a concatenation of fields whose lengths
    [tac] finds. *)
Ltac slice_fields tac :=
  repeat first
    [ erewrite slice_here; [|solve [tac]]
    | erewrite slice_skip; [|solve [tac]|lia]; cbn [Nat.sub]
    | erewrite slice_all; [|solve [tac]] ].

Lemma drop_skip n i (a b : bytes) : length a = n -> (n <= i)%nat -> drop i (a ++ b) = drop (i - n) b.
Proof. intros <- Hi. by rewrite drop_app_ge. Qed.

Lemma chunks_concat {X} (f : bytes -> X) step (enc : X -> bytes) l fuel : (0 < step)%nat ->
  Forall (fun x => length (enc x) = step /\ f (enc x) = x) l -> (length l <= fuel)%nat ->
  chunks (S fuel) step f (concat (map enc l)) = l.
Proof.
  intros Hs Hl. revert fuel. induction Hl as [|x l [Hx Hf] _ IH]; intros fuel Hfuel; cbn [map concat chunks].
  - by rewrite decide_True by (cbn; lia).
  - rewrite decide_False by (rewrite length_app; lia). rewrite take_app_length', drop_app_length' by done. rewrite Hf. f_equal.
    destruct fuel as [|fuel]; [cbn in Hfuel; lia|]. apply IH. cbn in Hfuel. lia.
Qed.

Lemma chunks_enough {X} (f : bytes -> X) step b fuel : (0 < step)%nat -> (length b < fuel)%nat ->
  chunks fuel step f b = chunks (S (length b)) step f b.
Proof.
  intros Hs. assert (Hgen : forall n m b, (length b < n)%nat -> (length b < m)%nat -> chunks n step f b = chunks m step f b).
  { intros n. induction n as [|n IH]; intros m c Hn Hm; [lia|]. destruct m as [|m]; [lia|]. cbn [chunks].
    case_decide; [done|]. f_equal. apply IH; rewrite length_drop; lia. }
  intros Hf. apply Hgen; lia.
Qed.

(** ** Integers *)
Lemma i64_be z : - 2 ^ 63 <= z < 2 ^ 63 -> i64 (be_val (be_bytes 8 z)) = z.
Proof.
  intros Hz. rewrite be_val_be_bytes. change (256 ^ Z.of_nat 8) with (2 ^ 64). unfold i64.
  change (z mod 2 ^ 64) with (wrap 64 z). rewrite swrap_wrap by lia. apply swrap_small; [lia|]. exact Hz.
Qed.

Lemma i32_be z : - 2 ^ 31 <= z < 2 ^ 31 -> i32 (be_val (be_bytes 4 z)) = z.
Proof.
  intros Hz. rewrite be_val_be_bytes. change (256 ^ Z.of_nat 4) with (2 ^ 32). unfold i32.
  change (z mod 2 ^ 32) with (wrap 32 z). rewrite swrap_wrap by lia. apply swrap_small; [lia|]. exact Hz.
Qed.

Lemma u_be n z : 0 <= z < 256 ^ Z.of_nat n -> be_val (be_bytes n z) = z.
Proof. apply be_val_be_bytes_id. Qed.

(** ** Extensions *)
Definition ext_ok (e : Extension) : Prop := x_Length e = len (x_Data e) /\ x_Length e < 256.

Lemma encode_ext e : ext_ok e -> Extension_EncodeTo e = Ok (x_Type e :: x_Length e :: x_Data e).
Proof.
  intros [Hl Hb]. unfold Extension_EncodeTo. pose proof (len_nonneg (x_Data e)). rewrite u8_small by lia.
  rewrite decide_False by lia. by rewrite decide_False by (by intros []).
Qed.

Definition exts_bytes (exts : list Extension) : bytes := concat (map (fun e => x_Type e :: x_Length e :: x_Data e) exts).

Lemma encode_exts_ok exts : Forall ext_ok exts -> encode_exts exts = Ok (exts_bytes exts).
Proof.
  induction 1 as [|e exts He _ IH]; [done|]. cbn [encode_exts]. rewrite (encode_ext e He), bind_Ok, IH, bind_Ok. done.
Qed.

Lemma decode_exts_ok exts fuel : Forall ext_ok exts -> (length (exts_bytes exts) <= fuel)%nat ->
  decode_exts fuel (exts_bytes exts) = Ok exts.
Proof.
  intros He. revert fuel. induction He as [|e exts [Hl Hb] _ IH]; intros fuel Hf; [by destruct fuel|].
  destruct e as [t l data]. cbn [x_Length x_Data] in *. subst l. pose proof (len_nonneg data).
  change (exts_bytes (MkExtension t (len data) data :: exts)) with (t :: len data :: data ++ exts_bytes exts) in *.
  destruct fuel as [|fuel]; [cbn in Hf; lia|]. cbn [decode_exts Extension_DecodeFrom].
  cbn [length] in Hf. rewrite length_app in Hf. case_decide as Hz.
  - rewrite decide_False by (rewrite len_app; pose proof (len_nonneg (exts_bytes exts)); lia). rewrite bind_Ok.
    replace (Z.to_nat (2 + len data)) with (S (S (length data))) by (unfold len; lia). cbn [drop].
    rewrite drop_app_length, IH, bind_Ok by lia. unfold len. by rewrite Nat2Z.id, take_app_length.
  - assert (data = []) as -> by (apply len_zero; lia). rewrite bind_Ok. change (Z.to_nat 2) with 2%nat. cbn [drop app].
    rewrite IH, bind_Ok by (cbn in Hf; lia). done.
Qed.

Section Facts.
Context {I : Type} `{I2PKeys I}.
Abbreviation addr := (netAddr (I := I)).
Abbreviation AnnounceRequest := (AnnounceRequest (I := I)).
Abbreviation AnnounceResponse := (AnnounceResponse (I := I)).

(** ** Requests *)
Record request_ok (r : AnnounceRequest) (ip : bytes) : Prop := {
  rq_hash : length (ar_InfoHash r) = 20%nat;
  rq_peer : length (ar_PeerID r) = 20%nat;
  rq_down : - 2 ^ 63 <= ar_Downloaded r < 2 ^ 63;
  rq_left : - 2 ^ 63 <= ar_Left r < 2 ^ 63;
  rq_up : - 2 ^ 63 <= ar_Uploaded r < 2 ^ 63;
  rq_event : 0 <= ar_Event r < 2 ^ 32;
  rq_ip : ar_IP r = Some (IPAddr ip []) /\ length ip = 4%nat /\ bytes_ok ip;
  rq_key : - 2 ^ 31 <= ar_Key r < 2 ^ 31;
  rq_want : - 2 ^ 31 <= ar_NumWant r < 2 ^ 31;
  rq_port : 0 <= ar_Port r < 2 ^ 16;
  rq_exts : Forall ext_ok (ar_Exts r)
}.

Lemma encode_ip4 ip : length ip = 4%nat -> bytes_ok ip -> encode_ip (I := I) (IPAddr ip []) = ip.
Proof.
  intros Hl Hb. unfold encode_ip. change (addr_String (IPAddr ip [])) with (ipEmptyString ip).
  unfold ipEmptyString. rewrite (decide_False (P := len ip = 0)) by (unfold len; lia).
  pose proof (length_IP4_String ip Hb Hl). rewrite decide_True by (unfold len; lia).
  rewrite ParseIP_v4 by done. do 5 (destruct ip as [|? ip]; try discriminate Hl). done.
Qed.

(** The fixed part of a request, and all of it. *)
Definition request_fixed (r : AnnounceRequest) (ip : bytes) : bytes :=
  ar_InfoHash r ++ ar_PeerID r ++ be_bytes 8 (ar_Downloaded r) ++ be_bytes 8 (ar_Left r) ++ be_bytes 8 (ar_Uploaded r) ++
  be_bytes 4 (ar_Event r) ++ ip ++ be_bytes 4 (ar_Key r) ++ be_bytes 4 (ar_NumWant r) ++ be_bytes 2 (ar_Port r).

Lemma length_fixed r ip : request_ok r ip -> length (request_fixed r ip) = 82%nat.
Proof. intros []. destruct_and!. unfold request_fixed. rewrite !length_app, !length_be_bytes. lia. Qed.

Lemma encode_request r ip : request_ok r ip -> AnnounceRequest_EncodeTo r = Ok (request_fixed r ip ++ exts_bytes (ar_Exts r)).
Proof.
  intros []. destruct rq_ip0 as (E & Hl & Hb). unfold AnnounceRequest_EncodeTo. rewrite E, encode_exts_ok, bind_Ok by done.
  rewrite encode_ip4 by done. unfold request_fixed. by rewrite <- !app_assoc.
Qed.

Lemma decode_request dest r ip : request_ok r ip ->
  AnnounceRequest_DecodeFrom dest (request_fixed r ip ++ exts_bytes (ar_Exts r)) 1 = Ok r.
Proof.
  intros Hr. pose proof (length_fixed r ip Hr) as HL. destruct Hr as [H1 H2 H3 H4 H5 H6 (E & Hl & Hb) H7 H8 H9 H10].
  unfold AnnounceRequest_DecodeFrom. rewrite !(decide_True (P := 1 = 1)) by done. cbn [decide].
  rewrite decide_False by (rewrite len_app; unfold len; lia).
  assert (Hd : drop 72 (request_fixed r ip ++ exts_bytes (ar_Exts r)) =
    be_bytes 4 (ar_Key r) ++ be_bytes 4 (ar_NumWant r) ++ be_bytes 2 (ar_Port r) ++ exts_bytes (ar_Exts r)).
  { unfold request_fixed. rewrite <- !app_assoc.
    repeat (erewrite drop_skip; [|solve [eassumption | apply length_be_bytes]|lia]; cbn [Nat.sub]). by rewrite drop_0. }
  rewrite Hd. repeat (erewrite (drop_skip _ 10); [|apply length_be_bytes|lia]; cbn [Nat.sub]).
  rewrite (drop_skip 4 6), (drop_skip 2 2), drop_0 by (try apply length_be_bytes; lia).
  rewrite decode_exts_ok, bind_Ok by (try done; rewrite !length_app; lia).
  unfold request_fixed. rewrite <- !app_assoc.
  slice_fields ltac:(eassumption || apply length_be_bytes).
  rewrite !i64_be, !i32_be, !u_be by (done || lia). rewrite <- E. by destruct r.
Qed.

(** An option that claims more data than there are. *)
Lemma decode_exts_bad exts t l data fuel : Forall ext_ok exts -> len data < l -> (length exts < fuel)%nat ->
  decode_exts fuel (exts_bytes exts ++ [t; l] ++ data) = Panic sliceBounds.
Proof.
  intros He Hl. revert fuel. induction He as [|e exts [Hx Hb] _ IH]; intros fuel Hf; (destruct fuel as [|fuel]; [cbn in Hf; lia|]).
  - cbn [exts_bytes map concat app decode_exts Extension_DecodeFrom]. pose proof (len_nonneg data).
    by rewrite decide_True, decide_True by lia.
  - destruct e as [t' l' data']. cbn [x_Length x_Data] in *. subst l'. pose proof (len_nonneg data').
    change (exts_bytes (MkExtension t' (len data') data' :: exts)) with (t' :: len data' :: data' ++ exts_bytes exts).
    cbn [app decode_exts Extension_DecodeFrom]. rewrite <- app_assoc. cbn [length] in Hf. case_decide as Hz.
    + rewrite decide_False by (rewrite len_app; match goal with |- context [len ?x] => pose proof (len_nonneg x) end;
        match goal with |- context [_ + len ?x] => pose proof (len_nonneg x) end; lia). rewrite bind_Ok.
      replace (Z.to_nat (2 + len data')) with (S (S (length data'))) by (unfold len; lia). cbn [drop].
      rewrite drop_app_length. change (t :: l :: data) with ([t; l] ++ data). by rewrite IH by lia.
    + assert (data' = []) as -> by (apply len_zero; lia). rewrite bind_Ok. change (Z.to_nat 2) with 2%nat. cbn [drop app].
      change (t :: l :: data) with ([t; l] ++ data). by rewrite IH by lia.
Qed.

Lemma decode_request_bad dest r ip t l data : request_ok r ip -> len data < l ->
  AnnounceRequest_DecodeFrom (I := I) dest (request_fixed r ip ++ exts_bytes (ar_Exts r) ++ [t; l] ++ data) 1 = Panic sliceBounds.
Proof.
  intros Hr Hl. pose proof (length_fixed r ip Hr) as HL. destruct Hr. unfold AnnounceRequest_DecodeFrom.
  rewrite !(decide_True (P := 1 = 1)) by done.
  rewrite decide_False by (rewrite len_app; pose proof (len_nonneg (exts_bytes (ar_Exts r) ++ [t; l] ++ data)); unfold len in *; lia).
  rewrite drop_drop. change (72 + 10)%nat with 82%nat. rewrite (drop_app_length' _ _ 82) by done.
  rewrite decode_exts_bad; [done|done|done|]. rewrite length_drop, !length_app, HL. cbn [length].
  assert (length (ar_Exts r) <= length (exts_bytes (ar_Exts r)))%nat; [|lia].
  clear. induction (ar_Exts r) as [|e l IH]; [done|]. unfold exts_bytes in *. cbn [map concat length]. rewrite length_app. cbn [length]. lia.
Qed.

(** ** Responses *)
Definition peer_ok (a : Address (I := I)) : Prop :=
  exists ip port, a = MkAddress (Some (IPAddr ip [])) port /\ length ip = 4%nat /\ 0 <= port < 2 ^ 16.

Definition response_ok (r : AnnounceResponse) : Prop :=
  0 <= an_Interval r < 2 ^ 32 /\ 0 <= an_Leechers r < 2 ^ 32 /\ 0 <= an_Seeders r < 2 ^ 32 /\ Forall peer_ok (an_Addresses r).

Lemma encode_peer_ok a : peer_ok a -> length (encode_peer a) = 6%nat /\ decode_peer 4 (encode_peer a) = a.
Proof.
  intros (ip & port & -> & Hl & Hp). unfold encode_peer.
  assert (addr_To4 (I := I) (MkAddress (Some (IPAddr ip [])) port) = IPAddr ip []) as ->.
  { cbn. unfold To4, FastSet.To4. by rewrite decide_True by (unfold len; lia). }
  cbn [a_Port]. rewrite length_app, length_be_bytes, Hl. split; [done|]. unfold decode_peer.
  by rewrite take_app_length', drop_app_length', u_be by (done || lia).
Qed.

Lemma length_response r : response_ok r -> length (AnnounceResponse_EncodeTo r) = (12 + 6 * length (an_Addresses r))%nat.
Proof.
  intros (_ & _ & _ & Ha). unfold AnnounceResponse_EncodeTo. rewrite !length_app, !length_be_bytes.
  assert (length (concat (map encode_peer (an_Addresses r))) = 6 * length (an_Addresses r))%nat; [|lia].
  induction Ha as [|a l Hx _ IH]; [done|]. cbn [map concat length]. rewrite length_app, IH. destruct (encode_peer_ok a Hx). lia.
Qed.

Lemma decode_response r : response_ok r -> AnnounceResponse_DecodeFrom (AnnounceResponse_EncodeTo r) true = Ok r.
Proof.
  intros Hr. pose proof (length_response r Hr) as HL. destruct Hr as (H1 & H2 & H3 & Ha).
  unfold AnnounceResponse_DecodeFrom. rewrite decide_False by (unfold len; lia). rewrite HL.
  unfold AnnounceResponse_EncodeTo. slice_fields ltac:(apply length_be_bytes).
  rewrite !u_be by lia. rewrite (drop_skip 4 12), (drop_skip 4 8), (drop_skip 4 4), drop_0 by (try apply length_be_bytes; lia).
  change (12 + 6 * length (an_Addresses r))%nat with (S (11 + 6 * length (an_Addresses r)))%nat.
  rewrite (chunks_concat (decode_peer 4) 6 encode_peer); [by destruct r|lia| |lia].
  eapply Forall_impl; [exact Ha|]. apply encode_peer_ok.
Qed.

(** ** The server *)
Section Server.
Context {HS : Type} (dest : bytes -> addr) (handler : ServerHandler (I := I) (HS := HS)).
Abbreviation Server := (Server (I := I) (HS := HS)).

Lemma handlePacket_fields now raddr cid action tid body (s : Server) :
  0 <= cid < 2 ^ 64 -> 0 <= action < 2 ^ 32 -> 0 <= tid < 2 ^ 32 ->
  handlePacket dest handler now raddr (be_bytes 8 cid ++ be_bytes 4 action ++ be_bytes 4 tid ++ body) s =
    (if decide (cid = ProtocolID /\ action = ActionConnect) then Ok (handleConnectionRequest handler now raddr tid s)
     else if negb (checkConnection cid raddr s) then Ok (sendError raddr tid (bs "connection is expired") s)
     else processAction dest handler raddr action tid body s).
Proof.
  intros Hc Ha Ht. unfold handlePacket. slice_fields ltac:(apply length_be_bytes). rewrite !u_be by (cbn; lia).
  rewrite (drop_skip 8 16), (drop_skip 4 8), (drop_skip 4 4), drop_0 by (try apply length_be_bytes; lia). done.
Qed.

Lemma Run_step_fields now raddr cid action tid body (s : Server) :
  0 <= cid < 2 ^ 64 -> 0 <= action < 2 ^ 32 -> 0 <= tid < 2 ^ 32 -> 16 + len body <= us_MaxBufSize s ->
  Run_step dest handler now raddr (be_bytes 8 cid ++ be_bytes 4 action ++ be_bytes 4 tid ++ body) s =
  handlePacket dest handler now raddr (be_bytes 8 cid ++ be_bytes 4 action ++ be_bytes 4 tid ++ body) s.
Proof.
  intros Hc Ha Ht Hm. unfold Run_step. pose proof (len_nonneg body).
  assert (len (be_bytes 8 cid ++ be_bytes 4 action ++ be_bytes 4 tid ++ body) = 16 + len body) as HL
    by (rewrite !len_app, !len_be_bytes; lia).
  rewrite take_ge by (unfold len in *; lia). by rewrite decide_False by lia.
Qed.

(** The server after it has accepted a connection request. *)
Definition connected (now : Z) (raddr : addr) (h : HS) (s : Server) : Server :=
  addConnection now (u64 (us_cid s + 1)) raddr (snd (getConnectionID (with_handler s h))).

Lemma connect_step now raddr tid h (s : Server) : 0 <= tid < 2 ^ 32 -> 16 <= us_MaxBufSize s ->
  OnConnect handler raddr (us_handler s) = (h, inr tt) ->
  Run_step dest handler now raddr (be_bytes 8 ProtocolID ++ be_bytes 4 ActionConnect ++ be_bytes 4 tid) s =
    Ok (send raddr (encodeResponseHeader ActionConnect tid ++ be_bytes 8 (u64 (us_cid s + 1))) (connected now raddr h s)).
Proof.
  intros Ht Hm Hh. rewrite <- (app_nil_r (be_bytes 4 tid)).
  rewrite Run_step_fields, handlePacket_fields by (unfold ProtocolID, ActionConnect; rewrite ?len_nil; lia).
  rewrite decide_True by done. unfold handleConnectionRequest. by rewrite Hh.
Qed.

Lemma checkConnection_connected now raddr h s b : checkConnection (u64 (us_cid s + 1)) raddr (send raddr b (connected now raddr h s)) = true.
Proof. unfold checkConnection, connected. cbn. rewrite lookup_insert_eq. by apply bool_decide_true. Qed.

(** What the server sends for the answer of the handler. *)
Definition answer_bytes (tid : Z) (ans : bytes + AnnounceResponse) : bytes :=
  match ans with
  | inl err => encodeResponseHeader ActionError tid ++ err
  | inr resp => encodeResponseHeader ActionAnnounce tid ++ AnnounceResponse_EncodeTo resp
  end.

Lemma announce_step now raddr cid tid r ip h ans (s : Server) :
  0 <= cid < 2 ^ 64 -> 0 <= tid < 2 ^ 32 -> request_ok r ip -> len (addr_String raddr) < 16 ->
  98 + len (exts_bytes (ar_Exts r)) <= us_MaxBufSize s -> checkConnection cid raddr s = true ->
  OnAnnounce handler raddr r (us_handler s) = (h, ans) ->
  Run_step dest handler now raddr (be_bytes 8 cid ++ be_bytes 4 ActionAnnounce ++ be_bytes 4 tid ++ request_fixed r ip ++ exts_bytes (ar_Exts r)) s =
    Ok (send raddr (answer_bytes tid ans) (with_handler s h)).
Proof.
  intros Hc Ht Hr Ha Hm Hk Hh. pose proof (length_fixed r ip Hr) as HL.
  rewrite Run_step_fields, handlePacket_fields by (try done; rewrite ?len_app; unfold len in *; lia).
  rewrite decide_False by (by intros [_ ?]). rewrite Hk. cbn [negb]. unfold processAction. rewrite decide_True by done.
  unfold handleAnnounceAction, decodeAnnounceRequest. rewrite decide_True by done.
  pose proof (len_nonneg (exts_bytes (ar_Exts r))). rewrite decide_False by (rewrite len_app; unfold len in *; lia).
  rewrite (decode_request dest r ip Hr), Hh. by destruct ans.
Qed.

(** From an address with a longer text the request is measured as an IPv6 one. *)
Lemma refused_step now raddr cid tid r ip (s : Server) :
  0 <= cid < 2 ^ 64 -> 0 <= tid < 2 ^ 32 -> request_ok r ip -> 16 <= len (addr_String raddr) < 32 -> len (exts_bytes (ar_Exts r)) < 12 ->
  98 + len (exts_bytes (ar_Exts r)) <= us_MaxBufSize s -> checkConnection cid raddr s = true ->
  Run_step dest handler now raddr (be_bytes 8 cid ++ be_bytes 4 ActionAnnounce ++ be_bytes 4 tid ++ request_fixed r ip ++ exts_bytes (ar_Exts r)) s =
    Ok (send raddr (answer_bytes tid (inl (bs invalidRequest))) s).
Proof.
  intros Hc Ht Hr Ha Hx Hm Hk. pose proof (length_fixed r ip Hr) as HL.
  rewrite Run_step_fields, handlePacket_fields by (try done; rewrite ?len_app; unfold len in *; lia).
  rewrite decide_False by (by intros [_ ?]). rewrite Hk. cbn [negb]. unfold processAction. rewrite decide_True by done.
  unfold handleAnnounceAction, decodeAnnounceRequest. rewrite decide_False by lia. rewrite decide_True by lia.
  by rewrite decide_True by (rewrite len_app; unfold len in *; lia).
Qed.
End Server.

(** ** The client *)
Section Client.
Context (Write : bytes -> res Z).
Definition writes : Prop := forall b, Write b = Ok (len b).

Lemma run_op {X Y} (f : X -> op Y) (m : op X) c :
  op_bind X Y f m c = match m c with
    | (Ok a, c') => f a c' | (Err e, c') => (Err e, c') | (Panic p, c') => (Panic p, c') | (NoFuel, c') => (NoFuel, c') end.
Proof. reflexivity. Qed.

Lemma send_run b c : writes -> client_send Write b c =
  (Ok tt, MkClient (cl_ipv4 c) (cl_ID c) (cl_MaxBufSize c) (cl_last c) (cl_cid c) (cl_tid c) (cl_in c) (cl_out c ++ [b])).
Proof. intros Hw. unfold client_send. rewrite Hw. by rewrite decide_False by lia. Qed.

Lemma read_run size b rest c : cl_in c = Ok b :: rest -> len b <= size -> readResp size c =
  (Ok b, MkClient (cl_ipv4 c) (cl_ID c) (cl_MaxBufSize c) (cl_last c) (cl_cid c) (cl_tid c) rest (cl_out c)).
Proof. intros E Hl. unfold readResp. rewrite E, bind_Ok. rewrite take_ge by (unfold len in Hl; lia). done. Qed.

Lemma header_fields action tid body : 0 <= action < 2 ^ 32 -> 0 <= tid < 2 ^ 32 ->
  be_val (slice 0 4 (encodeResponseHeader action tid ++ body)) = action /\
  be_val (slice 4 8 (encodeResponseHeader action tid ++ body)) = tid /\
  drop 8 (encodeResponseHeader action tid ++ body) = body /\
  len (encodeResponseHeader action tid ++ body) = 8 + len body.
Proof.
  intros Ha Ht. unfold encodeResponseHeader. rewrite <- app_assoc. slice_fields ltac:(apply length_be_bytes).
  rewrite !u_be by (cbn; lia). rewrite (drop_skip 4 8), (drop_skip 4 4), drop_0 by (try apply length_be_bytes; lia).
  rewrite !len_app, !len_be_bytes. split_and!; done || lia.
Qed.

Definition connect_packet (tid : Z) : bytes := be_bytes 8 ProtocolID ++ be_bytes 4 ActionConnect ++ be_bytes 4 tid.

Lemma connect_run now cid rest c : writes -> 0 <= cid < 2 ^ 64 ->
  cl_in c = Ok (encodeResponseHeader ActionConnect (u32 (cl_tid c + 1)) ++ be_bytes 8 cid) :: rest ->
  connect Write now c = (Ok tt, MkClient (cl_ipv4 c) (cl_ID c) (cl_MaxBufSize c) now cid (u32 (cl_tid c + 1)) rest
    (cl_out c ++ [connect_packet (u32 (cl_tid c + 1))])).
Proof.
  intros Hw Hc Hin. set (tid := u32 (cl_tid c + 1)) in *. assert (Ht : 0 <= tid < 2 ^ 32) by (apply Z.mod_pos_bound; lia).
  destruct (header_fields ActionConnect tid (be_bytes 8 cid)) as (H1 & H2 & H3 & H4); [unfold ActionConnect; lia|done|].
  rewrite len_be_bytes in H4. unfold connect, mbind. rewrite run_op. cbn [getTranID]. cbv beta iota. fold tid.
  rewrite run_op, send_run by done. cbv beta iota. rewrite run_op, (read_run _ _ rest) by (done || lia). cbv beta iota.
  rewrite decide_False by lia. rewrite run_op. unfold fail at 1, checkAction. cbv zeta. rewrite H1. cbv beta iota. rewrite decide_True by done.
  rewrite decide_False by lia. rewrite run_op. unfold fail, checkTID. rewrite H2. rewrite decide_False by (by intros []).
  unfold set_connection. do 3 f_equal. unfold encodeResponseHeader. rewrite <- app_assoc.
  slice_fields ltac:(apply length_be_bytes). apply u_be. cbn. lia.
Qed.

(** What the caller of [Announce] gets for the answer of the handler. *)
Definition answer_result (ans : bytes + AnnounceResponse) : res AnnounceResponse :=
  match ans with inl err => Err (Strconv.text err) | inr resp => Ok resp end.
Definition answer_ok (size : Z) (ans : bytes + AnnounceResponse) : Prop :=
  len (answer_bytes 0 ans) <= size /\ match ans with inl _ => True | inr resp => response_ok resp end.

Lemma len_answer tid ans : len (answer_bytes tid ans) = len (answer_bytes 0 ans).
Proof. destruct ans; unfold answer_bytes, encodeResponseHeader; by rewrite !len_app, !len_be_bytes. Qed.

Lemma validate_answer tid ans size : 0 <= tid < 2 ^ 32 -> answer_ok size ans ->
  8 <= len (answer_bytes tid ans) /\
  (_ ← validateAnnounceResponse (answer_bytes tid ans) tid; AnnounceResponse_DecodeFrom (drop 8 (answer_bytes tid ans)) true) = answer_result ans.
Proof.
  intros Ht [_ Ha]. destruct ans as [err|resp]; cbn [answer_bytes answer_result].
  - destruct (header_fields ActionError tid err) as (H1 & H2 & H3 & H4); [unfold ActionError; lia|done|].
    pose proof (len_nonneg err). split; [lia|]. unfold validateAnnounceResponse, checkAction. cbv zeta. rewrite H1.
    rewrite (decide_False (P := ActionError = ActionAnnounce)) by done.
    rewrite (decide_True (P := ActionError = ActionError)) by done. cbn [parseError snd].
    by rewrite drop_drop, H3.
  - destruct (header_fields ActionAnnounce tid (AnnounceResponse_EncodeTo resp)) as (H1 & H2 & H3 & H4); [unfold ActionAnnounce; lia|done|].
    pose proof (length_response resp Ha). split; [unfold len in *; lia|]. unfold validateAnnounceResponse, checkAction, checkTID.
    cbv zeta. rewrite H1, H2, H3, (decide_True (P := ActionAnnounce = ActionAnnounce)), bind_Ok by done.
    rewrite decide_False by (unfold len in *; lia). rewrite decide_False by (by intros []). rewrite bind_Ok. by apply decode_response.
Qed.

Lemma announce_run now later r ip cid ans rest c : writes -> 0 <= cid < 2 ^ 64 -> request_ok (fill_PeerID (cl_ID c) r) ip ->
  minute < now - cl_last c -> cl_ipv4 c = true -> answer_ok (cl_MaxBufSize c) ans ->
  let tid := u32 (cl_tid c + 1) in let tid' := u32 (tid + 1) in
  let req := fill_PeerID (cl_ID c) r in
  cl_in c = Ok (encodeResponseHeader ActionConnect tid ++ be_bytes 8 cid) :: Ok (answer_bytes tid' ans) :: rest ->
  Announce Write now later r c = (answer_result ans, MkClient (cl_ipv4 c) (cl_ID c) (cl_MaxBufSize c) later cid tid' rest
    (cl_out c ++ [connect_packet tid; be_bytes 8 cid ++ be_bytes 4 ActionAnnounce ++ be_bytes 4 tid' ++ request_fixed req ip ++ exts_bytes (ar_Exts req)])).
Proof.
  intros Hw Hc Hr Hn H4 Ha tid tid' req Hin. assert (Ht : 0 <= tid' < 2 ^ 32) by (apply Z.mod_pos_bound; lia).
  unfold Announce, mbind. rewrite run_op. cbn [get_client]. cbv beta iota. unfold announce, mbind. rewrite run_op.
  unfold client_getConnectionID, mbind. rewrite run_op. cbn [get_client]. cbv beta iota. rewrite decide_True by done.
  rewrite run_op, (connect_run later cid (Ok (answer_bytes tid' ans) :: rest)) by done. cbv beta iota. rewrite run_op. cbn [get_client].
  unfold mret, op_ret. cbv beta iota. cbn [cl_cid]. rewrite run_op. unfold getTranID. cbn [cl_tid]. fold tid tid'. cbv beta iota.
  rewrite run_op. unfold sendAnnounceRequest, mbind. rewrite run_op. unfold fail at 1. fold req. rewrite (encode_request req ip Hr). cbv beta iota.
  rewrite send_run by done. cbv beta iota. rewrite run_op. unfold readAnnounceResponse, mbind. rewrite run_op. cbn [get_client]. cbv beta iota.
  destruct (validate_answer tid' ans _ Ht Ha) as [Hlen Hv]. destruct Ha as [Ha _].
  rewrite run_op, (read_run _ (answer_bytes tid' ans) rest); [|done|cbn [cl_MaxBufSize]; by rewrite len_answer]. cbv beta iota.
  rewrite decide_False by lia. cbn [cl_ipv4 cl_ID cl_MaxBufSize cl_last cl_cid cl_tid cl_out]. unfold mret, op_ret. cbv beta iota.
  rewrite run_op. unfold fail at 1. rewrite <- app_assoc. cbn [app]. rewrite <- Hv.
  destruct (validateAnnounceResponse (answer_bytes tid' ans) tid') as [[]|?|?|]; try done. rewrite bind_Ok. cbv beta iota.
  rewrite run_op. cbn [get_client]. cbv beta iota. cbn [cl_ipv4]. by rewrite H4.
Qed.
End Client.

(** ** Histories of the server *)
Section History.
Context {HS : Type} (dest : bytes -> addr) (handler : ServerHandler (I := I) (HS := HS)).
Abbreviation Server := (Server (I := I) (HS := HS)).

Inductive event := Packet (now : Z) (raddr : addr) (p : bytes) | Tick (now interval : Z).

Definition step (s : Server) (e : event) : res Server :=
  match e with
  | Packet now raddr p => Run_step dest handler now raddr p s
  | Tick now interval => Ok (cleanExpiredConnections now interval s)
  end.

Fixpoint run (es : list event) (s : Server) : res Server :=
  match es with [] => Ok s | e :: es' => s' ← step s e; run es' s' end.

Definition is_connect (p : bytes) : Prop := be_val (slice 0 8 p) = ProtocolID /\ be_val (slice 8 12 p) = ActionConnect.

(** An address with the same text sent a connection request. *)
Definition asked_connect (max : Z) (es : list event) (a : addr) : Prop :=
  Exists (fun e => match e with
    | Packet _ a' p => addr_String a' = addr_String a /\ is_connect (take (Z.to_nat max) p)
    | Tick _ _ => False end) es.

(** Every connection of the server was asked for in [es]. *)
Definition conns_asked (max : Z) (es : list event) (s : Server) : Prop :=
  us_MaxBufSize s = max /\ forall cid w, us_conns s !! cid = Some w -> asked_connect max es (wa_Addr w).

Lemma conns_asked_same max es e s s' : conns_asked max es s ->
  us_MaxBufSize s' = us_MaxBufSize s -> us_conns s' = us_conns s -> conns_asked max (es ++ [e]) s'.
Proof.
  intros [Hm Hs] Em Ec. split; [congruence|]. intros cid w. rewrite Ec. intros Hw. apply Exists_app. left. by eapply Hs.
Qed.

Lemma step_asked max es e s s' : conns_asked max es s -> step s e = Ok s' -> conns_asked max (es ++ [e]) s'.
Proof.
  intros [Hm Hs] E. destruct e as [now a p|now interval]; cbn [step] in E.
  - unfold Run_step in E. rewrite Hm in E. destruct (decide _); [injection E as <-; by apply (conns_asked_same max es _ s)|].
    unfold handlePacket in E. cbv zeta in E. destruct (decide _) as [Hc|_].
    + injection E as <-. unfold handleConnectionRequest. destruct (OnConnect handler a (us_handler s)) as [h [err|[]]].
      * by apply (conns_asked_same max es _ s).
      * split; [done|]. cbn. intros cid w. destruct (decide (cid = u64 (us_cid s + 1))) as [->|].
        -- rewrite lookup_insert_eq. intros [= <-]. apply Exists_app. right. by constructor.
        -- rewrite lookup_insert_ne by done. intros Hw. apply Exists_app. left. by eapply Hs.
    + destruct (negb _); [injection E as <-; by apply (conns_asked_same max es _ s)|].
      unfold processAction, handleAnnounceAction, handleScrapeAction in E.
      repeat (case_match; simplify_eq); by apply (conns_asked_same _ es _ s).
  - injection E as <-. split; [done|]. cbn. intros cid w [Hw _]%map_lookup_filter_Some. apply Exists_app. left. by eapply Hs.
Qed.

Lemma run_asked max es es' s s' : conns_asked max es s -> run es' s = Ok s' -> conns_asked max (es ++ es') s'.
Proof.
  revert es s. induction es' as [|e es' IH]; intros es s Hs E; cbn [run] in E.
  - injection E as <-. by rewrite app_nil_r.
  - destruct (step s e) as [s1|?|?|] eqn:E1; try discriminate. rewrite bind_Ok in E.
    change (e :: es') with ([e] ++ es'). rewrite app_assoc. eapply IH; [|exact E]. by apply (step_asked max es e s).
Qed.
End History.
End Facts.

(** ** Properties *)

(** The address of a client is printed, with its port, in fewer than sixteen
    characters. *)
Definition short_address {I} `{I2PKeys I} (raddr : netAddr (I := I)) : bool := bool_decide (len (addr_String raddr) < 16).

(** C19: an announce over UDP, between a client over IPv4 that is not connected
    and a tracker that accepts the connection. The client sends a connection
    request and then its announce request. If the tracker sees the client under
    an address that is printed, with the port, in fewer than sixteen characters,
    it gives the handler exactly the request of the client, with all its
    options, and the client returns exactly what the handler answered: its
    response, or its error. Any other client is refused: the tracker takes its
    request for an IPv6 one that is too short, the handler is not called, and
    the client returns the error "invalid announce request". The conditions:
    the sockets write and deliver every packet; the fields of request and
    response have their widths, the request an IPv4 address; the packets fit the
    buffers; and for a refused client the address has fewer than 32 characters
    and the options fewer than 12 bytes (with more the request is misread). *)
Theorem announce_exchange {I} `{I2PKeys I} {HS} dest (handler : ServerHandler (I := I) (HS := HS)) Write
  now later now1 now2 raddr (s : Server) c r ip h1 h2 ans :
  writes Write -> minute < now - cl_last c -> cl_ipv4 c = true ->
  short_address raddr = true \/ (len (addr_String raddr) < 32 /\ len (exts_bytes (ar_Exts r)) < 12) ->
  request_ok (fill_PeerID (cl_ID c) r) ip -> 98 + len (exts_bytes (ar_Exts r)) <= us_MaxBufSize s ->
  OnConnect handler raddr (us_handler s) = (h1, inr tt) ->
  OnAnnounce handler raddr (fill_PeerID (cl_ID c) r) h1 = (h2, ans) ->
  let answer := if short_address raddr then ans else inl (bs "invalid announce request") in
  answer_ok (cl_MaxBufSize c) answer ->
  exists p1 r1 s1 p2 r2 s2,
    Run_step dest handler now1 raddr p1 s = Ok s1 /\ us_out s1 = us_out s ++ [(raddr, r1)] /\
    Run_step dest handler now2 raddr p2 s1 = Ok s2 /\ us_out s2 = us_out s1 ++ [(raddr, r2)] /\
    us_handler s2 = (if short_address raddr then h2 else h1) /\
    forall rest, cl_in c = Ok r1 :: Ok r2 :: rest ->
      exists c', Announce Write now later r c = (answer_result answer, c') /\ cl_out c' = cl_out c ++ [p1; p2].
Proof.
  intros Hw Hn H4 Ha Hr Hm H1 H2 answer Hans. set (tid := u32 (cl_tid c + 1)). set (tid' := u32 (tid + 1)). set (cid := u64 (us_cid s + 1)).
  assert (Ht : 0 <= tid < 2 ^ 32) by (apply Z.mod_pos_bound; lia). assert (Ht' : 0 <= tid' < 2 ^ 32) by (apply Z.mod_pos_bound; lia).
  assert (Hcid : 0 <= cid < 2 ^ 64) by (apply Z.mod_pos_bound; lia). pose proof (len_nonneg (exts_bytes (ar_Exts r))).
  assert (Hexts : ar_Exts (fill_PeerID (cl_ID c) r) = ar_Exts r) by (unfold fill_PeerID; by destruct (Hash.IsZero _)).
  eexists _, _, (send raddr _ (connected now1 raddr h1 s)), _, _, (send raddr (answer_bytes tid' answer) (with_handler _ (if short_address raddr then h2 else h1))).
  split; [apply (connect_step dest handler now1 raddr tid h1 s); [done|lia|done]|]. split; [done|].
  split; [|split; [done|split; [done|intros rest Hin; eexists; split; [by apply (announce_run Write now later r ip cid answer rest c)|done]]]].
  unfold answer. unfold short_address in *. case_bool_decide as Hs.
  - apply (announce_step dest handler now2 raddr cid tid' (fill_PeerID (cl_ID c) r) ip h2 ans); try done; rewrite ?Hexts; try done; apply checkConnection_connected.
  - destruct Ha as [Ha|[Ha Hx]]; [done|]. etransitivity.
    + apply (refused_step dest handler now2 raddr cid tid' (fill_PeerID (cl_ID c) r) ip); try done; rewrite ?Hexts; try done; [lia|apply checkConnection_connected].
    + done.
Qed.

(** no service without a connection. Whatever packets a server has
    received, an address from which no connection request came gets the error
    "connection is expired" for every other request, and the handler is not
    called. *)
Theorem tracker_needs_connect {I} `{I2PKeys I} {HS} dest (handler : ServerHandler (I := I) (HS := HS)) max h es s now raddr p :
  0 < max -> run dest handler es (NewServer max h) = Ok s -> ~ asked_connect max es raddr ->
  16 <= len (take (Z.to_nat max) p) -> ~ is_connect (take (Z.to_nat max) p) ->
  Run_step dest handler now raddr p s =
    Ok (sendError raddr (be_val (slice 12 16 (take (Z.to_nat max) p))) (bs "connection is expired") s).
Proof.
  intros Hmax Hrun Hno Hlen Hp.
  destruct (run_asked dest handler max [] es (NewServer max h) s) as [Hm Hs]; [|done|].
  { split; [by cbn; rewrite decide_False by lia|]. intros cid w. cbn. by rewrite lookup_empty. }
  unfold Run_step. rewrite Hm, decide_False by lia. unfold handlePacket. cbv zeta.
  rewrite decide_False by (by intros [? ?]; apply Hp).
  assert (Hc : checkConnection (be_val (slice 0 8 (take (Z.to_nat max) p))) raddr s = false); [|by rewrite Hc].
  unfold checkConnection. destruct (us_conns s !! _) as [w|] eqn:Ew; [|done]. apply bool_decide_eq_false_2. intros E.
  apply Hno. specialize (Hs _ _ Ew). eapply Exists_impl; [exact Hs|]. intros [? a' ?|? ?]; [|done]. intros [? ?]. split; [congruence|done].
Qed.

(** an announce request whose last option claims more data than the packet
    has makes the goroutine that handles it panic, whatever the rest of the
    request, for any address that is connected. *)
Theorem tracker_option_crash {I} `{I2PKeys I} {HS} dest (handler : ServerHandler (I := I) (HS := HS)) now raddr cid tid
  (r : AnnounceRequest (I := I)) ip t l data (s : Server (I := I) (HS := HS)) :
  0 <= cid < 2 ^ 64 -> 0 <= tid < 2 ^ 32 -> checkConnection cid raddr s = true -> len (addr_String raddr) < 16 ->
  request_ok r ip -> len data < l ->
  let packet := be_bytes 8 cid ++ be_bytes 4 ActionAnnounce ++ be_bytes 4 tid ++ request_fixed r ip ++ exts_bytes (ar_Exts r) ++ [t; l] ++ data in
  len packet <= us_MaxBufSize s ->
  Run_step dest handler now raddr packet s = Panic sliceBounds.
Proof.
  intros Hc Ht Hk Ha Hr Hl packet Hm. unfold packet in *. pose proof (length_fixed r ip Hr) as HL.
  rewrite !len_app, !len_be_bytes in Hm.
  rewrite Run_step_fields, handlePacket_fields by (try done; rewrite ?len_app; lia).
  rewrite decide_False by (by intros [_ ?]). rewrite Hk. cbn [negb]. unfold processAction. rewrite decide_True by done.
  unfold handleAnnounceAction, decodeAnnounceRequest. rewrite decide_True by done.
  rewrite decide_False by (rewrite len_app; pose proof (len_nonneg (exts_bytes (ar_Exts r) ++ [t; l] ++ data)); unfold len in *; lia).
  by rewrite (decode_request_bad dest r ip t l data Hr Hl).
Qed.

(** a client whose address and port take sixteen characters or more is not
    served: its IPv4 request is measured as an IPv6 one and refused, although
    it is connected and the request is well formed. *)
Theorem tracker_long_address_refused {I} `{I2PKeys I} {HS} dest (handler : ServerHandler (I := I) (HS := HS)) now raddr cid tid
  (r : AnnounceRequest (I := I)) ip (s : Server (I := I) (HS := HS)) :
  0 <= cid < 2 ^ 64 -> 0 <= tid < 2 ^ 32 -> checkConnection cid raddr s = true -> 16 <= len (addr_String raddr) < 32 ->
  request_ok r ip -> ar_Exts r = [] -> 98 <= us_MaxBufSize s ->
  Run_step dest handler now raddr (be_bytes 8 cid ++ be_bytes 4 ActionAnnounce ++ be_bytes 4 tid ++ request_fixed r ip) s =
    Ok (sendError raddr tid (bs "invalid announce request") s).
Proof.
  intros Hc Ht Hk Ha Hr Hx Hm. pose proof (length_fixed r ip Hr) as HL.
  rewrite Run_step_fields, handlePacket_fields by (try done; rewrite ?len_app; unfold len in *; lia).
  rewrite decide_False by (by intros [_ ?]). rewrite Hk. cbn [negb]. unfold processAction. rewrite decide_True by done.
  unfold handleAnnounceAction, decodeAnnounceRequest. rewrite decide_False by lia. rewrite decide_True by lia.
  by rewrite decide_True by (unfold len in *; lia).
Qed.

(** *** A tracker and a client to try the properties on *)
#[local] Existing Instance Address.demo_keys.

Definition demo_peer : Address (I := bytes) := MkAddress (Some (IPAddr [10; 0; 0; 9] [])) 6881.
Definition demo_answer : AnnounceResponse (I := bytes) := MkAnnounce 1800 3 4 [demo_peer].
(** The handler counts its calls. *)
Definition demo_handler : ServerHandler (I := bytes) (HS := nat) :=
  MkHandler (fun _ n => (S n, inr tt)) (fun _ _ n => (S n, inr demo_answer)) (fun _ _ n => (S n, inr [])).
Definition demo_dest (b : bytes) : netAddr (I := bytes) := OtherAddr b.
Definition demo_raddr : netAddr (I := bytes) := UDPAddr [10; 0; 0; 1] 6881 [].
Definition demo_request : AnnounceRequest (I := bytes) :=
  MkRequest (replicate 20 3) (replicate 20 0) 1 2 3 0 (Some (IPAddr [10; 0; 0; 1] [])) (-1) (-1) 6881 [NewURLData (bs "/a")].
Definition demo_reply1 : bytes := encodeResponseHeader ActionConnect 1 ++ be_bytes 8 1.
Definition demo_client : Client :=
  NewClient demo_raddr (replicate 20 7) [] 0 [Ok demo_reply1; Ok (answer_bytes 2 (inr demo_answer))].
Definition demo_server : Server (I := bytes) (HS := nat) := NewServer 0 0%nat.
Definition demo_write (b : bytes) : res Z := Ok (len b).

Lemma demo_request_ok : request_ok (fill_PeerID (replicate 20 7) demo_request) [10; 0; 0; 1].
Proof.
  constructor; try (vm_compute; reflexivity); try (cbn; lia).
  - split_and!; [reflexivity|reflexivity|]. repeat constructor; unfold is_byte; lia.
  - constructor; [|constructor]. split; vm_compute; reflexivity.
Qed.

Lemma announce_exchange_witness :
  exists c', Announce demo_write 0 1 demo_request demo_client = (Ok demo_answer, c') /\ length (cl_out c') = 2%nat.
Proof.
  destruct (announce_exchange demo_dest demo_handler demo_write 0 1 2 3 demo_raddr demo_server demo_client demo_request [10; 0; 0; 1] 1%nat 2%nat (inr demo_answer))
    as (p1 & r1 & s1 & p2 & r2 & s2 & E1 & O1 & E2 & O2 & _ & Hc).
  - intros b. reflexivity.
  - vm_compute. reflexivity.
  - reflexivity.
  - left. vm_compute. reflexivity.
  - exact demo_request_ok.
  - vm_compute. discriminate.
  - reflexivity.
  - reflexivity.
  - split; [vm_compute; discriminate|]. split_and!; try (cbn; lia). constructor; [|constructor].
    exists [10; 0; 0; 9], 6881. split_and!; [reflexivity|reflexivity|lia|lia].
  - exists (snd (Announce demo_write 0 1 demo_request demo_client)). split; vm_compute; reflexivity.
Defined.

Lemma tracker_needs_connect_witness :
  match run demo_dest demo_handler [Packet 0 (UDPAddr [10; 0; 0; 2] 6881 []) (connect_packet 1)] (NewServer 2048 0%nat) with
  | Ok s => Run_step demo_dest demo_handler 5 demo_raddr (be_bytes 8 1 ++ be_bytes 4 ActionScrape ++ be_bytes 4 9) s =
      Ok (sendError demo_raddr 9 (bs "connection is expired") s)
  | _ => False
  end.
Proof.
  destruct (run _ _ _ _) as [s|?|?|] eqn:E; [|vm_compute in E; discriminate E..].
  rewrite (tracker_needs_connect demo_dest demo_handler 2048 0%nat
    [Packet 0 (UDPAddr [10; 0; 0; 2] 6881 []) (connect_packet 1)] s 5 demo_raddr); [reflexivity|lia|exact E| | |].
  - intros [[Ha _]|Hx]%Exists_cons; [vm_compute in Ha; discriminate Ha|by apply Exists_nil in Hx].
  - vm_compute. discriminate.
  - intros [_ Hc]. vm_compute in Hc. discriminate Hc.
Defined.

Definition demo_connected : Server (I := bytes) (HS := nat) :=
  MkServer 2048 1 {[ 1 := MkPeerAddr demo_raddr 0 ]} 0%nat [].

Lemma tracker_option_crash_witness :
  Run_step demo_dest demo_handler 5 demo_raddr
    (be_bytes 8 1 ++ be_bytes 4 ActionAnnounce ++ be_bytes 4 9 ++ request_fixed (fill_PeerID (replicate 20 7) demo_request) [10; 0; 0; 1] ++
     exts_bytes (ar_Exts demo_request) ++ [2; 200] ++ bs "/") demo_connected = Panic sliceBounds.
Proof.
  apply (tracker_option_crash demo_dest demo_handler 5 demo_raddr 1 9 (fill_PeerID (replicate 20 7) demo_request) [10; 0; 0; 1] 2 200 (bs "/") demo_connected);
    [lia|lia|reflexivity|vm_compute; reflexivity|exact demo_request_ok|vm_compute; reflexivity|vm_compute; discriminate].
Defined.

Definition long_raddr : netAddr (I := bytes) := UDPAddr [192; 168; 100; 100] 6881 [].
Definition plain_request : AnnounceRequest (I := bytes) :=
  MkRequest (replicate 20 3) (replicate 20 7) 1 2 3 0 (Some (IPAddr [192; 168; 100; 100] [])) (-1) (-1) 6881 [].

Lemma tracker_long_address_refused_witness :
  let s := MkServer 2048 1 {[ 1 := MkPeerAddr long_raddr 0 ]} 0%nat [] in
  Run_step demo_dest demo_handler 5 long_raddr
    (be_bytes 8 1 ++ be_bytes 4 ActionAnnounce ++ be_bytes 4 9 ++ request_fixed plain_request [192; 168; 100; 100]) s =
  Ok (sendError long_raddr 9 (bs "invalid announce request") s).
Proof.
  intros s. apply (tracker_long_address_refused demo_dest demo_handler 5 long_raddr 1 9 plain_request [192; 168; 100; 100] s);
    [lia|lia|reflexivity|vm_compute; split; [discriminate|reflexivity]| |reflexivity|cbn; lia].
  constructor; try (vm_compute; reflexivity); try (cbn; lia); [|constructor].
  split_and!; [reflexivity|reflexivity|]. repeat constructor; unfold is_byte; lia.
Defined.

End UdpTrackerFacts.
