(* ===== verification/GoLib.v ===== *)
(** * Parts of Go's standard library the managers of the daemon use

    [sort.Slice], the functions of [strings] and the line scanner of [bufio]. *)

From S2P Require Import Prelude.

Module GoLib.

(** ** [sort.Slice] with the comparison [less]: sorted, and not stable *)
Class SortSlice := {
  sort_Slice : forall {A : Type}, (A -> A -> bool) -> list A -> list A;
  sort_Slice_perm : forall {A} less (l : list A), sort_Slice less l ≡ₚ l;
  sort_Slice_sorted : forall {A} (less : A -> A -> bool) (l : list A),
    (forall x y, less x y = true -> less y x = false) ->
    (forall x y z, less x y = false -> less y z = false -> less x z = false) ->
    StronglySorted (fun x y => less y x = false) (sort_Slice less l)
}.

(** An implementation by merging, to evaluate the models. *)
#[local] Instance not_less_dec {A} (less : A -> A -> bool) : RelDecision (fun x y => less y x = false).
Proof. intros x y. apply _. Defined.

#[global] Program Instance merge_SortSlice : SortSlice := {
  sort_Slice := fun A less l => merge_sort (fun x y => less y x = false) l
}.
Next Obligation. intros A less l. apply merge_sort_Permutation. Qed.
Next Obligation.
  intros A less l Has Htr. apply StronglySorted_merge_sort.
  - intros x y z Hxy Hyz. by eapply Htr.
  - intros x y. destruct (less y x) eqn:E; [right; by apply Has|by left].
Qed.

(** ** [strings] *)
Definition HasPrefix (s p : bytes) : bool := bool_decide (take (length p) s = p).
Definition Contains_byte (s : bytes) (c : Z) : bool := bool_decide (c ∈ s).

(** [strings.SplitN(s, sep, 2)] for a one-byte separator. *)
Fixpoint cut (sep : Z) (s : bytes) : option (bytes * bytes) :=
  match s with
  | [] => None
  | c :: s' => if decide (c = sep) then Some ([], s') else match cut sep s' with Some (a, b) => Some (c :: a, b) | None => None end
  end.
Definition SplitN2 (s : bytes) (sep : Z) : list bytes := match cut sep s with Some (a, b) => [a; b] | None => [s] end.

(** The UTF-8 encodings of the characters [unicode.IsSpace] accepts. *)
Definition spaces : list bytes :=
  map (fun c => [c]) [9; 10; 11; 12; 13; 32] ++ [[194; 133]; [194; 160]; [225; 154; 128]]
  ++ map (fun c => [226; 128; c]) (seqZ 128 11 ++ [168; 169; 175]) ++ [[226; 129; 159]; [227; 128; 128]].

Definition strip_one (sp : list bytes) (s : bytes) : option bytes :=
  match filter (fun p => HasPrefix s p) sp with p :: _ => Some (drop (length p) s) | [] => None end.

Fixpoint strip (fuel : nat) (sp : list bytes) (s : bytes) : bytes :=
  match fuel with
  | O => s
  | S fuel' => match strip_one sp s with Some s' => strip fuel' sp s' | None => s end
  end.

Definition TrimLeftSpace (s : bytes) : bytes := strip (length s) spaces s.
Definition TrimSpace (s : bytes) : bytes := rev (let r := rev (TrimLeftSpace s) in strip (length r) (map (@rev Z) spaces) r).

(** ** [bufio.Scanner] with [ScanLines]

    The lines of [b] without their ends; a line that does not fit in the
    64 KiB buffer together with its end stops the scanner with an error. *)
Definition MaxScanTokenSize : Z := 64 * 1024.
Definition ErrTooLong : string := "bufio.Scanner: token too long".

Definition dropCR (line : bytes) : bytes := match last line with Some 13 => take (length line - 1) line | _ => line end.

Fixpoint split_lines (b cur : bytes) : list bytes :=
  match b with
  | [] => match cur with [] => [] | _ => [cur] end
  | c :: b' => if decide (c = 10) then cur :: split_lines b' [] else split_lines b' (cur ++ [c])
  end.

(** The tokens before the error, and the error. *)
Fixpoint scan (lines : list bytes) (readErr : option string) : list bytes * option string :=
  match lines with
  | [] => ([], readErr)
  | l :: ls => if decide (MaxScanTokenSize <= len l) then ([], Some ErrTooLong)
               else let '(ts, e) := scan ls readErr in (dropCR l :: ts, e)
  end.

Definition ScanLines (b : bytes) (readErr : option string) : list bytes * option string := scan (split_lines b []) readErr.

Example trim_space : TrimSpace ([194; 160; 32] ++ bs "a b" ++ [13; 227; 128; 128]) = bs "a b".
Proof. vm_compute. reflexivity. Qed.
Example scan_lines : ScanLines (bs "a" ++ [13; 10; 10] ++ bs "b") None = ([bs "a"; []; bs "b"], None).
Proof. vm_compute. reflexivity. Qed.

Lemma cut_app a b sep : sep ∉ a -> cut sep (a ++ sep :: b) = Some (a, b).
Proof.
  induction a as [|x a IH]; cbn; intros Hn; [by rewrite decide_True|]. apply not_elem_of_cons in Hn as [Hx Hn].
  rewrite decide_False by done. by rewrite IH.
Qed.

(** Trimming leaves a text that neither starts nor ends with a blank alone. *)
Lemma strip_stop fuel sp s : (forall p, p ∈ sp -> HasPrefix s p = false) -> strip fuel sp s = s.
Proof.
  intros Hp. destruct fuel as [|fuel]; cbn [strip]; [done|]. unfold strip_one. destruct (filter _ sp) as [|p l] eqn:E; [done|].
  assert (Hin : p ∈ filter (fun p => HasPrefix s p) sp) by (rewrite E; left). apply list_elem_of_filter in Hin as [Ht Hin].
  rewrite (Hp p Hin) in Ht. done.
Qed.

Definition printable (c : Z) : Prop := 33 <= c <= 126.

Lemma no_space_prefix c s p : printable c -> p ∈ spaces \/ p ∈ map (@rev Z) spaces -> HasPrefix (c :: s) p = false.
Proof.
  intros Hc Hp. assert (Hall : Forall (fun p => exists d q, p = d :: q /\ ~ printable d) (spaces ++ map (@rev Z) spaces)).
  { unfold printable. vm_compute. repeat (constructor; [do 2 eexists; split; [reflexivity|]; intros [? ?]; congruence|]). constructor. }
  rewrite Forall_forall in Hall. destruct (Hall p) as (d & q & -> & Hd); [by apply elem_of_app|].
  unfold HasPrefix. apply bool_decide_eq_false. cbn. intros [= -> _]. done.
Qed.

Lemma TrimSpace_id s : Forall printable s -> TrimSpace s = s.
Proof.
  intros Hs. unfold TrimSpace, TrimLeftSpace. assert (E : strip (length s) spaces s = s).
  { destruct s as [|c s]; [done|]. apply strip_stop. intros p Hp. apply no_space_prefix; [by inversion Hs|by left]. }
  rewrite E. apply Forall_rev in Hs. cbv zeta. rewrite strip_stop; [apply rev_involutive|].
  intros p Hp. destruct (rev s) as [|c r]; [|apply no_space_prefix; [by inversion Hs|by right]].
  apply list_elem_of_fmap in Hp as (q & -> & Hq). revert q Hq. apply Forall_forall. vm_compute. repeat constructor.
Qed.

End GoLib.
