(* ===== verification/QueueManager.v ===== *)
(** * The torrent queues of the daemon

    Models [src/rpc/queue_manager.go]: the download and seed queues, their
    order, the activation of queued torrents up to a limit, and the statistics.

    A queue keeps its items in a map and its order in a list of IDs, as the
    code does. [sort.Slice] is an interface with what its documentation
    promises: the result is sorted, and it is not stable. The callbacks are
    started as goroutines; the model keeps the calls. The clock and the time a
    processing round took are arguments. *)

From S2P Require Import Prelude GoLib.
Import GoLib.

Module QueueManager.

Definition ErrTorrentNotInQueue : string := "torrent not found in queue".
Definition nilItem : string := "invalid memory address or nil pointer dereference".

Inductive QueueType := DownloadQueue | SeedQueue | OtherQueue.

Record QueueItem := MkItem { qi_TorrentID : Z; qi_QueuePosition : Z; qi_AddedTime : Z; qi_Priority : Z }.

Record QueueConfig := MkConfig {
  MaxActiveDownloads : Z; MaxActiveSeeds : Z; ProcessInterval : Z; DownloadQueueEnabled : bool; SeedQueueEnabled : bool
}.

Record QueueStats := MkStats {
  DownloadQueueLength : Z; SeedQueueLength : Z; ActiveDownloads : Z; ActiveSeeds : Z;
  TotalQueued : Z; TotalActivated : Z; LastProcessTime : Z; ProcessingTimeAverage : Z
}.

(** ** One queue *)
Record queue := MkQueue { q_items : gmap Z QueueItem; q_order : list Z }.

Definition set_position (i : Z) (item : QueueItem) : QueueItem :=
  MkItem (qi_TorrentID item) i (qi_AddedTime item) (qi_Priority item).

(** The loop of [updateDownloadQueuePositions], from index [i] on. *)
Fixpoint update_positions (i : Z) (order : list Z) (items : gmap Z QueueItem) : gmap Z QueueItem :=
  match order with
  | [] => items
  | id :: order' => update_positions (i + 1) order' (alter (set_position i) id items)
  end.

Definition updateQueuePositions (q : queue) : queue := MkQueue (update_positions 0 (q_order q) (q_items q)) (q_order q).

(** Higher priorities first, then earlier times. *)
Definition item_less (a b : QueueItem) : bool :=
  if decide (qi_Priority a <> qi_Priority b) then bool_decide (qi_Priority b < qi_Priority a)
  else bool_decide (qi_AddedTime a < qi_AddedTime b).

Definition nil_item : QueueItem := MkItem 0 0 0 0.
Definition order_less (items : gmap Z QueueItem) (a b : Z) : bool :=
  item_less (default nil_item (items !! a)) (default nil_item (items !! b)).

(** The comparison dereferences the items of both IDs, and sorting two or more
    elements compares each of them at least once. *)
Definition sortQueue `{SortSlice} (q : queue) : res queue :=
  if decide (2 <= length (q_order q))%nat then
    if decide (Forall (fun id => is_Some (q_items q !! id)) (q_order q))
    then Ok (MkQueue (q_items q) (sort_Slice (order_less (q_items q)) (q_order q)))
    else Panic nilItem
  else Ok q.

(** The order without the first occurrence of [id]. *)
Fixpoint remove_first (id : Z) (l : list Z) : list Z :=
  match l with [] => [] | x :: l' => if decide (x = id) then l' else x :: remove_first id l' end.

Definition removeFromQueueUnsafe (id : Z) (q : queue) : queue :=
  match q_items q !! id with
  | Some _ => updateQueuePositions (MkQueue (delete id (q_items q)) (remove_first id (q_order q)))
  | None => q
  end.

Definition add_item `{SortSlice} (id : Z) (item : QueueItem) (q : queue) : res queue :=
  q ← sortQueue (MkQueue (<[id := item]> (q_items q)) (q_order q ++ [id]));
  Ok (updateQueuePositions q).

Fixpoint index_of (i : Z) (id : Z) (l : list Z) : option Z :=
  match l with [] => None | x :: l' => if decide (x = id) then Some i else index_of (i + 1) id l' end.

Definition clamp (queueLen p : Z) : Z :=
  let p := if decide (p < 0) then 0 else p in
  if decide (queueLen <= p) then queueLen - 1 else p.

(** [moveInDownloadQueue], [moveInSeedQueue]. *)
Definition moveInQueue (id newPosition : Z) (q : queue) : res queue :=
  match index_of 0 id (q_order q) with
  | None => Err ErrTorrentNotInQueue
  | Some currentPos =>
      let newPosition := clamp (len (q_order q)) newPosition in
      if decide (newPosition = currentPos) then Ok q
      else
        let order := take (Z.to_nat currentPos) (q_order q) ++ drop (S (Z.to_nat currentPos)) (q_order q) in
        let newPos := Z.to_nat newPosition in
        Ok (updateQueuePositions (MkQueue (q_items q) (take newPos order ++ id :: drop newPos order)))
  end.

(** ** The manager *)
Record QueueManager := MkManager {
  downloads : queue;
  seeds : queue;
  activeDownloads : gset Z;
  activeSeeds : gset Z;
  config : QueueConfig;
  stats : QueueStats;
  activated : list (Z * QueueType)
}.

Definition zeroStats : QueueStats := MkStats 0 0 0 0 0 0 0 0.

Definition NewQueueManager (c : QueueConfig) : QueueManager :=
  let c := MkConfig (MaxActiveDownloads c) (MaxActiveSeeds c)
    (if decide (ProcessInterval c = 0) then 5 * 1000000000 else ProcessInterval c) (DownloadQueueEnabled c) (SeedQueueEnabled c) in
  MkManager (MkQueue ∅ []) (MkQueue ∅ []) ∅ ∅ c zeroStats [].

Definition with_stats (qm : QueueManager) (s : QueueStats) : QueueManager :=
  MkManager (downloads qm) (seeds qm) (activeDownloads qm) (activeSeeds qm) (config qm) s (activated qm).
Definition with_downloads (qm : QueueManager) (q : queue) : QueueManager :=
  MkManager q (seeds qm) (activeDownloads qm) (activeSeeds qm) (config qm) (stats qm) (activated qm).
Definition with_seeds (qm : QueueManager) (q : queue) : QueueManager :=
  MkManager (downloads qm) q (activeDownloads qm) (activeSeeds qm) (config qm) (stats qm) (activated qm).

Definition queue_size (q : queue) : Z := Z.of_nat (size (q_items q)).

(** The statistics of the two lengths and of the two active sets. *)
Definition set_DownloadQueueLength (qm : QueueManager) : QueueManager :=
  let s := stats qm in
  with_stats qm (MkStats (queue_size (downloads qm)) (SeedQueueLength s) (ActiveDownloads s) (ActiveSeeds s) (TotalQueued s)
    (TotalActivated s) (LastProcessTime s) (ProcessingTimeAverage s)).
Definition set_SeedQueueLength (qm : QueueManager) : QueueManager :=
  let s := stats qm in
  with_stats qm (MkStats (DownloadQueueLength s) (queue_size (seeds qm)) (ActiveDownloads s) (ActiveSeeds s) (TotalQueued s)
    (TotalActivated s) (LastProcessTime s) (ProcessingTimeAverage s)).
Definition set_ActiveDownloads (n : Z) (qm : QueueManager) : QueueManager :=
  let s := stats qm in
  with_stats qm (MkStats (DownloadQueueLength s) (SeedQueueLength s) n (ActiveSeeds s) (TotalQueued s)
    (TotalActivated s) (LastProcessTime s) (ProcessingTimeAverage s)).
Definition set_ActiveSeeds (n : Z) (qm : QueueManager) : QueueManager :=
  let s := stats qm in
  with_stats qm (MkStats (DownloadQueueLength s) (SeedQueueLength s) (ActiveDownloads s) n (TotalQueued s)
    (TotalActivated s) (LastProcessTime s) (ProcessingTimeAverage s)).
Definition inc_TotalQueued (qm : QueueManager) : QueueManager :=
  let s := stats qm in
  with_stats qm (MkStats (DownloadQueueLength s) (SeedQueueLength s) (ActiveDownloads s) (ActiveSeeds s) (i64 (TotalQueued s + 1))
    (TotalActivated s) (LastProcessTime s) (ProcessingTimeAverage s)).
Definition inc_TotalActivated (qm : QueueManager) : QueueManager :=
  let s := stats qm in
  with_stats qm (MkStats (DownloadQueueLength s) (SeedQueueLength s) (ActiveDownloads s) (ActiveSeeds s) (TotalQueued s)
    (i64 (TotalActivated s + 1)) (LastProcessTime s) (ProcessingTimeAverage s)).

Definition removeFromDownloadQueueUnsafe (id : Z) (qm : QueueManager) : QueueManager :=
  match q_items (downloads qm) !! id with
  | Some _ => set_DownloadQueueLength (with_downloads qm (removeFromQueueUnsafe id (downloads qm)))
  | None => qm
  end.
Definition removeFromSeedQueueUnsafe (id : Z) (qm : QueueManager) : QueueManager :=
  match q_items (seeds qm) !! id with
  | Some _ => set_SeedQueueLength (with_seeds qm (removeFromQueueUnsafe id (seeds qm)))
  | None => qm
  end.

Definition AddToQueue `{SortSlice} (now : Z) (torrentID : Z) (queueType : QueueType) (priority : Z) (qm : QueueManager) : res QueueManager :=
  let item := MkItem torrentID 0 now priority in
  match queueType with
  | DownloadQueue =>
      if negb (DownloadQueueEnabled (config qm)) then Ok qm
      else
        let qm := removeFromSeedQueueUnsafe torrentID qm in
        q ← add_item torrentID item (downloads qm);
        Ok (inc_TotalQueued (set_DownloadQueueLength (with_downloads qm q)))
  | SeedQueue =>
      if negb (SeedQueueEnabled (config qm)) then Ok qm
      else
        let qm := removeFromDownloadQueueUnsafe torrentID qm in
        q ← add_item torrentID item (seeds qm);
        Ok (inc_TotalQueued (set_SeedQueueLength (with_seeds qm q)))
  | OtherQueue => Ok qm
  end.

Definition with_active (qm : QueueManager) (ds ss : gset Z) : QueueManager :=
  MkManager (downloads qm) (seeds qm) ds ss (config qm) (stats qm) (activated qm).

Definition RemoveFromQueue (torrentID : Z) (qm : QueueManager) : QueueManager :=
  let qm := removeFromSeedQueueUnsafe torrentID (removeFromDownloadQueueUnsafe torrentID qm) in
  let qm := with_active qm (activeDownloads qm ∖ {[torrentID]}) (activeSeeds qm ∖ {[torrentID]}) in
  set_ActiveSeeds (Z.of_nat (size (activeSeeds qm))) (set_ActiveDownloads (Z.of_nat (size (activeDownloads qm))) qm).

Definition SetQueuePosition (torrentID position : Z) (qm : QueueManager) : res QueueManager :=
  match q_items (downloads qm) !! torrentID with
  | Some _ => q ← moveInQueue torrentID position (downloads qm); Ok (with_downloads qm q)
  | None =>
      match q_items (seeds qm) !! torrentID with
      | Some _ => q ← moveInQueue torrentID position (seeds qm); Ok (with_seeds qm q)
      | None => Err ErrTorrentNotInQueue
      end
  end.

Definition GetQueuePosition (torrentID : Z) (qm : QueueManager) : Z :=
  match q_items (downloads qm) !! torrentID with
  | Some item => qi_QueuePosition item
  | None => match q_items (seeds qm) !! torrentID with Some item => qi_QueuePosition item | None => -1 end
  end.

Definition IsActive (torrentID : Z) (qm : QueueManager) : bool :=
  bool_decide (torrentID ∈ activeDownloads qm) || bool_decide (torrentID ∈ activeSeeds qm).

(** [go qm.onTorrentActivated(torrentID, queueType)]. *)
Definition notify (torrentID : Z) (t : QueueType) (qm : QueueManager) : QueueManager :=
  MkManager (downloads qm) (seeds qm) (activeDownloads qm) (activeSeeds qm) (config qm) (stats qm) (activated qm ++ [(torrentID, t)]).

Definition ForceActivate (torrentID : Z) (queueType : QueueType) (qm : QueueManager) : QueueManager :=
  let qm := removeFromSeedQueueUnsafe torrentID (removeFromDownloadQueueUnsafe torrentID qm) in
  let qm := match queueType with
    | DownloadQueue =>
        let qm := with_active qm ({[torrentID]} ∪ activeDownloads qm) (activeSeeds qm) in
        set_ActiveDownloads (Z.of_nat (size (activeDownloads qm))) qm
    | SeedQueue =>
        let qm := with_active qm (activeDownloads qm) ({[torrentID]} ∪ activeSeeds qm) in
        set_ActiveSeeds (Z.of_nat (size (activeSeeds qm))) qm
    | OtherQueue => qm
    end in
  notify torrentID queueType (inc_TotalActivated qm).

Definition GetStats (qm : QueueManager) : QueueStats :=
  let s := stats qm in
  MkStats (queue_size (downloads qm)) (queue_size (seeds qm)) (Z.of_nat (size (activeDownloads qm))) (Z.of_nat (size (activeSeeds qm)))
    (TotalQueued s) (TotalActivated s) (LastProcessTime s) (ProcessingTimeAverage s).

(** ** Processing *)

(** The loop of [processDownloadQueue]: [activeCount] grows in every round, so
    it runs at most [MaxActiveDownloads - activeCount] times. *)
Fixpoint processDownload_loop (fuel : nat) (activeCount : Z) (qm : QueueManager) : Z * QueueManager :=
  match fuel with
  | O => (activeCount, qm)
  | S fuel' =>
      match q_order (downloads qm) with
      | [] => (activeCount, qm)
      | torrentID :: _ =>
          let qm := removeFromDownloadQueueUnsafe torrentID qm in
          let qm := with_active qm ({[torrentID]} ∪ activeDownloads qm) (activeSeeds qm) in
          processDownload_loop fuel' (activeCount + 1) (notify torrentID DownloadQueue (inc_TotalActivated qm))
      end
  end.

Definition processDownloadQueue (qm : QueueManager) : QueueManager :=
  let activeCount := Z.of_nat (size (activeDownloads qm)) in
  let '(n, qm) := processDownload_loop (Z.to_nat (MaxActiveDownloads (config qm) - activeCount)) activeCount qm in
  set_ActiveDownloads n qm.

Fixpoint processSeed_loop (fuel : nat) (activeCount : Z) (qm : QueueManager) : Z * QueueManager :=
  match fuel with
  | O => (activeCount, qm)
  | S fuel' =>
      match q_order (seeds qm) with
      | [] => (activeCount, qm)
      | torrentID :: _ =>
          let qm := removeFromSeedQueueUnsafe torrentID qm in
          let qm := with_active qm (activeDownloads qm) ({[torrentID]} ∪ activeSeeds qm) in
          processSeed_loop fuel' (activeCount + 1) (notify torrentID SeedQueue (inc_TotalActivated qm))
      end
  end.

Definition processSeedQueue (qm : QueueManager) : QueueManager :=
  let activeCount := Z.of_nat (size (activeSeeds qm)) in
  let '(n, qm) := processSeed_loop (Z.to_nat (MaxActiveSeeds (config qm) - activeCount)) activeCount qm in
  set_ActiveSeeds n qm.

Definition processQueues (start processingTime : Z) (qm : QueueManager) : QueueManager :=
  let qm := if DownloadQueueEnabled (config qm) && bool_decide (0 < MaxActiveDownloads (config qm)) then processDownloadQueue qm else qm in
  let qm := if SeedQueueEnabled (config qm) && bool_decide (0 < MaxActiveSeeds (config qm)) then processSeedQueue qm else qm in
  let s := stats qm in
  let avg := if decide (ProcessingTimeAverage s = 0) then processingTime
             else Z.quot (i64 (ProcessingTimeAverage s + processingTime)) 2 in
  with_stats qm (MkStats (DownloadQueueLength s) (SeedQueueLength s) (ActiveDownloads s) (ActiveSeeds s) (TotalQueued s)
    (TotalActivated s) start avg).

End QueueManager.
