(* ===== verification/QueueFacts.v ===== *)
(** * Properties of the torrent queues *)

From S2P Require Import Prelude GoLib QueueManager.
Import GoLib QueueManager.

Module QueueFacts.

(** ** The order *)
Lemma remove_first_sub id l x : x ∈ remove_first id l -> x ∈ l.
Proof.
  induction l as [|y l IH]; cbn; [done|]. case_decide; [by right|]. rewrite !elem_of_cons. intros [->|Hx]; [by left|right; by apply IH].
Qed.

Lemma remove_first_nodup id l : NoDup l -> NoDup (remove_first id l) /\ forall x, x ∈ remove_first id l <-> x ∈ l /\ x <> id.
Proof.
  induction 1 as [|y l Hy Hl [IH1 IH2]]; cbn; [split; [constructor|set_solver]|]. case_decide as E.
  - subst y. split; [done|]. intros x. split; [|set_solver]. intros Hx. split; [by right|]. by intros ->.
  - split; [constructor; [|done]; rewrite IH2; tauto|]. intros x. rewrite elem_of_cons, IH2, elem_of_cons. naive_solver.
Qed.

Lemma remove_first_out id l : id ∉ l -> remove_first id l = l.
Proof.
  induction l as [|x l IH]; cbn; [done|]. rewrite elem_of_cons. intros Hn. rewrite decide_False by (intros ->; tauto).
  rewrite IH by tauto. done.
Qed.

(** ** Positions *)
Lemma update_positions_out order i items id : id ∉ order -> update_positions i order items !! id = items !! id.
Proof.
  revert i items. induction order as [|x order IH]; intros i items Hn; cbn [update_positions]; [done|].
  apply not_elem_of_cons in Hn as [Hx Hn]. rewrite IH by done. by rewrite lookup_alter_ne by done.
Qed.

Lemma update_positions_in order i items j id : NoDup order -> order !! j = Some id ->
  update_positions i order items !! id = set_position (i + Z.of_nat j) <$> items !! id.
Proof.
  intros Hnd. revert i items j. induction Hnd as [|x order Hx _ IH]; intros i items j Hj; [done|]. cbn [update_positions].
  destruct j as [|j]; cbn in Hj.
  - injection Hj as ->. rewrite update_positions_out by done. rewrite lookup_alter_eq. by rewrite Z.add_0_r.
  - rewrite (IH _ _ j Hj), lookup_alter_ne by (intros ->; by apply Hx, (list_elem_of_lookup_2 _ j)).
    by rewrite Nat2Z.inj_succ, <- Z.add_1_l, Z.add_assoc.
Qed.

Lemma update_positions_dom order i items id : is_Some (update_positions i order items !! id) <-> is_Some (items !! id).
Proof.
  revert i items. induction order as [|x order IH]; intros i items; cbn [update_positions]; [done|]. rewrite IH.
  by rewrite lookup_alter_is_Some.
Qed.

(** ** A well-formed queue

    The order lists each item once, and each item knows its own place. *)
Record queue_ok (q : queue) : Prop := {
  qo_nodup : NoDup (q_order q);
  qo_dom : forall id, id ∈ q_order q <-> is_Some (q_items q !! id);
  qo_pos : forall i id, q_order q !! i = Some id ->
    exists item, q_items q !! id = Some item /\ qi_QueuePosition item = Z.of_nat i /\ qi_TorrentID item = id
}.

Definition keyed (items : gmap Z QueueItem) : Prop := forall id item, items !! id = Some item -> qi_TorrentID item = id.

Lemma queue_ok_keyed q : queue_ok q -> keyed (q_items q).
Proof.
  intros [_ Hd Hp] id item Hi. destruct (list_elem_of_lookup_1 (q_order q) id) as [i Ho]; [by apply Hd|].
  destruct (Hp i id Ho) as (item' & E & _ & Hid). congruence.
Qed.

Lemma update_ok items order : NoDup order -> (forall id, id ∈ order <-> is_Some (items !! id)) -> keyed items ->
  queue_ok (updateQueuePositions (MkQueue items order)).
Proof.
  intros Hn Hd Hk. unfold updateQueuePositions. constructor; cbn [q_order q_items]; [done| |].
  - intros id. by rewrite update_positions_dom.
  - intros i id Hi. rewrite (update_positions_in _ _ _ i id Hn Hi).
    destruct (proj1 (Hd id)) as [item E]; [by eapply list_elem_of_lookup_2|]. rewrite E. cbn. eexists. split; [done|].
    split; [cbn; lia|]. exact (Hk id item E).
Qed.

Lemma remove_ok id q : queue_ok q -> queue_ok (removeFromQueueUnsafe id q) /\ q_order (removeFromQueueUnsafe id q) = remove_first id (q_order q).
Proof.
  intros Hq. pose proof (queue_ok_keyed q Hq) as Hk. unfold removeFromQueueUnsafe. destruct (q_items q !! id) as [item|] eqn:E.
  - split; [|done]. destruct Hq as [Hn Hd _]. destruct (remove_first_nodup id (q_order q) Hn) as [Hn' Hin].
    apply update_ok; [done| |].
    + intros x. rewrite Hin, Hd. destruct (decide (x = id)) as [->|].
      * rewrite lookup_delete_eq. split; [tauto|by intros [? ?]].
      * rewrite lookup_delete_ne by done. tauto.
    + intros x it. destruct (decide (x = id)) as [->|]; [by rewrite lookup_delete_eq|]. rewrite lookup_delete_ne by done. apply Hk.
  - split; [done|]. destruct Hq as [_ Hd _]. symmetry. apply remove_first_out. rewrite Hd, E. by intros [? ?].
Qed.

Lemma item_less_asym a b : item_less a b = true -> item_less b a = false.
Proof. unfold item_less. intros H. repeat case_decide; repeat case_bool_decide; done || lia. Qed.
Lemma item_less_ntrans a b c : item_less a b = false -> item_less b c = false -> item_less a c = false.
Proof. unfold item_less. intros H1 H2. repeat case_decide; repeat case_bool_decide; done || lia. Qed.

(** The order of a queue: by priority, then by time. *)
Definition by_priority (items : gmap Z QueueItem) (order : list Z) : Prop :=
  StronglySorted (fun x y => order_less items y x = false) order.

Lemma sortQueue_ok `{SortSlice} items order : NoDup order -> (forall id, id ∈ order <-> is_Some (items !! id)) ->
  exists order', sortQueue (MkQueue items order) = Ok (MkQueue items order') /\ order' ≡ₚ order /\ by_priority items order'.
Proof.
  intros Hn Hd. unfold sortQueue. cbn [q_order q_items]. case_decide as Hl.
  - rewrite decide_True by (apply Forall_forall; intros id; apply Hd). eexists. split; [done|]. split; [apply sort_Slice_perm|].
    apply sort_Slice_sorted; intros *; [apply item_less_asym|apply item_less_ntrans].
  - exists order. split; [done|]. split; [done|]. destruct order as [|x [|y l]]; [constructor|by repeat constructor|cbn in Hl; lia].
Qed.

Lemma add_ok `{SortSlice} id item q : queue_ok q -> id ∉ q_order q -> qi_TorrentID item = id ->
  exists q', add_item id item q = Ok q' /\ queue_ok q' /\ q_order q' ≡ₚ id :: q_order q /\ by_priority (<[id := item]> (q_items q)) (q_order q').
Proof.
  intros Hq Hin Hid. pose proof (queue_ok_keyed q Hq) as Hk. destruct Hq as [Hn Hd _].
  assert (Hperm : q_order q ++ [id] ≡ₚ id :: q_order q) by (by rewrite Permutation_app_comm).
  assert (Hn' : NoDup (q_order q ++ [id])) by (rewrite Hperm; by constructor).
  assert (Hd' : forall x, x ∈ q_order q ++ [id] <-> is_Some (<[id := item]> (q_items q) !! x)).
  { intros x. rewrite Hperm, elem_of_cons, Hd. destruct (decide (x = id)) as [->|].
    - rewrite lookup_insert_eq. naive_solver.
    - rewrite lookup_insert_ne by done. naive_solver. }
  destruct (sortQueue_ok _ _ Hn' Hd') as (order & E & Hp & Hs). unfold add_item. rewrite E, bind_Ok. eexists. split; [done|].
  split_and!; [|by rewrite <- Hperm, <- Hp|done]. apply update_ok.
  - by rewrite Hp.
  - intros x. rewrite Hp. apply Hd'.
  - intros x it. destruct (decide (x = id)) as [->|]; [rewrite lookup_insert_eq; by intros [= <-]|rewrite lookup_insert_ne by done; apply Hk].
Qed.

(** ** Moving *)
Lemma index_of_Some i id l : NoDup l -> id ∈ l -> exists j, index_of i id l = Some (i + Z.of_nat j) /\ l !! j = Some id.
Proof.
  intros Hn. revert i. induction Hn as [|x l Hx _ IH]; intros i Hin; [by apply elem_of_nil in Hin|]. cbn [index_of].
  case_decide as E; [subst; exists 0%nat; split; [by rewrite Z.add_0_r|done]|].
  apply elem_of_cons in Hin as [->|Hin]; [done|]. destruct (IH (i + 1) Hin) as (j & Ej & Hj). exists (S j).
  rewrite Ej. split; [f_equal; lia|done].
Qed.

Lemma remove_first_at l j id : NoDup l -> l !! j = Some id -> remove_first id l = take j l ++ drop (S j) l.
Proof.
  intros Hn. revert j. induction Hn as [|x l Hx _ IH]; intros j Hj; [done|]. cbn [remove_first].
  destruct j as [|j]; cbn in Hj; [injection Hj as ->; by rewrite decide_True|].
  rewrite decide_False by (intros ->; by apply Hx, (list_elem_of_lookup_2 _ j)). cbn. f_equal. by apply IH.
Qed.

Lemma clamp_range n p : 0 < n -> 0 <= clamp n p < n.
Proof. intros Hn. unfold clamp. repeat case_decide; lia. Qed.

(** The torrent ends up at the clamped position and the others keep their
    relative order. *)
Lemma move_ok id p q : queue_ok q -> id ∈ q_order q ->
  exists q', moveInQueue id p q = Ok q' /\ queue_ok q' /\ q_items q' !! id <> None /\
    q_order q' !! Z.to_nat (clamp (len (q_order q)) p) = Some id /\
    remove_first id (q_order q') = remove_first id (q_order q) /\ q_order q' ≡ₚ q_order q.
Proof.
  intros Hq Hin. pose proof (queue_ok_keyed q Hq) as Hk. pose proof Hq as [Hn Hd Hp].
  destruct (index_of_Some 0 id (q_order q) Hn Hin) as (j & Ej & Hj). rewrite Z.add_0_l in Ej. unfold moveInQueue. rewrite Ej.
  assert (Hlen : 0 < len (q_order q)) by (apply lookup_lt_Some in Hj; unfold len; lia).
  pose proof (clamp_range _ p Hlen) as Hc. set (n := clamp (len (q_order q)) p) in *. case_decide as En.
  { exists q. rewrite En, Nat2Z.id. split_and!; try done. apply Hd in Hin as [? ->]. done. }
  rewrite Nat2Z.id. pose proof (remove_first_at _ j id Hn Hj) as Hrm. rewrite <- Hrm.
  destruct (remove_first_nodup id (q_order q) Hn) as [Hn' Hin'].
  set (rest := remove_first id (q_order q)) in *.
  assert (Hperm : take (Z.to_nat n) rest ++ id :: drop (Z.to_nat n) rest ≡ₚ id :: rest)
    by (by rewrite <- Permutation_middle, take_drop).
  assert (Hid : id ∉ rest) by (rewrite Hin'; tauto).
  assert (Hnd : NoDup (take (Z.to_nat n) rest ++ id :: drop (Z.to_nat n) rest)) by (rewrite Hperm; by constructor).
  assert (Hall : id :: rest ≡ₚ q_order q).
  { rewrite Hrm, Permutation_middle. by rewrite (take_drop_middle (q_order q) j id Hj). }
  assert (Hlr : length rest = (length (q_order q) - 1)%nat) by (apply Permutation_length in Hall; cbn in Hall; lia).
  eexists. split; [done|]. split_and!.
  - apply update_ok; [done| |done]. intros x. by rewrite Hperm, Hall.
  - unfold updateQueuePositions. cbn [q_items]. apply Hd in Hin. by apply (update_positions_dom (take (Z.to_nat n) rest ++ id :: drop (Z.to_nat n) rest) 0), not_eq_None_Some in Hin.
  - cbn [q_order updateQueuePositions]. apply list_lookup_middle. rewrite length_take. unfold len in Hc. lia.
  - cbn [q_order updateQueuePositions]. rewrite (remove_first_at _ (Z.to_nat n) id); [|done|apply list_lookup_middle; rewrite length_take; unfold len in Hc; lia].
    rewrite take_app_length' by (rewrite length_take; unfold len in Hc; lia).
    replace (drop (S (Z.to_nat n)) (take (Z.to_nat n) rest ++ id :: drop (Z.to_nat n) rest)) with (drop (Z.to_nat n) rest); [apply take_drop|].
    rewrite drop_app_ge by (rewrite length_take; lia). rewrite length_take.
    replace (S (Z.to_nat n) - Z.to_nat n `min` length rest)%nat with 1%nat by (unfold len in Hc; lia). done.
  - cbn [q_order updateQueuePositions]. by rewrite Hperm.
Qed.

(** ** The manager *)
Record manager_ok (qm : QueueManager) : Prop := {
  mo_downloads : queue_ok (downloads qm);
  mo_seeds : queue_ok (seeds qm);
  mo_disjoint : forall id, id ∈ q_order (downloads qm) -> id ∉ q_order (seeds qm)
}.

Lemma removeDownload_eq id qm : downloads (removeFromDownloadQueueUnsafe id qm) = removeFromQueueUnsafe id (downloads qm) /\
  seeds (removeFromDownloadQueueUnsafe id qm) = seeds qm /\ config (removeFromDownloadQueueUnsafe id qm) = config qm /\
  activeDownloads (removeFromDownloadQueueUnsafe id qm) = activeDownloads qm /\ activeSeeds (removeFromDownloadQueueUnsafe id qm) = activeSeeds qm /\
  activated (removeFromDownloadQueueUnsafe id qm) = activated qm.
Proof.
  unfold removeFromDownloadQueueUnsafe. destruct (q_items (downloads qm) !! id) eqn:E; [done|].
  unfold removeFromQueueUnsafe. by rewrite E.
Qed.

Lemma removeSeed_eq id qm : seeds (removeFromSeedQueueUnsafe id qm) = removeFromQueueUnsafe id (seeds qm) /\
  downloads (removeFromSeedQueueUnsafe id qm) = downloads qm /\ config (removeFromSeedQueueUnsafe id qm) = config qm /\
  activeDownloads (removeFromSeedQueueUnsafe id qm) = activeDownloads qm /\ activeSeeds (removeFromSeedQueueUnsafe id qm) = activeSeeds qm /\
  activated (removeFromSeedQueueUnsafe id qm) = activated qm.
Proof.
  unfold removeFromSeedQueueUnsafe. destruct (q_items (seeds qm) !! id) eqn:E; [done|].
  unfold removeFromQueueUnsafe. by rewrite E.
Qed.

(** Shrinking either queue keeps the manager well formed. *)
Lemma manager_shrink qm qm' : manager_ok qm -> queue_ok (downloads qm') -> queue_ok (seeds qm') ->
  q_order (downloads qm') ⊆ q_order (downloads qm) -> q_order (seeds qm') ⊆ q_order (seeds qm) -> manager_ok qm'.
Proof. intros [_ _ Hd] H1 H2 H3 H4. constructor; [done|done|]. intros id Hi Hs. apply (Hd id); [by apply H3|by apply H4]. Qed.

Lemma removeDownload_ok id qm : manager_ok qm -> manager_ok (removeFromDownloadQueueUnsafe id qm).
Proof.
  intros Hm. destruct (removeDownload_eq id qm) as (E1 & E2 & _). pose proof Hm as [H1 H2 _]. destruct (remove_ok id _ H1) as [Hq Ho].
  apply (manager_shrink qm); rewrite ?E1, ?E2; try done. rewrite Ho. intros x. apply remove_first_sub.
Qed.
Lemma removeSeed_ok id qm : manager_ok qm -> manager_ok (removeFromSeedQueueUnsafe id qm).
Proof.
  intros Hm. destruct (removeSeed_eq id qm) as (E1 & E2 & _). pose proof Hm as [H1 H2 _]. destruct (remove_ok id _ H2) as [Hq Ho].
  apply (manager_shrink qm); rewrite ?E1, ?E2; try done. rewrite Ho. intros x. apply remove_first_sub.
Qed.

(** [manager_ok] depends on the two queues only. *)
Lemma manager_same qm qm' : downloads qm' = downloads qm -> seeds qm' = seeds qm -> manager_ok qm -> manager_ok qm'.
Proof. intros E1 E2 [H1 H2 H3]. constructor; rewrite ?E1, ?E2; done. Qed.

(** ** Processing *)
Lemma remove_head id rest : remove_first id (id :: rest) = rest.
Proof. cbn. by rewrite decide_True. Qed.

Lemma downloads_loop fuel a qm : manager_ok qm ->
  let order := q_order (downloads qm) in
  let k := (fuel `min` length order)%nat in
  let '(n, qm') := processDownload_loop fuel a qm in
  manager_ok qm' /\ n = a + Z.of_nat k /\ q_order (downloads qm') = drop k order /\ seeds qm' = seeds qm /\ config qm' = config qm /\
  activeDownloads qm' = list_to_set (take k order) ∪ activeDownloads qm /\ activeSeeds qm' = activeSeeds qm /\
  activated qm' = activated qm ++ map (fun id => (id, DownloadQueue)) (take k order).
Proof.
  revert a qm. induction fuel as [|fuel IH]; intros a qm Hm; cbn [processDownload_loop].
  { cbn. rewrite app_nil_r, Z.add_0_r. split_and!; try done. set_solver. }
  destruct (q_order (downloads qm)) as [|id rest] eqn:Eo.
  { cbn. rewrite app_nil_r, Z.add_0_r. split_and!; try done. set_solver. }
  destruct (removeDownload_eq id qm) as (E1 & E2 & E3 & E4 & E5 & E6).
  destruct (remove_ok id (downloads qm)) as [_ Ho]; [apply Hm|]. rewrite Eo, remove_head in Ho. cbv zeta.
  set (qm1 := notify _ _ _). assert (Hm1 : manager_ok qm1) by (apply (manager_same (removeFromDownloadQueueUnsafe id qm)); [done|done|by apply removeDownload_ok]).
  specialize (IH (a + 1) qm1 Hm1). assert (Eo1 : q_order (downloads qm1) = rest) by (cbn; by rewrite E1).
  rewrite Eo1 in IH. cbv zeta in IH. destruct (processDownload_loop fuel (a + 1) qm1) as [n qm'].
  destruct IH as (H1 & H2 & H3 & H4 & H5 & H6 & H7 & H8). cbn [length Nat.min take drop map list_to_set].
  split_and!; [done|lia|done|by rewrite H4|by rewrite H5| |by rewrite H7|].
  - rewrite H6. cbn [activeDownloads qm1 notify inc_TotalActivated with_stats with_active]. rewrite E4. cbn. set_solver.
  - rewrite H8. cbn [activated qm1 notify inc_TotalActivated with_stats with_active]. by rewrite E6, <- app_assoc.
Qed.

Lemma seeds_loop fuel a qm : manager_ok qm ->
  let order := q_order (seeds qm) in
  let k := (fuel `min` length order)%nat in
  let '(n, qm') := processSeed_loop fuel a qm in
  manager_ok qm' /\ n = a + Z.of_nat k /\ q_order (seeds qm') = drop k order /\ downloads qm' = downloads qm /\ config qm' = config qm /\
  activeSeeds qm' = list_to_set (take k order) ∪ activeSeeds qm /\ activeDownloads qm' = activeDownloads qm /\
  activated qm' = activated qm ++ map (fun id => (id, SeedQueue)) (take k order).
Proof.
  revert a qm. induction fuel as [|fuel IH]; intros a qm Hm; cbn [processSeed_loop].
  { cbn. rewrite app_nil_r, Z.add_0_r. split_and!; try done. set_solver. }
  destruct (q_order (seeds qm)) as [|id rest] eqn:Eo.
  { cbn. rewrite app_nil_r, Z.add_0_r. split_and!; try done. set_solver. }
  destruct (removeSeed_eq id qm) as (E1 & E2 & E3 & E4 & E5 & E6).
  destruct (remove_ok id (seeds qm)) as [_ Ho]; [apply Hm|]. rewrite Eo, remove_head in Ho. cbv zeta.
  set (qm1 := notify _ _ _). assert (Hm1 : manager_ok qm1) by (apply (manager_same (removeFromSeedQueueUnsafe id qm)); [done|done|by apply removeSeed_ok]).
  specialize (IH (a + 1) qm1 Hm1). assert (Eo1 : q_order (seeds qm1) = rest) by (cbn; by rewrite E1).
  rewrite Eo1 in IH. cbv zeta in IH. destruct (processSeed_loop fuel (a + 1) qm1) as [n qm'].
  destruct IH as (H1 & H2 & H3 & H4 & H5 & H6 & H7 & H8). cbn [length Nat.min take drop map list_to_set].
  split_and!; [done|lia|done|by rewrite H4|by rewrite H5| |by rewrite H7|].
  - rewrite H6. cbn [activeSeeds qm1 notify inc_TotalActivated with_stats with_active]. rewrite E5. cbn. set_solver.
  - rewrite H8. cbn [activated qm1 notify inc_TotalActivated with_stats with_active]. by rewrite E6, <- app_assoc.
Qed.

Lemma processDownload_ok qm : manager_ok qm -> manager_ok (processDownloadQueue qm).
Proof.
  intros Hm. unfold processDownloadQueue. pose proof (downloads_loop (Z.to_nat (MaxActiveDownloads (config qm) - Z.of_nat (size (activeDownloads qm))))
    (Z.of_nat (size (activeDownloads qm))) qm Hm) as Hl. cbv zeta in *. destruct (processDownload_loop _ _ _) as [n qm'].
  destruct Hl as (H1 & _). by apply (manager_same qm').
Qed.
Lemma processSeed_ok qm : manager_ok qm -> manager_ok (processSeedQueue qm).
Proof.
  intros Hm. unfold processSeedQueue. pose proof (seeds_loop (Z.to_nat (MaxActiveSeeds (config qm) - Z.of_nat (size (activeSeeds qm))))
    (Z.of_nat (size (activeSeeds qm))) qm Hm) as Hl. cbv zeta in *. destruct (processSeed_loop _ _ _) as [n qm'].
  destruct Hl as (H1 & _). by apply (manager_same qm').
Qed.

Lemma processQueues_ok start time qm : manager_ok qm -> manager_ok (processQueues start time qm).
Proof.
  intros Hm.
  pose (qm1 := if DownloadQueueEnabled (config qm) && bool_decide (0 < MaxActiveDownloads (config qm)) then processDownloadQueue qm else qm).
  pose (qm2 := if SeedQueueEnabled (config qm1) && bool_decide (0 < MaxActiveSeeds (config qm1)) then processSeedQueue qm1 else qm1).
  assert (H1 : manager_ok qm1) by (unfold qm1; case_match; [by apply processDownload_ok|done]).
  assert (H2 : manager_ok qm2) by (unfold qm2; case_match; [by apply processSeed_ok|done]).
  by apply (manager_same qm2).
Qed.

(** ** Histories *)
Inductive event :=
  | EAdd (now id : Z) (t : QueueType) (priority : Z)
  | ERemove (id : Z)
  | EMove (id position : Z)
  | EForce (id : Z) (t : QueueType)
  | EProcess (start time : Z).

Definition order_of (t : QueueType) (qm : QueueManager) : list Z :=
  match t with DownloadQueue => q_order (downloads qm) | SeedQueue => q_order (seeds qm) | OtherQueue => [] end.

(** A refused move leaves the manager as it is. *)
Definition step `{SortSlice} (qm : QueueManager) (e : event) : res QueueManager :=
  match e with
  | EAdd now id t p => AddToQueue now id t p qm
  | ERemove id => Ok (RemoveFromQueue id qm)
  | EMove id p => match SetQueuePosition id p qm with Ok qm' => Ok qm' | Err _ => Ok qm | r => r end
  | EForce id t => Ok (ForceActivate id t qm)
  | EProcess start time => Ok (processQueues start time qm)
  end.

(** No torrent is added to a queue it is already in. *)
Definition fresh (qm : QueueManager) (e : event) : Prop :=
  match e with EAdd _ id t _ => id ∉ order_of t qm | _ => True end.

Fixpoint fresh_history `{SortSlice} (es : list event) (qm : QueueManager) : Prop :=
  match es with [] => True | e :: es' => fresh qm e /\ match step qm e with Ok qm' => fresh_history es' qm' | _ => True end end.

#[global] Instance fresh_dec qm e : Decision (fresh qm e).
Proof. destruct e; apply _. Defined.
#[global] Instance fresh_history_dec `{SortSlice} es qm : Decision (fresh_history es qm).
Proof.
  revert qm. induction es as [|e es IH]; intros qm; cbn [fresh_history]; [apply _|].
  apply and_dec; [apply _|]. destruct (step qm e); [apply IH|apply _..].
Defined.

Fixpoint run `{SortSlice} (es : list event) (qm : QueueManager) : res QueueManager :=
  match es with [] => Ok qm | e :: es' => qm' ← step qm e; run es' qm' end.

Lemma AddToQueue_ok `{SortSlice} now id t p qm : manager_ok qm -> id ∉ order_of t qm ->
  exists qm', AddToQueue now id t p qm = Ok qm' /\ manager_ok qm'.
Proof.
  intros Hm Hf. unfold AddToQueue. destruct t; cbn [order_of] in Hf; [| |by exists qm].
  - case_match; [by exists qm|]. destruct (removeSeed_eq id qm) as (E1 & E2 & _). pose proof (removeSeed_ok id qm Hm) as [H1 H2 H3].
    destruct (add_ok id (MkItem id 0 now p) (downloads (removeFromSeedQueueUnsafe id qm))) as (q & Eq & Hq & Ho & _); [done|by rewrite E2|done|].
    rewrite Eq, bind_Ok. eexists. split; [done|]. constructor; [done|done|]. cbn. intros x. rewrite Ho, elem_of_cons. intros [->|Hx]; [|by apply H3].
    rewrite E1. destruct (remove_ok id (seeds qm)) as [_ ->]; [apply Hm|]. destruct (remove_first_nodup id (q_order (seeds qm))) as [_ Hin]; [apply Hm|].
    rewrite Hin. tauto.
  - case_match; [by exists qm|]. destruct (removeDownload_eq id qm) as (E1 & E2 & _). pose proof (removeDownload_ok id qm Hm) as [H1 H2 H3].
    destruct (add_ok id (MkItem id 0 now p) (seeds (removeFromDownloadQueueUnsafe id qm))) as (q & Eq & Hq & Ho & _); [done|by rewrite E2|done|].
    rewrite Eq, bind_Ok. eexists. split; [done|]. constructor; [done|done|]. cbn. intros x Hx. rewrite Ho, elem_of_cons. intros [->|Hs]; [|by apply (H3 x)].
    rewrite E1 in Hx. destruct (remove_ok id (downloads qm)) as [_ Er]; [apply Hm|]. rewrite Er in Hx.
    destruct (remove_first_nodup id (q_order (downloads qm))) as [_ Hin]; [apply Hm|]. apply Hin in Hx. tauto.
Qed.

Lemma SetQueuePosition_ok id p qm qm' : manager_ok qm -> SetQueuePosition id p qm = Ok qm' -> manager_ok qm'.
Proof.
  intros [H1 H2 H3]. unfold SetQueuePosition. destruct (q_items (downloads qm) !! id) as [?|] eqn:E1; [|destruct (q_items (seeds qm) !! id) as [?|] eqn:E2; [|done]].
  - destruct (move_ok id p (downloads qm) H1) as (q' & Eq & Hq & _ & _ & _ & Hp); [apply H1; by rewrite E1|].
    rewrite Eq, bind_Ok. intros [= <-]. constructor; [done|done|]. cbn. intros x. rewrite Hp. apply H3.
  - destruct (move_ok id p (seeds qm) H2) as (q' & Eq & Hq & _ & _ & _ & Hp); [apply H2; by rewrite E2|].
    rewrite Eq, bind_Ok. intros [= <-]. constructor; [done|done|]. cbn. intros x. rewrite Hp. apply H3.
Qed.

Lemma SetQueuePosition_no_panic id p qm : manager_ok qm ->
  (exists qm', SetQueuePosition id p qm = Ok qm') \/ SetQueuePosition id p qm = Err ErrTorrentNotInQueue.
Proof.
  intros [H1 H2 H3]. unfold SetQueuePosition. destruct (q_items (downloads qm) !! id) as [?|] eqn:E1; [|destruct (q_items (seeds qm) !! id) as [?|] eqn:E2; [|by right]].
  - left. destruct (move_ok id p (downloads qm) H1) as (q' & -> & _); [apply H1; by rewrite E1|]. rewrite bind_Ok. eauto.
  - left. destruct (move_ok id p (seeds qm) H2) as (q' & -> & _); [apply H2; by rewrite E2|]. rewrite bind_Ok. eauto.
Qed.

Lemma step_ok `{SortSlice} qm e : manager_ok qm -> fresh qm e -> exists qm', step qm e = Ok qm' /\ manager_ok qm'.
Proof.
  intros Hm Hf. destruct e as [now id t p|id|id p|id t|start time]; cbn [step fresh] in *.
  - by apply AddToQueue_ok.
  - eexists. split; [done|]. apply (manager_same (removeFromSeedQueueUnsafe id (removeFromDownloadQueueUnsafe id qm))); [done|done|].
    by apply removeSeed_ok, removeDownload_ok.
  - destruct (SetQueuePosition_no_panic id p qm Hm) as [[qm' E]|E]; rewrite E; [|by exists qm].
    exists qm'. split; [done|]. by eapply SetQueuePosition_ok.
  - eexists. split; [done|]. apply (manager_same (removeFromSeedQueueUnsafe id (removeFromDownloadQueueUnsafe id qm))); [by destruct t|by destruct t|].
    by apply removeSeed_ok, removeDownload_ok.
  - eexists. split; [done|]. by apply processQueues_ok.
Qed.

Lemma new_ok c : manager_ok (NewQueueManager c).
Proof.
  assert (queue_ok (MkQueue ∅ [])) by (constructor; cbn; [constructor| |done]; intros id; rewrite lookup_empty; split; [by intros ?%elem_of_nil|by intros [? ?]]).
  constructor; [done|done|]. intros id Hi. by apply elem_of_nil in Hi.
Qed.

Lemma run_ok `{SortSlice} es qm : manager_ok qm -> fresh_history es qm -> exists qm', run es qm = Ok qm' /\ manager_ok qm'.
Proof.
  revert qm. induction es as [|e es IH]; intros qm Hm Hf; cbn [run fresh_history] in *; [by exists qm|].
  destruct Hf as [Hf Hrest]. destruct (step_ok qm e Hm Hf) as (qm1 & E & Hm1). rewrite E in Hrest. rewrite E, bind_Ok. by apply IH.
Qed.

(** ** A queue whose head has no item *)
Definition stale (id : Z) (rest : list Z) (qm : QueueManager) : Prop :=
  q_order (downloads qm) = id :: rest /\ q_items (downloads qm) !! id = None.

Lemma stale_loop fuel a id rest qm : stale id rest qm ->
  let '(n, qm') := processDownload_loop fuel a qm in
  downloads qm' = downloads qm /\ seeds qm' = seeds qm /\ config qm' = config qm /\ activeSeeds qm' = activeSeeds qm /\
  activeDownloads qm' ⊆ {[id]} ∪ activeDownloads qm.
Proof.
  revert a qm. induction fuel as [|fuel IH]; intros a qm [Ho Hi]; cbn [processDownload_loop]; [split_and!; try done; set_solver|].
  rewrite Ho. assert (Er : removeFromDownloadQueueUnsafe id qm = qm) by (unfold removeFromDownloadQueueUnsafe; by rewrite Hi).
  rewrite Er. set (qm1 := notify _ _ _). specialize (IH (a + 1) qm1). destruct (processDownload_loop fuel (a + 1) qm1) as [n qm'].
  destruct IH as (H1 & H2 & H3 & H4 & H5); [done|]. cbn in *. split_and!; try done. set_solver.
Qed.

Lemma processSeed_downloads qm : downloads (processSeedQueue qm) = downloads qm /\ activeDownloads (processSeedQueue qm) = activeDownloads qm.
Proof.
  unfold processSeedQueue.
  assert (Hl : forall fuel a qm, let '(n, qm') := processSeed_loop fuel a qm in downloads qm' = downloads qm /\ activeDownloads qm' = activeDownloads qm).
  { clear. induction fuel as [|fuel IH]; intros a qm; cbn [processSeed_loop]; [done|]. destruct (q_order (seeds qm)) as [|id rest]; [done|].
    destruct (removeSeed_eq id qm) as (_ & E2 & _ & E4 & _). cbv zeta. set (qm1 := notify _ _ _). specialize (IH (a + 1) qm1).
    destruct (processSeed_loop fuel (a + 1) qm1) as [n qm']. destruct IH as [H1 H2]. rewrite H1, H2. split; [exact E2|exact E4]. }
  specialize (Hl (Z.to_nat (MaxActiveSeeds (config qm) - Z.of_nat (size (activeSeeds qm)))) (Z.of_nat (size (activeSeeds qm))) qm).
  destruct (processSeed_loop _ _ _) as [n qm']. exact Hl.
Qed.

Lemma stale_process start time id rest qm : stale id rest qm ->
  stale id rest (processQueues start time qm) /\ activeDownloads (processQueues start time qm) ⊆ {[id]} ∪ activeDownloads qm.
Proof.
  intros Hs.
  pose (qm1 := if DownloadQueueEnabled (config qm) && bool_decide (0 < MaxActiveDownloads (config qm)) then processDownloadQueue qm else qm).
  pose (qm2 := if SeedQueueEnabled (config qm1) && bool_decide (0 < MaxActiveSeeds (config qm1)) then processSeedQueue qm1 else qm1).
  assert (H1 : downloads qm1 = downloads qm /\ activeDownloads qm1 ⊆ {[id]} ∪ activeDownloads qm).
  { unfold qm1. case_match; [|split; [done|set_solver]]. unfold processDownloadQueue.
    pose proof (stale_loop (Z.to_nat (MaxActiveDownloads (config qm) - Z.of_nat (size (activeDownloads qm)))) (Z.of_nat (size (activeDownloads qm))) id rest qm Hs) as Hl.
    destruct (processDownload_loop _ _ _) as [n qm']. destruct Hl as (? & _ & _ & _ & ?). done. }
  assert (H2 : downloads qm2 = downloads qm1 /\ activeDownloads qm2 = activeDownloads qm1)
    by (unfold qm2; case_match; [apply processSeed_downloads|done]).
  destruct H1 as [D1 A1], H2 as [D2 A2]. change (stale id rest qm2 /\ activeDownloads qm2 ⊆ {[id]} ∪ activeDownloads qm).
  unfold stale. rewrite D2, D1, A2. done.
Qed.

(** ** Properties *)

(** C32: the queues stay well formed. After any history of additions, removals,
    moves, forced activations and processing rounds in which no torrent is
    added to a queue it is already in, nothing has panicked, each queue lists
    each of its torrents once, every torrent knows its own place in the list,
    and no torrent is in both queues. *)
Theorem queue_wellformed `{SortSlice} es c :
  fresh_history es (NewQueueManager c) -> exists qm, run es (NewQueueManager c) = Ok qm /\ manager_ok qm.
Proof.
  apply run_ok, new_ok.
Qed.

(** a processing round activates the queue in order and within the limit:
    exactly the first torrents of the download queue, as many as there are
    free places, become active and are announced in that order; the others
    keep their order, and no more torrents are active than the limit allows or
    than there were. *)
Theorem process_activates_prefix qm : manager_ok qm ->
  let order := q_order (downloads qm) in
  let k := Z.to_nat (MaxActiveDownloads (config qm) - Z.of_nat (size (activeDownloads qm))) in
  let qm' := processDownloadQueue qm in
  manager_ok qm' /\ q_order (downloads qm') = drop k order /\
  activeDownloads qm' = list_to_set (take k order) ∪ activeDownloads qm /\
  activated qm' = activated qm ++ map (fun id => (id, DownloadQueue)) (take k order) /\
  (Z.of_nat (size (activeDownloads qm')) <= Z.max (MaxActiveDownloads (config qm)) (Z.of_nat (size (activeDownloads qm)))).
Proof.
  intros Hm order k qm'. pose proof (downloads_loop k (Z.of_nat (size (activeDownloads qm))) qm Hm) as Hl.
  cbv zeta in Hl. unfold qm', processDownloadQueue. fold k. destruct (processDownload_loop _ _ _) as [n qm1].
  destruct Hl as (H1 & H2 & H3 & H4 & H5 & H6 & H7 & H8). fold order in H3, H6, H8.
  assert (Ek : take (k `min` length order) order = take k order /\ drop (k `min` length order) order = drop k order).
  { destruct (Nat.min_spec k (length order)) as [[? ->]|[? ->]]; [done|]. by rewrite !take_ge, !drop_ge by lia. }
  destruct Ek as [Et Ed]. rewrite Et in H6, H8. rewrite Ed in H3. cbn [set_ActiveDownloads with_stats downloads activeDownloads activated].
  split_and!; [by apply (manager_same qm1)|done|done|done|]. rewrite H6.
  assert (size (list_to_set (take k order) ∪ activeDownloads qm) <= k + size (activeDownloads qm))%nat as Hs; [|unfold k in Hs |- *; lia].
  rewrite size_union_alt. assert (size (activeDownloads qm ∖ list_to_set (take k order)) <= size (activeDownloads qm))%nat by (apply subseteq_size; set_solver).
  rewrite size_list_to_set, length_take; [lia|].
  apply (sublist_NoDup _ order); [apply Hm|apply sublist_take].
Qed.

(** moving a torrent puts it where it was asked, or at the nearest end of
    its queue, leaves the relative order of all others as it was, and fails
    only for a torrent that is in no queue. *)
Theorem set_position_spec id p qm : manager_ok qm ->
  match SetQueuePosition id p qm with
  | Ok qm' => manager_ok qm' /\ exists t, id ∈ order_of t qm /\
      GetQueuePosition id qm' = clamp (len (order_of t qm)) p /\
      remove_first id (order_of t qm') = remove_first id (order_of t qm)
  | Err e => e = ErrTorrentNotInQueue /\ GetQueuePosition id qm = -1
  | _ => False
  end.
Proof.
  intros Hm. pose proof Hm as [H1 H2 H3]. destruct (SetQueuePosition id p qm) as [qm'|e|?|] eqn:E.
  - split; [by eapply SetQueuePosition_ok|]. unfold SetQueuePosition in E. destruct (q_items (downloads qm) !! id) as [it|] eqn:E1.
    + assert (Hin : id ∈ q_order (downloads qm)) by (apply H1; by rewrite E1).
      destruct (move_ok id p (downloads qm) H1 Hin) as (q & Eq & Hq & Hi & Hpos & Hrm & Hp). rewrite Eq, bind_Ok in E. injection E as <-.
      exists DownloadQueue. split; [done|]. split; [|done]. unfold GetQueuePosition. cbn [downloads with_downloads order_of].
      destruct (qo_pos q Hq _ _ Hpos) as (item & -> & -> & _). assert (0 < len (q_order (downloads qm))) by (destruct (q_order (downloads qm)); [by apply elem_of_nil in Hin|rewrite len_cons; pose proof (len_nonneg l); lia]).
      pose proof (clamp_range (len (q_order (downloads qm))) p). lia.
    + destruct (q_items (seeds qm) !! id) as [it|] eqn:E2; [|done]. assert (Hin : id ∈ q_order (seeds qm)) by (apply H2; by rewrite E2).
      destruct (move_ok id p (seeds qm) H2 Hin) as (q & Eq & Hq & Hi & Hpos & Hrm & Hp). rewrite Eq, bind_Ok in E. injection E as <-.
      exists SeedQueue. split; [done|]. split; [|done]. unfold GetQueuePosition. cbn [downloads seeds with_seeds order_of]. rewrite E1.
      destruct (qo_pos q Hq _ _ Hpos) as (item & -> & -> & _). assert (0 < len (q_order (seeds qm))) by (destruct (q_order (seeds qm)); [by apply elem_of_nil in Hin|rewrite len_cons; pose proof (len_nonneg l); lia]).
      pose proof (clamp_range (len (q_order (seeds qm))) p). lia.
  - destruct (SetQueuePosition_no_panic id p qm Hm) as [[qm' E']|E']; [congruence|]. rewrite E' in E. injection E as <-. split; [done|].
    unfold SetQueuePosition in E'. unfold GetQueuePosition. destruct (q_items (downloads qm) !! id) as [it|] eqn:E1.
    + destruct (move_ok id p (downloads qm) H1) as (q & Eq & _); [apply H1; by rewrite E1|]. by rewrite Eq in E'.
    + destruct (q_items (seeds qm) !! id) as [it|] eqn:E2; [|done]. destruct (move_ok id p (seeds qm) H2) as (q & Eq & _); [apply H2; by rewrite E2|]. by rewrite Eq in E'.
  - destruct (SetQueuePosition_no_panic id p qm Hm) as [[qm' E']|E']; congruence.
  - destruct (SetQueuePosition_no_panic id p qm Hm) as [[qm' E']|E']; congruence.
Qed.

(** a torrent added twice blocks its queue for good. The second addition
    leaves the ID in the order twice; once the torrent is activated, the
    second entry has no item, is never removed, and no processing round, however
    many follow, activates any torrent behind it. *)
Theorem duplicate_stalls id rest qm times :
  stale id rest qm ->
  let qm' := fold_left (fun qm t => processQueues t.1 t.2 qm) times qm in
  q_order (downloads qm') = id :: rest /\ activeDownloads qm' ⊆ {[id]} ∪ activeDownloads qm.
Proof.
  intros Hs qm'. assert (Hgen : stale id rest qm' /\ activeDownloads qm' ⊆ {[id]} ∪ activeDownloads qm); [|by destruct Hgen as [[? _] ?]].
  unfold qm'. clear qm'. revert qm Hs. induction times as [|[start time] times IH]; intros qm Hs; cbn [fold_left]; [split; [done|set_solver]|].
  destruct (stale_process start time id rest qm Hs) as [Hs1 Ha1]. destruct (IH _ Hs1) as [Hs2 Ha2]. split; [done|]. cbn [fst snd] in *. set_solver.
Qed.

(** ** Witnesses *)
Definition demo_config : QueueConfig := MkConfig 1 1 0 true true.
Definition demo_history : list event :=
  [EAdd 10 1 DownloadQueue 0; EAdd 11 2 DownloadQueue 5; EAdd 12 3 DownloadQueue 0; EMove 1 0; EAdd 13 4 SeedQueue 0].
Definition demo_manager : QueueManager := match run demo_history (NewQueueManager demo_config) with Ok qm => qm | _ => NewQueueManager demo_config end.

Lemma demo_fresh : fresh_history demo_history (NewQueueManager demo_config).
Proof. apply (bool_decide_unpack _). vm_compute. exact I. Qed.

Lemma demo_ok : manager_ok demo_manager.
Proof.
  destruct (run_ok demo_history (NewQueueManager demo_config) (new_ok _) demo_fresh) as (qm & E & H).
  unfold demo_manager. by rewrite E.
Qed.

Lemma queue_wellformed_witness :
  exists qm, run demo_history (NewQueueManager demo_config) = Ok qm /\ manager_ok qm /\ q_order (downloads qm) = [1; 2; 3].
Proof.
  destruct (queue_wellformed demo_history demo_config) as (qm & E & Hm); [apply (bool_decide_unpack _); vm_compute; exact I|].
  exists qm. split_and!; [exact E|exact Hm|]. revert E. vm_compute. intros [= <-]. reflexivity.
Defined.

(** One place is free: torrent 1 is activated, 2 and 3 wait. *)
Lemma process_activates_prefix_witness :
  let qm' := processDownloadQueue demo_manager in
  q_order (downloads qm') = [2; 3] /\ activeDownloads qm' = {[1]} /\ Z.of_nat (size (activeDownloads qm')) <= 1.
Proof.
  destruct (process_activates_prefix demo_manager demo_ok) as (_ & Ho & Ha & _ & Hs).
  cbv zeta. rewrite Ho, Ha in *. split; [vm_compute; reflexivity|]. split; [vm_compute; reflexivity|]. vm_compute. discriminate.
Defined.

(** Position 9 is beyond the end of a queue of three. *)
Lemma set_position_spec_witness :
  exists qm', SetQueuePosition 1 9 demo_manager = Ok qm' /\ manager_ok qm' /\ GetQueuePosition 1 qm' = 2.
Proof.
  pose proof (set_position_spec 1 9 demo_manager demo_ok) as H.
  destruct (SetQueuePosition 1 9 demo_manager) as [qm'|e|p|] eqn:E; try (vm_compute in E; discriminate).
  exists qm'. split; [reflexivity|]. split; [exact (proj1 H)|]. revert E. vm_compute. intros [= <-]. reflexivity.
Defined.

Definition duplicate_history : list event :=
  [EAdd 10 1 DownloadQueue 0; EAdd 11 1 DownloadQueue 0; EAdd 12 2 DownloadQueue 0; EProcess 20 1].

(** Torrent 1 is added twice and activated; torrent 2 is never started, even
    when the limit would allow two active downloads. *)
Lemma duplicate_stalls_witness :
  exists qm, run duplicate_history (NewQueueManager (MkConfig 2 1 0 true true)) = Ok qm /\
    q_order (downloads (fold_left (fun qm t => processQueues t.1 t.2 qm) [(21, 1); (22, 1)] qm)) = [1; 2].
Proof.
  eexists. split; [vm_compute; reflexivity|].
  refine (proj1 (duplicate_stalls 1 [2] _ [(21, 1); (22, 1)] _)). split; vm_compute; reflexivity.
Defined.

End QueueFacts.
