(* ===== verification/Blocklist.v ===== *)
(** * The blocklist of the daemon

    Models [src/rpc/blocklist.go]: reading a list of addresses, CIDR blocks and
    DAT ranges, and looking an address up in it.

    The HTTP client and [http.NewRequest] are parameters, as is the order
    [sort.Slice] gives equal elements; the clock is an argument. The update
    [SetURL] starts in a goroutine is the flag it returns. *)

From S2P Require Import Prelude Strconv Sha1 Hash Net NetFacts GoLib.
Import Strconv Hash Net NetFacts GoLib.

Module Blocklist.

(** ** [net.ParseCIDR] *)
Definition big : Z := 16777215.

(** [dtoi]: the number, or nothing; all of [s] must be digits. *)
Fixpoint dtoi (acc : Z) (s : bytes) : option Z :=
  match s with
  | [] => Some acc
  | c :: s' => if is_digit c then let n := acc * 10 + (c - 48) in if decide (big <= n) then None else dtoi n s' else None
  end.

(** [CIDRMask(n, 8 * l)]. *)
Fixpoint CIDRMask (n : Z) (l : nat) : bytes :=
  match l with
  | O => []
  | S l' => if decide (8 <= n) then 255 :: CIDRMask (n - 8) l'
            else u8 (Z.lnot (Z.shiftr 255 n)) :: CIDRMask 0 l'
  end.

Record IPNet := MkIPNet { n_IP : bytes; n_Mask : bytes }.

(** [netip.ParseAddr] without a zone: 4 or 16 bytes. *)
Definition ParseAddr (s : bytes) : option bytes :=
  match family s with
  | Some 46 => parseIPv4 s
  | Some 58 => if bool_decide (37 ∈ s) then None else parseIPv6 s
  | _ => None
  end.

Definition and_bytes (a b : bytes) : bytes := zip_with Z.land a b.

Definition ParseCIDR (s : bytes) : option IPNet :=
  match cut 47 s with
  | None => None
  | Some (addr, mask) =>
      match ParseAddr addr with
      | None => None
      | Some ip =>
          match mask with
          | [] => None
          | _ => match dtoi 0 mask with
                 | None => None
                 | Some n => if decide (8 * len ip < n) then None
                             else let m := CIDRMask n (length ip) in Some (MkIPNet (and_bytes ip m) m)
                 end
          end
      end
  end.

(** ** Ranges *)
Record ipRange := MkRange { r_start : bytes; r_end : bytes }.

Definition compareIPBytes_step (x y : Z) : option Z := if decide (x < y) then Some (-1) else if decide (y < x) then Some 1 else None.
Fixpoint compareIPBytes (a b : bytes) : Z :=
  match a, b with
  | x :: a', y :: b' => match compareIPBytes_step x y with Some r => r | None => compareIPBytes a' b' end
  | _, _ => 0
  end.

Definition compareIPLengths (a b : bytes) : Z :=
  if decide (len a < len b) then -1 else if decide (len b < len a) then 1 else 0.

Definition normalizeIPAddresses (a b : bytes) : bytes * bytes :=
  if decide (len a = len b) then (a, b)
  else if decide (len a = 4 /\ len b = 16) then (default [] (To16 a), b)
  else if decide (len a = 16 /\ len b = 4) then (a, default [] (To16 b))
  else (a, b).

Definition compareIPs (a b : bytes) : Z :=
  let '(a, b) := normalizeIPAddresses a b in
  let result := compareIPBytes a b in
  if decide (result = 0) then compareIPLengths a b else result.

Definition ipInRange (ip : bytes) (r : ipRange) : bool :=
  let check ip := bool_decide (0 <= compareIPs ip (r_start r)) && bool_decide (compareIPs ip (r_end r) <= 0) in
  if decide (len ip <> len (r_start r) \/ len ip <> len (r_end r)) then
    if decide (len ip = 4 /\ len (r_start r) = 16) then check (default [] (To16 ip))
    else if decide (len ip = 16 /\ len (r_start r) = 4) then match To4 ip with None => false | Some ip => check ip end
    else false
  else check ip.

(** ** Reading a list *)
Definition or_not (x m : Z) : Z := Z.lor x (u8 (Z.lnot m)).
Definition cidrToRange (cidr : IPNet) : ipRange :=
  MkRange (n_IP cidr) (zip_with or_not (n_IP cidr) (n_Mask cidr) ++ drop (length (n_Mask cidr)) (n_IP cidr)).

Definition parseCIDRLine (line : bytes) : option ipRange :=
  if negb (Contains_byte line 47) then None
  else match ParseCIDR line with Some cidr => Some (cidrToRange cidr) | None => None end.

Definition parseDATFormatLine (line : bytes) : option ipRange :=
  if negb (Contains_byte line 58) || negb (Contains_byte line 45) then None
  else match SplitN2 line 58 with
       | [_; rangePart] =>
           if negb (Contains_byte rangePart 45) then None
           else match SplitN2 rangePart 45 with
                | [a; b] => match ParseIP (TrimSpace a), ParseIP (TrimSpace b) with
                            | Some start, Some end_ => Some (MkRange start end_)
                            | _, _ => None
                            end
                | _ => None
                end
       | _ => None
       end.

Definition parseSingleIPLine (line : bytes) : option ipRange :=
  match ParseIP line with Some ip => Some (MkRange ip ip) | None => None end.

Definition parse_line (token : bytes) : list ipRange :=
  let line := TrimSpace token in
  if bool_decide (line = []) || HasPrefix line [35] then []
  else match parseCIDRLine line with
       | Some r => [r]
       | None => match parseDATFormatLine line with
                 | Some r => [r]
                 | None => match parseSingleIPLine line with Some r => [r] | None => [] end
                 end
       end.

Definition range_less (a b : ipRange) : bool := bool_decide (compareIPs (r_start a) (r_start b) < 0).
Definition sortIPRanges `{SortSlice} (ranges : list ipRange) : list ipRange := sort_Slice range_less ranges.

(** [body] is what the reader yields, [readErr] the error it ends with. *)
Definition parseBlocklist `{SortSlice} (body : bytes) (readErr : option string) : res (list ipRange) :=
  let '(tokens, err) := ScanLines body readErr in
  match err with
  | Some e => Err e
  | None => Ok (sortIPRanges (flat_map parse_line tokens))
  end.

(** ** The manager *)
Record BlocklistManager := MkBlocklist {
  bl_enabled : bool;
  bl_url : bytes;
  bl_lastModified : bytes;
  bl_etag : bytes;
  bl_lastUpdated : Z;
  bl_ipRanges : list ipRange;
  bl_size : Z
}.

Definition NewBlocklistManager : BlocklistManager := MkBlocklist false [] [] [] 0 [] 0.

Definition SetEnabled (enabled : bool) (bm : BlocklistManager) : BlocklistManager :=
  MkBlocklist enabled (bl_url bm) (bl_lastModified bm) (bl_etag bm) (bl_lastUpdated bm) (bl_ipRanges bm) (bl_size bm).

(** The flag tells whether an update is started. *)
Definition SetURL (url : bytes) (bm : BlocklistManager) : BlocklistManager * bool :=
  if decide (bl_url bm = url) then (bm, false)
  else (MkBlocklist (bl_enabled bm) url [] [] (bl_lastUpdated bm) (bl_ipRanges bm) (bl_size bm),
        bl_enabled bm && negb (bool_decide (url = []))).

Definition GetSize (bm : BlocklistManager) : Z := bl_size bm.

Definition IsBlocked (ip : bytes) (bm : BlocklistManager) : bool :=
  if negb (bl_enabled bm) then false
  else match ParseIP ip with
       | None => true
       | Some parsedIP => existsb (ipInRange parsedIP) (bl_ipRanges bm)
       end.

(** An HTTP response: its status, its body with the error the body ends with,
    and the two headers the manager keeps. *)
Record Response := MkResponse {
  re_StatusCode : Z; re_Body : bytes; re_ReadErr : option string; re_LastModified : bytes; re_ETag : bytes
}.

Section Fetch.
Context `{SortSlice}.
(** [http.NewRequest] of a URL, and [Client.Do] with its headers. *)
Variable NewRequest : bytes -> option string.
Variable Do : bytes -> list (bytes * bytes) -> res Response.

Definition cache_headers (lastModified etag : bytes) : list (bytes * bytes) :=
  (if bool_decide (lastModified = []) then [] else [(bs "If-Modified-Since", lastModified)])
  ++ (if bool_decide (etag = []) then [] else [(bs "If-None-Match", etag)]).

Definition fetchBlocklistWithCache (url lastModified etag : bytes) : res Response :=
  match NewRequest url with
  | Some e => Err ("failed to create request: " ++ e)
  | None => match Do url (cache_headers lastModified etag) with
            | Err e => Err ("failed to fetch blocklist: " ++ e)
            | r => r
            end
  end.

Definition updateBlocklistData (now : Z) (ranges : list ipRange) (resp : Response) (bm : BlocklistManager) : BlocklistManager :=
  MkBlocklist (bl_enabled bm) (bl_url bm) (re_LastModified resp) (re_ETag resp) now ranges (len ranges).

Definition updateLastModifiedTime (now : Z) (bm : BlocklistManager) : BlocklistManager :=
  MkBlocklist (bl_enabled bm) (bl_url bm) (bl_lastModified bm) (bl_etag bm) now (bl_ipRanges bm) (bl_size bm).

Definition processBlocklistResponse (now : Z) (resp : Response) (bm : BlocklistManager) : res BlocklistManager :=
  if decide (re_StatusCode resp = 304) then Ok (updateLastModifiedTime now bm)
  else if decide (re_StatusCode resp <> 200) then Err ("unexpected status code: " ++ format_d (re_StatusCode resp))
  else match parseBlocklist (re_Body resp) (re_ReadErr resp) with
       | Ok ranges => Ok (updateBlocklistData now ranges resp bm)
       | Err e => Err ("failed to parse blocklist: " ++ e)
       | Panic p => Panic p
       | NoFuel => NoFuel
       end.

Definition Update (now : Z) (bm : BlocklistManager) : res BlocklistManager :=
  if decide (bl_url bm = []) then Err "no blocklist URL configured"
  else resp ← fetchBlocklistWithCache (bl_url bm) (bl_lastModified bm) (bl_etag bm); processBlocklistResponse now resp bm.

End Fetch.

Example parse_list :
  flat_map parse_line [bs "10.1.2.3/8"; bs "# c"; bs "x: 1.2.3.4 - 1.2.3.9"; bs " 5.6.7.8 "; bs "a:b:1.1.1.1-1.1.1.2"]
  = [MkRange [10; 0; 0; 0] [10; 255; 255; 255]; MkRange (v4InV6Prefix ++ [1; 2; 3; 4]) (v4InV6Prefix ++ [1; 2; 3; 9]);
     MkRange (v4InV6Prefix ++ [5; 6; 7; 8]) (v4InV6Prefix ++ [5; 6; 7; 8])].
Proof. vm_compute. reflexivity. Qed.

End Blocklist.

(** * Properties of the blocklist *)

Import Strconv Hash Net NetFacts GoLib Blocklist.

Module BlocklistFacts.

(** ** Parsed addresses are addresses *)
Definition ip4_ok (ip : bytes) : Prop := length ip = 4%nat /\ bytes_ok ip.
Definition ip16_ok (ip : bytes) : Prop := length ip = 16%nat /\ bytes_ok ip.

Lemma parse_v4_ok s done_ val digits ip : bytes_ok done_ -> 0 <= val <= 255 -> (length done_ <= 3)%nat ->
  parse_v4 s done_ val digits = Some ip -> ip4_ok ip.
Proof.
  revert done_ val digits. induction s as [|c s IH]; intros done_ val digits Hd Hv Hl; cbn [parse_v4].
  - case_decide as E; [|done]. intros [= <-]. split; [rewrite length_app; unfold len in E; cbn; lia|].
    apply Forall_app. split; [done|]. repeat constructor; lia.
  - destruct (is_digit c) eqn:Ec.
    + apply is_digit_spec in Ec. case_decide; [done|]. cbv zeta. case_decide; [done|]. apply IH; [done|lia|done].
    + case_decide; [|done]. case_decide; [done|]. case_decide as E3; [done|]. apply IH; [|lia|].
      * apply Forall_app. split; [done|]. repeat constructor; lia.
      * rewrite length_app. cbn. unfold len in E3. lia.
Qed.

Lemma parseIPv4_ok s ip : parseIPv4 s = Some ip -> ip4_ok ip.
Proof. apply parse_v4_ok; [constructor|lia|cbn; lia]. Qed.

Lemma fromHexChar_range c v : fromHexChar c = Some v -> 0 <= v < 16.
Proof. unfold fromHexChar. intros H. repeat case_decide; simplify_eq; lia. Qed.

Lemma hex_field_range s acc off : 0 <= off -> 0 <= acc < 16 ^ off ->
  let '(acc', off', _) := hex_field s acc off in 0 <= off' /\ 0 <= acc' < 16 ^ off'.
Proof.
  revert acc off. induction s as [|c s IH]; intros acc off Ho Ha; cbn [hex_field]; [done|].
  destruct (fromHexChar c) as [v|] eqn:E; [|done]. apply fromHexChar_range in E. apply IH; [lia|].
  rewrite Z.pow_add_r by lia. lia.
Qed.

(** The bytes collected so far: an even number, at most sixteen. *)
Definition part_ok (ip : bytes) : Prop := bytes_ok ip /\ (length ip <= 16)%nat /\ Nat.Even (length ip).

Lemma part_ok_group ip acc : part_ok ip -> len ip <> 16 -> 0 <= acc < 65536 -> part_ok (ip ++ [acc / 256; acc mod 256]).
Proof.
  intros (H1 & H2 & k & H3) Hn Ha. unfold part_ok. rewrite length_app. cbn [length]. unfold len in Hn.
  split_and!; [|lia|exists (k + 1)%nat; lia]. apply Forall_app. split; [done|].
  repeat constructor; try apply Z.mod_pos_bound; try lia; [apply Z.div_pos; lia|apply Z.div_lt_upper_bound; lia].
Qed.

Lemma parse_v6_ok fuel s ip e ip' e' rest : part_ok ip -> parse_v6 fuel s ip e = Some (ip', e', rest) -> part_ok ip'.
Proof.
  revert s ip e. induction fuel as [|fuel IH]; intros s ip e Hp; cbn [parse_v6]; [done|]. case_decide as En; [by intros [= <- <- <-]|].
  pose proof (hex_field_range s 0 0) as Hh. destruct (hex_field s 0 0) as [[acc off] r]. destruct Hh as [Ho Ha]; [lia|cbn; lia|].
  case_decide; [done|]. case_decide; [done|].
  assert (Hacc : 0 <= acc < 65536) by (assert (16 ^ off <= 16 ^ 4) by (apply Z.pow_le_mono_r; lia); lia).
  pose proof (part_ok_group ip acc Hp En Hacc) as Hg.
  destruct r as [|c r]; [by intros [= <- <- <-]|]. case_decide as Ec.
  - case_decide as El; [done|]. destruct (parseIPv4 s) as [v4|] eqn:E4; [|done]. intros [= <- <- <-].
    apply parseIPv4_ok in E4 as [L4 B4]. destruct Hp as (H1 & H2 & k & H3). unfold part_ok. rewrite length_app, L4.
    assert (len ip <= 12) by lia. unfold len in *. split_and!; [by apply Forall_app|lia|exists (k + 2)%nat; lia].
  - case_decide; [done|]. destruct r as [|c2 r2]; [done|]. case_decide; [|by apply IH].
    destruct e; [done|]. destruct r2; [by intros [= <- <- <-]|by apply IH].
Qed.

Lemma expand_v6_ok ip e ip' : part_ok ip -> expand_v6 ip e = Some ip' -> ip16_ok ip'.
Proof.
  intros (H1 & H2 & _). unfold expand_v6, ip16_ok, len. destruct e as [e|]; case_decide as E; try done; intros [= <-]; [|split; [lia|done]].
  split; [rewrite !length_app, length_replicate, length_take, length_drop; lia|].
  rewrite !Forall_app. split; [by apply Forall_take|]. split; [apply Forall_replicate; unfold is_byte; lia|by apply Forall_drop].
Qed.

Lemma parseIPv6_ok s ip : parseIPv6 s = Some ip -> ip16_ok ip.
Proof.
  unfold parseIPv6. destruct (if decide _ then _ else _) as [s' e].
  assert (Hgen : match parse_v6 (S (length s')) s' [] e with Some (ip, ellipsis, []) => expand_v6 ip ellipsis | _ => None end = Some ip -> ip16_ok ip).
  { destruct (parse_v6 _ s' [] e) as [[[ip0 e0] rest]|] eqn:E; [|done]. destruct rest; [|done]. apply expand_v6_ok.
    eapply parse_v6_ok; [|exact E]. split_and!; [constructor|cbn; lia|by exists 0%nat]. }
  destruct e as [n|]; [destruct s' as [|c s'']|]; [|exact Hgen..]. intros [= <-]. split; [done|]. apply (Forall_replicate is_byte 16). unfold is_byte. lia.
Qed.

Lemma prefix_ok : length v4InV6Prefix = 12%nat /\ bytes_ok v4InV6Prefix.
Proof. split; [done|]. unfold v4InV6Prefix. cbn. repeat constructor; unfold is_byte; lia. Qed.

Lemma ParseAddr_ok s ip : ParseAddr s = Some ip -> ip4_ok ip \/ ip16_ok ip.
Proof.
  unfold ParseAddr. destruct (family s) as [f|]; [|done].
  destruct (decide (f = 46)) as [->|]; [intros; left; by eapply parseIPv4_ok|].
  destruct (decide (f = 58)) as [->|]; [|by repeat (case_match; try done)].
  case_match; [done|]. intros. right. by eapply parseIPv6_ok.
Qed.

Lemma ParseIP_ok s ip : ParseIP s = Some ip -> ip16_ok ip.
Proof.
  unfold ParseIP. destruct (family s) as [f|]; [|done].
  destruct (decide (f = 46)) as [->|].
  - destruct (parseIPv4 s) as [v4|] eqn:E; [|done]. intros Hs. apply (inj Some) in Hs. subst ip. apply parseIPv4_ok in E as [L B]. destruct prefix_ok as [Lp Bp].
    split; [rewrite length_app; lia|by apply Forall_app].
  - destruct (decide (f = 58)) as [->|]; [|by repeat (case_match; try done)]. case_match; [done|]. apply parseIPv6_ok.
Qed.

(** ** Addresses as numbers *)
Lemma be_val_app a b : be_val (a ++ b) = be_val a * 256 ^ Z.of_nat (length b) + be_val b.
Proof.
  induction a as [|x a IH]; cbn [be_val app]; [lia|]. rewrite IH, length_app, Nat2Z.inj_add, Z.pow_add_r by lia. ring.
Qed.

Lemma be_val_inj a b : length a = length b -> bytes_ok a -> bytes_ok b -> be_val a = be_val b -> a = b.
Proof. intros Hl Ha Hb E. by rewrite <- (be_bytes_be_val a Ha), <- (be_bytes_be_val b Hb), E, Hl. Qed.

Definition sign (c : comparison) : Z := match c with Lt => -1 | Eq => 0 | Gt => 1 end.

Lemma compareIPBytes_spec a b : length a = length b -> bytes_ok a -> bytes_ok b ->
  compareIPBytes a b = sign (be_val a ?= be_val b).
Proof.
  revert b. induction a as [|x a IH]; intros [|y b] Hl Ha Hb; try done. injection Hl as Hl.
  apply Forall_cons in Ha as [Hx Ha]. apply Forall_cons in Hb as [Hy Hb]. cbn [compareIPBytes be_val]. unfold compareIPBytes_step.
  pose proof (be_val_range a Ha). pose proof (be_val_range b Hb). rewrite Hl in *. set (k := 256 ^ Z.of_nat (length b)) in *.
  case_decide as E1; [rewrite (proj2 (Z.compare_lt_iff _ _)); [done|nia]|].
  case_decide as E2; [rewrite (proj2 (Z.compare_gt_iff _ _)); [done|nia]|].
  assert (x = y) as -> by lia. rewrite (IH b) by done. rewrite Z.add_compare_mono_l. done.
Qed.

Lemma compareIPs_spec a b : length a = length b -> bytes_ok a -> bytes_ok b -> compareIPs a b = sign (be_val a ?= be_val b).
Proof.
  intros Hl Ha Hb. unfold compareIPs, normalizeIPAddresses. rewrite decide_True by (unfold len; lia). cbv zeta.
  rewrite compareIPBytes_spec by done. case_decide as E; [|done]. unfold compareIPLengths, len. rewrite Hl, !decide_False by lia. done.
Qed.

(** A range as the code builds them: both ends of one family. *)
Definition range_ok (r : ipRange) : Prop := (ip4_ok (r_start r) /\ ip4_ok (r_end r)) \/ (ip16_ok (r_start r) /\ ip16_ok (r_end r)).

(** The number of an address, IPv4 addresses in their place among the IPv6 ones. *)
Definition ip_num (ip : bytes) : Z := be_val (default ip (To16 ip)).

Lemma ip_num_16 ip : ip16_ok ip -> ip_num ip = be_val ip.
Proof. intros [Hl _]. unfold ip_num, To16, len. rewrite Hl. done. Qed.
Lemma ip_num_4 ip : ip4_ok ip -> ip_num ip = be_val v4InV6Prefix * 2 ^ 32 + be_val ip.
Proof. intros [Hl _]. unfold ip_num, To16, len. rewrite Hl. cbn [decide default]. rewrite decide_True by done. cbn [default from_option id]. rewrite be_val_app, Hl. done. Qed.

Lemma check_spec ip r : length ip = length (r_start r) -> length ip = length (r_end r) -> bytes_ok ip -> bytes_ok (r_start r) -> bytes_ok (r_end r) ->
  bool_decide (0 <= compareIPs ip (r_start r)) && bool_decide (compareIPs ip (r_end r) <= 0) =
  bool_decide (be_val (r_start r) <= be_val ip <= be_val (r_end r)).
Proof.
  intros L1 L2 B1 B2 B3. rewrite !compareIPs_spec by done.
  destruct (Z.compare_spec (be_val ip) (be_val (r_start r))), (Z.compare_spec (be_val ip) (be_val (r_end r))); cbn [sign];
    repeat case_bool_decide; cbn; done || lia.
Qed.

Lemma ipInRange_spec ip r : ip16_ok ip -> range_ok r ->
  ipInRange ip r = bool_decide (ip_num (r_start r) <= be_val ip <= ip_num (r_end r)).
Proof.
  intros [Hl Hb] [[[L1 B1] [L2 B2]]|[[L1 B1] [L2 B2]]]; unfold ipInRange, len.
  - rewrite decide_True by lia. rewrite decide_False by lia. rewrite decide_True by lia.
    assert (Hip : be_val ip = be_val (take 12 ip) * 2 ^ 32 + be_val (drop 12 ip)).
    { rewrite <- (take_drop 12 ip) at 1. by rewrite be_val_app, length_drop, Hl. }
    rewrite !ip_num_4 by done. destruct (To4 ip) as [v|] eqn:E.
    + unfold To4, FastSet.To4, len in E. rewrite decide_False in E by lia. case_decide as Ec; [|done]. apply (inj Some) in E. subst v. destruct Ec as [_ Ec].
      rewrite check_spec; [|rewrite length_drop; lia|rewrite length_drop; lia|by apply Forall_drop|done|done].
      rewrite Ec in Hip. fold v4InV6Prefix in Hip. apply bool_decide_ext. lia.
    + symmetry. apply bool_decide_eq_false. intros Hr. unfold To4, FastSet.To4, len in E. rewrite decide_False in E by lia.
      case_decide as Ec; [done|]. apply Ec. split; [lia|]. change (replicate 10 0 ++ [255; 255]) with v4InV6Prefix.
      apply be_val_inj; [rewrite length_take, Hl; done|by apply Forall_take|apply prefix_ok|].
      pose proof (be_val_range _ B1). pose proof (be_val_range _ B2). pose proof (be_val_range (drop 12 ip) ltac:(by apply Forall_drop)) as Hd.
      rewrite length_drop, Hl in Hd. rewrite L1 in *. rewrite L2 in *. change (256 ^ Z.of_nat (16 - 12)) with (2 ^ 32) in Hd.
      change (256 ^ Z.of_nat 4) with (2 ^ 32) in *. lia.
  - rewrite decide_False by lia. rewrite check_spec by (done || lia). by rewrite !ip_num_16 by done.
Qed.

(** ** Masks *)
Definition low_mask (n : Z) : Z := u8 (Z.lnot (Z.shiftr 255 n)).
Definition byte_facts (n x : Z) : Prop :=
  let k := 2 ^ (8 - n) in Z.land x (low_mask n) = x / k * k /\ or_not (x / k * k) (low_mask n) = x / k * k + k - 1.

Lemma byte_masks : Forall (fun n => Forall (byte_facts n) (seqZ 0 256)) (seqZ 0 9).
Proof. apply (bool_decide_unpack _). vm_compute. exact I. Qed.

Lemma byte_mask n x : 0 <= n <= 8 -> is_byte x -> byte_facts n x.
Proof.
  intros Hn Hx. pose proof byte_masks as H. rewrite Forall_forall in H. specialize (H n). rewrite Forall_forall in H.
  apply H; apply elem_of_seqZ; unfold is_byte in Hx; lia.
Qed.

Lemma length_CIDRMask n l : length (CIDRMask n l) = l.
Proof. revert n. induction l as [|l IH]; intros n; cbn [CIDRMask]; [done|]. case_decide; cbn; by rewrite IH. Qed.

(** The masked address is the first of the block, the other end the last. *)
Lemma mask_val ip n : bytes_ok ip -> 0 <= n <= 8 * len ip ->
  let k := 2 ^ (8 * len ip - n) in
  let m := CIDRMask n (length ip) in
  be_val (and_bytes ip m) = be_val ip / k * k /\ be_val (zip_with or_not (and_bytes ip m) m) = be_val ip / k * k + k - 1.
Proof.
  intros Hb. revert n. induction Hb as [|x ip Hx Hb IH]; intros n Hn; [by assert (n = 0) as -> by (unfold len in Hn; cbn in Hn; lia)|].
  cbn [length CIDRMask and_bytes]. rewrite len_cons in *. pose proof (be_val_range ip Hb) as Hr. pose proof (len_nonneg ip) as Hl.
  assert (E256 : 256 ^ Z.of_nat (length ip) = 2 ^ (8 * len ip)) by (unfold len; rewrite Z.pow_mul_r by lia; done).
  assert (Hla : forall m, length m = length ip -> length (and_bytes ip m) = length ip /\ length (zip_with or_not (and_bytes ip m) m) = length ip)
    by (intros m Hm; unfold and_bytes; rewrite !length_zip_with, Hm; lia).
  destruct (Hla (CIDRMask (n - 8) (length ip)) (length_CIDRMask _ _)) as [L1 L2].
  destruct (Hla (CIDRMask 0 (length ip)) (length_CIDRMask _ _)) as [L3 L4].
  case_decide as E8; cbv zeta; unfold and_bytes in *; cbn [zip_with be_val].
  - destruct (IH (n - 8)) as [I1 I2]; [lia|]. rewrite L1, L2, I1, I2, E256.
    replace (8 * (1 + len ip) - n) with (8 * len ip - (n - 8)) by lia. set (k := 2 ^ (8 * len ip - (n - 8))).
    assert (Ek : 2 ^ (8 * len ip) = 2 ^ (n - 8) * k) by (unfold k; rewrite <- Z.pow_add_r by lia; f_equal; lia).
    assert (0 < k) by (apply Z.pow_pos_nonneg; lia).
    destruct (byte_mask 8 x) as [M1 M2]; [lia|done|]. change (low_mask 8) with 255 in *. change (2 ^ (8 - 8)) with 1 in *. rewrite Z.div_1_r in *.
    rewrite M1, Z.mul_1_r in *. rewrite M2, Ek. replace (x * (2 ^ (n - 8) * k) + be_val ip) with (be_val ip + (x * 2 ^ (n - 8)) * k) by ring.
    rewrite Z.div_add by lia. split; ring.
  - destruct (IH 0) as [I1 I2]; [lia|]. rewrite L3, L4, I1, I2, E256. rewrite Z.sub_0_r. set (K := 2 ^ (8 * len ip)) in *.
    assert (0 < K) by (apply Z.pow_pos_nonneg; lia). rewrite E256 in Hr. rewrite (Z.div_small (be_val ip) K) by lia. destruct (byte_mask n x) as [M1 M2]; [lia|done|]. fold (low_mask n).
    rewrite M1, M2. set (k := 2 ^ (8 - n)) in *. assert (0 < k) by (apply Z.pow_pos_nonneg; lia).
    replace (2 ^ (8 * (1 + len ip) - n)) with (K * k) by (unfold K, k; rewrite <- Z.pow_add_r by lia; f_equal; lia).
    rewrite <- Z.div_div by lia. replace (x * K + be_val ip) with (be_val ip + x * K) by ring. rewrite Z.div_add, (Z.div_small (be_val ip) K) by lia.
    rewrite Z.add_0_l. split; ring.
Qed.

Lemma mask_ok ip n : bytes_ok ip -> 0 <= n -> let m := CIDRMask n (length ip) in
  bytes_ok (and_bytes ip m) /\ bytes_ok (zip_with or_not (and_bytes ip m) m) /\
  length (and_bytes ip m) = length ip /\ length (zip_with or_not (and_bytes ip m) m) = length ip.
Proof.
  intros Hb. revert n. induction Hb as [|x ip Hx Hb IH]; intros n Hn; [done|]. cbn [length CIDRMask]. case_decide as E; cbv zeta.
  - destruct (IH (n - 8)) as (I1 & I2 & I3 & I4); [lia|]. destruct (byte_mask 8 x) as [M1 M2]; [lia|done|].
    change (low_mask 8) with 255 in *. change (2 ^ (8 - 8)) with 1 in *. rewrite Z.div_1_r, Z.mul_1_r in *. unfold and_bytes in *. cbn [zip_with length].
    rewrite M1, M2, I3, I4. unfold is_byte in *. split_and!; try done; constructor; done || lia.
  - destruct (IH 0) as (I1 & I2 & I3 & I4); [lia|]. destruct (byte_mask n x) as [M1 M2]; [lia|done|]. unfold and_bytes in *. cbn [zip_with length].
    fold (low_mask n). rewrite M1, M2, I3, I4. unfold is_byte in *. set (k := 2 ^ (8 - n)) in *. assert (0 < k) by (apply Z.pow_pos_nonneg; lia).
    assert (x / k * k + k <= 256).
    { assert (E256 : 256 = 2 ^ n * k) by (unfold k; rewrite <- Z.pow_add_r by lia; replace (n + (8 - n)) with 8 by lia; done).
      assert (x / k < 2 ^ n) by (apply Z.div_lt_upper_bound; lia). nia. }
    assert (0 <= x / k) by (apply Z.div_pos; lia). split_and!; try done; constructor; done || nia.
Qed.

(** ** Lines *)
Lemma cidr_range_ok cidr s : ParseCIDR s = Some cidr -> range_ok (cidrToRange cidr).
Proof.
  unfold ParseCIDR. destruct (cut 47 s) as [[addr mask]|]; [|done]. destruct (ParseAddr addr) as [ip|] eqn:E; [|done].
  destruct mask as [|c mask]; [done|]. destruct (dtoi 0 (c :: mask)) as [n|] eqn:En; [|done]. case_decide as Hn; [done|]. intros [= <-].
  assert (0 <= n).
  { assert (Hd : forall s acc n, 0 <= acc -> dtoi acc s = Some n -> 0 <= n); [|by eapply (Hd _ 0)]. clear. induction s as [|c s IH]; cbn; intros acc n Ha; [intros [= <-]; done|].
    destruct (is_digit c) eqn:Ec; [|done]. apply is_digit_spec in Ec. case_decide; [done|]. apply IH. lia. }
  apply ParseAddr_ok in E. assert (Hb : bytes_ok ip) by (destruct E as [[_ ?]|[_ ?]]; done).
  destruct (mask_ok ip n Hb) as (H1 & H2 & H3 & H4); [done|]. unfold cidrToRange, range_ok, ip4_ok, ip16_ok. cbn [n_IP n_Mask r_start r_end].
  rewrite drop_ge by (rewrite length_CIDRMask; lia). rewrite app_nil_r, H3, H4. destruct E as [[El _]|[El _]]; [left|right]; (split; [by split|by split]).
Qed.

Lemma parse_line_ok token r : r ∈ parse_line token -> range_ok r.
Proof.
  unfold parse_line. case_match; [set_solver|]. destruct (parseCIDRLine _) as [r1|] eqn:E1.
  { intros ->%list_elem_of_singleton. unfold parseCIDRLine in E1. case_match; [done|]. destruct (ParseCIDR _) as [c|] eqn:Ec; [|done].
    injection E1 as <-. by eapply cidr_range_ok. }
  destruct (parseDATFormatLine _) as [r2|] eqn:E2.
  { intros ->%list_elem_of_singleton. unfold parseDATFormatLine in E2. repeat (case_match; try done). simplify_eq.
    right. cbn. split; by eapply ParseIP_ok. }
  destruct (parseSingleIPLine _) as [r3|] eqn:E3; [|set_solver]. intros ->%list_elem_of_singleton. unfold parseSingleIPLine in E3.
  case_match; [|done]. simplify_eq. right. cbn. split; by eapply ParseIP_ok.
Qed.

Lemma parse_v4_chars s done_ val digits ip : parse_v4 s done_ val digits = Some ip -> Forall (fun c => is_digit c = true \/ c = 46) s.
Proof.
  revert done_ val digits. induction s as [|c s IH]; intros done_ val digits; cbn [parse_v4]; [constructor|].
  destruct (is_digit c) eqn:Ec; repeat case_decide; try done; intros Hs; constructor; eauto.
Qed.

(** Characters that decide the family of an address. *)
Definition plain (s : bytes) : Prop := Forall (fun c => c <> 46 /\ c <> 58 /\ c <> 37) s.

Lemma family_plain s t : plain s -> family (s ++ t) = family t.
Proof. induction 1 as [|c s Hc _ IH]; cbn; [done|]. by rewrite decide_False by lia. Qed.

Lemma dtoi_format n : 0 <= n <= 128 -> dtoi 0 (FormatUint 10 n) = Some n.
Proof.
  intros Hn. assert (H : Forall (fun n => dtoi 0 (FormatUint 10 n) = Some n) (seqZ 0 129)) by (apply (bool_decide_unpack _); vm_compute; exact I).
  rewrite Forall_forall in H. apply H, elem_of_seqZ. lia.
Qed.

Lemma digits_printable s : Forall (fun c => is_digit c = true \/ c = 46) s -> Forall printable s.
Proof. intros H. eapply Forall_impl; [exact H|]. unfold printable. intros c [Hc%is_digit_spec| ->]; lia. Qed.

(** A dotted address with a prefix length is a line of its own. *)
Lemma parse_cidr_line ip n : ip4_ok ip -> 0 <= n <= 32 ->
  parse_line (IP_String ip ++ 47 :: FormatUint 10 n) = [cidrToRange (MkIPNet (and_bytes ip (CIDRMask n 4)) (CIDRMask n 4))].
Proof.
  intros [Hl Hb] Hn. assert (E4 : IP_String ip = dotted ip) by (unfold IP_String, To4, FastSet.To4, len; rewrite Hl; done).
  pose proof (parseIPv4_dotted ip Hl Hb) as Hp. pose proof (parse_v4_chars _ _ _ _ _ Hp) as Hc. pose proof (FormatUint_digits n ltac:(lia)) as Hd.
  rewrite E4. set (line := dotted ip ++ 47 :: FormatUint 10 n).
  assert (Hpr : Forall printable line).
  { unfold line. apply Forall_app. split; [by apply digits_printable|]. constructor; [unfold printable; lia|].
    apply digits_printable. eapply Forall_impl; [exact Hd|]. by left. }
  unfold parse_line. rewrite TrimSpace_id by done. destruct (dotted ip) as [|c0 d0] eqn:Ed; [discriminate Hp|].
  assert (Hc0 : c0 <> 35) by (inversion Hc as [|? ? H0]; subst; destruct H0 as [H0%is_digit_spec| ->]; lia).
  cbv zeta. rewrite bool_decide_false by done. assert (HasPrefix line [35] = false) as -> by (apply bool_decide_eq_false; unfold line; cbn; congruence).
  cbn [orb]. unfold parseCIDRLine, Contains_byte. rewrite bool_decide_true by (unfold line; set_solver). cbn [negb].
  unfold ParseCIDR, line. rewrite cut_app; [|intros Hin; rewrite Forall_forall in Hc; destruct (Hc _ Hin) as [H47|?]; [vm_compute in H47; discriminate|done]].
  assert (Hfam : family (c0 :: d0) = Some 46).
  { rewrite <- Ed. destruct ip as [|b0 [|b1 ip]]; try done. change (dotted (b0 :: b1 :: ip)) with (FormatUint 10 b0 ++ 46 :: dotted (b1 :: ip)).
    rewrite family_plain; [done|]. apply Forall_cons in Hb as [Hb0 _]. eapply Forall_impl; [apply FormatUint_digits; unfold is_byte in Hb0; lia|].
    intros c Hdc%is_digit_spec. lia. }
  unfold ParseAddr. rewrite Hfam, Hp. destruct (FormatUint 10 n) as [|m0 ms] eqn:Em; [by apply FormatUint_nonempty in Em|].
  rewrite <- Em, dtoi_format by lia. rewrite decide_False by (unfold len; lia). by rewrite Hl.
Qed.

(** ** Properties *)

(** the list that was fetched decides. After an update that received a list,
    an address is blocked exactly when some line of the list gives a range
    whose bounds, as 128-bit numbers with IPv4 addresses in their mapped place,
    enclose it; the size counts the ranges. *)
Theorem update_blocks_listed `{SortSlice} NewRequest Do now bm resp tokens :
  bl_enabled bm = true -> bl_url bm <> [] -> NewRequest (bl_url bm) = None ->
  Do (bl_url bm) (cache_headers (bl_lastModified bm) (bl_etag bm)) = Ok resp -> re_StatusCode resp = 200 ->
  ScanLines (re_Body resp) (re_ReadErr resp) = (tokens, None) ->
  exists bm', Update NewRequest Do now bm = Ok bm' /\ GetSize bm' = len (flat_map parse_line tokens) /\
    forall t ip, ParseIP t = Some ip ->
      IsBlocked t bm' = true <->
      exists token r, token ∈ tokens /\ r ∈ parse_line token /\ ip_num (r_start r) <= be_val ip <= ip_num (r_end r).
Proof.
  intros He Hu Hr Hd Hs Ht. eexists. unfold Update, fetchBlocklistWithCache. rewrite decide_False by done. rewrite Hr, Hd, bind_Ok.
  unfold processBlocklistResponse, parseBlocklist. rewrite decide_False by lia. rewrite decide_False by lia. rewrite Ht.
  split; [done|]. assert (Hperm : sortIPRanges (flat_map parse_line tokens) ≡ₚ flat_map parse_line tokens) by apply sort_Slice_perm.
  split; [unfold GetSize; cbn; unfold len; by rewrite Hperm|].
  intros t ip Hip. unfold IsBlocked. cbn [updateBlocklistData bl_enabled bl_ipRanges]. rewrite He, Hip. cbn [negb].
  rewrite existsb_exists. pose proof (ParseIP_ok _ _ Hip) as H16. split.
  - intros (r & Hin & Hr'). apply list_elem_of_In in Hin. rewrite Hperm in Hin. apply list_elem_of_In, in_flat_map in Hin as (token & Ht1 & Ht2).
    apply list_elem_of_In in Ht1, Ht2. exists token, r. split_and!; [done|done|..];
      rewrite ipInRange_spec in Hr' by eauto using parse_line_ok; apply bool_decide_eq_true in Hr'; tauto.
  - intros (token & r & Ht1 & Ht2 & Hr'). exists r. split.
    + apply list_elem_of_In. rewrite Hperm. apply list_elem_of_In, in_flat_map. exists token. by rewrite <- !list_elem_of_In.
    + rewrite ipInRange_spec by eauto using parse_line_ok. by apply bool_decide_eq_true.
Qed.

(** a CIDR line covers its block. The line [a.b.c.d/n] is accepted for every
    address and every length up to 32, and an IPv4 address is in its range
    exactly when its first [n] bits are those of [a.b.c.d]. *)
Theorem cidr_line_exact ip n : ip4_ok ip -> 0 <= n <= 32 ->
  exists r, parse_line (IP_String ip ++ 47 :: FormatUint 10 n) = [r] /\
    forall ip', ip4_ok ip' ->
      ipInRange (v4InV6Prefix ++ ip') r = bool_decide (be_val ip' / 2 ^ (32 - n) = be_val ip / 2 ^ (32 - n)).
Proof.
  intros Hip Hn. eexists. split; [by apply parse_cidr_line|]. intros ip' Hip'. pose proof Hip as [Hl Hb]. pose proof Hip' as [Hl' Hb'].
  destruct prefix_ok as [Lp Bp]. destruct (mask_ok ip n Hb) as (B1 & B2 & L1 & L2); [lia|].
  destruct (mask_val ip n Hb) as [V1 V2]; [unfold len; lia|]. unfold len in V1, V2. rewrite Hl in *.
  unfold cidrToRange. cbn [n_IP n_Mask]. rewrite drop_ge by (rewrite length_CIDRMask; lia). rewrite app_nil_r.
  rewrite ipInRange_spec; [|split; [rewrite length_app; lia|by apply Forall_app]|left; done]. cbn [r_start r_end].
  rewrite !ip_num_4 by done. rewrite be_val_app, Hl', V1, V2. change (256 ^ Z.of_nat 4) with (2 ^ 32). change (8 * Z.of_nat 4 - n) with (32 - n).
  set (k := 2 ^ (32 - n)). assert (0 < k) by (apply Z.pow_pos_nonneg; lia). apply bool_decide_ext.
  pose proof (Z.div_mod (be_val ip') k ltac:(lia)). pose proof (Z.mod_pos_bound (be_val ip') k ltac:(lia)).
  split; intros Hx; [|rewrite <- Hx; lia].
  assert (be_val ip / k <= be_val ip' / k) by (apply Z.div_le_lower_bound; lia).
  assert (be_val ip' / k < be_val ip / k + 1) by (apply Z.div_lt_upper_bound; lia). lia.
Qed.

(** an enabled blocklist refuses every I2P peer. The text of a peer address
    is looked up as an IP address and what is not one counts as blocked, so a
    base64 destination and a base32 host are blocked even by an empty list. *)
Theorem i2p_peers_blocked bm name : bl_enabled bm = true -> plain name ->
  IsBlocked name bm = true /\ IsBlocked (name ++ bs ".b32.i2p") bm = true.
Proof.
  intros He Hp. unfold IsBlocked. rewrite He. cbn [negb]. split.
  - unfold ParseIP. pose proof (family_plain name [] Hp) as Hf. rewrite app_nil_r in Hf. by rewrite Hf.
  - unfold ParseIP. rewrite family_plain by done. assert (family (bs ".b32.i2p") = Some 46) as -> by done.
    destruct (parseIPv4 (name ++ bs ".b32.i2p")) as [ip|] eqn:E; [|done]. exfalso. apply parse_v4_chars in E.
    apply Forall_app in E as [_ E]. apply Forall_cons in E as [_ E]. apply Forall_cons in E as [[Hc|Hc] _]; vm_compute in Hc; discriminate.
Qed.

(** ** Witnesses *)
Definition demo_body : bytes := bs "# list" ++ [10] ++ bs "10.1.0.0/16" ++ [10] ++ bs "bad: 1.2.3.4-1.2.3.9".
Definition demo_response : Response := MkResponse 200 demo_body None [] (bs "v1").
Definition demo_blocklist : BlocklistManager := MkBlocklist true (bs "http://h/l") [] [] 0 [] 0.

Lemma update_blocks_listed_witness :
  exists bm', Update (fun _ => None) (fun _ _ => Ok demo_response) 5 demo_blocklist = Ok bm' /\ GetSize bm' = 2 /\
    IsBlocked (bs "1.2.3.5") bm' = true /\ IsBlocked (bs "1.2.3.10") bm' = false.
Proof.
  destruct (update_blocks_listed (fun _ => None) (fun _ _ => Ok demo_response) 5 demo_blocklist demo_response
    [bs "# list"; bs "10.1.0.0/16"; bs "bad: 1.2.3.4-1.2.3.9"]) as (bm' & E & Hs & Hb);
    [reflexivity|discriminate|reflexivity|reflexivity|reflexivity|vm_compute; reflexivity|].
  exists bm'. split; [exact E|]. split; [rewrite Hs; vm_compute; reflexivity|].
  revert E. vm_compute. intros [= <-]. split; reflexivity.
Defined.

Lemma cidr_line_exact_witness :
  exists r, parse_line (IP_String [10; 1; 2; 3] ++ 47 :: FormatUint 10 12) = [r] /\ ipInRange (v4InV6Prefix ++ [10; 15; 255; 255]) r = true.
Proof.
  destruct (cidr_line_exact [10; 1; 2; 3] 12) as (r & E & H); [split; [reflexivity|repeat constructor; discriminate]|lia|].
  exists r. split; [exact E|]. rewrite H; [vm_compute; reflexivity|split; [reflexivity|repeat constructor; discriminate]].
Defined.

Lemma i2p_peers_blocked_witness : IsBlocked (bs "abcdefgh" ++ bs ".b32.i2p") demo_blocklist = true.
Proof. apply (proj2 (i2p_peers_blocked demo_blocklist (bs "abcdefgh") eq_refl ltac:(repeat constructor; discriminate))). Defined.

End BlocklistFacts.
