(* ===== verification/Bandwidth.v ===== *)
(** * Bandwidth limits and their schedule

    Models [src/rpc/bandwidth_limiter.go] (the token buckets) and
    [src/rpc/bandwidth_scheduler.go] (rules by day and time).

    [float64] is the binary64 format of [SpecFloat], computed exactly as the
    code computes it. Converting a float that does not fit in an [int64] is left
    to the platform: [wild] is what it gives. The clock is an argument, in
    nanoseconds for the buckets and as weekday, hour and minute for the rules.
    A rule is a pointer the caller may share: the scheduler keeps locations,
    and the heap they live in is an argument of what reads them. *)

From Stdlib Require Import SpecFloat.
From S2P Require Import Prelude.

Module Bandwidth.

(** ** [float64] *)
Abbreviation float := spec_float.
Definition f_of_int (z : Z) : float := binary_normalize 53 1024 z 0 false.
Definition fmul : float -> float -> float := SFmul 53 1024.
Definition fadd : float -> float -> float := SFadd 53 1024.
Definition fdiv : float -> float -> float := SFdiv 53 1024.

(** Truncation toward zero, of finite numbers. *)
Definition f_trunc (f : float) : option Z :=
  match f with
  | S754_zero _ => Some 0
  | S754_finite s m e =>
      let v := if decide (0 <= e) then Z.pos m * 2 ^ e else Z.pos m / 2 ^ (- e) in Some (if s then - v else v)
  | _ => None
  end.

Definition Second : Z := 1000000000.
Definition max_int64 : Z := 9223372036854775807.

(** [Duration.Seconds]. *)
Definition Seconds (d : Z) : float := fadd (f_of_int (Z.quot d Second)) (fdiv (f_of_int (Z.rem d Second)) (f_of_int Second)).

(** [Time.Sub], which saturates. *)
Definition Sub (t u : Z) : Z := Z.max (- max_int64 - 1) (Z.min max_int64 (t - u)).

Section Wild.
Variable wild : float -> Z.
Definition f_to_int64 (f : float) : Z :=
  match f_trunc f with
  | Some z => if decide (- max_int64 - 1 <= z <= max_int64) then z else wild f
  | None => wild f
  end.

(** ** The token bucket *)
Record BandwidthLimiter := MkLimiter {
  maxBytesPerSecond : Z; bl_enabled : bool; tokens : Z; maxTokens : Z; lastFill : Z; fillRate : Z
}.

Definition NewBandwidthLimiter (now max : Z) (enabled : bool) : BandwidthLimiter :=
  if enabled && bool_decide (0 < max) then MkLimiter max enabled max max now 10000000
  else MkLimiter max enabled 0 0 now 10000000.

Definition tokensToAdd (now : Z) (bl : BandwidthLimiter) : Z :=
  f_to_int64 (fmul (f_of_int (maxBytesPerSecond bl)) (Seconds (Sub now (lastFill bl)))).

Definition unlimited (bl : BandwidthLimiter) : bool := negb (bl_enabled bl) || bool_decide (maxBytesPerSecond bl <= 0).

Definition updateTokenBucket (now : Z) (bl : BandwidthLimiter) : BandwidthLimiter :=
  if unlimited bl then MkLimiter (maxBytesPerSecond bl) (bl_enabled bl) 0 0 (lastFill bl) (fillRate bl)
  else
    let maxTokens := maxBytesPerSecond bl in
    let tokens := i64 (tokens bl + tokensToAdd now bl) in
    MkLimiter (maxBytesPerSecond bl) (bl_enabled bl) (if decide (maxTokens < tokens) then maxTokens else tokens) maxTokens now (fillRate bl).

Definition set_tokens (n : Z) (bl : BandwidthLimiter) : BandwidthLimiter :=
  MkLimiter (maxBytesPerSecond bl) (bl_enabled bl) n (maxTokens bl) (lastFill bl) (fillRate bl).

(** What [WaitForTokens] does: return at once, or wait. *)
Inductive wait := Granted | Sleep (waitTime : Z).

(** [WaitForTokens] up to the end of the wait or its cancellation; it holds
    the mutex meanwhile and does not touch the bucket afterwards. *)
Definition WaitForTokens (now bytes : Z) (bl : BandwidthLimiter) : wait * BandwidthLimiter :=
  if unlimited bl then (Granted, bl)
  else if decide (bytes <= 0) then (Granted, bl)
  else
    let bl := updateTokenBucket now bl in
    if decide (bytes <= tokens bl) then (Granted, set_tokens (tokens bl - bytes) bl)
    else
      let tokensNeeded := i64 (bytes - tokens bl) in
      let waitTime := f_to_int64 (fmul (fdiv (f_of_int tokensNeeded) (f_of_int (maxBytesPerSecond bl))) (f_of_int Second)) in
      (Sleep waitTime, set_tokens 0 bl).

Definition UpdateConfiguration (now max : Z) (enabled : bool) (bl : BandwidthLimiter) : BandwidthLimiter :=
  updateTokenBucket now (MkLimiter max enabled (tokens bl) (maxTokens bl) now (fillRate bl)).

Definition GetConfiguration (bl : BandwidthLimiter) : Z * bool := (maxBytesPerSecond bl, bl_enabled bl).

Definition GetStats (now : Z) (bl : BandwidthLimiter) : Z * Z * BandwidthLimiter :=
  let bl := updateTokenBucket now bl in (tokens bl, maxTokens bl, bl).

(** *** Both directions *)

(** The speed limits of a [SessionConfiguration]. *)
Record SpeedLimits := MkSpeed { SpeedLimitDown : Z; SpeedLimitDownEnabled : bool; SpeedLimitUp : Z; SpeedLimitUpEnabled : bool }.

Record BandwidthManager := MkBandwidth { downloadLimiter : BandwidthLimiter; uploadLimiter : BandwidthLimiter }.

Definition NewBandwidthManager (now : Z) (c : SpeedLimits) : BandwidthManager :=
  MkBandwidth (NewBandwidthLimiter now (SpeedLimitDown c) (SpeedLimitDownEnabled c)) (NewBandwidthLimiter now (SpeedLimitUp c) (SpeedLimitUpEnabled c)).

Definition WaitForDownload (now bytes : Z) (bm : BandwidthManager) : wait * BandwidthManager :=
  let '(w, l) := WaitForTokens now bytes (downloadLimiter bm) in (w, MkBandwidth l (uploadLimiter bm)).
Definition WaitForUpload (now bytes : Z) (bm : BandwidthManager) : wait * BandwidthManager :=
  let '(w, l) := WaitForTokens now bytes (uploadLimiter bm) in (w, MkBandwidth (downloadLimiter bm) l).

Definition manager_UpdateConfiguration (now : Z) (c : SpeedLimits) (bm : BandwidthManager) : BandwidthManager :=
  MkBandwidth (UpdateConfiguration now (SpeedLimitDown c) (SpeedLimitDownEnabled c) (downloadLimiter bm))
    (UpdateConfiguration now (SpeedLimitUp c) (SpeedLimitUpEnabled c) (uploadLimiter bm)).

(** ** Rules *)
Record BandwidthScheduleRule := MkRule {
  ru_Name : bytes; DaysOfWeek : list Z; StartTime : bytes; EndTime : bytes;
  DownloadLimit : Z; UploadLimit : Z; ru_Priority : Z; ru_Enabled : bool
}.

(** [time.Parse("15:04", s)]: what it refuses. *)
Inductive timeErr := HourRange | MinuteRange | ExtraText | CannotParse (layoutElem : string).

Definition is_dig (c : Z) : bool := bool_decide (48 <= c <= 57).

(** [getnum]: one digit or two, two when [fixed]. *)
Definition getnum (s : bytes) (fixed : bool) : option (Z * bytes) :=
  match s with
  | a :: s' =>
      if negb (is_dig a) then None
      else match s' with
           | b :: s'' => if is_dig b then Some ((a - 48) * 10 + (b - 48), s'') else if fixed then None else Some (a - 48, s')
           | [] => if fixed then None else Some (a - 48, s')
           end
  | [] => None
  end.

Definition validateTimeFormat (s : bytes) : option timeErr :=
  match getnum s false with
  | None => Some (CannotParse "15")
  | Some (hour, s) =>
      if decide (24 <= hour) then Some HourRange
      else match s with
           | 58 :: s =>
               match getnum s true with
               | None => Some (CannotParse "04")
               | Some (min, s) => if decide (60 <= min) then Some MinuteRange else match s with [] => None | _ => Some ExtraText end
               end
           | _ => Some (CannotParse ":")
           end
  end.

Inductive ruleErr :=
  | EmptyName | InvalidStart (e : timeErr) | InvalidEnd (e : timeErr) | InvalidDay (d : Z)
  | NegativeDownload | NegativeUpload | DuplicateName (n : bytes) | NotFound (n : bytes).

Definition bad_day (l : list Z) : option Z := find (fun d => negb (bool_decide (0 <= d <= 6))) l.

Definition validateRule (r : BandwidthScheduleRule) : option ruleErr :=
  if decide (ru_Name r = []) then Some EmptyName
  else match validateTimeFormat (StartTime r) with
  | Some e => Some (InvalidStart e)
  | None => match validateTimeFormat (EndTime r) with
  | Some e => Some (InvalidEnd e)
  | None => match bad_day (DaysOfWeek r) with
  | Some d => Some (InvalidDay d)
  | None => if decide (DownloadLimit r < 0) then Some NegativeDownload
            else if decide (UploadLimit r < 0) then Some NegativeUpload else None
  end end end.

(** A local time, as the rules see it. *)
Record clock := MkClock { Weekday : Z; Hour : Z; Minute : Z }.

Definition two_digits (n : Z) : bytes := [48 + n / 10; 48 + n mod 10].
(** [now.Format("15:04")]. *)
Definition Format (now : clock) : bytes := two_digits (Hour now) ++ 58 :: two_digits (Minute now).

Definition ruleMatches (r : BandwidthScheduleRule) (now : clock) : bool :=
  if negb (bool_decide (DaysOfWeek r = [])) && negb (bool_decide (Weekday now ∈ DaysOfWeek r)) then false
  else
    let currentTime := Format now in
    if decide (bytes_lt (EndTime r) (StartTime r))
    then bool_decide (bytes_le (StartTime r) currentTime) || bool_decide (bytes_lt currentTime (EndTime r))
    else bool_decide (bytes_le (StartTime r) currentTime) && bool_decide (bytes_lt currentTime (EndTime r)).

(** ** The scheduler

    [bs_pending] counts the evaluations started as goroutines that have not run,
    [bs_loops] the background goroutines, [bs_calls] the calls of the callback. *)
Abbreviation loc := Z.
Record BandwidthScheduler := MkScheduler {
  bs_enabled : bool; bs_rules : list loc; currentRule : option loc; bandwidthMgr : option BandwidthManager;
  bs_ticker : bool; updateCallback : bool; bs_calls : list (Z * Z); bs_pending : nat; bs_loops : nat
}.

Definition NewBandwidthScheduler (bm : option BandwidthManager) : BandwidthScheduler := MkScheduler false [] None bm false false [] 0 0.

Definition SetUpdateCallback (cb : bool) (bs : BandwidthScheduler) : BandwidthScheduler :=
  MkScheduler (bs_enabled bs) (bs_rules bs) (currentRule bs) (bandwidthMgr bs) (bs_ticker bs) cb (bs_calls bs) (bs_pending bs) (bs_loops bs).

(** The stop signal reaches a goroutine that is waiting for it ([waiting]) and is dropped otherwise. *)
Definition stopScheduler (waiting : bool) (bs : BandwidthScheduler) : BandwidthScheduler :=
  MkScheduler (bs_enabled bs) (bs_rules bs) (currentRule bs) (bandwidthMgr bs) false (updateCallback bs) (bs_calls bs) (bs_pending bs)
    (if waiting then Nat.pred (bs_loops bs) else bs_loops bs).

(** The goroutine evaluates at once. *)
Definition startScheduler (waiting : bool) (bs : BandwidthScheduler) : BandwidthScheduler :=
  let bs := if bs_ticker bs then stopScheduler waiting bs else bs in
  MkScheduler (bs_enabled bs) (bs_rules bs) (currentRule bs) (bandwidthMgr bs) true (updateCallback bs) (bs_calls bs)
    (S (bs_pending bs)) (S (bs_loops bs)).

Definition with_enabled (e : bool) (bs : BandwidthScheduler) : BandwidthScheduler :=
  MkScheduler e (bs_rules bs) (currentRule bs) (bandwidthMgr bs) (bs_ticker bs) (updateCallback bs) (bs_calls bs) (bs_pending bs) (bs_loops bs).

Definition SetEnabled (waiting enabled : bool) (bs : BandwidthScheduler) : BandwidthScheduler :=
  if eqb (bs_enabled bs) enabled then bs
  else if enabled then startScheduler waiting (with_enabled enabled bs) else stopScheduler waiting (with_enabled enabled bs).

Definition Stop (waiting : bool) (bs : BandwidthScheduler) : BandwidthScheduler := stopScheduler waiting (with_enabled false bs).

(** Changes the rules, and starts an evaluation when the scheduler runs. *)
Definition with_rules (rules : list loc) (bs : BandwidthScheduler) : BandwidthScheduler :=
  MkScheduler (bs_enabled bs) rules (currentRule bs) (bandwidthMgr bs) (bs_ticker bs) (updateCallback bs) (bs_calls bs)
    (if bs_enabled bs then S (bs_pending bs) else bs_pending bs) (bs_loops bs).

Section Heap.
Variable heap : loc -> BandwidthScheduleRule.

(** The index of the first rule of that name. *)
Fixpoint find_name (name : bytes) (rules : list loc) : option nat :=
  match rules with
  | [] => None
  | l :: rules' => if decide (ru_Name (heap l) = name) then Some O else option_map S (find_name name rules')
  end.

Definition AddRule (rule : loc) (bs : BandwidthScheduler) : BandwidthScheduler + ruleErr :=
  match validateRule (heap rule) with
  | Some e => inr e
  | None =>
      match find_name (ru_Name (heap rule)) (bs_rules bs) with
      | Some _ => inr (DuplicateName (ru_Name (heap rule)))
      | None => inl (with_rules (bs_rules bs ++ [rule]) bs)
      end
  end.

(** The last rule takes the place of the removed one. *)
Definition swap_remove (i : nat) (rules : list loc) : list loc :=
  match last rules with Some l => take (length rules - 1) (<[i := l]> rules) | None => rules end.

Definition RemoveRule (name : bytes) (bs : BandwidthScheduler) : BandwidthScheduler + ruleErr :=
  match find_name name (bs_rules bs) with
  | Some i => inl (with_rules (swap_remove i (bs_rules bs)) bs)
  | None => inr (NotFound name)
  end.

Definition UpdateRule (rule : loc) (bs : BandwidthScheduler) : BandwidthScheduler + ruleErr :=
  match validateRule (heap rule) with
  | Some e => inr e
  | None =>
      match find_name (ru_Name (heap rule)) (bs_rules bs) with
      | Some i => inl (with_rules (<[i := rule]> (bs_rules bs)) bs)
      | None => inr (NotFound (ru_Name (heap rule)))
      end
  end.

Definition GetRules (bs : BandwidthScheduler) : list BandwidthScheduleRule := map heap (bs_rules bs).
Definition GetCurrentRule (bs : BandwidthScheduler) : option BandwidthScheduleRule := option_map heap (currentRule bs).

(** The loop of [evaluateRules]. *)
Fixpoint best (now : clock) (rules : list loc) (bestRule : option loc) : option loc :=
  match rules with
  | [] => bestRule
  | l :: rules' =>
      let r := heap l in
      if negb (ru_Enabled r) then best now rules' bestRule
      else if ruleMatches r now then
        match bestRule with
        | None => best now rules' (Some l)
        | Some b => if decide (ru_Priority (heap b) < ru_Priority r) then best now rules' (Some l) else best now rules' bestRule
        end
      else best now rules' bestRule
  end.

Definition call (d u : Z) (bs : BandwidthScheduler) : BandwidthScheduler :=
  if updateCallback bs
  then MkScheduler (bs_enabled bs) (bs_rules bs) (currentRule bs) (bandwidthMgr bs) (bs_ticker bs) (updateCallback bs)
         (bs_calls bs ++ [(d, u)]) (bs_pending bs) (bs_loops bs)
  else bs.

Definition rule_limits (r : BandwidthScheduleRule) : SpeedLimits :=
  MkSpeed (DownloadLimit r) (bool_decide (0 < DownloadLimit r)) (UploadLimit r) (bool_decide (0 < UploadLimit r)).

Definition applyRule (t : Z) (rule : option loc) (bs : BandwidthScheduler) : BandwidthScheduler :=
  match rule with
  | None => call 0 0 bs
  | Some l =>
      let r := heap l in
      let bs := call (DownloadLimit r) (UploadLimit r) bs in
      MkScheduler (bs_enabled bs) (bs_rules bs) (currentRule bs)
        (option_map (manager_UpdateConfiguration t (rule_limits r)) (bandwidthMgr bs))
        (bs_ticker bs) (updateCallback bs) (bs_calls bs) (bs_pending bs) (bs_loops bs)
  end.

(** [t] is the same moment as [now], in nanoseconds. *)
Definition evaluateRules (now : clock) (t : Z) (bs : BandwidthScheduler) : BandwidthScheduler :=
  if negb (bs_enabled bs) then bs
  else
    let bestRule := best now (bs_rules bs) None in
    if decide (bestRule = currentRule bs) then bs
    else applyRule t bestRule
           (MkScheduler (bs_enabled bs) (bs_rules bs) bestRule (bandwidthMgr bs) (bs_ticker bs) (updateCallback bs) (bs_calls bs) (bs_pending bs) (bs_loops bs)).

(** The goroutine of a pending evaluation. *)
Definition run_pending (now : clock) (t : Z) (bs : BandwidthScheduler) : BandwidthScheduler :=
  let bs := evaluateRules now t bs in
  MkScheduler (bs_enabled bs) (bs_rules bs) (currentRule bs) (bandwidthMgr bs) (bs_ticker bs) (updateCallback bs) (bs_calls bs)
    (Nat.pred (bs_pending bs)) (bs_loops bs).
End Heap.
End Wild.

(** Half a second at 1000 bytes per second. *)
Example half_second : tokensToAdd (fun _ => 0) (Second / 2) (MkLimiter 1000 true 0 1000 0 0) = 500.
Proof. vm_compute. reflexivity. Qed.

End Bandwidth.
