(* ===== verification/BandwidthFacts.v ===== *)
(** * Properties of the bandwidth limits *)

From Stdlib Require Import SpecFloat.
From S2P Require Import Prelude Bandwidth.
Import Bandwidth.

Module BandwidthFacts.

(** ** Transfers

    One request after the other, each as soon as the one before was granted or
    its wait was over: when the last may go ahead. *)
Fixpoint transfer (wild : float -> Z) (sizes : list Z) (t : Z) (bl : BandwidthLimiter) : Z * BandwidthLimiter :=
  match sizes with
  | [] => (t, bl)
  | n :: sizes' =>
      let '(w, bl) := WaitForTokens wild t n bl in
      transfer wild sizes' (match w with Granted => t | Sleep d => t + d end) bl
  end.

Definition bucket (t : Z) : BandwidthLimiter := MkLimiter 1000 true 0 1000 t 10000000.

Lemma Sub_add t d : 0 <= d <= max_int64 -> Sub (t + d) t = d.
Proof. unfold Sub, max_int64. lia. Qed.
Lemma Sub_diag t : Sub t t = 0.
Proof. unfold Sub, max_int64. lia. Qed.

Lemma tokens_at wild t d : 0 <= d <= max_int64 -> tokensToAdd wild (t + d) (bucket t) = f_to_int64 wild (fmul (f_of_int 1000) (Seconds d)).
Proof. intros Hd. unfold tokensToAdd. cbn [bucket maxBytesPerSecond lastFill]. by rewrite Sub_add. Qed.

Lemma bucket_sleeps wild t : WaitForTokens wild t 1000 (bucket t) = (Sleep Second, bucket t).
Proof.
  unfold WaitForTokens. change (unlimited (bucket t)) with false. cbv iota. rewrite decide_False by lia. cbv zeta.
  unfold updateTokenBucket. change (unlimited (bucket t)) with false. cbv iota zeta.
  replace (tokensToAdd wild t (bucket t)) with 0 by (rewrite <- (Z.add_0_r t) at 1; rewrite tokens_at by (unfold max_int64; lia); vm_compute; reflexivity).
  vm_compute. reflexivity.
Qed.

Lemma bucket_grants wild t : WaitForTokens wild (t + Second) 1000 (bucket t) = (Granted, bucket (t + Second)).
Proof.
  unfold WaitForTokens. change (unlimited (bucket t)) with false. cbv iota. rewrite decide_False by lia. cbv zeta.
  unfold updateTokenBucket. change (unlimited (bucket t)) with false. cbv iota zeta.
  rewrite tokens_at by (unfold Second, max_int64; lia).
  replace (f_to_int64 wild (fmul (f_of_int 1000) (Seconds Second))) with 1000 by (vm_compute; reflexivity).
  change (i64 (tokens (bucket t) + 1000)) with 1000. cbn [bucket maxBytesPerSecond bl_enabled tokens fillRate].
  rewrite (decide_False (P := 1000 < 1000)) by lia. cbn [tokens]. rewrite decide_True by lia. done.
Qed.

(** ** Times of day *)
Definition hhmm (m : Z) : bytes := two_digits (m / 60) ++ 58 :: two_digits (m mod 60).
Definition minute_of (now : clock) : Z := Hour now * 60 + Minute now.
Definition clock_ok (now : clock) : Prop := 0 <= Hour now < 24 /\ 0 <= Minute now < 60.

Lemma Format_hhmm now : clock_ok now -> Format now = hhmm (minute_of now).
Proof.
  intros [Hh Hm]. unfold Format, hhmm, minute_of. rewrite (Z.add_comm (Hour now * 60)), Z.div_add, Z.mod_add by lia.
  by rewrite Z.div_small, Z.mod_small by lia.
Qed.

Lemma minute_range now : clock_ok now -> 0 <= minute_of now < 1440.
Proof. unfold clock_ok, minute_of. lia. Qed.

Lemma hhmm_steps : Forall (fun m => bytes_lt (hhmm m) (hhmm (m + 1))) (seqZ 0 1439).
Proof. apply (bool_decide_unpack _). vm_compute. exact I. Qed.

Lemma hhmm_lt a b : 0 <= a -> a < b -> b < 1440 -> bytes_lt (hhmm a) (hhmm b).
Proof.
  intros Ha Hab Hb. pose proof hhmm_steps as H. rewrite Forall_forall in H.
  assert (Hgen : forall n : nat, a + 1 + Z.of_nat n < 1440 -> bytes_lt (hhmm a) (hhmm (a + 1 + Z.of_nat n))).
  { induction n as [|n IH]; intros Hn.
    - rewrite Z.add_0_r. apply H, elem_of_seqZ. lia.
    - eapply bytes_lt_trans; [apply IH; lia|]. replace (a + 1 + Z.of_nat (S n)) with (a + 1 + Z.of_nat n + 1) by lia.
      apply H, elem_of_seqZ. lia. }
  specialize (Hgen (Z.to_nat (b - a - 1))). rewrite Z2Nat.id in Hgen by lia. replace (a + 1 + (b - a - 1)) with b in Hgen by lia. apply Hgen. lia.
Qed.

Lemma hhmm_cmp a b : 0 <= a < 1440 -> 0 <= b < 1440 -> bytes_cmp (hhmm a) (hhmm b) = (a ?= b).
Proof.
  intros Ha Hb. destruct (Z.compare_spec a b) as [->|Hlt|Hgt]; [by apply bytes_cmp_eq|by apply hhmm_lt; lia|].
  rewrite bytes_cmp_antisym. rewrite (hhmm_lt b a) by lia. done.
Qed.

Lemma hhmm_lt_iff a b : 0 <= a < 1440 -> 0 <= b < 1440 -> bytes_lt (hhmm a) (hhmm b) <-> a < b.
Proof. intros Ha Hb. unfold bytes_lt. by rewrite hhmm_cmp, Z.compare_lt_iff. Qed.
Lemma hhmm_le_iff a b : 0 <= a < 1440 -> 0 <= b < 1440 -> bytes_le (hhmm a) (hhmm b) <-> a <= b.
Proof. intros Ha Hb. unfold bytes_le. by rewrite hhmm_cmp, <- Z.compare_le_iff. Qed.

(** On which days a rule applies. *)
Definition day_ok (r : BandwidthScheduleRule) (now : clock) : Prop := DaysOfWeek r = [] \/ Weekday now ∈ DaysOfWeek r.

Lemma day_check r now : negb (bool_decide (DaysOfWeek r = [])) && negb (bool_decide (Weekday now ∈ DaysOfWeek r)) = false <-> day_ok r now.
Proof. unfold day_ok. destruct (bool_decide_reflect (DaysOfWeek r = [])), (bool_decide_reflect (Weekday now ∈ DaysOfWeek r)); cbn; split; try done; tauto. Qed.

Lemma ruleMatches_day r now P : (day_ok r now -> ruleMatches r now = true <-> P) -> ruleMatches r now = true <-> day_ok r now /\ P.
Proof.
  intros H. destruct (negb (bool_decide (DaysOfWeek r = [])) && negb (bool_decide (Weekday now ∈ DaysOfWeek r))) eqn:E.
  - split; [unfold ruleMatches; by rewrite E|]. intros [Hd%day_check _]. congruence.
  - apply day_check in E. rewrite H by done. tauto.
Qed.

(** ** The best rule *)
Section Best.
Context (heap : Z -> BandwidthScheduleRule) (now : clock).

Definition eligible (l : Z) : Prop := ru_Enabled (heap l) = true /\ ruleMatches (heap l) now = true.

(** The first of the rules with the highest priority among those that apply. *)
Definition is_best (rules : list Z) (b : option Z) : Prop :=
  match b with
  | None => forall l, l ∈ rules -> ~ eligible l
  | Some l => exists i, rules !! i = Some l /\ eligible l /\
      (forall j l', rules !! j = Some l' -> eligible l' -> ru_Priority (heap l') <= ru_Priority (heap l) /\
         ((j < i)%nat -> ru_Priority (heap l') < ru_Priority (heap l)))
  end.

Lemma is_best_snoc_skip done_ b l : is_best done_ b -> (eligible l -> exists l0, b = Some l0 /\ ru_Priority (heap l) <= ru_Priority (heap l0)) ->
  is_best (done_ ++ [l]) b.
Proof.
  destruct b as [l0|]; cbn.
  - intros (i & Hi & He & Hall) Hl. exists i. pose proof (lookup_lt_Some _ _ _ Hi) as Hlt. split; [by apply lookup_app_l_Some|].
    split; [done|]. intros j l' Hj He'. apply lookup_app_Some in Hj as [Hj|[Hge Hj]]; [by apply (Hall j)|].
    destruct (j - length done_)%nat eqn:E; [|done]. injection Hj as <-. destruct (Hl He') as (l1 & [= <-] & Hp). split; [done|lia].
  - intros Hall Hl l' Hin He. apply elem_of_app in Hin as [Hin|Hin]; [by apply (Hall l')|]. apply list_elem_of_singleton in Hin as ->.
    destruct (Hl He) as (l0 & [=] & _).
Qed.

Lemma is_best_snoc_new done_ b l : is_best done_ b -> eligible l -> (forall l0, b = Some l0 -> ru_Priority (heap l0) < ru_Priority (heap l)) ->
  is_best (done_ ++ [l]) (Some l).
Proof.
  intros Hb He Hl. exists (length done_). split; [by rewrite lookup_app_r, Nat.sub_diag|]. split; [done|]. intros j l' Hj He'.
  apply lookup_app_Some in Hj as [Hj|[Hge Hj]].
  - assert (ru_Priority (heap l') < ru_Priority (heap l)); [|lia]. destruct b as [l0|]; cbn in Hb.
    + destruct Hb as (i & Hi & He0 & Hall). destruct (Hall j l' Hj He') as [Hp _]. specialize (Hl l0 eq_refl). lia.
    + exfalso. apply (Hb l'); [by eapply list_elem_of_lookup_2|done].
  - destruct (j - length done_)%nat eqn:E; [|done]. injection Hj as <-. split; [done|lia].
Qed.

Lemma best_spec rules done_ b : is_best done_ b -> is_best (done_ ++ rules) (best heap now rules b).
Proof.
  revert done_ b. induction rules as [|l rules IH]; intros done_ b Hb; cbn [best]; [by rewrite app_nil_r|].
  replace (done_ ++ l :: rules) with ((done_ ++ [l]) ++ rules) by (by rewrite <- app_assoc). cbv zeta.
  destruct (ru_Enabled (heap l)) eqn:E1; cbn [negb]; [|apply IH, is_best_snoc_skip; [done|intros [? _]; congruence]].
  destruct (ruleMatches (heap l) now) eqn:E2; [|apply IH, is_best_snoc_skip; [done|intros [_ ?]; congruence]].
  destruct b as [l0|]; [|apply IH, (is_best_snoc_new _ None); [done|by split|done]].
  case_decide as Ep; apply IH; [by apply (is_best_snoc_new _ (Some l0)); [done|split|intros ? [= <-]]|].
  apply is_best_snoc_skip; [done|]. intros _. exists l0. split; [done|lia].
Qed.
End Best.

Lemma evaluate_eq wild heap now t bs : bs_enabled bs = true ->
  let bs' := evaluateRules wild heap now t bs in
  let b := best heap now (bs_rules bs) None in
  bs_enabled bs' = true /\ bs_rules bs' = bs_rules bs /\ currentRule bs' = b /\
  bandwidthMgr bs' = match b with
    | Some l => if decide (b = currentRule bs) then bandwidthMgr bs
                else option_map (manager_UpdateConfiguration wild t (rule_limits (heap l))) (bandwidthMgr bs)
    | None => bandwidthMgr bs
    end.
Proof.
  intros He. cbv zeta. unfold evaluateRules. rewrite He. cbn [negb]. cbv zeta. case_decide as E.
  - split_and!; [done..|]. by destruct (best _ _ _ _).
  - destruct (best heap now (bs_rules bs) None) as [l|]; unfold applyRule, call; cbn [updateCallback]; destruct (updateCallback bs); cbn; done.
Qed.

(** ** Properties *)

(** a saturated limiter passes twice its limit. Waiting spends the tokens
    that arrive during the wait, but the bucket is filled again for the same
    time: a client of a limit of 1000 bytes per second that keeps asking for
    1000 bytes gets [2 * n] of them granted in [n] seconds. *)
Theorem limiter_double_rate wild n t : transfer wild (replicate (2 * n) 1000) t (bucket t) = (t + Z.of_nat n * Second, bucket (t + Z.of_nat n * Second)).
Proof.
  revert t. induction n as [|n IH]; intros t; [cbn; by rewrite Z.mul_0_l, Z.add_0_r|].
  replace (2 * S n)%nat with (S (S (2 * n))) by lia. cbn [replicate transfer]. rewrite bucket_sleeps, bucket_grants, IH.
  replace (t + Second + Z.of_nat n * Second) with (t + Z.of_nat (S n) * Second) by lia. done.
Qed.

(** a rule with zero-padded times applies in its window. On its days it
    applies from the start to before the end, and through midnight when the
    end is the earlier of the two. *)
Theorem rule_window r now s e :
  0 <= s < 1440 -> 0 <= e < 1440 -> clock_ok now -> StartTime r = hhmm s -> EndTime r = hhmm e ->
  ruleMatches r now = true <->
  day_ok r now /\ (if decide (s <= e) then s <= minute_of now < e else s <= minute_of now \/ minute_of now < e).
Proof.
  intros Hs He Hc Es Ee. pose proof (minute_range now Hc) as Hm. apply ruleMatches_day. intros Hd. unfold ruleMatches.
  rewrite (proj2 (day_check r now) Hd).
  cbv zeta. rewrite Es, Ee, Format_hhmm by done. case_decide as E; rewrite hhmm_lt_iff in E by done.
  - rewrite decide_False by lia. rewrite orb_true_iff, !bool_decide_eq_true, hhmm_lt_iff, hhmm_le_iff by done. done.
  - rewrite decide_True by lia. rewrite andb_true_iff, !bool_decide_eq_true, hhmm_lt_iff, hhmm_le_iff by done. done.
Qed.

(** the start of a rule is ignored when its hour is written with one digit.
    [validateRule] accepts such a time, but times are compared as texts: with
    the start [h:mm] for an hour from 3 to 9 the rule applies from midnight to
    its end. *)
Theorem unpadded_start_ignored r now h mm e :
  3 <= h <= 9 -> 0 <= mm < 60 -> 0 <= e < 1440 -> clock_ok now ->
  StartTime r = 48 + h :: 58 :: two_digits mm -> EndTime r = hhmm e ->
  validateTimeFormat (StartTime r) = None /\ (ruleMatches r now = true <-> day_ok r now /\ minute_of now < e).
Proof.
  intros Hh Hmm He Hc Es Ee. pose proof (minute_range now Hc) as Hm. split.
  { rewrite Es. assert (Hv : Forall (fun h => Forall (fun mm => validateTimeFormat (48 + h :: 58 :: two_digits mm) = None) (seqZ 0 60)) (seqZ 3 7)).
    { repeat (constructor; [repeat (constructor; [vm_compute; reflexivity|]); constructor|]). constructor. }
    rewrite Forall_forall in Hv. specialize (Hv h). rewrite Forall_forall in Hv. apply Hv; apply elem_of_seqZ; lia. }
  apply ruleMatches_day. intros Hd. unfold ruleMatches.
  rewrite (proj2 (day_check r now) Hd).
  assert (Hfirst : forall m, 0 <= m < 1440 -> bytes_lt (hhmm m) (StartTime r)).
  { intros m Hr. rewrite Es. unfold bytes_lt, hhmm, two_digits. cbn [app bytes_cmp].
    assert (0 <= m / 60 / 10 < 3) by (split; [apply Z.div_pos; [apply Z.div_pos; lia|lia]|rewrite Z.div_div by lia; apply Z.div_lt_upper_bound; lia]).
    rewrite (proj2 (Z.compare_lt_iff _ _)) by lia. done. }
  cbv zeta. rewrite Ee, Format_hhmm by done. rewrite decide_True by (by apply Hfirst). rewrite orb_true_iff, !bool_decide_eq_true, hhmm_lt_iff by done.
  split; [|tauto]. intros [Hle|]; [|done]. exfalso. specialize (Hfirst _ Hm). unfold bytes_lt in Hfirst. apply Hle.
  rewrite bytes_cmp_antisym, Hfirst. done.
Qed.

(** the scheduler applies the best rule. An evaluation makes the current
    rule the first of the enabled, matching rules with the highest priority, or
    none when none matches, and calls the callback with its limits exactly when
    the current rule changes. *)
Theorem evaluate_selects_best wild heap now t bs : bs_enabled bs = true ->
  let bs' := evaluateRules wild heap now t bs in
  is_best heap now (bs_rules bs) (currentRule bs') /\ bs_rules bs' = bs_rules bs /\
  bs_calls bs' = bs_calls bs ++
    (if bool_decide (currentRule bs' = currentRule bs) || negb (updateCallback bs) then []
     else [match currentRule bs' with Some l => (DownloadLimit (heap l), UploadLimit (heap l)) | None => (0, 0) end]).
Proof.
  intros He bs'. pose proof (best_spec heap now (bs_rules bs) [] None) as Hb. cbn [app] in Hb.
  assert (Hbest : is_best heap now (bs_rules bs) (best heap now (bs_rules bs) None)) by (apply Hb; intros l Hl; by apply elem_of_nil in Hl).
  unfold bs', evaluateRules. rewrite He. cbn [negb]. cbv zeta. case_decide as E.
  - rewrite <- E. rewrite bool_decide_true by done. cbn [orb]. by rewrite app_nil_r.
  - destruct (best heap now (bs_rules bs) None) as [l|]; unfold applyRule, call; cbn [updateCallback];
      destruct (updateCallback bs); cbn; rewrite bool_decide_false by done; cbn; rewrite ?app_nil_r; done.
Qed.

(** the limits of a rule outlive it. When no rule matches any more, the
    evaluation clears the current rule but leaves the bandwidth manager alone:
    it still enforces the limits of the rule that has ended. *)
Theorem limits_outlive_rule wild heap now1 t1 now2 t2 bs bm l :
  bs_enabled bs = true -> bandwidthMgr bs = Some bm -> currentRule bs <> Some l ->
  best heap now1 (bs_rules bs) None = Some l -> best heap now2 (bs_rules bs) None = None ->
  let bs' := evaluateRules wild heap now2 t2 (evaluateRules wild heap now1 t1 bs) in
  currentRule bs' = None /\
  exists bm', bandwidthMgr bs' = Some bm' /\
    GetConfiguration (downloadLimiter bm') = (DownloadLimit (heap l), bool_decide (0 < DownloadLimit (heap l))) /\
    GetConfiguration (uploadLimiter bm') = (UploadLimit (heap l), bool_decide (0 < UploadLimit (heap l))).
Proof.
  intros He Hbm Hc H1 H2 bs'. assert (Hcfg : forall now n e bl, GetConfiguration (UpdateConfiguration wild now n e bl) = (n, e)).
  { intros now n e bl. unfold UpdateConfiguration, updateTokenBucket, GetConfiguration. destruct (unlimited _); done. }
  destruct (evaluate_eq wild heap now1 t1 bs He) as (E1 & R1 & C1 & M1). set (bs1 := evaluateRules wild heap now1 t1 bs) in *.
  destruct (evaluate_eq wild heap now2 t2 bs1 E1) as (E2 & R2 & C2 & M2). rewrite R1, H2 in *.
  fold bs' in C2, M2. split; [done|]. rewrite M2, M1, H1, decide_False, Hbm by congruence. eexists. split; [done|].
  cbn [manager_UpdateConfiguration downloadLimiter uploadLimiter]. by rewrite !Hcfg.
Qed.

(** ** Witnesses *)
Definition day_rule : BandwidthScheduleRule := MkRule (bs "day") [1; 2] (hhmm 540) (hhmm 1020) 1000 500 1 true.
Definition short_rule : BandwidthScheduleRule := MkRule (bs "short") [] (bs "9:00") (hhmm 1020) 2000 500 2 true.
Definition demo_heap (l : Z) : BandwidthScheduleRule := if decide (l = 1) then day_rule else short_rule.
Definition demo_scheduler : BandwidthScheduler :=
  MkScheduler true [1; 2] None (Some (NewBandwidthManager 0 (MkSpeed 0 false 0 false))) true true [] 0 1.

Lemma rule_window_witness : ruleMatches day_rule (MkClock 1 12 30) = true /\ ruleMatches day_rule (MkClock 1 8 59) = false.
Proof.
  split.
  - apply (rule_window day_rule (MkClock 1 12 30) 540 1020); [lia|lia|split; cbn; lia|reflexivity|reflexivity|].
    split; [right; left|]. vm_compute. split; [discriminate|reflexivity].
  - apply not_true_iff_false. rewrite (rule_window day_rule (MkClock 1 8 59) 540 1020); [|lia|lia|split; cbn; lia|reflexivity|reflexivity].
    intros [_ H]. vm_compute in H. destruct H as [H _]. apply H. reflexivity.
Defined.

(** The rule from 9:00 to 17:00 applies at one in the morning. *)
Lemma unpadded_start_ignored_witness : validateRule short_rule = None /\ ruleMatches short_rule (MkClock 3 1 0) = true.
Proof.
  destruct (unpadded_start_ignored short_rule (MkClock 3 1 0) 9 0 1020) as [_ H]; [lia|lia|lia|split; cbn; lia|reflexivity|reflexivity|].
  split; [vm_compute; reflexivity|]. apply H. split; [left; reflexivity|]. vm_compute. reflexivity.
Defined.

Lemma evaluate_selects_best_witness :
  is_best demo_heap (MkClock 1 12 0) [1; 2] (currentRule (evaluateRules (fun _ => 0) demo_heap (MkClock 1 12 0) 7 demo_scheduler)) /\
  currentRule (evaluateRules (fun _ => 0) demo_heap (MkClock 1 12 0) 7 demo_scheduler) = Some 2.
Proof.
  split; [exact (proj1 (evaluate_selects_best (fun _ => 0) demo_heap (MkClock 1 12 0) 7 demo_scheduler eq_refl))|vm_compute; reflexivity].
Defined.

(** After 17:00 no rule applies and the limit of 2000 bytes stays. *)
Lemma limits_outlive_rule_witness :
  exists bm', bandwidthMgr (evaluateRules (fun _ => 0) demo_heap (MkClock 1 18 0) 9 (evaluateRules (fun _ => 0) demo_heap (MkClock 1 12 0) 7 demo_scheduler)) = Some bm' /\
    GetConfiguration (downloadLimiter bm') = (2000, true).
Proof.
  destruct (limits_outlive_rule (fun _ => 0) demo_heap (MkClock 1 12 0) 7 (MkClock 1 18 0) 9 demo_scheduler
    (NewBandwidthManager 0 (MkSpeed 0 false 0 false)) 2) as (_ & bm' & E & Hd & _);
    [reflexivity|reflexivity|discriminate|vm_compute; reflexivity|vm_compute; reflexivity|].
  exists bm'. split; [exact E|]. rewrite Hd. reflexivity.
Defined.

End BandwidthFacts.
