(* ===== verification/PexManager.v ===== *)
(** * Peer exchange of the daemon

    Models [src/rpc/pex_manager.go]: the peers known per torrent, the messages
    generated from them and the messages received.

    The order in which Go enumerates a map is a parameter. The callback is
    called by the manager itself: the model keeps the calls. The clock is an
    argument; the zero time is [None], before every clock value. A nil [net.IP]
    is the empty list. *)

From S2P Require Import Prelude Strconv Sha1 Hash Net Bencode BencodeFacts BencodeTyped Pieces PeerMessage Extension.
From S2P Require Import NetFacts.
Import Strconv Hash Net Extension.

Module PexManager.

Record PEXPeer := MkPEXPeer { pp_IP : bytes; pp_Port : Z; pp_Added : Z; pp_LastSeen : Z; pp_Flags : Z }.

Record PEXManager := MkPEXManager {
  px_enabled : bool;
  px_peers : gmap bytes (gmap bytes PEXPeer);
  px_lastUpdate : gmap bytes Z;
  px_interval : Z
}.

Definition second : Z := 1000000000.
Definition NewPEXManager (enabled : bool) : PEXManager := MkPEXManager enabled ∅ ∅ (60 * second).

Definition SetEnabled (enabled : bool) (pex : PEXManager) : PEXManager :=
  if enabled then MkPEXManager enabled (px_peers pex) (px_lastUpdate pex) (px_interval pex)
  else MkPEXManager enabled ∅ ∅ (px_interval pex).

(** [string(rune(port))]: the UTF-8 encoding of a code point, and that of
    U+FFFD for a surrogate. *)
Definition rune_string (r : Z) : bytes :=
  let r := if decide (55296 <= r <= 57343) then 65533 else r in
  if decide (r < 128) then [r]
  else if decide (r < 2048) then [Z.lor 192 (Z.shiftr r 6); Z.lor 128 (Z.land r 63)]
  else [Z.lor 224 (Z.shiftr r 12); Z.lor 128 (Z.land (Z.shiftr r 6) 63); Z.lor 128 (Z.land r 63)].

Definition makePeerID (ip : bytes) (port : Z) : bytes := IP_String ip ++ bs ":" ++ rune_string port.

Definition isIPv6 (ip : bytes) : bool := match To4 ip, To16 ip with None, Some _ => true | _, _ => false end.

(** [IsLoopback], [IsPrivate] and [IsMulticast] of [net.IP]. *)
Definition byte_at (i : nat) (ip : bytes) : Z := default 0 (ip !! i).
Definition IsLoopback (ip : bytes) : bool :=
  match To4 ip with Some ip4 => bool_decide (byte_at 0 ip4 = 127) | None => bool_decide (ip = IPv6loopback) end.
Definition IsPrivate (ip : bytes) : bool :=
  match To4 ip with
  | Some ip4 => bool_decide (byte_at 0 ip4 = 10)
      || bool_decide (byte_at 0 ip4 = 172 /\ Z.land (byte_at 1 ip4) 240 = 16)
      || bool_decide (byte_at 0 ip4 = 192 /\ byte_at 1 ip4 = 168)
  | None => bool_decide (len ip = 16 /\ Z.land (byte_at 0 ip) 254 = 252)
  end.
Definition IsMulticast (ip : bytes) : bool :=
  match To4 ip with
  | Some ip4 => bool_decide (Z.land (byte_at 0 ip4) 240 = 224)
  | None => bool_decide (len ip = 16 /\ byte_at 0 ip = 255)
  end.

Definition isValidIP (ip : bytes) : bool :=
  if decide (ip = []) then false else negb (IsLoopback ip) && negb (IsPrivate ip) && negb (IsMulticast ip).

Definition with_peers (pex : PEXManager) (peers : gmap bytes (gmap bytes PEXPeer)) : PEXManager :=
  MkPEXManager (px_enabled pex) peers (px_lastUpdate pex) (px_interval pex).

Definition AddPeer (now : Z) (torrentID ip : bytes) (port flags : Z) (pex : PEXManager) : PEXManager :=
  if negb (px_enabled pex) then pex
  else
    let peerID := makePeerID ip port in
    let tp := default ∅ (px_peers pex !! torrentID) in
    let peer := match tp !! peerID with
      | Some p => MkPEXPeer (pp_IP p) (pp_Port p) (pp_Added p) now flags
      | None => MkPEXPeer ip port now now flags
      end in
    with_peers pex (<[torrentID := <[peerID := peer]> tp]> (px_peers pex)).

Definition RemovePeer (torrentID ip : bytes) (port : Z) (pex : PEXManager) : PEXManager :=
  if negb (px_enabled pex) then pex
  else match px_peers pex !! torrentID with
       | None => pex
       | Some tp =>
           let tp := delete (makePeerID ip port) tp in
           with_peers pex (if decide (size tp = 0%nat) then delete torrentID (px_peers pex) else <[torrentID := tp]> (px_peers pex))
       end.

(** ** Messages sent *)
Definition empty_msg : UtPexExtendedMsg := MkUtPex [] [] [] [] [] [].

Definition addPeerToMessage (isAdded : bool) (msg : UtPexExtendedMsg) (peer : PEXPeer) : UtPexExtendedMsg :=
  let c := MkCompactPeer (pp_IP peer) (pp_Port peer) in
  if isIPv6 (pp_IP peer) then
    if isAdded then MkUtPex (px_Added msg) (px_AddedF msg) (px_Added6 msg ++ [c]) (px_Added6F msg ++ [pp_Flags peer]) (px_Dropped msg) (px_Dropped6 msg)
    else MkUtPex (px_Added msg) (px_AddedF msg) (px_Added6 msg) (px_Added6F msg) (px_Dropped msg) (px_Dropped6 msg ++ [c])
  else
    if isAdded then MkUtPex (px_Added msg ++ [c]) (px_AddedF msg ++ [pp_Flags peer]) (px_Added6 msg) (px_Added6F msg) (px_Dropped msg) (px_Dropped6 msg)
    else MkUtPex (px_Added msg) (px_AddedF msg) (px_Added6 msg) (px_Added6F msg) (px_Dropped msg ++ [c]) (px_Dropped6 msg).

Section Range.
(** The order in which the entries of a map are visited. *)
Variable range : gmap bytes PEXPeer -> list (bytes * PEXPeer).

(** [peer.Added.After(lastUpdate)]. *)
Definition is_new (lastUpdate : option Z) (peer : PEXPeer) : bool :=
  match lastUpdate with Some t => bool_decide (t < pp_Added peer) | None => true end.

Definition addNewPeersToMessage (msg : UtPexExtendedMsg) (tp : gmap bytes PEXPeer) (lastUpdate : option Z) : UtPexExtendedMsg :=
  fold_left (addPeerToMessage true) (filter (fun p => is_new lastUpdate p) (range tp).*2) msg.

Definition five_minutes : Z := 5 * 60 * second.
Definition is_stale (now : Z) (peer : PEXPeer) : bool := bool_decide (pp_LastSeen peer < now - five_minutes).

Definition cleanup_step (now : Z) (s : UtPexExtendedMsg * gmap bytes PEXPeer) (entry : bytes * PEXPeer) : UtPexExtendedMsg * gmap bytes PEXPeer :=
  if is_stale now entry.2 then (addPeerToMessage false s.1 entry.2, delete entry.1 s.2) else s.

(** The map may lose entries while it is enumerated: each entry is visited
    at most once, and all that are not deleted before are visited. *)
Definition cleanupExpiredPeers (msg : UtPexExtendedMsg) (tp : gmap bytes PEXPeer) (now : Z) : UtPexExtendedMsg * gmap bytes PEXPeer :=
  fold_left (cleanup_step now) (range tp) (msg, tp).

Definition with_lastUpdate (pex : PEXManager) (peers : gmap bytes (gmap bytes PEXPeer)) (torrentID : bytes) (now : Z) : PEXManager :=
  MkPEXManager (px_enabled pex) peers (<[torrentID := now]> (px_lastUpdate pex)) (px_interval pex).

Definition GetPEXMessage (now : Z) (torrentID : bytes) (pex : PEXManager) : option UtPexExtendedMsg * PEXManager :=
  if negb (px_enabled pex) then (None, pex)
  else
    let lastUpdate := px_lastUpdate pex !! torrentID in
    match px_peers pex !! torrentID with
    | None => (Some empty_msg, with_lastUpdate pex (px_peers pex) torrentID now)
    | Some tp =>
        let msg := addNewPeersToMessage empty_msg tp lastUpdate in
        let '(msg, tp) := cleanupExpiredPeers msg tp now in
        (Some msg, with_lastUpdate pex (<[torrentID := tp]> (px_peers pex)) torrentID now)
    end.

Definition ShouldSendPEX (now : Z) (torrentID : bytes) (pex : PEXManager) : bool :=
  if negb (px_enabled pex) then false
  else match px_lastUpdate pex !! torrentID with
       | None => true
       | Some t => bool_decide (px_interval pex <= now - t)
       end.

Definition has_peers (msg : UtPexExtendedMsg) : bool :=
  bool_decide (px_Added msg <> []) || bool_decide (px_Added6 msg <> []) || bool_decide (px_Dropped msg <> []) || bool_decide (px_Dropped6 msg <> []).

(** [torrents] are the IDs in the order the map gives them; the second part of
    the result are the calls of the callback. *)
Fixpoint tick_loop (now : Z) (torrents : list bytes) (pex : PEXManager) : PEXManager * list (bytes * UtPexExtendedMsg) :=
  match torrents with
  | [] => (pex, [])
  | id :: torrents' =>
      let '(msg, pex) := GetPEXMessage now id pex in
      let '(pex, calls) := tick_loop now torrents' pex in
      (pex, match msg with Some m => if has_peers m then (id, m) :: calls else calls | None => calls end)
  end.

Definition processPEXTick (now : Z) (ids : gmap bytes (gmap bytes PEXPeer) -> list bytes) (pex : PEXManager)
    : PEXManager * list (bytes * UtPexExtendedMsg) :=
  tick_loop now (filter (fun id => ShouldSendPEX now id pex) (ids (px_peers pex))) pex.

Definition GetAllPeers (torrentID : bytes) (pex : PEXManager) : list PEXPeer :=
  match px_peers pex !! torrentID with Some tp => (range tp).*2 | None => [] end.
End Range.

(** ** Messages received *)

(** The state and the calls of the callback so far. *)
Definition processValidPeer (now : Z) (torrentID : bytes) (flags : bytes) (index : nat) (peer : CompactPeer)
    (s : PEXManager * list (bytes * bytes * Z)) : PEXManager * list (bytes * bytes * Z) :=
  let '(pex, calls) := s in
  if isValidIP (cp_IP peer)
  then (AddPeer now torrentID (cp_IP peer) (cp_Port peer) (default 0 (flags !! index)) pex, calls ++ [(torrentID, cp_IP peer, cp_Port peer)])
  else s.

(** [processAddedIPv4Peers], [processAddedIPv6Peers], from index [i] on. *)
Fixpoint processAddedPeers (now : Z) (torrentID : bytes) (flags : bytes) (i : nat) (added : list CompactPeer)
    (s : PEXManager * list (bytes * bytes * Z)) : PEXManager * list (bytes * bytes * Z) :=
  match added with
  | [] => s
  | peer :: added' => processAddedPeers now torrentID flags (S i) added' (processValidPeer now torrentID flags i peer s)
  end.

Definition processDroppedPeers (torrentID : bytes) (dropped dropped6 : list CompactPeer) (pex : PEXManager) : PEXManager :=
  fold_left (fun pex p => if decide (cp_IP p = []) then pex else RemovePeer torrentID (cp_IP p) (cp_Port p) pex) (dropped ++ dropped6) pex.

Definition ProcessPEXMessage (now : Z) (torrentID : bytes) (msg : UtPexExtendedMsg) (pex : PEXManager) : PEXManager * list (bytes * bytes * Z) :=
  if negb (px_enabled pex) then (pex, [])
  else
    let s := processAddedPeers now torrentID (px_AddedF msg) 0 (px_Added msg) (pex, []) in
    let '(pex, calls) := processAddedPeers now torrentID (px_Added6F msg) 0 (px_Added6 msg) s in
    (processDroppedPeers torrentID (px_Dropped msg) (px_Dropped6 msg) pex, calls).

Definition GetPeerCount (torrentID : bytes) (pex : PEXManager) : Z :=
  match px_peers pex !! torrentID with Some tp => Z.of_nat (size tp) | None => 0 end.

Definition CleanupTorrent (torrentID : bytes) (pex : PEXManager) : PEXManager :=
  MkPEXManager (px_enabled pex) (delete torrentID (px_peers pex)) (delete torrentID (px_lastUpdate pex)) (px_interval pex).

Record PEXStats := MkPEXStats { ps_enabled : bool; ps_total_peers : Z; ps_tracked_torrents : Z; ps_interval_seconds : Z }.
Definition GetStats (pex : PEXManager) : PEXStats :=
  MkPEXStats (px_enabled pex) (map_fold (fun _ tp n => Z.of_nat (size tp) + n) 0 (px_peers pex)) (Z.of_nat (size (px_peers pex)))
    (Z.quot (px_interval pex) second).

End PexManager.

(** * Properties of the peer exchange of the daemon *)

Import Strconv Hash Net NetFacts Extension PexManager.

Module PexManagerFacts.

(** ** Peer IDs *)
Definition surrogate (port : Z) : Prop := 55296 <= port <= 57343.

(** One, two or three bytes; what the last ones look like. *)
Inductive rune_shape (port : Z) : bytes -> Prop :=
  | Rune1 : 0 <= port < 128 -> rune_shape port [port]
  | Rune2 a b : 192 <= a < 224 -> 128 <= b < 192 -> port = (a - 192) * 64 + (b - 128) -> rune_shape port [a; b]
  | Rune3 a b c : 224 <= a < 240 -> 128 <= b < 192 -> 128 <= c < 192 -> port = (a - 224) * 4096 + (b - 128) * 64 + (c - 128) -> rune_shape port [a; b; c].

Lemma lor_high x y k : 0 <= k -> 0 <= y < 2 ^ k -> Z.lor (x * 2 ^ k) y = x * 2 ^ k + y.
Proof.
  intros Hk Hy. pose proof (Z.add_lor_land (x * 2 ^ k) y) as Hl. enough (Z.land (x * 2 ^ k) y = 0) by lia.
  replace y with (Z.land y (Z.ones k)) by (rewrite Z.land_ones by done; by apply Z.mod_small).
  rewrite (Z.land_comm y), Z.land_assoc, Z.land_ones, Z.mod_mul by lia. apply Z.land_0_l.
Qed.

Lemma rune_string_shape port : 0 <= port < 65536 -> ~ surrogate port -> rune_shape port (rune_string port).
Proof.
  intros Hp Hs. unfold rune_string, surrogate in *. rewrite (decide_False (P := 55296 <= port <= 57343)) by done. cbv zeta.
  assert (E63 : forall x, Z.land x 63 = x mod 64) by (intros x; change 63 with (Z.ones 6); rewrite Z.land_ones by lia; done).
  assert (E128 : forall x, 0 <= x < 64 -> Z.lor 128 x = 128 + x) by (intros x Hx; apply (lor_high 2 x 6); lia).
  rewrite !E63, !Z.shiftr_div_pow2 by lia. change (2 ^ 6) with 64. change (2 ^ 12) with 4096.
  pose proof (Z.mod_pos_bound port 64 ltac:(lia)). pose proof (Z.mod_pos_bound (port / 64) 64 ltac:(lia)).
  pose proof (Z.div_mod port 64 ltac:(lia)). pose proof (Z.div_mod (port / 64) 64 ltac:(lia)) as Hd. rewrite (Z.div_div port 64 64) in Hd by lia.
  change (64 * 64) with 4096 in Hd. rewrite !E128 by lia. case_decide; [by constructor; lia|]. case_decide.
  - assert (2 <= port / 64 < 32) by (split; [apply Z.div_le_lower_bound; lia|apply Z.div_lt_upper_bound; lia]).
    replace (Z.lor 192 (port / 64)) with (192 + port / 64) by (symmetry; apply (lor_high 6 (port / 64) 5); lia). constructor; lia.
  - assert (0 <= port / 4096 < 16) by (split; [apply Z.div_pos; lia|apply Z.div_lt_upper_bound; lia]).
    replace (Z.lor 224 (port / 4096)) with (224 + port / 4096) by (symmetry; apply (lor_high 14 (port / 4096) 4); lia). constructor; lia.
Qed.

(** The encoding can be read from its end. *)
Lemma rune_suffix a b p q r s : rune_shape p r -> rune_shape q s -> a ++ r = b ++ s -> a = b /\ p = q.
Proof.
  intros Hr Hs E. apply (f_equal (@rev Z)) in E. rewrite !rev_app_distr in E.
  destruct Hr, Hs; cbn in E; injection E; intros; try lia; subst; (split; [|lia]);
    match goal with H : rev a = rev b |- _ => by rewrite <- (rev_involutive a), H, rev_involutive end.
Qed.

(** Addresses in their shortest form. *)
Definition short_ip (ip : bytes) : Prop := bytes_ok ip /\ (length ip = 4%nat \/ length ip = 16%nat /\ To4 ip = None).

Lemma IP_String_inj ip ip' : short_ip ip -> short_ip ip' -> IP_String ip = IP_String ip' -> ip = ip'.
Proof.
  assert (Hmap : forall ip : bytes, length ip = 4%nat -> To4 (v4InV6Prefix ++ ip) = Some ip).
  { intros x Hx. unfold To4, FastSet.To4, len. rewrite length_app, Hx. cbn [length v4InV6Prefix]. rewrite decide_False by done. by rewrite decide_True. }
  intros [B [L|[L N]]] [B' [L'|[L' N']]] E.
  - pose proof (ParseIP_v4 ip L B) as H1. rewrite E, (ParseIP_v4 ip' L' B') in H1. apply (inj Some), app_inv_head in H1. done.
  - pose proof (ParseIP_v4 ip L B) as H1. rewrite E, (ParseIP_v6 ip' L' B' N') in H1. apply (inj Some) in H1. subst ip'. by rewrite Hmap in N'.
  - pose proof (ParseIP_v6 ip L B N) as H1. rewrite E, (ParseIP_v4 ip' L' B') in H1. apply (inj Some) in H1. subst ip. by rewrite Hmap in N.
  - pose proof (ParseIP_v6 ip L B N) as H1. rewrite E, (ParseIP_v6 ip' L' B' N') in H1. by apply (inj Some) in H1.
Qed.

(** ** Messages *)
Section Range.
Context (range : gmap bytes PEXPeer -> list (bytes * PEXPeer)) (Hrange : forall m, range m ≡ₚ map_to_list m).

Definition compact (p : PEXPeer) : CompactPeer := MkCompactPeer (pp_IP p) (pp_Port p).

(** All peers announced by a message. *)
Definition announced (msg : UtPexExtendedMsg) : list CompactPeer := px_Added msg ++ px_Added6 msg.
Definition dropped (msg : UtPexExtendedMsg) : list CompactPeer := px_Dropped msg ++ px_Dropped6 msg.

Lemma add_announced msg p : announced (addPeerToMessage true msg p) ≡ₚ announced msg ++ [compact p] /\ dropped (addPeerToMessage true msg p) = dropped msg.
Proof.
  unfold addPeerToMessage, announced, dropped. destruct (isIPv6 _); cbn; split; try done; [by rewrite <- app_assoc|].
  rewrite <- !app_assoc. apply Permutation_app_head, Permutation_app_comm.
Qed.
Lemma add_dropped msg p : dropped (addPeerToMessage false msg p) ≡ₚ dropped msg ++ [compact p] /\ announced (addPeerToMessage false msg p) = announced msg.
Proof.
  unfold addPeerToMessage, announced, dropped. destruct (isIPv6 _); cbn; split; try done; [by rewrite <- app_assoc|].
  rewrite <- !app_assoc. apply Permutation_app_head, Permutation_app_comm.
Qed.

Lemma fold_announced ps msg : announced (fold_left (addPeerToMessage true) ps msg) ≡ₚ announced msg ++ map compact ps /\
  dropped (fold_left (addPeerToMessage true) ps msg) = dropped msg.
Proof.
  revert msg. induction ps as [|p ps IH]; intros msg; cbn [fold_left map]; [by rewrite app_nil_r|].
  destruct (IH (addPeerToMessage true msg p)) as [I1 I2], (add_announced msg p) as [A1 A2].
  rewrite I1, I2, A1, A2, <- app_assoc. done.
Qed.

(** Expired peers are announced as dropped and forgotten. *)
Lemma cleanup_spec (now : Z) (entries : list (bytes * PEXPeer)) (msg : UtPexExtendedMsg) (tp : gmap bytes PEXPeer) :
  let '(msg', tp') := fold_left (cleanup_step now) entries (msg, tp) in
  announced msg' = announced msg /\ dropped msg' ≡ₚ dropped msg ++ map compact (filter (fun p => is_stale now p) entries.*2) /\
  forall id q, tp' !! id = Some q <-> tp !! id = Some q /\ forall p, (id, p) ∈ entries -> is_stale now p = false.
Proof.
  revert msg tp. induction entries as [|[id p] entries IH]; intros msg tp.
  { cbn. rewrite app_nil_r. split_and!; [done..|]. intros id q. split; [|tauto]. intros Hq. split; [done|]. intros p Hp. by apply elem_of_nil in Hp. }
  cbn [fold_left fmap list_fmap snd]. rewrite filter_cons. unfold cleanup_step at 2. cbn [fst snd]. destruct (is_stale now p) eqn:E.
  - destruct (add_dropped msg p) as [A1 A2]. specialize (IH (addPeerToMessage false msg p) (delete id tp)).
    destruct (fold_left _ entries _) as [msg' tp']. destruct IH as (I1 & I2 & I3). rewrite I1, A2. split; [done|]. split.
    + rewrite decide_True by done. cbn [map]. rewrite I2, A1, <- app_assoc. done.
    + intros id' q. rewrite I3, lookup_delete_Some. setoid_rewrite elem_of_cons. split.
      * intros [[Hne Hq] Hall]. split; [done|]. intros p' [[= -> ->]|Hp']; [done|by apply Hall].
      * intros [Hq Hall]. split; [|by intros p' Hp'; apply Hall; right]. split; [|done]. intros <-. rewrite (Hall p) in E by (by left). done.
  - specialize (IH msg tp). destruct (fold_left _ entries _) as [msg' tp']. destruct IH as (I1 & I2 & I3). split; [done|]. split.
    + rewrite decide_False by (by intros ?). done.
    + intros id' q. rewrite I3. setoid_rewrite elem_of_cons. split; intros [Hq Hall]; (split; [done|]); intros p' Hp'; [|by apply Hall; right].
      destruct Hp' as [[= -> ->]|Hp']; [done|by apply Hall].
Qed.

(** What a message holds, and what is left of the peers. *)
Lemma message_spec now id pex tp : px_enabled pex = true -> px_peers pex !! id = Some tp ->
  exists msg tp', GetPEXMessage range now id pex = (Some msg, with_lastUpdate pex (<[id := tp']> (px_peers pex)) id now) /\
    announced msg ≡ₚ map compact (filter (fun p => is_new (px_lastUpdate pex !! id) p) (map_to_list tp).*2) /\
    dropped msg ≡ₚ map compact (filter (fun p => is_stale now p) (map_to_list tp).*2) /\
    tp' = filter (fun kp => is_stale now kp.2 = false) tp.
Proof.
  intros He Hp. unfold GetPEXMessage. rewrite He, Hp. cbn [negb]. cbv zeta. unfold cleanupExpiredPeers, addNewPeersToMessage.
  pose proof (fold_announced (filter (fun p => is_new (px_lastUpdate pex !! id) p) (range tp).*2) empty_msg) as [F1 F2].
  set (msg0 := fold_left _ _ empty_msg) in *. pose proof (cleanup_spec now (range tp) msg0 tp) as Hc.
  destruct (fold_left _ (range tp) _) as [msg' tp']. destruct Hc as (C1 & C2 & C3). exists msg', tp'. split; [done|].
  rewrite C1, C2, F1, F2. cbn [announced dropped empty_msg app]. rewrite !Hrange. split_and!; [done|done|].
  apply map_eq. intros k. apply option_eq. intros q. rewrite C3, map_lookup_filter_Some. setoid_rewrite Hrange. setoid_rewrite elem_of_map_to_list. cbn.
  split; intros [Hq Hst]; (split; [done|]); [by apply Hst|]. intros p Hk. rewrite Hq in Hk. by injection Hk as <-.
Qed.

(** ** Additions between two messages *)
Definition addition := (Z * bytes * Z * Z)%type.
Definition add_all (id : bytes) (es : list addition) (pex : PEXManager) : PEXManager :=
  fold_left (fun pex '(now, ip, port, flags) => AddPeer now id ip port flags pex) es pex.

(** Peers known before [t] and peers added since. *)
Definition split_at (t : Z) (old tp : gmap bytes PEXPeer) : Prop :=
  forall k p, tp !! k = Some p -> if decide (is_Some (old !! k)) then pp_Added p <= t else t < pp_Added p.

Lemma AddPeer_eq now id ip port flags pex : px_enabled pex = true ->
  let pex' := AddPeer now id ip port flags pex in
  px_enabled pex' = true /\ px_lastUpdate pex' = px_lastUpdate pex /\
  exists p, px_peers pex' = <[id := <[makePeerID ip port := p]> (default ∅ (px_peers pex !! id))]> (px_peers pex) /\
    match default ∅ (px_peers pex !! id) !! makePeerID ip port with Some q => pp_Added p = pp_Added q | None => pp_Added p = now end.
Proof. intros He. unfold AddPeer. rewrite He. cbn [negb]. cbv zeta. split_and!; [done..|]. eexists. split; [done|]. by case_match. Qed.

Lemma add_all_split t id es old pex tp : px_enabled pex = true -> px_peers pex !! id = Some tp -> split_at t old tp ->
  Forall (fun e : addition => t < e.1.1.1) es -> (forall k, is_Some (old !! k) -> is_Some (tp !! k)) ->
  let pex' := add_all id es pex in
  px_enabled pex' = true /\ px_lastUpdate pex' = px_lastUpdate pex /\ exists tp', px_peers pex' !! id = Some tp' /\ split_at t old tp'.
Proof.
  intros He Hp Hs Hes. revert pex tp He Hp Hs. induction Hes as [|[[[now ip] port] flags] es Hnow _ IH]; intros pex tp He Hp Hs Hold; cbn [add_all fold_left].
  { split_and!; [done..|]. by exists tp. }
  destruct (AddPeer_eq now id ip port flags pex He) as (E1 & E2 & p & E3 & E4). rewrite Hp in E3, E4. cbn [default from_option Datatypes.id] in E3, E4.
  set (pex1 := AddPeer now id ip port flags pex) in *.
  destruct (IH pex1 (<[makePeerID ip port := p]> tp)) as (I1 & I2 & I3); [done|by rewrite E3, lookup_insert_eq| |..].
  - intros k q. destruct (decide (k = makePeerID ip port)) as [->|Hne].
    + rewrite lookup_insert_eq. intros [= <-]. destruct (tp !! makePeerID ip port) as [q|] eqn:Eq; [rewrite E4; by apply Hs|].
      rewrite decide_False; [cbn in Hnow; lia|]. intros Ho. apply Hold in Ho as [? Ho]. congruence.
    + rewrite lookup_insert_ne by done. apply Hs.
  - intros k Hk. destruct (decide (k = makePeerID ip port)) as [->|Hne]; [rewrite lookup_insert_eq; by eexists|rewrite lookup_insert_ne by done; by apply Hold].
  - split_and!; [exact I1|etrans; [exact I2|exact E2]|exact I3].
Qed.

Lemma filter_new (t : Z) (old tp : gmap bytes PEXPeer) : split_at t old tp ->
  filter (fun p => is_new (Some t) p) (map_to_list tp).*2 ≡ₚ (map_to_list (tp ∖ old)).*2.
Proof.
  intros Hs. assert (E : tp ∖ old = filter (fun kp => is_new (Some t) kp.2) tp).
  { apply map_eq. intros k. apply option_eq. intros p. rewrite lookup_difference_Some, map_lookup_filter_Some. cbn.
    split; intros [Hp Hn]; (split; [done|]); specialize (Hs k p Hp); cbn in Hs; rewrite ?bool_decide_spec in *.
    - rewrite decide_False in Hs by (rewrite Hn; by intros [? ?]). done.
    - case_decide as Ed; [lia|]. by apply eq_None_not_Some. }
  rewrite E. clear Hs E old. induction tp as [|k p tp Hk IH] using map_ind; [by rewrite map_filter_empty, map_to_list_empty|].
  rewrite map_to_list_insert by done. cbn [fmap list_fmap snd]. rewrite filter_cons. case_decide as Ed.
  - rewrite map_filter_insert_True by done. rewrite map_to_list_insert by (apply map_lookup_filter_None; by left). cbn. by rewrite IH.
  - rewrite map_filter_insert_False by done. rewrite delete_id by done. done.
Qed.

End Range.

(** ** Properties *)

(** each message announces what is new. After a message at [t1], and any
    additions at later times, the next message announces exactly the tracked
    peers the torrent did not have at [t1] - each once, none again - and reports
    as dropped exactly the peers not seen for five minutes, which it forgets. *)
Theorem pex_messages_announce_once range t1 t2 id pex tp es :
  (forall m, range m ≡ₚ map_to_list m) -> px_enabled pex = true -> px_peers pex !! id = Some tp ->
  (forall k p, tp !! k = Some p -> pp_Added p <= t1) -> Forall (fun e : addition => t1 < e.1.1.1) es ->
  let pex1 := (GetPEXMessage range t1 id pex).2 in
  let pex2 := add_all id es pex1 in
  exists tp1 tp2 msg, px_peers pex1 !! id = Some tp1 /\ px_peers pex2 !! id = Some tp2 /\
    (GetPEXMessage range t2 id pex2).1 = Some msg /\
    announced msg ≡ₚ map compact (map_to_list (tp2 ∖ tp1)).*2 /\
    dropped msg ≡ₚ map compact (filter (fun p => is_stale t2 p) (map_to_list tp2).*2) /\
    px_peers (GetPEXMessage range t2 id pex2).2 !! id = Some (filter (fun kp => is_stale t2 kp.2 = false) tp2).
Proof.
  intros Hr He Hp Ha Hes pex1 pex2. destruct (message_spec range Hr t1 id pex tp He Hp) as (msg1 & tp1 & E1 & _ & _ & Etp1).
  assert (Epex : pex1 = with_lastUpdate pex (<[id := tp1]> (px_peers pex)) id t1) by (unfold pex1; by rewrite E1).
  assert (Hp1 : px_peers pex1 !! id = Some tp1) by (rewrite Epex; apply lookup_insert_eq).
  destruct (add_all_split t1 id es tp1 pex1 tp1) as (A1 & A2 & tp2 & A3 & A4); [by rewrite Epex|done| |done|done|].
  { intros k p Hk. rewrite decide_True by (by eexists). subst tp1. apply map_lookup_filter_Some in Hk as [Hk _]. by apply (Ha k). }
  fold pex2 in A1, A2, A3. destruct (message_spec range Hr t2 id pex2 tp2 A1 A3) as (msg & tp3 & E2 & M1 & M2 & ->).
  exists tp1, tp2, msg. rewrite E2. cbn [fst snd]. split_and!; [done|done|done| |done|apply lookup_insert_eq].
  rewrite M1, A2, Epex. cbn [with_lastUpdate px_lastUpdate]. rewrite lookup_insert_eq. apply fmap_Permutation. by apply filter_new.
Qed.

(** peers are told apart outside the surrogate ports. The port is part of
    the peer ID as a character; for ports that are no surrogate code points the
    ID determines the address and the port. *)
Theorem peer_ids_distinct ip ip' port port' :
  short_ip ip -> short_ip ip' -> 0 <= port < 65536 -> 0 <= port' < 65536 -> ~ surrogate port -> ~ surrogate port' ->
  makePeerID ip port = makePeerID ip' port' -> ip = ip' /\ port = port'.
Proof.
  intros H1 H2 P1 P2 S1 S2 E. unfold makePeerID in E. rewrite !app_assoc in E.
  apply (rune_suffix _ _ port port') in E as [E ->]; [|by apply rune_string_shape..].
  apply app_inv_tail in E. split; [by apply IP_String_inj|done].
Qed.

(** peers on surrogate ports shadow each other. The 2048 ports from 55296
    to 57343 all become the replacement character: of two peers of one address
    on such ports only the first is tracked, and announced. *)
Theorem surrogate_ports_collide now now' id ip port port' flags flags' pex :
  px_enabled pex = true -> px_peers pex !! id = None -> surrogate port -> surrogate port' ->
  let pex' := AddPeer now' id ip port' flags' (AddPeer now id ip port flags pex) in
  GetPeerCount id pex' = 1 /\ px_peers pex' !! id = Some {[makePeerID ip port := MkPEXPeer ip port now now' flags']}.
Proof.
  intros He Hn S1 S2. assert (Hid : makePeerID ip port' = makePeerID ip port).
  { unfold makePeerID, rune_string. unfold surrogate in *. rewrite !(decide_True (P := 55296 <= _ <= 57343)) by done. done. }
  unfold AddPeer, GetPeerCount. rewrite He, Hn, Hid. cbn [negb with_peers px_enabled px_peers default from_option]. rewrite He. cbn [negb px_peers with_peers].
  rewrite lookup_empty, lookup_insert_eq. cbn [default from_option Datatypes.id with_peers px_peers]. rewrite !lookup_insert_eq.
  cbn [default from_option Datatypes.id]. rewrite !lookup_insert_eq, !insert_insert_eq. cbn [pp_IP pp_Port pp_Added]. rewrite insert_empty, map_size_singleton. done.
Qed.

(** ** Witnesses *)
Definition demo_tp : gmap bytes PEXPeer := {[makePeerID [1; 2; 3; 4] 80 := MkPEXPeer [1; 2; 3; 4] 80 10 10 0]}.
Definition demo_pex : PEXManager := MkPEXManager true {[bs "t" := demo_tp]} ∅ (60 * second).

Lemma pex_messages_announce_once_witness :
  let pex1 := (GetPEXMessage map_to_list 20 (bs "t") demo_pex).2 in
  let pex2 := add_all (bs "t") [(25, [5; 6; 7; 8], 90, 0); (26, [1; 2; 3; 4], 80, 0)] pex1 in
  exists msg, (GetPEXMessage map_to_list 30 (bs "t") pex2).1 = Some msg /\ announced msg = [MkCompactPeer [5; 6; 7; 8] 90] /\ dropped msg = [].
Proof.
  destruct (pex_messages_announce_once map_to_list 20 30 (bs "t") demo_pex demo_tp [(25, [5; 6; 7; 8], 90, 0); (26, [1; 2; 3; 4], 80, 0)])
    as (tp1 & tp2 & msg & _ & _ & Em & _ & _ & _);
    [reflexivity|reflexivity|apply lookup_singleton_eq|intros k p Hk; unfold demo_tp in Hk; apply lookup_singleton_Some in Hk as [_ <-]; discriminate
    |repeat constructor|].
  exists msg. split; [exact Em|]. revert Em. vm_compute. intros [= <-]. split; reflexivity.
Defined.

Lemma peer_ids_distinct_witness : makePeerID [1; 2; 3; 4] 80 <> makePeerID [1; 2; 3; 4] 8080.
Proof.
  intros E. destruct (peer_ids_distinct [1; 2; 3; 4] [1; 2; 3; 4] 80 8080) as [_ H];
    [split; [repeat constructor; discriminate|left; reflexivity]|split; [repeat constructor; discriminate|left; reflexivity]
    |lia|lia|unfold surrogate; lia|unfold surrogate; lia|exact E|]. discriminate H.
Defined.

Lemma surrogate_ports_collide_witness :
  GetPeerCount (bs "t") (AddPeer 2 (bs "t") [1; 2; 3; 4] 56000 0 (AddPeer 1 (bs "t") [1; 2; 3; 4] 55555 0 (NewPEXManager true))) = 1.
Proof. apply (surrogate_ports_collide 1 2 (bs "t") [1; 2; 3; 4] 55555 56000 0 0 (NewPEXManager true)); [reflexivity|reflexivity|unfold surrogate; lia|unfold surrogate; lia]. Defined.

End PexManagerFacts.
