(* ===== verification/Downloader.v ===== *)
(** * Downloading the info dictionary of a torrent

    Models [src/downloader/torrent.go]: the worker that connects to a peer,
    asks for the metadata (BEP 9) and assembles it.

    Dialling is left out: a download starts with the socket. The goroutine
    [requestPieces] only writes, and the loop only reads, so it runs to its end
    where it is started. The channel of responses is the list of what was sent;
    the exit channel is asked after each message, with the number of messages
    read so far. A panic ends the process. Error texts leave out the address of
    the peer. *)

From S2P Require Import Prelude Strconv Bencode BencodeFacts BencodeTyped Pieces PeerMessage Extension PeerConn Sha1.
Import Strconv Bencode PeerMessage Extension PeerConn.

Module Downloader.

Definition BlockSize : Z := 16384.

Record TorrentResponse := MkResponse {
  re_Host : bytes; re_Port : Z; re_PeerID : bytes; re_InfoHash : bytes; re_InfoBytes : bytes
}.

(** The fields of a downloader that a worker reads: the ID, the extension bits
    and whether the DHT callback is set. *)
Record TorrentDownloader := MkDownloader { td_ID : bytes; td_ebits : bytes; td_ondht : bool }.

Definition ut_metadata : bytes := bs "ut_metadata".
Definition td_ehmsg : ExtendedHandshakeMsg := MkEHM (Some [(bs "i2p_pex", 2); (ut_metadata, 1)]) [] 0 0 None [] [] 0.

(** [ebits.Set] changes a copy. *)
Definition NewTorrentDownloader (id : bytes) : TorrentDownloader := MkDownloader id zeroBits false.
Definition OnDHTNode (cb : bool) (d : TorrentDownloader) : TorrentDownloader := MkDownloader (td_ID d) (td_ebits d) cb.

(** What the exchange loop keeps: the variables [processMetadataExchange]
    declares, the connection, and what has been sent to the response channel
    and to the DHT callback. *)
Record Exchange := MkExchange {
  x_pieces : option (list bytes);
  x_piecesNum : Z;
  x_metadataSize : Z;
  x_utmetadataID : Z;
  x_conn : PeerConn;
  x_responses : list TorrentResponse;
  x_dht : list (bytes * Z)
}.

Definition startExchange (conn : PeerConn) : Exchange := MkExchange None 0 0 0 conn [] [].

Definition set_xconn (c : PeerConn) (x : Exchange) : Exchange :=
  MkExchange (x_pieces x) (x_piecesNum x) (x_metadataSize x) (x_utmetadataID x) c (x_responses x) (x_dht x).
Definition set_xpieces (p : list bytes) (x : Exchange) : Exchange :=
  MkExchange (Some p) (x_piecesNum x) (x_metadataSize x) (x_utmetadataID x) (x_conn x) (x_responses x) (x_dht x).
Definition set_utID (i : Z) (x : Exchange) : Exchange :=
  MkExchange (x_pieces x) (x_piecesNum x) (x_metadataSize x) i (x_conn x) (x_responses x) (x_dht x).
Definition respond (r : TorrentResponse) (x : Exchange) : Exchange :=
  MkExchange (x_pieces x) (x_piecesNum x) (x_metadataSize x) (x_utmetadataID x) (x_conn x) (x_responses x ++ [r]) (x_dht x).
Definition call_dht (host : bytes) (port : Z) (x : Exchange) : Exchange :=
  MkExchange (x_pieces x) (x_piecesNum x) (x_metadataSize x) (x_utmetadataID x) (x_conn x) (x_responses x) (x_dht x ++ [(host, port)]).

(** A step: the state it leaves and how it ended. *)
Abbreviation step := (Exchange -> res unit * Exchange).

Definition map_get (k : bytes) (m : option (list (bytes * Z))) : Z :=
  match find (fun e => bool_decide (e.1 = k)) (default [] m) with Some e => e.2 | None => 0 end.

(** [make] of a slice of slices, whose headers take 24 bytes each; a slice
    cannot take more than the address space. *)
Definition maxAlloc : Z := 2 ^ 48.
Definition make_pieces (n : Z) : res (list bytes) :=
  if decide (n < 0 \/ maxAlloc < 24 * n) then Panic "makeslice: len out of range" else Ok (replicate (Z.to_nat n) []).

Section Download.
Context (DestHashFromBytes : bytes -> res bytes).
Context (host : bytes) (port : Z) (infohash : bytes) (d : TorrentDownloader).

(** The loop of [requestPieces] from piece [i] on; [n] pieces are left. *)
Fixpoint requestPieces (utMetadataID : Z) (i : Z) (n : nat) (pc : PeerConn) : res PeerConn :=
  match n with
  | O => Ok pc
  | S n' =>
      match um_EncodeToBytes (MkUtMetadata UtMetadataExtendedMsgTypeRequest i 0 []) with
      | Ok payload =>
          match WriteMsg (H := unit) None (set_Extended (mtype MTypeExtended) utMetadataID payload) pc tt with
          | (pc', _, None) => requestPieces utMetadataID (i + 1) n' pc'
          | (pc', _, Some _) => Ok pc'
          end
      | Err e | Panic e => Panic e
      | NoFuel => NoFuel
      end
  end.

Definition pieces_num (metadataSize : Z) : Z :=
  let n := Z.quot metadataSize BlockSize in if decide (Z.rem metadataSize BlockSize <> 0) then n + 1 else n.

Definition processExtendedHandshake (msg : Message) : step := fun x =>
  if decide (0 < x_utmetadataID x) then (Err "rehandshake from the peer", x)
  else match ehm_Decode DestHashFromBytes zeroEHM (ExtendedPayload msg) with
  | Ok ehmsg =>
      let id := map_get ut_metadata (ehm_M ehmsg) in
      if decide (id = 0) then (Err "the peer does not support ut_metadata", set_utID id x)
      else
        let size := ehm_MetadataSize ehmsg in
        let n := pieces_num size in
        match make_pieces n with
        | Ok pieces =>
            match requestPieces id 0 (Z.to_nat n) (x_conn x) with
            | Ok pc => (Ok tt, MkExchange (Some pieces) n size id pc (x_responses x) (x_dht x))
            | Err e | Panic e => (Panic e, x)
            | NoFuel => (NoFuel, x)
            end
        | Err e | Panic e => (Panic e, x)
        | NoFuel => (NoFuel, x)
        end
  | Err e => (Err e, x)
  | Panic e => (Panic e, x)
  | NoFuel => (NoFuel, x)
  end.

Definition validatePieceData (um : UtMetadataExtendedMsg) (piecesNum metadataSize : Z) : res unit :=
  let pieceLen := len (um_Data um) in
  if decide (um_Piece um = piecesNum - 1) then
    let r := Z.rem metadataSize BlockSize in
    let expectedLen := if decide (r = 0) then BlockSize else r in
    if decide (pieceLen <> expectedLen) then Err ("invalid final piece length: expected " ++ format_d expectedLen ++ ", got " ++ format_d pieceLen) else Ok tt
  else if decide (pieceLen <> BlockSize) then Err ("invalid piece length: expected " ++ format_d BlockSize ++ ", got " ++ format_d pieceLen) else Ok tt.

Definition processMetadataPiece (msg : Message) : step := fun x =>
  match x_pieces x with
  | None => (Ok tt, x)
  | Some pieces =>
      match um_DecodeFromPayload (MkUtMetadata 0 0 0 []) (ExtendedPayload msg) with
      | Ok um =>
          if decide (um_MsgType um <> UtMetadataExtendedMsgTypeData) then (Ok tt, x)
          else match validatePieceData um (x_piecesNum x) (x_metadataSize x) with
          | Ok _ =>
              if decide (0 <= um_Piece um < len pieces)
              then (Ok tt, set_xpieces (<[Z.to_nat (um_Piece um) := um_Data um]> pieces) x)
              else (Panic "index out of range", x)
          | r => (r, x)
          end
      | Err e => (Err e, x)
      | Panic e => (Panic e, x)
      | NoFuel => (NoFuel, x)
      end
  end.

Definition handleExtendedMessage (msg : Message) : step :=
  if decide (ExtendedID msg = ExtendedIDHandshake) then processExtendedHandshake msg
  else if decide (ExtendedID msg = 1) then processMetadataPiece msg
  else fun x => (Ok tt, x).

Definition handleMessage (msg : Message) : step := fun x =>
  if decide (Type_ msg = MTypeExtended) then handleExtendedMessage msg x
  else if decide (Type_ msg = MTypePort) then (Ok tt, if td_ondht d then call_dht host (Port msg) x else x)
  else (Ok tt, x).

Definition isMetadataComplete (pieces : list bytes) : bool := forallb (fun p => negb (bool_decide (len p = 0))) pieces.

(** It never fails, and the loop goes on after it. *)
Definition finalizeMetadata (pieces : list bytes) : step := fun x =>
  let info := concat pieces in
  if decide (infohash = Sha1.Sum info)
  then (Ok tt, respond (MkResponse host port (PeerID (pc_ids (x_conn x))) infohash info) x)
  else (Ok tt, x).

Definition checkAndFinalizeMetadata : step := fun x =>
  match x_pieces x with
  | Some pieces => if isMetadataComplete pieces then finalizeMetadata pieces x else (Ok tt, x)
  | None => (Ok tt, x)
  end.

(** What one message does. *)
Definition exchange_step (msg : Message) : step := fun x =>
  if Keepalive msg then (Ok tt, x)
  else match handleMessage msg x with
       | (Ok _, x) => checkAndFinalizeMetadata x
       | r => r
       end.

(** [runMetadataExchangeLoop]; [n] messages have been read. *)
Fixpoint runMetadataExchangeLoop (exited : nat -> bool) (fuel n : nat) (x : Exchange) : res unit * Exchange :=
  match fuel with
  | O => (NoFuel, x)
  | S fuel' =>
      match ReadMsg (x_conn x) with
      | Ok (msg, pc) =>
          let x := set_xconn pc x in
          if exited (S n) then (Err "downloader exit requested", x)
          else match exchange_step msg x with
               | (Ok _, x) => runMetadataExchangeLoop exited fuel' (S n) x
               | r => r
               end
      | Err e => (Err e, x)
      | Panic e => (Panic e, x)
      | NoFuel => (NoFuel, x)
      end
  end.

(** [establishConnection] on a dialled socket. *)
Definition establishConnection (sock : Sock) (peerID : bytes) : res PeerConn :=
  let pc := NewPeerConn sock (td_ID d) infohash in
  let i := pc_ids pc in
  let pc := set_ids (MkIds (InfoHash i) (ID i) (td_ebits d) (PeerID i) (PeerExtBits i)) pc in
  match pc_Handshake (H := unit) pc tt with
  | (_, _, Some e) => Err e
  | (pc, _, None) =>
      if negb (match IsSupportExtended (PeerExtBits (pc_ids pc)) with Ok b => b | _ => false end) then Err "the remote peer does not support Extended"
      else if decide (peerID <> zeroHash /\ peerID <> PeerID (pc_ids pc)) then Err "inconsistent peer id"
      else Ok pc
  end.

(** [download], with enough fuel for the input of the socket. *)
Definition download (exited : nat -> bool) (fuel : nat) (sock : Sock) (peerID : bytes) : res unit * option Exchange :=
  match establishConnection sock peerID with
  | Ok pc =>
      match SendExtHandshakeMsg DestHashFromBytes (H := unit) None td_ehmsg pc tt with
      | (pc, _, Some e) => (Err e, None)
      | (pc, _, None) => let '(r, x) := runMetadataExchangeLoop exited fuel 0 (startExchange pc) in (r, Some x)
      end
  | Err e => (Err e, None)
  | Panic e => (Panic e, None)
  | NoFuel => (NoFuel, None)
  end.
End Download.

End Downloader.
