(* ===== verification/DownloaderFacts.v ===== *)
(** * Properties of the metadata download *)

From S2P Require Import Prelude Strconv Bencode BencodeFacts BencodeTyped Pieces PeerMessage Extension PeerConn PeerConnFacts Sha1 Downloader.
Import Strconv Bencode PeerMessage Extension PeerConn PeerConnFacts Downloader.

Module DownloaderFacts.

Section Facts.
Context (D : bytes -> res bytes) (host : bytes) (port : Z) (infohash : bytes) (d : TorrentDownloader).

Abbreviation xstep := (exchange_step D host port infohash d).
Abbreviation xloop := (runMetadataExchangeLoop D host port infohash d).

(** ** Responses *)
Definition response_ok (r : TorrentResponse) : Prop :=
  re_Host r = host /\ re_Port r = port /\ re_InfoHash r = infohash /\ Sha1.Sum (re_InfoBytes r) = infohash.

Lemma handle_responses msg x : x_responses (handleMessage D host d msg x).2 = x_responses x.
Proof.
  unfold handleMessage, handleExtendedMessage, processExtendedHandshake, processMetadataPiece.
  repeat (case_match; try done).
Qed.

Lemma step_responses msg x : Forall response_ok (x_responses x) -> Forall response_ok (x_responses (xstep msg x).2).
Proof.
  intros Hx. unfold exchange_step. destruct (Keepalive msg); [done|]. pose proof (handle_responses msg x) as Hr.
  destruct (handleMessage D host d msg x) as [r x1]. cbn [snd] in Hr. destruct r as [[]|?|?|]; cbn [snd]; rewrite ?Hr; try done.
  unfold checkAndFinalizeMetadata, finalizeMetadata. destruct (x_pieces x1) as [ps|]; cbn [snd]; rewrite ?Hr; [|done].
  destruct (isMetadataComplete ps); cbn [snd]; rewrite ?Hr; [|done]. case_decide as E; cbn [snd respond x_responses]; rewrite Hr; [|done].
  apply Forall_app. split; [done|]. repeat constructor. by cbn.
Qed.

Lemma loop_responses exited fuel n x : Forall response_ok (x_responses x) -> Forall response_ok (x_responses (xloop exited fuel n x).2).
Proof.
  revert n x. induction fuel as [|fuel IH]; intros n x Hx; cbn [runMetadataExchangeLoop]; [done|].
  destruct (ReadMsg (x_conn x)) as [[msg pc]|?|?|]; try done. cbv zeta. case_match; [done|].
  pose proof (step_responses msg (set_xconn pc x) Hx) as Hs. destruct (xstep msg (set_xconn pc x)) as [[[]|?|?|] x1]; try done. by apply IH.
Qed.

(** ** Requests *)
Definition same_input (pc pc' : PeerConn) : Prop :=
  sk_in (pc_conn pc') = sk_in (pc_conn pc) /\ pc_MaxLength pc' = pc_MaxLength pc /\ pc_ids pc' = pc_ids pc.

Lemma requestPieces_ok id i n pc : exists pc', requestPieces id i n pc = Ok pc' /\ same_input pc pc'.
Proof.
  revert i pc. induction n as [|n IH]; intros i pc; cbn [requestPieces]; [by exists pc|].
  unfold um_EncodeToBytes, um_EncodeToPayload. rewrite decide_False by done. rewrite um_encodes, bind_Ok.
  unfold WriteMsg, with_conn, sock_write. destruct (sk_fail (pc_conn pc)) as [[|k]|]; [by exists pc|..].
  all: match goal with |- context [requestPieces _ ?j _ ?pc1] => destruct (IH j pc1) as (pc' & E & Hs) end.
  all: exists pc'; split; [exact E|exact Hs].
Qed.

(** ** The pieces of the metadata *)
Definition block : nat := Z.to_nat BlockSize.
Lemma block_eq : Z.of_nat block = 16384.
Proof. unfold block, BlockSize. lia. Qed.
Opaque block.

Definition chunk (info : bytes) (i : nat) : bytes := take block (drop (i * block) info).
Definition chunks_num (info : bytes) : nat := Z.to_nat (pieces_num (len info)).

Lemma pieces_num_bounds n : 0 < n -> 0 < pieces_num n /\ (pieces_num n - 1) * 16384 < n <= pieces_num n * 16384 /\
  n - (pieces_num n - 1) * 16384 = (if decide (Z.rem n BlockSize = 0) then BlockSize else Z.rem n BlockSize).
Proof.
  intros Hn. unfold pieces_num, BlockSize. rewrite Z.quot_div_nonneg, Z.rem_mod_nonneg by lia.
  pose proof (Z.div_mod n 16384 ltac:(lia)). pose proof (Z.mod_pos_bound n 16384 ltac:(lia)). repeat case_decide; lia.
Qed.

Lemma length_chunk info i : (i < chunks_num info)%nat -> info <> [] ->
  len (chunk info i) = if decide (Z.of_nat i = pieces_num (len info) - 1)
    then (if decide (Z.rem (len info) BlockSize = 0) then BlockSize else Z.rem (len info) BlockSize) else BlockSize.
Proof.
  intros Hi Hne. assert (0 < len info) by (destruct info; [done|rewrite len_cons; pose proof (len_nonneg info); lia]).
  destruct (pieces_num_bounds (len info)) as (H1 & H2 & H3); [done|]. unfold chunks_num in Hi. rewrite <- H3.
  pose proof block_eq as Hb. assert (Hib : Z.of_nat (i * block) = Z.of_nat i * 16384) by (rewrite Nat2Z.inj_mul, Hb; done).
  unfold chunk, len in *. rewrite length_take, length_drop. unfold BlockSize. clear H3. case_decide; lia.
Qed.

Lemma concat_chunks info : concat (map (chunk info) (seq 0 (chunks_num info))) = info.
Proof.
  assert (Hgen : forall n k, concat (map (chunk info) (seq k n)) = take (n * block) (drop (k * block) info)).
  { induction n as [|n IH]; intros k; cbn [seq map concat]; [done|]. rewrite IH. unfold chunk.
    replace (S k * block)%nat with (k * block + block)%nat by lia. rewrite <- drop_drop. replace (S n * block)%nat with (block + n * block)%nat by lia.
    generalize (drop (k * block) info). intros l. generalize (n * block)%nat. intros m.
    rewrite <- (take_drop block l) at 3. destruct (Nat.le_gt_cases block (length l)).
    - rewrite take_app_add' by (rewrite length_take; lia). done.
    - rewrite (drop_ge l) by lia. rewrite take_nil, !app_nil_r. rewrite !take_ge; [done|rewrite ?length_take; lia..]. }
  rewrite Hgen. cbn [Nat.mul]. rewrite drop_0. apply take_ge. unfold chunks_num. destruct info as [|b info]; [cbn; lia|].
  destruct (pieces_num_bounds (len (b :: info))) as (H1 & H2 & H3); [rewrite len_cons; pose proof (len_nonneg info); lia|].
  pose proof block_eq as Hb. assert (Hib : forall i, Z.of_nat (i * block) = Z.of_nat i * 16384) by (intros i; rewrite Nat2Z.inj_mul, Hb; done).
  specialize (Hib (Z.to_nat (pieces_num (len (b :: info))))). unfold len in *. lia.
Qed.

(** ** Data messages *)
Definition data_payload (info : bytes) (i : nat) : bytes :=
  match um_EncodeToBytes (MkUtMetadata UtMetadataExtendedMsgTypeData (Z.of_nat i) (len info) (chunk info i)) with Ok b => b | _ => [] end.
Definition data_msg (info : bytes) (i : nat) : Message := set_Extended (mtype MTypeExtended) 1 (data_payload info i).

Lemma data_decodes info i : Z.of_nat i < 2 ^ 63 -> len info < 2 ^ 63 ->
  um_DecodeFromPayload (MkUtMetadata 0 0 0 []) (data_payload info i) = Ok (MkUtMetadata 1 (Z.of_nat i) (len info) (chunk info i)).
Proof.
  intros Hi Hl. pose proof (len_nonneg info). set (um := MkUtMetadata UtMetadataExtendedMsgTypeData (Z.of_nat i) (len info) (chunk info i)).
  assert (Hu : um_ok um) by (unfold um_ok, um, UtMetadataExtendedMsgTypeData; cbn [um_MsgType um_Piece um_TotalSize]; lia).
  pose proof (um_roundtrip_lemma um [] Hu) as Hr. unfold data_payload. fold um.
  destruct (um_EncodeToBytes um) as [b|?|?|]; [rewrite bind_Ok in Hr; exact Hr|discriminate Hr..].
Qed.

(** The pieces once those in [got] have arrived. *)
Definition filled (info : bytes) (got : list nat) : list bytes :=
  map (fun i => if decide (i ∈ got) then chunk info i else []) (seq 0 (chunks_num info)).

Lemma filled_insert info got i : <[i := chunk info i]> (filled info got) = filled info (i :: got).
Proof.
  apply list_eq. intros j. unfold filled. destruct (decide (i = j)) as [<-|Hne].
  - destruct (decide (i < chunks_num info)%nat) as [Hi|Hi].
    + rewrite list_lookup_insert_eq by (rewrite length_map, length_seq; done). rewrite list_lookup_fmap, lookup_seq_lt by lia. cbn.
      rewrite decide_True by left. done.
    + rewrite list_insert_ge by (rewrite length_map, length_seq; lia). rewrite !lookup_ge_None_2 by (rewrite length_map, length_seq; lia). done.
  - rewrite list_lookup_insert_ne by done. rewrite !list_lookup_fmap. destruct (seq 0 (chunks_num info) !! j) as [k|] eqn:E; [|done].
    apply lookup_seq in E as [-> _]. cbn. f_equal. apply decide_ext. set_solver.
Qed.

Lemma filled_complete info got : info <> [] ->
  isMetadataComplete (filled info got) = true <-> forall i, (i < chunks_num info)%nat -> i ∈ got.
Proof.
  intros Hne. unfold isMetadataComplete, filled. rewrite forallb_forall. split.
  - intros Hall i Hi. specialize (Hall (if decide (i ∈ got) then chunk info i else [])). case_decide as E; [done|].
    rewrite len_nil in Hall. discriminate Hall. apply in_map_iff. exists i. rewrite decide_False by done. split; [done|]. apply in_seq. lia.
  - intros Hgot p Hp. apply in_map_iff in Hp as (i & <- & Hi). apply in_seq in Hi. rewrite decide_True by (apply Hgot; lia).
    rewrite bool_decide_false; [done|]. rewrite length_chunk by (done || lia).
    pose proof (pieces_num_bounds (len info)) as Hb. unfold BlockSize in *. assert (0 <= len info) by apply len_nonneg.
    rewrite Z.rem_mod_nonneg by lia. pose proof (Z.mod_pos_bound (len info) 16384 ltac:(lia)). repeat case_decide; lia.
Qed.

(** ** The exchange with an honest peer *)
Definition receiving (info : bytes) (got : list nat) (x : Exchange) : Prop :=
  x_pieces x = Some (filled info got) /\ x_piecesNum x = pieces_num (len info) /\ x_metadataSize x = len info.

Definition the_response (info : bytes) (x : Exchange) : TorrentResponse := MkResponse host port (PeerID (pc_ids (x_conn x))) infohash info.

Definition info_ok (info : bytes) : Prop := info <> [] /\ len info <= 2 ^ 40 /\ Sha1.Sum info = infohash.

Lemma chunks_num_small info : info_ok info -> Z.of_nat (chunks_num info) = pieces_num (len info) /\ 0 < pieces_num (len info) <= 2 ^ 27.
Proof.
  intros (Hne & Hl & _). assert (0 < len info) by (destruct info; [done|rewrite len_cons; pose proof (len_nonneg info); lia]).
  destruct (pieces_num_bounds (len info)) as (H1 & H2 & _); [done|]. unfold chunks_num. lia.
Qed.

Lemma data_step info got i x : info_ok info -> receiving info got x -> (i < chunks_num info)%nat ->
  exists x', xstep (carried (data_msg info i)) x = (Ok tt, x') /\ receiving info (i :: got) x' /\ x_conn x' = x_conn x /\
    ((forall j, (j < chunks_num info)%nat -> j ∈ i :: got) -> x_responses x' = x_responses x ++ [the_response info x]) /\
    (~ (forall j, (j < chunks_num info)%nat -> j ∈ i :: got) -> x_responses x' = x_responses x).
Proof.
  intros Hinfo (Hp & Hn & Hs) Hi. pose proof (chunks_num_small info Hinfo) as [Hnum Hbnd]. pose proof Hinfo as (Hne & Hlen & Hsum).
  change (carried (data_msg info i)) with (data_msg info i). unfold exchange_step, handleMessage, handleExtendedMessage, processMetadataPiece.
  change (Keepalive (data_msg info i)) with false. cbv iota. rewrite decide_True by done. rewrite decide_False by done. rewrite decide_True by done.
  rewrite Hp. change (ExtendedPayload (data_msg info i)) with (data_payload info i). rewrite data_decodes by lia. cbn [um_MsgType um_Piece um_Data].
  rewrite (decide_False (P := 1 <> UtMetadataExtendedMsgTypeData)) by (intros Hx; by apply Hx).
  assert (Hv : validatePieceData (MkUtMetadata 1 (Z.of_nat i) (len info) (chunk info i)) (x_piecesNum x) (x_metadataSize x) = Ok tt).
  { unfold validatePieceData. cbn [um_Piece um_Data]. rewrite Hn, Hs, length_chunk by done. cbv zeta.
    destruct (decide (Z.of_nat i = pieces_num (len info) - 1)); rewrite decide_False; [done|tauto|done|tauto]. }
  rewrite Hv. cbn [um_Piece]. assert (Hlf : len (filled info got) = pieces_num (len info)) by (unfold filled, len at 1; rewrite length_map, length_seq; done).
  rewrite decide_True by lia. rewrite Nat2Z.id, filled_insert. unfold checkAndFinalizeMetadata. cbn [set_xpieces x_pieces].
  destruct (isMetadataComplete (filled info (i :: got))) eqn:Ec.
  - pose proof (proj1 (filled_complete info (i :: got) Hne) Ec) as Hall. unfold finalizeMetadata.
    assert (Hcat : concat (filled info (i :: got)) = info).
    { rewrite <- (concat_chunks info) at 2. f_equal. unfold filled. apply map_ext_in. intros j Hj%in_seq. rewrite decide_True by (apply Hall; lia). done. }
    rewrite Hcat, decide_True by done. eexists. split; [done|]. split_and!; [done..|by intros|intros Hx; by exfalso; apply Hx].
  - eexists. split; [done|]. split_and!; [done..| |done]. intros Hall. rewrite (proj2 (filled_complete info (i :: got) Hne) Hall) in Ec. done.
Qed.

Lemma ReadMsg_end pc : sk_in (pc_conn pc) = [] -> ReadMsg pc = Err EOF.
Proof. intros E. unfold ReadMsg. rewrite E. reflexivity. Qed.

Lemma data_phase info order got x fuel n : info_ok info -> receiving info got x -> NoDup (order ++ got) -> order ++ got ≡ₚ seq 0 (chunks_num info) ->
  order <> [] -> Forall (fun i => sendable (pc_MaxLength (x_conn x)) (data_msg info i)) order ->
  sk_in (pc_conn (x_conn x)) = concat (map (fun i => Encode (data_msg info i)) order) -> (length order < fuel)%nat ->
  exists x', xloop (fun _ => false) fuel n x = (Err EOF, x') /\ x_responses x' = x_responses x ++ [the_response info x].
Proof.
  intros Hinfo. revert got x fuel n. induction order as [|i order IH]; intros got x fuel n Hrec Hnd Hperm Hne Hsend Hin Hfuel; [done|].
  destruct fuel as [|fuel]; [lia|]. cbn [runMetadataExchangeLoop]. apply Forall_cons in Hsend as [Hs1 Hsend].
  rewrite (ReadMsg_next (x_conn x) (data_msg info i) _ Hs1 Hin). cbv zeta. cbn [x_conn].
  set (x1 := set_xconn _ x). assert (Hrec1 : receiving info got x1) by done.
  assert (Hi : (i < chunks_num info)%nat) by (assert (Hin' : i ∈ seq 0 (chunks_num info)) by (rewrite <- Hperm; left); apply elem_of_seq in Hin'; lia).
  destruct (data_step info got i x1 Hinfo Hrec1 Hi) as (x2 & E & Hrec2 & Hc & Hall & Hnot). rewrite E.
  destruct order as [|j order].
  - exists x2. split.
    + destruct fuel as [|fuel]; [cbn in Hfuel; lia|]. cbn [runMetadataExchangeLoop]. rewrite ReadMsg_end; [done|]. rewrite Hc. done.
    + rewrite Hall; [done|]. intros k Hk. cbn [app] in Hperm. rewrite Hperm. apply elem_of_seq. lia.
  - destruct (IH (i :: got) x2 fuel (S n)) as (x' & E' & Hr'); [done| | |done| | |cbn in *; lia|].
    + apply (NoDup_Permutation_proper _ _ (Permutation_middle (j :: order) got i)). done.
    + rewrite <- Hperm. symmetry. apply Permutation_middle.
    + rewrite Hc. exact Hsend.
    + rewrite Hc. done.
    + exists x'. split; [done|]. rewrite Hr', Hnot; [unfold the_response; by rewrite Hc|]. intros Hx. apply NoDup_cons in Hnd as [Hni Hnd].
      assert (Hj : j ∈ i :: got) by (apply Hx; assert (Hin' : j ∈ seq 0 (chunks_num info)) by (rewrite <- Hperm; right; left); apply elem_of_seq in Hin'; lia).
      apply elem_of_cons in Hj as [->|Hj].
      * apply Hni. left.
      * apply NoDup_cons in Hnd as [Hnj _]. apply Hnj, elem_of_app. by right.
Qed.

Definition handshake_msg (payload : bytes) : Message := set_Extended (mtype MTypeExtended) ExtendedIDHandshake payload.

Lemma handshake_step m payload x id n :
  ehm_Decode D zeroEHM payload = Ok m -> map_get ut_metadata (ehm_M m) = id -> 0 < id -> x_utmetadataID x = 0 ->
  n = pieces_num (ehm_MetadataSize m) -> 0 <= n -> 24 * n <= maxAlloc ->
  exists pc', handleMessage D host d (carried (handshake_msg payload)) x =
    (Ok tt, MkExchange (Some (replicate (Z.to_nat n) [])) n (ehm_MetadataSize m) id pc' (x_responses x) (x_dht x)) /\ same_input (x_conn x) pc'.
Proof.
  intros Hd Hg Hid Hx -> Hn Hmax. change (carried (handshake_msg payload)) with (handshake_msg payload).
  unfold handleMessage, handleExtendedMessage, processExtendedHandshake. rewrite decide_True by done. rewrite decide_True by done.
  rewrite Hx. rewrite decide_False by lia. change (ExtendedPayload (handshake_msg payload)) with payload. rewrite Hd. cbv zeta. rewrite Hg.
  rewrite decide_False by lia. unfold make_pieces. rewrite decide_False by lia.
  destruct (requestPieces_ok id 0 (Z.to_nat (pieces_num (ehm_MetadataSize m))) (x_conn x)) as (pc' & E & Hs). rewrite E. by exists pc'.
Qed.

Lemma filled_nil info : filled info [] = replicate (chunks_num info) [].
Proof.
  unfold filled. rewrite <- (length_seq (chunks_num info) 0) at 2. generalize (seq 0 (chunks_num info)). intros l.
  induction l as [|i l IH]; cbn; [done|]. f_equal. exact IH.
Qed.

Lemma exchange_delivers info m payload id order pc :
  info_ok info -> ehm_Decode D zeroEHM payload = Ok m -> map_get ut_metadata (ehm_M m) = id -> 0 < id -> ehm_MetadataSize m = len info ->
  order ≡ₚ seq 0 (chunks_num info) ->
  Forall (sendable (pc_MaxLength pc)) (handshake_msg payload :: map (data_msg info) order) ->
  sk_in (pc_conn pc) = concat (map Encode (handshake_msg payload :: map (data_msg info) order)) ->
  exists x, xloop (fun _ => false) (S (S (length order))) 0 (startExchange pc) = (Err EOF, x) /\
    x_responses x = [MkResponse host port (PeerID (pc_ids pc)) infohash info].
Proof.
  intros Hinfo Hd Hg Hid Hsize Hperm Hsend Hin. pose proof (chunks_num_small info Hinfo) as [Hnum Hbnd]. pose proof Hinfo as (Hne & _ & _).
  apply Forall_cons in Hsend as [Hs1 Hs2]. cbn [map concat] in Hin. cbn [runMetadataExchangeLoop startExchange x_conn].
  rewrite (ReadMsg_next pc (handshake_msg payload) _ Hs1 Hin). cbv zeta. cbn [x_conn].
  set (pc1 := set_conn _ pc). unfold exchange_step. change (Keepalive (carried (handshake_msg payload))) with false. cbv iota.
  destruct (handshake_step m payload (set_xconn pc1 (startExchange pc)) id (pieces_num (len info))) as (pc2 & E & Hi2 & Hm2 & Hids2);
    [done|done|done|done|by rewrite Hsize|lia|unfold maxAlloc; lia|].
  rewrite E, Hsize. unfold checkAndFinalizeMetadata. cbn [x_pieces]. replace (Z.to_nat (pieces_num (len info))) with (chunks_num info) by done.
  rewrite <- filled_nil. destruct (isMetadataComplete (filled info [])) eqn:Ec.
  { exfalso. pose proof (proj1 (filled_complete info [] Hne) Ec 0%nat ltac:(lia)) as Hx. by apply elem_of_nil in Hx. }
  set (x2 := MkExchange _ _ _ _ pc2 _ _).
  destruct (data_phase info order [] x2 (S (length order)) 1) as (x' & E' & Hr'); [done|done| | | | | |lia|].
  - rewrite app_nil_r, Hperm. apply NoDup_seq.
  - by rewrite app_nil_r.
  - intros ->. apply Permutation_nil_l, (f_equal length) in Hperm. rewrite length_seq in Hperm. cbn in Hperm. lia.
  - rewrite Forall_fmap in Hs2. cbn [x_conn x2]. rewrite Hm2. exact Hs2.
  - cbn [x_conn x2]. rewrite Hi2. cbn [x_conn set_xconn pc_conn set_conn pc1 sk_in]. by rewrite map_map.
  - exists x'. split; [exact E'|]. rewrite Hr'. unfold the_response. cbn [x_conn x2 x_responses]. rewrite Hids2. done.
Qed.
End Facts.

(** ** Properties *)

(** A response for the hash, with bytes of that hash. *)
Definition verified (infohash : bytes) (r : TorrentResponse) : Prop := re_InfoHash r = infohash /\ Sha1.Sum (re_InfoBytes r) = infohash.

(** every torrent delivered is the one asked for. Whatever a peer sends,
    each response of an exchange carries bytes whose SHA-1 digest is the info
    hash of the request. *)
Theorem responses_verified D host port infohash d exited fuel pc :
  Forall (verified infohash) (x_responses (runMetadataExchangeLoop D host port infohash d exited fuel 0 (startExchange pc)).2).
Proof.
  eapply Forall_impl; [apply (loop_responses D host port infohash d); constructor|]. by intros r (_ & _ & ? & ?).
Qed.

(** C9: metadata is assembled from its pieces in any order. When the peer sends
    an extended handshake with the size of the info dictionary and then its
    16 KiB pieces, each once and in whatever order, the exchange delivers
    exactly that dictionary, once, and ends when the peer closes. *)
Theorem metadata_download D host port d info m id order pc :
  (forall b, len b = 32 -> D b = Ok b) -> ehm_ok m -> map_get ut_metadata (ehm_M m) = id -> 0 < id -> ehm_MetadataSize m = len info ->
  info <> [] -> len info <= 2 ^ 40 -> order ≡ₚ seq 0 (chunks_num info) ->
  (forall payload, EncodeBytes (ehm_val D m) = Ok payload ->
     let msgs := handshake_msg payload :: map (data_msg info) order in
     Forall (sendable (pc_MaxLength pc)) msgs /\ sk_in (pc_conn pc) = concat (map Encode msgs)) ->
  exists x, runMetadataExchangeLoop D host port (Sha1.Sum info) d (fun _ => false) (S (S (length order))) 0 (startExchange pc) = (Err EOF, x) /\
    x_responses x = [MkResponse host port (PeerID (pc_ids pc)) (Sha1.Sum info) info].
Proof.
  intros HD Hm Hg Hid Hsize Hne Hlen Hperm Hmsgs. pose proof (ehm_roundtrip_lemma D HD m Hm) as Hr.
  destruct (EncodeBytes (ehm_val D m)) as [payload|?|?|]; [rewrite bind_Ok in Hr|discriminate Hr..].
  destruct (Hmsgs payload eq_refl) as [Hsend Hin]. by apply (exchange_delivers D host port (Sha1.Sum info) d info m payload id order pc).
Qed.

(** a peer can crash the downloader. A handshake that announces a metadata
    size of minus 32 KiB or less makes the slice of pieces with a negative
    length; and once a handshake was accepted, a full-sized data message for a
    piece beyond the last one is stored out of range. Both panic. *)
Theorem peer_crashes_downloader D host port infohash d x payload m msg um :
  (ehm_Decode D zeroEHM payload = Ok m -> x_utmetadataID x = 0 -> 0 < map_get ut_metadata (ehm_M m) -> ehm_MetadataSize m <= -32768 ->
   (exchange_step D host port infohash d (handshake_msg payload) x).1 = Panic "makeslice: len out of range") /\
  (forall pieces, x_pieces x = Some pieces -> x_piecesNum x = len pieces ->
   Keepalive msg = false -> Type_ msg = MTypeExtended -> ExtendedID msg = 1 ->
   um_DecodeFromPayload (MkUtMetadata 0 0 0 []) (ExtendedPayload msg) = Ok um ->
   um_MsgType um = UtMetadataExtendedMsgTypeData -> len pieces <= um_Piece um -> len (um_Data um) = BlockSize ->
   (exchange_step D host port infohash d msg x).1 = Panic "index out of range").
Proof.
  split.
  - intros Hd Hx Hid Hsize. unfold exchange_step. change (Keepalive (handshake_msg payload)) with false. cbv iota.
    unfold handleMessage, handleExtendedMessage, processExtendedHandshake. rewrite decide_True by done. rewrite decide_True by done.
    rewrite Hx. rewrite decide_False by lia. change (ExtendedPayload (handshake_msg payload)) with payload. rewrite Hd. cbv zeta.
    rewrite decide_False by lia. unfold make_pieces. rewrite decide_True; [done|]. left. unfold pieces_num, BlockSize.
    assert (Hq : Z.quot (ehm_MetadataSize m) 16384 <= -2) by (apply (Z.quot_le_mono _ (-32768) 16384); lia). case_decide; lia.
  - intros pieces Hp Hn Hk Ht Hi Hum Hty Hpiece Hdata. unfold exchange_step. rewrite Hk.
    unfold handleMessage, handleExtendedMessage, processMetadataPiece. rewrite Ht, Hi. rewrite decide_True by done. rewrite decide_False by done.
    rewrite decide_True by done. rewrite Hp, Hum, Hty. rewrite (decide_False (P := _ <> _)) by (intros Hx; by apply Hx).
    assert (Hv : validatePieceData um (x_piecesNum x) (x_metadataSize x) = Ok tt).
    { unfold validatePieceData. rewrite Hn, Hdata. cbv zeta. rewrite decide_False by lia. rewrite decide_False by tauto. done. }
    rewrite Hv. rewrite decide_False by lia. done.
Qed.

(** a delivered torrent is delivered again with every later message. Nothing
    marks the exchange as finished: once the pieces are complete, each further
    message that is neither a keepalive nor an extended message sends the
    response again. *)
Theorem response_repeated D host port infohash d x pieces msgs :
  x_pieces x = Some pieces -> isMetadataComplete pieces = true -> Sha1.Sum (concat pieces) = infohash ->
  Forall (fun m => Keepalive m = false /\ Type_ m <> MTypeExtended) msgs ->
  let x' := fold_left (fun x m => (exchange_step D host port infohash d m x).2) msgs x in
  x_responses x' = x_responses x ++ replicate (length msgs) (MkResponse host port (PeerID (pc_ids (x_conn x))) infohash (concat pieces)).
Proof.
  intros Hp Hc Hs Hm x'. unfold x'. clear x'. revert x Hp. induction Hm as [|m msgs [Hk Ht] _ IH]; intros x Hp; cbn [fold_left]; [cbn; by rewrite app_nil_r|].
  assert (E : exists dht, (exchange_step D host port infohash d m x).2 =
    MkExchange (x_pieces x) (x_piecesNum x) (x_metadataSize x) (x_utmetadataID x) (x_conn x)
      (x_responses x ++ [MkResponse host port (PeerID (pc_ids (x_conn x))) infohash (concat pieces)]) dht).
  { unfold exchange_step, handleMessage. rewrite Hk, decide_False by done.
    destruct (decide (Type_ m = MTypePort)); [destruct (td_ondht d)|]; unfold checkAndFinalizeMetadata; cbn [call_dht x_pieces]; rewrite Hp, Hc;
      unfold finalizeMetadata; rewrite decide_True by done; eexists; unfold respond; cbn; rewrite ?Hp; reflexivity. }
  destruct E as [dht E]. rewrite E, IH by done. cbn [x_responses x_conn length replicate]. by rewrite <- app_assoc.
Qed.

(** ** Witnesses *)
Definition demo_info : bytes := bs "d6:lengthi5e4:name1:ae".
Definition demo_m : ExtendedHandshakeMsg := MkEHM (Some [(ut_metadata, 3)]) [] 0 0 None [] [] (len demo_info).
Definition demo_payload : bytes := match EncodeBytes (ehm_val demo_DestHash demo_m) with Ok b => b | _ => [] end.
Definition demo_conn (inp : bytes) : PeerConn := NewPeerConn (MkSock inp [] None) zeroHash zeroHash.
Definition demo_input : bytes := concat (map Encode [handshake_msg demo_payload; data_msg demo_info 0]).
Definition demo_d : TorrentDownloader := NewTorrentDownloader zeroHash.

Lemma metadata_download_witness :
  exists x, runMetadataExchangeLoop demo_DestHash (bs "h") 1 (Sha1.Sum demo_info) demo_d (fun _ => false) 3 0 (startExchange (demo_conn demo_input)) = (Err EOF, x) /\
    x_responses x = [MkResponse (bs "h") 1 zeroHash (Sha1.Sum demo_info) demo_info].
Proof.
  apply (metadata_download demo_DestHash (bs "h") 1 demo_d demo_info demo_m 3 [0%nat] (demo_conn demo_input)).
  - intros b Hb. unfold demo_DestHash. rewrite decide_True by exact Hb. reflexivity.
  - split; [split; [constructor; constructor|constructor; [vm_compute; intuition congruence|constructor]]|]. vm_compute. intuition congruence.
  - reflexivity.
  - lia.
  - reflexivity.
  - discriminate.
  - vm_compute. discriminate.
  - reflexivity.
  - intros payload E. assert (payload = demo_payload) as -> by (unfold demo_payload; rewrite E; reflexivity).
    split; [|vm_compute; reflexivity]. apply (bool_decide_unpack _). vm_compute. exact I.
Defined.

Definition bad_size : bytes := bs "d1:md11:ut_metadatai3ee13:metadata_sizei-40000ee".
Definition bad_piece : bytes := bs "d8:msg_typei1e5:piecei7ee" ++ replicate (Z.to_nat BlockSize) 0.
Definition one_piece : Exchange := MkExchange (Some [[]]) 1 10 3 (demo_conn []) [] [].

Lemma peer_crashes_downloader_witness :
  (exchange_step demo_DestHash (bs "h") 1 zeroHash demo_d (handshake_msg bad_size) (startExchange (demo_conn []))).1 = Panic "makeslice: len out of range" /\
  (exchange_step demo_DestHash (bs "h") 1 zeroHash demo_d (set_Extended (mtype MTypeExtended) 1 bad_piece) one_piece).1 = Panic "index out of range".
Proof.
  split.
  - apply (proj1 (peer_crashes_downloader demo_DestHash (bs "h") 1 zeroHash demo_d (startExchange (demo_conn [])) bad_size
      (MkEHM (Some [(ut_metadata, 3)]) [] 0 0 None [] [] (-40000)) zeroMessage (MkUtMetadata 0 0 0 []))).
    + vm_compute. reflexivity.
    + reflexivity.
    + reflexivity.
    + vm_compute. discriminate.
  - apply (proj2 (peer_crashes_downloader demo_DestHash (bs "h") 1 zeroHash demo_d one_piece [] zeroEHM
      (set_Extended (mtype MTypeExtended) 1 bad_piece) (MkUtMetadata 1 7 0 (replicate (Z.to_nat BlockSize) 0))) [[]]).
    + reflexivity.
    + reflexivity.
    + reflexivity.
    + reflexivity.
    + reflexivity.
    + vm_compute. reflexivity.
    + reflexivity.
    + vm_compute. discriminate.
    + vm_compute. reflexivity.
Defined.

Lemma response_repeated_witness :
  let x := MkExchange (Some [demo_info]) 1 (len demo_info) 3 (demo_conn []) [] [] in
  len (x_responses (fold_left (fun x m => (exchange_step demo_DestHash (bs "h") 1 (Sha1.Sum demo_info) demo_d m x).2) [mtype MTypeHaveAll; mtype MTypeHaveAll] x)) = 2.
Proof.
  cbv zeta. rewrite (response_repeated demo_DestHash (bs "h") 1 (Sha1.Sum demo_info) demo_d
    (MkExchange (Some [demo_info]) 1 (len demo_info) 3 (demo_conn []) [] []) [demo_info] [mtype MTypeHaveAll; mtype MTypeHaveAll]);
    [reflexivity|reflexivity|reflexivity|vm_compute; reflexivity|repeat constructor; discriminate].
Defined.

End DownloaderFacts.
