(* ===== verification/BlockHandlers.v ===== *)
(** * The block handlers

    Models [src/downloadhandler/block_download_handler.go] and
    [src/uploadhandler/block_upload_handler.go]: the handlers of a peer
    connection that receive blocks and ask for the next one. The callbacks
    [OnBlock] and [RequestBlock] ([RespondBlock]) are the user's; they are
    arguments over a state of type [H]. *)

From S2P Require Import Prelude Strconv Bencode BencodeFacts BencodeTyped Pieces PeerMessage Extension PeerConn PeerConnFacts.
Import Pieces PeerMessage PeerConn PeerConnFacts.

Module BlockHandlers.

Definition ErrChoked : string := "choked".

Section Handlers.
Context {H : Type}.
Abbreviation action := (PeerConn -> H -> PeerConn * H * option string).

(** [Info.CountPieces], and the two callbacks. *)
Record Block := MkBlock {
  countPieces : Z;
  OnBlock : Z -> Z -> bytes -> H -> H * option string;
  RequestBlock : action
}.
Context (fd : Block).

Definition request : action := fun pc h => if PeerChoked (pc_remote pc) then (pc, h, Some ErrChoked) else RequestBlock fd pc h.

Definition handler_Piece (i b : Z) (p : bytes) : action := fun pc h =>
  match OnBlock fd i b p h with (h, None) => request pc h | (h, Some e) => (pc, h, Some e) end.

Definition handler_OnHandShake : action := fun pc h =>
  match SetUnchoked None pc h with (pc, h, None) => SetInterested None pc h | o => o end.

Definition map_BitField (f : bytes -> bytes) (pc : PeerConn) : PeerConn := set_remote (set_PeerBitField (f (pc_BitField (pc_remote pc))) (pc_remote pc)) pc.

Definition handler_Have (index : Z) : action := fun pc h => (map_BitField (fun bf => Set_ bf index) pc, h, None).
Definition handler_HaveAll : action := fun pc h => (map_BitField (fun _ => NewBitField (countPieces fd) true) pc, h, None).
Definition handler_Reject (index begin length : Z) : action := fun pc h => request (map_BitField (fun bf => Unset bf index) pc) h.

(** The methods of the handler; the others are those of the embedded no-op
    handlers, among them [Request]. *)
Definition BlockDownloadHandler : Handler (H := H) :=
  MkHandler handler_OnHandShake (fun _ => noop) (fun pc h => (pc, h))
    (Some (MkBep3 noop request noop noop handler_Have (fun _ => noop) (fun _ _ _ => noop) handler_Piece (fun _ _ _ => noop)))
    None
    (Some (MkBep6 handler_HaveAll noop (fun _ => noop) (fun _ => noop) handler_Reject))
    None.

(** [respond] and the other methods are those of the download handler with
    [RespondBlock] for [RequestBlock]. *)
Definition BlockUploadHandler : Handler (H := H) := BlockDownloadHandler.
End Handlers.
Arguments Block H : clear implicits.

(** ** Sessions

    A handler whose callbacks record that they were called. *)
Inductive event := EBlock (index offset : Z) (b : bytes) | ERequest.

Definition logging (n : Z) : Block (list event) :=
  MkBlock n (fun i b p h => (h ++ [EBlock i b p], None)) (fun pc h => (pc, h ++ [ERequest], None)).

(** What a message makes the handler do. *)
Definition events_of (m : Message) : list event :=
  if Keepalive m then []
  else if decide (Type_ m = MTypeUnchoke) then [ERequest]
  else if decide (Type_ m = MTypePiece) then [EBlock (Index m) (Begin m) (Piece m); ERequest]
  else if decide (Type_ m = MTypeReject) then [ERequest]
  else [].

(** Whether the peer chokes after a message. *)
Definition choked_after (choked : bool) (m : Message) : bool :=
  if Keepalive m then choked
  else if decide (Type_ m = MTypeChoke) then true
  else if decide (Type_ m = MTypeUnchoke) then false
  else choked.

(** No block or rejection arrives while the peer chokes. *)
Fixpoint never_choked (choked : bool) (ms : list Message) : Prop :=
  match ms with
  | [] => True
  | m :: ms' => (choked = true -> ERequest ∉ events_of m \/ Type_ m = MTypeUnchoke) /\ never_choked (choked_after choked m) ms'
  end.

(** The handler of each type of message, on a connection. *)
Ltac run_handler :=
  unfold dispatch, handleBep3Message, handleBep5Message, handleBep6Message, handleBep10Message,
    handleBitFieldMessage, handleSuggestMessage, handleHaveAllMessage, handleHaveNoneMessage, handleRejectMessage, handleAllowedFastMessage,
    invokeBep3Handler, invokeBep6Handler, upd, fail, request, handler_Piece, handler_Have, handler_HaveAll, handler_Reject, request, map_BitField, noop;
  cbn [as_bep3 as_bep5 as_bep6 as_bep10 BlockDownloadHandler OnMessage h_Choke h_Unchoke h_Interested h_NotInterested h_Have h_BitField h_Request
    h_Piece h_Cancel h_HaveAll h_HaveNone h_Suggest h_AllowedFast h_Reject OnBlock RequestBlock countPieces logging];
  unfold request, handler_Piece, handler_Have, handler_HaveAll, handler_Reject, request, map_BitField, noop; cbn [OnBlock RequestBlock countPieces logging].

Lemma message_log D n m pc h pc1 h1 : HandleMessage D (BlockDownloadHandler (logging n)) m pc h = (pc1, h1, None) ->
  h1 = h ++ events_of m /\ PeerChoked (pc_remote pc1) = choked_after (PeerChoked (pc_remote pc)) m /\
  (PeerChoked (pc_remote pc) = true -> ERequest ∉ events_of m \/ Type_ m = MTypeUnchoke).
Proof.
  unfold HandleMessage, events_of, choked_after. destruct (Keepalive m); [intros [= <- <-]; rewrite app_nil_r; set_solver|].
  destruct (type_cases (Type_ m)) as [E|[E|[E|[E|(E1 & E2 & E3 & E4)]]]];
    [repeat (apply elem_of_cons in E as [E|E]); [..|by apply elem_of_nil in E]| |repeat (apply elem_of_cons in E as [E|E]); [..|by apply elem_of_nil in E]| |].
  1-16: unfold dispatch; rewrite E; known_type; run_handler; rewrite ?E; known_type;
    repeat (case_match; try done); intros [= <- <-]; simplify_eq; cbn in *; rewrite <- ?app_assoc, ?app_nil_r; split_and!; try done;
    try (intros; congruence); try (by right); try (intros _; left; set_solver).
  unfold dispatch. rewrite E1, E3. rewrite (decide_False (P := Type_ m = MTypePort)), (decide_False (P := Type_ m = MTypeExtended)) by done.
  unfold isBep3MessageType, isBep6MessageType in *. apply bool_decide_eq_false in E1, E3. repeat rewrite not_elem_of_cons in E1. repeat rewrite not_elem_of_cons in E3.
  destruct_and!. intros [= <- <-]. cbn. repeat (case_decide; [congruence|]). rewrite app_nil_r. split_and!; [done|done|]. intros _. left. set_solver.
Qed.

(** ** Properties *)

(** the block handler stores every block and asks for the next. In a
    conversation it accepts, each block received is handed to [OnBlock] in
    order and followed by one request, each unchoke and each rejection makes
    one request, nothing else makes any, and no block or rejection was accepted
    while the peer was choking. *)
Theorem block_session D n ms pc pc' log :
  handle_all D (BlockDownloadHandler (logging n)) ms pc [] = (pc', log, None) ->
  log = flat_map events_of ms /\ never_choked (PeerChoked (pc_remote pc)) ms.
Proof.
  assert (Hgen : forall h, handle_all D (BlockDownloadHandler (logging n)) ms pc h = (pc', log, None) ->
    log = h ++ flat_map events_of ms /\ never_choked (PeerChoked (pc_remote pc)) ms); [|intros Ha; exact (Hgen [] Ha)].
  revert pc. induction ms as [|m ms IH]; intros pc h; [intros [= <- <-]; cbn; by rewrite app_nil_r|].
  intros Ha. apply handle_all_cons in Ha as (pc1 & h1 & E & Ha). apply message_log in E as (-> & Hc & Hn).
  destruct (IH pc1 _ Ha) as [-> Hrest]. cbn [flat_map never_choked]. rewrite app_assoc. rewrite <- Hc. done.
Qed.

(** the upload handler answers no requests. A request for a block leaves
    its state and the connection as they were and writes nothing; blocks are
    only sent when the peer sends one itself or unchokes. *)
Theorem upload_ignores_requests D {H} (fd : Block H) m pc h :
  Keepalive m = false -> Type_ m = MTypeRequest ->
  HandleMessage D (BlockUploadHandler fd) m pc h = (set_priv (MkPrivate true (extHandshake (pc_priv pc))) pc, h, None).
Proof. intros Hk E. unfold HandleMessage, dispatch, handleBep3Message. rewrite Hk, E. known_type. done. Qed.

(** ** Witnesses *)
Lemma block_session_witness :
  let piece := set_Piece (set_Begin (set_Index (mtype MTypePiece) 2) 0) [7; 8] in
  exists pc' log, handle_all demo_D (BlockDownloadHandler (logging 9)) [mtype MTypeUnchoke; piece] (demo_pc []) [] = (pc', log, None) /\
    log = [ERequest; EBlock 2 0 [7; 8]; ERequest].
Proof.
  cbv zeta. eexists _, _. split; [vm_compute; reflexivity|].
  refine (proj1 (block_session demo_D 9 [mtype MTypeUnchoke; set_Piece (set_Begin (set_Index (mtype MTypePiece) 2) 0) [7; 8]] (demo_pc []) _ _ _)).
  vm_compute. reflexivity.
Defined.

Lemma upload_ignores_requests_witness :
  (HandleMessage demo_D (BlockUploadHandler (logging 9)) (request_like MTypeRequest 1 0 16384) (demo_pc []) []).1.2 = [].
Proof. rewrite (upload_ignores_requests demo_D (logging 9) (request_like MTypeRequest 1 0 16384) (demo_pc []) [] eq_refl eq_refl). reflexivity. Defined.

End BlockHandlers.
