(* ===== verification/Url.v ===== *)
(** * URLs and query strings

    The part of Go's [net/url] the sources use: [Parse] up to the scheme, the
    host and the query, escaping, and [Values]. What an authority may look like
    has changed between releases of Go: [parseAuthority], which gives the host,
    is a parameter. So is the limit on the number of query parameters. *)

From S2P Require Import Prelude GoLib.
Import GoLib.

Module Url.

(** ** Escaping *)
Definition unreserved (c : Z) : bool :=
  bool_decide (97 <= c <= 122) || bool_decide (65 <= c <= 90) || bool_decide (48 <= c <= 57) || bool_decide (c ∈ [45; 95; 46; 126]).

Definition upper_hex (n : Z) : Z := if decide (n < 10) then 48 + n else 55 + n.

Definition escape_byte (c : Z) : bytes :=
  if decide (c = 32) then [43] else if unreserved c then [c] else [37; upper_hex (c / 16); upper_hex (c mod 16)].
Definition QueryEscape (s : bytes) : bytes := concat (map escape_byte s).

Definition hex_value (c : Z) : option Z :=
  if decide (48 <= c <= 57) then Some (c - 48)
  else if decide (97 <= c <= 102) then Some (c - 87)
  else if decide (65 <= c <= 70) then Some (c - 55)
  else None.

(** [unescape] of a path, a fragment or ([plus]) a query component. *)
Fixpoint unescape (plus : bool) (s : bytes) : option bytes :=
  match s with
  | [] => Some []
  | c :: s' =>
      if decide (c = 37) then
        match s' with
        | a :: b :: s'' =>
            match hex_value a, hex_value b, unescape plus s'' with
            | Some x, Some y, Some t => Some (16 * x + y :: t)
            | _, _, _ => None
            end
        | _ => None
        end
      else match unescape plus s' with
           | Some t => Some ((if plus && bool_decide (c = 43) then 32 else c) :: t)
           | None => None
           end
  end.
Definition QueryUnescape (s : bytes) : option bytes := unescape true s.

(** ** Query strings *)

(** [strings.Cut]; without the separator the second part is empty. *)
Definition Cut (sep : Z) (s : bytes) : bytes * bytes := match cut sep s with Some p => p | None => (s, []) end.

Fixpoint split_on (sep : Z) (s cur : bytes) : list bytes :=
  match s with
  | [] => [cur]
  | c :: s' => if decide (c = sep) then cur :: split_on sep s' [] else split_on sep s' (cur ++ [c])
  end.

Definition parse_pair (part : bytes) : list (bytes * bytes) :=
  if Contains_byte part 59 || bool_decide (part = []) then []
  else
    let '(k, v) := Cut 61 part in
    match QueryUnescape k, QueryUnescape v with Some k, Some v => [(k, v)] | _, _ => [] end.

Abbreviation Values := (gmap bytes (list bytes)).

Definition Add (k v : bytes) (vs : Values) : Values := <[k := default [] (vs !! k) ++ [v]]> vs.
Definition group (ps : list (bytes * bytes)) : Values := fold_left (fun vs p => Add p.1 p.2 vs) ps ∅.

(** [u.Query()]: what could be parsed; nothing beyond the limit. *)
Definition ParseQuery (maxParams : option Z) (query : bytes) : Values :=
  let parts := split_on 38 query [] in
  match maxParams with
  | Some n => if decide (n < len parts) then ∅ else group (flat_map parse_pair parts)
  | None => group (flat_map parse_pair parts)
  end.

Definition Get (vs : Values) (k : bytes) : bytes := match vs !! k with Some (v :: _) => v | _ => [] end.

Fixpoint join_amp (l : list bytes) : bytes :=
  match l with [] => [] | [x] => x | x :: l' => x ++ 38 :: join_amp l' end.

Definition pair_text (p : bytes * bytes) : bytes := QueryEscape p.1 ++ 61 :: QueryEscape p.2.

(** The pairs [Encode] writes, by key. *)
Definition pairs (vs : Values) : list (bytes * bytes) := flat_map (fun e => map (fun v => (e.1, v)) e.2) (sort_keys (map_to_list vs)).
Definition Encode (vs : Values) : bytes := join_amp (map pair_text (pairs vs)).

(** ** [url.Parse] *)
(** [u_RequestURI] is what [RequestURI] of the parsed URL returns. *)
Record URL := MkURL { u_Scheme : bytes; u_Opaque : bytes; u_Host : bytes; u_Path : bytes; u_RawQuery : bytes; u_RequestURI : bytes }.

(** [EscapedPath] of a path that was parsed from the text [raw]. *)
Definition path_escaped (c : Z) : bool := negb (unreserved c) && negb (bool_decide (c ∈ [36; 38; 43; 44; 47; 58; 59; 61; 64])).
Definition escape_path (s : bytes) : bytes :=
  concat (map (fun c => if path_escaped c then [37; upper_hex (c / 16); upper_hex (c mod 16)] else [c]) s).
Definition validEncoded (s : bytes) : bool :=
  forallb (fun c => bool_decide (c ∈ [33; 36; 38; 39; 40; 41; 42; 43; 44; 59; 61; 58; 64; 91; 93; 37]) || negb (path_escaped c)) s.
Definition EscapedPath (raw path : bytes) : bytes :=
  if bool_decide (raw = escape_path path) then raw else if validEncoded raw then raw else if bool_decide (path = [42]) then [42] else escape_path path.

(** [RequestURI] from the opaque part or the escaped path, with the query when
    there is one or the URL ended in a lone question mark. *)
Definition RequestURI (path : bytes) (query : option bytes) : bytes :=
  (if decide (path = []) then [47] else path) ++ match query with Some q => 63 :: q | None => [] end.

Definition is_letter (c : Z) : bool := bool_decide (97 <= c <= 122) || bool_decide (65 <= c <= 90).
Definition scheme_other (c : Z) : bool := bool_decide (48 <= c <= 57) || bool_decide (c ∈ [43; 45; 46]).

(** [getScheme] after the characters [pre]. *)
Fixpoint getScheme (pre s : bytes) : res (bytes * bytes) :=
  match s with
  | [] => Ok ([], pre)
  | c :: s' =>
      if is_letter c then getScheme (pre ++ [c]) s'
      else if scheme_other c then (if decide (pre = []) then Ok ([], s) else getScheme (pre ++ [c]) s')
      else if decide (c = 58) then (if decide (pre = []) then Err "missing protocol scheme" else Ok (pre, s'))
      else Ok ([], pre ++ s)
  end.

Definition ToLower (s : bytes) : bytes := map (fun c => if decide (65 <= c <= 90) then c + 32 else c) s.

Definition has_ctl (s : bytes) : bool := existsb (fun c => bool_decide (c < 32) || bool_decide (c = 127)) s.

Section Parse.
Variable parseAuthority : bytes -> res bytes.

Definition parse (rawURL : bytes) : res URL :=
  if has_ctl rawURL then Err "net/url: invalid control character in URL"
  else if decide (rawURL = [42]) then Ok (MkURL [] [] [] [42] [] [42])
  else
    '(scheme, rest) ← getScheme [] rawURL;
    let scheme := ToLower scheme in
    let asked := cut 63 rest in
    let '(rest, query) := Cut 63 rest in
    let uri path := RequestURI path (if bool_decide (asked = None) then None else Some query) in
    if negb (HasPrefix rest [47]) && negb (bool_decide (scheme = [])) then Ok (MkURL scheme rest [] [] query (uri rest))
    else if negb (HasPrefix rest [47]) && Contains_byte (Cut 47 rest).1 58 then Err "first path segment in URL cannot contain colon"
    else
      let with_authority := (negb (bool_decide (scheme = [])) || negb (HasPrefix rest [47; 47; 47])) && HasPrefix rest [47; 47] in
      '(host, path) ← (if with_authority then
          let authority := drop 2 rest in
          let '(a, p) := match cut 47 authority with Some (a, p) => (a, 47 :: p) | None => (authority, []) end in
          h ← parseAuthority a; Ok (h, p)
        else Ok ([], rest));
      match unescape false path with
      | Some p => Ok (MkURL scheme [] host p query (uri (EscapedPath path p)))
      | None => Err "invalid URL escape"
      end.

Definition Parse (rawURL : bytes) : res URL :=
  let '(u, frag) := Cut 35 rawURL in
  url ← parse u;
  match unescape false frag with Some _ => Ok url | None => Err "invalid URL escape" end.
End Parse.

Example parse_http : Parse (fun a => Ok a) (bs "HTTP://h:80/a%20b?q=1#f") = Ok (MkURL (bs "http") [] (bs "h:80") (bs "/a b") (bs "q=1") (bs "/a%20b?q=1")).
Proof. vm_compute. reflexivity. Qed.
Example parse_magnet : Parse (fun a => Ok a) (bs "magnet:?xt=u&dn=a+b") = Ok (MkURL (bs "magnet") [] [] [] (bs "xt=u&dn=a+b") (bs "/?xt=u&dn=a+b")).
Proof. vm_compute. reflexivity. Qed.

(** ** Lemmas *)
Lemma upper_hex_value n : 0 <= n < 16 -> hex_value (upper_hex n) = Some n.
Proof.
  intros Hn. assert (H : Forall (fun n => hex_value (upper_hex n) = Some n) (seqZ 0 16)) by (apply (bool_decide_unpack _); vm_compute; exact I).
  rewrite Forall_forall in H. apply H, elem_of_seqZ. lia.
Qed.

Lemma unescape_escape_byte c s : is_byte c -> unescape true (escape_byte c ++ s) = (t ← unescape true s; Some (c :: t)).
Proof.
  intros Hc. unfold is_byte in Hc. unfold escape_byte. case_decide as E; [subst c; cbn; by destruct (unescape true s)|].
  destruct (unreserved c) eqn:Eu.
  - cbn [app unescape]. assert (c <> 37 /\ c <> 43) as [H1 H2] by (split; intros ->; vm_compute in Eu; discriminate).
    rewrite decide_False by done. rewrite (bool_decide_false (c = 43)) by done. cbn. by destruct (unescape true s).
  - cbn [app unescape]. rewrite decide_True by done. rewrite !upper_hex_value;
      [|apply Z.mod_pos_bound; lia|split; [apply Z.div_pos; lia|apply Z.div_lt_upper_bound; lia]].
    destruct (unescape true s); cbn; [|done]. f_equal. f_equal. pose proof (Z.div_mod c 16). lia.
Qed.

Lemma QueryUnescape_QueryEscape s : bytes_ok s -> QueryUnescape (QueryEscape s) = Some s.
Proof.
  unfold QueryUnescape, QueryEscape. induction 1 as [|c s Hc Hs IH]; cbn [map concat]; [done|].
  rewrite unescape_escape_byte by done. by rewrite IH.
Qed.

(** What an escaped text consists of. *)
Definition escaped (c : Z) : Prop := unreserved c = true \/ c = 43 \/ c = 37.

Lemma QueryEscape_chars s : bytes_ok s -> Forall escaped (QueryEscape s).
Proof.
  assert (Hh : forall n, 0 <= n < 16 -> escaped (upper_hex n)).
  { intros n Hn. left. assert (H : Forall (fun n => unreserved (upper_hex n) = true) (seqZ 0 16)) by (apply (bool_decide_unpack _); vm_compute; exact I).
    rewrite Forall_forall in H. apply H, elem_of_seqZ. lia. }
  unfold QueryEscape. induction 1 as [|c s Hc Hs IH]; cbn [map concat]; [constructor|]. apply Forall_app. split; [|done]. unfold is_byte in Hc.
  unfold escape_byte. case_decide; [apply Forall_singleton; unfold escaped; tauto|]. destruct (unreserved c) eqn:E; [apply Forall_singleton; by left|].
  apply Forall_cons_2, Forall_cons_2, Forall_singleton; [unfold escaped; tauto|apply Hh; split; [apply Z.div_pos; lia|apply Z.div_lt_upper_bound; lia]|apply Hh, Z.mod_pos_bound; lia].
Qed.

Lemma escaped_not c : escaped c -> (c ∉ [35; 38; 59; 61; 63]) /\ 32 < c < 127.
Proof.
  intros H. assert (Hr : 32 < c < 127).
  { destruct H as [H|[->| ->]]; [|lia..]. unfold unreserved in H. rewrite !orb_true_iff, !bool_decide_eq_true in H.
    destruct H as [[[H|H]|H]|H]; try lia. repeat (apply elem_of_cons in H as [->|H]; [lia|]). by apply elem_of_nil in H. }
  split; [|done]. intros Hin. repeat (apply elem_of_cons in Hin as [->|Hin]; [destruct H as [H|[H|H]]; vm_compute in H; discriminate|]). by apply elem_of_nil in Hin.
Qed.

(** ** Query strings written and read *)
Lemma split_on_stop sep s cur : sep ∉ s -> split_on sep s cur = [cur ++ s].
Proof.
  revert cur. induction s as [|c s IH]; intros cur Hn; cbn [split_on]; [by rewrite app_nil_r|]. apply not_elem_of_cons in Hn as [Hc Hn].
  rewrite decide_False by done. rewrite IH by done. by rewrite <- app_assoc.
Qed.

Lemma split_on_app sep s t cur : sep ∉ s -> split_on sep (s ++ sep :: t) cur = (cur ++ s) :: split_on sep t [].
Proof.
  revert cur. induction s as [|c s IH]; intros cur Hn; cbn [split_on app]; [rewrite decide_True by done; by rewrite app_nil_r|].
  apply not_elem_of_cons in Hn as [Hc Hn]. rewrite decide_False by done. rewrite IH by done. by rewrite <- app_assoc.
Qed.

Lemma split_join l : Forall (fun x => 38 ∉ x) l -> l <> [] -> split_on 38 (join_amp l) [] = l.
Proof.
  induction 1 as [|x l Hx Hl IH]; [done|]. intros _. destruct l as [|y l]; cbn [join_amp]; [by rewrite split_on_stop|].
  rewrite split_on_app by done. cbn [app]. f_equal. by apply IH.
Qed.

Definition pair_ok (p : bytes * bytes) : Prop := bytes_ok p.1 /\ bytes_ok p.2.

Lemma escape_free s c : bytes_ok s -> c ∈ [35; 38; 59; 61; 63] -> c ∉ QueryEscape s.
Proof. intros Hs Hc Hin. pose proof (QueryEscape_chars s Hs) as He. rewrite Forall_forall in He. by apply (proj1 (escaped_not c (He c Hin))). Qed.

Lemma pair_text_free p c : pair_ok p -> c ∈ [35; 38; 59; 63] -> c ∉ pair_text p.
Proof.
  intros [H1 H2] Hc. unfold pair_text. rewrite elem_of_app, elem_of_cons.
  assert ((c ∉ QueryEscape p.1) /\ (c ∉ QueryEscape p.2)) as [N1 N2] by (split; apply escape_free; set_solver).
  intros [?|[->|?]]; [done| |done]. set_solver.
Qed.

Lemma parse_pair_text p : pair_ok p -> parse_pair (pair_text p) = [p].
Proof.
  intros Hp. pose proof Hp as [H1 H2]. unfold parse_pair, Contains_byte. rewrite bool_decide_false by (apply pair_text_free; set_solver).
  rewrite bool_decide_false by (unfold pair_text; destruct (QueryEscape p.1); discriminate). cbn [orb].
  assert (E : Cut 61 (pair_text p) = (QueryEscape p.1, QueryEscape p.2)).
  { unfold Cut, pair_text. by rewrite cut_app by (apply escape_free; set_solver). }
  rewrite E, !QueryUnescape_QueryEscape by done. by destruct p.
Qed.

Lemma parse_pairs_text ps : Forall pair_ok ps -> flat_map parse_pair (map pair_text ps) = ps.
Proof. induction 1 as [|p ps Hp _ IH]; cbn [map flat_map]; [done|]. rewrite parse_pair_text by done. cbn. by rewrite IH. Qed.

(** The values of a key, in order. *)
Definition values_of (k : bytes) (ps : list (bytes * bytes)) : list bytes := map snd (filter (fun p => p.1 = k) ps).

Lemma group_lookup_from ps vs k :
  fold_left (fun vs p => Add p.1 p.2 vs) ps vs !! k =
  match values_of k ps with [] => vs !! k | l => Some (default [] (vs !! k) ++ l) end.
Proof.
  revert vs. induction ps as [|p ps IH]; intros vs; cbn [fold_left]; [done|]. rewrite IH. unfold values_of. rewrite filter_cons. unfold Add.
  case_decide as E.
  - subst k. rewrite lookup_insert_eq. cbn [map default from_option id]. destruct (map snd (filter _ ps)); [done|]. cbn. by rewrite <- app_assoc.
  - rewrite lookup_insert_ne by done. done.
Qed.

Lemma group_lookup ps k : group ps !! k = match values_of k ps with [] => None | l => Some l end.
Proof. unfold group. rewrite group_lookup_from, lookup_empty. by destruct (values_of k ps). Qed.

Lemma values_of_app k ps qs : values_of k (ps ++ qs) = values_of k ps ++ values_of k qs.
Proof. unfold values_of. by rewrite filter_app, map_app. Qed.

Lemma values_of_own k k' (l : list bytes) : values_of k (map (fun v => (k', v)) l) = if decide (k' = k) then l else [].
Proof.
  unfold values_of. induction l as [|v l IH]; cbn [map]; [by case_decide|]. rewrite filter_cons. cbn [fst].
  destruct (decide (k' = k)); cbn [map snd]; by rewrite IH.
Qed.

(** Writing a map and grouping what was written gives its non-empty lists. *)
Lemma pairs_values vs k : values_of k (pairs vs) = default [] (vs !! k).
Proof.
  unfold pairs. assert (Hperm : sort_keys (map_to_list vs) ≡ₚ map_to_list vs) by apply merge_sort_Permutation.
  assert (Hnd : NoDup (sort_keys (map_to_list vs)).*1) by (rewrite Hperm; apply NoDup_fst_map_to_list).
  assert (Hin : forall l, (k, l) ∈ sort_keys (map_to_list vs) <-> vs !! k = Some l) by (intros l; rewrite Hperm; apply elem_of_map_to_list).
  revert Hnd Hin. generalize (sort_keys (map_to_list vs)). intros es Hnd Hin.
  destruct (vs !! k) as [l|] eqn:E; cbn [default from_option].
  - assert (Hl : (k, l) ∈ es) by (by apply Hin). clear Hin E. induction es as [|[k' l'] es IH]; [by apply elem_of_nil in Hl|].
    cbn [flat_map fst snd] in *. rewrite values_of_app, values_of_own. apply NoDup_cons in Hnd as [Hk Hnd]. apply elem_of_cons in Hl as [[= <- <-]|Hl].
    + rewrite decide_True by done. assert (Hrest : values_of k (flat_map (fun e => map (fun v => (e.1, v)) e.2) es) = []).
      { clear -Hk. induction es as [|[k' l'] es IH]; [done|]. cbn [flat_map fst snd fmap list_fmap] in *. apply not_elem_of_cons in Hk as [Hk' Hk].
        rewrite values_of_app, values_of_own, decide_False by (intros ->; by apply Hk'). by apply IH. }
      rewrite Hrest. apply app_nil_r.
    + rewrite decide_False; [by apply IH|]. intros ->. apply Hk. by apply (list_elem_of_fmap_2' fst es (k, l)).
  - assert (Hno : forall l, (k, l) ∉ es) by (intros l Hl; by apply Hin in Hl). clear Hin Hnd E. induction es as [|[k' l'] es IH]; [done|].
    cbn [flat_map fst snd]. rewrite values_of_app, values_of_own, decide_False by (intros ->; apply (Hno l'); left). apply IH. intros l Hl. apply (Hno l). by right.
Qed.

Lemma pairs_ok vs : (forall k l, vs !! k = Some l -> bytes_ok k /\ Forall bytes_ok l) -> Forall pair_ok (pairs vs).
Proof.
  intros Hvs. apply Forall_forall. intros [k v] Hp. unfold pairs in Hp. apply list_elem_of_In, in_flat_map in Hp as ([k' l] & Hin & Hp).
  apply in_map_iff in Hp as (v' & [= <- <-] & Hv). apply list_elem_of_In in Hin, Hv.
  assert (Hk : vs !! k' = Some l) by (apply elem_of_map_to_list; by rewrite <- (merge_sort_Permutation key_le (map_to_list vs))).
  apply Hvs in Hk as [Hk Hl]. cbn. split; [done|]. rewrite Forall_forall in Hl. by apply Hl.
Qed.

(** A query string is read back as the values it was made from. *)
Definition values_wf (vs : Values) : Prop := forall k l, vs !! k = Some l -> bytes_ok k /\ Forall bytes_ok l /\ l <> [].

Lemma pairs_empty vs : values_wf vs -> pairs vs = [] -> vs = ∅.
Proof.
  intros Hw Hp. apply map_eq. intros k. rewrite lookup_empty. destruct (vs !! k) as [l|] eqn:E; [|done]. exfalso.
  destruct (Hw k l E) as (_ & _ & Hl). apply Hl. pose proof (pairs_values vs k) as Hv. by rewrite Hp, E in Hv.
Qed.

Lemma ParseQuery_Encode vs : values_wf vs -> ParseQuery None (Encode vs) = vs.
Proof.
  intros Hw. assert (Hok : Forall pair_ok (pairs vs)) by (apply pairs_ok; intros k l E; by destruct (Hw k l E) as (? & ? & _)).
  unfold ParseQuery, Encode. destruct (decide (pairs vs = [])) as [E|E]; [rewrite E, (pairs_empty vs Hw E); reflexivity|].
  rewrite split_join; [|apply Forall_map; eapply Forall_impl; [exact Hok|]; intros p Hp; apply pair_text_free; [done|set_solver]|by destruct (pairs vs)].
  rewrite parse_pairs_text by done. apply map_eq. intros k. rewrite group_lookup, pairs_values. destruct (vs !! k) as [l|] eqn:El; [|done].
  destruct (Hw k l El) as (_ & _ & Hl). by destruct l.
Qed.

Lemma Get_singleton vs k v : vs !! k = Some [v] -> Get vs k = v.
Proof. unfold Get. by intros ->. Qed.

End Url.
