(* ===== verification/Magnet.v ===== *)
(** * Magnet links

    Models [src/metainfo/magnet.go]: writing a magnet link, reading one, and
    the peers it names. [Params] without entries is the nil map. *)

From S2P Require Import Prelude Strconv Bencode BencodeFacts BencodeTyped Sha1 Hash Net NetFacts Address GoLib Url.
Import Strconv Hash GoLib Url.

Module Magnet.

Record Magnet := MkMagnet {
  m_InfoHash : bytes;
  m_Trackers : list bytes;
  m_DisplayName : bytes;
  m_WebSeeds : list bytes;
  m_Params : Values
}.

Definition zeroMagnet : Magnet := MkMagnet zeroHash [] [] [] ∅.
Definition xtPrefix : bytes := bs "urn:btih:".

Definition add_all (k : bytes) (l : list bytes) (vs : Values) : Values := fold_left (fun vs v => Add k v vs) l vs.

(** The values [String] encodes. *)
Definition values (m : Magnet) : Values :=
  let vs := add_all (bs "ws") (m_WebSeeds m) (add_all (bs "tr") (m_Trackers m) (m_Params m)) in
  if bool_decide (m_DisplayName m = []) then vs else Add (bs "dn") (m_DisplayName m) vs.

Definition Magnet_String (m : Magnet) : bytes :=
  let vs := values m in
  let query := bs "xt=" ++ xtPrefix ++ HexString (m_InfoHash m) in
  bs "magnet:?" ++ (if decide (size vs = 0%nat) then query else query ++ 38 :: Encode vs).

(** [hex.Decode] and [base32.StdEncoding.Decode] write into the 20 bytes of the
    hash and return the number of bytes written. *)
Definition parseInfohash (xt : bytes) : res bytes :=
  if negb (HasPrefix xt xtPrefix) then Err "bad xt parameter prefix"
  else
    let encoded := drop (length xtPrefix) xt in
    let decoded := if decide (len encoded = 40) then Some (hexDecode encoded)
                   else if decide (len encoded = 32) then Some (base32Decode encoded) else None in
    match decoded with
    | None => Err ("unhandled xt parameter encoding (encoded length " ++ format_d (len encoded) ++ ")")
    | Some (Ok b) => if decide (len b = 20) then Ok b else Panic ("invalid length '" ++ format_d (len b) ++ "' of the decoded bytes")
    | Some (Err e) => Err ("error decoding xt: " ++ e)
    | Some r => r
    end.

Definition dropFirst (vs : Values) (key : bytes) : Values :=
  match vs !! key with
  | Some (_ :: x :: l) => <[key := x :: l]> vs
  | _ => delete key vs
  end.

Section Parse.
Context (parseAuthority : bytes -> res bytes) (maxParams : option Z).

Definition ParseMagnetURI (uri : bytes) : res Magnet :=
  match Parse parseAuthority uri with
  | Err e => Err ("error parsing uri: " ++ e)
  | Panic e => Panic e
  | NoFuel => NoFuel
  | Ok u =>
      if decide (u_Scheme u <> bs "magnet") then Err "unexpected scheme"
      else
        let q := ParseQuery maxParams (u_RawQuery u) in
        match parseInfohash (Get q (bs "xt")) with
        | Err e => Err ("error parsing infohash: " ++ e)
        | Panic e => Panic e
        | NoFuel => NoFuel
        | Ok ih =>
            let q := dropFirst q (bs "xt") in
            let dn := Get q (bs "dn") in
            let q := dropFirst q (bs "dn") in
            let tr := default [] (q !! bs "tr") in
            let q := delete (bs "tr") q in
            let ws := default [] (q !! bs "ws") in
            Ok (MkMagnet ih tr dn ws (delete (bs "ws") q))
        end
  end.
End Parse.

(** [Peers]: the addresses of the [x.pe] values that are not empty. *)
Fixpoint peers_loop (vs : list bytes) : res (list Address.HostAddress) :=
  match vs with
  | [] => Ok []
  | v :: vs' =>
      if decide (v = []) then peers_loop vs'
      else (a ← Address.NewHostAddressFromString v; l ← peers_loop vs'; Ok (a :: l))
  end.
Definition Peers (m : Magnet) : res (list Address.HostAddress) := peers_loop (default [] (m_Params m !! bs "x.pe")).

(** ** Magnet links written and read *)
Lemma add_all_lookup k l vs k' : add_all k l vs !! k' = if decide (k = k') then match l with [] => vs !! k' | _ => Some (default [] (vs !! k) ++ l) end else vs !! k'.
Proof.
  unfold add_all. revert vs. induction l as [|v l IH]; intros vs; cbn [fold_left]; [by case_decide|]. rewrite IH. unfold Add.
  case_decide as E; [|by rewrite lookup_insert_ne by done]. subst k'. rewrite lookup_insert_eq. cbn [default from_option id].
  destruct l; [done|]. by rewrite <- app_assoc.
Qed.

(** A magnet link that can be written: a hash, no parameter under a key of its
    own fields, and no parameter without values. *)
Record magnet_ok (m : Magnet) : Prop := {
  mk_hash : hash_ok (m_InfoHash m);
  mk_trackers : Forall bytes_ok (m_Trackers m);
  mk_webseeds : Forall bytes_ok (m_WebSeeds m);
  mk_name : bytes_ok (m_DisplayName m);
  mk_params : forall k l, m_Params m !! k = Some l -> bytes_ok k /\ Forall bytes_ok l /\ l <> [];
  mk_keys : forall k, k ∈ [bs "xt"; bs "dn"; bs "tr"; bs "ws"] -> m_Params m !! k = None
}.

Lemma values_lookup m k : magnet_ok m ->
  values m !! k =
    (if decide (k = bs "tr") then (match m_Trackers m with [] => None | l => Some l end)
     else if decide (k = bs "ws") then (match m_WebSeeds m with [] => None | l => Some l end)
     else if decide (k = bs "dn") then (if bool_decide (m_DisplayName m = []) then None else Some [m_DisplayName m])
     else m_Params m !! k).
Proof.
  intros Hm. assert (Htr : m_Params m !! bs "tr" = None) by (apply Hm; set_solver). assert (Hws : m_Params m !! bs "ws" = None) by (apply Hm; set_solver).
  assert (Hdn : m_Params m !! bs "dn" = None) by (apply Hm; set_solver).
  assert (Hvs : forall k, add_all (bs "ws") (m_WebSeeds m) (add_all (bs "tr") (m_Trackers m) (m_Params m)) !! k =
    if decide (k = bs "tr") then (match m_Trackers m with [] => None | l => Some l end)
    else if decide (k = bs "ws") then (match m_WebSeeds m with [] => None | l => Some l end) else m_Params m !! k).
  { intros k'. rewrite !add_all_lookup. rewrite (decide_False (P := bs "tr" = bs "ws")) by done. rewrite Hws. cbn [default from_option id app].
    destruct (decide (k' = bs "tr")) as [->|N1].
    - rewrite decide_False by done. rewrite decide_True by done. rewrite Htr. by destruct (m_Trackers m).
    - destruct (decide (k' = bs "ws")) as [->|N2].
      + rewrite decide_True by done. rewrite decide_False by done. rewrite ?Hws. by destruct (m_WebSeeds m).
      + rewrite !decide_False by congruence. done. }
  unfold values. cbv zeta. case_bool_decide as E.
  - rewrite Hvs. destruct (decide (k = bs "dn")) as [->|]; [|done]. rewrite Hdn. done.
  - unfold Add. destruct (decide (k = bs "dn")) as [->|N].
    + rewrite lookup_insert_eq, Hvs. repeat (rewrite decide_False by done). rewrite Hdn. done.
    + rewrite lookup_insert_ne by congruence. rewrite Hvs. done.
Qed.

Lemma values_ok m : magnet_ok m -> Forall pair_ok (pairs (values m)).
Proof.
  intros Hm. apply pairs_ok. intros k l. rewrite values_lookup by done.
  repeat case_decide; subst; try (destruct (m_Trackers m) eqn:E; [done|]; intros [= <-]; split; [apply bs_ok|rewrite <- E; apply Hm]);
    try (destruct (m_WebSeeds m) eqn:E; [done|]; intros [= <-]; split; [apply bs_ok|rewrite <- E; apply Hm]).
  - case_bool_decide; [done|]. intros [= <-]. split; [apply bs_ok|]. repeat constructor. apply Hm.
  - intros Hl. apply Hm in Hl as (? & ? & _). done.
Qed.

(** ** The query of a link *)
Definition xt_value (m : Magnet) : bytes := xtPrefix ++ HexString (m_InfoHash m).
Definition xt_part (m : Magnet) : bytes := bs "xt=" ++ xt_value m.
Definition query_parts (m : Magnet) : list bytes := xt_part m :: map pair_text (pairs (values m)).

Lemma hex_chars h : bytes_ok h -> Forall (fun c => 48 <= c <= 57 \/ 97 <= c <= 102) (HexString h).
Proof.
  unfold HexString. induction 1 as [|c h Hc _ IH]; cbn [map concat app]; [constructor|]. unfold is_byte in Hc.
  assert (0 <= c / 16 < 16) by (split; [apply Z.div_pos; lia|apply Z.div_lt_upper_bound; lia]). pose proof (Z.mod_pos_bound c 16 ltac:(lia)).
  assert (Hd : forall n, 0 <= n < 16 -> 48 <= hex_digit n <= 57 \/ 97 <= hex_digit n <= 102) by (intros n Hn; unfold hex_digit; case_decide; lia).
  constructor; [by apply Hd|]. constructor; [by apply Hd|done].
Qed.

(** Plain characters: none that the parsers look for. *)
Lemma xt_value_chars m : magnet_ok m -> Forall (fun c => (c ∉ [35; 37; 38; 43; 59; 61; 63]) /\ 32 < c < 127) (xt_value m).
Proof.
  intros Hm. apply Forall_app. split.
  - apply (bool_decide_unpack _). vm_compute. exact I.
  - eapply Forall_impl; [apply hex_chars, Hm|]. intros c Hc. cbn beta in Hc. split; [|lia]. intros Hin. repeat (apply elem_of_cons in Hin as [->|Hin]; [lia|]). by apply elem_of_nil in Hin.
Qed.

Lemma unescape_plain s : Forall (fun c => c <> 37 /\ c <> 43) s -> QueryUnescape s = Some s.
Proof.
  unfold QueryUnescape. induction 1 as [|c s [H1 H2] _ IH]; cbn [unescape]; [done|]. rewrite decide_False by done. rewrite IH. by rewrite bool_decide_false.
Qed.

Lemma parse_xt m : magnet_ok m -> parse_pair (xt_part m) = [(bs "xt", xt_value m)].
Proof.
  intros Hm. pose proof (xt_value_chars m Hm) as Hc. unfold parse_pair, Contains_byte. rewrite bool_decide_false.
  2: { intros Hin. unfold xt_part in Hin. apply elem_of_app in Hin as [Hin|Hin]; [vm_compute in Hin; set_solver|].
       rewrite Forall_forall in Hc. destruct (Hc _ Hin) as [Hx _]. apply Hx. set_solver. }
  rewrite bool_decide_false by done. cbn [orb]. unfold xt_part. change (bs "xt=" ++ xt_value m) with (bs "xt" ++ 61 :: xt_value m).
  unfold Cut. rewrite cut_app by (vm_compute; set_solver). rewrite (unescape_plain (bs "xt")) by (apply (bool_decide_unpack _); vm_compute; exact I).
  rewrite unescape_plain; [done|]. eapply Forall_impl; [exact Hc|]. intros c [Hx _]. set_solver.
Qed.

Lemma values_nonempty m k l : magnet_ok m -> values m !! k = Some l -> l <> [].
Proof.
  intros Hm. rewrite values_lookup by done. repeat case_decide; [by destruct (m_Trackers m); [|intros [= <-]]|by destruct (m_WebSeeds m); [|intros [= <-]]
    |case_bool_decide; [done|by intros [= <-]]|]. intros Hl. by apply Hm in Hl as (_ & _ & ?).
Qed.

Lemma values_xt m : magnet_ok m -> values m !! bs "xt" = None.
Proof. intros Hm. rewrite values_lookup by done. rewrite !decide_False by done. apply Hm. set_solver. Qed.

Lemma query_group m : magnet_ok m -> group (flat_map parse_pair (query_parts m)) = <[bs "xt" := [xt_value m]]> (values m).
Proof.
  intros Hm. unfold query_parts. cbn [flat_map]. rewrite parse_xt, parse_pairs_text by (done || by apply values_ok).
  apply map_eq. intros k. rewrite group_lookup. cbn [app].
  assert (Ev : values_of k ((bs "xt", xt_value m) :: pairs (values m)) = (if decide (bs "xt" = k) then [xt_value m] else []) ++ default [] (values m !! k)).
  { change ((bs "xt", xt_value m) :: pairs (values m)) with ([(bs "xt", xt_value m)] ++ pairs (values m)). rewrite values_of_app, pairs_values. f_equal.
    unfold values_of. rewrite filter_cons. cbn [fst]. by case_decide. }
  rewrite Ev. destruct (decide (bs "xt" = k)) as [<-|N].
  - by rewrite lookup_insert_eq, values_xt.
  - rewrite lookup_insert_ne by done. destruct (values m !! k) as [l|] eqn:E; [|done]. cbn. apply values_nonempty in E; [|done]. by destruct l.
Qed.

Lemma query_text m : magnet_ok m -> Magnet_String m = bs "magnet:?" ++ join_amp (query_parts m).
Proof.
  intros Hm. unfold Magnet_String. cbv zeta. f_equal. unfold query_parts, Encode. case_decide as E.
  - apply map_size_empty_inv in E. rewrite E. reflexivity.
  - destruct (map pair_text (pairs (values m))) as [|p l] eqn:El; [|done]. exfalso. apply map_eq_nil in El. apply E. apply map_size_empty_iff.
    apply map_eq. intros k. rewrite lookup_empty. destruct (values m !! k) as [l|] eqn:Ek; [|done]. exfalso. apply (values_nonempty m k l); [done|done|].
    pose proof (pairs_values (values m) k) as Hv. rewrite El, Ek in Hv. by cbn in Hv.
Qed.

Lemma parts_free m : magnet_ok m -> Forall (fun x => Forall (fun c => (c ∉ [35; 38; 63]) /\ 32 < c < 127) x) (query_parts m).
Proof.
  intros Hm. constructor.
  - unfold xt_part. apply Forall_app. split; [apply (bool_decide_unpack _); vm_compute; exact I|]. eapply Forall_impl; [by apply xt_value_chars|].
    intros c [Hc Hr]. split; [set_solver|done].
  - apply Forall_map. eapply Forall_impl; [by apply values_ok|]. intros p [H1 H2]. unfold pair_text. apply Forall_app. split; [|constructor].
    + eapply Forall_impl; [by apply QueryEscape_chars|]. intros c Hc%escaped_not. split; [set_solver|tauto].
    + split; [set_solver|lia].
    + eapply Forall_impl; [by apply QueryEscape_chars|]. intros c Hc%escaped_not. split; [set_solver|tauto].
Qed.

Lemma join_chars l : Forall (fun x => Forall (fun c => (c ∉ [35; 38; 63]) /\ 32 < c < 127) x) l -> Forall (fun c => (c ∉ [35; 63]) /\ 32 < c < 127) (join_amp l).
Proof.
  assert (Hw : forall x, Forall (fun c => (c ∉ [35; 38; 63]) /\ 32 < c < 127) x -> Forall (fun c => (c ∉ [35; 63]) /\ 32 < c < 127) x)
    by (intros x Hx; eapply Forall_impl; [exact Hx|]; intros c [Hc Hr]; split; [set_solver|done]).
  induction 1 as [|x l Hx Hl IH]; [constructor|]. destruct l as [|y l]; cbn [join_amp]; [by apply Hw|].
  apply Forall_app. split; [by apply Hw|]. constructor; [split; [set_solver|lia]|exact IH].
Qed.

Lemma Parse_magnet pa q : Forall (fun c => (c ∉ [35; 63]) /\ 32 < c < 127) q ->
  Parse pa (bs "magnet:?" ++ q) = Ok (MkURL (bs "magnet") [] [] [] q (47 :: 63 :: q)).
Proof.
  intros Hq. unfold Parse. assert (N : 35 ∉ bs "magnet:?" ++ q).
  { rewrite elem_of_app. intros [Hin|Hin]; [vm_compute in Hin; set_solver|]. rewrite Forall_forall in Hq. destruct (Hq _ Hin) as [Hx _]. apply Hx. set_solver. }
  assert (Ecut : forall s, 35 ∉ s -> cut 35 s = None) by (induction s as [|c s IH]; cbn; [done|]; rewrite not_elem_of_cons; intros [? ?]; rewrite decide_False by done; by rewrite IH).
  unfold Cut at 1. rewrite Ecut by done. unfold parse.
  assert (Hctl : has_ctl (bs "magnet:?" ++ q) = false).
  { apply not_true_iff_false. unfold has_ctl. rewrite existsb_exists. intros (c & Hin & Hc). apply list_elem_of_In, elem_of_app in Hin.
    rewrite orb_true_iff, !bool_decide_eq_true in Hc. destruct Hin as [Hin|Hin].
    - assert (Hm : Forall (fun c => 32 < c < 127) (bs "magnet:?")) by (apply (bool_decide_unpack _); vm_compute; exact I). rewrite Forall_forall in Hm. specialize (Hm _ Hin). cbn in Hm. lia.
    - rewrite Forall_forall in Hq. destruct (Hq _ Hin) as [_ Hr]. lia. }
  rewrite Hctl. rewrite decide_False by done. reflexivity.
Qed.

(** ** Links that stop the parser *)
Definition base32_chars (s : bytes) : Prop := Forall (fun c => 65 <= c <= 90 \/ 50 <= c <= 55) s.

Lemma quantum_reads s rest got : base32_chars s ->
  exists ds, base32_quantum (length s) (s ++ rest) got = Ok (got ++ ds, false, rest) /\ length ds = length s.
Proof.
  intros Hs. revert got. induction Hs as [|c s Hc _ IH]; intros got; cbn [length base32_quantum app]; [exists []; by rewrite app_nil_r|].
  rewrite decide_False by lia. assert (Hd : exists d, base32_digit c = Some d) by (unfold base32_digit; repeat case_decide; eauto; lia).
  destruct Hd as [d Hd]. rewrite Hd. destruct (IH (got ++ [d])) as (ds & E & L). exists (d :: ds). rewrite E, <- app_assoc. split; [done|cbn; lia].
Qed.

Lemma quantum_bytes_8 ds : length ds = 8%nat -> length (quantum_bytes ds) = 5%nat.
Proof. intros L. unfold quantum_bytes. rewrite length_take, length_be_bytes, L. done. Qed.

Lemma base32_quanta n fuel s : base32_chars s -> length s = (8 * n)%nat -> (n <= fuel)%nat ->
  exists b, base32_decode fuel s = Ok b /\ length b = (5 * n)%nat.
Proof.
  revert fuel s. induction n as [|n IH]; intros fuel s Hs L Hf.
  { apply length_zero_iff_nil in L. subst s. exists []. by destruct fuel. }
  destruct fuel as [|fuel]; [lia|]. rewrite <- (take_drop 8 s) in Hs |- *. apply Forall_app in Hs as [Hs1 Hs2].
  destruct (quantum_reads (take 8 s) (drop 8 s) [] Hs1) as (ds & E & Ld). rewrite length_take in E, Ld. replace (8 `min` length s)%nat with 8%nat in E, Ld by lia.
  destruct (IH fuel (drop 8 s) Hs2) as (b & Eb & Lb); [rewrite length_drop; lia|lia|].
  exists (quantum_bytes ds ++ b). cbn [base32_decode]. destruct (take 8 s ++ drop 8 s) as [|c t] eqn:Et; [apply (f_equal length) in Et; rewrite take_drop in Et; cbn in Et; lia|].
  rewrite E, bind_Ok. cbn [app]. rewrite Eb, bind_Ok. split; [done|]. rewrite length_app, quantum_bytes_8 by done. lia.
Qed.

Lemma magnet_reads_back parseAuthority maxParams m :
  magnet_ok m -> match maxParams with Some n => 1 + len (pairs (values m)) <= n | None => True end ->
  ParseMagnetURI parseAuthority maxParams (Magnet_String m) = Ok m.
Proof.
  intros Hm Hmax. unfold ParseMagnetURI. rewrite query_text by done. pose proof (parts_free m Hm) as Hfree.
  rewrite Parse_magnet by (by apply join_chars). cbn [u_Scheme u_RawQuery]. rewrite decide_False by (intros Hx; by apply Hx).
  assert (Hq : ParseQuery maxParams (join_amp (query_parts m)) = <[bs "xt" := [xt_value m]]> (values m)).
  { unfold ParseQuery. rewrite split_join; [|eapply Forall_impl; [exact Hfree|]; intros x Hx Hin; rewrite Forall_forall in Hx; destruct (Hx _ Hin) as [Hn _]; apply Hn; set_solver|done].
    assert (Hlen : len (query_parts m) = 1 + len (pairs (values m))) by (unfold query_parts, len; cbn [length]; rewrite length_map; lia).
    rewrite query_group by done. destruct maxParams as [n|]; [|done]. rewrite decide_False by lia. done. }
  rewrite Hq. unfold Get at 1. rewrite lookup_insert_eq.
  assert (Hih : parseInfohash (xt_value m) = Ok (m_InfoHash m)).
  { destruct (mk_hash m Hm) as [Hl Hb]. unfold parseInfohash, xt_value, HasPrefix. rewrite take_app_length, bool_decide_true by done. cbn [negb].
    rewrite drop_app_length. cbv zeta. assert (Hx : len (HexString (m_InfoHash m)) = 40) by (unfold len; rewrite length_HexString; lia).
    rewrite decide_True by done. rewrite hexDecode_HexString by done. rewrite decide_True by (unfold len; lia). done. }
  rewrite Hih. cbv zeta. pose proof (values_xt m Hm) as Hxt.
  assert (E1 : dropFirst (<[bs "xt" := [xt_value m]]> (values m)) (bs "xt") = values m) by (unfold dropFirst; rewrite lookup_insert_eq; by apply delete_insert_id).
  rewrite E1. pose proof (values_lookup m) as Hv. pose proof (Hv (bs "dn") Hm) as Hdn. pose proof (Hv (bs "tr") Hm) as Htr. pose proof (Hv (bs "ws") Hm) as Hws.
  repeat (rewrite decide_False in Hdn by done). rewrite decide_True in Hdn by done. rewrite decide_True in Htr by done.
  rewrite decide_False in Hws by done. rewrite decide_True in Hws by done.
  assert (E2 : dropFirst (values m) (bs "dn") = delete (bs "dn") (values m)) by (unfold dropFirst; rewrite Hdn; by case_bool_decide).
  rewrite E2. rewrite !lookup_delete_ne by done. rewrite Htr, Hws. unfold Get. rewrite Hdn.
  destruct m as [ih tr dn ws params]. cbn [m_InfoHash m_Trackers m_DisplayName m_WebSeeds m_Params] in *. f_equal. f_equal.
  - by destruct tr.
  - by case_bool_decide.
  - by destruct ws.
  - apply map_eq. intros k. destruct (decide (k = bs "ws")) as [->|N1]; [rewrite lookup_delete_eq; symmetry; apply (mk_keys _ Hm); set_solver|].
    rewrite lookup_delete_ne by done. destruct (decide (k = bs "tr")) as [->|N2]; [rewrite lookup_delete_eq; symmetry; apply (mk_keys _ Hm); set_solver|].
    rewrite lookup_delete_ne by done. destruct (decide (k = bs "dn")) as [->|N3]; [rewrite lookup_delete_eq; symmetry; apply (mk_keys _ Hm); set_solver|].
    rewrite lookup_delete_ne by done. rewrite Hv by done. rewrite !decide_False by done. done.
Qed.

(** ** Properties *)

(** a magnet link is read back as it was written: the hash, the trackers
    and the web seeds in their order, the display name and every other
    parameter, whatever bytes they contain. *)
Theorem magnet_roundtrip parseAuthority maxParams m :
  magnet_ok m -> match maxParams with Some n => 1 + len (pairs (values m)) <= n | None => True end ->
  ParseMagnetURI parseAuthority maxParams (Magnet_String m) = Ok m.
Proof. apply magnet_reads_back. Qed.

(** a magnet link can crash the program that reads it. The length of a
    decoded base32 hash is checked with a panic, and the decoder skips line
    breaks: 24 characters of the alphabet followed by eight escaped line breaks
    pass the test on 32 characters and decode to 15 bytes. *)
Theorem magnet_link_panics parseAuthority s : base32_chars s -> length s = 24%nat ->
  ParseMagnetURI parseAuthority None (bs "magnet:?xt=urn:btih:" ++ s ++ concat (replicate 8 (bs "%0A"))) =
  Panic "invalid length '15' of the decoded bytes".
Proof.
  intros Hs L. set (breaks := concat (replicate 8 (bs "%0A"))).
  change (bs "magnet:?xt=urn:btih:" ++ s ++ breaks) with (bs "magnet:?" ++ bs "xt=urn:btih:" ++ s ++ breaks).
  assert (Hp : Forall (fun c => (c ∉ [35; 38; 59; 61; 63; 37; 43]) /\ 32 < c < 127) s).
  { eapply Forall_impl; [exact Hs|]. intros c Hc. cbn beta in Hc. split; [|lia]. intros Hin.
    repeat (apply elem_of_cons in Hin as [->|Hin]; [lia|]). by apply elem_of_nil in Hin. }
  assert (Hall : Forall (fun c => (c ∉ [35; 38; 59; 63]) /\ 32 < c < 127) (bs "xt=urn:btih:" ++ s ++ breaks)).
  { rewrite !Forall_app. split; [apply (bool_decide_unpack _); vm_compute; exact I|]. split; [|apply (bool_decide_unpack _); vm_compute; exact I].
    eapply Forall_impl; [exact Hp|]. intros c [Hc Hr]. split; [set_solver|done]. }
  unfold ParseMagnetURI. rewrite Parse_magnet by (eapply Forall_impl; [exact Hall|]; intros c [Hc Hr]; split; [set_solver|done]).
  cbn [u_Scheme u_RawQuery]. rewrite decide_False by (intros Hx; by apply Hx).
  assert (N : forall c, c ∈ [38; 59] -> c ∉ bs "xt=urn:btih:" ++ s ++ breaks).
  { intros c Hc Hin. rewrite Forall_forall in Hall. destruct (Hall _ Hin) as [Hx _]. set_solver. }
  unfold ParseQuery. rewrite split_on_stop by (apply N; set_solver). cbn [app flat_map].
  assert (Hun : forall t, Forall (fun c => c <> 37 /\ c <> 43) t -> unescape true (t ++ breaks) = Some (t ++ replicate 8 10)).
  { induction 1 as [|c t [H1 H2] _ IH]; [vm_compute; reflexivity|]. cbn [app unescape]. rewrite decide_False by done. rewrite IH. by rewrite bool_decide_false. }
  assert (Hpair : parse_pair (bs "xt=urn:btih:" ++ s ++ breaks) = [(bs "xt", xtPrefix ++ s ++ replicate 8 10)]).
  { unfold parse_pair, Contains_byte. rewrite bool_decide_false by (apply N; set_solver). rewrite bool_decide_false by done. cbn [orb].
    change (bs "xt=urn:btih:" ++ s ++ breaks) with (bs "xt" ++ 61 :: (xtPrefix ++ s ++ breaks)). unfold Cut. rewrite cut_app by (vm_compute; set_solver).
    rewrite (unescape_plain (bs "xt")) by (apply (bool_decide_unpack _); vm_compute; exact I). unfold QueryUnescape. rewrite app_assoc, Hun; [by rewrite <- app_assoc|].
    apply Forall_app. split; [apply (bool_decide_unpack _); vm_compute; exact I|]. eapply Forall_impl; [exact Hp|]. intros c [Hc _]. set_solver. }
  rewrite Hpair. cbn [app]. unfold Get. rewrite group_lookup. change (values_of (bs "xt") [(bs "xt", xtPrefix ++ s ++ replicate 8 10)]) with [xtPrefix ++ s ++ replicate 8 10].
  cbv iota. unfold parseInfohash, HasPrefix. rewrite take_app_length, bool_decide_true by done. cbn [negb]. rewrite drop_app_length. cbv zeta.
  assert (Hl : len (s ++ replicate 8 10) = 32) by (unfold len; rewrite length_app, length_replicate; lia).
  rewrite (decide_False (P := len (s ++ replicate 8 10) = 40)) by lia. rewrite decide_True by done.
  assert (Hstrip : stripNewlines (s ++ replicate 8 10) = s).
  { unfold stripNewlines. rewrite filter_app. replace (filter _ (replicate 8 10)) with (@nil Z) by reflexivity. rewrite app_nil_r.
    clear -Hp. induction Hp as [|c s [_ Hr] _ IH]; [done|]. rewrite filter_cons, decide_True by lia. by rewrite IH. }
  unfold base32Decode. rewrite Hstrip. destruct (base32_quanta 3 (length (s ++ replicate 8 10)) s Hs L) as (b & E & Lb); [rewrite length_app, L; cbn; lia|].
  rewrite E. assert (Lb15 : len b = 15) by (unfold len; lia). rewrite Lb15. reflexivity.
Qed.

(** ** Witnesses *)
Definition demo_magnet : Magnet := MkMagnet (replicate 20 171) [bs "http://t/a?b&c"; bs "udp://x"] (bs "a name") [bs "http://w/"] {[bs "x.pe" := [bs "1.2.3.4:5"]]}.

Lemma magnet_roundtrip_witness : ParseMagnetURI (fun a => Ok a) (Some 10000) (Magnet_String demo_magnet) = Ok demo_magnet.
Proof.
  apply (magnet_roundtrip (fun a => Ok a) (Some 10000) demo_magnet).
  - constructor.
    + split; [reflexivity|]. apply (bool_decide_unpack _). vm_compute. exact I.
    + apply (bool_decide_unpack _). vm_compute. exact I.
    + apply (bool_decide_unpack _). vm_compute. exact I.
    + apply bs_ok.
    + intros k l Hk. cbn [m_Params demo_magnet] in Hk. apply lookup_singleton_Some in Hk as [<- <-]. split; [apply bs_ok|]. split; [|discriminate]. apply Forall_singleton, bs_ok.
    + intros k Hk. cbn [m_Params demo_magnet]. apply lookup_singleton_None. intros <-. revert Hk. apply (bool_decide_unpack _). vm_compute. exact I.
  - vm_compute. discriminate.
Defined.

Lemma magnet_link_panics_witness :
  ParseMagnetURI (fun a => Ok a) None (bs "magnet:?xt=urn:btih:" ++ replicate 24 65 ++ concat (replicate 8 (bs "%0A"))) = Panic "invalid length '15' of the decoded bytes".
Proof. apply (magnet_link_panics (fun a => Ok a) (replicate 24 65)); [apply (bool_decide_unpack _); vm_compute; exact I|reflexivity]. Defined.

End Magnet.
