(* ===== verification/TorrentFile.v ===== *)
(** * Torrent files

    Models [src/metainfo/metainfo.go] and the bencode form of [Info] and [File]:
    reading and writing a torrent file, its info hash, its trackers and the
    magnet link made from it. [Info] itself and its layout are in [Metainfo].

    A torrent keeps the bytes of its info dictionary as they stand in the file,
    so that the info hash is that of the file. *)

From S2P Require Import Prelude Strconv Bencode BencodeFacts BencodeTyped BencodeStruct Sha1 Hash Metainfo Net NetFacts Routing Address Krpc KrpcFacts GoLib Url Magnet.
Import Strconv Bencode BencodeFacts BencodeTyped BencodeStruct Hash Metainfo Address Krpc KrpcFacts Url Magnet.

Module TorrentFile.

(** ** AnnounceList and URLList *)
Definition InStringSlice (ss : list bytes) (s : bytes) : bool := bool_decide (s ∈ ss).

Fixpoint unique_tier (tier announces : list bytes) : list bytes :=
  match tier with
  | [] => announces
  | v :: tier' => unique_tier tier' (if negb (bool_decide (v = [])) && negb (InStringSlice announces v) then announces ++ [v] else announces)
  end.
Definition Unique (al : list (list bytes)) : list bytes := fold_left (fun announces tier => unique_tier tier announces) al [].

Definition URLList_MarshalBencode (us : list bytes) : res bytes := EncodeBytes (strs_val us).

Fixpoint urls_of (vs : list goval) : res (list bytes) :=
  match vs with
  | [] => Ok []
  | VIface (Some (VString s)) :: vs' => l ← urls_of vs'; Ok (s :: l)
  | _ => Err "the element of 'url-list' is not string"
  end.
Definition URLList_UnmarshalBencode (b : bytes) : res (list bytes) :=
  v ← DecodeBytes b TIface (VIface None);
  match v with
  | VIface (Some (VString vs)) => Ok [vs]
  | VIface (Some (VSlice vs)) => urls_of (default [] vs)
  | _ => Err "invalid 'url-lsit'"
  end.

(** ** The bencode form of [Info] *)
Definition file_type : gotype := TStruct [(fld "Length" "length", TInt 64); (fld "Paths" "path", TSlice TString)].
Definition file_val (f : File) : goval := VStruct [(fld "Length" "length", VInt (f_Length f)); (fld "Paths" "path", strs_val (f_Paths f))].
Definition file_of (v : goval) : res File :=
  match v with
  | VStruct [(_, VInt n); (_, paths)] => l ← elems paths; ps ← mapR str_of l; Ok (MkFile n ps)
  | _ => Panic notOfType
  end.

Definition pieces_val (hs : list bytes) : goval := VCustom (hashes_val hs) (Hashes_MarshalBencode hs).
Definition pieces_type : gotype := TCustom (pieces_val []) (fun _ b => hs ← Hashes_UnmarshalBencode b; Ok (pieces_val hs)).
Definition pieces_of (v : goval) : res (list bytes) :=
  match v with VCustom r _ => l ← elems r; Ok (map hash_of l) | _ => Panic notOfType end.

Definition files_val (fs : list File) : goval := VSlice (if decide (fs = []) then None else Some (map file_val fs)).
Definition info_type : gotype := TStruct
  [(fld "Name" "name", TString); (fld "PieceLength" "piece length", TInt 64); (fld "Pieces" "pieces", pieces_type);
   (fld "Length" "length,omitempty", TInt 64); (fld "Files" "files,omitempty", TSlice file_type)].
Definition info_val (i : Info) : goval := VStruct
  [(fld "Name" "name", VString (i_Name i)); (fld "PieceLength" "piece length", VInt (i_PieceLength i)); (fld "Pieces" "pieces", pieces_val (i_Pieces i));
   (fld "Length" "length,omitempty", VInt (i_Length i)); (fld "Files" "files,omitempty", files_val (i_Files i))].
Definition zeroInfo : Info := MkInfo [] 0 [] 0 [].
Definition info_of (v : goval) : res Info :=
  match v with
  | VStruct [(_, VString name); (_, VInt pl); (_, pieces); (_, VInt n); (_, files)] =>
      hs ← pieces_of pieces; l ← elems files; fs ← mapR file_of l; Ok (MkInfo name pl hs n fs)
  | _ => Panic notOfType
  end.

(** [bencode.EncodeBytes(info)]. *)
Definition EncodeInfo (i : Info) : res bytes := EncodeBytes (info_val i).

(** ** MetaInfo *)
Record MetaInfo := MkMeta {
  InfoBytes : option bytes;
  Announce : bytes;
  AnnounceList : list (list bytes);
  mi_Nodes : list HostAddress;
  URLList : list bytes;
  CreationDate : Z;
  Comment : bytes;
  CreatedBy : bytes;
  Encoding : bytes
}.

Definition tiers_val (al : list (list bytes)) : goval := VSlice (if decide (al = []) then None else Some (map strs_val al)).
Definition host_val (a : HostAddress) : goval := VCustom (VStruct [(fld "Host" EmptyString, VString (h_Host a)); (fld "Port" EmptyString, VUint (h_Port a))]) (Host_MarshalBencode a).
Definition host_of (v : goval) : HostAddress :=
  match v with VCustom (VStruct [(_, VString h); (_, VUint p)]) _ => MkHost h p | _ => MkHost [] 0 end.
Definition host_type : gotype := TCustom (host_val (MkHost [] 0)) (fun v b => a ← Host_UnmarshalBencode (host_of v) b; Ok (host_val a)).
Definition hosts_val (l : list HostAddress) : goval := VSlice (if decide (l = []) then None else Some (map host_val l)).
Definition urls_val (us : list bytes) : goval := VCustom (strs_val us) (URLList_MarshalBencode us).
Definition urls_type : gotype := TCustom (urls_val []) (fun _ b => us ← URLList_UnmarshalBencode b; Ok (urls_val us)).

Definition mi_type : gotype := TStruct
  [(fld "InfoBytes" "info", TRaw); (fld "Announce" "announce,omitempty", TString);
   (fld "AnnounceList" "announce-list,omitempty", TSlice (TSlice TString)); (fld "Nodes" "nodes,omitempty", TSlice host_type);
   (fld "URLList" "url-list,omitempty", urls_type); (fld "CreationDate" "creation date,omitempty", TInt 64);
   (fld "Comment" "comment,omitempty", TString); (fld "CreatedBy" "created by,omitempty", TString);
   (fld "Encoding" "encoding,omitempty", TString)].
Definition mi_val (mi : MetaInfo) : goval := VStruct
  [(fld "InfoBytes" "info", VRaw (InfoBytes mi)); (fld "Announce" "announce,omitempty", VString (Announce mi));
   (fld "AnnounceList" "announce-list,omitempty", tiers_val (AnnounceList mi)); (fld "Nodes" "nodes,omitempty", hosts_val (mi_Nodes mi));
   (fld "URLList" "url-list,omitempty", urls_val (URLList mi)); (fld "CreationDate" "creation date,omitempty", VInt (CreationDate mi));
   (fld "Comment" "comment,omitempty", VString (Comment mi)); (fld "CreatedBy" "created by,omitempty", VString (CreatedBy mi));
   (fld "Encoding" "encoding,omitempty", VString (Encoding mi))].
Definition zeroMetaInfo : MetaInfo := MkMeta None [] [] [] [] 0 [] [] [].
Definition strs_of (v : goval) : res (list bytes) := l ← elems v; mapR str_of l.
Definition mi_of (v : goval) : res MetaInfo :=
  match v with
  | VStruct [(_, VRaw info); (_, VString ann); (_, tiers); (_, nodes); (_, VCustom urls _); (_, VInt date); (_, VString comment);
             (_, VString by_); (_, VString enc)] =>
      tl ← elems tiers; al ← mapR strs_of tl; nl ← elems nodes; us ← strs_of urls;
      Ok (MkMeta info ann al (map host_of nl) us date comment by_ enc)
  | _ => Panic notOfType
  end.

(** [Load] reads one value off the reader and leaves the rest; a file is read
    through the operating system, a parameter. *)
Definition Load (r : bytes) : res MetaInfo := '(v, _) ← Decode mi_type (mi_val zeroMetaInfo) (NewDecoder r); mi_of v.
Definition LoadFromFile (Open : bytes -> res bytes) (filename : bytes) : res MetaInfo := f ← Open filename; Load f.
Definition Write (mi : MetaInfo) : res bytes := EncodeBytes (mi_val mi).

Definition Announces (mi : MetaInfo) : list (list bytes) :=
  match AnnounceList mi with
  | [] => if bool_decide (Announce mi = []) then [] else [[Announce mi]]
  | al => al
  end.

Definition mi_InfoHash (mi : MetaInfo) : bytes := NewHashFromBytes (default [] (InfoBytes mi)).
Definition mi_Info (mi : MetaInfo) : res Info := v ← DecodeBytes (default [] (InfoBytes mi)) info_type (info_val zeroInfo); info_of v.

(** The name in the info that a failing decoder leaves behind is a parameter. *)
Definition mi_Magnet (failedName : bytes -> bytes) (mi : MetaInfo) (displayName infoHash : bytes) : res Magnet :=
  displayName ← (if bool_decide (displayName = [])
                 then match mi_Info mi with Ok info => Ok (i_Name info) | Err _ => Ok (failedName (default [] (InfoBytes mi))) | Panic p => Panic p | NoFuel => NoFuel end
                 else Ok displayName);
  Ok (MkMagnet (if IsZero infoHash then mi_InfoHash mi else infoHash) (Unique (Announces mi)) displayName (URLList mi) ∅).

End TorrentFile.

(** * Torrent files round-trip

    A torrent file is read back as it was written, its info and its info hash
    with it, and the magnet link made from it names the same torrent. *)

Import Strconv Bencode BencodeFacts BencodeTyped BencodeStruct Hash Metainfo Address Krpc KrpcFacts Url Magnet TorrentFile.

Module TorrentFacts.

Ltac static := split_and!; vm_compute; reflexivity.
Ltac distinct_keys := apply (bool_decide_unpack _); vm_compute; exact Logic.I.

(** ** Documents *)
Definition str_ok (s : bytes) : Prop := len s < 2 ^ 31.
Definition int_ok (z : Z) : Prop := - 2 ^ 63 <= z < 2 ^ 63.

Lemma doc_string s : str_ok s -> is_doc (encode_string s).
Proof. intros Hs. by exists (BStr s). Qed.
Lemma doc_int z : int_ok z -> is_doc (encodeNumeric z).
Proof. intros Hz. by exists (BInt z). Qed.
Lemma doc_list ps : Forall is_doc ps -> is_doc ([108] ++ concat ps ++ [101]).
Proof.
  intros H. assert (exists l, Forall bval_ok l /\ map bencode l = ps) as (l & Hl & <-).
  { induction H as [|p ps (b & Hb & <-) _ (l & Hl & <-)]; [by exists []|]. exists (b :: l). by split; [constructor|]. }
  exists (BList l). split; [by apply bval_ok_list|done].
Qed.
Lemma doc_strings l : Forall str_ok l -> is_doc ([108] ++ concat (map encode_string l) ++ [101]).
Proof. intros H. apply doc_list, Forall_map. eapply Forall_impl; [exact H|]. intros s Hs. by apply doc_string. Qed.

(** ** Info *)
Definition file_ok (f : File) : Prop := int_ok (f_Length f) /\ Forall str_ok (f_Paths f).
Definition info_ok (i : Info) : Prop :=
  str_ok (i_Name i) /\ int_ok (i_PieceLength i) /\ Forall hash_ok (i_Pieces i) /\ str_ok (concat (i_Pieces i)) /\ int_ok (i_Length i) /\
  Forall file_ok (i_Files i).

Definition file_fields (f : File) : list field :=
  [MkField (fld "Length" "length") (bs "length") false (TInt 64) (VInt 0) (VInt (f_Length f)) (encodeNumeric (f_Length f));
   MkField (fld "Paths" "path") (bs "path") false (TSlice TString) (VSlice None) (strs_val (f_Paths f))
     ([108] ++ concat (map encode_string (f_Paths f)) ++ [101])].

Lemma file_fields_ok f : file_ok f -> Forall field_ok (file_fields f).
Proof.
  intros [H1 H2]. repeat apply Forall_cons_2; try apply Forall_nil_2.
  - apply int_field; [static|done].
  - refine (slice_field _ _ _ _ TString VString encode_string _ _); [static|by apply strings_elem].
Qed.

Definition file_bytes (f : File) : bytes := match encodeValue (file_val f) with Ok b => b | _ => [] end.

Lemma file_elem f : file_ok f ->
  encodeValue (file_val f) = Ok (file_bytes f) /\ decodes_as (file_type, zero_of file_type) (file_bytes f) (file_val f) /\ is_doc (file_bytes f).
Proof.
  intros Hf. pose proof (file_fields_ok f Hf) as Hok. assert (Hk : NoDup (map fd_key (file_fields f))) by distinct_keys.
  destruct (struct_roundtrip (file_fields f) Hok Hk) as (p & E & D). destruct (struct_doc (file_fields f) Hok Hk) as (b & Hb & Eb).
  { repeat apply Forall_cons_2; try apply Forall_nil_2; intros _; [apply doc_int|apply doc_strings]; apply Hf. }
  change (VStruct (vals (file_fields f))) with (file_val f) in *. unfold file_bytes. rewrite E. rewrite E in Eb. injection Eb as ->.
  split; [done|]. split; [exact D|]. by exists b.
Qed.

Lemma pieces_field fi key hs : field_static fi key false -> Forall hash_ok hs -> str_ok (concat hs) ->
  field_ok (MkField fi key false pieces_type (pieces_val []) (pieces_val hs) (encode_string (concat hs))).
Proof.
  intros Hs Hh Hl. constructor; cbn [fd_info fd_key fd_omit fd_type fd_zero fd_val fd_bytes]; [done|done| |done].
  intros _. split; [done|]. apply (decodes_custom _ _ _ (BStr (concat hs))); [done|]. cbn [bencode].
  pose proof (Hashes_roundtrip hs Hh Hl) as HR. change (Hashes_MarshalBencode hs) with (Ok (encode_string (concat hs))) in HR. rewrite bind_Ok in HR.
  by rewrite HR.
Qed.

Definition info_fields (i : Info) : list field :=
  [MkField (fld "Name" "name") (bs "name") false TString (VString []) (VString (i_Name i)) (encode_string (i_Name i));
   MkField (fld "PieceLength" "piece length") (bs "piece length") false (TInt 64) (VInt 0) (VInt (i_PieceLength i)) (encodeNumeric (i_PieceLength i));
   MkField (fld "Pieces" "pieces") (bs "pieces") false pieces_type (pieces_val []) (pieces_val (i_Pieces i)) (encode_string (concat (i_Pieces i)));
   MkField (fld "Length" "length,omitempty") (bs "length") true (TInt 64) (VInt 0) (VInt (i_Length i)) (encodeNumeric (i_Length i));
   MkField (fld "Files" "files,omitempty") (bs "files") true (TSlice file_type) (VSlice None) (files_val (i_Files i))
     ([108] ++ concat (map file_bytes (i_Files i)) ++ [101])].

Lemma info_fields_ok i : info_ok i -> Forall field_ok (info_fields i).
Proof.
  intros (H1 & H2 & H3 & H4 & H5 & H6). repeat apply Forall_cons_2; try apply Forall_nil_2.
  - apply string_field; [static|done].
  - apply int_field; [static|done].
  - apply pieces_field; [static|done|done].
  - apply int_field; [static|done].
  - refine (slice_field _ _ _ _ file_type file_val file_bytes _ _); [static|]. eapply Forall_impl; [exact H6|]. intros f Hf.
    by destruct (file_elem f Hf) as (? & ? & _).
Qed.

Lemma file_of_val f : file_of (file_val f) = Ok f.
Proof.
  destruct f as [n ps]. unfold file_of, file_val, strs_val. cbn [f_Length f_Paths]. rewrite (elems_slice VString ps), bind_Ok, mapR_map, bind_Ok; [done|].
  by apply Forall_forall.
Qed.

Lemma info_of_val i : info_of (info_val i) = Ok i.
Proof.
  destruct i as [name pl hs n fs]. unfold info_of, info_val, pieces_of, pieces_val, hashes_val, files_val.
  cbn [i_Name i_PieceLength i_Pieces i_Length i_Files]. rewrite (elems_slice hash_val hs), !bind_Ok, (elems_slice file_val fs), bind_Ok.
  rewrite mapR_map, bind_Ok by (apply Forall_forall; intros f _; apply file_of_val). rewrite map_map. cbn [hash_of hash_val]. by rewrite map_id.
Qed.

Lemma info_roundtrip i : info_ok i ->
  exists b, EncodeInfo i = Ok (bencode b) /\ bval_ok b /\ (v ← DecodeBytes (bencode b) info_type (info_val zeroInfo); info_of v) = Ok i.
Proof.
  intros Hi. pose proof (info_fields_ok i Hi) as Hok. assert (Hk : NoDup (map fd_key (info_fields i))) by distinct_keys.
  destruct (struct_roundtrip (info_fields i) Hok Hk) as (p & E & D). destruct Hi as (H1 & H2 & H3 & H4 & H5 & H6).
  destruct (struct_doc (info_fields i) Hok Hk) as (b & Hb & Eb).
  { repeat apply Forall_cons_2; try apply Forall_nil_2; intros _; [by apply doc_string|by apply doc_int|by apply doc_string|by apply doc_int|].
    apply doc_list, Forall_map. eapply Forall_impl; [exact H6|]. intros f Hf. by destruct (file_elem f Hf) as (_ & _ & ?). }
  change (VStruct (vals (info_fields i))) with (info_val i) in *. change (VStruct (zeros (info_fields i))) with (info_val zeroInfo) in D.
  change (TStruct (types (info_fields i))) with info_type in D. rewrite E in Eb. injection Eb as ->.
  exists b. split; [exact E|]. split; [done|]. rewrite (decodes_as_DecodeBytes _ _ _ _ D), bind_Ok. apply info_of_val.
Qed.

(** ** MetaInfo *)
Lemma slice_elem {X} t (val : X -> goval) (enc : X -> bytes) (l : list X) :
  Forall (fun x => encodeValue (val x) = Ok (enc x) /\ decodes_as (t, zero_of t) (enc x) (val x)) l ->
  encodeValue (VSlice (if decide (l = []) then None else Some (map val l))) = Ok ([108] ++ concat (map enc l) ++ [101]) /\
  decodes_as (TSlice t, VSlice None) ([108] ++ concat (map enc l) ++ [101]) (VSlice (if decide (l = []) then None else Some (map val l))).
Proof.
  intros Hl. assert (Hs : field_static (fld "Paths" "path") (bs "path") false) by static.
  exact (ok_present _ (slice_field _ _ _ Hs t val enc l Hl) eq_refl).
Qed.

Definition host_ok (a : HostAddress) : Prop := str_ok (h_Host a) /\ 0 <= h_Port a < 2 ^ 16.
Definition host_bytes (a : HostAddress) : bytes := bencode (BList [BStr (h_Host a); BInt (h_Port a)]).

Lemma host_elem a : host_ok a ->
  encodeValue (host_val a) = Ok (host_bytes a) /\ decodes_as (host_type, zero_of host_type) (host_bytes a) (host_val a).
Proof.
  intros [Hh Hp]. split; [unfold host_bytes; cbn; by rewrite app_nil_r|].
  assert (Hok : bval_ok (BList [BStr (h_Host a); BInt (h_Port a)])) by (apply bval_ok_list; repeat constructor; cbn; lia || done).
  apply (decodes_custom _ _ _ (BList [BStr (h_Host a); BInt (h_Port a)]) _ Hok). unfold Host_UnmarshalBencode.
  destruct (decodes_as_Decode (TIface, VIface None) _ _ [] (decodes_iface (VIface None) _ Hok)) as (d & E & _).
  rewrite app_nil_r in E. cbn [fst snd] in E. rewrite E, bind_Ok. cbn. rewrite u16_small by lia. by destruct a.
Qed.

Lemma urls_of_strings us : urls_of (map to_iface (map BStr us)) = Ok us.
Proof. induction us as [|u us IH]; [done|]. change (urls_of (map to_iface (map BStr (u :: us)))) with (l ← urls_of (map to_iface (map BStr us)); Ok (u :: l)). by rewrite IH. Qed.

Lemma urls_field fi key us : field_static fi key true -> Forall str_ok us ->
  field_ok (MkField fi key true urls_type (urls_val []) (urls_val us) ([108] ++ concat (map encode_string us) ++ [101])).
Proof.
  intros Hs Hu. constructor; cbn [fd_info fd_key fd_omit fd_type fd_zero fd_val fd_bytes]; [done|done| |].
  - intros _. split; [by apply (slice_elem TString VString encode_string), strings_elem|].
    assert (Hd : bval_ok (BList (map BStr us))) by (apply bval_ok_list, Forall_map; exact Hu).
    assert (Eb : [108] ++ concat (map encode_string us) ++ [101] = bencode (BList (map BStr us))) by (cbn; by rewrite map_map).
    rewrite Eb. apply decodes_custom; [done|]. unfold URLList_UnmarshalBencode.
    rewrite (decodes_as_DecodeBytes _ _ _ _ (decodes_iface (VIface None) _ Hd)), bind_Ok.
    destruct us as [|u us]; [done|]. change (to_iface (BList (map BStr (u :: us)))) with (VIface (Some (VSlice (Some (map to_iface (map BStr (u :: us))))))).
    cbn [default from_option Datatypes.id]. by rewrite urls_of_strings.
  - unfold present, urls_val, strs_val. cbn. destruct (decide (us = [])) as [->|]; [done|].
    intros Hb%negb_false_iff%bool_decide_eq_true. destruct us; [done|]. unfold len in Hb. cbn in Hb. lia.
Qed.

Record mi_ok (mi : MetaInfo) : Prop := {
  mo_info : exists b, bval_ok b /\ InfoBytes mi = Some (bencode b);
  mo_announce : str_ok (Announce mi);
  mo_tiers : Forall (Forall str_ok) (AnnounceList mi);
  mo_nodes : Forall host_ok (mi_Nodes mi);
  mo_urls : Forall str_ok (URLList mi);
  mo_date : int_ok (CreationDate mi);
  mo_comment : str_ok (Comment mi);
  mo_by : str_ok (CreatedBy mi);
  mo_encoding : str_ok (Encoding mi)
}.

Definition tier_bytes (l : list bytes) : bytes := [108] ++ concat (map encode_string l) ++ [101].
Definition mi_fields (mi : MetaInfo) : list field :=
  [MkField (fld "InfoBytes" "info") (bs "info") false TRaw (VRaw None) (VRaw (InfoBytes mi)) (default [] (InfoBytes mi));
   MkField (fld "Announce" "announce,omitempty") (bs "announce") true TString (VString []) (VString (Announce mi)) (encode_string (Announce mi));
   MkField (fld "AnnounceList" "announce-list,omitempty") (bs "announce-list") true (TSlice (TSlice TString)) (VSlice None) (tiers_val (AnnounceList mi))
     ([108] ++ concat (map tier_bytes (AnnounceList mi)) ++ [101]);
   MkField (fld "Nodes" "nodes,omitempty") (bs "nodes") true (TSlice host_type) (VSlice None) (hosts_val (mi_Nodes mi))
     ([108] ++ concat (map host_bytes (mi_Nodes mi)) ++ [101]);
   MkField (fld "URLList" "url-list,omitempty") (bs "url-list") true urls_type (urls_val []) (urls_val (URLList mi)) ([108] ++ concat (map encode_string (URLList mi)) ++ [101]);
   MkField (fld "CreationDate" "creation date,omitempty") (bs "creation date") true (TInt 64) (VInt 0) (VInt (CreationDate mi)) (encodeNumeric (CreationDate mi));
   MkField (fld "Comment" "comment,omitempty") (bs "comment") true TString (VString []) (VString (Comment mi)) (encode_string (Comment mi));
   MkField (fld "CreatedBy" "created by,omitempty") (bs "created by") true TString (VString []) (VString (CreatedBy mi)) (encode_string (CreatedBy mi));
   MkField (fld "Encoding" "encoding,omitempty") (bs "encoding") true TString (VString []) (VString (Encoding mi)) (encode_string (Encoding mi))].

Lemma mi_fields_ok mi : mi_ok mi -> Forall field_ok (mi_fields mi).
Proof.
  intros [(b & Hb & Eb) H2 H3 H4 H5 H6 H7 H8 H9]. unfold mi_fields. rewrite Eb. repeat apply Forall_cons_2; try apply Forall_nil_2.
  - constructor; cbn [fd_info fd_key fd_omit fd_type fd_zero fd_val fd_bytes]; [static|done| |done]. intros _. split; [done|]. by apply decodes_raw.
  - apply string_field; [static|done].
  - refine (slice_field _ _ _ _ (TSlice TString) strs_val tier_bytes _ _); [static|]. eapply Forall_impl; [exact H3|]. intros l Hl.
    by apply (slice_elem TString VString encode_string), strings_elem.
  - refine (slice_field _ _ _ _ host_type host_val host_bytes _ _); [static|]. eapply Forall_impl; [exact H4|]. intros a Ha. by apply host_elem.
  - apply urls_field; [static|done].
  - apply int_field; [static|done].
  - apply string_field; [static|done].
  - apply string_field; [static|done].
  - apply string_field; [static|done].
Qed.

Lemma strs_of_val l : strs_of (strs_val l) = Ok l.
Proof. unfold strs_of, strs_val. rewrite (elems_slice VString l), bind_Ok. apply mapR_map. by apply Forall_forall. Qed.

Lemma mi_of_val mi : mi_of (mi_val mi) = Ok mi.
Proof.
  destruct mi as [info ann al nodes urls date comment by_ enc]. unfold mi_of, mi_val, tiers_val, hosts_val, urls_val.
  cbn [InfoBytes Announce AnnounceList mi_Nodes URLList CreationDate Comment CreatedBy Encoding].
  rewrite (elems_slice strs_val al), bind_Ok, mapR_map, bind_Ok by (apply Forall_forall; intros l _; apply strs_of_val).
  rewrite (elems_slice host_val nodes), bind_Ok, strs_of_val, bind_Ok, map_map. cbn [host_of host_val].
  do 2 f_equal. rewrite <- (map_id nodes) at 2. apply map_ext. by intros [h p].
Qed.

Lemma torrent_reads_back mi rest : mi_ok mi -> exists data, Write mi = Ok data /\ Load (data ++ rest) = Ok mi.
Proof.
  intros Hm. destruct (struct_roundtrip (mi_fields mi) (mi_fields_ok mi Hm)) as (p & E & D); [distinct_keys|]. exists p. split; [exact E|].
  change (VStruct (vals (mi_fields mi))) with (mi_val mi) in D. change (VStruct (zeros (mi_fields mi))) with (mi_val zeroMetaInfo) in D.
  change (TStruct (types (mi_fields mi))) with mi_type in D. destruct (decodes_as_Decode _ _ _ rest D) as (d & Ed & _).
  unfold Load. cbn [fst snd] in Ed. rewrite Ed, bind_Ok. apply mi_of_val.
Qed.

(** ** Trackers *)
Lemma unique_tier_spec tier acc : NoDup acc -> [] ∉ acc ->
  NoDup (unique_tier tier acc) /\ ([] ∉ unique_tier tier acc) /\ (exists more, unique_tier tier acc = acc ++ more) /\
  (forall v, v ∈ unique_tier tier acc <-> v ∈ acc \/ (v ∈ tier /\ v <> [])).
Proof.
  revert acc. induction tier as [|v tier IH]; intros acc Hn He; cbn [unique_tier].
  { split; [done|]. split; [done|]. split; [exists []; by rewrite app_nil_r|]. intros v. set_solver. }
  unfold InStringSlice. destruct (decide (v = [])) as [->|Hv]; [|destruct (decide (v ∈ acc)) as [Ha|Ha]].
  - rewrite (bool_decide_true (_ = [])) by done. cbn [negb andb]. destruct (IH acc Hn He) as (I1 & I2 & I3 & I4). split_and!; try done.
    intros v. rewrite I4. set_solver.
  - rewrite (bool_decide_true (v ∈ acc)) by done. rewrite andb_false_r. destruct (IH acc Hn He) as (I1 & I2 & I3 & I4). split_and!; try done.
    intros w. rewrite I4. set_solver.
  - rewrite !bool_decide_false by done. cbn [negb andb]. destruct (IH (acc ++ [v])) as (I1 & I2 & (more & I3) & I4).
    { apply NoDup_app. split; [done|]. split; [set_solver|apply NoDup_singleton]. }
    { set_solver. }
    split_and!; try done; [exists (v :: more); rewrite I3; by rewrite <- app_assoc|]. intros w. rewrite I4. set_solver.
Qed.

Lemma unique_spec al : NoDup (Unique al) /\ ([] ∉ Unique al) /\ (forall v, v ∈ Unique al <-> v ∈ concat al /\ v <> []).
Proof.
  assert (H : forall al acc, NoDup acc -> [] ∉ acc ->
    let u := fold_left (fun announces tier => unique_tier tier announces) al acc in
    NoDup u /\ ([] ∉ u) /\ (forall v, v ∈ u <-> v ∈ acc \/ (v ∈ concat al /\ v <> []))).
  { clear al. induction al as [|tier al IH]; intros acc Hn He; cbn; [split_and!; try done; set_solver|].
    destruct (unique_tier_spec tier acc Hn He) as (T1 & T2 & _ & T3). destruct (IH (unique_tier tier acc) T1 T2) as (I1 & I2 & I3).
    split_and!; try done. intros v. rewrite I3, T3, elem_of_app. set_solver. }
  destruct (H al []) as (H1 & H2 & H3); [constructor|apply not_elem_of_nil|]. split_and!; try done. intros v. unfold Unique. rewrite H3. set_solver.
Qed.

(** ** Properties *)

(** C4: a torrent file is read back as it was written, whatever follows it:
    trackers, nodes, web seeds, dates and texts, and the info dictionary byte
    for byte, so that its hash is the info hash of the torrent and it decodes
    to the info - name, piece length, piece hashes, files - that was encoded. *)
Theorem torrent_file_roundtrip info b mi rest :
  info_ok info -> EncodeInfo info = Ok b -> InfoBytes mi = Some b ->
  str_ok (Announce mi) -> Forall (Forall str_ok) (AnnounceList mi) -> Forall host_ok (mi_Nodes mi) -> Forall str_ok (URLList mi) ->
  int_ok (CreationDate mi) -> str_ok (Comment mi) -> str_ok (CreatedBy mi) -> str_ok (Encoding mi) ->
  exists data, Write mi = Ok data /\ Load (data ++ rest) = Ok mi /\ mi_InfoHash mi = Sha1.Sum b /\ mi_Info mi = Ok info.
Proof.
  intros Hi Eb Em H1 H2 H3 H4 H5 H6 H7 H8. destruct (info_roundtrip info Hi) as (doc & E & Hd & D). rewrite Eb in E. injection E as ->.
  destruct (torrent_reads_back mi rest) as (data & Ew & El); [constructor; try done; by exists doc|]. exists data. split; [done|]. split; [done|].
  unfold mi_InfoHash, mi_Info. rewrite Em. by split.
Qed.

Lemma torrent_magnet_ok info b mi failedName :
  info_ok info -> EncodeInfo info = Ok b -> InfoBytes mi = Some b ->
  bytes_ok (i_Name info) -> Forall bytes_ok (URLList mi) -> Forall bytes_ok (concat (Announces mi)) ->
  let m := MkMagnet (Sha1.Sum b) (Unique (Announces mi)) (i_Name info) (URLList mi) ∅ in
  mi_Magnet failedName mi [] zeroHash = Ok m /\ magnet_ok m.
Proof.
  intros Hi Eb Em Hn Hu Ha. cbv zeta. destruct (info_roundtrip info Hi) as (doc & E & Hd & D). rewrite Eb in E. injection E as ->. split.
  - unfold mi_Magnet, mi_Info, mi_InfoHash. rewrite bool_decide_true by done. rewrite Em. cbn [default from_option Datatypes.id]. by rewrite D.
  - constructor; cbn [m_InfoHash m_Trackers m_DisplayName m_WebSeeds m_Params]; try done.
    + split; [apply Sha1.length_Sum|apply Sha1.Sum_ok].
    + destruct (unique_spec (Announces mi)) as (_ & _ & Hs). rewrite Forall_forall in Ha |- *. intros v [Hv _]%Hs. by apply Ha.
Qed.

(** the magnet link made from a torrent, written as text and parsed again,
    names the same torrent: the info hash, the name, the web seeds, and each
    announce URL that is not empty exactly once. *)
Theorem torrent_to_magnet info b mi failedName parseAuthority :
  info_ok info -> EncodeInfo info = Ok b -> InfoBytes mi = Some b ->
  bytes_ok (i_Name info) -> Forall bytes_ok (URLList mi) -> Forall bytes_ok (concat (Announces mi)) ->
  exists m, mi_Magnet failedName mi [] zeroHash = Ok m /\ ParseMagnetURI parseAuthority None (Magnet_String m) = Ok m /\
    m_InfoHash m = mi_InfoHash mi /\ m_DisplayName m = i_Name info /\ m_WebSeeds m = URLList mi /\
    NoDup (m_Trackers m) /\ (forall v, v ∈ m_Trackers m <-> v ∈ concat (Announces mi) /\ v <> []).
Proof.
  intros Hi Eb Em Hn Hu Ha. destruct (torrent_magnet_ok info b mi failedName Hi Eb Em Hn Hu Ha) as [E Hm]. eexists. split; [exact E|].
  split; [by apply magnet_reads_back|]. destruct (unique_spec (Announces mi)) as (U1 & _ & U2). unfold mi_InfoHash. rewrite Em. by split_and!.
Qed.

(** ** Witnesses *)
Definition demo_info : Info := MkInfo (bs "dir") 16384 [Sha1.Sum (bs "x")] 0 [MkFile 1 [bs "a"; bs "b"]].
Definition demo_info_bytes : bytes := Eval vm_compute in match EncodeInfo demo_info with Ok b => b | _ => [] end.
Definition demo_meta : MetaInfo :=
  MkMeta (Some demo_info_bytes) (bs "http://t/a") [[bs "http://t/a"]; [bs "udp://u"; []; bs "http://t/a"]] [MkHost (bs "h") 6881] [bs "http://w/"]
    1700000000 (bs "c") (bs "go") (bs "UTF-8").

Lemma demo_info_ok : info_ok demo_info.
Proof.
  split; [vm_compute; reflexivity|]. split; [unfold int_ok; cbn; lia|].
  split; [constructor; [split; [apply Sha1.length_Sum|apply Sha1.Sum_ok]|constructor]|]. split; [vm_compute; reflexivity|]. split; [unfold int_ok; cbn; lia|].
  constructor; [|constructor]. split; [unfold int_ok; cbn; lia|]. unfold str_ok. apply (bool_decide_unpack _). vm_compute. exact Logic.I.
Qed.

Lemma torrent_file_roundtrip_witness :
  exists data, Write demo_meta = Ok data /\ Load (data ++ bs "junk") = Ok demo_meta /\ mi_InfoHash demo_meta = Sha1.Sum demo_info_bytes /\ mi_Info demo_meta = Ok demo_info.
Proof.
  apply (torrent_file_roundtrip demo_info demo_info_bytes demo_meta (bs "junk")).
  - exact demo_info_ok.
  - vm_compute. reflexivity.
  - reflexivity.
  - vm_compute. reflexivity.
  - unfold str_ok. apply (bool_decide_unpack _). vm_compute. exact Logic.I.
  - apply Forall_singleton. split; [vm_compute; reflexivity|cbn; lia].
  - unfold str_ok. apply (bool_decide_unpack _). vm_compute. exact Logic.I.
  - unfold int_ok. cbn. lia.
  - vm_compute. reflexivity.
  - vm_compute. reflexivity.
  - vm_compute. reflexivity.
Defined.

Lemma torrent_to_magnet_witness :
  exists m, mi_Magnet (fun _ => []) demo_meta [] zeroHash = Ok m /\ ParseMagnetURI (fun a => Ok a) None (Magnet_String m) = Ok m /\
    m_InfoHash m = mi_InfoHash demo_meta /\ m_DisplayName m = i_Name demo_info /\ m_WebSeeds m = URLList demo_meta /\
    NoDup (m_Trackers m) /\ (forall v, v ∈ m_Trackers m <-> v ∈ concat (Announces demo_meta) /\ v <> []).
Proof.
  apply (torrent_to_magnet demo_info demo_info_bytes demo_meta (fun _ => []) (fun a => Ok a)).
  - exact demo_info_ok.
  - vm_compute. reflexivity.
  - reflexivity.
  - apply bs_ok.
  - apply Forall_singleton, bs_ok.
  - apply (bool_decide_unpack _). vm_compute. exact Logic.I.
Defined.

End TorrentFacts.
