(* ===== verification/HttpTracker.v ===== *)
(** * The HTTP tracker

    Models [src/tracker/httptracker/http.go] and [http_peer.go]: announce
    requests as query strings, peers in their three forms, the responses in
    bencode, and the client. The HTTP client is a parameter, as is the parser
    of I2P addresses. The helper [Base32], which nothing calls, is left out. *)

From S2P Require Import Prelude Strconv Bencode BencodeFacts BencodeTyped Sha1 Hash Net NetFacts Routing Address Krpc GoLib Url.
Import Strconv Bencode Hash Net Address Krpc GoLib Url.

Module HttpTracker.

(** ** Announce requests *)
Record AnnounceRequest := MkRequest {
  h_InfoHash : bytes; h_PeerID : bytes; h_Uploaded : Z; h_Downloaded : Z; h_Left : Z; h_Port : Z; h_IP : bytes;
  h_Event : Z; h_Compact : bool; h_NumWant : Z; h_Key : Z
}.
Definition zeroRequest : AnnounceRequest := MkRequest zeroHash zeroHash 0 0 0 0 [] 0 false 0 0.

Definition Set_ (k : string) (v : bytes) (vs : Values) : Values := <[bs k := [v]]> vs.
Definition set_when (b : bool) (k : string) (v : bytes) (vs : Values) : Values := if b then Set_ k v vs else vs.

Definition ToQuery (r : AnnounceRequest) : Values :=
  let vs := Set_ "info_hash" (h_InfoHash r) ∅ in
  let vs := Set_ "peer_id" (h_PeerID r) vs in
  let vs := Set_ "uploaded" (FormatInt (h_Uploaded r)) vs in
  let vs := Set_ "downloaded" (FormatInt (h_Downloaded r)) vs in
  let vs := Set_ "left" (FormatInt (h_Left r)) vs in
  let vs := set_when (negb (bool_decide (h_IP r = []))) "ip" (h_IP r) vs in
  let vs := set_when (bool_decide (0 < h_Event r)) "event" (FormatInt (h_Event r)) vs in
  let vs := set_when (bool_decide (0 < h_Port r)) "port" (FormatUint 10 (h_Port r)) vs in
  let vs := set_when (negb (bool_decide (h_NumWant r = 0))) "numwant" (FormatUint 10 (u64 (h_NumWant r))) vs in
  let vs := set_when (negb (bool_decide (h_Key r = 0))) "key" (FormatInt (h_Key r)) vs in
  Set_ "compact" (if h_Compact r then bs "1" else bs "0") vs.

Definition get (vs : Values) (k : string) : bytes := Get vs (bs k).

Definition parseRequiredIntegers (r : AnnounceRequest) (vs : Values) : res AnnounceRequest :=
  up ← ParseInt 64 (get vs "uploaded");
  down ← ParseInt 64 (get vs "downloaded");
  left ← ParseInt 64 (get vs "left");
  Ok (MkRequest (h_InfoHash r) (h_PeerID r) up down left (h_Port r) (h_IP r) (h_Event r) (h_Compact r) (h_NumWant r) (h_Key r)).

Definition parseRequiredFields (r : AnnounceRequest) (vs : Values) : res AnnounceRequest :=
  ih ← Hash.FromString (get vs "info_hash");
  pid ← Hash.FromString (get vs "peer_id");
  parseRequiredIntegers (MkRequest ih pid (h_Uploaded r) (h_Downloaded r) (h_Left r) (h_Port r) (h_IP r) (h_Event r) (h_Compact r) (h_NumWant r) (h_Key r)) vs.

(** The optional integers: without a value the field keeps its own. *)
Definition optional (s : bytes) (old : Z) (parse : bytes -> res Z) (convert : Z -> Z) : res Z :=
  if bool_decide (s = []) then Ok old else v ← parse s; Ok (convert v).

Definition parseEventField (r : AnnounceRequest) (vs : Values) : res Z := optional (get vs "event") (h_Event r) (ParseUint 64) u32.
Definition parsePortField (r : AnnounceRequest) (vs : Values) : res Z := optional (get vs "port") (h_Port r) (ParseUint 64) u16.
Definition parseNumWantField (r : AnnounceRequest) (vs : Values) : res Z := optional (get vs "numwant") (h_NumWant r) (ParseUint 64) i32.
Definition parseKeyField (r : AnnounceRequest) (vs : Values) : res Z := optional (get vs "key") (h_Key r) (ParseInt 64) i32.

Definition parseOptionalFields (r : AnnounceRequest) (vs : Values) : res AnnounceRequest :=
  event ← parseEventField r vs;
  port ← parsePortField r vs;
  numwant ← parseNumWantField r vs;
  key ← parseKeyField r vs;
  Ok (MkRequest (h_InfoHash r) (h_PeerID r) (h_Uploaded r) (h_Downloaded r) (h_Left r) port (h_IP r) event (h_Compact r) numwant key).

Definition parseStringFields (r : AnnounceRequest) (vs : Values) : AnnounceRequest :=
  let c := get vs "compact" in
  let compact := if bool_decide (c = bs "1") then true else if bool_decide (c = bs "0") then false else h_Compact r in
  MkRequest (h_InfoHash r) (h_PeerID r) (h_Uploaded r) (h_Downloaded r) (h_Left r) (h_Port r) (get vs "ip") (h_Event r) compact (h_NumWant r) (h_Key r).

Definition FromQuery (r : AnnounceRequest) (vs : Values) : res AnnounceRequest :=
  r ← parseRequiredFields r vs;
  r ← parseOptionalFields r vs;
  Ok (parseStringFields r vs).

(** ** Peers *)
Record Peer := MkPeer { p_ID : bytes; p_IP : bytes; p_Port : Z }.

(** [base32.NewEncoding] over the I2P alphabet, on one group of at most five
    bytes: its characters, filled up with [=] to eight. *)
Definition i2pB32_char (n : Z) : Z := if decide (n < 26) then 97 + n else 24 + n.
Definition b32_group (g : bytes) : bytes :=
  let v := be_val g * 2 ^ (40 - 8 * len g) in
  let n := (8 * len g + 4) / 5 in
  map (fun i => if decide (i < n) then i2pB32_char (v / 2 ^ (35 - 5 * i) mod 32) else 61) (seqZ 0 8).
Fixpoint b32_encode (fuel : nat) (b : bytes) : bytes :=
  match fuel, b with
  | S f, _ :: _ => b32_group (take 5 b) ++ b32_encode f (drop 5 b)
  | _, _ => []
  end.
Definition EncodeToString (b : bytes) : bytes := b32_encode (length b) b.

(** The [.b32.i2p] name of a destination hash. *)
Definition b32addr (hash : bytes) : bytes := ToLower (filter (fun c => c <> 61) (EncodeToString hash)) ++ bs ".b32.i2p".

Definition errInvalidPeer : string := "invalid peer information format".

(** [n] pieces of [k] bytes. *)
Fixpoint chop (k n : nat) (b : bytes) : list bytes :=
  match n with O => [] | S n' => take k b :: chop k n' (drop k b) end.

Section Peers.
Context {I : Type} `{I2PKeys I}.

Definition addr_peer (b : bytes) : res Peer :=
  addr ← Address.UnmarshalBinary (I := I) b;
  ip ← IP_text addr;
  Ok (MkPeer [] ip (a_Port addr)).

Definition unmarshalCompactPeers (data : bytes) : res (list Peer) :=
  let n := len data in
  if bool_decide (n mod 32 = 0) && bool_decide (0 < n) then
    Ok (map (fun hash => MkPeer [] (b32addr hash) 6881) (chop 32 (Z.to_nat (n / 32)) data))
  else if bool_decide (n mod 6 = 0) then mapR addr_peer (chop 6 (Z.to_nat (n / 6)) data)
  else Err ErrInvalidAddr.

Definition extractPeerFromDict (p : goval) : res Peer :=
  match p with
  | VIface (Some (VMap m)) =>
      let m := default [] m in
      match assoc_get (bs "peer id") m with
      | Some (VIface (Some (VString pid))) =>
          match assoc_get (bs "ip") m with
          | Some (VIface (Some (VString ip))) =>
              match assoc_get (bs "port") m with
              | Some (VIface (Some (VInt port))) => Ok (MkPeer pid ip (u16 port))
              | _ => Err errInvalidPeer
              end
          | _ => Err errInvalidPeer
          end
      | _ => Err errInvalidPeer
      end
  | _ => Err errInvalidPeer
  end.

Definition unmarshalDictPeers (data : list goval) : res (list Peer) := mapR extractPeerFromDict data.

Definition Peers_UnmarshalBencode (b : bytes) : res (list Peer) :=
  v ← DecodeBytes b TIface (VIface None);
  match v with
  | VIface (Some (VString vs)) => unmarshalCompactPeers vs
  | VIface (Some (VSlice vs)) => unmarshalDictPeers (default [] vs)
  | _ => Err errInvalidPeer
  end.

(** The compact form of a peer under [To4] or [To16]. *)
Definition compact_peer (conv : bytes -> option bytes) (p : Peer) : res bytes :=
  match ParseIP (p_IP p) ≫= conv with
  | None | Some [] => Err errInvalidPeer
  | Some ip => Ok (ip ++ be_bytes 2 (p_Port p))
  end.

Definition marshalCompactBencode (ps : list Peer) : res bytes :=
  l ← mapR (compact_peer To4) ps; EncodeBytes (VBytes (Some (concat l))).

Definition peer_val (p : Peer) : goval :=
  VStruct [(fld "ID" "peer id", VString (p_ID p)); (fld "IP" "ip", VString (p_IP p)); (fld "Port" "port", VUint (p_Port p))].

Definition Peers_MarshalBencode (ps : list Peer) : res bytes :=
  if existsb (fun p => bool_decide (p_ID p = [])) ps then marshalCompactBencode ps
  else l ← mapR (fun p => EncodeBytes (peer_val p)) ps; Ok ([108] ++ concat l ++ [101]).

Definition Peers6_UnmarshalBencode (b : bytes) : res (list Peer) :=
  v ← DecodeBytes b TString (VString []);
  let s := match v with VString s => s | _ => [] end in
  if decide (len s mod 18 <> 0) then Err ErrInvalidAddr else mapR addr_peer (chop 18 (Z.to_nat (len s / 18)) s).

Definition Peers6_MarshalBencode (ps : list Peer) : res bytes :=
  l ← mapR (compact_peer To16) ps; EncodeBytes (VBytes (Some (concat l))).

(** [Addresses] of a peer; the error of a lookup is kept. *)
Definition Peer_Addresses (NewI2PAddrFromString : bytes -> res I) (LookupIP : bytes -> res (list bytes)) (p : Peer) : res (list (Address (I := I))) :=
  if is_i2p (p_IP p) then
    a ← NewI2PAddrFromString (take (length (p_IP p) - 4) (p_IP p)); Ok [MkAddress (Some (I2PAddrVal a)) (p_Port p)]
  else
    match ParseIP (p_IP p) with
    | Some ip => Ok [MkAddress (Some (IPAddr ip [])) (p_Port p)]
    | None => ips ← LookupIP (p_IP p); Ok (map (fun ip => MkAddress (Some (IPAddr ip [])) (p_Port p)) ips)
    end.

(** ** Responses *)
Record AnnounceResponse := MkResponse {
  s_FailureReason : bytes; s_Interval : Z; s_Peers : list Peer; s_Peers6 : list Peer; s_Complete : Z; s_Incomplete : Z; s_TrackerID : bytes
}.
Definition zeroResponse : AnnounceResponse := MkResponse [] 0 [] [] 0 0 [].

Definition peers_val (marshal : list Peer -> res bytes) (ps : list Peer) : goval :=
  VCustom (VSlice (if decide (ps = []) then None else Some (map peer_val ps))) (marshal ps).
Definition peers_type (marshal : list Peer -> res bytes) (unmarshal : bytes -> res (list Peer)) : gotype :=
  TCustom (peers_val marshal []) (fun _ b => ps ← unmarshal b; Ok (peers_val marshal ps)).
Definition peer_of (v : goval) : res Peer :=
  match v with VStruct [(_, VString id); (_, VString ip); (_, VUint port)] => Ok (MkPeer id ip port) | _ => Panic notOfType end.
Definition peers_of (v : goval) : res (list Peer) :=
  match v with VCustom r _ => l ← elems r; mapR peer_of l | _ => Panic notOfType end.

Definition response_type : gotype := TStruct
  [(fld "FailureReason" "failure reason,omitempty", TString); (fld "Interval" "interval,omitempty", TUint 32);
   (fld "Peers" "peers,omitempty", peers_type Peers_MarshalBencode Peers_UnmarshalBencode);
   (fld "Peers6" "peers6,omitempty", peers_type Peers6_MarshalBencode Peers6_UnmarshalBencode);
   (fld "Complete" "complete,omitempty", TUint 32); (fld "Incomplete" "incomplete,omitempty", TUint 32);
   (fld "TrackerID" "tracker id,omitempty", TString)].
Definition response_val (r : AnnounceResponse) : goval := VStruct
  [(fld "FailureReason" "failure reason,omitempty", VString (s_FailureReason r)); (fld "Interval" "interval,omitempty", VUint (s_Interval r));
   (fld "Peers" "peers,omitempty", peers_val Peers_MarshalBencode (s_Peers r));
   (fld "Peers6" "peers6,omitempty", peers_val Peers6_MarshalBencode (s_Peers6 r));
   (fld "Complete" "complete,omitempty", VUint (s_Complete r)); (fld "Incomplete" "incomplete,omitempty", VUint (s_Incomplete r));
   (fld "TrackerID" "tracker id,omitempty", VString (s_TrackerID r))].
Definition response_of (v : goval) : res AnnounceResponse :=
  match v with
  | VStruct [(_, VString reason); (_, VUint interval); (_, ps); (_, ps6); (_, VUint c); (_, VUint i); (_, VString id)] =>
      ps ← peers_of ps; ps6 ← peers_of ps6; Ok (MkResponse reason interval ps ps6 c i id)
  | _ => Panic notOfType
  end.

Record ScrapeResponseResult := MkResult { sc_Complete : Z; sc_Incomplete : Z; sc_Downloaded : Z }.
Record ScrapeResponse := MkScrape { sc_FailureReason : bytes; sc_Files : gmap bytes ScrapeResponseResult }.

Definition result_type : gotype := TStruct
  [(fld "Complete" "complete", TUint 32); (fld "Incomplete" "incomplete", TUint 32); (fld "Downloaded" "downloaded", TUint 32)].
Definition result_val (r : ScrapeResponseResult) : goval := VStruct
  [(fld "Complete" "complete", VUint (sc_Complete r)); (fld "Incomplete" "incomplete", VUint (sc_Incomplete r)); (fld "Downloaded" "downloaded", VUint (sc_Downloaded r))].

(** [Files] is a map with hashes as keys: the decoder takes no such map, and
    the encoder writes the entries in the order in which sorting by equal
    texts leaves them, an argument. *)
Definition scrape_type : gotype := TStruct
  [(fld "FailureReason" "failure_reason,omitempty", TString); (fld "Files" "files,omitempty", TMapOtherKey result_type)].
Definition scrape_zero : goval := VStruct [(fld "FailureReason" "failure_reason,omitempty", VString []); (fld "Files" "files,omitempty", VOther)].
Definition scrape_of (v : goval) : res ScrapeResponse :=
  match v with VStruct [(_, VString reason); _] => Ok (MkScrape reason ∅) | _ => Panic notOfType end.

Definition encode_files (es : list (bytes * ScrapeResponseResult)) : res bytes :=
  l ← mapR (fun e => k ← Hash.MarshalBencode e.1; v ← EncodeBytes (result_val e.2); Ok (k ++ v)) es;
  Ok ([100] ++ concat l ++ [101]).

Definition scrape_val (range : gmap bytes ScrapeResponseResult -> list (bytes * ScrapeResponseResult)) (r : ScrapeResponse) : goval := VStruct
  [(fld "FailureReason" "failure_reason,omitempty", VString (sc_FailureReason r));
   (fld "Files" "files,omitempty", VCustom (VMap (if decide (sc_Files r = ∅) then None else Some (map (fun e => (e.1, result_val e.2)) (range (sc_Files r)))))
      (encode_files (range (sc_Files r))))].

Definition Scrape_EncodeTo range (r : ScrapeResponse) : res bytes := EncodeBytes (scrape_val range r).
Definition Scrape_DecodeFrom (r : bytes) : res ScrapeResponse := '(v, _) ← Decode scrape_type scrape_zero (NewDecoder r); scrape_of v.

(** ** The client *)
Record Client := MkClient { c_ID : bytes; c_AnnounceURL : bytes; c_ScrapeURL : bytes }.

(** [strings.Replace(s, old, new, -1)] for a non-empty [old]. *)
Fixpoint replace_all (fuel : nat) (s old new : bytes) : bytes :=
  match fuel, s with
  | S f, c :: s' => if HasPrefix s old then new ++ replace_all f (drop (length old) s) old new else c :: replace_all f s' old new
  | _, _ => s
  end.

Definition NewClient (random : bytes) (announceURL scrapeURL : bytes) : Client :=
  MkClient random announceURL
    (if bool_decide (scrapeURL = []) then replace_all (length announceURL) announceURL (bs "announce") (bs "scrape") else scrapeURL).

(** [http.NewRequestWithContext] of a URL, and what [Do] answers to it: the
    body of the response. *)
Context (NewRequest : bytes -> option string) (Do : bytes -> res bytes).

Definition request_url (u : bytes) (vs : Values) : bytes := (if Contains_byte u 63 then u ++ [38] else u ++ [63]) ++ Encode vs.

Definition send (u : bytes) (vs : Values) (t : gotype) (v : goval) : res goval :=
  let url := request_url u vs in
  match NewRequest url with
  | Some e => Err e
  | None => body ← Do url; '(v, _) ← Decode t v (NewDecoder body); Ok v
  end.

(** [Announce] fills in the ID of the request, which the caller shares. *)
Definition fill_PeerID (random : bytes) (c : Client) (r : AnnounceRequest) : AnnounceRequest :=
  if IsZero (h_PeerID r) then
    MkRequest (h_InfoHash r) (if IsZero (c_ID c) then random else c_ID c) (h_Uploaded r) (h_Downloaded r) (h_Left r) (h_Port r) (h_IP r)
      (h_Event r) (h_Compact r) (h_NumWant r) (h_Key r)
  else r.

Definition Announce (random : bytes) (c : Client) (r : AnnounceRequest) : res AnnounceResponse * AnnounceRequest :=
  let r := fill_PeerID random c r in
  (v ← send (c_AnnounceURL c) (ToQuery r) response_type (response_val zeroResponse); response_of v, r).

Definition Scrape (c : Client) (infohashes : list bytes) : res ScrapeResponse :=
  v ← send (c_ScrapeURL c) {[bs "info_hash" := infohashes]} scrape_type scrape_zero; scrape_of v.
End Peers.

End HttpTracker.
