(* ===== verification/HttpFacts.v ===== *)
(** * The HTTP tracker works for its own client

    Requests survive the query string, responses the bencode form, and so an
    announce runs to its end; where the two forms of compact peers collide, and
    for scrapes, it does not. *)

From S2P Require Import Prelude Strconv Bencode BencodeFacts BencodeTyped BencodeStruct Sha1 Hash Net NetFacts Routing Address Krpc KrpcFacts GoLib Url HttpTracker.
Import Strconv Bencode BencodeFacts BencodeTyped BencodeStruct Hash Net NetFacts Address Krpc KrpcFacts GoLib Url HttpTracker.

Module HttpFacts.

Ltac static := split_and!; vm_compute; reflexivity.
Ltac distinct_keys := apply (bool_decide_unpack _); vm_compute; exact Logic.I.

(** ** Requests *)
Definition int64_ok (z : Z) : Prop := - 2 ^ 63 <= z < 2 ^ 63.
Definition int32_ok (z : Z) : Prop := - 2 ^ 31 <= z < 2 ^ 31.

Record request_ok (r : AnnounceRequest) : Prop := {
  ro_hash : hash_ok (h_InfoHash r);
  ro_peer : hash_ok (h_PeerID r);
  ro_up : int64_ok (h_Uploaded r);
  ro_down : int64_ok (h_Downloaded r);
  ro_left : int64_ok (h_Left r);
  ro_port : 0 <= h_Port r < 2 ^ 16;
  ro_ip : bytes_ok (h_IP r);
  ro_event : 0 <= h_Event r < 2 ^ 32;
  ro_want : int32_ok (h_NumWant r);
  ro_key : int32_ok (h_Key r)
}.

Definition when (b : bool) (v : bytes) : option (list bytes) := if b then Some [v] else None.

Lemma Set_eq k v vs : Set_ k v vs !! bs k = Some [v].
Proof. apply lookup_insert_eq. Qed.
Lemma Set_ne k k' v vs : bs k <> bs k' -> Set_ k v vs !! bs k' = vs !! bs k'.
Proof. apply lookup_insert_ne. Qed.
Lemma set_when_eq b k v vs : vs !! bs k = None -> set_when b k v vs !! bs k = when b v.
Proof. intros Hn. destruct b; [apply Set_eq|done]. Qed.
Lemma set_when_ne b k k' v vs : bs k <> bs k' -> set_when b k v vs !! bs k' = vs !! bs k'.
Proof. intros Hn. destruct b; [by apply Set_ne|done]. Qed.

Ltac look := repeat first [rewrite Set_eq | rewrite Set_ne by discriminate | rewrite set_when_ne by discriminate]; try apply lookup_empty; try reflexivity.
Ltac entry := look; try (apply set_when_eq; look).

(** The entry of each key of a query. *)
Lemma ToQuery_lookup r :
  let q k := ToQuery r !! bs k in
  q "info_hash"%string = Some [h_InfoHash r] /\ q "peer_id"%string = Some [h_PeerID r] /\ q "uploaded"%string = Some [FormatInt (h_Uploaded r)] /\
  q "downloaded"%string = Some [FormatInt (h_Downloaded r)] /\ q "left"%string = Some [FormatInt (h_Left r)] /\
  q "ip"%string = when (negb (bool_decide (h_IP r = []))) (h_IP r) /\ q "event"%string = when (bool_decide (0 < h_Event r)) (FormatInt (h_Event r)) /\
  q "port"%string = when (bool_decide (0 < h_Port r)) (FormatUint 10 (h_Port r)) /\
  q "numwant"%string = when (negb (bool_decide (h_NumWant r = 0))) (FormatUint 10 (u64 (h_NumWant r))) /\
  q "key"%string = when (negb (bool_decide (h_Key r = 0))) (FormatInt (h_Key r)) /\ q "compact"%string = Some [if h_Compact r then bs "1" else bs "0"].
Proof. cbv zeta. unfold ToQuery. cbv zeta. split_and!; entry. Qed.

Lemma Set_wf k v vs : values_wf vs -> bytes_ok v -> values_wf (Set_ k v vs).
Proof.
  intros Hw Hv k' l. unfold Set_. intros [[<- <-]|[_ Hl]]%lookup_insert_Some; [|by apply Hw].
  split; [apply bs_ok|]. split; [by apply Forall_singleton|done].
Qed.
Lemma set_when_wf b k v vs : values_wf vs -> bytes_ok v -> values_wf (set_when b k v vs).
Proof. intros Hw Hv. destruct b; [by apply Set_wf|done]. Qed.

Lemma FormatUint_bytes_ok n : 0 <= n -> bytes_ok (FormatUint 10 n).
Proof. intros Hn. eapply Forall_impl; [by apply FormatUint_digits|]. intros c Hc%is_digit_spec. unfold is_byte. lia. Qed.

Lemma ToQuery_wf r : request_ok r -> values_wf (ToQuery r).
Proof.
  intros [[_ H1] [_ H2] _ _ _ Hp Hip _ _ _]. unfold ToQuery. cbv zeta.
  repeat first [apply Set_wf | apply set_when_wf]; try done; try apply FormatInt_bytes_ok.
  - apply FormatUint_bytes_ok. lia.
  - apply FormatUint_bytes_ok. apply wrap_range. lia.
  - destruct (h_Compact r); apply bs_ok.
Qed.

Lemma optional_when b v s old parse convert x :
  s = default [] (when b v ≫= head) -> (b = false -> old = x) -> (b = true -> v <> [] /\ exists y, parse v = Ok y /\ convert y = x) ->
  optional s old parse convert = Ok x.
Proof.
  intros -> Hf Ht. unfold optional. destruct b; cbn.
  - destruct (Ht eq_refl) as (Hn & y & Ey & Ex). rewrite bool_decide_false by done. rewrite Ey, bind_Ok. by rewrite Ex.
  - by rewrite Hf.
Qed.

Lemma get_default vs k : get vs k = default [] (vs !! bs k ≫= head).
Proof. unfold get, Get. destruct (vs !! bs k) as [[|x l]|]; done. Qed.

(** The optional fields, read into a request that has none. *)
Lemma optional_fields r r0 : request_ok r -> h_Event r0 = 0 -> h_Port r0 = 0 -> h_NumWant r0 = 0 -> h_Key r0 = 0 ->
  parseEventField r0 (ToQuery r) = Ok (h_Event r) /\ parsePortField r0 (ToQuery r) = Ok (h_Port r) /\
  parseNumWantField r0 (ToQuery r) = Ok (h_NumWant r) /\ parseKeyField r0 (ToQuery r) = Ok (h_Key r).
Proof.
  intros [_ _ _ _ _ H6 _ H8 H9 H10] E1 E2 E3 E4. destruct (ToQuery_lookup r) as (_ & _ & _ & _ & _ & _ & Q7 & Q8 & Q9 & Q10 & _). unfold int32_ok in *. split_and!.
  - apply (optional_when (bool_decide (0 < h_Event r)) (FormatInt (h_Event r))); [by rewrite get_default, Q7|intros Hb%bool_decide_eq_false; lia|].
    intros Hb%bool_decide_eq_true. split; [apply FormatInt_chars|]. exists (h_Event r). unfold FormatInt. rewrite decide_False by lia.
    split; [apply ParseUint_FormatUint; lia|apply u32_small; lia].
  - apply (optional_when (bool_decide (0 < h_Port r)) (FormatUint 10 (h_Port r))); [by rewrite get_default, Q8|intros Hb%bool_decide_eq_false; lia|].
    intros Hb%bool_decide_eq_true. split; [apply FormatUint_nonempty|]. exists (h_Port r). split; [apply ParseUint_FormatUint; lia|apply u16_small; lia].
  - apply (optional_when (negb (bool_decide (h_NumWant r = 0))) (FormatUint 10 (u64 (h_NumWant r)))); [by rewrite get_default, Q9| |].
    { intros Hb%negb_false_iff%bool_decide_eq_true. lia. }
    intros _. split; [apply FormatUint_nonempty|]. exists (u64 (h_NumWant r)). split; [apply ParseUint_FormatUint; [apply wrap_range; lia|lia]|].
    apply swrap_of_wrap; lia.
  - apply (optional_when (negb (bool_decide (h_Key r = 0))) (FormatInt (h_Key r))); [by rewrite get_default, Q10| |].
    { intros Hb%negb_false_iff%bool_decide_eq_true. lia. }
    intros _. split; [apply FormatInt_chars|]. exists (h_Key r). split; [apply ParseInt_FormatInt; cbn; lia|apply swrap_small; lia].
Qed.

Lemma FromQuery_ToQuery r : request_ok r -> FromQuery zeroRequest (ToQuery r) = Ok r.
Proof.
  intros Hr. destruct (ToQuery_lookup r) as (Q1 & Q2 & Q3 & Q4 & Q5 & Q6 & _ & _ & _ & _ & Q11). pose proof (optional_fields r) as Ho.
  unfold FromQuery, parseRequiredFields, parseRequiredIntegers. rewrite !get_default, Q1, Q2, Q3, Q4, Q5. cbn [default from_option mbind option_bind head].
  pose proof Hr as [H1 H2 H3 H4 H5 _ _ _ _ _]. unfold int64_ok in *. change (@id bytes) with (fun x : bytes => x). cbv beta.
  rewrite !FromString_raw, !bind_Ok by done. rewrite !ParseInt_FormatInt, !bind_Ok by (cbn; lia).
  unfold parseOptionalFields. destruct (Ho (MkRequest (h_InfoHash r) (h_PeerID r) (h_Uploaded r) (h_Downloaded r) (h_Left r) 0 [] 0 false 0 0) Hr eq_refl eq_refl eq_refl eq_refl) as (O1 & O2 & O3 & O4).
  cbn [h_InfoHash h_PeerID h_Uploaded h_Downloaded h_Left h_Port h_IP h_Event h_Compact h_NumWant h_Key zeroRequest] in *.
  rewrite O1, bind_Ok, O2, bind_Ok, O3, bind_Ok, O4, !bind_Ok. f_equal. unfold parseStringFields. rewrite !get_default, Q6, Q11.
  clear. destruct r as [? ? ? ? ? ? ip ? compact ? ?]. cbn. f_equal; [by destruct ip|by destruct compact].
Qed.

(** ** Peers *)
Lemma chop_concat k l : Forall (fun b => length b = k) l -> chop k (length l) (concat l) = l.
Proof. induction 1 as [|b l Hb _ IH]; [done|]. cbn [length chop concat]. rewrite take_app_length', drop_app_length' by done. by rewrite IH. Qed.

Lemma length_concat_same k (l : list bytes) : Forall (fun b => length b = k) l -> length (concat l) = (length l * k)%nat.
Proof. induction 1 as [|b l Hb _ IH]; [done|]. cbn [concat length]. rewrite length_app, IH, Hb. lia. Qed.

Section Peers.
Context {I : Type} `{I2PKeys I}.

(** A peer known by an IP address of [n] bytes. *)
Definition ip_peer (n : nat) (p : Peer) : Prop :=
  p_ID p = [] /\ 0 <= p_Port p < 2 ^ 16 /\ exists ip, p_IP p = IP_String ip /\ length ip = n /\ bytes_ok ip /\ (n = 16%nat -> To4 ip = None).

Definition conv (n : nat) : bytes -> option bytes := if decide (n = 4%nat) then To4 else To16.
Definition peer_bytes (n : nat) (p : Peer) : bytes := match compact_peer (conv n) p with Ok b => b | _ => [] end.

Lemma compact_peer_ok n p : (n = 4 \/ n = 16)%nat -> ip_peer n p ->
  compact_peer (conv n) p = Ok (peer_bytes n p) /\ length (peer_bytes n p) = (n + 2)%nat /\ addr_peer (I := I) (peer_bytes n p) = Ok p.
Proof.
  intros Hn (Hid & Hport & ip & Hip & Hl & Hb & H16). unfold peer_bytes.
  assert (E : compact_peer (conv n) p = Ok (ip ++ be_bytes 2 (p_Port p))).
  { unfold compact_peer, conv. rewrite Hip. destruct Hn as [-> | ->].
    - rewrite decide_True by done. rewrite ParseIP_v4 by done. cbn [mbind option_bind]. unfold To4, FastSet.To4.
      destruct ip as [|a [|b [|c [|d [|]]]]]; try done.
    - rewrite decide_False by done. rewrite ParseIP_v6 by (done || by apply H16). cbn [mbind option_bind]. unfold To16.
      rewrite decide_False, decide_True by (unfold len, IPv4len, IPv6len; lia). destruct ip; done. }
  rewrite E. split; [done|]. split; [rewrite length_app, length_be_bytes; lia|]. unfold addr_peer.
  rewrite UnmarshalBinary_ip by (done || unfold ip_len_ok; lia). rewrite bind_Ok. cbn [IP_text a_IP a_Port]. rewrite bind_Ok.
  destruct p as [id ipt port]. cbn in *. subst id ipt. f_equal. f_equal. unfold zoned, ipEmptyString. rewrite decide_True by done.
  by rewrite decide_False by (unfold len; lia).
Qed.

Lemma compact_peers_ok n ps : (n = 4 \/ n = 16)%nat -> Forall (ip_peer n) ps ->
  mapR (compact_peer (conv n)) ps = Ok (map (peer_bytes n) ps) /\
  Forall (fun b => length b = (n + 2)%nat) (map (peer_bytes n) ps) /\ mapR (addr_peer (I := I)) (map (peer_bytes n) ps) = Ok ps.
Proof.
  intros Hn. induction 1 as [|p ps Hp _ (E1 & E2 & E3)]; [done|]. destruct (compact_peer_ok n p Hn Hp) as (P1 & P2 & P3). cbn [mapR map].
  rewrite P1, bind_Ok, E1, bind_Ok. split; [done|]. split; [by constructor|]. by rewrite P3, bind_Ok, E3, bind_Ok.
Qed.

Lemma chop_peers n ps : (n = 4 \/ n = 16)%nat -> Forall (ip_peer n) ps ->
  let s := concat (map (peer_bytes n) ps) in
  length s = (length ps * (n + 2))%nat /\ chop (n + 2) (Z.to_nat (len s / (Z.of_nat n + 2))) s = map (peer_bytes n) ps.
Proof.
  intros Hn Hps. cbv zeta. destruct (compact_peers_ok n ps Hn Hps) as (_ & Hl & _). assert (E : length (concat (map (peer_bytes n) ps)) = (length ps * (n + 2))%nat).
  { rewrite (length_concat_same (n + 2)) by done. by rewrite length_map. }
  split; [done|]. unfold len. rewrite E.
  replace (Z.of_nat (length ps * (n + 2))) with (Z.of_nat (length ps) * (Z.of_nat n + 2)) by lia. rewrite Z.div_mul, Nat2Z.id by lia.
  rewrite <- (length_map (peer_bytes n) ps). by apply chop_concat.
Qed.

(** Compact peers whose number is not a multiple of sixteen. *)
Lemma compact_read ps : Forall (ip_peer 4) ps -> Z.of_nat (length ps) mod 16 <> 0 \/ ps = [] ->
  unmarshalCompactPeers (I := I) (concat (map (peer_bytes 4) ps)) = Ok ps.
Proof.
  intros Hps H16. destruct (chop_peers 4 ps ltac:(lia) Hps) as [Hl Hc]. destruct (compact_peers_ok 4 ps ltac:(lia) Hps) as (_ & _ & E).
  unfold unmarshalCompactPeers. cbv zeta. assert (El : len (concat (map (peer_bytes 4) ps)) = 6 * Z.of_nat (length ps)) by (unfold len; lia).
  assert (bool_decide (len (concat (map (peer_bytes 4) ps)) mod 32 = 0) && bool_decide (0 < len (concat (map (peer_bytes 4) ps))) = false) as ->.
  { apply andb_false_iff. rewrite !bool_decide_eq_false, El. destruct H16 as [H16|H16]; [left|right; subst ps; cbn; lia].
    intros E0. apply H16. apply Z.mod_divide in E0 as [k Hk]; [|lia]. apply Z.mod_divide; [lia|]. apply (Z.gauss 16 3); [exists k; lia|reflexivity]. }
  rewrite bool_decide_true by (rewrite El, Z.mul_comm; apply Z.mod_mul; lia). change (4 + 2)%nat with 6%nat in Hc. change (Z.of_nat 4 + 2) with 6 in Hc. by rewrite Hc.
Qed.

(** A multiple of sixteen compact peers: the same number of bytes as three
    destination hashes for each sixteen. *)
Lemma compact_misread ps k : Forall (ip_peer 4) ps -> length ps = (16 * S k)%nat ->
  exists qs, unmarshalCompactPeers (I := I) (concat (map (peer_bytes 4) ps)) = Ok qs /\ length qs = (3 * S k)%nat /\
    Forall (fun q => is_i2p (p_IP q) = true /\ p_Port q = 6881) qs.
Proof.
  intros Hps Hk. destruct (chop_peers 4 ps ltac:(lia) Hps) as [Hl _]. unfold unmarshalCompactPeers. cbv zeta.
  assert (El : len (concat (map (peer_bytes 4) ps)) = 32 * (3 * Z.of_nat (S k))) by (unfold len; lia).
  rewrite bool_decide_true by (rewrite El, Z.mul_comm; apply Z.mod_mul; lia). rewrite bool_decide_true by lia. cbn [andb]. eexists. split; [reflexivity|].
  rewrite length_map, El, Z.mul_comm, Z.div_mul by lia. replace (Z.to_nat (3 * Z.of_nat (S k))) with (3 * S k)%nat by lia. split.
  - generalize (concat (map (peer_bytes 4) ps)). induction (3 * S k)%nat as [|n IH]; intros b; [done|]. cbn. by rewrite IH.
  - apply Forall_map, Forall_forall. intros h _. cbn [p_IP p_Port]. split; [|done]. unfold is_i2p, b32addr. apply bool_decide_eq_true.
    generalize (ToLower (filter (fun c => c <> 61) (EncodeToString h))). intros t. rewrite length_app. change (length (bs ".b32.i2p")) with 8%nat.
    replace (length t + 8 - 4)%nat with (length t + 4)%nat by lia. by rewrite drop_app_add' by done.
Qed.

(** Peers with an ID are written one by one. *)
Definition dict_peer (p : Peer) : Prop := p_ID p <> [] /\ len (p_ID p) < 2 ^ 31 /\ len (p_IP p) < 2 ^ 31 /\ 0 <= p_Port p < 2 ^ 16.
Definition peer_doc (p : Peer) : bval := BDict [(bs "ip", BStr (p_IP p)); (bs "peer id", BStr (p_ID p)); (bs "port", BInt (p_Port p))].

Lemma peer_encoded p : EncodeBytes (peer_val p) = Ok (bencode (peer_doc p)).
Proof. reflexivity. Qed.

Lemma peer_doc_ok p : dict_peer p -> bval_ok (peer_doc p) /\ extractPeerFromDict (to_iface (peer_doc p)) = Ok p.
Proof.
  intros (_ & H1 & H2 & H3). split.
  - apply bval_ok_dict. split; [apply (bool_decide_unpack _); vm_compute; exact Logic.I|]. repeat constructor; cbn [fst snd bval_ok]; try lia; vm_compute; reflexivity.
  - change (Ok (MkPeer (p_ID p) (p_IP p) (u16 (p_Port p))) = Ok p). rewrite u16_small by lia. by destruct p.
Qed.

Definition peers_doc (ps : list Peer) : bval :=
  if existsb (fun p => bool_decide (p_ID p = [])) ps then BStr (concat (map (peer_bytes 4) ps)) else BList (map peer_doc ps).

(** The lists of peers a response can carry. *)
Definition peers_ok (ps : list Peer) : Prop :=
  len ps < 2 ^ 24 /\ (Forall (ip_peer 4) ps /\ (Z.of_nat (length ps) mod 16 <> 0 \/ ps = []) \/ Forall dict_peer ps).
Definition peers6_ok (ps : list Peer) : Prop := len ps < 2 ^ 24 /\ Forall (ip_peer 16) ps.

Lemma dict_peers_read ps : Forall dict_peer ps ->
  existsb (fun p => bool_decide (p_ID p = [])) ps = false /\ Forall bval_ok (map peer_doc ps) /\
  mapR (fun p => EncodeBytes (peer_val p)) ps = Ok (map (fun p => bencode (peer_doc p)) ps) /\
  mapR extractPeerFromDict (map to_iface (map peer_doc ps)) = Ok ps.
Proof.
  induction 1 as [|p ps Hp _ (E1 & E2 & E3 & E4)]; [done|]. destruct (peer_doc_ok p Hp) as [D1 D2]. cbn [existsb map mapR].
  rewrite E1, bool_decide_false by apply Hp. split; [done|]. split; [by constructor|]. rewrite peer_encoded, bind_Ok, E3, bind_Ok. split; [done|].
  by rewrite D2, bind_Ok, E4, bind_Ok.
Qed.

Lemma peers_read ps : ps <> [] -> peers_ok ps ->
  bval_ok (peers_doc ps) /\ Peers_MarshalBencode ps = Ok (bencode (peers_doc ps)) /\ Peers_UnmarshalBencode (I := I) (bencode (peers_doc ps)) = Ok ps.
Proof.
  intros Hne [Hlen Hps]. unfold peers_doc, Peers_MarshalBencode, Peers_UnmarshalBencode.
  assert (Hrd : forall b, bval_ok b -> DecodeBytes (bencode b) TIface (VIface None) = Ok (to_iface b)).
  { intros b Hb. apply decodes_as_DecodeBytes. by apply decodes_iface. }
  destruct Hps as [[Hps H16]|Hps].
  - destruct (chop_peers 4 ps ltac:(lia) Hps) as [Hl _]. destruct (compact_peers_ok 4 ps ltac:(lia) Hps) as (E & _ & _).
    assert (existsb (fun p => bool_decide (p_ID p = [])) ps = true) as ->.
    { destruct ps as [|p ps]; [done|]. apply Forall_cons in Hps as [[Hid _] _]. cbn. by rewrite Hid. }
    assert (Hok : bval_ok (BStr (concat (map (peer_bytes 4) ps)))) by (cbn; unfold len in *; lia). split; [done|]. split.
    + unfold marshalCompactBencode. change To4 with (conv 4). by rewrite E.
    + rewrite Hrd by done. rewrite bind_Ok. by apply compact_read.
  - destruct (dict_peers_read ps Hps) as (-> & E1 & E2 & E3). assert (Hok : bval_ok (BList (map peer_doc ps))) by (by apply bval_ok_list).
    split; [done|]. split; [rewrite E2; cbn; by rewrite map_map|]. rewrite Hrd by done. rewrite bind_Ok. cbn [to_iface].
    destruct ps as [|p ps]; [done|]. exact E3.
Qed.

Lemma peers6_read ps : peers6_ok ps ->
  let s := concat (map (peer_bytes 16) ps) in
  len s < 2 ^ 31 /\ Peers6_MarshalBencode ps = Ok (encode_string s) /\ Peers6_UnmarshalBencode (I := I) (encode_string s) = Ok ps.
Proof.
  intros [Hlen Hps]. cbv zeta. destruct (chop_peers 16 ps ltac:(lia) Hps) as [Hl Hc]. destruct (compact_peers_ok 16 ps ltac:(lia) Hps) as (E & _ & E').
  assert (El : len (concat (map (peer_bytes 16) ps)) = len ps * 18) by (unfold len in *; lia).
  assert (Hs : len (concat (map (peer_bytes 16) ps)) < 2 ^ 31) by lia. split; [done|]. split.
  - unfold Peers6_MarshalBencode. change To16 with (conv 16). by rewrite E.
  - unfold Peers6_UnmarshalBencode. rewrite (decodes_as_DecodeBytes _ _ _ _ (decodes_string (VString []) _ Hs)), bind_Ok. cbv zeta.
    rewrite El, Z.mod_mul, decide_False by lia. rewrite <- El. change (16 + 2)%nat with 18%nat in Hc. change (Z.of_nat 16 + 2) with 18 in Hc. by rewrite Hc.
Qed.

Lemma peers_field fi key marshal unmarshal ps doc : field_static fi key true ->
  (ps <> [] -> bval_ok doc /\ marshal ps = Ok (bencode doc) /\ unmarshal (bencode doc) = Ok ps) ->
  field_ok (MkField fi key true (peers_type marshal unmarshal) (peers_val marshal []) (peers_val marshal ps) (bencode doc)).
Proof.
  intros Hs Hd. constructor; cbn [fd_info fd_key fd_omit fd_type fd_zero fd_val fd_bytes]; [done|done| |].
  - unfold present. cbn [fd_omit fd_val andb]. intros Hp. assert (Hne : ps <> []) by (intros ->; by cbn in Hp). destruct (Hd Hne) as (H1 & H2 & H3).
    split; [exact H2|]. apply decodes_custom; [done|]. by rewrite H3.
  - unfold present, peers_val. cbn. destruct (decide (ps = [])) as [->|]; [done|].
    intros Hb%negb_false_iff%bool_decide_eq_true. destruct ps; [done|]. unfold len in Hb. cbn in Hb. lia.
Qed.

(** ** Responses *)
Record response_ok (r : AnnounceResponse) : Prop := {
  so_reason : len (s_FailureReason r) < 2 ^ 31;
  so_interval : 0 <= s_Interval r < 2 ^ 32;
  so_peers : peers_ok (s_Peers r);
  so_peers6 : peers6_ok (s_Peers6 r);
  so_complete : 0 <= s_Complete r < 2 ^ 32;
  so_incomplete : 0 <= s_Incomplete r < 2 ^ 32;
  so_id : len (s_TrackerID r) < 2 ^ 31
}.

Definition peers4_type : gotype := peers_type Peers_MarshalBencode (Peers_UnmarshalBencode (I := I)).
Definition peers6_type : gotype := peers_type Peers6_MarshalBencode (Peers6_UnmarshalBencode (I := I)).
Definition response_fields (r : AnnounceResponse) : list field :=
  [MkField (fld "FailureReason" "failure reason,omitempty") (bs "failure reason") true TString (VString []) (VString (s_FailureReason r)) (encode_string (s_FailureReason r));
   MkField (fld "Interval" "interval,omitempty") (bs "interval") true (TUint 32) (VUint 0) (VUint (s_Interval r)) (encodeNumeric (s_Interval r));
   MkField (fld "Peers" "peers,omitempty") (bs "peers") true peers4_type (peers_val Peers_MarshalBencode []) (peers_val Peers_MarshalBencode (s_Peers r))
     (bencode (peers_doc (s_Peers r)));
   MkField (fld "Peers6" "peers6,omitempty") (bs "peers6") true peers6_type (peers_val Peers6_MarshalBencode []) (peers_val Peers6_MarshalBencode (s_Peers6 r))
     (bencode (BStr (concat (map (peer_bytes 16) (s_Peers6 r)))));
   MkField (fld "Complete" "complete,omitempty") (bs "complete") true (TUint 32) (VUint 0) (VUint (s_Complete r)) (encodeNumeric (s_Complete r));
   MkField (fld "Incomplete" "incomplete,omitempty") (bs "incomplete") true (TUint 32) (VUint 0) (VUint (s_Incomplete r)) (encodeNumeric (s_Incomplete r));
   MkField (fld "TrackerID" "tracker id,omitempty") (bs "tracker id") true TString (VString []) (VString (s_TrackerID r)) (encode_string (s_TrackerID r))].

Lemma response_fields_ok r : response_ok r -> Forall field_ok (response_fields r).
Proof.
  intros [H1 H2 H3 H4 H5 H6 H7]. repeat apply Forall_cons_2; try apply Forall_nil_2.
  - apply string_field; [static|done].
  - apply uint_field; [static|lia|done].
  - apply peers_field; [static|]. intros Hne. by apply peers_read.
  - apply peers_field; [static|]. intros _. by apply peers6_read.
  - apply uint_field; [static|lia|done].
  - apply uint_field; [static|lia|done].
  - apply string_field; [static|done].
Qed.

Lemma http_peers_of_val marshal ps : peers_of (peers_val marshal ps) = Ok ps.
Proof.
  unfold peers_of, peers_val. rewrite (elems_slice peer_val ps), bind_Ok. apply mapR_map. apply Forall_forall. by intros [id ip port] _.
Qed.

Lemma response_reads_back r rest : response_ok r ->
  exists body, EncodeBytes (response_val r) = Ok body /\
    ('(v, _) ← Decode (response_type (I := I)) (response_val zeroResponse) (NewDecoder (body ++ rest)); response_of v) = Ok r.
Proof.
  intros Hr. destruct (struct_roundtrip (response_fields r) (response_fields_ok r Hr)) as (p & E & D); [distinct_keys|]. exists p. split; [exact E|].
  change (VStruct (vals (response_fields r))) with (response_val r) in D. change (VStruct (zeros (response_fields r))) with (response_val zeroResponse) in D.
  change (TStruct (types (response_fields r))) with (response_type (I := I)) in D. destruct (decodes_as_Decode _ _ _ rest D) as (d & Ed & _).
  cbn [fst snd] in Ed. rewrite Ed, bind_Ok. destruct r as [reason interval ps ps6 c i id]. unfold response_of, response_val.
  cbn [s_FailureReason s_Interval s_Peers s_Peers6 s_Complete s_Incomplete s_TrackerID]. by rewrite !http_peers_of_val, !bind_Ok.
Qed.
End Peers.

(** ** Scrapes *)
Lemma scrape_unreadable x : exists e, Decode scrape_type scrape_zero (NewDecoder ([100] ++ encode_string (bs "files") ++ 100 :: x)) = Err e.
Proof.
  unfold Decode. set (d := NewDecoder _). assert (Hr : d_r d = 100 :: (encode_string (bs "files") ++ 100 :: x)) by done.
  assert (Hf : exists f, decode_fuel (d_r d) = S (S (S f))) by (unfold decode_fuel; rewrite Hr; cbn [length]; eexists; lia || reflexivity).
  destruct Hf as [f ->]. rewrite decodeInto_plain by done. erewrite dispatch_dict by exact Hr. unfold decodeDict.
  change (d_raw d) with false. cbv iota. rewrite (consumeToken_ok 100 d _ Hr). cbn [mbind res_bind].
  set (d1 := took [100] (encode_string (bs "files") ++ 100 :: x) d).
  change (setupDictTarget (Some (scrape_type, scrape_zero))) with (Ok (DStruct scrape_type scrape_zero)). unfold scrape_type at 1. cbv iota. cbn [mbind res_bind].
  cbn [processDictKeyValuePairs]. rewrite (starts_checkEnd (encode_string (bs "files")) (100 :: x) d1 (starts_string _) eq_refl). cbn [mbind res_bind].
  rewrite (readDictKey_ok (bs "files") (100 :: x) d1) by done. cbn [mbind res_bind]. rewrite validateKeyOrder_off by done. cbn [mbind res_bind].
  change (prepareValueTarget (DStruct scrape_type scrape_zero) (bs "files")) with (Some (TMapOtherKey result_type, VOther)). cbv iota.
  rewrite decodeInto_plain by done. erewrite dispatch_dict by reflexivity. unfold decodeDict. cbv iota.
  erewrite consumeToken_ok by reflexivity. cbn [mbind res_bind]. eexists. reflexivity.
Qed.

(** The answer of a tracker that sends the response. *)
Lemma announce_answered {I} `{I2PKeys I} Do random c r resp : (forall url, Do url = EncodeBytes (response_val resp)) -> response_ok resp ->
  (Announce (I := I) (fun _ => None) Do random c r).1 = Ok resp.
Proof.
  intros HDo Hs. unfold Announce, send. cbn [fst]. rewrite HDo. destruct (response_reads_back (I := I) resp [] Hs) as (body & -> & Ed). rewrite app_nil_r in Ed.
  rewrite bind_Ok. destruct (Decode _ _ _) as [[v d]|e|e|] eqn:E; cbn [mbind res_bind] in *; done.
Qed.

(** ** Properties *)

(** C20: what [Announce] asks and what it returns, for any HTTP client. It asks
    for one URL: the announce URL and, after [?] (or [&] if the URL has a query
    already), a query that [FromQuery] reads as exactly the request, with its
    peer ID filled in from the client, or a random one, if it had none; a
    negative [Left] is sent as it is. If the request cannot be made or the
    exchange fails, that error is returned. If the body is the bencode of a
    response, with anything after it, exactly this response is returned: IPv4
    peers compact or with their IDs, IPv6 peers, counts, interval and texts.
    The conditions: the fields of request and response have their Go widths,
    texts are shorter than 2^31 bytes; the peers are either all compact, without
    an ID and with an IPv4 address, and their number is not a positive multiple
    of sixteen, or all have an ID; and the IPv6 peers have no ID and an IPv6
    address. *)
Theorem http_announce_exchange {I} `{I2PKeys I} NewRequest Do random c r : request_ok (fill_PeerID random c r) ->
  exists q, FromQuery zeroRequest (ParseQuery None q) = Ok (fill_PeerID random c r) /\
    let url := c_AnnounceURL c ++ [if Contains_byte (c_AnnounceURL c) 63 then 38 else 63] ++ q in
    let '(result, r') := Announce (I := I) NewRequest Do random c r in
    r' = fill_PeerID random c r /\
    match NewRequest url with
    | Some e => result = Err e
    | None =>
        (forall e, Do url = Err e -> result = Err e) /\
        (forall resp, response_ok resp -> exists body, EncodeBytes (response_val resp) = Ok body /\
           forall rest, Do url = Ok (body ++ rest) -> result = Ok resp)
    end.
Proof.
  intros Hr. set (r' := fill_PeerID random c r) in *. exists (Encode (ToQuery r')).
  split; [rewrite ParseQuery_Encode by (by apply ToQuery_wf); by rewrite FromQuery_ToQuery|]. cbv zeta. set (url := c_AnnounceURL c ++ _).
  assert (Eurl : request_url (c_AnnounceURL c) (ToQuery r') = url).
  { unfold request_url, url. destruct (Contains_byte _ _); by rewrite <- app_assoc. }
  unfold Announce, send. fold r'. cbv zeta. rewrite Eurl. split; [done|]. destruct (NewRequest url) as [e|]; [done|].
  split; [by intros e ->|]. intros resp Hs. destruct (response_reads_back (I := I) resp [] Hs) as (body & Eb & _). exists body. split; [done|].
  intros rest ->. rewrite bind_Ok. destruct (response_reads_back (I := I) resp rest Hs) as (body' & Eb' & Ed).
  rewrite Eb in Eb'. injection Eb' as <-. destruct (Decode _ _ _) as [[v d]|e|e|] eqn:E; cbn [mbind res_bind] in *; done.
Qed.

(** sixteen compact peers are taken for three. A list of IPv4 peers whose
    number is a multiple of sixteen takes a multiple of 32 bytes, and the client
    reads it as I2P destinations: it returns three made-up [.b32.i2p] peers for
    every sixteen and none of those the tracker listed. *)
Theorem sixteen_peers_misread {I} `{I2PKeys I} ps k : Forall (ip_peer 4) ps -> length ps = (16 * S k)%nat -> len ps < 2 ^ 24 ->
  exists qs, (b ← Peers_MarshalBencode ps; Peers_UnmarshalBencode (I := I) b) = Ok qs /\ length qs = (3 * S k)%nat /\
    Forall (fun q => is_i2p (p_IP q) = true /\ p_Port q = 6881) qs.
Proof.
  intros Hps Hk Hlen. destruct (compact_misread (I := I) ps k Hps Hk) as (qs & E & Hq). exists qs. split; [|done].
  destruct (compact_peers_ok (I := I) 4 ps ltac:(lia) Hps) as (Em & _ & _). destruct (chop_peers (I := I) 4 ps ltac:(lia) Hps) as [Hl _].
  unfold Peers_MarshalBencode. assert (existsb (fun p => bool_decide (p_ID p = [])) ps = true) as ->.
  { destruct ps as [|p ps]; [done|]. apply Forall_cons in Hps as [[Hid _] _]. cbn. by rewrite Hid. }
  unfold marshalCompactBencode. change To4 with (conv 4). rewrite Em, bind_Ok.
  change (EncodeBytes (VBytes (Some (concat (map (peer_bytes 4) ps))))) with (Ok (bencode (BStr (concat (map (peer_bytes 4) ps))))). rewrite bind_Ok.
  assert (Hok : bval_ok (BStr (concat (map (peer_bytes 4) ps)))) by (cbn; unfold len in *; lia).
  unfold Peers_UnmarshalBencode. rewrite (decodes_as_DecodeBytes _ _ _ _ (decodes_iface (VIface None) _ Hok)), bind_Ok. exact E.
Qed.

(** the client cannot read a scrape. The result is declared as a map from
    hashes, which the decoder refuses: whatever torrents a tracker reports, in
    the form this package itself writes, [Scrape] returns an error. *)
Theorem scrape_never_answers range c hs r :
  (forall m, range m ≡ₚ map_to_list m) -> sc_Files r <> ∅ -> sc_FailureReason r = [] ->
  exists e, Scrape (fun _ => None) (fun _ => Scrape_EncodeTo range r) c hs = Err e.
Proof.
  intros Hrange Hf Hn. unfold Scrape, send. cbv zeta. unfold Scrape_EncodeTo.
  assert (Hfiles : exists x, encode_files (range (sc_Files r)) = Ok (100 :: x)).
  { unfold encode_files. generalize (range (sc_Files r)). intros es. assert (Hm : exists l, mapR (fun e : bytes * ScrapeResponseResult =>
      k ← Hash.MarshalBencode e.1; v ← EncodeBytes (result_val e.2); Ok (k ++ v)) es = Ok l).
    { induction es as [|e es [l IH]]; [by eexists|]. cbn [mapR]. rewrite IH. by eexists. }
    destruct Hm as [l ->]. rewrite bind_Ok. by eexists. }
  destruct Hfiles as [x Ex].
  assert (Eb : EncodeBytes (scrape_val range r) = Ok ([100] ++ encode_string (bs "files") ++ 100 :: x ++ [101])).
  { unfold EncodeBytes, scrape_val. rewrite Hn.
    rewrite (encode_struct_as _ [(bs "files", 100 :: x)]); [unfold entry_bytes; cbn [concat map fst snd]; by rewrite app_nil_r, <- app_assoc| |repeat constructor].
    rewrite decide_False by done. struct_fields.
    assert (Hne : bool_decide (len (map (fun e => (e.1, result_val e.2)) (range (sc_Files r))) = 0) = false).
    { apply bool_decide_eq_false. unfold len. rewrite length_map. intros E. apply Hf. apply map_size_empty_inv. rewrite <- length_map_to_list, <- (Hrange (sc_Files r)). lia. }
    cbn [isEmptyValue]. rewrite Hne. cbn. unfold encodeValue. cbn [encode_with fst]. by rewrite Ex. }
  rewrite Eb, bind_Ok. destruct (scrape_unreadable (x ++ [101])) as [e Ee]. rewrite Ee. by exists e.
Qed.

(** ** Witnesses *)
#[local] Existing Instance Address.demo_keys.

Definition demo_peer : Peer := MkPeer [] (bs "1.2.3.4") 80.
Definition demo_peer6 : Peer := MkPeer [] (bs "2001:db8::1") 6881.
Definition demo_request : AnnounceRequest := MkRequest (replicate 20 38) zeroHash 1 (-2) 3 6881 (bs "a b&c") 2 true (-1) (-7).
Definition demo_response : AnnounceResponse := MkResponse [] 1800 [demo_peer; demo_peer] [demo_peer6] 1 2 (bs "id").
Definition demo_client : Client := MkClient (replicate 20 65) (bs "http://t/announce") (bs "http://t/scrape").

Lemma demo_peer_ok : ip_peer 4 demo_peer.
Proof.
  split; [done|]. split; [cbn; lia|]. exists [1; 2; 3; 4]. split; [vm_compute; reflexivity|]. split; [done|]. split; [|done].
  apply (bool_decide_unpack _). vm_compute. exact Logic.I.
Qed.
Lemma demo_peer6_ok : ip_peer 16 demo_peer6.
Proof.
  split; [done|]. split; [cbn; lia|]. exists ([32; 1; 13; 184] ++ replicate 11 0 ++ [1]). split; [vm_compute; reflexivity|]. split; [done|].
  split; [apply (bool_decide_unpack _); vm_compute; exact Logic.I|vm_compute; reflexivity].
Qed.

Lemma demo_http_response_ok : response_ok demo_response.
Proof.
  constructor; cbn [demo_response s_FailureReason s_Interval s_Peers s_Peers6 s_Complete s_Incomplete s_TrackerID]; [reflexivity|lia| | |lia|lia|reflexivity].
  - split; [reflexivity|]. left. split; [repeat apply Forall_cons_2; try apply Forall_nil_2; apply demo_peer_ok|left; discriminate].
  - split; [reflexivity|]. apply Forall_singleton, demo_peer6_ok.
Qed.

(** An HTTP client that answers every URL with the response. *)
Definition demo_do (url : bytes) : res bytes := EncodeBytes (response_val demo_response).

Lemma http_announce_exchange_witness :
  (Announce (I := bytes) (fun _ => None) demo_do [] demo_client demo_request).1 = Ok demo_response.
Proof.
  destruct (http_announce_exchange (I := bytes) (fun _ => None) demo_do [] demo_client demo_request) as (q & _ & Hq).
  - constructor; try (vm_compute; split; [discriminate|reflexivity]).
    + split; [reflexivity|]. apply (bool_decide_unpack _). vm_compute. exact Logic.I.
    + split; [reflexivity|]. apply (bool_decide_unpack _). vm_compute. exact Logic.I.
    + apply bs_ok.
  - cbv zeta in Hq. destruct (Announce (fun _ => None) demo_do [] demo_client demo_request) as [result r']. destruct Hq as (_ & _ & Hresp).
    destruct (Hresp demo_response demo_http_response_ok) as (body & Eb & Hb). apply (Hb []). rewrite app_nil_r. exact Eb.
Defined.

Lemma sixteen_peers_misread_witness :
  exists qs, (b ← Peers_MarshalBencode (replicate 16 demo_peer); Peers_UnmarshalBencode (I := bytes) b) = Ok qs /\ length qs = 3%nat /\
    Forall (fun q => is_i2p (p_IP q) = true /\ p_Port q = 6881) qs.
Proof.
  apply (sixteen_peers_misread (replicate 16 demo_peer) 0); [|reflexivity|reflexivity].
  apply Forall_replicate, demo_peer_ok.
Defined.

Definition demo_scrape : ScrapeResponse := MkScrape [] {[replicate 20 1 := MkResult 3 4 5]}.
Lemma scrape_never_answers_witness :
  exists e, Scrape (fun _ => None) (fun _ => Scrape_EncodeTo map_to_list demo_scrape) demo_client [replicate 20 1] = Err e.
Proof. apply (scrape_never_answers map_to_list demo_client [replicate 20 1] demo_scrape); [done|vm_compute; discriminate|reflexivity]. Defined.

End HttpFacts.
