(* ===== verification/Tracker.v ===== *)
(** * Trackers

    Models [src/tracker/tracker.go], the client of HTTP and UDP trackers over
    [HttpTracker] and [UdpTracker], and the goroutines of
    [src/tracker/get_peers.go]. Dialling a UDP tracker and what belongs to the
    I2P library are parameters; [normalizeTrackerURLs] is left out: the model
    of [GetPeers] starts from the list it leaves. *)

From S2P Require Import Prelude Strconv Bencode BencodeFacts BencodeTyped Sha1 Hash Net NetFacts Routing Address Krpc GoLib Url UdpTracker HttpTracker.
From S2P Require Import KrpcFacts HttpFacts.
Import Strconv Hash Net Address GoLib Url.

Module Tracker.

(** [base64.NewEncoding] over the I2P alphabet. *)
Definition i2pB64_char (n : Z) : Z :=
  if decide (n < 26) then 65 + n else if decide (n < 52) then 71 + n else if decide (n < 62) then n - 4 else if decide (n = 62) then 45 else 126.
Definition b64_group (g : bytes) : bytes :=
  let v := be_val g * 2 ^ (24 - 8 * len g) in
  map (fun i => if decide (i <= len g) then i2pB64_char (v / 2 ^ (18 - 6 * i) mod 64) else 61) (seqZ 0 4).
Fixpoint b64_encode (fuel : nat) (b : bytes) : bytes :=
  match fuel, b with
  | S f, _ :: _ => b64_group (take 3 b) ++ b64_encode f (drop 3 b)
  | _, _ => []
  end.
Definition EncodeToString (b : bytes) : bytes := b64_encode (length b) b.

Example b64_text : EncodeToString (bs "any carnal pleas") = bs "YW55IGNhcm5hbCBwbGVhcw==".
Proof. vm_compute. reflexivity. Qed.

Section Tracker.
Context {I : Type} `{I2PKeys I}.
Abbreviation addr := (netAddr (I := I)).
(** [I2PAddr.Bytes], and the address the variable [PeerAddress] forces. *)
Context (I2P_Bytes : I -> bytes) (PeerAddress : option addr).

Record AnnounceRequest := MkRequest {
  t_InfoHash : bytes; t_PeerID : bytes; t_Uploaded : Z; t_Downloaded : Z; t_Left : Z; t_Event : Z;
  t_IP : option addr; t_Key : Z; t_NumWant : Z; t_Port : Z
}.

Definition http_ip (a : addr) : bytes :=
  match a with I2PAddrVal v => EncodeToString (I2P_Bytes v) ++ bs ".i2p" | _ => addr_String a end.

Definition ToHTTPAnnounceRequest (ar : AnnounceRequest) : HttpTracker.AnnounceRequest :=
  let ip := match PeerAddress, t_IP ar with
            | Some a, _ | None, Some a => http_ip a
            | None, None => bs "127.0.0.1"
            end in
  HttpTracker.MkRequest (t_InfoHash ar) (t_PeerID ar) (t_Uploaded ar) (t_Downloaded ar) (t_Left ar)
    (if decide (t_Port ar = 0) then 6881 else t_Port ar) ip (t_Event ar) false (t_NumWant ar) (t_Key ar).

Definition ToUDPAnnounceRequest (ar : AnnounceRequest) : UdpTracker.AnnounceRequest (I := I) :=
  UdpTracker.MkRequest (t_InfoHash ar) (t_PeerID ar) (t_Downloaded ar) (t_Left ar) (t_Uploaded ar) (t_Event ar)
    (match PeerAddress with Some a => Some a | None => t_IP ar end) (t_Key ar) (t_NumWant ar) (t_Port ar) [].

Record AnnounceResponse := MkResponse { t_Interval : Z; t_Leechers : Z; t_Seeders : Z; t_Addresses : list (Address (I := I)) }.

Context (NewI2PAddrFromString : bytes -> res I) (LookupIP : bytes -> res (list bytes)).

(** The addresses of the peers whose lookup succeeds. *)
Fixpoint all_addresses (ps : list HttpTracker.Peer) : res (list (Address (I := I))) :=
  match ps with
  | [] => Ok []
  | p :: ps' =>
      addrs ← match HttpTracker.Peer_Addresses NewI2PAddrFromString LookupIP p with Err _ => Ok [] | r => r end;
      rest ← all_addresses ps'; Ok (addrs ++ rest)
  end.

Definition FromHTTPAnnounceResponse (r : HttpTracker.AnnounceResponse) : res AnnounceResponse :=
  addrs ← all_addresses (HttpTracker.s_Peers r ++ HttpTracker.s_Peers6 r);
  Ok (MkResponse (HttpTracker.s_Interval r) (HttpTracker.s_Incomplete r) (HttpTracker.s_Complete r) addrs).

Definition FromUDPAnnounceResponse (r : UdpTracker.AnnounceResponse (I := I)) : AnnounceResponse :=
  MkResponse (UdpTracker.an_Interval r) (UdpTracker.an_Leechers r) (UdpTracker.an_Seeders r) (UdpTracker.an_Addresses r).

Record ScrapeResponseResult := MkResult { t_sSeeders : Z; t_sLeechers : Z; t_sCompleted : Z }.
Definition ScrapeResult_EncodeTo (r : ScrapeResponseResult) : bytes := be_bytes 4 (t_sSeeders r) ++ be_bytes 4 (t_sCompleted r) ++ be_bytes 4 (t_sLeechers r).
Definition ScrapeResult_DecodeFrom (b : bytes) : res ScrapeResponseResult :=
  if decide (len b < 12) then Panic "slice bounds out of range"
  else Ok (MkResult (be_val (take 4 b)) (be_val (take 4 (drop 8 b))) (be_val (take 4 (drop 4 b)))).

Abbreviation ScrapeResponse := (gmap bytes ScrapeResponseResult).
Definition FromHTTPScrapeResponse (r : HttpTracker.ScrapeResponse) (sr : ScrapeResponse) : ScrapeResponse :=
  ((fun v => MkResult (HttpTracker.sc_Complete v) (HttpTracker.sc_Incomplete v) (HttpTracker.sc_Downloaded v)) <$> HttpTracker.sc_Files r) ∪ sr.
Fixpoint FromUDPScrapeResponse (hs : list bytes) (r : list UdpTracker.ScrapeResponse) (sr : ScrapeResponse) : ScrapeResponse :=
  match hs, r with
  | h :: hs', v :: r' => FromUDPScrapeResponse hs' r' (<[h := MkResult (UdpTracker.sc_Seeders v) (UdpTracker.sc_Leechers v) (UdpTracker.sc_Completed v)]> sr)
  | _, _ => sr
  end.

(** ** The client *)
Inductive tclient :=
  | HTTPClient (url : bytes) (c : HttpTracker.Client)
  | UDPClient (url : bytes) (c : UdpTracker.Client) (exts : list UdpTracker.Extension).

Definition String_ (c : tclient) : bytes := match c with HTTPClient url _ | UDPClient url _ _ => url end.

Section New.
Context (parseAuthority : bytes -> res bytes).
(** [udptracker.Dial]: the local address and what the socket will deliver. *)
Context (Dial : bytes -> bytes -> res (addr * list (res bytes))).

Definition createHTTPClient (random connURL ID : bytes) : tclient :=
  let tracker := HttpTracker.NewClient random connURL [] in
  HTTPClient connURL (if IsZero ID then tracker else HttpTracker.MkClient ID (HttpTracker.c_AnnounceURL tracker) (HttpTracker.c_ScrapeURL tracker)).

Definition createUDPClient (random connURL : bytes) (u : URL) (ID : bytes) : res tclient :=
  '(local, input) ← Dial (u_Scheme u) (u_Host u);
  let p := u_RequestURI u in
  Ok (UDPClient connURL (UdpTracker.NewClient local ID random 0 input) (if decide (p = []) then [] else [UdpTracker.NewURLData p])).

Definition NewClient (random connURL ID : bytes) : res tclient :=
  u ← Parse parseAuthority connURL;
  if decide (u_Scheme u ∈ [bs "http"; bs "https"]) then Ok (createHTTPClient random connURL ID)
  else if decide (u_Scheme u ∈ [bs "udp"; bs "udp4"; bs "udp6"]) then createUDPClient random connURL u ID
  else Err "unknown url scheme".
End New.

Section Requests.
Context (NewRequest : bytes -> option string) (Do : bytes -> res bytes).
Context (Write : bytes -> res Z) (now later : Z) (random : bytes).

Definition Announce (req : AnnounceRequest) (c : tclient) : res AnnounceResponse * tclient :=
  match c with
  | HTTPClient url h =>
      (r ← (HttpTracker.Announce (I := I) NewRequest Do random h (ToHTTPAnnounceRequest req)).1;
       if bool_decide (HttpTracker.s_FailureReason r = []) then FromHTTPAnnounceResponse r else Err (text (HttpTracker.s_FailureReason r)), c)
  | UDPClient url u exts =>
      let r := ToUDPAnnounceRequest req in
      let r := UdpTracker.MkRequest (UdpTracker.ar_InfoHash r) (UdpTracker.ar_PeerID r) (UdpTracker.ar_Downloaded r) (UdpTracker.ar_Left r)
                 (UdpTracker.ar_Uploaded r) (UdpTracker.ar_Event r) (UdpTracker.ar_IP r) (UdpTracker.ar_Key r) (UdpTracker.ar_NumWant r) (UdpTracker.ar_Port r) exts in
      let '(rs, u) := UdpTracker.Announce Write now later r u in
      (rs ← rs; Ok (FromUDPAnnounceResponse rs), UDPClient url u exts)
  end.

Definition Scrape (hs : list bytes) (c : tclient) : res ScrapeResponse * tclient :=
  match c with
  | HTTPClient url h =>
      (r ← HttpTracker.Scrape NewRequest Do h hs;
       if bool_decide (HttpTracker.sc_FailureReason r = []) then Ok (FromHTTPScrapeResponse r ∅) else Err (text (HttpTracker.sc_FailureReason r)), c)
  | UDPClient url u exts =>
      let '(r, u) := UdpTracker.Scrape Write now later hs u in
      (r ← r; Ok (FromUDPScrapeResponse hs r ∅), UDPClient url u exts)
  end.
End Requests.
End Tracker.

(** ** GetPeers

    The workers take trackers off the channel; [getPeers] counts the wait group
    down when it returns, and only then does the worker take the lock and
    append the result. [GetPeers] returns the slice as it is when the count
    reaches zero. The result of asking a tracker is the parameter [ask]. *)
Section GetPeers.
Context {R : Type} (ask : bytes -> R).

Definition calculateWorkerCount (trackerCount : nat) : nat := if decide (10 < trackerCount)%nat then 10%nat else trackerCount.

Record GetPeersResult := MkPeersResult { gp_Tracker : bytes; gp_Answer : R }.

(** A worker waits for a tracker, or holds a result it has not appended yet. *)
Inductive worker := Waiting | Holding (r : GetPeersResult).

Record state := MkState {
  st_queue : list bytes;
  st_workers : list worker;
  st_wg : nat;
  st_results : list GetPeersResult;
  st_returned : option (list GetPeersResult)
}.

Definition start (trackers : list bytes) : state :=
  MkState trackers (replicate (calculateWorkerCount (length trackers)) Waiting) (length trackers) [] None.

Inductive step : state -> state -> Prop :=
  | Ask i t q ws wg rs ret : ws !! i = Some Waiting ->
      step (MkState (t :: q) ws (S wg) rs ret) (MkState q (<[i := Holding (MkPeersResult t (ask t))]> ws) wg rs ret)
  | Append i r q ws wg rs ret : ws !! i = Some (Holding r) ->
      step (MkState q ws wg rs ret) (MkState q (<[i := Waiting]> ws) wg (rs ++ [r]) ret)
  | Return q ws rs : step (MkState q ws 0 rs None) (MkState q ws 0 rs (Some rs)).

Definition reachable (trackers : list bytes) : state -> Prop := rtc step (start trackers).
End GetPeers.
End Tracker.

(** * Trackers: what the common client returns, and what [GetPeers] may lose *)

Import Strconv Hash Net NetFacts Address GoLib Url HttpFacts Tracker.

Module TrackerFacts.

(** ** GetPeers *)
Section GetPeers.
Context {R : Type} (ask : bytes -> R).
Abbreviation result := (GetPeersResult (R := R)).
Definition asked (t : bytes) : result := MkPeersResult t (ask t).
Definition held (w : worker (R := R)) : list result := match w with Holding r => [r] | Waiting => [] end.
Definition holding (ws : list worker) : list result := flat_map held ws.

Lemma holding_take i (ws : list (worker (R := R))) w r : ws !! i = Some w -> held w = [] -> holding (<[i := Holding r]> ws) ≡ₚ r :: holding ws.
Proof.
  revert i. induction ws as [|x ws IH]; intros [|i]; cbn; try done; unfold holding in *; cbn [flat_map].
  - intros [= ->] ->. done.
  - intros Hi Hw. rewrite (IH i Hi Hw). by rewrite Permutation_middle.
Qed.
Lemma holding_put i (ws : list (worker (R := R))) r : ws !! i = Some (Holding r) -> holding ws ≡ₚ r :: holding (<[i := Waiting]> ws).
Proof.
  revert i. induction ws as [|x ws IH]; intros [|i]; cbn; try done; unfold holding in *; cbn [flat_map].
  - by intros [= ->].
  - intros Hi. rewrite (IH i Hi). by rewrite Permutation_middle.
Qed.
Lemma holding_length (ws : list (worker (R := R))) : (length (holding ws) <= length ws)%nat.
Proof. induction ws as [|w ws IH]; [done|]. unfold holding in *. cbn [flat_map length]. rewrite length_app. destruct w; cbn; lia. Qed.

(** Every tracker is in the queue, held by a worker or appended; what was
    returned was appended. *)
Record accounted (trackers : list bytes) (s : state (R := R)) : Prop := {
  ac_all : map asked (st_queue s) ++ holding (st_workers s) ++ st_results s ≡ₚ map asked trackers;
  ac_wg : st_wg s = length (st_queue s);
  ac_workers : length (st_workers s) = calculateWorkerCount (length trackers);
  ac_returned : forall rs, st_returned s = Some rs -> st_wg s = 0%nat /\ exists more, rs ++ more ≡ₚ holding (st_workers s) ++ st_results s /\ (length more <= calculateWorkerCount (length trackers))%nat
}.

Lemma step_accounted trackers s s' : step ask s s' -> accounted trackers s -> accounted trackers s'.
Proof.
  intros Hstep [H1 H2 H3 H4]. destruct Hstep as [i t q ws wg rs ret Hi|i r q ws wg rs ret Hi|q ws rs]; cbn in *; constructor; cbn.
  - rewrite (holding_take i ws Waiting _ Hi eq_refl), <- H1. cbn. by rewrite (Permutation_middle (map asked q)).
  - lia.
  - by rewrite length_insert.
  - intros l [Hl _]%H4. done.
  - rewrite <- H1, (holding_put i ws r Hi). f_equiv. cbn. rewrite (Permutation_app_comm rs [r]). cbn. by rewrite Permutation_middle.
  - done.
  - by rewrite length_insert.
  - intros l Hl. destruct (H4 l Hl) as (Hw & more & Hm & Hlen). split; [done|]. exists more. split; [|done]. rewrite Hm, (holding_put i ws r Hi). cbn.
    rewrite (Permutation_app_comm rs [r]). cbn. by rewrite Permutation_middle.
  - done.
  - done.
  - done.
  - intros l [= <-]. split; [done|]. exists (holding ws). split; [apply Permutation_app_comm|]. rewrite <- H3. apply holding_length.
Qed.

Lemma start_accounted trackers : accounted trackers (start trackers).
Proof.
  constructor; cbn; [|done|by rewrite length_replicate|done].
  assert (E : forall n, holding (replicate n (Waiting (R := R))) = []) by (induction n; done). rewrite E. cbn. by rewrite app_nil_r.
Qed.

Lemma reachable_accounted trackers s : reachable ask trackers s -> accounted trackers s.
Proof.
  intros Hr. assert (H0 := start_accounted trackers). unfold reachable in Hr. revert H0. generalize (start (R := R) trackers) as s0, Hr. clear Hr.
  intros s0 Hr. induction Hr as [|x y z Hxy _ IH]; [done|]. intros Hx. apply IH. by eapply step_accounted.
Qed.

(** Each step uses up an answer still to be asked for, a result still to be
    appended, or the return still to be made. *)
Definition work_left (s : state (R := R)) : nat :=
  2 * length (st_queue s) + length (holding (st_workers s)) + match st_returned s with None => 1 | Some _ => 0 end.

Lemma step_work s s' : step ask s s' -> work_left s = S (work_left s').
Proof.
  destruct 1 as [i t q ws wg rs ret Hi|i r q ws wg rs ret Hi|q ws rs]; unfold work_left; cbn [st_queue st_workers st_returned length].
  - rewrite (Permutation_length (holding_take i ws Waiting _ Hi eq_refl)). cbn [length]. destruct ret; lia.
  - rewrite (Permutation_length (holding_put i ws r Hi)). cbn [length]. destruct ret; lia.
  - lia.
Qed.

Lemma steps_work n s s' : nsteps (step ask) n s s' -> work_left s = (n + work_left s')%nat.
Proof. induction 1 as [|n x y z Hxy _ IH]; [done|]. rewrite (step_work x y Hxy), IH. done. Qed.

Lemma waiting_or_holding (ws : list (worker (R := R))) : ws <> [] -> exists i, ws !! i = Some Waiting \/ exists r, ws !! i = Some (Holding r).
Proof. destruct ws as [|[|r] ws]; [done|exists 0%nat; by left|exists 0%nat; right; by exists r]. Qed.

Lemma not_stuck trackers s : accounted trackers s -> st_returned s = None -> exists s', step ask s s'.
Proof.
  intros [H1 H2 H3 _] Hn. destruct s as [q ws wg rs ret]. cbn in *. subst wg ret. destruct q as [|t q].
  - eexists. apply Return.
  - assert (Hws : ws <> []).
    { intros ->. cbn in H3. unfold calculateWorkerCount in H3. assert (length trackers = 0%nat) by (case_decide; lia).
      apply Permutation_length in H1. cbn in H1. rewrite !length_app, !length_map in H1. lia. }
    destruct (waiting_or_holding ws Hws) as (i & [Hi|(r & Hi)]); eexists; [by eapply Ask|by eapply Append].
Qed.

(** ** An execution that loses results *)
Definition wait (k : nat) : list worker := replicate k (Waiting (R := R)).
Definition hold (ts : list bytes) : list worker := map (fun t => Holding (asked t)) ts.

Lemma one_by_one ts q k rs wg : (0 < k)%nat ->
  rtc (step ask) (MkState (ts ++ q) (wait k) (length ts + wg) rs None) (MkState q (wait k) wg (rs ++ map asked ts) None).
Proof.
  intros Hk. revert rs. induction ts as [|t ts IH]; intros rs; cbn [app length map Nat.add]; [rewrite app_nil_r; constructor|].
  assert (Hw : wait k !! 0%nat = Some Waiting) by (unfold wait; by destruct k; [lia|]).
  eapply rtc_l; [by apply (Ask ask 0%nat)|]. eapply rtc_l; [apply (Append ask 0%nat (asked t)); apply list_lookup_insert_eq; unfold wait; rewrite length_replicate; lia|].
  rewrite list_insert_insert_eq, list_insert_id by done. specialize (IH (rs ++ [asked t])). rewrite <- app_assoc in IH. exact IH.
Qed.

Lemma all_hold ts : forall done_ rs,
  rtc (step ask) (MkState ts (hold done_ ++ wait (length ts)) (length ts) rs None) (MkState [] (hold (done_ ++ ts)) 0 rs None).
Proof.
  induction ts as [|t ts IH]; intros done_ rs; cbn [length]; [unfold wait; cbn; rewrite !app_nil_r; constructor|].
  eapply rtc_l; [apply (Ask ask (length done_)); rewrite lookup_app_r; unfold hold; rewrite length_map; [|done]; by rewrite Nat.sub_diag|].
  replace (<[length done_ := Holding _]> (hold done_ ++ wait (S (length ts)))) with (hold (done_ ++ [t]) ++ wait (length ts)).
  - specialize (IH (done_ ++ [t]) rs). by rewrite <- app_assoc in IH.
  - unfold hold. rewrite insert_app_r_alt by (by rewrite length_map). rewrite length_map, Nat.sub_diag, map_app. cbn. by rewrite <- app_assoc.
Qed.
End GetPeers.

(** ** The addresses of peers *)
Lemma IP_String_chars ip : bytes_ok ip -> length ip = 4%nat \/ length ip = 16%nat /\ To4 ip = None -> 112 ∉ IP_String ip.
Proof.
  intros Hb [Hl|[Hl H4]].
  - unfold IP_String, To4, FastSet.To4. rewrite decide_False, decide_True by (unfold len; lia). unfold dotted.
    assert (H : Forall (fun c => c <> 112) (join 46 (map (FormatUint 10) ip))).
    { clear Hl. induction Hb as [|x ip Hx Hip IH]; [constructor|]. assert (Hf : Forall (fun c => c <> 112) (FormatUint 10 x)).
      { eapply Forall_impl; [apply FormatUint_digits; unfold is_byte in Hx; lia|]. intros c Hc%is_digit_spec. lia. }
      cbn [map join]. destruct ip as [|y ip]; [done|]. cbn [map] in *. apply Forall_app. split; [done|]. constructor; [lia|exact IH]. }
    intros Hin. rewrite Forall_forall in H. by apply (H _ Hin).
  - unfold IP_String. rewrite H4, !decide_False by (unfold len, IPv6len; lia). destruct (ipv6_text_shape ip Hl Hb) as (_ & _ & _ & _ & Hc).
    intros Hin. rewrite Forall_forall in Hc. destruct (Hc _ Hin) as [[v Hv]|]; [by vm_compute in Hv|done].
Qed.

Section Addresses.
Context {I : Type} `{I2PKeys I} (NewI2PAddrFromString : bytes -> res I) (LookupIP : bytes -> res (list bytes)).

(** The address of a peer given by its IP: the sixteen bytes [ParseIP] gives. *)
Definition peer_address (p : HttpTracker.Peer) : Address (I := I) :=
  MkAddress (Some (IPAddr (default [] (ParseIP (HttpTracker.p_IP p))) [])) (HttpTracker.p_Port p).

Lemma peer_found n p : (n = 4 \/ n = 16)%nat -> ip_peer n p -> HttpTracker.Peer_Addresses NewI2PAddrFromString LookupIP p = Ok [peer_address p].
Proof.
  intros Hn (_ & _ & ip & Eip & Hl & Hb & H16). unfold HttpTracker.Peer_Addresses, peer_address. rewrite Eip.
  assert (is_i2p (IP_String ip) = false) as ->.
  { apply bool_decide_eq_false. intros E. apply (IP_String_chars ip Hb); [destruct Hn as [-> | ->]; [by left|right; split; [done|by apply H16]]|].
    rewrite <- (take_drop (length (IP_String ip) - 4) (IP_String ip)), E. apply elem_of_app. right. apply (bool_decide_unpack _). vm_compute. exact Logic.I. }
  destruct Hn as [-> | ->]; [by rewrite ParseIP_v4|rewrite ParseIP_v6 by (done || by apply H16); done].
Qed.

Lemma all_found ps : Forall (fun p => ip_peer 4 p \/ ip_peer 16 p) ps -> all_addresses NewI2PAddrFromString LookupIP ps = Ok (map peer_address ps).
Proof.
  induction 1 as [|p ps Hp _ IH]; [done|]. cbn [all_addresses map]. destruct Hp as [Hp|Hp];
    [rewrite (peer_found 4) by (done || lia)|rewrite (peer_found 16) by (done || lia)]; by rewrite bind_Ok, IH.
Qed.
End Addresses.

(** ** Properties *)

(** an announce through the common client. With an HTTP tracker that sends
    a response, the caller gets the interval, the counts and the addresses of all
    peers in the order of the response, IPv4 before IPv6; with one that
    refuses, an error with the reason it gave. *)
Theorem tracker_announce {I} `{I2PKeys I} Bytes PeerAddress NewI2P LookupIP Do Write now later random resp req url c :
  (forall url, Do url = Bencode.EncodeBytes (HttpTracker.response_val resp)) -> response_ok resp -> Forall (ip_peer 4) (HttpTracker.s_Peers resp) ->
  Announce (I := I) Bytes PeerAddress NewI2P LookupIP (fun _ => None) Do Write now later random req (HTTPClient url c) =
  (if bool_decide (HttpTracker.s_FailureReason resp = [])
   then Ok (MkResponse (HttpTracker.s_Interval resp) (HttpTracker.s_Incomplete resp) (HttpTracker.s_Complete resp)
              (map peer_address (HttpTracker.s_Peers resp ++ HttpTracker.s_Peers6 resp)))
   else Err (Strconv.text (HttpTracker.s_FailureReason resp)), HTTPClient url c).
Proof.
  intros HDo Hs Hp. unfold Announce. f_equal. rewrite (announce_answered Do random c _ resp HDo Hs). rewrite bind_Ok.
  case_bool_decide; [|done]. unfold FromHTTPAnnounceResponse. rewrite all_found; [done|]. apply Forall_app. split.
  - eapply Forall_impl; [exact Hp|]. by left.
  - destruct Hs as [_ _ _ [_ H6] _ _ _]. eapply Forall_impl; [exact H6|]. by right.
Qed.

(** [GetPeers] invents nothing and loses little. Under every scheduling of
    its workers, what it returns are answers of the trackers it was given, none
    repeated, and at most one for each worker, ten at most, is missing. *)
Theorem get_peers_accounts {R} (ask : bytes -> R) trackers s rs : reachable ask trackers s -> st_returned s = Some rs ->
  exists missing, rs ++ missing ≡ₚ map (asked ask) trackers /\ (length missing <= Nat.min 10 (length trackers))%nat.
Proof.
  intros Hr Hs. destruct (reachable_accounted ask trackers s Hr) as [H1 H2 _ H4]. destruct (H4 rs Hs) as (Hw & more & Hm & Hl). exists more. split.
  - rewrite Hm, <- H1. rewrite H2 in Hw. apply nil_length_inv in Hw. by rewrite Hw.
  - unfold calculateWorkerCount in Hl. case_decide; lia.
Qed.

(** [GetPeers] returns. No scheduling takes more than two steps for each
    tracker and one to return, and one that has come to a stop has returned. *)
Theorem get_peers_returns {R} (ask : bytes -> R) trackers n s : nsteps (step ask) n (start trackers) s ->
  (n <= 2 * length trackers + 1)%nat /\ ((forall s', ~ step ask s s') -> is_Some (st_returned s)).
Proof.
  intros Hn. pose proof (steps_work ask n _ _ Hn) as Hw. split.
  - assert (E : work_left (start (R := R) trackers) = (2 * length trackers + 1)%nat); [|lia].
    unfold work_left, start. cbn [st_queue st_workers st_returned]. assert (E : forall n, holding (replicate n (Waiting (R := R))) = []) by (intros m; induction m; done).
    rewrite E. cbn. lia.
  - intros Hstop. destruct (st_returned s) as [rs|] eqn:Er; [by eexists|]. exfalso.
    assert (Hr : reachable ask trackers s) by (by apply rtc_nsteps_2 in Hn).
    destruct (not_stuck ask trackers s (reachable_accounted ask trackers s Hr) Er) as [s' Hs']. by apply (Hstop s').
Qed.

(** results get lost. A worker is counted as done before it appends its
    result, so for any list of trackers there is a scheduling in which
    [GetPeers] returns without the answers of the last workers: all of them,
    when there are no more than ten trackers. *)
Theorem get_peers_loses {R} (ask : bytes -> R) trackers :
  let k := Nat.min 10 (length trackers) in
  exists s, reachable ask trackers s /\ st_returned s = Some (map (asked ask) (take (length trackers - k) trackers)).
Proof.
  cbv zeta. set (k := Nat.min 10 (length trackers)). destruct (decide (length trackers = 0%nat)) as [E|E].
  { apply nil_length_inv in E. subst trackers. eexists. split; [eapply rtc_l; [apply (Return ask [] [])|constructor]|done]. }
  assert (Hk : (0 < k <= length trackers)%nat) by lia. set (a := take (length trackers - k) trackers). set (b := drop (length trackers - k) trackers).
  assert (Eab : trackers = a ++ b) by (unfold a, b; by rewrite take_drop). assert (Lb : length b = k) by (unfold b; rewrite length_drop; lia).
  assert (La : length trackers = (length a + k)%nat) by (rewrite Eab, length_app; lia).
  assert (Hstart : start (R := R) trackers = MkState (a ++ b) (wait k) (length a + k) [] None).
  { unfold start, wait, k. rewrite <- Eab. f_equal; [f_equal; unfold calculateWorkerCount; case_decide; lia|exact La]. }
  exists (MkState [] (hold ask b) 0 (map (asked ask) a) (Some (map (asked ask) a))). split; [|done]. unfold reachable. rewrite Hstart.
  etrans; [apply one_by_one; lia|]. rewrite <- Lb. cbn [app]. eapply rtc_r; [apply (all_hold ask b [])|]. apply Return.
Qed.

(** ** Witnesses *)
#[local] Existing Instance Address.demo_keys.
Definition demo_req : AnnounceRequest (I := bytes) := MkRequest (replicate 20 38) zeroHash 1 2 3 0 None 0 50 0.

Lemma tracker_announce_witness :
  Announce (I := bytes) (fun b => b) None (fun _ => Err "no"%string) (fun _ => Err "no"%string) (fun _ => None) demo_do (fun _ => Ok 0) 0 0 [] demo_req
    (HTTPClient (bs "u") demo_client) =
  (Ok (MkResponse 1800 2 1 (map peer_address [demo_peer; demo_peer; demo_peer6])), HTTPClient (bs "u") demo_client).
Proof.
  apply (tracker_announce (fun b => b) None (fun _ => Err "no"%string) (fun _ => Err "no"%string) demo_do (fun _ => Ok 0) 0 0 [] demo_response demo_req (bs "u") demo_client).
  - reflexivity.
  - exact demo_http_response_ok.
  - repeat apply Forall_cons_2; try apply Forall_nil_2; apply demo_peer_ok.
Defined.

Definition demo_ask (t : bytes) : Z := len t.

Lemma get_peers_accounts_witness :
  exists missing, [MkPeersResult (bs "a") 1] ++ missing ≡ₚ map (asked demo_ask) [bs "a"] /\ (length missing <= Nat.min 10 1)%nat.
Proof.
  apply (get_peers_accounts demo_ask [bs "a"] (MkState [] [Waiting] 0 [MkPeersResult (bs "a") 1] (Some [MkPeersResult (bs "a") 1]))); [|reflexivity].
  eapply rtc_l; [apply (Ask demo_ask 0%nat); reflexivity|]. eapply rtc_l; [apply (Append demo_ask 0%nat); reflexivity|]. eapply rtc_l; [apply Return|]. apply rtc_refl.
Defined.

Lemma get_peers_returns_witness : (1 <= 2 * length [bs "a"] + 1)%nat /\
  ((forall s', ~ step demo_ask (MkState [] [Holding (MkPeersResult (bs "a") 1)] 0 [] None) s') -> is_Some (@None (list (GetPeersResult (R := Z))))).
Proof.
  apply (get_peers_returns demo_ask [bs "a"] 1 (MkState [] [Holding (MkPeersResult (bs "a") 1)] 0 [] None)).
  eapply nsteps_l; [apply (Ask demo_ask 0%nat); reflexivity|apply nsteps_O].
Defined.

End TrackerFacts.
