(* ===== verification/WebSeed.v ===== *)
(** * Web seeds

    Models [src/rpc/webseed_manager.go]: the web seeds of each torrent, their
    failures, and fetching a piece from them, and [URLList.FullURL] of
    [src/metainfo/metainfo.go], the other place that builds such a URL.

    The HTTP client and [http.NewRequest] are parameters, as is the authority
    parser of [url.Parse]. The manager hands out copies of its seeds, so they
    are values. The clock is an argument; the zero time is 0. *)

From S2P Require Import Prelude Strconv GoLib Url.
Import Strconv GoLib Url.

Module WebSeed.

Definition WebSeedTypeHTTPFTP : bytes := bs "url-list".
Definition WebSeedTypeGetRight : bytes := bs "url-data".

Record WebSeed := MkSeed {
  ws_URL : bytes; ws_Type : bytes; Active : bool; Failed : bool; FailCount : Z;
  LastError : string; LastTried : Z; Downloaded : Z; Speed : Z
}.

Record WebSeedManager := MkWebSeeds { ws_enabled : bool; webSeeds : gmap bytes (list WebSeed); userAgent : bytes }.

Definition NewWebSeedManager (enabled : bool) : WebSeedManager := MkWebSeeds enabled ∅ (bs "go-i2p-bt/1.0").
Definition SetEnabled (enabled : bool) (ws : WebSeedManager) : WebSeedManager := MkWebSeeds enabled (webSeeds ws) (userAgent ws).
Definition with_seeds (ws : WebSeedManager) (m : gmap bytes (list WebSeed)) : WebSeedManager := MkWebSeeds (ws_enabled ws) m (userAgent ws).

Definition schemes : list bytes := [bs "http"; bs "https"; bs "ftp"].

Definition AddWebSeed (parseAuthority : bytes -> res bytes) (torrentID url seedType : bytes) (ws : WebSeedManager) : res WebSeedManager :=
  if negb (ws_enabled ws) then Ok ws
  else match Parse parseAuthority url with
  | Err e => Err ("invalid webseed URL: " ++ e)
  | Panic e => Panic e
  | NoFuel => NoFuel
  | Ok u =>
      if negb (bool_decide (u_Scheme u ∈ schemes)) then Err "invalid webseed URL scheme: must be http, https, or ftp"
      else if decide (u_Host u = []) then Err "invalid webseed URL: missing host"
      else
        let seeds := default [] (webSeeds ws !! torrentID) in
        if existsb (fun s => bool_decide (ws_URL s = url)) seeds then Ok ws
        else Ok (with_seeds ws (<[torrentID := seeds ++ [MkSeed url seedType true false 0 "" 0 0 0]]> (webSeeds ws)))
  end.

(** Applies [f] to the first seed of that URL. *)
Fixpoint update_seed (url : bytes) (f : WebSeed -> WebSeed) (seeds : list WebSeed) : list WebSeed :=
  match seeds with
  | [] => []
  | s :: seeds' => if decide (ws_URL s = url) then f s :: seeds' else s :: update_seed url f seeds'
  end.

Fixpoint remove_seed (url : bytes) (seeds : list WebSeed) : list WebSeed :=
  match seeds with
  | [] => []
  | s :: seeds' => if decide (ws_URL s = url) then seeds' else s :: remove_seed url seeds'
  end.

Definition RemoveWebSeed (torrentID url : bytes) (ws : WebSeedManager) : WebSeedManager :=
  match webSeeds ws !! torrentID with
  | None => ws
  | Some seeds =>
      let seeds := remove_seed url seeds in
      with_seeds ws (if decide (seeds = []) then delete torrentID (webSeeds ws) else <[torrentID := seeds]> (webSeeds ws))
  end.

Definition GetWebSeeds (torrentID : bytes) (ws : WebSeedManager) : list WebSeed := default [] (webSeeds ws !! torrentID).
Definition is_active (s : WebSeed) : bool := Active s && negb (Failed s).
Definition GetActiveWebSeeds (torrentID : bytes) (ws : WebSeedManager) : list WebSeed := filter (fun s => is_active s) (GetWebSeeds torrentID ws).

(** ** Requests *)
Definition HasSuffix (s : bytes) (c : Z) : bool := bool_decide (last s = Some c).

Definition buildRequestURL (seed : WebSeed) (fileName : bytes) : res bytes :=
  if decide (ws_Type seed = WebSeedTypeHTTPFTP) then
    Ok (if negb (HasSuffix (ws_URL seed) 47) && negb (bool_decide (fileName = [])) then ws_URL seed ++ 47 :: fileName else ws_URL seed)
  else if decide (ws_Type seed = WebSeedTypeGetRight) then Ok (ws_URL seed)
  else Err "unsupported webseed type".

(** [URLList.FullURL] on one URL. *)
Definition FullURL (url name : bytes) : bytes := if HasSuffix url 47 then url ++ name else url.

Definition range_header (pieceIndex pieceLength : Z) : bytes :=
  let startByte := i64 (pieceIndex * pieceLength) in
  let endByte := i64 (startByte + pieceLength - 1) in
  bs "bytes=" ++ FormatInt startByte ++ bs "-" ++ FormatInt endByte.

Record Response := MkResponse { re_StatusCode : Z; re_Status : string; re_Body : bytes; re_ReadErr : option string }.

Section Client.
(** [http.NewRequestWithContext] of a URL, and [Client.Do] of a URL, its
    [User-Agent] and its [Range] header. *)
Context (NewRequest : bytes -> option string) (Do : bytes -> bytes -> bytes -> res Response).

Definition executeRequest (url agent range : bytes) (expectedLength : Z) : res bytes :=
  match Do url agent range with
  | Ok resp =>
      if decide (re_StatusCode resp <> 206 /\ re_StatusCode resp <> 200)
      then Err ("HTTP " ++ format_d (re_StatusCode resp) ++ ": " ++ re_Status resp)
      else match re_ReadErr resp with
           | Some e => Err ("failed to read response: " ++ e)
           | None =>
               if decide (len (re_Body resp) <> expectedLength)
               then Err ("received " ++ format_d (len (re_Body resp)) ++ " bytes, expected " ++ format_d expectedLength)
               else Ok (re_Body resp)
           end
  | Err e => Err ("HTTP request failed: " ++ e)
  | Panic e => Panic e
  | NoFuel => NoFuel
  end.

Definition update_in (torrentID url : bytes) (f : WebSeed -> WebSeed) (ws : WebSeedManager) : WebSeedManager :=
  with_seeds ws (alter (update_seed url f) torrentID (webSeeds ws)).

Definition recordAttemptTime (now : Z) (torrentID url : bytes) : WebSeedManager -> WebSeedManager :=
  update_in torrentID url (fun s => MkSeed (ws_URL s) (ws_Type s) (Active s) (Failed s) (FailCount s) (LastError s) now (Downloaded s) (Speed s)).

Definition fail_seed (now : Z) (err : string) (s : WebSeed) : WebSeed :=
  let n := FailCount s + 1 in
  MkSeed (ws_URL s) (ws_Type s) (if decide (3 <= n) then false else Active s) (if decide (3 <= n) then true else Failed s) n err now (Downloaded s) (Speed s).
Definition markSeedFailed (now : Z) (torrentID url : bytes) (err : string) : WebSeedManager -> WebSeedManager :=
  update_in torrentID url (fail_seed now err).

Definition succeed_seed (now bytes_ : Z) (s : WebSeed) : WebSeed :=
  MkSeed (ws_URL s) (ws_Type s) true false 0 "" now (i64 (Downloaded s + bytes_)) bytes_.
Definition markSeedSuccess (now : Z) (torrentID url : bytes) (n : Z) : WebSeedManager -> WebSeedManager :=
  update_in torrentID url (succeed_seed now n).

Definition downloadFromSeed (now : Z) (torrentID : bytes) (seed : WebSeed) (pieceIndex pieceLength : Z) (fileName : bytes) (ws : WebSeedManager)
    : res bytes * WebSeedManager :=
  match buildRequestURL seed fileName with
  | Ok url =>
      match NewRequest url with
      | Some e => (Err ("failed to create request: " ++ e), ws)
      | None => (executeRequest url (userAgent ws) (range_header pieceIndex pieceLength) pieceLength, recordAttemptTime now torrentID (ws_URL seed) ws)
      end
  | r => (r, ws)
  end.

(** The loop of [DownloadPieceData]. *)
Fixpoint try_seeds (now : Z) (torrentID : bytes) (seeds : list WebSeed) (pieceIndex pieceLength : Z) (fileName : bytes) (ws : WebSeedManager)
    : res bytes * WebSeedManager :=
  match seeds with
  | [] => (Err "all webseeds failed", ws)
  | seed :: seeds' =>
      match downloadFromSeed now torrentID seed pieceIndex pieceLength fileName ws with
      | (Ok data, ws) => (Ok data, markSeedSuccess now torrentID (ws_URL seed) (len data) ws)
      | (Err e, ws) => try_seeds now torrentID seeds' pieceIndex pieceLength fileName (markSeedFailed now torrentID (ws_URL seed) e ws)
      | r => r
      end
  end.

Definition DownloadPieceData (now : Z) (torrentID : bytes) (pieceIndex pieceLength : Z) (fileName : bytes) (ws : WebSeedManager)
    : res bytes * WebSeedManager :=
  if negb (ws_enabled ws) then (Err "webseeds disabled", ws)
  else match GetActiveWebSeeds torrentID ws with
       | [] => (Err "no active webseeds available", ws)
       | seeds => try_seeds now torrentID seeds pieceIndex pieceLength fileName ws
       end.
End Client.

Definition cooldownPeriod : Z := 5 * 60 * 1000000000.
Definition may_retry (now : Z) (s : WebSeed) : bool := Failed s && bool_decide (cooldownPeriod < now - LastTried s).
Definition retry_seed (now : Z) (s : WebSeed) : WebSeed :=
  if may_retry now s then MkSeed (ws_URL s) (ws_Type s) true false 0 "" (LastTried s) (Downloaded s) (Speed s) else s.

Definition RetryFailedSeeds (now : Z) (torrentID : bytes) (ws : WebSeedManager) : Z * WebSeedManager :=
  match webSeeds ws !! torrentID with
  | None => (0, ws)
  | Some seeds => (len (filter (fun s => may_retry now s) seeds), with_seeds ws (<[torrentID := map (retry_seed now) seeds]> (webSeeds ws)))
  end.

Definition CleanupTorrent (torrentID : bytes) (ws : WebSeedManager) : WebSeedManager := with_seeds ws (delete torrentID (webSeeds ws)).

Record Stats := MkStats { st_enabled : bool; st_total : Z; st_active : Z; st_failed : Z; st_downloaded : Z }.
Definition all_seeds (ws : WebSeedManager) : list WebSeed := concat (map_to_list (webSeeds ws)).*2.
Definition GetStats (ws : WebSeedManager) : Stats :=
  MkStats (ws_enabled ws) (len (all_seeds ws)) (len (filter (fun s => is_active s) (all_seeds ws))) (len (filter (fun s => Failed s) (all_seeds ws)))
    (fold_left (fun n s => i64 (n + Downloaded s)) (all_seeds ws) 0).

(** ** The seeds of a torrent

    Each URL once; a seed is failed after three failures in a row, and active
    otherwise. *)
Record seed_ok (s : WebSeed) : Prop := {
  so_active : Active s = negb (Failed s);
  so_count : 0 <= FailCount s;
  so_failed : Failed s = bool_decide (3 <= FailCount s)
}.
Definition seeds_ok (seeds : list WebSeed) : Prop := NoDup (map ws_URL seeds) /\ Forall seed_ok seeds /\ seeds <> [].
Definition manager_ok (ws : WebSeedManager) : Prop := forall id seeds, webSeeds ws !! id = Some seeds -> seeds_ok seeds.

Lemma update_seed_ok url f seeds : (forall s, seed_ok s -> seed_ok (f s) /\ ws_URL (f s) = ws_URL s) ->
  Forall seed_ok seeds -> Forall seed_ok (update_seed url f seeds) /\ map ws_URL (update_seed url f seeds) = map ws_URL seeds.
Proof.
  intros Hf. induction 1 as [|s seeds Hs Hss [IH1 IH2]]; cbn [update_seed map]; [done|]. destruct (Hf s Hs) as [H1 H2].
  case_decide; cbn [map]; [rewrite H2; by split; [constructor|]|rewrite IH2; by split; [constructor|]].
Qed.

Lemma update_in_ok id url f ws : (forall s, seed_ok s -> seed_ok (f s) /\ ws_URL (f s) = ws_URL s) -> manager_ok ws -> manager_ok (update_in id url f ws).
Proof.
  intros Hf Hm id' seeds. unfold update_in. cbn [webSeeds with_seeds]. destruct (decide (id' = id)) as [->|N]; [|rewrite lookup_alter_ne by done; apply Hm].
  rewrite lookup_alter_eq. destruct (webSeeds ws !! id) as [old|] eqn:E; [|done]. cbn. intros [= <-]. destruct (Hm id old E) as (H1 & H2 & H3).
  destruct (update_seed_ok url f old Hf H2) as [U1 U2]. split; [by rewrite U2|]. split; [done|]. intros Hn. apply H3. rewrite Hn in U2. symmetry in U2. by apply map_eq_nil in U2.
Qed.

Lemma fail_seed_ok now e s : seed_ok s -> seed_ok (fail_seed now e s) /\ ws_URL (fail_seed now e s) = ws_URL s.
Proof.
  intros [H1 H2 H3]. split; [|done]. unfold fail_seed. cbv zeta. constructor; cbn [Active Failed FailCount]; [| lia |].
  - destruct (decide (3 <= FailCount s + 1)); [reflexivity|exact H1].
  - destruct (decide (3 <= FailCount s + 1)) as [E|E]; [by rewrite (bool_decide_true (3 <= FailCount s + 1)) by done|].
    rewrite H3, !bool_decide_false by lia. done.
Qed.

Lemma succeed_seed_ok now n s : seed_ok (succeed_seed now n s) /\ ws_URL (succeed_seed now n s) = ws_URL s.
Proof. split; [|done]. by constructor. Qed.

Lemma remove_seed_ok url seeds : NoDup (map ws_URL seeds) /\ Forall seed_ok seeds ->
  NoDup (map ws_URL (remove_seed url seeds)) /\ Forall seed_ok (remove_seed url seeds) /\ (forall u, u ∈ map ws_URL (remove_seed url seeds) -> u ∈ map ws_URL seeds).
Proof.
  induction seeds as [|s seeds IH]; cbn [remove_seed map]; [intros [? ?]; by split|]. intros [[Hs Hn]%NoDup_cons [Hs' Hf]%Forall_cons].
  destruct IH as (I1 & I2 & I3); [done|]. case_decide; [split; [done|]; split; [done|]; intros u Hu; by right|]. cbn [map].
  split; [apply NoDup_cons; split; [naive_solver|done]|]. split; [by constructor|]. intros u [->|Hu]%elem_of_cons; [by left|right; by apply I3].
Qed.

Section History.
Context (parseAuthority : bytes -> res bytes) (NewRequest : bytes -> option string) (Do : bytes -> bytes -> bytes -> res Response).

Lemma try_seeds_ok now id seeds i l name ws : manager_ok ws -> manager_ok (try_seeds NewRequest Do now id seeds i l name ws).2.
Proof.
  revert ws. induction seeds as [|seed seeds IH]; intros ws Hm; cbn [try_seeds]; [done|].
  assert (Hd : manager_ok (downloadFromSeed NewRequest Do now id seed i l name ws).2).
  { unfold downloadFromSeed. destruct (buildRequestURL seed name); [|done..]. destruct (NewRequest _); [done|]. cbn [snd].
    apply update_in_ok; [|done]. intros s [H1 H2 H3]. split; [|done]. by constructor. }
  destruct (downloadFromSeed NewRequest Do now id seed i l name ws) as [[data|e|e|] ws1]; cbn [snd] in *; [|apply IH|done|done].
  - apply update_in_ok; [|done]. intros s _. apply succeed_seed_ok.
  - apply update_in_ok; [|done]. intros s Hs. by apply fail_seed_ok.
Qed.

Inductive event :=
  | EEnable (b : bool) | EAdd (id url t : bytes) | ERemove (id url : bytes)
  | EDownload (now : Z) (id : bytes) (i l : Z) (name : bytes) | ERetry (now : Z) (id : bytes) | ECleanup (id : bytes).

Definition step (ws : WebSeedManager) (e : event) : WebSeedManager :=
  match e with
  | EEnable b => SetEnabled b ws
  | EAdd id url t => match AddWebSeed parseAuthority id url t ws with Ok ws' => ws' | _ => ws end
  | ERemove id url => RemoveWebSeed id url ws
  | EDownload now id i l name => (DownloadPieceData NewRequest Do now id i l name ws).2
  | ERetry now id => (RetryFailedSeeds now id ws).2
  | ECleanup id => CleanupTorrent id ws
  end.

Lemma insert_ok id seeds ws : manager_ok ws -> seeds_ok seeds -> manager_ok (with_seeds ws (<[id := seeds]> (webSeeds ws))).
Proof.
  intros Hm Hs id' seeds'. cbn. destruct (decide (id' = id)) as [->|N]; [rewrite lookup_insert_eq; by intros [= <-]|rewrite lookup_insert_ne by done; apply Hm].
Qed.
Lemma delete_ok id ws : manager_ok ws -> manager_ok (with_seeds ws (delete id (webSeeds ws))).
Proof. intros Hm id' seeds'. cbn. intros [_ Hl]%lookup_delete_Some. by apply (Hm id'). Qed.

Lemma seeds_step_ok ws e : manager_ok ws -> manager_ok (step ws e).
Proof.
  intros Hm. destruct e as [b|id url t|id url|now id i l name|now id|id]; cbn [step]; [done| | | | |by apply delete_ok].
  - destruct (AddWebSeed _ _ _ _ _) as [ws'|?|?|] eqn:E; [|done..]. unfold AddWebSeed in E. case_match; [by simplify_eq|]. case_match; try done.
    case_match; [done|]. case_match; [done|]. destruct (existsb _ _) eqn:Ex; [by simplify_eq|]. injection E as <-. apply insert_ok; [done|].
    assert (Hold : NoDup (map ws_URL (default [] (webSeeds ws !! id))) /\ Forall seed_ok (default [] (webSeeds ws !! id))).
    { destruct (webSeeds ws !! id) as [old|] eqn:El; [|split; constructor]. destruct (Hm id old El) as (? & ? & _). done. }
    destruct Hold as [Hd Hf]. split; [|split].
    + rewrite map_app. apply NoDup_app. split; [done|]. split; [|apply NoDup_singleton]. intros x Hx Hy. apply list_elem_of_singleton in Hy. cbn in Hy. subst x.
      apply not_true_iff_false in Ex. apply Ex. apply existsb_exists. apply list_elem_of_fmap in Hx as (s & Es & Hs). exists s. split; [by apply list_elem_of_In|].
      by apply bool_decide_eq_true.
    + apply Forall_app. split; [done|]. apply Forall_singleton. by constructor.
    + intros Hn. by apply app_eq_nil in Hn as [_ ?].
  - unfold RemoveWebSeed. destruct (webSeeds ws !! id) as [old|] eqn:El; [|done]. cbv zeta. case_decide as Ee; [by apply delete_ok|]. apply insert_ok; [done|].
    destruct (Hm id old El) as (Hd & Hf & _). destruct (remove_seed_ok url old) as (R1 & R2 & _); done.
  - unfold DownloadPieceData. case_match; [done|]. destruct (GetActiveWebSeeds id ws); [done|]. by apply try_seeds_ok.
  - unfold RetryFailedSeeds. destruct (webSeeds ws !! id) as [old|] eqn:El; [|done]. cbn [snd]. apply insert_ok; [done|]. destruct (Hm id old El) as (H1 & H2 & H3).
    assert (Hr : forall s, seed_ok s -> seed_ok (retry_seed now s) /\ ws_URL (retry_seed now s) = ws_URL s)
      by (intros s Hs; unfold retry_seed; destruct (may_retry now s); [split; [by constructor|done]|done]).
    split; [|split].
    + rewrite map_map. rewrite (map_ext_in _ ws_URL); [done|]. intros s Hs. rewrite Forall_forall in H2. by apply Hr, H2, list_elem_of_In.
    + apply Forall_map. eapply Forall_impl; [exact H2|]. intros s Hs. by apply Hr.
    + intros Hn. by apply map_eq_nil in Hn.
Qed.

Lemma webseeds_manager_ok enabled events : manager_ok (fold_left step events (NewWebSeedManager enabled)).
Proof.
  assert (H0 : manager_ok (NewWebSeedManager enabled)) by (intros ? ?; cbn; by rewrite lookup_empty).
  revert H0. generalize (NewWebSeedManager enabled). induction events as [|e events IH]; intros ws Hm; [done|]. cbn. by apply IH, seeds_step_ok.
Qed.

(** whatever the calls made to a web seed manager - seeds added and
    removed, pieces fetched with any answers of the servers, retries, torrents
    cleaned up - every torrent it knows has at least one seed, no URL twice,
    and every seed has failed exactly when it has three failures in a row, and
    is active exactly when it has not failed. *)
Theorem webseeds_wellformed enabled events id seeds : webSeeds (fold_left step events (NewWebSeedManager enabled)) !! id = Some seeds -> 
  seeds <> [] /\ NoDup (map ws_URL seeds) /\
  Forall (fun s => 0 <= FailCount s /\ (Failed s = true <-> 3 <= FailCount s) /\ (Active s = true <-> FailCount s < 3)) seeds.
Proof.
  intros H. destruct (webseeds_manager_ok enabled events id seeds H) as (H1 & H2 & H3). split; [done|]. split; [done|].
  eapply Forall_impl; [exact H2|]. intros s [S1 S2 S3]. cbn beta. rewrite S1, S3. split; [done|]. split; [apply bool_decide_eq_true|].
  rewrite negb_true_iff, bool_decide_eq_false. lia.
Qed.

(** What one seed gives, whatever the state of the manager. *)
Definition attempt (agent : bytes) (seed : WebSeed) (i l : Z) (name : bytes) : res bytes :=
  match buildRequestURL seed name with
  | Ok url => match NewRequest url with
              | Some e => Err ("failed to create request: " ++ e)
              | None => executeRequest Do url agent (range_header i l) l
              end
  | r => r
  end.

(** What happens to the seeds of a torrent when those of [failed] fail and the
    one of URL [good] answers [n] bytes. *)
Record outcome (now : Z) (failed : list bytes) (good : bytes) (n : Z) (F : WebSeed -> WebSeed) : Prop := {
  oc_url : forall s, ws_URL (F s) = ws_URL s;
  oc_failed : forall s, ws_URL s ∈ failed -> FailCount (F s) = FailCount s + 1 /\ Downloaded (F s) = Downloaded s /\ LastTried (F s) = now;
  oc_good : forall s, ws_URL s = good -> F s = MkSeed (ws_URL s) (ws_Type s) true false 0 "" now (i64 (Downloaded s + n)) n;
  oc_rest : forall s, ws_URL s ∉ failed -> ws_URL s <> good -> F s = s
}.

Definition at_url (url : bytes) (f : WebSeed -> WebSeed) (s : WebSeed) : WebSeed := if decide (ws_URL s = url) then f s else s.
Lemma update_seed_map url f seeds : NoDup (map ws_URL seeds) -> update_seed url f seeds = map (at_url url f) seeds.
Proof.
  induction seeds as [|s seeds IH]; [done|]. intros [Hs Hn]%NoDup_cons. cbn [update_seed map]. unfold at_url at 1. case_decide as E; [|by rewrite IH].
  f_equal. rewrite <- (map_id seeds) at 1. apply map_ext_in. intros s' Hs'. unfold at_url. case_decide as E'; [|done].
  exfalso. apply Hs. rewrite E, <- E'. apply list_elem_of_fmap. exists s'. split; [done|by apply list_elem_of_In].
Qed.

Lemma update_in_map id url f ws L : webSeeds ws !! id = Some L -> NoDup (map ws_URL L) ->
  webSeeds (update_in id url f ws) = <[id := map (at_url url f) L]> (webSeeds ws).
Proof.
  intros HL Hn. cbn. rewrite <- (update_seed_map url f L Hn). apply map_eq. intros k. destruct (decide (k = id)) as [->|N].
  - by rewrite lookup_alter_eq, lookup_insert_eq, HL.
  - by rewrite lookup_alter_ne, lookup_insert_ne by done.
Qed.

Lemma at_url_urls url f seeds : (forall s, ws_URL (f s) = ws_URL s) -> map ws_URL (map (at_url url f) seeds) = map ws_URL seeds.
Proof. intros Hf. rewrite map_map. apply map_ext. intros s. unfold at_url. by case_decide. Qed.

Lemma at_url_comp url f g s : (forall s, ws_URL (f s) = ws_URL s) -> at_url url g (at_url url f s) = at_url url (fun s => g (f s)) s.
Proof. intros Hf. unfold at_url. destruct (decide (ws_URL s = url)) as [E|E]; [by rewrite decide_True by (by rewrite Hf)|by rewrite decide_False]. Qed.

Lemma download_one now id seed i l name ws L : webSeeds ws !! id = Some L -> NoDup (map ws_URL L) ->
  exists ws1 g, downloadFromSeed NewRequest Do now id seed i l name ws = (attempt (userAgent ws) seed i l name, ws1) /\
    (forall s, ws_URL (g s) = ws_URL s /\ ws_Type (g s) = ws_Type s /\ FailCount (g s) = FailCount s /\ Downloaded (g s) = Downloaded s) /\
    webSeeds ws1 = <[id := map (at_url (ws_URL seed) g) L]> (webSeeds ws) /\ userAgent ws1 = userAgent ws.
Proof.
  intros HL Hn. unfold downloadFromSeed, attempt.
  assert (Hsame : webSeeds ws = <[id := map (at_url (ws_URL seed) (fun s => s)) L]> (webSeeds ws)).
  { rewrite (map_ext _ Datatypes.id); [by rewrite map_id, insert_id|]. intros s. unfold at_url. by case_decide. }
  destruct (buildRequestURL seed name) as [url|e|e|]; [destruct (NewRequest url)|..]; try (by exists ws, (fun s => s)).
  exists (recordAttemptTime now id (ws_URL seed) ws). eexists. split; [done|]. split; [|split; [by apply update_in_map|done]]. done.
Qed.

(** One attempt and the mark that follows it. *)
Lemma attempt_and_mark now id seed i l name ws L mark : webSeeds ws !! id = Some L -> NoDup (map ws_URL L) -> (forall s, ws_URL (mark s) = ws_URL s) ->
  exists ws1 g, downloadFromSeed NewRequest Do now id seed i l name ws = (attempt (userAgent ws) seed i l name, ws1) /\
    (forall s, ws_URL (g s) = ws_URL s /\ ws_Type (g s) = ws_Type s /\ FailCount (g s) = FailCount s /\ Downloaded (g s) = Downloaded s) /\
    webSeeds (update_in id (ws_URL seed) mark ws1) = <[id := map (at_url (ws_URL seed) (fun s => mark (g s))) L]> (webSeeds ws) /\
    userAgent (update_in id (ws_URL seed) mark ws1) = userAgent ws.
Proof.
  intros HL Hn Hm. destruct (download_one now id seed i l name ws L HL Hn) as (ws1 & g & H1 & H2 & H3 & H4). exists ws1, g. split; [done|]. split; [done|].
  assert (Hg : forall s, ws_URL (g s) = ws_URL s) by (intros s; apply H2).
  split; [|done]. rewrite (update_in_map id (ws_URL seed) mark ws1 (map (at_url (ws_URL seed) g) L));
    [|rewrite H3; apply lookup_insert_eq|by rewrite at_url_urls].
  rewrite H3, insert_insert_eq, map_map. f_equal. apply map_ext. intros s. by apply at_url_comp.
Qed.

Lemma try_seeds_order now id i l name pre seed post data ws L : webSeeds ws !! id = Some L -> NoDup (map ws_URL L) ->
  NoDup (map ws_URL (pre ++ [seed])) -> Forall (fun s => exists e, attempt (userAgent ws) s i l name = Err e) pre ->
  attempt (userAgent ws) seed i l name = Ok data ->
  exists F ws', try_seeds NewRequest Do now id (pre ++ seed :: post) i l name ws = (Ok data, ws') /\
    webSeeds ws' = <[id := map F L]> (webSeeds ws) /\ outcome now (map ws_URL pre) (ws_URL seed) (len data) F.
Proof.
  revert ws L. induction pre as [|p pre IH]; intros ws L HL Hn Hd Hp Hs; cbn [app try_seeds].
  - destruct (attempt_and_mark now id seed i l name ws L (succeed_seed now (len data)) HL Hn ltac:(done)) as (ws1 & g & H1 & H2 & H3 & _).
    rewrite H1, Hs. eexists _, _. split; [done|]. split; [exact H3|]. constructor; unfold at_url; cbn [map].
    + intros s. case_decide; [cbn; apply H2|done].
    + intros s []%not_elem_of_nil.
    + intros s Eu. rewrite decide_True by done. unfold succeed_seed. destruct (H2 s) as (E1 & E2 & _ & E3). by rewrite E1, E2, E3.
    + intros s _ N. by rewrite decide_False.
  - apply Forall_cons in Hp as [[e He] Hp]. cbn [app map] in Hd. apply NoDup_cons in Hd as [Hpn Hd].
    destruct (attempt_and_mark now id p i l name ws L (fail_seed now e) HL Hn ltac:(done)) as (ws1 & g & H1 & H2 & H3 & H4).
    rewrite H1, He. set (ws2 := markSeedFailed now id (ws_URL p) e ws1) in *. set (G := at_url (ws_URL p) (fun s => fail_seed now e (g s))) in *.
    assert (HG : forall s, ws_URL (fail_seed now e (g s)) = ws_URL s) by (intros s; apply H2).
    destruct (IH ws2 (map G L)) as (F & ws' & E & Hw & [O1 O2 O3 O4]).
    { unfold ws2, markSeedFailed. rewrite H3. apply lookup_insert_eq. }
    { unfold G. by rewrite at_url_urls. }
    { done. }
    { unfold ws2, markSeedFailed. by rewrite H4. }
    { unfold ws2, markSeedFailed. by rewrite H4. }
    assert (Ht : G = at_url (ws_URL p) (fun s => fail_seed now e (g s))) by done.
    rewrite E. exists (fun s => F (G s)), ws'. split; [done|]. split; [rewrite Hw; unfold ws2, markSeedFailed; by rewrite H3, insert_insert_eq, map_map|].
    rewrite map_app in Hpn. cbn [map] in Hpn. apply not_elem_of_app in Hpn as [Hp1 Hp2%not_elem_of_cons]. destruct Hp2 as [Hp2 _].
    assert (HGu : forall s, ws_URL (G s) = ws_URL s) by (intros s; unfold G, at_url; by case_decide).
    constructor; cbn [map].
    + intros s. by rewrite O1.
    + intros s [Eu|Hin]%elem_of_cons.
      * rewrite O4 by (rewrite HGu, Eu; done). unfold G, at_url. rewrite decide_True by done. cbn. destruct (H2 s) as (_ & _ & -> & ->). done.
      * assert (HGs : G s = s) by (unfold G, at_url; rewrite decide_False; [done|intros Eu; by rewrite Eu in Hin]). rewrite HGs. by apply O2.
    + intros s Es. assert (HGs : G s = s) by (unfold G, at_url; rewrite decide_False; [done|congruence]). rewrite HGs. by apply O3.
    + intros s [N1 N2]%not_elem_of_cons N3. assert (HGs : G s = s) by (unfold G, at_url; by rewrite decide_False). rewrite HGs. by apply O4.
Qed.

Lemma filter_urls (f : WebSeed -> bool) L : NoDup (map ws_URL L) -> NoDup (map ws_URL (filter (fun s => f s) L)).
Proof.
  induction L as [|s L IH]; [done|]. cbn [map]. intros [Hs Hn]%NoDup_cons. rewrite filter_cons. case_decide; [|by apply IH].
  cbn [map]. apply NoDup_cons. split; [|by apply IH]. intros (s' & Es & [_ Hs']%list_elem_of_filter)%list_elem_of_fmap. apply Hs, list_elem_of_fmap. by exists s'.
Qed.

(** a piece is fetched from the first active web seed of the torrent that
    answers: when the seeds before it fail and it gives [data], the download
    returns [data], of the length of the piece; each seed that failed has one
    more failure, the one that answered starts anew with the bytes added to
    its count, and no other seed and no other torrent changes. *)
Theorem download_from_first_seed now id i l name pre seed post data ws : manager_ok ws -> ws_enabled ws = true ->
  GetActiveWebSeeds id ws = pre ++ seed :: post ->
  Forall (fun s => exists e, attempt (userAgent ws) s i l name = Err e) pre -> attempt (userAgent ws) seed i l name = Ok data ->
  exists F ws', DownloadPieceData NewRequest Do now id i l name ws = (Ok data, ws') /\ len data = l /\
    outcome now (map ws_URL pre) (ws_URL seed) (len data) F /\
    GetWebSeeds id ws' = map F (GetWebSeeds id ws) /\ (forall id', id' <> id -> GetWebSeeds id' ws' = GetWebSeeds id' ws).
Proof.
  intros Hm He Ha Hp Hs. destruct (webSeeds ws !! id) as [L|] eqn:HL; [|by unfold GetActiveWebSeeds, GetWebSeeds in Ha; rewrite HL in Ha; destruct pre].
  destruct (Hm id L HL) as (Hn & _ & _).
  assert (Hd : NoDup (map ws_URL (pre ++ [seed]))).
  { assert (H := filter_urls is_active L Hn). unfold GetActiveWebSeeds, GetWebSeeds in Ha. rewrite HL in Ha. cbn in Ha. rewrite Ha in H.
    rewrite cons_middle, app_assoc, map_app in H. by apply NoDup_app in H as [H _]. }
  destruct (try_seeds_order now id i l name pre seed post data ws L HL Hn Hd Hp Hs) as (F & ws' & E & Hw & Ho).
  exists F, ws'. split.
  { unfold DownloadPieceData. rewrite He, Ha. cbn [negb]. destruct pre; exact E. }
  split.
  { unfold attempt, executeRequest in Hs. repeat (case_match; try done). simplify_eq. lia. }
  split; [done|]. unfold GetWebSeeds. rewrite Hw, HL, lookup_insert_eq. split; [done|]. intros id' N. by rewrite lookup_insert_ne.
Qed.
End History.

(** ** The URL of a file

    BEP 19 and [FullURL] append the name to a URL that ends in a slash;
    [buildRequestURL] appends it to one that does not. *)

(** for a torrent with a name, the web seed manager never asks for the URL
    that the metainfo gives for the seed: where [URLList.FullURL] appends the
    name, to URLs with a final slash, the manager leaves it out, and where
    [FullURL] leaves the URL as it is, the manager appends a slash and the
    name. *)
Theorem webseed_url_inverted seed name url : name <> [] -> ws_Type seed = WebSeedTypeHTTPFTP -> buildRequestURL seed name = Ok url ->
  url <> FullURL (ws_URL seed) name.
Proof.
  intros Hn Ht. unfold buildRequestURL, FullURL. rewrite decide_True by done. rewrite (bool_decide_false (name = [])) by done.
  destruct (HasSuffix (ws_URL seed) 47); cbn [negb andb]; intros [= <-] E; apply (f_equal length) in E; rewrite ?length_app in E; cbn [length] in E; [|lia].
  destruct name; [done|cbn in E; lia].
Qed.

(** ** An example: two seeds, the first of which is down *)
Definition example_Do (url agent range : bytes) : res Response :=
  if decide (url = bs "http://b/f") then Ok (MkResponse 206 "206 Partial Content" (bs "data") None) else Err "connection refused".
Definition example_host (s : bytes) : res bytes := Ok s.
Definition example_seeds : WebSeedManager :=
  fold_left (step example_host (fun _ => None) example_Do) [EAdd (bs "t") (bs "http://a") WebSeedTypeHTTPFTP; EAdd (bs "t") (bs "http://b") WebSeedTypeHTTPFTP] (NewWebSeedManager true).

Lemma download_from_first_seed_witness :
  exists F ws', DownloadPieceData (fun _ => None) example_Do 7 (bs "t") 2 4 (bs "f") example_seeds = (Ok (bs "data"), ws') /\ len (bs "data") = 4 /\
    outcome 7 [bs "http://a"] (bs "http://b") (len (bs "data")) F /\
    GetWebSeeds (bs "t") ws' = map F (GetWebSeeds (bs "t") example_seeds) /\ (forall id', id' <> bs "t" -> GetWebSeeds id' ws' = GetWebSeeds id' example_seeds).
Proof.
  apply (download_from_first_seed (fun _ => None) example_Do 7 (bs "t") 2 4 (bs "f") [MkSeed (bs "http://a") WebSeedTypeHTTPFTP true false 0 "" 0 0 0]
    (MkSeed (bs "http://b") WebSeedTypeHTTPFTP true false 0 "" 0 0 0) [] (bs "data") example_seeds).
  - apply webseeds_manager_ok.
  - vm_compute. reflexivity.
  - vm_compute. reflexivity.
  - constructor; [|constructor]. eexists. vm_compute. reflexivity.
  - vm_compute. reflexivity.
Defined.

Lemma webseeds_wellformed_witness :
  let seeds := [MkSeed (bs "http://a") WebSeedTypeHTTPFTP true false 0 "" 0 0 0; MkSeed (bs "http://b") WebSeedTypeHTTPFTP true false 0 "" 0 0 0] in
  seeds <> [] /\ NoDup (map ws_URL seeds) /\
  Forall (fun s => 0 <= FailCount s /\ (Failed s = true <-> 3 <= FailCount s) /\ (Active s = true <-> FailCount s < 3)) seeds.
Proof.
  apply (webseeds_wellformed example_host (fun _ => None) example_Do true
    [EAdd (bs "t") (bs "http://a") WebSeedTypeHTTPFTP; EAdd (bs "t") (bs "http://b") WebSeedTypeHTTPFTP] (bs "t")). vm_compute. reflexivity.
Defined.

Lemma webseed_url_inverted_witness : bs "http://a" ++ 47 :: bs "f" <> FullURL (bs "http://a") (bs "f").
Proof. apply (webseed_url_inverted (MkSeed (bs "http://a") WebSeedTypeHTTPFTP true false 0 "" 0 0 0) (bs "f")); [done|reflexivity|vm_compute; reflexivity]. Defined.

End WebSeed.
