(* ===== verification/RpcTypes.v ===== *)
(** * The data of the daemon

    Models the part of [src/rpc/types.go] that the daemon computes with: the
    state of a torrent, its files and peers, the session configuration and the
    request that adds a torrent.

    A [time.Time] is a number of nanoseconds, [None] for the zero time where the
    code asks for it. A [float64] is a binary64 number as in [Bandwidth]. *)

From S2P Require Import Prelude Metainfo TorrentFile Bandwidth.
Import TorrentFile Bandwidth.

(** The order of [for key, value := range m] over a map with string keys. *)
Class SetRange := {
  set_range : forall {A : Type}, gmap bytes A -> list (bytes * A);
  set_range_perm : forall {A} (m : gmap bytes A), set_range m ≡ₚ map_to_list m
}.

Module RpcTypes.

(** ** Status codes *)
Definition TorrentStatusStopped : Z := 0.
Definition TorrentStatusQueuedVerify : Z := 1.
Definition TorrentStatusVerifying : Z := 2.
Definition TorrentStatusQueuedDown : Z := 3.
Definition TorrentStatusDownloading : Z := 4.
Definition TorrentStatusQueuedSeed : Z := 5.
Definition TorrentStatusSeeding : Z := 6.

(** ** Torrents *)
Record FileInfo := MkFileInfo { fi_Name : bytes; fi_Length : Z; fi_BytesCompleted : Z; fi_Priority : Z; fi_Wanted : bool }.
Record PeerInfo := MkPeerInfo { pi_ID : bytes; pi_Address : bytes; pi_Port : Z; pi_Uploaded : Z; pi_Downloaded : Z; pi_Direction : bytes }.

Record TorrentState := MkTorrent {
  t_ID : Z; t_InfoHash : bytes; t_MetaInfo : option MetaInfo; t_Status : Z; t_Error : option string;
  t_DownloadDir : bytes; t_AddedDate : Z; t_StartDate : option Z; t_Labels : list bytes; t_Downloaded : Z;
  t_Uploaded : Z; t_Left : Z; t_PercentDone : float; t_PieceCount : Z; t_PiecesComplete : Z;
  t_PiecesAvailable : Z; t_DownloadRate : Z; t_UploadRate : Z; t_ETA : Z; t_PeerCount : Z;
  t_PeerConnectedCount : Z; t_PeerSendingCount : Z; t_PeerReceivingCount : Z; t_lastStatsUpdate : option Z;
  t_lastDownloaded : Z; t_lastUploaded : Z; t_wasComplete : bool; t_Files : list FileInfo;
  t_Priorities : list Z; t_Wanted : list bool; t_TrackerList : list bytes; t_Peers : list PeerInfo;
  t_SeedRatioLimit : float; t_SeedIdleLimit : Z; t_HonorsSessionLimits : bool
}.

(** Assignments to fields. *)
Definition set_Status (v : Z) (t : TorrentState) : TorrentState :=
  MkTorrent
    (t_ID t) (t_InfoHash t) (t_MetaInfo t) v (t_Error t) (t_DownloadDir t) (t_AddedDate t) (t_StartDate t) (t_Labels t)
    (t_Downloaded t) (t_Uploaded t) (t_Left t) (t_PercentDone t) (t_PieceCount t) (t_PiecesComplete t) (t_PiecesAvailable t)
    (t_DownloadRate t) (t_UploadRate t) (t_ETA t) (t_PeerCount t) (t_PeerConnectedCount t) (t_PeerSendingCount t)
    (t_PeerReceivingCount t) (t_lastStatsUpdate t) (t_lastDownloaded t) (t_lastUploaded t) (t_wasComplete t) (t_Files t)
    (t_Priorities t) (t_Wanted t) (t_TrackerList t) (t_Peers t) (t_SeedRatioLimit t) (t_SeedIdleLimit t)
    (t_HonorsSessionLimits t).
Definition set_MetaInfo (v : option MetaInfo) (t : TorrentState) : TorrentState :=
  MkTorrent
    (t_ID t) (t_InfoHash t) v (t_Status t) (t_Error t) (t_DownloadDir t) (t_AddedDate t) (t_StartDate t) (t_Labels t)
    (t_Downloaded t) (t_Uploaded t) (t_Left t) (t_PercentDone t) (t_PieceCount t) (t_PiecesComplete t) (t_PiecesAvailable t)
    (t_DownloadRate t) (t_UploadRate t) (t_ETA t) (t_PeerCount t) (t_PeerConnectedCount t) (t_PeerSendingCount t)
    (t_PeerReceivingCount t) (t_lastStatsUpdate t) (t_lastDownloaded t) (t_lastUploaded t) (t_wasComplete t) (t_Files t)
    (t_Priorities t) (t_Wanted t) (t_TrackerList t) (t_Peers t) (t_SeedRatioLimit t) (t_SeedIdleLimit t)
    (t_HonorsSessionLimits t).
Definition set_DownloadDir (v : bytes) (t : TorrentState) : TorrentState :=
  MkTorrent
    (t_ID t) (t_InfoHash t) (t_MetaInfo t) (t_Status t) (t_Error t) v (t_AddedDate t) (t_StartDate t) (t_Labels t)
    (t_Downloaded t) (t_Uploaded t) (t_Left t) (t_PercentDone t) (t_PieceCount t) (t_PiecesComplete t) (t_PiecesAvailable t)
    (t_DownloadRate t) (t_UploadRate t) (t_ETA t) (t_PeerCount t) (t_PeerConnectedCount t) (t_PeerSendingCount t)
    (t_PeerReceivingCount t) (t_lastStatsUpdate t) (t_lastDownloaded t) (t_lastUploaded t) (t_wasComplete t) (t_Files t)
    (t_Priorities t) (t_Wanted t) (t_TrackerList t) (t_Peers t) (t_SeedRatioLimit t) (t_SeedIdleLimit t)
    (t_HonorsSessionLimits t).
Definition set_StartDate (v : option Z) (t : TorrentState) : TorrentState :=
  MkTorrent
    (t_ID t) (t_InfoHash t) (t_MetaInfo t) (t_Status t) (t_Error t) (t_DownloadDir t) (t_AddedDate t) v (t_Labels t)
    (t_Downloaded t) (t_Uploaded t) (t_Left t) (t_PercentDone t) (t_PieceCount t) (t_PiecesComplete t) (t_PiecesAvailable t)
    (t_DownloadRate t) (t_UploadRate t) (t_ETA t) (t_PeerCount t) (t_PeerConnectedCount t) (t_PeerSendingCount t)
    (t_PeerReceivingCount t) (t_lastStatsUpdate t) (t_lastDownloaded t) (t_lastUploaded t) (t_wasComplete t) (t_Files t)
    (t_Priorities t) (t_Wanted t) (t_TrackerList t) (t_Peers t) (t_SeedRatioLimit t) (t_SeedIdleLimit t)
    (t_HonorsSessionLimits t).
Definition set_Labels (v : list bytes) (t : TorrentState) : TorrentState :=
  MkTorrent
    (t_ID t) (t_InfoHash t) (t_MetaInfo t) (t_Status t) (t_Error t) (t_DownloadDir t) (t_AddedDate t) (t_StartDate t) v
    (t_Downloaded t) (t_Uploaded t) (t_Left t) (t_PercentDone t) (t_PieceCount t) (t_PiecesComplete t) (t_PiecesAvailable t)
    (t_DownloadRate t) (t_UploadRate t) (t_ETA t) (t_PeerCount t) (t_PeerConnectedCount t) (t_PeerSendingCount t)
    (t_PeerReceivingCount t) (t_lastStatsUpdate t) (t_lastDownloaded t) (t_lastUploaded t) (t_wasComplete t) (t_Files t)
    (t_Priorities t) (t_Wanted t) (t_TrackerList t) (t_Peers t) (t_SeedRatioLimit t) (t_SeedIdleLimit t)
    (t_HonorsSessionLimits t).
Definition set_Transfer (v0 : Z) (v1 : Z) (t : TorrentState) : TorrentState :=
  MkTorrent
    (t_ID t) (t_InfoHash t) (t_MetaInfo t) (t_Status t) (t_Error t) (t_DownloadDir t) (t_AddedDate t) (t_StartDate t)
    (t_Labels t) v0 (t_Uploaded t) v1 (t_PercentDone t) (t_PieceCount t) (t_PiecesComplete t) (t_PiecesAvailable t)
    (t_DownloadRate t) (t_UploadRate t) (t_ETA t) (t_PeerCount t) (t_PeerConnectedCount t) (t_PeerSendingCount t)
    (t_PeerReceivingCount t) (t_lastStatsUpdate t) (t_lastDownloaded t) (t_lastUploaded t) (t_wasComplete t) (t_Files t)
    (t_Priorities t) (t_Wanted t) (t_TrackerList t) (t_Peers t) (t_SeedRatioLimit t) (t_SeedIdleLimit t)
    (t_HonorsSessionLimits t).
Definition set_Rates (v0 : Z) (v1 : Z) (t : TorrentState) : TorrentState :=
  MkTorrent
    (t_ID t) (t_InfoHash t) (t_MetaInfo t) (t_Status t) (t_Error t) (t_DownloadDir t) (t_AddedDate t) (t_StartDate t)
    (t_Labels t) (t_Downloaded t) (t_Uploaded t) (t_Left t) (t_PercentDone t) (t_PieceCount t) (t_PiecesComplete t)
    (t_PiecesAvailable t) v0 v1 (t_ETA t) (t_PeerCount t) (t_PeerConnectedCount t) (t_PeerSendingCount t)
    (t_PeerReceivingCount t) (t_lastStatsUpdate t) (t_lastDownloaded t) (t_lastUploaded t) (t_wasComplete t) (t_Files t)
    (t_Priorities t) (t_Wanted t) (t_TrackerList t) (t_Peers t) (t_SeedRatioLimit t) (t_SeedIdleLimit t)
    (t_HonorsSessionLimits t).
Definition set_Tracking (v0 : option Z) (v1 : Z) (v2 : Z) (t : TorrentState) : TorrentState :=
  MkTorrent
    (t_ID t) (t_InfoHash t) (t_MetaInfo t) (t_Status t) (t_Error t) (t_DownloadDir t) (t_AddedDate t) (t_StartDate t)
    (t_Labels t) (t_Downloaded t) (t_Uploaded t) (t_Left t) (t_PercentDone t) (t_PieceCount t) (t_PiecesComplete t)
    (t_PiecesAvailable t) (t_DownloadRate t) (t_UploadRate t) (t_ETA t) (t_PeerCount t) (t_PeerConnectedCount t)
    (t_PeerSendingCount t) (t_PeerReceivingCount t) v0 v1 v2 (t_wasComplete t) (t_Files t) (t_Priorities t) (t_Wanted t)
    (t_TrackerList t) (t_Peers t) (t_SeedRatioLimit t) (t_SeedIdleLimit t) (t_HonorsSessionLimits t).
Definition set_Completion (v0 : float) (v1 : Z) (t : TorrentState) : TorrentState :=
  MkTorrent
    (t_ID t) (t_InfoHash t) (t_MetaInfo t) (t_Status t) (t_Error t) (t_DownloadDir t) (t_AddedDate t) (t_StartDate t)
    (t_Labels t) (t_Downloaded t) (t_Uploaded t) v1 v0 (t_PieceCount t) (t_PiecesComplete t) (t_PiecesAvailable t)
    (t_DownloadRate t) (t_UploadRate t) (t_ETA t) (t_PeerCount t) (t_PeerConnectedCount t) (t_PeerSendingCount t)
    (t_PeerReceivingCount t) (t_lastStatsUpdate t) (t_lastDownloaded t) (t_lastUploaded t) (t_wasComplete t) (t_Files t)
    (t_Priorities t) (t_Wanted t) (t_TrackerList t) (t_Peers t) (t_SeedRatioLimit t) (t_SeedIdleLimit t)
    (t_HonorsSessionLimits t).
Definition set_PieceStats (v0 : Z) (v1 : Z) (v2 : Z) (t : TorrentState) : TorrentState :=
  MkTorrent
    (t_ID t) (t_InfoHash t) (t_MetaInfo t) (t_Status t) (t_Error t) (t_DownloadDir t) (t_AddedDate t) (t_StartDate t)
    (t_Labels t) (t_Downloaded t) (t_Uploaded t) (t_Left t) (t_PercentDone t) v0 v1 v2 (t_DownloadRate t) (t_UploadRate t)
    (t_ETA t) (t_PeerCount t) (t_PeerConnectedCount t) (t_PeerSendingCount t) (t_PeerReceivingCount t) (t_lastStatsUpdate t)
    (t_lastDownloaded t) (t_lastUploaded t) (t_wasComplete t) (t_Files t) (t_Priorities t) (t_Wanted t) (t_TrackerList t)
    (t_Peers t) (t_SeedRatioLimit t) (t_SeedIdleLimit t) (t_HonorsSessionLimits t).
Definition set_wasComplete (v : bool) (t : TorrentState) : TorrentState :=
  MkTorrent
    (t_ID t) (t_InfoHash t) (t_MetaInfo t) (t_Status t) (t_Error t) (t_DownloadDir t) (t_AddedDate t) (t_StartDate t)
    (t_Labels t) (t_Downloaded t) (t_Uploaded t) (t_Left t) (t_PercentDone t) (t_PieceCount t) (t_PiecesComplete t)
    (t_PiecesAvailable t) (t_DownloadRate t) (t_UploadRate t) (t_ETA t) (t_PeerCount t) (t_PeerConnectedCount t)
    (t_PeerSendingCount t) (t_PeerReceivingCount t) (t_lastStatsUpdate t) (t_lastDownloaded t) (t_lastUploaded t) v (t_Files t)
    (t_Priorities t) (t_Wanted t) (t_TrackerList t) (t_Peers t) (t_SeedRatioLimit t) (t_SeedIdleLimit t)
    (t_HonorsSessionLimits t).
Definition set_PeerStats (v0 : Z) (v1 : Z) (v2 : Z) (v3 : Z) (v4 : Z) (t : TorrentState) : TorrentState :=
  MkTorrent
    (t_ID t) (t_InfoHash t) (t_MetaInfo t) (t_Status t) (t_Error t) (t_DownloadDir t) (t_AddedDate t) (t_StartDate t)
    (t_Labels t) (t_Downloaded t) (t_Uploaded t) (t_Left t) (t_PercentDone t) (t_PieceCount t) (t_PiecesComplete t)
    (t_PiecesAvailable t) (t_DownloadRate t) (t_UploadRate t) v0 v1 v2 v3 v4 (t_lastStatsUpdate t) (t_lastDownloaded t)
    (t_lastUploaded t) (t_wasComplete t) (t_Files t) (t_Priorities t) (t_Wanted t) (t_TrackerList t) (t_Peers t)
    (t_SeedRatioLimit t) (t_SeedIdleLimit t) (t_HonorsSessionLimits t).
Definition set_PeerCount (v : Z) (t : TorrentState) : TorrentState :=
  MkTorrent
    (t_ID t) (t_InfoHash t) (t_MetaInfo t) (t_Status t) (t_Error t) (t_DownloadDir t) (t_AddedDate t) (t_StartDate t)
    (t_Labels t) (t_Downloaded t) (t_Uploaded t) (t_Left t) (t_PercentDone t) (t_PieceCount t) (t_PiecesComplete t)
    (t_PiecesAvailable t) (t_DownloadRate t) (t_UploadRate t) (t_ETA t) v (t_PeerConnectedCount t) (t_PeerSendingCount t)
    (t_PeerReceivingCount t) (t_lastStatsUpdate t) (t_lastDownloaded t) (t_lastUploaded t) (t_wasComplete t) (t_Files t)
    (t_Priorities t) (t_Wanted t) (t_TrackerList t) (t_Peers t) (t_SeedRatioLimit t) (t_SeedIdleLimit t)
    (t_HonorsSessionLimits t).
Definition set_FileArrays (v0 : list FileInfo) (v1 : list Z) (v2 : list bool) (t : TorrentState) : TorrentState :=
  MkTorrent
    (t_ID t) (t_InfoHash t) (t_MetaInfo t) (t_Status t) (t_Error t) (t_DownloadDir t) (t_AddedDate t) (t_StartDate t)
    (t_Labels t) (t_Downloaded t) (t_Uploaded t) (t_Left t) (t_PercentDone t) (t_PieceCount t) (t_PiecesComplete t)
    (t_PiecesAvailable t) (t_DownloadRate t) (t_UploadRate t) (t_ETA t) (t_PeerCount t) (t_PeerConnectedCount t)
    (t_PeerSendingCount t) (t_PeerReceivingCount t) (t_lastStatsUpdate t) (t_lastDownloaded t) (t_lastUploaded t)
    (t_wasComplete t) v0 v1 v2 (t_TrackerList t) (t_Peers t) (t_SeedRatioLimit t) (t_SeedIdleLimit t) (t_HonorsSessionLimits t).
Definition set_TrackerList (v : list bytes) (t : TorrentState) : TorrentState :=
  MkTorrent
    (t_ID t) (t_InfoHash t) (t_MetaInfo t) (t_Status t) (t_Error t) (t_DownloadDir t) (t_AddedDate t) (t_StartDate t)
    (t_Labels t) (t_Downloaded t) (t_Uploaded t) (t_Left t) (t_PercentDone t) (t_PieceCount t) (t_PiecesComplete t)
    (t_PiecesAvailable t) (t_DownloadRate t) (t_UploadRate t) (t_ETA t) (t_PeerCount t) (t_PeerConnectedCount t)
    (t_PeerSendingCount t) (t_PeerReceivingCount t) (t_lastStatsUpdate t) (t_lastDownloaded t) (t_lastUploaded t)
    (t_wasComplete t) (t_Files t) (t_Priorities t) (t_Wanted t) v (t_Peers t) (t_SeedRatioLimit t) (t_SeedIdleLimit t)
    (t_HonorsSessionLimits t).
Definition set_Peers (v : list PeerInfo) (t : TorrentState) : TorrentState :=
  MkTorrent
    (t_ID t) (t_InfoHash t) (t_MetaInfo t) (t_Status t) (t_Error t) (t_DownloadDir t) (t_AddedDate t) (t_StartDate t)
    (t_Labels t) (t_Downloaded t) (t_Uploaded t) (t_Left t) (t_PercentDone t) (t_PieceCount t) (t_PiecesComplete t)
    (t_PiecesAvailable t) (t_DownloadRate t) (t_UploadRate t) (t_ETA t) (t_PeerCount t) (t_PeerConnectedCount t)
    (t_PeerSendingCount t) (t_PeerReceivingCount t) (t_lastStatsUpdate t) (t_lastDownloaded t) (t_lastUploaded t)
    (t_wasComplete t) (t_Files t) (t_Priorities t) (t_Wanted t) (t_TrackerList t) v (t_SeedRatioLimit t) (t_SeedIdleLimit t)
    (t_HonorsSessionLimits t).
Definition set_Seeding (v0 : float) (v1 : Z) (v2 : bool) (t : TorrentState) : TorrentState :=
  MkTorrent
    (t_ID t) (t_InfoHash t) (t_MetaInfo t) (t_Status t) (t_Error t) (t_DownloadDir t) (t_AddedDate t) (t_StartDate t)
    (t_Labels t) (t_Downloaded t) (t_Uploaded t) (t_Left t) (t_PercentDone t) (t_PieceCount t) (t_PiecesComplete t)
    (t_PiecesAvailable t) (t_DownloadRate t) (t_UploadRate t) (t_ETA t) (t_PeerCount t) (t_PeerConnectedCount t)
    (t_PeerSendingCount t) (t_PeerReceivingCount t) (t_lastStatsUpdate t) (t_lastDownloaded t) (t_lastUploaded t)
    (t_wasComplete t) (t_Files t) (t_Priorities t) (t_Wanted t) (t_TrackerList t) (t_Peers t) v0 v1 v2.

Record TorrentAddRequest := MkAddRequest {
  ar_Cookies : bytes; ar_DownloadDir : bytes; ar_Filename : bytes; ar_Labels : list bytes; ar_Metainfo : bytes; ar_Paused : bool;
  ar_PeerLimit : Z; ar_BandwidthPriority : Z; ar_FilesWanted : list Z; ar_FilesUnwanted : list Z;
  ar_PriorityHigh : list Z; ar_PriorityLow : list Z; ar_PriorityNormal : list Z
}.

(** ** The session *)
Record SessionConfiguration := MkSession {
  s_DownloadDir : bytes; s_IncompleteDir : bytes; s_IncompleteDirEnabled : bool; s_PeerPort : Z;
  s_PeerLimitGlobal : Z; s_PeerLimitPerTorrent : Z; s_DHTEnabled : bool; s_PEXEnabled : bool;
  s_LPDEnabled : bool; s_UTPEnabled : bool; s_WebSeedsEnabled : bool; s_Encryption : bytes;
  s_SpeedLimitDown : Z; s_SpeedLimitDownEnabled : bool; s_SpeedLimitUp : Z; s_SpeedLimitUpEnabled : bool;
  s_AltSpeedDown : Z; s_AltSpeedUp : Z; s_AltSpeedEnabled : bool; s_DownloadQueueEnabled : bool;
  s_DownloadQueueSize : Z; s_SeedQueueEnabled : bool; s_SeedQueueSize : Z; s_SeedRatioLimit : float;
  s_SeedRatioLimited : bool; s_IdleSeedingLimit : Z; s_IdleSeedingLimitEnabled : bool;
  s_StartAddedTorrents : bool; s_CacheSizeMB : Z; s_Version : bytes; s_BlocklistEnabled : bool;
  s_BlocklistURL : bytes; s_BlocklistSize : Z; s_ScriptTorrentDoneEnabled : bool;
  s_ScriptTorrentDoneFilename : bytes
}.

Definition set_Speed (v0 : Z) (v1 : bool) (v2 : Z) (v3 : bool) (t : SessionConfiguration) : SessionConfiguration :=
  MkSession
    (s_DownloadDir t) (s_IncompleteDir t) (s_IncompleteDirEnabled t) (s_PeerPort t) (s_PeerLimitGlobal t)
    (s_PeerLimitPerTorrent t) (s_DHTEnabled t) (s_PEXEnabled t) (s_LPDEnabled t) (s_UTPEnabled t) (s_WebSeedsEnabled t)
    (s_Encryption t) v0 v1 v2 v3 (s_AltSpeedDown t) (s_AltSpeedUp t) (s_AltSpeedEnabled t) (s_DownloadQueueEnabled t)
    (s_DownloadQueueSize t) (s_SeedQueueEnabled t) (s_SeedQueueSize t) (s_SeedRatioLimit t) (s_SeedRatioLimited t)
    (s_IdleSeedingLimit t) (s_IdleSeedingLimitEnabled t) (s_StartAddedTorrents t) (s_CacheSizeMB t) (s_Version t)
    (s_BlocklistEnabled t) (s_BlocklistURL t) (s_BlocklistSize t) (s_ScriptTorrentDoneEnabled t) (s_ScriptTorrentDoneFilename t).
Definition set_Blocklist (v0 : bool) (v1 : bytes) (t : SessionConfiguration) : SessionConfiguration :=
  MkSession
    (s_DownloadDir t) (s_IncompleteDir t) (s_IncompleteDirEnabled t) (s_PeerPort t) (s_PeerLimitGlobal t)
    (s_PeerLimitPerTorrent t) (s_DHTEnabled t) (s_PEXEnabled t) (s_LPDEnabled t) (s_UTPEnabled t) (s_WebSeedsEnabled t)
    (s_Encryption t) (s_SpeedLimitDown t) (s_SpeedLimitDownEnabled t) (s_SpeedLimitUp t) (s_SpeedLimitUpEnabled t)
    (s_AltSpeedDown t) (s_AltSpeedUp t) (s_AltSpeedEnabled t) (s_DownloadQueueEnabled t) (s_DownloadQueueSize t)
    (s_SeedQueueEnabled t) (s_SeedQueueSize t) (s_SeedRatioLimit t) (s_SeedRatioLimited t) (s_IdleSeedingLimit t)
    (s_IdleSeedingLimitEnabled t) (s_StartAddedTorrents t) (s_CacheSizeMB t) (s_Version t) v0 v1 (s_BlocklistSize t)
    (s_ScriptTorrentDoneEnabled t) (s_ScriptTorrentDoneFilename t).
Definition set_BlocklistSize (v : Z) (t : SessionConfiguration) : SessionConfiguration :=
  MkSession
    (s_DownloadDir t) (s_IncompleteDir t) (s_IncompleteDirEnabled t) (s_PeerPort t) (s_PeerLimitGlobal t)
    (s_PeerLimitPerTorrent t) (s_DHTEnabled t) (s_PEXEnabled t) (s_LPDEnabled t) (s_UTPEnabled t) (s_WebSeedsEnabled t)
    (s_Encryption t) (s_SpeedLimitDown t) (s_SpeedLimitDownEnabled t) (s_SpeedLimitUp t) (s_SpeedLimitUpEnabled t)
    (s_AltSpeedDown t) (s_AltSpeedUp t) (s_AltSpeedEnabled t) (s_DownloadQueueEnabled t) (s_DownloadQueueSize t)
    (s_SeedQueueEnabled t) (s_SeedQueueSize t) (s_SeedRatioLimit t) (s_SeedRatioLimited t) (s_IdleSeedingLimit t)
    (s_IdleSeedingLimitEnabled t) (s_StartAddedTorrents t) (s_CacheSizeMB t) (s_Version t) (s_BlocklistEnabled t)
    (s_BlocklistURL t) v (s_ScriptTorrentDoneEnabled t) (s_ScriptTorrentDoneFilename t).

(** What the bandwidth manager takes from it. *)
Definition speed_limits (c : SessionConfiguration) : SpeedLimits :=
  MkSpeed (s_SpeedLimitDown c) (s_SpeedLimitDownEnabled c) (s_SpeedLimitUp c) (s_SpeedLimitUpEnabled c).

End RpcTypes.

(** * The exchange sort the daemon writes out twice

    [sortHooksByPriority] of [src/rpc/hooks.go] and [sortIndicesDescending] of
    [src/rpc/methods.go] are the same nested loops over a slice; [outer] is the
    bound of the outer one. *)

Module ExchangeSort.

Section Sort.
Context {A : Type} (key : A -> Z).

Definition compare_exchange (i : nat) (l : list A) (j : nat) : list A :=
  match l !! i, l !! j with
  | Some a, Some b => if decide (key a < key b) then <[j := a]> (<[i := b]> l) else l
  | _, _ => l
  end.
Definition inner_loop (l : list A) (i : nat) : list A := fold_left (compare_exchange i) (seq (S i) (length l - S i)) l.
Definition exchange_sort (outer : nat) (l : list A) : list A := fold_left inner_loop (seq 0 outer) l.

Definition higher (a b : A) : Prop := key b <= key a.

(** One run of the inner loop moves a maximum to the front. *)
Fixpoint pass (x : A) (l : list A) : A * list A :=
  match l with
  | [] => (x, [])
  | y :: l' => if decide (key x < key y) then let '(m, r) := pass y l' in (m, x :: r) else let '(m, r) := pass x l' in (m, y :: r)
  end.

Lemma pass_length l : forall x, length (pass x l).2 = length l.
Proof. induction l as [|y l IH]; intros x; cbn; [done|]. case_decide; [specialize (IH y)|specialize (IH x)]; destruct (pass _ _); cbn in *; lia. Qed.

Lemma pass_perm l : forall x, x :: l ≡ₚ (pass x l).1 :: (pass x l).2.
Proof.
  induction l as [|y l IH]; intros x; cbn; [done|]. case_decide; [specialize (IH y)|specialize (IH x)]; destruct (pass _ _); cbn in *.
  - by rewrite IH, Permutation_swap.
  - by rewrite Permutation_swap, IH, Permutation_swap.
Qed.

Lemma pass_max l : forall x, higher (pass x l).1 x /\ Forall (higher (pass x l).1) (pass x l).2.
Proof.
  unfold higher. induction l as [|y l IH]; intros x; cbn; [split; [lia|done]|].
  case_decide; [destruct (IH y) as [H1 H2]|destruct (IH x) as [H1 H2]]; destruct (pass _ _); cbn in *; (split; [lia|]); constructor; try done; lia.
Qed.

Lemma inner_pass l : forall x pre, fold_left (compare_exchange 0) (seq (S (length pre)) (length l)) (x :: pre ++ l) =
  (pass x l).1 :: pre ++ (pass x l).2.
Proof.
  induction l as [|y l IH]; intros x pre; cbn [length seq fold_left pass]; [done|].
  assert (E : compare_exchange 0 (x :: pre ++ y :: l) (S (length pre)) =
    if decide (key x < key y) then y :: (pre ++ [x]) ++ l else x :: (pre ++ [y]) ++ l).
  { unfold compare_exchange. change ((x :: pre ++ y :: l) !! 0%nat) with (Some x).
    change ((x :: pre ++ y :: l) !! S (length pre)) with ((pre ++ y :: l) !! length pre). rewrite list_lookup_middle by done.
    case_decide; [|by rewrite <- app_assoc].
    change (<[S (length pre) := x]> (<[0%nat := y]> (x :: pre ++ y :: l))) with (y :: <[length pre := x]> (pre ++ y :: l)).
    rewrite insert_app_r_alt, Nat.sub_diag by lia. by rewrite <- app_assoc. }
  rewrite E. replace (S (S (length pre))) with (S (length (pre ++ [x]))) by (rewrite length_app; cbn; lia).
  case_decide.
  - rewrite IH. destruct (pass y l). cbn. by rewrite <- app_assoc.
  - replace (S (length (pre ++ [x]))) with (S (length (pre ++ [y]))) by (rewrite !length_app; done).
    rewrite IH. destruct (pass x l). cbn. by rewrite <- app_assoc.
Qed.

Lemma compare_shift y i l j : compare_exchange (S i) (y :: l) (S j) = y :: compare_exchange i l j.
Proof. unfold compare_exchange. cbn. destruct (l !! i), (l !! j); try done. by case_decide. Qed.

Lemma fold_shift y i js : forall l, fold_left (compare_exchange (S i)) (map S js) (y :: l) = y :: fold_left (compare_exchange i) js l.
Proof. induction js as [|j js IH]; intros l; cbn; [done|]. by rewrite compare_shift, IH. Qed.

Lemma inner_shift y l i : inner_loop (y :: l) (S i) = y :: inner_loop l i.
Proof. unfold inner_loop. cbn [length Nat.sub]. by rewrite <- (seq_shift _ (S i)), fold_shift. Qed.

Lemma outer_shift y is_ : forall l, fold_left inner_loop (map S is_) (y :: l) = y :: fold_left inner_loop is_ l.
Proof. induction is_ as [|i is_ IH]; intros l; cbn [map fold_left]; [done|]. by rewrite inner_shift, IH. Qed.

(** The sort puts a maximum first and sorts the rest. *)
Lemma exchange_cons n x l : exchange_sort (S n) (x :: l) = (pass x l).1 :: exchange_sort n (pass x l).2.
Proof.
  unfold exchange_sort. cbn [seq fold_left].
  assert (E : inner_loop (x :: l) 0 = (pass x l).1 :: (pass x l).2).
  { unfold inner_loop. cbn [length Nat.sub]. rewrite Nat.sub_0_r. apply (inner_pass l x []). }
  by rewrite E, <- seq_shift, outer_shift.
Qed.

Lemma exchange_nil n : exchange_sort n [] = [].
Proof. unfold exchange_sort. induction (seq 0 n) as [|i is_ IH]; [done|]. exact IH. Qed.

Lemma exchange_spec n : forall l, (length l <= S n)%nat -> exchange_sort n l ≡ₚ l /\ StronglySorted higher (exchange_sort n l).
Proof.
  induction n as [|n IH]; intros l Hl.
  - split; [done|]. destruct l as [|x [|y l]]; cbn in *; [constructor|repeat constructor|lia].
  - destruct l as [|x l]; [rewrite exchange_nil; split; [done|constructor]|]. rewrite exchange_cons. cbn in Hl.
    destruct (IH (pass x l).2) as [Hp Hs]; [rewrite pass_length; lia|]. split; [by rewrite Hp, <- pass_perm|]. constructor; [done|]. rewrite Hp. apply pass_max.
Qed.
End Sort.
End ExchangeSort.
