(* ===== verification/Hooks.v ===== *)
(** * Lifecycle hooks of the daemon

    Models [src/rpc/hooks.go]: registering hooks for events, the order in which
    they run and the metrics.

    A callback is the user's: what the model knows of one run of it is how long
    it takes and whether it returns an error, returns nothing or panics. A
    callback that ends at its deadline counts as having ended. The data of an
    event are of any type [D]; a registered hook is not changed by its owner
    afterwards; what is logged is left out. Goroutines run to their end. *)

From S2P Require Import Prelude Metainfo TorrentFile Bandwidth RpcTypes.
From S2P Require Import MetainfoFacts.
Import RpcTypes.

Module Hooks.

Section Hooks.
Context {D : Type}.

(** ** Hooks and their manager *)
Record HookContext := MkContext { hc_Event : bytes; hc_Torrent : TorrentState; hc_Data : D; hc_Timestamp : Z }.

Inductive verdict := Returns (err : option string) | Panics.
Record execution := MkExecution { ex_time : Z; ex_verdict : verdict }.

Record Hook := MkHook {
  h_ID : bytes;
  h_Callback : option (HookContext -> execution);
  h_Events : list bytes;
  h_Priority : Z;
  h_Timeout : Z;
  h_ContinueOnError : bool
}.

Record HookMetrics := MkMetrics { m_TotalExecutions : Z; m_TotalErrors : Z; m_TotalTimeouts : Z; m_AverageLatency : Z }.

Record HookManager := MkHookManager {
  hm_hooks : gmap bytes (list Hook);
  hm_globalHooks : list Hook;
  hm_defaultTimeout : Z;
  hm_metrics : HookMetrics
}.

Definition NewHookManager : HookManager := MkHookManager ∅ [] (10 * Bandwidth.Second) (MkMetrics 0 0 0 0).

Definition with_events (v : gmap bytes (list Hook)) (hm : HookManager) : HookManager :=
  MkHookManager v (hm_globalHooks hm) (hm_defaultTimeout hm) (hm_metrics hm).
Definition with_globals (v : list Hook) (hm : HookManager) : HookManager := MkHookManager (hm_hooks hm) v (hm_defaultTimeout hm) (hm_metrics hm).
Definition with_metrics (v : HookMetrics) (hm : HookManager) : HookManager := MkHookManager (hm_hooks hm) (hm_globalHooks hm) (hm_defaultTimeout hm) v.

Definition SetDefaultTimeout (timeout : Z) (hm : HookManager) : HookManager :=
  MkHookManager (hm_hooks hm) (hm_globalHooks hm) timeout (hm_metrics hm).

Definition sortHooksByPriority (hooks : list Hook) : list Hook := ExchangeSort.exchange_sort h_Priority (length hooks - 1) hooks.

(** ** Registering *)
Definition validateHookInput (hook : option Hook) : res Hook :=
  match hook with
  | None => Err "hook cannot be nil"
  | Some h =>
      if decide (h_ID h = []) then Err "hook ID cannot be empty"
      else match h_Callback h with None => Err "hook callback cannot be nil" | Some _ => Ok h end
  end.

Definition configureHookDefaults (h : Hook) (defaultTimeout : Z) : Hook :=
  if decide (h_Timeout h = 0) then MkHook (h_ID h) (h_Callback h) (h_Events h) (h_Priority h) defaultTimeout (h_ContinueOnError h) else h.

Definition checkDuplicateHook (hooks : list Hook) (hookID : bytes) : res () :=
  if decide (hookID ∈ map h_ID hooks) then Err "hook already registered for event" else Ok ().

Definition registerGlobalHook (h : Hook) (hm : HookManager) : HookManager :=
  with_globals (sortHooksByPriority (hm_globalHooks hm ++ [h])) hm.

Definition event_hooks (event : bytes) (hm : HookManager) : list Hook := default [] (hm_hooks hm !! event).

Definition registerHookForSingleEvent (h : Hook) (event : bytes) (hm : HookManager) : res () * HookManager :=
  let hooks := event_hooks event hm in
  let hm := with_events (<[event := hooks]> (hm_hooks hm)) hm in
  match checkDuplicateHook hooks (h_ID h) with
  | Ok _ => (Ok (), with_events (<[event := sortHooksByPriority (hooks ++ [h])]> (hm_hooks hm)) hm)
  | r => (r, hm)
  end.

Fixpoint registerEventSpecificHooks (h : Hook) (events : list bytes) (hm : HookManager) : res () * HookManager :=
  match events with
  | [] => (Ok (), hm)
  | event :: events' =>
      match registerHookForSingleEvent h event hm with
      | (Ok _, hm) => registerEventSpecificHooks h events' hm
      | (r, hm) => (r, hm)
      end
  end.

Definition registerHookForEvents (h : Hook) (hm : HookManager) : res () * HookManager :=
  match h_Events h with
  | [] => (Ok (), registerGlobalHook h hm)
  | events => registerEventSpecificHooks h events hm
  end.

Definition RegisterHook (hook : option Hook) (hm : HookManager) : res () * HookManager :=
  match validateHookInput hook with
  | Ok h => registerHookForEvents (configureHookDefaults h (hm_defaultTimeout hm)) hm
  | Err e => (Err e, hm)
  | Panic p => (Panic p, hm)
  | NoFuel => (NoFuel, hm)
  end.

(** [append(hooks[:i], hooks[i+1:]...)] at the first hook with the ID. *)
Fixpoint remove_first (hookID : bytes) (hooks : list Hook) : list Hook :=
  match hooks with
  | [] => []
  | h :: hooks' => if decide (h_ID h = hookID) then hooks' else h :: remove_first hookID hooks'
  end.
Definition has_hook (hookID : bytes) (hooks : list Hook) : bool := bool_decide (hookID ∈ map h_ID hooks).

(** The events are independent of each other, so that the order of the range
    over the map does not matter. *)
Definition UnregisterHook (hookID : bytes) (hm : HookManager) : res () * HookManager :=
  if decide (hookID = []) then (Err "hook ID cannot be empty", hm)
  else
    let removed := has_hook hookID (hm_globalHooks hm) || existsb (fun p => has_hook hookID p.2) (map_to_list (hm_hooks hm)) in
    let hm := with_globals (remove_first hookID (hm_globalHooks hm)) hm in
    let hm := with_events (remove_first hookID <$> hm_hooks hm) hm in
    (if removed then Ok () else Err "hook not found", hm).

(** ** Executing *)
Definition incrementErrorMetric (hm : HookManager) : HookManager :=
  let m := hm_metrics hm in
  with_metrics (MkMetrics (m_TotalExecutions m) (i64 (m_TotalErrors m + 1)) (m_TotalTimeouts m) (m_AverageLatency m)) hm.
Definition incrementTimeoutMetric (hm : HookManager) : HookManager :=
  let m := hm_metrics hm in
  with_metrics (MkMetrics (m_TotalExecutions m) (m_TotalErrors m) (i64 (m_TotalTimeouts m + 1)) (m_AverageLatency m)) hm.

Definition runHookWithRecovery (e : execution) (hm : HookManager) : option string * HookManager :=
  match ex_verdict e with
  | Returns err => (err, hm)
  | Panics => (Some "hook panicked"%string, incrementErrorMetric hm)
  end.

(** [done]: what the goroutine sent before the deadline, if it did. *)
Definition handleHookResult (done_ : option (option string)) (hm : HookManager) : HookManager :=
  match done_ with
  | Some (Some _) => incrementErrorMetric hm
  | Some None => hm
  | None => incrementTimeoutMetric hm
  end.

(** The goroutine of the callback ends after the deadline as well. A hook in
    the lists has a callback. *)
Definition executeHookWithTimeout (ctx : HookContext) (h : Hook) (hm : HookManager) : HookManager :=
  match h_Callback h with
  | None => incrementErrorMetric (incrementErrorMetric hm)
  | Some callback =>
      let e := callback ctx in
      let '(err, hm) := runHookWithRecovery e hm in
      handleHookResult (if decide (ex_time e <= h_Timeout h) then Some err else None) hm
  end.

Definition updateExecutionMetrics (elapsed : Z) (hm : HookManager) : HookManager :=
  let m := hm_metrics hm in
  with_metrics (MkMetrics (i64 (m_TotalExecutions m + 1)) (m_TotalErrors m) (m_TotalTimeouts m)
    (Z.quot (i64 (m_AverageLatency m + elapsed)) 2)) hm.

Definition executeHooksAsync (ctx : HookContext) (hooks : list Hook) (elapsed : Z) (hm : HookManager) : HookManager :=
  updateExecutionMetrics elapsed (fold_left (fun hm h => executeHookWithTimeout ctx h hm) hooks hm).

(** The hooks that run, in their order. *)
Definition executeHooksWithContext (ctx : HookContext) (hm : HookManager) : list Hook :=
  sortHooksByPriority (hm_globalHooks hm ++ event_hooks (hc_Event ctx) hm).

(** [elapsed]: the time the goroutine measures. *)
Definition ExecuteHooks (now : Z) (event : bytes) (torrent : TorrentState) (data : D) (elapsed : Z) (hm : HookManager) : HookManager :=
  let ctx := MkContext event torrent data now in
  match executeHooksWithContext ctx hm with
  | [] => hm
  | hooks => executeHooksAsync ctx hooks elapsed hm
  end.

Definition GetMetrics (hm : HookManager) : HookMetrics := hm_metrics hm.

Definition ListHooks (hm : HookManager) : gmap bytes (list bytes) :=
  let events := omap (fun hooks => match hooks with [] => None | _ => Some (map h_ID hooks) end) (hm_hooks hm) in
  match hm_globalHooks hm with
  | [] => events
  | hooks => if decide (is_Some (events !! bs "global")) then events else <[bs "global" := map h_ID hooks]> events
  end.
End Hooks.
End Hooks.

(** * Lifecycle hooks: what registration promises

    Hooks run in descending priority, the state of a manager is well-formed after every history of calls, and a registered hook
    runs for its events until it is removed. *)

Import MetainfoFacts RpcTypes Hooks.

Module HookFacts.

Section HookFacts.
Context {D : Type}.
Abbreviation Hook := (Hooks.Hook (D := D)).
Abbreviation HookManager := (Hooks.HookManager (D := D)).
Abbreviation HookContext := (Hooks.HookContext (D := D)).

(** ** Histories of calls *)
Inductive hook_op :=
  | ORegister (hook : option Hook)
  | OUnregister (hookID : bytes)
  | OSetTimeout (timeout : Z)
  | OExecute (now : Z) (event : bytes) (torrent : TorrentState) (data : D) (elapsed : Z).
Definition hook_step (hm : HookManager) (o : hook_op) : HookManager :=
  match o with
  | ORegister hook => (RegisterHook hook hm).2
  | OUnregister hookID => (UnregisterHook hookID hm).2
  | OSetTimeout timeout => SetDefaultTimeout timeout hm
  | OExecute now event torrent data elapsed => ExecuteHooks now event torrent data elapsed hm
  end.
Definition hook_run (ops : list hook_op) : HookManager := fold_left hook_step ops NewHookManager.

(** ** Specification *)
Abbreviation higher := (ExchangeSort.higher h_Priority).
Abbreviation by_priority := (StronglySorted higher).

(** Whether the hook responds to the event. *)
Definition concerns (h : Hook) (event : bytes) : bool := bool_decide (h_Events h = [] \/ event ∈ h_Events h).

(** The errors and timeouts one run of a hook adds to the metrics. *)
Definition hook_errors (ctx : HookContext) (h : Hook) : Z :=
  match h_Callback h with
  | None => 2
  | Some callback =>
      let e := callback ctx in
      let in_time := bool_decide (ex_time e <= h_Timeout h) in
      match ex_verdict e with
      | Returns None => 0
      | Returns (Some _) => if in_time then 1 else 0
      | Panics => if in_time then 2 else 1
      end
  end.
Definition hook_timeouts (ctx : HookContext) (h : Hook) : Z :=
  match h_Callback h with
  | None => 0
  | Some callback => if bool_decide (ex_time (callback ctx) <= h_Timeout h) then 0 else 1
  end.
Definition total (f : Hook -> Z) (hooks : list Hook) : Z := foldr (fun h n => f h + n) 0 hooks.

Record hooks_ok (hm : HookManager) : Prop := {
  ok_globals : by_priority (hm_globalHooks hm);
  ok_global_events : Forall (fun h => h_Events h = []) (hm_globalHooks hm);
  ok_events e hooks : hm_hooks hm !! e = Some hooks ->
    by_priority hooks /\ NoDup (map h_ID hooks) /\ Forall (fun h => e ∈ h_Events h) hooks;
}.

(** ** The sort *)
Lemma sort_perm (l : list Hook) : sortHooksByPriority l ≡ₚ l.
Proof. apply ExchangeSort.exchange_spec. lia. Qed.
Lemma sort_by_priority (l : list Hook) : by_priority (sortHooksByPriority l).
Proof. apply ExchangeSort.exchange_spec. lia. Qed.

(** ** Registration *)
Lemma executed_perm ctx (hm : HookManager) :
  executeHooksWithContext ctx hm ≡ₚ hm_globalHooks hm ++ event_hooks (hc_Event ctx) hm.
Proof. apply sort_perm. Qed.

Lemma register_single h e (hm : HookManager) : h_ID h ∉ map h_ID (event_hooks e hm) ->
  exists hm', registerHookForSingleEvent h e hm = (Ok (), hm') /\ hm_globalHooks hm' = hm_globalHooks hm /\
    hm_hooks hm' = <[e := sortHooksByPriority (event_hooks e hm ++ [h])]> (hm_hooks hm).
Proof.
  intros Hd. unfold registerHookForSingleEvent, checkDuplicateHook. rewrite decide_False by done. eexists. split; [done|].
  split; [done|]. cbn. by rewrite insert_insert_eq.
Qed.
Lemma register_single_dup h e (hm : HookManager) : h_ID h ∈ map h_ID (event_hooks e hm) ->
  exists err, registerHookForSingleEvent h e hm = (Err err, with_events (<[e := event_hooks e hm]> (hm_hooks hm)) hm).
Proof. intros Hd. unfold registerHookForSingleEvent, checkDuplicateHook. rewrite decide_True by done. by eexists. Qed.

Lemma same_event_ok e (hm : HookManager) : hooks_ok hm -> hooks_ok (with_events (<[e := event_hooks e hm]> (hm_hooks hm)) hm).
Proof.
  intros [H1 H2 H3]. split; [done|done|]. cbn. intros e' hooks. rewrite lookup_insert_Some. intros [[<- <-]|[_ E]]; [|by apply H3].
  unfold event_hooks. destruct (hm_hooks hm !! e) eqn:E; [by apply H3|]. cbn. repeat split; constructor.
Qed.

Lemma single_ok h e (hm : HookManager) : e ∈ h_Events h -> hooks_ok hm -> hooks_ok (registerHookForSingleEvent h e hm).2.
Proof.
  intros He Hok. destruct (decide (h_ID h ∈ map h_ID (event_hooks e hm))) as [Hd|Hd].
  { destruct (register_single_dup _ _ _ Hd) as (err & ->). by apply same_event_ok. }
  destruct (register_single _ _ _ Hd) as (hm' & -> & Eg & Ee). cbn. destruct (same_event_ok e _ Hok) as [H1 H2 H3].
  destruct (H3 e (event_hooks e hm)) as (_ & S2 & S3); [apply lookup_insert_eq|]. split; rewrite ?Eg; [done|done|].
  intros e' hooks. rewrite Ee, lookup_insert_Some. intros [[<- <-]|[_ E]]; [|by eapply ok_events]. split; [apply sort_by_priority|].
  rewrite sort_perm. split; [|apply Forall_app; split; [done|by apply Forall_singleton]].
  rewrite map_app. apply NoDup_app. split; [done|]. split; [|apply NoDup_singleton]. cbn. intros x Hx. rewrite list_elem_of_singleton. by intros ->.
Qed.

Lemma specific_ok h es : forall hm : HookManager, es ⊆ h_Events h -> hooks_ok hm -> hooks_ok (registerEventSpecificHooks h es hm).2.
Proof.
  induction es as [|e es IH]; intros hm Hs Hok; cbn; [done|]. pose proof (single_ok h e hm ltac:(set_solver) Hok) as Hn.
  destruct (registerHookForSingleEvent h e hm) as [[] hm']; cbn in *; try done. apply IH; [set_solver|done].
Qed.

Lemma register_ok hook (hm : HookManager) : hooks_ok hm -> hooks_ok (RegisterHook hook hm).2.
Proof.
  intros Hok. unfold RegisterHook. destruct (validateHookInput hook) as [h| | |]; try done. unfold registerHookForEvents.
  set (h' := configureHookDefaults _ _). destruct (h_Events h') as [|e es] eqn:Ee; [|rewrite <- Ee; by apply specific_ok].
  destruct Hok as [H1 H2 H3]. split; cbn; [apply sort_by_priority| |done]. rewrite sort_perm. apply Forall_app. by split; [|apply Forall_singleton].
Qed.

Lemma remove_sub id (hooks : list Hook) : sublist (remove_first id hooks) hooks.
Proof. induction hooks as [|h hooks IH]; cbn; [constructor|]. case_decide; by constructor. Qed.

Lemma sublist_Forall (P : Hook -> Prop) l k : sublist l k -> Forall P k -> Forall P l.
Proof. induction 1; [done| |]; inversion_clear 1; auto. Qed.
Lemma sublist_ids (l k : list Hook) : sublist l k -> sublist (map h_ID l) (map h_ID k).
Proof. induction 1; cbn; by constructor. Qed.
Lemma sublist_sorted (l k : list Hook) : sublist l k -> by_priority k -> by_priority l.
Proof.
  induction 1 as [|x l k Hs IH|x l k Hs IH]; [done| |]; inversion_clear 1; [constructor; [by apply IH|]|by apply IH]. eapply sublist_Forall; eauto.
Qed.

Lemma removed_ok id (hm : HookManager) :
  hooks_ok hm -> hooks_ok (with_events (remove_first id <$> hm_hooks hm) (with_globals (remove_first id (hm_globalHooks hm)) hm)).
Proof.
  intros [H1 H2 H3]. pose proof (remove_sub id (hm_globalHooks hm)) as Hs. split; cbn; [by eapply sublist_sorted|by eapply sublist_Forall|].
  intros e hooks. rewrite lookup_fmap_Some. intros (hooks' & <- & E). destruct (H3 _ _ E) as (S1 & S2 & S3). pose proof (remove_sub id hooks') as Hs'.
  repeat split; [by eapply sublist_sorted| |by eapply sublist_Forall]. eapply sublist_NoDup; [|by apply sublist_ids]. done.
Qed.

Lemma unregister_ok id (hm : HookManager) : hooks_ok hm -> hooks_ok (UnregisterHook id hm).2.
Proof. intros Hok. unfold UnregisterHook. case_decide; [done|]. exact (removed_ok id hm Hok). Qed.

(** Running hooks changes the metrics only. *)
Definition same_hooks (hm hm' : HookManager) : Prop :=
  hm_hooks hm' = hm_hooks hm /\ hm_globalHooks hm' = hm_globalHooks hm /\ hm_defaultTimeout hm' = hm_defaultTimeout hm.

Lemma execute_one ctx h (hm : HookManager) : same_hooks hm (executeHookWithTimeout ctx h hm).
Proof.
  unfold executeHookWithTimeout, runHookWithRecovery. destruct (h_Callback h) as [f|]; [|done].
  destruct (ex_verdict (f ctx)) as [[]|]; case_decide; done.
Qed.
Lemma execute_all ctx hooks : forall hm : HookManager, same_hooks hm (fold_left (fun hm h => executeHookWithTimeout ctx h hm) hooks hm).
Proof.
  induction hooks as [|h hooks IH]; intros hm; cbn; [done|]. destruct (IH (executeHookWithTimeout ctx h hm)) as (E1 & E2 & E3).
  destruct (execute_one ctx h hm) as (F1 & F2 & F3). repeat split; congruence.
Qed.
Lemma execute_same now e t d el (hm : HookManager) : same_hooks hm (ExecuteHooks now e t d el hm).
Proof. unfold ExecuteHooks. destruct (executeHooksWithContext _ _) as [|h hooks]; [done|]. apply (execute_all _ (h :: hooks) hm). Qed.

Lemma same_ok (hm hm' : HookManager) : same_hooks hm hm' -> hooks_ok hm -> hooks_ok hm'.
Proof. intros (E1 & E2 & E3) [H1 H2 H3]. split; rewrite ?E1, ?E2; done. Qed.

Lemma hook_run_ok ops : hooks_ok (hook_run ops).
Proof.
  induction ops as [|o ops IH] using rev_ind; [split; [apply SSorted_nil|by apply Forall_nil|]; intros e hooks E; cbn in E; by rewrite lookup_empty in E|].
  unfold hook_run in *. rewrite fold_left_app. cbn. destruct o; cbn.
  - by apply register_ok.
  - by apply unregister_ok.
  - destruct IH as [H1 H2 H3]. by split.
  - eapply same_ok; [apply execute_same|done].
Qed.

(** ** Metrics *)
Definition within (m : HookMetrics) (n : Z) : Prop := m_TotalErrors m + 2 * n < 2 ^ 63 /\ m_TotalTimeouts m + n < 2 ^ 63 /\
  0 <= m_TotalErrors m /\ 0 <= m_TotalTimeouts m.

Lemma one_metrics ctx h (hm : HookManager) : within (hm_metrics hm) 1 ->
  let m := hm_metrics (executeHookWithTimeout ctx h hm) in
  m_TotalErrors m = m_TotalErrors (hm_metrics hm) + hook_errors ctx h /\ m_TotalTimeouts m = m_TotalTimeouts (hm_metrics hm) + hook_timeouts ctx h /\
  m_TotalExecutions m = m_TotalExecutions (hm_metrics hm) /\ 0 <= hook_errors ctx h <= 2 /\ 0 <= hook_timeouts ctx h <= 1.
Proof.
  intros (B1 & B2 & B3 & B4). unfold executeHookWithTimeout, hook_errors, hook_timeouts. destruct (h_Callback h) as [f|]; cbn.
  2:{ rewrite (i64_small (m_TotalErrors (hm_metrics hm) + 1)), i64_small by lia. lia. }
  unfold runHookWithRecovery. destruct (ex_verdict (f ctx)) as [[]|]; [| |]; case_decide; cbn; rewrite ?bool_decide_eq_true_2, ?bool_decide_eq_false_2 by done; cbn.
  all: rewrite ?(i64_small (m_TotalErrors (hm_metrics hm) + 1)) by lia; rewrite ?i64_small by lia; lia.
Qed.

Lemma all_metrics ctx hooks : forall hm : HookManager, within (hm_metrics hm) (len hooks) ->
  let m := hm_metrics (fold_left (fun hm h => executeHookWithTimeout ctx h hm) hooks hm) in
  m_TotalErrors m = m_TotalErrors (hm_metrics hm) + total (hook_errors ctx) hooks /\
  m_TotalTimeouts m = m_TotalTimeouts (hm_metrics hm) + total (hook_timeouts ctx) hooks /\
  m_TotalExecutions m = m_TotalExecutions (hm_metrics hm).
Proof.
  induction hooks as [|h hooks IH]; intros hm Hw; cbn [fold_left total foldr]; [lia|].
  destruct Hw as (B1 & B2 & B3 & B4). unfold len in B1, B2. cbn in B1, B2.
  destruct (one_metrics ctx h hm) as (E1 & E2 & E3 & E4 & E5); [unfold within; lia|].
  destruct (IH (executeHookWithTimeout ctx h hm)) as (F1 & F2 & F3); [unfold within, len; lia|]. unfold total in *. lia.
Qed.

(** ** One registration *)
Lemma concerns_configured h d e : concerns (configureHookDefaults h d) e = concerns h e.
Proof. unfold configureHookDefaults. by case_decide. Qed.

(** A registration that succeeds adds the hook to each of its events. *)
Lemma specific_registered h es : forall hm hm1 : HookManager, registerEventSpecificHooks h es hm = (Ok (), hm1) ->
  NoDup es /\ (forall e, e ∈ es -> h_ID h ∉ map h_ID (event_hooks e hm)) /\ hm_globalHooks hm1 = hm_globalHooks hm /\
  forall e, event_hooks e hm1 ≡ₚ (if decide (e ∈ es) then [h] else []) ++ event_hooks e hm.
Proof.
  induction es as [|e0 es IH]; intros hm hm1 E; cbn in E.
  { injection E as <-. split; [constructor|]. split; [set_solver|]. split; [done|]. intros e. rewrite decide_False by set_solver. done. }
  destruct (decide (h_ID h ∈ map h_ID (event_hooks e0 hm))) as [Hd|Hd].
  { destruct (register_single_dup _ _ _ Hd) as (err & R). by rewrite R in E. }
  destruct (register_single _ _ _ Hd) as (hm' & R & Eg & Ee). rewrite R in E. apply IH in E as (N1 & N2 & N3 & N4).
  assert (Heq : event_hooks e0 hm' = sortHooksByPriority (event_hooks e0 hm ++ [h])).
  { unfold event_hooks at 1. by rewrite Ee, lookup_insert_eq. }
  assert (Hne : forall e, e <> e0 -> event_hooks e hm' = event_hooks e hm).
  { intros e He. unfold event_hooks. by rewrite Ee, lookup_insert_ne. }
  assert (Hnew : e0 ∉ es).
  { intros Hin. apply (N2 e0 Hin). rewrite Heq, sort_perm, map_app. set_solver. }
  split; [by constructor|]. split; [|split; [congruence|]].
  - intros e [->|He]%elem_of_cons; [done|]. rewrite <- (Hne e) by (by intros ->). by apply N2.
  - intros e. rewrite N4. destruct (decide (e = e0)) as [->|He].
    + rewrite decide_False by done. rewrite decide_True by set_solver. rewrite Heq, sort_perm. cbn. by rewrite Permutation_app_comm.
    + rewrite (Hne e He). destruct (decide (e ∈ es)); [rewrite decide_True by set_solver|rewrite decide_False by set_solver]; done.
Qed.

Lemma registered h (hm hm1 : HookManager) ctx : RegisterHook (Some h) hm = (Ok (), hm1) ->
  executeHooksWithContext ctx hm1 ≡ₚ
    (if concerns h (hc_Event ctx) then [configureHookDefaults h (hm_defaultTimeout hm)] else []) ++ executeHooksWithContext ctx hm.
Proof.
  unfold RegisterHook. destruct (validateHookInput (Some h)) as [h0| | |] eqn:Ev; try discriminate.
  assert (h0 = h) as ->. { cbn in Ev. case_decide; [done|]. destruct (h_Callback h); [by injection Ev|done]. }
  rewrite <- (concerns_configured h (hm_defaultTimeout hm)). set (h' := configureHookDefaults _ _). unfold registerHookForEvents, concerns.
  rewrite !executed_perm. destruct (h_Events h') as [|e es] eqn:Ee.
  - intros [= <-]. rewrite bool_decide_eq_true_2 by (by left). cbn. rewrite sort_perm. by rewrite <- Permutation_middle, app_nil_r.
  - rewrite <- Ee. intros E. apply specific_registered in E as (_ & _ & Eg & Hp). rewrite Eg, Hp, Ee.
    destruct (decide (hc_Event ctx ∈ e :: es)).
    + rewrite bool_decide_eq_true_2 by (by right). cbn. by rewrite <- Permutation_middle.
    + rewrite bool_decide_eq_false_2 by (intros [?|?]; done). done.
Qed.

(** ** Removal *)
Definition fresh_id (id : bytes) (hm : HookManager) : Prop :=
  (id ∉ map h_ID (hm_globalHooks hm)) /\ forall e, id ∉ map h_ID (event_hooks e hm).

Lemma remove_absent id (l : list Hook) : id ∉ map h_ID l -> remove_first id l = l.
Proof. induction l as [|h l IH]; cbn; [done|]. intros [Hn Hl]%not_elem_of_cons. rewrite decide_False by congruence. by rewrite IH. Qed.

Lemma remove_present id (l : list Hook) : id ∈ map h_ID l -> exists h, h_ID h = id /\ l ≡ₚ h :: remove_first id l.
Proof.
  induction l as [|h l IH]; cbn; [by intros ?%elem_of_nil|]. case_decide as Hh; [by exists h|].
  intros [->|Hl]%elem_of_cons; [done|]. destruct (IH Hl) as (h0 & E0 & Hp). exists h0. split; [done|]. by rewrite Hp at 1; apply Permutation_swap.
Qed.

Lemma remove_added id h (l k : list Hook) : h_ID h = id -> id ∉ map h_ID k -> l ≡ₚ h :: k -> remove_first id l ≡ₚ k.
Proof.
  intros Hh Hk Hp. destruct (remove_present id l) as (h0 & E0 & Hp0); [rewrite Hp; cbn; rewrite Hh; apply list_elem_of_here|].
  assert (h0 = h) as ->.
  { assert (Hin : h0 ∈ h :: k) by (rewrite <- Hp, Hp0; apply list_elem_of_here). apply elem_of_cons in Hin as [->|Hin]; [done|].
    exfalso. apply Hk. rewrite <- E0. by apply list_elem_of_fmap_2. }
  apply (Permutation_cons_inv (a := h)). by rewrite <- Hp0, Hp.
Qed.

Lemma remove_after id h (l k : list Hook) (b : bool) : h_ID h = id -> id ∉ map h_ID k -> l ≡ₚ (if b then [h] else []) ++ k -> remove_first id l ≡ₚ k.
Proof.
  intros Hh Hk Hp. destruct b; [by eapply remove_added|]. cbn in Hp. rewrite remove_absent; [done|]. by rewrite Hp.
Qed.

Lemma removed_events id e (hm : HookManager) hm' : hm_hooks hm' = remove_first id <$> hm_hooks hm -> event_hooks e hm' = remove_first id (event_hooks e hm).
Proof. intros E. unfold event_hooks. rewrite E, lookup_fmap. by destruct (hm_hooks hm !! e). Qed.

Lemma listed id e (hm : HookManager) : id ∈ map h_ID (event_hooks e hm) -> existsb (fun p => has_hook id p.2) (map_to_list (hm_hooks hm)) = true.
Proof.
  unfold event_hooks. destruct (hm_hooks hm !! e) as [hooks|] eqn:E; cbn; [|by intros ?%elem_of_nil]. intros Hin.
  apply existsb_exists. exists (e, hooks). split; [by apply list_elem_of_In, elem_of_map_to_list|]. by apply bool_decide_eq_true_2.
Qed.

Lemma unregister_added h (hm hm1 : HookManager) : h_ID h <> [] -> fresh_id (h_ID h) hm ->
  (exists e, h ∈ hm_globalHooks hm1 ++ event_hooks e hm1) ->
  (exists b : bool, hm_globalHooks hm1 ≡ₚ (if b then [h] else []) ++ hm_globalHooks hm) ->
  (forall e, exists b : bool, event_hooks e hm1 ≡ₚ (if b then [h] else []) ++ event_hooks e hm) ->
  exists hm2, UnregisterHook (h_ID h) hm1 = (Ok (), hm2) /\ forall ctx, executeHooksWithContext ctx hm2 ≡ₚ executeHooksWithContext ctx hm.
Proof.
  intros Hid [Hg He] (e & Hin) (b & Pg) Pe. unfold UnregisterHook. rewrite decide_False by done.
  assert (R : has_hook (h_ID h) (hm_globalHooks hm1) || existsb (fun p => has_hook (h_ID h) p.2) (map_to_list (hm_hooks hm1)) = true).
  { apply orb_true_iff. apply elem_of_app in Hin as [Hin|Hin]; [left; apply bool_decide_eq_true_2|right; apply (listed _ e)];
      by apply list_elem_of_fmap_2. }
  rewrite R. eexists. split; [done|]. intros ctx. rewrite !executed_perm. cbn. f_equiv; [by eapply remove_after|].
  rewrite (removed_events (h_ID h) _ hm1) by done. destruct (Pe (hc_Event ctx)) as (b' & Hp). by eapply remove_after.
Qed.

Lemma valid_hook h h0 : validateHookInput (D := D) (Some h) = Ok h0 -> h0 = h /\ h_ID h <> [].
Proof. cbn. case_decide; [done|]. destruct (h_Callback h); [by intros [= ->]|done]. Qed.
Lemma configured_id (h : Hook) d : h_ID (configureHookDefaults h d) = h_ID h.
Proof. unfold configureHookDefaults. by case_decide. Qed.

Lemma register_unregister h (hm hm1 : HookManager) : RegisterHook (Some h) hm = (Ok (), hm1) -> fresh_id (h_ID h) hm ->
  exists hm2, UnregisterHook (h_ID h) hm1 = (Ok (), hm2) /\ forall ctx, executeHooksWithContext ctx hm2 ≡ₚ executeHooksWithContext ctx hm.
Proof.
  unfold RegisterHook. destruct (validateHookInput (Some h)) as [h0| | |] eqn:Ev; try discriminate. apply valid_hook in Ev as [-> Hid].
  rewrite <- (configured_id h (hm_defaultTimeout hm)) in *. set (h' := configureHookDefaults _ _) in *. unfold registerHookForEvents.
  destruct (h_Events h') as [|e es] eqn:Ee; intros E Hf; apply unregister_added; try done.
  - injection E as <-. exists []. apply elem_of_app. left. cbn. rewrite sort_perm. set_solver.
  - injection E as <-. exists true. cbn. rewrite sort_perm. by rewrite Permutation_app_comm.
  - injection E as <-. intros e. by exists false.
  - apply specific_registered in E as (_ & _ & _ & Hp). exists e. apply elem_of_app. right. rewrite Hp, decide_True by set_solver. set_solver.
  - apply specific_registered in E as (_ & _ & -> & _). by exists false.
  - intros e0. apply specific_registered in E as (_ & _ & _ & Hp). exists (bool_decide (e0 ∈ e :: es)). rewrite Hp.
    case_decide; [by rewrite bool_decide_eq_true_2|by rewrite bool_decide_eq_false_2].
Qed.

(** Registering for one event keeps what is listed. *)
Lemma single_outcome h e (hm : HookManager) :
  exists r hm', registerHookForSingleEvent h e hm = (r, hm') /\ (r = Ok () \/ exists err, r = Err err) /\
    forall e', event_hooks e' hm ⊆ event_hooks e' hm'.
Proof.
  destruct (decide (h_ID h ∈ map h_ID (event_hooks e hm))) as [Hd|Hd].
  - destruct (register_single_dup _ _ _ Hd) as (err & ->). do 2 eexists. split; [done|]. split; [eauto|]. intros e' x Hx.
    unfold event_hooks at 1. cbn. destruct (decide (e' = e)) as [->|He]; [by rewrite lookup_insert_eq|by rewrite lookup_insert_ne].
  - destruct (register_single _ _ _ Hd) as (hm' & -> & _ & Ee). do 2 eexists. split; [done|]. split; [eauto|]. intros e' x Hx.
    unfold event_hooks at 1. rewrite Ee. destruct (decide (e' = e)) as [->|He]; [|by rewrite lookup_insert_ne].
    rewrite lookup_insert_eq. cbn. rewrite sort_perm. set_solver.
Qed.

Lemma specific_outcome h es : forall hm : HookManager,
  exists r hm', registerEventSpecificHooks h es hm = (r, hm') /\ (r = Ok () \/ exists err, r = Err err) /\
    forall e', event_hooks e' hm ⊆ event_hooks e' hm'.
Proof.
  induction es as [|e es IH]; intros hm; cbn; [by exists (Ok ()), hm; eauto|].
  destruct (single_outcome h e hm) as (r & hm' & -> & [->|(err & ->)] & Hs); [|by do 2 eexists; eauto].
  destruct (IH hm') as (r' & hm'' & -> & Hr & Hs'). do 2 eexists. split; [done|]. split; [done|]. intros e'. by transitivity (event_hooks e' hm').
Qed.

(** ** Claims *)

(** after any history of calls, registering a hook with success makes it
    run for exactly the events it names (for every event when it names none)
    next to the hooks that ran before, in descending priority; each execution
    counts its errors and timeouts, a panic in time counting twice; and when the
    ID was not in use, unregistering it succeeds and restores what ran before. *)
Theorem hook_lifecycle ops h hm1 : let hm := hook_run ops in RegisterHook (Some h) hm = (Ok (), hm1) ->
  (forall ctx, by_priority (executeHooksWithContext ctx hm1) /\ executeHooksWithContext ctx hm1 ≡ₚ
    (if concerns h (hc_Event ctx) then [configureHookDefaults h (hm_defaultTimeout hm)] else []) ++ executeHooksWithContext ctx hm) /\
  (forall now event torrent data elapsed, let ctx := MkContext event torrent data now in let hooks := executeHooksWithContext ctx hm1 in
    hooks <> [] -> within (hm_metrics hm1) (len hooks) ->
    let m := GetMetrics hm1 in let m' := GetMetrics (ExecuteHooks now event torrent data elapsed hm1) in
    m_TotalErrors m' = m_TotalErrors m + total (hook_errors ctx) hooks /\
    m_TotalTimeouts m' = m_TotalTimeouts m + total (hook_timeouts ctx) hooks /\ m_TotalExecutions m' = i64 (m_TotalExecutions m + 1)) /\
  (fresh_id (h_ID h) hm -> exists hm2, UnregisterHook (h_ID h) hm1 = (Ok (), hm2) /\
    forall ctx, executeHooksWithContext ctx hm2 ≡ₚ executeHooksWithContext ctx hm).
Proof.
  intros hm E. split; [|split; [|by apply register_unregister]].
  - intros ctx. split; [apply sort_by_priority|by apply registered].
  - intros now event torrent data elapsed ctx hooks Hne Hw. unfold ExecuteHooks. fold ctx hooks. destruct hooks as [|h0 hooks'] eqn:Eh; [done|].
    destruct (all_metrics ctx (h0 :: hooks') hm1 Hw) as (E1 & E2 & E3). unfold executeHooksAsync, GetMetrics. cbn [m_TotalErrors updateExecutionMetrics hm_metrics with_metrics m_TotalTimeouts m_TotalExecutions].
    rewrite E1, E2, E3. done.
Qed.

(** a registration that fails is not undone: when the ID is taken for a
    later event of the hook, the error is returned and the hook runs for the
    events before it all the same. *)
Theorem register_partial ops h e es : let hm := hook_run ops in
  h_Events h = e :: es -> h_ID h <> [] -> is_Some (h_Callback h) -> h_ID h ∉ map h_ID (event_hooks e hm) ->
  (exists e', e' ∈ es /\ (e' = e \/ h_ID h ∈ map h_ID (event_hooks e' hm))) ->
  exists err hm1, RegisterHook (Some h) hm = (Err err, hm1) /\
    forall ctx, hc_Event ctx = e -> configureHookDefaults h (hm_defaultTimeout hm) ∈ executeHooksWithContext ctx hm1.
Proof.
  intros hm Ee Hid [f Hf] Hfree (e' & He' & Hc). unfold RegisterHook, validateHookInput. rewrite decide_False, Hf by done.
  set (h' := configureHookDefaults _ _). assert (Hev : h_Events h' = e :: es) by (unfold h', configureHookDefaults; by case_decide).
  assert (Hi' : h_ID h' = h_ID h) by apply configured_id. unfold registerHookForEvents. rewrite Hev. rewrite <- Hi' in *.
  destruct (specific_outcome h' (e :: es) hm) as (r & hm1 & Er & [->|(err & ->)] & _).
  { apply specific_registered in Er as (N1 & N2 & _). exfalso. apply NoDup_cons in N1 as [N1 _]. destruct Hc as [->|Hc]; [done|].
    apply (N2 e'); [by right|done]. }
  exists err, hm1. split; [done|]. intros ctx <-. rewrite executed_perm. apply elem_of_app. right. cbn in Er.
  destruct (register_single h' (hc_Event ctx) hm Hfree) as (hm' & Es & _ & Eh). rewrite Es in Er.
  destruct (specific_outcome h' es hm') as (r & hm2 & Er' & _ & Hs). rewrite Er in Er'. injection Er' as <- <-. apply Hs.
  unfold event_hooks. rewrite Eh, lookup_insert_eq. cbn. rewrite sort_perm. set_solver.
Qed.
End HookFacts.

(** ** Witnesses *)
Definition demo_state : TorrentState :=
  MkTorrent 1 [] None 0 None [] 0 None [] 0 0 0 (SpecFloat.S754_zero false) 0 0 0 0 0 0 0 0 0 0 None 0 0 false [] [] [] [] [] (SpecFloat.S754_zero false) 0 false.
Definition ends (took : Z) (v : verdict) : option (Hooks.HookContext (D := ()) -> execution) := Some (fun _ => MkExecution took v).
Definition low_hook : Hooks.Hook := MkHook (bs "low") (ends 1 Panics) [bs "torrent-added"] 1 0 false.
Definition late_hook : Hooks.Hook := MkHook (bs "late") (ends 100 (Returns None)) [] 5 50 true.
Definition high_hook : Hooks.Hook := MkHook (bs "high") (ends 2 (Returns (Some "no"%string))) [bs "torrent-added"; bs "torrent-removed"] 9 0 false.
Definition demo_hook_ops : list (hook_op (D := ())) := [ORegister (Some low_hook); ORegister (Some late_hook); OUnregister (bs "none")].
Definition demo_hook_context : Hooks.HookContext := MkContext (bs "torrent-added") demo_state () 3.

Lemma hook_lifecycle_witness : exists hm1, RegisterHook (Some high_hook) (hook_run demo_hook_ops) = (Ok (), hm1) /\
  map h_ID (executeHooksWithContext demo_hook_context hm1) = [bs "high"; bs "late"; bs "low"] /\
  GetMetrics (ExecuteHooks 3 (bs "torrent-added") demo_state () 10 hm1) = MkMetrics 1 3 1 5 /\
  executeHooksWithContext demo_hook_context hm1 ≡ₚ
    configureHookDefaults high_hook (hm_defaultTimeout (hook_run demo_hook_ops)) :: executeHooksWithContext demo_hook_context (hook_run demo_hook_ops).
Proof.
  eexists. split; [vm_compute; reflexivity|]. split; [vm_compute; reflexivity|]. split; [vm_compute; reflexivity|].
  apply (hook_lifecycle demo_hook_ops high_hook _ ltac:(vm_compute; reflexivity)).
Defined.
Lemma register_partial_witness : exists err hm1,
  RegisterHook (Some (MkHook (bs "low") (ends 1 Panics) [bs "torrent-removed"; bs "torrent-added"] 1 0 false)) (hook_run demo_hook_ops) = (Err err, hm1) /\
  forall ctx, hc_Event ctx = bs "torrent-removed" ->
    configureHookDefaults (MkHook (bs "low") (ends 1 Panics) [bs "torrent-removed"; bs "torrent-added"] 1 0 false)
      (hm_defaultTimeout (hook_run demo_hook_ops)) ∈ executeHooksWithContext ctx hm1.
Proof.
  apply (register_partial demo_hook_ops _ (bs "torrent-removed") [bs "torrent-added"]); [done|done|by eexists| |].
  - vm_compute. intros Hin. inversion Hin.
  - exists (bs "torrent-added"). split; [apply list_elem_of_here|]. right. vm_compute. constructor.
Defined.
End HookFacts.
