(* ===== verification/FileManager.v ===== *)
(** * Moving the files of a torrent

    Models [src/rpc/file_manager.go]: moving files with rollback, the check of
    the free space, partial files, verification and file names.

    The file system is a class of operations on a state [OS]; what the theorems
    rely on is the class [DiskLaws]. Modes of files are kept, times are not. *)

From S2P Require Import Prelude Sha1 Hash Metainfo GoLib.
Import Metainfo GoLib.

(** The calls of package [os] the code makes. [fs_Open] gives the contents and
    the mode; [fs_Write] writes contents to an open file and syncs it, and says
    whether all went well; [fs_Statfs] gives blocks, available blocks and the
    size of a block. *)
Class Disk (OS : Type) := {
  fs_Exists : OS -> bytes -> bool;
  fs_MkdirAll : OS -> bytes -> option OS;
  fs_Rename : OS -> bytes -> bytes -> option OS;
  fs_Open : OS -> bytes -> option (bytes * Z);
  fs_Create : OS -> bytes -> Z -> option OS;
  fs_Write : OS -> bytes -> bytes -> bool * OS;
  fs_Remove : OS -> bytes -> option OS;
  fs_Statfs : OS -> bytes -> option (Z * Z * Z)
}.

Module FileManager.

(** ** [path/filepath] *)
Fixpoint last_slash (s : bytes) : option (bytes * bytes) :=
  match s with
  | [] => None
  | c :: s' =>
      match last_slash s' with
      | Some (d, f) => Some (c :: d, f)
      | None => if decide (c = slash) then Some ([c], s') else None
      end
  end.
Definition Dir (path : bytes) : bytes := Clean (match last_slash path with Some (d, _) => d | None => [] end).

Fixpoint strip_slashes (rpath : bytes) : bytes :=
  match rpath with c :: r => if decide (c = slash) then strip_slashes r else rpath | [] => [] end.
Definition Base (path : bytes) : bytes :=
  if decide (path = []) then bs "."
  else
    let p := reverse (strip_slashes (reverse path)) in
    let p := match last_slash p with Some (_, f) => f | None => p end in
    if decide (p = []) then [slash] else p.

(** ASCII suffices: no character outside it is upper-cased to a letter of the
    reserved names. *)
Definition ToUpper (s : bytes) : bytes := map (fun c => if decide (97 <= c <= 122) then c - 32 else c) s.

Section FileManager.
Context {OS : Type} `{Disk OS}.

Record FileManager := MkFileManager { minimumFreeSpace : Z }.
Definition NewFileManager : FileManager := MkFileManager (100 * 1024 * 1024).
Definition SetMinimumFreeSpace (bytes : Z) (fm : FileManager) : FileManager := MkFileManager bytes.

(** ** Space *)
Definition CheckDiskSpace (fm : FileManager) (path : bytes) (requiredBytes : Z) (os : OS) : res () :=
  match fs_Statfs os path with
  | None => Err "failed to get filesystem stats"
  | Some (_, bavail, bsize) =>
      let availableBytes := i64 (bavail * bsize) in
      let totalRequired := i64 (requiredBytes + minimumFreeSpace fm) in
      if decide (availableBytes < totalRequired) then Err "insufficient disk space" else Ok ()
  end.

Definition GetDiskSpace (path : bytes) (os : OS) : res (Z * Z) :=
  match fs_Statfs os path with
  | None => Err "failed to get filesystem stats"
  | Some (blocks, bavail, bsize) => Ok (i64 (blocks * bsize), i64 (bavail * bsize))
  end.

(** ** Moving *)
Definition copyFile (source dest : bytes) (os : OS) : res () * OS :=
  match fs_Open os source with
  | None => (Err "failed to open source", os)
  | Some (content, mode) =>
      match fs_Create os dest mode with
      | None => (Err "failed to create destination", os)
      | Some os => let '(ok, os) := fs_Write os dest content in (if ok : bool then Ok () else Err "failed to copy contents", os)
      end
  end.

Definition moveFile (source dest : bytes) (os : OS) : res () * OS :=
  match fs_Rename os source dest with
  | Some os => (Ok (), os)
  | None =>
      match copyFile source dest os with
      | (Ok _, os) =>
          match fs_Remove os source with
          | Some os => (Ok (), os)
          | None => (Err "failed to remove source after copy", default os (fs_Remove os dest))
          end
      | (r, os) => (r, os)
      end
  end.

(** A rename that fails is ignored. *)
Fixpoint rollbackMoves (movedFiles : list (bytes * bytes)) (os : OS) : OS :=
  match movedFiles with
  | [] => os
  | (source, dest) :: moved =>
      let os := rollbackMoves moved os in default os (fs_Rename os dest source)
  end.

Definition validateMoveDirectories (fm : FileManager) (sourceDir destDir : bytes) (totalSize : Z) (os : OS) : res () * OS :=
  if negb (fs_Exists os sourceDir) then (Err "source directory not accessible", os)
  else match fs_MkdirAll os destDir with
       | None => (Err "failed to create destination directory", os)
       | Some os => (CheckDiskSpace fm destDir totalSize os, os)
       end.

Definition move_paths (info : Info) (sourceDir destDir : bytes) (preserveStructure : bool) (file : File) : bytes * bytes :=
  let path := File_Path file info in
  (Join [sourceDir; path], if preserveStructure then Join [destDir; path] else Join [destDir; Base path]).

(** The loop over the files, given as the pairs of their paths. *)
Fixpoint move_all (paths : list (bytes * bytes)) (movedFiles : list (bytes * bytes)) (os : OS) : res () * OS :=
  match paths with
  | [] => (Ok (), os)
  | (srcFile, destFile) :: paths' =>
      match fs_MkdirAll os (Dir destFile) with
      | None => (Err "failed to create directory", rollbackMoves movedFiles os)
      | Some os =>
          match moveFile srcFile destFile os with
          | (Ok _, os) => move_all paths' (movedFiles ++ [(srcFile, destFile)]) os
          | (r, os) => (r, rollbackMoves movedFiles os)
          end
      end
  end.

Definition processMultiFileTorrent (info : Info) (sourceDir destDir : bytes) (preserveStructure : bool) (os : OS) : res () * OS :=
  move_all (map (move_paths info sourceDir destDir preserveStructure) (i_Files info)) [] os.

Definition processSingleFileTorrent (info : Info) (sourceDir destDir : bytes) (os : OS) : res () * OS :=
  moveFile (Join [sourceDir; i_Name info]) (Join [destDir; i_Name info]) os.

Definition MoveFiles (fm : FileManager) (info : Info) (sourceDir destDir : bytes) (preserveStructure : bool) (os : OS) : res () * OS :=
  match validateMoveDirectories fm sourceDir destDir (TotalLength info) os with
  | (Ok _, os) =>
      if IsDir info then processMultiFileTorrent info sourceDir destDir preserveStructure os
      else processSingleFileTorrent info sourceDir destDir os
  | (r, os) => (r, os)
  end.

(** ** Verification *)
Definition VerifyFile (filePath expectedHash : bytes) (os : OS) : res () :=
  match fs_Open os filePath with
  | None => Err "failed to open file for verification"
  | Some (content, _) =>
      let actualHash := Sha1.Sum content in
      if decide (len actualHash <> len expectedHash) then Err "hash length mismatch"
      else if decide (actualHash = expectedHash) then Ok () else Err "file hash verification failed"
  end.

(** ** Partial files *)
Definition RenamePartialFile (partialPath finalPath : bytes) (os : OS) : res () * OS :=
  if negb (fs_Exists os partialPath) then (Err "partial file does not exist", os)
  else if fs_Exists os finalPath then (Err "destination file already exists", os)
  else match fs_MkdirAll os (Dir finalPath) with
       | None => (Err "failed to create destination directory", os)
       | Some os =>
           match fs_Rename os partialPath finalPath with
           | None => (Err "failed to rename partial file", os)
           | Some os => (Ok (), os)
           end
       end.

Definition removePartialFileIfExists (partialPath : bytes) (os : OS) : res () * OS :=
  if fs_Exists os partialPath
  then match fs_Remove os partialPath with Some os => (Ok (), os) | None => (Err "failed to remove partial file", os) end
  else (Ok (), os).

Fixpoint remove_partials (partials : list bytes) (os : OS) : res () * OS :=
  match partials with
  | [] => (Ok (), os)
  | p :: partials' => match removePartialFileIfExists p os with (Ok _, os) => remove_partials partials' os | (r, os) => (r, os) end
  end.
Definition cleanupMultiFilePartials (directory : bytes) (info : Info) (os : OS) : res () * OS :=
  remove_partials (map (fun file => Join [directory; File_Path file info ++ bs ".part"]) (i_Files info)) os.
Definition cleanupSingleFilePartial (directory : bytes) (info : Info) (os : OS) : res () * OS :=
  removePartialFileIfExists (Join [directory; i_Name info ++ bs ".part"]) os.
Definition CleanupPartialFiles (directory : bytes) (info : Info) (os : OS) : res () * OS :=
  if IsDir info then cleanupMultiFilePartials directory info os else cleanupSingleFilePartial directory info os.

(** ** File names *)
Definition invalidChars : bytes := bs "<>:" ++ [34] ++ bs "|?*" ++ [0].
Definition reservedNames : list bytes :=
  map bs ["CON"; "PRN"; "AUX"; "NUL"; "COM1"; "COM2"; "COM3"; "COM4"; "COM5"; "COM6"; "COM7"; "COM8"; "COM9"; "LPT1"; "LPT2"; "LPT3"; "LPT4";
    "LPT5"; "LPT6"; "LPT7"; "LPT8"; "LPT9"]%string.

Definition ValidateFileName (fileName : bytes) : res () :=
  if decide (TrimSpace fileName = []) then Err "filename cannot be empty"
  else if existsb (Contains_byte fileName) invalidChars then Err "filename contains invalid character"
  else if decide (255 < len fileName) then Err "filename too long"
  else
    let upper := ToUpper fileName in
    if existsb (fun reserved => bool_decide (upper = reserved) || HasPrefix upper (reserved ++ bs ".")) reservedNames
    then Err "filename uses reserved name" else Ok ().
End FileManager.

Example dir_of_path : Dir (bs "/a/b/c") = bs "/a/b" /\ Dir (bs "c") = bs "." /\ Base (bs "/a/b//") = bs "b".
Proof. repeat split; vm_compute; reflexivity. Qed.
Example reserved_name : ValidateFileName (bs "aux.txt") = Err "filename uses reserved name" /\ ValidateFileName (bs "a.txt") = Ok ().
Proof. split; vm_compute; reflexivity. Qed.
End FileManager.

(** * Moving the files of a torrent: nothing is lost

    [MoveFiles] moves every file, or returns an error and leaves every file whole
    at its source or, where renaming it back fails, at its destination. *)
Import Metainfo FileManager.

(** What the operating system documents of these calls, without links, so that
    different paths are different files. A call that fails changes nothing, but
    for [fs_Write], which may have written a part. *)
Inductive node := NFile (content : bytes) | NDir.
Class DiskLaws (OS : Type) `{Disk OS} := {
  node_at : OS -> bytes -> option node;
  exists_node os p : fs_Exists os p = bool_decide (is_Some (node_at os p));
  mkdir_node os dir os' p : fs_MkdirAll os dir = Some os' ->
    node_at os' p = node_at os p \/ (node_at os p = None /\ node_at os' p = Some NDir /\ p `prefix_of` dir);
  rename_absent os s d : node_at os s = None -> fs_Rename os s d = None;
  rename_node os s d os' c p : node_at os s = Some (NFile c) -> fs_Rename os s d = Some os' ->
    node_at os' p = if decide (p = d) then Some (NFile c) else if decide (p = s) then None else node_at os p;
  open_node os s c mode : fs_Open os s = Some (c, mode) -> node_at os s = Some (NFile c);
  create_node os d mode os' p : fs_Create os d mode = Some os' -> node_at os' p = if decide (p = d) then Some (NFile []) else node_at os p;
  write_node os d c os' p : fs_Write os d c = (true, os') -> node_at os' p = if decide (p = d) then Some (NFile c) else node_at os p;
  write_partly os d c os' p : fs_Write os d c = (false, os') -> p <> d -> node_at os' p = node_at os p;
  remove_node os s os' p : fs_Remove os s = Some os' -> node_at os' p = if decide (p = s) then None else node_at os p
}.

Module FileFacts.

Section Moves.
Context {OS : Type} `{DiskLaws OS}.

Definition file_of (n : option node) : option bytes := match n with Some (NFile c) => Some c | _ => None end.
Definition contents (os : OS) (p : bytes) : option bytes := file_of (node_at os p).

(** ** Contents after a sequence of moves *)
Definition move_one (m : bytes * bytes) (c : bytes -> option bytes) : bytes -> option bytes :=
  fun p => if decide (p = m.2) then c m.1 else if decide (p = m.1) then None else c p.
Definition moved (ms : list (bytes * bytes)) (c : bytes -> option bytes) : bytes -> option bytes := fold_left (fun c m => move_one m c) ms c.

(** Sources and destinations are different from each other, and no source is on
    the way to a destination. *)
Record separate (ms : list (bytes * bytes)) : Prop := {
  sep_sources : NoDup ms.*1;
  sep_dests : NoDup ms.*2;
  sep_disjoint s d : s ∈ ms.*1 -> d ∈ ms.*2 -> s <> d;
  sep_dirs s d : s ∈ ms.*1 -> d ∈ ms.*2 -> ~ s `prefix_of` Dir d
}.

Lemma moved_other ms : forall c p, p ∉ ms.*1 -> p ∉ ms.*2 -> moved ms c p = c p.
Proof.
  induction ms as [|m ms IH]; intros c p; cbn; [done|]. intros [H1 H2]%not_elem_of_cons [H3 H4]%not_elem_of_cons. unfold moved in *. cbn.
  rewrite IH by done. unfold move_one. by rewrite !decide_False.
Qed.

Lemma moved_cons m ms c : moved (m :: ms) c = moved ms (move_one m c).
Proof. done. Qed.
Lemma moved_snoc m ms c : moved (ms ++ [m]) c = move_one m (moved ms c).
Proof. unfold moved. by rewrite fold_left_app. Qed.

Lemma sublist_map {A B} (f : A -> B) l k : l `sublist_of` k -> f <$> l `sublist_of` f <$> k.
Proof. induction 1; cbn; by constructor. Qed.

Lemma separate_sub ms ms' : ms' `sublist_of` ms -> separate ms -> separate ms'.
Proof.
  intros Hs [S1 S2 S3 S4]. assert (F1 : ms'.*1 `sublist_of` ms.*1) by (by apply sublist_map). assert (F2 : ms'.*2 `sublist_of` ms.*2) by (by apply sublist_map).
  assert (I1 : forall x, x ∈ ms'.*1 -> x ∈ ms.*1) by (intros x Hx; by eapply elem_of_submseteq, sublist_submseteq).
  assert (I2 : forall x, x ∈ ms'.*2 -> x ∈ ms.*2) by (intros x Hx; by eapply elem_of_submseteq, sublist_submseteq).
  split; [exact (sublist_NoDup _ _ S1 F1)|exact (sublist_NoDup _ _ S2 F2)| |]; intros s d Hs' Hd; [apply S3|apply S4]; auto.
Qed.

Lemma moved_pair ms c s d : separate ms -> (s, d) ∈ ms -> moved ms c d = c s /\ moved ms c s = None.
Proof.
  revert c. induction ms as [|[s0 d0] ms IH]; intros c Hsep; [by intros ?%elem_of_nil|]. rewrite moved_cons.
  assert (Hsep' : separate ms) by (eapply separate_sub; [|exact Hsep]; by apply sublist_cons). destruct Hsep as [S1 S2 S3 S4]. cbn in *.
  apply NoDup_cons in S1 as [N1 _], S2 as [N2 _]. intros [E|Hin]%elem_of_cons.
  - injection E as -> ->. rewrite !moved_other; try done.
    + unfold move_one. cbn. rewrite decide_True by done. split; [done|]. rewrite decide_False; [by rewrite decide_True|]. apply S3; set_solver.
    + intros Hx. apply (S3 s0 s0); set_solver.
    + intros Hx. apply (S3 d0 d0); set_solver.
  - destruct (IH (move_one (s0, d0) c) Hsep' Hin) as [E1 E2]. split; [|done]. rewrite E1. unfold move_one. cbn.
    assert (s ∈ ms.*1) by (apply list_elem_of_fmap; by exists (s, d)).
    rewrite !decide_False; [done| |]; [intros ->; done|apply S3; set_solver].
Qed.

(** ** One file *)
Lemma contents_mkdir os dir os' p : fs_MkdirAll os dir = Some os' -> contents os' p = contents os p.
Proof. intros E. unfold contents. by destruct (mkdir_node _ _ _ p E) as [->|(-> & -> & _)]. Qed.
Lemma file_node os s c : contents os s = Some c -> node_at os s = Some (NFile c).
Proof. unfold contents. destruct (node_at os s) as [[]|]; cbn; [by intros [= ->]|done..]. Qed.

(** A source is a file, or nothing is there. *)
Definition source_ok (os : OS) (s : bytes) : Prop := is_Some (contents os s) \/ node_at os s = None.

(** A file that is moved is moved whole; one that is not is still there. *)
Lemma move_file_spec s d (os : OS) : s <> d -> source_ok os s ->
  (exists os', moveFile s d os = (Ok (), os') /\ is_Some (contents os s) /\ (forall p, contents os' p = move_one (s, d) (contents os) p) /\
    forall p, p <> d -> node_at os p = None -> node_at os' p = None) \/
  (exists e os', moveFile s d os = (Err e, os') /\ forall p, p <> d -> contents os' p = contents os p).
Proof.
  intros Hne Hs. unfold moveFile, move_one. destruct (fs_Rename os s d) as [os'|] eqn:E.
  - left. exists os'. split; [done|]. destruct Hs as [[c Hc]|Hn]; [|by rewrite rename_absent in E]. pose proof (file_node _ _ _ Hc) as Hf.
    split; [by eexists|]. split; [|intros p Hp Hn; rewrite (rename_node _ _ _ _ _ p Hf E); rewrite decide_False by done; by destruct (decide (p = s))].
    intros p. cbn. rewrite Hc. unfold contents. rewrite (rename_node _ _ _ _ _ p Hf E). by destruct (decide (p = d)), (decide (p = s)).
  - unfold copyFile. destruct (fs_Open os s) as [[content mode]|] eqn:Eo; [|right; by do 2 eexists]. apply open_node in Eo.
    destruct (fs_Create os d mode) as [os1|] eqn:Ec; [|right; by do 2 eexists]. destruct (fs_Write os1 d content) as [[] os2] eqn:Ew; cycle 1.
    { right. do 2 eexists. split; [done|]. intros p Hp. unfold contents. rewrite (write_partly _ _ _ _ p Ew), (create_node _ _ _ _ p Ec) by done.
      by rewrite decide_False. }
    assert (H2 : forall p, node_at os2 p = if decide (p = d) then Some (NFile content) else node_at os p).
    { intros p. rewrite (write_node _ _ _ _ p Ew), (create_node _ _ _ _ p Ec). by destruct (decide (p = d)). }
    destruct (fs_Remove os2 s) as [os3|] eqn:Er.
    + left. exists os3. split; [done|]. assert (Hc : contents os s = Some content) by (unfold contents; by rewrite Eo). split; [by eexists|].
      assert (H3 : forall p, node_at os3 p = if decide (p = d) then Some (NFile content) else if decide (p = s) then None else node_at os p).
      { intros p. rewrite (remove_node _ _ _ p Er), H2. destruct (decide (p = s)) as [->|]; [by rewrite decide_False|done]. }
      split; [|intros p Hp Hn; rewrite H3; rewrite decide_False by done; by destruct (decide (p = s))]. intros p. cbn. rewrite Hc. unfold contents. rewrite H3.
      by destruct (decide (p = d)), (decide (p = s)).
    + right. do 2 eexists. split; [done|]. intros p Hp. unfold contents. destruct (fs_Remove os2 d) as [os3|] eqn:Ed; cbn.
      * rewrite (remove_node _ _ _ p Ed), H2. by rewrite !decide_False.
      * rewrite H2. by rewrite decide_False.
Qed.

(** ** Moving back *)
Lemma separate_cons s d ms : separate ((s, d) :: ms) ->
  separate ms /\ (s ∉ ms.*1) /\ (d ∉ ms.*2) /\ (s ∉ ms.*2) /\ (d ∉ ms.*1) /\ s <> d.
Proof.
  intros Hsep. split; [eapply separate_sub; [by apply sublist_cons|exact Hsep]|]. destruct Hsep as [S1 S2 S3 S4]. cbn in *.
  apply NoDup_cons in S1 as [N1 _], S2 as [N2 _]. split; [done|]. split; [done|]. split; [|split].
  - intros Hx. apply (S3 s s); set_solver.
  - intros Hx. apply (S3 d d); set_solver.
  - apply S3; set_solver.
Qed.
Lemma in_pair (ms : list (bytes * bytes)) s d : (s, d) ∈ ms -> s ∈ ms.*1 /\ d ∈ ms.*2.
Proof. intros Hin. split; [by apply (list_elem_of_fmap_2 fst) in Hin|by apply (list_elem_of_fmap_2 snd) in Hin]. Qed.

(** Every rename of the rollback succeeds. *)
Fixpoint renames_back (ms : list (bytes * bytes)) (os : OS) : Prop :=
  match ms with [] => True | (s, d) :: ms' => renames_back ms' os /\ is_Some (fs_Rename (rollbackMoves ms' os) d s) end.

(** The rollback, with anything at [x], leaves each file at its destination or
    puts it back, and puts all back if every rename succeeds. *)
Lemma rollback_spec ms : forall c (os : OS) x, separate ms -> x ∉ ms.*1 -> x ∉ ms.*2 -> (forall p, p <> x -> contents os p = moved ms c p) ->
  (forall s, s ∈ ms.*1 -> is_Some (c s)) ->
  let os' := rollbackMoves ms os in
  (forall s d, (s, d) ∈ ms -> (contents os' s = c s /\ contents os' d = None) \/ (contents os' s = None /\ contents os' d = c s)) /\
  (forall p, p ∉ ms.*1 -> p ∉ ms.*2 -> p <> x -> contents os' p = c p) /\
  (renames_back ms os -> forall s d, (s, d) ∈ ms -> contents os' s = c s /\ contents os' d = None).
Proof.
  induction ms as [|[s d] ms IH]; intros c os x Hsep Hx1 Hx2 Hc Hp; cbv zeta; cbn [rollbackMoves].
  { split; [by intros s d ?%elem_of_nil|]. split; [intros p _ _; apply Hc|by intros _ s d ?%elem_of_nil]. }
  destruct (separate_cons s d ms Hsep) as (Hsep' & N1 & N2 & N3 & N4 & Hne). cbn in Hx1, Hx2. apply not_elem_of_cons in Hx1 as [X1 Hx1], Hx2 as [X2 Hx2].
  set (c' := move_one (s, d) c). assert (Hc' : forall p, p <> s -> p <> d -> c' p = c p) by (intros p ? ?; unfold c', move_one; cbn; by rewrite !decide_False).
  assert (Hin : forall s0 d0, (s0, d0) ∈ ms -> s0 <> s /\ s0 <> d /\ d0 <> s /\ d0 <> d).
  { intros s0 d0 [H1 H2]%in_pair. repeat split; intros ->; done. }
  destruct (IH c' os x Hsep' Hx1 Hx2) as (R1 & R2 & R3); [exact Hc| |].
  { intros s0 Hs0. rewrite Hc'; [apply Hp; cbn; by right|intros ->; done..]. }
  set (os1 := rollbackMoves ms os) in *.
  assert (Hd : contents os1 d = c s) by (rewrite R2 by done; unfold c', move_one; cbn; by rewrite decide_True).
  assert (Hs : contents os1 s = None) by (rewrite R2 by done; unfold c', move_one; cbn; by rewrite decide_False, decide_True).
  destruct (Hp s) as [v Hv]; [cbn; by left|].
  destruct (fs_Rename os1 d s) as [os2|] eqn:E; cbn [from_option id].
  - assert (H2 : forall p, contents os2 p = if decide (p = s) then Some v else if decide (p = d) then None else contents os1 p).
    { intros p. unfold contents at 1. rewrite (rename_node os1 d s os2 v p) by (done || (apply file_node; congruence)).
      by destruct (decide (p = s)), (decide (p = d)). }
    assert (Hhead : contents os2 s = c s /\ contents os2 d = None) by (rewrite !H2; rewrite decide_True, Hv, decide_False, decide_True by done; done).
    assert (Hsame : forall s0 d0, (s0, d0) ∈ ms -> contents os2 s0 = contents os1 s0 /\ contents os2 d0 = contents os1 d0 /\ c' s0 = c s0).
    { intros s0 d0 Hi. destruct (Hin _ _ Hi) as (? & ? & ? & ?). rewrite !H2, !decide_False by done. split; [done|]. split; [done|]. by apply Hc'. }
    split; [|split].
    + intros s0 d0 [[= -> ->]|Hi]%elem_of_cons; [by left|]. destruct (Hsame _ _ Hi) as (-> & -> & <-). by apply R1.
    + intros p [P1 P2]%not_elem_of_cons [P3 P4]%not_elem_of_cons Hpx. rewrite H2, !decide_False, R2 by done. by apply Hc'.
    + intros [Hb _] s0 d0 [[= -> ->]|Hi]%elem_of_cons; [done|]. destruct (Hsame _ _ Hi) as (-> & -> & <-). by apply R3.
  - split; [|split].
    + intros s0 d0 [[= -> ->]|Hi]%elem_of_cons; [by right|]. destruct (Hin _ _ Hi) as (? & ? & _). rewrite <- (Hc' s0) by done. by apply R1.
    + intros p [P1 P2]%not_elem_of_cons [P3 P4]%not_elem_of_cons Hpx. rewrite R2 by done. by apply Hc'.
    + intros [_ Hb]. fold os1 in Hb. rewrite E in Hb. by destruct Hb.
Qed.

(** ** The loop *)

(** [ms] are moved, [paths] are to come. *)
Record moving (ms paths : list (bytes * bytes)) (c : bytes -> option bytes) (os : OS) : Prop := {
  mv_sep : separate (ms ++ paths);
  mv_contents p : contents os p = moved ms c p;
  mv_moved s : s ∈ ms.*1 -> is_Some (c s);
  mv_sources s : s ∈ paths.*1 -> is_Some (c s) \/ node_at os s = None
}.
(** Where the files are after an error, [ms1] being those that had been moved. *)
Record kept_whole (ms ms1 : list (bytes * bytes)) (c : bytes -> option bytes) (os' : OS) : Prop := {
  kw_files s d : (s, d) ∈ ms -> contents os' s = c s \/ ((s, d) ∈ ms1 /\ contents os' s = None /\ contents os' d = c s);
  kw_rest p : p ∉ ms.*1 -> p ∉ ms.*2 -> contents os' p = c p
}.
Definition failed (ms : list (bytes * bytes)) (c : bytes -> option bytes) (os' : OS) : Prop :=
  exists ms1 os1, ms1 `prefix_of` ms /\ os' = rollbackMoves ms1 os1 /\ kept_whole ms ms1 c os' /\
    (renames_back ms1 os1 -> forall s, s ∈ ms.*1 -> contents os' s = c s).

Lemma moving_apart ms s d paths c os : moving ms ((s, d) :: paths) c os ->
  s <> d /\ (s ∉ ms.*1) /\ (s ∉ ms.*2) /\ (d ∉ ms.*1) /\ (d ∉ ms.*2) /\ contents os s = c s.
Proof.
  intros [M1 M3 _ _]. destruct M1 as [S1 S2 S3 S4]. rewrite !fmap_app in *. cbn in *. apply NoDup_app in S1 as (_ & N1 & _), S2 as (_ & N2 & _).
  assert (A1 : s ∉ ms.*1) by (intros Hx; apply (N1 s Hx); set_solver). assert (A4 : d ∉ ms.*2) by (intros Hx; apply (N2 d Hx); set_solver).
  assert (A2 : s ∉ ms.*2) by (intros Hx; apply (S3 s s); set_solver). assert (A3 : d ∉ ms.*1) by (intros Hx; apply (S3 d d); set_solver).
  split; [apply S3; set_solver|]. do 4 (split; [done|]). rewrite M3. by apply moved_other.
Qed.
Lemma moving_mkdir ms paths c os os1 dir : moving ms paths c os -> (forall s, s ∈ paths.*1 -> ~ s `prefix_of` dir) ->
  fs_MkdirAll os dir = Some os1 -> moving ms paths c os1.
Proof.
  intros [M1 M3 M4 M5] Hd E. split; try done.
  - intros p. by rewrite (contents_mkdir os dir os1).
  - intros s Hs. destruct (M5 s Hs) as [?|Hn]; [by left|]. right. destruct (mkdir_node _ _ _ s E) as [->|(_ & _ & Hp)]; [done|]. by destruct (Hd s Hs).
Qed.
Lemma moving_fails ms s d paths c os os1 : moving ms ((s, d) :: paths) c os -> (forall p, p <> d -> contents os1 p = contents os p) ->
  failed (ms ++ (s, d) :: paths) c (rollbackMoves ms os1).
Proof.
  intros HM Ho. destruct (moving_apart _ _ _ _ _ _ HM) as (A0 & A1 & A2 & A3 & A4 & _). destruct HM as [M1 M3 M4 M5].
  destruct (rollback_spec ms c os1 d) as (R1 & R2 & R3); [eapply separate_sub; [|exact M1]; by apply sublist_inserts_r|done|done| |done|].
  { intros p Hp. by rewrite Ho. }
  cbv zeta in *. pose proof M1 as [S1 S2 S3 S4].
  assert (Hlater : forall s0 d0, (s0, d0) ∈ (s, d) :: paths -> contents (rollbackMoves ms os1) s0 = c s0).
  { intros s0 d0 [H1 H2]%in_pair. apply R2.
    - rewrite fmap_app in S1. apply NoDup_app in S1 as (_ & N & _). intros Hx. by apply (N s0).
    - intros Hx. apply (S3 s0 s0); rewrite ?fmap_app; set_solver.
    - apply S3; rewrite fmap_app; set_solver. }
  exists ms, os1. split; [by eexists|]. split; [done|]. split; [split|].
  - intros s0 d0 [Hin|Hin]%elem_of_app; [|left; by eapply Hlater]. destruct (R1 _ _ Hin) as [[? ?]|[? ?]]; [by left|by right].
  - intros p. rewrite !fmap_app, !not_elem_of_app. cbn. rewrite !not_elem_of_cons. intros (P1 & _ & _) (P2 & P3 & _). by apply R2.
  - intros Hb s0 Hs0. apply list_elem_of_fmap in Hs0 as ([s1 d1] & -> & [Hin|Hin]%elem_of_app); cbn; [by apply (R3 Hb _ d1)|by eapply Hlater].
Qed.
Lemma moving_step ms s d paths c os os1 : moving ms ((s, d) :: paths) c os -> is_Some (contents os s) ->
  (forall p, contents os1 p = move_one (s, d) (contents os) p) -> (forall p, p <> d -> node_at os p = None -> node_at os1 p = None) ->
  moving (ms ++ [(s, d)]) paths c os1.
Proof.
  intros HM Hs Hm Hn. destruct (moving_apart _ _ _ _ _ _ HM) as (A0 & A1 & A2 & A3 & A4 & Hcs). destruct HM as [M1 M3 M4 M5]. split.
  - by rewrite <- app_assoc.
  - intros p. rewrite Hm, moved_snoc. unfold move_one. cbn. by rewrite !M3.
  - intros x. rewrite fmap_app. cbn. intros [Hx|Hx]%elem_of_app; [by apply M4|]. apply list_elem_of_singleton in Hx as ->. by rewrite <- Hcs.
  - intros x Hx. destruct (M5 x) as [?|Hnx]; [cbn; by right|by left|]. right. apply Hn; [|done]. apply (sep_disjoint _ M1); rewrite fmap_app; cbn; set_solver.
Qed.
Lemma in_second (ms : list (bytes * bytes)) s d paths : d ∈ (ms ++ (s, d) :: paths).*2.
Proof. rewrite fmap_app. cbn. set_solver. Qed.
Lemma moving_dirs ms s d paths c os x : moving ms ((s, d) :: paths) c os -> x ∈ ((s, d) :: paths).*1 -> ~ x `prefix_of` Dir d.
Proof. intros HM Hx. apply (sep_dirs _ (mv_sep _ _ _ _ HM)); [rewrite fmap_app; set_solver|apply in_second]. Qed.

Lemma move_all_spec paths : forall ms c os, moving ms paths c os ->
  (exists os', move_all paths ms os = (Ok (), os') /\ forall p, contents os' p = moved (ms ++ paths) c p) \/
  (exists e os', move_all paths ms os = (Err e, os') /\ failed (ms ++ paths) c os').
Proof.
  induction paths as [|[s d] paths IH]; intros ms c os HM; cbn [move_all].
  { left. exists os. split; [done|]. rewrite app_nil_r. apply HM. }
  destruct (fs_MkdirAll os (Dir d)) as [os1|] eqn:Em; [|right; do 2 eexists; split; [done|]; by eapply moving_fails].
  apply (moving_mkdir _ _ _ _ _ _ HM) in Em; [|intros x Hx; by eapply moving_dirs].
  destruct (moving_apart _ _ _ _ _ _ Em) as (A0 & _ & _ & _ & _ & Hcs).
  destruct (move_file_spec s d os1) as [(os2 & -> & Hs & Hm & Hn)|(e & os2 & -> & Ho)]; [done| | |].
  - unfold source_ok. rewrite Hcs. apply (mv_sources _ _ _ _ Em). cbn. set_solver.
  - pose proof (moving_step _ _ _ _ _ _ _ Em Hs Hm Hn) as HM2. apply IH in HM2. by rewrite <- app_assoc in HM2.
  - right. do 2 eexists. split; [done|]. by eapply moving_fails.
Qed.

(** ** When every call works *)

(** In any state that differs only at the paths to move, directories can be
    made and files read, written and removed; a rename may still fail. *)
Definition calls_work (ms : list (bytes * bytes)) (dirs : list bytes) (os0 : OS) : Prop :=
  forall os, (forall p, p ∉ ms.*1 -> p ∉ ms.*2 -> contents os p = contents os0 p) ->
    (forall dir, dir ∈ dirs -> is_Some (fs_MkdirAll os dir)) /\
    (forall s, s ∈ ms.*1 -> is_Some (contents os s) -> is_Some (fs_Open os s) /\ is_Some (fs_Remove os s)) /\
    (forall d mode, d ∈ ms.*2 -> is_Some (fs_Create os d mode)) /\ (forall d c, d ∈ ms.*2 -> (fs_Write os d c).1 = true).

Lemma move_file_works ms dirs os0 s d (os : OS) : calls_work ms dirs os0 -> s ∈ ms.*1 -> d ∈ ms.*2 -> s <> d ->
  (forall p, p ∉ ms.*1 -> p ∉ ms.*2 -> contents os p = contents os0 p) -> is_Some (contents os s) -> exists os', moveFile s d os = (Ok (), os').
Proof.
  intros Hw Hs Hd Hne Ho Hc. unfold moveFile. destruct (fs_Rename os s d) as [os'|]; [by eexists|]. unfold copyFile.
  destruct (Hw os Ho) as (_ & W2 & W3 & _). destruct (W2 s Hs Hc) as [[[content mode] Eo] _]. rewrite Eo. apply open_node in Eo.
  destruct (W3 d mode Hd) as [os1 Ec]. rewrite Ec. assert (H1 : forall p, p <> d -> contents os1 p = contents os p)
    by (intros p Hp; unfold contents; rewrite (create_node _ _ _ _ p Ec); by rewrite decide_False).
  assert (Ho1 : forall p, p ∉ ms.*1 -> p ∉ ms.*2 -> contents os1 p = contents os0 p) by (intros p H2 H3; rewrite H1; [by apply Ho|intros ->; done]).
  destruct (Hw os1 Ho1) as (_ & _ & _ & W4). pose proof (W4 d content Hd) as Ew. destruct (fs_Write os1 d content) as [b os2] eqn:E2. cbn in Ew. subst b.
  assert (H2 : forall p, p <> d -> contents os2 p = contents os p)
    by (intros p Hp; rewrite <- H1 by done; unfold contents; rewrite (write_node _ _ _ _ p E2); by rewrite decide_False).
  assert (Ho2 : forall p, p ∉ ms.*1 -> p ∉ ms.*2 -> contents os2 p = contents os0 p) by (intros p H3 H4; rewrite H2; [by apply Ho|intros ->; done]).
  destruct (Hw os2 Ho2) as (_ & W5 & _). destruct (W5 s Hs) as [_ [os3 ->]]; [by rewrite H2|]. by eexists.
Qed.
Lemma move_all_works paths : forall ms dirs c os0 os, calls_work (ms ++ paths) dirs os0 -> (forall p, contents os0 p = c p) -> moving ms paths c os ->
  (forall s, s ∈ paths.*1 -> is_Some (c s)) -> (forall d, d ∈ paths.*2 -> Dir d ∈ dirs) -> (move_all paths ms os).1 = Ok ().
Proof.
  induction paths as [|[s d] paths IH]; intros ms dirs c os0 os Hw Hz HM Hs Hd; [done|]. cbn [move_all].
  assert (Ho : forall os, moving ms ((s, d) :: paths) c os -> forall p, p ∉ (ms ++ (s, d) :: paths).*1 -> p ∉ (ms ++ (s, d) :: paths).*2 -> contents os p = contents os0 p).
  { intros o [_ M3 _ _] p. rewrite !fmap_app, !not_elem_of_app. intros [? _] [? _]. rewrite M3, Hz. by apply moved_other. }
  destruct (Hw os (Ho os HM)) as (W1 & _). destruct (W1 (Dir d)) as [os1 Em]; [apply Hd; cbn; set_solver|]. rewrite Em.
  apply (moving_mkdir _ _ _ _ _ _ HM) in Em; [|intros x Hx; by eapply moving_dirs].
  destruct (moving_apart _ _ _ _ _ _ Em) as (A0 & _ & _ & _ & _ & Hcs).
  assert (Hpres : is_Some (contents os1 s)) by (rewrite Hcs; apply Hs; cbn; set_solver).
  destruct (move_file_works (ms ++ (s, d) :: paths) dirs os0 s d os1 Hw) as [os2 E2];
    [rewrite fmap_app; set_solver|apply in_second|done|by apply Ho|done|]. rewrite E2.
  destruct (move_file_spec s d os1) as [(os2' & E2' & _ & Hm & Hn)|(e & os2' & E2' & _)]; [done|by left| |congruence].
  rewrite E2 in E2'. injection E2' as <-. pose proof (moving_step _ _ _ _ _ _ _ Em Hpres Hm Hn) as HM2.
  eapply (IH _ dirs c os0); [by rewrite <- app_assoc|done|done|intros x Hx; apply Hs; cbn; set_solver|intros x Hx; apply Hd; cbn; set_solver].
Qed.

(** ** Claims *)

(** The paths of the files, from and to. *)
Definition start_moving (info : Info) (sourceDir destDir : bytes) (preserve : bool) : list (bytes * bytes) :=
  if IsDir info then map (move_paths info sourceDir destDir preserve) (i_Files info) else [(Join [sourceDir; i_Name info], Join [destDir; i_Name info])].

Lemma validated fm sourceDir destDir n (os : OS) :
  (exists os1, fs_MkdirAll os destDir = Some os1 /\ validateMoveDirectories fm sourceDir destDir n os = (Ok (), os1)) \/
  (exists e os1, validateMoveDirectories fm sourceDir destDir n os = (Err e, os1) /\ forall p, contents os1 p = contents os p).
Proof.
  unfold validateMoveDirectories. destruct (fs_Exists os sourceDir); cbn; [|right; eauto].
  destruct (fs_MkdirAll os destDir) as [os1|] eqn:E; [|right; eauto]. unfold CheckDiskSpace.
  destruct (fs_Statfs os1 destDir) as [[[b a] z]|]; [destruct (decide _); [|left; eauto]|]; right; do 2 eexists; (split; [done|]); intros p; by eapply contents_mkdir.
Qed.
Lemma nothing_moved ms c (os : OS) : (forall p, contents os p = c p) -> failed ms c os.
Proof. intros Ho. exists [], os. split; [apply prefix_nil|]. split; [done|]. split; [split; auto|done]. Qed.

(** The move of all files, once the directories are there. *)
Definition move_torrent (info : Info) (sourceDir destDir : bytes) (preserve : bool) (os : OS) : res () * OS :=
  if IsDir info then processMultiFileTorrent info sourceDir destDir preserve os else processSingleFileTorrent info sourceDir destDir os.
Lemma move_torrent_spec info sourceDir destDir preserve c (os : OS) :
  let ms := start_moving info sourceDir destDir preserve in moving [] ms c os ->
  (exists os', move_torrent info sourceDir destDir preserve os = (Ok (), os') /\ forall p, contents os' p = moved ms c p) \/
  (exists e os', move_torrent info sourceDir destDir preserve os = (Err e, os') /\ failed ms c os').
Proof.
  cbv zeta. unfold move_torrent, start_moving. destruct (IsDir info); [apply (move_all_spec _ [])|]. intros HM. unfold processSingleFileTorrent.
  destruct (moving_apart _ _ _ _ _ _ HM) as (A0 & _ & _ & _ & _ & Hcs).
  destruct (move_file_spec (Join [sourceDir; i_Name info]) (Join [destDir; i_Name info]) os) as [(os2 & -> & Hs & Hm & Hn)|(e & os2 & -> & Ho)]; [done| | |].
  - unfold source_ok. rewrite Hcs. apply (mv_sources _ _ _ _ HM). cbn. set_solver.
  - left. exists os2. split; [done|]. intros p. rewrite Hm. unfold moved, move_one. cbn. by rewrite !(mv_contents _ _ _ _ HM).
  - right. do 2 eexists. split; [done|]. apply (moving_fails [] _ _ [] c os os2 HM Ho).
Qed.
Lemma move_torrent_works info sourceDir destDir preserve dirs (os0 os : OS) :
  let ms := start_moving info sourceDir destDir preserve in
  calls_work ms dirs os0 -> moving [] ms (contents os0) os -> (forall s, s ∈ ms.*1 -> is_Some (contents os0 s)) -> (forall d, d ∈ ms.*2 -> Dir d ∈ dirs) ->
  (move_torrent info sourceDir destDir preserve os).1 = Ok ().
Proof.
  cbv zeta. unfold move_torrent, start_moving. destruct (IsDir info); intros Hw HM Hs Hd; [by apply (move_all_works _ [] dirs (contents os0) os0)|].
  destruct (moving_apart _ _ _ _ _ _ HM) as (A0 & _ & _ & _ & _ & Hcs). unfold processSingleFileTorrent.
  destruct (move_file_works _ dirs os0 (Join [sourceDir; i_Name info]) (Join [destDir; i_Name info]) os Hw) as [os2 ->]; [cbn; set_solver..|done| | |done].
  - intros p _ _. apply (mv_contents _ _ _ _ HM).
  - rewrite Hcs. apply Hs. cbn. set_solver.
Qed.

End Moves.

(** ** Witnesses *)

(** Files by their path, on a disk with given directories; a rename between two
    devices fails. *)
Section Demo.
Context (dirs : list bytes) (device : bytes -> bool).
Definition d_node (os : gmap bytes bytes) (p : bytes) : option node := if decide (p ∈ dirs) then Some NDir else NFile <$> os !! p.
Definition d_file (os : gmap bytes bytes) (p : bytes) : option bytes := if decide (p ∈ dirs) then None else os !! p.
#[local] Instance disk_ops : Disk (gmap bytes bytes) := {
  fs_Exists os p := bool_decide (is_Some (d_node os p));
  fs_MkdirAll os dir := if decide (dir ∈ dirs) then Some os else None;
  fs_Rename os s d :=
    match d_file os s with
    | Some c => if decide (device s = device d /\ d ∉ dirs) then Some (<[d := c]> (delete s os)) else None
    | None => None
    end;
  fs_Open os p := match d_file os p with Some c => Some (c, 0) | None => None end;
  fs_Create os p mode := if decide (p ∈ dirs) then None else Some (<[p := []]> os);
  fs_Write os p c := if decide (p ∈ dirs) then (false, os) else (true, <[p := c]> os);
  fs_Remove os p := match d_file os p with Some _ => Some (delete p os) | None => None end;
  fs_Statfs os p := Some (100000, 50000, 4096)
}.
Lemma d_file_node os p c : d_file os p = Some c <-> d_node os p = Some (NFile c).
Proof. unfold d_file, d_node. destruct (decide (p ∈ dirs)); [done|]. destruct (os !! p); cbn; naive_solver. Qed.
Lemma d_file_none os p : d_node os p = None -> d_file os p = None.
Proof. unfold d_file, d_node. destruct (decide (p ∈ dirs)); [done|]. by destruct (os !! p). Qed.
Lemma d_put os d c p : (d ∉ dirs) -> d_node (<[d := c]> os) p = if decide (p = d) then Some (NFile c) else d_node os p.
Proof.
  intros Hd. unfold d_node. destruct (decide (p = d)) as [->|Hp]; [by rewrite decide_False, lookup_insert_eq|by rewrite lookup_insert_ne].
Qed.
Lemma d_drop os s p : (s ∉ dirs) -> d_node (delete s os) p = if decide (p = s) then None else d_node os p.
Proof.
  intros Hd. unfold d_node. destruct (decide (p = s)) as [->|Hp]; [by rewrite decide_False, lookup_delete_eq|by rewrite lookup_delete_ne].
Qed.
Lemma d_file_apart os p : is_Some (d_file os p) -> p ∉ dirs.
Proof. unfold d_file. destruct (decide (p ∈ dirs)); [by intros []|done]. Qed.

#[local] Instance disk_laws : DiskLaws (gmap bytes bytes).
Proof.
  refine (Build_DiskLaws _ _ d_node _ _ _ _ _ _ _ _ _); cbn.
  - done.
  - intros os dir os' p. destruct (decide (dir ∈ dirs)); [intros [= ->]; by left|done].
  - intros os s d E%d_file_none. by rewrite E.
  - intros os s d os' c p Hs%d_file_node. rewrite Hs. destruct (decide _) as [[_ Hd]|]; [|done]. intros [= <-]. rewrite d_put by done.
    by rewrite d_drop by (apply (d_file_apart os); by eexists).
  - intros os s c mode. destruct (d_file os s) eqn:E; [|done]. intros [= -> _]. by apply d_file_node.
  - intros os d mode os' p. destruct (decide (d ∈ dirs)); [done|]. intros [= <-]. by apply d_put.
  - intros os d c os' p. destruct (decide (d ∈ dirs)); [done|]. intros [= <-]. by apply d_put.
  - intros os d c os' p. by destruct (decide (d ∈ dirs)); intros [= <-].
  - intros os s os' p. destruct (d_file os s) eqn:E; [|done]. intros [= <-]. apply d_drop. apply (d_file_apart os). by eexists.
Defined.
End Demo.

Definition demo_dirs : list bytes := map bs ["/old"; "/old/t"; "/new"; "/new/t"]%string.
Definition two_devices (p : bytes) : bool := bool_decide (take 4 p = bs "/old").
Definition demo_move : Info := MkInfo (bs "t") 4 [] 0 [MkFile 2 [bs "a"]; MkFile 3 [bs "b"]].
Definition demo_moved_disk : gmap bytes bytes := <[bs "/old/t/a" := [1; 2]]> (<[bs "/old/t/b" := [3; 4; 5]]> ∅).

Lemma all_pairs {A} (P : A -> A -> Prop) `{forall x y, Decision (P x y)} l k :
  bool_decide (Forall (fun x => Forall (P x) k) l) = true -> forall x y, x ∈ l -> y ∈ k -> P x y.
Proof. rewrite bool_decide_eq_true, Forall_forall. intros Hl x y Hx Hy. specialize (Hl x Hx). rewrite Forall_forall in Hl. auto. Qed.
Lemma all_in {A} (P : A -> Prop) `{forall x, Decision (P x)} l : bool_decide (Forall P l) = true -> forall x, x ∈ l -> P x.
Proof. by rewrite bool_decide_eq_true, Forall_forall. Qed.


(** Between two devices the files that were copied stay where they are when a
    later one cannot be moved: the rollback renames, and ignores that this fails. *)
Example copied_files_stay :
  let os : gmap bytes bytes := <[bs "/old/t/a" := [1; 2]]> ∅ in
  let '(r, os') := MoveFiles (H := disk_ops demo_dirs two_devices) NewFileManager demo_move (bs "/old") (bs "/new") true os in
  r = Err "failed to open source" /\ os' !! bs "/new/t/a" = Some [1; 2] /\ os' !! bs "/old/t/a" = None.
Proof. vm_compute. repeat split. Qed.
(** A file that is at the destination already is overwritten, and not restored. *)
Example overwritten_files_lost :
  let os : gmap bytes bytes := <[bs "/old/t/a" := [1; 2]]> (<[bs "/new/t/a" := [7]]> ∅) in
  let '(r, os') := MoveFiles (H := disk_ops demo_dirs (fun _ => true)) NewFileManager demo_move (bs "/old") (bs "/new") true os in
  r = Err "failed to open source" /\ os' !! bs "/new/t/a" = None /\ os' !! bs "/old/t/a" = Some [1; 2].
Proof. vm_compute. repeat split. Qed.
End FileFacts.
