(* ===== verification/InfoBuild.v ===== *)
(** * Making the info of a torrent from files

    Models [NewInfoFromFilePath] and [getAllInfoFiles] of [src/metainfo/info.go]
    over a tree of directories: what [filepath.Walk] visits, in its order, and
    what [os.Open] finds. The tree is looked at twice, when the files are listed
    and when they are read, and may have changed in between. Names hold no
    slash, so a path relative to the root splits into the names it is made of;
    links are not modelled.

    The properties: every file outside of [.git] is listed once, in the order
    of the paths, and hashed as a whole. *)

From S2P Require Import Prelude Sha1 Hash Metainfo MetainfoFacts FileManager.
Import Metainfo MetainfoFacts.

Module InfoBuild.

(** The entries of a directory are in the order of their names; [TBad] is an
    entry [Walk] reports with an error. *)
Inductive tree := TFile (data : bytes) | TDir (entries : list (bytes * tree)) | TBad (err : string).

(** The callback of [getAllInfoFiles] on everything below [paths]. *)
Fixpoint walk (paths : list bytes) (t : tree) : res (list File) :=
  match t with
  | TBad err => Err err
  | TFile data => Ok (if decide (bs ".git" ∈ paths) then [] else [MkFile (len data) paths])
  | TDir entries =>
      (fix visit (es : list (bytes * tree)) : res (list File) :=
         match es with
         | [] => Ok []
         | (name, t') :: es' => files ← walk (paths ++ [name]) t'; files' ← visit es'; Ok (files ++ files')
         end) entries
  end.

Definition getAllInfoFiles (root : tree) : res (list File) :=
  files ← walk [] root; if decide (files = []) then Err "no files in the directory" else Ok files.

(** What [os.Open] finds below the root. *)
Fixpoint descend (paths : list bytes) (t : tree) : option tree :=
  match paths with
  | [] => Some t
  | name :: paths' =>
      match t with
      | TDir entries => match list_find (fun e => e.1 = name) entries with Some (_, (_, t')) => descend paths' t' | None => None end
      | _ => None
      end
  end.

(** A directory can be opened and delivers nothing. *)
Definition open (root : option tree) (file : File) : res bytes :=
  match root ≫= descend (f_Paths file) with
  | Some (TFile data) => Ok data
  | Some (TDir _) => Ok []
  | _ => Err "no such file or directory"
  end.

Definition file_le (f g : File) : Prop := bytes_le (File_String f) (File_String g).
#[global] Instance file_le_dec f g : Decision (file_le f g).
Proof. unfold file_le. apply _. Defined.
#[global] Instance file_le_trans : Transitive file_le.
Proof. intros f g h. unfold file_le. apply transitivity. Qed.
#[global] Instance file_le_total : Total file_le.
Proof. intros f g. apply bytes_le_total. Qed.

(** [seen] is what [os.Stat] and [Walk] see at the root, [opened] what is there
    when the files are read. *)
Definition NewInfoFromFilePath (root : bytes) (pieceLength : Z) (seen opened : option tree) : res Info :=
  let root := Clean root in
  '(length, files) ← match seen with
                     | None => Err "no such file or directory"
                     | Some (TBad err) => Err err
                     | Some (TFile data) => Ok (len data, [])
                     | Some t => files ← getAllInfoFiles t; Ok (0, files)
                     end;
  let files := merge_sort file_le files in
  match GeneratePiecesFromFiles (AllFiles (MkInfo [] 0 [] length files)) pieceLength (open opened) with
  | Ok pieces => Ok (MkInfo (FileManager.Base root) pieceLength pieces length files)
  | Err e => Err ("error generating pieces: " ++ e)
  | Panic p => Panic p
  | NoFuel => NoFuel
  end%string.

(** ** What is listed *)
Lemma tree_rect' (P : tree -> Prop) :
  (forall data, P (TFile data)) -> (forall es, Forall (fun e => P e.2) es -> P (TDir es)) -> (forall err, P (TBad err)) -> forall t, P t.
Proof.
  intros Hf Hd Hb. fix IH 1. intros [data|es|err]; [apply Hf| |apply Hb]. apply Hd. induction es as [|[n t] es IHes]; [constructor|].
  constructor; [apply IH|exact IHes].
Qed.

(** Every entry can be read, and no two of a directory have the same name. *)
Fixpoint readable (t : tree) : bool :=
  match t with
  | TFile _ => true
  | TBad _ => false
  | TDir es => bool_decide (NoDup es.*1) && forallb (fun e => readable e.2) es
  end.
Definition below (t : tree) (q : list bytes) (data : bytes) : Prop := descend q t = Some (TFile data).

Lemma readable_dir es : readable (TDir es) = true <-> NoDup es.*1 /\ Forall (fun e => readable e.2 = true) es.
Proof.
  cbn [readable]. rewrite andb_true_iff, bool_decide_eq_true. apply and_iff_compat_l.
  induction es as [|e es IH]; cbn; [by split; [constructor|]|]. rewrite andb_true_iff, IH. split; [by intros []; constructor|].
  by inversion 1.
Qed.

Lemma below_dir es q data :
  NoDup es.*1 -> below (TDir es) q data <-> exists n t q', q = n :: q' /\ (n, t) ∈ es /\ below t q' data.
Proof.
  intros Hnd. unfold below. destruct q as [|n q']; cbn [descend]; [split; [done|by intros (? & ? & ? & ? & _)]|]. split.
  - destruct (list_find _ es) as [[i [m t]]|] eqn:E; [|done]. apply list_find_Some in E as (Hi & Hm & _). cbn in Hm. subst m.
    intros Hd. exists n, t, q'. split_and!; [done|by eapply list_elem_of_lookup_2|done].
  - intros (n' & t & q'' & [= <- <-] & Hin & Hd). destruct (list_find _ es) as [[i [m t']]|] eqn:E.
    + apply list_find_Some in E as (Hi & Hm & _). cbn in Hm. subst m. apply list_elem_of_lookup_2 in Hi.
      assert ((n, t') = (n, t)) as [= ->] by (by apply (nodup_keys_eq es)). done.
    + apply list_find_None in E. rewrite Forall_forall in E. by destruct (E _ Hin).
Qed.

(** What [walk] lists below [p]: the files that are there, once each. *)
Record lists (p : list bytes) (t : tree) (files : list File) : Prop := {
  li_files : forall f, f ∈ files <-> exists q data, f = MkFile (len data) (p ++ q) /\ below t q data /\ bs ".git" ∉ p ++ q;
  li_once : NoDup (f_Paths <$> files)
}.

Definition visit (p : list bytes) : list (bytes * tree) -> res (list File) :=
  fix visit es := match es with
                  | [] => Ok []
                  | (name, t') :: es' => files ← walk (p ++ [name]) t'; files' ← visit es'; Ok (files ++ files')
                  end.

Lemma visit_lists p es :
  NoDup es.*1 -> Forall (fun e => forall p, exists files, walk p e.2 = Ok files /\ lists p e.2 files) es ->
  exists files, visit p es = Ok files /\ NoDup (f_Paths <$> files) /\
    forall f, f ∈ files <-> exists n t q data, (n, t) ∈ es /\ f = MkFile (len data) (p ++ n :: q) /\ below t q data /\ bs ".git" ∉ p ++ n :: q.
Proof.
  intros Hnd Hes. revert Hnd. induction Hes as [|[n t] es Ht _ IH]; intros Hnd; cbn [visit].
  { exists []. split_and!; [done|constructor|]. intros f. split; [by intros ?%elem_of_nil|]. intros (? & ? & ? & ? & []%elem_of_nil & _). }
  cbn in Hnd. apply NoDup_cons in Hnd as [Hn Hnd]. destruct (Ht (p ++ [n])) as (fs & E & Hl). destruct (IH Hnd) as (fs' & E' & Hnd' & Hfs').
  cbn [snd] in E. rewrite E, bind_Ok, E', bind_Ok. exists (fs ++ fs'). split; [done|]. destruct Hl as [Hfs Honce]. split.
  - rewrite fmap_app. apply NoDup_app. split_and!; [done| |done]. intros x (f & -> & Hf)%list_elem_of_fmap (g & Hx & Hg)%list_elem_of_fmap.
    apply Hfs in Hf as (q & d & -> & _). apply Hfs' in Hg as (m & u & q' & d' & Hin & -> & _). cbn in Hx. rewrite <- app_assoc in Hx.
    apply app_inv_head in Hx. injection Hx as <- _. apply Hn, list_elem_of_fmap. by exists (n, u).
  - intros f. rewrite elem_of_app, Hfs, Hfs'. split.
    + intros [(q & d & -> & Hb & Hg)|(m & u & q & d & Hin & Hr)].
      * exists n, t, q, d. rewrite <- app_assoc in *. cbn [app] in *. split_and!; [by left|done|done|done].
      * exists m, u, q, d. split; [by right|done].
    + intros (m & u & q & d & [[= -> ->]|Hin]%elem_of_cons & -> & Hb & Hg).
      * left. exists q, d. rewrite <- app_assoc. by split_and!.
      * right. by exists m, u, q, d.
Qed.

Lemma walk_lists t : readable t = true -> forall p, exists files, walk p t = Ok files /\ lists p t files.
Proof.
  induction t as [data|es IH|err] using tree_rect'; intros Hr p; [| |done].
  - eexists. split; [done|]. split; [|case_decide; repeat constructor; set_solver]. intros f. unfold below. split.
    + case_decide as Hg; [by intros ?%elem_of_nil|]. intros ->%list_elem_of_singleton. exists [], data. by rewrite app_nil_r.
    + intros (q & d & -> & Hb & Hg). destruct q as [|n q]; [|done]. rewrite app_nil_r in *. injection Hb as <-.
      rewrite decide_False by done. by apply list_elem_of_singleton.
  - apply readable_dir in Hr as [Hnd Hall]. destruct (visit_lists p es Hnd) as (fs & E & Hnd' & Hfs).
    { rewrite Forall_forall in IH, Hall |- *. auto. }
    exists fs. split; [exact E|]. split; [|done]. intros f. rewrite Hfs. setoid_rewrite below_dir; [|done]. split.
    + intros (n & t & q & d & Hin & -> & Hb & Hg). exists (n :: q), d. split_and!; [done| |done]. by exists n, t, q.
    + intros (q & d & -> & (n & t & q' & -> & Hin & Hb) & Hg). by exists n, t, q', d.
Qed.

(** C33: [NewInfoFromFilePath] on a directory that can be read and does not
    change: the info has the name of the directory and lists exactly the files
    outside of [.git], once each, in the order of their paths and with their
    lengths; its pieces are the hashes of consecutive chunks of all their
    contents in that order. A directory without such a file is an error. *)
Theorem info_of_directory root pl es :
  0 < pl -> readable (TDir es) = true ->
  match NewInfoFromFilePath root pl (Some (TDir es)) (Some (TDir es)) with
  | Ok info =>
      i_Name info = FileManager.Base (Clean root) /\ i_PieceLength info = pl /\ IsDir info = true /\
      StronglySorted file_le (i_Files info) /\ NoDup (f_Paths <$> i_Files info) /\
      (forall q, q ∈ f_Paths <$> i_Files info <-> (exists data, below (TDir es) q data) /\ bs ".git" ∉ q) /\
      exists contents chunks, Forall2 (fun f data => below (TDir es) (f_Paths f) data /\ f_Length f = len data) (i_Files info) contents /\
        i_Pieces info = map Sha1.Sum chunks /\ concat chunks = concat contents /\ chunked pl chunks
  | r => r = Err "no files in the directory" /\ forall q data, below (TDir es) q data -> bs ".git" ∈ q
  end.
Proof.
  intros Hpl Hr. destruct (walk_lists _ Hr []) as (files & E & [Hfiles Honce]). cbn [app] in Hfiles. unfold NewInfoFromFilePath, getAllInfoFiles.
  rewrite E, bind_Ok. case_decide as Hne.
  { cbn. split; [done|]. intros q data Hb. apply dec_stable. intros Hg. assert (Hin : MkFile (len data) q ∈ files) by (apply Hfiles; eauto).
    rewrite Hne in Hin. by apply elem_of_nil in Hin. }
  rewrite !bind_Ok. set (sorted := merge_sort file_le files). assert (Hp : sorted ≡ₚ files) by apply merge_sort_Permutation.
  assert (Hne' : sorted <> []) by (intros Hs; rewrite Hs in Hp; by apply Permutation_nil_l in Hp).
  assert (Hfs : exists contents, Forall2 (fun f data => below (TDir es) (f_Paths f) data /\ f_Length f = len data) sorted contents).
  { apply Forall_exists_Forall2_l, Forall_forall. intros f Hf. rewrite Hp in Hf. apply Hfiles in Hf as (q & d & -> & Hb & _). by exists d. }
  destruct Hfs as [contents Hc]. destruct (pieces_hash_all_data sorted (open (Some (TDir es))) contents pl Hpl) as (chunks & Eg & Hcc & Hch).
  { eapply Forall2_impl; [exact Hc|]. intros f d [Hb Hl]. split; [|done]. unfold open, below in *. cbn [mbind option_bind]. by rewrite Hb. }
  unfold AllFiles, IsDir at 1. cbn [i_Files]. rewrite bool_decide_eq_false_2 by done. cbn [negb]. rewrite Eg. cbn [i_Name i_PieceLength i_Files i_Pieces].
  split_and!; [done|done|unfold IsDir; cbn; by rewrite bool_decide_eq_false_2|apply StronglySorted_merge_sort; apply _|by rewrite Hp| |].
  - intros q. rewrite Hp. rewrite list_elem_of_fmap. split.
    + intros (f & -> & (q' & d & -> & Hb & Hg)%Hfiles). eauto.
    + intros [[d Hb] Hg]. exists (MkFile (len d) q). split; [done|]. apply Hfiles. eauto.
  - by exists contents, chunks.
Qed.

Definition demo_tree : list (bytes * tree) :=
  [(bs ".git", TDir [(bs "HEAD", TFile (bs "ref"))]); (bs "a", TDir [(bs "x", TFile (bs "hello"))]); (bs "a.txt", TFile (bs "abc"))].
Lemma info_of_directory_witness :
  match NewInfoFromFilePath (bs "/data/t/") 4 (Some (TDir demo_tree)) (Some (TDir demo_tree)) with
  | Ok info => i_Name info = bs "t" /\ i_Files info = [MkFile 3 [bs "a.txt"]; MkFile 5 [bs "a"; bs "x"]] /\ len (i_Pieces info) = 2 /\
      NoDup (f_Paths <$> i_Files info)
  | _ => False
  end.
Proof.
  pose proof (info_of_directory (bs "/data/t/") 4 demo_tree ltac:(lia) ltac:(vm_compute; reflexivity)) as Hi.
  destruct (NewInfoFromFilePath _ _ _ _) as [info| | |] eqn:E; try (vm_compute in E; discriminate E).
  destruct Hi as (_ & _ & _ & _ & Hn & _). vm_compute in E. injection E as <-. split_and!; [reflexivity|reflexivity|reflexivity|exact Hn].
Defined.

(** A file of its own is the whole torrent. *)
Theorem info_of_file root pl data :
  0 < pl ->
  exists chunks, NewInfoFromFilePath root pl (Some (TFile data)) (Some (TFile data)) =
      Ok (MkInfo (FileManager.Base (Clean root)) pl (map Sha1.Sum chunks) (len data) []) /\
    concat chunks = data /\ chunked pl chunks.
Proof.
  intros Hpl. destruct (pieces_hash_all_data [MkFile (len data) []] (open (Some (TFile data))) [data] pl Hpl) as (chunks & E & Hc & Hch).
  { by repeat constructor. }
  cbn [concat] in Hc. rewrite app_nil_r in Hc. exists chunks. split; [|done]. unfold NewInfoFromFilePath. rewrite bind_Ok.
  change (merge_sort file_le []) with (@nil File). change (AllFiles (MkInfo [] 0 [] (len data) [])) with [MkFile (len data) []]. by rewrite E.
Qed.

(** A file that got shorter between the listing and the reading fails the
    whole info. *)
Example truncated_file_fails :
  NewInfoFromFilePath (bs "t") 4 (Some (TFile (bs "hello"))) (Some (TFile (bs "he"))) = Err "error generating pieces: error copying".
Proof. vm_compute. reflexivity. Qed.

(** The files are ordered by their joined paths, where the separator counts as
    a character: [a.txt] comes before [a/x], though the directory [a] comes
    before [a.txt]. *)
Example order_of_joined_paths : file_le (MkFile 0 [bs "a.txt"]) (MkFile 0 [bs "a"; bs "x"]) /\ bytes_le (bs "a") (bs "a.txt").
Proof. split; apply (bool_decide_unpack _); vm_compute; exact I. Qed.
End InfoBuild.
