(* ===== verification/TorrentManager.v ===== *)
(** * The torrent manager of the daemon

    Models [src/rpc/torrent_manager.go]: the torrents the daemon knows, adding,
    starting, stopping, verifying and removing them, the answers of the DHT, the
    downloader and peer exchange, the statistics, and the session configuration
    with what it changes in the other components.

    A torrent is a pointer that the map of torrents, goroutines and callers
    share: [tm_heap] holds the states ever created, the map has their places.
    A goroutine started is a pending [task]; [run_task] is what it does up to
    its next wait for the mutex, so that any interleaving is a sequence of calls
    and tasks. The methods hold the mutex and are atomic. The tasks that the
    queue starts for its callbacks come from the list the queue model keeps.

    The clock, the directory checks of the operating system, the contents of
    the files, the order in which a map is enumerated and the address syntax of
    URLs are arguments. The calls of user hooks are recorded in [tm_hooks], what
    is asked of the downloader in [tm_requests]. *)

From Stdlib Require Import SpecFloat.
From S2P Require Import Prelude Strconv Bencode BencodeTyped Extension Sha1 Hash Metainfo Storage Net Address Krpc GoLib QueueManager Blocklist Bandwidth PexManager Downloader Url Magnet TorrentFile WebSeed RpcTypes.
Import Strconv Hash Net GoLib RpcTypes.

(** The order in which [range] visits the entries of a map. *)
Class MapRange := {
  map_range : forall {A : Type}, gmap Z A -> list (Z * A);
  map_range_perm : forall {A} (m : gmap Z A), map_range m ≡ₚ map_to_list m
}.

Module TorrentManager.

(** ** [base64.StdEncoding.DecodeString] *)
Definition b64_value (c : Z) : option Z :=
  if decide (65 <= c <= 90) then Some (c - 65)
  else if decide (97 <= c <= 122) then Some (c - 71)
  else if decide (48 <= c <= 57) then Some (c + 4)
  else if decide (c = 43) then Some 62
  else if decide (c = 47) then Some 63
  else None.

Definition b64_error : string := "illegal base64 data".

(** Groups of four characters, of which the last may be padded. *)
Fixpoint b64_groups (s : bytes) : res bytes :=
  match s with
  | [] => Ok []
  | a :: b :: c :: d :: s' =>
      match b64_value a, b64_value b with
      | Some a, Some b =>
          let x := 4 * a + b / 16 in
          if decide (d = 61) then
            if decide (s' <> []) then Err b64_error
            else if decide (c = 61) then Ok [x]
            else match b64_value c with Some c => Ok [x; 16 * (b mod 16) + c / 4] | None => Err b64_error end
          else
            match b64_value c, b64_value d with
            | Some c, Some d => r ← b64_groups s'; Ok (x :: 16 * (b mod 16) + c / 4 :: 64 * (c mod 4) + d :: r)
            | _, _ => Err b64_error
            end
      | _, _ => Err b64_error
      end
  | _ => Err b64_error
  end.

(** Line breaks are skipped. *)
Definition DecodeString (s : bytes) : res bytes := b64_groups (filter (fun c => c <> 10 /\ c <> 13) s).

(** ** State *)
Abbreviation loc := nat.

Record TorrentManagerConfig := MkConfig {
  c_DownloadDir : bytes; c_IncompleteDir : bytes; c_IncompleteDirEnabled : bool; c_MaxTorrents : Z;
  c_PeerLimitGlobal : Z; c_PeerLimitPerTorrent : Z; c_PeerPort : Z; c_SessionConfig : SessionConfiguration
}.

Definition HookEventTorrentAdded : bytes := bs "torrent-added".
Definition HookEventTorrentStarted : bytes := bs "torrent-started".
Definition HookEventTorrentStopped : bytes := bs "torrent-stopped".
Definition HookEventTorrentCompleted : bytes := bs "torrent-completed".
Definition HookEventTorrentRemoved : bytes := bs "torrent-removed".
Definition HookEventTorrentMetadata : bytes := bs "torrent-metadata".

Record ScriptHookConfig := MkScript { sh_Enabled : bool; sh_Filename : bytes; sh_Timeout : Z }.
Definition ScriptHookTorrentDone : bytes := bs "torrent-done".
Definition ScriptHookTorrentAdded : bytes := bs "torrent-added".

Section Tasks.
Context {I : Type}.

(** What a goroutine still has to do. *)
Inductive task :=
  | StartTask (l : loc)
  | StartMetadata (l : loc)
  | StartDownload (l : loc)
  | FindPeers (l : loc)
  | AnnounceTask (l : loc)
  | RequestMetadata (l : loc) (peer : Address.Address (I := I))
  | SeedTask (l : loc)
  | VerifyTask (l : loc)
  | VerifyBytes (l : loc) (info : Metainfo.Info) (verified totalBytes completed : Z)
  | VerifyFinish (l : loc) (info : Metainfo.Info) (verified completed : Z)
  | Activated (id : Z) (t : QueueManager.QueueType)
  | ScriptTask (hook : bytes) (snapshot : TorrentState)
  | HookTask (event : bytes) (snapshot : TorrentState)
  | UpdateBlocklist.

Record TorrentManager := MkTM {
  tm_config : TorrentManagerConfig;
  tm_heap : list TorrentState;
  tm_torrents : gmap Z loc;
  tm_nextID : Z;
  tm_session : SessionConfiguration;
  tm_queue : QueueManager.QueueManager;
  tm_bandwidth : Bandwidth.BandwidthManager;
  tm_blocklist : Blocklist.BlocklistManager;
  tm_pex : PexManager.PEXManager;
  tm_webseeds : WebSeed.WebSeedManager;
  tm_scripts : gmap bytes ScriptHookConfig;
  tm_dht : bool;
  tm_TorrentsAdded : Z;
  tm_TorrentsRemoved : Z;
  tm_requests : list (bytes * Z * bytes);
  tm_tasks : list task;
  tm_hooks : list (bytes * TorrentState)
}.

(** Assignments to fields. *)
Definition with_config (v : TorrentManagerConfig) (tm : TorrentManager) : TorrentManager :=
  MkTM v (tm_heap tm) (tm_torrents tm) (tm_nextID tm) (tm_session tm) (tm_queue tm) (tm_bandwidth tm) (tm_blocklist tm)
    (tm_pex tm) (tm_webseeds tm) (tm_scripts tm) (tm_dht tm) (tm_TorrentsAdded tm) (tm_TorrentsRemoved tm) (tm_requests tm) (tm_tasks tm)
    (tm_hooks tm).
Definition with_heap (v : list TorrentState) (tm : TorrentManager) : TorrentManager :=
  MkTM (tm_config tm) v (tm_torrents tm) (tm_nextID tm) (tm_session tm) (tm_queue tm) (tm_bandwidth tm) (tm_blocklist tm)
    (tm_pex tm) (tm_webseeds tm) (tm_scripts tm) (tm_dht tm) (tm_TorrentsAdded tm) (tm_TorrentsRemoved tm) (tm_requests tm) (tm_tasks tm)
    (tm_hooks tm).
Definition with_torrents (v : gmap Z loc) (tm : TorrentManager) : TorrentManager :=
  MkTM (tm_config tm) (tm_heap tm) v (tm_nextID tm) (tm_session tm) (tm_queue tm) (tm_bandwidth tm) (tm_blocklist tm)
    (tm_pex tm) (tm_webseeds tm) (tm_scripts tm) (tm_dht tm) (tm_TorrentsAdded tm) (tm_TorrentsRemoved tm) (tm_requests tm) (tm_tasks tm)
    (tm_hooks tm).
Definition with_session (v : SessionConfiguration) (tm : TorrentManager) : TorrentManager :=
  MkTM (tm_config tm) (tm_heap tm) (tm_torrents tm) (tm_nextID tm) v (tm_queue tm) (tm_bandwidth tm) (tm_blocklist tm)
    (tm_pex tm) (tm_webseeds tm) (tm_scripts tm) (tm_dht tm) (tm_TorrentsAdded tm) (tm_TorrentsRemoved tm) (tm_requests tm) (tm_tasks tm)
    (tm_hooks tm).
Definition with_queue (v : QueueManager.QueueManager) (tm : TorrentManager) : TorrentManager :=
  MkTM (tm_config tm) (tm_heap tm) (tm_torrents tm) (tm_nextID tm) (tm_session tm) v (tm_bandwidth tm) (tm_blocklist tm)
    (tm_pex tm) (tm_webseeds tm) (tm_scripts tm) (tm_dht tm) (tm_TorrentsAdded tm) (tm_TorrentsRemoved tm) (tm_requests tm) (tm_tasks tm)
    (tm_hooks tm).
Definition with_bandwidth (v : Bandwidth.BandwidthManager) (tm : TorrentManager) : TorrentManager :=
  MkTM (tm_config tm) (tm_heap tm) (tm_torrents tm) (tm_nextID tm) (tm_session tm) (tm_queue tm) v (tm_blocklist tm)
    (tm_pex tm) (tm_webseeds tm) (tm_scripts tm) (tm_dht tm) (tm_TorrentsAdded tm) (tm_TorrentsRemoved tm) (tm_requests tm) (tm_tasks tm)
    (tm_hooks tm).
Definition with_blocklist (v : Blocklist.BlocklistManager) (tm : TorrentManager) : TorrentManager :=
  MkTM (tm_config tm) (tm_heap tm) (tm_torrents tm) (tm_nextID tm) (tm_session tm) (tm_queue tm) (tm_bandwidth tm) v
    (tm_pex tm) (tm_webseeds tm) (tm_scripts tm) (tm_dht tm) (tm_TorrentsAdded tm) (tm_TorrentsRemoved tm) (tm_requests tm) (tm_tasks tm)
    (tm_hooks tm).
Definition with_pex (v : PexManager.PEXManager) (tm : TorrentManager) : TorrentManager :=
  MkTM (tm_config tm) (tm_heap tm) (tm_torrents tm) (tm_nextID tm) (tm_session tm) (tm_queue tm) (tm_bandwidth tm)
    (tm_blocklist tm) v (tm_webseeds tm) (tm_scripts tm) (tm_dht tm) (tm_TorrentsAdded tm) (tm_TorrentsRemoved tm)
    (tm_requests tm) (tm_tasks tm) (tm_hooks tm).
Definition with_webseeds (v : WebSeed.WebSeedManager) (tm : TorrentManager) : TorrentManager :=
  MkTM (tm_config tm) (tm_heap tm) (tm_torrents tm) (tm_nextID tm) (tm_session tm) (tm_queue tm) (tm_bandwidth tm)
    (tm_blocklist tm) (tm_pex tm) v (tm_scripts tm) (tm_dht tm) (tm_TorrentsAdded tm) (tm_TorrentsRemoved tm) (tm_requests tm) (tm_tasks tm)
    (tm_hooks tm).
Definition with_scripts (v : gmap bytes ScriptHookConfig) (tm : TorrentManager) : TorrentManager :=
  MkTM (tm_config tm) (tm_heap tm) (tm_torrents tm) (tm_nextID tm) (tm_session tm) (tm_queue tm) (tm_bandwidth tm)
    (tm_blocklist tm) (tm_pex tm) (tm_webseeds tm) v (tm_dht tm) (tm_TorrentsAdded tm) (tm_TorrentsRemoved tm) (tm_requests tm) (tm_tasks tm)
    (tm_hooks tm).
Definition with_tasks (v : list task) (tm : TorrentManager) : TorrentManager :=
  MkTM (tm_config tm) (tm_heap tm) (tm_torrents tm) (tm_nextID tm) (tm_session tm) (tm_queue tm) (tm_bandwidth tm)
    (tm_blocklist tm) (tm_pex tm) (tm_webseeds tm) (tm_scripts tm) (tm_dht tm) (tm_TorrentsAdded tm) (tm_TorrentsRemoved tm)
    (tm_requests tm) v (tm_hooks tm).
Definition with_hooks (v : list (bytes * TorrentState)) (tm : TorrentManager) : TorrentManager :=
  MkTM (tm_config tm) (tm_heap tm) (tm_torrents tm) (tm_nextID tm) (tm_session tm) (tm_queue tm) (tm_bandwidth tm)
    (tm_blocklist tm) (tm_pex tm) (tm_webseeds tm) (tm_scripts tm) (tm_dht tm) (tm_TorrentsAdded tm) (tm_TorrentsRemoved tm)
    (tm_requests tm) (tm_tasks tm) v.

Definition update_torrent (l : loc) (f : TorrentState -> TorrentState) (tm : TorrentManager) : TorrentManager := with_heap (alter f l (tm_heap tm)) tm.
Definition go (ts : list task) (tm : TorrentManager) : TorrentManager := with_tasks (tm_tasks tm ++ ts) tm.
Definition ExecuteHooks (event : bytes) (snapshot : TorrentState) (tm : TorrentManager) : TorrentManager :=
  with_hooks (tm_hooks tm ++ [(event, snapshot)]) tm.

(** The queue manager after a call; its callbacks are new tasks. *)
Definition after_queue (qm : QueueManager.QueueManager) (tm : TorrentManager) : TorrentManager :=
  let calls := drop (length (QueueManager.activated (tm_queue tm))) (QueueManager.activated qm) in
  go (map (fun c => Activated c.1 c.2) calls) (with_queue qm tm).

Definition zeroTorrent : TorrentState :=
  MkTorrent 0 zeroHash None 0 None [] 0 None [] 0 0 0 (S754_zero false) 0 0 0 0 0 0 0 0 0 0 None 0 0 false [] [] [] [] [] (S754_zero false) 0 false.
Definition torrent_at (l : loc) (tm : TorrentManager) : TorrentState := default zeroTorrent (tm_heap tm !! l).

Definition float_one : Bandwidth.float := Bandwidth.f_of_int 1.
Definition complete (t : TorrentState) : bool := SFleb float_one (t_PercentDone t).

Definition notFound : string := "torrent with ID not found".
End Tasks.

(** ** Files of a torrent *)
Definition file_info (info : Metainfo.Info) (f : Metainfo.File) : FileInfo := MkFileInfo (Metainfo.File_Path f info) (Metainfo.f_Length f) 0 0 true.

(** [setupFileArrays] and [populateFileInfo]; [initializeTorrentFileStructure]
    fills the arrays in the same way. *)
Definition setupFileArrays (info : Metainfo.Info) (t : TorrentState) : TorrentState :=
  let n := length (Metainfo.i_Files info) in
  set_FileArrays (replicate n (MkFileInfo [] 0 0 0 false)) (replicate n 0) (replicate n false) t.
Fixpoint populate (info : Metainfo.Info) (i : nat) (files : list Metainfo.File) (t : TorrentState) : TorrentState :=
  match files with
  | [] => t
  | f :: files' =>
      populate info (S i) files'
        (set_FileArrays (<[i := file_info info f]> (t_Files t)) (<[i := 0]> (t_Priorities t)) (<[i := true]> (t_Wanted t)) t)
  end.
Definition populateFileInfo (info : Metainfo.Info) (t : TorrentState) : TorrentState := populate info 0 (Metainfo.i_Files info) t.

Definition extractTrackerList (mi : TorrentFile.MetaInfo) (t : TorrentState) : TorrentState :=
  set_TrackerList (fold_left (fun l tier => l ++ tier) (TorrentFile.Announces mi) (t_TrackerList t)) t.

Definition initializeFileInfo (t : TorrentState) (mi : TorrentFile.MetaInfo) : res TorrentState :=
  info ← TorrentFile.mi_Info mi;
  Ok (extractTrackerList mi (populateFileInfo info (setupFileArrays info t))).

Definition initializeTorrentFileStructure (t : TorrentState) (mi : TorrentFile.MetaInfo) : res TorrentState :=
  match TorrentFile.mi_Info mi with
  | Ok info => Ok (populateFileInfo info (setupFileArrays info t))
  | Err _ => Err "failed to parse info"
  | Panic p => Panic p
  | NoFuel => NoFuel
  end.

(** ** Verification *)
Definition negativeLength : string := "makeslice: len out of range".
Definition outOfRange : string := "slice bounds out of range".

Definition shouldSkipFile (currentOffset fileSize pieceOffset : Z) : bool := bool_decide (i64 (currentOffset + fileSize) <= pieceOffset).
Definition isFileAfterPiece (currentOffset pieceOffset pieceLength : Z) : bool := bool_decide (i64 (pieceOffset + pieceLength) <= currentOffset).
Definition calculateReadParameters (currentOffset fileSize pieceOffset pieceLength : Z) : Z * Z :=
  let fileStartInPiece := if decide (currentOffset < pieceOffset) then i64 (pieceOffset - currentOffset) else 0 in
  let readStart := i64 (currentOffset + fileStartInPiece) in
  let readLength := i64 (fileSize - fileStartInPiece) in
  (fileStartInPiece,
   if decide (i64 (pieceOffset + pieceLength) < i64 (readStart + readLength)) then i64 (i64 (pieceOffset + pieceLength) - readStart) else readLength).

(** [io.ReadFull] gives what is there when the file ends early, and fails at
    its end. *)
Definition readFileSegment (fs : Storage.FS) (filePath : bytes) (offset length : Z) : res bytes :=
  match fs !! filePath with
  | None => Err "no such file or directory"
  | Some content =>
      if decide (offset < 0) then Err "invalid argument"
      else if decide (length < 0) then Panic negativeLength
      else
        let data := take (Z.to_nat length) (drop (Z.to_nat offset) content) in
        if decide (length <> 0 /\ data = []) then Err Storage.EOF else Ok data
  end.

(** [copy(dst, src)]. *)
Definition copy (dst src : bytes) : bytes := take (length dst) src ++ drop (length src) dst.

(** The loop over the files, and the final [pieceData[:piecePos]]. *)
Fixpoint read_files (fs : Storage.FS) (info : Metainfo.Info) (torrentDir : bytes) (pieceOffset pieceLength : Z)
    (files : list Metainfo.File) (currentOffset piecePos : Z) (pieceData : bytes) : res bytes :=
  match files with
  | [] => if decide (0 <= piecePos <= len pieceData) then Ok (take (Z.to_nat piecePos) pieceData) else Panic outOfRange
  | file :: files' =>
      let filePath := Metainfo.Join [torrentDir; Metainfo.File_Path file info] in
      let fileSize := Metainfo.f_Length file in
      if shouldSkipFile currentOffset fileSize pieceOffset
      then read_files fs info torrentDir pieceOffset pieceLength files' (i64 (currentOffset + fileSize)) piecePos pieceData
      else if isFileAfterPiece currentOffset pieceOffset pieceLength
      then if decide (0 <= piecePos <= len pieceData) then Ok (take (Z.to_nat piecePos) pieceData) else Panic outOfRange
      else
        let '(start, readLength) := calculateReadParameters currentOffset fileSize pieceOffset pieceLength in
        fileData ← readFileSegment fs filePath start readLength;
        if decide (0 <= piecePos <= len pieceData) then
          let pos := Z.to_nat piecePos in
          read_files fs info torrentDir pieceOffset pieceLength files' (i64 (currentOffset + fileSize)) (i64 (piecePos + readLength))
            (take pos pieceData ++ copy (drop pos pieceData) fileData)
        else Panic outOfRange
  end.

Definition readPieceFromFiles (fs : Storage.FS) (mi : TorrentFile.MetaInfo) (piece : Metainfo.Piece) (torrentDir : bytes) : res bytes :=
  info ← TorrentFile.mi_Info mi;
  let pieceOffset := Metainfo.Piece_Offset piece in
  let pieceLength := Metainfo.Piece_Length piece in
  if decide (pieceLength < 0) then Panic negativeLength
  else read_files fs info torrentDir pieceOffset pieceLength (Metainfo.i_Files info) 0 0 (replicate (Z.to_nat pieceLength) 0).

Definition Piece_Hash (p : Metainfo.Piece) : bytes := default zeroHash (Metainfo.i_Pieces (Metainfo.p_info p) !! Z.to_nat (Metainfo.p_index p)).

Definition verifyPiece (fs : Storage.FS) (mi : TorrentFile.MetaInfo) (downloadDir : bytes) (piece : Metainfo.Piece) : res bool :=
  info ← TorrentFile.mi_Info mi;
  let torrentDir := Metainfo.Join [downloadDir; Metainfo.i_Name info] in
  pieceData ← readPieceFromFiles fs mi piece torrentDir;
  if decide (len pieceData <> Metainfo.Piece_Length piece) then Ok false
  else Ok (bool_decide (Sha1.Sum pieceData = Piece_Hash piece)).

(** The loop over the pieces from [i] on: verified pieces, bytes of the pieces
    that could be read, bytes of the verified ones. *)
Fixpoint verify_pieces (fs : Storage.FS) (mi : TorrentFile.MetaInfo) (dir : bytes) (info : Metainfo.Info) (n : nat) (i : Z)
    (s : Z * Z * Z) : res (Z * Z * Z) :=
  match n with
  | O => Ok s
  | S n' =>
      let '(verified, totalBytes, completed) := s in
      piece ← Metainfo.Info_Piece info i;
      match verifyPiece fs mi dir piece with
      | Ok true =>
          verify_pieces fs mi dir info n' (i + 1)
            (verified + 1, i64 (totalBytes + Metainfo.Piece_Length piece), i64 (completed + Metainfo.Piece_Length piece))
      | Ok false => verify_pieces fs mi dir info n' (i + 1) (verified, i64 (totalBytes + Metainfo.Piece_Length piece), completed)
      | Err _ => verify_pieces fs mi dir info n' (i + 1) s
      | Panic p => Panic p
      | NoFuel => NoFuel
      end
  end.

Fixpoint file_completion (i : nat) (files : list Metainfo.File) (currentOffset totalCompleted : Z) (fs : list FileInfo) : list FileInfo :=
  match files with
  | [] => fs
  | file :: files' =>
      let fileEnd := i64 (currentOffset + Metainfo.f_Length file) in
      let fileCompleted :=
        if decide (fileEnd <= totalCompleted) then Metainfo.f_Length file
        else if decide (currentOffset < totalCompleted) then i64 (totalCompleted - currentOffset) else 0 in
      file_completion (S i) files' fileEnd totalCompleted
        (alter (fun f => MkFileInfo (fi_Name f) (fi_Length f) fileCompleted (fi_Priority f) (fi_Wanted f)) i fs)
  end.
Definition updateFileCompletion (info : Metainfo.Info) (totalCompleted : Z) (t : TorrentState) : TorrentState :=
  set_FileArrays (file_completion 0 (Metainfo.i_Files info) 0 totalCompleted (t_Files t)) (t_Priorities t) (t_Wanted t) t.

Section Manager.
Context {I : Type} `{I2PKeys I} `{SortSlice} `{MapRange}.
Abbreviation Address := (Address.Address (I := I)).
Abbreviation TM := (TorrentManager (I := I)).
Abbreviation Task := (task (I := I)).

Definition relabel {A} (e : string) (r : res A) : res A := match r with Err _ => Err e | _ => r end.

(** ** Adding torrents *)
Section Add.
Context (parseAuthority : bytes -> res bytes) (maxParams : option Z).

Definition parseMetainfoData (metainfoData : bytes) : res (option TorrentFile.MetaInfo * bytes) :=
  torrentData ← relabel "failed to decode torrent data" (DecodeString metainfoData);
  v ← relabel "failed to parse torrent file" (Bencode.DecodeBytes torrentData TorrentFile.mi_type (TorrentFile.mi_val TorrentFile.zeroMetaInfo));
  metaInfo ← TorrentFile.mi_of v;
  Ok (Some metaInfo, TorrentFile.mi_InfoHash metaInfo).

Definition parseMagnetURI (magnetURI : bytes) : res (option TorrentFile.MetaInfo * bytes) :=
  magnet ← relabel "failed to parse magnet URI" (Magnet.ParseMagnetURI parseAuthority maxParams magnetURI);
  Ok (None, Magnet.m_InfoHash magnet).

Definition parseAddTorrentRequest (req : TorrentAddRequest) : res (option TorrentFile.MetaInfo * bytes) :=
  if negb (bool_decide (ar_Metainfo req = [])) then parseMetainfoData (ar_Metainfo req)
  else if negb (bool_decide (ar_Filename req = [])) then parseMagnetURI (ar_Filename req)
  else Err "either metainfo or filename (magnet URI) must be provided".

Definition validateTorrentLimit (tm : TM) : res () :=
  if decide (c_MaxTorrents (tm_config tm) <= Z.of_nat (size (tm_torrents tm))) then Err "maximum number of torrents reached" else Ok ().

(** [findDuplicateTorrent], [findTorrentByInfoHash]. *)
Definition findDuplicateTorrent (infoHash : bytes) (tm : TM) : option loc :=
  snd <$> find (fun e => bool_decide (t_InfoHash (torrent_at e.2 tm) = infoHash)) (map_range (tm_torrents tm)).

Definition determineDownloadDirectory (requestedDir : bytes) (isComplete : bool) (tm : TM) : bytes :=
  let s := tm_session tm in
  if negb (bool_decide (requestedDir = [])) then requestedDir
  else if s_IncompleteDirEnabled s && negb isComplete && negb (bool_decide (s_IncompleteDir s = [])) then s_IncompleteDir s
  else s_DownloadDir s.

Definition createTorrentState (now : Z) (req : TorrentAddRequest) (metaInfo : option TorrentFile.MetaInfo) (infoHash : bytes) (tm : TM) : TorrentState :=
  MkTorrent (tm_nextID tm) infoHash metaInfo 0 None (determineDownloadDirectory (ar_DownloadDir req) false tm) now None (ar_Labels req)
    0 0 0 (S754_zero false) 0 0 0 0 0 0 0 0 0 0 None 0 0 false [] [] [] [] [] (S754_zero false) 0 true.

Definition setInitialTorrentStatus (paused hasMetadata : bool) (t : TorrentState) : TorrentState :=
  set_Status (if paused then TorrentStatusStopped else if hasMetadata then TorrentStatusDownloading else TorrentStatusQueuedVerify) t.

(** The state that is stored, and the metadata hook it starts. *)
Definition initial_torrent (t : TorrentState) (paused : bool) (metaInfo : option TorrentFile.MetaInfo) : res (TorrentState * list Task) :=
  match metaInfo with
  | None => Ok (setInitialTorrentStatus paused false t, [])
  | Some mi =>
      let t := setInitialTorrentStatus paused true t in
      match initializeFileInfo t mi with
      | Ok t => Ok (t, [HookTask HookEventTorrentMetadata t])
      | Err _ => Ok (t, [])
      | Panic p => Panic p
      | NoFuel => NoFuel
      end
  end.

Definition handleTorrentStartup (l : loc) (paused hasMetadata : bool) (tm : TM) : TM :=
  if negb paused && s_StartAddedTorrents (tm_session tm) then go [StartTask l] tm
  else if negb paused && hasMetadata then go [VerifyTask l] (update_torrent l (set_Status TorrentStatusVerifying) tm)
  else tm.

Inductive added := Added (t : TorrentState) | AlreadyExists (t : TorrentState).

(** The new torrent at the next free place. *)
Definition store (t : TorrentState) (ts : list Task) (tm : TM) : TM :=
  let tm := MkTM (tm_config tm) (tm_heap tm ++ [t]) (<[t_ID t := length (tm_heap tm)]> (tm_torrents tm)) (i64 (tm_nextID tm + 1))
    (tm_session tm) (tm_queue tm) (tm_bandwidth tm) (tm_blocklist tm) (tm_pex tm) (tm_webseeds tm) (tm_scripts tm) (tm_dht tm)
    (i64 (tm_TorrentsAdded tm + 1)) (tm_TorrentsRemoved tm) (tm_requests tm) (tm_tasks tm ++ ts) (tm_hooks tm) in
  ExecuteHooks HookEventTorrentAdded t (go [ScriptTask ScriptHookTorrentAdded t] tm).

Definition AddTorrent (now : Z) (req : TorrentAddRequest) (tm : TM) : res added * TM :=
  match (_ ← validateTorrentLimit tm; parseAddTorrentRequest req) with
  | Ok (metaInfo, infoHash) =>
      match findDuplicateTorrent infoHash tm with
      | Some l => (Ok (AlreadyExists (torrent_at l tm)), tm)
      | None =>
          match initial_torrent (createTorrentState now req metaInfo infoHash tm) (ar_Paused req) metaInfo with
          | Ok (t, ts) =>
              let l := length (tm_heap tm) in
              let tm := handleTorrentStartup l (ar_Paused req) (bool_decide (is_Some metaInfo)) (store t ts tm) in
              (Ok (Added (torrent_at l tm)), tm)
          | Err e => (Err e, tm)
          | Panic p => (Panic p, tm)
          | NoFuel => (NoFuel, tm)
          end
      end
  | Err e => (Err e, tm)
  | Panic p => (Panic p, tm)
  | NoFuel => (NoFuel, tm)
  end.
End Add.

(** ** Looking torrents up *)
Definition GetTorrent (id : Z) (tm : TM) : res loc := match tm_torrents tm !! id with Some l => Ok l | None => Err notFound end.
Definition GetTorrentByHash (hash : bytes) (tm : TM) : res loc :=
  match find (fun e => bool_decide (HexString (t_InfoHash (torrent_at e.2 tm)) = hash)) (map_range (tm_torrents tm)) with
  | Some e => Ok e.2
  | None => Err "torrent with hash not found"
  end.
Definition GetAllTorrents (tm : TM) : list loc := (map_range (tm_torrents tm)).*2.
Definition getAllTorrentIDs (tm : TM) : list Z := (map_range (tm_torrents tm)).*1.

Definition five_minutes : Z := 5 * 60 * Bandwidth.Second.
Definition recently_active (now : Z) (t : TorrentState) : bool :=
  bool_decide (t_Status t = TorrentStatusDownloading) || bool_decide (t_Status t = TorrentStatusSeeding) ||
  match t_StartDate t with Some d => bool_decide (now - five_minutes < d) | None => false end.
Definition getRecentlyActiveTorrents (now : Z) (tm : TM) : list Z :=
  map (fun e => t_ID (torrent_at e.2 tm)) (filter (fun e => recently_active now (torrent_at e.2 tm)) (map_range (tm_torrents tm))).

(** The dynamic type of an identifier. *)
Inductive identifier := IdFloat (f : Bandwidth.float) | IdInt (n : Z) | IdString (s : bytes) | IdOther.

Definition resolveStringIdentifier (now : Z) (v : bytes) (tm : TM) : res (list Z) :=
  if decide (v = bs "recently-active") then Ok (getRecentlyActiveTorrents now tm)
  else l ← relabel "torrent not found" (GetTorrentByHash v tm); Ok [t_ID (torrent_at l tm)].

Definition convertSingleIdentifier (wild : Bandwidth.float -> Z) (now : Z) (id : identifier) (tm : TM) : res (list Z) :=
  match id with
  | IdFloat f => Ok [Bandwidth.f_to_int64 wild f]
  | IdInt n => Ok [n]
  | IdString s => resolveStringIdentifier now s tm
  | IdOther => Err "invalid torrent ID type"
  end.

Fixpoint processIdentifierList (wild : Bandwidth.float -> Z) (now : Z) (ids : list identifier) (tm : TM) : res (list Z) :=
  match ids with
  | [] => Ok []
  | id :: ids' => r ← convertSingleIdentifier wild now id tm; rs ← processIdentifierList wild now ids' tm; Ok (r ++ rs)
  end.

Definition ResolveTorrentIDs (wild : Bandwidth.float -> Z) (now : Z) (ids : list identifier) (tm : TM) : res (list Z) :=
  match ids with [] => Ok (getAllTorrentIDs tm) | _ => processIdentifierList wild now ids tm end.

(** ** Starting and stopping *)
Definition started (t : TorrentState) : bool := bool_decide (t_Status t = TorrentStatusDownloading \/ t_Status t = TorrentStatusSeeding).

Definition StartTorrent (now : Z) (id : Z) (tm : TM) : res () * TM :=
  match tm_torrents tm !! id with
  | None => (Err notFound, tm)
  | Some l =>
      let t := torrent_at l tm in
      if started t then (Ok (), tm)
      else
        let queueType := if complete t then QueueManager.SeedQueue else QueueManager.DownloadQueue in
        let tm := update_torrent l (set_Status (if complete t then TorrentStatusQueuedSeed else TorrentStatusQueuedDown)) tm in
        match QueueManager.AddToQueue now id queueType 0 (tm_queue tm) with
        | Ok qm => (Ok (), after_queue qm tm)
        | Err _ => (Err "failed to add torrent to queue", tm)
        | Panic p => (Panic p, tm)
        | NoFuel => (NoFuel, tm)
        end
  end.

Definition StartTorrentNow (now : Z) (id : Z) (tm : TM) : res () * TM :=
  match tm_torrents tm !! id with
  | None => (Err notFound, tm)
  | Some l =>
      let t := torrent_at l tm in
      if started t then (Ok (), tm)
      else
        let queueType := if complete t then QueueManager.SeedQueue else QueueManager.DownloadQueue in
        let status := if complete t then TorrentStatusSeeding else TorrentStatusDownloading in
        let tm := update_torrent l (fun t => set_StartDate (Some now) (set_Status status t)) tm in
        (Ok (), go [StartTask l] (after_queue (QueueManager.ForceActivate id queueType (tm_queue tm)) tm))
  end.

Definition StopTorrent (id : Z) (tm : TM) : res () * TM :=
  match tm_torrents tm !! id with
  | None => (Err notFound, tm)
  | Some l =>
      let tm := after_queue (QueueManager.RemoveFromQueue id (tm_queue tm)) tm in
      let tm := update_torrent l (set_Status TorrentStatusStopped) tm in
      (Ok (), ExecuteHooks HookEventTorrentStopped (torrent_at l tm) tm)
  end.

Definition count_removed (tm : TM) : TM :=
  MkTM (tm_config tm) (tm_heap tm) (tm_torrents tm) (tm_nextID tm) (tm_session tm) (tm_queue tm) (tm_bandwidth tm) (tm_blocklist tm)
    (tm_pex tm) (tm_webseeds tm) (tm_scripts tm) (tm_dht tm) (tm_TorrentsAdded tm) (i64 (tm_TorrentsRemoved tm + 1)) (tm_requests tm)
    (tm_tasks tm) (tm_hooks tm).

(** [deleteData] only reaches the hooks. *)
Definition RemoveTorrent (id : Z) (tm : TM) : res () * TM :=
  match tm_torrents tm !! id with
  | None => (Err notFound, tm)
  | Some l =>
      let tm := after_queue (QueueManager.RemoveFromQueue id (tm_queue tm)) tm in
      let tm := update_torrent l (set_Status TorrentStatusStopped) tm in
      let tm := ExecuteHooks HookEventTorrentRemoved (torrent_at l tm) (with_torrents (delete id (tm_torrents tm)) tm) in
      (Ok (), count_removed tm)
  end.

Definition verifyTorrentLocked (id : Z) (tm : TM) : res () * TM :=
  match tm_torrents tm !! id with
  | None => (Err notFound, tm)
  | Some l =>
      match t_MetaInfo (torrent_at l tm) with
      | None => (Err "cannot verify torrent: no metadata available", tm)
      | Some _ => (Ok (), go [VerifyTask l] (update_torrent l (set_Status TorrentStatusVerifying) tm))
      end
  end.
Definition VerifyTorrent : Z -> TM -> res () * TM := verifyTorrentLocked.

Definition UpdateTorrentDownloadDir (l : loc) (newDir : bytes) (tm : TM) : TM := update_torrent l (set_DownloadDir newDir) tm.

Definition SetTorrentQueuePosition (id position : Z) (tm : TM) : res () * TM :=
  match tm_torrents tm !! id with
  | None => (Err notFound, tm)
  | Some _ =>
      match QueueManager.SetQueuePosition id position (tm_queue tm) with
      | Ok qm => (Ok (), after_queue qm tm)
      | Err e => (Err e, tm)
      | Panic p => (Panic p, tm)
      | NoFuel => (NoFuel, tm)
      end
  end.
Definition GetTorrentQueuePosition (id : Z) (tm : TM) : Z := QueueManager.GetQueuePosition id (tm_queue tm).
Definition IsActiveTorrent (id : Z) (tm : TM) : bool := QueueManager.IsActive id (tm_queue tm).

(** A round of the queue's own goroutine. *)
Definition process_queues (start processingTime : Z) (tm : TM) : TM :=
  after_queue (QueueManager.processQueues start processingTime (tm_queue tm)) tm.

(** ** Peers *)
Definition peer_key (address : bytes) (port : Z) : bytes := address ++ 58 :: FormatInt port.

(** The first loop of [updateTorrentPeersLocked]. *)
Fixpoint new_peers (bm : Blocklist.BlocklistManager) (peers : list Address) (newPeerKeys : gset bytes) : res (list PeerInfo) :=
  match peers with
  | [] => Ok []
  | peer :: peers' =>
      ip ← Address.IP_text peer;
      if Blocklist.IsBlocked ip bm then new_peers bm peers' newPeerKeys
      else
        let key := peer_key ip (Address.a_Port peer) in
        if decide (key ∈ newPeerKeys) then new_peers bm peers' newPeerKeys
        else (rest ← new_peers bm peers' ({[key]} ∪ newPeerKeys); Ok (MkPeerInfo [] ip (Address.a_Port peer) 0 0 (bs "outgoing") :: rest))
  end.

Definition info_key (p : PeerInfo) : bytes := peer_key (pi_Address p) (pi_Port p).
Definition merge_peers (existing newPeers : list PeerInfo) : list PeerInfo :=
  existing ++ filter (fun p => ~ (info_key p ∈ map info_key existing)) newPeers.

Definition updateTorrentPeersLocked (l : loc) (peers : list Address) (tm : TM) : res TM :=
  newPeers ← new_peers (tm_blocklist tm) peers ∅;
  Ok (update_torrent l (fun t => set_Peers (merge_peers (t_Peers t) newPeers) t) tm).

(** [findPeersViaDHT] up to the answer, which comes as [handleDHTResult]. *)
Record DHTResult := MkDHTResult { dr_Code : Z; dr_Timeout : bool; dr_Peers : list Address }.

Definition validateDHTResult (result : DHTResult) : bool := bool_decide (dr_Code result = 0) && negb (dr_Timeout result).

Definition requestMetadataFromDHTPeers (l : loc) (peers : list Address) (tm : TM) : TM :=
  go (map (RequestMetadata l) (filter (fun p => 0 < Address.a_Port p < 65535) peers)) tm.

Definition processDHTPeers (l : loc) (peers : list Address) (tm : TM) : res TM :=
  match t_MetaInfo (torrent_at l tm) with
  | None => Ok (requestMetadataFromDHTPeers l peers tm)
  | Some _ => updateTorrentPeersLocked l peers tm
  end.

Definition handleDHTResult (l : loc) (result : DHTResult) (tm : TM) : res TM :=
  if negb (validateDHTResult result) then Ok tm
  else match dr_Peers result with [] => Ok tm | peers => processDHTPeers l peers tm end.

Definition requestMetadataFromPeer (l : loc) (peer : Address) (tm : TM) : res TM :=
  ip ← Address.IP_text peer;
  Ok (MkTM (tm_config tm) (tm_heap tm) (tm_torrents tm) (tm_nextID tm) (tm_session tm) (tm_queue tm) (tm_bandwidth tm) (tm_blocklist tm)
        (tm_pex tm) (tm_webseeds tm) (tm_scripts tm) (tm_dht tm) (tm_TorrentsAdded tm) (tm_TorrentsRemoved tm)
        (tm_requests tm ++ [(ip, u16 (Address.a_Port peer), t_InfoHash (torrent_at l tm))]) (tm_tasks tm) (tm_hooks tm)).

(** ** Metadata from the downloader *)
Definition parseAndValidateMetadata (response : Downloader.TorrentResponse) : res TorrentFile.MetaInfo :=
  v ← relabel "failed to parse metadata" (Bencode.DecodeBytes (Downloader.re_InfoBytes response) Bencode.TRaw (Bencode.VRaw None));
  match v with
  | Bencode.VRaw b =>
      if decide (Sha1.Sum (Downloader.re_InfoBytes response) <> Downloader.re_InfoHash response) then Err "invalid metadata: hash mismatch"
      else Ok (TorrentFile.MkMeta b [] [] [] [] 0 [] [] [])
  | _ => Panic Krpc.notOfType
  end.

(** Looks the torrent up as [findDuplicateTorrent] does. *)
Definition findTorrentByInfoHash (infoHash : bytes) (tm : TM) : option loc := findDuplicateTorrent infoHash tm.
Definition finalizeTorrentMetadataSetup (l : loc) (tm : TM) : TM := go [StartTask l] (update_torrent l (set_Status TorrentStatusDownloading) tm).

Definition handleDownloaderResponse (response : Downloader.TorrentResponse) (tm : TM) : res TM :=
  match findTorrentByInfoHash (Downloader.re_InfoHash response) tm with
  | None => Ok tm
  | Some l =>
      match parseAndValidateMetadata response with
      | Ok metaInfo =>
          let tm := update_torrent l (set_MetaInfo (Some metaInfo)) tm in
          match initializeTorrentFileStructure (torrent_at l tm) metaInfo with
          | Ok t => Ok (finalizeTorrentMetadataSetup l (update_torrent l (fun _ => t) tm))
          | Err _ => Ok tm
          | Panic p => Panic p
          | NoFuel => NoFuel
          end
      | Err _ => Ok tm
      | Panic p => Panic p
      | NoFuel => NoFuel
      end
  end.

(** ** Callbacks of the queue *)
Definition onTorrentActivated (torrentID : Z) (queueType : QueueManager.QueueType) (tm : TM) : TM :=
  match tm_torrents tm !! torrentID with
  | None => tm
  | Some l =>
      match queueType with
      | QueueManager.DownloadQueue =>
          if decide (t_Status (torrent_at l tm) = TorrentStatusQueuedDown) then
            let tm := update_torrent l (set_Status TorrentStatusDownloading) tm in
            go [StartTask l] (ExecuteHooks HookEventTorrentStarted (torrent_at l tm) tm)
          else tm
      | QueueManager.SeedQueue =>
          if decide (t_Status (torrent_at l tm) = TorrentStatusQueuedSeed) then
            let tm := update_torrent l (set_Status TorrentStatusSeeding) tm in
            go [SeedTask l] (ExecuteHooks HookEventTorrentStarted (torrent_at l tm) tm)
          else tm
      | QueueManager.OtherQueue => tm
      end
  end.

Definition onTorrentDeactivated (torrentID : Z) (queueType : QueueManager.QueueType) (tm : TM) : TM :=
  match tm_torrents tm !! torrentID with
  | None => tm
  | Some l =>
      match queueType with
      | QueueManager.DownloadQueue =>
          if decide (t_Status (torrent_at l tm) = TorrentStatusDownloading) then
            let tm := update_torrent l (set_Status TorrentStatusQueuedDown) tm in ExecuteHooks HookEventTorrentStopped (torrent_at l tm) tm
          else tm
      | QueueManager.SeedQueue =>
          if decide (t_Status (torrent_at l tm) = TorrentStatusSeeding) then
            let tm := update_torrent l (set_Status TorrentStatusQueuedSeed) tm in ExecuteHooks HookEventTorrentStopped (torrent_at l tm) tm
          else tm
      | QueueManager.OtherQueue => tm
      end
  end.

(** ** Goroutines *)

(** [startTorrent] looks at the metadata without the mutex, and then takes it. *)
Definition startTorrent (l : loc) (tm : TM) : TM :=
  match t_MetaInfo (torrent_at l tm) with None => go [StartMetadata l] tm | Some _ => go [StartDownload l] tm end.
Definition start_metadata (l : loc) (tm : TM) : TM :=
  let tm := update_torrent l (set_Status TorrentStatusQueuedVerify) tm in
  if tm_dht tm then go [FindPeers l] tm else tm.
Definition start_download (l : loc) (tm : TM) : TM :=
  let tm := update_torrent l (set_Status TorrentStatusDownloading) tm in
  let tm := if decide (t_TrackerList (torrent_at l tm) = []) then tm else go [AnnounceTask l] tm in
  if tm_dht tm then go [FindPeers l] tm else tm.

(** [verifyTorrentAsync]: reading the pieces, and two sections under the mutex.
    A torrent to verify without metadata is a nil dereference. The loop over the
    pieces is one step, on one state of the disk and with one download
    directory; the code takes the mutex for the directory at each piece, so that
    a change of it or a write in between makes it read some pieces before and
    some after. *)
Definition verifyTorrentAsync (fs : Storage.FS) (l : loc) (tm : TM) : res TM :=
  let t := torrent_at l tm in
  match t_MetaInfo t with
  | None => Panic Address.nilDeref
  | Some mi =>
      match TorrentFile.mi_Info mi with
      | Ok info =>
          '(verified, totalBytes, completed) ← verify_pieces fs mi (t_DownloadDir t) info (length (Metainfo.i_Pieces info)) 0 (0, 0, 0);
          Ok (go [VerifyBytes l info verified totalBytes completed] tm)
      | Err _ => Ok (update_torrent l (set_Status TorrentStatusStopped) tm)
      | Panic p => Panic p
      | NoFuel => NoFuel
      end
  end.
Definition verify_bytes (l : loc) (info : Metainfo.Info) (verified totalBytes completed : Z) (tm : TM) : TM :=
  go [VerifyFinish l info verified completed] (update_torrent l (set_Transfer completed (i64 (totalBytes - completed))) tm).
Definition verify_finish (l : loc) (info : Metainfo.Info) (verified completed : Z) (tm : TM) : TM :=
  update_torrent l (fun t => set_Status (if decide (verified = Metainfo.CountPieces info) then TorrentStatusSeeding else TorrentStatusDownloading)
    (updateFileCompletion info completed t)) tm.

Definition startTorrentSeeding (l : loc) (tm : TM) : TM := update_torrent l (set_Status TorrentStatusSeeding) tm.

(** What runs outside the daemon (announcing is only logged, the search in the
    DHT answers later, scripts are the user's) leaves the state alone. [refresh]
    is what an update of the blocklist makes of it. *)
Definition run_task (fs : Storage.FS) (refresh : Blocklist.BlocklistManager -> Blocklist.BlocklistManager) (t : Task) (tm : TM) : res TM :=
  match t with
  | StartTask l => Ok (startTorrent l tm)
  | StartMetadata l => Ok (start_metadata l tm)
  | StartDownload l => Ok (start_download l tm)
  | RequestMetadata l peer => requestMetadataFromPeer l peer tm
  | SeedTask l => Ok (startTorrentSeeding l tm)
  | VerifyTask l => verifyTorrentAsync fs l tm
  | VerifyBytes l info verified totalBytes completed => Ok (verify_bytes l info verified totalBytes completed tm)
  | VerifyFinish l info verified completed => Ok (verify_finish l info verified completed tm)
  | Activated id q => Ok (onTorrentActivated id q tm)
  | HookTask event t => Ok (ExecuteHooks event t tm)
  | UpdateBlocklist => Ok (with_blocklist (refresh (tm_blocklist tm)) tm)
  | FindPeers _ | AnnounceTask _ | ScriptTask _ _ => Ok tm
  end.

(** ** Statistics *)
Section Stats.
Context (wild : Bandwidth.float -> Z).
Abbreviation to_int := (Bandwidth.f_to_int64 wild).
Abbreviation of_int := Bandwidth.f_of_int.

Definition updateTransferRates (now : Z) (t : TorrentState) : TorrentState :=
  match t_lastStatsUpdate t with
  | None => t
  | Some lastUpdate =>
      let timeDelta := Bandwidth.Seconds (Bandwidth.Sub now lastUpdate) in
      if SFltb (S754_zero false) timeDelta
      then set_Rates (to_int (Bandwidth.fdiv (of_int (i64 (t_Downloaded t - t_lastDownloaded t))) timeDelta))
             (to_int (Bandwidth.fdiv (of_int (i64 (t_Uploaded t - t_lastUploaded t))) timeDelta)) t
      else t
  end.

Definition updateTrackingFields (now : Z) (t : TorrentState) : TorrentState := set_Tracking (Some now) (t_Downloaded t) (t_Uploaded t) t.

Definition calculateBasicCompletionStats (info : Metainfo.Info) (t : TorrentState) : TorrentState :=
  let totalSize := Metainfo.TotalLength info in
  if decide (totalSize <= 0) then t
  else
    let p := Bandwidth.fdiv (of_int (t_Downloaded t)) (of_int totalSize) in
    let p := if SFltb float_one p then float_one else p in
    let left_ := i64 (totalSize - t_Downloaded t) in
    set_Completion p (if decide (left_ < 0) then 0 else left_) t.

Definition calculateCompletedPieces (t : TorrentState) : res Z :=
  match t_MetaInfo t with
  | None => Ok 0
  | Some mi =>
      if SFleb (t_PercentDone t) (S754_zero false) then Ok 0
      else match TorrentFile.mi_Info mi with
           | Ok info => Ok (to_int (Bandwidth.fmul (of_int (Metainfo.CountPieces info)) (t_PercentDone t)))
           | Err _ => Ok 0
           | Panic p => Panic p
           | NoFuel => NoFuel
           end
  end.

Definition half : Bandwidth.float := Bandwidth.fdiv (of_int 1) (of_int 2).
Definition calculateAvailablePieces (t : TorrentState) : res Z :=
  match t_MetaInfo t with
  | None => Ok 0
  | Some mi =>
      if decide (t_Peers t = []) then Ok 0
      else match TorrentFile.mi_Info mi with
           | Ok info =>
               Ok (if decide (0 < t_PeerCount t)
                   then to_int (Bandwidth.fmul (Bandwidth.fmul (of_int (Metainfo.CountPieces info)) half) (of_int (t_PeerCount t))) else 0)
           | Err _ => Ok 0
           | Panic p => Panic p
           | NoFuel => NoFuel
           end
  end.

Definition calculatePieceStatistics (info : Metainfo.Info) (t : TorrentState) : res TorrentState :=
  complete ← calculateCompletedPieces t;
  available ← calculateAvailablePieces t;
  Ok (set_PieceStats (Metainfo.CountPieces info) complete available t).

(** The script and the hook run on a snapshot. *)
Definition handleCompletionStateChange (t : TorrentState) : TorrentState * bool :=
  if negb (t_wasComplete t) && complete t then (set_wasComplete true t, true) else (t, false).

Definition updateCompletionStatistics (t : TorrentState) : res (TorrentState * bool) :=
  match t_MetaInfo t with
  | None => Ok (t, false)
  | Some mi =>
      match TorrentFile.mi_Info mi with
      | Ok info => t ← calculatePieceStatistics info (calculateBasicCompletionStats info t); Ok (handleCompletionStateChange t)
      | Err _ => Ok (t, false)
      | Panic p => Panic p
      | NoFuel => NoFuel
      end
  end.

Definition calculateETA (t : TorrentState) : Z :=
  if decide (t_Left t <= 0) then 0 else if decide (t_DownloadRate t <= 0) then -1 else Z.quot (t_Left t) (t_DownloadRate t).

Definition share (num den : Z) (t : TorrentState) : Z :=
  let peerCount := len (t_Peers t) in
  if decide (0 < peerCount) then to_int (Bandwidth.fmul (of_int peerCount) (Bandwidth.fdiv (of_int num) (of_int den))) else 0.
Definition countSendingPeers (t : TorrentState) : Z :=
  if decide (t_Status t <> TorrentStatusDownloading \/ t_DownloadRate t <= 0) then 0 else share 3 10 t.
Definition countReceivingPeers (t : TorrentState) : Z :=
  if decide (t_Status t <> TorrentStatusSeeding \/ t_UploadRate t <= 0) then 0 else share 2 10 t.

Definition countConnectedPeers (t : TorrentState) : Z := len (t_Peers t).
Definition updatePeerStatistics (t : TorrentState) : TorrentState :=
  set_PeerStats (calculateETA t) (len (t_Peers t)) (countConnectedPeers t) (countSendingPeers t) (countReceivingPeers t) t.

(** The torrent, and its snapshot when it has just become complete. *)
Definition updateTorrentStatistics (now : Z) (t : TorrentState) : res (TorrentState * option TorrentState) :=
  '(t, completed) ← updateCompletionStatistics (updateTrackingFields now (updateTransferRates now t));
  Ok (updatePeerStatistics t, if completed : bool then Some t else None).

Fixpoint update_stats (now : Z) (ls : list loc) (tm : TM) : res TM :=
  match ls with
  | [] => Ok tm
  | l :: ls' =>
      '(t, completed) ← updateTorrentStatistics now (torrent_at l tm);
      let tm := update_torrent l (fun _ => t) tm in
      update_stats now ls'
        match completed with
        | Some snapshot => ExecuteHooks HookEventTorrentCompleted snapshot (go [ScriptTask ScriptHookTorrentDone snapshot] tm)
        | None => tm
        end
  end.
Definition updateStats (now : Z) (tm : TM) : res TM := update_stats now (GetAllTorrents tm) tm.
End Stats.

(** ** Peer exchange *)
Definition id_text (torrentID : Z) : bytes := FormatInt torrentID.

Definition AddPEXPeer (now torrentID : Z) (ip : bytes) (port flags : Z) (tm : TM) : res TM :=
  if negb (PexManager.px_enabled (tm_pex tm)) then Ok tm
  else
    let tm := with_pex (PexManager.AddPeer now (id_text torrentID) ip port flags (tm_pex tm)) tm in
    match tm_torrents tm !! torrentID with
    | Some l => updateTorrentPeersLocked l [Address.NewAddress (Address.ArgIP ip) port] tm
    | None => Ok tm
    end.

Definition onPEXPeerDiscovered (torrentID : Z) (ip : bytes) (port : Z) (tm : TM) : res TM :=
  match tm_torrents tm !! torrentID with
  | Some l =>
      tm ← updateTorrentPeersLocked l [Address.NewAddress (Address.ArgIP ip) port] tm;
      Ok (update_torrent l (fun t => set_PeerCount (i64 (t_PeerCount t + 1)) t) tm)
  | None => Ok tm
  end.

(** [fmt.Sscanf(str, format)] with a format that has a verb and no operand to
    store it in. *)
Definition Sscanf_no_operand (str : bytes) : res Z := Err "too few operands for format '%d'".

Fixpoint discovered_peers (calls : list (bytes * bytes * Z)) (tm : TM) : res TM :=
  match calls with
  | [] => Ok tm
  | (tID, ip, port) :: calls' =>
      tm ← match Sscanf_no_operand tID with Ok n => onPEXPeerDiscovered n ip port tm | _ => Ok tm end;
      discovered_peers calls' tm
  end.

Definition ProcessPEXMessage (DestHashFromBytes : bytes -> res bytes) (now torrentID : Z) (pexData : bytes) (tm : TM) : res TM :=
  if negb (PexManager.px_enabled (tm_pex tm)) then Ok tm
  else
    pexMsg ← relabel "failed to decode PEX message" (Extension.px_DecodeFromPayload DestHashFromBytes Extension.zeroPex pexData);
    let '(pex, calls) := PexManager.ProcessPEXMessage now (id_text torrentID) pexMsg (tm_pex tm) in
    discovered_peers calls (with_pex pex tm).

Definition GetPEXMessage (DestHashFromBytes : bytes -> res bytes) (range : gmap bytes PexManager.PEXPeer -> list (bytes * PexManager.PEXPeer)) (now torrentID : Z) (tm : TM) : res (option bytes) * TM :=
  if negb (PexManager.px_enabled (tm_pex tm)) then (Ok None, tm)
  else
    let '(msg, pex) := PexManager.GetPEXMessage range now (id_text torrentID) (tm_pex tm) in
    (match msg with None => Ok None | Some m => b ← Extension.px_EncodeToBytes DestHashFromBytes m; Ok (Some b) end, with_pex pex tm).

Definition ShouldSendPEX (now torrentID : Z) (tm : TM) : bool :=
  if negb (PexManager.px_enabled (tm_pex tm)) then false else PexManager.ShouldSendPEX now (id_text torrentID) (tm_pex tm).

(** ** Web seeds and bandwidth *)
Definition AddWebSeed (parseAuthority : bytes -> res bytes) (torrentID : Z) (webseedURL seedType : bytes) (tm : TM) : res () * TM :=
  match WebSeed.AddWebSeed parseAuthority (id_text torrentID) webseedURL seedType (tm_webseeds tm) with
  | Ok ws => (Ok (), with_webseeds ws tm)
  | Err e => (Err e, tm)
  | Panic p => (Panic p, tm)
  | NoFuel => (NoFuel, tm)
  end.
Definition RemoveWebSeed (torrentID : Z) (webseedURL : bytes) (tm : TM) : TM :=
  with_webseeds (WebSeed.RemoveWebSeed (id_text torrentID) webseedURL (tm_webseeds tm)) tm.
Definition GetWebSeeds (torrentID : Z) (tm : TM) : list WebSeed.WebSeed := WebSeed.GetWebSeeds (id_text torrentID) (tm_webseeds tm).
Definition RetryFailedWebSeeds (now torrentID : Z) (tm : TM) : Z * TM :=
  let '(n, ws) := WebSeed.RetryFailedSeeds now (id_text torrentID) (tm_webseeds tm) in (n, with_webseeds ws tm).

Definition WaitForDownloadBandwidth (wild : Bandwidth.float -> Z) (now bytes : Z) (tm : TM) : Bandwidth.wait * TM :=
  let '(w, bm) := Bandwidth.WaitForDownload wild now bytes (tm_bandwidth tm) in (w, with_bandwidth bm tm).
Definition WaitForUploadBandwidth (wild : Bandwidth.float -> Z) (now bytes : Z) (tm : TM) : Bandwidth.wait * TM :=
  let '(w, bm) := Bandwidth.WaitForUpload wild now bytes (tm_bandwidth tm) in (w, with_bandwidth bm tm).

(** ** Session configuration *)

(** What the operating system says of a path. *)
Inductive stat := IsDirectory | NotDirectory | NotExist | StatError.
Class OperatingSystem (OS : Type) := {
  os_Stat : OS -> bytes -> stat;
  os_MkdirAll : OS -> bytes -> option OS;
  os_Create : OS -> bytes -> option OS;
  os_Remove : OS -> bytes -> OS
}.

Section Session.
Context {OS : Type} `{OperatingSystem OS}.
Context (wild : Bandwidth.float -> Z).

Definition validateAndCreateDownloadDir (downloadDir : bytes) (os : OS) : res () * OS :=
  let after_create (os : OS) : res () * OS :=
    match os_Stat os downloadDir with
    | StatError | NotExist => (Err "cannot stat download directory", os)
    | NotDirectory => (Err "download path is not a directory", os)
    | IsDirectory =>
        let testFile := Metainfo.Join [downloadDir; bs ".write_test"] in
        match os_Create os testFile with
        | None => (Err "download directory is not writable", os)
        | Some os => (Ok (), os_Remove os testFile)
        end
    end in
  match os_Stat os downloadDir with
  | NotExist => match os_MkdirAll os downloadDir with Some os => after_create os | None => (Err "cannot create download directory", os) end
  | StatError => (Err "cannot access download directory", os)
  | _ => after_create os
  end.

Definition validatePortConfiguration (c : SessionConfiguration) : res () :=
  if decide (s_PeerPort c <= 0 \/ 65535 < s_PeerPort c) then Err "invalid peer port" else Ok ().
Definition validatePeerLimits (c : SessionConfiguration) : res () :=
  if decide (s_PeerLimitGlobal c < 0) then Err "peer limit global cannot be negative"
  else if decide (s_PeerLimitPerTorrent c < 0) then Err "peer limit per torrent cannot be negative" else Ok ().
Definition validateQueueSizes (c : SessionConfiguration) : res () :=
  if decide (s_DownloadQueueSize c < 0) then Err "download queue size cannot be negative"
  else if decide (s_SeedQueueSize c < 0) then Err "seed queue size cannot be negative" else Ok ().

Definition validateDirectoryConfiguration (c : SessionConfiguration) (os : OS) : res () * OS :=
  let '(r, os) := if decide (s_DownloadDir c = []) then (Ok (), os)
                  else let '(r, os) := validateAndCreateDownloadDir (s_DownloadDir c) os in (relabel "invalid download directory" r, os) in
  match r with
  | Ok _ =>
      if s_IncompleteDirEnabled c && negb (bool_decide (s_IncompleteDir c = []))
      then let '(r, os) := validateAndCreateDownloadDir (s_IncompleteDir c) os in (relabel "invalid incomplete directory" r, os)
      else (Ok (), os)
  | _ => (r, os)
  end.

Definition validateSessionConfiguration (c : SessionConfiguration) (os : OS) : res () * OS :=
  match (_ ← validatePortConfiguration c; _ ← validatePeerLimits c; validateQueueSizes c) with
  | Ok _ => validateDirectoryConfiguration c os
  | r => (r, os)
  end.

Definition set_queue_config (c : SessionConfiguration) (qm : QueueManager.QueueManager) : QueueManager.QueueManager :=
  QueueManager.MkManager (QueueManager.downloads qm) (QueueManager.seeds qm) (QueueManager.activeDownloads qm) (QueueManager.activeSeeds qm)
    (QueueManager.MkConfig (s_DownloadQueueSize c) (s_SeedQueueSize c) (QueueManager.ProcessInterval (QueueManager.config qm))
      (s_DownloadQueueEnabled c) (s_SeedQueueEnabled c)) (QueueManager.stats qm) (QueueManager.activated qm).

Definition force_all (t : QueueManager.QueueType) (ids : list Z) (qm : QueueManager.QueueManager) : QueueManager.QueueManager :=
  fold_left (fun qm id => QueueManager.ForceActivate id t qm) ids qm.

Definition updateQueueConfiguration (c : SessionConfiguration) (tm : TM) : TM :=
  let qm := set_queue_config c (tm_queue tm) in
  let qm := if s_DownloadQueueEnabled c then qm
            else force_all QueueManager.DownloadQueue (map_range (QueueManager.q_items (QueueManager.downloads qm))).*1 qm in
  let qm := if s_SeedQueueEnabled c then qm
            else force_all QueueManager.SeedQueue (map_range (QueueManager.q_items (QueueManager.seeds qm))).*1 qm in
  after_queue qm tm.

Definition applyQueueConfigChanges (old new : SessionConfiguration) (tm : TM) : TM :=
  if decide (s_DownloadQueueEnabled old <> s_DownloadQueueEnabled new \/ s_DownloadQueueSize old <> s_DownloadQueueSize new \/
             s_SeedQueueEnabled old <> s_SeedQueueEnabled new \/ s_SeedQueueSize old <> s_SeedQueueSize new)
  then updateQueueConfiguration new tm else tm.

Definition set_dirs (dir incomplete : bytes) (enabled : bool) (c : TorrentManagerConfig) : TorrentManagerConfig :=
  MkConfig dir incomplete enabled (c_MaxTorrents c) (c_PeerLimitGlobal c) (c_PeerLimitPerTorrent c) (c_PeerPort c) (c_SessionConfig c).

Definition updateDownloadDirectory (newDir : bytes) (tm : TM) : TM :=
  with_config (set_dirs newDir (c_IncompleteDir (tm_config tm)) (c_IncompleteDirEnabled (tm_config tm)) (tm_config tm)) tm.
Definition applyDownloadDirChanges (old new : SessionConfiguration) (tm : TM) : TM :=
  if decide (s_DownloadDir old <> s_DownloadDir new /\ s_DownloadDir new <> []) then updateDownloadDirectory (s_DownloadDir new) tm else tm.

Definition updateIncompleteDirConfiguration (new : SessionConfiguration) (tm : TM) : TM :=
  with_config (set_dirs (c_DownloadDir (tm_config tm)) (s_IncompleteDir new) (s_IncompleteDirEnabled new) (tm_config tm)) tm.
Definition applyIncompleteDirChanges (old new : SessionConfiguration) (tm : TM) : TM :=
  if decide (s_IncompleteDir old <> s_IncompleteDir new \/ s_IncompleteDirEnabled old <> s_IncompleteDirEnabled new)
  then updateIncompleteDirConfiguration new tm else tm.

Definition updatePeerLimits (new : SessionConfiguration) (tm : TM) : TM :=
  let c := tm_config tm in
  with_config (MkConfig (c_DownloadDir c) (c_IncompleteDir c) (c_IncompleteDirEnabled c) (c_MaxTorrents c)
    (s_PeerLimitGlobal new) (s_PeerLimitPerTorrent new) (c_PeerPort c) (c_SessionConfig c)) tm.
Definition applyPeerLimitChanges (old new : SessionConfiguration) (tm : TM) : TM :=
  if decide (s_PeerLimitGlobal old <> s_PeerLimitGlobal new \/ s_PeerLimitPerTorrent old <> s_PeerLimitPerTorrent new)
  then updatePeerLimits new tm else tm.

Definition updateSpeedLimits (now : Z) (new : SessionConfiguration) (tm : TM) : TM :=
  with_bandwidth (Bandwidth.manager_UpdateConfiguration wild now (speed_limits new) (tm_bandwidth tm)) tm.
Definition applySpeedLimitChanges (now : Z) (old new : SessionConfiguration) (tm : TM) : TM :=
  if decide (s_SpeedLimitDown old <> s_SpeedLimitDown new \/ s_SpeedLimitDownEnabled old <> s_SpeedLimitDownEnabled new \/
             s_SpeedLimitUp old <> s_SpeedLimitUp new \/ s_SpeedLimitUpEnabled old <> s_SpeedLimitUpEnabled new)
  then updateSpeedLimits now new tm else tm.

Definition updateBlocklistConfiguration (c : SessionConfiguration) (tm : TM) : TM :=
  let bm := Blocklist.SetEnabled (s_BlocklistEnabled c) (tm_blocklist tm) in
  if decide (s_BlocklistURL c = []) then with_blocklist bm tm
  else let '(bm, update) := Blocklist.SetURL (s_BlocklistURL c) bm in
       let tm := with_blocklist bm tm in if update : bool then go [UpdateBlocklist] tm else tm.

Definition applyBlocklistConfigChanges (old new : SessionConfiguration) (tm : TM) : TM :=
  if decide (s_BlocklistEnabled old <> s_BlocklistEnabled new \/ s_BlocklistURL old <> s_BlocklistURL new)
  then updateBlocklistConfiguration new tm else tm.

Definition updateScriptConfiguration (c : SessionConfiguration) (tm : TM) : TM :=
  with_scripts (<[ScriptHookTorrentDone :=
    MkScript (s_ScriptTorrentDoneEnabled c) (s_ScriptTorrentDoneFilename c) (30 * Bandwidth.Second)]> (tm_scripts tm)) tm.

Definition applyScriptConfigChanges (old new : SessionConfiguration) (tm : TM) : TM :=
  if decide (s_ScriptTorrentDoneEnabled old <> s_ScriptTorrentDoneEnabled new \/ s_ScriptTorrentDoneFilename old <> s_ScriptTorrentDoneFilename new)
  then updateScriptConfiguration new tm else tm.

Definition updatePEXConfiguration (c : SessionConfiguration) (tm : TM) : TM := with_pex (PexManager.SetEnabled (s_PEXEnabled c) (tm_pex tm)) tm.
Definition updateWebSeedConfiguration (c : SessionConfiguration) (tm : TM) : TM :=
  with_webseeds (WebSeed.SetEnabled (s_WebSeedsEnabled c) (tm_webseeds tm)) tm.
Definition applyPEXConfigChanges (old new : SessionConfiguration) (tm : TM) : TM :=
  if decide (s_PEXEnabled old <> s_PEXEnabled new) then updatePEXConfiguration new tm else tm.
Definition applyWebSeedConfigChanges (old new : SessionConfiguration) (tm : TM) : TM :=
  if decide (s_WebSeedsEnabled old <> s_WebSeedsEnabled new) then updateWebSeedConfiguration new tm else tm.

(** None of the steps returns an error. *)
Definition applyRuntimeConfigChanges (now : Z) (old new : SessionConfiguration) (tm : TM) : TM :=
  let tm := applyQueueConfigChanges old new tm in
  let tm := applyDownloadDirChanges old new tm in
  let tm := applyIncompleteDirChanges old new tm in
  let tm := applyPeerLimitChanges old new tm in
  let tm := applySpeedLimitChanges now old new tm in
  let tm := applyBlocklistConfigChanges old new tm in
  let tm := applyScriptConfigChanges old new tm in
  applyWebSeedConfigChanges old new (applyPEXConfigChanges old new tm).

Definition UpdateSessionConfig (now : Z) (c : SessionConfiguration) (os : OS) (tm : TM) : res () * TM * OS :=
  match validateSessionConfiguration c os with
  | (Ok _, os) => (Ok (), applyRuntimeConfigChanges now (tm_session tm) c (with_session c tm), os)
  | (r, os) => (r, tm, os)
  end.

Definition GetSessionConfig (tm : TM) : SessionConfiguration := set_BlocklistSize (Blocklist.GetSize (tm_blocklist tm)) (tm_session tm).

(** The callback of the bandwidth scheduler. *)
Definition schedule_changed (now downloadLimit uploadLimit : Z) (tm : TM) : TM :=
  let s := tm_session tm in
  let s := set_Speed (if decide (0 < downloadLimit) then downloadLimit else s_SpeedLimitDown s) (bool_decide (0 < downloadLimit))
             (if decide (0 < uploadLimit) then uploadLimit else s_SpeedLimitUp s) (bool_decide (0 < uploadLimit)) s in
  with_bandwidth (Bandwidth.manager_UpdateConfiguration wild now (speed_limits s) (tm_bandwidth tm)) (with_session s tm).
End Session.

(** ** Creating a manager *)
Definition applyBasicConfigDefaults (c : TorrentManagerConfig) : TorrentManagerConfig :=
  if decide (c_DownloadDir c = []) then set_dirs (bs "downloads") (c_IncompleteDir c) (c_IncompleteDirEnabled c) c else c.
Definition applyNumericConfigDefaults (c : TorrentManagerConfig) : TorrentManagerConfig :=
  let or_default (d n : Z) := if decide (n <= 0) then d else n in
  MkConfig (c_DownloadDir c) (c_IncompleteDir c) (c_IncompleteDirEnabled c) (or_default 100 (c_MaxTorrents c))
    (or_default 200 (c_PeerLimitGlobal c)) (or_default 50 (c_PeerLimitPerTorrent c)) (or_default 51413 (c_PeerPort c)) (c_SessionConfig c).

Definition createDefaultSessionConfig (c : TorrentManagerConfig) : SessionConfiguration :=
  MkSession (c_DownloadDir c) (c_IncompleteDir c) (c_IncompleteDirEnabled c) (c_PeerPort c) (c_PeerLimitGlobal c) (c_PeerLimitPerTorrent c)
    true true false true true (bs "preferred") 100 false 100 false 0 0 false
    false 0 false 0 (Bandwidth.f_of_int 2) false 0 false true 4 (bs "go-i2p-bt/1.0.0") false [] 0 false [].

Definition applySessionConfigDefaults (c : TorrentManagerConfig) : TorrentManagerConfig :=
  let s := c_SessionConfig c in
  if decide (s_Version s = []) then
    MkConfig (c_DownloadDir c) (c_IncompleteDir c) (c_IncompleteDirEnabled c) (c_MaxTorrents c) (c_PeerLimitGlobal c) (c_PeerLimitPerTorrent c)
      (c_PeerPort c) (set_Blocklist (s_BlocklistEnabled s) (s_BlocklistURL s) (createDefaultSessionConfig c))
  else c.
Definition applyConfigDefaults (c : TorrentManagerConfig) : TorrentManagerConfig :=
  applySessionConfigDefaults (applyNumericConfigDefaults (applyBasicConfigDefaults c)).

(** [listening]: whether the socket of the DHT could be opened. *)
Definition NewTorrentManager (now : Z) (listening : bool) (c : TorrentManagerConfig) : TM :=
  let c := applyConfigDefaults c in
  let s := c_SessionConfig c in
  let bm := Blocklist.SetEnabled (s_BlocklistEnabled s) Blocklist.NewBlocklistManager in
  let '(bm, update) := if decide (s_BlocklistURL s = []) then (bm, false) else Blocklist.SetURL (s_BlocklistURL s) bm in
  updateScriptConfiguration s
    (MkTM c [] ∅ 1 s
      (QueueManager.NewQueueManager (QueueManager.MkConfig (s_DownloadQueueSize s) (s_SeedQueueSize s) (5 * Bandwidth.Second)
        (s_DownloadQueueEnabled s) (s_SeedQueueEnabled s)))
      (Bandwidth.NewBandwidthManager now (speed_limits s)) bm (PexManager.NewPEXManager (s_PEXEnabled s)) (WebSeed.NewWebSeedManager (s_WebSeedsEnabled s))
      ∅ (s_DHTEnabled s && listening) 0 0 [] (if update : bool then [UpdateBlocklist] else []) []).
End Manager.

End TorrentManager.
