(* ===== verification/EventNotification.v ===== *)
(** * Event notification of the daemon

    Models [src/rpc/event_notification.go]: subscriptions, publishing into the
    bounded channel, the worker that takes events from it and delivers them,
    and the shutdown.

    A method that holds the lock for its whole body is a function on the state;
    publishing, the worker, the goroutines that deliver and the shutdown
    interleave, and are the step relation [step]. A subscriber is the user's:
    its ID and its filters do not change, and a call of its [HandleEvent]
    returns, fails or panics. The pointers to [SubscriberInfo] are locations
    of a heap, since a delivery may outlive its subscription. The data of an
    event are of any type [D]; what is logged is left out. *)

From S2P Require Import Prelude Strconv Metainfo MetainfoFacts TorrentFile Bandwidth RpcTypes.
Import Strconv RpcTypes.

Module EventNotification.

(** ** Event types *)
Abbreviation EventType := bytes.
Definition EventTorrentAdded : EventType := bs "torrent.added".
Definition EventTorrentStarted : EventType := bs "torrent.started".
Definition EventTorrentStopped : EventType := bs "torrent.stopped".
Definition EventTorrentCompleted : EventType := bs "torrent.completed".
Definition EventTorrentRemoved : EventType := bs "torrent.removed".
Definition EventTorrentError : EventType := bs "torrent.error".
Definition EventTorrentMetadata : EventType := bs "torrent.metadata".
Definition EventSessionStarted : EventType := bs "session.started".
Definition EventSessionStopped : EventType := bs "session.stopped".
Definition EventSessionConfigChanged : EventType := bs "session.config_changed".
Definition EventPeerConnected : EventType := bs "peer.connected".
Definition EventPeerDisconnected : EventType := bs "peer.disconnected".
Definition EventDownloadStarted : EventType := bs "download.started".
Definition EventDownloadPaused : EventType := bs "download.paused".
Definition EventDownloadFinished : EventType := bs "download.finished".
Definition EventSystemShutdown : EventType := bs "system.shutdown".
Definition EventSystemError : EventType := bs "system.error".

Definition getAllEventTypes : list EventType :=
  [EventTorrentAdded; EventTorrentStarted; EventTorrentStopped; EventTorrentCompleted; EventTorrentRemoved; EventTorrentError; EventTorrentMetadata;
   EventSessionStarted; EventSessionStopped; EventSessionConfigChanged; EventPeerConnected; EventPeerDisconnected;
   EventDownloadStarted; EventDownloadPaused; EventDownloadFinished; EventSystemShutdown; EventSystemError].

Section Events.
Context {D : Type}.

(** ** Data *)
Record Event := MkEvent {
  ev_Type : EventType;
  ev_ID : bytes;
  ev_Timestamp : option Z;
  ev_Source : bytes;
  ev_Data : D;
  ev_Torrent : option TorrentState;
  ev_Error : option string
}.

Record EventSubscriber := MkSubscriber { es_ID : bytes; es_Filters : list EventType }.

Record SubscriberInfo := MkInfo {
  si_ID : bytes;
  si_Filters : list EventType;
  si_Status : bytes;
  si_SubscribeTime : Z;
  si_EventCount : Z;
  si_ErrorCount : Z;
  si_LastEvent : option Z;
  si_LastError : option Z
}.

Record EventMetrics := MkMetrics {
  em_TotalEvents : Z;
  em_TotalSubscribers : Z;
  em_ActiveSubscribers : Z;
  em_EventsDropped : Z;
  em_AverageLatency : Z;
  em_LastEvent : option Z
}.

(** [en_infos] is the heap of the [SubscriberInfo] values; the context and the
    channel are [en_done], [en_closed] and [en_eventChan], of capacity 1000. *)
Record EventNotificationSystem := MkSystem {
  en_subscribers : gmap bytes EventSubscriber;
  en_infos : list SubscriberInfo;
  en_subscriberInfo : gmap bytes nat;
  en_typeSubscribers : gmap EventType (list bytes);
  en_bufferSize : Z;
  en_timeout : Z;
  en_metrics : EventMetrics;
  en_done : bool;
  en_closed : bool;
  en_eventChan : list Event
}.
Definition chan_capacity : nat := 1000.

Definition NewEventNotificationSystem : EventNotificationSystem :=
  MkSystem ∅ [] ∅ ∅ 1000 (30 * Bandwidth.Second) (MkMetrics 0 0 0 0 0 None) false false [].

Definition with_registry (subs : gmap bytes EventSubscriber) (infos : list SubscriberInfo) (ptrs : gmap bytes nat) (ens : EventNotificationSystem) :
    EventNotificationSystem :=
  MkSystem subs infos ptrs (en_typeSubscribers ens) (en_bufferSize ens) (en_timeout ens) (en_metrics ens) (en_done ens) (en_closed ens) (en_eventChan ens).
Definition with_routes (v : gmap EventType (list bytes)) (ens : EventNotificationSystem) : EventNotificationSystem :=
  MkSystem (en_subscribers ens) (en_infos ens) (en_subscriberInfo ens) v (en_bufferSize ens) (en_timeout ens) (en_metrics ens) (en_done ens)
    (en_closed ens) (en_eventChan ens).
Definition with_metrics (v : EventMetrics) (ens : EventNotificationSystem) : EventNotificationSystem :=
  MkSystem (en_subscribers ens) (en_infos ens) (en_subscriberInfo ens) (en_typeSubscribers ens) (en_bufferSize ens) (en_timeout ens) v (en_done ens)
    (en_closed ens) (en_eventChan ens).
Definition with_chan (v : list Event) (ens : EventNotificationSystem) : EventNotificationSystem :=
  MkSystem (en_subscribers ens) (en_infos ens) (en_subscriberInfo ens) (en_typeSubscribers ens) (en_bufferSize ens) (en_timeout ens) (en_metrics ens)
    (en_done ens) (en_closed ens) v.
Definition with_lifecycle (done_ closed : bool) (ens : EventNotificationSystem) : EventNotificationSystem :=
  MkSystem (en_subscribers ens) (en_infos ens) (en_subscriberInfo ens) (en_typeSubscribers ens) (en_bufferSize ens) (en_timeout ens) (en_metrics ens)
    done_ closed (en_eventChan ens).

Definition SetBufferSize (size_ : Z) (ens : EventNotificationSystem) : EventNotificationSystem :=
  MkSystem (en_subscribers ens) (en_infos ens) (en_subscriberInfo ens) (en_typeSubscribers ens) size_ (en_timeout ens) (en_metrics ens) (en_done ens)
    (en_closed ens) (en_eventChan ens).
Definition SetTimeout (timeout : Z) (ens : EventNotificationSystem) : EventNotificationSystem :=
  MkSystem (en_subscribers ens) (en_infos ens) (en_subscriberInfo ens) (en_typeSubscribers ens) (en_bufferSize ens) timeout (en_metrics ens) (en_done ens)
    (en_closed ens) (en_eventChan ens).

(** ** Subscribing *)
Definition validateSubscriber (subscriber : option EventSubscriber) : res EventSubscriber :=
  match subscriber with
  | None => Err "subscriber cannot be nil"
  | Some s => if decide (es_ID s = []) then Err "subscriber ID cannot be empty" else Ok s
  end.
Definition checkDuplicateSubscriber (id : bytes) (ens : EventNotificationSystem) : res () :=
  match en_subscribers ens !! id with Some _ => Err "subscriber with ID already exists" | None => Ok () end.

Definition registerSubscriberMetadata (now : Z) (s : EventSubscriber) (ens : EventNotificationSystem) : EventNotificationSystem :=
  with_registry (<[es_ID s := s]> (en_subscribers ens)) (en_infos ens ++ [MkInfo (es_ID s) (es_Filters s) (bs "active") now 0 0 None None])
    (<[es_ID s := length (en_infos ens)]> (en_subscriberInfo ens)) ens.

Definition routes_of (t : EventType) (ens : EventNotificationSystem) : list bytes := default [] (en_typeSubscribers ens !! t).
Definition addSubscriberToEventType (t : EventType) (id : bytes) (ens : EventNotificationSystem) : EventNotificationSystem :=
  with_routes (<[t := routes_of t ens ++ [id]]> (en_typeSubscribers ens)) ens.
Definition registerSubscriberForSpecificEventTypes (id : bytes) (filters : list EventType) (ens : EventNotificationSystem) : EventNotificationSystem :=
  fold_left (fun ens t => addSubscriberToEventType t id ens) filters ens.
Definition registerSubscriberForAllEventTypes (id : bytes) (ens : EventNotificationSystem) : EventNotificationSystem :=
  fold_left (fun ens t => addSubscriberToEventType t id ens) getAllEventTypes ens.
Definition registerSubscriberRouting (s : EventSubscriber) (ens : EventNotificationSystem) : EventNotificationSystem :=
  match es_Filters s with
  | [] => registerSubscriberForAllEventTypes (es_ID s) ens
  | filters => registerSubscriberForSpecificEventTypes (es_ID s) filters ens
  end.
Definition updateSubscriptionMetrics (ens : EventNotificationSystem) : EventNotificationSystem :=
  let m := en_metrics ens in
  with_metrics (MkMetrics (em_TotalEvents m) (i64 (em_TotalSubscribers m + 1)) (i64 (em_ActiveSubscribers m + 1)) (em_EventsDropped m)
    (em_AverageLatency m) (em_LastEvent m)) ens.

Definition Subscribe (now : Z) (subscriber : option EventSubscriber) (ens : EventNotificationSystem) : res () * EventNotificationSystem :=
  match validateSubscriber subscriber with
  | Ok s =>
      match checkDuplicateSubscriber (es_ID s) ens with
      | Ok _ => (Ok (), updateSubscriptionMetrics (registerSubscriberRouting s (registerSubscriberMetadata now s ens)))
      | r => (r, ens)
      end
  | Err e => (Err e, ens)
  | Panic p => (Panic p, ens)
  | NoFuel => (NoFuel, ens)
  end.

(** [append(subscribers[:i], subscribers[i+1:]...)] at the first occurrence. *)
Fixpoint remove_first (id : bytes) (ids : list bytes) : list bytes :=
  match ids with
  | [] => []
  | i :: ids' => if decide (i = id) then ids' else i :: remove_first id ids'
  end.
Definition removeSubscriberFromType (t : EventType) (id : bytes) (ens : EventNotificationSystem) : EventNotificationSystem :=
  with_routes (alter (remove_first id) t (en_typeSubscribers ens)) ens.

Definition mark_removed (info : SubscriberInfo) : SubscriberInfo :=
  MkInfo (si_ID info) (si_Filters info) (bs "removed") (si_SubscribeTime info) (si_EventCount info) (si_ErrorCount info) (si_LastEvent info) (si_LastError info).

(** The types are independent, so that the order of the range over the map
    does not matter. *)
Definition Unsubscribe (subscriberID : bytes) (ens : EventNotificationSystem) : res () * EventNotificationSystem :=
  if decide (subscriberID = []) then (Err "subscriber ID cannot be empty", ens)
  else match en_subscribers ens !! subscriberID with
  | None => (Err "subscriber with ID not found", ens)
  | Some s =>
      let ens :=
        match es_Filters s with
        | [] => with_routes (remove_first subscriberID <$> en_typeSubscribers ens) ens
        | filters => fold_left (fun ens t => removeSubscriberFromType t subscriberID ens) filters ens
        end in
      let ens :=
        match en_subscriberInfo ens !! subscriberID with
        | Some l => with_registry (en_subscribers ens) (alter mark_removed l (en_infos ens)) (delete subscriberID (en_subscriberInfo ens)) ens
        | None => ens
        end in
      let ens := with_registry (delete subscriberID (en_subscribers ens)) (en_infos ens) (en_subscriberInfo ens) ens in
      let m := en_metrics ens in
      (Ok (), with_metrics (MkMetrics (em_TotalEvents m) (em_TotalSubscribers m) (i64 (em_ActiveSubscribers m - 1)) (em_EventsDropped m)
        (em_AverageLatency m) (em_LastEvent m)) ens)
  end.

(** ** Publishing *)
Definition validateEvent (event : option Event) : res Event := match event with None => Err "event cannot be nil" | Some e => Ok e end.
Definition checkSystemShutdown (ens : EventNotificationSystem) : res () := if en_done ens then Err "event notification system is shut down" else Ok ().

(** [unixNano]: the clock in nanoseconds. *)
Definition event_id (unixNano : Z) (t : EventType) : bytes := FormatInt unixNano ++ bs "-" ++ t.
Definition normalizeEvent (unixNano : Z) (e : Event) : Event :=
  MkEvent (ev_Type e) (if decide (ev_ID e = []) then event_id unixNano (ev_Type e) else ev_ID e)
    (match ev_Timestamp e with Some t => Some t | None => Some unixNano end) (ev_Source e) (ev_Data e) (ev_Torrent e) (ev_Error e).

Definition recordSuccessfulEvent (now : Z) (ens : EventNotificationSystem) : res () * EventNotificationSystem :=
  let m := en_metrics ens in
  (Ok (), with_metrics (MkMetrics (i64 (em_TotalEvents m + 1)) (em_TotalSubscribers m) (em_ActiveSubscribers m) (em_EventsDropped m)
    (em_AverageLatency m) (Some now)) ens).
Definition handleDroppedEvent (ens : EventNotificationSystem) : res () * EventNotificationSystem :=
  let m := en_metrics ens in
  (Err "event buffer full, event dropped", with_metrics (MkMetrics (em_TotalEvents m) (em_TotalSubscribers m) (em_ActiveSubscribers m)
    (i64 (em_EventsDropped m + 1)) (em_AverageLatency m) (em_LastEvent m)) ens).

(** The [select] of [sendEventToChannel] picks any case that is ready: the
    send, which panics on a closed channel, or the end of the context; without
    one, the default. The case taken then runs on its own: it takes the lock
    to count the event, and anything may happen before it gets it. *)
Definition has_room (ens : EventNotificationSystem) : bool := bool_decide (length (en_eventChan ens) < chan_capacity)%nat.
Inductive selected := Sent | Closed | Done | Full.
Inductive sendEventToChannel_select (e : Event) (ens : EventNotificationSystem) : selected -> EventNotificationSystem -> Prop :=
  | select_sent : en_closed ens = false -> has_room ens = true -> sendEventToChannel_select e ens Sent (with_chan (en_eventChan ens ++ [e]) ens)
  | select_closed : en_closed ens = true -> sendEventToChannel_select e ens Closed ens
  | select_done : en_done ens = true -> sendEventToChannel_select e ens Done ens
  | select_full : en_closed ens = false -> has_room ens = false -> en_done ens = false -> sendEventToChannel_select e ens Full ens.
Definition sendEventToChannel_case (now : Z) (c : selected) (ens : EventNotificationSystem) : res () * EventNotificationSystem :=
  match c with
  | Sent => recordSuccessfulEvent now ens
  | Closed => (Panic "send on closed channel", ens)
  | Done => (Err "event notification system is shut down", ens)
  | Full => handleDroppedEvent ens
  end.

(** The first half of [PublishEvent]: what it returns at once, or the event to
    send. *)
Definition PublishEvent_start (unixNano : Z) (event : option Event) (ens : EventNotificationSystem) : res Event :=
  e ← validateEvent event;
  _ ← checkSystemShutdown ens;
  mret (normalizeEvent unixNano e).

Definition CreateEvent (unixNano : Z) (t : EventType) (source : bytes) (data : D) : Event :=
  MkEvent t (event_id unixNano t) (Some unixNano) source data None None.
Definition CreateTorrentEvent (unixNano : Z) (t : EventType) (torrent : option TorrentState) (data : D) : Event :=
  let e := CreateEvent unixNano t (bs "torrent_manager") data in
  MkEvent (ev_Type e) (ev_ID e) (ev_Timestamp e) (ev_Source e) (ev_Data e) torrent (ev_Error e).
Definition CreateErrorEvent (unixNano : Z) (t : EventType) (source : bytes) (err : option string) (data : D) : Event :=
  let e := CreateEvent unixNano t source data in
  MkEvent (ev_Type e) (ev_ID e) (ev_Timestamp e) (ev_Source e) (ev_Data e) (ev_Torrent e) err.

(** The events the convenience methods publish. *)
Definition PublishTorrentEvent (now : Z) (t : EventType) (torrent : option TorrentState) (data : D) : Event :=
  MkEvent t [] (Some now) (bs "torrent_manager") data torrent None.
Definition PublishSessionEvent (now : Z) (t : EventType) (data : D) : Event := MkEvent t [] (Some now) (bs "session_manager") data None None.
Definition PublishErrorEvent (now : Z) (t : EventType) (err : option string) (data : D) : Event := MkEvent t [] (Some now) (bs "system") data None err.

(** ** Reading *)
Definition GetSubscriberInfo (ens : EventNotificationSystem) : gmap bytes SubscriberInfo := omap (fun l => en_infos ens !! l) (en_subscriberInfo ens).
Definition GetMetrics (ens : EventNotificationSystem) : EventMetrics := en_metrics ens.
Definition ListSubscribersByType (ens : EventNotificationSystem) : gmap EventType (list bytes) :=
  filter (fun p => p.2 <> []) (en_typeSubscribers ens).

(** ** Delivering *)

(** What [processEvent] collects under the lock: the subscribers of the type
    and the pointers to their infos; every subscriber has one. *)
Definition collect_subscribers (e : Event) (ens : EventNotificationSystem) : list (EventSubscriber * nat) :=
  omap (fun id => match en_subscribers ens !! id, en_subscriberInfo ens !! id with Some s, Some l => Some (s, l) | _, _ => None end)
    (routes_of (ev_Type e) ens).

Inductive handled := Handled (err : option string) | HandlerPanics.
Definition count_error (now : Z) (info : SubscriberInfo) : SubscriberInfo :=
  MkInfo (si_ID info) (si_Filters info) (si_Status info) (si_SubscribeTime info) (si_EventCount info) (i64 (si_ErrorCount info + 1)) (si_LastEvent info)
    (Some now).
Definition count_event (now : Z) (info : SubscriberInfo) : SubscriberInfo :=
  MkInfo (si_ID info) (si_Filters info) (si_Status info) (si_SubscribeTime info) (i64 (si_EventCount info + 1)) (si_ErrorCount info) (Some now)
    (si_LastError info).

(** After [HandleEvent] has returned or panicked. *)
Definition deliverEventToSubscriber (now : Z) (outcome : handled) (info : nat) (ens : EventNotificationSystem) : EventNotificationSystem :=
  let f := match outcome with Handled None => count_event now | _ => count_error now end in
  with_registry (en_subscribers ens) (alter f info (en_infos ens)) (en_subscriberInfo ens) ens.

Definition finish_event (elapsed : Z) (ens : EventNotificationSystem) : EventNotificationSystem :=
  let m := en_metrics ens in
  with_metrics (MkMetrics (em_TotalEvents m) (em_TotalSubscribers m) (em_ActiveSubscribers m) (em_EventsDropped m)
    (Z.quot (i64 (em_AverageLatency m + elapsed)) 2) (em_LastEvent m)) ens.

(** The last part of [Shutdown], after the worker has ended. *)
Definition clear_registries (ens : EventNotificationSystem) : EventNotificationSystem :=
  let m := en_metrics ens in
  with_metrics (MkMetrics (em_TotalEvents m) (em_TotalSubscribers m) 0 (em_EventsDropped m) (em_AverageLatency m) (em_LastEvent m))
    (with_routes ∅ (with_registry ∅ (en_infos ens) ∅ ens)).

(** ** The system and its goroutines *)

(** The worker waits, has taken an event, delivers one to the subscribers left,
    or has ended. *)
Inductive worker := Waits | Took (e : Event) | Delivers (e : Event) (left_ : list (EventSubscriber * nat)) | Ended.

(** A publisher that has passed the checks of [PublishEvent], with its event; one
    past the [select] of [sendEventToChannel], with the case it runs; a call of
    [Shutdown] after the cancellation, or after closing the channel. The last
    fields keep the history: the events accepted by the channel, the events
    taken from it with the IDs they go to, the calls of [HandleEvent] that have
    returned or panicked and been counted, and the events dropped. *)
Record world := MkWorld {
  w_ens : EventNotificationSystem;
  w_worker : worker;
  w_publishers : list Event;
  w_selected : list selected;
  w_closing : nat;
  w_waiting : nat;
  w_accepted : list Event;
  w_taken : list (Event * list bytes);
  w_calls : list (Event * bytes);
  w_dropped : list Event;
  w_panicked : bool
}.
Definition start_world : world := MkWorld NewEventNotificationSystem Waits [] [] 0 0 [] [] [] [] false.
Definition with_ens (v : EventNotificationSystem) (w : world) : world :=
  MkWorld v (w_worker w) (w_publishers w) (w_selected w) (w_closing w) (w_waiting w) (w_accepted w) (w_taken w) (w_calls w) (w_dropped w) (w_panicked w).
Definition with_worker (v : worker) (w : world) : world :=
  MkWorld (w_ens w) v (w_publishers w) (w_selected w) (w_closing w) (w_waiting w) (w_accepted w) (w_taken w) (w_calls w) (w_dropped w) (w_panicked w).

Inductive step : world -> world -> Prop :=
  | step_subscribe now subscriber w : step w (with_ens (Subscribe now subscriber (w_ens w)).2 w)
  | step_unsubscribe id w : step w (with_ens (Unsubscribe id (w_ens w)).2 w)
  | step_buffer n w : step w (with_ens (SetBufferSize n (w_ens w)) w)
  | step_timeout t w : step w (with_ens (SetTimeout t (w_ens w)) w)
  (* [PublishEvent] *)
  | step_publish unixNano event e w : PublishEvent_start unixNano event (w_ens w) = Ok e ->
      step w (MkWorld (w_ens w) (w_worker w) (w_publishers w ++ [e]) (w_selected w) (w_closing w) (w_waiting w) (w_accepted w) (w_taken w) (w_calls w)
        (w_dropped w) (w_panicked w))
  (* [sendEventToChannel]: its [select], and then the case it has taken *)
  | step_send e before after c ens w : w_publishers w = before ++ e :: after -> sendEventToChannel_select e (w_ens w) c ens ->
      step w (MkWorld ens (w_worker w) (before ++ after) (w_selected w ++ [c]) (w_closing w) (w_waiting w)
        (w_accepted w ++ match c with Sent => [e] | _ => [] end) (w_taken w) (w_calls w)
        (w_dropped w ++ match c with Full => [e] | _ => [] end) (w_panicked w))
  | step_record now c before after r ens w : w_selected w = before ++ c :: after -> sendEventToChannel_case now c (w_ens w) = (r, ens) ->
      step w (MkWorld ens (w_worker w) (w_publishers w) (before ++ after) (w_closing w) (w_waiting w) (w_accepted w) (w_taken w) (w_calls w) (w_dropped w)
        (match r with Panic _ => true | _ => w_panicked w end))
  (* the worker of [startEventWorker] and [processEvent] *)
  | step_take e rest w : w_worker w = Waits -> en_eventChan (w_ens w) = e :: rest ->
      step w (MkWorld (with_chan rest (w_ens w)) (Took e) (w_publishers w) (w_selected w) (w_closing w) (w_waiting w) (w_accepted w) (w_taken w) (w_calls w)
        (w_dropped w) (w_panicked w))
  | step_end w : w_worker w = Waits -> en_done (w_ens w) = true \/ (en_closed (w_ens w) = true /\ en_eventChan (w_ens w) = []) ->
      step w (with_worker Ended w)
  | step_collect e w : w_worker w = Took e ->
      step w (MkWorld (w_ens w) (Delivers e (collect_subscribers e (w_ens w))) (w_publishers w) (w_selected w) (w_closing w) (w_waiting w) (w_accepted w)
        (w_taken w ++ [(e, routes_of (ev_Type e) (w_ens w))]) (w_calls w) (w_dropped w) (w_panicked w))
  (* a goroutine of [processEvent], once [HandleEvent] has returned or panicked, counts it under the lock *)
  | step_deliver now outcome e s info before after w : w_worker w = Delivers e (before ++ (s, info) :: after) ->
      step w (MkWorld (deliverEventToSubscriber now outcome info (w_ens w)) (Delivers e (before ++ after)) (w_publishers w) (w_selected w) (w_closing w) (w_waiting w)
        (w_accepted w) (w_taken w) (w_calls w ++ [(e, es_ID s)]) (w_dropped w) (w_panicked w))
  | step_finish elapsed e w : w_worker w = Delivers e [] -> step w (with_worker Waits (with_ens (finish_event elapsed (w_ens w)) w))
  (* [Shutdown] *)
  | step_cancel w :
      step w (MkWorld (with_lifecycle true (en_closed (w_ens w)) (w_ens w)) (w_worker w) (w_publishers w) (w_selected w) (S (w_closing w)) (w_waiting w)
        (w_accepted w) (w_taken w) (w_calls w) (w_dropped w) (w_panicked w))
  | step_close n w : w_closing w = S n ->
      step w (if en_closed (w_ens w)
        then MkWorld (w_ens w) (w_worker w) (w_publishers w) (w_selected w) n (w_waiting w) (w_accepted w) (w_taken w) (w_calls w) (w_dropped w) true
        else MkWorld (with_lifecycle (en_done (w_ens w)) true (w_ens w)) (w_worker w) (w_publishers w) (w_selected w) n (S (w_waiting w)) (w_accepted w) (w_taken w)
          (w_calls w) (w_dropped w) (w_panicked w))
  | step_clear n w : w_waiting w = S n -> w_worker w = Ended ->
      step w (MkWorld (clear_registries (w_ens w)) Ended (w_publishers w) (w_selected w) (w_closing w) n (w_accepted w) (w_taken w) (w_calls w) (w_dropped w)
        (w_panicked w)).

End Events.
End EventNotification.
