(* ===== verification/Plugins.v ===== *)
(** * Plugins of the daemon

    Models [src/rpc/plugin.go]: registering plugins in the typed registries,
    running them over a request, and the shutdown.

    [ExecuteBehaviorPlugins] reads a slice under the lock and walks over it
    after releasing the lock, while removals shift the elements of the same
    array: slices are therefore modelled with their arrays, as pointer, length
    and capacity over a heap of arrays ([grow] is the capacity Go picks when an
    array is full). A plugin is the user's. What its identity methods return
    does not change; a call of a handler returns or fails, and the operations
    on the manager that take place during the call, by the plugin itself or by
    another goroutine, come with it. The parameters of a request and the data
    of an interceptor are of any types [P] and [R] ([as_params] is the type
    assertion to a map); logging and contexts are left out. *)

From S2P Require Import Prelude Metainfo MetainfoFacts TorrentFile Bandwidth RpcTypes.
Import RpcTypes.

Class Payload (P R : Type) := {
  of_params : P -> R;
  as_params : R -> option P;
  as_of_params : forall p, as_params (of_params p) = Some p
}.

(** The capacity of the array [append] allocates when one of capacity [n] is
    full. *)
Class SliceGrowth := {
  grow : nat -> nat;
  grow_more : forall n, (n < grow n)%nat
}.

Module Plugins.

(** ** Slices *)
Section Slices.
Context {A : Type} `{!SliceGrowth}.

Record slice := MkSlice { sl_ptr : nat; sl_len : nat; sl_cap : nat }.
Abbreviation heap := (list (list (option A))).

Definition elements (h : heap) (s : slice) : list (option A) := take (sl_len s) (default [] (h !! sl_ptr s)).

(** [append(s, x)], for a nil slice too. *)
Definition append_one (s : option slice) (x : A) (h : heap) : slice * heap :=
  match s with
  | Some s =>
      if decide (sl_len s < sl_cap s)%nat
      then (MkSlice (sl_ptr s) (S (sl_len s)) (sl_cap s), alter (fun a => <[sl_len s := Some x]> a) (sl_ptr s) h)
      else (MkSlice (length h) (S (sl_len s)) (grow (sl_cap s)), h ++ [elements h s ++ Some x :: replicate (grow (sl_cap s) - S (sl_len s)) None])
  | None => (MkSlice (length h) 1 (grow 0), h ++ [Some x :: replicate (grow 0 - 1) None])
  end.

(** [append(s[:i], s[i+1:]...)]: the elements behind [i] move up in the array,
    its place [len - 1] keeps what it held. *)
Definition remove_at (i : nat) (s : slice) (h : heap) : slice * heap :=
  (MkSlice (sl_ptr s) (sl_len s - 1) (sl_cap s),
   alter (fun a => take i a ++ drop (S i) (take (sl_len s) a) ++ drop (sl_len s - 1) a) (sl_ptr s) h).
End Slices.

Section Plugins.
Context {Config : Type} `{!SliceGrowth}.

(** ** Data *)

(** A plugin with the interfaces it implements besides [Plugin]; what its
    methods return or do are the business of an execution. *)
Record Plugin := MkPlugin {
  p_ID : bytes;
  p_Name : bytes;
  p_Version : bytes;
  p_SupportedOperations : option (list bytes);
  p_SupportedMethods : option (list bytes);
  p_metrics : bool
}.

Record PluginInfo := MkInfo {
  pi_ID : bytes;
  pi_Name : bytes;
  pi_Version : bytes;
  pi_Type : bytes;
  pi_Status : bytes;
  pi_LoadTime : Z;
  pi_Config : Config
}.

Record PluginManagerMetrics := MkMetrics {
  pm_TotalPlugins : Z;
  pm_ActivePlugins : Z;
  pm_TotalExecutions : Z;
  pm_TotalErrors : Z;
  pm_AverageLatency : Z;
  pm_LastExecution : option Z
}.

(** [metricsPlugins] is copied before it is used, so that its array is never
    shared. *)
Record PluginManager := MkManager {
  mg_plugins : gmap bytes Plugin;
  mg_pluginInfo : gmap bytes PluginInfo;
  mg_arrays : list (list (option Plugin));
  mg_behaviorPlugins : gmap bytes slice;
  mg_interceptorPlugins : gmap bytes slice;
  mg_metricsPlugins : list Plugin;
  mg_defaultTimeout : Z;
  mg_metrics : PluginManagerMetrics
}.

Definition NewPluginManager : PluginManager := MkManager ∅ ∅ [] ∅ ∅ [] (30 * Bandwidth.Second) (MkMetrics 0 0 0 0 0 None).

Definition SetDefaultTimeout (timeout : Z) (pm : PluginManager) : PluginManager :=
  MkManager (mg_plugins pm) (mg_pluginInfo pm) (mg_arrays pm) (mg_behaviorPlugins pm) (mg_interceptorPlugins pm) (mg_metricsPlugins pm) timeout
    (mg_metrics pm).
Definition with_registry (plugins : gmap bytes Plugin) (info : gmap bytes PluginInfo) (pm : PluginManager) : PluginManager :=
  MkManager plugins info (mg_arrays pm) (mg_behaviorPlugins pm) (mg_interceptorPlugins pm) (mg_metricsPlugins pm) (mg_defaultTimeout pm) (mg_metrics pm).
Definition with_behavior (v : gmap bytes slice) (h : list (list (option Plugin))) (pm : PluginManager) : PluginManager :=
  MkManager (mg_plugins pm) (mg_pluginInfo pm) h v (mg_interceptorPlugins pm) (mg_metricsPlugins pm) (mg_defaultTimeout pm) (mg_metrics pm).
Definition with_interceptor (v : gmap bytes slice) (h : list (list (option Plugin))) (pm : PluginManager) : PluginManager :=
  MkManager (mg_plugins pm) (mg_pluginInfo pm) h (mg_behaviorPlugins pm) v (mg_metricsPlugins pm) (mg_defaultTimeout pm) (mg_metrics pm).
Definition with_metrics_plugins (v : list Plugin) (pm : PluginManager) : PluginManager :=
  MkManager (mg_plugins pm) (mg_pluginInfo pm) (mg_arrays pm) (mg_behaviorPlugins pm) (mg_interceptorPlugins pm) v (mg_defaultTimeout pm) (mg_metrics pm).
Definition with_metrics (v : PluginManagerMetrics) (pm : PluginManager) : PluginManager :=
  MkManager (mg_plugins pm) (mg_pluginInfo pm) (mg_arrays pm) (mg_behaviorPlugins pm) (mg_interceptorPlugins pm) (mg_metricsPlugins pm)
    (mg_defaultTimeout pm) v.
Definition count_plugins (total active : Z) (pm : PluginManager) : PluginManager :=
  let m := mg_metrics pm in
  with_metrics (MkMetrics (i64 (pm_TotalPlugins m + total)) (i64 (pm_ActivePlugins m + active)) (pm_TotalExecutions m) (pm_TotalErrors m)
    (pm_AverageLatency m) (pm_LastExecution m)) pm.
Definition count_failure (pm : PluginManager) : PluginManager :=
  let m := mg_metrics pm in
  with_metrics (MkMetrics (pm_TotalPlugins m) (pm_ActivePlugins m) (pm_TotalExecutions m) (i64 (pm_TotalErrors m + 1)) (pm_AverageLatency m)
    (pm_LastExecution m)) pm.
Definition count_execution (now elapsed : Z) (pm : PluginManager) : PluginManager :=
  let m := mg_metrics pm in
  with_metrics (MkMetrics (pm_TotalPlugins m) (pm_ActivePlugins m) (i64 (pm_TotalExecutions m + 1)) (pm_TotalErrors m)
    (Z.quot (i64 (pm_AverageLatency m + elapsed)) 2) (Some now)) pm.

(** ** Registering *)
Definition getPluginType (p : Plugin) : bytes :=
  let types := match p_SupportedOperations p with Some _ => ["behavior"] | None => [] end ++
               match p_SupportedMethods p with Some _ => ["interceptor"] | None => [] end ++
               (if p_metrics p then ["metrics"] else []) in
  match types with [] => bs "basic" | [t] => bs t | _ => bs "composite" end%string.

Definition add_behavior (p : Plugin) (pm : PluginManager) (operation : bytes) : PluginManager :=
  let '(s, h) := append_one (mg_behaviorPlugins pm !! operation) p (mg_arrays pm) in
  with_behavior (<[operation := s]> (mg_behaviorPlugins pm)) h pm.
Definition add_interceptor (p : Plugin) (pm : PluginManager) (method : bytes) : PluginManager :=
  let '(s, h) := append_one (mg_interceptorPlugins pm !! method) p (mg_arrays pm) in
  with_interceptor (<[method := s]> (mg_interceptorPlugins pm)) h pm.
Definition registerTypedPlugin (p : Plugin) (pm : PluginManager) : PluginManager :=
  let pm := fold_left (add_behavior p) (default [] (p_SupportedOperations p)) pm in
  let pm := fold_left (add_interceptor p) (default [] (p_SupportedMethods p)) pm in
  if p_metrics p then with_metrics_plugins (mg_metricsPlugins pm ++ [p]) pm else pm.

(** [initialized]: what [Initialize] returns. *)
Definition RegisterPlugin (now : Z) (plugin : option Plugin) (initialized : option string) (config : Config) (pm : PluginManager) :
    res () * PluginManager :=
  match plugin with
  | None => (Err "plugin cannot be nil", pm)
  | Some p =>
      if decide (p_ID p = []) then (Err "plugin ID cannot be empty", pm)
      else match mg_plugins pm !! p_ID p, initialized with
      | Some _, _ => (Err "plugin with ID already registered", pm)
      | None, Some _ => (Err "failed to initialize plugin", pm)
      | None, None =>
          let info := MkInfo (p_ID p) (p_Name p) (p_Version p) (getPluginType p) (bs "loaded") now config in
          let pm := with_registry (<[p_ID p := p]> (mg_plugins pm)) (<[p_ID p := info]> (mg_pluginInfo pm)) pm in
          (Ok (), count_plugins 1 1 (registerTypedPlugin p pm))
      end
  end.

(** The index of the first plugin with the ID. *)
Fixpoint index_of (pluginID : bytes) (plugins : list (option Plugin)) : option nat :=
  match plugins with
  | [] => None
  | p :: plugins' => if decide (p_ID <$> p = Some pluginID) then Some O else S <$> index_of pluginID plugins'
  end.
Definition removeFromSlice (pluginID : bytes) (s : slice) (h : list (list (option Plugin))) : slice * list (list (option Plugin)) :=
  match index_of pluginID (elements h s) with Some i => remove_at i s h | None => (s, h) end.

(** Assigning an unchanged nil slice to a missing key makes no difference to
    the reads of the map. *)
Definition remove_behavior (pluginID : bytes) (pm : PluginManager) (operation : bytes) : PluginManager :=
  match mg_behaviorPlugins pm !! operation with
  | Some s => let '(s, h) := removeFromSlice pluginID s (mg_arrays pm) in with_behavior (<[operation := s]> (mg_behaviorPlugins pm)) h pm
  | None => pm
  end.
Definition removeBehaviorPlugin (p : Plugin) (pm : PluginManager) : PluginManager :=
  fold_left (remove_behavior (p_ID p)) (default [] (p_SupportedOperations p)) pm.
Definition remove_interceptor (pluginID : bytes) (pm : PluginManager) (method : bytes) : PluginManager :=
  match mg_interceptorPlugins pm !! method with
  | Some s => let '(s, h) := removeFromSlice pluginID s (mg_arrays pm) in with_interceptor (<[method := s]> (mg_interceptorPlugins pm)) h pm
  | None => pm
  end.
Definition removeInterceptorPlugin (p : Plugin) (pm : PluginManager) : PluginManager :=
  fold_left (remove_interceptor (p_ID p)) (default [] (p_SupportedMethods p)) pm.
Fixpoint remove_first (pluginID : bytes) (plugins : list Plugin) : list Plugin :=
  match plugins with
  | [] => []
  | p :: plugins' => if decide (p_ID p = pluginID) then plugins' else p :: remove_first pluginID plugins'
  end.
Definition removeMetricsPlugin (p : Plugin) (pm : PluginManager) : PluginManager :=
  if p_metrics p then with_metrics_plugins (remove_first (p_ID p) (mg_metricsPlugins pm)) pm else pm.
Definition unregisterTypedPlugin (p : Plugin) (pm : PluginManager) : PluginManager :=
  removeMetricsPlugin p (removeInterceptorPlugin p (removeBehaviorPlugin p pm)).

(** What [plugin.Shutdown] returns is only logged. *)
Definition UnregisterPlugin (pluginID : bytes) (pm : PluginManager) : res () * PluginManager :=
  if decide (pluginID = []) then (Err "plugin ID cannot be empty", pm)
  else match mg_plugins pm !! pluginID with
  | None => (Err "plugin with ID not found", pm)
  | Some p =>
      let pm := unregisterTypedPlugin p pm in
      let pm := with_registry (delete pluginID (mg_plugins pm)) (delete pluginID (mg_pluginInfo pm)) pm in
      (Ok (), count_plugins 0 (-1) pm)
  end.

(** [shutdown]: what the [Shutdown] of a plugin returns. The arrays stay with
    whoever walks over them. *)
Definition Shutdown (shutdown : Plugin -> option string) (pm : PluginManager) : res () * PluginManager :=
  let failed := existsb (fun e => bool_decide (is_Some (shutdown e.2))) (map_to_list (mg_plugins pm)) in
  let m := mg_metrics pm in
  (if failed then Err "errors shutting down plugins" else Ok (),
   MkManager ∅ ∅ (mg_arrays pm) ∅ ∅ [] (mg_defaultTimeout pm)
     (MkMetrics (pm_TotalPlugins m) 0 (pm_TotalExecutions m) (pm_TotalErrors m) (pm_AverageLatency m) (pm_LastExecution m))).

(** ** Running *)

(** The operations on the manager that may take place during a call. *)
Inductive pm_op :=
  | ORegister (now : Z) (plugin : option Plugin) (initialized : option string) (config : Config)
  | OUnregister (pluginID : bytes)
  | OSetTimeout (timeout : Z)
  | OShutdown (shutdown : Plugin -> option string).
Definition pm_do (pm : PluginManager) (o : pm_op) : PluginManager :=
  match o with
  | ORegister now plugin initialized config => (RegisterPlugin now plugin initialized config pm).2
  | OUnregister pluginID => (UnregisterPlugin pluginID pm).2
  | OSetTimeout timeout => SetDefaultTimeout timeout pm
  | OShutdown shutdown => (Shutdown shutdown pm).2
  end.
Definition pm_run (pm : PluginManager) (ops : list pm_op) : PluginManager := fold_left pm_do ops pm.

(** One call of a handler: the new value or an error, and what happened to the
    manager meanwhile. *)
Definition handler (X : Type) : Type := Plugin -> X -> (X + string) * list pm_op.

(** The loop over a slice, from index [i] with [n] elements to go; the element
    is read from the array when its turn comes. The last component lists the
    plugins called. *)
Fixpoint walk {X} (h : handler X) (s : slice) (i n : nat) (result : X) (pm : PluginManager) : res X * PluginManager * list bytes :=
  match n with
  | O => (Ok result, pm, [])
  | S n' =>
      match default [] (mg_arrays pm !! sl_ptr s) !! i with
      | Some (Some p) =>
          let '(r, meanwhile) := h p result in
          let pm := pm_run pm meanwhile in
          match r with
          | inl result => let '(r, pm, called) := walk h s (S i) n' result pm in (r, pm, p_ID p :: called)
          | inr _ => (Err "plugin failed", count_failure pm, [p_ID p])
          end
      | _ => (Panic "nil pointer dereference", pm, [])
      end
  end.

(** [elapsed]: [time.Since(start)]. *)
Definition run_plugins {X} (now elapsed : Z) (h : handler X) (s : option slice) (data : X) (pm : PluginManager) : res X * PluginManager * list bytes :=
  match s with
  | Some s =>
      if decide (sl_len s = 0)%nat then (Ok data, pm, [])
      else let '(r, pm, called) := walk h s 0 (sl_len s) data pm in (r, count_execution now elapsed pm, called)
  | None => (Ok data, pm, [])
  end.

Definition ExecuteBehaviorPlugins {X} (now elapsed : Z) (HandleTorrentBehavior : handler X) (operation : bytes) (params : X) (pm : PluginManager) :
    res X * PluginManager * list bytes :=
  run_plugins now elapsed HandleTorrentBehavior (mg_behaviorPlugins pm !! operation) params pm.

(** The parameters of a request must be a map; [InterceptRequest] returns one. *)
Section Interceptors.
Context {P R : Type} `{!Payload P R}.

Fixpoint walk_request (h : handler P) (s : slice) (i n : nat) (result : R) (pm : PluginManager) : res R * PluginManager * list bytes :=
  match n with
  | O => (Ok result, pm, [])
  | S n' =>
      match default [] (mg_arrays pm !! sl_ptr s) !! i with
      | Some (Some p) =>
          match as_params result with
          | None => (Err "invalid request parameters type for plugin", pm, [])
          | Some params =>
              let '(r, meanwhile) := h p params in
              let pm := pm_run pm meanwhile in
              match r with
              | inl params => let '(r, pm, called) := walk_request h s (S i) n' (of_params params) pm in (r, pm, p_ID p :: called)
              | inr _ => (Err "plugin failed", count_failure pm, [p_ID p])
              end
          end
      | _ => (Panic "nil pointer dereference", pm, [])
      end
  end.

Definition ExecuteInterceptorPlugins (now elapsed : Z) (InterceptRequest : handler P) (InterceptResponse : handler R) (method : bytes) (isRequest : bool)
    (data : R) (pm : PluginManager) : res R * PluginManager * list bytes :=
  if isRequest then
    match mg_interceptorPlugins pm !! method with
    | Some s =>
        if decide (sl_len s = 0)%nat then (Ok data, pm, [])
        else let '(r, pm, called) := walk_request InterceptRequest s 0 (sl_len s) data pm in (r, count_execution now elapsed pm, called)
    | None => (Ok data, pm, [])
    end
  else run_plugins now elapsed InterceptResponse (mg_interceptorPlugins pm !! method) data pm.
End Interceptors.

(** ** Reading *)
Inductive metric_value (M : Type) := Manager (m : PluginManagerMetrics) | Custom (m : M).
Arguments Manager {M} m.
Arguments Custom {M} m.
Definition GetMetrics {M} (metrics : Plugin -> option M) (pm : PluginManager) : gmap bytes (metric_value M) :=
  fold_left (fun result p => match metrics p with Some m => <[p_ID p := Custom m]> result | None => result end) (mg_metricsPlugins pm)
    {[bs "manager" := Manager (mg_metrics pm)]}.
Definition GetPluginInfo (pm : PluginManager) : gmap bytes PluginInfo := mg_pluginInfo pm.
Definition GetPluginHealthStatus {H} (health : Plugin -> H) (pm : PluginManager) : gmap bytes H :=
  fold_left (fun result p => <[p_ID p := health p]> result) (mg_metricsPlugins pm) ∅.
(** The IDs of a type, in the order of the enumeration. *)
Definition ListPluginsByType (range : gmap bytes PluginInfo -> list (bytes * PluginInfo)) (pm : PluginManager) : gmap bytes (list bytes) :=
  fold_left (fun result '(id, info) =>
    if decide (pi_Status info = bs "loaded") then <[pi_Type info := default [] (result !! pi_Type info) ++ [id]]> result else result)
    (range (mg_pluginInfo pm)) ∅.

(** ** Validation *)
Definition validatePluginNotNil (plugin : option Plugin) : res Plugin := match plugin with None => Err "plugin cannot be nil" | Some p => Ok p end.
Definition validatePluginMetadata (p : Plugin) : res () :=
  if decide (p_ID p = []) then Err "plugin ID cannot be empty"
  else if decide (p_Name p = []) then Err "plugin name cannot be empty"
  else if decide (p_Version p = []) then Err "plugin version cannot be empty"
  else Ok ().
Definition validateBehaviorPluginInterface (p : Plugin) : res () :=
  match p_SupportedOperations p with Some [] => Err "behavior plugin must support at least one operation" | _ => Ok () end.
Definition validateInterceptorPluginInterface (p : Plugin) : res () :=
  match p_SupportedMethods p with Some [] => Err "interceptor plugin must support at least one method" | _ => Ok () end.
Definition ValidatePlugin (plugin : option Plugin) : res () :=
  p ← validatePluginNotNil plugin;
  _ ← validatePluginMetadata p;
  _ ← validateBehaviorPluginInterface p;
  validateInterceptorPluginInterface p.

End Plugins.
End Plugins.
