(* ===== verification/Scripts.v ===== *)
(** * Lifecycle scripts of the daemon

    Models [src/rpc/script_manager.go]: the configuration of the scripts, the
    check of a script file, the environment a script gets and its execution.

    The operating system is the class [ScriptHost]: the environment of the
    daemon, the file system and running a program. A configuration handed over
    is not changed by its owner afterwards; what is logged is left out. *)

From S2P Require Import Prelude Strconv Hash Metainfo MetainfoFacts TorrentFile Bandwidth RpcTypes.
From Stdlib Require Import SpecFloat.
Import Strconv RpcTypes TorrentFile Bandwidth.

(** [os.Stat]: there is no such file, another error, or whether it is a regular
    file and its permission bits. *)
Inductive stat_result := StatNotExist | StatError | StatMode (regular : bool) (perm : Z).

(** [os.Environ], [filepath.Abs], [os.Stat], and running a program with an
    environment under a timeout, with the error it ends with if any. *)
Class ScriptHost := {
  sh_Environ : list bytes;
  sh_Abs : bytes -> option bytes;
  sh_Stat : bytes -> stat_result;
  sh_Run : bytes -> list bytes -> Z -> option string
}.

Module Scripts.

(** ** [fmt.Sprintf("%.2f", x)]: the nearest number of hundredths, halves to even *)
Definition round_half_even (n d : Z) : Z :=
  let q := n / d in
  let r := n mod d in
  if decide (2 * r < d) then q else if decide (d < 2 * r) then q + 1 else if Z.even q then q else q + 1.
Definition hundredths (n : Z) : bytes := FormatInt (n / 100) ++ [46; 48 + n mod 100 / 10; 48 + n mod 10].
Definition format_2f (x : float) : bytes :=
  match x with
  | S754_zero s => (if s then bs "-" else []) ++ bs "0.00"
  | S754_infinity s => if s then bs "-Inf" else bs "+Inf"
  | S754_nan => bs "NaN"
  | S754_finite s m e =>
      (if s then bs "-" else []) ++
      hundredths (if decide (0 <= e) then Z.pos m * 2 ^ e * 100 else round_half_even (Z.pos m * 100) (2 ^ (- e)))
  end.
Example format_half : format_2f (S754_finite false 1 (-1)) = bs "0.50".
Proof. vm_compute. reflexivity. Qed.
Example format_even : format_2f (S754_finite false 1 (-3)) = bs "0.12".
Proof. vm_compute. reflexivity. Qed.

(** ** Data *)
Definition ScriptHookTorrentDone : bytes := bs "torrent-done".
Definition ScriptHookTorrentAdded : bytes := bs "torrent-added".

Record ScriptHookConfig := MkConfig { sc_Enabled : bool; sc_Filename : bytes; sc_Timeout : Z; sc_Environment : gmap bytes bytes }.
Record ScriptManager := MkScripts { sm_hooks : gmap bytes ScriptHookConfig; sm_defaultTimeout : Z }.

Definition NewScriptManager : ScriptManager := MkScripts ∅ (30 * Bandwidth.Second).
Definition SetDefaultTimeout (timeout : Z) (sm : ScriptManager) : ScriptManager := MkScripts (sm_hooks sm) timeout.
Definition GetDefaultTimeout (sm : ScriptManager) : Z := sm_defaultTimeout sm.

(** A nil environment is an empty one. *)
Definition UpdateHookConfig (hookType : bytes) (config : option ScriptHookConfig) (sm : ScriptManager) : ScriptManager :=
  match config with
  | None => MkScripts (delete hookType (sm_hooks sm)) (sm_defaultTimeout sm)
  | Some c =>
      let timeout := if decide (sc_Timeout c = 0) then sm_defaultTimeout sm else sc_Timeout c in
      MkScripts (<[hookType := MkConfig (sc_Enabled c) (sc_Filename c) timeout (sc_Environment c)]> (sm_hooks sm)) (sm_defaultTimeout sm)
  end.
Definition GetHookConfig (hookType : bytes) (sm : ScriptManager) : option ScriptHookConfig := sm_hooks sm !! hookType.

Definition runnable (c : ScriptHookConfig) : bool := sc_Enabled c && negb (bool_decide (sc_Filename c = [])).
Definition IsHookEnabled (hookType : bytes) (sm : ScriptManager) : bool :=
  match sm_hooks sm !! hookType with Some c => runnable c | None => false end.

Section Scripts.
Context `{!ScriptHost} `{!SetRange}.

Definition GetEnabledHooks (sm : ScriptManager) : list bytes :=
  omap (fun e => if runnable e.2 then Some e.1 else None) (set_range (sm_hooks sm)).

(** ** The script file *)
Definition validateScriptFile (filename : bytes) : res () :=
  if decide (filename = []) then Err "script filename is empty"
  else match sh_Abs filename with
  | None => Err "failed to resolve absolute path"
  | Some absPath =>
      match sh_Stat absPath with
      | StatNotExist => Err "script file does not exist"
      | StatError => Err "failed to stat script file"
      | StatMode regular perm =>
          if negb regular then Err "script path is not a regular file"
          else if decide (Z.land perm 64 = 0) then Err "script file is not executable" else Ok ()
      end
  end.

Definition validateHookConfiguration (hookType : bytes) (sm : ScriptManager) : res (option ScriptHookConfig) :=
  match sm_hooks sm !! hookType with
  | Some c => if runnable c then match validateScriptFile (sc_Filename c) with Ok _ => Ok (Some c) | _ => Err "script validation failed" end else Ok None
  | None => Ok None
  end.

(** ** The environment *)
Definition createBasicTorrentVars (now : Z) (t : TorrentState) : gmap bytes bytes :=
  <[bs "TR_TORRENT_ID" := FormatInt (t_ID t)]> (<[bs "TR_TORRENT_DIR" := t_DownloadDir t]>
  (<[bs "TR_TIME_LOCALTIME" := FormatInt now]> {[bs "TR_TORRENT_HASH" := Hash.HexString (t_InfoHash t)]})).
Definition addMetaInfoVars (t : TorrentState) (vars : gmap bytes bytes) : gmap bytes bytes :=
  match t_MetaInfo t with
  | Some mi =>
      match mi_Info mi with
      | Ok info => <[bs "TR_TORRENT_SIZE" := FormatInt (Metainfo.TotalLength info)]> (<[bs "TR_TORRENT_NAME" := Metainfo.i_Name info]> vars)
      | _ => vars
      end
  | None => vars
  end.
Definition addStatusVars (t : TorrentState) (vars : gmap bytes bytes) : gmap bytes bytes :=
  let vars := if decide (0 < t_Status t) then <[bs "TR_TORRENT_STATUS" := FormatInt (t_Status t)]> vars else vars in
  let vars := if SFltb (S754_zero false) (t_PercentDone t) then <[bs "TR_TORRENT_PERCENT_DONE" := format_2f (t_PercentDone t)]> vars else vars in
  if decide (0 < t_Downloaded t) then <[bs "TR_TORRENT_BYTES_COMPLETED" := FormatInt (t_Downloaded t)]> vars else vars.
Definition addCustomVars (customEnv vars : gmap bytes bytes) : gmap bytes bytes :=
  fold_left (fun vars e => <[e.1 := e.2]> vars) (set_range customEnv) vars.
Definition env_entry (e : bytes * bytes) : bytes := e.1 ++ [61] ++ e.2.
Definition formatEnvironmentVars (env : list bytes) (vars : gmap bytes bytes) : list bytes := env ++ map env_entry (set_range vars).
Definition buildTorrentEnvironment (now : Z) (t : TorrentState) (customEnv : gmap bytes bytes) : list bytes :=
  formatEnvironmentVars sh_Environ (addCustomVars customEnv (addStatusVars t (addMetaInfoVars t (createBasicTorrentVars now t)))).

(** ** Execution *)
Definition executeScriptWithTimeout (c : ScriptHookConfig) (env : list bytes) : option string := sh_Run (sc_Filename c) env (sc_Timeout c).
Definition ExecuteHook (now : Z) (hookType : bytes) (t : TorrentState) (sm : ScriptManager) : res () :=
  c ← validateHookConfiguration hookType sm;
  match c with
  | None => Ok ()
  | Some c =>
      match executeScriptWithTimeout c (buildTorrentEnvironment now t (sc_Environment c)) with
      | Some _ => Err "script execution failed"
      | None => Ok ()
      end
  end.

End Scripts.
End Scripts.

(** * Lifecycle scripts: what a script sees

    The environment of a script: custom variables override those of the
    torrent, which override those of the daemon. *)

Import RpcTypes Scripts.

Module ScriptFacts.

(** ** Reading an environment: the last entry of a name counts *)
Definition entry_value (key entry : bytes) : option bytes :=
  if decide (take (S (length key)) entry = key ++ [61]) then Some (drop (S (length key)) entry) else None.
Definition env_value (env : list bytes) (key : bytes) : option bytes := last (omap (entry_value key) env).

Lemma entry_same key v : entry_value key (env_entry (key, v)) = Some v.
Proof.
  unfold entry_value, env_entry. cbn [fst snd]. rewrite app_assoc, <- Nat.add_1_r.
  rewrite take_app_length', drop_app_length' by (by rewrite length_app). by rewrite decide_True.
Qed.
Lemma entry_other key key' v : 61 ∉ key -> 61 ∉ key' -> key <> key' -> entry_value key (env_entry (key', v)) = None.
Proof.
  intros H1 H2 Hne. unfold entry_value, env_entry. cbn [fst snd]. apply decide_False. revert key' H1 H2 Hne.
  induction key as [|c key IH]; intros [|c' key'] [Hc Hk]%not_elem_of_cons || intros [|c' key'] Hk; cbn; intros H2 Hne E; simplify_eq.
  all: try (apply not_elem_of_cons in H2 as [? ?]); try done; try lia. eapply (IH key'); [done..|congruence|done].
Qed.
Lemma last_app_omap {A} (a b : list A) : last (a ++ b) = match last b with Some x => Some x | None => last a end.
Proof. rewrite last_app. by destruct (last b). Qed.

Section Facts.
Context `{!ScriptHost} `{!SetRange}.

(** The value of a name in the entries of a map. *)
Lemma entries_value key l :
  61 ∉ key -> Forall (fun e => 61 ∉ e.1) l -> NoDup l.*1 -> last (omap (entry_value key) (map env_entry l)) = (list_to_map l : gmap bytes bytes) !! key.
Proof.
  intros Hk. induction l as [|[k v] l IH]; intros [H1 H2]%Forall_cons || intros _; [done|]. intros [Hn Hd]%NoDup_cons. specialize (IH H2 Hd).
  rewrite list_to_map_cons. change (omap (entry_value key) (map env_entry ((k, v) :: l))) with
    (match entry_value key (env_entry (k, v)) with Some w => w :: omap (entry_value key) (map env_entry l) | None => omap (entry_value key) (map env_entry l) end).
  destruct (decide (k = key)) as [->|Hne].
  - rewrite entry_same, lookup_insert_eq. apply (not_elem_of_list_to_map_1 (M := gmap bytes)) in Hn. cbn in Hn. rewrite Hn in IH.
    destruct (omap _ _); [done|]. cbn in IH. by apply last_None in IH.
  - by rewrite entry_other, lookup_insert_ne.
Qed.
Lemma vars_value (vars : gmap bytes bytes) key :
  61 ∉ key -> (forall k, is_Some (vars !! k) -> 61 ∉ k) -> env_value (map env_entry (set_range vars)) key = vars !! key.
Proof.
  intros Hk Hv. assert (Hd : NoDup (set_range vars).*1) by (rewrite set_range_perm; apply NoDup_fst_map_to_list). unfold env_value.
  rewrite entries_value; [|done| |done].
  - by rewrite (list_to_map_proper _ _ Hd (set_range_perm vars)), list_to_map_to_list.
  - apply Forall_forall. intros [k v] Hin. rewrite set_range_perm in Hin. apply elem_of_map_to_list in Hin. apply Hv. by eauto.
Qed.

(** The variables of the torrent itself. *)
Definition torrent_vars (now : Z) (t : TorrentState) : gmap bytes bytes := addStatusVars t (addMetaInfoVars t (createBasicTorrentVars now t)).
Lemma custom_union (custom vars : gmap bytes bytes) : addCustomVars custom vars = custom ∪ vars.
Proof.
  unfold addCustomVars. assert (Hd : NoDup (set_range custom).*1) by (rewrite set_range_perm; apply NoDup_fst_map_to_list).
  rewrite <- (list_to_map_to_list custom) at 2. rewrite <- (list_to_map_proper _ _ Hd (set_range_perm custom)).
  revert vars. induction (set_range custom) as [|[k v] l IH]; intros vars; cbn; [by rewrite map_empty_union|].
  cbn in Hd. apply NoDup_cons in Hd as [Hn Hd]. rewrite IH by done. rewrite <- insert_union_l, insert_union_r; [done|]. by apply not_elem_of_list_to_map_1.
Qed.
Lemma insert_names (k v : bytes) (vars : gmap bytes bytes) :
  61 ∉ k -> (forall k', is_Some (vars !! k') -> 61 ∉ k') -> forall k', is_Some (<[k := v]> vars !! k') -> 61 ∉ k'.
Proof. intros Hk Hv k' Hk'. destruct (decide (k = k')) as [<-|Hn]; [done|]. rewrite lookup_insert_ne in Hk' by done. by apply Hv. Qed.
Lemma torrent_names now t k : is_Some (torrent_vars now t !! k) -> 61 ∉ k.
Proof.
  revert k. unfold torrent_vars, addStatusVars, addMetaInfoVars, createBasicTorrentVars.
  repeat case_match; repeat (apply insert_names; [apply (bool_decide_unpack _); vm_compute; exact I|]);
    intros k [v Hk]; by rewrite lookup_empty in Hk.
Qed.

(** A script sees its custom variables, else those of the torrent, else those
    of the daemon. *)
Theorem script_environment (now : Z) (t : TorrentState) (custom : gmap bytes bytes) (key : bytes) :
  61 ∉ key -> (forall k, is_Some (custom !! k) -> 61 ∉ k) ->
  env_value (buildTorrentEnvironment now t custom) key =
  match custom !! key with
  | Some v => Some v
  | None => match torrent_vars now t !! key with Some v => Some v | None => env_value sh_Environ key end
  end.
Proof.
  intros Hk Hc. unfold buildTorrentEnvironment, formatEnvironmentVars. fold (torrent_vars now t). rewrite custom_union.
  unfold env_value at 1. rewrite omap_app, last_app_omap. fold (env_value (map env_entry (set_range (custom ∪ torrent_vars now t))) key).
  rewrite vars_value; [|done|intros k [v [Hv|[_ Hv]]%lookup_union_Some_raw]; [by apply Hc|by eapply torrent_names]].
  rewrite lookup_union. destruct (custom !! key), (torrent_vars now t !! key); done.
Qed.

(** A script runs exactly when its hook is enabled with a file that passes the
    check, and only a failing script or check is an error. *)
Theorem script_runs now hookType t sm :
  ExecuteHook now hookType t sm =
  if IsHookEnabled hookType sm then
    match GetHookConfig hookType sm with
    | Some c =>
        if is_ok (validateScriptFile (sc_Filename c))
        then match sh_Run (sc_Filename c) (buildTorrentEnvironment now t (sc_Environment c)) (sc_Timeout c) with
             | Some _ => Err "script execution failed" | None => Ok () end
        else Err "script validation failed"
    | None => Ok ()
    end
  else Ok ().
Proof.
  unfold ExecuteHook, validateHookConfiguration, IsHookEnabled, GetHookConfig. destruct (sm_hooks sm !! hookType) as [c|]; [|done].
  destruct (runnable c); [|done]. by destruct (validateScriptFile (sc_Filename c)).
Qed.

End Facts.
End ScriptFacts.
