(* ===== verification/Metadata.v ===== *)
(** * Custom metadata of torrents

    Models [src/rpc/metadata.go]: typed key-value data per torrent with
    constraints, optimistic locking, queries and metrics.

    A value is a Go interface value of any type [V]; the class [GoValue] gives
    what the code asks of one, its reflected kind and its JSON form (a type may
    supply its own). A callback is the user's: the model records which callback
    is called and with what, in the order of the calls. The order in which
    [request.Set] is enumerated is the class [SetRange]. An operation reads the
    clock once; the zero time is [None]. Values handed out are not changed by
    their readers. *)

From S2P Require Import Prelude Metainfo MetainfoFacts Bandwidth TorrentFile RpcTypes.

(** ** [reflect.Kind] *)
Inductive Kind :=
  | KBool | KInt | KInt8 | KInt16 | KInt32 | KInt64 | KUint | KUint8 | KUint16 | KUint32 | KUint64 | KUintptr
  | KFloat32 | KFloat64 | KComplex64 | KComplex128 | KArray | KChan | KFunc | KInterface | KMap | KPointer | KSlice
  | KString | KStruct | KUnsafePointer.
Definition Kind_String (k : Kind) : bytes :=
  bs match k with
     | KBool => "bool" | KInt => "int" | KInt8 => "int8" | KInt16 => "int16" | KInt32 => "int32" | KInt64 => "int64"
     | KUint => "uint" | KUint8 => "uint8" | KUint16 => "uint16" | KUint32 => "uint32" | KUint64 => "uint64"
     | KUintptr => "uintptr" | KFloat32 => "float32" | KFloat64 => "float64" | KComplex64 => "complex64"
     | KComplex128 => "complex128" | KArray => "array" | KChan => "chan" | KFunc => "func" | KInterface => "interface"
     | KMap => "map" | KPointer => "ptr" | KSlice => "slice" | KString => "string" | KStruct => "struct"
     | KUnsafePointer => "unsafe.Pointer"
     end.

(** [reflect.ValueOf(v).Kind()], [None] for a nil interface, and [json.Marshal]. *)
Class GoValue (V : Type) := {
  kind_of : V -> option Kind;
  json_Marshal : V -> option bytes
}.

Module Metadata.

Section Metadata.
Context {V C : Type} `{!GoValue V} `{!SetRange}.

(** ** Data *)
Record MetadataValue := MkValue {
  mv_Value : V;
  mv_Type : bytes;
  mv_CreatedAt : Z;
  mv_UpdatedAt : Z;
  mv_Source : bytes;
  mv_Tags : list bytes
}.

Record TorrentMetadata := MkTorrentMetadata {
  tm_TorrentID : Z;
  tm_Metadata : gmap bytes MetadataValue;
  tm_Version : Z;
  tm_LastModified : Z
}.

Record MetadataConstraints := MkConstraints {
  mc_MaxKeyLength : Z;
  mc_MaxValueSize : Z;
  mc_MaxKeysPerTorrent : Z;
  mc_AllowedTypes : list bytes;
  mc_RequiredKeys : list bytes;
  mc_ReadOnlyKeys : list bytes
}.

Record MetadataRequest := MkRequest {
  mr_TorrentID : Z;
  mr_Set : gmap bytes V;
  mr_Remove : list bytes;
  mr_Source : bytes;
  mr_Tags : list bytes;
  mr_ExpectedVersion : Z
}.

Inductive request_error := ERequest (text : string) | ERemove (key : bytes) (text : string) | ESet (key : bytes) (text : string).
Record MetadataResponse := MkResponse {
  mp_Success : bool;
  mp_Metadata : option TorrentMetadata;
  mp_Errors : list request_error;
  mp_NewVersion : Z
}.

Record MetadataQuery := MkQuery {
  mq_TorrentIDs : list Z;
  mq_Keys : list bytes;
  mq_Tags : list bytes;
  mq_Source : bytes;
  mq_CreatedAfter : option Z;
  mq_CreatedBefore : option Z
}.

Record MetadataMetrics := MkMetrics {
  mx_TotalTorrents : Z;
  mx_TotalKeys : Z;
  mx_TotalOperations : Z;
  mx_ValidationErrors : Z;
  mx_AverageLatency : Z;
  mx_LastOperation : option Z
}.

(** The state behind the lock. The entries are values here: in the code the
    interface values, the tags and the [*MetadataValue] given to a callback are
    shared with whoever holds them, and one who changes such a map, slice or
    entry in place changes what the manager stores, without its checks and
    without a new version. What is stated of the manager is stated for holders
    that only read. *)
Record MetadataManager := MkManager {
  mm_metadata : gmap Z TorrentMetadata;
  mm_constraints : MetadataConstraints;
  mm_onMetadataChanged : option C;
  mm_onMetadataRemoved : option C;
  mm_metrics : MetadataMetrics
}.

(** One call of a callback. *)
Inductive call :=
  | CallChanged (callback : C) (torrentID : Z) (key : bytes) (oldValue : option MetadataValue) (newValue : MetadataValue)
  | CallRemoved (callback : C) (torrentID : Z) (key : bytes) (removedValue : MetadataValue).

(** ** Constructors and setters *)
Definition CreateDefaultConstraints : MetadataConstraints :=
  MkConstraints 100 10240 50 (map bs ["string"; "int"; "int64"; "float64"; "bool"; "map"; "slice"]%string) [] [].
Definition CreateRestrictiveConstraints : MetadataConstraints := MkConstraints 50 1024 10 (map bs ["string"; "int64"; "bool"]%string) [] [].

Definition NewMetadataManager : MetadataManager :=
  MkManager ∅ (MkConstraints 100 10240 50 (map bs ["string"; "int"; "int64"; "float64"; "bool"; "map"; "slice"]%string) [] []) None None
    (MkMetrics 0 0 0 0 0 None).

Definition SetConstraints (constraints : MetadataConstraints) (mm : MetadataManager) : MetadataManager :=
  MkManager (mm_metadata mm) constraints (mm_onMetadataChanged mm) (mm_onMetadataRemoved mm) (mm_metrics mm).
Definition SetMetadataChangedCallback (callback : option C) (mm : MetadataManager) : MetadataManager :=
  MkManager (mm_metadata mm) (mm_constraints mm) callback (mm_onMetadataRemoved mm) (mm_metrics mm).
Definition SetMetadataRemovedCallback (callback : option C) (mm : MetadataManager) : MetadataManager :=
  MkManager (mm_metadata mm) (mm_constraints mm) (mm_onMetadataChanged mm) callback (mm_metrics mm).

Definition with_torrents (v : gmap Z TorrentMetadata) (mm : MetadataManager) : MetadataManager :=
  MkManager v (mm_constraints mm) (mm_onMetadataChanged mm) (mm_onMetadataRemoved mm) (mm_metrics mm).
Definition with_metrics (v : MetadataMetrics) (mm : MetadataManager) : MetadataManager :=
  MkManager (mm_metadata mm) (mm_constraints mm) (mm_onMetadataChanged mm) (mm_onMetadataRemoved mm) v.
Definition count_torrents (n : Z) (mm : MetadataManager) : MetadataManager :=
  let m := mm_metrics mm in
  with_metrics (MkMetrics (i64 (mx_TotalTorrents m + n)) (mx_TotalKeys m) (mx_TotalOperations m) (mx_ValidationErrors m) (mx_AverageLatency m)
    (mx_LastOperation m)) mm.
Definition count_keys (n : Z) (mm : MetadataManager) : MetadataManager :=
  let m := mm_metrics mm in
  with_metrics (MkMetrics (mx_TotalTorrents m) (i64 (mx_TotalKeys m + n)) (mx_TotalOperations m) (mx_ValidationErrors m) (mx_AverageLatency m)
    (mx_LastOperation m)) mm.
Definition count_invalid (mm : MetadataManager) : MetadataManager :=
  let m := mm_metrics mm in
  with_metrics (MkMetrics (mx_TotalTorrents m) (mx_TotalKeys m) (mx_TotalOperations m) (i64 (mx_ValidationErrors m + 1)) (mx_AverageLatency m)
    (mx_LastOperation m)) mm.
Definition with_entries (v : gmap bytes MetadataValue) (tm : TorrentMetadata) : TorrentMetadata :=
  MkTorrentMetadata (tm_TorrentID tm) v (tm_Version tm) (tm_LastModified tm).

(** [elapsed]: [time.Since(start)]. *)
Definition updateMetrics (elapsed now : Z) (mm : MetadataManager) : MetadataManager :=
  let m := mm_metrics mm in
  with_metrics (MkMetrics (mx_TotalTorrents m) (mx_TotalKeys m) (i64 (mx_TotalOperations m + 1)) (mx_ValidationErrors m)
    (Z.quot (i64 (mx_AverageLatency m + elapsed)) 2) (Some now)) mm.

(** ** Validation *)
Definition getValueType (value : V) : bytes :=
  match kind_of value with
  | None => bs "nil"
  | Some KString => bs "string"
  | Some (KInt | KInt8 | KInt16 | KInt32) => bs "int"
  | Some KInt64 => bs "int64"
  | Some (KFloat32 | KFloat64) => bs "float64"
  | Some KBool => bs "bool"
  | Some KMap => bs "map"
  | Some (KSlice | KArray) => bs "slice"
  | Some k => Kind_String k
  end.

Fixpoint containsString (slice : list bytes) (item : bytes) : bool :=
  match slice with
  | [] => false
  | s :: slice' => if decide (s = item) then true else containsString slice' item
  end.
Fixpoint containsAllTags (valueTags requiredTags : list bytes) : bool :=
  match requiredTags with
  | [] => true
  | required :: requiredTags' => if containsString valueTags required then containsAllTags valueTags requiredTags' else false
  end.

Definition isAllowedType (valueType : bytes) (mm : MetadataManager) : bool := containsString (mc_AllowedTypes (mm_constraints mm)) valueType.

Definition validateKey (key : bytes) (tm : TorrentMetadata) (mm : MetadataManager) : res () :=
  if decide (mc_MaxKeyLength (mm_constraints mm) < Z.of_nat (length key)) then Err "key length exceeds maximum"
  else if decide (key = []) then Err "key cannot be empty"
  else if containsString (mc_ReadOnlyKeys (mm_constraints mm)) key && bool_decide (is_Some (tm_Metadata tm !! key)) then Err "key is read-only"
  else Ok ().

Definition validateValueType (value : V) (mm : MetadataManager) : res () :=
  if isAllowedType (getValueType value) mm then Ok () else Err "type is not allowed".

Definition validateValueSerialization (value : V) (mm : MetadataManager) : res () :=
  match json_Marshal value with
  | Some serialized =>
      if decide (mc_MaxValueSize (mm_constraints mm) < Z.of_nat (length serialized)) then Err "serialized value size exceeds maximum" else Ok ()
  | None => Err "value is not serializable"
  end.

Definition validateTorrentCapacity (key : bytes) (tm : TorrentMetadata) (mm : MetadataManager) : res () :=
  if bool_decide (tm_Metadata tm !! key = None) && bool_decide (mc_MaxKeysPerTorrent (mm_constraints mm) <= Z.of_nat (size (tm_Metadata tm)))
  then Err "torrent already has maximum number of metadata keys"
  else Ok ().

Definition validateMetadata (key : bytes) (value : V) (tm : TorrentMetadata) (mm : MetadataManager) : res () :=
  _ ← validateKey key tm mm;
  _ ← validateValueType value mm;
  _ ← validateValueSerialization value mm;
  validateTorrentCapacity key tm mm.

Definition validateKeyForRemoval (key : bytes) (mm : MetadataManager) : res () :=
  if containsString (mc_RequiredKeys (mm_constraints mm)) key then Err "key is required and cannot be removed"
  else if containsString (mc_ReadOnlyKeys (mm_constraints mm)) key then Err "key is read-only and cannot be removed"
  else Ok ().

(** ** Setting *)

(** The state of one request: the manager, the entry of the torrent, the
    errors and the calls of callbacks so far. *)
Record pass := MkPass { ps_manager : MetadataManager; ps_torrent : TorrentMetadata; ps_errors : list request_error; ps_calls : list call }.

Definition getOrCreateTorrentMetadata (now torrentID : Z) (mm : MetadataManager) : TorrentMetadata * MetadataManager :=
  match mm_metadata mm !! torrentID with
  | Some tm => (tm, mm)
  | None =>
      let tm := MkTorrentMetadata torrentID ∅ 0 now in
      (tm, count_torrents 1 (with_torrents (<[torrentID := tm]> (mm_metadata mm)) mm))
  end.

Definition validateVersion (request : MetadataRequest) (tm : TorrentMetadata) : option MetadataResponse :=
  if decide (0 < mr_ExpectedVersion request /\ tm_Version tm <> mr_ExpectedVersion request)
  then Some (MkResponse false None [ERequest "version mismatch"] 0)
  else None.

Definition remove_key (request : MetadataRequest) (p : pass) (key : bytes) : pass :=
  let mm := ps_manager p in
  let tm := ps_torrent p in
  match validateKeyForRemoval key mm with
  | Ok _ =>
      match tm_Metadata tm !! key with
      | Some oldValue =>
          MkPass (count_keys (-1) mm) (with_entries (delete key (tm_Metadata tm)) tm) (ps_errors p)
            (ps_calls p ++ match mm_onMetadataRemoved mm with Some cb => [CallRemoved cb (mr_TorrentID request) key oldValue] | None => [] end)
      | None => p
      end
  | Err e => MkPass mm tm (ps_errors p ++ [ERemove key e]) (ps_calls p)
  | _ => p
  end.
Definition processMetadataRemovals (request : MetadataRequest) (p : pass) : pass := fold_left (remove_key request) (mr_Remove request) p.

Definition createMetadataValue (now : Z) (value : V) (source : bytes) (tags : list bytes) (oldValue : option MetadataValue) : MetadataValue :=
  MkValue value (getValueType value) (match oldValue with Some old => mv_CreatedAt old | None => now end) now source tags.

Definition set_key (now : Z) (request : MetadataRequest) (p : pass) (entry : bytes * V) : pass :=
  let '(key, value) := entry in
  let mm := ps_manager p in
  let tm := ps_torrent p in
  match validateMetadata key value tm mm with
  | Ok _ =>
      let oldValue := tm_Metadata tm !! key in
      let newValue := createMetadataValue now value (mr_Source request) (mr_Tags request) oldValue in
      MkPass (match oldValue with None => count_keys 1 mm | Some _ => mm end) (with_entries (<[key := newValue]> (tm_Metadata tm)) tm) (ps_errors p)
        (ps_calls p ++ match mm_onMetadataChanged mm with Some cb => [CallChanged cb (mr_TorrentID request) key oldValue newValue] | None => [] end)
  | Err e => MkPass (count_invalid mm) tm (ps_errors p ++ [ESet key e]) (ps_calls p)
  | _ => p
  end.
Definition processMetadataUpdates (now : Z) (request : MetadataRequest) (p : pass) : pass :=
  fold_left (set_key now request) (set_range (mr_Set request)) p.

Definition copy_value (value : MetadataValue) : MetadataValue :=
  MkValue (mv_Value value) (mv_Type value) (mv_CreatedAt value) (mv_UpdatedAt value) (mv_Source value) (mv_Tags value).
Definition copyTorrentMetadata (original : TorrentMetadata) : TorrentMetadata :=
  MkTorrentMetadata (tm_TorrentID original) (copy_value <$> tm_Metadata original) (tm_Version original) (tm_LastModified original).

Definition buildMetadataResponse (now : Z) (tm : TorrentMetadata) (errors : list request_error) : MetadataResponse * TorrentMetadata :=
  let tm := MkTorrentMetadata (tm_TorrentID tm) (tm_Metadata tm) (i64 (tm_Version tm + 1)) now in
  (MkResponse (bool_decide (errors = [])) (Some (copyTorrentMetadata tm)) errors (tm_Version tm), tm).

(** The response, the calls of callbacks and the manager afterwards. *)
Definition SetMetadata (now elapsed : Z) (request : option MetadataRequest) (mm : MetadataManager) : MetadataResponse * list call * MetadataManager :=
  match request with
  | None => (MkResponse false None [ERequest "request cannot be nil"] 0, [], mm)
  | Some request =>
      let '(tm, mm) := getOrCreateTorrentMetadata now (mr_TorrentID request) mm in
      match validateVersion request tm with
      | Some response => (response, [], updateMetrics elapsed now mm)
      | None =>
          let p := processMetadataUpdates now request (processMetadataRemovals request (MkPass mm tm [] [])) in
          let '(response, tm) := buildMetadataResponse now (ps_torrent p) (ps_errors p) in
          let mm := ps_manager p in
          (response, ps_calls p, updateMetrics elapsed now (with_torrents (<[mr_TorrentID request := tm]> (mm_metadata mm)) mm))
      end
  end.

(** ** Querying and removing *)
Definition matches (query : MetadataQuery) (entry : bytes * MetadataValue) : bool :=
  let '(key, value) := entry in
  (bool_decide (mq_Keys query = []) || containsString (mq_Keys query) key)
  && (bool_decide (mq_Source query = []) || bool_decide (mv_Source value = mq_Source query))
  && (bool_decide (mq_Tags query = []) || containsAllTags (mv_Tags value) (mq_Tags query))
  && match mq_CreatedAfter query with Some t => negb (bool_decide (mv_CreatedAt value < t)) | None => true end
  && match mq_CreatedBefore query with Some t => negb (bool_decide (t < mv_CreatedAt value)) | None => true end.

Definition filterMetadata (tm : TorrentMetadata) (query : MetadataQuery) : TorrentMetadata :=
  MkTorrentMetadata (tm_TorrentID tm) (copy_value <$> filter (fun e => matches query e = true) (tm_Metadata tm)) (tm_Version tm)
    (tm_LastModified tm).

(** The order in which the torrents are visited does not matter. *)
Definition GetMetadata (query : option MetadataQuery) (mm : MetadataManager) : res (gmap Z TorrentMetadata) :=
  match query with
  | None => Panic "nil pointer dereference"
  | Some query =>
      let torrentIDs := if decide (mq_TorrentIDs query = []) then (map_to_list (mm_metadata mm)).*1 else mq_TorrentIDs query in
      Ok (fold_left (fun result torrentID =>
            match mm_metadata mm !! torrentID with
            | Some tm =>
                let filteredMeta := filterMetadata tm query in
                if decide (tm_Metadata filteredMeta = ∅) then result else <[torrentID := filteredMeta]> result
            | None => result
            end) torrentIDs ∅)
  end.

Definition RemoveAllMetadata (torrentID : Z) (mm : MetadataManager) : bool * list call * MetadataManager :=
  match mm_metadata mm !! torrentID with
  | None => (false, [], mm)
  | Some tm =>
      (true,
       match mm_onMetadataRemoved mm with
       | Some cb => map (fun '(key, value) => CallRemoved cb torrentID key value) (set_range (tm_Metadata tm))
       | None => []
       end,
       with_torrents (delete torrentID (mm_metadata mm)) (count_torrents (-1) (count_keys (- Z.of_nat (size (tm_Metadata tm))) mm)))
  end.

Definition GetMetrics (mm : MetadataManager) : MetadataMetrics := mm_metrics mm.

End Metadata.

End Metadata.
