(* ===== verification/MetadataFacts.v ===== *)
(** * Custom metadata: what the manager promises

    The entries of every reachable manager obey the constraints and its counts
    are right; a request applies exactly the keys it does not report; of two
    writers with the same expected version one is refused. *)

From S2P Require Import Prelude Metainfo MetainfoFacts Bandwidth RpcTypes Metadata.
Import MetainfoFacts Metadata.

Module MetadataFacts.

Section Facts.
Context {V C : Type} `{!GoValue V} `{!SetRange}.
Abbreviation MM := (MetadataManager (V := V) (C := C)).
Abbreviation TMeta := (TorrentMetadata (V := V)).
Abbreviation Entry := (MetadataValue (V := V)).
Abbreviation Request := (MetadataRequest (V := V)).
Abbreviation Pass := (pass (V := V) (C := C)).

(** ** Counting *)
Definition keys_of (tm : TMeta) : Z := Z.of_nat (size (tm_Metadata tm)).
Definition total_keys (m : gmap Z TMeta) : Z := map_fold (fun _ tm n => keys_of tm + n) 0 m.

Lemma total_keys_insert id tm m : m !! id = None -> total_keys (<[id := tm]> m) = keys_of tm + total_keys m.
Proof. intros Hi. unfold total_keys. rewrite map_fold_insert_L; [done| |done]. intros. lia. Qed.
Lemma total_keys_delete id tm m : m !! id = Some tm -> total_keys m = keys_of tm + total_keys (delete id m).
Proof. intros Hi. rewrite <- (insert_delete_id _ _ _ Hi) at 1. by rewrite total_keys_insert by apply lookup_delete_eq. Qed.
Lemma total_keys_update id tm tm' m : m !! id = Some tm -> total_keys (<[id := tm']> m) = total_keys m - keys_of tm + keys_of tm'.
Proof.
  intros Hi. rewrite (total_keys_delete id tm m Hi), <- insert_delete_eq, total_keys_insert by apply lookup_delete_eq. lia.
Qed.

(** ** Invariant *)
Record entry_ok (c : MetadataConstraints) (key : bytes) (value : Entry) : Prop := {
  eo_key : key <> [] /\ Z.of_nat (length key) <= mc_MaxKeyLength c;
  eo_type : mv_Type value = getValueType (mv_Value value) /\ mv_Type value ∈ mc_AllowedTypes c;
  eo_size : exists b, json_Marshal (mv_Value value) = Some b /\ Z.of_nat (length b) <= mc_MaxValueSize c
}.
Record torrent_ok (c : MetadataConstraints) (id : Z) (tm : TMeta) : Prop := {
  to_id : tm_TorrentID tm = id;
  to_entries : map_Forall (entry_ok c) (tm_Metadata tm);
  to_room : keys_of tm <= Z.max 0 (mc_MaxKeysPerTorrent c)
}.
Record mm_ok (mm : MM) : Prop := {
  ok_torrents : map_Forall (torrent_ok (mm_constraints mm)) (mm_metadata mm);
  ok_total : mx_TotalTorrents (mm_metrics mm) = i64 (Z.of_nat (size (mm_metadata mm)));
  ok_keys : mx_TotalKeys (mm_metrics mm) = i64 (total_keys (mm_metadata mm))
}.

(** Constraints that admit what the old ones admit. *)
Definition relaxes (c c' : MetadataConstraints) : Prop :=
  mc_MaxKeyLength c <= mc_MaxKeyLength c' /\ mc_MaxValueSize c <= mc_MaxValueSize c' /\
  mc_MaxKeysPerTorrent c <= mc_MaxKeysPerTorrent c' /\ mc_AllowedTypes c ⊆ mc_AllowedTypes c'.

(** The managers a program can bring about that does not tighten the
    constraints under existing entries. *)
Inductive reachable : MM -> Prop :=
  | reach_new : reachable NewMetadataManager
  | reach_set now elapsed request mm : reachable mm -> reachable (SetMetadata now elapsed request mm).2
  | reach_remove_all id mm : reachable mm -> reachable (RemoveAllMetadata id mm).2
  | reach_constraints c mm : reachable mm -> mm_metadata mm = ∅ \/ relaxes (mm_constraints mm) c -> reachable (SetConstraints c mm)
  | reach_on_changed cb mm : reachable mm -> reachable (SetMetadataChangedCallback cb mm)
  | reach_on_removed cb mm : reachable mm -> reachable (SetMetadataRemovedCallback cb mm).

Lemma contains_spec l x : containsString l x = bool_decide (x ∈ l).
Proof.
  induction l as [|y l IH]; cbn; [by rewrite bool_decide_false by apply not_elem_of_nil|].
  destruct (decide (y = x)) as [->|E]; [by rewrite bool_decide_true by apply list_elem_of_here|]. rewrite IH. apply bool_decide_ext. set_solver.
Qed.

(** What a successful validation means. *)
Lemma key_valid key (tm : TMeta) (mm : MM) :
  validateKey key tm mm = Ok () <->
  (key <> [] /\ Z.of_nat (length key) <= mc_MaxKeyLength (mm_constraints mm)) /\
  ~ (key ∈ mc_ReadOnlyKeys (mm_constraints mm) /\ is_Some (tm_Metadata tm !! key)).
Proof.
  unfold validateKey. rewrite contains_spec, <- bool_decide_and. case_decide; [split; [done|lia]|]. case_decide; [naive_solver|].
  case_bool_decide; [naive_solver|]. split; [|done]. intros _. split; [split; [done|lia]|done].
Qed.
Lemma type_valid value (mm : MM) : validateValueType value mm = Ok () <-> getValueType value ∈ mc_AllowedTypes (mm_constraints mm).
Proof. unfold validateValueType, isAllowedType. rewrite contains_spec. by case_bool_decide. Qed.
Lemma size_valid value (mm : MM) :
  validateValueSerialization value mm = Ok () <-> exists b, json_Marshal value = Some b /\ Z.of_nat (length b) <= mc_MaxValueSize (mm_constraints mm).
Proof.
  unfold validateValueSerialization. destruct (json_Marshal value) as [b|]; [|split; [done|by intros (? & ? & _)]].
  case_decide; (split; [|intros (? & ? & ?)]); simplify_eq; try done; try lia. intros _. exists b. split; [done|lia].
Qed.
Lemma room_valid key (tm : TMeta) (mm : MM) :
  validateTorrentCapacity key tm mm = Ok () <-> (tm_Metadata tm !! key = None -> keys_of tm < mc_MaxKeysPerTorrent (mm_constraints mm)).
Proof.
  unfold validateTorrentCapacity, keys_of. rewrite <- bool_decide_and. case_bool_decide as Hc; [naive_solver lia|].
  split; [|done]. intros _ Hn. destruct (decide (mc_MaxKeysPerTorrent (mm_constraints mm) <= Z.of_nat (size (tm_Metadata tm)))); [naive_solver|lia].
Qed.
Lemma entry_validated key value (tm : TMeta) (mm : MM) :
  validateMetadata key value tm mm = Ok () <->
  validateKey key tm mm = Ok () /\ validateValueType value mm = Ok () /\ validateValueSerialization value mm = Ok () /\
  validateTorrentCapacity key tm mm = Ok ().
Proof.
  unfold validateMetadata. split.
  - intros Hv. inv_bind. done.
  - by intros (-> & -> & -> & ->).
Qed.

Lemma validate_cases key value (tm : TMeta) (mm : MM) : validateMetadata key value tm mm = Ok () \/ exists e, validateMetadata key value tm mm = Err e.
Proof.
  unfold validateMetadata, validateKey, validateValueType, validateValueSerialization, validateTorrentCapacity, mbind, res_bind.
  repeat (case_match; simplify_eq; eauto).
Qed.
Lemma removal_valid key (mm : MM) :
  validateKeyForRemoval key mm = Ok () <-> key ∉ mc_RequiredKeys (mm_constraints mm) ++ mc_ReadOnlyKeys (mm_constraints mm).
Proof. unfold validateKeyForRemoval. rewrite !contains_spec, elem_of_app. repeat case_bool_decide; naive_solver. Qed.
Lemma removal_cases key (mm : MM) : validateKeyForRemoval key mm = Ok () \/ exists e, validateKeyForRemoval key mm = Err e.
Proof. unfold validateKeyForRemoval. repeat case_match; eauto. Qed.

(** ** One request keeps the invariant *)
Record pass_ok (mm0 : MM) (tm0 : TMeta) (n : Z) (p : Pass) : Prop := {
  po_constraints : mm_constraints (ps_manager p) = mm_constraints mm0;
  po_torrents : mm_metadata (ps_manager p) = mm_metadata mm0;
  po_total : mx_TotalTorrents (mm_metrics (ps_manager p)) = mx_TotalTorrents (mm_metrics mm0);
  po_keys : mx_TotalKeys (mm_metrics (ps_manager p)) = i64 (n - keys_of tm0 + keys_of (ps_torrent p));
  po_version : tm_Version (ps_torrent p) = tm_Version tm0;
  po_torrent : torrent_ok (mm_constraints mm0) (tm_TorrentID tm0) (ps_torrent p)
}.

Lemma keys_delete key (tm : TMeta) v : tm_Metadata tm !! key = Some v -> keys_of (with_entries (delete key (tm_Metadata tm)) tm) = keys_of tm - 1.
Proof.
  intros Hk. unfold keys_of. cbn. rewrite map_size_delete_Some by eauto. enough (size (tm_Metadata tm) <> 0)%nat by lia.
  intros E%map_size_empty_inv. rewrite E, lookup_empty in Hk. done.
Qed.
Lemma remove_key_ok mm0 tm0 n request p key : pass_ok mm0 tm0 n p -> pass_ok mm0 tm0 n (remove_key request p key).
Proof.
  intros [P1 P2 P3 P4 P5 [T1 T2 T3]]. unfold remove_key. cbv zeta. destruct (removal_cases key (ps_manager p)) as [->|[e ->]]; [|by split].
  destruct (_ !! key) as [v|] eqn:Ek; [|by split; [..|split]]. split; cbn; try done.
  - rewrite P4, i64_add, (keys_delete _ _ _ Ek). f_equal. lia.
  - split; cbn; [done|by apply map_Forall_delete|]. rewrite (keys_delete _ _ _ Ek). lia.
Qed.
Lemma set_key_ok mm0 tm0 n now request p entry : pass_ok mm0 tm0 n p -> pass_ok mm0 tm0 n (set_key now request p entry).
Proof.
  intros [P1 P2 P3 P4 P5 [T1 T2 T3]]. destruct entry as [key value]. unfold set_key. cbv zeta.
  destruct (validate_cases key value (ps_torrent p) (ps_manager p)) as [Ev|[e ->]]; [rewrite Ev|by split].
  apply entry_validated in Ev as ((K1 & K2)%key_valid & K3%type_valid & K4%size_valid & K5). pose proof (proj1 (room_valid _ _ _) K5) as K6.
  rewrite P1 in *.
  assert (Hk : keys_of (with_entries (<[key := createMetadataValue now value (mr_Source request) (mr_Tags request) (tm_Metadata (ps_torrent p) !! key)]>
            (tm_Metadata (ps_torrent p))) (ps_torrent p)) =
          keys_of (ps_torrent p) + match tm_Metadata (ps_torrent p) !! key with Some _ => 0 | None => 1 end).
  { unfold keys_of. cbn. rewrite map_size_insert. destruct (_ !! key); unfold id; lia. }
  split; try (destruct (_ !! key); done).
  - cbn [ps_torrent]. rewrite Hk. destruct (_ !! key); cbn; rewrite P4, ?i64_add; f_equal; lia.
  - split; cbn [ps_torrent]; [done| |rewrite Hk; destruct (_ !! key); [lia|specialize (K6 eq_refl); lia]].
    cbn. apply map_Forall_insert_2; [|done]. split; cbn; done.
Qed.
Lemma fold_pass {A} (f : Pass -> A -> Pass) (P : Pass -> Prop) l p : (forall p a, P p -> P (f p a)) -> P p -> P (fold_left f l p).
Proof. intros Hf. revert p. induction l as [|a l IH]; intros p Hp; cbn; eauto. Qed.

(** The entry a request works on. *)
Definition entry_at (now id : Z) (mm : MM) : TMeta := default (MkTorrentMetadata id ∅ 0 now) (mm_metadata mm !! id).
Lemma created now id (mm : MM) :
  exists mm1, getOrCreateTorrentMetadata now id mm = (entry_at now id mm, mm1) /\ mm_metadata mm1 = <[id := entry_at now id mm]> (mm_metadata mm) /\
    mm_constraints mm1 = mm_constraints mm /\ (mm_ok mm -> mm_ok mm1 /\ torrent_ok (mm_constraints mm) id (entry_at now id mm)) /\
    mm1 = with_torrents (mm_metadata mm1) (if mm_metadata mm !! id then mm else count_torrents 1 mm).
Proof.
  unfold getOrCreateTorrentMetadata, entry_at. destruct (_ !! id) as [tm|] eqn:Ei; eexists; (split; [done|]); cbn.
  - rewrite insert_id by done. do 2 (split; [done|]). split; [|by destruct mm]. intros Hok. split; [done|]. by apply (ok_torrents _ Hok).
  - do 2 (split; [done|]). split; [|done]. intros [H1 H2 H3].
    assert (Ht : torrent_ok (mm_constraints mm) id (MkTorrentMetadata id ∅ 0 now)).
    { split; cbn; [done|apply map_Forall_empty|]. unfold keys_of. cbn. rewrite map_size_empty. lia. }
    split; [|done]. split; cbn; [by apply map_Forall_insert_2| |].
    + rewrite H2, i64_add, map_size_insert_None by done. f_equal. lia.
    + rewrite H3, total_keys_insert by done. unfold keys_of. cbn. rewrite map_size_empty. done.
Qed.

Lemma metrics_ok elapsed now (mm : MM) : mm_ok mm -> mm_ok (updateMetrics elapsed now mm).
Proof. by intros [H1 H2 H3]. Qed.
Lemma set_metadata_ok now elapsed request (mm : MM) : mm_ok mm -> mm_ok (SetMetadata now elapsed request mm).2.
Proof.
  intros Hok. destruct request as [request|]; [|done]. unfold SetMetadata.
  destruct (created now (mr_TorrentID request) mm) as (mm1 & -> & Em & Ec & Hc & _). destruct (Hc Hok) as [Hok1 Ht]. set (tm := entry_at _ _ _) in *.
  destruct (validateVersion request tm); cbn; [by apply metrics_ok|]. apply metrics_ok.
  assert (Hp : pass_ok mm1 tm (total_keys (mm_metadata mm1)) (processMetadataUpdates now request (processMetadataRemovals request (MkPass mm1 tm [] [])))).
  { unfold processMetadataUpdates, processMetadataRemovals.
    apply (fold_pass _ (pass_ok mm1 tm _)); [intros; by apply set_key_ok|]. apply (fold_pass _ (pass_ok mm1 tm _)); [intros; by apply remove_key_ok|].
    split; cbn; try done; [rewrite (ok_keys _ Hok1); f_equal; lia|]. by rewrite Ec, (to_id _ _ _ Ht). }
  destruct Hp as [P1 P2 P3 P4 P5 [T1 T2 T3]]. set (p := processMetadataUpdates _ _ _) in *. rewrite (to_id _ _ _ Ht) in T1.
  assert (Hl : mm_metadata mm1 !! mr_TorrentID request = Some tm) by (by rewrite Em, lookup_insert_eq).
  split; cbn.
  - rewrite P1, P2. apply map_Forall_insert_2; [by split|apply (ok_torrents _ Hok1)].
  - rewrite P3, P2, (ok_total _ Hok1), map_size_insert_Some by eauto. done.
  - rewrite P4, P2, (total_keys_update _ tm _ _ Hl). done.
Qed.
Lemma remove_all_ok id (mm : MM) : mm_ok mm -> mm_ok (RemoveAllMetadata id mm).2.
Proof.
  intros [H1 H2 H3]. unfold RemoveAllMetadata. destruct (_ !! id) as [tm|] eqn:Ei; [|by split]. split; cbn.
  - by apply map_Forall_delete.
  - rewrite H2, i64_add, map_size_delete_Some by eauto. f_equal. enough (size (mm_metadata mm) <> 0)%nat by lia.
    intros E%map_size_empty_inv. by rewrite E, lookup_empty in Ei.
  - rewrite H3, i64_add, (total_keys_delete id tm _ Ei). f_equal. unfold keys_of. lia.
Qed.
Lemma torrent_relaxed c c' id tm : relaxes c c' -> torrent_ok c id tm -> torrent_ok c' id tm.
Proof.
  intros (R1 & R2 & R3 & R4) [T1 T2 T3]. split; [done| |lia]. intros k v Hk. destruct (T2 k v Hk) as [(E1 & E2) (E3 & E4) (b & E5 & E6)].
  split; [split; [done|lia]|split; [done|by apply R4]|exists b; split; [done|lia]].
Qed.

(** C36: in every manager that can come about without tightening the
    constraints under existing entries, every entry has a key of legal length,
    an allowed type that is the type of its value, and a value whose JSON form
    fits the limit; no torrent has more keys than allowed; and the two counts
    of the metrics are the numbers of torrents and of keys. *)
Theorem metadata_wellformed (mm : MM) : reachable mm -> mm_ok mm.
Proof.
  induction 1 as [|now elapsed request mm _ IH|id mm _ IH|c mm _ [H1 H2 H3] Hc|cb mm _ [H1 H2 H3]|cb mm _ [H1 H2 H3]].
  - split; [apply map_Forall_empty|done|done].
  - by apply set_metadata_ok.
  - by apply remove_all_ok.
  - split; cbn; [|done|done]. destruct Hc as [->|Hr]; [apply map_Forall_empty|]. eapply map_Forall_impl; [exact H1|].
    intros id tm. by apply torrent_relaxed.
  - by split.
  - by split.
Qed.

(** ** What a request does *)

(** The keys that may not be removed, and the entries left by the removals. *)
Definition protected (c : MetadataConstraints) (key : bytes) : bool := bool_decide (key ∈ mc_RequiredKeys c ++ mc_ReadOnlyKeys c).
Definition kept_entries (c : MetadataConstraints) (remove : list bytes) (m : gmap bytes Entry) : gmap bytes Entry :=
  filter (fun e => e.1 ∉ remove \/ protected c e.1 = true) m.

(** Whether the entry may be set, the number of keys apart. *)
Definition acceptable (c : MetadataConstraints) (m : gmap bytes Entry) (key : bytes) (value : V) : Prop :=
  (key <> [] /\ Z.of_nat (length key) <= mc_MaxKeyLength c) /\ ~ (key ∈ mc_ReadOnlyKeys c /\ is_Some (m !! key)) /\
  getValueType value ∈ mc_AllowedTypes c /\ exists b, json_Marshal value = Some b /\ Z.of_nat (length b) <= mc_MaxValueSize c.

(** The calls for the values removed, and for the entries set. *)
Definition removed_calls (cb : option C) (id : Z) (gone : list (bytes * Entry)) : list (Metadata.call (V := V) (C := C)) :=
  match cb with Some cb => map (fun e => CallRemoved cb id e.1 e.2) gone | None => [] end.
Definition changed_calls (now : Z) (cb : option C) (request : Request) (m : gmap bytes Entry) (l : list (bytes * V)) : list (Metadata.call (V := V) (C := C)) :=
  match cb with
  | Some cb => map (fun e => CallChanged cb (mr_TorrentID request) e.1 (m !! e.1) (createMetadataValue now e.2 (mr_Source request) (mr_Tags request) (m !! e.1))) l
  | None => []
  end.

(** What a pass leaves alone, and how it counts; the counters are [int64]. *)
Definition invalid (errors : list request_error) : Z := Z.of_nat (length (List.filter (fun e => match e with ESet _ _ => true | _ => false end) errors)).
Record pass_counts (p p' : Pass) : Prop := {
  pc_changed : mm_onMetadataChanged (ps_manager p') = mm_onMetadataChanged (ps_manager p);
  pc_removed : mm_onMetadataRemoved (ps_manager p') = mm_onMetadataRemoved (ps_manager p);
  pc_torrents : mx_TotalTorrents (mm_metrics (ps_manager p')) = mx_TotalTorrents (mm_metrics (ps_manager p));
  pc_operations : mx_TotalOperations (mm_metrics (ps_manager p')) = mx_TotalOperations (mm_metrics (ps_manager p));
  pc_latency : mx_AverageLatency (mm_metrics (ps_manager p')) = mx_AverageLatency (mm_metrics (ps_manager p));
  pc_keys : i64 (mx_TotalKeys (mm_metrics (ps_manager p'))) = i64 (mx_TotalKeys (mm_metrics (ps_manager p)) + (keys_of (ps_torrent p') - keys_of (ps_torrent p)));
  pc_errors : i64 (mx_ValidationErrors (mm_metrics (ps_manager p'))) =
    i64 (mx_ValidationErrors (mm_metrics (ps_manager p)) + (invalid (ps_errors p') - invalid (ps_errors p)))
}.

(** What an update leaves under a key, given the rejected keys. *)
Definition updated (now : Z) (request : Request) (rejected : list bytes) (m : gmap bytes Entry) (key : bytes) (v : option V) : option Entry :=
  match v with
  | Some v => if decide (key ∈ rejected) then m !! key else Some (createMetadataValue now v (mr_Source request) (mr_Tags request) (m !! key))
  | None => m !! key
  end.

Lemma remove_key_result request (p : Pass) key :
  let p' := remove_key request p key in
  let c := mm_constraints (ps_manager p) in
  mm_constraints (ps_manager p') = c /\ mm_metadata (ps_manager p') = mm_metadata (ps_manager p) /\
  tm_TorrentID (ps_torrent p') = tm_TorrentID (ps_torrent p) /\ tm_Version (ps_torrent p') = tm_Version (ps_torrent p) /\
  if protected c key then tm_Metadata (ps_torrent p') = tm_Metadata (ps_torrent p) /\ exists e, ps_errors p' = ps_errors p ++ [ERemove key e]
  else tm_Metadata (ps_torrent p') = delete key (tm_Metadata (ps_torrent p)) /\ ps_errors p' = ps_errors p.
Proof.
  cbv zeta. unfold remove_key, protected. case_bool_decide as Hp.
  - destruct (removal_cases key (ps_manager p)) as [E|[e ->]]; [by apply removal_valid in E|]. naive_solver.
  - apply removal_valid in Hp. rewrite Hp. destruct (_ !! key) eqn:Ek; [done|]. by rewrite delete_id.
Qed.
#[local] Instance pass_counts_refl : Reflexive pass_counts.
Proof. intros p. split; try done; f_equal; lia. Qed.
#[local] Instance pass_counts_trans : Transitive pass_counts.
Proof.
  intros p1 p2 p3 [A1 A2 A3 A4 A5 A6 A7] [B1 B2 B3 B4 B5 B6 B7]. split; try congruence.
  - rewrite B6, <- i64_add, A6, i64_add. f_equal. lia.
  - rewrite B7, <- i64_add, A7, i64_add. f_equal. lia.
Qed.
Lemma invalid_app l l' : invalid (l ++ l') = invalid l + invalid l'.
Proof. unfold invalid. rewrite List.filter_app, length_app. lia. Qed.
Lemma i64_i64 z : i64 (i64 z) = i64 z.
Proof. pose proof (i64_add z 0) as E. by rewrite !Z.add_0_r in E. Qed.
Lemma remove_key_counts request (p : Pass) key : pass_counts p (remove_key request p key).
Proof.
  unfold remove_key. destruct (validateKeyForRemoval key (ps_manager p)) as [|e|e|]; [| |done..].
  2: { split; try done; cbn; rewrite ?invalid_app; f_equal; change (invalid [ERemove key e]) with 0; lia. }
  destruct (_ !! key) as [old|] eqn:Ek; [|done]. split; try done; cbn; [|f_equal; lia]. rewrite i64_i64. f_equal. unfold keys_of. cbn.
  rewrite map_size_delete, Ek. pose proof (map_size_ne_0_lookup_2 (tm_Metadata (ps_torrent p)) key (ex_intro _ old Ek)). lia.
Qed.
Lemma set_key_counts now request (p : Pass) e : pass_counts p (set_key now request p e).
Proof.
  destruct e as [key value]. unfold set_key. destruct (validateMetadata key value (ps_torrent p) (ps_manager p)) as [|e|e|]; [| |done..].
  - destruct (_ !! key) as [old|] eqn:Ek; (split; try done; cbn; [|f_equal; lia]); rewrite ?i64_i64; f_equal; unfold keys_of; cbn; rewrite map_size_insert, Ek;
      unfold id; lia.
  - split; try done; cbn; rewrite ?i64_i64; f_equal; rewrite ?invalid_app; change (invalid [ESet key e]) with 1; lia.
Qed.
Lemma fold_counts {X} (f : Pass -> X -> Pass) l (p : Pass) : (forall p x, pass_counts p (f p x)) -> pass_counts p (fold_left f l p).
Proof. intros Hf. revert p. induction l as [|x l IH]; intros p; cbn [fold_left]; [done|]. etrans; [apply Hf|apply IH]. Qed.

Lemma kept_protected c key l m : protected c key = true -> kept_entries c (key :: l) m = kept_entries c l m.
Proof.
  intros Hp. apply map_filter_ext. intros k v _. cbn. rewrite not_elem_of_cons. destruct (decide (k = key)) as [->|]; [rewrite Hp|]; tauto.
Qed.
Lemma kept_removed c key l m : protected c key = false -> kept_entries c (key :: l) m = kept_entries c l (delete key m).
Proof.
  intros Hp. unfold kept_entries. rewrite map_filter_delete. apply map_eq. intros k. destruct (decide (k = key)) as [->|Hne].
  - rewrite lookup_delete_eq. apply map_lookup_filter_None_2. right. intros v _ [Hn|Hn]; cbn in *; [by apply Hn, list_elem_of_here|congruence].
  - rewrite lookup_delete_ne, !map_lookup_filter by done. destruct (m !! k); cbn; [|done]. apply option_guard_iff. rewrite not_elem_of_cons. tauto.
Qed.
Lemma removal_result request l (p : Pass) :
  let p' := fold_left (remove_key request) l p in
  let c := mm_constraints (ps_manager p) in
  mm_constraints (ps_manager p') = c /\ mm_metadata (ps_manager p') = mm_metadata (ps_manager p) /\
  tm_TorrentID (ps_torrent p') = tm_TorrentID (ps_torrent p) /\ tm_Version (ps_torrent p') = tm_Version (ps_torrent p) /\
  tm_Metadata (ps_torrent p') = kept_entries c l (tm_Metadata (ps_torrent p)) /\
  exists refused, ps_errors p' = ps_errors p ++ map (fun r => ERemove r.1 r.2) refused /\ refused.*1 = filter (fun k => protected c k = true) l.
Proof.
  revert p. induction l as [|key l IH]; intros p; cbv zeta; cbn [fold_left].
  - do 4 (split; [done|]). split; [|exists []; by rewrite app_nil_r]. symmetry. apply map_filter_id. intros. left. apply not_elem_of_nil.
  - destruct (IH (remove_key request p key)) as (C1 & C2 & C3 & C4 & C5 & refused & C6 & C7). cbv zeta in *.
    destruct (remove_key_result request p key) as (D1 & D2 & D3 & D4 & D5). cbv zeta in *. rewrite D1 in *.
    split; [done|]. split; [congruence|]. split; [congruence|]. split; [congruence|]. rewrite C5, C6.
    destruct (protected _ key) eqn:Hp; destruct D5 as [-> D5].
    + rewrite kept_protected by done. split; [done|]. destruct D5 as [e ->]. exists ((key, e) :: refused).
      rewrite <- app_assoc, filter_cons_True by done. cbn. by rewrite C7.
    + rewrite kept_removed by done. split; [done|]. exists refused. rewrite D5, filter_cons_False by congruence. done.
Qed.

Lemma removal_calls request l (p : Pass) :
  let p' := fold_left (remove_key request) l p in
  let m := tm_Metadata (ps_torrent p) in
  exists gone, ps_calls p' = ps_calls p ++ removed_calls (mm_onMetadataRemoved (ps_manager p)) (mr_TorrentID request) gone /\ NoDup gone.*1 /\
    forall k v, (k, v) ∈ gone <-> m !! k = Some v /\ k ∈ l /\ protected (mm_constraints (ps_manager p)) k = false.
Proof.
  revert p. induction l as [|key l IH]; intros p; cbv zeta; cbn [fold_left].
  - exists []. split; [unfold removed_calls; destruct (mm_onMetadataRemoved _); by rewrite app_nil_r|]. split; [by apply NoDup_nil_2|]. set_solver.
  - destruct (IH (remove_key request p key)) as (gone & Hc & Hd & Hg). cbv zeta in *.
    destruct (remove_key_result request p key) as (D1 & _ & _ & _ & D5). cbv zeta in *. rewrite (pc_removed _ _ (remove_key_counts request p key)) in Hc.
    rewrite D1 in Hg. destruct (protected (mm_constraints (ps_manager p)) key) eqn:Ep.
    + destruct D5 as [Em _]. exists gone. rewrite Em in Hg. split; [|split; [done|]].
      * rewrite Hc. f_equal. unfold remove_key. destruct (removal_cases key (ps_manager p)) as [E|[e ->]]; [|done].
        apply removal_valid in E. unfold protected in Ep. apply bool_decide_eq_true in Ep. done.
      * intros k v. rewrite Hg, elem_of_cons. destruct (decide (k = key)) as [->|]; [rewrite Ep|]; naive_solver.
    + destruct D5 as [Em _]. rewrite Em in Hg. unfold protected in Ep. apply bool_decide_eq_false in Ep. pose proof Ep as Ev. apply removal_valid in Ev.
      assert (Hkey : protected (mm_constraints (ps_manager p)) key = false) by (by apply bool_decide_eq_false).
      assert (Hk : ps_calls (remove_key request p key) = ps_calls p ++
        match tm_Metadata (ps_torrent p) !! key with Some old => removed_calls (mm_onMetadataRemoved (ps_manager p)) (mr_TorrentID request) [(key, old)] | None => [] end)
        by (unfold remove_key; rewrite Ev; destruct (_ !! key); [cbn; by destruct (mm_onMetadataRemoved _)|by rewrite app_nil_r]).
      rewrite Hk in Hc. clear Hk. destruct (tm_Metadata (ps_torrent p) !! key) as [old|] eqn:Ek; rewrite <- app_assoc in Hc.
      * exists ((key, old) :: gone). split; [|split].
        -- rewrite Hc. f_equal. unfold removed_calls. by destruct (mm_onMetadataRemoved (ps_manager p)).
        -- cbn. apply NoDup_cons. split; [|done]. intros ([k v] & -> & Hin)%list_elem_of_fmap. apply Hg in Hin as [Hin _]. cbn in Hin. by rewrite lookup_delete_eq in Hin.
        -- intros k v. rewrite elem_of_cons, Hg, elem_of_cons. destruct (decide (k = key)) as [->|Hne]; [rewrite lookup_delete_eq|rewrite lookup_delete_ne by done]; naive_solver.
      * exists gone. split; [done|]. split; [done|]. intros k v. rewrite Hg, elem_of_cons.
        destruct (decide (k = key)) as [->|Hne]; [rewrite lookup_delete_eq|rewrite lookup_delete_ne by done]; naive_solver.
Qed.

Lemma keys_insert key v (tm : TMeta) : keys_of tm <= keys_of (with_entries (<[key := v]> (tm_Metadata tm)) tm).
Proof. unfold keys_of. cbn. rewrite map_size_insert. destruct (_ !! key); unfold id; lia. Qed.

(** One key: rejected with an error, exactly when it is not acceptable or the
    torrent is full, or stored. *)
Lemma set_key_result now request (p : Pass) key value :
  let p' := set_key now request p (key, value) in
  let c := mm_constraints (ps_manager p) in
  let m := tm_Metadata (ps_torrent p) in
  mm_constraints (ps_manager p') = c /\ mm_metadata (ps_manager p') = mm_metadata (ps_manager p) /\
  tm_TorrentID (ps_torrent p') = tm_TorrentID (ps_torrent p) /\ tm_Version (ps_torrent p') = tm_Version (ps_torrent p) /\
  keys_of (ps_torrent p) <= keys_of (ps_torrent p') /\
  ((acceptable c m key value /\ ps_errors p' = ps_errors p /\
    ps_calls p' = ps_calls p ++ changed_calls now (mm_onMetadataChanged (ps_manager p)) request m [(key, value)] /\
    tm_Metadata (ps_torrent p') = <[key := createMetadataValue now value (mr_Source request) (mr_Tags request) (m !! key)]> m) \/
   ((~ acceptable c m key value \/ (m !! key = None /\ mc_MaxKeysPerTorrent c <= keys_of (ps_torrent p))) /\
    ps_torrent p' = ps_torrent p /\ ps_calls p' = ps_calls p /\ exists e, ps_errors p' = ps_errors p ++ [ESet key e])).
Proof.
  cbv zeta. unfold set_key. destruct (validate_cases key value (ps_torrent p) (ps_manager p)) as [E|[e E]]; rewrite E.
  - apply entry_validated in E as ((K1 & K2)%key_valid & K3%type_valid & K4%size_valid & _). split; [by destruct (_ !! key)|].
    split; [by destruct (_ !! key)|]. do 2 (split; [done|]). split; [apply keys_insert|]. left. split; [done|]. split; [done|]. split; [by destruct (mm_onMetadataChanged _)|done].
  - do 4 (split; [done|]). split; [cbn; lia|]. right. split; [|by eauto]. destruct (decide (tm_Metadata (ps_torrent p) !! key = None /\
      mc_MaxKeysPerTorrent (mm_constraints (ps_manager p)) <= keys_of (ps_torrent p))) as [|Hr]; [by right|left].
    intros (K1 & K2 & K3 & K4). enough (validateMetadata key value (ps_torrent p) (ps_manager p) = Ok ()) by congruence.
    apply entry_validated. rewrite key_valid, type_valid, size_valid, room_valid. do 3 (split; [done|]). intros Hn.
    destruct (decide (mc_MaxKeysPerTorrent (mm_constraints (ps_manager p)) <= keys_of (ps_torrent p))); [naive_solver|lia].
Qed.

Lemma filter_in {X} (P Q : X -> Prop) `{!forall x, Decision (P x), !forall x, Decision (Q x)} (l : list X) :
  (forall x, x ∈ l -> P x <-> Q x) -> filter P l = filter Q l.
Proof.
  induction l as [|x l IH]; intros Hl; [done|]. rewrite !filter_cons, IH by (intros; apply Hl; by right).
  pose proof (Hl x ltac:(by left)). destruct (decide (P x)), (decide (Q x)); naive_solver.
Qed.
Lemma acceptable_iff c m m' key value : m !! key = m' !! key -> acceptable c m key value <-> acceptable c m' key value.
Proof. unfold acceptable. by intros ->. Qed.
Lemma updated_ext (now : Z) (request : Request) (rejected rejected' : list bytes) (m m' : gmap bytes Entry) (key : bytes) (v : option V) :
  m !! key = m' !! key -> (key ∈ rejected <-> key ∈ rejected') -> updated now request rejected m key v = updated now request rejected' m' key v.
Proof. intros Em Er. unfold updated. rewrite Em. destruct v; [|done]. destruct (decide _), (decide _); tauto. Qed.

Lemma update_result now request l (p : Pass) :
  NoDup l.*1 ->
  let p' := fold_left (set_key now request) l p in
  let c := mm_constraints (ps_manager p) in
  let m := tm_Metadata (ps_torrent p) in
  mm_constraints (ps_manager p') = c /\ mm_metadata (ps_manager p') = mm_metadata (ps_manager p) /\
  tm_TorrentID (ps_torrent p') = tm_TorrentID (ps_torrent p) /\ tm_Version (ps_torrent p') = tm_Version (ps_torrent p) /\
  keys_of (ps_torrent p) <= keys_of (ps_torrent p') /\
  exists rejected, ps_errors p' = ps_errors p ++ map (fun r => ESet r.1 r.2) rejected /\ rejected.*1 ⊆ l.*1 /\
    (forall k, tm_Metadata (ps_torrent p') !! k = updated now request rejected.*1 m k ((list_to_map l : gmap bytes V) !! k)) /\
    (forall k v, (k, v) ∈ l -> (~ acceptable c m k v -> k ∈ rejected.*1) /\
      (k ∈ rejected.*1 -> ~ acceptable c m k v \/ (m !! k = None /\ mc_MaxKeysPerTorrent c <= keys_of (ps_torrent p')))) /\
    ps_calls p' = ps_calls p ++ changed_calls now (mm_onMetadataChanged (ps_manager p)) request m (filter (fun e => e.1 ∉ rejected.*1) l).
Proof.
  revert p. induction l as [|[key value] l IH]; intros p; cbv zeta; cbn [fold_left fmap list_fmap].
  - intros _. do 4 (split; [done|]). split; [lia|]. exists []. rewrite app_nil_r. do 2 (split; [done|]). split; [done|]. split; [by intros k v []%not_elem_of_nil|].
    unfold changed_calls. destruct (mm_onMetadataChanged _); by rewrite app_nil_r.
  - intros [Hn Hd]%NoDup_cons. cbn in Hn. destruct (IH (set_key now request p (key, value)) Hd) as (C1 & C2 & C3 & C4 & C5 & rej & C6 & C7 & C8 & C9 & C10).
    destruct (set_key_result now request p key value) as (D1 & D2 & D3 & D4 & Hle & D5). cbv zeta in *. rewrite D1 in *.
    set (p1 := set_key now request p (key, value)) in *. set (p' := fold_left _ l p1) in *.
    split; [done|]. split; [congruence|]. split; [congruence|]. split; [congruence|].
    assert (Hother : forall k, k <> key -> tm_Metadata (ps_torrent p1) !! k = tm_Metadata (ps_torrent p) !! k)
      by (intros k Hk; destruct D5 as [(_ & _ & _ & ->)|(_ & -> & _)]; [by apply lookup_insert_ne|done]).
    assert (Hlk : (list_to_map l : gmap bytes V) !! key = None) by (by apply not_elem_of_list_to_map_1).
    split; [lia|].
    assert (Hnr : key ∉ rej.*1) by (intros Hin; by apply Hn, C7).
    assert (Hcb : mm_onMetadataChanged (ps_manager p1) = mm_onMetadataChanged (ps_manager p)) by (apply pc_changed, set_key_counts). rewrite Hcb in C10.
    assert (Hcalls : forall l', l' ⊆ l -> changed_calls now (mm_onMetadataChanged (ps_manager p)) request (tm_Metadata (ps_torrent p1)) l' =
      changed_calls now (mm_onMetadataChanged (ps_manager p)) request (tm_Metadata (ps_torrent p)) l').
    { intros l' Hl. unfold changed_calls. destruct (mm_onMetadataChanged _); [|done]. apply map_ext_in. intros [k v] Hin%list_elem_of_In%Hl. cbn.
      rewrite !Hother; [done|]. intros ->. apply Hn. by apply (list_elem_of_fmap_2 fst) in Hin. }
    rewrite Hcalls in C10 by (intros x [_ Hx]%list_elem_of_filter; done).
    destruct D5 as [(Ha & De & Dc & Dm)|(Hr & Dt & Dc & e & De)].
    + exists rej. rewrite C6, De. split; [done|]. split; [set_solver|]. split; [|split].
      * intros k. rewrite C8, list_to_map_cons. destruct (decide (k = key)) as [->|Hk].
        -- rewrite Hlk, lookup_insert_eq. unfold updated. rewrite decide_False by done. by rewrite Dm, lookup_insert_eq.
        -- rewrite lookup_insert_ne by done. by apply updated_ext; [apply Hother|].
      * intros k v [[= -> ->]|Hin]%elem_of_cons; [by split; intros|].
        assert (Hk : k <> key) by (intros ->; apply Hn; by apply (list_elem_of_fmap_2 fst) in Hin).
        destruct (C9 k v Hin) as [E1 E2]. rewrite (acceptable_iff _ _ _ _ _ (Hother k Hk)) in E1, E2. rewrite <- (Hother k Hk). done.
      * rewrite C10, Dc, filter_cons_True by done. unfold changed_calls. destruct (mm_onMetadataChanged _); by rewrite <- app_assoc.
    + exists ((key, e) :: rej). rewrite C6, De, <- app_assoc. split; [done|]. split; [cbn; set_solver|]. split; [|split].
      * intros k. rewrite C8, list_to_map_cons. destruct (decide (k = key)) as [->|Hk].
        -- rewrite Hlk, lookup_insert_eq. unfold updated. rewrite decide_True by set_solver. by rewrite Dt.
        -- rewrite lookup_insert_ne by done. apply updated_ext; [by apply Hother|set_solver].
      * intros k v [[= -> ->]|Hin]%elem_of_cons; [split; [set_solver|intros _; destruct Hr as [?|[? ?]]; [by left|right; split; [done|rewrite Dt in *; lia]]]|].
        assert (Hk : k <> key) by (intros ->; apply Hn; by apply (list_elem_of_fmap_2 fst) in Hin).
        destruct (C9 k v Hin) as [E1 E2]. rewrite Dt in *. cbn. split; [intros; right; by apply E1|]. intros [?|?]%elem_of_cons; [done|by apply E2].
      * rewrite C10, Dc, filter_cons_False by (cbn; set_solver). do 2 f_equal. apply filter_in. intros [k v] Hin. cbn. rewrite not_elem_of_cons.
        assert (Hk : k <> key) by (intros ->; apply Hn; by apply (list_elem_of_fmap_2 fst) in Hin). tauto.
Qed.

Lemma copy_same (tm : TMeta) : copyTorrentMetadata tm = tm.
Proof. destruct tm as [id m v t]. unfold copyTorrentMetadata. cbn. f_equal. rewrite <- (map_fmap_id m) at 2. apply map_fmap_ext. by intros ? [] _. Qed.
Lemma range_NoDup (m : gmap bytes V) : NoDup (set_range m).*1.
Proof. rewrite set_range_perm. apply NoDup_fst_map_to_list. Qed.
Lemma range_map (m : gmap bytes V) : (list_to_map (set_range m) : gmap bytes V) = m.
Proof. rewrite (list_to_map_proper _ (map_to_list m) (range_NoDup m) (set_range_perm m)). apply list_to_map_to_list. Qed.

(** What a request that passes the version check does. *)
Definition request_applied (now elapsed : Z) (request : Request) (mm : MM) : Prop :=
  let id := mr_TorrentID request in
  let c := mm_constraints mm in
  let old := entry_at now id mm in
  let kept := kept_entries c (mr_Remove request) (tm_Metadata old) in
  exists calls mm' tm refused rejected gone,
    let errors := map (fun r => ERemove r.1 r.2) refused ++ map (fun r => ESet r.1 r.2) rejected in
    SetMetadata now elapsed (Some request) mm = (MkResponse (bool_decide (errors = [])) (Some tm) errors (tm_Version tm), calls, mm') /\
    mm_metadata mm' = <[id := tm]> (mm_metadata mm) /\
    (tm_TorrentID tm = tm_TorrentID old /\ tm_Version tm = i64 (tm_Version old + 1) /\ tm_LastModified tm = now) /\
    refused.*1 = filter (fun k => protected c k = true) (mr_Remove request) /\
    (forall k, tm_Metadata tm !! k = updated now request rejected.*1 kept k (mr_Set request !! k)) /\
    (forall k, k ∈ rejected.*1 -> exists v, mr_Set request !! k = Some v /\
      (~ acceptable c kept k v \/ (kept !! k = None /\ mc_MaxKeysPerTorrent c <= keys_of tm))) /\
    (forall k v, mr_Set request !! k = Some v -> ~ acceptable c kept k v -> k ∈ rejected.*1) /\
    (calls = removed_calls (mm_onMetadataRemoved mm) id gone ++
       changed_calls now (mm_onMetadataChanged mm) request kept (filter (fun e => e.1 ∉ rejected.*1) (set_range (mr_Set request))) /\
     NoDup gone.*1 /\ forall k v, (k, v) ∈ gone <-> tm_Metadata old !! k = Some v /\ k ∈ mr_Remove request /\ protected c k = false) /\
    (mm_constraints mm' = c /\ mm_onMetadataChanged mm' = mm_onMetadataChanged mm /\ mm_onMetadataRemoved mm' = mm_onMetadataRemoved mm) /\
    let m := mm_metrics mm in
    let m' := mm_metrics mm' in
    mx_TotalTorrents m' = (if mm_metadata mm !! id then mx_TotalTorrents m else i64 (mx_TotalTorrents m + 1)) /\
    i64 (mx_TotalKeys m') = i64 (mx_TotalKeys m + (keys_of tm - keys_of old)) /\
    i64 (mx_ValidationErrors m') = i64 (mx_ValidationErrors m + Z.of_nat (length rejected)) /\
    mx_TotalOperations m' = i64 (mx_TotalOperations m + 1) /\
    mx_AverageLatency m' = Z.quot (i64 (mx_AverageLatency m + elapsed)) 2 /\ mx_LastOperation m' = Some now.

Lemma invalid_errors (refused rejected : list (bytes * string)) :
  invalid (map (fun r => ERemove r.1 r.2) refused ++ map (fun r => ESet r.1 r.2) rejected) = Z.of_nat (length rejected).
Proof.
  rewrite invalid_app. assert (E : invalid (map (fun r => ERemove r.1 r.2) refused) = 0) by (induction refused; done). rewrite E, Z.add_0_l. unfold invalid.
  f_equal. clear E. induction rejected as [|r l IH]; [done|]. cbn. by rewrite IH.
Qed.
Lemma set_applies now elapsed request (mm : MM) :
  validateVersion request (entry_at now (mr_TorrentID request) mm) = None -> request_applied now elapsed request mm.
Proof.
  unfold request_applied. cbv zeta. intros Hv. unfold SetMetadata.
  destruct (created now (mr_TorrentID request) mm) as (mm1 & -> & Em & Ec & _ & E1). rewrite Hv.
  set (tm0 := entry_at _ _ _) in *. set (p0 := MkPass mm1 tm0 [] []).
  destruct (removal_result request (mr_Remove request) p0) as (C1 & C2 & C3 & C4 & C5 & refused & C6 & C7). cbv zeta in *. cbn in C1, C2, C3, C4, C5, C6, C7.
  destruct (removal_calls request (mr_Remove request) p0) as (gone & G1 & G2 & G3). cbv zeta in *. cbn in G1, G3.
  assert (K1 : pass_counts p0 (processMetadataRemovals request p0)) by (apply fold_counts, remove_key_counts).
  fold (processMetadataRemovals request p0) in *. set (p1 := processMetadataRemovals request p0) in *.
  destruct (update_result now request (set_range (mr_Set request)) p1 (range_NoDup _)) as (D1 & D2 & D3 & D4 & _ & rejected & D6 & D7 & D8 & D9 & D10).
  assert (K2 : pass_counts p0 (processMetadataUpdates now request p1)) by (etrans; [exact K1|]; apply fold_counts, set_key_counts).
  cbv zeta in *. fold (processMetadataUpdates now request p1) in *. set (p2 := processMetadataUpdates now request p1) in *.
  rewrite C1, C5, Ec in *. rewrite range_map in D8.
  assert (Hcb : mm_onMetadataChanged mm1 = mm_onMetadataChanged mm /\ mm_onMetadataRemoved mm1 = mm_onMetadataRemoved mm)
    by (rewrite E1; by destruct (mm_metadata mm !! mr_TorrentID request)).
  destruct Hcb as [Hcb1 Hcb2].
  unfold buildMetadataResponse. cbv zeta. rewrite copy_same, D6, C6.
  do 2 eexists. eexists (MkTorrentMetadata (tm_TorrentID (ps_torrent p2)) (tm_Metadata (ps_torrent p2)) (i64 (tm_Version (ps_torrent p2) + 1)) now), refused, rejected, gone.
  split; [done|]. split; [cbn; rewrite D2, C2, Em; apply insert_insert_eq|]. split; [cbn; rewrite D3, C3, D4, C4; done|]. split; [done|]. split; [done|].
  assert (Hin : forall k v, (k, v) ∈ set_range (mr_Set request) <-> mr_Set request !! k = Some v)
    by (intros; rewrite set_range_perm; apply elem_of_map_to_list).
  split; [|split; [|split; [|split]]].
  - intros k Hk. pose proof (D7 k Hk) as ([k' v] & -> & Hkv)%list_elem_of_fmap. cbn in *. exists v. split; [by apply Hin|]. by apply (D9 k' v Hkv).
  - intros k v Hkv%Hin. by apply (D9 k v Hkv).
  - split; [|done]. rewrite D10, G1, (pc_changed _ _ K1). cbn. by rewrite Hcb1, Hcb2.
  - cbn. rewrite (pc_changed _ _ K2), (pc_removed _ _ K2), D1. done.
  - destruct K2 as [_ _ T1 T2 T3 T4 T5]. cbn in T1, T2, T3, T4, T5 |- *. rewrite T1, T2, T3, T4, T5, D6, C6. cbn [app]. rewrite invalid_errors, E1.
    change (invalid []) with 0. rewrite Z.sub_0_r. by destruct (mm_metadata mm !! mr_TorrentID request).
Qed.

(** C29: a request that passes the version check, in whatever order its keys
    are enumerated, applies exactly what it does not report: the unprotected
    keys to remove are gone and the protected ones are reported; a key to set
    holds the new value, with its creation time kept, unless the key is
    reported, and then it holds what it held; a key is reported if it is not
    acceptable, and an acceptable one only if it is new and the torrent is full
    in the end; every other key and every other torrent is as before. The
    torrent keeps its ID, its version grows by one and it is last modified now;
    the response carries this state. The callbacks are called once for each
    value removed and each entry set, with the old and new values. Constraints
    and callbacks stay; the metrics count the torrent if it is new, the change
    in its number of keys, the rejected keys and the operation (as [int64]),
    with the latency and the time. *)
Theorem set_metadata_accounts now elapsed request (mm : MM) :
  validateVersion request (entry_at now (mr_TorrentID request) mm) = None -> request_applied now elapsed request mm.
Proof. apply set_applies. Qed.

(** ** Optimistic locking *)
Definition version_of (id : Z) (mm : MM) : Z := from_option tm_Version 0 (mm_metadata mm !! id).
Definition run_requests (mm : MM) (requests : list (Z * Z * option Request)) : MM :=
  fold_left (fun mm '(now, elapsed, request) => (SetMetadata now elapsed request mm).2) requests mm.

Lemma entry_version now id (mm : MM) : tm_Version (entry_at now id mm) = version_of id mm.
Proof. unfold entry_at, version_of. by destruct (_ !! id). Qed.
(** A request is refused for its version, or adds one to the version. *)
Lemma set_version now elapsed request (mm : MM) :
  let id := mr_TorrentID request in
  let mm' := (SetMetadata now elapsed (Some request) mm).2 in
  if decide (0 < mr_ExpectedVersion request /\ version_of id mm <> mr_ExpectedVersion request)
  then (SetMetadata now elapsed (Some request) mm).1 = (MkResponse false None [ERequest "version mismatch"] 0, []) /\
    mm_metadata mm' = <[id := entry_at now id mm]> (mm_metadata mm)
  else exists tm, mm_metadata mm' = <[id := tm]> (mm_metadata mm) /\ tm_Version tm = i64 (version_of id mm + 1).
Proof.
  cbv zeta. case_decide as Hd.
  - unfold SetMetadata. destruct (created now (mr_TorrentID request) mm) as (mm1 & -> & Em & _). unfold validateVersion.
    rewrite entry_version, decide_True by done. done.
  - destruct (set_applies now elapsed request mm) as (calls & mm' & tm & refused & rejected & gone & -> & Hm & (_ & Hv & _) & _).
    + unfold validateVersion. by rewrite entry_version, decide_False.
    + exists tm. split; [done|]. by rewrite Hv, entry_version.
Qed.
Lemma version_grows now elapsed request id (mm : MM) :
  version_of id (SetMetadata now elapsed request mm).2 = version_of id mm \/
  version_of id (SetMetadata now elapsed request mm).2 = i64 (version_of id mm + 1).
Proof.
  destruct request as [request|]; [|by left]. pose proof (set_version now elapsed request mm) as Hs. cbv zeta in Hs.
  destruct (decide (id = mr_TorrentID request)) as [->|Hne].
  - case_decide; [left; destruct Hs as [_ Hs]|right; destruct Hs as (tm & Hs & <-)]; unfold version_of at 1; rewrite Hs, lookup_insert_eq; [apply entry_version|done].
  - left. unfold version_of. case_decide; [destruct Hs as [_ ->]|destruct Hs as (tm & -> & _)]; by rewrite lookup_insert_ne by done.
Qed.
Lemma version_range id requests (mm : MM) :
  0 <= version_of id mm -> version_of id mm + Z.of_nat (length requests) < 2 ^ 63 ->
  version_of id mm <= version_of id (run_requests mm requests) <= version_of id mm + Z.of_nat (length requests).
Proof.
  revert mm. induction requests as [|[[now elapsed] request] requests IH]; intros mm H0 Hn; cbn [run_requests fold_left length] in *; [cbn; lia|].
  fold (run_requests (SetMetadata now elapsed request mm).2 requests).
  assert (Hv : version_of id mm <= version_of id (SetMetadata now elapsed request mm).2 <= version_of id mm + 1)
    by (destruct (version_grows now elapsed request id mm) as [->| ->]; rewrite ?i64_small by lia; lia).
  set (mm1 := (SetMetadata now elapsed request mm).2) in *. clearbody mm1. specialize (IH mm1). lia.
Qed.

(** of two writers that send a change with the version they both read,
    one is refused: once the first request is through, the second, however
    many requests come in between, gets the version mismatch and changes
    nothing. *)
Theorem one_writer_wins n1 e1 r1 between n2 e2 r2 (mm : MM) :
  let id := mr_TorrentID r1 in
  let v := version_of id mm in
  mr_TorrentID r2 = id -> 0 < v -> mr_ExpectedVersion r1 = v -> mr_ExpectedVersion r2 = v -> v + 1 + Z.of_nat (length between) < 2 ^ 63 ->
  let mm1 := (SetMetadata n1 e1 (Some r1) mm).2 in
  let mm2 := run_requests mm1 between in
  version_of id mm1 = v + 1 /\
  exists mm3, SetMetadata n2 e2 (Some r2) mm2 = (MkResponse false None [ERequest "version mismatch"] 0, [], mm3) /\ mm_metadata mm3 = mm_metadata mm2.
Proof.
  cbv zeta. intros Hid Hv He1 He2 Hlt. pose proof (set_version n1 e1 r1 mm) as Hs. cbv zeta in Hs.
  rewrite decide_False in Hs by lia. destruct Hs as (tm & Hs & Ht). rewrite i64_small in Ht by lia.
  assert (E1 : version_of (mr_TorrentID r1) (SetMetadata n1 e1 (Some r1) mm).2 = version_of (mr_TorrentID r1) mm + 1)
    by (unfold version_of at 1; by rewrite Hs, lookup_insert_eq).
  split; [done|]. clear Hs. set (mm1 := (SetMetadata n1 e1 (Some r1) mm).2) in *. clearbody mm1.
  pose proof (version_range (mr_TorrentID r1) between mm1) as Hr. rewrite E1 in Hr. set (mm2 := run_requests mm1 between) in *. clearbody mm2. pose proof (set_version n2 e2 r2 mm2) as H2. cbv zeta in H2. rewrite Hid in H2.
  rewrite decide_True in H2 by lia. destruct H2 as [H2 Hm]. destruct (SetMetadata n2 e2 (Some r2) mm2) as [resp mm3]. cbn in *. exists mm3.
  split; [congruence|]. rewrite Hm. apply insert_id. unfold entry_at. destruct (_ !! mr_TorrentID r1) eqn:El; [done|].
  exfalso. unfold version_of at 4 in Hr. rewrite El in Hr. cbn in Hr. lia.
Qed.

(** A read-only key keeps its value whatever is requested. *)
Lemma read_only_kept now elapsed request id key v tm (mm : MM) :
  key ∈ mc_ReadOnlyKeys (mm_constraints mm) -> mm_metadata mm !! id = Some tm -> tm_Metadata tm !! key = Some v ->
  exists tm', mm_metadata (SetMetadata now elapsed request mm).2 !! id = Some tm' /\ tm_Metadata tm' !! key = Some v.
Proof.
  intros Hro Hi Hk. destruct request as [request|]; [|by eauto].
  assert (Ee : id = mr_TorrentID request -> entry_at now (mr_TorrentID request) mm = tm) by (intros <-; unfold entry_at; by rewrite Hi).
  destruct (validateVersion request (entry_at now (mr_TorrentID request) mm)) as [resp|] eqn:Ev.
  - pose proof (set_version now elapsed request mm) as Hs. cbv zeta in Hs. unfold validateVersion in Ev. rewrite entry_version in Ev.
    case_decide; [|done]. destruct Hs as [_ ->]. destruct (decide (id = mr_TorrentID request)) as [E|E];
      [rewrite Ee, <- E, lookup_insert_eq by done|rewrite lookup_insert_ne by done]; by eauto.
  - destruct (set_applies now elapsed request mm Ev) as (calls & mm' & tm' & refused & rejected & gone & -> & Hm & _ & _ & Hu & _ & Hrej & _). cbn. rewrite Hm.
    destruct (decide (id = mr_TorrentID request)) as [E|E]; [|rewrite lookup_insert_ne by done; by eauto].
    rewrite <- E, lookup_insert_eq. exists tm'. split; [done|]. specialize (Hu key). rewrite Ee in * by done.
    assert (Hkept : kept_entries (mm_constraints mm) (mr_Remove request) (tm_Metadata tm) !! key = Some v).
    { apply map_lookup_filter_Some_2; [done|]. right. apply bool_decide_true. set_solver. }
    rewrite Hu. unfold updated. destruct (mr_Set request !! key) as [nv|] eqn:Es; [|done]. rewrite decide_True; [done|].
    apply (Hrej key nv Es). intros (_ & Hn & _). apply Hn. by rewrite Hkept.
Qed.

(** ** Queries *)
Record satisfies (q : MetadataQuery) (key : bytes) (v : Entry) : Prop := {
  sat_key : mq_Keys q = [] \/ key ∈ mq_Keys q;
  sat_source : mq_Source q = [] \/ mv_Source v = mq_Source q;
  sat_tags : mq_Tags q ⊆ mv_Tags v;
  sat_after : forall t, mq_CreatedAfter q = Some t -> t <= mv_CreatedAt v;
  sat_before : forall t, mq_CreatedBefore q = Some t -> mv_CreatedAt v <= t
}.

Lemma all_tags_spec tags required : containsAllTags tags required = bool_decide (required ⊆ tags).
Proof.
  induction required as [|t required IH]; cbn; [by rewrite bool_decide_true by apply list_subseteq_nil|].
  rewrite contains_spec, IH, <- (andb_lazy_alt (bool_decide _)), <- bool_decide_and. apply bool_decide_ext. set_solver.
Qed.
Lemma matches_spec q key v : matches q (key, v) = true <-> satisfies q key v.
Proof.
  unfold matches. rewrite contains_spec, all_tags_spec, !andb_true_iff, !orb_true_iff, !bool_decide_eq_true. split.
  - intros ((((H1 & H2) & H3) & H4) & H5). split; try done.
    + destruct H3 as [->|]; [apply list_subseteq_nil|done].
    + intros t Et. rewrite Et in H4. apply negb_true_iff, bool_decide_eq_false in H4. lia.
    + intros t Et. rewrite Et in H5. apply negb_true_iff, bool_decide_eq_false in H5. lia.
  - intros [H1 H2 H3 H4 H5]. repeat split; try done; [by right|destruct (mq_CreatedAfter q) as [t|]|destruct (mq_CreatedBefore q) as [t|]]; try done;
      apply negb_true_iff, bool_decide_eq_false; [specialize (H4 t eq_refl)|specialize (H5 t eq_refl)]; lia.
Qed.
Lemma filtered_lookup (tm : TMeta) q key :
  tm_Metadata (filterMetadata tm q) !! key = tm_Metadata tm !! key ≫= fun v => guard (matches q (key, v) = true);; Some v.
Proof.
  cbn. rewrite lookup_fmap, map_lookup_filter. destruct (_ !! key) as [[]|]; cbn; [|done]. by case_guard.
Qed.

(** The answer to a query, torrent by torrent. *)
Definition answer (q : MetadataQuery) (mm : MM) (id : Z) : option TMeta :=
  match mm_metadata mm !! id with
  | Some tm => if decide (tm_Metadata (filterMetadata tm q) = ∅) then None else Some (filterMetadata tm q)
  | None => None
  end.
Lemma query_fold (mm : MM) q ids (r0 : gmap Z TMeta) :
  fold_left (fun result torrentID =>
    match mm_metadata mm !! torrentID with
    | Some tm => if decide (tm_Metadata (filterMetadata tm q) = ∅) then result else <[torrentID := filterMetadata tm q]> result
    | None => result
    end) ids r0 =
  fold_left (fun r i => match answer q mm i with Some tm => <[i := tm]> r | None => r end) ids r0.
Proof.
  revert r0. induction ids as [|id ids IH]; intros r0; cbn [fold_left]; [done|]. rewrite IH. f_equal. unfold answer.
  destruct (_ !! id) as [tm|]; [|done]. by case_decide.
Qed.
Lemma collect_lookup (f : Z -> option TMeta) ids (r0 : gmap Z TMeta) id :
  fold_left (fun r i => match f i with Some tm => <[i := tm]> r | None => r end) ids r0 !! id =
  (if decide (id ∈ ids) then match f id with Some tm => Some tm | None => r0 !! id end else r0 !! id : option TMeta).
Proof.
  revert r0. induction ids as [|i ids IH]; intros r0; cbn [fold_left]; [by rewrite decide_False by apply not_elem_of_nil|]. rewrite IH.
  destruct (decide (i = id)) as [->|Hne].
  - rewrite (decide_True _ _ (list_elem_of_here id ids)). destruct (f id); rewrite ?lookup_insert_eq; by case_decide.
  - assert (Hr : match f i with Some tm => <[i := tm]> r0 | None => r0 end !! id = r0 !! id) by (destruct (f i); [by rewrite lookup_insert_ne|done]).
    rewrite Hr. destruct (decide (id ∈ ids)), (decide (id ∈ i :: ids)); try done; set_solver.
Qed.

(** A query answers with exactly the entries of the torrents asked for that
    satisfy all of its conditions. *)
Theorem metadata_query q (mm : MM) :
  exists r, GetMetadata (Some q) mm = Ok r /\ forall id key v,
    (exists tm, r !! id = Some tm /\ tm_Metadata tm !! key = Some v) <->
    (mq_TorrentIDs q = [] \/ id ∈ mq_TorrentIDs q) /\ satisfies q key v /\ exists tm, mm_metadata mm !! id = Some tm /\ tm_Metadata tm !! key = Some v.
Proof.
  unfold GetMetadata. eexists. split; [done|]. intros id key v. rewrite query_fold, collect_lookup, lookup_empty. unfold answer.
  set (ids := if decide (mq_TorrentIDs q = []) then _ else _).
  assert (Hids : is_Some (mm_metadata mm !! id) -> id ∈ ids <-> mq_TorrentIDs q = [] \/ id ∈ mq_TorrentIDs q).
  { intros [tm Ht]. unfold ids. case_decide as E; [|by split; [right|intros [|]]]. split; [by left|intros _].
    apply list_elem_of_fmap. exists (id, tm). split; [done|]. by apply elem_of_map_to_list. }
  destruct (mm_metadata mm !! id) as [tm|] eqn:Ei; [specialize (Hids (ex_intro _ tm eq_refl))|].
  - rewrite <- Hids. split.
    + intros (tm' & Hr & Hk). case_decide; [|done]. case_decide; [done|]. simplify_eq. rewrite filtered_lookup in Hk.
      destruct (tm_Metadata tm !! key) eqn:Ek; cbn in Hk; [|done]. case_guard; simplify_eq/=. split; [done|]. split; [by apply matches_spec|by eauto].
    + intros (Hin & Hs%matches_spec & tm' & [= <-] & Hk). rewrite decide_True by done.
      assert (Hf : tm_Metadata (filterMetadata tm q) !! key = Some v) by (rewrite filtered_lookup, Hk; cbn; by rewrite option_guard_True).
      rewrite decide_False by (intros E; by rewrite E in Hf). eauto.
  - split; [intros (? & Hr & _); by case_decide|by intros (_ & _ & ? & ? & _)].
Qed.

End Facts.

(** ** Witnesses *)
#[local] Instance demo_values : GoValue bytes := {| kind_of := fun _ => Some KString; json_Marshal := fun v => Some ([34] ++ v ++ [34]) |}.
#[local] Instance demo_range : SetRange := {| set_range := fun A m => map_to_list m; set_range_perm := fun A m => Permutation_refl _ |}.

Definition demo_request (set : list (bytes * bytes)) (expected : Z) : MetadataRequest (V := bytes) :=
  MkRequest 7 (list_to_map set) [] (bs "app") [bs "x"] expected.
Definition demo_manager : MetadataManager (V := bytes) (C := unit) :=
  (SetMetadata 10 1 (Some (demo_request [(bs "a", bs "1"); (bs "b", bs "2")] 0)) NewMetadataManager).2.

Lemma metadata_wellformed_witness : mm_ok demo_manager.
Proof. apply metadata_wellformed. apply reach_set. apply reach_new. Defined.

Lemma set_metadata_accounts_witness : request_applied 20 1 (demo_request [(bs "a", bs "3"); ([], bs "4")] 1) demo_manager.
Proof. apply set_metadata_accounts. vm_compute. reflexivity. Defined.

Lemma one_writer_wins_witness :
  exists mm, SetMetadata 40 1 (Some (demo_request [(bs "a", bs "5")] 1))
    (run_requests (SetMetadata 20 1 (Some (demo_request [(bs "a", bs "3")] 1)) demo_manager).2 [(30, 1, Some (demo_request [(bs "c", bs "4")] 0))]) =
    (MkResponse false None [ERequest "version mismatch"] 0, [], mm).
Proof.
  destruct (one_writer_wins 20 1 (demo_request [(bs "a", bs "3")] 1) [(30, 1, Some (demo_request [(bs "c", bs "4")] 0))] 40 1
    (demo_request [(bs "a", bs "5")] 1) demo_manager) as (_ & mm & E & _); [reflexivity|vm_compute; reflexivity..|]. exists mm. exact E.
Defined.

(** ** Where the behaviour surprises *)

(** A torrent that has no metadata yet has version 0, which a request cannot
    expect: 0 means no expectation. Both of two first writers succeed. *)
Example first_writers_both_win :
  let mm1 := (SetMetadata 10 1 (Some (demo_request [(bs "a", bs "1")] 0)) (NewMetadataManager (V := bytes) (C := unit))).2 in
  mp_Success (SetMetadata 20 1 (Some (demo_request [(bs "a", bs "2")] 0)) mm1).1.1 = true.
Proof. vm_compute. reflexivity. Qed.

(** A request refused for its version leaves an empty entry behind. *)
Example refused_creates_entry :
  let '(resp, _, mm) := SetMetadata 10 1 (Some (demo_request [(bs "a", bs "1")] 5)) (NewMetadataManager (V := bytes) (C := unit)) in
  mp_Success resp = false /\ mx_TotalTorrents (mm_metrics mm) = 1.
Proof. vm_compute. done. Qed.

(** [RemoveAllMetadata] removes read-only and required keys. *)
Example remove_all_ignores_protection :
  let mm := SetConstraints (MkConstraints 100 10240 50 [bs "string"] [bs "a"] [bs "b"]) demo_manager in
  (RemoveAllMetadata 7 mm).1.1 = true /\ mm_metadata (RemoveAllMetadata 7 mm).2 = ∅.
Proof. vm_compute. done. Qed.

(** After [RemoveAllMetadata] the versions start again, so that a writer with
    an old version is accepted. *)
Example stale_writer_accepted :
  let mm := (RemoveAllMetadata 7 demo_manager).2 in
  let mm := (SetMetadata 20 1 (Some (demo_request [(bs "z", bs "9")] 0)) mm).2 in
  mp_Success (SetMetadata 30 1 (Some (demo_request [(bs "a", bs "5")] 1)) mm).1.1 = true.
Proof. vm_compute. reflexivity. Qed.
End MetadataFacts.
