(* ===== verification/EventFacts.v ===== *)
(** * Event notification: what it promises

    The routing tables are those of a list of subscriptions in their order; in
    every interleaving of publishers, worker and shutdown the events accepted
    are taken in their order and each is handed to its subscribers once. *)

From S2P Require Import Prelude Strconv Metainfo MetainfoFacts TorrentFile Bandwidth RpcTypes EventNotification.
Import MetainfoFacts RpcTypes EventNotification.

Module EventFacts.

Section Facts.
Context {D : Type}.
Abbreviation ENS := (EventNotificationSystem (D := D)).
Abbreviation Event := (EventNotification.Event (D := D)).
Abbreviation world := (EventNotification.world (D := D)).

(** ** Subscriptions as a list *)
Definition types_of (s : EventSubscriber) : list EventType := match es_Filters s with [] => getAllEventTypes | filters => filters end.
Definition occurrences (t : EventType) (l : list EventType) : nat := length (filter (eq t) l).
Definition subscribed (t : EventType) (subs : list EventSubscriber) : list bytes :=
  flat_map (fun s => replicate (occurrences t (types_of s)) (es_ID s)) subs.

Record registry_ok (ens : ENS) (subs : list EventSubscriber) : Prop := {
  r_ids : NoDup (map es_ID subs);
  r_subs : forall id s, en_subscribers ens !! id = Some s <-> s ∈ subs /\ es_ID s = id;
  r_infos : forall id, is_Some (en_subscriberInfo ens !! id) <-> id ∈ map es_ID subs;
  r_ptrs : forall id l, en_subscriberInfo ens !! id = Some l -> exists info, en_infos ens !! l = Some info /\ si_ID info = id;
  r_routes : forall t, routes_of t ens = subscribed t subs;
  r_active : em_ActiveSubscribers (en_metrics ens) = i64 (Z.of_nat (length subs))
}.

(** *** Routes *)
Lemma add_routes id filters (ens : ENS) t :
  routes_of t (fold_left (fun ens t => addSubscriberToEventType t id ens) filters ens) = routes_of t ens ++ replicate (occurrences t filters) id.
Proof.
  revert ens. induction filters as [|f filters IH]; intros ens; cbn [fold_left]; [by rewrite app_nil_r|]. rewrite IH. unfold occurrences.
  unfold routes_of at 1, addSubscriberToEventType. cbn [with_routes en_typeSubscribers]. destruct (decide (t = f)) as [->|Hne].
  - rewrite lookup_insert_eq, filter_cons_True by done. cbn. by rewrite <- app_assoc.
  - by rewrite lookup_insert_ne, filter_cons_False by done.
Qed.
Lemma remove_routes id filters (ens : ENS) t :
  routes_of t (fold_left (fun ens t => removeSubscriberFromType t id ens) filters ens) =
  Nat.iter (occurrences t filters) (remove_first id) (routes_of t ens).
Proof.
  revert ens. induction filters as [|f filters IH]; intros ens; cbn [fold_left]; [done|]. rewrite IH. unfold occurrences.
  unfold routes_of at 1, removeSubscriberFromType. cbn [with_routes en_typeSubscribers]. destruct (decide (t = f)) as [->|Hne].
  - rewrite lookup_alter_eq, filter_cons_True by done. cbn [length]. rewrite Nat.iter_succ_r. f_equal. unfold routes_of. by destruct (_ !! f).
  - by rewrite lookup_alter_ne, filter_cons_False by done.
Qed.
Lemma unrouted_absent id l : id ∉ l -> remove_first id l = l.
Proof. induction l as [|i l IH]; cbn; [done|]. intros [Hi Hl]%not_elem_of_cons. by rewrite decide_False, IH. Qed.
Lemma remove_run id n (a b : list bytes) : id ∉ a -> Nat.iter n (remove_first id) (a ++ replicate n id ++ b) = a ++ b.
Proof.
  intros Ha. induction n as [|n IH]; [done|]. rewrite Nat.iter_succ_r. rewrite <- IH. f_equal. clear IH.
  induction a as [|i a IH]; cbn; [by rewrite decide_True|]. apply not_elem_of_cons in Ha as [Hi Ha]. rewrite decide_False by done. f_equal. by apply IH.
Qed.
Lemma subscribed_ids t subs id : id ∈ subscribed t subs -> id ∈ map es_ID subs.
Proof.
  unfold subscribed. intros (s & Hs & Hin)%list_elem_of_In%in_flat_map. apply list_elem_of_In in Hin. apply elem_of_replicate in Hin as [-> _].
  apply list_elem_of_In, in_map, Hs.
Qed.
Lemma all_types_once t : (occurrences t getAllEventTypes <= 1)%nat.
Proof.
  assert (Hd : NoDup getAllEventTypes) by (apply (bool_decide_unpack _); vm_compute; exact I).
  unfold occurrences. destruct (filter (eq t) getAllEventTypes) as [|a [|b l]] eqn:E; cbn; try lia.
  pose proof (NoDup_filter (eq t) _ Hd) as Hf. rewrite E in Hf.
  assert (Ha : a = t /\ b = t) by (split; symmetry; [apply (list_elem_of_filter (eq t) getAllEventTypes a)|apply (list_elem_of_filter (eq t) getAllEventTypes b)]; rewrite E; set_solver).
  destruct Ha as [-> ->]. apply NoDup_cons in Hf as [Hn _]. set_solver.
Qed.

(** *** What is not touched *)
Lemma add_fold_rest id filters (ens : ENS) :
  exists v, fold_left (fun ens t => addSubscriberToEventType t id ens) filters ens = with_routes v ens.
Proof.
  revert ens. induction filters as [|f filters IH]; intros ens; cbn [fold_left]; [by exists (en_typeSubscribers ens); destruct ens|].
  destruct (IH (addSubscriberToEventType f id ens)) as [v ->]. by exists v.
Qed.
Lemma remove_fold_rest id filters (ens : ENS) :
  exists v, fold_left (fun ens t => removeSubscriberFromType t id ens) filters ens = with_routes v ens.
Proof.
  revert ens. induction filters as [|f filters IH]; intros ens; cbn [fold_left]; [by exists (en_typeSubscribers ens); destruct ens|].
  destruct (IH (removeSubscriberFromType f id ens)) as [v ->]. by exists v.
Qed.

(** [registerSubscriberRouting] adds the subscriber at the end of the routes of its types. *)
Lemma routing_spec s (ens : ENS) :
  exists v, registerSubscriberRouting s ens = with_routes v ens /\
    forall t, default [] (v !! t) = routes_of t ens ++ replicate (occurrences t (types_of s)) (es_ID s).
Proof.
  assert (Hf : registerSubscriberRouting s ens = fold_left (fun ens t => addSubscriberToEventType t (es_ID s) ens) (types_of s) ens)
    by (unfold registerSubscriberRouting, types_of; by destruct (es_Filters s)).
  destruct (add_fold_rest (es_ID s) (types_of s) ens) as [v Ev]. exists v. split; [congruence|]. intros t.
  rewrite <- add_routes, Ev. done.
Qed.
(** The removal from the routes, by type or throughout. *)
Lemma unrouting_spec s (ens : ENS) :
  exists v, match es_Filters s with
    | [] => with_routes (remove_first (es_ID s) <$> en_typeSubscribers ens) ens
    | filters => fold_left (fun ens t => removeSubscriberFromType t (es_ID s) ens) filters ens
    end = with_routes v ens /\
    forall t a b, routes_of t ens = a ++ replicate (occurrences t (types_of s)) (es_ID s) ++ b -> es_ID s ∉ a -> es_ID s ∉ b -> default [] (v !! t) = a ++ b.
Proof.
  unfold types_of. destruct (es_Filters s) as [|f filters].
  - eexists. split; [done|]. intros t a b Hr Ha Hb. rewrite lookup_fmap.
    assert (E : default [] (remove_first (es_ID s) <$> en_typeSubscribers ens !! t) = remove_first (es_ID s) (routes_of t ens))
      by (unfold routes_of; by destruct (_ !! t)).
    rewrite E, Hr. pose proof (all_types_once t) as Ho. destruct (occurrences t getAllEventTypes) as [|[|n]]; [| |lia].
    + apply unrouted_absent. cbn. set_solver.
    + apply (remove_run _ 1 a b Ha).
  - destruct (remove_fold_rest (es_ID s) (f :: filters) ens) as [v Ev]. exists v. split; [done|]. intros t a b Hr Ha _.
    transitivity (routes_of t (fold_left (fun ens t => removeSubscriberFromType t (es_ID s) ens) (f :: filters) ens)); [by rewrite Ev|].
    rewrite remove_routes, Hr. by apply remove_run.
Qed.

(** ** Refinement *)
Definition can_subscribe (subscriber : option EventSubscriber) (subs : list EventSubscriber) : res EventSubscriber :=
  s ← validateSubscriber subscriber;
  if decide (es_ID s ∈ map es_ID subs) then Err "subscriber with ID already exists" else Ok s.
Definition can_unsubscribe (id : bytes) (subs : list EventSubscriber) : res () :=
  if decide (id = []) then Err "subscriber ID cannot be empty" else if decide (id ∈ map es_ID subs) then Ok () else Err "subscriber with ID not found".

Lemma known_ids (ens : ENS) subs id : registry_ok ens subs -> is_Some (en_subscribers ens !! id) <-> id ∈ map es_ID subs.
Proof.
  intros Hok. split.
  - intros [s [Hs <-]%(r_subs _ _ Hok)]. by apply list_elem_of_In, in_map, list_elem_of_In.
  - intros Hin%list_elem_of_In. apply in_map_iff in Hin as (s & Hid & Hs%list_elem_of_In). exists s. by apply (r_subs _ _ Hok).
Qed.

Lemma subscribe_refines now subscriber (ens : ENS) subs :
  registry_ok ens subs ->
  match can_subscribe subscriber subs with
  | Ok s => exists ens', Subscribe now subscriber ens = (Ok (), ens') /\ registry_ok ens' (subs ++ [s])
  | r => Subscribe now subscriber ens = (_ ← r; Ok (), ens)
  end.
Proof.
  intros Hok. unfold can_subscribe, Subscribe. destruct (validateSubscriber subscriber) as [s| | |]; cbn [mbind res_bind]; [|done..].
  unfold checkDuplicateSubscriber. pose proof (known_ids ens subs (es_ID s) Hok) as Hid.
  case_decide as Hin; [by destruct (proj2 Hid Hin) as [s' ->]|].
  destruct (_ !! es_ID s) as [s'|] eqn:El; [exfalso; apply Hin, Hid; by eauto|]. clear Hid.
  destruct Hok as [R1 R2 R3 R4 R5 R6]. destruct (routing_spec s (registerSubscriberMetadata now s ens)) as (v & -> & Hv).
  eexists. split; [done|]. split; cbn [updateSubscriptionMetrics with_metrics with_routes registerSubscriberMetadata with_registry en_subscribers en_infos
    en_subscriberInfo en_metrics em_ActiveSubscribers].
  - rewrite map_app. apply NoDup_app. split; [done|]. split; [|apply NoDup_singleton]. cbn. intros x Hx. rewrite list_elem_of_singleton. by intros ->.
  - intros id s'. destruct (decide (id = es_ID s)) as [->|Hne]; rewrite ?lookup_insert_eq, ?lookup_insert_ne by done.
    + split; [intros [= <-]; set_solver|]. intros [[Hs|Hs]%elem_of_app Hi]; [|set_solver].
      exfalso. apply Hin. rewrite <- Hi. by apply list_elem_of_In, in_map, list_elem_of_In.
    + rewrite R2. set_solver.
  - intros id. rewrite map_app, elem_of_app, <- R3. destruct (decide (id = es_ID s)) as [->|Hne]; rewrite ?lookup_insert_eq, ?lookup_insert_ne by done.
    + cbn. split; [set_solver|by eauto].
    + cbn. rewrite list_elem_of_singleton. naive_solver.
  - intros id l. destruct (decide (id = es_ID s)) as [->|Hne]; rewrite ?lookup_insert_eq, ?lookup_insert_ne by done.
    + intros [= <-]. eexists. split; [by apply list_lookup_middle|done].
    + intros (info & Hi & Hid)%R4. exists info. split; [by apply lookup_app_l_Some|done].
  - intros t. unfold routes_of at 1. cbn. rewrite Hv. unfold subscribed. rewrite flat_map_app. cbn. rewrite app_nil_r. f_equal. apply R5.
  - rewrite R6, i64_add, length_app. f_equal. cbn. lia.
Qed.

Lemma without_split pre s post :
  NoDup (map es_ID (pre ++ s :: post)) ->
  filter (fun s' => es_ID s' <> es_ID s) (pre ++ s :: post) = pre ++ post /\ (es_ID s ∉ map es_ID pre) /\ (es_ID s ∉ map es_ID post).
Proof.
  rewrite map_app. cbn. intros (_ & Hpre & [Hpost _]%NoDup_cons)%NoDup_app.
  assert (Hp : es_ID s ∉ map es_ID pre) by (intros Hin; apply (Hpre _ Hin), list_elem_of_here).
  assert (Hf : forall l, es_ID s ∉ map es_ID l -> filter (fun s' => es_ID s' <> es_ID s) l = l).
  { induction l as [|x l IH]; cbn [map]; [done|]. intros [Hx Hl]%not_elem_of_cons. rewrite filter_cons_True by done. by rewrite IH. }
  rewrite filter_app, filter_cons_False, !Hf by tauto. done.
Qed.

Lemma unsubscribe_refines id (ens : ENS) subs :
  registry_ok ens subs ->
  match can_unsubscribe id subs with
  | Ok _ => exists ens', Unsubscribe id ens = (Ok (), ens') /\ registry_ok ens' (filter (fun s => es_ID s <> id) subs)
  | r => Unsubscribe id ens = (r, ens)
  end.
Proof.
  intros Hok. unfold can_unsubscribe, Unsubscribe. case_decide as Hne; [done|]. pose proof (known_ids ens subs id Hok) as Hid.
  case_decide as Hin; [|destruct (_ !! id) eqn:El; [exfalso; apply Hin, Hid; by eauto|done]].
  destruct (proj2 Hid Hin) as [s Es]. rewrite Es. clear Hid Hin. destruct Hok as [R1 R2 R3 R4 R5 R6].
  pose proof (proj1 (R2 id s) Es) as [Hs <-]. destruct (list_elem_of_split _ _ Hs) as (pre & post & ->).
  destruct (without_split pre s post R1) as (Hfilter & Hpre & Hpost). rewrite Hfilter.
  destruct (unrouting_spec s ens) as (v & -> & Hv).
  assert (Hroutes : forall t, default [] (v !! t) = subscribed t (pre ++ post)).
  { intros t. unfold subscribed. rewrite flat_map_app. apply Hv; [|intros Hc; by apply subscribed_ids in Hc..].
    rewrite R5. unfold subscribed. by rewrite flat_map_app. }
  cbn [with_routes en_subscriberInfo en_subscribers en_infos en_metrics].
  destruct (proj2 (R3 (es_ID s)) ltac:(rewrite map_app; set_solver)) as [l El]. rewrite El.
  eexists. split; [done|]. split; cbn [with_metrics with_registry with_routes en_subscribers en_infos en_subscriberInfo en_metrics em_ActiveSubscribers].
  - rewrite map_app in R1 |- *. cbn in R1. apply NoDup_app in R1 as (Ha & Hb & [_ Hc]%NoDup_cons). apply NoDup_app. split; [done|]. split; [|done].
    intros x Hx Hy. apply (Hb x Hx). by apply list_elem_of_further.
  - intros i s'. destruct (decide (i = es_ID s)) as [->|Hn].
    + rewrite lookup_delete_eq. split; [done|]. intros [[Hx|Hx]%elem_of_app Hi]; exfalso; [apply Hpre|apply Hpost]; rewrite <- Hi;
        by apply list_elem_of_In, in_map, list_elem_of_In.
    + rewrite lookup_delete_ne, R2 by done. rewrite !elem_of_app, elem_of_cons. naive_solver.
  - intros i. rewrite map_app. destruct (decide (i = es_ID s)) as [->|Hn].
    + rewrite lookup_delete_eq. split; [by intros [? ?]|]. intros [?|?]%elem_of_app; done.
    + rewrite lookup_delete_ne, R3, map_app by done. cbn. set_solver.
  - intros i l'. destruct (decide (i = es_ID s)) as [->|Hn]; [by rewrite lookup_delete_eq|]. rewrite lookup_delete_ne by done.
    intros (info & Hi & Hi')%R4. destruct (decide (l' = l)) as [->|Hl].
    + destruct (R4 _ _ El) as (info' & ? & ?). congruence.
    + exists info. by rewrite list_lookup_alter_ne by done.
  - intros t. apply Hroutes.
  - rewrite R6. change (i64 (i64 (Z.of_nat (length (pre ++ s :: post))) + -1) = i64 (Z.of_nat (length (pre ++ post)))). rewrite i64_add, !length_app.
    f_equal. cbn. lia.
Qed.

(** Histories of calls, on the system and on the list of subscriptions. *)
Inductive sub_op := OSubscribe (now : Z) (subscriber : option EventSubscriber) | OUnsubscribe (id : bytes).
Definition sub_step (ens : ENS) (o : sub_op) : res () * ENS :=
  match o with OSubscribe now subscriber => Subscribe now subscriber ens | OUnsubscribe id => Unsubscribe id ens end.
Definition abs_step (subs : list EventSubscriber) (o : sub_op) : res () * list EventSubscriber :=
  match o with
  | OSubscribe _ subscriber => match can_subscribe subscriber subs with Ok s => (Ok (), subs ++ [s]) | r => (_ ← r; Ok (), subs) end
  | OUnsubscribe id => match can_unsubscribe id subs with Ok _ => (Ok (), filter (fun s => es_ID s <> id) subs) | r => (r, subs) end
  end.
Fixpoint run_ops {S} (f : S -> sub_op -> res () * S) (ops : list sub_op) (s : S) : list (res ()) * S :=
  match ops with [] => ([], s) | o :: ops' => let '(r, s) := f s o in let '(rs, s) := run_ops f ops' s in (r :: rs, s) end.

Lemma sub_step_refines (ens : ENS) subs o : registry_ok ens subs -> (sub_step ens o).1 = (abs_step subs o).1 /\ registry_ok (sub_step ens o).2 (abs_step subs o).2.
Proof.
  intros Hok. destruct o as [now subscriber|id]; cbn [sub_step abs_step].
  - pose proof (subscribe_refines now subscriber ens subs Hok) as Hs. destruct (can_subscribe subscriber subs); [destruct Hs as (ens' & -> & ?)|rewrite Hs..]; done.
  - pose proof (unsubscribe_refines id ens subs Hok) as Hs. destruct (can_unsubscribe id subs); [destruct Hs as (ens' & -> & ?)|rewrite Hs..]; done.
Qed.
Lemma run_refines ops (ens : ENS) subs :
  registry_ok ens subs -> (run_ops sub_step ops ens).1 = (run_ops abs_step ops subs).1 /\ registry_ok (run_ops sub_step ops ens).2 (run_ops abs_step ops subs).2.
Proof.
  revert ens subs. induction ops as [|o ops IH]; intros ens subs Hok; cbn [run_ops]; [done|]. destruct (sub_step_refines ens subs o Hok) as [E Hok'].
  destruct (sub_step ens o) as [r ens'], (abs_step subs o) as [r' subs']. cbn in E, Hok'. subst r'. destruct (IH ens' subs' Hok') as [E2 Hok2].
  destruct (run_ops sub_step ops ens'), (run_ops abs_step ops subs'). cbn in *. split; [congruence|done].
Qed.
Lemma empty_registry (ens : ENS) :
  en_subscribers ens = ∅ -> en_subscriberInfo ens = ∅ -> en_typeSubscribers ens = ∅ -> em_ActiveSubscribers (en_metrics ens) = 0 -> registry_ok ens [].
Proof.
  intros E1 E2 E3 E4. split; rewrite ?E1, ?E2, ?E3, ?E4; try done.
  - apply NoDup_nil_2.
  - intros id s. rewrite lookup_empty. set_solver.
  - intros id. rewrite lookup_empty. split; [by intros []|set_solver].
  - intros t. unfold routes_of. by rewrite E3.
Qed.
Lemma new_registry : registry_ok NewEventNotificationSystem [].
Proof. by apply empty_registry. Qed.

(** C35: any history of [Subscribe] and [Unsubscribe] behaves like the list of
    subscriptions in their order: the calls return the same, and for every
    event type the routing table lists the subscribers of that type in the
    order of their subscription, once per time the type occurs in their
    filters (a subscriber without filters has all the types of
    [getAllEventTypes]). *)
Theorem routing_refines ops :
  let '(rs, ens) := run_ops sub_step ops NewEventNotificationSystem in
  let '(rs', subs) := run_ops abs_step ops [] in
  rs = rs' /\ registry_ok ens subs /\ forall t, default [] (ListSubscribersByType ens !! t) = subscribed t subs.
Proof.
  destruct (run_refines ops _ _ new_registry) as [E Hok]. destruct (run_ops sub_step ops _) as [rs ens], (run_ops abs_step ops []) as [rs' subs].
  cbn in E, Hok. split; [done|]. split; [done|]. intros t. rewrite <- (r_routes _ _ Hok). unfold ListSubscribersByType, routes_of. rewrite map_lookup_filter.
  destruct (_ !! t) as [[|i l]|]; cbn; [by rewrite option_guard_False by tauto|by rewrite option_guard_True|done].
Qed.

(** ** Interleavings *)
Definition current (w : world) : list Event := match w_worker w with Took e => [e] | _ => [] end.
Definition left_calls (w : world) : list (Event * bytes) := match w_worker w with Delivers e l => map (fun p => (e, es_ID p.1)) l | _ => [] end.
Definition due_calls (w : world) : list (Event * bytes) := flat_map (fun p => map (pair p.1) p.2) (w_taken w).

#[local] Instance selected_dec : EqDecision selected.
Proof. solve_decision. Defined.
(** The publishers past the [select] that have still to count their event. *)
Definition pending (c : selected) (w : world) : Z := Z.of_nat (length (filter (eq c) (w_selected w))).

Record world_ok (w : world) : Prop := {
  wo_registry : exists subs, registry_ok (w_ens w) subs;
  wo_order : w_accepted w = (w_taken w).*1 ++ current w ++ en_eventChan (w_ens w);
  wo_room : (length (en_eventChan (w_ens w)) <= chan_capacity)%nat;
  wo_calls : w_calls w ++ left_calls w ≡ₚ due_calls w;
  wo_accepted : em_TotalEvents (en_metrics (w_ens w)) = i64 (Z.of_nat (length (w_accepted w)) - pending Sent w);
  wo_dropped : em_EventsDropped (en_metrics (w_ens w)) = i64 (Z.of_nat (length (w_dropped w)) - pending Full w);
  wo_closing : (0 < w_closing w)%nat \/ en_closed (w_ens w) = true \/ Closed ∈ w_selected w \/ w_panicked w = true -> en_done (w_ens w) = true
}.

Lemma collected (ens : ENS) subs e : registry_ok ens subs -> map (fun p => es_ID p.1) (collect_subscribers e ens) = routes_of (ev_Type e) ens.
Proof.
  intros Hok. unfold collect_subscribers. assert (Hr : forall id, id ∈ routes_of (ev_Type e) ens -> id ∈ map es_ID subs)
    by (intros id; rewrite (r_routes _ _ Hok); apply subscribed_ids).
  induction (routes_of (ev_Type e) ens) as [|id l IH]; cbn; [done|]. destruct (proj2 (known_ids ens subs id Hok) (Hr id ltac:(set_solver))) as [s Es].
  destruct (proj2 (r_infos _ _ Hok id) (Hr id ltac:(set_solver))) as [p Ep]. rewrite Es, Ep. cbn. rewrite IH by set_solver.
  f_equal. by apply (r_subs _ _ Hok).
Qed.

Lemma registry_same (ens ens' : ENS) subs :
  en_subscribers ens' = en_subscribers ens -> en_subscriberInfo ens' = en_subscriberInfo ens -> en_typeSubscribers ens' = en_typeSubscribers ens ->
  em_ActiveSubscribers (en_metrics ens') = em_ActiveSubscribers (en_metrics ens) -> map si_ID (en_infos ens') = map si_ID (en_infos ens) ->
  registry_ok ens subs -> registry_ok ens' subs.
Proof.
  intros E1 E2 E3 E4 E5 [R1 R2 R3 R4 R5 R6]. split; [done|by rewrite E1|by rewrite E2| |unfold routes_of; by rewrite E3|by rewrite E4].
  rewrite E2. intros id l (info & Hl & Hid)%R4. assert (Hm : map si_ID (en_infos ens') !! l = Some id) by (by rewrite E5, list_lookup_fmap, Hl; cbn; rewrite Hid).
  apply list_lookup_fmap_Some in Hm as (info' & ? & ?). by exists info'.
Qed.
Lemma alter_ids (f : SubscriberInfo -> SubscriberInfo) l infos : (forall i, si_ID (f i) = si_ID i) -> map si_ID (alter f l infos) = map si_ID infos.
Proof.
  intros Hf. apply list_eq. intros i. rewrite !list_lookup_fmap. destruct (decide (i = l)) as [->|].
  - rewrite list_lookup_alter_eq. destruct (infos !! l); cbn; [by rewrite Hf|done].
  - by rewrite list_lookup_alter_ne.
Qed.

(** The operations that change the registry leave the channel and its counts alone. *)
Lemma sub_step_rest (ens : ENS) o :
  let ens' := (sub_step ens o).2 in
  en_eventChan ens' = en_eventChan ens /\ en_done ens' = en_done ens /\ en_closed ens' = en_closed ens /\
  em_TotalEvents (en_metrics ens') = em_TotalEvents (en_metrics ens) /\ em_EventsDropped (en_metrics ens') = em_EventsDropped (en_metrics ens).
Proof.
  destruct o as [now subscriber|id]; cbn [sub_step].
  - unfold Subscribe. destruct (validateSubscriber subscriber) as [s| | |]; [|done..]. destruct (checkDuplicateSubscriber (es_ID s) ens); [|done..].
    destruct (routing_spec s (registerSubscriberMetadata now s ens)) as (v & -> & _). done.
  - unfold Unsubscribe. case_decide; [done|]. destruct (en_subscribers ens !! id) as [s|]; [|done].
    assert (Hv : exists v, match es_Filters s with
      | [] => with_routes (remove_first id <$> en_typeSubscribers ens) ens
      | filters => fold_left (fun ens t => removeSubscriberFromType t id ens) filters ens
      end = with_routes v ens) by (destruct (es_Filters s); [by eexists|apply remove_fold_rest]).
    destruct Hv as [v ->]. cbn. by destruct (en_subscriberInfo ens !! id).
Qed.
Lemma sub_world_ok (w : world) o : world_ok w -> world_ok (with_ens (sub_step (w_ens w) o).2 w).
Proof.
  intros [[subs W1] W2 W3 W4 W5 W6 W7]. destruct (sub_step_rest (w_ens w) o) as (E1 & E2 & E3 & E4 & E5). cbv zeta in *.
  split; cbn; rewrite ?E1, ?E2, ?E3, ?E4, ?E5; try done. eexists. by apply sub_step_refines.
Qed.

Lemma pending_app c (l l' : list selected) : length (filter (eq c) (l ++ l')) = (length (filter (eq c) l) + length (filter (eq c) l'))%nat.
Proof. by rewrite filter_app, length_app. Qed.
Lemma pending_cons c c' (l : list selected) : length (filter (eq c) (c' :: l)) = ((if decide (c = c') then 1 else 0) + length (filter (eq c) l))%nat.
Proof. rewrite filter_cons. by destruct (decide (c = c')). Qed.
Lemma send_ok_world e before after c ens (w : world) :
  sendEventToChannel_select e (w_ens w) c ens -> world_ok w ->
  world_ok (MkWorld ens (w_worker w) (before ++ after) (w_selected w ++ [c]) (w_closing w) (w_waiting w)
    (w_accepted w ++ match c with Sent => [e] | _ => [] end) (w_taken w) (w_calls w) (w_dropped w ++ match c with Full => [e] | _ => [] end) (w_panicked w)).
Proof.
  intros Hs [[subs W1] W2 W3 W4 W5 W6 W7]. unfold pending in *. destruct Hs as [Hc Hr|Hc|Hd|Hc Hr Hd]; (split; unfold pending; cbn; rewrite ?app_nil_r, ?pending_app); try done.
  all: try (exists subs; by eapply registry_same; [..|exact W1]).
  all: try (rewrite ?W5, ?W6, ?length_app, pending_cons; first [rewrite decide_True by done|rewrite decide_False by done]; f_equal; cbn; lia).
  all: try (rewrite elem_of_app, list_elem_of_singleton; naive_solver).
  - unfold current. cbn. rewrite W2, <- !app_assoc. done.
  - rewrite length_app. cbn. apply bool_decide_eq_true in Hr. lia.
Qed.
Lemma record_ok_world now c before after r ens (w : world) :
  w_selected w = before ++ c :: after -> sendEventToChannel_case now c (w_ens w) = (r, ens) -> world_ok w ->
  world_ok (MkWorld ens (w_worker w) (w_publishers w) (before ++ after) (w_closing w) (w_waiting w) (w_accepted w) (w_taken w) (w_calls w) (w_dropped w)
    (match r with Panic _ => true | _ => w_panicked w end)).
Proof.
  intros El Hc [[subs W1] W2 W3 W4 W5 W6 W7]. unfold pending in *. rewrite El, pending_app, pending_cons in W5, W6. rewrite El in W7.
  assert (Hd : c = Closed -> en_done (w_ens w) = true) by (intros ->; apply W7; set_solver).
  destruct c; injection Hc as <- <-; (split; unfold pending; cbn; rewrite ?pending_app); try done.
  all: try (exists subs; by eapply registry_same; [..|exact W1]).
  all: try (rewrite ?W5, ?W6, ?i64_add; first [rewrite decide_True by done|rewrite decide_False by done]; f_equal; cbn; lia).
  all: try (intros Hx; apply W7; set_solver).
Qed.

Lemma world_step_ok (w w' : world) : step w w' -> world_ok w -> world_ok w'.
Proof.
  intros Hstep Hok. pose proof Hok as [[subs W1] W2 W3 W4 W5 W6 W7]. unfold left_calls, current in *.
  destruct Hstep as [now subscriber w|id w|n w|t w|unixNano event e w Hp|e before after c ens w Hp Hs|now c before after r ens w Hp Hs|e rest w Hw Hc|w Hw He|e w Hw
    |now outcome e s info before after w Hw|elapsed e w Hw|w|n w Hn|n w Hn Hw].
  - by apply (sub_world_ok w (OSubscribe now subscriber)).
  - by apply (sub_world_ok w (OUnsubscribe id)).
  - by split; cbn; [exists subs; eapply registry_same; [..|exact W1]|..].
  - by split; cbn; [exists subs; eapply registry_same; [..|exact W1]|..].
  - by split; cbn; [exists subs|..].
  - by eapply send_ok_world.
  - by eapply record_ok_world.
  - split; cbn; try done; rewrite Hw, Hc in *; [exists subs; by eapply registry_same; [..|exact W1]|done|cbn in W3; lia|done].
  - split; cbn; try done; rewrite Hw in *; [by exists subs|done..].
  - split; cbn; try done; rewrite Hw in *; [by exists subs| |].
    + cbn. rewrite fmap_app, W2. by rewrite <- !app_assoc.
    + unfold left_calls, due_calls. cbn. rewrite flat_map_app. cbn. rewrite app_nil_r. rewrite app_nil_r in W4. rewrite W4. f_equiv; [done|].
      by rewrite <- (collected _ _ e W1), map_map.
  - split; cbn; try done; rewrite Hw in *; [| |].
    + exists subs. eapply registry_same; [..|exact W1]; try done. cbn. apply alter_ids. intros i. by destruct outcome as [[]|].
    + done.
    + unfold left_calls, due_calls in *. cbn. rewrite <- W4, <- app_assoc, !map_app. cbn. f_equiv. apply Permutation_middle.
  - split; cbn; try done; rewrite Hw in *; [exists subs; by eapply registry_same; [..|exact W1]|done..].
  - split; cbn; try done. exists subs. by eapply registry_same; [..|exact W1].
  - assert (Hd : en_done (w_ens w) = true) by (apply W7; left; lia). destruct (en_closed (w_ens w)); split; cbn; try done;
      exists subs; [done|by eapply registry_same; [..|exact W1]].
  - split; cbn; try done; rewrite Hw in *; try done; exists []; by apply empty_registry.
Qed.

Lemma start_world_ok : world_ok start_world.
Proof. split; cbn; try done; [by exists []; apply new_registry|lia|]. intros [|[|[Hin|]]]; [lia|done|by apply not_elem_of_nil in Hin|done]. Qed.
Lemma reachable_ok (w : world) : rtc step start_world w -> world_ok w.
Proof. apply (rtc_ind_r world_ok); [apply start_world_ok|]. intros w1 w2 _ Hs Hok. by apply (world_step_ok w1). Qed.

(** C23: in every interleaving of subscribers, publishers, the worker, its
    deliveries and any calls of [Shutdown], the events the channel has accepted
    are, in the order of acceptance, those the worker has taken, the one it has
    in hand and those in the channel, which never exceeds its 1000 places; the
    deliveries completed and those under way are one for each event taken and
    each ID on its route at the time; the metrics count the events accepted
    and dropped, less those whose publisher has sent or dropped its event and
    has not got the lock to count it; and a panic (of a send on the closed
    channel or of a second close) comes only after [Shutdown] was called.
    Events in the channel when [Shutdown] comes may stay there: whether they
    are taken is not claimed. *)
Theorem events_in_order (w : world) : rtc step start_world w -> world_ok w.
Proof. apply reachable_ok. Qed.

(** ** The worker gets everything delivered *)

(** A step of the worker: it changes neither what is published nor the
    subscriptions. *)
Definition worker_step (w w' : world) : Prop :=
  step w w' /\ w_accepted w' = w_accepted w /\ w_publishers w' = w_publishers w /\ en_typeSubscribers (w_ens w') = en_typeSubscribers (w_ens w) /\
  en_done (w_ens w') = en_done (w_ens w) /\ w_worker w' <> Ended.

Lemma deliver_all (w : world) e l :
  w_worker w = Delivers e l -> exists w', rtc worker_step w w' /\ w_worker w' = Waits /\ en_eventChan (w_ens w') = en_eventChan (w_ens w).
Proof.
  revert w. induction l as [|[s info] l IH]; intros w Hw.
  - eexists. split; [apply rtc_once; split; [by apply (step_finish 0 e)|done]|done].
  - pose proof (step_deliver 0 (Handled None) e s info [] l w Hw) as Hs. eassert (Hs' : worker_step w _) by (split; [exact Hs|done]).
    match type of Hs with step _ ?w1 => destruct (IH w1 eq_refl) as (w' & Hr & Hw' & Hc) end.
    exists w'. split; [by eapply rtc_l|]. by rewrite Hc.
Qed.
Lemma take_one (w : world) e rest :
  w_worker w = Waits -> en_eventChan (w_ens w) = e :: rest -> exists w', rtc worker_step w w' /\ w_worker w' = Waits /\ en_eventChan (w_ens w') = rest.
Proof.
  intros Hw Hc. pose proof (step_take e rest w Hw Hc) as H1. eassert (H1' : worker_step w _) by (split; [exact H1|done]).
  match type of H1 with step _ ?w1 => pose proof (step_collect e w1 eq_refl) as H2 end.
  match type of H2 with step ?w1 ?w2 => assert (H2' : worker_step w1 w2) by (split; [exact H2|done]);
    destruct (deliver_all w2 e _ eq_refl) as (w' & Hr & Hw' & Hc') end.
  exists w'. split; [by eapply rtc_l, rtc_l|]. by rewrite Hc'.
Qed.
Lemma drain (w : world) : w_worker w = Waits -> exists w', rtc worker_step w w' /\ w_worker w' = Waits /\ en_eventChan (w_ens w') = [].
Proof.
  remember (en_eventChan (w_ens w)) as l eqn:El. symmetry in El. revert w El. induction l as [|e l IH]; intros w El Hw; [by exists w|].
  destruct (take_one w e l Hw El) as (w1 & H1 & Hw1 & Hc1). destruct (IH w1 Hc1 Hw1) as (w' & H2 & ?). exists w'. split; [by etrans|done].
Qed.
Lemma worker_waits (w : world) : w_worker w <> Ended -> exists w', rtc worker_step w w' /\ w_worker w' = Waits.
Proof.
  intros Hn. destruct (w_worker w) as [|e|e l|] eqn:Hw; [by exists w| | |done].
  - pose proof (step_collect e w Hw) as H2.
    match type of H2 with step ?w1 ?w2 => assert (H2' : worker_step w1 w2) by (split; [exact H2|done]);
      destruct (deliver_all w2 e _ eq_refl) as (w' & Hr & Hw' & _) end.
    exists w'. split; [by eapply rtc_l|done].
  - destruct (deliver_all w e l Hw) as (w' & ? & ? & _). by exists w'.
Qed.
Lemma worker_steps_same (w w' : world) : rtc worker_step w w' -> rtc step w w' /\ w_accepted w' = w_accepted w.
Proof.
  induction 1 as [w|w w1 w' (Hs & Ha & _) _ [IH1 IH2]]; [done|]. split; [by eapply rtc_l|congruence].
Qed.

(** as long as the worker has not ended, its own steps suffice to empty
    the channel: all events accepted are taken, in their order, and exactly the
    calls due for them have been made. *)
Theorem events_delivered (w : world) :
  rtc step start_world w -> w_worker w <> Ended ->
  exists w', rtc worker_step w w' /\ (w_taken w').*1 = w_accepted w /\ w_calls w' ≡ₚ due_calls w' /\ en_eventChan (w_ens w') = [].
Proof.
  intros Hr Hn. destruct (worker_waits w Hn) as (w1 & H1 & Hw1). destruct (drain w1 Hw1) as (w' & H2 & Hw' & Hc).
  assert (H12 : rtc worker_step w w') by (by etrans). destruct (worker_steps_same _ _ H12) as [Hst Ha].
  assert (Hok : world_ok w') by (apply reachable_ok; by etrans). destruct Hok as [_ W2 _ W4 _ _ _]. unfold current, left_calls in *.
  rewrite Hw', Hc in *. exists w'. split; [done|]. rewrite !app_nil_r in *. split; [congruence|done].
Qed.

End Facts.

(** ** Witnesses and defects *)
Definition demo_event : EventNotification.Event (D := unit) := MkEvent EventTorrentAdded (bs "e1") (Some 5) (bs "test") tt None None.

(** A publisher that passed the check before [Shutdown] sends after it: the
    program ends with a panic, although [Shutdown] was called once. *)
Example publish_panics : exists w : EventNotification.world (D := unit), rtc step start_world w /\ w_panicked w = true.
Proof.
  eexists. split; [|shelve]. eapply rtc_l; [apply (step_publish 5 (Some demo_event)); reflexivity|]. cbn.
  eapply rtc_l; [apply step_cancel|]. cbn. eapply rtc_l; [by eapply step_close|]. cbn.
  eapply rtc_l; [eapply (step_send _ [] []); [reflexivity|by apply select_closed]|]. cbn.
  eapply rtc_l; [by eapply (step_record 6 _ [] [])|]. apply rtc_refl.
  Unshelve. reflexivity.
Qed.

(** An event accepted before [Shutdown] may never be delivered: the worker may
    end with events in the channel. *)
Example shutdown_loses_events :
  exists w : EventNotification.world (D := unit), rtc step start_world w /\ w_worker w = Ended /\ w_panicked w = false /\ w_accepted w = [demo_event] /\ w_taken w = [].
Proof.
  eexists. split; [|shelve]. eapply rtc_l; [apply (step_publish 5 (Some demo_event)); reflexivity|]. cbn.
  eapply rtc_l; [eapply (step_send _ [] []); [reflexivity|by apply select_sent]|]. cbn.
  eapply rtc_l; [apply step_cancel|]. cbn. eapply rtc_l; [by eapply step_close|]. cbn.
  eapply rtc_l; [apply step_end; [reflexivity|by left]|]. cbn. apply rtc_refl.
  Unshelve. done.
Qed.

(** A second [Shutdown] closes the channel again, which panics. *)
Example shutdown_twice_panics : exists w : EventNotification.world (D := unit), rtc step start_world w /\ w_panicked w = true /\ w_publishers w = [].
Proof.
  eexists. split; [|shelve]. do 2 (eapply rtc_l; [apply step_cancel|]; cbn). do 2 (eapply rtc_l; [by eapply step_close|]; cbn). apply rtc_refl.
  Unshelve. done.
Qed.

(** The channel keeps its 1000 places whatever buffer size is set. *)
Example buffer_size_ignored : has_room (SetBufferSize 0 (NewEventNotificationSystem (D := unit))) = true.
Proof. reflexivity. Qed.

(** A subscriber gets an event which its publisher has not counted yet. *)
Lemma events_in_order_witness :
  exists w : EventNotification.world (D := unit), world_ok w /\ w_worker w = Waits /\ (w_taken w).*1 = [demo_event] /\ w_calls w = [(demo_event, bs "s")] /\
    pending Sent w = 1 /\ em_TotalEvents (en_metrics (w_ens w)) = 0.
Proof.
  eexists. split; [apply events_in_order|].
  - eapply rtc_l; [apply (step_subscribe 1 (Some (MkSubscriber (bs "s") [])))|]; cbn. eapply rtc_l; [apply (step_publish 5 (Some demo_event)); reflexivity|]; cbn.
    eapply rtc_l; [eapply (step_send _ [] []); [reflexivity|by apply select_sent]|]; cbn. eapply rtc_l; [by eapply step_take|]; cbn.
    eapply rtc_l; [by eapply step_collect|]; cbn. eapply rtc_l; [by eapply (step_deliver 6 (Handled None) _ _ _ [])|]; cbn.
    eapply rtc_l; [by eapply (step_finish 1)|]; cbn. apply rtc_refl.
  - vm_compute. repeat split.
Defined.

Lemma events_delivered_witness :
  exists w w' : EventNotification.world (D := unit), w_accepted w = [demo_event] /\ rtc worker_step w w' /\ (w_taken w').*1 = [demo_event].
Proof.
  eassert (H : rtc step (start_world (D := unit)) _).
  { eapply rtc_l; [apply (step_subscribe 1 (Some (MkSubscriber (bs "s") [])))|]. eapply rtc_l; [apply (step_publish 5 (Some demo_event)); reflexivity|].
    eapply rtc_l; [eapply (step_send _ [] []); [reflexivity|by apply select_sent]|]. apply rtc_refl. }
  match type of H with rtc step _ ?w =>
    destruct (events_delivered w H) as (w' & Hr & Ht & _); [discriminate|]; exists w, w'; split; [reflexivity|]; split; [exact Hr|exact Ht] end.
Defined.
End EventFacts.
