(* ===== verification/PluginFacts.v ===== *)
(** * Plugins: what the registries promise

    After any history of registrations the plugins of an operation run in the
    order of their registration, each on the result of the one before; but a
    plugin that leaves during a run changes the array the run walks over. *)

From S2P Require Import Prelude Metainfo MetainfoFacts TorrentFile Bandwidth RpcTypes Plugins.
Import MetainfoFacts RpcTypes Plugins.

Module PluginFacts.

Section Facts.
Context {Config : Type} `{!SliceGrowth}.
Abbreviation PM := (PluginManager (Config := Config)).
Abbreviation arrays := (list (list (option Plugin))).

(** ** Both registries at once *)
Abbreviation slot_key := (bytes + bytes)%type.
Definition slot (pm : PM) (k : slot_key) : option slice :=
  match k with inl operation => mg_behaviorPlugins pm !! operation | inr method => mg_interceptorPlugins pm !! method end.
Definition set_slot (k : slot_key) (s : slice) (h : arrays) (pm : PM) : PM :=
  match k with
  | inl operation => with_behavior (<[operation := s]> (mg_behaviorPlugins pm)) h pm
  | inr method => with_interceptor (<[method := s]> (mg_interceptorPlugins pm)) h pm
  end.
Definition view (pm : PM) (k : slot_key) : list (option Plugin) := match slot pm k with Some s => elements (mg_arrays pm) s | None => [] end.

(** The rest of the state, which the registries do not touch. *)
Definition same_rest (pm pm' : PM) : Prop :=
  mg_plugins pm' = mg_plugins pm /\ mg_pluginInfo pm' = mg_pluginInfo pm /\ mg_metricsPlugins pm' = mg_metricsPlugins pm /\ mg_metrics pm' = mg_metrics pm.

Definition fits (h : arrays) (s : slice) : Prop := exists a, h !! sl_ptr s = Some a /\ length a = sl_cap s /\ (sl_len s <= sl_cap s)%nat.
Record slots_ok (pm : PM) : Prop := {
  so_fits : forall k s, slot pm k = Some s -> fits (mg_arrays pm) s;
  so_apart : forall k k' s s', slot pm k = Some s -> slot pm k' = Some s' -> sl_ptr s = sl_ptr s' -> k = k'
}.

Lemma slot_set k s h pm k' : slot (set_slot k s h pm) k' = if decide (k = k') then Some s else slot pm k'.
Proof.
  destruct k as [k|k], k' as [k'|k']; cbn; case_decide as E; simplify_eq; try done;
    try (by rewrite lookup_insert_eq); rewrite lookup_insert_ne; [done|congruence|done|congruence].
Qed.
Lemma arrays_set k s h pm : mg_arrays (set_slot k s h pm) = h.
Proof. by destruct k. Qed.

(** An update of one slot that keeps the arrays of the others. *)
Lemma update_slot k s h (pm : PM) :
  slots_ok pm -> fits h s -> (forall k' s', k' <> k -> slot pm k' = Some s' -> h !! sl_ptr s' = mg_arrays pm !! sl_ptr s' /\ sl_ptr s' <> sl_ptr s) ->
  slots_ok (set_slot k s h pm) /\ view (set_slot k s h pm) k = elements h s /\ (forall k', k' <> k -> view (set_slot k s h pm) k' = view pm k') /\
  same_rest pm (set_slot k s h pm).
Proof.
  intros [S1 S2] Hs Ho. split; [split|split; [|split]].
  - intros k' s'. rewrite slot_set, arrays_set. case_decide as E; [intros [= <-]; done|]. intros Hk'. destruct (Ho k' s' (not_eq_sym E) Hk') as [Eh _].
    destruct (S1 k' s' Hk') as (a & Ha & ?). exists a. by rewrite Eh.
  - intros k1 k2 s1 s2. rewrite !slot_set. case_decide as E1; case_decide as E2; intros H1 H2 Hp; simplify_eq; try done.
    + destruct (Ho k2 s2 (not_eq_sym E2) H2). congruence.
    + destruct (Ho k1 s1 (not_eq_sym E1) H1). congruence.
    + by apply (S2 k1 k2 s1 s2).
  - unfold view. rewrite slot_set, decide_True, arrays_set by done. done.
  - intros k' Hk'. unfold view. rewrite slot_set, decide_False, arrays_set by done. destruct (slot pm k') as [s'|] eqn:E; [|done].
    unfold elements. by destruct (Ho k' s' Hk' E) as [-> _].
  - by destruct k.
Qed.

(** Changes elsewhere. *)
Definition same_slots (pm pm' : PM) : Prop :=
  mg_arrays pm' = mg_arrays pm /\ mg_behaviorPlugins pm' = mg_behaviorPlugins pm /\ mg_interceptorPlugins pm' = mg_interceptorPlugins pm.
Lemma slots_same pm pm' : same_slots pm pm' -> slots_ok pm -> slots_ok pm' /\ forall k, view pm' k = view pm k.
Proof.
  intros (E1 & E2 & E3) [S1 S2]. assert (Es : forall k, slot pm' k = slot pm k) by (intros [k|k]; cbn; congruence).
  split; [split|].
  - intros k s. rewrite Es, E1. apply S1.
  - intros k k' s s'. rewrite !Es. apply S2.
  - intros k. unfold view. by rewrite Es, E1.
Qed.

(** *** Adding *)
Lemma take_snoc {A} n (l : list A) x r : length l = n -> take (S n) (l ++ x :: r) = l ++ [x].
Proof. intros <-. rewrite (take_S_r _ _ x) by (by rewrite list_lookup_middle). by rewrite take_app_length. Qed.
Lemma append_fits (s : option slice) x (h : arrays) :
  (forall s', s = Some s' -> fits h s') ->
  let '(s1, h1) := append_one s x h in
  fits h1 s1 /\ elements h1 s1 = match s with Some s' => elements h s' | None => [] end ++ [Some x] /\
  (forall i, (i < length h)%nat -> (forall s', s = Some s' -> i <> sl_ptr s') -> h1 !! i = h !! i) /\
  (sl_ptr s1 = length h \/ exists s', s = Some s' /\ sl_ptr s1 = sl_ptr s').
Proof.
  intros Hf. unfold append_one. destruct s as [s|]; [destruct (Hf s eq_refl) as (a & Ha & Hl & Hc); case_decide as Hr|].
  - unfold fits, elements. cbn. rewrite list_lookup_alter_eq, Ha. cbn. split; [eexists; split; [done|]; rewrite length_insert; lia|].
    split; [|split; [|right; by exists s]].
    + rewrite (take_S_r _ _ (Some x)) by (apply list_lookup_insert_eq; lia). by rewrite take_insert_ge by lia.
    + intros i _ Hi. apply list_lookup_alter_ne. intros E. by apply (Hi s).
  - pose proof (grow_more (sl_cap s)). assert (El : length (elements h s) = sl_len s) by (unfold elements; rewrite Ha; cbn; rewrite length_take; lia).
    unfold fits. cbn [sl_ptr sl_len sl_cap]. rewrite list_lookup_middle by done. split; [|split; [|split; [|by left]]].
    + eexists. split; [done|]. rewrite length_app. cbn. rewrite length_replicate, El. lia.
    + unfold elements at 1. cbn [sl_ptr sl_len]. rewrite list_lookup_middle by done. cbn [default id from_option].
      by apply take_snoc.
    + intros i Hi _. by apply lookup_app_l.
  - pose proof (grow_more 0). unfold fits, elements. cbn [sl_ptr sl_len sl_cap]. rewrite list_lookup_middle by done. split; [|split; [|split; [|by left]]].
    + eexists. split; [done|]. cbn. rewrite length_replicate. lia.
    + done.
    + intros i Hi _. by apply lookup_app_l.
Qed.
Definition add_slot (p : Plugin) (pm : PM) (k : slot_key) : PM :=
  match k with inl operation => add_behavior p pm operation | inr method => add_interceptor p pm method end.
Lemma add_slot_ok p (pm : PM) k :
  slots_ok pm -> slots_ok (add_slot p pm k) /\ view (add_slot p pm k) k = view pm k ++ [Some p] /\
  (forall k', k' <> k -> view (add_slot p pm k) k' = view pm k') /\ same_rest pm (add_slot p pm k).
Proof.
  intros Hok. assert (E : add_slot p pm k = let '(s, h) := append_one (slot pm k) p (mg_arrays pm) in set_slot k s h pm) by (by destruct k). rewrite E.
  pose proof (append_fits (slot pm k) p (mg_arrays pm) (fun s => so_fits pm Hok k s)) as Ha.
  destruct (append_one (slot pm k) p (mg_arrays pm)) as [s1 h1]. destruct Ha as (H1 & H2 & H3 & H4).
  assert (Hv : view pm k ++ [Some p] = elements h1 s1) by (unfold view; by rewrite H2). rewrite Hv. apply update_slot; [done|done|].
  intros k' s' Hk' Es'. destruct (so_fits pm Hok k' s' Es') as (a & Hl & _).
  assert (Hlt : (sl_ptr s' < length (mg_arrays pm))%nat) by (by eapply lookup_lt_Some).
  assert (Hne : forall s, slot pm k = Some s -> sl_ptr s' <> sl_ptr s) by (intros s Es Ep; by apply Hk', (so_apart pm Hok k' k s' s)).
  split; [by apply H3|]. destruct H4 as [->|(s & Es & ->)]; [lia|by apply Hne].
Qed.

(** *** Removing *)
Definition without (id : bytes) (l : list (option Plugin)) : list (option Plugin) := match index_of id l with Some i => delete i l | None => l end.
Lemma index_lt id l i : index_of id l = Some i -> (i < length l)%nat.
Proof.
  revert i. induction l as [|p l IH]; intros i; cbn; [done|]. case_decide; [intros [= <-]; lia|].
  destruct (index_of id l) as [j|]; cbn; [|done]. intros [= <-]. specialize (IH j eq_refl). lia.
Qed.
Lemma remove_fits id s (h : arrays) :
  fits h s -> let '(s1, h1) := removeFromSlice id s h in
  fits h1 s1 /\ elements h1 s1 = without id (elements h s) /\ sl_ptr s1 = sl_ptr s /\ (forall i, i <> sl_ptr s -> h1 !! i = h !! i).
Proof.
  intros (a & Ha & Hl & Hc). unfold removeFromSlice, without. destruct (index_of id (elements h s)) as [i|] eqn:Ei; [|repeat split; [by exists a|done..]].
  apply index_lt in Ei. unfold remove_at, fits, elements in *. cbn. rewrite Ha in *. cbn in Ei. rewrite length_take in Ei.
  rewrite list_lookup_alter_eq, Ha. cbn. split; [|split; [|split; [done|]]].
  - eexists. split; [done|]. rewrite !length_app, length_take, !length_drop, length_take. lia.
  - rewrite app_assoc. rewrite take_app_length' by (rewrite length_app, length_take, length_drop, length_take; lia).
    rewrite delete_take_drop. by rewrite take_take, Nat.min_l by lia.
  - intros j Hj. by apply list_lookup_alter_ne.
Qed.
Definition remove_slot (id : bytes) (pm : PM) (k : slot_key) : PM :=
  match k with inl operation => remove_behavior id pm operation | inr method => remove_interceptor id pm method end.
Lemma remove_slot_ok id (pm : PM) k :
  slots_ok pm -> slots_ok (remove_slot id pm k) /\ view (remove_slot id pm k) k = without id (view pm k) /\
  (forall k', k' <> k -> view (remove_slot id pm k) k' = view pm k') /\ same_rest pm (remove_slot id pm k).
Proof.
  intros Hok.
  assert (E : remove_slot id pm k = match slot pm k with Some s => let '(s, h) := removeFromSlice id s (mg_arrays pm) in set_slot k s h pm | None => pm end)
    by (by destruct k). rewrite E. destruct (slot pm k) as [s|] eqn:Es; [|unfold view; by rewrite Es].
  pose proof (remove_fits id s (mg_arrays pm) (so_fits pm Hok k s Es)) as Hr. destruct (removeFromSlice id s (mg_arrays pm)) as [s1 h1].
  destruct Hr as (H1 & H2 & H3 & H4). assert (Hv : without id (view pm k) = elements h1 s1) by (unfold view; by rewrite Es). rewrite Hv.
  apply update_slot; [done|done|]. intros k' s' Hk' Es'. assert (Hne : sl_ptr s' <> sl_ptr s) by (intros Ep; by apply Hk', (so_apart pm Hok k' k s' s)).
  split; [by apply H4|congruence].
Qed.

(** *** Loops *)
Definition times (k : slot_key) (keys : list slot_key) : nat := length (filter (eq k) keys).
Lemma add_slots p keys (pm : PM) :
  slots_ok pm -> slots_ok (fold_left (add_slot p) keys pm) /\ same_rest pm (fold_left (add_slot p) keys pm) /\
  forall k, view (fold_left (add_slot p) keys pm) k = view pm k ++ replicate (times k keys) (Some p).
Proof.
  revert pm. induction keys as [|k0 keys IH]; intros pm Hok; cbn [fold_left].
  - split; [done|]. split; [done|]. intros k. by rewrite app_nil_r.
  - destruct (add_slot_ok p pm k0 Hok) as (H1 & H2 & H3 & R1 & R2 & R3 & R4). destruct (IH _ H1) as (I1 & (Q1 & Q2 & Q3 & Q4) & I3).
    split; [done|]. split; [by repeat split; etrans|]. intros k. rewrite I3. unfold times. destruct (decide (k = k0)) as [->|Hne].
    + rewrite H2, filter_cons_True, <- app_assoc by done. done.
    + by rewrite H3, filter_cons_False by done.
Qed.
Lemma remove_slots id keys (pm : PM) :
  slots_ok pm -> slots_ok (fold_left (remove_slot id) keys pm) /\ same_rest pm (fold_left (remove_slot id) keys pm) /\
  forall k, view (fold_left (remove_slot id) keys pm) k = Nat.iter (times k keys) (without id) (view pm k).
Proof.
  revert pm. induction keys as [|k0 keys IH]; intros pm Hok; cbn [fold_left]; [done|].
  destruct (remove_slot_ok id pm k0 Hok) as (H1 & H2 & H3 & R1 & R2 & R3 & R4). destruct (IH _ H1) as (I1 & (Q1 & Q2 & Q3 & Q4) & I3).
  split; [done|]. split; [by repeat split; etrans|]. intros k. rewrite I3. unfold times. destruct (decide (k = k0)) as [->|Hne].
  - rewrite H2, filter_cons_True by done. cbn [length]. by rewrite Nat.iter_succ_r.
  - by rewrite H3, filter_cons_False by done.
Qed.
Definition keys_of (p : Plugin) : list slot_key := map inl (default [] (p_SupportedOperations p)) ++ map inr (default [] (p_SupportedMethods p)).
Lemma fold_map {A B S} (g : A -> B) (f : S -> B -> S) l s : fold_left f (map g l) s = fold_left (fun s a => f s (g a)) l s.
Proof. revert s. induction l as [|a l IH]; intros s; cbn; [done|apply IH]. Qed.
Lemma register_slots p (pm : PM) :
  registerTypedPlugin p pm = let pm := fold_left (add_slot p) (keys_of p) pm in if p_metrics p then with_metrics_plugins (mg_metricsPlugins pm ++ [p]) pm else pm.
Proof. unfold registerTypedPlugin, keys_of. by rewrite fold_left_app, !fold_map. Qed.
Lemma unregister_slots p (pm : PM) : unregisterTypedPlugin p pm = removeMetricsPlugin p (fold_left (remove_slot (p_ID p)) (keys_of p) pm).
Proof. unfold unregisterTypedPlugin, removeInterceptorPlugin, removeBehaviorPlugin, keys_of. by rewrite fold_left_app, !fold_map. Qed.

(** ** The plugins as a list *)
Definition registered (k : slot_key) (plugs : list Plugin) : list Plugin := flat_map (fun p => replicate (times k (keys_of p)) p) plugs.

Record plugins_ok (pm : PM) (plugs : list Plugin) : Prop := {
  pl_ids : NoDup (map p_ID plugs);
  pl_plugins : forall id p, mg_plugins pm !! id = Some p <-> p ∈ plugs /\ p_ID p = id;
  pl_info : forall id, is_Some (mg_pluginInfo pm !! id) <-> id ∈ map p_ID plugs;
  pl_slots : slots_ok pm;
  pl_views : forall k, view pm k = map Some (registered k plugs);
  pl_metrics : mg_metricsPlugins pm = filter (fun p => p_metrics p = true) plugs;
  pl_active : pm_ActivePlugins (mg_metrics pm) = i64 (Z.of_nat (length plugs))
}.

Lemma index_middle id a p b : id ∉ map p_ID a -> p_ID p = id -> index_of id (map Some a ++ Some p :: b) = Some (length a).
Proof.
  intros Ha Hp. induction a as [|x a IH]; cbn; [by rewrite decide_True by (by f_equal)|]. apply not_elem_of_cons in Ha as [Hx Ha].
  rewrite decide_False by congruence. by rewrite IH.
Qed.
Lemma without_run id n a p b : id ∉ map p_ID a -> p_ID p = id -> Nat.iter n (without id) (map Some a ++ replicate n (Some p) ++ b) = map Some a ++ b.
Proof.
  intros Ha Hp. induction n as [|n IH]; [done|]. rewrite Nat.iter_succ_r, <- IH. f_equal. unfold without. cbn [replicate app].
  rewrite (index_middle id a p) by done. rewrite <- (length_map Some a). apply delete_middle.
Qed.
Lemma registered_ids k plugs id : id ∈ map p_ID (registered k plugs) -> id ∈ map p_ID plugs.
Proof.
  rewrite !list_elem_of_In, !in_map_iff. intros (p & <- & Hp). exists p. split; [done|]. unfold registered in Hp. apply in_flat_map in Hp as (p' & Hin & Hp).
  apply list_elem_of_In, elem_of_replicate in Hp as [-> _]. done.
Qed.
Lemma map_replicate_Some n (p : Plugin) : map Some (replicate n p) = replicate n (Some p).
Proof. induction n; cbn; congruence. Qed.

Lemma known_plugin pm plugs id : plugins_ok pm plugs -> is_Some (mg_plugins pm !! id) <-> id ∈ map p_ID plugs.
Proof.
  intros Hok. rewrite list_elem_of_In, in_map_iff. split.
  - intros [p [Hp Hi]%(pl_plugins _ _ Hok)]. exists p. split; [done|]. by apply list_elem_of_In.
  - intros (p & Hi & Hp%list_elem_of_In). exists p. by apply (pl_plugins _ _ Hok).
Qed.

Definition can_register (plugin : option Plugin) (initialized : option string) (plugs : list Plugin) : res Plugin :=
  match plugin with
  | None => Err "plugin cannot be nil"
  | Some p =>
      if decide (p_ID p = []) then Err "plugin ID cannot be empty"
      else if decide (p_ID p ∈ map p_ID plugs) then Err "plugin with ID already registered"
      else match initialized with Some _ => Err "failed to initialize plugin" | None => Ok p end
  end.

Lemma register_refines now plugin initialized config (pm : PM) plugs :
  plugins_ok pm plugs ->
  match can_register plugin initialized plugs with
  | Ok p => exists pm', RegisterPlugin now plugin initialized config pm = (Ok (), pm') /\ plugins_ok pm' (plugs ++ [p])
  | r => RegisterPlugin now plugin initialized config pm = (_ ← r; Ok (), pm)
  end.
Proof.
  intros Hok. unfold can_register, RegisterPlugin. destruct plugin as [p|]; [|done]. case_decide as Hne; [done|].
  pose proof (known_plugin pm plugs (p_ID p) Hok) as Hid. case_decide as Hin; [by destruct (proj2 Hid Hin) as [? ->]|].
  destruct (mg_plugins pm !! p_ID p) eqn:El; [exfalso; apply Hin, Hid; by eauto|]. clear Hid. destruct initialized; [done|].
  eexists. split; [done|]. destruct Hok as [L1 L2 L3 L4 L5 L6 L7]. rewrite register_slots. cbv zeta.
  set (pm1 := with_registry _ _ pm). destruct (slots_same pm pm1) as [S1 V1]; [done|done|].
  destruct (add_slots p (keys_of p) pm1 S1) as (H1 & (R1 & R2 & R3 & R4) & H3).
  set (pm2 := fold_left (add_slot p) (keys_of p) pm1) in *.
  set (pm3 := if p_metrics p then _ else _).
  assert (H4 : mg_plugins pm3 = mg_plugins pm1 /\ mg_pluginInfo pm3 = mg_pluginInfo pm1 /\ slots_ok pm3 /\ (forall k, view pm3 k = view pm2 k) /\
    mg_metricsPlugins pm3 = mg_metricsPlugins pm ++ (if p_metrics p then [p] else []) /\ mg_metrics pm3 = mg_metrics pm).
  { destruct (slots_same pm2 pm3) as [S3 V3]; [unfold pm3; by destruct (p_metrics p)|done|].
    do 2 (split; [unfold pm3; by destruct (p_metrics p)|]). do 2 (split; [done|]). unfold pm3. destruct (p_metrics p); cbn; rewrite ?app_nil_r, ?R3; done. }
  destruct H4 as (H4 & H5 & H6 & H7 & H8 & H9).
  split; cbn.
  - rewrite map_app. apply NoDup_app. split; [done|]. split; [|apply NoDup_singleton]. cbn. intros x Hx. rewrite list_elem_of_singleton. by intros ->.
  - intros id q. rewrite H4. cbn. destruct (decide (id = p_ID p)) as [->|Hn]; rewrite ?lookup_insert_eq, ?lookup_insert_ne by done.
    + split; [intros [= <-]; set_solver|]. intros [[Hs|Hs]%elem_of_app Hi]; [|set_solver].
      exfalso. apply Hin. rewrite <- Hi. by apply list_elem_of_In, in_map, list_elem_of_In.
    + rewrite L2. set_solver.
  - intros id. rewrite H5, map_app, elem_of_app, <- L3. cbn. destruct (decide (id = p_ID p)) as [->|Hn]; rewrite ?lookup_insert_eq, ?lookup_insert_ne by done.
    + split; [set_solver|by eauto].
    + rewrite list_elem_of_singleton. naive_solver.
  - by apply (slots_same pm3).
  - intros k. destruct (slots_same pm3 (count_plugins 1 1 pm3)) as [_ ->]; [done|done|]. rewrite H7, H3, V1, L5.
    unfold registered. rewrite flat_map_app, map_app. cbn. by rewrite app_nil_r, map_replicate_Some.
  - rewrite H8, L6, filter_app. f_equal. by destruct (p_metrics p) eqn:Em; [rewrite filter_cons_True|rewrite filter_cons_False by congruence].
  - rewrite H9, L7, i64_add, length_app. f_equal. cbn. lia.
Qed.

Lemma without_plugin pre p post :
  NoDup (map p_ID (pre ++ p :: post)) ->
  filter (fun q => p_ID q <> p_ID p) (pre ++ p :: post) = pre ++ post /\ (p_ID p ∉ map p_ID pre) /\ (p_ID p ∉ map p_ID post).
Proof.
  rewrite map_app. cbn. intros (_ & Hpre & [Hpost _]%NoDup_cons)%NoDup_app.
  assert (Hp : p_ID p ∉ map p_ID pre) by (intros Hin; apply (Hpre _ Hin), list_elem_of_here).
  assert (Hf : forall l, p_ID p ∉ map p_ID l -> filter (fun q => p_ID q <> p_ID p) l = l).
  { induction l as [|x l IH]; cbn [map]; [done|]. intros [Hx Hl]%not_elem_of_cons. rewrite filter_cons_True by done. by rewrite IH. }
  rewrite filter_app, filter_cons_False, !Hf by tauto. done.
Qed.
Lemma remove_metrics p a b : p_ID p ∉ map p_ID a -> remove_first (p_ID p) (a ++ p :: b) = a ++ b.
Proof.
  induction a as [|x a IH]; cbn; [by rewrite decide_True|]. intros [Hx Ha]%not_elem_of_cons. by rewrite decide_False, IH.
Qed.
Lemma filter_ids (Q : Plugin -> Prop) `{!forall p, Decision (Q p)} l id : id ∈ map p_ID (filter Q l) -> id ∈ map p_ID l.
Proof. rewrite !list_elem_of_In, !in_map_iff. intros (p & <- & [_ Hp]%list_elem_of_In%list_elem_of_filter). exists p. split; [done|]. by apply list_elem_of_In. Qed.

Definition can_unregister (id : bytes) (plugs : list Plugin) : res () :=
  if decide (id = []) then Err "plugin ID cannot be empty" else if decide (id ∈ map p_ID plugs) then Ok () else Err "plugin with ID not found".

Lemma unregister_refines id (pm : PM) plugs :
  plugins_ok pm plugs ->
  match can_unregister id plugs with
  | Ok _ => exists pm', UnregisterPlugin id pm = (Ok (), pm') /\ plugins_ok pm' (filter (fun p => p_ID p <> id) plugs)
  | r => UnregisterPlugin id pm = (r, pm)
  end.
Proof.
  intros Hok. unfold can_unregister, UnregisterPlugin. case_decide as Hne; [done|]. pose proof (known_plugin pm plugs id Hok) as Hid.
  case_decide as Hin; [|destruct (_ !! id) eqn:El; [exfalso; apply Hin, Hid; by eauto|done]].
  destruct (proj2 Hid Hin) as [p Ep]. rewrite Ep. clear Hid Hin. destruct Hok as [L1 L2 L3 L4 L5 L6 L7].
  pose proof (proj1 (L2 id p) Ep) as [Hp <-]. destruct (list_elem_of_split _ _ Hp) as (pre & post & ->).
  destruct (without_plugin pre p post L1) as (Hfilter & Hpre & Hpost). rewrite Hfilter, unregister_slots. eexists. split; [done|].
  destruct (remove_slots (p_ID p) (keys_of p) pm L4) as (H1 & (R1 & R2 & R3 & R4) & H3). set (pm1 := fold_left _ _ pm) in *.
  set (pm2 := removeMetricsPlugin p pm1).
  assert (Hm : mg_plugins pm2 = mg_plugins pm /\ mg_pluginInfo pm2 = mg_pluginInfo pm /\ mg_metrics pm2 = mg_metrics pm /\ same_slots pm1 pm2 /\
    mg_metricsPlugins pm2 = filter (fun q => p_metrics q = true) (pre ++ post)).
  { unfold pm2, removeMetricsPlugin. rewrite filter_app in L6. destruct (p_metrics p) eqn:Em; cbn; repeat split; try done.
    - rewrite R3, L6, filter_cons_True, remove_metrics, filter_app by (done || by intros Hc%filter_ids). done.
    - rewrite R3, L6, filter_cons_False, filter_app by congruence. done. }
  destruct Hm as (M1 & M2 & M3 & M4 & M5). split; cbn.
  - rewrite map_app in L1 |- *. cbn in L1. apply NoDup_app in L1 as (Ha & Hb & [_ Hc]%NoDup_cons). apply NoDup_app. split; [done|]. split; [|done].
    intros x Hx Hy. apply (Hb x Hx). by apply list_elem_of_further.
  - intros i q. rewrite M1. destruct (decide (i = p_ID p)) as [->|Hn].
    + rewrite lookup_delete_eq. split; [done|]. intros [[Hx|Hx]%elem_of_app Hi]; exfalso; [apply Hpre|apply Hpost]; rewrite <- Hi;
        by apply list_elem_of_In, in_map, list_elem_of_In.
    + rewrite lookup_delete_ne, L2 by done. rewrite !elem_of_app, elem_of_cons. naive_solver.
  - intros i. rewrite M2, map_app. destruct (decide (i = p_ID p)) as [->|Hn].
    + rewrite lookup_delete_eq. split; [by intros [? ?]|]. intros [?|?]%elem_of_app; done.
    + rewrite lookup_delete_ne, L3, map_app by done. cbn. set_solver.
  - by apply (slots_same pm1).
  - intros k. match goal with |- view ?pm3 k = _ => destruct (slots_same pm1 pm3) as [_ ->]; [done|done|] end.
    rewrite H3, L5. unfold registered. rewrite !flat_map_app, !map_app. cbn. rewrite map_app, map_replicate_Some.
    apply without_run; [|done]. intros Hc. by apply Hpre, (registered_ids k).
  - done.
  - rewrite M3, L7. change (i64 (i64 (Z.of_nat (length (pre ++ p :: post))) + -1) = i64 (Z.of_nat (length (pre ++ post)))). rewrite i64_add, !length_app.
    f_equal. cbn. lia.
Qed.

Lemma empty_plugins (pm : PM) :
  mg_plugins pm = ∅ -> mg_pluginInfo pm = ∅ -> mg_behaviorPlugins pm = ∅ -> mg_interceptorPlugins pm = ∅ -> mg_metricsPlugins pm = [] ->
  pm_ActivePlugins (mg_metrics pm) = 0 -> plugins_ok pm [].
Proof.
  intros E1 E2 E3 E4 E5 E6. assert (Es : forall k, slot pm k = None) by (intros [k|k]; cbn; by rewrite ?E3, ?E4, lookup_empty).
  split; rewrite ?E1, ?E2, ?E5, ?E6; try done.
  - apply NoDup_nil_2.
  - intros id p. rewrite lookup_empty. set_solver.
  - intros id. rewrite lookup_empty. split; [by intros []|set_solver].
  - split; [intros k s|intros k k' s s']; by rewrite Es.
  - intros k. unfold view. by rewrite Es.
Qed.

(** Histories. *)
Definition abs_do (plugs : list Plugin) (o : pm_op (Config := Config)) : list Plugin :=
  match o with
  | ORegister _ plugin initialized _ => match can_register plugin initialized plugs with Ok p => plugs ++ [p] | _ => plugs end
  | OUnregister id => match can_unregister id plugs with Ok _ => filter (fun p => p_ID p <> id) plugs | _ => plugs end
  | OSetTimeout _ => plugs
  | OShutdown _ => []
  end.
Lemma do_refines (pm : PM) plugs o : plugins_ok pm plugs -> plugins_ok (pm_do pm o) (abs_do plugs o).
Proof.
  intros Hok. destruct o as [now plugin initialized config|id|timeout|shutdown]; cbn [pm_do abs_do].
  - pose proof (register_refines now plugin initialized config pm plugs Hok) as Hr.
    destruct (can_register plugin initialized plugs); [destruct Hr as (pm' & -> & ?); done|by rewrite Hr..].
  - pose proof (unregister_refines id pm plugs Hok) as Hr.
    destruct (can_unregister id plugs); [destruct Hr as (pm' & -> & ?); done|by rewrite Hr..].
  - destruct Hok as [L1 L2 L3 L4 L5 L6 L7]. destruct (slots_same pm (SetDefaultTimeout timeout pm)) as [S V]; [done|done|]. by split.
  - by apply empty_plugins.
Qed.

Lemma run_plugins_ok ops (pm : PM) plugs : plugins_ok pm plugs -> plugins_ok (pm_run pm ops) (fold_left abs_do ops plugs).
Proof. revert pm plugs. induction ops as [|o ops IH]; intros pm plugs Hok; cbn; [done|]. by apply IH, do_refines. Qed.

(** ** Running *)

(** The handlers one after the other, each on the result of the one before, up
    to the first error: the result, the plugins called and whether one failed. *)
Fixpoint in_turn {X} (f : Plugin -> X -> X + string) (plugs : list Plugin) (x : X) : res X * list bytes * bool :=
  match plugs with
  | [] => (Ok x, [], false)
  | p :: plugs' =>
      match f p x with
      | inl x => let '(r, called, failed) := in_turn f plugs' x in (r, p_ID p :: called, failed)
      | inr _ => (Err "plugin failed", [p_ID p], true)
      end
  end.

Lemma walk_in_turn {X} (f : Plugin -> X -> X + string) (h : handler X) s l i (x : X) (pm : PM) :
  (forall p x, h p x = (f p x, [])) -> drop i (elements (mg_arrays pm) s) = map Some l ->
  walk h s i (length l) x pm = let '(r, called, failed) := in_turn f l x in (r, if failed then count_failure pm else pm, called).
Proof.
  intros Hh. revert i x. induction l as [|p l IH]; intros i x Hd; cbn; [done|].
  assert (Hi : elements (mg_arrays pm) s !! i = Some (Some p)) by (rewrite <- (Nat.add_0_r i), <- lookup_drop, Hd; done).
  unfold elements in Hi. apply lookup_take_Some in Hi as [Hi _]. rewrite Hi, Hh. cbn. destruct (f p x) as [x'|]; [|done].
  rewrite IH by (replace (S i) with (i + 1)%nat by lia; by rewrite <- drop_drop, Hd).
  by destruct (in_turn f l x') as [[r called] failed].
Qed.

(** What an execution over a list of plugins comes to. *)
Definition executed {X Y} (now elapsed : Z) (g : X -> Y) (plugs : list Plugin) (outcome : res X * list bytes * bool) (pm : PM) :
    res Y * PM * list bytes :=
  let '(r, called, failed) := outcome in
  (x ← r; Ok (g x), if decide (plugs = []) then pm else count_execution now elapsed (if failed then count_failure pm else pm), called).

Lemma slot_cases (pm : PM) plugs k :
  plugins_ok pm plugs ->
  match slot pm k with
  | None => registered k plugs = []
  | Some s => sl_len s = length (registered k plugs) /\ elements (mg_arrays pm) s = map Some (registered k plugs)
  end.
Proof.
  intros Hok. pose proof (pl_views pm plugs Hok k) as Hv. unfold view in Hv. destruct (slot pm k) as [s|] eqn:Es.
  - split; [|done]. destruct (so_fits pm (pl_slots pm plugs Hok) k s Es) as (a & Ha & Hl & Hc).
    apply (f_equal length) in Hv. rewrite length_map in Hv. unfold elements in Hv. rewrite Ha in Hv. cbn in Hv. rewrite length_take in Hv. lia.
  - destruct (registered k plugs); [done|discriminate Hv].
Qed.
Lemma run_in_turn {X} now elapsed (f : Plugin -> X -> X + string) (h : handler X) k (x : X) (pm : PM) plugs :
  plugins_ok pm plugs -> (forall p x, h p x = (f p x, [])) ->
  run_plugins now elapsed h (slot pm k) x pm = executed now elapsed id (registered k plugs) (in_turn f (registered k plugs) x) pm.
Proof.
  intros Hok Hh. pose proof (slot_cases pm plugs k Hok) as Hs. unfold run_plugins, executed. destruct (slot pm k) as [s|]; [|by rewrite Hs].
  destruct Hs as [Hl He]. rewrite Hl. case_decide as H0.
  - destruct (registered k plugs); [done|discriminate H0].
  - rewrite (walk_in_turn f) by (done || by rewrite drop_0). destruct (in_turn f _ x) as [[r called] failed].
    rewrite decide_False by (intros E; by rewrite E in H0). by destruct r.
Qed.

Section Requests.
Context {P R : Type} `{!Payload P R}.
Lemma walk_request_in_turn (f : Plugin -> P -> P + string) (h : handler P) s l i (x : P) (pm : PM) :
  (forall p x, h p x = (f p x, [])) -> drop i (elements (mg_arrays pm) s) = map Some l ->
  walk_request h s i (length l) (of_params (R := R) x) pm =
  let '(r, called, failed) := in_turn f l x in (x ← r; Ok (of_params x), if failed then count_failure pm else pm, called).
Proof.
  intros Hh. revert i x. induction l as [|p l IH]; intros i x Hd; cbn; [done|].
  assert (Hi : elements (mg_arrays pm) s !! i = Some (Some p)) by (rewrite <- (Nat.add_0_r i), <- lookup_drop, Hd; done).
  unfold elements in Hi. apply lookup_take_Some in Hi as [Hi _]. rewrite Hi, as_of_params, Hh. cbn. destruct (f p x) as [x'|]; [|done].
  rewrite IH by (replace (S i) with (i + 1)%nat by lia; by rewrite <- drop_drop, Hd).
  by destruct (in_turn f l x') as [[r called] failed].
Qed.
Lemma request_in_turn now elapsed (f : Plugin -> P -> P + string) (h : handler P) (hr : handler R) method (x : P) (pm : PM) plugs :
  plugins_ok pm plugs -> (forall p x, h p x = (f p x, [])) ->
  ExecuteInterceptorPlugins now elapsed h hr method true (of_params x) pm =
  executed now elapsed of_params (registered (inr method) plugs) (in_turn f (registered (inr method) plugs) x) pm.
Proof.
  intros Hok Hh. pose proof (slot_cases pm plugs (inr method) Hok) as Hs. cbn [slot] in Hs. unfold ExecuteInterceptorPlugins, executed.
  destruct (mg_interceptorPlugins pm !! method) as [s|]; [|by rewrite Hs].
  destruct Hs as [Hl He]. rewrite Hl. case_decide as H0.
  - destruct (registered (inr method) plugs); [done|discriminate H0].
  - rewrite (walk_request_in_turn f) by (done || by rewrite drop_0). destruct (in_turn f _ x) as [[r called] failed].
    by rewrite decide_False by (intros E; by rewrite E in H0).
Qed.

(** C34: after any history of registrations, removals and shutdowns, when the
    plugins leave the manager alone, an operation runs exactly the plugins
    registered for it, in the order of their registration (once per time the
    operation is listed), each on the result of the one before, up to the first
    error, which the metrics count; and so do the interceptors of a method on
    requests and on responses. *)
Theorem plugins_run_in_order {X} ops now elapsed (f : Plugin -> X -> X + string) (h : handler X) operation (x : X)
    (fp : Plugin -> P -> P + string) (hp : handler P) (fr : Plugin -> R -> R + string) (hr : handler R) method params data :
  (forall p x, h p x = (f p x, [])) -> (forall p x, hp p x = (fp p x, [])) -> (forall p x, hr p x = (fr p x, [])) ->
  let pm := pm_run NewPluginManager ops in
  let plugs := fold_left abs_do ops [] in
  let behave := registered (inl operation) plugs in
  let intercept := registered (inr method) plugs in
  ExecuteBehaviorPlugins now elapsed h operation x pm = executed now elapsed id behave (in_turn f behave x) pm /\
  ExecuteInterceptorPlugins now elapsed hp hr method true (of_params params) pm = executed now elapsed of_params intercept (in_turn fp intercept params) pm /\
  ExecuteInterceptorPlugins now elapsed hp hr method false data pm = executed now elapsed id intercept (in_turn fr intercept data) pm.
Proof.
  intros Hf Hp Hr. cbv zeta. assert (Hok : plugins_ok (pm_run NewPluginManager ops) (fold_left abs_do ops [])) by (by apply run_plugins_ok, empty_plugins).
  split; [by apply (run_in_turn now elapsed f h (inl operation))|]. split; [by apply request_in_turn|].
  by apply (run_in_turn now elapsed fr hr (inr method)).
Qed.
End Requests.

End Facts.

(** ** Witnesses and defects *)
Lemma demo_grow n : (n < S (2 * n))%nat.
Proof. lia. Qed.
#[local] Instance demo_growth : SliceGrowth := {| grow := fun n => S (2 * n); grow_more := demo_grow |}.
#[local] Instance demo_payload : Payload Z (option Z) := {| of_params := Some; as_params := fun r => r; as_of_params := fun p => eq_refl |}.
Definition demo_plugin (id : string) : Plugin := MkPlugin (bs id) (bs id) (bs "1") (Some [bs "start"]) (Some [bs "torrent-get"]) false.
Definition demo_ops : list (pm_op (Config := unit)) :=
  [ORegister 1 (Some (demo_plugin "a")) None tt; ORegister 2 (Some (demo_plugin "b")) None tt; ORegister 3 (Some (demo_plugin "c")) None tt].

Lemma plugins_run_in_order_witness :
  (ExecuteBehaviorPlugins 10 1 (fun p (x : Z) => (inl (x + 1), [])) (bs "start") 0 (pm_run NewPluginManager demo_ops)).1.1 = Ok 3.
Proof.
  destruct (plugins_run_in_order (X := Z) (P := Z) (R := option Z) demo_ops 10 1 (fun p x => inl (x + 1)) (fun p x => (inl (x + 1), [])) (bs "start") 0
    (fun p x => inl x) (fun p x => (inl x, [])) (fun p r => inl r) (fun p r => (inl r, [])) (bs "torrent-get") 0 None) as [E _]; [reflexivity..|].
  rewrite E. vm_compute. reflexivity.
Defined.

(** A plugin that unregisters itself during its call shifts the array the run
    walks over: the next plugin is skipped and the last one called twice. *)
Example removal_skips_plugin :
  let h p (x : Z) := (inl (x + 1), if decide (p_ID p = bs "a") then [OUnregister (bs "a")] else []) in
  (ExecuteBehaviorPlugins 10 1 h (bs "start") 0 (pm_run NewPluginManager demo_ops)).2 = [bs "a"; bs "c"; bs "c"].
Proof. vm_compute. reflexivity. Qed.

(** A metrics plugin with the ID "manager" hides the metrics of the manager. *)
Example metrics_hidden :
  GetMetrics (fun _ => Some 7) (pm_run (NewPluginManager (Config := unit)) [ORegister 1 (Some (MkPlugin (bs "manager") [] [] None None true)) None tt])
    !! bs "manager" = Some (@Custom _ 7).
Proof. vm_compute. reflexivity. Qed.
End PluginFacts.
