(* ===== verification/RpcMessages.v ===== *)
(** * Requests and responses of the RPC methods

    Models the part of [src/rpc/types.go] that [src/rpc/methods.go] reads and
    writes, and the selection of fields of a response. A [Torrent] has here the
    fields the methods assign; the others of the Go type are always zero. A field
    given by a pointer is an [option]. *)

From S2P Require Import Prelude Metainfo TorrentFile Bandwidth RpcTypes TorrentManager.
From Stdlib Require Import SpecFloat.
From S2P Require Import Strconv Bencode BencodeFacts BencodeTyped Sha1 Hash Net Address GoLib QueueManager Blocklist PexManager Url Magnet WebSeed FileManager.
Import Bandwidth RpcTypes TorrentManager.

Module RpcMessages.

Definition fzero : float := S754_zero false.

(** ** Errors *)
Definition ErrCodeMethodNotFound : Z := -32601.
Definition ErrCodeInvalidParams : Z := -32602.
Definition ErrCodeInternalError : Z := -32603.
Definition ErrCodeDuplicateTorrent : Z := 1.
Definition ErrCodeInvalidArgument : Z := 2.

(** An [RPCError], or an error of another type. *)
Inductive rpc_error := RPCError (Code : Z) (Message : string) | PlainError (Message : string).

(** ** Torrents *)
Record File := MkRFile { rf_BytesCompleted : Z; rf_Length : Z; rf_Name : bytes }.
Record FileStat := MkFileStat { fs_BytesCompleted : Z; fs_Wanted : bool; fs_Priority : Z }.
Record Tracker := MkTracker { tr_Announce : bytes; tr_ID : Z; tr_Tier : Z }.
Record TrackerStat := MkTrackerStat { ts_Announce : bytes; ts_ID : Z; ts_Tier : Z; ts_LastAnnounceSucceeded : bool; ts_AnnounceState : Z }.
Record Peer := MkRPeer { pe_Address : bytes; pe_Port : Z; pe_ClientName : bytes; pe_IsIncoming : bool; pe_RateToClient : Z; pe_RateToPeer : Z }.

Record Torrent := MkRTorrent {
  r_ID : Z; r_HashString : bytes; r_Name : bytes; r_Status : Z; r_QueuePosition : Z; r_AddedDate : option Z; r_StartDate : option Z;
  r_ActivityDate : option Z; r_DownloadDir : bytes; r_Files : list File; r_FileStats : list FileStat; r_Priorities : list Z; r_Wanted : list bool;
  r_Trackers : list Tracker; r_TrackerStats : list TrackerStat; r_Peers : list Peer; r_TotalSize : Z; r_LeftUntilDone : Z; r_PercentDone : float;
  r_SizeWhenDone : Z; r_DownloadedEver : Z; r_HaveValid : Z; r_RateDownload : Z; r_RateUpload : Z; r_UploadedEver : Z; r_UploadRatio : float;
  r_SeedRatioLimit : float; r_SeedIdleLimit : Z; r_HonorsSessionLimits : bool; r_Labels : list bytes; r_MagnetLink : bytes; r_PieceCount : Z;
  r_PieceSize : Z; r_IsPrivate : bool; r_IsFinished : bool; r_MetadataPercentComplete : float; r_BandwidthPriority : Z
}.

Definition zeroTorrent : Torrent :=
  MkRTorrent 0 [] [] 0 0 None None None [] [] [] [] [] [] [] [] 0 0 fzero 0 0 0 0 0 0 fzero fzero 0 false [] [] 0 0 false false fzero 0.

Section Filter.
Context (fields : list bytes).

(** The field when it is asked for, and its zero value otherwise. *)
Definition asked {A} (field : string) (v zero : A) : A := if decide (bs field ∈ fields) then v else zero.

Definition filterTorrentFields (torrent : Torrent) : Torrent :=
  MkRTorrent
    (asked "id" (r_ID torrent) 0)
    (asked "hashString" (r_HashString torrent) [])
    (asked "name" (r_Name torrent) [])
    (asked "status" (r_Status torrent) 0)
    0
    (asked "addedDate" (r_AddedDate torrent) None)
    (asked "startDate" (r_StartDate torrent) None)
    (asked "activityDate" (r_ActivityDate torrent) None)
    (asked "downloadDir" (r_DownloadDir torrent) [])
    (asked "files" (r_Files torrent) [])
    (asked "fileStats" (r_FileStats torrent) [])
    (asked "priorities" (r_Priorities torrent) [])
    (asked "wanted" (r_Wanted torrent) [])
    (asked "trackers" (r_Trackers torrent) [])
    (asked "trackerStats" (r_TrackerStats torrent) [])
    (asked "peers" (r_Peers torrent) [])
    (asked "totalSize" (r_TotalSize torrent) 0)
    (asked "leftUntilDone" (r_LeftUntilDone torrent) 0)
    (asked "percentDone" (r_PercentDone torrent) fzero)
    (asked "sizeWhenDone" (r_SizeWhenDone torrent) 0)
    (asked "downloadedEver" (r_DownloadedEver torrent) 0)
    (asked "haveValid" (r_HaveValid torrent) 0)
    (asked "rateDownload" (r_RateDownload torrent) 0)
    (asked "rateUpload" (r_RateUpload torrent) 0)
    (asked "uploadedEver" (r_UploadedEver torrent) 0)
    (asked "uploadRatio" (r_UploadRatio torrent) fzero)
    (asked "seedRatioLimit" (r_SeedRatioLimit torrent) fzero)
    (asked "seedIdleLimit" (r_SeedIdleLimit torrent) 0)
    (asked "honorsSessionLimits" (r_HonorsSessionLimits torrent) false)
    (asked "labels" (r_Labels torrent) [])
    (asked "magnetLink" (r_MagnetLink torrent) [])
    (asked "pieceCount" (r_PieceCount torrent) 0)
    (asked "pieceSize" (r_PieceSize torrent) 0)
    (asked "isPrivate" (r_IsPrivate torrent) false)
    (asked "isFinished" (r_IsFinished torrent) false)
    (asked "metadataPercentComplete" (r_MetadataPercentComplete torrent) fzero)
    (asked "bandwidthPriority" (r_BandwidthPriority torrent) 0).
End Filter.

(** ** Requests *)
Record TorrentGetRequest := MkGetRequest { gr_Fields : list bytes; gr_IDs : list identifier; gr_Format : bytes }.
Record TorrentGetResponse := MkGetResponse { gp_Torrents : list Torrent; gp_Removed : list Z }.
Record TorrentAddResponse := MkAddResponse { ap_TorrentAdded : option Torrent; ap_TorrentDuplicate : option Torrent }.

Record TorrentActionRequest := MkAction {
  a_IDs : list identifier; a_DeleteLocalData : bool; a_MoveToTrash : bool; a_ForceReannounce : bool; a_QueuePosition : Z; a_BandwidthPriority : Z;
  a_FilesWanted : list Z; a_FilesUnwanted : list Z; a_PriorityHigh : list Z; a_PriorityLow : list Z; a_PriorityNormal : list Z; a_Location : bytes;
  a_Move : bool; a_HonorsSessionLimits : bool; a_Labels : list bytes; a_PeerLimit : Z; a_SeedIdleLimit : Z; a_SeedIdleMode : Z;
  a_SeedRatioLimit : float; a_SeedRatioMode : Z; a_TrackerAdd : list bytes; a_TrackerRemove : list Z; a_TrackerReplace : list identifier
}.
Definition zeroAction : TorrentActionRequest :=
  MkAction [] false false false 0 0 [] [] [] [] [] [] false false [] 0 0 0 fzero 0 [] [] [].

Record TorrentMagnet := MkTorrentMagnet { tg_ID : Z; tg_Name : bytes; tg_HashString : bytes; tg_MagnetLink : bytes }.
Record TorrentWebSeedAddRequest := MkSeedAdd { wa_IDs : list Z; wa_URL : bytes; wa_Type : bytes }.
Record TorrentWebSeedRemoveRequest := MkSeedRemove { wr_IDs : list Z; wr_URL : bytes }.
Record WebSeedInfo := MkSeedInfo {
  wi_URL : bytes; wi_Type : bytes; wi_Active : bool; wi_Failed : bool; wi_FailCount : Z; wi_LastError : string; wi_Downloaded : Z; wi_Speed : Z
}.
Record TorrentWebSeeds := MkSeeds { tw_ID : Z; tw_WebSeeds : list WebSeedInfo }.

(** The rules of a request, decoded into fresh rules. *)
Record BandwidthScheduleSetRequest := MkScheduleSet { ss_Enabled : option bool; ss_Rules : option (list BandwidthScheduleRule) }.
Record BandwidthScheduleGetResponse := MkScheduleGet {
  sg_Enabled : bool; sg_Rules : list BandwidthScheduleRule; sg_Current : option BandwidthScheduleRule
}.

(** ** The session *)
Record SessionGetResponse := MkSessionGet {
  g_AltSpeedDown : Z; g_AltSpeedEnabled : bool; g_AltSpeedTimeBegin : Z; g_AltSpeedTimeDay : Z; g_AltSpeedTimeEnabled : bool; g_AltSpeedTimeEnd : Z;
  g_AltSpeedUp : Z; g_BlocklistEnabled : bool; g_BlocklistSize : Z; g_BlocklistURL : bytes; g_CacheSizeMB : Z; g_ConfigDir : bytes; g_DHT : bool;
  g_DownloadDir : bytes; g_DownloadDirFreeSpace : Z; g_DownloadQueueEnabled : bool; g_DownloadQueueSize : Z; g_Encryption : bytes;
  g_IdleSeedingLimit : Z; g_IdleSeedingLimitEnabled : bool; g_IncompleteDir : bytes; g_IncompleteDirEnabled : bool; g_LPD : bool;
  g_PeerLimitGlobal : Z; g_PeerLimitPerTorrent : Z; g_PeerPort : Z; g_PeerPortRandomOnStart : bool; g_PEX : bool; g_PortForwardingEnabled : bool;
  g_QueueStalledEnabled : bool; g_QueueStalledMinutes : Z; g_RenamePartialFiles : bool; g_RPCVersion : Z; g_RPCVersionMinimum : Z;
  g_ScriptTorrentDoneEnabled : bool; g_ScriptTorrentDoneFilename : bytes; g_SeedQueueEnabled : bool; g_SeedQueueSize : Z; g_SeedRatioLimit : float;
  g_SeedRatioLimited : bool; g_SpeedLimitDown : Z; g_SpeedLimitDownEnabled : bool; g_SpeedLimitUp : Z; g_SpeedLimitUpEnabled : bool;
  g_StartAddedTorrents : bool; g_TrashOriginalTorrentFiles : bool; g_UTP : bool; g_Version : bytes
}.

Record SessionSetRequest := MkSessionSet {
  q_AltSpeedDown : option Z; q_AltSpeedEnabled : option bool; q_AltSpeedTimeBegin : option Z; q_AltSpeedTimeDay : option Z;
  q_AltSpeedTimeEnabled : option bool; q_AltSpeedTimeEnd : option Z; q_AltSpeedUp : option Z; q_BlocklistEnabled : option bool;
  q_BlocklistURL : option bytes; q_CacheSizeMB : option Z; q_DHT : option bool; q_DownloadDir : option bytes; q_DownloadQueueEnabled : option bool;
  q_DownloadQueueSize : option Z; q_Encryption : option bytes; q_IdleSeedingLimit : option Z; q_IdleSeedingLimitEnabled : option bool;
  q_IncompleteDir : option bytes; q_IncompleteDirEnabled : option bool; q_LPD : option bool; q_PeerLimitGlobal : option Z;
  q_PeerLimitPerTorrent : option Z; q_PeerPort : option Z; q_PeerPortRandomOnStart : option bool; q_PEX : option bool;
  q_PortForwardingEnabled : option bool; q_QueueStalledEnabled : option bool; q_QueueStalledMinutes : option Z; q_RenamePartialFiles : option bool;
  q_ScriptTorrentDoneEnabled : option bool; q_ScriptTorrentDoneFilename : option bytes; q_SeedQueueEnabled : option bool; q_SeedQueueSize : option Z;
  q_SeedRatioLimit : option float; q_SeedRatioLimited : option bool; q_SpeedLimitDown : option Z; q_SpeedLimitDownEnabled : option bool;
  q_SpeedLimitUp : option Z; q_SpeedLimitUpEnabled : option bool; q_StartAddedTorrents : option bool; q_TrashOriginalTorrentFiles : option bool;
  q_UTP : option bool
}.
Definition zeroSessionSet : SessionSetRequest :=
  MkSessionSet None None None None None None None None None None None None None None None None None None None None None None None None None None None None None None None None None None None None None None None None None None.

End RpcMessages.

(** * HTTP requests and responses

    What the servers of the daemon use of [net/http], [net/textproto],
    [strings] and [encoding/base64]. *)

Module Http.

(** ** [strings] *)
Definition HasSuffix (s p : bytes) : bool := bool_decide (p `suffix_of` s).
Fixpoint Contains (s sub : bytes) : bool :=
  GoLib.HasPrefix s sub || match s with [] => false | _ :: s' => Contains s' sub end.
Definition TrimSuffix (s p : bytes) : bytes := if HasSuffix s p then take (length s - length p) s else s.

(** ** Headers *)

(** [textproto.CanonicalMIMEHeaderKey] of a key of token characters: capitals
    at the start and after a hyphen. *)
Definition upper (c : Z) : Z := if decide (97 <= c <= 122) then c - 32 else c.
Definition lower (c : Z) : Z := if decide (65 <= c <= 90) then c + 32 else c.
Definition token_char (c : Z) : bool :=
  bool_decide (48 <= c <= 57) || bool_decide (65 <= c <= 90) || bool_decide (97 <= c <= 122) || bool_decide (c ∈ bs "!#$%&'*+-.^_`|~").
Fixpoint capitals (start : bool) (k : bytes) : bytes :=
  match k with [] => [] | c :: k' => (if start then upper c else lower c) :: capitals (bool_decide (c = 45)) k' end.
Definition CanonicalHeaderKey (k : bytes) : bytes := if forallb token_char k then capitals true k else k.

(** The first value of each key, by its canonical form. *)
Abbreviation Header := (gmap bytes bytes).
Definition Header_Get (h : Header) (k : bytes) : bytes := default [] (h !! CanonicalHeaderKey k).
Definition Header_Set (k v : bytes) (h : Header) : Header := <[CanonicalHeaderKey k := v]> h.

(** ** Requests and responses *)

(** [hq_Body]: the data of the body and whether reading it then fails. *)
Record HttpRequest := MkHttpRequest {
  hq_Method : bytes;
  hq_Path : bytes;
  hq_Header : Header;
  hq_ContentLength : Z;
  hq_Body : bytes * bool
}.
Record HttpResponse (B : Type) := MkHttpResponse { hr_Status : Z; hr_Header : Header; hr_Body : B }.
Arguments MkHttpResponse {B} _ _ _.
Arguments hr_Status {B} _.
Arguments hr_Header {B} _.
Arguments hr_Body {B} _.

(** [io.ReadAll(io.LimitReader(body, n))]. *)
Definition read_limited (n : Z) (r : HttpRequest) : option bytes :=
  let '(data, fails) := hq_Body r in
  if fails && bool_decide (Z.of_nat (length data) < n) then None else Some (take (Z.to_nat n) data).

(** [r.BasicAuth()]. *)
Definition BasicAuth (r : HttpRequest) : option (bytes * bytes) :=
  let auth := Header_Get (hq_Header r) (bs "Authorization") in
  if decide (map lower (take 6 auth) = bs "basic ") then
    match TorrentManager.DecodeString (drop 6 auth) with Ok c => GoLib.cut 58 c | _ => None end
  else None.

Example canonical_key : CanonicalHeaderKey (bs "x-transmission-session-id") = bs "X-Transmission-Session-Id".
Proof. vm_compute. reflexivity. Qed.
Example basic_auth :
  BasicAuth (MkHttpRequest (bs "POST") [] {[bs "Authorization" := bs "Basic dXNlcjpwYXNz"]} 0 ([], false)) = Some (bs "user", bs "pass").
Proof. vm_compute. reflexivity. Qed.

(** What became of a request: a response, or a panic in the goroutine of the
    request, which a wrapper may recover, or in another one, which ends the
    program. *)
Inductive served (B : Type) := Served (response : HttpResponse B) | Panicked (msg : string) | Crashed (msg : string).
Arguments Served {B} _.
Arguments Panicked {B} _.
Arguments Crashed {B} _.

End Http.
