(* ===== verification/RpcMethods.v ===== *)
(** * The RPC methods

    Models [src/rpc/methods.go]: the methods of the Transmission protocol over
    the torrent manager, the file manager and the bandwidth scheduler, and their
    dispatch by name.

    Decoding JSON is a parameter (the class [RequestJSON]); the text of an error
    does not carry the numbers the code prints into it. That a torrent exists
    already is what [AddTorrent] says, not what the text of its error contains.
    A method that modifies a torrent does so through the pointer the manager
    hands out. *)

From S2P Require Import Prelude Strconv Bencode BencodeFacts BencodeTyped Sha1 Hash Net Address Metainfo GoLib Url Magnet TorrentFile Bandwidth.
From S2P Require Import RpcTypes QueueManager Blocklist PexManager WebSeed FileManager TorrentManager RpcMessages.
From Stdlib Require Import SpecFloat.
Import Hash GoLib Bandwidth RpcTypes TorrentManager RpcMessages.

Module RpcMethods.

(** ** Results

    A value or an error, unless the call panics. *)
Abbreviation rpc A := (res (A + rpc_error)).
Definition reply {A} (a : A) : rpc A := Ok (inl a).
Definition fail {A} (e : rpc_error) : rpc A := Ok (inr e).
(** An error of the manager as an [RPCError]. *)
Definition with_code {A} (code : Z) (r : res A) : rpc A :=
  match r with Ok a => reply a | Err e => fail (RPCError code e) | Panic p => Panic p | NoFuel => NoFuel end.
Definition plain {A} (r : res A) : rpc A :=
  match r with Ok a => reply a | Err e => fail (PlainError e) | Panic p => Panic p | NoFuel => NoFuel end.

(** ** Changes to the fields of one torrent *)

(** Assignments to the elements of a slice, up to the first bad index. *)
Fixpoint set_indices {A} (name : string) (indices : list Z) (v : A) (l : list A) : res () * list A :=
  match indices with
  | [] => (Ok (), l)
  | fileIndex :: indices' =>
      if decide (fileIndex < 0 \/ len l <= fileIndex) then (Err (name ++ " index out of bounds"), l)
      else set_indices name indices' v (<[Z.to_nat fileIndex := v]> l)
  end.

Definition updateFileSelection (req : TorrentActionRequest) (t : TorrentState) : res () * TorrentState :=
  let '(r, wanted) :=
    match set_indices "files-wanted" (a_FilesWanted req) true (t_Wanted t) with
    | (Ok _, wanted) => set_indices "files-unwanted" (a_FilesUnwanted req) false wanted
    | (r, wanted) => (r, wanted)
    end in
  (r, set_FileArrays (t_Files t) (t_Priorities t) wanted t).

Definition updateFilePriorities (req : TorrentActionRequest) (t : TorrentState) : res () * TorrentState :=
  let '(r, priorities) :=
    match set_indices "priority-high" (a_PriorityHigh req) 1 (t_Priorities t) with
    | (Ok _, priorities) =>
        match set_indices "priority-normal" (a_PriorityNormal req) 0 priorities with
        | (Ok _, priorities) => set_indices "priority-low" (a_PriorityLow req) (-1) priorities
        | (r, priorities) => (r, priorities)
        end
    | (r, priorities) => (r, priorities)
    end in
  (r, set_FileArrays (t_Files t) priorities (t_Wanted t) t).

Definition applyFileManagementChanges (req : TorrentActionRequest) (t : TorrentState) : res () * TorrentState :=
  match updateFileSelection req t with
  | (Ok _, t) => let '(r, t) := updateFilePriorities req t in (relabel "file priority update failed" r, t)
  | (r, t) => (relabel "file selection update failed" r, t)
  end.

Definition ensureFileArraysInitialized (t : TorrentState) : res TorrentState :=
  match t_MetaInfo t with
  | None => Ok t
  | Some mi =>
      info ← relabel "failed to get torrent info" (TorrentFile.mi_Info mi);
      let expected := if decide (Metainfo.i_Files info = [] /\ 0 < Metainfo.i_Length info) then 1%nat else length (Metainfo.i_Files info) in
      let wanted := if decide (t_Wanted t = [] /\ expected <> 0%nat) then replicate expected true else t_Wanted t in
      let priorities := if decide (t_Priorities t = [] /\ expected <> 0%nat) then replicate expected 0 else t_Priorities t in
      Ok (set_FileArrays (t_Files t) priorities wanted t)
  end.

(** ** Trackers *)
Definition addTrackersWithDuplicateCheck (trackersToAdd : list bytes) (l : list bytes) : list bytes :=
  fold_left (fun l tracker =>
    if decide (TrimSpace tracker = []) then l else if decide (tracker ∈ l) then l else l ++ [tracker]) trackersToAdd l.

Definition sortIndicesDescending (indices : list Z) : list Z := ExchangeSort.exchange_sort id (length indices) indices.

(** [append(l[:i], l[i+1:]...)] for each index. *)
Fixpoint remove_indices (indices : list Z) (l : list bytes) : res (list bytes) :=
  match indices with
  | [] => Ok l
  | i :: indices' =>
      if decide (len l < i + 1) then Panic "slice bounds out of range"
      else remove_indices indices' (take (Z.to_nat i) l ++ drop (Z.to_nat (i + 1)) l)
  end.
Definition removeTrackersWithBoundsCheck (indicesToRemove : list Z) (l : list bytes) : res (list bytes) :=
  if existsb (fun idx => bool_decide (idx < 0 \/ len l <= idx)) indicesToRemove then Err "trackerRemove index out of bounds"
  else remove_indices (sortIndicesDescending indicesToRemove) l.

Section Wild.
Context (wild : float -> Z).

Definition extractReplacementParameters (id_ url : identifier) : res (Z * bytes) :=
  oldID ← match id_ with IdFloat f => Ok (f_to_int64 wild f) | IdInt n => Ok n | _ => Err "trackerReplace[0] must be a number" end;
  match url with IdString s => Ok (oldID, s) | _ => Err "trackerReplace[1] must be a string" end.

Definition replaceTrackerWithValidation (trackerReplace : list identifier) (l : list bytes) : res (list bytes) :=
  match trackerReplace with
  | [a; b] =>
      '(oldID, newURL) ← extractReplacementParameters a b;
      if decide (oldID < 0 \/ len l <= oldID) then Err "trackerReplace index out of bounds"
      else if decide (TrimSpace newURL = []) then Err "trackerReplace URL cannot be empty"
      else Ok (<[Z.to_nat oldID := newURL]> l)
  | _ => Ok l
  end.

(** The list is assigned after each of the three steps. *)
Definition updateTrackers (req : TorrentActionRequest) (t : TorrentState) : res () * TorrentState :=
  let l := addTrackersWithDuplicateCheck (a_TrackerAdd req) (t_TrackerList t) in
  match removeTrackersWithBoundsCheck (a_TrackerRemove req) l with
  | Ok l =>
      match replaceTrackerWithValidation (a_TrackerReplace req) l with
      | Ok l => (Ok (), set_TrackerList l t)
      | r => (_ ← r; Ok (), set_TrackerList l t)
      end
  | r => (_ ← r; Ok (), set_TrackerList l t)
  end.
End Wild.

(** ** Seeding and labels *)
Definition applySeedingConfigurationChanges (req : TorrentActionRequest) (t : TorrentState) : TorrentState :=
  set_Seeding (if SFltb fzero (a_SeedRatioLimit req) then a_SeedRatioLimit req else t_SeedRatioLimit t)
    (if decide (0 < a_SeedIdleLimit req) then a_SeedIdleLimit req else t_SeedIdleLimit t)
    (if a_HonorsSessionLimits req then true else t_HonorsSessionLimits t) t.
Definition applyTorrentMetadataChanges (req : TorrentActionRequest) (t : TorrentState) : TorrentState :=
  match a_Labels req with [] => t | labels => set_Labels labels t end.
(** The bandwidth priority is not stored. *)
Definition applyNonEssentialTorrentChanges (req : TorrentActionRequest) (t : TorrentState) : TorrentState :=
  applyTorrentMetadataChanges req (applySeedingConfigurationChanges req t).

(** ** Validation *)
Definition validateNumericLimits (req : TorrentActionRequest) : res () :=
  if decide (a_PeerLimit req < 0) then Err "peer-limit must be non-negative"
  else if SFltb (a_SeedRatioLimit req) fzero then Err "seedRatioLimit must be non-negative"
  else if decide (a_SeedIdleLimit req < 0) then Err "seedIdleLimit must be non-negative" else Ok ().
Definition validateModeSettings (req : TorrentActionRequest) : res () :=
  if decide (a_SeedRatioMode req < 0 \/ 2 < a_SeedRatioMode req) then Err "seedRatioMode must be 0, 1, or 2"
  else if decide (a_SeedIdleMode req < 0 \/ 2 < a_SeedIdleMode req) then Err "seedIdleMode must be 0, 1, or 2" else Ok ().
Definition validatePriorityAndSpecialSettings (req : TorrentActionRequest) : res () :=
  if decide (a_BandwidthPriority req < -1 \/ 1 < a_BandwidthPriority req) then Err "bandwidthPriority must be -1, 0, or 1"
  else if decide (a_TrackerReplace req <> [] /\ len (a_TrackerReplace req) <> 2) then Err "trackerReplace must contain exactly 2 elements" else Ok ().
Definition validateTorrentSetRequest (req : TorrentActionRequest) : res () :=
  _ ← validateNumericLimits req; _ ← validateModeSettings req; validatePriorityAndSpecialSettings req.

(** ** The session *)
Definition updateSpeedLimitSettings (req : SessionSetRequest) (c : SessionConfiguration) : SessionConfiguration :=
  MkSession
    (s_DownloadDir c) (s_IncompleteDir c) (s_IncompleteDirEnabled c) (s_PeerPort c) (s_PeerLimitGlobal c) (s_PeerLimitPerTorrent c) (s_DHTEnabled c)
    (s_PEXEnabled c) (s_LPDEnabled c) (s_UTPEnabled c) (s_WebSeedsEnabled c) (s_Encryption c) (default (s_SpeedLimitDown c) (q_SpeedLimitDown req))
    (default (s_SpeedLimitDownEnabled c) (q_SpeedLimitDownEnabled req)) (default (s_SpeedLimitUp c) (q_SpeedLimitUp req))
    (default (s_SpeedLimitUpEnabled c) (q_SpeedLimitUpEnabled req)) (default (s_AltSpeedDown c) (q_AltSpeedDown req))
    (default (s_AltSpeedUp c) (q_AltSpeedUp req)) (default (s_AltSpeedEnabled c) (q_AltSpeedEnabled req)) (s_DownloadQueueEnabled c)
    (s_DownloadQueueSize c) (s_SeedQueueEnabled c) (s_SeedQueueSize c) (s_SeedRatioLimit c) (s_SeedRatioLimited c) (s_IdleSeedingLimit c)
    (s_IdleSeedingLimitEnabled c) (s_StartAddedTorrents c) (s_CacheSizeMB c) (s_Version c) (s_BlocklistEnabled c) (s_BlocklistURL c)
    (s_BlocklistSize c) (s_ScriptTorrentDoneEnabled c) (s_ScriptTorrentDoneFilename c).
Definition updatePeerNetworkSettings (req : SessionSetRequest) (c : SessionConfiguration) : SessionConfiguration :=
  MkSession
    (s_DownloadDir c) (s_IncompleteDir c) (s_IncompleteDirEnabled c) (default (s_PeerPort c) (q_PeerPort req))
    (default (s_PeerLimitGlobal c) (q_PeerLimitGlobal req)) (default (s_PeerLimitPerTorrent c) (q_PeerLimitPerTorrent req))
    (default (s_DHTEnabled c) (q_DHT req)) (default (s_PEXEnabled c) (q_PEX req)) (default (s_LPDEnabled c) (q_LPD req))
    (default (s_UTPEnabled c) (q_UTP req)) (s_WebSeedsEnabled c) (s_Encryption c) (s_SpeedLimitDown c) (s_SpeedLimitDownEnabled c) (s_SpeedLimitUp c)
    (s_SpeedLimitUpEnabled c) (s_AltSpeedDown c) (s_AltSpeedUp c) (s_AltSpeedEnabled c) (s_DownloadQueueEnabled c) (s_DownloadQueueSize c)
    (s_SeedQueueEnabled c) (s_SeedQueueSize c) (s_SeedRatioLimit c) (s_SeedRatioLimited c) (s_IdleSeedingLimit c) (s_IdleSeedingLimitEnabled c)
    (s_StartAddedTorrents c) (s_CacheSizeMB c) (s_Version c) (s_BlocklistEnabled c) (s_BlocklistURL c) (s_BlocklistSize c)
    (s_ScriptTorrentDoneEnabled c) (s_ScriptTorrentDoneFilename c).
Definition updateQueueSettings (req : SessionSetRequest) (c : SessionConfiguration) : SessionConfiguration :=
  MkSession
    (s_DownloadDir c) (s_IncompleteDir c) (s_IncompleteDirEnabled c) (s_PeerPort c) (s_PeerLimitGlobal c) (s_PeerLimitPerTorrent c) (s_DHTEnabled c)
    (s_PEXEnabled c) (s_LPDEnabled c) (s_UTPEnabled c) (s_WebSeedsEnabled c) (s_Encryption c) (s_SpeedLimitDown c) (s_SpeedLimitDownEnabled c)
    (s_SpeedLimitUp c) (s_SpeedLimitUpEnabled c) (s_AltSpeedDown c) (s_AltSpeedUp c) (s_AltSpeedEnabled c)
    (default (s_DownloadQueueEnabled c) (q_DownloadQueueEnabled req)) (default (s_DownloadQueueSize c) (q_DownloadQueueSize req))
    (default (s_SeedQueueEnabled c) (q_SeedQueueEnabled req)) (default (s_SeedQueueSize c) (q_SeedQueueSize req)) (s_SeedRatioLimit c)
    (s_SeedRatioLimited c) (s_IdleSeedingLimit c) (s_IdleSeedingLimitEnabled c) (s_StartAddedTorrents c) (s_CacheSizeMB c) (s_Version c)
    (s_BlocklistEnabled c) (s_BlocklistURL c) (s_BlocklistSize c) (s_ScriptTorrentDoneEnabled c) (s_ScriptTorrentDoneFilename c).
Definition updateSeedingSettings (req : SessionSetRequest) (c : SessionConfiguration) : SessionConfiguration :=
  MkSession
    (s_DownloadDir c) (s_IncompleteDir c) (s_IncompleteDirEnabled c) (s_PeerPort c) (s_PeerLimitGlobal c) (s_PeerLimitPerTorrent c) (s_DHTEnabled c)
    (s_PEXEnabled c) (s_LPDEnabled c) (s_UTPEnabled c) (s_WebSeedsEnabled c) (s_Encryption c) (s_SpeedLimitDown c) (s_SpeedLimitDownEnabled c)
    (s_SpeedLimitUp c) (s_SpeedLimitUpEnabled c) (s_AltSpeedDown c) (s_AltSpeedUp c) (s_AltSpeedEnabled c) (s_DownloadQueueEnabled c)
    (s_DownloadQueueSize c) (s_SeedQueueEnabled c) (s_SeedQueueSize c) (default (s_SeedRatioLimit c) (q_SeedRatioLimit req))
    (default (s_SeedRatioLimited c) (q_SeedRatioLimited req)) (default (s_IdleSeedingLimit c) (q_IdleSeedingLimit req))
    (default (s_IdleSeedingLimitEnabled c) (q_IdleSeedingLimitEnabled req)) (s_StartAddedTorrents c) (s_CacheSizeMB c) (s_Version c)
    (s_BlocklistEnabled c) (s_BlocklistURL c) (s_BlocklistSize c) (s_ScriptTorrentDoneEnabled c) (s_ScriptTorrentDoneFilename c).
Definition updateDirectorySettings (req : SessionSetRequest) (c : SessionConfiguration) : SessionConfiguration :=
  MkSession
    (default (s_DownloadDir c) (q_DownloadDir req)) (default (s_IncompleteDir c) (q_IncompleteDir req))
    (default (s_IncompleteDirEnabled c) (q_IncompleteDirEnabled req)) (s_PeerPort c) (s_PeerLimitGlobal c) (s_PeerLimitPerTorrent c) (s_DHTEnabled c)
    (s_PEXEnabled c) (s_LPDEnabled c) (s_UTPEnabled c) (s_WebSeedsEnabled c) (s_Encryption c) (s_SpeedLimitDown c) (s_SpeedLimitDownEnabled c)
    (s_SpeedLimitUp c) (s_SpeedLimitUpEnabled c) (s_AltSpeedDown c) (s_AltSpeedUp c) (s_AltSpeedEnabled c) (s_DownloadQueueEnabled c)
    (s_DownloadQueueSize c) (s_SeedQueueEnabled c) (s_SeedQueueSize c) (s_SeedRatioLimit c) (s_SeedRatioLimited c) (s_IdleSeedingLimit c)
    (s_IdleSeedingLimitEnabled c) (default (s_StartAddedTorrents c) (q_StartAddedTorrents req)) (default (s_CacheSizeMB c) (q_CacheSizeMB req))
    (s_Version c) (s_BlocklistEnabled c) (s_BlocklistURL c) (s_BlocklistSize c) (s_ScriptTorrentDoneEnabled c) (s_ScriptTorrentDoneFilename c).
Definition updateSecuritySettings (req : SessionSetRequest) (c : SessionConfiguration) : SessionConfiguration :=
  MkSession
    (s_DownloadDir c) (s_IncompleteDir c) (s_IncompleteDirEnabled c) (s_PeerPort c) (s_PeerLimitGlobal c) (s_PeerLimitPerTorrent c) (s_DHTEnabled c)
    (s_PEXEnabled c) (s_LPDEnabled c) (s_UTPEnabled c) (s_WebSeedsEnabled c) (default (s_Encryption c) (q_Encryption req)) (s_SpeedLimitDown c)
    (s_SpeedLimitDownEnabled c) (s_SpeedLimitUp c) (s_SpeedLimitUpEnabled c) (s_AltSpeedDown c) (s_AltSpeedUp c) (s_AltSpeedEnabled c)
    (s_DownloadQueueEnabled c) (s_DownloadQueueSize c) (s_SeedQueueEnabled c) (s_SeedQueueSize c) (s_SeedRatioLimit c) (s_SeedRatioLimited c)
    (s_IdleSeedingLimit c) (s_IdleSeedingLimitEnabled c) (s_StartAddedTorrents c) (s_CacheSizeMB c) (s_Version c)
    (default (s_BlocklistEnabled c) (q_BlocklistEnabled req)) (default (s_BlocklistURL c) (q_BlocklistURL req)) (s_BlocklistSize c)
    (s_ScriptTorrentDoneEnabled c) (s_ScriptTorrentDoneFilename c).

(** The methods in a daemon with addresses of type [I] and the operating system
    [OS]. *)
Section Methods.
Context {I : Type} `{I2PKeys I} `{SortSlice} `{MapRange} {OS : Type} `{OperatingSystem OS} `{FileManager.Disk OS}.
Context (wild : float -> Z) (parseAuthority : bytes -> res bytes) (maxParams : option Z) (failedName : bytes -> bytes).
Abbreviation TM := (TorrentManager (I := I)).

(** ** Conversion to the format of Transmission *)
Definition getName (t : TorrentState) : res bytes :=
  match t_MetaInfo t with
  | Some mi =>
      match TorrentFile.mi_Info mi with
      | Ok info => Ok (Metainfo.i_Name info)
      | Err _ => Ok (HexString (t_InfoHash t))
      | Panic p => Panic p
      | NoFuel => NoFuel
      end
  | None => Ok (HexString (t_InfoHash t))
  end.

Definition getLastActivity (now : Z) (t : TorrentState) : option Z :=
  if decide (t_Status t = TorrentStatusDownloading \/ t_Status t = TorrentStatusSeeding) then Some now else t_StartDate t.
Definition calculateRatio (uploaded downloaded : Z) : float := if decide (downloaded = 0) then fzero else fdiv (f_of_int uploaded) (f_of_int downloaded).
Definition getMetadataProgress (t : TorrentState) : float :=
  match t_MetaInfo t with
  | Some _ => f_of_int 1
  | None => if decide (t_Status t = TorrentStatusQueuedVerify) then fdiv (f_of_int 1) (f_of_int 2) else fzero
  end.

Definition convertFileInformation (t : TorrentState) : list File * list FileStat * list Z * list bool :=
  (map (fun f => MkRFile (fi_BytesCompleted f) (fi_Length f) (fi_Name f)) (t_Files t),
   map (fun f => MkFileStat (fi_BytesCompleted f) (fi_Wanted f) (fi_Priority f)) (t_Files t),
   take (length (t_Files t)) (t_Priorities t), take (length (t_Files t)) (t_Wanted t)).

Definition convertPeerInformation (t : TorrentState) : list Peer :=
  map (fun p => MkRPeer (pi_Address p) (pi_Port p) (bs "Unknown") (bool_decide (pi_Direction p = bs "incoming")) 0 0) (t_Peers t).

Definition convertTrackerInformation (t : TorrentState) : list Tracker * list TrackerStat :=
  (imap (fun i announce => MkTracker announce (Z.of_nat i) (Z.of_nat i)) (t_TrackerList t),
   imap (fun i announce => MkTrackerStat announce (Z.of_nat i) (Z.of_nat i) false 0) (t_TrackerList t)).

Definition calculateProgressAndMagnet (t : TorrentState) (files : list File) : res (Z * Z * float * bytes) :=
  let totalSize := fold_left (fun n f => i64 (n + rf_Length f)) files 0 in
  let completed := fold_left (fun n f => i64 (n + rf_BytesCompleted f)) files 0 in
  let percentDone := if decide (0 < totalSize) then fdiv (f_of_int completed) (f_of_int totalSize) else fzero in
  magnetLink ← match t_MetaInfo t with
               | Some mi => magnet ← TorrentFile.mi_Magnet failedName mi [] (t_InfoHash t); Ok (Magnet.Magnet_String magnet)
               | None => Ok []
               end;
  Ok (totalSize, completed, percentDone, magnetLink).

Definition convertTorrentStateToTorrent (now : Z) (t : TorrentState) (tm : TM) : res Torrent :=
  let '(files, fileStats, priorities, wanted) := convertFileInformation t in
  let '(trackers, trackerStats) := convertTrackerInformation t in
  '(totalSize, completed, percentDone, magnetLink) ← calculateProgressAndMagnet t files;
  name ← getName t;
  Ok (MkRTorrent (t_ID t) (HexString (t_InfoHash t)) name (t_Status t) (GetTorrentQueuePosition (t_ID t) tm) (Some (t_AddedDate t)) (t_StartDate t)
       (getLastActivity now t) (t_DownloadDir t) files fileStats priorities wanted trackers trackerStats (convertPeerInformation t)
       totalSize (i64 (totalSize - completed)) percentDone totalSize completed completed (t_DownloadRate t) (t_UploadRate t) (t_Uploaded t)
       (calculateRatio (t_Uploaded t) completed) (t_SeedRatioLimit t) (t_SeedIdleLimit t) (t_HonorsSessionLimits t) (t_Labels t) magnetLink 0 0 false
       (bool_decide (t_Status t = TorrentStatusSeeding)) (getMetadataProgress t) 0).

(** ** Adding and getting *)
Definition TorrentAdd (now : Z) (req : TorrentAddRequest) (tm : TM) : rpc TorrentAddResponse * TM :=
  match AddTorrent parseAuthority maxParams now req tm with
  | (Ok (Added t), tm) => (torrent ← convertTorrentStateToTorrent now t tm; reply (MkAddResponse (Some torrent) None), tm)
  | (Ok (AlreadyExists _), tm) =>
      (match last (GetAllTorrents tm) with
       | Some l =>
           if decide (ar_Metainfo req = []) then fail (RPCError ErrCodeDuplicateTorrent "torrent already exists")
           else torrent ← convertTorrentStateToTorrent now (torrent_at l tm) tm; reply (MkAddResponse None (Some torrent))
       | None => fail (RPCError ErrCodeDuplicateTorrent "torrent already exists")
       end, tm)
  | (r, tm) => (with_code ErrCodeInvalidArgument (_ ← r; Ok (MkAddResponse None None)), tm)
  end.

Fixpoint get_torrents (now : Z) (fields : list bytes) (ids : list Z) (tm : TM) : res (list Torrent * list Z) :=
  match ids with
  | [] => Ok ([], [])
  | id_ :: ids' =>
      match GetTorrent id_ tm with
      | Ok l =>
          torrent ← convertTorrentStateToTorrent now (torrent_at l tm) tm;
          '(torrents, removed) ← get_torrents now fields ids' tm;
          Ok ((match fields with [] => torrent | _ => filterTorrentFields fields torrent end) :: torrents, removed)
      | _ => '(torrents, removed) ← get_torrents now fields ids' tm; Ok (torrents, id_ :: removed)
      end
  end.
Definition TorrentGet (now : Z) (req : TorrentGetRequest) (tm : TM) : rpc TorrentGetResponse :=
  match ResolveTorrentIDs wild now (gr_IDs req) tm with
  | Ok ids => '(torrents, removed) ← get_torrents now (gr_Fields req) ids tm; reply (MkGetResponse torrents removed)
  | r => with_code ErrCodeInvalidArgument (_ ← r; Ok (MkGetResponse [] []))
  end.

(** ** Actions *)
Fixpoint for_each (f : Z -> TM -> res () * TM) (ids : list Z) (tm : TM) : rpc () * TM :=
  match ids with
  | [] => (reply (), tm)
  | id_ :: ids' =>
      match f id_ tm with
      | (Ok _, tm) => for_each f ids' tm
      | (r, tm) => (with_code ErrCodeInternalError r, tm)
      end
  end.
Definition on_torrents (now : Z) (f : Z -> TM -> res () * TM) (req : TorrentActionRequest) (tm : TM) : rpc () * TM :=
  match ResolveTorrentIDs wild now (a_IDs req) tm with
  | Ok ids => for_each f ids tm
  | r => (with_code ErrCodeInvalidArgument (_ ← r; Ok ()), tm)
  end.
Definition TorrentStart (now : Z) : TorrentActionRequest -> TM -> rpc () * TM := on_torrents now (StartTorrent now).
Definition TorrentStartNow (now : Z) : TorrentActionRequest -> TM -> rpc () * TM := on_torrents now (StartTorrentNow now).
Definition TorrentStop (now : Z) : TorrentActionRequest -> TM -> rpc () * TM := on_torrents now StopTorrent.
Definition TorrentVerify (now : Z) : TorrentActionRequest -> TM -> rpc () * TM := on_torrents now VerifyTorrent.
Definition TorrentRemove (now : Z) : TorrentActionRequest -> TM -> rpc () * TM := on_torrents now RemoveTorrent.

(** ** torrent-set *)
Definition applyQueuePositionChanges (id_ : Z) (req : TorrentActionRequest) (tm : TM) : res () * TM :=
  if decide (0 <= a_QueuePosition req) then
    if decide (0 <= GetTorrentQueuePosition id_ tm) then
      let '(r, tm) := SetTorrentQueuePosition id_ (a_QueuePosition req) tm in (relabel "queue position update failed" r, tm)
    else (Ok (), tm)
  else (Ok (), tm).

Definition updateTorrentLocation (l : loc) (location : bytes) (move : bool) (os : OS) (tm : TM) : res () * OS * TM :=
  if decide (TrimSpace location = []) then (Err "location cannot be empty", os, tm)
  else
    let t := torrent_at l tm in
    let '(r, os) :=
      if move then
        match t_MetaInfo t with
        | None => (Panic Address.nilDeref, os)
        | Some mi =>
            match TorrentFile.mi_Info mi with
            | Ok info =>
                let '(r, os) := FileManager.MoveFiles FileManager.NewFileManager info (t_DownloadDir t) location true os in
                (relabel "failed to move torrent files" r, os)
            | r => (_ ← relabel "failed to get torrent info for file moving" r; Ok (), os)
            end
        end
      else (Ok (), os) in
    (r, os, match r with Ok _ => UpdateTorrentDownloadDir l location tm | _ => tm end).

Definition applyTorrentLocationChanges (l : loc) (req : TorrentActionRequest) (os : OS) (tm : TM) : res () * OS * TM :=
  if decide (a_Location req = []) then (Ok (), os, tm)
  else let '(r, os, tm) := updateTorrentLocation l (a_Location req) (a_Move req) os tm in (relabel "location update failed" r, os, tm).

(** The torrent at [l], changed in place as far as the change gets. *)
Definition change (l : loc) (f : TorrentState -> res () * TorrentState) (tm : TM) : res () * TM :=
  let '(r, t) := f (torrent_at l tm) in (r, update_torrent l (fun _ => t) tm).

Definition applyEssentialTorrentChanges (l : loc) (req : TorrentActionRequest) (os : OS) (tm : TM) : res () * OS * TM :=
  match relabel "failed to initialize file arrays" (ensureFileArraysInitialized (torrent_at l tm)) with
  | Ok t =>
      let tm := update_torrent l (fun _ => t) tm in
      match applyQueuePositionChanges (t_ID t) req tm with
      | (Ok _, tm) =>
          match change l (applyFileManagementChanges req) tm with
          | (Ok _, tm) =>
              match change l (updateTrackers wild req) tm with
              | (Ok _, tm) => applyTorrentLocationChanges l req os tm
              | (r, tm) => (relabel "tracker update failed" r, os, tm)
              end
          | (r, tm) => (r, os, tm)
          end
      | (r, tm) => (r, os, tm)
      end
  | r => (_ ← r; Ok (), os, tm)
  end.

Definition applyTorrentChanges (l : loc) (req : TorrentActionRequest) (os : OS) (tm : TM) : res () * OS * TM :=
  match applyEssentialTorrentChanges l req os tm with
  | (Ok _, os, tm) => (Ok (), os, update_torrent l (applyNonEssentialTorrentChanges req) tm)
  | r => r
  end.

(** Whether any torrent failed; a panic ends the loop. *)
Fixpoint set_torrents (req : TorrentActionRequest) (ids : list Z) (os : OS) (tm : TM) : res bool * OS * TM :=
  match ids with
  | [] => (Ok false, os, tm)
  | id_ :: ids' =>
      match GetTorrent id_ tm with
      | Ok l =>
          match applyTorrentChanges l req os tm with
          | (Ok _, os, tm) => set_torrents req ids' os tm
          | (Err _, os, tm) => let '(r, os, tm) := set_torrents req ids' os tm in (_ ← r; Ok true, os, tm)
          | (Panic p, os, tm) => (Panic p, os, tm)
          | (NoFuel, os, tm) => (NoFuel, os, tm)
          end
      | _ => let '(r, os, tm) := set_torrents req ids' os tm in (_ ← r; Ok true, os, tm)
      end
  end.

Definition TorrentSet (now : Z) (req : TorrentActionRequest) (os : OS) (tm : TM) : rpc () * OS * TM :=
  match validateTorrentSetRequest req with
  | Ok _ =>
      match ResolveTorrentIDs wild now (a_IDs req) tm with
      | Ok ids =>
          let '(r, os, tm) := set_torrents req ids os tm in
          (failed ← r; if failed : bool then fail (RPCError ErrCodeInvalidArgument "Failed to update torrents") else reply (), os, tm)
      | r => (with_code ErrCodeInvalidArgument (_ ← r; Ok ()), os, tm)
      end
  | r => (with_code ErrCodeInvalidArgument r, os, tm)
  end.

(** ** Magnet links *)
Definition seed_urls (id_ : Z) (tm : TM) : list bytes :=
  map WebSeed.ws_URL (filter (fun ws => WebSeed.Active ws = true /\ WebSeed.Failed ws = false) (GetWebSeeds id_ tm)).

Definition generateMagnetLink (t : TorrentState) (tm : TM) : res bytes :=
  match t_MetaInfo t with
  | Some mi =>
      magnet ← TorrentFile.mi_Magnet failedName mi [] (t_InfoHash t);
      Ok (Magnet.Magnet_String (Magnet.MkMagnet (Magnet.m_InfoHash magnet) (Magnet.m_Trackers magnet) (Magnet.m_DisplayName magnet)
            (Magnet.m_WebSeeds magnet ++ seed_urls (t_ID t) tm) (Magnet.m_Params magnet)))
  | None =>
      name ← getName t;
      let name := if decide (name = []) then HexString (t_InfoHash t) else name in
      Ok (bs "magnet:?xt=urn:btih:" ++ HexString (t_InfoHash t) ++ bs "&dn=" ++ concat (map (fun c => if decide (c = 32) then bs "%20" else [c]) name)
          ++ concat (map (fun u => bs "&ws=" ++ Url.QueryEscape u) (seed_urls (t_ID t) tm)))
  end.

Fixpoint magnets_of (ts : list TorrentState) (tm : TM) : res (list TorrentMagnet) :=
  match ts with
  | [] => Ok []
  | t :: ts' =>
      link ← generateMagnetLink t tm; name ← getName t; rest ← magnets_of ts' tm;
      Ok (MkTorrentMagnet (t_ID t) name (HexString (t_InfoHash t)) link :: rest)
  end.
Definition TorrentMagnet (ids : list Z) (tm : TM) : rpc (list RpcMessages.TorrentMagnet) :=
  let ls := match ids with [] => GetAllTorrents tm | _ => omap (fun id_ => tm_torrents tm !! id_) ids end in
  magnets ← magnets_of (map (fun l => torrent_at l tm) ls) tm; reply magnets.

(** ** Web seeds *)
Definition target_ids (ids : list Z) (tm : TM) : list Z :=
  match ids with [] => map (fun l => t_ID (torrent_at l tm)) (GetAllTorrents tm) | _ => ids end.

Fixpoint add_seeds (url seedType : bytes) (ids : list Z) (tm : TM) : rpc () * TM :=
  match ids with
  | [] => (reply (), tm)
  | id_ :: ids' =>
      match AddWebSeed parseAuthority id_ url seedType tm with
      | (Ok _, tm) => add_seeds url seedType ids' tm
      | (r, tm) => (with_code ErrCodeInvalidArgument r, tm)
      end
  end.
Definition TorrentWebSeedAdd (req : TorrentWebSeedAddRequest) (tm : TM) : rpc () * TM :=
  if decide (wa_URL req = []) then (fail (RPCError ErrCodeInvalidArgument "webseed URL is required"), tm)
  else if decide (wa_Type req = [] \/ wa_Type req = bs "url-list") then add_seeds (wa_URL req) WebSeed.WebSeedTypeHTTPFTP (target_ids (wa_IDs req) tm) tm
  else if decide (wa_Type req = bs "url-data") then add_seeds (wa_URL req) WebSeed.WebSeedTypeGetRight (target_ids (wa_IDs req) tm) tm
  else (fail (RPCError ErrCodeInvalidArgument "invalid webseed type: must be 'url-list' or 'url-data'"), tm).

Definition TorrentWebSeedRemove (req : TorrentWebSeedRemoveRequest) (tm : TM) : rpc () * TM :=
  if decide (wr_URL req = []) then (fail (RPCError ErrCodeInvalidArgument "webseed URL is required"), tm)
  else (reply (), fold_left (fun tm id_ => RemoveWebSeed id_ (wr_URL req) tm) (target_ids (wr_IDs req) tm) tm).

Definition TorrentWebSeedGet (ids : list Z) (tm : TM) : rpc (list TorrentWebSeeds) :=
  reply (map (fun id_ => MkSeeds id_ (map (fun ws => MkSeedInfo (WebSeed.ws_URL ws) (WebSeed.ws_Type ws) (WebSeed.Active ws) (WebSeed.Failed ws)
    (WebSeed.FailCount ws) (WebSeed.LastError ws) (WebSeed.Downloaded ws) (WebSeed.Speed ws)) (GetWebSeeds id_ tm))) (target_ids ids tm)).

(** ** Session methods *)
Definition SessionGet (tm : TM) : SessionGetResponse :=
  let c := GetSessionConfig tm in
  MkSessionGet
    (s_AltSpeedDown c) (s_AltSpeedEnabled c) 0 0 false 0 (s_AltSpeedUp c) (s_BlocklistEnabled c) (s_BlocklistSize c) (s_BlocklistURL c)
    (s_CacheSizeMB c) [] (s_DHTEnabled c) (s_DownloadDir c) 0 (s_DownloadQueueEnabled c) (s_DownloadQueueSize c) (s_Encryption c)
    (s_IdleSeedingLimit c) (s_IdleSeedingLimitEnabled c) (s_IncompleteDir c) (s_IncompleteDirEnabled c) (s_LPDEnabled c) (s_PeerLimitGlobal c)
    (s_PeerLimitPerTorrent c) (s_PeerPort c) false (s_PEXEnabled c) false false 0 false 17 1 false [] (s_SeedQueueEnabled c) (s_SeedQueueSize c)
    (s_SeedRatioLimit c) (s_SeedRatioLimited c) (s_SpeedLimitDown c) (s_SpeedLimitDownEnabled c) (s_SpeedLimitUp c) (s_SpeedLimitUpEnabled c)
    (s_StartAddedTorrents c) false (s_UTPEnabled c) (s_Version c).

Definition SessionSet (now : Z) (req : SessionSetRequest) (os : OS) (tm : TM) : rpc () * OS * TM :=
  let c := GetSessionConfig tm in
  let c := updateSpeedLimitSettings req c in
  let c := updatePeerNetworkSettings req c in
  let c := updateQueueSettings req c in
  let c := updateSeedingSettings req c in
  let c := updateDirectorySettings req c in
  let c := updateSecuritySettings req c in
  let '(r, tm, os) := UpdateSessionConfig wild now c os tm in
  (with_code ErrCodeInvalidArgument r, os, tm).

(** The counts of the statistics that are not constant. *)
Record stats := MkStats { st_activeTorrentCount : Z; st_torrentCount : Z }.
Definition SessionStats (tm : TM) : stats := MkStats (len (GetAllTorrents tm)) (len (GetAllTorrents tm)).

(** ** Bandwidth schedule

    The scheduler, and its rules as the pointers of the requests that brought
    them. [waiting]: whether the goroutine of the scheduler receives a stop
    signal. The manager has a scheduler from its creation on. *)
Record schedule := MkSchedule { sc_scheduler : BandwidthScheduler; sc_heap : list BandwidthScheduleRule }.
Definition zeroRule : BandwidthScheduleRule := MkRule [] [] [] [] 0 0 0 false.
Definition rule_at (heap : list BandwidthScheduleRule) (l : Z) : BandwidthScheduleRule := default zeroRule (heap !! Z.to_nat l).

Definition new_rule (rule : BandwidthScheduleRule) (s : schedule) : Z * schedule :=
  (len (sc_heap s), MkSchedule (sc_scheduler s) (sc_heap s ++ [rule])).
(** A call of the scheduler with its error as the code passes it on. *)
Definition scheduled (s : schedule) (r : BandwidthScheduler + ruleErr) : rpc () * schedule :=
  match r with
  | inl b => (reply (), MkSchedule b (sc_heap s))
  | inr _ => (fail (PlainError "bandwidth schedule rule refused"), s)
  end.
Definition add_rule (rule : BandwidthScheduleRule) (s : schedule) : rpc () * schedule :=
  let '(l, s) := new_rule rule s in scheduled s (AddRule (rule_at (sc_heap s)) l (sc_scheduler s)).
Definition remove_rule (name : bytes) (s : schedule) : rpc () * schedule := scheduled s (RemoveRule (rule_at (sc_heap s)) name (sc_scheduler s)).

Fixpoint in_turn {A} (f : A -> schedule -> rpc () * schedule) (l : list A) (s : schedule) : rpc () * schedule :=
  match l with
  | [] => (reply (), s)
  | a :: l' => match f a s with (Ok (inl _), s) => in_turn f l' s | (r, s) => (r, s) end
  end.

Definition BandwidthScheduleGet (s : schedule) : rpc BandwidthScheduleGetResponse :=
  let b := sc_scheduler s in
  reply (MkScheduleGet (bs_enabled b) (GetRules (rule_at (sc_heap s)) b) (GetCurrentRule (rule_at (sc_heap s)) b)).

Definition BandwidthScheduleSet (waiting : bool) (req : BandwidthScheduleSetRequest) (s : schedule) : rpc () * schedule :=
  let s := match ss_Enabled req with Some e => MkSchedule (Bandwidth.SetEnabled waiting e (sc_scheduler s)) (sc_heap s) | None => s end in
  match ss_Rules req with
  | None => (reply (), s)
  | Some rules =>
      match in_turn remove_rule (map ru_Name (GetRules (rule_at (sc_heap s)) (sc_scheduler s))) s with
      | (Ok (inl _), s) => in_turn add_rule rules s
      | (r, s) => (r, s)
      end
  end.

Definition BandwidthScheduleRuleAdd (rule : option BandwidthScheduleRule) (s : schedule) : rpc () * schedule :=
  match rule with None => (fail (PlainError "rule cannot be nil"), s) | Some rule => add_rule rule s end.
Definition BandwidthScheduleRuleRemove (name : bytes) (s : schedule) : rpc () * schedule :=
  if decide (name = []) then (fail (PlainError "rule name cannot be empty"), s) else remove_rule name s.
Definition BandwidthScheduleRuleUpdate (rule : option BandwidthScheduleRule) (s : schedule) : rpc () * schedule :=
  match rule with
  | None => (fail (PlainError "rule cannot be nil"), s)
  | Some rule => let '(l, s) := new_rule rule s in scheduled s (UpdateRule (rule_at (sc_heap s)) l (sc_scheduler s))
  end.

(** ** Dispatch *)

(** [json.Unmarshal] into the type of a request. *)
Class RequestJSON := {
  json_Action : bytes -> option TorrentActionRequest;
  json_Add : bytes -> option TorrentAddRequest;
  json_Get : bytes -> option TorrentGetRequest;
  json_IDs : bytes -> option (list Z);
  json_SeedAdd : bytes -> option TorrentWebSeedAddRequest;
  json_SeedRemove : bytes -> option TorrentWebSeedRemoveRequest;
  json_Empty : bytes -> option ();
  json_ScheduleSet : bytes -> option BandwidthScheduleSetRequest;
  json_Rule : bytes -> option (option BandwidthScheduleRule);
  json_Name : bytes -> option bytes;
  json_SessionSet : bytes -> option SessionSetRequest
}.
Context `{RequestJSON}.

Inductive response :=
  | RNil
  | RAdd (r : TorrentAddResponse)
  | RGet (r : TorrentGetResponse)
  | RMagnets (r : list RpcMessages.TorrentMagnet)
  | RSeeds (r : list TorrentWebSeeds)
  | RSchedule (r : BandwidthScheduleGetResponse)
  | RSession (r : SessionGetResponse)
  | RStats (r : stats).

Record daemon := MkDaemon { d_manager : TM; d_schedule : schedule; d_os : OS }.

(** The moment of the call. *)
Record moment := MkMoment { mo_now : Z; mo_waiting : bool }.
Abbreviation handler := (moment -> bytes -> daemon -> rpc response * daemon).

Definition answer {A} (f : A -> response) (r : rpc A) : rpc response := v ← r; match v with inl a => reply (f a) | inr e => fail e end.

(** A wrapper: the request is decoded, and the method called. *)
Definition create_wrapper {R} (unmarshal : bytes -> option R) (f : moment -> R -> daemon -> rpc response * daemon) : handler :=
  fun mo params d => match unmarshal params with None => (fail (RPCError ErrCodeInvalidParams "cannot unmarshal"), d) | Some req => f mo req d end.

Definition on_manager {A R} (g : A -> response) (f : moment -> R -> TM -> rpc A * TM) (mo : moment) (req : R) (d : daemon) : rpc response * daemon :=
  let '(r, tm) := f mo req (d_manager d) in (answer g r, MkDaemon tm (d_schedule d) (d_os d)).
Definition on_system {A R} (g : A -> response) (f : moment -> R -> OS -> TM -> rpc A * OS * TM) (mo : moment) (req : R) (d : daemon) : rpc response * daemon :=
  let '(r, os, tm) := f mo req (d_os d) (d_manager d) in (answer g r, MkDaemon tm (d_schedule d) os).
Definition on_schedule {A R} (g : A -> response) (f : moment -> R -> schedule -> rpc A * schedule) (mo : moment) (req : R) (d : daemon) : rpc response * daemon :=
  let '(r, s) := f mo req (d_schedule d) in (answer g r, MkDaemon (d_manager d) s (d_os d)).
Definition nothing (_ : ()) : response := RNil.

Definition createTorrentActionWrapper (f : moment -> TorrentActionRequest -> daemon -> rpc response * daemon) : handler := create_wrapper json_Action f.
Definition createTorrentAddWrapper : handler := create_wrapper json_Add (on_manager RAdd (fun mo => TorrentAdd (mo_now mo))).
Definition createTorrentGetWrapper : handler := create_wrapper json_Get (on_manager RGet (fun mo req tm => (TorrentGet (mo_now mo) req tm, tm))).
Definition createTorrentMagnetWrapper : handler := create_wrapper json_IDs (on_manager RMagnets (fun _ ids tm => (TorrentMagnet ids tm, tm))).
Definition createTorrentWebSeedAddWrapper : handler := create_wrapper json_SeedAdd (on_manager nothing (fun _ => TorrentWebSeedAdd)).
Definition createTorrentWebSeedRemoveWrapper : handler := create_wrapper json_SeedRemove (on_manager nothing (fun _ => TorrentWebSeedRemove)).
Definition createTorrentWebSeedGetWrapper : handler := create_wrapper json_IDs (on_manager RSeeds (fun _ ids tm => (TorrentWebSeedGet ids tm, tm))).
Definition createBandwidthScheduleGetWrapper : handler := create_wrapper json_Empty (on_schedule RSchedule (fun _ _ s => (BandwidthScheduleGet s, s))).
Definition createBandwidthScheduleSetWrapper : handler :=
  create_wrapper json_ScheduleSet (on_schedule nothing (fun mo => BandwidthScheduleSet (mo_waiting mo))).
Definition createBandwidthScheduleRuleAddWrapper : handler := create_wrapper json_Rule (on_schedule nothing (fun _ => BandwidthScheduleRuleAdd)).
Definition createBandwidthScheduleRuleRemoveWrapper : handler := create_wrapper json_Name (on_schedule nothing (fun _ => BandwidthScheduleRuleRemove)).
Definition createBandwidthScheduleRuleUpdateWrapper : handler := create_wrapper json_Rule (on_schedule nothing (fun _ => BandwidthScheduleRuleUpdate)).
Definition createSessionSetWrapper : handler := create_wrapper json_SessionSet (on_system nothing (fun mo => SessionSet (mo_now mo))).

Definition getTorrentActionHandler (method : bytes) : option handler :=
  let action f := Some (createTorrentActionWrapper (on_manager nothing (fun mo => f (mo_now mo)))) in
  if decide (method = bs "torrent-start") then action TorrentStart
  else if decide (method = bs "torrent-start-now") then action TorrentStartNow
  else if decide (method = bs "torrent-stop") then action TorrentStop
  else if decide (method = bs "torrent-verify") then action TorrentVerify
  else if decide (method = bs "torrent-remove") then action TorrentRemove
  else if decide (method = bs "torrent-set") then Some (createTorrentActionWrapper (on_system nothing (fun mo => TorrentSet (mo_now mo))))
  else None.

Definition getSpecialRequestHandler (method : bytes) : option handler :=
  if decide (method = bs "torrent-add") then Some createTorrentAddWrapper
  else if decide (method = bs "torrent-get") then Some createTorrentGetWrapper
  else if decide (method = bs "torrent-magnet") then Some createTorrentMagnetWrapper
  else if decide (method = bs "torrent-webseed-add") then Some createTorrentWebSeedAddWrapper
  else if decide (method = bs "torrent-webseed-remove") then Some createTorrentWebSeedRemoveWrapper
  else if decide (method = bs "torrent-webseed-get") then Some createTorrentWebSeedGetWrapper
  else if decide (method = bs "bandwidth-schedule-get") then Some createBandwidthScheduleGetWrapper
  else if decide (method = bs "bandwidth-schedule-set") then Some createBandwidthScheduleSetWrapper
  else if decide (method = bs "bandwidth-schedule-rule-add") then Some createBandwidthScheduleRuleAddWrapper
  else if decide (method = bs "bandwidth-schedule-rule-remove") then Some createBandwidthScheduleRuleRemoveWrapper
  else if decide (method = bs "bandwidth-schedule-rule-update") then Some createBandwidthScheduleRuleUpdateWrapper
  else if decide (method = bs "session-set") then Some createSessionSetWrapper
  else None.

Definition getSessionHandler (method : bytes) : option handler :=
  if decide (method = bs "session-get") then Some (fun _ _ d => (reply (RSession (SessionGet (d_manager d))), d))
  else if decide (method = bs "session-stats") then Some (fun _ _ d => (reply (RStats (SessionStats (d_manager d))), d))
  else None.

Definition GetMethodHandler (method : bytes) : option handler :=
  match getTorrentActionHandler method with
  | Some h => Some h
  | None => match getSpecialRequestHandler method with Some h => Some h | None => getSessionHandler method end
  end.

Definition GetSupportedMethods : list bytes :=
  map bs ["torrent-add"; "torrent-get"; "torrent-start"; "torrent-start-now"; "torrent-stop"; "torrent-verify"; "torrent-remove"; "torrent-set";
    "torrent-magnet"; "torrent-webseed-add"; "torrent-webseed-remove"; "torrent-webseed-get"; "bandwidth-schedule-get"; "bandwidth-schedule-set";
    "bandwidth-schedule-rule-add"; "bandwidth-schedule-rule-remove"; "bandwidth-schedule-rule-update"; "session-get"; "session-set";
    "session-stats"]%string.
End Methods.
End RpcMethods.
