(* ===== verification/RpcServer.v ===== *)
(** * The RPC server

    Models [src/rpc/server.go]: from an HTTP request to the call of a method
    and back, with authentication and session tokens, and the wrappers for
    recovery and rate limiting.

    The methods are the interface [RpcService], which the daemon of
    [RpcMethods] implements; decoding JSON is the class [RpcJSON]. Whether a
    method ends within its time is an argument; a method that does not goes on
    in its goroutine and its effect takes place all the same. Encoding a
    response, logging and the listening socket are left out. *)

From S2P Require Import Prelude Strconv Metainfo GoLib Url Bencode BencodeFacts BencodeTyped Sha1 Hash Net Address Magnet TorrentFile Bandwidth.
From S2P Require Import RpcTypes QueueManager Blocklist PexManager WebSeed FileManager TorrentManager RpcMessages RpcMethods.
Import Http RpcMessages.

(** What the server asks of the methods: the handler of a method takes the
    moment [M] of the call and the bytes of the parameters, and answers with a
    result [A] or an error. *)
Class RpcService (D A M : Type) := GetMethodHandler : bytes -> option (M -> bytes -> D -> res (A + rpc_error) * D).

(** A request with an ID and parameters of the JSON values [J]. *)
Record Request (J : Type) := MkRpcRequest { rq_ID : J; rq_Method : bytes; rq_Params : option J; rq_Version : bytes }.
Arguments rq_ID {J} _.
Arguments rq_Method {J} _.
Arguments rq_Params {J} _.
Arguments rq_Version {J} _.
Class RpcJSON (J : Type) := {
  json_Request : bytes -> option (Request J);
  json_Params : J -> option bytes
}.

Module RpcServer.

Definition ErrCodeInvalidRequest : Z := -32600.
Definition ErrCodeParseError : Z := -32700.
Definition StatusOK : Z := 200.
Definition StatusBadRequest : Z := 400.
Definition StatusUnauthorized : Z := 401.
Definition StatusMethodNotAllowed : Z := 405.
Definition StatusConflict : Z := 409.
Definition StatusRequestEntityTooLarge : Z := 413.
Definition StatusTooManyRequests : Z := 429.
Definition StatusInternalServerError : Z := 500.

Record ServerConfig := MkServerConfig {
  cf_Username : bytes;
  cf_Password : bytes;
  cf_SessionTokenHeader : bytes;
  cf_AllowOrigin : bytes;
  cf_AllowCredentials : bool;
  cf_ReadTimeout : Z;
  cf_WriteTimeout : Z;
  cf_MaxRequestSize : Z
}.

Definition applyServerConfigDefaults (c : ServerConfig) : ServerConfig :=
  MkServerConfig (cf_Username c) (cf_Password c)
    (if decide (cf_SessionTokenHeader c = []) then bs "X-Transmission-Session-Id" else cf_SessionTokenHeader c)
    (cf_AllowOrigin c) (cf_AllowCredentials c)
    (if decide (cf_ReadTimeout c = 0) then 30 * Bandwidth.Second else cf_ReadTimeout c)
    (if decide (cf_WriteTimeout c = 0) then 30 * Bandwidth.Second else cf_WriteTimeout c)
    (if decide (cf_MaxRequestSize c = 0) then 10 * 1024 * 1024 else cf_MaxRequestSize c).

(** [random]: the 16 bytes of [rand.Read], unless it failed. *)
Definition generateSessionID (random : option bytes) (unixNano : Z) : bytes :=
  match random with
  | Some r => bs "session-" ++ Hash.HexString r
  | None => bs "fallback-session-" ++ Strconv.FormatInt unixNano
  end.

Definition isStateChangingMethod (method : bytes) : bool :=
  bool_decide (method ∈ map bs ["torrent-add"; "torrent-start"; "torrent-start-now"; "torrent-stop"; "torrent-verify"; "torrent-remove"; "torrent-set";
    "session-set"]%string).

Section Server.
Context {D A M J : Type} `{!RpcService D A M} `{!RpcJSON J}.

Record Response := MkRpcResponse { rs_ID : option J; rs_Result : option A; rs_Error : option rpc_error; rs_Version : bytes }.
Record Server := MkServer { sv_config : ServerConfig; sv_daemon : D; sv_sessionID : bytes; sv_sessionTime : Z }.
Abbreviation reply := (served (option Response)).

Definition validateServerConfig (manager : option D) : res D := match manager with None => Err "TorrentManager is required" | Some d => Ok d end.
Definition createServerInstance (config : ServerConfig) (d : D) (random : option bytes) (now : Z) : Server :=
  MkServer config d (generateSessionID random now) now.
Definition NewServer (manager : option D) (config : ServerConfig) (random : option bytes) (now : Z) : res Server :=
  d ← validateServerConfig manager;
  Ok (createServerInstance (applyServerConfigDefaults config) d random now).

Definition RefreshSessionID (random : option bytes) (now : Z) (s : Server) : Server := MkServer (sv_config s) (sv_daemon s) (generateSessionID random now) now.
Definition GetSessionID (s : Server) : bytes := sv_sessionID s.

(** The counters of requests and errors are never changed: they stay 0. *)
Record server_stats := MkServerStats { st_requests : Z; st_errors : Z; st_uptime : Bandwidth.float; st_session : bytes }.
Definition GetStats (now : Z) (s : Server) : server_stats := MkServerStats 0 0 (Bandwidth.Seconds (now - sv_sessionTime s)) (GetSessionID s).

(** ** Responses *)
Definition applyCORSHeaders (s : Server) : Header :=
  let c := sv_config s in
  let h := Header_Set (bs "Access-Control-Allow-Origin") (if decide (cf_AllowOrigin c = []) then bs "*" else cf_AllowOrigin c) ∅ in
  let h := Header_Set (bs "Access-Control-Allow-Methods") (bs "POST, OPTIONS") h in
  let h := Header_Set (bs "Access-Control-Allow-Headers") (bs "Content-Type, Authorization, " ++ cf_SessionTokenHeader c) h in
  if cf_AllowCredentials c then Header_Set (bs "Access-Control-Allow-Credentials") (bs "true") h else h.

Definition sendJSONResponse (status : Z) (data : Response) (h : Header) : HttpResponse (option Response) :=
  MkHttpResponse status (Header_Set (bs "Content-Type") (bs "application/json") h) (Some data).
Definition sendError (httpStatus rpcCode : Z) (message : string) (h : Header) : HttpResponse (option Response) :=
  sendJSONResponse httpStatus (MkRpcResponse None None (Some (RPCError rpcCode message)) (bs "2.0")) h.

(** ** Checks: the response of a request that fails one *)
Definition validateHTTPRequest (r : HttpRequest) (s : Server) (h : Header) : option (HttpResponse (option Response)) :=
  if decide (hq_Method r <> bs "POST") then Some (sendError StatusMethodNotAllowed ErrCodeInvalidRequest "Only POST method allowed" h)
  else if negb (Contains (Header_Get (hq_Header r) (bs "Content-Type")) (bs "application/json"))
  then Some (sendError StatusBadRequest ErrCodeInvalidRequest "Content-Type must be application/json" h)
  else if decide (cf_MaxRequestSize (sv_config s) < hq_ContentLength r)
  then Some (sendError StatusRequestEntityTooLarge ErrCodeInvalidRequest "Request too large" h)
  else None.

Definition parseRPCRequest (r : HttpRequest) (s : Server) (h : Header) : Request J + HttpResponse (option Response) :=
  match read_limited (cf_MaxRequestSize (sv_config s)) r with
  | None => inr (sendError StatusBadRequest ErrCodeInvalidRequest "Failed to read request body" h)
  | Some body =>
      match json_Request body with
      | None => inr (sendError StatusBadRequest ErrCodeParseError "Invalid JSON" h)
      | Some req =>
          if decide (rq_Version req <> bs "2.0") then inr (sendError StatusBadRequest ErrCodeInvalidRequest "Invalid JSON-RPC version" h) else inl req
      end
  end.

Definition checkAuth (r : HttpRequest) (s : Server) : bool :=
  let c := sv_config s in
  if decide (cf_Username c = [] /\ cf_Password c = []) then true
  else match BasicAuth r with Some (username, password) => bool_decide (username = cf_Username c) && bool_decide (password = cf_Password c) | None => false end.

Definition checkSessionToken (r : HttpRequest) (s : Server) : bool :=
  bool_decide (Header_Get (hq_Header r) (cf_SessionTokenHeader (sv_config s)) = sv_sessionID s).

Definition validateRPCAuthentication (r : HttpRequest) (req : Request J) (s : Server) (h : Header) : option (HttpResponse (option Response)) :=
  if negb (checkAuth r s) then Some (sendError StatusUnauthorized ErrCodeInternalError "Authentication required" h)
  else if isStateChangingMethod (rq_Method req) && negb (checkSessionToken r s)
  then Some (sendError StatusConflict ErrCodeInternalError "Session token required" (Header_Set (cf_SessionTokenHeader (sv_config s)) (sv_sessionID s) h))
  else None.

(** ** Calling a method *)

(** [late]: the request ends before the method does. The method runs in a
    goroutine of its own. *)
Definition executeWithTimeout (late : bool) (call : res (A + rpc_error)) : (A + rpc_error) + string :=
  match call with
  | Panic p => inr p
  | NoFuel => inr "fuel exhausted"
  | _ =>
      if late then inl (inr (RPCError ErrCodeInternalError "Request timeout"))
      else match call with Ok v => inl v | Err e => inl (inr (PlainError e)) | _ => inr "" end
  end%string.

Definition as_rpc_error (e : rpc_error) : rpc_error := match e with RPCError c m => RPCError c m | PlainError m => RPCError ErrCodeInternalError m end.

Definition processRPCRequest (mo : M) (late : bool) (req : Request J) (s : Server) (h : Header) : reply * Server :=
  let respond result err := Served (sendJSONResponse StatusOK (MkRpcResponse (Some (rq_ID req)) result err (bs "2.0")) h) in
  match GetMethodHandler (rq_Method req) with
  | None => (respond None (Some (RPCError ErrCodeMethodNotFound "Method not found")), s)
  | Some handler =>
      match match rq_Params req with Some p => json_Params p | None => Some [] end with
      | None => (respond None (Some (RPCError ErrCodeInvalidParams "Invalid parameters")), s)
      | Some params =>
          let '(call, d) := handler mo params (sv_daemon s) in
          let s' := MkServer (sv_config s) d (sv_sessionID s) (sv_sessionTime s) in
          (match executeWithTimeout late call with
           | inl (inl result) => respond (Some result) None
           | inl (inr e) => respond None (Some (as_rpc_error e))
           | inr p => Crashed p
           end, s')
      end
  end.

Definition ServeHTTP (mo : M) (late : bool) (r : HttpRequest) (s : Server) : reply * Server :=
  let h := applyCORSHeaders s in
  if decide (hq_Method r = bs "OPTIONS") then (Served (MkHttpResponse StatusOK h None), s)
  else match validateHTTPRequest r s h with
  | Some refusal => (Served refusal, s)
  | None =>
      match parseRPCRequest r s h with
      | inr refusal => (Served refusal, s)
      | inl req =>
          match validateRPCAuthentication r req s h with
          | Some refusal => (Served refusal, s)
          | None => processRPCRequest mo late req s h
          end
      end
  end.

(** ** Wrappers *)
Definition WithRecovery (handled : reply * Server) : reply * Server :=
  match handled with
  | (Panicked _, s) =>
      (Served (sendJSONResponse StatusInternalServerError (MkRpcResponse None None (Some (RPCError ErrCodeInternalError "Internal server error")) (bs "2.0")) ∅), s)
  | _ => handled
  end.

End Server.

(** The state of [WithRateLimit]: the start of the window, at first the zero
    time, and the requests in it. *)
Record limiter := MkLimiter { rl_lastReset : option Z; rl_requests : Z }.
Definition NewRateLimit : limiter := MkLimiter None 0.

(** Whether the request is let through. *)
Definition WithRateLimit (requestsPerSecond now : Z) (rl : limiter) : bool * limiter :=
  let rl := if match rl_lastReset rl with Some t => bool_decide (Bandwidth.Second <= now - t) | None => true end then MkLimiter (Some now) 0 else rl in
  if decide (requestsPerSecond <= rl_requests rl) then (false, rl) else (true, MkLimiter (rl_lastReset rl) (rl_requests rl + 1)).

(** ** Servers with a daemon of their own *)
Section Create.
Context {I : Type} `{!I2PKeys I} `{!GoLib.SortSlice} `{!MapRange}.

Definition simple_session (downloadDir : bytes) : RpcTypes.SessionConfiguration :=
  RpcTypes.MkSession downloadDir [] false 0 0 0 false false false false false [] 0 false 0 false 0 0 false false 0 false 0 fzero false 0 false false 0
    (bs "go-i2p-bt-rpc/1.0.0") false [] 0 false [].
Definition simple_config (downloadDir : bytes) : TorrentManager.TorrentManagerConfig :=
  TorrentManager.MkConfig downloadDir [] false 0 0 0 0 (simple_session downloadDir).
Definition NewSimpleServer (now : Z) (listening : bool) (random : option bytes) (downloadDir : bytes) : res Server :=
  NewServer (D := TorrentManager.TorrentManager (I := I)) (Some (TorrentManager.NewTorrentManager now listening (simple_config downloadDir)))
    (MkServerConfig [] [] [] [] false 0 0 0) random now.
Definition NewServerWithAuth (now : Z) (listening : bool) (random : option bytes) (downloadDir username password : bytes) : res Server :=
  NewServer (D := TorrentManager.TorrentManager (I := I)) (Some (TorrentManager.NewTorrentManager now listening (simple_config downloadDir)))
    (MkServerConfig username password [] [] false 0 0 0) random now.
End Create.

End RpcServer.
