(* ===== verification/WebHandler.v ===== *)
(** * The web interface

    Models [src/rpc/web_handler.go]: static files with their headers, and the
    upload of torrent files.

    The file server is the one of [net/http], over the class [StaticFS]: what
    opening a path below the static directory yields. A multipart form comes
    parsed; the multiplexers, which only register handlers, are left out. *)

From S2P Require Import Prelude Strconv Metainfo GoLib Url Bencode BencodeFacts BencodeTyped Sha1 Hash Net Address Magnet TorrentFile Bandwidth.
From S2P Require Import RpcTypes QueueManager Blocklist PexManager WebSeed FileManager TorrentManager RpcMessages RpcMethods RpcServer.
Import Http RpcTypes RpcMessages RpcServer.

(** [http.Dir(StaticDir).Open(name)] with the [Stat] of what was opened. *)
Inductive opened := ONotExist | OForbidden | OError | ODir | OFile (content : bytes).
Class StaticFS := fs_Open : bytes -> opened.

Module WebHandler.

(** ** [base64.StdEncoding.EncodeToString] *)
Definition b64_char (n : Z) : Z :=
  if decide (n < 26) then 65 + n else if decide (n < 52) then 71 + n else if decide (n < 62) then n - 4 else if decide (n = 62) then 43 else 47.
Fixpoint EncodeToString (b : bytes) : bytes :=
  match b with
  | x :: y :: z :: b' => b64_char (x / 4) :: b64_char (x mod 4 * 16 + y / 16) :: b64_char (y mod 16 * 4 + z / 64) :: b64_char (z mod 64) :: EncodeToString b'
  | [x; y] => [b64_char (x / 4); b64_char (x mod 4 * 16 + y / 16); b64_char (y mod 16 * 4); 61]
  | [x] => [b64_char (x / 4); b64_char (x mod 4 * 16); 61; 61]
  | [] => []
  end.

(** ** [filepath.Ext] *)
Definition after_slash (p : bytes) : bytes := match last (Metainfo.split_slash [] p) with Some e => e | None => [] end.
Fixpoint last_dot (e : bytes) : option bytes :=
  match e with
  | [] => None
  | c :: e' => match last_dot e' with Some x => Some x | None => if decide (c = 46) then Some e else None end
  end.
Definition Ext (p : bytes) : bytes := default [] (last_dot (after_slash p)).

(** ** Configuration *)
Record WebHandlerConfig := MkWebConfig {
  wc_StaticDir : bytes;
  wc_URLPrefix : bytes;
  wc_IndexFile : bytes;
  wc_MaxAge : Z;
  wc_RequireAuth : bool;
  wc_EnableDirectoryListing : bool
}.

Definition normalizeURLPrefix (c : WebHandlerConfig) : WebHandlerConfig :=
  let p := if decide (wc_URLPrefix c = []) then bs "/web/" else wc_URLPrefix c in
  let p := if GoLib.HasPrefix p (bs "/") then p else bs "/" ++ p in
  let p := if HasSuffix p (bs "/") then p else p ++ bs "/" in
  MkWebConfig (wc_StaticDir c) p (wc_IndexFile c) (wc_MaxAge c) (wc_RequireAuth c) (wc_EnableDirectoryListing c).
Definition setConfigDefaults (c : WebHandlerConfig) : WebHandlerConfig :=
  MkWebConfig (wc_StaticDir c) (wc_URLPrefix c) (if decide (wc_IndexFile c = []) then bs "index.html" else wc_IndexFile c)
    (if decide (wc_MaxAge c = 0) then 3600 else wc_MaxAge c) (wc_RequireAuth c) (wc_EnableDirectoryListing c).
Definition validateWebHandlerConfig (c : WebHandlerConfig) : res WebHandlerConfig :=
  if decide (wc_StaticDir c = []) then Err "StaticDir is required" else Ok (setConfigDefaults (normalizeURLPrefix c)).

Definition defaultWebConfig (staticDir : bytes) (requireAuth : bool) : WebHandlerConfig :=
  MkWebConfig staticDir (bs "/web/") (bs "index.html") 3600 requireAuth false.
Definition NewDefaultWebHandler (staticDir : bytes) : res WebHandlerConfig := validateWebHandlerConfig (defaultWebConfig staticDir false).
Definition NewSecureWebHandler (staticDir : bytes) : res WebHandlerConfig := validateWebHandlerConfig (defaultWebConfig staticDir true).

(** ** Headers *)
Definition setSecurityHeaders (h : Header) : Header :=
  let h := Header_Set (bs "X-Content-Type-Options") (bs "nosniff") h in
  let h := Header_Set (bs "X-Frame-Options") (bs "DENY") h in
  let h := Header_Set (bs "X-XSS-Protection") (bs "1; mode=block") h in
  let h := Header_Set (bs "Content-Security-Policy")
    (bs "default-src 'self'; script-src 'self' 'unsafe-inline'; style-src 'self' 'unsafe-inline'; img-src 'self' data:; connect-src 'self'") h in
  Header_Set (bs "Referrer-Policy") (bs "strict-origin-when-cross-origin") h.

Definition max_age (n : Z) : bytes := bs "public, max-age=" ++ Strconv.FormatInt n.
Definition setCacheHeaders (c : WebHandlerConfig) (filePath : bytes) (h : Header) : Header :=
  let ext := map lower (Ext filePath) in
  Header_Set (bs "Cache-Control")
    (if decide (ext ∈ map bs [".html"; ".htm"]%string) then max_age 300
     else if decide (ext ∈ map bs [".js"; ".css"]%string) then max_age (wc_MaxAge c)
     else if decide (ext ∈ map bs [".png"; ".jpg"; ".jpeg"; ".gif"; ".svg"; ".ico"]%string) then max_age (i64 (wc_MaxAge c * 24))
     else max_age (wc_MaxAge c)) h.

Definition mime_types : list (bytes * bytes) :=
  map (fun p => (bs p.1, bs p.2))
    [(".html", "text/html; charset=utf-8"); (".htm", "text/html; charset=utf-8"); (".css", "text/css; charset=utf-8");
     (".js", "application/javascript; charset=utf-8"); (".json", "application/json; charset=utf-8"); (".png", "image/png"); (".jpg", "image/jpeg");
     (".jpeg", "image/jpeg"); (".gif", "image/gif"); (".svg", "image/svg+xml"); (".ico", "image/x-icon"); (".txt", "text/plain; charset=utf-8")]%string.
Definition GetMimeType (filename : bytes) : bytes :=
  default (bs "application/octet-stream") ((list_to_map mime_types : gmap bytes bytes) !! map lower (Ext filename)).

(** ** Static files *)
Section Static.
Context `{!StaticFS}.

(** [noDirectoryListingFS.Open]: a directory is an error of its own kind. *)
Definition noDirectoryListing_Open (name : bytes) : opened := match fs_Open name with ODir => OError | o => o end.
Definition createFileServer (c : WebHandlerConfig) (name : bytes) : opened :=
  if wc_EnableDirectoryListing c then fs_Open name else noDirectoryListing_Open name.

(** The body of an answer: nothing but its status, a redirection, the contents
    of a file or the listing of a directory. *)
Inductive web_body := WNone | WRedirect (location : bytes) | WFile (name content : bytes) | WListing (name : bytes) | WJson (success : bool) (text : string).

Definition StatusMovedPermanently : Z := 301.
Definition Base (p : bytes) : bytes := after_slash (TrimSuffix p (bs "/")).

(** [http.FileServer] on the path of the request; [open] is its file system.
    The list has the names opened. *)
Definition serve_file (open : bytes -> opened) (urlPath : bytes) : Z * web_body * list bytes :=
  let upath := if GoLib.HasPrefix urlPath (bs "/") then urlPath else bs "/" ++ urlPath in
  let name := Metainfo.Clean upath in
  if HasSuffix upath (bs "/index.html") then (StatusMovedPermanently, WRedirect (bs "./"), [])
  else match open name with
  | ONotExist => (404, WNone, [name])
  | OForbidden => (403, WNone, [name])
  | OError => (500, WNone, [name])
  | OFile content =>
      if HasSuffix upath (bs "/") then (StatusMovedPermanently, WRedirect (bs "../" ++ Base upath), [name]) else (StatusOK, WFile name content, [name])
  | ODir =>
      if negb (HasSuffix upath (bs "/")) then (StatusMovedPermanently, WRedirect (Base upath ++ bs "/"), [name])
      else
        let index := TrimSuffix name (bs "/") ++ bs "/index.html" in
        match open index with
        | OFile content => (StatusOK, WFile index content, [name; index])
        | _ => (StatusOK, WListing name, [name; index])
        end
  end.

(** ** Uploads *)

(** The file in the field "torrent" of a form: its name, its size and its
    contents unless reading fails; and the other fields. *)
Record upload_form := MkForm { uf_torrent : option (bytes * Z * option bytes); uf_values : gmap bytes bytes }.
Definition FormValue (f : upload_form) (k : bytes) : bytes := default [] (uf_values f !! k).

Definition isValidTorrentFile (data : bytes) : bool :=
  if decide (length data < 10)%nat then false
  else if decide (head data <> Some 100) then false
  else Contains data (bs "announce") || Contains data (bs "info").

Definition web_json (status : Z) (success : bool) (text : string) (h : Header) : HttpResponse web_body :=
  MkHttpResponse status (Header_Set (bs "Content-Type") (bs "application/json") h) (WJson success text).
Definition sendJSONError (message : string) (status : Z) (h : Header) : HttpResponse web_body := web_json status false message h.

Definition maxUploadSize : Z := Z.shiftl 10 20.
Definition validateTorrentFile (filename : bytes) (size_ : Z) (data : bytes) (h : Header) : option (HttpResponse web_body) :=
  if negb (HasSuffix (map lower filename) (bs ".torrent")) then Some (sendJSONError "File must have .torrent extension" StatusBadRequest h)
  else if decide (maxUploadSize < size_) then Some (sendJSONError "File too large (max 10MB)" StatusBadRequest h)
  else if negb (isValidTorrentFile data) then Some (sendJSONError "Invalid torrent file format" StatusBadRequest h)
  else None.

(** The parsed form, [None] if parsing it fails. *)
Definition extractUploadedFile (form : option upload_form) (h : Header) : (bytes * bytes * Z * upload_form) + HttpResponse web_body :=
  match form with
  | None => inr (sendJSONError "Failed to parse upload" StatusBadRequest h)
  | Some f =>
      match uf_torrent f with
      | None => inr (sendJSONError "No torrent file provided" StatusBadRequest h)
      | Some (_, _, None) => inr (sendJSONError "Failed to read file" StatusInternalServerError h)
      | Some (filename, size_, Some data) => inl (data, filename, size_, f)
      end
  end.

Section Handler.
Context {D A : Type} (TorrentAdd : TorrentAddRequest -> D -> res (A + rpc_error) * D).
Abbreviation Server := (RpcServer.Server (D := D)).

Definition upload_request (f : upload_form) (data : bytes) : TorrentAddRequest :=
  MkAddRequest [] (FormValue f (bs "download-dir")) [] [] (EncodeToString data) (bool_decide (FormValue f (bs "paused") = bs "true")) 0 0 [] [] [] [] [].

(** The handler holds a server, or none. *)
Definition processTorrentUpload (f : upload_form) (data : bytes) (server : option Server) (h : Header) : served web_body * option Server :=
  match server with
  | None => (Served (sendJSONError "RPC server not available" 503 h), None)
  | Some s =>
      let '(call, d) := TorrentAdd (upload_request f data) (sv_daemon s) in
      (match call with
       | Ok (inl _) => Served (web_json StatusOK true "Torrent uploaded successfully" h)
       | Ok (inr _) | Err _ => Served (sendJSONError "Failed to add torrent" StatusInternalServerError h)
       | Panic p => Panicked p
       | NoFuel => Panicked "fuel exhausted"
       end, Some (MkServer (sv_config s) d (sv_sessionID s) (sv_sessionTime s)))
  end.

(** The refusal of a request without the credentials. *)
Definition validateAuthentication (c : WebHandlerConfig) (r : HttpRequest) (server : option Server) : option (HttpResponse web_body) :=
  match server with
  | Some s =>
      if wc_RequireAuth c && negb (checkAuth r s)
      then Some (MkHttpResponse StatusUnauthorized (Header_Set (bs "WWW-Authenticate") (bs "Basic realm=" ++ [34] ++ bs "Transmission RPC" ++ [34]) ∅) WNone)
      else None
  | None => None
  end.

Definition handleFileUpload (c : WebHandlerConfig) (r : HttpRequest) (form : option upload_form) (server : option Server) :
    served web_body * option Server :=
  match validateAuthentication c r server with
  | Some refusal => (Served refusal, server)
  | None =>
      let h := setSecurityHeaders ∅ in
      match extractUploadedFile form h with
      | inr refusal => (Served refusal, server)
      | inl (data, filename, size_, f) =>
          match validateTorrentFile filename size_ data h with
          | Some refusal => (Served refusal, server)
          | None => processTorrentUpload f data server h
          end
      end
  end.

(** The path of a request as the file server gets it. *)
Definition file_path (c : WebHandlerConfig) (urlPath : bytes) : bytes :=
  let cleanPath := Metainfo.Clean urlPath in
  if decide (cleanPath = [] \/ cleanPath = bs "/") then bs "/" ++ wc_IndexFile c else cleanPath.

(** The last component lists the names opened below the static directory. *)
Definition ServeHTTP (c : WebHandlerConfig) (r : HttpRequest) (form : option upload_form) (server : option Server) :
    served web_body * option Server * list bytes :=
  if decide (hq_Method r = bs "POST" /\ hq_Path r = bs "/upload") then (handleFileUpload c r form server, [])
  else if decide (hq_Method r <> bs "GET" /\ hq_Method r <> bs "HEAD") then (Served (MkHttpResponse StatusMethodNotAllowed ∅ WNone), server, [])
  else match validateAuthentication c r server with
  | Some refusal => (Served refusal, server, [])
  | None =>
      if Contains (hq_Path r) (bs "..") || Contains (Metainfo.Clean (hq_Path r)) (bs "..") then (Served (MkHttpResponse StatusBadRequest ∅ WNone), server, [])
      else
        let filePath := file_path c (hq_Path r) in
        let '(status, body, names) := serve_file (createFileServer c) filePath in
        (Served (MkHttpResponse status (setCacheHeaders c filePath (setSecurityHeaders ∅)) body), server, names)
  end.
End Handler.
End Static.
End WebHandler.
