(* ===== verification/WebSocket.v ===== *)
(** * Updates over websockets

    Models [src/rpc/websocket_handler.go]: clients with their subscriptions and
    bounded send channels, the broadcasts, and the end of clients and of the
    handler.

    The goroutines (a reader and a writer per client, the broadcaster and the
    periodic updates) interleave as the step relation [step] of the relations of each. A connection is a
    number; reading and writing it, its deadlines and the upgrade of the HTTP
    connection are left out: a received message is an argument of its step, and
    a written one is appended to what the connection has sent. A client outlives
    its place in the map as long as its goroutines run. The data of a message
    are a string or of any other type [X]. *)

From S2P Require Import Prelude Strconv Metainfo GoLib Url Bencode BencodeFacts BencodeTyped Sha1 Hash Net Address Magnet TorrentFile Bandwidth.
From S2P Require Import RpcTypes QueueManager Blocklist PexManager WebSeed FileManager TorrentManager RpcMessages RpcMethods RpcServer.
Import Http RpcTypes RpcServer.

Module WebSocket.

Record WebSocketConfig := MkWsConfig {
  ws_ReadTimeout : Z;
  ws_WriteTimeout : Z;
  ws_PingPeriod : Z;
  ws_MaxMessageSize : Z;
  ws_RequireAuth : bool;
  ws_UpdateInterval : Z
}.
Definition websocket_defaults (c : WebSocketConfig) : WebSocketConfig :=
  let or v d := if decide (v = 0) then d else v in
  MkWsConfig (or (ws_ReadTimeout c) (60 * Bandwidth.Second)) (or (ws_WriteTimeout c) (10 * Bandwidth.Second)) (or (ws_PingPeriod c) (30 * Bandwidth.Second))
    (or (ws_MaxMessageSize c) 4096) (ws_RequireAuth c) (or (ws_UpdateInterval c) (2 * Bandwidth.Second)).
Definition NewDefaultWebSocketHandler : WebSocketConfig :=
  websocket_defaults (MkWsConfig (60 * Bandwidth.Second) (10 * Bandwidth.Second) (30 * Bandwidth.Second) 4096 false (2 * Bandwidth.Second)).
Definition NewSecureWebSocketHandler : WebSocketConfig :=
  websocket_defaults (MkWsConfig (60 * Bandwidth.Second) (10 * Bandwidth.Second) (30 * Bandwidth.Second) 4096 true (2 * Bandwidth.Second)).

Section WebSocket.
Context {X : Type}.

(** ** Data *)
Inductive ws_data := DNone | DString (s : bytes) | DOther (x : X).
Record WebSocketMessage := MkMessage { wm_Type : bytes; wm_Data : ws_data; wm_ID : bytes }.

(** [cl_send], [cl_closed]: the send channel, of capacity 256; [cl_written]:
    what the writer has sent; the two goroutines. *)
Record WebSocketClient := MkClient {
  cl_subscriptions : gset bytes;
  cl_send : list WebSocketMessage;
  cl_closed : bool;
  cl_written : list WebSocketMessage;
  cl_reader : bool;
  cl_writer : bool
}.
Definition NewClient : WebSocketClient := MkClient ∅ [] false [] true true.
Definition chan_capacity : nat := 256.

Definition with_subscriptions (v : gset bytes) (c : WebSocketClient) : WebSocketClient :=
  MkClient v (cl_send c) (cl_closed c) (cl_written c) (cl_reader c) (cl_writer c).
Definition with_send (v : list WebSocketMessage) (c : WebSocketClient) : WebSocketClient :=
  MkClient (cl_subscriptions c) v (cl_closed c) (cl_written c) (cl_reader c) (cl_writer c).
Definition close_send (c : WebSocketClient) : WebSocketClient := MkClient (cl_subscriptions c) (cl_send c) true (cl_written c) (cl_reader c) (cl_writer c).

(** A send in a [select] with a default: [Ok] with whether it went through; a
    closed channel panics. *)
Definition try_send (m : WebSocketMessage) (c : WebSocketClient) : res (bool * WebSocketClient) :=
  if cl_closed c then Panic "send on closed channel"
  else if decide (length (cl_send c) < chan_capacity)%nat then Ok (true, with_send (cl_send c ++ [m]) c) else Ok (false, c).

(** ** Messages of a client *)
Definition sendResponseToClient (response : WebSocketMessage) (c : WebSocketClient) : res WebSocketClient :=
  r ← try_send response c; Ok r.2.
Definition sendSubscriptionResponse (responseType subscription msgID : bytes) (c : WebSocketClient) : res WebSocketClient :=
  sendResponseToClient (MkMessage responseType (DString subscription) msgID) c.
Definition handleSubscribeMessage (msg : WebSocketMessage) (c : WebSocketClient) : res WebSocketClient :=
  match wm_Data msg with
  | DString subscription =>
      sendSubscriptionResponse (bs "subscribed") subscription (wm_ID msg) (with_subscriptions ({[subscription]} ∪ cl_subscriptions c) c)
  | _ => Ok c
  end.
Definition handleUnsubscribeMessage (msg : WebSocketMessage) (c : WebSocketClient) : res WebSocketClient :=
  match wm_Data msg with
  | DString subscription =>
      sendSubscriptionResponse (bs "unsubscribed") subscription (wm_ID msg) (with_subscriptions (cl_subscriptions c ∖ {[subscription]}) c)
  | _ => Ok c
  end.
Definition handlePingMessage (msg : WebSocketMessage) (c : WebSocketClient) : res WebSocketClient :=
  sendResponseToClient (MkMessage (bs "pong") DNone (wm_ID msg)) c.
Definition processClientMessage (msg : WebSocketMessage) (c : WebSocketClient) : res WebSocketClient :=
  if decide (wm_Type msg = bs "subscribe") then handleSubscribeMessage msg c
  else if decide (wm_Type msg = bs "unsubscribe") then handleUnsubscribeMessage msg c
  else if decide (wm_Type msg = bs "ping") then handlePingMessage msg c
  else Ok c.

(** ** Broadcasts *)
Definition checkClientSubscription (c : WebSocketClient) (messageType : bytes) : bool :=
  bool_decide (messageType ∈ cl_subscriptions c) || bool_decide (messageType = bs "system").

(** What becomes of a client of the map when a message is broadcast: the client
    and whether it stays in the map. *)
Definition handleClientMessage (m : WebSocketMessage) (c : WebSocketClient) : res (WebSocketClient * bool) :=
  if checkClientSubscription c (wm_Type m) then
    r ← try_send m c;
    if r.1 : bool then Ok (r.2, true) else Ok (close_send c, false)
  else Ok (c, true).

(** ** The handler *)

(** [wh_all]: the clients by their connection; [wh_clients]: those in the map
    of the handler; the broadcast channel, of capacity 256. *)
Record WebSocketHandler := MkHandler {
  wh_all : gmap nat WebSocketClient;
  wh_clients : gset nat;
  wh_broadcast : list WebSocketMessage;
  wh_shutdown : bool;
  wh_panicked : bool
}.
Definition NewWebSocketHandler : WebSocketHandler := MkHandler ∅ ∅ [] false false.
Definition with_client (conn : nat) (c : WebSocketClient) (h : WebSocketHandler) : WebSocketHandler :=
  MkHandler (<[conn := c]> (wh_all h)) (wh_clients h) (wh_broadcast h) (wh_shutdown h) (wh_panicked h).
Definition with_broadcast (v : list WebSocketMessage) (h : WebSocketHandler) : WebSocketHandler :=
  MkHandler (wh_all h) (wh_clients h) v (wh_shutdown h) (wh_panicked h).
Definition panic (h : WebSocketHandler) : WebSocketHandler := MkHandler (wh_all h) (wh_clients h) (wh_broadcast h) (wh_shutdown h) true.

(** The first check of [ServeHTTP], and its end, after the upgrade. *)
Definition admits {D} (config : WebSocketConfig) (r : HttpRequest) (s : RpcServer.Server (D := D)) : bool := negb (ws_RequireAuth config) || checkAuth r s.
Definition register_client (conn : nat) (h : WebSocketHandler) : WebSocketHandler :=
  MkHandler (<[conn := NewClient]> (wh_all h)) ({[conn]} ∪ wh_clients h) (wh_broadcast h) (wh_shutdown h) (wh_panicked h).

Definition BroadcastMessage (m : WebSocketMessage) (h : WebSocketHandler) : WebSocketHandler :=
  if decide (length (wh_broadcast h) < chan_capacity)%nat then with_broadcast (wh_broadcast h ++ [m]) h else h.

(** One turn of the loop of [processBroadcastMessage] over the map, which may
    lose the client it visits. *)
Definition broadcast_to (m : WebSocketMessage) (h : WebSocketHandler) (conn : nat) : WebSocketHandler :=
  match wh_all h !! conn with
  | None => h
  | Some c =>
      match handleClientMessage m c with
      | Ok (c, stays) => MkHandler (<[conn := c]> (wh_all h)) (if stays then wh_clients h else wh_clients h ∖ {[conn]}) (wh_broadcast h) (wh_shutdown h) (wh_panicked h)
      | _ => panic h
      end
  end.
Definition processBroadcastMessage (order : list nat) (m : WebSocketMessage) (h : WebSocketHandler) : WebSocketHandler := fold_left (broadcast_to m) order h.

(** The [select] of [removeClient] receives from the send channel: a message
    that is waiting, or at once from a closed channel; only an open and empty
    channel is closed. *)
Definition removeClient (conn : nat) (h : WebSocketHandler) : WebSocketHandler :=
  if decide (conn ∈ wh_clients h) then
    match wh_all h !! conn with
    | Some c =>
        let c := match cl_send c with _ :: rest => with_send rest c | [] => if cl_closed c then c else close_send c end in
        MkHandler (<[conn := c]> (wh_all h)) (wh_clients h ∖ {[conn]}) (wh_broadcast h) (wh_shutdown h) (wh_panicked h)
    | None => h
    end
  else h.

(** The order of the range over the clients does not matter. A channel closed
    twice panics. *)
Definition Close (h : WebSocketHandler) : WebSocketHandler :=
  if wh_shutdown h then panic h
  else
    let closed_already := existsb (fun conn => match wh_all h !! conn with Some c => cl_closed c | None => false end) (elements (wh_clients h)) in
    MkHandler (map_imap (fun conn c => Some (if decide (conn ∈ wh_clients h) then close_send c else c)) (wh_all h)) (wh_clients h) (wh_broadcast h) true
      (wh_panicked h || closed_already).
Definition GetConnectedClients (h : WebSocketHandler) : Z := Z.of_nat (size (wh_clients h)).

(** ** Statistics *)
Definition resolveTorrentName (mi : option TorrentFile.MetaInfo) (torrentID : Z) : bytes :=
  match mi with
  | Some mi => match TorrentFile.mi_Info mi with Ok info => Metainfo.i_Name info | _ => bs "Torrent " ++ Strconv.FormatInt torrentID end
  | None => bs "Torrent " ++ Strconv.FormatInt torrentID
  end.
Record torrent_data := MkTorrentData {
  td_id : Z; td_name : bytes; td_status : Z; td_percentDone : Bandwidth.float; td_rateDownload : Z; td_rateUpload : Z; td_eta : Z; td_peersConnected : Z;
  td_downloaded : Z; td_uploaded : Z; td_left : Z
}.
Definition extractTorrentData (t : TorrentState) : torrent_data :=
  MkTorrentData (t_ID t) (resolveTorrentName (t_MetaInfo t) (t_ID t)) (t_Status t) (t_PercentDone t) (t_DownloadRate t) (t_UploadRate t) (t_ETA t)
    (t_PeerConnectedCount t) (t_Downloaded t) (t_Uploaded t) (t_Left t).
Definition convertTorrentsToData (torrents : list TorrentState) : list torrent_data := map extractTorrentData torrents.
Definition broadcastTorrentStats (data : list torrent_data -> X) (torrents : list TorrentState) (h : WebSocketHandler) : WebSocketHandler :=
  BroadcastMessage (MkMessage (bs "torrent-stats") (DOther (data (convertTorrentsToData torrents))) []) h.
Definition broadcastSessionStats (data : server_stats -> X) (stats : server_stats) (h : WebSocketHandler) : WebSocketHandler :=
  BroadcastMessage (MkMessage (bs "session-stats") (DOther (data stats)) []) h.

(** ** Goroutines *)

(** A message of the client, and the end of its connection. *)
Inductive handleClient (conn : nat) (h : WebSocketHandler) : WebSocketHandler -> Prop :=
  | reads c msg : wh_all h !! conn = Some c -> cl_reader c = true ->
      handleClient conn h (match processClientMessage msg c with Ok c' => with_client conn c' h | _ => panic h end)
  | read_fails c : wh_all h !! conn = Some c -> cl_reader c = true ->
      handleClient conn h (removeClient conn (with_client conn (MkClient (cl_subscriptions c) (cl_send c) (cl_closed c) (cl_written c) false (cl_writer c)) h)).

(** A message is written or cannot be; the last: the channel is closed and
    empty, or a ping cannot be written. *)
Inductive processClientMessages (conn : nat) (h : WebSocketHandler) : WebSocketHandler -> Prop :=
  | writes c m rest : wh_all h !! conn = Some c -> cl_writer c = true -> cl_send c = m :: rest ->
      processClientMessages conn h (with_client conn (MkClient (cl_subscriptions c) rest (cl_closed c) (cl_written c ++ [m]) (cl_reader c) true) h)
  | write_fails c m rest : wh_all h !! conn = Some c -> cl_writer c = true -> cl_send c = m :: rest ->
      processClientMessages conn h (with_client conn (MkClient (cl_subscriptions c) rest (cl_closed c) (cl_written c) (cl_reader c) false) h)
  | writer_ends c : wh_all h !! conn = Some c -> cl_writer c = true ->
      processClientMessages conn h (with_client conn (MkClient (cl_subscriptions c) (cl_send c) (cl_closed c) (cl_written c) (cl_reader c) false) h).

Inductive handleBroadcast (h : WebSocketHandler) : WebSocketHandler -> Prop :=
  | broadcasts m rest order : wh_broadcast h = m :: rest -> order ≡ₚ elements (wh_clients h) ->
      handleBroadcast h (processBroadcastMessage order m (with_broadcast rest h)).

(** [step_publish] is [BroadcastMessage] and the two broadcasts of
    [periodicUpdates]. *)
Inductive step : WebSocketHandler -> WebSocketHandler -> Prop :=
  | step_connect conn h : wh_all h !! conn = None -> step h (register_client conn h)
  | step_reader conn h h' : handleClient conn h h' -> step h h'
  | step_writer conn h h' : processClientMessages conn h h' -> step h h'
  | step_publish m h : step h (BroadcastMessage m h)
  | step_broadcaster h h' : handleBroadcast h h' -> step h h'
  | step_close h : step h (Close h).

End WebSocket.
End WebSocket.

(** * Websockets: what a broadcast reaches

    The clients in the map have open channels until the handler is closed, so
    that a broadcast reaches exactly the subscribed ones; a client that was
    dropped can end the program. *)

Import WebSocket.

Module WebSocketFacts.

Section Facts.
Context {X : Type}.
Abbreviation Handler := (WebSocketHandler (X := X)).
Abbreviation Client := (WebSocketClient (X := X)).
Abbreviation Message := (WebSocketMessage (X := X)).

(** ** Invariant *)
Record handler_ok (h : Handler) : Prop := {
  ho_known : forall conn, conn ∈ wh_clients h -> is_Some (wh_all h !! conn);
  ho_open : wh_shutdown h = false -> forall conn c, conn ∈ wh_clients h -> wh_all h !! conn = Some c -> cl_closed c = false;
  ho_room : forall conn c, wh_all h !! conn = Some c -> (length (cl_send c) <= chan_capacity)%nat;
  ho_broadcast : (length (wh_broadcast h) <= chan_capacity)%nat
}.

(** What a client may turn into: its channel is not reopened and stays within
    its bound, and one that is not closed is not closed by the way. *)
Definition evolves (c c' : Client) : Prop := cl_closed c' = cl_closed c /\ ((length (cl_send c) <= chan_capacity)%nat -> (length (cl_send c') <= chan_capacity)%nat).

Lemma client_update_ok conn c c' (h : Handler) : wh_all h !! conn = Some c -> evolves c c' -> handler_ok h -> handler_ok (with_client conn c' h).
Proof.
  intros Hc [E1 E2] [H1 H2 H3 H4]. split; cbn; [| | |done].
  - intros i Hi. destruct (decide (conn = i)) as [->|Hn]; [rewrite lookup_insert_eq; by eauto|rewrite lookup_insert_ne by done; by apply H1].
  - intros Hs i d Hi. destruct (decide (conn = i)) as [->|Hn].
    + rewrite lookup_insert_eq. intros [= <-]. rewrite E1. by apply (H2 Hs i).
    + rewrite lookup_insert_ne by done. by apply H2.
  - intros i d. destruct (decide (conn = i)) as [->|Hn]; [rewrite lookup_insert_eq; intros [= <-]; apply E2; by apply (H3 i)|].
    rewrite lookup_insert_ne by done. apply H3.
Qed.
Lemma panic_ok (h : Handler) : handler_ok h -> handler_ok (panic h).
Proof. by intros [H1 H2 H3 H4]. Qed.
Lemma send_evolves (m : Message) c b c' : try_send m c = Ok (b, c') -> evolves c c' /\ cl_closed c = false.
Proof.
  unfold try_send. destruct (cl_closed c) eqn:E; [done|]. case_decide as Hl; intros [= <- <-]; (split; [|done]); (split; [by rewrite ?E|]); cbn; [|done].
  rewrite length_app. cbn. lia.
Qed.
Lemma message_evolves (msg : Message) c c' : processClientMessage msg c = Ok c' -> evolves c c'.
Proof.
  assert (Hr : forall (m : Message) c1, cl_closed c1 = cl_closed c -> cl_send c1 = cl_send c -> forall c2, sendResponseToClient m c1 = Ok c2 -> evolves c c2).
  { intros m c1 E1 E2 c2. unfold sendResponseToClient. destruct (try_send m c1) as [[b c3]| | |] eqn:Es; [|done..]. intros [= <-].
    destruct (send_evolves m c1 b c3 Es) as [[F1 F2] _]. split; [by rewrite F1|by rewrite <- E2]. }
  unfold processClientMessage, handleSubscribeMessage, handleUnsubscribeMessage, handlePingMessage, sendSubscriptionResponse.
  repeat case_decide; [destruct (wm_Data msg)|destruct (wm_Data msg)| |]; try (intros [= <-]; done); by apply Hr.
Qed.

(** Dropping a client from the map, whatever becomes of it. *)
Lemma drop_ok conn c' (h : Handler) : (length (cl_send c') <= chan_capacity)%nat -> handler_ok h ->
  handler_ok (MkHandler (<[conn := c']> (wh_all h)) (wh_clients h ∖ {[conn]}) (wh_broadcast h) (wh_shutdown h) (wh_panicked h)).
Proof.
  intros Hl [H1 H2 H3 H4]. split; cbn; [| | |done].
  - intros i [Hi Hn]%elem_of_difference. rewrite lookup_insert_ne by set_solver. by apply H1.
  - intros Hs i d [Hi Hn]%elem_of_difference. rewrite lookup_insert_ne by set_solver. by apply H2.
  - intros i d. destruct (decide (conn = i)) as [->|Hn]; [rewrite lookup_insert_eq; by intros [= <-]|]. rewrite lookup_insert_ne by done. apply H3.
Qed.
Lemma broadcast_to_ok (m : Message) conn (h : Handler) : handler_ok h -> handler_ok (broadcast_to m h conn).
Proof.
  intros Hok. unfold broadcast_to. destruct (wh_all h !! conn) as [c|] eqn:Ec; [|done]. unfold handleClientMessage.
  destruct (checkClientSubscription c (wm_Type m)); [|exact (client_update_ok conn c c h Ec (conj eq_refl (fun H => H)) Hok)].
  destruct (try_send m c) as [[[] c']| | |] eqn:Es; cbn; try (by apply panic_ok).
  - apply (client_update_ok conn c c'); [done|by apply (send_evolves m c true)|done].
  - apply drop_ok; [exact (ho_room h Hok conn c Ec)|done].
Qed.
Lemma remove_client_ok conn (h : Handler) : handler_ok h -> handler_ok (removeClient conn h).
Proof.
  intros Hok. unfold removeClient. case_decide; [|done]. destruct (wh_all h !! conn) as [c|] eqn:Ec; [|done]. apply drop_ok; [|done].
  pose proof (ho_room h Hok conn c Ec). destruct (cl_send c) eqn:E; [destruct (cl_closed c)|]; cbn; rewrite ?E; cbn in *; lia.
Qed.
Lemma close_ok (h : Handler) : handler_ok h -> handler_ok (Close h).
Proof.
  intros Hok. unfold Close. destruct (wh_shutdown h); [by apply panic_ok|]. destruct Hok as [H1 H2 H3 H4].
  split; cbn; [|done| |done].
  - intros conn [c Hc]%H1. rewrite map_lookup_imap, Hc. cbn. by eauto.
  - intros conn c. rewrite map_lookup_imap. destruct (wh_all h !! conn) as [c0|] eqn:Ec; cbn; [|done]. intros [= <-].
    destruct (decide (conn ∈ wh_clients h)); exact (H3 conn c0 Ec).
Qed.

Lemma connect_ok conn (h : Handler) : wh_all h !! conn = None -> handler_ok h -> handler_ok (register_client conn h).
Proof.
  intros Hn [H1 H2 H3 H4]. split; cbn; [| | |done].
  - intros i Hi. destruct (decide (conn = i)) as [->|Hne]; [rewrite lookup_insert_eq; by eauto|]. rewrite lookup_insert_ne by done. apply H1. set_solver.
  - intros Hs i c Hi. destruct (decide (conn = i)) as [->|Hne]; [rewrite lookup_insert_eq; by intros [= <-]|].
    rewrite lookup_insert_ne by done. apply H2; [done|set_solver].
  - intros i c. destruct (decide (conn = i)) as [->|Hne]; [rewrite lookup_insert_eq; intros [= <-]; cbn; lia|]. rewrite lookup_insert_ne by done. apply H3.
Qed.
Lemma broadcast_ok order (m : Message) (h : Handler) : handler_ok h -> handler_ok (processBroadcastMessage order m h).
Proof. unfold processBroadcastMessage. revert h. induction order as [|conn order IH]; intros h Hok; cbn; [done|]. by apply IH, broadcast_to_ok. Qed.
Lemma reader_ok conn (h h' : Handler) : handleClient conn h h' -> handler_ok h -> handler_ok h'.
Proof.
  intros [c msg Hc _|c Hc _] Hok.
  - destruct (processClientMessage msg c) as [c'| | |] eqn:E; try (by apply panic_ok). apply (client_update_ok conn c c'); [done|by apply (message_evolves msg)|done].
  - apply remove_client_ok. by apply (client_update_ok conn c).
Qed.
Lemma writer_ok conn (h h' : Handler) : processClientMessages conn h h' -> handler_ok h -> handler_ok h'.
Proof.
  intros [c m rest Hc _ Hm|c m rest Hc _ Hm|c Hc _] Hok; (apply (client_update_ok conn c); [done| |done]); (split; [done|]); cbn; rewrite ?Hm; cbn; lia.
Qed.
Lemma handler_step_ok (h h' : Handler) : step h h' -> handler_ok h -> handler_ok h'.
Proof.
  intros Hs Hok. destruct Hs as [conn h Hn|conn h h' Hr|conn h h' Hw|m h|h h' [m rest order Hb _]|h].
  - by apply connect_ok.
  - by apply (reader_ok conn h).
  - by apply (writer_ok conn h).
  - unfold BroadcastMessage. case_decide; [|done]. destruct Hok as [H1 H2 H3 H4]. split; cbn; try done. rewrite length_app. cbn. lia.
  - apply broadcast_ok. destruct Hok as [H1 H2 H3 H4]; split; cbn; try done. rewrite Hb in H4. cbn in H4. lia.
  - by apply close_ok.
Qed.
Lemma handler_reachable_ok (h : Handler) : rtc step NewWebSocketHandler h -> handler_ok h.
Proof.
  apply (rtc_ind_r handler_ok); [|intros h1 h2 _ Hs Hok; by apply (handler_step_ok h1)].
  split; cbn; [set_solver|set_solver| |lia]. intros conn c. by rewrite lookup_empty.
Qed.

(** ** Broadcasts *)

(** What a broadcast makes of a client in the map. *)
Definition told (m : Message) (c : Client) : Client * bool :=
  if checkClientSubscription c (wm_Type m) then
    if decide (length (cl_send c) < chan_capacity)%nat then (with_send (cl_send c ++ [m]) c, true) else (close_send c, false)
  else (c, true).

Lemma broadcast_one (m : Message) conn c (h : Handler) :
  wh_all h !! conn = Some c -> cl_closed c = false ->
  broadcast_to m h conn =
  MkHandler (<[conn := (told m c).1]> (wh_all h)) (if (told m c).2 then wh_clients h else wh_clients h ∖ {[conn]}) (wh_broadcast h) (wh_shutdown h) (wh_panicked h).
Proof.
  intros Hc Hcl. unfold broadcast_to, handleClientMessage, told, try_send. rewrite Hc, Hcl. destruct (checkClientSubscription c (wm_Type m)); [|done].
  case_decide; done.
Qed.
Lemma broadcast_all (m : Message) order (h : Handler) :
  NoDup order -> (forall conn, conn ∈ order -> exists c, wh_all h !! conn = Some c /\ cl_closed c = false) ->
  let h' := processBroadcastMessage order m h in
  wh_panicked h' = wh_panicked h /\
  forall conn, wh_all h' !! conn = (if decide (conn ∈ order) then (fun c => (told m c).1) <$> wh_all h !! conn else wh_all h !! conn) /\
    (conn ∈ wh_clients h' <-> conn ∈ wh_clients h /\ forall c, conn ∈ order -> wh_all h !! conn = Some c -> (told m c).2 = true).
Proof.
  cbv zeta. unfold processBroadcastMessage. revert h. induction order as [|i order IH]; intros h; cbn [fold_left].
  - intros _ _. split; [done|]. intros conn. rewrite decide_False by apply not_elem_of_nil. split; [done|]. set_solver.
  - intros [Hi Hd]%NoDup_cons Hall. destruct (Hall i ltac:(apply list_elem_of_here)) as (c & Hc & Hcl).
    rewrite (broadcast_one m i c) by done. set (h1 := MkHandler _ _ _ _ _).
    assert (Hother : forall conn, conn <> i -> wh_all h1 !! conn = wh_all h !! conn) by (intros conn Hn; by apply lookup_insert_ne).
    destruct (IH h1 Hd) as [P1 P2].
    { intros conn Hin. assert (conn <> i) by (intros ->; done). rewrite Hother by done. apply Hall. by apply list_elem_of_further. }
    split; [done|]. intros conn. destruct (P2 conn) as [Q1 Q2]. destruct (decide (conn = i)) as [->|Hn].
    + rewrite decide_False in Q1 by done. rewrite decide_True by apply list_elem_of_here. split; [rewrite Q1; cbn; by rewrite lookup_insert_eq, Hc|].
      rewrite Q2. cbn. split.
      * intros [Hin _]. destruct (told m c).2 eqn:Et; [|set_solver]. split; [done|]. intros c' _ Hc'. congruence.
      * intros [Hin Ht]. rewrite (Ht c ltac:(apply list_elem_of_here) Hc). split; [done|]. intros c' Hin'. done.
    + rewrite Q1, Q2, !Hother by done. split; [destruct (decide (conn ∈ order)), (decide (conn ∈ i :: order)); try done; set_solver|].
      cbn. destruct (told m c).2; set_solver.
Qed.

(** C25: in every state the handler can reach before it is closed, a broadcast,
    whatever the order of the clients, appends the message to the channel of
    every subscribed client (of every client for a system message) that has
    room, closes and drops the subscribed ones whose channel of 256 is full, and
    leaves all others as they are; it does not panic. *)
Theorem broadcast_delivers (h : Handler) (m : Message) order :
  rtc step NewWebSocketHandler h -> wh_shutdown h = false -> order ≡ₚ elements (wh_clients h) ->
  let h' := processBroadcastMessage order m h in
  wh_panicked h' = wh_panicked h /\
  forall conn c, wh_all h !! conn = Some c ->
    if decide (conn ∈ wh_clients h) then wh_all h' !! conn = Some (told m c).1 /\ (conn ∈ wh_clients h' <-> (told m c).2 = true)
    else wh_all h' !! conn = Some c /\ conn ∉ wh_clients h'.
Proof.
  intros Hr Hs Ho. cbv zeta. pose proof (handler_reachable_ok h Hr) as [H1 H2 _ _].
  assert (Hin : forall conn, conn ∈ order <-> conn ∈ wh_clients h) by (intros; rewrite Ho; apply elem_of_elements).
  destruct (broadcast_all m order h) as [P1 P2].
  { rewrite Ho. apply NoDup_elements. }
  { intros conn Hc%Hin. destruct (H1 conn Hc) as [c Ec]. exists c. split; [done|]. by apply (H2 Hs conn). }
  split; [done|]. intros conn c Hc. destruct (P2 conn) as [Q1 Q2]. rewrite Hc in *. destruct (decide (conn ∈ wh_clients h)) as [Hm|Hm].
  - rewrite decide_True in Q1 by (by apply Hin). split; [done|]. rewrite Q2. split; [intros [_ Ht]; apply Ht; [by apply Hin|done]|].
    intros Ht. split; [done|]. intros c' _ [= <-]. done.
  - rewrite decide_False in Q1 by (by rewrite Hin). split; [done|]. rewrite Q2. tauto.
Qed.

(** ** What ends the program *)

(** A subscribed client whose channel is full is dropped with its channel
    closed, but its reader goes on: the next subscription or ping from it sends
    on the closed channel. *)
Theorem dropped_client_panics (h : Handler) (m : Message) (conn : nat) (c : Client) (msgID : bytes) :
  wh_all h !! conn = Some c -> cl_closed c = false -> cl_reader c = true ->
  checkClientSubscription c (wm_Type m) = true -> length (cl_send c) = chan_capacity ->
  let h' := broadcast_to m h conn in
  (conn ∉ wh_clients h') /\ exists h'', step h' h'' /\ wh_panicked h'' = true.
Proof.
  intros Hc Hcl Hr Hs Hl. cbv zeta. rewrite (broadcast_one m conn c) by done.
  unfold told. rewrite Hs, decide_False by lia. cbn. split; [set_solver|].
  eexists. split; [apply (step_reader conn), (reads conn _ (close_send c) (MkMessage (bs "ping") DNone msgID)); cbn; [by rewrite lookup_insert_eq|done]|]. done.
Qed.

(** A connection that ends while a message waits to be written loses that
    message, and its channel is never closed; otherwise the channel is closed. *)
Theorem remove_client_channel (h : Handler) (conn : nat) (c : Client) :
  conn ∈ wh_clients h -> wh_all h !! conn = Some c -> cl_closed c = false ->
  let h' := removeClient conn h in
  (conn ∉ wh_clients h') /\ exists c', wh_all h' !! conn = Some c' /\ cl_closed c' = bool_decide (cl_send c = []) /\ cl_send c' = tail (cl_send c) /\ cl_written c' = cl_written c.
Proof.
  intros Hin Hc Hcl. cbv zeta. unfold removeClient. rewrite decide_True by done. rewrite Hc.
  split; [cbn; set_solver|]. cbn. rewrite lookup_insert_eq. eexists. split; [done|].
  destruct (cl_send c) as [|m rest] eqn:E; [rewrite Hcl|]; cbn; by rewrite ?E.
Qed.

(** A handler that is closed once closes every channel and does not panic;
    closed again it panics. *)
Theorem close_handler (h : Handler) :
  handler_ok h -> wh_shutdown h = false -> wh_panicked h = false ->
  wh_panicked (Close h) = false /\ wh_panicked (Close (Close h)) = true /\
  forall conn, conn ∈ wh_clients (Close h) -> exists c, wh_all (Close h) !! conn = Some c /\ cl_closed c = true.
Proof.
  intros [H1 H2 _ _] Hs Hp. assert (Hc : Close (Close h) = panic (Close h)) by (unfold Close at 1; unfold Close at 1; by rewrite Hs).
  rewrite Hc. unfold Close. rewrite Hs. cbn. rewrite Hp. cbn. split; [|split; [done|]].
  - apply not_true_iff_false. rewrite existsb_exists. intros (conn & Hin & Hb). apply list_elem_of_In, elem_of_elements in Hin.
    destruct (wh_all h !! conn) as [c|] eqn:Ec; [|done]. by rewrite (H2 Hs conn c Hin Ec) in Hb.
  - intros conn Hin. destruct (H1 conn Hin) as [c Ec]. exists (close_send c). rewrite map_lookup_imap, Ec. cbn. by rewrite decide_True.
Qed.

End Facts.

(** A connected client receives a system message. *)
Lemma broadcast_delivers_witness :
  let h := register_client 0%nat (NewWebSocketHandler (X := unit)) in
  let h' := processBroadcastMessage [0%nat] (MkMessage (bs "system") DNone []) h in
  wh_panicked h' = false /\ (cl_send <$> wh_all h' !! 0%nat) = Some [MkMessage (bs "system") DNone []] /\ 0%nat ∈ wh_clients h'.
Proof.
  cbv zeta.
  assert (Ho : [0%nat] ≡ₚ elements (wh_clients (register_client 0%nat (NewWebSocketHandler (X := unit))))) by reflexivity.
  destruct (broadcast_delivers (register_client 0%nat (NewWebSocketHandler (X := unit))) (MkMessage (bs "system") DNone []) [0%nat]
    (rtc_once _ _ (step_connect 0%nat NewWebSocketHandler eq_refl)) eq_refl Ho) as [P1 P2].
  split; [exact P1|]. destruct (P2 0%nat NewClient eq_refl) as [Q1 Q2]. split; [by rewrite Q1|]. by apply Q2.
Defined.

End WebSocketFacts.
