(* ===== verification/TorrentManagerFacts.v ===== *)
(** * What the torrent manager guarantees

    The invariant of the torrents over every history of calls, answers and
    goroutines in any order; what adding, verifying and peer discovery do; and
    behaviours of the daemon that its parts explain only together. *)

From Stdlib Require Import SpecFloat.
From S2P Require Import Prelude Strconv Bencode BencodeFacts BencodeTyped Extension Sha1 Hash Metainfo MetainfoFacts Storage Net Address Krpc GoLib QueueManager QueueFacts Blocklist Bandwidth PexManager Downloader Url Magnet TorrentFile WebSeed RpcTypes TorrentManager.
Import Strconv Hash MetainfoFacts Net GoLib RpcTypes TorrentManager.

Module TorrentManagerFacts.

#[local] Arguments TorrentFile.mi_Info : simpl never.
#[local] Arguments torrent_at : simpl never.

(** ** Files of a torrent *)
Definition named (f : FileInfo) : bytes * Z := (fi_Name f, fi_Length f).
Definition names_of (info : Metainfo.Info) : list (bytes * Z) := map (fun f => (Metainfo.File_Path f info, Metainfo.f_Length f)) (Metainfo.i_Files info).

Record torrent_ok (t : TorrentState) : Prop := {
  ok_priorities : length (t_Priorities t) = length (t_Files t);
  ok_wanted : length (t_Wanted t) = length (t_Files t);
  ok_peers : NoDup (map info_key (t_Peers t));
  ok_meta : forall mi, t_MetaInfo t = Some mi -> exists rest, Sha1.Sum (default [] (TorrentFile.InfoBytes mi) ++ rest) = t_InfoHash t;
  ok_files : forall mi info, t_MetaInfo t = Some mi -> TorrentFile.mi_Info mi = Ok info -> map named (t_Files t) = names_of info
}.

Lemma take_S_insert {A} (l : list A) i x : (i < length l)%nat -> take (S i) (<[i := x]> l) = take i l ++ [x].
Proof. intros Hi. rewrite (take_S_r _ i x) by (by apply list_lookup_insert_eq). by rewrite take_insert_ge by lia. Qed.

Lemma populate_spec info files : forall i t, length (t_Files t) = (i + length files)%nat ->
  length (t_Priorities t) = (i + length files)%nat -> length (t_Wanted t) = (i + length files)%nat ->
  populate info i files t =
  set_FileArrays (take i (t_Files t) ++ map (file_info info) files) (take i (t_Priorities t) ++ replicate (length files) 0)
    (take i (t_Wanted t) ++ replicate (length files) true) t.
Proof.
  induction files as [|f files IH]; intros i t Hf Hp Hw; cbn [populate length map replicate] in *.
  - rewrite !app_nil_r, !firstn_all2 by lia. by destruct t.
  - rewrite IH by (cbn [set_FileArrays t_Files t_Priorities t_Wanted]; rewrite ?length_insert; lia).
    cbn [set_FileArrays t_Files t_Priorities t_Wanted]. unfold set_FileArrays. cbn.
    f_equal; rewrite take_S_insert by lia; by rewrite <- app_assoc.
Qed.

Lemma populated info t :
  populateFileInfo info (setupFileArrays info t) =
  set_FileArrays (map (file_info info) (Metainfo.i_Files info)) (replicate (length (Metainfo.i_Files info)) 0)
    (replicate (length (Metainfo.i_Files info)) true) t.
Proof. unfold populateFileInfo, setupFileArrays. rewrite populate_spec by (cbn; by rewrite length_replicate). done. Qed.

Lemma named_file_info info files : map named (map (file_info info) files) = map (fun f => (Metainfo.File_Path f info, Metainfo.f_Length f)) files.
Proof. by rewrite map_map. Qed.

Lemma file_completion_named files : forall i off n fs, map named (file_completion i files off n fs) = map named fs.
Proof.
  induction files as [|f files IH]; intros i off n fs; cbn [file_completion]; [done|]. rewrite IH.
  revert i. induction fs as [|x fs IHfs]; intros [|i]; cbn; [done..|]. f_equal. apply IHfs.
Qed.

Lemma file_completion_length files i off n fs : length (file_completion i files off n fs) = length fs.
Proof. rewrite <- (length_map named), file_completion_named. apply length_map. Qed.

(** ** Peers *)
Section Peers.
Context {I : Type} `{I2PKeys I}.
Abbreviation Address := (Address.Address (I := I)).

Lemma new_peers_nodup bm peers : forall keys ps, new_peers bm peers keys = Ok ps ->
  NoDup (map info_key ps) /\ Forall (fun p => info_key p ∉ keys) ps.
Proof.
  induction peers as [|p peers IH]; intros keys ps E; cbn [new_peers] in E; [injection E as <-; split; constructor|].
  destruct (Address.IP_text p) as [ip| | |] eqn:Eip; try discriminate. rewrite bind_Ok in E.
  destruct (Blocklist.IsBlocked ip bm); [by apply IH|]. case_decide as Hk; [by apply IH|].
  destruct (new_peers bm peers _) as [rest| | |] eqn:Er; try discriminate. injection E as <-. destruct (IH _ _ Er) as [H1 H2]. split.
  - cbn [map]. constructor; [|done]. intros (q & Hq & Hin)%list_elem_of_fmap. rewrite Forall_forall in H2.
    apply (H2 q Hin). rewrite <- Hq. unfold info_key. cbn. set_solver.
  - constructor; [exact Hk|]. eapply Forall_impl; [exact H2|]. cbn. set_solver.
Qed.

Lemma merge_peers_nodup old new : NoDup (map info_key old) -> NoDup (map info_key new) -> NoDup (map info_key (merge_peers old new)).
Proof.
  intros Ho Hn. unfold merge_peers. rewrite map_app. apply NoDup_app. split; [done|]. split.
  - intros k Hk (p & -> & Hp)%list_elem_of_fmap. apply list_elem_of_filter in Hp as [Hp _]. by apply Hp.
  - clear Ho. induction new as [|p new IH]; [constructor|]. cbn [map] in Hn. apply NoDup_cons in Hn as [Hp Hn].
    rewrite filter_cons. case_decide; [|by apply IH]. cbn [map]. constructor; [|by apply IH].
    intros (q & Hq & Hin)%list_elem_of_fmap. apply list_elem_of_filter in Hin as [_ Hin]. apply Hp. apply list_elem_of_fmap. by exists q.
Qed.
End Peers.

(** ** Histories *)
Section History.
Context {I : Type} `{I2PKeys I} `{SortSlice} `{MapRange} {OS : Type} `{OperatingSystem OS}.
Context (parseAuthority : bytes -> res bytes) (maxParams : option Z) (DestHashFromBytes : bytes -> res bytes).
Context (wild : Bandwidth.float -> Z) (refresh : Blocklist.BlocklistManager -> Blocklist.BlocklistManager).
Abbreviation TM := (TorrentManager (I := I)).

(** What can happen to the daemon. [ORun] runs the pending goroutine of that
    number, with the files there are at that moment. *)
Inductive op :=
  | OAdd (now : Z) (req : TorrentAddRequest)
  | OStart (now id : Z)
  | OStartNow (now id : Z)
  | OStop (id : Z)
  | ORemove (id : Z)
  | OVerify (id : Z)
  | OSetPosition (id position : Z)
  | OSession (now : Z) (c : SessionConfiguration) (os : OS)
  | OSchedule (now downloadLimit uploadLimit : Z)
  | OQueues (start processingTime : Z)
  | OStats (now : Z)
  | OResponse (response : Downloader.TorrentResponse)
  | ODHT (l : loc) (result : DHTResult (I := I))
  | OPEXPeer (now id : Z) (ip : bytes) (port flags : Z)
  | OPEXMessage (now id : Z) (data : bytes)
  | OWebSeed (id : Z) (url seedType : bytes)
  | ORun (i : nat) (fs : Storage.FS).

(** The state after a call, unless it panicked. *)
Definition unless_panic {A} (r : res A * TM) : res TM :=
  match r with (Panic p, _) => Panic p | (_, tm) => Ok tm end.

Definition step (o : op) (tm : TM) : res TM :=
  match o with
  | OAdd now req => unless_panic (AddTorrent parseAuthority maxParams now req tm)
  | OStart now id => unless_panic (StartTorrent now id tm)
  | OStartNow now id => unless_panic (StartTorrentNow now id tm)
  | OStop id => unless_panic (StopTorrent id tm)
  | ORemove id => unless_panic (RemoveTorrent id tm)
  | OVerify id => unless_panic (VerifyTorrent id tm)
  | OSetPosition id position => unless_panic (SetTorrentQueuePosition id position tm)
  | OSession now c os => unless_panic (UpdateSessionConfig wild now c os tm).1
  | OSchedule now d u => Ok (schedule_changed wild now d u tm)
  | OQueues start t => Ok (process_queues start t tm)
  | OStats now => updateStats wild now tm
  | OResponse r => handleDownloaderResponse r tm
  | ODHT l r => handleDHTResult l r tm
  | OPEXPeer now id ip port flags => AddPEXPeer now id ip port flags tm
  | OPEXMessage now id data => match ProcessPEXMessage DestHashFromBytes now id data tm with Err _ => Ok tm | r => r end
  | OWebSeed id url t => unless_panic (AddWebSeed parseAuthority id url t tm)
  | ORun i fs =>
      match tm_tasks tm !! i with
      | Some t => run_task fs refresh t (with_tasks (delete i (tm_tasks tm)) tm)
      | None => Ok tm
      end
  end.

Fixpoint run (ops : list op) (tm : TM) : res TM := match ops with [] => Ok tm | o :: ops' => tm ← step o tm; run ops' tm end.

(** ** The invariant *)
Record tm_ok (n : Z) (tm : TM) : Prop := {
  ok_loc : forall id l, tm_torrents tm !! id = Some l -> exists t, tm_heap tm !! l = Some t /\ t_ID t = id;
  ok_ids : NoDup (map t_ID (tm_heap tm));
  ok_fresh : Forall (fun t => 1 <= t_ID t < tm_nextID tm) (tm_heap tm);
  ok_hash : forall id id' l l', tm_torrents tm !! id = Some l -> tm_torrents tm !! id' = Some l' ->
    t_InfoHash (torrent_at l tm) = t_InfoHash (torrent_at l' tm) -> id = id';
  ok_count : Z.of_nat (size (tm_torrents tm)) <= Z.max 0 (c_MaxTorrents (tm_config tm));
  ok_each : Forall torrent_ok (tm_heap tm);
  ok_next : 1 <= tm_nextID tm <= 1 + n
}.

(** What an assignment to fields of a torrent may change. *)
Definition keeps (t t' : TorrentState) : Prop := t_ID t' = t_ID t /\ t_InfoHash t' = t_InfoHash t /\ (torrent_ok t -> torrent_ok t').

Lemma tm_ok_same n tm tm' : tm_heap tm' = tm_heap tm -> tm_torrents tm' = tm_torrents tm -> tm_nextID tm' = tm_nextID tm ->
  c_MaxTorrents (tm_config tm') = c_MaxTorrents (tm_config tm) -> tm_ok n tm -> tm_ok n tm'.
Proof. intros E1 E2 E3 E4 [P1 P2 P3 P4 P5 P6 P7]. unfold torrent_at in *. split; unfold torrent_at; rewrite ?E1, ?E2, ?E3, ?E4; done. Qed.

Lemma Forall_alter {A} (P : A -> Prop) f l i : Forall P l -> (forall x, l !! i = Some x -> P x -> P (f x)) -> Forall P (alter f i l).
Proof.
  intros Hl Hf. apply Forall_lookup. intros j x Hj. rewrite Forall_lookup in Hl. destruct (decide (i = j)) as [<-|Hne].
  - rewrite list_lookup_alter_eq in Hj. destruct (l !! i) as [y|] eqn:Ey; [|done]. injection Hj as <-. by apply Hf, (Hl i).
  - rewrite list_lookup_alter_ne in Hj by done. by apply (Hl j).
Qed.

Lemma map_alter {A B} (g : A -> B) f (l : list A) i : (forall x, l !! i = Some x -> g (f x) = g x) -> map g (alter f i l) = map g l.
Proof.
  revert i. induction l as [|x l IH]; intros [|i] Hf; cbn; [done..| |]; f_equal; [by apply Hf|]. apply (IH i). intros y Hy. by apply Hf.
Qed.

Lemma torrent_at_update l f l' (tm : TM) : (forall t, tm_heap tm !! l = Some t -> t_InfoHash (f t) = t_InfoHash t) ->
  t_InfoHash (torrent_at l' (update_torrent l f tm)) = t_InfoHash (torrent_at l' tm).
Proof.
  intros Hf. unfold torrent_at. cbn. destruct (decide (l = l')) as [<-|Hne]; [|by rewrite list_lookup_alter_ne].
  rewrite list_lookup_alter_eq. destruct (tm_heap tm !! l) as [t|] eqn:E; [|done]. cbn. by apply Hf.
Qed.

Lemma assignment_ok n l f (tm : TM) : (forall t, tm_heap tm !! l = Some t -> keeps t (f t)) -> tm_ok n tm -> tm_ok n (update_torrent l f tm).
Proof.
  intros Hf [P1 P2 P3 P4 P5 P6 P7]. assert (Hids : map t_ID (alter f l (tm_heap tm)) = map t_ID (tm_heap tm)).
  { apply map_alter. intros t Ht. by destruct (Hf t Ht). }
  split; cbn; try done.
  - intros id l' (t & Ht & Hid)%P1. destruct (decide (l = l')) as [<-|Hne].
    + exists (f t). rewrite list_lookup_alter_eq, Ht. split; [done|]. by destruct (Hf t Ht) as [-> _].
    + exists t. by rewrite list_lookup_alter_ne.
  - by rewrite Hids.
  - apply Forall_alter; [done|]. intros t Ht Hb. by destruct (Hf t Ht) as [-> _].
  - intros id id' la lb Ha Hb. rewrite !torrent_at_update by (intros t Ht; by destruct (Hf t Ht) as (_ & -> & _)). by apply P4.
  - apply Forall_alter; [done|]. intros t Ht. by destruct (Hf t Ht) as (_ & _ & Hk).
Qed.

(** Assignments to fields the invariant does not speak of. *)
Lemma keeps_plain t t' : t_ID t' = t_ID t -> t_InfoHash t' = t_InfoHash t -> t_MetaInfo t' = t_MetaInfo t -> t_Peers t' = t_Peers t ->
  t_Files t' = t_Files t -> t_Priorities t' = t_Priorities t -> t_Wanted t' = t_Wanted t -> keeps t t'.
Proof. intros E1 E2 E3 E4 E5 E6 E7. split; [done|split; [done|]]. intros [? ? ? ? ?]. split; rewrite ?E2, ?E3, ?E4, ?E5, ?E6, ?E7; done. Qed.

Lemma update_plain n l f (tm : TM) :
  (forall t, t_ID (f t) = t_ID t /\ t_InfoHash (f t) = t_InfoHash t /\ t_MetaInfo (f t) = t_MetaInfo t /\ t_Peers (f t) = t_Peers t /\
     t_Files (f t) = t_Files t /\ t_Priorities (f t) = t_Priorities t /\ t_Wanted (f t) = t_Wanted t) ->
  tm_ok n tm -> tm_ok n (update_torrent l f tm).
Proof. intros Hf. apply assignment_ok. intros t _. destruct (Hf t) as (? & ? & ? & ? & ? & ? & ?). by apply keeps_plain. Qed.

Ltac same_state := intros; match goal with Hok : tm_ok ?n ?tm |- tm_ok ?n _ => apply (tm_ok_same n tm); [reflexivity..|exact Hok] end.
Ltac plain_update := intros; apply update_plain; [by repeat split|try assumption].

Lemma parsed_hash req mi ih : parseAddTorrentRequest parseAuthority maxParams req = Ok (mi, ih) -> forall m, mi = Some m -> ih = TorrentFile.mi_InfoHash m.
Proof.
  unfold parseAddTorrentRequest, parseMetainfoData, parseMagnetURI. intros E m ->. destruct (negb _).
  - destruct (relabel _ (DecodeString _)) as [b| | |]; try discriminate. rewrite bind_Ok in E.
    destruct (relabel _ (Bencode.DecodeBytes _ _ _)) as [v| | |]; try discriminate. rewrite bind_Ok in E.
    destruct (TorrentFile.mi_of v) as [m'| | |]; try discriminate. rewrite bind_Ok in E. by injection E as -> <-.
  - destruct (negb _); [|discriminate]. destruct (relabel _ (Magnet.ParseMagnetURI _ _ _)) as [g| | |]; discriminate.
Qed.

Lemma find_duplicate_none ih (tm : TM) : findDuplicateTorrent ih tm = None ->
  forall id l, tm_torrents tm !! id = Some l -> t_InfoHash (torrent_at l tm) <> ih.
Proof.
  unfold findDuplicateTorrent. intros E id l Hl Hh. destruct (find _ _) as [e|] eqn:Ef; [done|].
  assert (Hin : In (id, l) (map_range (tm_torrents tm))).
  { apply list_elem_of_In. rewrite map_range_perm. by apply elem_of_map_to_list. }
  pose proof (find_none _ _ Ef _ Hin) as Hn. cbn in Hn. rewrite bool_decide_eq_false in Hn. done.
Qed.

Lemma find_duplicate_some ih (tm : TM) l : findDuplicateTorrent ih tm = Some l ->
  t_InfoHash (torrent_at l tm) = ih /\ exists id, tm_torrents tm !! id = Some l.
Proof.
  unfold findDuplicateTorrent. intros E. destruct (find _ _) as [[id l']|] eqn:Ef; [|done]. injection E as <-.
  apply find_some in Ef as [Hin Hh]. rewrite bool_decide_eq_true in Hh. split; [done|]. exists id.
  apply elem_of_map_to_list. rewrite <- map_range_perm. by apply list_elem_of_In.
Qed.

(** The state a new torrent starts with. *)
Lemma initial_torrent_ok now req mi ih (tm : TM) t ts :
  (forall m, mi = Some m -> ih = TorrentFile.mi_InfoHash m) ->
  initial_torrent (I := I) (createTorrentState now req mi ih tm) (ar_Paused req) mi = Ok (t, ts) ->
  t_ID t = tm_nextID tm /\ t_InfoHash t = ih /\ torrent_ok t.
Proof.
  intros Hih E. assert (Hnew : forall st, torrent_ok (set_Status st (createTorrentState now req None ih tm))).
  { intros st. split; cbn; try done. constructor. }
  destruct mi as [m|]; cbn [initial_torrent] in E; [|injection E as <- <-; split; [done|]; split; [done|apply Hnew]].
  specialize (Hih m eq_refl). unfold initializeFileInfo in E. destruct (TorrentFile.mi_Info m) as [info|e| |] eqn:Ei; try discriminate.
  - rewrite bind_Ok in E. injection E as <- <-. rewrite populated. split; [done|]. split; [done|]. split; cbn; try done.
    + by rewrite length_replicate, length_map.
    + by rewrite length_replicate, length_map.
    + constructor.
    + intros mi' [= <-]. exists []. rewrite app_nil_r, Hih. done.
    + intros mi' info' [= <-] Ei'. rewrite Ei in Ei'. injection Ei' as <-. apply named_file_info.
  - injection E as <- <-. split; [done|]. split; [done|]. split; cbn; try done.
    + constructor.
    + intros mi' [= <-]. exists []. rewrite app_nil_r, Hih. done.
    + intros mi' info' [= <-] Ei'. congruence.
Qed.

Lemma lookup_old {A} (l : list A) x i y : l !! i = Some y -> (l ++ [x]) !! i = Some y.
Proof. intros Hi. rewrite lookup_app_l; [done|]. by eapply lookup_lt_Some. Qed.

Lemma store_ok n t ts (tm : TM) : tm_ok n tm -> n < 2 ^ 62 -> t_ID t = tm_nextID tm -> torrent_ok t ->
  (forall id l, tm_torrents tm !! id = Some l -> t_InfoHash (torrent_at l tm) <> t_InfoHash t) ->
  Z.of_nat (size (tm_torrents tm)) < c_MaxTorrents (tm_config tm) -> tm_ok (n + 1) (store t ts tm).
Proof.
  intros [P1 P2 P3 P4 P5 P6 P7] Hn Hid Hok Hnew Hmax. assert (Hi64 : i64 (tm_nextID tm + 1) = tm_nextID tm + 1) by (apply i64_small; lia).
  assert (Hat : forall id l, tm_torrents tm !! id = Some l -> torrent_at l (store t ts tm) = torrent_at l tm).
  { intros id l (y & Hy & _)%P1. unfold torrent_at. cbn. rewrite (lookup_old _ _ _ y) by done. by rewrite Hy. }
  assert (Hlast : torrent_at (length (tm_heap tm)) (store t ts tm) = t).
  { unfold torrent_at. cbn. by rewrite lookup_app_r, Nat.sub_diag by lia. }
  split; cbn -[torrent_at]; rewrite ?Hi64.
  - intros id l. rewrite lookup_insert_Some. intros [[<- <-]|[_ (y & Hy & Hyid)%P1]].
    + exists t. split; [|done]. by rewrite lookup_app_r, Nat.sub_diag by lia.
    + exists y. split; [by apply lookup_old|done].
  - rewrite map_app. apply NoDup_app. split; [done|]. split; [|apply NoDup_singleton].
    intros k (y & Hk & Hy)%list_elem_of_fmap Hs%list_elem_of_singleton. rewrite Forall_forall in P3. specialize (P3 _ Hy). cbn in P3. lia.
  - apply Forall_app. split; [eapply Forall_impl; [exact P3|]; cbn; lia|]. constructor; [lia|constructor].
  - intros id id' l l'. rewrite !lookup_insert_Some. intros [[<- <-]|[_ Hl]] [[<- <-]|[_ Hl']] Hh; rewrite ?Hlast, ?(Hat _ _ Hl), ?(Hat _ _ Hl') in Hh; try done.
    + exfalso. by apply (Hnew _ _ Hl').
    + exfalso. by apply (Hnew _ _ Hl).
    + by apply (P4 id id' l l').
  - assert (size (<[t_ID t := length (tm_heap tm)]> (tm_torrents tm)) <= S (size (tm_torrents tm)))%nat.
    { rewrite map_size_insert. destruct (_ !! _); cbn; lia. }
    lia.
  - apply Forall_app. split; [done|]. constructor; [done|constructor].
  - lia.
Qed.

(** ** Every operation keeps it *)
Lemma tm_ok_weaken n m (tm : TM) : n <= m -> tm_ok n tm -> tm_ok m tm.
Proof. intros Hnm [P1 P2 P3 P4 P5 P6 P7]. split; try done. lia. Qed.

Lemma go_ok n ts (tm : TM) : tm_ok n tm -> tm_ok n (go ts tm).
Proof. by same_state. Qed.
Lemma hooks_ok n e t (tm : TM) : tm_ok n tm -> tm_ok n (ExecuteHooks e t tm).
Proof. by same_state. Qed.
Lemma after_queue_ok n qm (tm : TM) : tm_ok n tm -> tm_ok n (after_queue qm tm).
Proof. by same_state. Qed.
Lemma status_ok n l st (tm : TM) : tm_ok n tm -> tm_ok n (update_torrent l (set_Status st) tm).
Proof. by plain_update. Qed.

Lemma startup_ok n l paused meta (tm : TM) : tm_ok n tm -> tm_ok n (handleTorrentStartup l paused meta tm).
Proof. intros Hok. unfold handleTorrentStartup. destruct (_ && _); [by apply go_ok|]. destruct (_ && _); [by apply go_ok, status_ok|done]. Qed.

Lemma adding_ok n now req (tm : TM) : tm_ok n tm -> n < 2 ^ 62 -> tm_ok (n + 1) (AddTorrent parseAuthority maxParams now req tm).2.
Proof.
  intros Hok Hn. assert (Hw : tm_ok (n + 1) tm) by (by apply (tm_ok_weaken n); [lia|]). unfold AddTorrent, validateTorrentLimit.
  case_decide as Hmax; cbn [mbind res_bind]; [done|]. destruct (parseAddTorrentRequest _ _ req) as [[mi ih]| | |] eqn:Ep; cbn [snd]; try done.
  destruct (findDuplicateTorrent ih tm) as [l|] eqn:Ed; cbn [snd]; [done|].
  destruct (initial_torrent _ _ _) as [[t ts]| | |] eqn:Ei; cbn [snd]; try done.
  destruct (initial_torrent_ok now req mi ih tm t ts (parsed_hash req mi ih Ep) Ei) as (Hid & Hh & Ht).
  apply startup_ok, store_ok; try done; [|lia]. intros id l Hl. rewrite Hh. by eapply find_duplicate_none.
Qed.

Lemma start_ok n now id (tm : TM) : tm_ok n tm -> tm_ok n (StartTorrent now id tm).2.
Proof.
  intros Hok. unfold StartTorrent. destruct (tm_torrents tm !! id) as [l|]; [|done]. destruct (started _); [done|]. cbv zeta.
  destruct (QueueManager.AddToQueue _ _ _ _ _); cbn [snd]; [apply after_queue_ok|..]; by apply status_ok.
Qed.

Lemma start_now_ok n now id (tm : TM) : tm_ok n tm -> tm_ok n (StartTorrentNow now id tm).2.
Proof.
  intros Hok. unfold StartTorrentNow. destruct (tm_torrents tm !! id) as [l|]; [|done]. destruct (started _); [done|]. cbv zeta.
  cbn [snd]. apply go_ok, after_queue_ok. by plain_update.
Qed.

Lemma stop_ok n id (tm : TM) : tm_ok n tm -> tm_ok n (StopTorrent id tm).2.
Proof. intros Hok. unfold StopTorrent. destruct (tm_torrents tm !! id) as [l|]; [|done]. cbn [snd]. by apply hooks_ok, status_ok, after_queue_ok. Qed.

Lemma removing_ok n id (tm : TM) : tm_ok n tm -> tm_ok n (RemoveTorrent id tm).2.
Proof.
  intros Hok. unfold RemoveTorrent. destruct (tm_torrents tm !! id) as [l|] eqn:El; [|done]. cbn [snd]. cbv zeta.
  set (tm1 := update_torrent l _ _). assert (Hok1 : tm_ok n tm1) by (by apply status_ok, after_queue_ok). clearbody tm1. clear Hok.
  destruct Hok1 as [P1 P2 P3 P4 P5 P6 P7]. split; cbn; try done.
  - intros id' l' [_ Hl]%lookup_delete_Some. by apply P1.
  - intros a b la lb [_ Ha]%lookup_delete_Some [_ Hb]%lookup_delete_Some. by apply (P4 a b la lb).
  - pose proof (map_size_delete id (tm_torrents tm1)) as E. destruct (tm_torrents tm1 !! id); unfold Datatypes.id in E; lia.
Qed.

Lemma verify_ok n id (tm : TM) : tm_ok n tm -> tm_ok n (VerifyTorrent id tm).2.
Proof.
  intros Hok. unfold VerifyTorrent, verifyTorrentLocked. destruct (tm_torrents tm !! id) as [l|]; [|done].
  destruct (t_MetaInfo _); [|done]. by apply go_ok, status_ok.
Qed.

Lemma set_position_ok n id p (tm : TM) : tm_ok n tm -> tm_ok n (SetTorrentQueuePosition id p tm).2.
Proof.
  intros Hok. unfold SetTorrentQueuePosition. destruct (tm_torrents tm !! id) as [l|]; [|done].
  destruct (QueueManager.SetQueuePosition _ _ _); cbn [snd]; try done. by apply after_queue_ok.
Qed.

Lemma peers_update_ok n l peers (tm tm' : TM) : updateTorrentPeersLocked l peers tm = Ok tm' -> tm_ok n tm -> tm_ok n tm'.
Proof.
  unfold updateTorrentPeersLocked. destruct (new_peers _ _ _) as [ps| | |] eqn:E; try discriminate. rewrite bind_Ok. intros [= <-].
  apply new_peers_nodup in E as [Hps _]. apply assignment_ok. intros t _. split; [done|split; [done|]]. intros [Q1 Q2 Q3 Q4 Q5]. split; cbn; try done.
  by apply merge_peers_nodup.
Qed.

Lemma dht_ok n l r (tm tm' : TM) : handleDHTResult l r tm = Ok tm' -> tm_ok n tm -> tm_ok n tm'.
Proof.
  unfold handleDHTResult. destruct (negb _); [by intros [= <-]|]. destruct (dr_Peers r) as [|p ps]; [by intros [= <-]|].
  unfold processDHTPeers. destruct (t_MetaInfo _); [by apply peers_update_ok|]. intros [= <-]. by same_state.
Qed.

Lemma metadata_checked r mi : parseAndValidateMetadata r = Ok mi ->
  exists rest, default [] (TorrentFile.InfoBytes mi) ++ rest = Downloader.re_InfoBytes r /\ Sha1.Sum (Downloader.re_InfoBytes r) = Downloader.re_InfoHash r.
Proof.
  unfold parseAndValidateMetadata. intros E. destruct (relabel _ _) as [v| | |] eqn:Ev; try discriminate. rewrite bind_Ok in E.
  destruct (Bencode.DecodeBytes _ _ _) as [v'| | |] eqn:Ed; try discriminate. injection Ev as <-.
  unfold Bencode.DecodeBytes in Ed. destruct (Bencode.Decode _ _ _) as [[x d]| | |] eqn:Ex; try discriminate. injection Ed as <-.
  apply BencodeFacts.raw_message_exact in Ex as (p & -> & _ & Hr & _); [|done]. case_decide as Hs; [discriminate|]. injection E as <-.
  exists (Bencode.d_r d). split; [by symmetry|]. by destruct (decide (Sha1.Sum (Downloader.re_InfoBytes r) = Downloader.re_InfoHash r)).
Qed.

Lemma torrent_at_heap l (tm : TM) t : tm_heap tm !! l = Some t -> torrent_at l tm = t.
Proof. intros E. unfold torrent_at. by rewrite E. Qed.

Lemma torrent_at_updated l f (tm : TM) t : tm_heap tm !! l = Some t -> torrent_at l (update_torrent l f tm) = f t.
Proof. intros E. apply torrent_at_heap. cbn. by rewrite list_lookup_alter_eq, E. Qed.

Lemma update_twice l f g (tm : TM) : update_torrent l g (update_torrent l f tm) = update_torrent l (fun t => g (f t)) tm.
Proof. unfold update_torrent, with_heap. cbn. f_equal. apply (list_alter_alter_eq g f). Qed.

Lemma response_ok n r (tm tm' : TM) : handleDownloaderResponse r tm = Ok tm' -> tm_ok n tm -> tm_ok n tm'.
Proof.
  unfold handleDownloaderResponse, findTorrentByInfoHash, finalizeTorrentMetadataSetup. intros E Hok. destruct (findDuplicateTorrent _ _) as [l|] eqn:El; [|by injection E as <-].
  apply find_duplicate_some in El as (Hh & id & Hl). destruct (ok_loc _ _ Hok _ _ Hl) as (t & Ht & _). rewrite (torrent_at_heap _ _ _ Ht) in Hh.
  destruct (parseAndValidateMetadata r) as [mi|e| |] eqn:Em; try discriminate; [|by injection E as <-].
  apply metadata_checked in Em as (rest & Hb & Hs). rewrite (torrent_at_updated _ _ _ _ Ht) in E. unfold initializeTorrentFileStructure in E.
  assert (Hm : exists rest, Sha1.Sum (default [] (TorrentFile.InfoBytes mi) ++ rest) = t_InfoHash t) by (exists rest; by rewrite Hb, Hs, Hh).
  destruct (TorrentFile.mi_Info mi) as [info|e| |] eqn:Ei; try discriminate; injection E as <-.
  - apply go_ok. rewrite !update_twice. apply assignment_ok; [|done]. intros t' Ht'. rewrite Ht in Ht'. injection Ht' as <-. rewrite populated.
    split; [done|split; [done|]]. intros [Q1 Q2 Q3 Q4 Q5]. split; cbn; rewrite ?length_replicate, ?length_map; try done.
    + by intros mi' [= <-].
    + intros mi' info' [= <-] Ei'. rewrite Ei in Ei'. injection Ei' as <-. apply named_file_info.
  - apply assignment_ok; [|done]. intros t' Ht'. rewrite Ht in Ht'. injection Ht' as <-.
    split; [done|split; [done|]]. intros [Q1 Q2 Q3 Q4 Q5]. split; cbn; try done; [by intros mi' [= <-]|]. intros mi' info' [= <-] Ei'. congruence.
Qed.

(** The statistics only change numbers. *)
Definition same_identity (t t' : TorrentState) : Prop :=
  t_ID t' = t_ID t /\ t_InfoHash t' = t_InfoHash t /\ t_MetaInfo t' = t_MetaInfo t /\ t_Peers t' = t_Peers t /\
  t_Files t' = t_Files t /\ t_Priorities t' = t_Priorities t /\ t_Wanted t' = t_Wanted t.

Lemma rates_same now t : same_identity t (updateTrackingFields now (updateTransferRates wild now t)).
Proof. unfold updateTransferRates. destruct (t_lastStatsUpdate t); [destruct (SFltb _ _)|]; by repeat split. Qed.

Lemma completion_same t t' b : updateCompletionStatistics wild t = Ok (t', b) -> same_identity t t'.
Proof.
  unfold updateCompletionStatistics. intros E. destruct (t_MetaInfo t) as [mi|] eqn:Em; [|injection E as <- <-; by repeat split].
  destruct (TorrentFile.mi_Info mi) as [info|e| |]; try discriminate; [|injection E as <- <-; by repeat split].
  unfold calculatePieceStatistics in E. destruct (calculateCompletedPieces _ _) as [x| | |]; try discriminate. rewrite bind_Ok in E.
  destruct (calculateAvailablePieces _ _) as [y| | |]; try discriminate. rewrite !bind_Ok in E. unfold handleCompletionStateChange in E.
  assert (Hb : same_identity t (calculateBasicCompletionStats info t)) by (unfold calculateBasicCompletionStats; case_decide; by repeat split).
  destruct (_ && _); injection E as <- <-; destruct Hb as (? & ? & ? & ? & ? & ? & ?); repeat split; cbn; congruence.
Qed.

Lemma statistics_same now t t' c : updateTorrentStatistics wild now t = Ok (t', c) -> same_identity t t'.
Proof.
  unfold updateTorrentStatistics. intros E. destruct (updateCompletionStatistics _ _) as [[t1 b]| | |] eqn:Ec; try discriminate. rewrite bind_Ok in E.
  injection E as <- <-. apply completion_same in Ec as (? & ? & ? & ? & ? & ? & ?). destruct (rates_same now t) as (? & ? & ? & ? & ? & ? & ?).
  repeat split; cbn; congruence.
Qed.

Lemma stats_ok n now ls : forall tm tm' : TM, update_stats wild now ls tm = Ok tm' -> tm_ok n tm -> tm_ok n tm'.
Proof.
  induction ls as [|l ls IH]; intros tm tm' E Hok; cbn [update_stats] in E; [by injection E as <-|].
  destruct (updateTorrentStatistics _ _ _) as [[t c]| | |] eqn:Es; try discriminate. rewrite bind_Ok in E. cbv zeta in E.
  assert (Hu : tm_ok n (update_torrent l (fun _ => t) tm)).
  { apply assignment_ok; [|done]. intros t0 Ht0. rewrite (torrent_at_heap _ _ _ Ht0) in Es.
    apply statistics_same in Es as (? & ? & ? & ? & ? & ? & ?). by apply keeps_plain. }
  apply IH in E; [done|]. destruct c; [by apply hooks_ok, go_ok|done].
Qed.

Lemma pex_peer_ok n now id ip port flags (tm tm' : TM) : AddPEXPeer now id ip port flags tm = Ok tm' -> tm_ok n tm -> tm_ok n tm'.
Proof.
  unfold AddPEXPeer. intros E Hok. destruct (negb _); [by injection E as <-|]. destruct (tm_torrents _ !! id) as [l|]; [|injection E as <-; by same_state].
  eapply peers_update_ok; [exact E|]. by same_state.
Qed.

Lemma discovered_nothing calls (tm : TM) : discovered_peers calls tm = Ok tm.
Proof. induction calls as [|[[tID ip] port] calls IH]; [done|exact IH]. Qed.

Lemma pex_message_ok n now id data (tm tm' : TM) : ProcessPEXMessage DestHashFromBytes now id data tm = Ok tm' -> tm_ok n tm -> tm_ok n tm'.
Proof.
  unfold ProcessPEXMessage. intros E Hok. destruct (negb _); [by injection E as <-|]. destruct (relabel _ _) as [m| | |]; try discriminate.
  rewrite bind_Ok in E. destruct (PexManager.ProcessPEXMessage _ _ _ _) as [pex calls]. rewrite discovered_nothing in E. injection E as <-. by same_state.
Qed.

Lemma blocklist_config_ok n c (tm : TM) : tm_ok n tm -> tm_ok n (updateBlocklistConfiguration c tm).
Proof.
  intros Hok. unfold updateBlocklistConfiguration. cbv zeta. case_decide; [by same_state|]. destruct (Blocklist.SetURL _ _) as [bm []]; by same_state.
Qed.

Lemma config_changes_ok n now old new (tm : TM) : tm_ok n tm -> tm_ok n (applyRuntimeConfigChanges wild now old new tm).
Proof.
  assert (A0 : forall tm : TM, tm_ok n tm -> tm_ok n (applyQueueConfigChanges old new tm)) by (intros tm1 Hk; unfold applyQueueConfigChanges; case_decide; [same_state|done]).
  assert (A1 : forall tm : TM, tm_ok n tm -> tm_ok n (applyDownloadDirChanges old new tm)) by (intros tm1 Hk; unfold applyDownloadDirChanges; case_decide; [same_state|done]).
  assert (A2 : forall tm : TM, tm_ok n tm -> tm_ok n (applyIncompleteDirChanges old new tm)) by (intros tm1 Hk; unfold applyIncompleteDirChanges; case_decide; [same_state|done]).
  assert (A3 : forall tm : TM, tm_ok n tm -> tm_ok n (applyPeerLimitChanges old new tm)) by (intros tm1 Hk; unfold applyPeerLimitChanges; case_decide; [same_state|done]).
  assert (A4 : forall tm : TM, tm_ok n tm -> tm_ok n (applyScriptConfigChanges old new tm)) by (intros tm1 Hk; unfold applyScriptConfigChanges; case_decide; [same_state|done]).
  assert (A5 : forall tm : TM, tm_ok n tm -> tm_ok n (applyPEXConfigChanges old new tm)) by (intros tm1 Hk; unfold applyPEXConfigChanges; case_decide; [same_state|done]).
  assert (A6 : forall tm : TM, tm_ok n tm -> tm_ok n (applyWebSeedConfigChanges old new tm)) by (intros tm1 Hk; unfold applyWebSeedConfigChanges; case_decide; [same_state|done]).
  assert (A7 : forall tm : TM, tm_ok n tm -> tm_ok n (applySpeedLimitChanges wild now old new tm))
    by (intros tm1 Hk; unfold applySpeedLimitChanges; case_decide; [same_state|done]).
  assert (A8 : forall tm : TM, tm_ok n tm -> tm_ok n (applyBlocklistConfigChanges old new tm))
    by (intros tm1 Hk; unfold applyBlocklistConfigChanges; case_decide; [by apply blocklist_config_ok|done]).
  intros Hok. unfold applyRuntimeConfigChanges. cbv zeta. auto 12.
Qed.

Lemma verified_ok n l info verified completed (tm : TM) : tm_ok n tm -> tm_ok n (verify_finish l info verified completed tm).
Proof.
  intros Hok. apply assignment_ok; [|done]. intros t _. split; [done|split; [done|]]. intros [Q1 Q2 Q3 Q4 Q5].
  split; cbn; rewrite ?file_completion_length; try done. intros mi info' Hm Hi. rewrite file_completion_named. by eapply Q5.
Qed.

Lemma activated_ok n id q (tm : TM) : tm_ok n tm -> tm_ok n (onTorrentActivated id q tm).
Proof.
  intros Hok. unfold onTorrentActivated. destruct (tm_torrents tm !! id) as [l|]; [|done]. destruct q; try done; (case_decide; [|done]); by apply go_ok, hooks_ok, status_ok.
Qed.

Lemma task_ok n fs t (tm tm' : TM) : run_task fs refresh t tm = Ok tm' -> tm_ok n tm -> tm_ok n tm'.
Proof.
  intros E Hok. destruct t; cbn [run_task] in E; try (injection E as <-).
  - unfold startTorrent. destruct (t_MetaInfo _); by apply go_ok.
  - unfold start_metadata. destruct (tm_dht _); [apply go_ok|]; by apply status_ok.
  - unfold start_download. case_decide; destruct (tm_dht _); repeat apply go_ok; by apply status_ok.
  - done.
  - done.
  - unfold requestMetadataFromPeer in E. destruct (Address.IP_text peer); try discriminate. injection E as <-. by same_state.
  - by apply status_ok.
  - unfold verifyTorrentAsync in E. destruct (t_MetaInfo _) as [mi|]; [|discriminate]. destruct (TorrentFile.mi_Info mi); try discriminate; [|injection E as <-; by apply status_ok].
    destruct (verify_pieces _ _ _ _ _ _ _) as [[[nv nt] nc]| | |]; try discriminate. injection E as <-. by apply go_ok.
  - apply go_ok. by plain_update.
  - by apply verified_ok.
  - by apply activated_ok.
  - done.
  - by apply hooks_ok.
  - by same_state.
Qed.

Lemma operation_ok n o (tm tm' : TM) : tm_ok n tm -> n < 2 ^ 62 -> step o tm = Ok tm' -> tm_ok (n + 1) tm'.
Proof.
  intros Hok Hn E. assert (Hw : forall tm' : TM, tm_ok n tm' -> tm_ok (n + 1) tm') by (intros tm1; apply tm_ok_weaken; lia).
  assert (Hu : forall A m (r : res A * TM), unless_panic r = Ok tm' -> tm_ok m r.2 -> tm_ok m tm').
  { intros A m [r tm1] Eu Hm. unfold unless_panic in Eu. destruct r; try discriminate; injection Eu as <-; done. }
  destruct o; cbn [step] in E.
  - eapply Hu; [exact E|]. by apply adding_ok.
  - eapply Hu; [exact E|]. by apply Hw, start_ok.
  - eapply Hu; [exact E|]. by apply Hw, start_now_ok.
  - eapply Hu; [exact E|]. by apply Hw, stop_ok.
  - eapply Hu; [exact E|]. by apply Hw, removing_ok.
  - eapply Hu; [exact E|]. by apply Hw, verify_ok.
  - eapply Hu; [exact E|]. by apply Hw, set_position_ok.
  - eapply Hu; [exact E|]. apply Hw. unfold UpdateSessionConfig. destruct (validateSessionConfiguration _ _) as [[[]| | |] ?]; cbn; try done.
    apply config_changes_ok. by same_state.
  - injection E as <-. apply Hw. by same_state.
  - injection E as <-. by apply Hw, after_queue_ok.
  - apply Hw. by eapply stats_ok.
  - apply Hw. by eapply response_ok.
  - apply Hw. by eapply dht_ok.
  - apply Hw. by eapply pex_peer_ok.
  - apply Hw. destruct (ProcessPEXMessage _ _ _ _ _) eqn:Ep; try discriminate; injection E as <-; [by eapply pex_message_ok|done].
  - eapply Hu; [exact E|]. apply Hw. unfold AddWebSeed. destruct (WebSeed.AddWebSeed _ _ _ _ _); cbn; try done. by same_state.
  - apply Hw. destruct (tm_tasks tm !! i) as [t|]; [|by injection E as <-]. eapply task_ok; [exact E|]. by same_state.
Qed.

Lemma history_ok ops : forall n (tm tm' : TM), tm_ok n tm -> 0 <= n -> n + len ops < 2 ^ 62 -> run ops tm = Ok tm' -> tm_ok (n + len ops) tm'.
Proof.
  induction ops as [|o ops IH]; intros n tm tm' Hok Hn Hlen E; cbn [run] in E.
  - injection E as <-. apply (tm_ok_weaken n); [unfold len; cbn; lia|done].
  - rewrite len_cons in Hlen. destruct (step o tm) as [tm1| | |] eqn:Es; try discriminate. rewrite bind_Ok in E.
    apply operation_ok with (n := n) in Es; [|done|pose proof (len_nonneg ops); lia]. apply (IH (n + 1)) in E; [|done|lia..]. rewrite len_cons.
    by replace (n + (1 + len ops)) with (n + 1 + len ops) by lia.
Qed.

Lemma created_ok now listening c : tm_ok 0 (NewTorrentManager (I := I) now listening c).
Proof.
  unfold NewTorrentManager. cbv zeta. destruct (if decide _ then _ else _) as [bm u]. split; cbn.
  - intros id l Hl. by rewrite lookup_empty in Hl.
  - constructor.
  - constructor.
  - intros id id' l l' Hl. by rewrite lookup_empty in Hl.
  - rewrite map_size_empty. lia.
  - constructor.
  - lia.
Qed.

(** C7: the torrents of the daemon stay well formed. After any history of
    calls, configuration changes, queue rounds, answers of peers and goroutines
    in any order that did not panic: torrents have different IDs and different
    info hashes, there are at most [MaxTorrents], each is registered under its
    own ID, its peers are listed once, its metadata is the start of bytes whose
    SHA-1 is its info hash, and its files, priorities and wanted flags are as
    many as the metadata says, with its names and lengths. *)
Theorem torrents_wellformed ops now listening c tm : len ops < 2 ^ 62 ->
  run ops (NewTorrentManager (I := I) now listening c) = Ok tm -> tm_ok (len ops) tm.
Proof. intros Hlen E. pose proof (len_nonneg ops). apply (history_ok ops 0 _ _ (created_ok now listening c)) in E; [by rewrite Z.add_0_l in E|lia..]. Qed.
End History.

(** ** Witness *)
#[local] Existing Instance Address.demo_keys.
#[export] Instance list_order : MapRange := {| map_range A m := map_to_list m; map_range_perm A m := Permutation_refl _ |}.
#[export] Instance no_system : OperatingSystem () :=
  {| os_Stat _ _ := IsDirectory; os_MkdirAll o _ := Some o; os_Create o _ := Some o; os_Remove o _ := o |}.

Definition demo_session : SessionConfiguration :=
  MkSession [] [] false 51413 200 50 true true false true true [] 0 false 0 false 0 0 false true 1 true 1 (S754_zero false) false 0 false true 4
    (bs "v") false [] 0 false [].
Definition demo_tm_config : TorrentManagerConfig := MkConfig [] [] false 2 0 0 0 demo_session.
Definition magnet_request (paused : bool) (hash : string) : TorrentAddRequest :=
  MkAddRequest [] [] (bs "magnet:?xt=urn:btih:" ++ bs hash) [] [] paused 0 0 [] [] [] [] [].
Definition demo_ops : list (op (I := bytes) (OS := ())) :=
  [OAdd 10 (magnet_request false "aaaaaaaaaaaaaaaaaaaaaaaaaaaaaaaaaaaaaaaa"); OAdd 11 (magnet_request true "bbbbbbbbbbbbbbbbbbbbbbbbbbbbbbbbbbbbbbbb");
   ORun 1 ∅; OStart 12 2; OQueues 13 0; ORun 3 ∅; OStats 14; OStop 1; ORemove 2; OAdd 15 (magnet_request true "cccccccccccccccccccccccccccccccccccccccc")].
Definition demo_result : res (TorrentManager (I := bytes)) :=
  run (fun _ => Err "no"%string) None (fun _ => Err "no"%string) (fun _ => 0) (fun b => b) demo_ops (NewTorrentManager 9 true demo_tm_config).

Lemma torrents_wellformed_witness : match demo_result with Ok tm => tm_ok 10 tm /\ size (tm_torrents tm) = 2%nat | _ => False end.
Proof.
  destruct demo_result as [tm|e|p|] eqn:E; [|exfalso; vm_compute in E; discriminate E..]. split.
  - exact (torrents_wellformed (fun _ => Err "no"%string) None (fun _ => Err "no"%string) (fun _ => 0) (fun b => b) demo_ops 9 true demo_tm_config tm ltac:(vm_compute; reflexivity) E).
  - assert (Hs : match demo_result with Ok tm => size (tm_torrents tm) = 2%nat | _ => False end) by (vm_compute; reflexivity). by rewrite E in Hs.
Defined.

End TorrentManagerFacts.
