(* ===== verification/DaemonFacts.v ===== *)
(** * Behaviour of the daemon

    Theorems that follow from the torrent manager together with the queues, the
    files and the other components: how torrents get started, what verification
    finds on disk, and which peers a torrent learns of. *)

From Stdlib Require Import SpecFloat.
From S2P Require Import Prelude Strconv Bencode BencodeFacts BencodeTyped Extension Sha1 Hash Metainfo MetainfoFacts Storage Net Address Krpc GoLib QueueManager QueueFacts Blocklist Bandwidth PexManager Downloader Url Magnet TorrentFile WebSeed RpcTypes TorrentManager TorrentManagerFacts.
Import Strconv Hash MetainfoFacts Net GoLib RpcTypes TorrentManager TorrentManagerFacts.

Module DaemonFacts.

#[local] Arguments TorrentFile.mi_Info : simpl never.
#[local] Arguments torrent_at : simpl never.

(** ** A torrent queued twice *)
Section Queue.
Import QueueManager QueueFacts.
Context `{SortSlice}.

Lemma sort_pair {A} less (x : A) : sort_Slice less [x; x] = [x; x].
Proof. pose proof (sort_Slice_perm less [x; x]) as Hp. symmetry in Hp. apply Permutation_length_2_inv in Hp as [-> | ->]; done. Qed.

(** The torrents waiting for a download, with room for another one. *)
Record queued (order : list Z) (qm : QueueManager) : Prop := {
  qd_order : q_order (downloads qm) = order;
  qd_items : Forall (fun id => is_Some (q_items (downloads qm) !! id)) order;
  qd_enabled : DownloadQueueEnabled (config qm) = true;
  qd_room : Z.of_nat (size (activeDownloads qm)) < MaxActiveDownloads (config qm)
}.

Lemma add_download now id order qm : queued order qm -> Forall (eq id) order -> (length order <= 1)%nat ->
  exists qm1, AddToQueue now id DownloadQueue 0 qm = Ok qm1 /\ queued (order ++ [id]) qm1 /\ activated qm1 = activated qm.
Proof.
  intros [Ho Hi He Hr] Hid Hlen. unfold AddToQueue. rewrite He. cbn [negb]. destruct (removeSeed_eq id qm) as (_ & E2 & E3 & E4 & _ & E6).
  set (item := MkItem id 0 now 0). set (items := <[id := item]> (q_items (downloads qm))).
  assert (Hsort : add_item id item (downloads (removeFromSeedQueueUnsafe id qm)) = Ok (updateQueuePositions (MkQueue items (order ++ [id])))).
  { unfold add_item, sortQueue. rewrite E2, Ho. cbn [q_order q_items]. fold items. destruct order as [|x [|y order]]; cbn in Hlen; [done| |lia].
    apply Forall_cons in Hid as [<- _]. cbn [app length]. rewrite decide_True by lia.
    rewrite (decide_True (P := Forall (fun id' => is_Some (items !! id')) [id; id]))
      by (repeat constructor; unfold items; rewrite lookup_insert_eq; by eexists). by rewrite sort_pair. }
  rewrite Hsort, bind_Ok. eexists. split; [reflexivity|]. split; [|exact E6]. split; cbn -[removeFromSeedQueueUnsafe]; rewrite ?E3, ?E4; try done.
  apply Forall_forall. intros x Hx. apply update_positions_dom. unfold items. destruct (decide (x = id)) as [->|Hne]; [rewrite lookup_insert_eq; by eexists|].
  rewrite lookup_insert_ne by done. apply elem_of_app in Hx as [Hx|Hx%list_elem_of_singleton]; [|done]. rewrite Forall_forall in Hi. by apply Hi.
Qed.

Lemma twice_stale start time id qm : queued [id; id] qm -> stale id [] (processQueues start time qm).
Proof.
  intros [Ho Hi He Hr]. apply Forall_cons in Hi as [[item Hitem] _].
  assert (Hd : stale id [] (processDownloadQueue qm)).
  { unfold processDownloadQueue. destruct (Z.to_nat (MaxActiveDownloads (config qm) - Z.of_nat (size (activeDownloads qm)))) as [|fuel] eqn:Ef; [lia|].
    cbn [processDownload_loop]. rewrite Ho. cbv zeta. set (qm1 := notify _ _ _).
    assert (Hs : stale id [] qm1).
    { destruct (removeDownload_eq id qm) as (E1 & _). unfold stale, qm1. cbn -[removeFromDownloadQueueUnsafe]. rewrite E1.
      unfold removeFromQueueUnsafe. rewrite Hitem, Ho. cbn [remove_first updateQueuePositions q_items q_order].
      rewrite decide_True by done. split; [done|]. apply eq_None_not_Some. rewrite update_positions_dom, lookup_delete_eq. by intros [? ?]. }
    pose proof (stale_loop fuel (Z.of_nat (size (activeDownloads qm)) + 1) id [] qm1 Hs) as Hl.
    destruct (processDownload_loop _ _ _) as [n qm']. destruct Hl as (D & _). unfold stale. cbn. rewrite D. exact Hs. }
  unfold processQueues. rewrite He, bool_decide_eq_true_2 by lia. cbv zeta. cbn [andb].
  set (qm2 := if _ && _ then processSeedQueue _ else _).
  assert (Hq : downloads qm2 = downloads (processDownloadQueue qm)) by (unfold qm2; destruct (_ && _); [apply processSeed_downloads|done]).
  unfold stale. cbn. rewrite Hq. exact Hd.
Qed.

Lemma stale_add now id id' qm : stale id [] qm -> DownloadQueueEnabled (config qm) = true -> id <> id' ->
  AddToQueue now id' DownloadQueue 0 qm = Panic nilItem.
Proof.
  intros [Ho Hi] He Hne. unfold AddToQueue. rewrite He. cbn [negb]. destruct (removeSeed_eq id' qm) as (_ & E2 & _).
  unfold add_item, sortQueue. rewrite E2, Ho. cbn [q_order q_items app length]. rewrite decide_True by lia. rewrite decide_False; [done|].
  intros [[x Hx] _]%Forall_cons. rewrite lookup_insert_ne in Hx by done. congruence.
Qed.

Lemma process_config start time qm : config (processQueues start time qm) = config qm.
Proof.
  assert (Hd : forall fuel a q, config (processDownload_loop fuel a q).2 = config q).
  { induction fuel as [|fuel IH]; intros a q; cbn [processDownload_loop]; [done|]. destruct (q_order (downloads q)); [done|]. cbv zeta.
    rewrite IH. cbn -[removeFromDownloadQueueUnsafe]. by destruct (removeDownload_eq z q) as (_ & _ & -> & _). }
  assert (Hs : forall fuel a q, config (processSeed_loop fuel a q).2 = config q).
  { induction fuel as [|fuel IH]; intros a q; cbn [processSeed_loop]; [done|]. destruct (q_order (seeds q)); [done|]. cbv zeta.
    rewrite IH. cbn -[removeFromSeedQueueUnsafe]. by destruct (removeSeed_eq z q) as (_ & _ & -> & _). }
  assert (Hd' : forall q, config (processDownloadQueue q) = config q) by (intros q; unfold processDownloadQueue; rewrite <- (Hd (Z.to_nat (MaxActiveDownloads (config q) - Z.of_nat (size (activeDownloads q)))) (Z.of_nat (size (activeDownloads q))) q) at 2; by destruct (processDownload_loop _ _ _)).
  assert (Hs' : forall q, config (processSeedQueue q) = config q) by (intros q; unfold processSeedQueue; rewrite <- (Hs (Z.to_nat (MaxActiveSeeds (config q) - Z.of_nat (size (activeSeeds q)))) (Z.of_nat (size (activeSeeds q))) q) at 2; by destruct (processSeed_loop _ _ _)).
  unfold processQueues. cbv zeta. cbn -[processDownloadQueue processSeedQueue]. repeat case_match; rewrite ?Hs', ?Hd'; done.
Qed.
End Queue.

Section Daemon.
Context {I : Type} `{I2PKeys I} `{SortSlice} `{MapRange}.
Abbreviation TM := (TorrentManager (I := I)).

(** A torrent that is registered at [l], incomplete and not running. *)
Record waiting (id : Z) (l : loc) (t : TorrentState) (tm : TM) : Prop := {
  wt_map : tm_torrents tm !! id = Some l;
  wt_heap : tm_heap tm !! l = Some t;
  wt_idle : started t = false;
  wt_incomplete : complete t = false
}.

Lemma start_waiting now id l t (tm : TM) qm : waiting id l t tm -> QueueManager.AddToQueue now id QueueManager.DownloadQueue 0 (tm_queue tm) = Ok qm ->
  StartTorrent now id tm = (Ok (), after_queue qm (update_torrent l (set_Status TorrentStatusQueuedDown) tm)).
Proof.
  intros [Hm Hh Hs Hc] Hq. unfold StartTorrent. rewrite Hm, (torrent_at_heap _ _ _ Hh), Hs, Hc. cbn [update_torrent with_heap tm_queue]. by rewrite Hq.
Qed.

Lemma still_waiting id l t (tm : TM) qm id' l' t' : waiting id l t tm -> waiting id' l' t' tm ->
  exists t'', waiting id' l' t'' (after_queue qm (update_torrent l (set_Status TorrentStatusQueuedDown) tm)) /\
    (l = l' -> t'' = set_Status TorrentStatusQueuedDown t') /\ (l <> l' -> t'' = t').
Proof.
  intros [Hm Hh Hs Hc] [Hm' Hh' Hs' Hc']. destruct (decide (l = l')) as [<-|Hne].
  - exists (set_Status TorrentStatusQueuedDown t'). split; [|done]. split; cbn; try done. by rewrite list_lookup_alter_eq, Hh'.
  - exists t'. split; [|done]. split; cbn; try done. by rewrite list_lookup_alter_ne.
Qed.

(** starting a waiting torrent twice breaks the daemon. Both calls succeed,
    but the queue lists the torrent twice; after the next round of the queue,
    starting any other torrent panics with a nil dereference. *)
Theorem start_twice_panics id l t id' l' t' now start time (tm : TM) :
  waiting id l t tm -> waiting id' l' t' tm -> id <> id' -> queued [] (tm_queue tm) ->
  exists tm1 tm2, StartTorrent now id tm = (Ok (), tm1) /\ StartTorrent now id tm1 = (Ok (), tm2) /\
    (StartTorrent now id' (process_queues start time tm2)).1 = Panic QueueManager.nilItem.
Proof.
  intros Hw Hw' Hne Hq. destruct (add_download now id [] (tm_queue tm) Hq) as (qm1 & A1 & Q1 & _); [constructor|cbn; lia|].
  pose proof (start_waiting now id l t tm qm1 Hw A1) as S1. set (tm1 := after_queue qm1 _) in S1.
  destruct (still_waiting id l t tm qm1 id l t Hw Hw) as (t1 & Hw1 & _). destruct (still_waiting id l t tm qm1 id' l' t' Hw Hw') as (t1' & Hw1' & _).
  destruct (add_download now id [id] qm1 Q1) as (qm2 & A2 & Q2 & _); [by repeat constructor|cbn; lia|].
  pose proof (start_waiting now id l t1 tm1 qm2 Hw1 A2) as S2. set (tm2 := after_queue qm2 _) in S2.
  destruct (still_waiting id l t1 tm1 qm2 id' l' t1' Hw1 Hw1') as (t2' & Hw2' & _).
  exists tm1, tm2. split; [exact S1|]. split; [exact S2|]. destruct Hw2' as [Wm Wh Ws Wc]. fold tm2 in Wm, Wh.
  unfold StartTorrent. change (tm_torrents (process_queues start time tm2)) with (tm_torrents tm2). rewrite Wm.
  assert (Hat : torrent_at l' (process_queues start time tm2) = t2') by (by apply torrent_at_heap). rewrite Hat, Ws, Wc.
  cbn [update_torrent with_heap tm_queue process_queues after_queue go with_tasks with_queue].
  rewrite (stale_add now id id'); [done|apply twice_stale; exact Q2| |done]. rewrite process_config. exact (qd_enabled _ _ Q2).
Qed.
End Daemon.

(** ** The default configuration *)
Section Default.
Context {I : Type} `{I2PKeys I} `{SortSlice} `{MapRange}.
Abbreviation TM := (TorrentManager (I := I)).
Context {OS : Type} `{OperatingSystem OS}.
Context (parseAuthority : bytes -> res bytes) (maxParams : option Z) (DestHashFromBytes : bytes -> res bytes).
Context (wild : Bandwidth.float -> Z) (refresh : Blocklist.BlocklistManager -> Blocklist.BlocklistManager).
Abbreviation step := (step parseAuthority maxParams DestHashFromBytes wild refresh).
Abbreviation run := (run parseAuthority maxParams DestHashFromBytes wild refresh).

(** Goroutines that start nothing. *)
Definition harmless (t : task (I := I)) : Prop :=
  match t with RequestMetadata _ _ | ScriptTask _ _ | HookTask _ _ | UpdateBlocklist => True | _ => False end.

Definition queues_off (qm : QueueManager.QueueManager) : Prop :=
  QueueManager.DownloadQueueEnabled (QueueManager.config qm) = false /\ QueueManager.SeedQueueEnabled (QueueManager.config qm) = false.

Record parked (tm : TM) : Prop := {
  pk_queues : queues_off (tm_queue tm);
  pk_tasks : Forall harmless (tm_tasks tm);
  pk_idle : Forall (fun t => started t = false) (tm_heap tm)
}.

(** Adding paused torrents, starting torrents, and what goes on by itself. *)
Definition quiet (o : op (I := I) (OS := OS)) : Prop :=
  match o with
  | OAdd _ req => ar_Paused req = true
  | OStart _ _ | OSetPosition _ _ | OSchedule _ _ _ | OQueues _ _ | OStats _ | ODHT _ _ | OPEXPeer _ _ _ _ _ | OPEXMessage _ _ _ | OWebSeed _ _ _ | ORun _ _ => True
  | _ => False
  end.

Lemma parked_same (tm tm' : TM) : tm_queue tm' = tm_queue tm -> tm_tasks tm' = tm_tasks tm -> tm_heap tm' = tm_heap tm -> parked tm -> parked tm'.
Proof. intros E1 E2 E3 [P1 P2 P3]. split; rewrite ?E1, ?E2, ?E3; done. Qed.

Lemma parked_go ts (tm : TM) : Forall harmless ts -> parked tm -> parked (go ts tm).
Proof. intros Ht [P1 P2 P3]. split; cbn; try done. by apply Forall_app. Qed.

Lemma parked_update l f (tm : TM) : (forall t, tm_heap tm !! l = Some t -> started t = false -> started (f t) = false) -> parked tm -> parked (update_torrent l f tm).
Proof. intros Hf [P1 P2 P3]. split; cbn; try done. by apply Forall_alter. Qed.

Lemma parked_queue qm (tm : TM) : queues_off qm -> QueueManager.activated qm = QueueManager.activated (tm_queue tm) -> parked tm -> parked (after_queue qm tm).
Proof. intros Hq Ha [P1 P2 P3]. split; cbn; try done. rewrite Ha, drop_all. cbn. by rewrite app_nil_r. Qed.

Lemma parked_add now req (tm : TM) : ar_Paused req = true -> parked tm -> parked (AddTorrent parseAuthority maxParams now req tm).2.
Proof.
  intros Hp Hk. unfold AddTorrent. destruct (_ ← validateTorrentLimit tm; _) as [[mi ih]| | |]; try done. destruct (findDuplicateTorrent _ _); [done|].
  destruct (initial_torrent _ _ _) as [[t ts]| | |] eqn:Ei; try done. cbn [snd]. unfold handleTorrentStartup. rewrite Hp. cbn [negb andb].
  assert (Ht : t_Status t = TorrentStatusStopped /\ Forall harmless ts).
  { unfold initial_torrent in Ei. rewrite Hp in Ei. destruct mi as [mi|]; [|by injection Ei as <- <-].
    destruct (initializeFileInfo _ _) as [t1|e| |] eqn:Ef; try discriminate; injection Ei as <- <-; [|by split].
    unfold initializeFileInfo in Ef. destruct (TorrentFile.mi_Info mi) as [info| | |]; try discriminate. rewrite bind_Ok, populated in Ef. injection Ef as <-.
    by repeat constructor. }
  destruct Ht as [Hs Hts]. destruct Hk as [P1 P2 P3]. split; cbn; [done| |].
  - rewrite <- app_assoc. apply Forall_app. split; [done|]. apply Forall_app. split; [done|by repeat constructor].
  - apply Forall_app. split; [done|]. constructor; [|constructor]. unfold started. by rewrite Hs.
Qed.

Lemma parked_start now id (tm : TM) : parked tm -> parked (StartTorrent now id tm).2.
Proof.
  intros Hk. unfold StartTorrent. destruct (tm_torrents tm !! id) as [l|]; [|done]. destruct (started _); [done|]. cbv zeta.
  set (b := complete _). assert (Hu : parked (update_torrent l (set_Status (if b then TorrentStatusQueuedSeed else TorrentStatusQueuedDown)) tm))
    by (apply parked_update; [|done]; intros t _ _; by destruct b).
  destruct (pk_queues _ Hk) as [D S].
  assert (Ha : QueueManager.AddToQueue now id (if b then QueueManager.SeedQueue else QueueManager.DownloadQueue) 0
     (tm_queue (update_torrent l (set_Status (if b then TorrentStatusQueuedSeed else TorrentStatusQueuedDown)) tm)) = Ok (tm_queue tm)).
  { unfold QueueManager.AddToQueue. cbn [update_torrent with_heap tm_queue]. destruct b; by rewrite ?D, ?S. }
  rewrite Ha. cbn [snd]. by apply parked_queue.
Qed.

Lemma move_keeps id p qm qm' : QueueManager.SetQueuePosition id p qm = Ok qm' ->
  QueueManager.config qm' = QueueManager.config qm /\ QueueManager.activated qm' = QueueManager.activated qm.
Proof.
  unfold QueueManager.SetQueuePosition. destruct (_ !! id) as [item|]; [|destruct (_ !! id) as [item|]; [|discriminate]];
    (destruct (QueueManager.moveInQueue _ _ _); try discriminate; rewrite bind_Ok; by intros [= <-]).
Qed.

Lemma statistics_status now t t' c : updateTorrentStatistics wild now t = Ok (t', c) -> t_Status t' = t_Status t.
Proof.
  unfold updateTorrentStatistics, updateCompletionStatistics. intros E.
  assert (Hr : forall t, t_Status (updateTrackingFields now (updateTransferRates wild now t)) = t_Status t)
    by (intros t0; unfold updateTransferRates; destruct (t_lastStatsUpdate t0); [destruct (SFltb _ _)|]; done).
  specialize (Hr t). revert E Hr. generalize (updateTrackingFields now (updateTransferRates wild now t)). intros t1 E Hr.
  destruct (t_MetaInfo t1) as [mi|]; [|injection E as <- <-; exact Hr].
  destruct (TorrentFile.mi_Info mi) as [info|e| |]; try discriminate; [|injection E as <- <-; exact Hr].
  unfold calculatePieceStatistics in E. destruct (calculateCompletedPieces _ _) as [x| | |]; try discriminate. rewrite bind_Ok in E.
  destruct (calculateAvailablePieces _ _) as [y| | |]; try discriminate. rewrite !bind_Ok in E. unfold handleCompletionStateChange in E.
  assert (Hb : t_Status (calculateBasicCompletionStats info t1) = t_Status t1) by (unfold calculateBasicCompletionStats; case_decide; done).
  destruct (_ && _); injection E as <- <-; cbn; congruence.
Qed.

Lemma parked_stats now ls : forall tm tm' : TM, update_stats wild now ls tm = Ok tm' -> parked tm -> parked tm'.
Proof.
  induction ls as [|l ls IH]; intros tm tm' E Hk; cbn [update_stats] in E; [by injection E as <-|].
  destruct (updateTorrentStatistics _ _ _) as [[t c]| | |] eqn:Es; try discriminate. rewrite bind_Ok in E. cbv zeta in E.
  assert (Hu : parked (update_torrent l (fun _ => t) tm)).
  { apply parked_update; [|done]. intros t0 Ht0 Hs. rewrite (torrent_at_heap _ _ _ Ht0) in Es. apply statistics_status in Es.
    unfold started in *. by rewrite Es. }
  apply IH in E; [done|]. destruct c; [|done]. apply (parked_same (go [ScriptTask ScriptHookTorrentDone t0] (update_torrent l (fun _ => t) tm))); try done.
  by apply parked_go; [repeat constructor|].
Qed.

Lemma parked_peers l peers (tm tm' : TM) : updateTorrentPeersLocked l peers tm = Ok tm' -> parked tm -> parked tm'.
Proof.
  unfold updateTorrentPeersLocked. destruct (new_peers _ _ _) as [ps| | |]; try discriminate. rewrite bind_Ok. intros [= <-]. by apply parked_update.
Qed.

Lemma off_process start time qm : queues_off qm -> QueueManager.config (QueueManager.processQueues start time qm) = QueueManager.config qm /\
  QueueManager.activated (QueueManager.processQueues start time qm) = QueueManager.activated qm.
Proof. intros [D S]. unfold QueueManager.processQueues. rewrite D. cbn [andb]. rewrite S. done. Qed.

Lemma parked_step o (tm tm' : TM) : quiet o -> parked tm -> step o tm = Ok tm' -> parked tm'.
Proof.
  intros Hq Hk E. assert (Hu : forall A (r : res A * TM), unless_panic r = Ok tm' -> parked r.2 -> parked tm').
  { intros A [r tm1] Eu Hm. unfold unless_panic in Eu. destruct r; try discriminate; injection Eu as <-; done. }
  destruct o; try done; cbn [TorrentManagerFacts.step] in E.
  - eapply Hu; [exact E|]. by apply parked_add.
  - eapply Hu; [exact E|]. by apply parked_start.
  - eapply Hu; [exact E|]. unfold SetTorrentQueuePosition. destruct (tm_torrents tm !! id); [|done].
    destruct (QueueManager.SetQueuePosition _ _ _) as [qm| | |] eqn:Eq; try done. cbn [snd]. apply move_keeps in Eq as [Ec Ea].
    apply parked_queue; [|done|done]. unfold queues_off. rewrite Ec. apply Hk.
  - injection E as <-. by apply (parked_same tm).
  - injection E as <-. destruct (off_process start processingTime (tm_queue tm) (pk_queues _ Hk)) as [Ec Ea].
    apply parked_queue; [|done|done]. unfold queues_off. rewrite Ec. apply Hk.
  - by eapply parked_stats.
  - unfold handleDHTResult in E. destruct (negb _); [by injection E as <-|]. destruct (dr_Peers result) as [|p ps]; [by injection E as <-|].
    unfold processDHTPeers in E. destruct (t_MetaInfo _); [by eapply parked_peers|]. injection E as <-. apply parked_go; [|done].
    apply Forall_forall. by intros x (q & -> & _)%list_elem_of_fmap.
  - unfold AddPEXPeer in E. destruct (negb _); [by injection E as <-|]. destruct (tm_torrents _ !! id); [|injection E as <-; by apply (parked_same tm)].
    eapply parked_peers; [exact E|]. by apply (parked_same tm).
  - destruct (ProcessPEXMessage _ _ _ _ _) as [tm1|e| |] eqn:Ep; try discriminate; injection E as <-; [|done]. unfold ProcessPEXMessage in Ep.
    destruct (negb _); [by injection Ep as <-|]. destruct (relabel _ _); try discriminate. rewrite bind_Ok in Ep.
    destruct (PexManager.ProcessPEXMessage _ _ _ _) as [pex calls]. rewrite discovered_nothing in Ep. injection Ep as <-. by apply (parked_same tm).
  - eapply Hu; [exact E|]. unfold AddWebSeed. destruct (WebSeed.AddWebSeed _ _ _ _ _); try done. by apply (parked_same tm).
  - destruct (tm_tasks tm !! i) as [t|] eqn:Et; [|by injection E as <-].
    assert (Hh : harmless t) by (by apply (proj1 (Forall_lookup harmless _) (pk_tasks _ Hk) i)).
    assert (Hk1 : parked (with_tasks (delete i (tm_tasks tm)) tm)).
    { destruct Hk as [P1 P2 P3]. split; cbn; try done. by apply Forall_delete. }
    destruct t; try done; cbn [run_task] in E; try (injection E as <-; first [done | by apply (parked_same (with_tasks (delete i (tm_tasks tm)) tm))]).
    unfold requestMetadataFromPeer in E. destruct (Address.IP_text peer); try discriminate. injection E as <-.
    by apply (parked_same (with_tasks (delete i (tm_tasks tm)) tm)).
Qed.

Lemma parked_run ops : forall tm tm' : TM, Forall quiet ops -> parked tm -> run ops tm = Ok tm' -> parked tm'.
Proof.
  induction ops as [|o ops IH]; intros tm tm' Hq Hk E; cbn [TorrentManagerFacts.run] in E; [by injection E as <-|]. apply Forall_cons in Hq as [Ho Hq].
  destruct (step o tm) as [tm1| | |] eqn:Es; try discriminate. rewrite bind_Ok in E. apply (IH tm1); [done| |done]. by eapply parked_step.
Qed.

Lemma default_queues c : s_Version (c_SessionConfig c) = [] ->
  s_DownloadQueueEnabled (c_SessionConfig (applyConfigDefaults c)) = false /\ s_SeedQueueEnabled (c_SessionConfig (applyConfigDefaults c)) = false.
Proof.
  intros Hv. unfold applyConfigDefaults, applySessionConfigDefaults. rewrite decide_True; [by split|]. unfold applyBasicConfigDefaults. by case_decide.
Qed.

(** with the default session nothing ever starts. A daemon created without
    a session of its own has both queues disabled, and [StartTorrent] only
    enqueues: whatever torrents are added paused, started, and processed by the
    queue, statistics, peer discovery and goroutines, none is ever downloading
    or seeding. *)
Theorem default_session_never_starts ops now listening c tm id l :
  s_Version (c_SessionConfig c) = [] -> Forall quiet ops -> run ops (NewTorrentManager now listening c) = Ok tm ->
  tm_torrents tm !! id = Some l -> started (torrent_at l tm) = false.
Proof.
  intros Hv Hq E Hl. assert (Hk : parked tm).
  { eapply parked_run; [exact Hq| |exact E]. pose proof (default_queues c Hv) as Hs. unfold NewTorrentManager. cbv zeta.
    destruct (if decide _ then _ else _) as [bm u] eqn:Eb. split; cbn; [exact Hs|destruct u; by repeat constructor|constructor]. }
  unfold torrent_at. destruct (tm_heap tm !! l) as [t|] eqn:Et; [|done]. exact (proj1 (Forall_lookup _ _) (pk_idle _ Hk) l t Et).
Qed.
End Default.

(** ** Peers found *)
Section Discovery.
Context {I : Type} `{I2PKeys I} `{SortSlice} `{MapRange}.
Abbreviation TM := (TorrentManager (I := I)).

(** The key under which a peer of the DHT is listed. *)
Definition address_key (a : Address.Address (I := I)) : res bytes := ip ← Address.IP_text a; Ok (peer_key ip (Address.a_Port a)).
Definition wanted (bm : Blocklist.BlocklistManager) (k : bytes) (a : Address.Address (I := I)) : Prop :=
  exists ip, Address.IP_text a = Ok ip /\ Blocklist.IsBlocked ip bm = false /\ k = peer_key ip (Address.a_Port a).

Lemma new_peers_keys bm peers : forall keys ps, new_peers bm peers keys = Ok ps ->
  forall k, k ∈ map info_key ps <-> (k ∉ keys) /\ exists a, a ∈ peers /\ wanted bm k a.
Proof.
  induction peers as [|p peers IH]; intros keys ps E k; cbn [new_peers] in E.
  - injection E as <-. cbn. split; [by intros ?%elem_of_nil|]. intros (_ & a & Ha%elem_of_nil & _). done.
  - destruct (Address.IP_text p) as [ip| | |] eqn:Eip; try discriminate. rewrite bind_Ok in E.
    assert (Hcons : forall k, (exists a, a ∈ p :: peers /\ wanted bm k a) <-> wanted bm k p \/ exists a, a ∈ peers /\ wanted bm k a).
    { intros k0. split; [intros (a & [->|Ha]%elem_of_cons & Hw); [by left|right; by exists a]|].
      intros [Hw|(a & Ha & Hw)]; [exists p|exists a]; split; try done; by constructor. }
    assert (Hp : forall k, wanted bm k p <-> Blocklist.IsBlocked ip bm = false /\ k = peer_key ip (Address.a_Port p)).
    { intros k0. unfold wanted. rewrite Eip. split; [intros (x & [= <-] & Hb & ->); done|intros [Hb ->]; by exists ip]. }
    rewrite Hcons, Hp. destruct (Blocklist.IsBlocked ip bm) eqn:Eb.
    { rewrite (IH _ _ E). split; [intros [? ?]; split; [done|by right]|intros [? [[? _]|?]]; done]. }
    case_decide as Hk.
    { rewrite (IH _ _ E). split; [intros [? ?]; split; [done|by right]|]. intros [Hnk [[_ ->]|?]]; [done|done]. }
    destruct (new_peers bm peers _) as [rest| | |] eqn:Er; try discriminate. injection E as <-. cbn [map]. rewrite elem_of_cons, (IH _ _ Er).
    unfold info_key at 1. cbn. split.
    + intros [->|[Hnk Ha]]; [split; [done|by left]|]. split; [set_solver|by right].
    + intros [Hnk [[_ ->]|Ha]]; [by left|]. destruct (decide (k = peer_key ip (Address.a_Port p))) as [->|Hne]; [by left|]. right. split; [set_solver|done].
Qed.

Lemma merged_keys old new k : k ∈ map info_key (merge_peers old new) <-> k ∈ map info_key old \/ k ∈ map info_key new.
Proof.
  unfold merge_peers. rewrite map_app, elem_of_app. split.
  - intros [Hk|(p & -> & [_ Hp]%list_elem_of_filter)%list_elem_of_fmap]; [by left|right]. apply list_elem_of_fmap. by exists p.
  - intros [Hk|Hk]; [by left|]. destruct (decide (k ∈ map info_key old)) as [?|Hn]; [by left|right].
    apply list_elem_of_fmap in Hk as (p & -> & Hp). apply list_elem_of_fmap. exists p. split; [done|]. by apply list_elem_of_filter.
Qed.

(** An enabled blocklist blocks every address that is not an IP address. *)
Lemma admitted_are_ips bm peers : Blocklist.bl_enabled bm = true -> forall keys new, new_peers bm peers keys = Ok new ->
  forall p, p ∈ new -> is_Some (ParseIP (pi_Address p)).
Proof.
  intros Hen. induction peers as [|q peers IH]; intros keys new En p Hp; cbn [new_peers] in En; [injection En as <-; by apply elem_of_nil in Hp|].
  destruct (Address.IP_text q) as [ip| | |] eqn:Eip; try discriminate. rewrite bind_Ok in En.
  destruct (Blocklist.IsBlocked ip _) eqn:Eb; [by eapply IH|]. case_decide; [by eapply IH|].
  destruct (new_peers _ peers _) as [rest| | |] eqn:Er; try discriminate. injection En as <-. apply elem_of_cons in Hp as [->|Hp]; [|by eapply IH].
  cbn. unfold Blocklist.IsBlocked in Eb. rewrite Hen in Eb. cbn in Eb. by destruct (ParseIP ip); [eexists|].
Qed.

Lemma update_same l f t (tm : TM) : tm_heap tm !! l = Some t -> update_torrent l f tm = update_torrent l (fun _ => f t) tm.
Proof.
  intros Ht. unfold update_torrent, with_heap. f_equal. apply list_eq. intros i. destruct (decide (l = i)) as [<-|Hne].
  - by rewrite !list_lookup_alter_eq, Ht.
  - by rewrite !list_lookup_alter_ne.
Qed.

Lemma update_nothing l t (tm : TM) : tm_heap tm !! l = Some t -> update_torrent l (fun _ => t) tm = tm.
Proof.
  intros Ht. unfold update_torrent, with_heap. destruct tm. cbn in *. f_equal. apply list_eq. intros i. destruct (decide (l = i)) as [<-|Hne].
  - by rewrite list_lookup_alter_eq, Ht.
  - by rewrite list_lookup_alter_ne.
Qed.

(** the peers the DHT finds for a torrent with metadata are listed once. The
    old peers stay in front; a new key is listed exactly when an address of the
    answer that the blocklist admits has it; nothing else of the daemon
    changes. With the blocklist enabled no I2P destination is ever admitted. *)
Theorem dht_peers_added l t code_peers (tm tm' : TM) : tm_heap tm !! l = Some t -> is_Some (t_MetaInfo t) -> NoDup (map info_key (t_Peers t)) ->
  handleDHTResult l (MkDHTResult 0 false code_peers) tm = Ok tm' ->
  exists ps, tm' = update_torrent l (set_Peers (t_Peers t ++ ps)) tm /\ NoDup (map info_key (t_Peers t ++ ps)) /\
    (forall k, k ∈ map info_key (t_Peers t ++ ps) <-> k ∈ map info_key (t_Peers t) \/ exists a, a ∈ code_peers /\ wanted (tm_blocklist tm) k a) /\
    (Blocklist.bl_enabled (tm_blocklist tm) = true -> forall p, p ∈ ps -> is_Some (ParseIP (pi_Address p))).
Proof.
  intros Ht [mi Hm] Hnd E. unfold handleDHTResult in E. change (validateDHTResult (MkDHTResult 0 false code_peers)) with true in E.
  cbn [negb dr_Peers] in E. destruct code_peers as [|p0 rest0].
  { injection E as <-. exists []. rewrite app_nil_r. split; [|split; [done|split; [|by intros _ p ?%elem_of_nil]]].
    - rewrite (update_same _ _ _ _ Ht). symmetry. apply update_nothing. by destruct t.
    - intros k. split; [by left|]. intros [?|(a & Ha%elem_of_nil & _)]; done. }
  revert E. generalize (p0 :: rest0). intros peers E.
  unfold processDHTPeers in E. rewrite (torrent_at_heap _ _ _ Ht), Hm in E. unfold updateTorrentPeersLocked in E.
  destruct (new_peers _ _ _) as [new| | |] eqn:En; try discriminate. rewrite bind_Ok in E. injection E as <-.
  exists (filter (fun p => ~ (info_key p ∈ map info_key (t_Peers t))) new). fold (merge_peers (t_Peers t) new). split; [|split; [|split]].
  - by rewrite (update_same _ _ _ _ Ht), (update_same l (set_Peers _) _ _ Ht).
  - apply merge_peers_nodup; [done|]. by apply new_peers_nodup in En as [? _].
  - intros k. rewrite merged_keys, (new_peers_keys _ _ _ _ En). split; [intros [?|[_ ?]]|intros [?|?]]; auto. right. split; [set_solver|done].
  - intros Hen p [_ Hp]%list_elem_of_filter. by eapply admitted_are_ips.
Qed.
End Discovery.

(** ** From a magnet link to a download *)
Section Download.
Context {I : Type} `{I2PKeys I} `{SortSlice} `{MapRange} (parseAuthority : bytes -> res bytes) (maxParams : option Z).
Abbreviation TM := (TorrentManager (I := I)).
Lemma added_torrent now req mi ih t ts (tm : TM) : validateTorrentLimit tm = Ok () -> parseAddTorrentRequest parseAuthority maxParams req = Ok (mi, ih) ->
  findDuplicateTorrent ih tm = None -> initial_torrent (createTorrentState now req mi ih tm) (ar_Paused req) mi = Ok (t, ts) ->
  AddTorrent parseAuthority maxParams now req tm =
  let tm' := handleTorrentStartup (length (tm_heap tm)) (ar_Paused req) (bool_decide (is_Some mi)) (store t ts tm) in
  (Ok (Added (torrent_at (length (tm_heap tm)) tm')), tm').
Proof. intros Hv Hp Hd Hi. unfold AddTorrent. rewrite Hv, bind_Ok, Hp, Hd, Hi. done. Qed.

Lemma stored_torrent t ts (tm : TM) : tm_heap (store t ts tm) !! length (tm_heap tm) = Some t.
Proof. cbn. by rewrite lookup_app_r, Nat.sub_diag by lia. Qed.

Lemma registered_found n ih id l t (tm : TM) : tm_ok n tm -> tm_torrents tm !! id = Some l -> tm_heap tm !! l = Some t -> t_InfoHash t = ih ->
  findDuplicateTorrent ih tm = Some l.
Proof.
  intros Hok Hl Ht Hh. destruct (findDuplicateTorrent ih tm) as [l'|] eqn:Ef.
  - apply find_duplicate_some in Ef as (Hh' & id' & Hl'). assert (id = id'); [|congruence].
    apply (ok_hash _ _ Hok id id' l l' Hl Hl'). by rewrite (torrent_at_heap _ _ _ Ht), Hh, Hh'.
  - exfalso. apply (find_duplicate_none _ _ Ef id l Hl). by rewrite (torrent_at_heap _ _ _ Ht).
Qed.

(** The metadata of an info dictionary as the daemon keeps it. *)
Definition meta_of (b : bytes) : TorrentFile.MetaInfo := TorrentFile.MkMeta (Some b) [] [] [] [] 0 [] [] [].

Lemma metadata_accepted info b r : TorrentFacts.info_ok info -> TorrentFile.EncodeInfo info = Ok b -> Downloader.re_InfoBytes r = b -> Downloader.re_InfoHash r = Sha1.Sum b ->
  parseAndValidateMetadata r = Ok (meta_of b) /\ TorrentFile.mi_Info (meta_of b) = Ok info.
Proof.
  intros Hi Eb Hb Hh. destruct (TorrentFacts.info_roundtrip info Hi) as (doc & E & Hd & D). rewrite Eb in E. injection E as ->. split; [|exact D].
  unfold parseAndValidateMetadata. rewrite Hb, Hh, (BencodeTyped.decodes_as_DecodeBytes _ _ _ _ (BencodeTyped.decodes_raw (Bencode.VRaw None) doc Hd)).
  cbn [relabel]. rewrite bind_Ok. rewrite decide_False; [done|]. by intros ?.
Qed.

(** C10: a magnet link becomes a download. Adding the link registers a torrent
    with its info hash and no metadata; when a peer delivers the info
    dictionary with that hash, the torrent has exactly that metadata, lists
    exactly its files, all wanted, and is downloading. *)
Theorem magnet_becomes_download n now req m info b r (tm : TM) :
  tm_ok n tm -> n < 2 ^ 62 -> Z.of_nat (size (tm_torrents tm)) < c_MaxTorrents (tm_config tm) ->
  (forall id l, tm_torrents tm !! id = Some l -> t_InfoHash (torrent_at l tm) <> Sha1.Sum b) ->
  Magnet.magnet_ok m -> Magnet.m_InfoHash m = Sha1.Sum b -> match maxParams with Some k => 1 + len (Url.pairs (Magnet.values m)) <= k | None => True end ->
  ar_Metainfo req = [] -> ar_Filename req = Magnet.Magnet_String m ->
  TorrentFacts.info_ok info -> TorrentFile.EncodeInfo info = Ok b -> Downloader.re_InfoBytes r = b -> Downloader.re_InfoHash r = Sha1.Sum b ->
  let l := length (tm_heap tm) in
  exists t tm1 tm2, AddTorrent parseAuthority maxParams now req tm = (Ok (Added t), tm1) /\ t_InfoHash t = Sha1.Sum b /\ t_MetaInfo t = None /\
    handleDownloaderResponse r tm1 = Ok tm2 /\ last (tm_tasks tm2) = Some (StartTask l) /\
    let t' := torrent_at l tm2 in
    t_InfoHash t' = Sha1.Sum b /\ (exists mi, t_MetaInfo t' = Some mi /\ TorrentFile.mi_Info mi = Ok info) /\ t_Status t' = TorrentStatusDownloading /\
    t_Files t' = map (file_info info) (Metainfo.i_Files info) /\ Forall (eq true) (t_Wanted t').
Proof.
  cbv zeta. intros Hok Hn Hroom Hnew Hm Hmh Hlim Hmeta Hfile Hinfo Eb Hrb Hrh.
  assert (Hparse : parseAddTorrentRequest parseAuthority maxParams req = Ok (None, Sha1.Sum b)).
  { unfold parseAddTorrentRequest. rewrite Hmeta, bool_decide_eq_true_2 by done. cbn [negb]. rewrite Hfile, bool_decide_eq_false_2 by (rewrite Magnet.query_text by done; done).
    cbn [negb]. unfold parseMagnetURI. rewrite (Magnet.magnet_reads_back parseAuthority maxParams m Hm Hlim). cbn [relabel]. rewrite bind_Ok. by rewrite Hmh. }
  assert (Hdup : findDuplicateTorrent (Sha1.Sum b) tm = None).
  { destruct (findDuplicateTorrent _ _) as [l|] eqn:Ef; [|done]. apply find_duplicate_some in Ef as (Hh & id & Hl). by destruct (Hnew id l Hl). }
  set (t := setInitialTorrentStatus (ar_Paused req) false (createTorrentState now req None (Sha1.Sum b) tm)).
  pose proof (added_torrent now req None (Sha1.Sum b) t [] tm) as Ha. cbv zeta in Ha. rewrite bool_decide_eq_false_2 in Ha by (by intros [? ?]).
  set (tm1 := handleTorrentStartup _ _ _ _) in Ha. assert (Hh1 : tm_heap tm1 = tm_heap (store t [] tm)).
  { unfold tm1, handleTorrentStartup. destruct (_ && _); [done|]. by rewrite andb_false_r. }
  assert (Ht1 : tm_heap tm1 !! length (tm_heap tm) = Some t) by (rewrite Hh1; apply stored_torrent).
  assert (Hok1 : tm_ok (n + 1) tm1) by (apply startup_ok, store_ok; try done; split; cbn; try done; constructor).
  assert (Hreg : tm_torrents tm1 !! tm_nextID tm = Some (length (tm_heap tm))).
  { unfold tm1, handleTorrentStartup. destruct (_ && _); [|rewrite andb_false_r]; cbn; apply lookup_insert_eq. }
  destruct (metadata_accepted info b r Hinfo Eb Hrb Hrh) as [Hacc Hi].
  exists t, tm1. eexists. rewrite Ha; [|unfold validateTorrentLimit; rewrite decide_False by lia; done|done|done|done].
  rewrite (torrent_at_heap _ _ _ Ht1). split; [done|]. split; [done|]. split; [done|]. unfold handleDownloaderResponse, findTorrentByInfoHash, finalizeTorrentMetadataSetup.
  rewrite Hrh, (registered_found _ _ _ _ _ _ Hok1 Hreg Ht1) by done. rewrite Hacc. rewrite (torrent_at_updated _ _ _ _ Ht1).
  unfold initializeTorrentFileStructure. rewrite Hi, populated, !update_twice. split; [reflexivity|]. split; [cbn; apply last_snoc|].
  assert (Hfin : forall ts f, torrent_at (length (tm_heap tm)) (go ts (update_torrent (length (tm_heap tm)) f tm1)) = f t)
    by (intros ts f; apply torrent_at_heap; cbn; by rewrite list_lookup_alter_eq, Ht1).
  rewrite Hfin. cbn. split; [done|]. split; [by exists (meta_of b)|]. split; [done|]. split; [done|]. by apply Forall_replicate.
Qed.
End Download.

(** ** Witnesses *)
#[local] Existing Instance Address.demo_keys.
Definition nothing {A} (b : bytes) : res A := Err "no"%string.
Definition demo_new : TorrentManager (I := bytes) := NewTorrentManager 9 true demo_tm_config.
Definition demo_two : TorrentManager (I := bytes) :=
  (AddTorrent nothing None 11 (magnet_request true "bbbbbbbbbbbbbbbbbbbbbbbbbbbbbbbbbbbbbbbb")
    (AddTorrent nothing None 10 (magnet_request true "aaaaaaaaaaaaaaaaaaaaaaaaaaaaaaaaaaaaaaaa") demo_new).2).2.

Lemma start_twice_panics_witness : exists tm1 tm2, StartTorrent 12 1 demo_two = (Ok (), tm1) /\ StartTorrent 12 1 tm1 = (Ok (), tm2) /\
  (StartTorrent 12 2 (process_queues 13 0 tm2)).1 = Panic QueueManager.nilItem.
Proof.
  apply (start_twice_panics 1 0%nat (torrent_at 0 demo_two) 2 1%nat (torrent_at 1 demo_two) 12 13 0 demo_two).
  - split; vm_compute; reflexivity.
  - split; vm_compute; reflexivity.
  - lia.
  - split; [vm_compute; reflexivity|constructor|vm_compute; reflexivity|vm_compute; reflexivity].
Defined.

Definition default_config : TorrentManagerConfig :=
  MkConfig [] [] false 2 0 0 0 (MkSession [] [] false 0 0 0 false false false false false [] 0 false 0 false 0 0 false false 0 false 0
    (S754_zero false) false 0 false false 0 [] false [] 0 false []).
Definition quiet_ops : list (op (I := bytes) (OS := ())) :=
  [OAdd 10 (magnet_request true "aaaaaaaaaaaaaaaaaaaaaaaaaaaaaaaaaaaaaaaa"); OStart 11 1; OQueues 12 0; OStats 13; ORun 0 ∅; OStart 14 1].
Abbreviation quiet_result := (run nothing None nothing (fun _ => 0) (fun b => b) quiet_ops (NewTorrentManager (I := bytes) 9 true default_config)).

Lemma default_session_never_starts_witness :
  match quiet_result with Ok tm => tm_torrents tm !! 1 = Some 0%nat /\ started (torrent_at 0 tm) = false | _ => False end.
Proof.
  destruct quiet_result as [tm|e|p|] eqn:E; [|exfalso; vm_compute in E; discriminate E..].
  assert (Hl : match quiet_result with Ok tm => tm_torrents tm !! 1 = Some 0%nat | _ => False end) by (vm_compute; reflexivity). rewrite E in Hl. split; [exact Hl|].
  apply (default_session_never_starts nothing None nothing (fun _ => 0) (fun b => b) quiet_ops 9 true default_config tm 1 0%nat);
    [reflexivity|repeat constructor|exact E|exact Hl].
Defined.

Definition demo_running : TorrentManager (I := bytes) := update_torrent 0 (set_MetaInfo (Some (meta_of (bs "de")))) demo_two.
Definition demo_addr (d port : Z) : Address.Address (I := bytes) := Address.MkAddress (Some (IPAddr [1; 2; 3; d] [])) port.

Lemma dht_peers_added_witness : exists ps, NoDup (map info_key ps) /\
  (forall k, k ∈ map info_key ps <-> k ∈ [] \/ exists a, a ∈ [demo_addr 4 80; demo_addr 4 80; demo_addr 5 81] /\ wanted (tm_blocklist demo_running) k a).
Proof.
  destruct (dht_peers_added 0 (torrent_at 0 demo_running) [demo_addr 4 80; demo_addr 4 80; demo_addr 5 81] demo_running
    (match handleDHTResult 0 (MkDHTResult 0 false [demo_addr 4 80; demo_addr 4 80; demo_addr 5 81]) demo_running with Ok tm => tm | _ => demo_running end))
    as (ps & _ & Hn & Hk & _).
  - vm_compute. reflexivity.
  - vm_compute. by eexists.
  - vm_compute. constructor.
  - destruct (handleDHTResult _ _ _) as [tm| | |] eqn:E; [reflexivity|exfalso; vm_compute in E; discriminate E..].
  - exists ps. split; [exact Hn|exact Hk].
Defined.

Definition demo_link : Magnet.Magnet := Magnet.MkMagnet (Sha1.Sum TorrentFacts.demo_info_bytes) [bs "http://t/a"] (bs "dir") [] ∅.
Definition demo_request : TorrentAddRequest := MkAddRequest [] [] (Magnet.Magnet_String demo_link) [] [] false 0 0 [] [] [] [] [].
Definition demo_response : Downloader.TorrentResponse := Downloader.MkResponse [] 0 [] (Sha1.Sum TorrentFacts.demo_info_bytes) TorrentFacts.demo_info_bytes.

Lemma demo_link_ok : Magnet.magnet_ok demo_link.
Proof.
  constructor.
  - vm_compute. split; [reflexivity|]. repeat constructor; discriminate.
  - repeat constructor; vm_compute; discriminate.
  - constructor.
  - repeat constructor; vm_compute; discriminate.
  - intros k l Hl. destruct (lookup_empty_Some k l Hl).
  - intros k _. apply lookup_empty.
Qed.

Lemma magnet_becomes_download_witness :
  exists t tm1 tm2, AddTorrent nothing None 10 demo_request demo_new = (Ok (Added t), tm1) /\ t_InfoHash t = Sha1.Sum TorrentFacts.demo_info_bytes /\ t_MetaInfo t = None /\
    handleDownloaderResponse demo_response tm1 = Ok tm2 /\ last (tm_tasks tm2) = Some (StartTask 0%nat) /\
    let t' := torrent_at 0 tm2 in
    t_InfoHash t' = Sha1.Sum TorrentFacts.demo_info_bytes /\ (exists mi, t_MetaInfo t' = Some mi /\ TorrentFile.mi_Info mi = Ok TorrentFacts.demo_info) /\
    t_Status t' = TorrentStatusDownloading /\
    t_Files t' = map (file_info TorrentFacts.demo_info) (Metainfo.i_Files TorrentFacts.demo_info) /\ Forall (eq true) (t_Wanted t').
Proof.
  apply (magnet_becomes_download nothing None 0 10 demo_request demo_link TorrentFacts.demo_info TorrentFacts.demo_info_bytes demo_response demo_new);
    try reflexivity.
  - apply created_ok.
  - intros id l Hl. destruct (lookup_empty_Some id l Hl).
  - exact demo_link_ok.
  - exact TorrentFacts.demo_info_ok.
Defined.

End DaemonFacts.
