(* ===== verification/VerifyFacts.v ===== *)
(** * Verification of data on disk

    What [verifyTorrentAsync] of the torrent manager finds: how it cuts pieces
    out of files, which pieces it counts, and where it looks for them. *)

From S2P Require Import Prelude Sha1 Hash Metainfo MetainfoFacts Storage Net Address GoLib TorrentFile RpcTypes TorrentManager TorrentManagerFacts.
Import Hash Metainfo MetainfoFacts GoLib RpcTypes TorrentManager TorrentManagerFacts.

Module VerifyFacts.

#[local] Arguments TorrentFile.mi_Info : simpl never.
#[local] Arguments torrent_at : simpl never.

(** ** Cutting a piece out of files *)

(** Where verification looks for a file. *)
Definition verify_path (dir : bytes) (info : Info) (f : File) : bytes := Join [Join [dir; i_Name info]; File_Path f info].

(** The files are on disk with their lengths. *)
Definition on_disk (fs : Storage.FS) (torrentDir : bytes) (info : Info) (f : File) (c : bytes) : Prop :=
  fs !! Join [torrentDir; File_Path f info] = Some c /\ f_Length f = len c.

Lemma copy_prefix dst src : (length src <= length dst)%nat -> copy dst src = src ++ drop (length src) dst.
Proof. intros Hl. unfold copy. by rewrite firstn_all2. Qed.

Lemma read_segment fs path c start n : fs !! path = Some c -> 0 <= start -> 0 <= n -> start + n <= len c ->
  readFileSegment fs path start n = Ok (take (Z.to_nat n) (drop (Z.to_nat start) c)).
Proof.
  intros Hc Hs Hn Hl. unfold readFileSegment. rewrite Hc, !decide_False by lia. rewrite decide_False; [done|].
  intros [Hne He]. apply (f_equal length) in He. rewrite length_take, length_drop in He. unfold len in Hl. cbn in He. lia.
Qed.

(** Bytes copied when the loop is at offset [cur]. *)
Definition copied (cur off n : Z) : Z := Z.min n (Z.max 0 (cur - off)).

Lemma read_params cur size off n : 0 <= cur -> 0 <= size -> 0 <= off -> 0 <= n -> cur + size < 2 ^ 63 -> off + n < 2 ^ 63 -> off < cur + size -> cur < off + n ->
  calculateReadParameters cur size off n = (Z.max 0 (off - cur), Z.min (size - Z.max 0 (off - cur)) (off + n - (cur + Z.max 0 (off - cur)))).
Proof.
  intros. unfold calculateReadParameters. assert (Hst : (if decide (cur < off) then i64 (off - cur) else 0) = Z.max 0 (off - cur)) by (case_decide; rewrite ?i64_small; lia).
  rewrite Hst. clear Hst. set (st := Z.max 0 (off - cur)). rewrite (i64_small (cur + st)), (i64_small (size - st)), (i64_small (off + n)) by lia.
  rewrite (i64_small (cur + st + (size - st))), (i64_small (off + n - (cur + st))) by lia. f_equal. case_decide; lia.
Qed.

Lemma read_files_spec fs info dir off n files cs : Forall2 (on_disk fs dir info) files cs ->
  0 <= off -> 0 <= n -> off + n < 2 ^ 63 -> forall cur data, 0 <= cur -> cur + len (concat cs) < 2 ^ 63 -> len data = n ->
  read_files fs info dir off n files cur (copied cur off n) data =
  Ok (take (Z.to_nat (copied cur off n)) data ++ take (Z.to_nat (n - copied cur off n)) (drop (Z.to_nat (off - cur)) (concat cs))).
Proof.
  intros Hf Ho Hn Hb. induction Hf as [|f c files cs [Hc Hl] Hf IH]; intros cur data Hcur Hsum Hd; cbn [read_files concat].
  { rewrite drop_nil, take_nil, app_nil_r, decide_True by (unfold copied; lia). done. }
  cbn [concat] in Hsum. rewrite len_app in Hsum. pose proof (len_nonneg c). pose proof (len_nonneg (concat cs)). rewrite Hl.
  unfold shouldSkipFile, isFileAfterPiece. rewrite !i64_small by lia. case_bool_decide as Hskip.
  { replace (copied cur off n) with (copied (cur + len c) off n) by (unfold copied; lia). rewrite IH by (rewrite ?len_app; lia).
    do 3 f_equal. rewrite drop_app_ge by (unfold len in *; lia). f_equal. unfold len in *. lia. }
  case_bool_decide as Hafter.
  { rewrite decide_True by (unfold copied; lia). replace (copied cur off n) with n by (unfold copied; lia).
    by rewrite Z.sub_diag, take_0, app_nil_r. }
  rewrite read_params by lia. set (st := Z.max 0 (off - cur)). set (k := Z.min (len c - st) (off + n - (cur + st))).
  assert (Hk : 0 <= k /\ st + k <= len c) by (unfold k, st; lia). rewrite (read_segment fs _ c) by (done || lia). rewrite bind_Ok.
  rewrite decide_True by (unfold copied; lia). set (pos := copied cur off n).
  assert (Hpos : i64 (pos + k) = copied (cur + len c) off n) by (rewrite i64_small; unfold pos, copied, k, st; lia).
  assert (Hp0 : 0 <= pos <= n) by (unfold pos, copied; lia). assert (Hpk : pos + k <= n) by (unfold pos, copied, k, st; lia).
  set (part := take (Z.to_nat k) (drop (Z.to_nat st) c)). assert (Lp : length part = Z.to_nat k) by (unfold part; rewrite length_take, length_drop; unfold len in *; lia).
  rewrite copy_prefix by (rewrite length_drop; unfold len in *; lia). rewrite Hpos. rewrite IH; [|lia|lia|].
  2: { rewrite len_app, len_app. unfold len in *. rewrite length_take, !length_drop. lia. }
  rewrite <- Hpos, i64_small by lia. f_equal.
  rewrite app_assoc, take_app_le by (rewrite length_app, length_take; unfold len in *; lia).
  rewrite firstn_all2 by (rewrite length_app, length_take; unfold len in *; lia). rewrite <- app_assoc. f_equal.
  replace (Z.to_nat (off - cur)) with (Z.to_nat st) by (unfold st; lia). rewrite drop_app_le by (unfold len in *; lia).
  destruct (decide (len c - st <= off + n - (cur + st))) as [Hwhole|Hcut].
  - assert (Hd1 : part = drop (Z.to_nat st) c) by (unfold part; rewrite firstn_all2; [done|rewrite length_drop; unfold len in *; lia]).
    rewrite <- Hd1, take_app_ge by lia. f_equal. replace (Z.to_nat (off - (cur + len c))) with O by (unfold len in *; lia).
    rewrite drop_0. f_equal. rewrite Lp. lia.
  - replace (n - (pos + k)) with 0 by (unfold pos, copied, k, st in *; lia). rewrite take_0, app_nil_r, take_app_le by (rewrite length_drop; unfold pos, copied, st in *; unfold len in *; lia).
    unfold part. f_equal. unfold pos, copied, k, st. lia.
Qed.

(** The piece is exactly its bytes of the concatenated files. *)
Lemma read_piece fs mi info dir piece cs : TorrentFile.mi_Info mi = Ok info -> p_info piece = info ->
  Forall2 (on_disk fs dir info) (i_Files info) cs -> len (concat cs) < 2 ^ 63 ->
  0 <= Piece_Offset piece -> 0 <= Piece_Length piece -> Piece_Offset piece + Piece_Length piece < 2 ^ 63 ->
  readPieceFromFiles fs mi piece dir = Ok (take (Z.to_nat (Piece_Length piece)) (drop (Z.to_nat (Piece_Offset piece)) (concat cs))).
Proof.
  intros Hm Hp Hf Hs Ho Hl Hb. unfold readPieceFromFiles. rewrite Hm, bind_Ok. cbv zeta. rewrite decide_False by lia.
  assert (Hr : forall data, len data = Piece_Length piece -> read_files fs info dir (Piece_Offset piece) (Piece_Length piece) (i_Files info) 0 0 data =
    Ok (take (Z.to_nat (Piece_Length piece)) (drop (Z.to_nat (Piece_Offset piece)) (concat cs)))).
  { intros data Hd. pose proof (read_files_spec fs info dir (Piece_Offset piece) (Piece_Length piece) (i_Files info) cs Hf Ho Hl Hb 0 data ltac:(lia) Hs Hd) as Hx.
    replace (copied 0 (Piece_Offset piece) (Piece_Length piece)) with 0 in Hx by (unfold copied; lia). rewrite Hx. by rewrite take_0, !Z.sub_0_r. }
  apply Hr. unfold len. rewrite length_replicate. lia.
Qed.

(** ** Counting pieces *)
Record layout_ok (info : Info) : Prop := {
  lo_piece : 0 < i_PieceLength info;
  lo_first : 0 < CountPieces info;
  lo_last : (CountPieces info - 1) * i_PieceLength info < TotalLength info <= CountPieces info * i_PieceLength info;
  lo_range : CountPieces info * i_PieceLength info < 2 ^ 63
}.


Section Layout.
Context (info : Info) (Hlay : layout_ok info).
Abbreviation pl := (i_PieceLength info).
Abbreviation count := (CountPieces info).
Abbreviation piece i := (MkPiece info i).

Lemma piece_offset i : 0 <= i < count -> Piece_Offset (piece i) = i * pl.
Proof. intros Hi. destruct Hlay. unfold Piece_Offset. cbn. apply i64_small. nia. Qed.

Lemma piece_length i : 0 <= i < count -> Piece_Length (piece i) = Z.min ((i + 1) * pl) (TotalLength info) - i * pl.
Proof.
  intros Hi. destruct Hlay. unfold Piece_Length. cbn [p_index p_info]. case_decide as Hd.
  - rewrite i64_small by nia. subst i. nia.
  - assert ((i + 1) * pl <= (count - 1) * pl) by nia. nia.
Qed.

Lemma piece_length_pos i : 0 <= i < count -> 0 < Piece_Length (piece i).
Proof.
  intros Hi. rewrite piece_length by done. destruct Hlay. assert (i * pl <= (count - 1) * pl) by nia. lia.
Qed.

Lemma total_pos : 0 < TotalLength info.
Proof. destruct Hlay. nia. Qed.

Definition lengths_of (l : list Z) : Z := foldr (fun i s => Piece_Length (piece i) + s) 0 l.

Lemma lengths_cons i l : lengths_of (i :: l) = Piece_Length (piece i) + lengths_of l.
Proof. done. Qed.

Lemma seqZ_step i n : seqZ i (Z.of_nat (S n)) = i :: seqZ (i + 1) (Z.of_nat n).
Proof. rewrite seqZ_cons by lia. do 2 f_equal; lia. Qed.

Lemma lengths_bound (verdict : Z -> bool) n : forall i, 0 <= i -> i + Z.of_nat n = count ->
  0 <= lengths_of (filter (fun j => verdict j = true) (seqZ i (Z.of_nat n))) <= TotalLength info - Z.min (i * pl) (TotalLength info).
Proof.
  destruct Hlay. induction n as [|n IH]; intros i Hi Hn; [change (0 <= 0 <= TotalLength info - Z.min (i * pl) (TotalLength info)); lia|].
  rewrite seqZ_step, filter_cons. specialize (IH (i + 1) ltac:(lia) ltac:(lia)).
  pose proof (piece_length i ltac:(lia)) as Hl. assert (i * pl <= (count - 1) * pl) by nia. case_decide; rewrite ?lengths_cons; nia.
Qed.

Lemma verify_loop fs mi dir (verdict : Z -> bool) : (forall i, 0 <= i < count -> verifyPiece fs mi dir (piece i) = Ok (verdict i)) ->
  forall n i v c, 0 <= i -> i + Z.of_nat n = count -> 0 <= c <= Z.min (i * pl) (TotalLength info) ->
  verify_pieces fs mi dir info n i (v, Z.min (i * pl) (TotalLength info), c) =
  Ok (v + len (filter (fun j => verdict j = true) (seqZ i (Z.of_nat n))), TotalLength info, c + lengths_of (filter (fun j => verdict j = true) (seqZ i (Z.of_nat n)))).
Proof.
  intros Hv. induction n as [|n IH]; intros i v c Hi Hn Hc.
  { destruct Hlay. assert (Hmin : Z.min (i * pl) (TotalLength info) = TotalLength info) by (replace i with count by lia; lia).
    rewrite Hmin. change (Ok (v, TotalLength info, c) = Ok (v + 0, TotalLength info, c + 0)). by rewrite !Z.add_0_r. }
  cbn [verify_pieces]. unfold Info_Piece. rewrite decide_False by (unfold CountPieces in *; lia). rewrite bind_Ok, Hv by lia. rewrite seqZ_step, filter_cons.
  assert (Hir : 0 <= i < count) by lia. pose proof (piece_length i Hir) as Hl. pose proof (piece_length_pos i Hir) as Hpos. destruct Hlay.
  assert (Ht : i64 (Z.min (i * pl) (TotalLength info) + Piece_Length (piece i)) = Z.min ((i + 1) * pl) (TotalLength info)).
  { assert (i * pl <= (count - 1) * pl) by nia. rewrite i64_small by lia. lia. }
  assert (Hle : i * pl <= TotalLength info) by nia. destruct (verdict i) eqn:Ev.
  - rewrite decide_True by done. rewrite Ht, (i64_small (c + _)) by lia. rewrite IH by lia. rewrite len_cons, lengths_cons.
    do 2 f_equal; [f_equal|]; lia.
  - rewrite decide_False by done. rewrite Ht, IH by lia. done.
Qed.

Lemma verified_all fs mi dir (verdict : Z -> bool) : (forall i, 0 <= i < count -> verifyPiece fs mi dir (piece i) = Ok (verdict i)) ->
  let found := filter (fun j => verdict j = true) (seqZ 0 count) in
  verify_pieces fs mi dir info (length (i_Pieces info)) 0 (0, 0, 0) = Ok (len found, TotalLength info, lengths_of found).
Proof.
  cbv zeta. intros Hv. pose proof total_pos. destruct Hlay. pose proof (verify_loop fs mi dir verdict Hv (length (i_Pieces info)) 0 0 0) as Hl.
  replace (Z.min (0 * pl) (TotalLength info)) with 0 in Hl by lia. rewrite Hl by (unfold CountPieces, len in *; lia).
  change (Z.of_nat (length (i_Pieces info))) with count. by rewrite !Z.add_0_l.
Qed.

Lemma found_bound (verdict : Z -> bool) : 0 <= lengths_of (filter (fun j => verdict j = true) (seqZ 0 count)) <= TotalLength info.
Proof.
  pose proof total_pos. destruct Hlay. pose proof (lengths_bound verdict (length (i_Pieces info)) 0 ltac:(lia) ltac:(done)) as Hb.
  change (Z.of_nat (length (i_Pieces info))) with count in Hb. lia.
Qed.

Lemma all_found_iff (verdict : Z -> bool) : len (filter (fun j => verdict j = true) (seqZ 0 count)) = count <-> (forall i, 0 <= i < count -> verdict i = true).
Proof.
  assert (Hlen : length (seqZ 0 count) = Z.to_nat count) by apply length_seqZ. destruct Hlay. split.
  - intros Hf i Hi. destruct (decide (verdict i = true)) as [?|Hn]; [done|]. exfalso.
    assert (Hin : i ∈ seqZ 0 count) by (apply elem_of_seqZ; lia). pose proof (length_filter_lt (fun j => verdict j = true) _ i Hin Hn). unfold len in Hf. lia.
  - intros Hall. rewrite (filter_everything (fun j => verdict j = true)); [unfold len; lia|].
    apply Forall_forall. intros j Hj. apply elem_of_seqZ in Hj. apply Hall. lia.
Qed.
End Layout.

(** ** What a piece is verified against *)
Definition piece_data (info : Info) (data : bytes) (i : Z) : bytes :=
  take (Z.to_nat (Piece_Length (MkPiece info i))) (drop (Z.to_nat (i * i_PieceLength info)) data).
Definition matches (info : Info) (data : bytes) (i : Z) : bool := bool_decide (Sha1.Sum (piece_data info data i) = Piece_Hash (MkPiece info i)).

Lemma contents_total fs dir info files cs : Forall2 (on_disk fs dir info) files cs -> len (concat cs) < 2 ^ 63 -> total files = len (concat cs).
Proof.
  intros Hf Hs. unfold total. assert (Hg : forall a, 0 <= a -> a + len (concat cs) < 2 ^ 63 -> foldl (fun ret f => i64 (ret + f_Length f)) a files = a + len (concat cs)).
  { clear Hs. induction Hf as [|f c files cs [_ Hl] Hf IH]; intros a Ha Hb; cbn [concat foldl] in *; [unfold len; cbn; lia|].
    rewrite len_app in *. pose proof (len_nonneg c). pose proof (len_nonneg (concat cs)). rewrite Hl, i64_small by lia. rewrite IH by lia. lia. }
  apply Hg; lia.
Qed.

Fixpoint bytes_of (files : list File) : Z := match files with [] => 0 | f :: files' => f_Length f + bytes_of files' end.
Lemma bytes_nonneg files : Forall (fun f => 0 <= f_Length f) files -> 0 <= bytes_of files.
Proof. induction 1; cbn [bytes_of]; lia. Qed.

Lemma total_files files : Forall (fun f => 0 <= f_Length f) files -> bytes_of files < 2 ^ 63 ->
  total files = bytes_of files.
Proof.
  intros Hf Hs. unfold total. assert (Hg : forall a, 0 <= a -> a + bytes_of files < 2 ^ 63 ->
    foldl (fun ret f => i64 (ret + f_Length f)) a files = a + bytes_of files).
  { clear Hs. induction Hf as [|f files Hl Hf IH]; intros a Ha Hb; cbn [bytes_of foldl] in *; [lia|]. pose proof (bytes_nonneg files Hf). rewrite i64_small by lia. rewrite IH by lia. lia. }
  apply Hg; lia.
Qed.

Lemma verify_piece_on_disk fs mi info dir cs i : layout_ok info -> TorrentFile.mi_Info mi = Ok info -> i_Files info <> [] ->
  Forall2 (on_disk fs (Join [dir; i_Name info]) info) (i_Files info) cs -> len (concat cs) < 2 ^ 63 -> 0 <= i < CountPieces info ->
  verifyPiece fs mi dir (MkPiece info i) = Ok (matches info (concat cs) i).
Proof.
  intros Hlay Hm Hdir Hf Hs Hi. pose proof (piece_offset info Hlay i Hi) as Ho. pose proof (piece_length info Hlay i Hi) as Hl.
  pose proof (piece_length_pos info Hlay i Hi) as Hp. assert (Ht : TotalLength info = len (concat cs)).
  { unfold TotalLength, IsDir. rewrite bool_decide_eq_false_2 by done. by eapply contents_total. }
  unfold verifyPiece. rewrite Hm, bind_Ok. destruct Hlay.
  assert (Hr : Piece_Offset (MkPiece info i) + Piece_Length (MkPiece info i) <= len (concat cs)) by (rewrite Ho, Hl; lia).
  rewrite (read_piece fs mi info _ (MkPiece info i) cs); [|done|done|done|done|rewrite Ho; nia|lia|lia]. rewrite bind_Ok.
  unfold matches, piece_data. rewrite <- Ho. rewrite decide_False; [done|]. intros Hne. apply Hne. unfold len. rewrite length_take, length_drop.
  unfold len in Hr. assert (0 <= Piece_Offset (MkPiece info i)) by (rewrite Ho; nia). lia.
Qed.

Lemma verify_piece_single fs mi info dir i : layout_ok info -> TorrentFile.mi_Info mi = Ok info -> i_Files info = [] -> 0 <= i < CountPieces info ->
  verifyPiece fs mi dir (MkPiece info i) = Ok false.
Proof.
  intros Hlay Hm Hf Hi. pose proof (piece_length_pos info Hlay i Hi) as Hp. unfold verifyPiece, readPieceFromFiles. rewrite Hm, !bind_Ok, Hf. cbv zeta.
  rewrite decide_False by lia. cbn [read_files]. rewrite decide_True by (pose proof (len_nonneg (replicate (Z.to_nat (Piece_Length (MkPiece info i))) 0)); lia).
  rewrite bind_Ok, decide_True; [done|]. rewrite take_0. change (len (@nil Z)) with 0. lia.
Qed.

(** None of the files is where verification looks. *)
Lemma read_missing fs info dir off n files : 0 <= off -> 0 < n -> off + n < 2 ^ 63 ->
  Forall (fun f => fs !! Join [dir; File_Path f info] = None /\ 0 <= f_Length f) files ->
  forall cur pos data, 0 <= cur <= off -> off < cur + bytes_of files -> cur + bytes_of files < 2 ^ 63 ->
  exists e, read_files fs info dir off n files cur pos data = Err e.
Proof.
  intros Ho Hn Hb. induction 1 as [|f files [Hf Hl] Hfs IH]; intros cur pos data Hc Hlt Hsum; cbn [read_files bytes_of] in *; [lia|].
  assert (0 <= bytes_of files) by (apply bytes_nonneg; eapply Forall_impl; [exact Hfs|]; by intros g [_ ?]).
  unfold shouldSkipFile, isFileAfterPiece. rewrite !i64_small by lia. case_bool_decide as Hskip; [apply IH; lia|].
  rewrite bool_decide_eq_false_2 by lia. destruct (calculateReadParameters _ _ _ _) as [st k]. unfold readFileSegment. rewrite Hf. by eexists.
Qed.

(** Reading a piece answers or panics, and a negative length panics. *)
Lemma read_files_answers fs info dir off n files : forall cur pos data, read_files fs info dir off n files cur pos data <> NoFuel.
Proof.
  induction files as [|f files IH]; intros cur pos data; cbn [read_files]; [by case_decide|].
  destruct (shouldSkipFile _ _ _); [apply IH|]. destruct (isFileAfterPiece _ _ _); [by case_decide|]. destruct (calculateReadParameters _ _ _ _) as [st k].
  assert (Hs : forall path, readFileSegment fs path st k <> NoFuel) by (intros path; unfold readFileSegment; destruct (fs !! path); [|done]; repeat case_decide; done).
  specialize (Hs (Join [dir; File_Path f info])). destruct (readFileSegment _ _ _ _); try done. rewrite bind_Ok. case_decide; [apply IH|done].
Qed.

Lemma verify_piece_answers fs mi info dir p : TorrentFile.mi_Info mi = Ok info -> verifyPiece fs mi dir p <> NoFuel.
Proof.
  intros Hm. unfold verifyPiece, readPieceFromFiles. rewrite Hm, !bind_Ok. cbv zeta. case_decide; [done|].
  pose proof (read_files_answers fs info (Join [dir; i_Name info]) (Piece_Offset p) (Piece_Length p) (i_Files info) 0 0 (replicate (Z.to_nat (Piece_Length p)) 0)) as Hr.
  destruct (read_files _ _ _ _ _ _ _ _ _); try done. rewrite bind_Ok. by case_decide.
Qed.

Lemma verify_pieces_panics fs mi info dir n : TorrentFile.mi_Info mi = Ok info -> Piece_Length (MkPiece info (CountPieces info - 1)) < 0 ->
  forall i s, 0 <= i -> i + Z.of_nat n = CountPieces info -> (0 < n)%nat -> exists p, verify_pieces fs mi dir info n i s = Panic p.
Proof.
  intros Hm Hneg. induction n as [|n IH]; intros i [[v t] c] Hi Hn Hpos; [lia|]. cbn [verify_pieces]. unfold Info_Piece.
  rewrite decide_False by (unfold CountPieces in *; lia). rewrite bind_Ok. destruct n as [|n].
  - replace i with (CountPieces info - 1) by lia. unfold verifyPiece, readPieceFromFiles. rewrite Hm, !bind_Ok. cbv zeta. rewrite decide_True by done. by eexists.
  - pose proof (verify_piece_answers fs mi info dir (MkPiece info i) Hm). destruct (verifyPiece _ _ _ _) as [[]| | |]; try done; [apply IH; lia..|by eexists].
Qed.

Section Results.
Context {I : Type} `{I2PKeys I}.
Abbreviation TM := (TorrentManager (I := I)).

Lemma verify_task fs l t mi info r (tm : TM) : tm_heap tm !! l = Some t -> t_MetaInfo t = Some mi -> TorrentFile.mi_Info mi = Ok info ->
  verify_pieces fs mi (t_DownloadDir t) info (length (i_Pieces info)) 0 (0, 0, 0) = Ok r ->
  verifyTorrentAsync fs l tm = Ok (go [VerifyBytes l info r.1.1 r.1.2 r.2] tm).
Proof. intros Ht Hm Hi Hv. unfold verifyTorrentAsync. rewrite (torrent_at_heap _ _ _ Ht), Hm, Hi, Hv, bind_Ok. by destruct r as [[? ?] ?]. Qed.

(** The torrent after the two sections under the mutex. *)
Definition verify_result (l : loc) (info : Info) (v b c : Z) (tm : TM) : TorrentState := torrent_at l (verify_finish l info v c (verify_bytes l info v b c tm)).

Lemma result_torrent l info v b c t (tm : TM) : tm_heap tm !! l = Some t ->
  verify_result l info v b c tm = set_Status (if decide (v = CountPieces info) then TorrentStatusSeeding else TorrentStatusDownloading)
    (updateFileCompletion info c (set_Transfer c (i64 (b - c)) t)).
Proof.
  intros Ht. apply torrent_at_heap. cbn. by rewrite !list_lookup_alter_eq, Ht.
Qed.

(** C22: verification counts exactly the pieces that match. When the files of a
    torrent lie, with their lengths, where verification looks for them, each
    piece is compared with its bytes of the concatenated files; the verified
    bytes are counted, the rest is left, and the torrent is seeding exactly
    when every piece matches. *)
Theorem verify_counts_pieces fs l t mi info cs (tm : TM) : tm_heap tm !! l = Some t -> t_MetaInfo t = Some mi -> TorrentFile.mi_Info mi = Ok info ->
  layout_ok info -> i_Files info <> [] -> len (concat cs) < 2 ^ 63 ->
  Forall2 (on_disk fs (Join [t_DownloadDir t; i_Name info]) info) (i_Files info) cs ->
  let found := filter (fun i => matches info (concat cs) i = true) (seqZ 0 (CountPieces info)) in
  verifyTorrentAsync fs l tm = Ok (go [VerifyBytes l info (len found) (len (concat cs)) (lengths_of info found)] tm) /\
  let t' := verify_result l info (len found) (len (concat cs)) (lengths_of info found) tm in
  t_Downloaded t' = lengths_of info found /\ t_Left t' = len (concat cs) - lengths_of info found /\
  (t_Status t' = TorrentStatusSeeding <-> forall i, 0 <= i < CountPieces info -> matches info (concat cs) i = true) /\
  (t_Status t' = TorrentStatusSeeding \/ t_Status t' = TorrentStatusDownloading).
Proof.
  cbv zeta. intros Ht Hm Hi Hlay Hdir Hs Hf. assert (Htot : TotalLength info = len (concat cs)).
  { unfold TotalLength, IsDir. rewrite bool_decide_eq_false_2 by done. by eapply contents_total. }
  pose proof (found_bound info Hlay (matches info (concat cs))) as Hb. split.
  - rewrite <- Htot. apply (verify_task fs l t mi info (_, _, _) tm Ht Hm Hi). apply (verified_all info Hlay).
    intros i Hr. by apply verify_piece_on_disk.
  - rewrite (result_torrent _ _ _ _ _ _ _ Ht). cbn. rewrite i64_small by (pose proof (len_nonneg (concat cs)); lia). split; [done|]. split; [done|].
    rewrite <- (all_found_iff info Hlay (matches info (concat cs))). case_decide; split; (done || auto).
Qed.

(** a torrent of a single file is never verified. Whatever is on disk, the
    loop over the files finds none, so that no piece matches: nothing counts as
    downloaded, everything is left, and the torrent is downloading. *)
Theorem single_file_never_verified fs l t mi info (tm : TM) : tm_heap tm !! l = Some t -> t_MetaInfo t = Some mi -> TorrentFile.mi_Info mi = Ok info ->
  layout_ok info -> i_Files info = [] ->
  verifyTorrentAsync fs l tm = Ok (go [VerifyBytes l info 0 (i_Length info) 0] tm) /\
  let t' := verify_result l info 0 (i_Length info) 0 tm in
  t_Status t' = TorrentStatusDownloading /\ t_Downloaded t' = 0 /\ t_Left t' = i_Length info.
Proof.
  intros Ht Hm Hi Hlay Hf. assert (Htot : TotalLength info = i_Length info) by (unfold TotalLength, IsDir; by rewrite bool_decide_eq_true_2).
  assert (Hno : filter (fun j => false = true) (seqZ 0 (CountPieces info)) = []) by (apply filter_nothing; by apply Forall_forall). split.
  - rewrite <- Htot. apply (verify_task fs l t mi info (_, _, _) tm Ht Hm Hi). rewrite (verified_all info Hlay fs mi _ (fun _ => false)); [by rewrite Hno|].
    intros i Hr. by apply verify_piece_single.
  - cbv zeta. rewrite (result_torrent _ _ _ _ _ _ _ Ht). cbn. pose proof (total_pos info Hlay). destruct Hlay. rewrite decide_False by lia.
    split; [done|]. split; [done|]. rewrite Z.sub_0_r. apply i64_small. lia.
Qed.

(** data that the writer stored is not found. Verification looks for a file
    below the directory and the name of the torrent, and the path of the file
    already starts with that name; when nothing lies there, every piece fails
    to be read and is not counted at all: the torrent has nothing downloaded,
    nothing left, and is downloading. *)
Theorem verify_misses_files fs l t mi info (tm : TM) : tm_heap tm !! l = Some t -> t_MetaInfo t = Some mi -> TorrentFile.mi_Info mi = Ok info ->
  layout_ok info -> i_Files info <> [] ->
  Forall (fun f => fs !! verify_path (t_DownloadDir t) info f = None /\ 0 <= f_Length f) (i_Files info) ->
  bytes_of (i_Files info) < 2 ^ 63 ->
  verifyTorrentAsync fs l tm = Ok (go [VerifyBytes l info 0 0 0] tm) /\
  let t' := verify_result l info 0 0 0 tm in t_Status t' = TorrentStatusDownloading /\ t_Downloaded t' = 0 /\ t_Left t' = 0.
Proof.
  intros Ht Hm Hi Hlay Hdir Hf Hs. split; [|cbv zeta; rewrite (result_torrent _ _ _ _ _ _ _ Ht); cbn; destruct Hlay; rewrite decide_False by lia; done].
  apply (verify_task fs l t mi info (_, _, _) tm Ht Hm Hi).
  assert (Htot : TotalLength info = bytes_of (i_Files info)).
  { unfold TotalLength, IsDir. rewrite bool_decide_eq_false_2 by done. apply total_files; [|done]. eapply Forall_impl; [exact Hf|]. by intros f [_ ?]. }
  assert (Hp : forall i, 0 <= i < CountPieces info -> exists e, verifyPiece fs mi (t_DownloadDir t) (MkPiece info i) = Err e).
  { intros i Hr. pose proof (piece_offset info Hlay i Hr) as Ho. pose proof (piece_length info Hlay i Hr) as Hl. pose proof (piece_length_pos info Hlay i Hr) as Hpos.
    unfold verifyPiece, readPieceFromFiles. rewrite Hi, !bind_Ok. cbv zeta. rewrite decide_False by lia. destruct Hlay.
    destruct (read_missing fs info (Join [t_DownloadDir t; i_Name info]) (Piece_Offset (MkPiece info i)) (Piece_Length (MkPiece info i)) (i_Files info)
      ltac:(rewrite Ho; nia) Hpos ltac:(rewrite Ho; lia) Hf 0 0 (replicate (Z.to_nat (Piece_Length (MkPiece info i))) 0)) as [e He]; [rewrite Ho; nia|lia|lia|].
    exists e. by rewrite He. }
  enough (Hall : forall n i, 0 <= i -> i + Z.of_nat n = CountPieces info -> verify_pieces fs mi (t_DownloadDir t) info n i (0, 0, 0) = Ok (0, 0, 0)) by (by apply Hall).
  induction n as [|n IH]; intros i Hi0 Hn; [done|]. cbn [verify_pieces]. unfold Info_Piece. rewrite decide_False by (unfold CountPieces in *; lia). rewrite bind_Ok.
  destruct (Hp i) as [e ->]; [lia|]. apply IH; lia.
Qed.

(** a malformed torrent crashes the daemon. A torrent file with more piece
    hashes than its data has pieces gives its last piece a negative length, and
    verifying it panics in a goroutine, whatever is on disk; nothing checks this
    when the torrent is added. *)
Theorem verify_malformed_panics fs l t mi info (tm : TM) : tm_heap tm !! l = Some t -> t_MetaInfo t = Some mi -> TorrentFile.mi_Info mi = Ok info ->
  i_Pieces info <> [] -> Piece_Length (MkPiece info (CountPieces info - 1)) < 0 -> exists p, verifyTorrentAsync fs l tm = Panic p.
Proof.
  intros Ht Hm Hi Hne Hneg. unfold verifyTorrentAsync. rewrite (torrent_at_heap _ _ _ Ht), Hm, Hi.
  destruct (verify_pieces_panics fs mi info (t_DownloadDir t) (length (i_Pieces info)) Hi Hneg 0 (0, 0, 0)) as [p ->]; [lia|done| |by eexists].
  destruct (i_Pieces info); [done|cbn; lia].
Qed.
End Results.

(** ** Witnesses *)
#[local] Existing Instance Address.demo_keys.
Definition meta (b : bytes) : TorrentFile.MetaInfo := TorrentFile.MkMeta (Some b) [] [] [] [] 0 [] [] [].
Definition with_torrent (b : bytes) : TorrentManager (I := bytes) :=
  with_heap [set_DownloadDir (bs "d") (set_MetaInfo (Some (meta b)) zeroTorrent)] (NewTorrentManager 9 true demo_tm_config).
Definition encoded (info : Info) : bytes := match TorrentFile.EncodeInfo info with Ok b => b | _ => [] end.
Definition single_info : Info := MkInfo (bs "f") 16384 [Sha1.Sum (bs "x")] 1 [].
Definition bad_info : Info := MkInfo (bs "f") 16384 [Sha1.Sum (bs "x"); zeroHash] 1 [].
Definition demo_bytes : bytes := Eval vm_compute in encoded TorrentFacts.demo_info.
Definition single_bytes : bytes := Eval vm_compute in encoded single_info.
Definition bad_bytes : bytes := Eval vm_compute in encoded bad_info.
Definition verify_fs : Storage.FS := {[bs "d/dir/dir/a/b" := bs "x"]}.
Definition written_fs : Storage.FS := {[bs "d/dir/a/b" := bs "x"]}.

Lemma demo_layout : layout_ok TorrentFacts.demo_info.
Proof. split; vm_compute; [reflexivity|reflexivity|split; [reflexivity|discriminate]|reflexivity]. Qed.
Lemma single_layout : layout_ok single_info.
Proof. split; vm_compute; [reflexivity|reflexivity|split; [reflexivity|discriminate]|reflexivity]. Qed.

Lemma verify_counts_pieces_witness :
  verifyTorrentAsync verify_fs 0 (with_torrent demo_bytes) = Ok (go [VerifyBytes 0 TorrentFacts.demo_info 1 1 1] (with_torrent demo_bytes)) /\
  let t' := verify_result 0 TorrentFacts.demo_info 1 1 1 (with_torrent demo_bytes) in t_Downloaded t' = 1 /\ t_Left t' = 0.
Proof.
  destruct (verify_counts_pieces verify_fs 0 (torrent_at 0 (with_torrent demo_bytes)) (meta demo_bytes) TorrentFacts.demo_info [bs "x"] (with_torrent demo_bytes))
    as (H1 & H2 & H3 & _).
  - reflexivity.
  - reflexivity.
  - vm_compute. reflexivity.
  - exact demo_layout.
  - discriminate.
  - vm_compute. reflexivity.
  - constructor; [|constructor]. split; vm_compute; reflexivity.
  - assert (Hf : filter (fun i => matches TorrentFacts.demo_info (concat [bs "x"]) i = true) (seqZ 0 (CountPieces TorrentFacts.demo_info)) = [0]) by (vm_compute; reflexivity).
    rewrite Hf in *. split; [exact H1|]. split; [exact H2|exact H3].
Defined.

Lemma single_file_never_verified_witness :
  verifyTorrentAsync {[bs "d/f" := bs "x"]} 0 (with_torrent single_bytes) = Ok (go [VerifyBytes 0 single_info 0 1 0] (with_torrent single_bytes)).
Proof.
  apply (single_file_never_verified {[bs "d/f" := bs "x"]} 0 (torrent_at 0 (with_torrent single_bytes)) (meta single_bytes) single_info (with_torrent single_bytes)).
  - reflexivity.
  - reflexivity.
  - vm_compute. reflexivity.
  - exact single_layout.
  - reflexivity.
Defined.

Lemma verify_misses_files_witness : PathWithPrefix (MkFile 1 [bs "a"; bs "b"]) (bs "d") TorrentFacts.demo_info = bs "d/dir/a/b" /\
  verifyTorrentAsync written_fs 0 (with_torrent demo_bytes) = Ok (go [VerifyBytes 0 TorrentFacts.demo_info 0 0 0] (with_torrent demo_bytes)).
Proof.
  split; [vm_compute; reflexivity|].
  apply (verify_misses_files written_fs 0 (torrent_at 0 (with_torrent demo_bytes)) (meta demo_bytes) TorrentFacts.demo_info (with_torrent demo_bytes)).
  - reflexivity.
  - reflexivity.
  - vm_compute. reflexivity.
  - exact demo_layout.
  - discriminate.
  - constructor; [|constructor]. split; [vm_compute; reflexivity|discriminate].
  - vm_compute. reflexivity.
Defined.

Lemma verify_malformed_panics_witness : exists p, verifyTorrentAsync ∅ 0 (with_torrent bad_bytes) = Panic p.
Proof.
  apply (verify_malformed_panics ∅ 0 (torrent_at 0 (with_torrent bad_bytes)) (meta bad_bytes) bad_info (with_torrent bad_bytes)).
  - reflexivity.
  - reflexivity.
  - vm_compute. reflexivity.
  - discriminate.
  - vm_compute. reflexivity.
Defined.

End VerifyFacts.
