(* ===== verification/RpcFacts.v ===== *)
(** * The RPC methods: what they change

    [torrent-set] on a torrent, the session methods, the bandwidth schedule and
    the dispatch of methods. *)

From S2P Require Import Prelude Strconv Bencode BencodeFacts BencodeTyped Sha1 Hash Net Address Metainfo GoLib Url Magnet TorrentFile Bandwidth.
From S2P Require Import RpcTypes QueueManager QueueFacts Blocklist PexManager WebSeed FileManager TorrentManager RpcMessages RpcMethods TorrentManagerFacts.
From Stdlib Require Import SpecFloat.
Import Hash GoLib Bandwidth RpcTypes TorrentManager RpcMessages RpcMethods.

Module RpcFacts.

(** ** Assignments by index *)
Definition in_range {A} (l : list A) (i : Z) : Prop := 0 <= i < len l.

Lemma set_indices_ok {A} name indices (v : A) : forall l, Forall (in_range l) indices -> exists l', set_indices name indices v l = (Ok (), l') /\
  length l' = length l /\ forall i : nat, l' !! i = if decide (Z.of_nat i ∈ indices) then Some v else l !! i.
Proof.
  induction indices as [|j indices IH]; intros l Hr; cbn [set_indices].
  { exists l. split; [done|]. split; [done|]. intros i. by rewrite decide_False by (by intros ?%elem_of_nil). }
  inversion_clear Hr as [|? ? [J1 J2] Hr']. unfold len in *. rewrite decide_False by lia.
  destruct (IH (<[Z.to_nat j := v]> l)) as (l' & E & Hlen & Hl).
  { eapply Forall_impl; [exact Hr'|]. intros k. unfold in_range, len. by rewrite length_insert. }
  exists l'. split; [done|]. rewrite length_insert in Hlen. split; [done|]. intros i. rewrite Hl.
  destruct (decide (Z.of_nat i ∈ indices)) as [Hi|Hi]; [by rewrite decide_True by (by right)|].
  destruct (decide (i = Z.to_nat j)) as [->|Hne].
  - rewrite list_lookup_insert_eq by lia. rewrite decide_True; [done|]. rewrite Z2Nat.id by lia. by left.
  - rewrite list_lookup_insert_ne by done. rewrite decide_False; [done|]. intros [Ej|?]%elem_of_cons; [lia|done].
Qed.

Lemma set_indices_error {A} name indices (v : A) : forall l, ~ Forall (in_range l) indices -> exists e, (set_indices name indices v l).1 = Err e.
Proof.
  induction indices as [|j indices IH]; intros l Hr; cbn [set_indices]; [by destruct Hr|]. case_decide as Hj; [by eexists|].
  apply IH. intros Hn. apply Hr. constructor; [unfold in_range; lia|]. eapply Forall_impl; [exact Hn|]. intros x. unfold in_range, len. by rewrite length_insert.
Qed.

(** ** Removing by index *)
Definition keep (removed : list Z) (l : list bytes) : list bytes :=
  omap id (imap (fun i x => if decide (Z.of_nat i ∈ removed) then None else Some x) l).

Lemma keep_nil l : keep [] l = l.
Proof.
  unfold keep. assert (E : imap (fun i x => if decide (Z.of_nat i ∈ []) then None else Some x) l = Some <$> l).
  { rewrite <- imap_const. apply imap_ext. intros i x _. by rewrite decide_False by (by intros ?%elem_of_nil). }
  rewrite E. clear E. induction l as [|x l IH]; cbn; [done|]. f_equal. exact IH.
Qed.

Lemma keep_app rm l k : keep rm (l ++ k) = keep rm l ++ keep (map (fun i => i - len l) rm) k.
Proof.
  unfold keep. rewrite imap_app, omap_app. f_equal. f_equal. apply imap_ext. intros i x _. unfold len.
  destruct (decide (Z.of_nat (length l + i) ∈ rm)) as [Hi|Hi].
  - rewrite decide_True; [done|]. apply list_elem_of_fmap. exists (Z.of_nat (length l + i)). split; [lia|done].
  - rewrite decide_False; [done|]. intros (j & Ej & Hj)%list_elem_of_fmap. apply Hi. by replace (Z.of_nat (length l + i)) with j by lia.
Qed.

Lemma keep_ext rm rm' l : (forall i, in_range l i -> i ∈ rm <-> i ∈ rm') -> keep rm l = keep rm' l.
Proof.
  intros Hi. unfold keep. f_equal. apply imap_ext. intros i x Hx. apply lookup_lt_Some in Hx. specialize (Hi (Z.of_nat i)). unfold in_range, len in Hi.
  destruct (decide (Z.of_nat i ∈ rm)), (decide (Z.of_nat i ∈ rm')); try done; naive_solver lia.
Qed.

(** Indices in strictly descending order are removed one by one. *)
Lemma remove_descending indices : forall l, StronglySorted (fun a b => b < a) indices -> Forall (in_range l) indices -> remove_indices indices l = Ok (keep indices l).
Proof.
  induction indices as [|i indices IH]; intros l Hs Hr; cbn [remove_indices]; [by rewrite keep_nil|].
  inversion_clear Hs as [|? ? Hs' Hlt]. inversion_clear Hr as [|? ? [I1 I2] Hr']. rewrite decide_False by lia.
  assert (Hlen : len (take (Z.to_nat i) l) = i) by (unfold len in *; rewrite length_take; lia).
  assert (Hsplit : l = take (Z.to_nat i) l ++ drop (Z.to_nat i) l) by (by rewrite take_drop).
  assert (Hd : exists x, drop (Z.to_nat i) l = x :: drop (Z.to_nat (i + 1)) l).
  { destruct (lookup_lt_is_Some_2 l (Z.to_nat i)) as [y Hx]; [unfold len in *; lia|]. exists y. rewrite (drop_S _ _ _ Hx). f_equal. f_equal. lia. }
  destruct Hd as [y Hd]. rewrite IH; [|done|].
  - f_equal. rewrite Hsplit at 3. rewrite Hd, !keep_app, Hlen. f_equal.
    + apply keep_ext. intros j [J1 J2]. rewrite Hlen in J2. rewrite elem_of_cons. naive_solver lia.
    + rewrite (keep_ext _ []); [|intros j [J1 J2]; split; [|by intros ?%elem_of_nil]].
      * rewrite keep_nil. change (y :: drop (Z.to_nat (i + 1)) l) with ([y] ++ drop (Z.to_nat (i + 1)) l). rewrite keep_app.
        rewrite (keep_ext (map _ (map _ (i :: indices))) []); [rewrite keep_nil|].
        { unfold keep. cbn. rewrite decide_True; [done|]. replace (i - i) with 0 by lia. by left. }
        intros j [J1 J2]. split; [|by intros ?%elem_of_nil]. rewrite map_map. intros (k & Ek & Hk)%list_elem_of_fmap. unfold len in Ek. cbn in Ek.
        apply elem_of_cons in Hk as [->|Hk]; [lia|]. rewrite Forall_forall in Hlt. specialize (Hlt k Hk). lia.
      * intros (k & Ek & Hk)%list_elem_of_fmap. rewrite Forall_forall in Hlt. specialize (Hlt k Hk). lia.
  - rewrite Forall_forall in Hr', Hlt |- *. intros k Hk. specialize (Hr' k Hk). specialize (Hlt k Hk). unfold in_range, len in *.
    rewrite length_app, length_take, length_drop. lia.
Qed.

Lemma sorted_strict (l : list Z) : StronglySorted (ExchangeSort.higher id) l -> NoDup l -> StronglySorted (fun a b => b < a) l.
Proof.
  induction 1 as [|a l Hs IH Ha]; [constructor|]. intros [Hn Hd]%NoDup_cons. constructor; [by apply IH|]. rewrite Forall_forall in Ha |- *.
  intros b Hb. specialize (Ha b Hb). unfold ExchangeSort.higher in Ha. cbn in Ha. assert (b <> a) by (intros ->; done). lia.
Qed.

Lemma remove_trackers_ok indices l : NoDup indices -> Forall (in_range l) indices -> removeTrackersWithBoundsCheck indices l = Ok (keep indices l).
Proof.
  intros Hn Hr. unfold removeTrackersWithBoundsCheck. assert (E : existsb (fun idx => bool_decide (idx < 0 \/ len l <= idx)) indices = false).
  { apply not_true_is_false. rewrite existsb_exists. intros (x & Hx%list_elem_of_In & Hb%bool_decide_eq_true). rewrite Forall_forall in Hr.
    specialize (Hr x Hx). unfold in_range in Hr. lia. }
  rewrite E. destruct (ExchangeSort.exchange_spec id (length indices) indices) as [Hp Hs]; [lia|]. fold (sortIndicesDescending indices) in *.
  rewrite remove_descending.
  - f_equal. apply keep_ext. intros i _. by rewrite Hp.
  - apply sorted_strict; [done|by rewrite Hp].
  - by rewrite Hp.
Qed.

(** What session-get is to answer after a session-set: the fields of the request
    where it has them, and the size of the blocklist as it is then. *)
Definition merged (req : SessionSetRequest) (size : Z) (g : SessionGetResponse) : SessionGetResponse :=
  MkSessionGet
    (default (g_AltSpeedDown g) (q_AltSpeedDown req)) (default (g_AltSpeedEnabled g) (q_AltSpeedEnabled req)) (g_AltSpeedTimeBegin g)
    (g_AltSpeedTimeDay g) (g_AltSpeedTimeEnabled g) (g_AltSpeedTimeEnd g) (default (g_AltSpeedUp g) (q_AltSpeedUp req))
    (default (g_BlocklistEnabled g) (q_BlocklistEnabled req)) size (default (g_BlocklistURL g) (q_BlocklistURL req))
    (default (g_CacheSizeMB g) (q_CacheSizeMB req)) (g_ConfigDir g) (default (g_DHT g) (q_DHT req)) (default (g_DownloadDir g) (q_DownloadDir req))
    (g_DownloadDirFreeSpace g) (default (g_DownloadQueueEnabled g) (q_DownloadQueueEnabled req))
    (default (g_DownloadQueueSize g) (q_DownloadQueueSize req)) (default (g_Encryption g) (q_Encryption req))
    (default (g_IdleSeedingLimit g) (q_IdleSeedingLimit req)) (default (g_IdleSeedingLimitEnabled g) (q_IdleSeedingLimitEnabled req))
    (default (g_IncompleteDir g) (q_IncompleteDir req)) (default (g_IncompleteDirEnabled g) (q_IncompleteDirEnabled req))
    (default (g_LPD g) (q_LPD req)) (default (g_PeerLimitGlobal g) (q_PeerLimitGlobal req))
    (default (g_PeerLimitPerTorrent g) (q_PeerLimitPerTorrent req)) (default (g_PeerPort g) (q_PeerPort req)) (g_PeerPortRandomOnStart g)
    (default (g_PEX g) (q_PEX req)) (g_PortForwardingEnabled g) (g_QueueStalledEnabled g) (g_QueueStalledMinutes g) (g_RenamePartialFiles g)
    (g_RPCVersion g) (g_RPCVersionMinimum g) (g_ScriptTorrentDoneEnabled g) (g_ScriptTorrentDoneFilename g)
    (default (g_SeedQueueEnabled g) (q_SeedQueueEnabled req)) (default (g_SeedQueueSize g) (q_SeedQueueSize req))
    (default (g_SeedRatioLimit g) (q_SeedRatioLimit req)) (default (g_SeedRatioLimited g) (q_SeedRatioLimited req))
    (default (g_SpeedLimitDown g) (q_SpeedLimitDown req)) (default (g_SpeedLimitDownEnabled g) (q_SpeedLimitDownEnabled req))
    (default (g_SpeedLimitUp g) (q_SpeedLimitUp req)) (default (g_SpeedLimitUpEnabled g) (q_SpeedLimitUpEnabled req))
    (default (g_StartAddedTorrents g) (q_StartAddedTorrents req)) (g_TrashOriginalTorrentFiles g) (default (g_UTP g) (q_UTP req)) (g_Version g).

(** ** torrent-set on one torrent *)
Section Set_.
Context {I : Type} `{I2PKeys I} `{SortSlice} `{MapRange} {OS : Type} `{OperatingSystem OS} `{Disk OS}.
Context (wild : float -> Z) (parseAuthority : bytes -> res bytes) (maxParams : option Z) (failedName : bytes -> bytes).
Abbreviation TM := (TorrentManager (I := I)).

(** The flags and priorities a request asks for. *)
Definition wanted_at (req : TorrentActionRequest) (old : list bool) (i : nat) : option bool :=
  if decide (Z.of_nat i ∈ a_FilesUnwanted req) then Some false else if decide (Z.of_nat i ∈ a_FilesWanted req) then Some true else old !! i.
Definition priority_at (req : TorrentActionRequest) (old : list Z) (i : nat) : option Z :=
  if decide (Z.of_nat i ∈ a_PriorityLow req) then Some (-1) else if decide (Z.of_nat i ∈ a_PriorityNormal req) then Some 0
  else if decide (Z.of_nat i ∈ a_PriorityHigh req) then Some 1 else old !! i.

Record set_in_range (req : TorrentActionRequest) (t : TorrentState) : Prop := {
  sr_wanted : Forall (in_range (t_Wanted t)) (a_FilesWanted req);
  sr_unwanted : Forall (in_range (t_Wanted t)) (a_FilesUnwanted req);
  sr_high : Forall (in_range (t_Priorities t)) (a_PriorityHigh req);
  sr_normal : Forall (in_range (t_Priorities t)) (a_PriorityNormal req);
  sr_low : Forall (in_range (t_Priorities t)) (a_PriorityLow req)
}.

Lemma in_range_length {A} (l l' : list A) is_ : length l' = length l -> Forall (in_range l) is_ -> Forall (in_range l') is_.
Proof. intros E Hr. eapply Forall_impl; [exact Hr|]. intros i. unfold in_range, len. by rewrite E. Qed.

Lemma files_changed req t : set_in_range req t -> exists w p, applyFileManagementChanges req t = (Ok (), set_FileArrays (t_Files t) p w t) /\
  (forall i, w !! i = wanted_at req (t_Wanted t) i) /\ (forall i, p !! i = priority_at req (t_Priorities t) i).
Proof.
  intros [R1 R2 R3 R4 R5]. unfold applyFileManagementChanges, updateFileSelection.
  destruct (set_indices_ok "files-wanted" (a_FilesWanted req) true (t_Wanted t) R1) as (w1 & -> & L1 & W1).
  destruct (set_indices_ok "files-unwanted" (a_FilesUnwanted req) false w1) as (w2 & -> & L2 & W2); [by apply (in_range_length (t_Wanted t))|].
  unfold updateFilePriorities. change (t_Priorities (set_FileArrays _ _ w2 t)) with (t_Priorities t).
  destruct (set_indices_ok "priority-high" (a_PriorityHigh req) 1 (t_Priorities t) R3) as (p1 & -> & M1 & P1).
  destruct (set_indices_ok "priority-normal" (a_PriorityNormal req) 0 p1) as (p2 & -> & M2 & P2); [by apply (in_range_length (t_Priorities t))|].
  destruct (set_indices_ok "priority-low" (a_PriorityLow req) (-1) p2) as (p3 & -> & M3 & P3); [apply (in_range_length (t_Priorities t)); [congruence|done]|].
  exists w2, p3. split; [done|]. split; intros i; unfold wanted_at, priority_at; [rewrite W2, W1|rewrite P3, P2, P1]; done.
Qed.

Lemma update_const l (t : TorrentState) (tm : TM) : update_torrent l (fun _ => t) tm = with_heap (alter (fun _ => t) l (tm_heap tm)) tm.
Proof. done. Qed.
Lemma torrent_at_set l t t' (tm : TM) : tm_heap tm !! l = Some t -> torrent_at l (update_torrent l (fun _ => t') tm) = t'.
Proof. intros E. unfold torrent_at. cbn. by rewrite list_lookup_alter_eq, E. Qed.
Lemma heap_set l t t' (tm : TM) : tm_heap tm !! l = Some t -> tm_heap (update_torrent l (fun _ => t') tm) !! l = Some t'.
Proof. intros E. cbn. by rewrite list_lookup_alter_eq, E. Qed.
Lemma set_set l f g (tm : TM) : update_torrent l g (update_torrent l f tm) = update_torrent l (fun t => g (f t)) tm.
Proof. apply TorrentManagerFacts.update_twice. Qed.
Lemma alter_insert l (t t' : TorrentState) (h : list TorrentState) : h !! l = Some t -> alter (fun _ => t') l h = <[l := t']> h.
Proof.
  intros E. apply list_eq. intros i. destruct (decide (i = l)) as [->|Hne].
  - rewrite list_lookup_alter_eq, E, list_lookup_insert_eq; [done|]. by eapply lookup_lt_Some.
  - by rewrite list_lookup_alter_ne, list_lookup_insert_ne.
Qed.

(** Where a request wants the files to be. *)
Definition location_ok (req : TorrentActionRequest) : Prop := a_Location req = [] \/ (a_Move req = false /\ TrimSpace (a_Location req) <> []).

(** The tracker a request replaces, and the URL it gets. *)
Definition replace_at (req : TorrentActionRequest) : option (Z * bytes) :=
  match a_TrackerReplace req with
  | [IdInt n; IdString url] => Some (n, url)
  | [IdFloat f; IdString url] => Some (f_to_int64 wild f, url)
  | _ => None
  end.
Definition replaced (req : TorrentActionRequest) (l : list bytes) : list bytes :=
  match replace_at req with Some (n, url) => <[Z.to_nat n := url]> l | None => l end.
Definition replace_ok (req : TorrentActionRequest) (l : list bytes) : Prop :=
  a_TrackerReplace req = [] \/ exists n url, replace_at req = Some (n, url) /\ in_range l n /\ TrimSpace url <> [].

(** The trackers after the additions, and after the removals. *)
Definition with_added (req : TorrentActionRequest) (t : TorrentState) : list bytes := addTrackersWithDuplicateCheck (a_TrackerAdd req) (t_TrackerList t).
Definition with_removed (req : TorrentActionRequest) (t : TorrentState) : list bytes := keep (a_TrackerRemove req) (with_added req t).

(** The torrent a request leaves, with the priorities [p] and the flags [w]:
    the setters change the fields they name and no other. *)
Definition set_result (req : TorrentActionRequest) (p : list Z) (w : list bool) (t : TorrentState) : TorrentState :=
  set_Labels (match a_Labels req with [] => t_Labels t | labels => labels end)
    (set_Seeding (if SFltb fzero (a_SeedRatioLimit req) then a_SeedRatioLimit req else t_SeedRatioLimit t)
      (if decide (0 < a_SeedIdleLimit req) then a_SeedIdleLimit req else t_SeedIdleLimit t)
      (a_HonorsSessionLimits req || t_HonorsSessionLimits t)
      (set_DownloadDir (match a_Location req with [] => t_DownloadDir t | dir => dir end)
        (set_TrackerList (replaced req (with_removed req t)) (set_FileArrays (t_Files t) p w t)))).

Lemma replaced_ok req l : replace_ok req l -> replaceTrackerWithValidation wild (a_TrackerReplace req) l = Ok (replaced req l).
Proof.
  unfold replace_ok, replaced, replace_at. intros [->|(n & url & E & Hn & Hu)]; [done|].
  destruct (a_TrackerReplace req) as [|x [|y [|]]]; try done; [destruct x; done| |destruct x; [..|]; by destruct y].
  unfold in_range in Hn. destruct x as [s|k|fl|]; try done; (destruct y as [s2| | |]; try done); injection E as <- <-; cbn;
    rewrite decide_False, decide_False by (done || lia); done.
Qed.
Lemma labels_seeding req t : applyNonEssentialTorrentChanges req t =
  set_Labels (match a_Labels req with [] => t_Labels t | labels => labels end)
    (set_Seeding (if SFltb fzero (a_SeedRatioLimit req) then a_SeedRatioLimit req else t_SeedRatioLimit t)
      (if decide (0 < a_SeedIdleLimit req) then a_SeedIdleLimit req else t_SeedIdleLimit t)
      (a_HonorsSessionLimits req || t_HonorsSessionLimits t) t).
Proof. unfold applyNonEssentialTorrentChanges, applyTorrentMetadataChanges. by destruct (a_Labels req), t. Qed.

Lemma position_ignored id_ req l f (tm : TM) : a_QueuePosition req < 0 \/ GetTorrentQueuePosition id_ tm < 0 ->
  applyQueuePositionChanges id_ req (update_torrent l f tm) = (Ok (), update_torrent l f tm).
Proof.
  unfold applyQueuePositionChanges. change (GetTorrentQueuePosition id_ (update_torrent l f tm)) with (GetTorrentQueuePosition id_ tm).
  intros [Hq|Hq]; [by rewrite decide_False by lia|]. by rewrite (decide_False (P := 0 <= GetTorrentQueuePosition _ _)) by lia; case_decide.
Qed.

(** What initialising the file arrays changes. *)
Lemma ensured t t0 : ensureFileArraysInitialized t = Ok t0 -> t0 = set_FileArrays (t_Files t) (t_Priorities t0) (t_Wanted t0) t.
Proof.
  unfold ensureFileArraysInitialized. destruct (t_MetaInfo t) as [mi|] eqn:E; [|by intros [= <-]; destruct t]. unfold relabel.
  destruct (TorrentFile.mi_Info mi) as [info| | |]; cbn [mbind res_bind]; try discriminate. by intros [= <-].
Qed.
Lemma ensured_same t t0 : ensureFileArraysInitialized t = Ok t0 ->
  t_ID t0 = t_ID t /\ t_TrackerList t0 = t_TrackerList t /\ t_DownloadDir t0 = t_DownloadDir t /\ t_Labels t0 = t_Labels t /\ t_Status t0 = t_Status t /\
  t_InfoHash t0 = t_InfoHash t /\ t_MetaInfo t0 = t_MetaInfo t /\ t_Files t0 = t_Files t.
Proof. intros ->%ensured. done. Qed.

Lemma changes_applied l req (os : OS) (tm tmq : TM) t t0 :
  tm_heap tm !! l = Some t -> ensureFileArraysInitialized t = Ok t0 -> tm_heap tmq = tm_heap tm ->
  applyQueuePositionChanges (t_ID t) req (update_torrent l (fun _ => t0) tm) = (Ok (), update_torrent l (fun _ => t0) tmq) ->
  set_in_range req t0 -> NoDup (a_TrackerRemove req) -> Forall (in_range (with_added req t)) (a_TrackerRemove req) ->
  replace_ok req (with_removed req t) -> location_ok req ->
  exists p w, applyTorrentChanges wild l req os tm = (Ok (), os, update_torrent l (fun _ => set_result req p w t) tmq) /\
    (forall i, w !! i = wanted_at req (t_Wanted t0) i) /\ (forall i, p !! i = priority_at req (t_Priorities t0) i).
Proof.
  intros Hl He Hh Hq Hr Hn Hrm Hrep Hloc. destruct (files_changed req t0 Hr) as (w & p & Ef & Hw & Hp). exists p, w. split; [|done].
  rewrite <- Hh in Hl. pose proof (ensured _ _ He) as Et0.
  unfold applyTorrentChanges, applyEssentialTorrentChanges. unfold torrent_at at 1. rewrite <- Hh, Hl. cbn [default]. unfold id. rewrite He. cbn [relabel].
  replace (t_ID t0) with (t_ID t) by (by rewrite Et0). rewrite Hq. unfold change at 1. rewrite (torrent_at_set _ t) by done. rewrite Ef, set_set.
  unfold change. rewrite (torrent_at_set _ t) by done.
  replace (set_FileArrays (t_Files t0) p w t0) with (set_FileArrays (t_Files t) p w t) by (by rewrite Et0).
  unfold updateTrackers. change (t_TrackerList (set_FileArrays _ p w t)) with (t_TrackerList t). fold (with_added req t).
  rewrite (remove_trackers_ok _ _ Hn Hrm). fold (with_removed req t). rewrite (replaced_ok _ _ Hrep).
  rewrite set_set. set (t1 := set_TrackerList _ _). unfold set_result. fold t1. unfold applyTorrentLocationChanges.
  case_decide as Hd; [rewrite Hd, set_set, labels_seeding; by destruct t|].
  destruct Hloc as [?|[Hmv Htrim]]; [done|]. unfold updateTorrentLocation. rewrite decide_False, Hmv by done. cbn [relabel].
  unfold UpdateTorrentDownloadDir. rewrite !set_set, labels_seeding. by destruct (a_Location req).
Qed.

(** The queue position. *)
Lemma position_applied id_ l req f (tm : TM) : tm_torrents tm !! id_ = Some l -> QueueFacts.manager_ok (tm_queue tm) ->
  exists qm, applyQueuePositionChanges id_ req (update_torrent l f tm) = (Ok (), update_torrent l f (with_queue qm tm)) /\
    if decide (0 <= a_QueuePosition req /\ 0 <= GetTorrentQueuePosition id_ tm)
    then exists ty, id_ ∈ QueueFacts.order_of ty (tm_queue tm) /\
      QueueManager.GetQueuePosition id_ qm = QueueManager.clamp (len (QueueFacts.order_of ty (tm_queue tm))) (a_QueuePosition req) /\
      QueueManager.SetQueuePosition id_ (a_QueuePosition req) (tm_queue tm) = Ok qm
    else qm = tm_queue tm.
Proof.
  intros Hi Hm. assert (Hsame : update_torrent l f tm = update_torrent l f (with_queue (tm_queue tm) tm)) by (by destruct tm).
  case_decide as Hd.
  - destruct Hd as [Hd1 Hd2]. unfold applyQueuePositionChanges. rewrite decide_True by done.
    change (GetTorrentQueuePosition id_ (update_torrent l f tm)) with (GetTorrentQueuePosition id_ tm). rewrite decide_True by done.
    unfold SetTorrentQueuePosition. change (tm_torrents (update_torrent l f tm)) with (tm_torrents tm). rewrite Hi.
    change (tm_queue (update_torrent l f tm)) with (tm_queue tm). pose proof (QueueFacts.set_position_spec id_ (a_QueuePosition req) (tm_queue tm) Hm) as Hs.
    unfold GetTorrentQueuePosition in Hd2. destruct (QueueManager.SetQueuePosition _ _ _) as [qm|e| |] eqn:E; try done; [|destruct Hs as [_ Hs]; rewrite Hs in Hd2; lia].
    destruct Hs as (_ & ty & Hin & Hpos & _). exists qm. split; [|by exists ty]. cbn [relabel]. f_equal. unfold after_queue.
    assert (Ha : QueueManager.activated qm = QueueManager.activated (tm_queue tm)).
    { unfold QueueManager.SetQueuePosition in E. repeat case_match; try discriminate; (destruct (QueueManager.moveInQueue _ _ _); try discriminate);
        rewrite bind_Ok in E; by injection E as <-. }
    change (tm_queue (update_torrent l f tm)) with (tm_queue tm). rewrite Ha, drop_all. destruct tm. unfold go, with_tasks. cbn [map tm_tasks]. by rewrite app_nil_r.
  - exists (tm_queue tm). split; [|done]. rewrite position_ignored; [by rewrite <- Hsame|]. destruct (decide (a_QueuePosition req < 0)); [by left|right].
    destruct (decide (GetTorrentQueuePosition id_ tm < 0)); [done|]. exfalso. apply Hd. lia.
Qed.

Lemma resolve_one now n (tm : TM) : ResolveTorrentIDs wild now [IdInt n] tm = Ok [n].
Proof. done. Qed.

(** C11: torrent-set of one torrent the manager has, with a valid request: it is
    answered without error, and the torrent it leaves is the old one but for
    these fields. A file is unwanted when it is listed as such, else wanted when
    listed, else as before; its priority is the one of the last of the lists
    high, normal and low that names it, else as before. The trackers are the old
    ones and the new ones that are neither blank nor there already, less those
    at the removed indices, with the one at the replaced index replaced.
    Directory, labels and the seed limits are set when given and not zero. The
    rest of the manager stays, the other torrents included, except that a queued
    torrent is moved to the position the request has: the front if it names none
    (the field is then 0). The conditions: the file indices, the removed and the
    replaced tracker index are in range, the removed indices are distinct, the
    replacing URL and the directory are not blank, no move of the files is asked
    for, the torrent's info dictionary can be read and the queues are
    well-formed. *)
Theorem torrent_set_applies now req (os : OS) (tm : TM) id_ l t t0 :
  a_IDs req = [IdInt id_] -> validateTorrentSetRequest req = Ok () -> tm_torrents tm !! id_ = Some l -> tm_heap tm !! l = Some t -> t_ID t = id_ ->
  ensureFileArraysInitialized t = Ok t0 -> QueueFacts.manager_ok (tm_queue tm) -> set_in_range req t0 ->
  NoDup (a_TrackerRemove req) -> Forall (in_range (with_added req t)) (a_TrackerRemove req) -> replace_ok req (with_removed req t) -> location_ok req ->
  exists qm p w,
    TorrentSet wild now req os tm = (reply (), os, update_torrent l (fun _ => set_result req p w t) (with_queue qm tm)) /\
    (forall i, w !! i = wanted_at req (t_Wanted t0) i) /\ (forall i, p !! i = priority_at req (t_Priorities t0) i) /\
    if decide (0 <= a_QueuePosition req /\ 0 <= GetTorrentQueuePosition id_ tm)
    then exists ty, id_ ∈ QueueFacts.order_of ty (tm_queue tm) /\
      QueueManager.GetQueuePosition id_ qm = QueueManager.clamp (len (QueueFacts.order_of ty (tm_queue tm))) (a_QueuePosition req) /\
      QueueManager.SetQueuePosition id_ (a_QueuePosition req) (tm_queue tm) = Ok qm
    else qm = tm_queue tm.
Proof.
  intros Hids Hv Hi Hl Hid He Hm Hr Hn Hrm Hrep Hloc. destruct (position_applied id_ l req (fun _ => t0) tm Hi Hm) as (qm & Eq & Hq).
  rewrite <- Hid in Eq. destruct (changes_applied l req os tm (with_queue qm tm) t t0 Hl He eq_refl Eq Hr Hn Hrm Hrep Hloc) as (p & w & Ec & Hw & Hp).
  exists qm, p, w. split; [|done]. unfold TorrentSet. rewrite Hv, Hids, resolve_one. cbn [set_torrents]. unfold GetTorrent. by rewrite Hi, Ec.
Qed.

(** a torrent-set that fails is not undone: with indices in range for
    files-wanted and one out of range for files-unwanted, the method answers with
    an error and the flags of files-wanted are set. *)
Theorem torrent_set_partial now req (os : OS) (tm : TM) id_ l t t0 :
  a_IDs req = [IdInt id_] -> validateTorrentSetRequest req = Ok () -> tm_torrents tm !! id_ = Some l -> tm_heap tm !! l = Some t -> t_ID t = id_ ->
  ensureFileArraysInitialized t = Ok t0 -> a_QueuePosition req < 0 \/ GetTorrentQueuePosition id_ tm < 0 ->
  Forall (in_range (t_Wanted t0)) (a_FilesWanted req) -> ~ Forall (in_range (t_Wanted t0)) (take 1 (a_FilesUnwanted req)) ->
  exists e tm', TorrentSet wild now req os tm = (fail (RPCError ErrCodeInvalidArgument e), os, tm') /\
    forall i : nat, Z.of_nat i ∈ a_FilesWanted req -> t_Wanted (torrent_at l tm') !! i = Some true.
Proof.
  intros Hids Hv Hi Hl Hid He Hq Hw Hu. destruct (ensured_same _ _ He) as (S1 & _).
  destruct (set_indices_ok "files-wanted" (a_FilesWanted req) true (t_Wanted t0) Hw) as (w & Ew & Lw & W).
  assert (Eu : exists e, set_indices "files-unwanted" (a_FilesUnwanted req) false w = (Err e, w)).
  { destruct (a_FilesUnwanted req) as [|j js]; cbn in Hu |- *; [by destruct Hu|]. rewrite decide_True; [by eexists|].
    destruct (decide (j < 0 \/ len w <= j)); [done|]. exfalso. apply Hu. constructor; [|done]. unfold in_range, len in *. lia. }
  destruct Eu as [e Eu]. do 2 eexists. unfold TorrentSet. rewrite Hv, Hids, resolve_one. cbn [set_torrents]. unfold GetTorrent. rewrite Hi.
  unfold applyTorrentChanges, applyEssentialTorrentChanges. unfold torrent_at at 1. rewrite Hl. cbn [default]. unfold id. rewrite He. cbn [relabel].
  rewrite position_ignored by (by rewrite S1, Hid). unfold change at 1. rewrite (torrent_at_set _ t) by done. unfold applyFileManagementChanges, updateFileSelection. rewrite Ew, Eu. cbn [relabel].
  split; [reflexivity|]. intros i Hin. rewrite set_set. rewrite (torrent_at_set _ t) by done. cbn. rewrite W. by rewrite decide_True.
Qed.

(** What follows the queue position leaves the queue alone. *)
Lemma location_queue l req (os : OS) (tm : TM) : tm_queue (applyTorrentLocationChanges l req os tm).2 = tm_queue tm.
Proof.
  unfold applyTorrentLocationChanges, updateTorrentLocation. repeat (case_decide; [done|]). destruct (a_Move req); [|done].
  destruct (t_MetaInfo _) as [mi|]; [|done]. destruct (TorrentFile.mi_Info mi) as [info| | |]; try done.
  by destruct (FileManager.MoveFiles _ _ _ _ _ _) as [[] ?].
Qed.

Lemma changes_queue l req (os : OS) (tm : TM) t0 tm1 : ensureFileArraysInitialized (torrent_at l tm) = Ok t0 ->
  applyQueuePositionChanges (t_ID t0) req (update_torrent l (fun _ => t0) tm) = (Ok (), tm1) ->
  tm_queue (applyTorrentChanges wild l req os tm).2 = tm_queue tm1.
Proof.
  intros He Eq. unfold applyTorrentChanges, applyEssentialTorrentChanges. rewrite He. cbn [relabel]. rewrite Eq. unfold change.
  destruct (applyFileManagementChanges req (torrent_at l tm1)) as [[] t1]; try done.
  destruct (updateTrackers wild req _) as [[] t2]; try done.
  set (tm2 := update_torrent l (fun _ => t2) _). pose proof (location_queue l req os tm2) as Hq.
  destruct (applyTorrentLocationChanges l req os tm2) as [[[] os'] tm']; exact Hq.
Qed.

(** a request that says nothing of the queue position carries position 0
    (the field is left at its zero value), and torrent-set then moves a queued
    torrent to the front of its queue, whatever else it was asked to change. *)
Theorem torrent_set_moves_to_front now req (os : OS) (tm : TM) id_ l t t0 :
  a_IDs req = [IdInt id_] -> validateTorrentSetRequest req = Ok () -> tm_torrents tm !! id_ = Some l -> tm_heap tm !! l = Some t -> t_ID t = id_ ->
  ensureFileArraysInitialized t = Ok t0 -> QueueFacts.manager_ok (tm_queue tm) -> 0 <= GetTorrentQueuePosition id_ tm ->
  a_QueuePosition req = a_QueuePosition zeroAction -> GetTorrentQueuePosition id_ (TorrentSet wild now req os tm).2 = 0.
Proof.
  intros Hids Hv Hi Hl Hid He Hm Hq Hz. destruct (ensured_same _ _ He) as (S1 & _). cbn in Hz.
  assert (Ht : torrent_at l tm = t) by (unfold torrent_at; by rewrite Hl).
  assert (Ep : exists tm1, applyQueuePositionChanges (t_ID t0) req (update_torrent l (fun _ => t0) tm) = (Ok (), tm1) /\ GetTorrentQueuePosition id_ tm1 = 0).
  { unfold applyQueuePositionChanges. rewrite Hz, decide_True, S1, Hid by lia.
    change (GetTorrentQueuePosition id_ (update_torrent l (fun _ => t0) tm)) with (GetTorrentQueuePosition id_ tm). rewrite decide_True by lia.
    unfold SetTorrentQueuePosition. change (tm_torrents (update_torrent l (fun _ => t0) tm)) with (tm_torrents tm). rewrite Hi.
    change (tm_queue (update_torrent l (fun _ => t0) tm)) with (tm_queue tm).
    pose proof (QueueFacts.set_position_spec id_ 0 (tm_queue tm) Hm) as Hs. unfold GetTorrentQueuePosition in Hq.
    destruct (QueueManager.SetQueuePosition id_ 0 (tm_queue tm)) as [qm'|e| |]; try done.
    - eexists. split; [done|]. destruct Hs as (_ & ty & Hin & Hpos & _). unfold GetTorrentQueuePosition. cbn. rewrite Hpos.
      unfold QueueManager.clamp. rewrite (decide_False (P := 0 < 0)), decide_False; [done| |lia].
      destruct (QueueFacts.order_of ty (tm_queue tm)); [by apply elem_of_nil in Hin|]. unfold len. cbn. lia.
    - destruct Hs as [_ Hs]. rewrite Hs in Hq. lia. }
  destruct Ep as (tm1 & Ep & Hp). unfold TorrentSet. rewrite Hv, Hids, resolve_one. cbn [set_torrents]. unfold GetTorrent. rewrite Hi.
  rewrite <- Ht in He. pose proof (changes_queue l req os tm t0 tm1 He Ep) as Hc. unfold GetTorrentQueuePosition in *.
  destruct (applyTorrentChanges wild l req os tm) as [[[] os'] tm']; cbn in *; by rewrite Hc.
Qed.

(** ** The session *)
Lemma after_queue_session qm (tm : TM) : tm_session (after_queue qm tm) = tm_session tm.
Proof. done. Qed.

Lemma runtime_session now old new (tm : TM) : tm_session (applyRuntimeConfigChanges wild now old new tm) = tm_session tm.
Proof.
  unfold applyRuntimeConfigChanges.
  assert (A1 : forall tm : TM, tm_session (applyQueueConfigChanges old new tm) = tm_session tm) by (intros; unfold applyQueueConfigChanges; by case_decide).
  assert (A2 : forall tm : TM, tm_session (applyDownloadDirChanges old new tm) = tm_session tm) by (intros; unfold applyDownloadDirChanges; by case_decide).
  assert (A3 : forall tm : TM, tm_session (applyIncompleteDirChanges old new tm) = tm_session tm) by (intros; unfold applyIncompleteDirChanges; by case_decide).
  assert (A4 : forall tm : TM, tm_session (applyPeerLimitChanges old new tm) = tm_session tm) by (intros; unfold applyPeerLimitChanges; by case_decide).
  assert (A5 : forall tm : TM, tm_session (applySpeedLimitChanges wild now old new tm) = tm_session tm) by (intros; unfold applySpeedLimitChanges; by case_decide).
  assert (A6 : forall tm : TM, tm_session (applyScriptConfigChanges old new tm) = tm_session tm) by (intros; unfold applyScriptConfigChanges; by case_decide).
  assert (A7 : forall tm : TM, tm_session (applyPEXConfigChanges old new tm) = tm_session tm) by (intros; unfold applyPEXConfigChanges; by case_decide).
  assert (A8 : forall tm : TM, tm_session (applyWebSeedConfigChanges old new tm) = tm_session tm) by (intros; unfold applyWebSeedConfigChanges; by case_decide).
  assert (A9 : forall tm : TM, tm_session (applyBlocklistConfigChanges old new tm) = tm_session tm).
  { intros. unfold applyBlocklistConfigChanges, updateBlocklistConfiguration. case_decide; [|done]. case_decide; [done|].
    by destruct (Blocklist.SetURL _ _) as [bm []]. }
  by rewrite A8, A7, A6, A9, A5, A4, A3, A2, A1.
Qed.

Definition requested (req : SessionSetRequest) (c : SessionConfiguration) : SessionConfiguration :=
  updateSecuritySettings req (updateDirectorySettings req (updateSeedingSettings req (updateQueueSettings req
    (updatePeerNetworkSettings req (updateSpeedLimitSettings req c))))).

Lemma session_applied now c (os : OS) (tm : TM) r tm' os' : UpdateSessionConfig wild now c os tm = (r, tm', os') ->
  (r = Ok () /\ tm_session tm' = c) \/ (r <> Ok () /\ tm' = tm).
Proof.
  unfold UpdateSessionConfig. destruct (validateSessionConfiguration c os) as [[[]|e|p|] os1] eqn:E; intros [= <- <- <-].
  - left. split; [done|]. by rewrite runtime_session.
  - by right.
  - by right.
  - by right.
Qed.

(** a session-set is all or nothing, and session-get answers what was set:
    when the method succeeds, every field the configuration has is as requested
    or else as before; when it fails, the daemon is unchanged. The alternative
    speed times, the script, and the other fields the daemon has no setting for
    are accepted and dropped. *)
Theorem session_set_get now req (os : OS) (tm : TM) :
  let '(r, os', tm') := SessionSet wild now req os tm in
  (r = reply () /\ SessionGet tm' = merged req (Blocklist.GetSize (tm_blocklist tm')) (SessionGet tm)) \/ (r <> reply () /\ tm' = tm).
Proof.
  unfold SessionSet. fold (requested req (GetSessionConfig tm)).
  destruct (UpdateSessionConfig wild now (requested req (GetSessionConfig tm)) os tm) as [[r tm'] os'] eqn:E.
  destruct (session_applied _ _ _ _ _ _ _ E) as [[-> Hs]|[Hr ->]]; [left|right].
  - split; [done|]. unfold SessionGet, GetSessionConfig. rewrite Hs. reflexivity.
  - split; [|done]. destruct r as [[]| | |]; done.
Qed.

(** ** Dispatch *)

(** the methods the daemon lists are those it handles. *)
Theorem methods_handled `{RequestJSON} method :
  is_Some (GetMethodHandler (I := I) (OS := OS) wild parseAuthority maxParams failedName method) <-> method ∈ GetSupportedMethods.
Proof.
  split.
  - unfold GetMethodHandler, getTorrentActionHandler, getSpecialRequestHandler, getSessionHandler.
    repeat (case_decide; [intros _; subst; apply (bool_decide_unpack _); vm_compute; exact Logic.I|]). by intros [? ?].
  - intros Hin. unfold GetSupportedMethods in Hin. cbn [map] in Hin.
    repeat (apply elem_of_cons in Hin as [->|Hin]; [by eexists|]). by apply elem_of_nil in Hin.
Qed.

(** ** Trackers removed twice *)

(** Naming the last tracker twice passes the check of the indices, and the second
    removal is out of range. *)
Theorem tracker_remove_panics i (l : list bytes) : len l = i + 1 -> 0 <= i -> removeTrackersWithBoundsCheck [i; i] l = Panic "slice bounds out of range".
Proof.
  intros Hl Hi. unfold removeTrackersWithBoundsCheck. cbn [existsb]. rewrite bool_decide_eq_false_2 by lia. cbn [orb].
  assert (E : sortIndicesDescending [i; i] = [i; i]).
  { unfold sortIndicesDescending, ExchangeSort.exchange_sort, ExchangeSort.inner_loop, ExchangeSort.compare_exchange. cbn. unfold id. by rewrite decide_False by lia. }
  rewrite E. cbn [remove_indices]. rewrite decide_False by lia. rewrite decide_True; [done|]. unfold len in *. rewrite length_app, length_take, length_drop. lia.
Qed.
End Set_.

(** ** Witnesses *)
#[local] Existing Instance Address.demo_keys.
#[local] Existing Instance TorrentManagerFacts.list_order.
#[local] Existing Instance TorrentManagerFacts.no_system.
#[local] Instance no_disk : Disk () := {
  fs_Exists _ _ := false; fs_MkdirAll _ _ := None; fs_Rename _ _ _ := None; fs_Open _ _ := None; fs_Create _ _ _ := None; fs_Write os _ _ := (false, os);
  fs_Remove _ _ := None; fs_Statfs _ _ := None
}.
Definition demo_set_torrent (id_ : Z) : TorrentState :=
  MkTorrent id_ zeroHash None 0 None (bs "/old") 0 None [] 0 0 0 fzero 0 0 0 0 0 0 0 0 0 0 None 0 0 false [] [0; 0; 0] [true; true; true] [bs "u0"; bs "u1"] [] fzero 0 false.
Definition demo_set_manager (id_ : Z) (qm : QueueManager.QueueManager) : TorrentManager (I := bytes) :=
  with_queue qm (with_torrents {[id_ := 0%nat]} (with_heap [demo_set_torrent id_] (NewTorrentManager 9 true TorrentManagerFacts.demo_tm_config))).
Definition demo_set_request (id_ : Z) (unwanted : list Z) : TorrentActionRequest :=
  MkAction [IdInt id_] false false false 0 0 [0; 2] unwanted [1] [0] [1; 2] (bs "/new") false false [bs "x"] 0 0 0 fzero 0 [bs "u2"; bs " "; bs "u0"] [0] [IdInt 0; IdString (bs "u9")].
Abbreviation no_queue := (QueueManager.NewQueueManager QueueFacts.demo_config).

(** Torrent 3 waits at the end of its queue; the request names no position. *)
Lemma torrent_set_applies_witness :
  let tm := demo_set_manager 3 QueueFacts.demo_manager in
  let req := demo_set_request 3 [2] in
  exists qm p w, TorrentSet (fun _ => 0) 5 req () tm =
      (reply (), (), update_torrent 0 (fun _ => set_result (fun _ => 0) req p w (demo_set_torrent 3)) (with_queue qm tm)) /\
    (forall i, w !! i = wanted_at req [true; true; true] i) /\ QueueManager.GetQueuePosition 3 qm = 0 /\
    t_TrackerList (set_result (fun _ => 0) req p w (demo_set_torrent 3)) = [bs "u9"; bs "u2"].
Proof.
  intros tm req. destruct (torrent_set_applies (fun _ => 0) 5 req () tm 3 0%nat (demo_set_torrent 3) (demo_set_torrent 3))
    as (qm & p & w & E1 & E2 & _ & E3); try done.
  - apply QueueFacts.demo_ok.
  - split; apply (bool_decide_unpack _); vm_compute; exact I.
  - apply (bool_decide_unpack _). vm_compute. exact I.
  - apply (bool_decide_unpack _). vm_compute. exact I.
  - right. exists 0, (bs "u9"). split; [reflexivity|]. split; [vm_compute; split; [discriminate|reflexivity]|vm_compute; discriminate].
  - right. split; [done|]. vm_compute. discriminate.
  - exists qm, p, w. split; [exact E1|]. split; [exact E2|]. split; [|vm_compute; reflexivity].
    rewrite decide_True in E3 by (split; vm_compute; discriminate). destruct E3 as (ty & _ & _ & E3). vm_compute in E3. injection E3 as <-. reflexivity.
Defined.

Lemma torrent_set_partial_witness : exists e tm',
  TorrentSet (fun _ => 0) 5 (demo_set_request 1 [7]) () (demo_set_manager 1 no_queue) = (fail (RPCError ErrCodeInvalidArgument e), (), tm') /\
  forall i : nat, Z.of_nat i ∈ [0; 2] -> t_Wanted (torrent_at 0 tm') !! i = Some true.
Proof.
  apply (torrent_set_partial (fun _ => 0) 5 (demo_set_request 1 [7]) () (demo_set_manager 1 no_queue) 1 0%nat (demo_set_torrent 1) (demo_set_torrent 1)); try done.
  - right. vm_compute. reflexivity.
  - apply (bool_decide_unpack _). vm_compute. exact I.
  - apply (bool_decide_unpack _). vm_compute. exact I.
Defined.

Lemma torrent_set_moves_to_front_witness : GetTorrentQueuePosition 3 (demo_set_manager 3 QueueFacts.demo_manager) = 2 /\
  GetTorrentQueuePosition 3 (TorrentSet (fun _ => 0) 5 (demo_set_request 3 []) () (demo_set_manager 3 QueueFacts.demo_manager)).2 = 0.
Proof.
  split; [vm_compute; reflexivity|].
  apply (torrent_set_moves_to_front (fun _ => 0) 5 (demo_set_request 3 []) () (demo_set_manager 3 QueueFacts.demo_manager) 3 0%nat (demo_set_torrent 3) (demo_set_torrent 3)); try done.
  apply QueueFacts.demo_ok.
Defined.
Lemma tracker_remove_panics_witness : removeTrackersWithBoundsCheck [1; 1] [bs "u0"; bs "u1"] = Panic "slice bounds out of range".
Proof. apply (tracker_remove_panics 1 [bs "u0"; bs "u1"]); done. Defined.
End RpcFacts.
