(* ===== verification/ScheduleFacts.v ===== *)
(** * Replacing the bandwidth schedule

    The names of the rules stay distinct under every history of RPC calls, so
    that [bandwidth-schedule-set] replaces all rules; and when it refuses one of
    the new rules, the old ones are gone. *)

From S2P Require Import Prelude Bandwidth RpcTypes TorrentManager RpcMessages RpcMethods.
Import Bandwidth RpcMessages RpcMethods.

Module ScheduleFacts.

(** ** Histories *)
Inductive schedule_op :=
  | OSet (waiting : bool) (req : BandwidthScheduleSetRequest)
  | OAddRule (rule : option BandwidthScheduleRule)
  | ORemoveRule (name : bytes)
  | OUpdateRule (rule : option BandwidthScheduleRule)
  | OEvaluate (wild : float -> Z) (now : clock) (t : Z).

Definition schedule_step (s : schedule) (o : schedule_op) : schedule :=
  match o with
  | OSet waiting req => (BandwidthScheduleSet waiting req s).2
  | OAddRule rule => (BandwidthScheduleRuleAdd rule s).2
  | ORemoveRule name => (BandwidthScheduleRuleRemove name s).2
  | OUpdateRule rule => (BandwidthScheduleRuleUpdate rule s).2
  | OEvaluate wild now t => MkSchedule (run_pending wild (rule_at (sc_heap s)) now t (sc_scheduler s)) (sc_heap s)
  end.
Definition new_schedule (bm : BandwidthManager) : schedule := MkSchedule (SetUpdateCallback true (NewBandwidthScheduler (Some bm))) [].
Definition schedule_run (bm : BandwidthManager) (ops : list schedule_op) : schedule := fold_left schedule_step ops (new_schedule bm).

(** ** The invariant *)
Definition names (s : schedule) : list bytes := map (fun l => ru_Name (rule_at (sc_heap s) l)) (bs_rules (sc_scheduler s)).
Definition rules_of (s : schedule) : list BandwidthScheduleRule := GetRules (rule_at (sc_heap s)) (sc_scheduler s).
Record schedule_ok (s : schedule) : Prop := {
  so_locs : Forall (fun l => 0 <= l < len (sc_heap s)) (bs_rules (sc_scheduler s));
  so_names : NoDup (names s)
}.

Lemma names_rules s : names s = map ru_Name (rules_of s).
Proof. unfold names, rules_of, GetRules. by rewrite map_map. Qed.

Lemma rule_at_old heap r l : 0 <= l < len heap -> rule_at (heap ++ [r]) l = rule_at heap l.
Proof. intros Hl. unfold rule_at, len in *. by rewrite lookup_app_l by lia. Qed.
Lemma rule_at_new heap r : rule_at (heap ++ [r]) (len heap) = r.
Proof. unfold rule_at, len. rewrite Nat2Z.id, lookup_app_r, Nat.sub_diag by lia. done. Qed.

(** A fresh rule leaves the rules there are alone. *)
Lemma fresh_rule r s : schedule_ok s -> let s' := MkSchedule (sc_scheduler s) (sc_heap s ++ [r]) in
  schedule_ok s' /\ names s' = names s /\ rules_of s' = rules_of s /\ Forall (fun l => 0 <= l < len (sc_heap s)) (bs_rules (sc_scheduler s)).
Proof.
  intros [H1 H2]. assert (E : rules_of (MkSchedule (sc_scheduler s) (sc_heap s ++ [r])) = rules_of s).
  { unfold rules_of, GetRules. cbn. apply map_ext_in. intros l Hl%list_elem_of_In. rewrite Forall_forall in H1. by apply rule_at_old, H1. }
  assert (En : names (MkSchedule (sc_scheduler s) (sc_heap s ++ [r])) = names s) by (by rewrite !names_rules, E).
  split; [|done]. split; [|by rewrite En]. cbn. eapply Forall_impl; [exact H1|]. intros l. unfold len. rewrite length_app. cbn. lia.
Qed.

(** ** Looking rules up *)
Lemma find_name_Some heap name rules i : find_name heap name rules = Some i -> exists l, rules !! i = Some l /\ ru_Name (heap l) = name.
Proof.
  revert i. induction rules as [|l rules IH]; intros i; cbn; [done|]. case_decide; [intros [= <-]; by exists l|].
  destruct (find_name heap name rules) as [j|]; [|done]. intros [= <-]. by apply IH.
Qed.
Lemma find_name_None heap name rules : find_name heap name rules = None <-> name ∉ map (fun l => ru_Name (heap l)) rules.
Proof.
  induction rules as [|l rules IH]; cbn; [split; [by intros _ ?%elem_of_nil|done]|]. rewrite not_elem_of_cons. case_decide; [naive_solver|].
  destruct (find_name heap name rules); naive_solver.
Qed.

Lemma swap_remove_perm i (rules : list Z) l : rules !! i = Some l -> rules ≡ₚ l :: swap_remove i rules.
Proof.
  intros Hi. unfold swap_remove. destruct rules as [|y ys _] using rev_ind; [done|]. rewrite last_snoc, length_app. cbn.
  replace (length ys + 1 - 1)%nat with (length ys) by lia. destruct (decide (i = length ys)) as [->|Hne].
  - rewrite list_lookup_middle in Hi by done. injection Hi as <-. rewrite insert_app_r_alt, Nat.sub_diag by lia. cbn.
    rewrite take_app_length. by rewrite Permutation_app_comm.
  - assert (i < length ys)%nat by (apply lookup_lt_Some in Hi; rewrite length_app in Hi; cbn in Hi; lia). rewrite lookup_app_l in Hi by done.
    rewrite insert_app_l by done. rewrite take_app_length' by (by rewrite length_insert).
    rewrite (insert_take_drop ys i y) by done. rewrite <- (take_drop_middle ys i l Hi) at 1. rewrite <- !app_assoc. cbn.
    rewrite (Permutation_app_comm (drop (S i) ys) [y]). cbn. rewrite Permutation_middle. f_equiv.
Qed.

(** ** Removing *)
Lemma remove_rule_spec name s : name ∈ names s -> exists s', remove_rule name s = (reply (), s') /\ sc_heap s' = sc_heap s /\
  names s ≡ₚ name :: names s' /\ (forall l, l ∈ bs_rules (sc_scheduler s') -> l ∈ bs_rules (sc_scheduler s)) /\
  bs_enabled (sc_scheduler s') = bs_enabled (sc_scheduler s) /\ currentRule (sc_scheduler s') = currentRule (sc_scheduler s).
Proof.
  intros Hin. unfold remove_rule, RemoveRule. destruct (find_name _ name _) as [i|] eqn:E; [|by apply find_name_None in E].
  apply find_name_Some in E as (l & Hl & Hn). pose proof (swap_remove_perm _ _ _ Hl) as Hp. eexists. split; [done|]. split; [done|]. cbn.
  split; [|split; [|done]].
  - unfold names. cbn. rewrite Hp at 1. cbn. by rewrite Hn.
  - intros x Hx. rewrite Hp. by right.
Qed.

Lemma remove_absent_rule name s : name ∉ names s -> exists e, remove_rule name s = (fail e, s).
Proof. intros Hn. unfold remove_rule, RemoveRule. apply find_name_None in Hn. rewrite Hn. by eexists. Qed.

Lemma names_nil s : names s = [] -> bs_rules (sc_scheduler s) = [].
Proof. unfold names. by destruct (bs_rules (sc_scheduler s)). Qed.

Lemma remove_all ns : forall s, names s ≡ₚ ns -> exists s', in_turn remove_rule ns s = (reply (), s') /\ sc_heap s' = sc_heap s /\
  bs_rules (sc_scheduler s') = [] /\ bs_enabled (sc_scheduler s') = bs_enabled (sc_scheduler s) /\ currentRule (sc_scheduler s') = currentRule (sc_scheduler s).
Proof.
  induction ns as [|n ns IH]; intros s Hp; cbn [in_turn].
  { exists s. split; [done|]. split; [done|]. split; [apply names_nil; by apply Permutation_nil_r|done]. }
  destruct (remove_rule_spec n s) as (s1 & -> & E1 & P1 & _ & B1 & C1); [rewrite Hp; by left|]. cbn. rewrite P1 in Hp. apply Permutation_cons_inv in Hp.
  destruct (IH s1 Hp) as (s' & -> & E2 & R2 & B2 & C2). exists s'. split; [done|]. split; [congruence|]. split; [done|]. split; congruence.
Qed.

(** ** Adding *)
Definition addable (r : BandwidthScheduleRule) (s : schedule) : Prop := validateRule r = None /\ ru_Name r ∉ names s.

Lemma add_rule_spec r s : schedule_ok s -> addable r s -> exists s', add_rule r s = (reply (), s') /\ schedule_ok s' /\ rules_of s' = rules_of s ++ [r] /\
  bs_enabled (sc_scheduler s') = bs_enabled (sc_scheduler s) /\ currentRule (sc_scheduler s') = currentRule (sc_scheduler s) /\ sc_heap s' = sc_heap s ++ [r].
Proof.
  intros Hok [Hv Hn]. destruct (fresh_rule r s Hok) as ([H1 H2] & En & Er & Hl). unfold add_rule, new_rule, AddRule. cbn [sc_heap sc_scheduler].
  rewrite rule_at_new, Hv. assert (Ef : find_name (rule_at (sc_heap s ++ [r])) (ru_Name r) (bs_rules (sc_scheduler s)) = None).
  { apply find_name_None. change (ru_Name r ∉ names (MkSchedule (sc_scheduler s) (sc_heap s ++ [r]))). by rewrite En. }
  rewrite Ef. cbn [scheduled sc_heap]. set (s' := MkSchedule _ _). exists s'.
  assert (E : rules_of s' = rules_of s ++ [r]).
  { change (map (rule_at (sc_heap s ++ [r])) (bs_rules (sc_scheduler s) ++ [len (sc_heap s)]) = rules_of s ++ [r]).
    rewrite map_app. cbn [map]. rewrite rule_at_new. f_equal. exact Er. }
  split; [done|]. split; [split|split; [exact E|done]].
  - cbn. apply Forall_app. split; [exact H1|]. constructor; [|done]. unfold len. rewrite length_app. cbn. lia.
  - rewrite names_rules, E, map_app. apply NoDup_app. rewrite <- names_rules. cbn. split; [by destruct Hok|]. split; [|apply NoDup_singleton].
    intros x Hx. rewrite list_elem_of_singleton. intros ->. done.
Qed.

Lemma add_rule_refused r s : schedule_ok s -> ~ addable r s -> exists e s', add_rule r s = (fail e, s') /\ schedule_ok s' /\ rules_of s' = rules_of s.
Proof.
  intros Hok Hn. destruct (fresh_rule r s Hok) as (H1 & En & Er & Hl). unfold add_rule, new_rule, AddRule. cbn [sc_heap sc_scheduler]. rewrite rule_at_new.
  destruct (validateRule r) as [e|] eqn:Ev; [do 2 eexists; split; [done|]; by split|].
  destruct (find_name _ _ _) as [i|] eqn:Ef; [do 2 eexists; split; [done|]; by split|]. exfalso. apply Hn. split; [done|]. apply find_name_None in Ef.
  rewrite <- En. exact Ef.
Qed.

(** ** The invariant holds in every history *)
Lemma remove_rule_ok name s : schedule_ok s -> schedule_ok (remove_rule name s).2.
Proof.
  intros Hok. destruct (decide (name ∈ names s)) as [Hin|Hn]; [|by destruct (remove_absent_rule _ _ Hn) as (e & ->)].
  destruct (remove_rule_spec name s Hin) as (s' & -> & Eh & Hp & Hl & _). destruct Hok as [H1 H2]. cbn. split.
  - rewrite Eh. rewrite Forall_forall in H1 |- *. auto.
  - rewrite Hp in H2. by apply NoDup_cons in H2 as [_ H2].
Qed.
Lemma add_rule_ok r s : schedule_ok s -> schedule_ok (add_rule r s).2.
Proof.
  intros Hok. destruct (validateRule r) as [e|] eqn:Ev.
  - destruct (add_rule_refused r s Hok) as (e' & s' & -> & Hs & _); [intros [? _]; congruence|done].
  - destruct (decide (ru_Name r ∈ names s)) as [Hin|Hn].
    + destruct (add_rule_refused r s Hok) as (e' & s' & -> & Hs & _); [by intros [_ ?]|done].
    + by destruct (add_rule_spec r s Hok) as (s' & -> & Hs & _).
Qed.
Lemma in_turn_ok {A} (f : A -> schedule -> RpcMethods.rpc () * schedule) l : (forall a s, schedule_ok s -> schedule_ok (f a s).2) ->
  forall s, schedule_ok s -> schedule_ok (in_turn f l s).2.
Proof.
  intros Hf. induction l as [|a l IH]; intros s Hok; cbn [in_turn]; [done|]. specialize (Hf a s Hok).
  destruct (f a s) as [[[[]|e]| | |] s1]; cbn in *; try done. by apply IH.
Qed.

Lemma same_rules_ok s b : bs_rules b = bs_rules (sc_scheduler s) -> schedule_ok s -> schedule_ok (MkSchedule b (sc_heap s)).
Proof. intros E [H1 H2]. split; unfold names in *; cbn; by rewrite E. Qed.

Lemma set_enabled_rules waiting e b : bs_rules (Bandwidth.SetEnabled waiting e b) = bs_rules b /\ currentRule (Bandwidth.SetEnabled waiting e b) = currentRule b /\
  bs_enabled (Bandwidth.SetEnabled waiting e b) = e.
Proof.
  unfold Bandwidth.SetEnabled. destruct (Bool.eqb (bs_enabled b) e) eqn:E; [by apply Bool.eqb_prop in E|].
  destruct e; [|done]. unfold startScheduler. by destruct (bs_ticker _).
Qed.

Lemma set_ok waiting req s : schedule_ok s -> schedule_ok (BandwidthScheduleSet waiting req s).2.
Proof.
  intros Hok. unfold BandwidthScheduleSet. set (s1 := match ss_Enabled req with Some _ => _ | None => _ end).
  assert (H1 : schedule_ok s1) by (unfold s1; destruct (ss_Enabled req); [|done]; apply same_rules_ok; [apply set_enabled_rules|done]).
  destruct (ss_Rules req) as [rules|]; [|done]. pose proof (in_turn_ok remove_rule (map ru_Name (GetRules (rule_at (sc_heap s1)) (sc_scheduler s1))) remove_rule_ok s1 H1) as H2.
  destruct (in_turn remove_rule _ s1) as [[[[]|e]| | |] s2]; cbn in *; try done. by apply in_turn_ok; [apply add_rule_ok|].
Qed.

Lemma update_rule_ok r s : schedule_ok s -> schedule_ok (BandwidthScheduleRuleUpdate r s).2.
Proof.
  intros Hok. destruct r as [r|]; [|done]. destruct (fresh_rule r s Hok) as ([H1 H2] & En & Er & Hl). unfold BandwidthScheduleRuleUpdate, new_rule, UpdateRule. cbn [sc_heap sc_scheduler].
  rewrite rule_at_new. destruct (validateRule r); [by split|]. destruct (find_name _ _ _) as [i|] eqn:Ef; [|by split].
  apply find_name_Some in Ef as (l & Hi & Hn). cbn in H1. split; cbn.
  - apply Forall_insert; [done|]. unfold len. rewrite length_app. cbn. lia.
  - unfold names in *. cbn in *. rewrite list_fmap_insert, rule_at_new, <- Hn.
    rewrite list_insert_id; [done|]. by rewrite list_lookup_fmap, Hi.
Qed.

Lemma evaluate_rules wild heap now t b : bs_rules (run_pending wild heap now t b) = bs_rules b.
Proof.
  unfold run_pending, evaluateRules. cbn. destruct (bs_enabled b); [|done]. cbn. case_decide; [done|]. unfold applyRule, call. cbn.
  destruct (best _ _ _ _), (updateCallback b); done.
Qed.

Lemma schedule_run_ok bm ops : schedule_ok (schedule_run bm ops).
Proof.
  unfold schedule_run. assert (H0 : schedule_ok (new_schedule bm)) by (split; [by apply Forall_nil|apply NoDup_nil_2]). revert H0. generalize (new_schedule bm).
  induction ops as [|o ops IH]; intros s Hok; cbn [fold_left]; [done|]. apply IH. destruct o as [w req|r|n|r|wild now t]; cbn.
  - by apply set_ok.
  - destruct r; [by apply add_rule_ok|done].
  - unfold BandwidthScheduleRuleRemove. case_decide; [done|by apply remove_rule_ok].
  - by apply update_rule_ok.
  - apply same_rules_ok; [apply evaluate_rules|done].
Qed.

(** ** Replacing *)
Definition good_rules (rules : list BandwidthScheduleRule) : Prop := Forall (fun r => validateRule r = None) rules /\ NoDup (map ru_Name rules).

Lemma add_all_good rules : forall s, schedule_ok s -> Forall (fun r => validateRule r = None) rules -> NoDup (names s ++ map ru_Name rules) ->
  exists s', in_turn add_rule rules s = (reply (), s') /\ schedule_ok s' /\ rules_of s' = rules_of s ++ rules /\
    bs_enabled (sc_scheduler s') = bs_enabled (sc_scheduler s) /\ currentRule (sc_scheduler s') = currentRule (sc_scheduler s).
Proof.
  induction rules as [|r rules IH]; intros s Hok Hv Hn; cbn [in_turn]; [exists s; by rewrite app_nil_r|]. inversion_clear Hv as [|? ? V1 V2].
  cbn [map] in Hn. destruct (add_rule_spec r s Hok) as (s1 & -> & Hok1 & R1 & B1 & C1 & _).
  { split; [done|]. apply NoDup_app in Hn as (_ & Hn & _). intros Hx. apply (Hn _ Hx). by left. }
  destruct (IH s1 Hok1 V2) as (s' & -> & Hok' & R' & B' & C').
  { rewrite names_rules, R1, map_app, <- names_rules, <- app_assoc. exact Hn. }
  exists s'. split; [done|]. split; [done|]. rewrite R', R1, <- app_assoc. split; [done|]. split; congruence.
Qed.

Lemma in_turn_app {A} (f : A -> schedule -> RpcMethods.rpc () * schedule) l k s s1 : in_turn f l s = (reply (), s1) -> in_turn f (l ++ k) s = in_turn f k s1.
Proof.
  revert s. induction l as [|a l IH]; intros s; cbn [in_turn app]; [by intros [= <-]|]. destruct (f a s) as [[[[]|e]| | |] s2]; try discriminate. apply IH.
Qed.

(** after any history, bandwidth-schedule-set with valid rules of
    different names answers without error, and the schedule then has exactly
    these rules, in this order, and is enabled as asked. When one of the rules
    is refused, because it is not valid or repeats a name, the method answers
    with an error and only the rules before it are there: the previous rules
    are lost. *)
Theorem schedule_set_replaces bm ops waiting enabled : let s := schedule_run bm ops in
  (forall rules, good_rules rules -> exists s' current, BandwidthScheduleSet waiting (MkScheduleSet enabled (Some rules)) s = (reply (), s') /\
    BandwidthScheduleGet s' = reply (MkScheduleGet (default (bs_enabled (sc_scheduler s)) enabled) rules current)) /\
  (forall good bad rest, good_rules good -> validateRule bad <> None \/ ru_Name bad ∈ map ru_Name good ->
    exists e s', BandwidthScheduleSet waiting (MkScheduleSet enabled (Some (good ++ bad :: rest))) s = (fail e, s') /\ rules_of s' = good).
Proof.
  intros s. pose proof (schedule_run_ok bm ops) as Hok. fold s in Hok.
  assert (Hset : forall rules, good_rules rules -> forall rest, exists s', BandwidthScheduleSet waiting (MkScheduleSet enabled (Some (rules ++ rest))) s =
    in_turn add_rule rest s' /\ schedule_ok s' /\ rules_of s' = rules /\ bs_enabled (sc_scheduler s') = default (bs_enabled (sc_scheduler s)) enabled).
  { intros rules [Hv Hn] rest. unfold BandwidthScheduleSet. cbn [ss_Enabled ss_Rules].
    set (s1 := match enabled with Some _ => _ | None => _ end).
    assert (H1 : schedule_ok s1) by (unfold s1; destruct enabled; [|done]; apply same_rules_ok; [apply set_enabled_rules|done]).
    assert (B1 : bs_enabled (sc_scheduler s1) = default (bs_enabled (sc_scheduler s)) enabled) by (unfold s1; destruct enabled; [apply set_enabled_rules|done]).
    destruct (remove_all (map ru_Name (GetRules (rule_at (sc_heap s1)) (sc_scheduler s1))) s1) as (s2 & -> & E2 & R2 & B2 & _); [by rewrite names_rules|].
    assert (H2 : schedule_ok s2) by (split; unfold names; rewrite R2; [by apply Forall_nil|apply NoDup_nil_2]).
    destruct (add_all_good rules s2 H2 Hv) as (s3 & E3 & H3 & R3 & B3 & _); [unfold names; by rewrite R2|].
    exists s3. split; [by apply in_turn_app|]. split; [done|]. split; [rewrite R3; unfold rules_of, GetRules; by rewrite R2|congruence]. }
  split.
  - intros rules Hg. destruct (Hset rules Hg []) as (s' & E & _ & R & B). rewrite app_nil_r in E. exists s', (GetCurrentRule (rule_at (sc_heap s')) (sc_scheduler s')).
    split; [exact E|]. unfold BandwidthScheduleGet. rewrite B. unfold rules_of in R. by rewrite R.
  - intros good bad rest Hg Hbad. destruct (Hset good Hg (bad :: rest)) as (s' & -> & H' & R & _). cbn [in_turn].
    destruct (add_rule_refused bad s' H') as (e & s'' & -> & _ & R'); [|exists e, s''; by rewrite R'].
    intros [A1 A2]. rewrite names_rules, R in A2. by destruct Hbad.
Qed.

(** ** Witnesses *)
Definition demo_bandwidth : BandwidthManager := NewBandwidthManager 0 (MkSpeed 0 false 0 false).
Definition demo_rule (name : string) : BandwidthScheduleRule := MkRule (bs name) [] (bs "09:00") (bs "17:00") 10 10 1 true.
Definition demo_schedule_ops : list schedule_op :=
  [OAddRule (Some (demo_rule "a")); OAddRule (Some (demo_rule "b")); OAddRule (Some (demo_rule "c")); OUpdateRule (Some (demo_rule "b"))].

Lemma schedule_set_replaces_witness :
  rules_of (schedule_run demo_bandwidth demo_schedule_ops) = [demo_rule "a"; demo_rule "b"; demo_rule "c"] /\
  exists s' current, BandwidthScheduleSet true (MkScheduleSet (Some true) (Some [demo_rule "x"; demo_rule "a"])) (schedule_run demo_bandwidth demo_schedule_ops) = (reply (), s') /\
    BandwidthScheduleGet s' = reply (MkScheduleGet true [demo_rule "x"; demo_rule "a"] current).
Proof.
  split; [vm_compute; reflexivity|]. apply (schedule_set_replaces demo_bandwidth demo_schedule_ops true (Some true)).
  split; [repeat constructor; vm_compute; reflexivity|]. apply (bool_decide_unpack _). vm_compute. exact I.
Defined.
End ScheduleFacts.
