(* ===== verification/RpcServerFacts.v ===== *)
(** * The RPC server: what gets through

    Which requests reach a method and what becomes of the others; which methods
    change the daemon without a session token; how many requests the rate
    limiter lets through. *)

From S2P Require Import Prelude Strconv Metainfo GoLib Url Bencode BencodeFacts BencodeTyped Sha1 Hash Net Address Magnet TorrentFile Bandwidth.
From S2P Require Import RpcTypes QueueManager Blocklist PexManager WebSeed FileManager TorrentManager RpcMessages RpcMethods RpcServer.
Import Http RpcMessages RpcServer.

Module RpcServerFacts.

Section Server.
Context {D A M J : Type} `{!RpcService D A M} `{!RpcJSON J}.
Abbreviation Server := (RpcServer.Server (D := D)).

(** ** Admission *)

(** The methods that need the session token. *)
Definition token_methods : list bytes :=
  [bs "torrent-add"; bs "torrent-start"; bs "torrent-start-now"; bs "torrent-stop"; bs "torrent-verify"; bs "torrent-remove"; bs "torrent-set"; bs "session-set"].
(** The right credentials, or none are configured. *)
Definition credentials (r : HttpRequest) (c : ServerConfig) : Prop :=
  (cf_Username c = [] /\ cf_Password c = []) \/ BasicAuth r = Some (cf_Username c, cf_Password c).
#[global] Instance credentials_dec r c : Decision (credentials r c).
Proof. unfold credentials. apply _. Defined.
(** The session token in its header. *)
Definition has_token (r : HttpRequest) (s : Server) : Prop := Header_Get (hq_Header r) (cf_SessionTokenHeader (sv_config s)) = sv_sessionID s.
#[global] Instance has_token_dec r s : Decision (has_token r s).
Proof. unfold has_token. apply _. Defined.

(** The request the server admits, if it admits one. *)
Definition admitted (r : HttpRequest) (s : Server) : option (Request J) :=
  let c := sv_config s in
  if decide (hq_Method r = bs "POST" /\ Contains (Header_Get (hq_Header r) (bs "Content-Type")) (bs "application/json") = true /\
             hq_ContentLength r <= cf_MaxRequestSize c) then
    body ← read_limited (cf_MaxRequestSize c) r;
    req ← json_Request body;
    if decide (rq_Version req = bs "2.0" /\ credentials r c /\ (rq_Method req ∈ token_methods -> has_token r s))
    then Some req else None
  else None.

(** What a refusal looks like: an error and no result; or, for a preflight
    request, an empty answer with status 200. *)
Definition refusal (r : HttpRequest) (s : Server) (resp : HttpResponse (option (Response (A := A) (J := J)))) : Prop :=
  match hr_Body resp with
  | None => hq_Method r = bs "OPTIONS" /\ hr_Status resp = StatusOK
  | Some body => hq_Method r <> bs "OPTIONS" /\ rs_Result body = None /\ is_Some (rs_Error body) /\
      hr_Status resp ∈ [StatusBadRequest; StatusUnauthorized; StatusMethodNotAllowed; StatusConflict; StatusRequestEntityTooLarge] /\
      (hr_Status resp = StatusConflict -> Header_Get (hr_Header resp) (cf_SessionTokenHeader (sv_config s)) = sv_sessionID s)
  end.

(** What an admitted request comes to: the call of its method. *)
Definition called (mo : M) (late : bool) (req : Request J) (s : Server) (out : served (option (Response (A := A) (J := J))) * Server) : Prop :=
  let answer result err := exists resp, out.1 = Served resp /\ hr_Status resp = StatusOK /\
    hr_Body resp = Some (MkRpcResponse (Some (rq_ID req)) result err (bs "2.0")) in
  match GetMethodHandler (rq_Method req) with
  | None => answer None (Some (RPCError ErrCodeMethodNotFound "Method not found")) /\ out.2 = s
  | Some handler =>
      match match rq_Params req with Some p => json_Params p | None => Some [] end with
      | None => answer None (Some (RPCError ErrCodeInvalidParams "Invalid parameters")) /\ out.2 = s
      | Some params =>
          out.2 = MkServer (sv_config s) (handler mo params (sv_daemon s)).2 (sv_sessionID s) (sv_sessionTime s) /\
          match (handler mo params (sv_daemon s)).1 with
          | Panic p => out.1 = Crashed p
          | NoFuel => exists m, out.1 = Crashed m
          | Ok (inl result) => if late then answer None (Some (RPCError ErrCodeInternalError "Request timeout")) else answer (Some result) None
          | Ok (inr e) => if late then answer None (Some (RPCError ErrCodeInternalError "Request timeout")) else answer None (Some (as_rpc_error e))
          | Err m => if late then answer None (Some (RPCError ErrCodeInternalError "Request timeout")) else answer None (Some (RPCError ErrCodeInternalError m))
          end
      end
  end.

Lemma process_called mo late req (s : Server) h : called mo late req s (processRPCRequest mo late req s h).
Proof.
  unfold called, processRPCRequest. destruct (GetMethodHandler (rq_Method req)) as [handler|]; [|by split; [eexists|]].
  destruct (match rq_Params req with Some p => json_Params p | None => Some [] end) as [params|]; [|by split; [eexists|]].
  destruct (handler mo params (sv_daemon s)) as [[[a|e]|m|p|] d]; cbn; (split; [done|]); destruct late; cbn; try (by eexists); by eauto.
Qed.

Lemma token_header (s : Server) (h : Header) (k : bytes) : Header_Get (Header_Set (bs "Content-Type") (bs "application/json") (Header_Set k (sv_sessionID s) h)) k =
  (if decide (CanonicalHeaderKey k = bs "Content-Type") then bs "application/json" else sv_sessionID s).
Proof.
  unfold Header_Get, Header_Set. change (CanonicalHeaderKey (bs "Content-Type")) with (bs "Content-Type"). case_decide as E.
  - rewrite E, lookup_insert_eq. done.
  - by rewrite lookup_insert_ne, lookup_insert_eq by congruence.
Qed.

Lemma checkAuth_credentials (r : HttpRequest) (s : Server) : checkAuth r s = true <-> credentials r (sv_config s).
Proof.
  unfold checkAuth, credentials. case_decide as Hd; [tauto|]. destruct (BasicAuth r) as [[u p]|]; [|split; [done|intros [?|?]; done]].
  rewrite andb_true_iff, !bool_decide_eq_true. split; [intros [-> ->]; by right|]. intros [?|[= -> ->]]; done.
Qed.

Lemma refused (r : HttpRequest) (s : Server) (status code : Z) (m : string) (h : Header) : hq_Method r <> bs "OPTIONS" ->
  bool_decide (status ∈ [StatusBadRequest; StatusUnauthorized; StatusMethodNotAllowed; StatusRequestEntityTooLarge]) = true ->
  exists resp, (Served (sendError status code m h), s) = (Served resp, s) /\ refusal r s resp.
Proof.
  intros Ho Hs%bool_decide_eq_true. eexists. split; [done|]. split; [done|]. split; [done|]. split; [by eauto|]. split; [set_solver|]. cbn. intros E. rewrite E in Hs. by apply (bool_decide_pack _) in Hs.
Qed.

Lemma request_served mo late r (s : Server) :
  CanonicalHeaderKey (cf_SessionTokenHeader (sv_config s)) <> bs "Content-Type" ->
  match admitted r s with
  | Some req => called mo late req s (ServeHTTP mo late r s)
  | None => exists resp, ServeHTTP mo late r s = (Served resp, s) /\ refusal r s resp
  end.
Proof.
  intros Hk. unfold admitted, ServeHTTP, validateHTTPRequest. set (h := applyCORSHeaders s).
  destruct (decide (hq_Method r = bs "OPTIONS")) as [Eo|Eo].
  { rewrite decide_False by (intros (E & _); rewrite Eo in E; discriminate E). eexists. split; [done|]. by split. }
  destruct (decide (hq_Method r <> bs "POST")) as [Em|Em].
  { rewrite decide_False by tauto. by apply refused. }
  destruct (Contains _ _) eqn:Ec; cbn [negb].
  2: { rewrite decide_False by (intros (_ & E & _); discriminate E). by apply refused. }
  destruct (decide (cf_MaxRequestSize (sv_config s) < hq_ContentLength r)) as [El|El].
  { rewrite decide_False by lia. by apply refused. }
  rewrite decide_True by (split; [by destruct (decide (hq_Method r = bs "POST"))|split; [done|lia]]). unfold parseRPCRequest.
  destruct (read_limited _ r) as [body|]; cbn [mbind option_bind].
  2: { by apply refused. }
  destruct (json_Request body) as [req|]; cbn [mbind option_bind].
  2: { by apply refused. }
  destruct (decide (rq_Version req <> bs "2.0")) as [Ev|Ev].
  { rewrite decide_False by tauto. by apply refused. }
  unfold validateRPCAuthentication. pose proof (checkAuth_credentials r s) as Hcr. destruct (checkAuth r s) eqn:Ea; cbn [negb].
  2: { rewrite decide_False by (intros (_ & E & _); apply Hcr in E; discriminate E). by apply refused. }
  destruct (isStateChangingMethod (rq_Method req) && negb (checkSessionToken r s)) eqn:Et.
  - apply andb_true_iff in Et as [E1%bool_decide_eq_true E2]. apply negb_true_iff, bool_decide_eq_false in E2.
    rewrite decide_False by (intros (_ & _ & E); apply E2, E, E1).
    eexists. split; [done|]. split; [done|]. split; [done|]. split; [by eauto|]. split; [set_solver|]. intros _. cbn. rewrite token_header. by rewrite decide_False.
  - rewrite decide_True; [apply process_called|]. split; [by destruct (decide (rq_Version req = bs "2.0"))|]. split; [by apply Hcr|].
    intros E. apply andb_false_iff in Et as [E1|E1]; [by apply bool_decide_eq_false in E1|]. by apply negb_false_iff, bool_decide_eq_true in E1.
Qed.

(** C12: every HTTP request to the RPC server ends in one of these ways. It is
    admitted when it is a POST whose content type contains application/json,
    of a length within the limit, with a body that is a JSON-RPC request of
    version 2.0, with the configured credentials if any, and with the session
    token if its method is one of the eight that need it. Then the method is
    called on the daemon, and the answer, with status 200 and the ID of the
    request, has its result or its error, the error of an unknown method or of
    parameters that cannot be marshalled (nothing is then called), or the error
    of a timeout; a method that panics ends the program without an answer. A request
    that is not admitted leaves the server and the daemon as they are and is
    refused with an error and the status 400, 401, 405, 409 or 413, a refusal
    for the token carrying the token; only a preflight request (OPTIONS) gets an
    empty answer with status 200. The header of the token is not configured as
    Content-Type. *)
Theorem requests_admitted mo late r (s : Server) :
  CanonicalHeaderKey (cf_SessionTokenHeader (sv_config s)) <> bs "Content-Type" ->
  match admitted r s with
  | Some req => called mo late req s (ServeHTTP mo late r s)
  | None => exists resp, ServeHTTP mo late r s = (Served resp, s) /\ refusal r s resp
  end.
Proof. apply request_served. Qed.

(** A request without the credentials changes nothing and gets no result. *)
Lemma credentials_needed mo late r (s : Server) :
  CanonicalHeaderKey (cf_SessionTokenHeader (sv_config s)) <> bs "Content-Type" -> checkAuth r s = false ->
  exists resp, ServeHTTP mo late r s = (Served resp, s) /\ refusal r s resp.
Proof.
  intros Hk Ha. unfold ServeHTTP, validateHTTPRequest, parseRPCRequest, validateRPCAuthentication. rewrite Ha.
  case_decide; [by eexists|]. repeat first [by apply refused | case_match; simplify_eq; try (by apply refused)].
Qed.

(** A panic in a method ends the program: the recovering wrapper runs in
    another goroutine. *)
Theorem panic_not_recovered mo late r (s : Server) req handler params p :
  CanonicalHeaderKey (cf_SessionTokenHeader (sv_config s)) <> bs "Content-Type" ->
  admitted r s = Some req -> GetMethodHandler (rq_Method req) = Some handler -> rq_Params req = None ->
  (handler mo params (sv_daemon s)).1 = Panic p -> params = [] -> (WithRecovery (ServeHTTP mo late r s)).1 = Crashed p.
Proof.
  intros Hk Ha Hh Hp Hc ->. pose proof (request_served mo late r s Hk) as Hr. rewrite Ha in Hr. unfold called in Hr. rewrite Hh, Hp, Hc in Hr.
  destruct Hr as [_ Hr]. destruct (ServeHTTP mo late r s) as [out s']. cbn in *. by subst.
Qed.

End Server.

(** ** The methods of the daemon *)
Section Daemon.
Context {I : Type} `{!I2PKeys I} `{!GoLib.SortSlice} `{!MapRange} {OS : Type} `{!TorrentManager.OperatingSystem OS} `{!FileManager.Disk OS}
  `{!RpcMethods.RequestJSON}.
Context (wild : Bandwidth.float -> Z) (parseAuthority : bytes -> res bytes) (maxParams : option Z) (failedName : bytes -> bytes).

#[global] Instance daemon_service : RpcService (RpcMethods.daemon (I := I) (OS := OS)) RpcMethods.response RpcMethods.moment :=
  RpcMethods.GetMethodHandler wild parseAuthority maxParams failedName.

(** The methods that change the daemon but are not protected by the token. *)
Definition unprotected : list bytes :=
  map bs ["torrent-webseed-add"; "torrent-webseed-remove"; "bandwidth-schedule-set"; "bandwidth-schedule-rule-add"; "bandwidth-schedule-rule-remove";
    "bandwidth-schedule-rule-update"]%string.

(** Of the methods of the daemon, those that need no session token never change
    the daemon, except for six: web seeds and bandwidth schedules can be changed
    without a token. *)
Theorem methods_protected method handler :
  GetMethodHandler method = Some handler -> isStateChangingMethod method = false -> method ∉ unprotected ->
  forall mo params (d : RpcMethods.daemon (I := I) (OS := OS)), (handler mo params d).2 = d.
Proof.
  unfold GetMethodHandler, daemon_service, RpcMethods.GetMethodHandler, RpcMethods.getTorrentActionHandler, RpcMethods.getSpecialRequestHandler,
    RpcMethods.getSessionHandler.
  repeat (case_decide as E; [intros [= <-]; subst method; intros Hs Hu mo params d;
    first [discriminate Hs | exfalso; apply Hu; apply (bool_decide_unpack _); vm_compute; exact Logic.I
          | cbv zeta beta delta [RpcMethods.createTorrentGetWrapper RpcMethods.createTorrentMagnetWrapper RpcMethods.createTorrentWebSeedGetWrapper
              RpcMethods.createBandwidthScheduleGetWrapper RpcMethods.create_wrapper RpcMethods.on_manager RpcMethods.on_schedule];
            repeat case_match; simplify_eq; by destruct d]|clear E]). done.
Qed.

End Daemon.

(** ** Servers with a daemon of their own *)

(** A server made with a password answers only with it; its session names a
    version, so that the defaults of the session are not filled in: the DHT,
    peer exchange, web seeds and both queues are off, and the session shows port
    0 although the daemon listens on 51413. *)
Theorem simple_server_session {I : Type} `{!I2PKeys I} `{!GoLib.SortSlice} `{!MapRange} now listening random dir username password s r :
  NewServerWithAuth (I := I) now listening random dir username password = Ok s ->
  (checkAuth r s = true <-> (username = [] /\ password = []) \/ BasicAuth r = Some (username, password)) /\
  let session := TorrentManager.tm_session (sv_daemon s) in
  RpcTypes.s_DHTEnabled session = false /\ RpcTypes.s_PEXEnabled session = false /\ RpcTypes.s_WebSeedsEnabled session = false /\
  RpcTypes.s_DownloadQueueEnabled session = false /\ RpcTypes.s_SeedQueueEnabled session = false /\
  RpcTypes.s_PeerPort session = 0 /\ TorrentManager.c_PeerPort (TorrentManager.tm_config (sv_daemon s)) = 51413.
Proof.
  intros [= <-]. split.
  - unfold checkAuth. cbn. destruct (decide _) as [E|E]; [tauto|]. destruct (BasicAuth r) as [[u p]|]; [|split; [done|]; by intros [?|?]].
    rewrite andb_true_iff, !bool_decide_eq_true. split; [intros [-> ->]; by right|]. intros [?|[= -> ->]]; tauto.
  - unfold TorrentManager.NewTorrentManager, TorrentManager.applyConfigDefaults, TorrentManager.applyBasicConfigDefaults, TorrentManager.applySessionConfigDefaults.
    destruct (decide (TorrentManager.c_DownloadDir (simple_config dir) = [])); done.
Qed.

(** ** The rate limiter *)

(** The requests let through at times in [[t, t + 1 s)], of requests at the
    given times. *)
Fixpoint passed (n t : Z) (rl : limiter) (times : list Z) : Z :=
  match times with
  | [] => 0
  | now :: times' => let '(ok, rl) := WithRateLimit n now rl in
      (if ok && bool_decide (t <= now < t + Bandwidth.Second) then 1 else 0) + passed n t rl times'
  end.

Lemma passed_none n t rl times : Forall (fun now => t + Bandwidth.Second <= now) times -> passed n t rl times = 0.
Proof.
  revert rl. induction times as [|now times IH]; intros rl; cbn; [done|]. intros [Hn Ht]%Forall_cons. destruct (WithRateLimit n now rl) as [ok rl'].
  rewrite bool_decide_false, andb_false_r, IH by (done || lia). done.
Qed.
(** From the beginning of the second on: what is left of the window, and
    another window unless this one began within the second. *)
Lemma passed_bound n t rl times :
  0 <= n -> 0 <= rl_requests rl <= n -> Forall (Z.le t) times -> StronglySorted Z.le times ->
  passed n t rl times <= n - rl_requests rl + (match rl_lastReset rl with Some w => if decide (t <= w) then 0 else n | None => n end).
Proof.
  intros Hn. revert rl. induction times as [|now times IH]; intros rl Hr Ht Hs; cbn; [destruct (rl_lastReset rl); try case_decide; lia|].
  apply StronglySorted_inv in Hs as [Hs Hle]. apply Forall_cons in Ht as [Hnow Ht]. destruct (decide (t + Bandwidth.Second <= now)) as [Hlate|Hlate].
  { destruct (WithRateLimit n now rl) as [ok rl']. rewrite bool_decide_false, andb_false_r, passed_none by (lia || (eapply Forall_impl; [exact Hle|]; cbn; lia)).
    destruct (rl_lastReset rl); try case_decide; lia. }
  rewrite (bool_decide_true (t <= now < t + Bandwidth.Second)) by lia.
  unfold WithRateLimit. cbv zeta. set (reset := match rl_lastReset rl with Some w => bool_decide (Bandwidth.Second <= now - w) | None => true end).
  destruct reset eqn:Er; unfold reset in Er.
  - cbn [rl_requests rl_lastReset]. assert (Hold : match rl_lastReset rl with Some w => if decide (t <= w) then 0 else n | None => n end = n).
    { destruct (rl_lastReset rl) as [w|]; [|done]. apply bool_decide_eq_true in Er. rewrite decide_False by lia. done. }
    rewrite Hold. case_decide as Hz.
    + specialize (IH (MkLimiter (Some now) 0) ltac:(cbn; lia) Ht Hs). cbn [rl_requests rl_lastReset andb] in IH |- *. rewrite decide_True in IH by lia. lia.
    + specialize (IH (MkLimiter (Some now) (0 + 1)) ltac:(cbn; lia) Ht Hs). cbn [rl_requests rl_lastReset andb] in IH |- *. rewrite decide_True in IH by lia. lia.
  - case_decide as Hz.
    + specialize (IH rl Hr Ht Hs). cbn. lia.
    + specialize (IH (MkLimiter (rl_lastReset rl) (rl_requests rl + 1)) ltac:(cbn; lia) Ht Hs). cbn [rl_requests rl_lastReset andb] in IH |- *. lia.
Qed.
Lemma limiter_range n now rl : 0 <= n -> 0 <= rl_requests rl <= n -> 0 <= rl_requests (WithRateLimit n now rl).2 <= n.
Proof. intros Hn Hr. unfold WithRateLimit. cbv zeta. destruct (match rl_lastReset rl with Some w => bool_decide (Bandwidth.Second <= now - w) | None => true end); case_decide; cbn in *; lia. Qed.
Lemma passed_second n t rl times : 0 <= n -> 0 <= rl_requests rl <= n -> StronglySorted Z.le times -> passed n t rl times <= 2 * n.
Proof.
  intros Hn. revert rl. induction times as [|now times IH]; intros rl Hr Hs; [cbn; lia|]. destruct (decide (t <= now)) as [Ht|Ht].
  - pose proof (passed_bound n t rl (now :: times) Hn Hr) as Hb. apply StronglySorted_inv in Hs as Hs'. destruct Hs' as [_ Hle].
    assert (Hall : Forall (Z.le t) (now :: times)) by (apply Forall_cons; split; [done|]; eapply Forall_impl; [exact Hle|]; cbn; lia).
    specialize (Hb Hall Hs). destruct (rl_lastReset rl); try case_decide; lia.
  - apply StronglySorted_inv in Hs as [Hs _]. cbn. pose proof (limiter_range n now rl Hn Hr) as Hl. destruct (WithRateLimit n now rl) as [ok rl'].
    rewrite bool_decide_false, andb_false_r by lia. by apply IH.
Qed.

(** C40: for requests at times that do not decrease, no second, wherever it
    begins, sees more than twice the configured number of requests let
    through. *)
Theorem rate_limited n t times : 0 <= n -> StronglySorted Z.le times -> passed n t NewRateLimit times <= 2 * n.
Proof. intros Hn Hs. apply passed_second; [done|cbn; lia|done]. Qed.

(** More than the configured number may get through: the end of a window and a
    burst at the start of the next. *)
Example rate_exceeded : passed 2 (Bandwidth.Second - 1) NewRateLimit (0 :: replicate 2 (Bandwidth.Second - 1) ++ replicate 2 Bandwidth.Second) = 3.
Proof. vm_compute. reflexivity. Qed.

(** ** Witnesses *)
#[local] Instance demo_service : RpcService Z Z () := fun m => if decide (m = bs "torrent-set") then Some (fun _ _ d => (Ok (inl d), d + 1)) else None.
#[local] Instance demo_json : RpcJSON Z := {| json_Request := fun _ => Some (MkRpcRequest Z 1 (bs "torrent-set") None (bs "2.0")); json_Params := fun _ => Some [] |}.
Definition demo_server : RpcServer.Server (D := Z) :=
  MkServer (applyServerConfigDefaults (MkServerConfig [] [] [] [] false 0 0 0)) 5 (bs "session-1") 0.
Definition demo_http (token : bytes) : HttpRequest :=
  MkHttpRequest (bs "POST") (bs "/transmission/rpc")
    (<[bs "Content-Type" := bs "application/json"]> {[bs "X-Transmission-Session-Id" := token]}) 2 (bs "{}", false).

Lemma requests_admitted_witness :
  (exists resp, (ServeHTTP (A := Z) (J := Z) () false (demo_http (bs "session-1")) demo_server).1 = Served resp /\ sv_daemon (ServeHTTP (A := Z) (J := Z) () false (demo_http (bs "session-1")) demo_server).2 = 6) /\
  (exists resp, ServeHTTP (A := Z) (J := Z) () false (demo_http (bs "old")) demo_server = (Served resp, demo_server) /\ refusal (demo_http (bs "old")) demo_server resp).
Proof.
  split.
  - pose proof (requests_admitted (D := Z) (A := Z) (J := Z) () false (demo_http (bs "session-1")) demo_server ltac:(vm_compute; discriminate)) as H.
    destruct (admitted (D := Z) (J := Z) (demo_http (bs "session-1")) demo_server) as [req|] eqn:E; [|vm_compute in E; discriminate E].
    vm_compute in E. injection E as <-. destruct H as [H2 (resp & H1 & _)]. exists resp. split; [exact H1|]. rewrite H2. reflexivity.
  - pose proof (requests_admitted (D := Z) (A := Z) (J := Z) () false (demo_http (bs "old")) demo_server ltac:(vm_compute; discriminate)) as H.
    destruct (admitted (D := Z) (J := Z) (demo_http (bs "old")) demo_server) as [req|] eqn:E; [vm_compute in E; discriminate E|exact H].
Defined.
Lemma rate_limited_witness : passed 2 0 NewRateLimit [0; 1; 2; 3] <= 4.
Proof. apply (rate_limited 2 0 [0; 1; 2; 3]); [lia|]. repeat constructor; lia. Defined.

End RpcServerFacts.
