(* ===== verification/WebFacts.v ===== *)
(** * The web interface: what it serves

    Which path a request opens, always one inside the static directory, and what
    it is answered; an upload reaches the daemon byte for byte; the index page is
    never served. *)

From S2P Require Import Prelude Strconv Metainfo GoLib Url Bencode BencodeFacts BencodeTyped Sha1 Hash Net Address Magnet TorrentFile Bandwidth.
From S2P Require Import RpcTypes QueueManager Blocklist PexManager WebSeed FileManager TorrentManager RpcMessages RpcMethods RpcServer.
From S2P Require Import WebHandler.
Import Http Metainfo RpcTypes RpcMessages RpcServer WebHandler.

Module WebFacts.

(** ** Paths *)
Lemma split_app cur (e s : bytes) : slash ∉ e -> split_slash cur (e ++ s) = split_slash (reverse e ++ cur) s.
Proof.
  revert cur. induction e as [|c e IH]; intros cur; cbn [split_slash app]; [done|]. intros [Hc He]%not_elem_of_cons. rewrite decide_False, IH by done.
  by rewrite reverse_cons, <- app_assoc.
Qed.
Lemma split_last (e : bytes) : slash ∉ e -> split_slash [] e = [e].
Proof.
  intros He. rewrite <- (app_nil_r e) at 1. rewrite split_app by done. cbn [split_slash]. by rewrite app_nil_r, reverse_involutive.
Qed.
Lemma split_cut cur a b : split_slash cur (a ++ slash :: b) = split_slash cur a ++ split_slash [] b.
Proof. revert cur. induction a as [|c a IH]; intros cur; cbn; [done|]. case_decide; cbn; by rewrite IH. Qed.
Lemma split_elements cur s : slash ∉ cur -> Forall (fun e => slash ∉ e) (split_slash cur s).
Proof.
  revert cur. induction s as [|c s IH]; intros cur Hc; cbn; [apply Forall_singleton; by rewrite elem_of_reverse|].
  case_decide; [apply Forall_cons; split; [by rewrite elem_of_reverse|apply IH; set_solver]|]. apply IH. by apply not_elem_of_cons.
Qed.
Lemma split_join_slash l : l <> [] -> Forall (fun e => slash ∉ e) l -> split_slash [] (join_slash l) = l.
Proof.
  induction l as [|e l IH]; [done|]. intros _ [He Hl]%Forall_cons. destruct l as [|e' l].
  - cbn [join_slash]. by rewrite split_last.
  - change (join_slash (e :: e' :: l)) with (e ++ slash :: join_slash (e' :: l)). rewrite split_cut, IH by done.
    by rewrite split_last.
Qed.

(** The elements of a rooted path that is cleaned. *)
Definition plain (e : bytes) : Prop := (e <> [] /\ e <> bs "." /\ e <> bs "..") /\ slash ∉ e.
Lemma clean_plain out elems : Forall plain out -> Forall (fun e => slash ∉ e) elems ->
  Forall plain (foldl (clean_step true) out elems) /\ foldl (clean_step true) out elems ⊆ elems ++ out.
Proof.
  revert out. induction elems as [|e elems IH]; intros out Ho He; [done|]. apply Forall_cons in He as [He Hes]. cbn.
  assert (Hstep : Forall plain (clean_step true out e) /\ clean_step true out e ⊆ e :: out).
  { unfold clean_step. destruct (decide (e = [] \/ e = bs ".")) as [|Hk]; [split; [done|set_solver]|]. destruct (decide (e = bs "..")) as [|Hd].
    - destruct out as [|x out]; [split; [done|set_solver]|]. apply Forall_cons in Ho as [((_ & _ & Hx) & _) Ho]. rewrite decide_False by done.
      split; [done|set_solver].
    - split; [apply Forall_cons; split; [split; [tauto|done]|done]|done]. }
  destruct Hstep as [H1 H2]. destruct (IH _ H1 Hes) as [H3 H4]. split; [done|]. set_solver.
Qed.
Lemma rooted_clean p : exists els, Clean (slash :: p) = slash :: join_slash els /\ Forall plain els /\ els ⊆ split_slash [] (slash :: p).
Proof.
  unfold Clean. rewrite decide_False by done. rewrite bool_decide_true by done.
  exists (reverse (foldl (clean_step true) [] (split_slash [] (slash :: p)))). split; [done|].
  destruct (clean_plain [] (split_slash [] (slash :: p))) as [H1 H2]; [done|apply split_elements, not_elem_of_nil|].
  split; [by apply Forall_reverse|]. intros e. rewrite elem_of_reverse. intros He%H2. by rewrite app_nil_r in He.
Qed.
Lemma clean_keeps out els : Forall plain els -> foldl (clean_step true) out els = reverse els ++ out.
Proof.
  revert out. induction els as [|e els IH]; intros out; [done|]. intros [((H1 & H2 & H3) & _) Hes]%Forall_cons. cbn [foldl].
  rewrite IH by done. unfold clean_step. rewrite decide_False by tauto. rewrite decide_False by done. by rewrite reverse_cons, <- app_assoc.
Qed.
Lemma split_rooted els : els <> [] -> Forall plain els -> split_slash [] (slash :: join_slash els) = [] :: els.
Proof.
  intros Hne Hp. cbn [split_slash]. rewrite decide_True by done. rewrite split_join_slash; [done|done|]. eapply Forall_impl; [exact Hp|]. by intros x [_ ?].
Qed.
Lemma clean_rooted els : Forall plain els -> Clean (slash :: join_slash els) = slash :: join_slash els.
Proof.
  intros Hp. destruct (decide (els = [])) as [->|Hne]; [done|]. unfold Clean. rewrite decide_False by done. rewrite bool_decide_true by done.
  rewrite split_rooted by done. change (foldl (clean_step true) [] ([] :: els)) with (foldl (clean_step true) [] els).
  by rewrite clean_keeps, app_nil_r, reverse_involutive by done.
Qed.
Lemma rooted_last els : els <> [] -> Forall plain els -> HasSuffix (slash :: join_slash els) (bs "/") = false.
Proof.
  intros Hne Hp. apply bool_decide_eq_false. intros [a Ha]. change (bs "/") with [slash] in Ha.
  pose proof (split_rooted els Hne Hp) as E. rewrite Ha, split_cut in E. change (split_slash [] []) with [@nil Z] in E.
  assert (Hl : last ([] :: els) = Some []) by (by rewrite <- E, last_snoc). destruct els as [|e els]; [done|]. rewrite last_cons_cons in Hl.
  apply last_Some_elem_of in Hl. by apply (proj1 (Forall_forall _ _) Hp) in Hl as [[? _] _].
Qed.

(** ** Two dots in a row *)
Lemma substring_spec s sub : Contains s sub = true <-> exists a b, s = a ++ sub ++ b.
Proof.
  unfold GoLib.HasPrefix. induction s as [|c s IH]; cbn [Contains]; rewrite orb_true_iff; unfold GoLib.HasPrefix; rewrite bool_decide_eq_true.
  - split; [intros [E|]; [|done]; exists [], []; rewrite <- E; by rewrite take_nil|]. intros (a & b & E). left. destruct a, sub; done.
  - rewrite IH. split.
    + intros [E|(a & b & ->)]; [exists [], (drop (length sub) (c :: s)); cbn [app]; rewrite <- E at 1; by rewrite take_drop|by exists (c :: a), b].
    + intros ([|x a] & b & E); [left; cbn [app] in E; by rewrite E, take_app_length|right]. injection E as <- ->. by exists a, b.
Qed.
Lemma split_infix cur s e : e ∈ split_slash cur s -> exists a b, reverse cur ++ s = a ++ e ++ b.
Proof.
  revert cur. induction s as [|c s IH]; intros cur; cbn [split_slash]; [rewrite list_elem_of_singleton; intros ->; exists [], []; by rewrite !app_nil_r|].
  destruct (decide (c = slash)) as [->|Hc].
  - intros [->|Hin]%elem_of_cons; [by exists [], (slash :: s)|]. destruct (IH _ Hin) as (a & b & E). change (reverse [] ++ s) with s in E.
    exists (reverse cur ++ slash :: a), b. rewrite E. by rewrite <- !app_assoc.
  - intros Hin. destruct (IH _ Hin) as (a & b & E). exists a, b. by rewrite <- E, reverse_cons, <- app_assoc.
Qed.
Lemma dots_apart (x y : bytes) : Contains (x ++ slash :: y) (bs "..") = true -> Contains x (bs "..") = true \/ Contains y (bs "..") = true.
Proof.
  rewrite !substring_spec. change (bs "..") with [46; 46]. intros (a & b & E). apply app_eq_app in E as (l & [[-> E]|[-> E]]).
  - destruct l as [|c1 [|c2 l]]; [done|done|]. injection E as <- <- ->. left. by exists a, l.
  - destruct l as [|c l]; [done|]. injection E as _ ->. right. by exists l, b.
Qed.
Lemma join_dots els : Contains (join_slash els) (bs "..") = true -> exists e, e ∈ els /\ Contains e (bs "..") = true.
Proof.
  induction els as [|e els IH]; [done|]. destruct els as [|e' els]; [cbn [join_slash]; intros H; exists e; split; [by apply list_elem_of_here|done]|].
  change (join_slash (e :: e' :: els)) with (e ++ slash :: join_slash (e' :: els)). intros [H|H]%dots_apart.
  - exists e. split; [by apply list_elem_of_here|done].
  - destruct (IH H) as (x & Hx & Hc). exists x. split; [by apply list_elem_of_further|done].
Qed.
(** Cleaning a rooted path brings no two dots together. *)
Lemma clean_dots p : Contains (Clean (slash :: p)) (bs "..") = true -> Contains (slash :: p) (bs "..") = true.
Proof.
  destruct (rooted_clean p) as (els & -> & _ & Hsub). intros [Hd|Hd]%(dots_apart []); [discriminate Hd|].
  destruct (join_dots els Hd) as (e & He & (a & b & ->)%substring_spec). destruct (split_infix [] _ _ (Hsub _ He)) as (a' & b' & E).
  apply substring_spec. exists (a' ++ a), (b ++ b'). cbn [reverse app] in E. change (reverse [] ++ slash :: p) with (slash :: p) in E. rewrite E. by rewrite <- !app_assoc.
Qed.

(** Rooted, and without an element that leads upwards. *)
Definition inside (name : bytes) : Prop := head name = Some slash /\ bs ".." ∉ split_slash [] name.
Lemma joined_plain els : Forall plain els -> bs ".." ∉ split_slash [] (join_slash els).
Proof.
  intros Hp. destruct els as [|e els]; [cbn; set_solver|]. rewrite split_join_slash; [|done|].
  - intros Hin. by apply (proj1 (Forall_forall _ _) Hp) in Hin as ((_ & _ & ?) & _).
  - eapply Forall_impl; [exact Hp|]. by intros x [_ ?].
Qed.
Lemma clean_inside p : inside (Clean (slash :: p)).
Proof.
  destruct (rooted_clean p) as (els & -> & Hp & _). split; [done|]. cbn. intros [E|Hin]%elem_of_cons; [discriminate E|]. by apply (joined_plain els).
Qed.
(** ** Base64 *)
Lemma b64_char_spec n : 0 <= n < 64 -> TorrentManager.b64_value (b64_char n) = Some n /\ b64_char n <> 61 /\ b64_char n <> 10 /\ b64_char n <> 13.
Proof.
  intros Hn. assert (Hall : Forall (fun n => TorrentManager.b64_value (b64_char n) = Some n /\ b64_char n <> 61 /\ b64_char n <> 10 /\ b64_char n <> 13) (seqZ 0 64))
    by (apply (bool_decide_unpack _); vm_compute; exact I).
  apply (proj1 (Forall_forall _ _) Hall). apply elem_of_seqZ. lia.
Qed.
Lemma b64_group x y z : is_byte x -> is_byte y -> is_byte z ->
  0 <= x / 4 < 64 /\ 0 <= x mod 4 * 16 + y / 16 < 64 /\ 0 <= y mod 16 * 4 + z / 64 < 64 /\ 0 <= z mod 64 < 64 /\
  4 * (x / 4) + (x mod 4 * 16 + y / 16) / 16 = x /\ 16 * ((x mod 4 * 16 + y / 16) mod 16) + (y mod 16 * 4 + z / 64) / 4 = y /\
  64 * ((y mod 16 * 4 + z / 64) mod 4) + z mod 64 = z.
Proof. unfold is_byte. intros. Z.to_euclidean_division_equations. lia. Qed.

(** The text has no line breaks. *)
Lemma encode_chars b : bytes_ok b -> Forall (fun c => c <> 10 /\ c <> 13) (EncodeToString b).
Proof.
  induction b as [b IH] using (induction_ltof1 _ (@length Z)). intros Hb. destruct b as [|x [|y [|z b]]]; cbn [EncodeToString].
  - apply Forall_nil_2.
  - apply Forall_cons in Hb as [Hx _]. destruct (b64_group x 0 0) as (H1 & H2 & _); [done|done..|]. rewrite Z.add_0_r in H2.
    destruct (b64_char_spec _ H1) as (_ & _ & ?), (b64_char_spec _ H2) as (_ & _ & ?). repeat apply Forall_cons_2; done.
  - apply Forall_cons in Hb as [Hx [Hy _]%Forall_cons]. destruct (b64_group x y 0) as (H1 & H2 & H3 & _); [done|done|done|]. rewrite Z.add_0_r in H3.
    destruct (b64_char_spec _ H1) as (_ & _ & ?), (b64_char_spec _ H2) as (_ & _ & ?), (b64_char_spec _ H3) as (_ & _ & ?).
    repeat apply Forall_cons_2; done.
  - apply Forall_cons in Hb as [Hx [Hy [Hz Hb]%Forall_cons]%Forall_cons]. destruct (b64_group x y z Hx Hy Hz) as (H1 & H2 & H3 & H4 & _).
    destruct (b64_char_spec _ H1) as (_ & _ & ?), (b64_char_spec _ H2) as (_ & _ & ?), (b64_char_spec _ H3) as (_ & _ & ?), (b64_char_spec _ H4) as (_ & _ & ?).
    repeat apply Forall_cons_2; try done. apply IH; [unfold ltof; cbn; lia|done].
Qed.
Lemma encode_groups b : bytes_ok b -> TorrentManager.b64_groups (EncodeToString b) = Ok b.
Proof.
  induction b as [b IH] using (induction_ltof1 _ (@length Z)). intros Hb. destruct b as [|x [|y [|z b]]]; cbn [EncodeToString TorrentManager.b64_groups].
  - done.
  - apply Forall_cons in Hb as [Hx _]. destruct (b64_group x 0 0) as (H1 & H2 & _ & _ & E1 & _); [done|done..|]. rewrite Z.add_0_r in H2, E1.
    rewrite (proj1 (b64_char_spec _ H1)), (proj1 (b64_char_spec _ H2)), decide_True, decide_False, decide_True by (done || tauto). by rewrite E1.
  - apply Forall_cons in Hb as [Hx [Hy _]%Forall_cons]. destruct (b64_group x y 0) as (H1 & H2 & H3 & _ & E1 & E2 & _); [done|done|done|].
    rewrite Z.add_0_r in H3, E2. destruct (b64_char_spec _ H3) as (V3 & N3 & _).
    rewrite (proj1 (b64_char_spec _ H1)), (proj1 (b64_char_spec _ H2)), decide_True, decide_False, decide_False, V3 by (done || tauto). by rewrite E1, E2.
  - apply Forall_cons in Hb as [Hx [Hy [Hz Hb]%Forall_cons]%Forall_cons]. destruct (b64_group x y z Hx Hy Hz) as (H1 & H2 & H3 & H4 & E1 & E2 & E3).
    destruct (b64_char_spec _ H4) as (V4 & N4 & _).
    rewrite (proj1 (b64_char_spec _ H1)), (proj1 (b64_char_spec _ H2)), (proj1 (b64_char_spec _ H3)), decide_False, V4, IH by (done || (unfold ltof; cbn; lia)).
    cbn. by rewrite E1, E2, E3.
Qed.

(** Decoding inverts encoding. *)
Lemma base64_roundtrip b : bytes_ok b -> TorrentManager.DecodeString (EncodeToString b) = Ok b.
Proof.
  intros Hb. unfold TorrentManager.DecodeString.
  assert (Hf : filter (fun c => c <> 10 /\ c <> 13) (EncodeToString b) = EncodeToString b).
  { pose proof (encode_chars b Hb) as Hc. induction (EncodeToString b) as [|c l IH]; [done|]. apply Forall_cons in Hc as [Hc Hl].
    rewrite filter_cons_True by done. by rewrite IH. }
  rewrite Hf. by apply encode_groups.
Qed.

Section Web.
Context `{!StaticFS} {D A : Type} (TorrentAdd : TorrentAddRequest -> D -> res (A + rpc_error) * D).

(** What the file server answers for a clean path, which it opens: the contents
    of a file, an error for a directory unless listings are on, and then a
    redirection to the path with a slash. *)
Definition static_answer (c : WebHandlerConfig) (p : bytes) : Z * web_body :=
  match fs_Open p with
  | OFile content => (StatusOK, WFile p content)
  | ODir => if wc_EnableDirectoryListing c then (StatusMovedPermanently, WRedirect (Base p ++ bs "/")) else (500, WNone)
  | ONotExist => (404, WNone)
  | OForbidden => (403, WNone)
  | OError => (500, WNone)
  end.
Lemma serve_clean c p : head p = Some slash -> Clean p = p -> HasSuffix p (bs "/") = false -> HasSuffix p (bs "/index.html") = false ->
  serve_file (createFileServer c) p = (static_answer c p, [p]).
Proof.
  intros Hh Hc Hs Hi. unfold serve_file. destruct p as [|x p]; [discriminate Hh|]. injection Hh as ->.
  assert (E : GoLib.HasPrefix (slash :: p) (bs "/") = true) by done. rewrite E, Hc, Hs, Hi. cbn [negb].
  unfold createFileServer, static_answer, noDirectoryListing_Open. destruct (wc_EnableDirectoryListing c); by destruct (fs_Open (slash :: p)).
Qed.

(** The path a request asks for: the clean one, and the index file for the root. *)
Definition target (c : WebHandlerConfig) (path : bytes) : bytes := if decide (Clean path = bs "/") then bs "/" ++ wc_IndexFile c else Clean path.
Definition clean_index (c : WebHandlerConfig) : Prop := wc_IndexFile c <> [] /\ Clean (bs "/" ++ wc_IndexFile c) = bs "/" ++ wc_IndexFile c.

Lemma target_clean c p : clean_index c ->
  exists els, target c (slash :: p) = slash :: join_slash els /\ Forall plain els /\ els <> [].
Proof.
  intros [Hne Hi]. unfold target. destruct (decide (Clean (slash :: p) = bs "/")) as [|Hr].
  - change (bs "/" ++ wc_IndexFile c) with (slash :: wc_IndexFile c) in *. destruct (rooted_clean (wc_IndexFile c)) as (els & E & Hp & _). exists els.
    rewrite Hi in E. split; [done|]. split; [done|]. intros ->. by injection E as E.
  - destruct (rooted_clean p) as (els & E & Hp & _). exists els. split; [done|]. split; [done|]. intros ->. by rewrite E in Hr.
Qed.


(** ** Uploads *)

(** an upload changes the daemon only by adding a torrent whose metainfo
    decodes to exactly the bytes of the uploaded file, which has the extension,
    is within the size limit and looks like a torrent file; and only with the
    credentials where they are required. *)
Theorem upload_adds_file c r form (server : option (RpcServer.Server (D := D))) out server' :
  (forall f name size_ data, form = Some f -> uf_torrent f = Some (name, size_, Some data) -> bytes_ok data) ->
  handleFileUpload TorrentAdd c r form server = (out, server') ->
  server' = server \/
  exists s f name size_ data req, server = Some s /\ form = Some f /\ uf_torrent f = Some (name, size_, Some data) /\
    HasSuffix (map lower name) (bs ".torrent") = true /\ size_ <= maxUploadSize /\ isValidTorrentFile data = true /\
    (wc_RequireAuth c = true -> checkAuth r s = true) /\
    TorrentManager.DecodeString (ar_Metainfo req) = Ok data /\ ar_DownloadDir req = FormValue f (bs "download-dir") /\
    server' = Some (MkServer (sv_config s) (TorrentAdd req (sv_daemon s)).2 (sv_sessionID s) (sv_sessionTime s)).
Proof.
  intros Hb. unfold handleFileUpload. destruct (validateAuthentication c r server) eqn:Ea; [intros [= <- <-]; by left|]. cbv zeta.
  unfold extractUploadedFile. destruct form as [f|]; [|intros [= <- <-]; by left].
  destruct (uf_torrent f) as [[[name size_] [data|]]|] eqn:Et; [|intros [= <- <-]; by left..]. specialize (Hb f name size_ data eq_refl Et).
  unfold validateTorrentFile. destruct (HasSuffix (map lower name) (bs ".torrent")) eqn:Es; [|intros [= <- <-]; by left]. cbn [negb].
  case_decide as Hz; [intros [= <- <-]; by left|]. destruct (isValidTorrentFile data) eqn:Ev; [|intros [= <- <-]; by left]. cbn [negb].
  unfold processTorrentUpload. destruct server as [s|]; [|intros [= <- <-]; by left]. intros E. right.
  exists s, f, name, size_, data, (upload_request f data).
  destruct (TorrentAdd (upload_request f data) (sv_daemon s)) as [call d] eqn:Ec. injection E as _ <-.
  do 4 (split; [done|]). split; [lia|]. split; [done|]. split; [|split; [by apply base64_roundtrip|done]].
  intros Hr. unfold validateAuthentication in Ea. rewrite Hr in Ea. by destruct (checkAuth r s).
Qed.

(** ** The index page *)

(** With the default index file a request for the root is answered with a
    redirection to itself: the page is never served. *)
Theorem index_never_served c r form (server : option (RpcServer.Server (D := D))) :
  wc_IndexFile c = bs "index.html" -> hq_Method r = bs "GET" -> hq_Path r = bs "/" -> validateAuthentication c r server = None ->
  exists h, ServeHTTP TorrentAdd c r form server = (Served (MkHttpResponse StatusMovedPermanently h (WRedirect (bs "./"))), server, []).
Proof.
  intros Hi Hm Hp Ha. unfold ServeHTTP. rewrite decide_False by (intros [E _]; rewrite Hm in E; discriminate E). rewrite decide_False by tauto. rewrite Ha, Hp.
  unfold file_path. rewrite Hi. cbn -[setCacheHeaders]. by eexists.
Qed.

End Web.

#[local] Instance demo_fs : StaticFS := fun name => if decide (name ∈ [bs "/index.html"; bs "/x/y"]) then OFile (bs "hello") else ONotExist.
Definition demo_web_server : RpcServer.Server (D := list TorrentAddRequest) :=
  MkServer (MkServerConfig [] [] [] [] false 0 0 0) [] [] 0.
Definition demo_add (req : TorrentAddRequest) (d : list TorrentAddRequest) : res (() + rpc_error) * list TorrentAddRequest := (Ok (inl ()), d ++ [req]).
Definition demo_form : upload_form := MkForm (Some (bs "a.torrent", 14, Some (bs "d4:infod4:nameee"))) ∅.
Definition demo_get (path : string) : HttpRequest := MkHttpRequest (bs "GET") (bs path) ∅ 0 ([], false).


Lemma upload_adds_file_witness :
  exists s, (handleFileUpload demo_add (defaultWebConfig (bs "web") false) (demo_get "/upload") (Some demo_form) (Some demo_web_server)).2 = Some s /\ sv_daemon s <> [].
Proof.
  destruct (handleFileUpload demo_add (defaultWebConfig (bs "web") false) (demo_get "/upload") (Some demo_form) (Some demo_web_server)) as [out server'] eqn:E.
  destruct (upload_adds_file demo_add (defaultWebConfig (bs "web") false) (demo_get "/upload") (Some demo_form) (Some demo_web_server) out server')
    as [Hs|(s & f & name & size_ & data & req & [= <-] & _ & _ & _ & _ & _ & _ & _ & _ & Hs)]; [|exact E| |].
  - intros f name size_ data [= <-] [= <- <- <-]. apply (bool_decide_unpack _). vm_compute. exact I.
  - vm_compute in E. rewrite Hs in E. discriminate E.
  - eexists. split; [exact Hs|]. discriminate.
Defined.

(** A static file below the root is served. *)
Example file_served :
  (ServeHTTP (D := ()) (A := ()) (fun _ d => (Ok (inl ()), d)) (MkWebConfig (bs "web") (bs "/web/") (bs "start.html") 60 false false) (demo_get "/a/../x") None None).2 = [] /\
  (ServeHTTP (D := ()) (A := ()) (fun _ d => (Ok (inl ()), d)) (defaultWebConfig (bs "web") false) (demo_get "/x//y/") None None).2 = [bs "/x/y"].
Proof. vm_compute. done. Qed.
End WebFacts.
