(* ===== verification/Mux.v ===== *)
(** * The multiplexers of the daemon

    Models [CreateMuxWithWebHandler] and [CreateMuxWithWebSocketSupport] of
    [src/rpc/web_handler.go]: the RPC server, the web interface and the
    websockets behind one [http.ServeMux].

    What is used of [net/http]: a pattern may be registered once; one that ends
    in a slash matches the paths below it, the longest match wins; a path that
    is not clean, or that only lacks the slash of a pattern, is redirected. A
    pattern with a host, white space, an escape or a wildcard is outside the
    model: registering it is an [Err], which [Handle] itself never returns. *)

From S2P Require Import Prelude Strconv Metainfo MetainfoFacts GoLib Url Bencode BencodeFacts BencodeTyped Sha1 Hash Net Address Magnet TorrentFile Bandwidth.
From S2P Require Import RpcTypes QueueManager Blocklist PexManager WebSeed FileManager TorrentManager RpcMessages RpcMethods RpcServer WebHandler WebSocket RpcServerFacts WebFacts.
Import Http RpcTypes RpcMessages RpcServer WebHandler.

Module Mux.

(** ** [http.ServeMux] *)

(** [ToWeb strip]: the web handler behind [StripPrefix strip]. *)
Inductive target := ToRpc | ToWs | ToWeb (strip : bytes) | ToRoot.
Abbreviation ServeMux := (list (bytes * target)).

Definition plain_pattern (p : bytes) : bool :=
  GoLib.HasPrefix p (bs "/") && forallb (fun c => negb (bool_decide (c ∈ [9; 32; 37; 123; 125]))) p.
Definition Handle (pattern : bytes) (t : target) (mux : ServeMux) : res ServeMux :=
  if decide (pattern = []) then Panic "http: invalid pattern"
  else if negb (plain_pattern pattern) then Err "outside the model"
  else if decide (pattern ∈ map fst mux) then Panic "http: multiple registrations"
  else Ok (mux ++ [(pattern, t)]).

Definition cleanPath (p : bytes) : bytes :=
  if decide (p = []) then bs "/"
  else
    let p := if GoLib.HasPrefix p (bs "/") then p else bs "/" ++ p in
    let np := Metainfo.Clean p in
    if HasSuffix p (bs "/") && bool_decide (np <> bs "/") then np ++ bs "/" else np.

Definition pattern_matches (pattern path : bytes) : bool :=
  bool_decide (pattern = path) || (HasSuffix pattern (bs "/") && GoLib.HasPrefix path pattern).
Fixpoint match_path (path : bytes) (mux : ServeMux) : option (bytes * target) :=
  match mux with
  | [] => None
  | (p, t) :: mux' =>
      let rest := match_path path mux' in
      if pattern_matches p path then
        match rest with Some (q, _) => if decide (length p < length q)%nat then rest else Some (p, t) | None => Some (p, t) end
      else rest
  end.

Inductive dispatch := Dispatched (t : target) | Redirected (location : bytes) | NotFound.
Definition findHandler (path : bytes) (mux : ServeMux) : dispatch :=
  let clean := cleanPath path in
  let found := match_path clean mux in
  let exact := match found with Some (p, _) => bool_decide (p = clean) | None => false end in
  if negb exact && negb (HasSuffix clean (bs "/")) && bool_decide ((clean ++ bs "/") ∈ map fst mux) then Redirected (clean ++ bs "/")
  else if decide (path <> clean) then Redirected clean
  else match found with Some (_, t) => Dispatched t | None => NotFound end.

(** ** The two multiplexers *)
Definition register_all (patterns : ServeMux) : res ServeMux := foldl (fun mux pt => m ← mux; Handle pt.1 pt.2 m) (Ok []) patterns.

Definition web_pattern (c : WebHandlerConfig) : bytes * target := (wc_URLPrefix c, ToWeb (TrimSuffix (wc_URLPrefix c) (bs "/"))).
Definition CreateMuxWithWebHandler (c : WebHandlerConfig) : res (WebHandlerConfig * ServeMux) :=
  web ← validateWebHandlerConfig c;
  mux ← register_all [(bs "/transmission/rpc", ToRpc); (bs "/upload", ToWeb []); web_pattern c; (bs "/", ToRoot)];
  Ok (web, mux).
Definition CreateMuxWithWebSocketSupport (c : WebHandlerConfig) : res (WebHandlerConfig * ServeMux) :=
  web ← validateWebHandlerConfig c;
  mux ← register_all [(bs "/transmission/rpc", ToRpc); (bs "/ws", ToWs); (bs "/upload", ToWeb []); web_pattern c; (bs "/", ToRoot)];
  Ok (web, mux).

Section Serve.
Context `{!StaticFS} {D A M J : Type} `{!RpcService D A M} `{!RpcJSON J} (TorrentAdd : TorrentAddRequest -> D -> res (A + rpc_error) * D).
Abbreviation Server := (RpcServer.Server (D := D)).

(** What becomes of a request: an answer of the RPC server, of the web handler
    or of the multiplexer itself, or the upgrade to a websocket. *)
Inductive mux_reply :=
  | RpcReply (r : served (option (Response (A := A) (J := J))))
  | WebReply (r : served web_body)
  | Upgrade (admitted : bool)
  | Elsewhere (location : bytes)
  | Missing.

Definition with_path (p : bytes) (r : HttpRequest) : HttpRequest := MkHttpRequest (hq_Method r) p (hq_Header r) (hq_ContentLength r) (hq_Body r).

(** [http.StripPrefix], then the web handler. *)
Definition serve_web (web : WebHandlerConfig) (strip : bytes) (r : HttpRequest) (form : option upload_form) (s : Server) : mux_reply * Server :=
  if bool_decide (strip = []) || GoLib.HasPrefix (hq_Path r) strip then
    let '(reply, s', _) := WebHandler.ServeHTTP TorrentAdd web (with_path (drop (length strip) (hq_Path r)) r) form (Some s) in
    (WebReply reply, default s s')
  else (Missing, s).

(** The handlers share the RPC server. *)
Definition mux_ServeHTTP (web : WebHandlerConfig) (ws : WebSocket.WebSocketConfig) (prefix : bytes) (mux : ServeMux) (mo : M) (late : bool) (r : HttpRequest)
    (form : option upload_form) (s : Server) : mux_reply * Server :=
  match findHandler (hq_Path r) mux with
  | Redirected l => (Elsewhere l, s)
  | NotFound => (Missing, s)
  | Dispatched ToRpc => let '(reply, s') := RpcServer.ServeHTTP mo late r s in (RpcReply reply, s')
  | Dispatched ToWs => (Upgrade (WebSocket.admits ws r s), s)
  | Dispatched (ToWeb strip) => serve_web web strip r form s
  | Dispatched ToRoot => (if decide (hq_Path r = bs "/") then Elsewhere prefix else Missing, s)
  end.
End Serve.

End Mux.

(** * The multiplexers: what reaches which component *)

Module MuxFacts.
Import Mux.

Definition reserved : list bytes := [bs "/transmission/rpc"; bs "/ws"; bs "/upload"; bs "/"].
Definition routes (p : bytes) : ServeMux :=
  [(bs "/transmission/rpc", ToRpc); (bs "/ws", ToWs); (bs "/upload", ToWeb []); (p, ToWeb (TrimSuffix p (bs "/"))); (bs "/", ToRoot)].

(** ** Creation *)
Lemma handle_fresh pattern t (mux : ServeMux) : plain_pattern pattern = true -> pattern ∉ map fst mux -> Handle pattern t mux = Ok (mux ++ [(pattern, t)]).
Proof.
  intros Hp Hn. unfold Handle. rewrite decide_False by (intros ->; discriminate Hp). rewrite Hp. cbn [negb]. by rewrite decide_False.
Qed.
Lemma handle_twice pattern t (mux : ServeMux) : plain_pattern pattern = true -> pattern ∈ map fst mux -> Handle pattern t mux = Panic "http: multiple registrations".
Proof.
  intros Hp Hn. unfold Handle. rewrite decide_False by (intros ->; discriminate Hp). rewrite Hp. cbn [negb]. by rewrite decide_True.
Qed.
Lemma register_step (mux : ServeMux) pattern t l :
  plain_pattern pattern = true -> pattern ∉ map fst mux ->
  foldl (fun m pt => m0 ← m; Handle pt.1 pt.2 m0) (Ok mux) ((pattern, t) :: l) = foldl (fun m pt => m0 ← m; Handle pt.1 pt.2 m0) (Ok (mux ++ [(pattern, t)])) l.
Proof. intros Hp Hn. cbn [foldl]. cbn. by rewrite handle_fresh. Qed.

(** for a prefix of plain characters the multiplexer is built with the
    handlers at their paths, unless the prefix is one of those paths: then the
    constructor panics, for the documented prefix "/" too. *)
Theorem mux_created c :
  wc_StaticDir c <> [] -> plain_pattern (wc_URLPrefix c) = true ->
  CreateMuxWithWebSocketSupport c =
  if decide (wc_URLPrefix c ∈ reserved) then Panic "http: multiple registrations"
  else Ok (setConfigDefaults (normalizeURLPrefix c), routes (wc_URLPrefix c)).
Proof.
  intros Hd Hp. unfold CreateMuxWithWebSocketSupport, validateWebHandlerConfig. rewrite decide_False by done. cbn [mbind res_bind].
  unfold register_all, web_pattern. set (p := wc_URLPrefix c) in *.
  do 3 (rewrite register_step; [|reflexivity|by apply (bool_decide_unpack _)]). cbn [app].
  destruct (decide (p ∈ reserved)) as [Hr|Hr].
  - destruct (decide (p = bs "/")) as [->|Hn].
    + rewrite register_step; [|done|by apply (bool_decide_unpack _)]. cbn. done.
    + cbn [foldl]. cbn [mbind res_bind fst snd]. rewrite handle_twice; [done|done|].
      unfold reserved in Hr. cbn. set_solver.
  - rewrite register_step; [|done|unfold reserved in Hr; cbn; set_solver]. rewrite register_step; [done|done|unfold reserved in Hr; cbn; set_solver].
Qed.

(** The prefix left empty, which the web handler replaces by "/web/", makes the
    constructors panic: they register the prefix as it was given. *)
Theorem mux_empty_prefix c :
  wc_StaticDir c <> [] -> wc_URLPrefix c = [] ->
  CreateMuxWithWebHandler c = Panic "http: invalid pattern" /\ CreateMuxWithWebSocketSupport c = Panic "http: invalid pattern".
Proof.
  intros Hd Hp. unfold CreateMuxWithWebHandler, CreateMuxWithWebSocketSupport, validateWebHandlerConfig, web_pattern. rewrite Hp, decide_False by done. done.
Qed.
(** ** Dispatch *)
Lemma has_prefix_take path p : GoLib.HasPrefix path p = true <-> take (length p) path = p.
Proof. unfold GoLib.HasPrefix. by rewrite bool_decide_eq_true. Qed.
Lemma has_prefix_length path p : GoLib.HasPrefix path p = true -> (length p <= length path)%nat.
Proof. intros H%has_prefix_take. rewrite <- H, length_take. lia. Qed.
Lemma prefix_itself p : GoLib.HasPrefix p p = true.
Proof. apply has_prefix_take, firstn_all. Qed.
Lemma suffix_slash p : HasSuffix p (bs "/") = true <-> exists q, p = q ++ bs "/".
Proof. unfold HasSuffix. rewrite bool_decide_eq_true. done. Qed.

Lemma match_length path (mux : ServeMux) q t : match_path path mux = Some (q, t) -> (length q <= length path)%nat.
Proof.
  induction mux as [|[p u] mux IH]; cbn; [done|]. unfold pattern_matches.
  destruct (bool_decide (p = path)) eqn:E; [apply bool_decide_eq_true in E as ->|destruct (HasSuffix p (bs "/") && GoLib.HasPrefix path p) eqn:F]; cbn [orb].
  - destruct (match_path path mux) as [[q' u']|]; [case_decide|]; intros Hq; simplify_eq; first [lia|by apply IH].
  - apply andb_true_iff in F as [_ F]. apply has_prefix_length in F. clear E. destruct (match_path path mux) as [[q' u']|]; [case_decide|]; intros Hq; simplify_eq; first [lia|by apply IH].
  - done.
Qed.
(** The path of a pattern goes to it, whatever else matches. *)
Lemma match_exact path t (mux : ServeMux) : match_path path ((path, t) :: mux) = Some (path, t).
Proof.
  cbn. unfold pattern_matches. rewrite bool_decide_true by done. cbn. destruct (match_path path mux) as [[q u]|] eqn:E; [|done].
  apply match_length in E. by rewrite decide_False by lia.
Qed.
Lemma match_other p path t (mux : ServeMux) : HasSuffix p (bs "/") = false -> path <> p -> match_path path ((p, t) :: mux) = match_path path mux.
Proof. intros Hs Hn. cbn. unfold pattern_matches. rewrite bool_decide_false, Hs by congruence. done. Qed.

Lemma match_routes p path :
  HasSuffix p (bs "/") = true -> GoLib.HasPrefix path (bs "/") = true ->
  match_path path (routes p) =
  if decide (path = bs "/transmission/rpc") then Some (path, ToRpc)
  else if decide (path = bs "/ws") then Some (path, ToWs)
  else if decide (path = bs "/upload") then Some (path, ToWeb [])
  else if GoLib.HasPrefix path p then Some (p, ToWeb (TrimSuffix p (bs "/")))
  else Some (bs "/", ToRoot).
Proof.
  intros Hs Hr. unfold routes. case_decide as E1; [subst; by rewrite match_exact|]. rewrite match_other by done.
  case_decide as E2; [subst; by rewrite match_exact|]. rewrite match_other by done. case_decide as E3; [subst; by rewrite match_exact|]. rewrite match_other by done.
  assert (Hroot : match_path path [(bs "/", ToRoot)] = Some (bs "/", ToRoot)).
  { cbn -[bs]. unfold pattern_matches. rewrite Hr. rewrite andb_true_r. by rewrite orb_true_r. }
  cbn [match_path] in *. rewrite Hroot. unfold pattern_matches. rewrite Hs. cbn [andb]. destruct (GoLib.HasPrefix path p) eqn:Ep.
  - rewrite orb_true_r. apply suffix_slash in Hs as [q ->]. rewrite decide_False by (rewrite length_app; cbn; lia). done.
  - rewrite bool_decide_false by (intros ->; by rewrite prefix_itself in Ep). done.
Qed.

Lemma dispatched p path :
  HasSuffix p (bs "/") = true -> GoLib.HasPrefix path (bs "/") = true -> cleanPath path = path ->
  findHandler path (routes p) =
  if decide (path = bs "/transmission/rpc") then Dispatched ToRpc
  else if decide (path = bs "/ws") then Dispatched ToWs
  else if decide (path = bs "/upload") then Dispatched (ToWeb [])
  else if GoLib.HasPrefix path p then Dispatched (ToWeb (TrimSuffix p (bs "/")))
  else if decide (path ++ bs "/" = p /\ HasSuffix path (bs "/") = false) then Redirected p
  else Dispatched ToRoot.
Proof.
  intros Hs Hr Hc. unfold findHandler. rewrite Hc, match_routes by done. rewrite (decide_False (P := path <> path)) by tauto.
  destruct (decide (path = bs "/transmission/rpc")) as [->|E1]; [by rewrite bool_decide_true|].
  destruct (decide (path = bs "/ws")) as [->|E2]; [by rewrite bool_decide_true|].
  destruct (decide (path = bs "/upload")) as [->|E3]; [by rewrite bool_decide_true|].
  assert (Hin : (path ++ bs "/" ∈ map fst (routes p)) <-> path ++ bs "/" = p).
  { unfold routes. cbn [map fst]. rewrite !elem_of_cons, elem_of_nil. split; [|tauto].
    assert (Hl : forall l, HasSuffix l (bs "/") = false -> path ++ bs "/" <> l) by (intros l Hl E; rewrite <- E in Hl; rewrite (proj2 (suffix_slash _)) in Hl by eauto; done).
    intros [E|[E|[E|[E|[E|[]]]]]]; [by apply Hl in E..|done|].
    apply has_prefix_length in Hr. apply (f_equal length) in E. rewrite length_app in E. cbn in *. lia. }
  destruct (GoLib.HasPrefix path p) eqn:Ep.
  - rewrite (bool_decide_false (path ++ bs "/" ∈ _)); [by rewrite andb_false_r|]. rewrite Hin. apply has_prefix_length in Ep. intros E.
    apply (f_equal length) in E. rewrite length_app in E. cbn in E. lia.
  - destruct (decide (path ++ bs "/" = p /\ HasSuffix path (bs "/") = false)) as [[E F]|Hn].
    + rewrite (bool_decide_false (bs "/" = path)), F, (bool_decide_true (path ++ bs "/" ∈ _)) by (by rewrite ?Hin || (intros <-; discriminate F)). by rewrite E.
    + destruct (HasSuffix path (bs "/")) eqn:F; [by rewrite andb_false_r|].
      rewrite (bool_decide_false (path ++ bs "/" ∈ _)); [by rewrite andb_false_r|]. rewrite Hin. tauto.
Qed.

(** a request with a clean path goes to exactly one component: the RPC
    server, the websockets and uploads at their own paths, the web handler
    below its prefix (the prefix without its slash is redirected there), and
    the rest to the root; the order of registration does not matter. *)
Theorem mux_routes p path :
  HasSuffix p (bs "/") = true -> GoLib.HasPrefix path (bs "/") = true -> cleanPath path = path ->
  findHandler path (routes p) =
  if decide (path = bs "/transmission/rpc") then Dispatched ToRpc
  else if decide (path = bs "/ws") then Dispatched ToWs
  else if decide (path = bs "/upload") then Dispatched (ToWeb [])
  else if GoLib.HasPrefix path p then Dispatched (ToWeb (TrimSuffix p (bs "/")))
  else if decide (path ++ bs "/" = p /\ HasSuffix path (bs "/") = false) then Redirected p
  else Dispatched ToRoot.
Proof. apply dispatched. Qed.
(** ** What can change the daemon *)
Section Guards.
Context `{!StaticFS} {D A M J : Type} `{!RpcService D A M} `{!RpcJSON J} (TorrentAdd : TorrentAddRequest -> D -> res (A + rpc_error) * D).
Abbreviation Server := (RpcServer.Server (D := D)).

Lemma upload_guarded c r form (s : Server) :
  (handleFileUpload TorrentAdd c r form (Some s)).2 = Some s \/
  (wc_RequireAuth c = true -> checkAuth r s = true) /\ exists s', (handleFileUpload TorrentAdd c r form (Some s)).2 = Some s'.
Proof.
  unfold handleFileUpload, validateAuthentication. destruct (wc_RequireAuth c && negb (checkAuth r s)) eqn:Ea; [by left|].
  right. split; [intros Hr; rewrite Hr in Ea; by destruct (checkAuth r s)|]. cbv zeta.
  destruct (extractUploadedFile form _) as [[[[data name] size_] f]|]; [|by eexists]. destruct (validateTorrentFile _ _ _ _); [by eexists|].
  unfold processTorrentUpload. destruct (TorrentAdd _ _). by eexists.
Qed.
Lemma web_guarded c r form (s : Server) :
  let s' := default s (ServeHTTP TorrentAdd c r form (Some s)).1.2 in
  s' = s \/ hq_Method r = bs "POST" /\ hq_Path r = bs "/upload" /\ (wc_RequireAuth c = true -> checkAuth r s = true).
Proof.
  cbv zeta. unfold ServeHTTP. destruct (decide (hq_Method r = bs "POST" /\ hq_Path r = bs "/upload")) as [[Hm Hp]|Hn].
  - destruct (upload_guarded c r form s) as [E|[Ha _]]; [left|by right]. cbn. by rewrite E.
  - left. destruct (decide _); [done|]. destruct (validateAuthentication c r (Some s)); [done|]. destruct (_ || _); [done|].
    destruct (serve_file _ _) as [[status body] names]. done.
Qed.

Lemma strip_prefix strip path : bool_decide (strip = []) || GoLib.HasPrefix path strip = true -> path = strip ++ drop (length strip) path.
Proof.
  intros [E|E]%orb_true_iff; [apply bool_decide_eq_true in E; by subst|]. apply has_prefix_take in E.
  transitivity (take (length strip) path ++ drop (length strip) path); [by rewrite take_drop|by rewrite E].
Qed.
Lemma served_web c web strip r form (s : Server) :
  strip = [] \/ strip = TrimSuffix (wc_URLPrefix c) (bs "/") ->
  let s' := (serve_web (A := A) (J := J) TorrentAdd web strip r form s).2 in
  s' = s \/ hq_Method r = bs "POST" /\
    (hq_Path r = bs "/transmission/rpc" /\ is_Some (RpcServerFacts.admitted r s) \/
     (hq_Path r = bs "/upload" \/ hq_Path r = TrimSuffix (wc_URLPrefix c) (bs "/") ++ bs "/upload") /\ (wc_RequireAuth web = true -> checkAuth r s = true)).
Proof.
  intros Hstrip. cbv zeta. unfold serve_web. destruct (_ || _) eqn:Ep; [|by left].
  pose proof (web_guarded web (with_path (drop (length strip) (hq_Path r)) r) form s) as Hg. cbv zeta in Hg.
  destruct (ServeHTTP _ _ _ _ _) as [[reply s'] names]. cbn in *. destruct Hg as [Hg|(Hm & Hp & Ha)]; [by left|]. right. split; [done|]. right. split; [|done].
  destruct Hstrip as [E|E]; subst strip; [by left|]. right. rewrite <- Hp.
  by apply strip_prefix.
Qed.

(** C24: behind the multiplexer the daemon changes only by a POST request: one
    to the RPC path that the server admits, with its credentials and token, or
    an upload at "/upload" or below the prefix of the web interface, which
    needs the credentials only if the web interface is configured so. *)
Theorem mux_guards c web ws (mo : M) late r form (s : Server) :
  CanonicalHeaderKey (cf_SessionTokenHeader (sv_config s)) <> bs "Content-Type" ->
  HasSuffix (wc_URLPrefix c) (bs "/") = true -> GoLib.HasPrefix (hq_Path r) (bs "/") = true ->
  let s' := (mux_ServeHTTP TorrentAdd web ws (wc_URLPrefix c) (routes (wc_URLPrefix c)) mo late r form s).2 in
  s' = s \/
  hq_Method r = bs "POST" /\
  (hq_Path r = bs "/transmission/rpc" /\ is_Some (RpcServerFacts.admitted r s) \/
   (hq_Path r = bs "/upload" \/ hq_Path r = TrimSuffix (wc_URLPrefix c) (bs "/") ++ bs "/upload") /\ (wc_RequireAuth web = true -> checkAuth r s = true)).
Proof.
  intros Hk Hs Hr. cbv zeta. unfold mux_ServeHTTP. destruct (decide (cleanPath (hq_Path r) = hq_Path r)) as [Hc|Hc].
  - rewrite dispatched by done. destruct (decide (hq_Path r = bs "/transmission/rpc")) as [E1|E1].
    + destruct (RpcServer.ServeHTTP mo late r s) as [reply s'] eqn:Es. cbn. pose proof (RpcServerFacts.request_served mo late r s Hk) as Hserved.
      destruct (RpcServerFacts.admitted r s) as [req|] eqn:Ea; [|left; destruct Hserved as (resp & E & _); congruence].
      right. split; [|left; by eauto]. unfold RpcServerFacts.admitted in Ea. cbv zeta in Ea. destruct (decide _) as [(Hm & _)|]; [done|discriminate Ea].
    + destruct (decide _); [by left|]. destruct (decide _) as [E3|E3]; [|destruct (GoLib.HasPrefix (hq_Path r) (wc_URLPrefix c)) eqn:Ep].
      * apply served_web. by left.
      * apply served_web. by right.
      * destruct (decide _); by left.
  - left. unfold findHandler. destruct (_ && _); [done|]. by rewrite decide_True.
Qed.
End Guards.
(** ** Examples *)
#[local] Instance demo_mux_fs : StaticFS := fun _ => ONotExist.
#[local] Instance demo_mux_service : RpcService (list TorrentAddRequest) () () := fun _ => None.
#[local] Instance demo_mux_json : RpcJSON () := {| json_Request := fun _ => None; json_Params := fun _ => None |}.
Definition demo_config : WebHandlerConfig := defaultWebConfig (bs "static") false.
Definition locked_server : RpcServer.Server (D := list TorrentAddRequest) :=
  MkServer (applyServerConfigDefaults (MkServerConfig (bs "user") (bs "secret") [] [] false 0 0 0)) [] (bs "session-1") 0.
Definition demo_upload : HttpRequest := MkHttpRequest (bs "POST") (bs "/web/upload") ∅ 0 ([], false).
Definition demo_served := mux_ServeHTTP (J := ()) WebFacts.demo_add demo_config WebSocket.NewDefaultWebSocketHandler (bs "/web/") (routes (bs "/web/")) () false
  demo_upload (Some WebFacts.demo_form) locked_server.

(** With the default web interface an upload without any credentials adds a
    torrent to a daemon whose RPC server has a password. *)
Theorem upload_needs_no_password :
  checkAuth demo_upload locked_server = false /\ length (sv_daemon demo_served.2) = 1%nat.
Proof. vm_compute. done. Qed.

Lemma mux_created_witness : CreateMuxWithWebSocketSupport demo_config = Ok (demo_config, routes (bs "/web/")) /\
  CreateMuxWithWebSocketSupport (MkWebConfig (bs "static") (bs "/") [] 0 false false) = Panic "http: multiple registrations".
Proof.
  split.
  - rewrite (mux_created demo_config); [reflexivity|discriminate|reflexivity].
  - rewrite (mux_created (MkWebConfig (bs "static") (bs "/") [] 0 false false)); [reflexivity|discriminate|reflexivity].
Defined.
Lemma mux_routes_witness : findHandler (bs "/web/app.js") (routes (bs "/web/")) = Dispatched (ToWeb (bs "/web")) /\
  findHandler (bs "/web") (routes (bs "/web/")) = Redirected (bs "/web/").
Proof. split; (rewrite mux_routes; [reflexivity..]). Defined.
Lemma mux_guards_witness : demo_served.2 <> locked_server /\ hq_Path demo_upload = bs "/web/upload".
Proof.
  destruct (mux_guards (A := ()) (J := ()) WebFacts.demo_add demo_config demo_config WebSocket.NewDefaultWebSocketHandler () false demo_upload
    (Some WebFacts.demo_form) locked_server) as [E|(_ & [[E _]|[[E|E] _]])].
  - vm_compute. discriminate.
  - reflexivity.
  - reflexivity.
  - exfalso. apply (f_equal (fun s => length (sv_daemon s))) in E. vm_compute in E. discriminate E.
  - vm_compute in E. discriminate E.
  - vm_compute in E. discriminate E.
  - split; [|exact E]. intros F. apply (f_equal (fun s => length (sv_daemon s))) in F. vm_compute in F. discriminate F.
Defined.
End MuxFacts.
