(* ===== verification/WebSeedClient.v ===== *)
(** * Downloading from web seeds

    Models [src/webseed/client.go] and [src/webseed/handler.go]: range requests
    with retries, and pieces fetched from the first URL that has them.

    The web servers and the network are the parameter [web]: what the n-th
    request of the program gets. The completion callback is [complete]. The
    pauses between the attempts are recorded, in nanoseconds. *)

From S2P Require Import Prelude Strconv Sha1 Hash Metainfo MetainfoFacts GoLib Url Bandwidth WebSeed.
Import Strconv Hash Metainfo.

Module WebSeedClient.

Record WebSeedConfig := MkSeedConfig { wsc_Timeout : Z; wsc_MaxRetries : Z }.
Definition NewWebSeedClient (cfg : option WebSeedConfig) : WebSeedConfig :=
  let c := default (MkSeedConfig 0 0) cfg in
  MkSeedConfig (if decide (wsc_Timeout c = 0) then 30 * Bandwidth.Second else wsc_Timeout c) (if decide (wsc_MaxRetries c = 0) then 3 else wsc_MaxRetries c).

(** The request cannot be made or sent; or a response, its body and whether
    reading it fails at the end. *)
Inductive http_result := HFailed | HResponse (status : Z) (body : bytes) (cut : bool).
Inductive seed_error := HTTPError (code : Z) | OtherError (msg : string).

(** The requests sent so far, the pauses, and the pieces handed to the
    callback. *)
Record world := MkWorld { w_requests : nat; w_slept : list Z; w_completed : list (Z * bytes) }.

Section Client.
Context (web : nat -> bytes -> bytes -> http_result) (complete : option (Z -> bytes -> option string)).

Definition range_header (offset length_ : Z) : bytes :=
  bs "bytes=" ++ FormatInt offset ++ bs "-" ++ FormatInt (i64 (offset + length_ - 1)).
Definition tryDownloadRange (url : bytes) (offset length_ : Z) (w : world) : (bytes + seed_error) * world :=
  (match web (w_requests w) url (range_header offset length_) with
   | HFailed => inr (OtherError "http request")
   | HResponse status body cut =>
       if decide (status <> 200 /\ status <> 206) then inr (HTTPError status)
       else if cut : bool then inr (OtherError "read response")
       else if decide (len body <> length_) then inr (OtherError "length mismatch")
       else inl body
   end, MkWorld (S (w_requests w)) (w_slept w) (w_completed w)).

Definition client_error (e : seed_error) : bool := match e with HTTPError code => bool_decide (400 <= code < 500) | OtherError _ => false end.
Definition backoff (attempt : Z) : Z := i64 (i64 (Z.shiftl 1 attempt) * Bandwidth.Second).

(** [n]: the attempts left, of which [attempt] is the next. *)
Fixpoint attempts (n : nat) (attempt retries : Z) (url : bytes) (offset length_ : Z) (w : world) : (bytes + seed_error) * world :=
  match n with
  | O => (inr (OtherError "download failed"), w)
  | S n' =>
      match tryDownloadRange url offset length_ w with
      | (inl data, w) => (inl data, w)
      | (inr e, w) =>
          if client_error e then (inr e, w)
          else
            let w := if decide (attempt < retries) then MkWorld (w_requests w) (w_slept w ++ [backoff attempt]) (w_completed w) else w in
            attempts n' (attempt + 1) retries url offset length_ w
      end
  end.
Definition DownloadRange (retries : Z) (url : bytes) (offset length_ : Z) (w : world) : (bytes + seed_error) * world :=
  attempts (Z.to_nat (retries + 1)) 0 retries url offset length_ w.
Definition DownloadBlock : Z -> bytes -> Z -> Z -> world -> (bytes + seed_error) * world := DownloadRange.

Definition client_DownloadPiece (retries : Z) (url : bytes) (info : Info) (index : Z) (w : world) : res (bytes + seed_error) * world :=
  match Info_Piece info index with
  | Ok piece => let '(r, w) := DownloadRange retries url (Piece_Offset piece) (Piece_Length piece) w in (Ok r, w)
  | Err e => (Err e, w) | Panic p => (Panic p, w) | NoFuel => (NoFuel, w)
  end.

(** ** The handler *)
Definition Piece_Hash (p : Piece) : res bytes :=
  if decide (p_index p < 0) then Panic "index out of range"
  else match i_Pieces (p_info p) !! Z.to_nat (p_index p) with Some h => Ok h | None => Panic "index out of range" end.
Definition verifyPiece (info : Info) (index : Z) (data : bytes) : res bool :=
  piece ← Info_Piece info index; expectedHash ← Piece_Hash piece; actualHash ← NewHash (Sha1.Sum data); Ok (bool_decide (expectedHash = actualHash)).
Definition getFileName (info : Info) : bytes := if IsDir info then [] else i_Name info.

Fixpoint DownloadPiece (urls : list bytes) (retries : Z) (info : Info) (index : Z) (w : world) : res (option string) * world :=
  match urls with
  | [] => (Ok (Some "failed to download piece from all URLs"), w)
  | u :: urls' =>
      match client_DownloadPiece retries (WebSeed.FullURL u (getFileName info)) info index w with
      | (Ok (inr _), w) => DownloadPiece urls' retries info index w
      | (Ok (inl data), w) =>
          match verifyPiece info index data with
          | Ok false => DownloadPiece urls' retries info index w
          | Ok true =>
              match complete with
              | Some callback =>
                  let w := MkWorld (w_requests w) (w_slept w) (w_completed w ++ [(index, data)]) in
                  (Ok (match callback index data with Some e => Some ("onComplete callback: " ++ e)%string | None => None end), w)
              | None => (Ok None, w)
              end
          | Err e => (Err e, w) | Panic p => (Panic p, w) | NoFuel => (NoFuel, w)
          end
      | (Err e, w) => (Err e, w) | (Panic p, w) => (Panic p, w) | (NoFuel, w) => (NoFuel, w)
      end
  end%string.
End Client.
End WebSeedClient.

(** * Web seeds: which pieces are taken *)

Module WebSeedClientFacts.
Import WebSeedClient.

Section Facts.
Context (web : nat -> bytes -> bytes -> http_result) (complete : option (Z -> bytes -> option string)).

(** Between two states the web answered a request for the range with the
    data. *)
Definition answered (url range data : bytes) (w w' : world) : Prop :=
  exists n status, (w_requests w <= n < w_requests w')%nat /\ (status = 200 \/ status = 206) /\ web n url range = HResponse status data false.

Lemma attempts_spec n attempt retries url offset length_ w :
  let '(r, w') := attempts web n attempt retries url offset length_ w in
  w_completed w' = w_completed w /\ (w_requests w <= w_requests w' <= w_requests w + n)%nat /\
  (forall data, r = inl data -> answered url (range_header offset length_) data w w' /\ len data = length_).
Proof.
  revert attempt w. induction n as [|n IH]; intros attempt w; cbn [attempts]; [split; [done|]; split; [lia|done]|]. unfold tryDownloadRange at 1.
  set (range := range_header offset length_). set (w1 := MkWorld (S (w_requests w)) (w_slept w) (w_completed w)).
  assert (Hgo : forall e, let '(r, w') := (if client_error e then (inr e, w1)
      else attempts web n (attempt + 1) retries url offset length_
        (if decide (attempt < retries) then MkWorld (w_requests w1) (w_slept w1 ++ [backoff attempt]) (w_completed w1) else w1)) in
    w_completed w' = w_completed w /\ (w_requests w <= w_requests w' <= w_requests w + S n)%nat /\
    (forall data, r = inl data -> answered url range data w w' /\ len data = length_)).
  { intros e. destruct (client_error e); [split; [done|]; split; [cbn; lia|done]|].
    match goal with |- context [attempts web n (attempt + 1) retries url offset length_ ?w2] => specialize (IH (attempt + 1) w2); set (w2' := w2) in * end.
    assert (Hw : w_requests w2' = S (w_requests w) /\ w_completed w2' = w_completed w) by (unfold w2'; by case_decide).
    destruct (attempts web n (attempt + 1) retries url offset length_ w2') as [r w']. destruct IH as (I1 & I2 & I3), Hw as [Hw1 Hw2].
    split; [congruence|]. split; [lia|]. intros data Hd. destruct (I3 data Hd) as [(k & status & Hk & Hs) Hl].
    split; [|done]. exists k, status. split; [lia|done]. }
  destruct (web (w_requests w) url range) as [|status body cut] eqn:Ew; [apply Hgo|].
  destruct (decide (status <> 200 /\ status <> 206)) as [Hst|Hst]; [apply Hgo|]. destruct cut; [apply Hgo|].
  destruct (decide (len body <> length_)) as [Hl|Hl]; [apply Hgo|].
  split; [done|]. split; [cbn; lia|]. intros data [= <-]. split; [|by destruct (decide (len body = length_))].
  exists (w_requests w), status. split; [cbn; lia|]. split; [lia|done].
Qed.

(** A web seed that always answers with the range is read at once. *)
Lemma attempts_answered n attempt retries url offset length_ data w :
  (forall k, web k url (range_header offset length_) = HResponse 206 data false) -> len data = length_ ->
  attempts web (S n) attempt retries url offset length_ w = (inl data, MkWorld (S (w_requests w)) (w_slept w) (w_completed w)).
Proof. intros Hw Hl. cbn [attempts]. unfold tryDownloadRange. rewrite Hw. subst length_. rewrite (decide_False (P := 206 <> 200 /\ _)) by lia. by rewrite decide_False by tauto. Qed.

(** ** Pieces *)
Context (info : Info) (index : Z) (Hindex : 0 <= index < len (i_Pieces info)).
Abbreviation piece := (MkPiece info index).

Definition right_piece (data : bytes) : Prop := i_Pieces info !! Z.to_nat index = Some (Sha1.Sum data) /\ len data = Piece_Length piece.
Abbreviation url_of u := (WebSeed.FullURL u (getFileName info)).
Abbreviation range := (range_header (Piece_Offset piece) (Piece_Length piece)).

Lemma verify_spec data : exists b, verifyPiece info index data = Ok b /\ (b = true <-> i_Pieces info !! Z.to_nat index = Some (Sha1.Sum data)).
Proof.
  unfold verifyPiece, Info_Piece. rewrite decide_False by lia. cbn [mbind res_bind]. unfold Piece_Hash. cbn [p_index p_info]. rewrite decide_False by lia.
  destruct (lookup_lt_is_Some_2 (i_Pieces info) (Z.to_nat index)) as [h Hh]; [unfold len in Hindex; lia|]. rewrite Hh. cbn [mbind res_bind].
  unfold NewHash. rewrite decide_False by (unfold len, HashSize; rewrite Sha1.length_Sum; lia). cbn [mbind res_bind].
  eexists. split; [done|]. rewrite bool_decide_eq_true. rewrite (firstn_all2 (Sha1.Sum data)) by (rewrite Sha1.length_Sum; lia).
  split; congruence.
Qed.

Definition outcome (urls : list bytes) (retries : Z) (w : world) (r : option string) (w' : world) : Prop :=
  (w_requests w <= w_requests w' <= w_requests w + length urls * Z.to_nat (retries + 1))%nat /\
  match r with
  | None => exists u data, u ∈ urls /\ right_piece data /\ answered (url_of u) range data w w' /\
      w_completed w' = w_completed w ++ (if complete is Some _ then [(index, data)] else [])
  | Some _ => w_completed w' = w_completed w \/
      exists u data callback e, u ∈ urls /\ right_piece data /\ complete = Some callback /\ callback index data = Some e /\
        w_completed w' = w_completed w ++ [(index, data)]
  end.

Lemma answered_later url rg data w0 w1 w2 : (w_requests w0 <= w_requests w1)%nat -> answered url rg data w1 w2 -> answered url rg data w0 w2.
Proof. intros Hle (n & status & Hn & H). exists n, status. split; [lia|done]. Qed.
Lemma answered_longer url rg data w0 w1 w2 : (w_requests w1 <= w_requests w2)%nat -> answered url rg data w0 w1 -> answered url rg data w0 w2.
Proof. intros Hle (n & status & Hn & H). exists n, status. split; [lia|done]. Qed.

Lemma outcome_next u urls retries w w1 r w' :
  w_completed w1 = w_completed w -> (w_requests w <= w_requests w1 <= w_requests w + Z.to_nat (retries + 1))%nat ->
  outcome urls retries w1 r w' -> outcome (u :: urls) retries w r w'.
Proof.
  intros Hc Hr [Hn Ho]. split; [cbn; lia|]. rewrite Hc in Ho. destruct r as [e|].
  - destruct Ho as [Ho|(u' & data & callback & e' & Hu & H)]; [by left|]. right. exists u', data, callback, e'. split; [by apply list_elem_of_further|done].
  - destruct Ho as (u' & data & Hu & Hp & Ha & H). exists u', data. split; [by apply list_elem_of_further|]. split; [done|]. split; [|done].
    apply (answered_later _ _ _ _ w1); [lia|done].
Qed.

Lemma download_spec urls retries w : exists r w', DownloadPiece web complete urls retries info index w = (Ok r, w') /\ outcome urls retries w r w'.
Proof.
  revert w. induction urls as [|u urls IH]; intros w; cbn [DownloadPiece].
  { eexists _, _. split; [done|]. split; [cbn; lia|]. by left. }
  unfold client_DownloadPiece, Info_Piece. rewrite decide_False by lia. unfold DownloadRange.
  pose proof (attempts_spec (Z.to_nat (retries + 1)) 0 retries (url_of u) (Piece_Offset piece) (Piece_Length piece) w) as Ha.
  destruct (attempts web _ 0 retries (url_of u) (Piece_Offset piece) (Piece_Length piece) w) as [[data|e] w1]; destruct Ha as (Hc & Hr & Hd).
  - destruct (verify_spec data) as (b & -> & Hb). destruct b.
    + destruct (Hd data eq_refl) as [Hans Hl]. assert (Hp : right_piece data) by (split; [by apply Hb|done]).
      destruct complete as [callback|] eqn:Ecomplete; [destruct (callback index data) as [e|] eqn:Ecall|]; (eexists _, _; split; [done|]); (split; [cbn; lia|]).
      * right. exists u, data, callback, e. split; [apply list_elem_of_here|]. cbn. rewrite Hc. done.
      * exists u, data. split; [apply list_elem_of_here|]. split; [done|]. split; [|cbn; by rewrite Hc, Ecomplete]. by apply (answered_longer _ _ _ _ w1).
      * exists u, data. split; [apply list_elem_of_here|]. split; [done|]. split; [done|]. by rewrite Ecomplete, app_nil_r.
    + destruct (IH w1) as (r & w' & E & Ho). exists r, w'. split; [done|]. by apply (outcome_next u urls retries w w1).
  - destruct (IH w1) as (r & w' & E & Ho). exists r, w'. split; [done|]. by apply (outcome_next u urls retries w w1).
Qed.
(** C28: downloading a piece of the torrent returns after at most one request
    and the retries for each URL. It succeeds only with data that one of the
    URLs answered for exactly the range of the piece, of its length and with its
    hash, handed to the callback once; if it fails, the callback has got nothing,
    or the right piece and refused it. *)
Theorem webseed_download urls retries w : exists r w', DownloadPiece web complete urls retries info index w = (Ok r, w') /\ outcome urls retries w r w'.
Proof. apply download_spec. Qed.

(** A single web seed with the piece is enough, whatever the others answer. *)
Theorem webseed_finds urls retries w u data :
  u ∈ urls -> 0 <= retries -> right_piece data -> (forall n, web n (url_of u) range = HResponse 206 data false) ->
  (forall callback d, complete = Some callback -> callback index d = None) ->
  exists w', DownloadPiece web complete urls retries info index w = (Ok None, w').
Proof.
  intros Hu Hr [Hh Hl] Hweb Hcall. revert w. induction urls as [|v urls IH]; intros w; [by apply elem_of_nil in Hu|]. cbn [DownloadPiece].
  assert (Hok : forall d w1, exists w', match complete with
    | Some callback => (Ok (match callback index d with Some e => Some ("onComplete callback: " ++ e)%string | None => None end),
        MkWorld (w_requests w1) (w_slept w1) (w_completed w1 ++ [(index, d)]))
    | None => (Ok None, w1) end = (Ok None, w')).
  { intros d w1. destruct complete as [callback|]; [|by eexists]. rewrite (Hcall callback d) by done. by eexists. }
  unfold client_DownloadPiece, Info_Piece. rewrite decide_False by lia. unfold DownloadRange.
  destruct (decide (u = v)) as [<-|Hn].
  - replace (Z.to_nat (retries + 1)) with (S (Z.to_nat retries)) by lia. rewrite (attempts_answered _ _ _ _ _ _ data) by done.
    destruct (verify_spec data) as (b & -> & Hb). rewrite (proj2 Hb) by done. apply Hok.
  - assert (Hu' : u ∈ urls) by (apply elem_of_cons in Hu as [?|?]; done).
    destruct (attempts web _ 0 retries (url_of v) (Piece_Offset piece) (Piece_Length piece) w) as [[d|e] w1]; [|by apply IH].
    destruct (verify_spec d) as ([] & -> & _); [apply Hok|by apply IH].
Qed.
End Facts.

(** A server that answers every request with the whole file is never read,
    unless the file is the range: the length check refuses the full content that
    the status 200 stands for, and the file is fetched again for every retry. *)
Theorem full_content_refused (web : nat -> bytes -> bytes -> http_result) retries url offset length_ file w :
  0 <= retries -> (forall n range, web n url range = HResponse 200 file false) -> len file <> length_ ->
  exists e w', DownloadRange web retries url offset length_ w = (inr e, w') /\ w_requests w' = (w_requests w + Z.to_nat (retries + 1))%nat.
Proof.
  intros Hr Hweb Hl. unfold DownloadRange. generalize (Z.to_nat (retries + 1)) as n. intros n. generalize 0 as attempt. revert w.
  induction n as [|n IH]; intros w attempt; cbn [attempts]; [eexists _, _; split; [done|]; lia|].
  unfold tryDownloadRange at 1. rewrite Hweb, (decide_False (P := 200 <> 200 /\ _)), decide_True by (done || lia). cbn [client_error].
  match goal with |- context [attempts web n (attempt + 1) retries url offset length_ ?w2] => destruct (IH w2 (attempt + 1)) as (e & w' & E & Hw); set (w2' := w2) in * end.
  exists e, w'. split; [done|]. rewrite Hw. unfold w2'. case_decide; cbn; lia.
Qed.

(** ** Witness *)
Definition demo_info : Info := MkInfo (bs "f") 4 [Sha1.Sum (bs "abcd"); Sha1.Sum (bs "ef")] 6 [].
Definition demo_web (n : nat) (url range : bytes) : http_result :=
  if decide (url = bs "http://b/f" /\ range = bs "bytes=4-5") then HResponse 206 (bs "ef") false else HResponse 404 [] false.

Lemma webseed_download_witness :
  exists w', DownloadPiece demo_web (Some (fun _ _ => None)) [bs "http://a/"; bs "http://b/"] 3 demo_info 1 (MkWorld 0 [] []) = (Ok None, w') /\
    w_completed w' = [(1, bs "ef")] /\ w_requests w' = 2%nat.
Proof.
  assert (Hi : 0 <= 1 < len (i_Pieces demo_info)) by (vm_compute; split; [discriminate|reflexivity]).
  destruct (webseed_download demo_web (Some (fun _ _ => None)) demo_info 1 Hi [bs "http://a/"; bs "http://b/"] 3 (MkWorld 0 [] [])) as (r & w' & E & _).
  exists w'. vm_compute in E. injection E as <- <-. split; [vm_compute; reflexivity|]. split; reflexivity.
Defined.
End WebSeedClientFacts.
