(* ===== verification/Json.v ===== *)
(** * JSON documents

    What the stores of [src/examples/persistence] use of [encoding/json]: a
    document is kept as its tree, a number as the Go number that was printed,
    and a time, which is a string in the text, as the instant it stands for (in
    UTC). The text of a document is not modelled; what writing and reading it
    change is: invalid UTF-8 is replaced, numbers that are read into an
    [interface{}] become [float64], and are printed with the fewest digits that
    tell them apart. *)

From Stdlib Require Import SpecFloat.
From S2P Require Import Prelude Hash Metainfo TorrentFile Bandwidth RpcTypes.
Import Bandwidth RpcTypes.

Module Json.

Inductive json :=
  | JNull
  | JBool (b : bool)
  | JInt (z : Z)
  | JFloat (f : float)
  | JString (s : bytes)
  | JTime (t : option Z)
  | JArray (l : list json)
  | JObject (o : list (bytes * json)).

(** ** Strings *)

(** The length of the UTF-8 encoding of a character at the front. *)
Definition between (a b c : Z) : bool := bool_decide (a <= c <= b).
Definition rune_length (s : bytes) : option nat :=
  match s with
  | [] => None
  | c :: s' =>
      if between 0 127 c then Some 1%nat
      else match s' with
      | [] => None
      | d :: s'' =>
          if between 194 223 c then (if between 128 191 d then Some 2%nat else None)
          else
            let second := if decide (c = 224) then between 160 191 d else if decide (c = 237) then between 128 159 d
                          else if decide (c = 240) then between 144 191 d else if decide (c = 244) then between 128 143 d else between 128 191 d in
            match s'' with
            | [] => None
            | e :: s3 =>
                if between 224 239 c then (if second && between 128 191 e then Some 3%nat else None)
                else match s3 with
                | [] => None
                | f :: _ => if between 240 244 c && second && between 128 191 e && between 128 191 f then Some 4%nat else None
                end
            end
      end
  end.
(** [keep]: the bytes of the current character still to be copied; a byte that
    starts none is replaced by U+FFFD. *)
Fixpoint to_valid (keep : nat) (s : bytes) : bytes :=
  match s with
  | [] => []
  | c :: s' =>
      match keep with
      | S k => c :: to_valid k s'
      | O => match rune_length s with Some n => c :: to_valid (n - 1) s' | None => 239 :: 191 :: 189 :: to_valid 0 s' end
      end
  end.
Definition valid_text (s : bytes) : Prop := to_valid 0 s = s.
#[global] Instance valid_text_dec s : Decision (valid_text s).
Proof. unfold valid_text. apply _. Defined.

(** ** Numbers *)

(** The integer nearest to [z] that a [float64] holds. *)
Definition rounded (z : Z) : Z := default 0 (f_trunc (f_of_int z)).
(** The decimal with the fewest digits before its zeros that is read as [v],
    and of those the nearest; [k]: the zeros to try. *)
Fixpoint shortest (k : nat) (v : Z) : Z :=
  let p := 10 ^ Z.of_nat k in
  let lo := v / p * p in
  let hi := lo + p in
  if bool_decide (rounded lo = v) && (negb (bool_decide (rounded hi = v)) || bool_decide (v - lo <= hi - v)) then lo
  else if bool_decide (rounded hi = v) then hi
  else match k with O => v | S k' => shortest k' v end.
(** The integer literal that is printed for a float, if one is. *)
Definition printed_int (f : float) : option Z :=
  match f with
  | S754_zero _ => Some 0
  | S754_finite s m e =>
      let v := if decide (0 <= e) then Z.pos m * 2 ^ e else Z.pos m / 2 ^ (- e) in
      if decide ((0 <= e \/ Z.pos m mod 2 ^ (- e) = 0) /\ v < 10 ^ 21) then Some (if s then - shortest 20 v else shortest 20 v) else None
  | _ => None
  end.
Definition is_finite (f : float) : bool := match f with S754_zero _ | S754_finite _ _ _ => true | _ => false end.

(** ** Writing and reading *)
Definition year_0 : Z := -62167219200 * Second.
Definition year_10000 : Z := 253402300800 * Second.
Definition year_ok (t : option Z) : bool := match t with Some t => bool_decide (year_0 <= t < year_10000) | None => true end.

(** [json.Marshal]: the document, or an error for a float that is not finite
    or a time whose year has not four digits. *)
Fixpoint Marshal (v : json) : res json :=
  match v with
  | JNull | JBool _ | JInt _ => Ok v
  | JFloat f => if is_finite f then Ok v else Err "json: unsupported value"
  | JString s => Ok (JString (to_valid 0 s))
  | JTime t => if year_ok t then Ok v else Err "Time.MarshalJSON: year outside of range [0,9999]"
  | JArray l => l' ← (fix go (l : list json) : res (list json) := match l with [] => Ok [] | x :: l0 => y ← Marshal x; l1 ← go l0; Ok (y :: l1) end) l; Ok (JArray l')
  | JObject o =>
      o' ← (fix go (o : list (bytes * json)) : res (list (bytes * json)) :=
              match o with [] => Ok [] | (k, x) :: o0 => y ← Marshal x; o1 ← go o0; Ok ((to_valid 0 k, y) :: o1) end) o;
      Ok (JObject o')
  end.

(** [json.Unmarshal] into an [interface{}]. *)
Fixpoint to_interface (v : json) : json :=
  match v with
  | JInt z => JFloat (f_of_int z)
  | JArray l => JArray (map to_interface l)
  | JObject o => JObject (map (fun kx => (kx.1, to_interface kx.2)) o)
  | _ => v
  end.

(** [json.Unmarshal] into Go values; [null] leaves the zero value. *)
Definition type_error : string := "json: cannot unmarshal".
Definition dec_int (v : json) : res Z :=
  let in_range z := if decide (- max_int64 - 1 <= z <= max_int64) then Ok z else Err type_error in
  match v with JNull => Ok 0 | JInt z => in_range z | JFloat f => match printed_int f with Some z => in_range z | None => Err type_error end | _ => Err type_error end.
Definition dec_float (v : json) : res float :=
  match v with JNull => Ok (S754_zero false) | JInt z => Ok (f_of_int z) | JFloat f => Ok f | _ => Err type_error end.
Definition dec_string (v : json) : res bytes := match v with JNull => Ok [] | JString s => Ok s | _ => Err type_error end.
Definition dec_bool (v : json) : res bool := match v with JNull => Ok false | JBool b => Ok b | _ => Err type_error end.
Definition dec_time (v : json) : res (option Z) := match v with JNull => Ok None | JTime t => Ok t | _ => Err type_error end.
Fixpoint dec_all {A} (dec : json -> res A) (l : list json) : res (list A) :=
  match l with [] => Ok [] | x :: l' => y ← dec x; ys ← dec_all dec l'; Ok (y :: ys) end.
Definition dec_list {A} (dec : json -> res A) (v : json) : res (list A) := match v with JNull => Ok [] | JArray l => dec_all dec l | _ => Err type_error end.

(** The field of a struct; a key that is missing is like [null]. *)
Fixpoint member (k : bytes) (o : list (bytes * json)) : option json :=
  match o with [] => None | (k', v) :: o' => if decide (k = k') then Some v else member k o' end.
Definition field {A} (dec : json -> res A) (k : string) (o : list (bytes * json)) : res A := dec (default JNull (member (bs k) o)).

(** ** Files of a torrent *)
Definition file_json (f : FileInfo) : json :=
  JObject [(bs "name", JString (fi_Name f)); (bs "length", JInt (fi_Length f)); (bs "bytes_completed", JInt (fi_BytesCompleted f));
    (bs "priority", JInt (fi_Priority f)); (bs "wanted", JBool (fi_Wanted f))].
Definition dec_file (v : json) : res FileInfo :=
  match v with
  | JNull => Ok (MkFileInfo [] 0 0 0 false)
  | JObject o =>
      name ← field dec_string "name" o; length_ ← field dec_int "length" o; completed ← field dec_int "bytes_completed" o;
      priority ← field dec_int "priority" o; wanted ← field dec_bool "wanted" o;
      Ok (MkFileInfo name length_ completed priority wanted)
  | _ => Err type_error
  end.

(** [json.Unmarshal] into a [TorrentState]: a hash is an array of 20 numbers,
    which a string does not fit. The keys of its other fields (the metainfo, the
    error, the peers), which no store writes, are not read. *)
Definition zero_time : Z := -62135596800 * Second.
Definition zeroTorrent : TorrentState :=
  MkTorrent 0 Hash.zeroHash None 0 None [] zero_time None [] 0 0 0 (S754_zero false) 0 0 0 0 0 0 0 0 0 0 None 0 0 false [] [] [] [] [] (S754_zero false) 0 false.
Definition dec_hash (v : json) : res bytes :=
  match v with JNull => Ok Hash.zeroHash | JArray l => h ← dec_all dec_int l; Ok (take 20 (h ++ Hash.zeroHash)) | _ => Err type_error end.
Definition dec_torrent (v : json) : res TorrentState :=
  match v with
  | JNull => Ok zeroTorrent
  | JObject o =>
      id ← field dec_int "id" o; hash ← field dec_hash "info_hash" o; status ← field dec_int "status" o;
      dir ← field dec_string "download_dir" o; added ← field dec_time "added_date" o; start ← field dec_time "start_date" o;
      labels ← field (dec_list dec_string) "labels" o; downloaded ← field dec_int "downloaded" o; uploaded ← field dec_int "uploaded" o;
      left_ ← field dec_int "left" o; percent ← field dec_float "percent_done" o; count ← field dec_int "piece_count" o;
      complete ← field dec_int "pieces_complete" o; available ← field dec_int "pieces_available" o;
      drate ← field dec_int "download_rate" o; urate ← field dec_int "upload_rate" o; eta ← field dec_int "eta" o;
      peers ← field dec_int "peer_count" o; connected ← field dec_int "peer_connected_count" o;
      sending ← field dec_int "peer_sending_count" o; receiving ← field dec_int "peer_receiving_count" o;
      files ← field (dec_list dec_file) "files" o; priorities ← field (dec_list dec_int) "priorities" o;
      wanted ← field (dec_list dec_bool) "wanted" o; trackers ← field (dec_list dec_string) "tracker_list" o;
      ratio ← field dec_float "seed_ratio_limit" o; idle ← field dec_int "seed_idle_limit" o; honors ← field dec_bool "honors_session_limits" o;
      Ok (MkTorrent id hash None status None dir (default zero_time added) start labels downloaded uploaded left_ percent count complete available drate urate eta
        peers connected sending receiving None 0 0 false files priorities wanted trackers [] ratio idle honors)
  | _ => Err type_error
  end.

End Json.
