(* ===== verification/Persistence.v ===== *)
(** * Stores of the state of a daemon

    Models [src/examples/persistence]: the interface of a store
    ([interface.go], the class [TorrentPersistence]) with the hook that keeps
    one up to date, and its three implementations: in memory with snapshots
    ([memory.go]), JSON files ([file.go]) and a bbolt database
    ([database.go]).

    A context is what its [Err] says. The files are those of the three
    directories of the store, by directory and name; each operation of the file
    system may fail, or stop half way, as the list [fp_faults] says. bbolt is
    the class [Bolt]. The order of a range over a map is [set_range]. *)

From S2P Require Import Prelude Strconv Hash Metainfo TorrentFile Bandwidth RpcTypes QueueManager Blocklist PexManager WebSeed FileManager TorrentManager.
From S2P Require Import RpcMessages Json.
Import Hash RpcTypes Json.

Module Persistence.

Abbreviation Context_ := (option string).

(** ** The interface *)
Class TorrentPersistence (S : Type) := {
  SaveTorrent : Context_ -> option TorrentState -> S -> res () * S;
  LoadTorrent : Context_ -> bytes -> S -> res TorrentState * S;
  SaveAllTorrents : Context_ -> list (option TorrentState) -> S -> res () * S;
  LoadAllTorrents : Context_ -> S -> res (list TorrentState) * S;
  DeleteTorrent : Context_ -> bytes -> S -> res () * S;
  SaveSessionConfig : Context_ -> option SessionConfiguration -> S -> res () * S;
  LoadSessionConfig : Context_ -> S -> res SessionConfiguration * S;
  Close : S -> res () * S
}.

Definition saving_events : list bytes :=
  [TorrentManager.HookEventTorrentAdded; TorrentManager.HookEventTorrentStarted; TorrentManager.HookEventTorrentStopped;
   TorrentManager.HookEventTorrentCompleted].
Definition HandleTorrentEvent {S} `{!TorrentPersistence S} (ctx : Context_) (event : bytes) (torrent : TorrentState) (s : S) : res () * S :=
  if decide (event ∈ saving_events) then SaveTorrent ctx (Some torrent) s
  else if decide (event = TorrentManager.HookEventTorrentRemoved) then DeleteTorrent ctx (t_InfoHash torrent) s
  else (Ok (), s).

Definition canceled {A S} (ctx : Context_) (s : S) (go : res A * S) : res A * S := match ctx with Some e => (Err e, s) | None => go end.
Definition not_found (h : bytes) : string := ("torrent not found: " ++ Strconv.text (HexString h))%string.
Definition no_session : string := "session configuration not found".

(** ** In memory *)
Section Memory.
Context {B : Type} `{!TorrentPersistence B} `{!SetRange}.

Record MemoryPersistence := MkMemory {
  mp_torrents : gmap bytes TorrentState;
  mp_session : option SessionConfiguration;
  mp_backup : option B;
  mp_interval : Z;
  mp_lastSnapshot : Z;
  mp_running : bool;
  mp_reads : Z;
  mp_writes : Z;
  mp_deletes : Z
}.
Definition NewMemoryPersistence (backup : option B) (interval : Z) : MemoryPersistence :=
  MkMemory ∅ None backup interval 0 (match backup with Some _ => bool_decide (0 < interval) | None => false end) 0 0 0.

Definition with_torrents (v : gmap bytes TorrentState) (mp : MemoryPersistence) : MemoryPersistence :=
  MkMemory v (mp_session mp) (mp_backup mp) (mp_interval mp) (mp_lastSnapshot mp) (mp_running mp) (mp_reads mp) (mp_writes mp) (mp_deletes mp).
Definition with_session (v : option SessionConfiguration) (mp : MemoryPersistence) : MemoryPersistence :=
  MkMemory (mp_torrents mp) v (mp_backup mp) (mp_interval mp) (mp_lastSnapshot mp) (mp_running mp) (mp_reads mp) (mp_writes mp) (mp_deletes mp).
Definition with_backup (v : option B) (mp : MemoryPersistence) : MemoryPersistence :=
  MkMemory (mp_torrents mp) (mp_session mp) v (mp_interval mp) (mp_lastSnapshot mp) (mp_running mp) (mp_reads mp) (mp_writes mp) (mp_deletes mp).
Definition count (reads writes deletes : Z) (mp : MemoryPersistence) : MemoryPersistence :=
  MkMemory (mp_torrents mp) (mp_session mp) (mp_backup mp) (mp_interval mp) (mp_lastSnapshot mp) (mp_running mp)
    (i64 (mp_reads mp + reads)) (i64 (mp_writes mp + writes)) (i64 (mp_deletes mp + deletes)).

(** What is not exported is not copied. *)
Definition deepCopyTorrent (t : TorrentState) : TorrentState :=
  MkTorrent (t_ID t) (t_InfoHash t) (t_MetaInfo t) (t_Status t) (t_Error t) (t_DownloadDir t) (t_AddedDate t) (t_StartDate t) (t_Labels t)
    (t_Downloaded t) (t_Uploaded t) (t_Left t) (t_PercentDone t) (t_PieceCount t) (t_PiecesComplete t) (t_PiecesAvailable t) (t_DownloadRate t)
    (t_UploadRate t) (t_ETA t) (t_PeerCount t) (t_PeerConnectedCount t) (t_PeerSendingCount t) (t_PeerReceivingCount t) None 0 0 false (t_Files t)
    (t_Priorities t) (t_Wanted t) (t_TrackerList t) (t_Peers t) (t_SeedRatioLimit t) (t_SeedIdleLimit t) (t_HonorsSessionLimits t).
Definition put (t : TorrentState) (m : gmap bytes TorrentState) : gmap bytes TorrentState := <[t_InfoHash t := deepCopyTorrent t]> m.

Definition mem_SaveTorrent (ctx : Context_) (torrent : option TorrentState) (mp : MemoryPersistence) : res () * MemoryPersistence :=
  match torrent with
  | None => (Err "torrent cannot be nil", mp)
  | Some t => canceled ctx mp (Ok (), count 0 1 0 (with_torrents (put t (mp_torrents mp)) mp))
  end.
Definition mem_LoadTorrent (ctx : Context_) (infoHash : bytes) (mp : MemoryPersistence) : res TorrentState * MemoryPersistence :=
  canceled ctx mp
    match mp_torrents mp !! infoHash with
    | None => (Err (not_found infoHash), mp)
    | Some t => (Ok (deepCopyTorrent t), count 1 0 0 mp)
    end.
Definition mem_SaveAllTorrents (ctx : Context_) (torrents : list (option TorrentState)) (mp : MemoryPersistence) : res () * MemoryPersistence :=
  if decide (torrents = []) then (Ok (), mp)
  else canceled ctx mp
    match mapM id torrents with
    | None => (Err "torrent cannot be nil", mp)
    | Some ts => (Ok (), count 0 (Z.of_nat (length ts)) 0 (with_torrents (foldl (fun m t => put t m) (mp_torrents mp) ts) mp))
    end.
Definition mem_LoadAllTorrents (ctx : Context_) (mp : MemoryPersistence) : res (list TorrentState) * MemoryPersistence :=
  canceled ctx mp (Ok (map (fun ht => deepCopyTorrent ht.2) (set_range (mp_torrents mp))), count 1 0 0 mp).
Definition mem_DeleteTorrent (ctx : Context_) (infoHash : bytes) (mp : MemoryPersistence) : res () * MemoryPersistence :=
  canceled ctx mp
    match mp_torrents mp !! infoHash with
    | None => (Err (not_found infoHash), mp)
    | Some _ => (Ok (), count 0 0 1 (with_torrents (delete infoHash (mp_torrents mp)) mp))
    end.
Definition mem_SaveSessionConfig (ctx : Context_) (config : option SessionConfiguration) (mp : MemoryPersistence) : res () * MemoryPersistence :=
  match config with
  | None => (Err "session configuration cannot be nil", mp)
  | Some c => canceled ctx mp (Ok (), count 0 1 0 (with_session (Some c) mp))
  end.
Definition mem_LoadSessionConfig (ctx : Context_) (mp : MemoryPersistence) : res SessionConfiguration * MemoryPersistence :=
  canceled ctx mp match mp_session mp with None => (Err no_session, mp) | Some c => (Ok c, count 1 0 0 mp) end.

Definition performSnapshot (now : Z) (ctx : Context_) (mp : MemoryPersistence) : res () * MemoryPersistence :=
  match mp_backup mp with
  | None => (Ok (), mp)
  | Some b =>
      let torrents := map (fun ht => Some ht.2) (set_range (mp_torrents mp)) in
      let '(r, b) := if decide (torrents = []) then (Ok (), b) else SaveAllTorrents ctx torrents b in
      match r with
      | Ok _ =>
          let '(r, b) := match mp_session mp with None => (Ok (), b) | Some c => SaveSessionConfig ctx (Some c) b end in
          match r with
          | Ok _ => (Ok (), MkMemory (mp_torrents mp) (mp_session mp) (Some b) (mp_interval mp) now (mp_running mp) (mp_reads mp) (mp_writes mp) (mp_deletes mp))
          | _ => (r, with_backup (Some b) mp)
          end
      | _ => (r, with_backup (Some b) mp)
      end
  end.
Definition ForceSnapshot (now : Z) (ctx : Context_) (mp : MemoryPersistence) : res () * MemoryPersistence :=
  match mp_backup mp with None => (Err "no backup persistence configured", mp) | Some _ => performSnapshot now ctx mp end.
Definition LoadFromBackup (ctx : Context_) (mp : MemoryPersistence) : res () * MemoryPersistence :=
  match mp_backup mp with
  | None => (Err "no backup persistence configured", mp)
  | Some b =>
      let '(r, b) := LoadAllTorrents ctx b in
      match r with
      | Ok ts =>
          let '(r, b) := LoadSessionConfig ctx b in
          let restore session := (Ok (), with_session (match session with Some c => Some c | None => mp_session mp end)
            (with_torrents (foldl (fun m t => put t m) ∅ ts) (with_backup (Some b) mp))) in
          match r with
          | Ok c => restore (Some c)
          | Err e => if decide (e = no_session) then restore None else (Err ("failed to load session config from backup: " ++ e), with_backup (Some b) mp)
          | Panic p => (Panic p, with_backup (Some b) mp) | NoFuel => (NoFuel, with_backup (Some b) mp)
          end
      | Err e => (Err ("failed to load torrents from backup: " ++ e), with_backup (Some b) mp)
      | Panic p => (Panic p, with_backup (Some b) mp) | NoFuel => (NoFuel, with_backup (Some b) mp)
      end
  end%string.
Definition mem_Close (now : Z) (mp : MemoryPersistence) : res () * MemoryPersistence :=
  let mp := MkMemory (mp_torrents mp) (mp_session mp) (mp_backup mp) (mp_interval mp) (mp_lastSnapshot mp) false (mp_reads mp) (mp_writes mp) (mp_deletes mp) in
  match mp_backup mp with
  | None => (Ok (), mp)
  | Some _ =>
      let mp := (performSnapshot now None mp).2 in
      match mp_backup mp with
      | Some b => let '(r, b) := Close b in (r, with_backup (Some b) mp)
      | None => (Ok (), mp)
      end
  end.

#[global] Instance memory_persistence (now : Z) : TorrentPersistence MemoryPersistence := {|
  SaveTorrent := mem_SaveTorrent; LoadTorrent := mem_LoadTorrent; SaveAllTorrents := mem_SaveAllTorrents; LoadAllTorrents := mem_LoadAllTorrents;
  DeleteTorrent := mem_DeleteTorrent; SaveSessionConfig := mem_SaveSessionConfig; LoadSessionConfig := mem_LoadSessionConfig; Close := mem_Close now |}.
End Memory.
(** ** JSON documents of the stores *)
Definition strings_json (l : list bytes) : json := JArray (map JString l).
Definition ints_json (l : list Z) : json := JArray (map JInt l).
Definition file_createSerializableTorrent (t : TorrentState) : json := JObject [
  (bs "id", JInt (t_ID t)); (bs "info_hash", JString (HexString (t_InfoHash t))); (bs "status", JInt (t_Status t));
  (bs "download_dir", JString (t_DownloadDir t)); (bs "added_date", JTime (Some (t_AddedDate t))); (bs "start_date", JTime (t_StartDate t));
  (bs "labels", strings_json (t_Labels t)); (bs "downloaded", JInt (t_Downloaded t)); (bs "uploaded", JInt (t_Uploaded t)); (bs "left", JInt (t_Left t));
  (bs "percent_done", JFloat (t_PercentDone t)); (bs "piece_count", JInt (t_PieceCount t)); (bs "pieces_complete", JInt (t_PiecesComplete t));
  (bs "pieces_available", JInt (t_PiecesAvailable t)); (bs "files", JArray (map file_json (t_Files t))); (bs "priorities", ints_json (t_Priorities t));
  (bs "wanted", JArray (map JBool (t_Wanted t))); (bs "tracker_list", strings_json (t_TrackerList t)); (bs "seed_ratio_limit", JFloat (t_SeedRatioLimit t));
  (bs "seed_idle_limit", JInt (t_SeedIdleLimit t)); (bs "honors_session_limits", JBool (t_HonorsSessionLimits t))].
Definition db_createSerializableTorrent (t : TorrentState) : json := JObject [
  (bs "id", JInt (t_ID t)); (bs "info_hash", JString (HexString (t_InfoHash t))); (bs "status", JInt (t_Status t));
  (bs "download_dir", JString (t_DownloadDir t)); (bs "added_date", JTime (Some (t_AddedDate t))); (bs "start_date", JTime (t_StartDate t));
  (bs "labels", strings_json (t_Labels t)); (bs "downloaded", JInt (t_Downloaded t)); (bs "uploaded", JInt (t_Uploaded t)); (bs "left", JInt (t_Left t));
  (bs "percent_done", JFloat (t_PercentDone t)); (bs "piece_count", JInt (t_PieceCount t)); (bs "pieces_complete", JInt (t_PiecesComplete t));
  (bs "pieces_available", JInt (t_PiecesAvailable t)); (bs "download_rate", JInt (t_DownloadRate t)); (bs "upload_rate", JInt (t_UploadRate t));
  (bs "eta", JInt (t_ETA t)); (bs "peer_count", JInt (t_PeerCount t)); (bs "peer_connected_count", JInt (t_PeerConnectedCount t));
  (bs "peer_sending_count", JInt (t_PeerSendingCount t)); (bs "peer_receiving_count", JInt (t_PeerReceivingCount t));
  (bs "files", JArray (map file_json (t_Files t))); (bs "priorities", ints_json (t_Priorities t));
  (bs "wanted", JArray (map JBool (t_Wanted t))); (bs "tracker_list", strings_json (t_TrackerList t)); (bs "seed_ratio_limit", JFloat (t_SeedRatioLimit t));
  (bs "seed_idle_limit", JInt (t_SeedIdleLimit t)); (bs "honors_session_limits", JBool (t_HonorsSessionLimits t))].

Definition session_json (c : SessionConfiguration) : json := JObject [
  (bs "download_dir", JString (s_DownloadDir c)); (bs "incomplete_dir", JString (s_IncompleteDir c));
  (bs "incomplete_dir_enabled", JBool (s_IncompleteDirEnabled c)); (bs "peer_port", JInt (s_PeerPort c));
  (bs "peer_limit_global", JInt (s_PeerLimitGlobal c)); (bs "peer_limit_per_torrent", JInt (s_PeerLimitPerTorrent c));
  (bs "dht_enabled", JBool (s_DHTEnabled c)); (bs "pex_enabled", JBool (s_PEXEnabled c)); (bs "lpd_enabled", JBool (s_LPDEnabled c));
  (bs "utp_enabled", JBool (s_UTPEnabled c)); (bs "webseeds_enabled", JBool (s_WebSeedsEnabled c)); (bs "encryption", JString (s_Encryption c));
  (bs "speed_limit_down", JInt (s_SpeedLimitDown c)); (bs "speed_limit_down_enabled", JBool (s_SpeedLimitDownEnabled c));
  (bs "speed_limit_up", JInt (s_SpeedLimitUp c)); (bs "speed_limit_up_enabled", JBool (s_SpeedLimitUpEnabled c));
  (bs "alt_speed_down", JInt (s_AltSpeedDown c)); (bs "alt_speed_up", JInt (s_AltSpeedUp c)); (bs "alt_speed_enabled", JBool (s_AltSpeedEnabled c));
  (bs "download_queue_enabled", JBool (s_DownloadQueueEnabled c)); (bs "download_queue_size", JInt (s_DownloadQueueSize c));
  (bs "seed_queue_enabled", JBool (s_SeedQueueEnabled c)); (bs "seed_queue_size", JInt (s_SeedQueueSize c));
  (bs "seed_ratio_limit", JFloat (s_SeedRatioLimit c)); (bs "seed_ratio_limited", JBool (s_SeedRatioLimited c));
  (bs "idle_seeding_limit", JInt (s_IdleSeedingLimit c)); (bs "idle_seeding_limit_enabled", JBool (s_IdleSeedingLimitEnabled c));
  (bs "start_added_torrents", JBool (s_StartAddedTorrents c)); (bs "cache_size_mb", JInt (s_CacheSizeMB c)); (bs "version", JString (s_Version c));
  (bs "blocklist_enabled", JBool (s_BlocklistEnabled c)); (bs "blocklist_url", JString (s_BlocklistURL c)); (bs "blocklist_size", JInt (s_BlocklistSize c));
  (bs "script_torrent_done_enabled", JBool (s_ScriptTorrentDoneEnabled c)); (bs "script_torrent_done_filename", JString (s_ScriptTorrentDoneFilename c))].
Definition dec_session (v : json) : res SessionConfiguration :=
  let o := match v with JObject o => o | _ => [] end in
  if match v with JObject _ | JNull => false | _ => true end then Err type_error
  else
    dir ← field dec_string "download_dir" o; inc ← field dec_string "incomplete_dir" o; ince ← field dec_bool "incomplete_dir_enabled" o;
    port ← field dec_int "peer_port" o; plg ← field dec_int "peer_limit_global" o; plt ← field dec_int "peer_limit_per_torrent" o;
    dht ← field dec_bool "dht_enabled" o; pex ← field dec_bool "pex_enabled" o; lpd ← field dec_bool "lpd_enabled" o; utp ← field dec_bool "utp_enabled" o;
    seeds ← field dec_bool "webseeds_enabled" o; enc ← field dec_string "encryption" o;
    sd ← field dec_int "speed_limit_down" o; sde ← field dec_bool "speed_limit_down_enabled" o;
    su ← field dec_int "speed_limit_up" o; sue ← field dec_bool "speed_limit_up_enabled" o;
    ad ← field dec_int "alt_speed_down" o; au ← field dec_int "alt_speed_up" o; ae ← field dec_bool "alt_speed_enabled" o;
    dqe ← field dec_bool "download_queue_enabled" o; dqs ← field dec_int "download_queue_size" o;
    sqe ← field dec_bool "seed_queue_enabled" o; sqs ← field dec_int "seed_queue_size" o;
    ratio ← field dec_float "seed_ratio_limit" o; limited ← field dec_bool "seed_ratio_limited" o;
    idle ← field dec_int "idle_seeding_limit" o; idlee ← field dec_bool "idle_seeding_limit_enabled" o;
    start ← field dec_bool "start_added_torrents" o; cache ← field dec_int "cache_size_mb" o; version ← field dec_string "version" o;
    ble ← field dec_bool "blocklist_enabled" o; blu ← field dec_string "blocklist_url" o; bls ← field dec_int "blocklist_size" o;
    done_ ← field dec_bool "script_torrent_done_enabled" o; donef ← field dec_string "script_torrent_done_filename" o;
    Ok (MkSession dir inc ince port plg plt dht pex lpd utp seeds enc sd sde su sue ad au ae dqe dqs sqe sqs ratio limited idle idlee start cache version
      ble blu bls done_ donef).

(** ** JSON files *)
Inductive dir := DTorrents | DMetadata | DData.
#[global] Instance dir_eq : EqDecision dir.
Proof. solve_decision. Defined.
#[global] Instance dir_countable : Countable dir.
Proof.
  apply (inj_countable' (fun d => match d with DTorrents => 0%nat | DMetadata => 1%nat | DData => 2%nat end)
    (fun n => match n with O => DTorrents | S O => DMetadata | _ => DData end)). by intros [].
Defined.

(** A file holds a JSON document, other data, or the beginning of what was to
    be written. *)
Inductive content := CJson (v : json) | CBytes (b : bytes) | CPartial.
Inductive fault := Works | Fails | Stops.
Abbreviation path := (dir * bytes)%type.
Record FilePersistence := MkFiles { fp_files : gmap path content; fp_faults : list fault }.

Definition next_fault (fp : FilePersistence) : fault * gmap path content * list fault :=
  (match fp_faults fp with f :: _ => f | [] => Works end, fp_files fp, tail (fp_faults fp)).
Definition WriteFile (p : path) (c : content) (fp : FilePersistence) : bool * FilePersistence :=
  match next_fault fp with
  | (Works, fs, l) => (true, MkFiles (<[p := c]> fs) l)
  | (Fails, fs, l) => (false, MkFiles fs l)
  | (Stops, fs, l) => (false, MkFiles (<[p := CPartial]> fs) l)
  end.
Definition Rename (p q : path) (fp : FilePersistence) : bool * FilePersistence :=
  match next_fault fp with
  | (Works, fs, l) => match fs !! p with Some c => (true, MkFiles (<[q := c]> (delete p fs)) l) | None => (false, MkFiles fs l) end
  | (_, fs, l) => (false, MkFiles fs l)
  end.
Inductive removed := Removed | NotThere | RemoveFails.
Definition Remove (p : path) (fp : FilePersistence) : removed * FilePersistence :=
  match next_fault fp with
  | (Works, fs, l) => (if decide (is_Some (fs !! p)) then Removed else NotThere, MkFiles (delete p fs) l)
  | (_, fs, l) => (RemoveFails, MkFiles fs l)
  end.
Inductive file_read := Read (c : content) | Missing | ReadFails.
Definition ReadFile (p : path) (fp : FilePersistence) : file_read * FilePersistence :=
  match next_fault fp with
  | (Works, fs, l) => (match fs !! p with Some c => Read c | None => Missing end, MkFiles fs l)
  | (_, fs, l) => (ReadFails, MkFiles fs l)
  end.
(** The names in a directory, in order. *)
Definition names (d : dir) (fs : gmap path content) : list bytes :=
  merge_sort bytes_le (map (fun pc => pc.1.2) (filter (fun pc => pc.1.1 = d) (map_to_list fs))).
Definition ReadDir (d : dir) (fp : FilePersistence) : option (list bytes) * FilePersistence :=
  match next_fault fp with (Works, fs, l) => (Some (names d fs), MkFiles fs l) | (_, fs, l) => (None, MkFiles fs l) end.

Definition NewFilePersistence (dataDir : bytes) (fp : FilePersistence) : res FilePersistence :=
  if decide (dataDir = []) then Err "data directory cannot be empty" else Ok fp.

Definition tmp (p : path) : path := (p.1, p.2 ++ bs ".tmp").
Definition getTorrentFilePath (infoHash : bytes) : path := (DTorrents, HexString infoHash ++ bs ".json").
Definition getMetaInfoFilePath (infoHash : bytes) : path := (DMetadata, HexString infoHash ++ bs ".torrent").
Definition sessionFile : path := (DData, bs "session.json").

(** [os.Create] empties the file before the metainfo is written. *)
Definition saveMetaInfo (infoHash : bytes) (mi : TorrentFile.MetaInfo) (fp : FilePersistence) : FilePersistence :=
  (WriteFile (getMetaInfoFilePath infoHash) (match TorrentFile.Write mi with Ok data => CBytes data | _ => CPartial end) fp).2.
Definition loadMetaInfo (infoHash : bytes) (fp : FilePersistence) : res TorrentFile.MetaInfo * FilePersistence :=
  let '(r, fp) := ReadFile (getMetaInfoFilePath infoHash) fp in
  (match r with Read (CBytes b) => TorrentFile.Load b | _ => Err "no metainfo" end, fp).
Definition attachMetaInfo (infoHash : bytes) (t : TorrentState) (fp : FilePersistence) : res TorrentState * FilePersistence :=
  let '(r, fp) := loadMetaInfo infoHash fp in
  (match r with Ok mi => Ok (set_MetaInfo (Some mi) t) | Err _ => Ok t | Panic p => Panic p | NoFuel => NoFuel end, fp).

(** Writing by way of a temporary file. *)
Definition write_atomically (p : path) (v : json) (fp : FilePersistence) : bool * FilePersistence :=
  let '(written, fp) := WriteFile (tmp p) (CJson v) fp in
  if negb written then (false, fp)
  else
    let '(renamed, fp) := Rename (tmp p) p fp in
    if renamed : bool then (true, fp) else (false, (Remove (tmp p) fp).2).

Definition file_SaveTorrent (ctx : Context_) (torrent : option TorrentState) (fp : FilePersistence) : res () * FilePersistence :=
  match torrent with
  | None => (Err "torrent cannot be nil", fp)
  | Some t =>
      canceled ctx fp
        match Marshal (file_createSerializableTorrent t) with
        | Ok data =>
            match write_atomically (getTorrentFilePath (t_InfoHash t)) data fp with
            | (true, fp) => (Ok (), match t_MetaInfo t with Some mi => saveMetaInfo (t_InfoHash t) mi fp | None => fp end)
            | (false, fp) => (Err "failed to write torrent file", fp)
            end
        | Err e => (Err ("failed to marshal torrent state: " ++ e), fp) | Panic p => (Panic p, fp) | NoFuel => (NoFuel, fp)
        end
  end%string.

Definition readTorrentFile (infoHash : bytes) (fp : FilePersistence) : res content * FilePersistence :=
  let '(r, fp) := ReadFile (getTorrentFilePath infoHash) fp in
  (match r with Read c => Ok c | Missing => Err (not_found infoHash) | ReadFails => Err "failed to read torrent file" end, fp).
(** [json.Unmarshal] into a map, without the string under "info_hash". *)
Definition normalizeInfoHashField (o : list (bytes * json)) : list (bytes * json) :=
  match member (bs "info_hash") o with Some (JString _) => filter (fun kv => kv.1 <> bs "info_hash") o | _ => o end.
Definition unmarshalTorrentState (v : json) : res TorrentState := fixed ← Marshal v; dec_torrent fixed.
Definition deserializeTorrentState (c : content) : res TorrentState :=
  match c with
  | CJson v =>
      match to_interface v with
      | JObject o => unmarshalTorrentState (JObject (normalizeInfoHashField o))
      | JNull => unmarshalTorrentState JNull
      | _ => Err type_error
      end
  | _ => Err "failed to unmarshal torrent data"
  end.
Definition with_hash (h : bytes) (t : TorrentState) : TorrentState :=
  MkTorrent (t_ID t) h (t_MetaInfo t) (t_Status t) (t_Error t) (t_DownloadDir t) (t_AddedDate t) (t_StartDate t) (t_Labels t)
    (t_Downloaded t) (t_Uploaded t) (t_Left t) (t_PercentDone t) (t_PieceCount t) (t_PiecesComplete t) (t_PiecesAvailable t) (t_DownloadRate t)
    (t_UploadRate t) (t_ETA t) (t_PeerCount t) (t_PeerConnectedCount t) (t_PeerSendingCount t) (t_PeerReceivingCount t) (t_lastStatsUpdate t)
    (t_lastDownloaded t) (t_lastUploaded t) (t_wasComplete t) (t_Files t)
    (t_Priorities t) (t_Wanted t) (t_TrackerList t) (t_Peers t) (t_SeedRatioLimit t) (t_SeedIdleLimit t) (t_HonorsSessionLimits t).
Definition file_LoadTorrent (ctx : Context_) (infoHash : bytes) (fp : FilePersistence) : res TorrentState * FilePersistence :=
  canceled ctx fp
    (let '(r, fp) := readTorrentFile infoHash fp in
     match (c ← r; deserializeTorrentState c) with
     | Ok t => attachMetaInfo infoHash (with_hash infoHash t) fp
     | e => (e, fp)
     end).

Definition writeTorrentToTempFile (t : TorrentState) (fp : FilePersistence) : res path * FilePersistence :=
  match Marshal (file_createSerializableTorrent t) with
  | Ok data =>
      let targetFile := getTorrentFilePath (t_InfoHash t) in
      let '(written, fp) := WriteFile (tmp targetFile) (CJson data) fp in
      (if written : bool then Ok targetFile else Err "failed to write temporary file", fp)
  | Err e => (Err ("failed to marshal torrent: " ++ e), fp) | Panic p => (Panic p, fp) | NoFuel => (NoFuel, fp)
  end%string.

(** The map from a path to its temporary file, as the paths by their names. *)
Fixpoint prepareTorrentsForBatchSave (torrents : list (option TorrentState)) (tempFiles : gmap bytes path) (fp : FilePersistence) :
    res (gmap bytes path) * FilePersistence :=
  match torrents with
  | [] => (Ok tempFiles, fp)
  | None :: _ => (Err "torrent cannot be nil", fp)
  | Some t :: torrents' =>
      match writeTorrentToTempFile t fp with
      | (Ok p, fp) =>
          let fp := match t_MetaInfo t with Some mi => saveMetaInfo (t_InfoHash t) mi fp | None => fp end in
          prepareTorrentsForBatchSave torrents' (<[p.2 := p]> tempFiles) fp
      | (Err e, fp) => (Err e, fp) | (Panic p, fp) => (Panic p, fp) | (NoFuel, fp) => (NoFuel, fp)
      end
  end.
Definition cleanupTempFiles (ps : list path) (fp : FilePersistence) : FilePersistence := foldl (fun fp p => (Remove (tmp p) fp).2) fp ps.
Fixpoint renameTempFilesAtomically (ps : list path) (fp : FilePersistence) : bool * FilePersistence :=
  match ps with
  | [] => (true, fp)
  | p :: ps' => let '(renamed, fp) := Rename (tmp p) p fp in if renamed : bool then renameTempFilesAtomically ps' fp else (false, fp)
  end.
Definition file_SaveAllTorrents `{!SetRange} (ctx : Context_) (torrents : list (option TorrentState)) (fp : FilePersistence) : res () * FilePersistence :=
  if decide (torrents = []) then (Ok (), fp)
  else canceled ctx fp
    match prepareTorrentsForBatchSave torrents ∅ fp with
    | (Ok tempFiles, fp) =>
        let ps := map snd (set_range tempFiles) in
        match renameTempFilesAtomically ps fp with
        | (true, fp) => (Ok (), fp)
        | (false, fp) => (Err "failed to rename temporary file", cleanupTempFiles ps fp)
        end
    | (Err e, fp) => (Err e, cleanupTempFiles [] fp)
    | (Panic p, fp) => (Panic p, fp) | (NoFuel, fp) => (NoFuel, fp)
    end.

Definition loadTorrentFile (name : bytes) (fp : FilePersistence) : res TorrentState * FilePersistence :=
  let '(r, fp) := ReadFile (DTorrents, name) fp in
  (match r with Read c => deserializeTorrentState c | _ => Err "read error" end, fp).
Fixpoint load_entries (entries : list bytes) (fp : FilePersistence) : res (list TorrentState) * FilePersistence :=
  match entries with
  | [] => (Ok [], fp)
  | name :: entries' =>
      if negb (Http.HasSuffix name (bs ".json")) then load_entries entries' fp
      else
        match NewHashFromString (Http.TrimSuffix name (bs ".json")) with
        | Ok infoHash =>
            let '(r, fp) := loadTorrentFile name fp in
            match r with
            | Ok t =>
                let '(r, fp) := attachMetaInfo infoHash (with_hash infoHash t) fp in
                match r with
                | Ok t => let '(ts, fp) := load_entries entries' fp in (ts ← ts; Ok (t :: ts), fp)
                | Err e => (Err e, fp) | Panic p => (Panic p, fp) | NoFuel => (NoFuel, fp)
                end
            | Err _ => load_entries entries' fp
            | Panic p => (Panic p, fp) | NoFuel => (NoFuel, fp)
            end
        | Err e => (Err e, fp) | Panic p => (Panic p, fp) | NoFuel => (NoFuel, fp)
        end
  end.
Definition file_LoadAllTorrents (ctx : Context_) (fp : FilePersistence) : res (list TorrentState) * FilePersistence :=
  canceled ctx fp
    match ReadDir DTorrents fp with
    | (None, fp) => (Err "failed to read torrents directory", fp)
    | (Some entries, fp) => load_entries entries fp
    end.
Definition file_DeleteTorrent (ctx : Context_) (infoHash : bytes) (fp : FilePersistence) : res () * FilePersistence :=
  canceled ctx fp
    match Remove (getTorrentFilePath infoHash) fp with
    | (RemoveFails, fp) => (Err "failed to remove torrent file", fp)
    | (_, fp) => (Ok (), (Remove (getMetaInfoFilePath infoHash) fp).2)
    end.
Definition file_SaveSessionConfig (ctx : Context_) (config : option SessionConfiguration) (fp : FilePersistence) : res () * FilePersistence :=
  match config with
  | None => (Err "session configuration cannot be nil", fp)
  | Some c =>
      canceled ctx fp
        match Marshal (session_json c) with
        | Ok data =>
            match write_atomically sessionFile data fp with
            | (true, fp) => (Ok (), fp)
            | (false, fp) => (Err "failed to write session file", fp)
            end
        | Err e => (Err ("failed to marshal session configuration: " ++ e), fp) | Panic p => (Panic p, fp) | NoFuel => (NoFuel, fp)
        end
  end%string.
Definition file_LoadSessionConfig (ctx : Context_) (fp : FilePersistence) : res SessionConfiguration * FilePersistence :=
  canceled ctx fp
    (let '(r, fp) := ReadFile sessionFile fp in
     (match r with
      | Missing => Err no_session
      | ReadFails => Err "failed to read session file"
      | Read (CJson v) => dec_session v
      | Read _ => Err "failed to unmarshal session configuration"
      end, fp)).
#[global] Instance file_persistence `{!SetRange} : TorrentPersistence FilePersistence := {|
  SaveTorrent := file_SaveTorrent; LoadTorrent := file_LoadTorrent; SaveAllTorrents := file_SaveAllTorrents; LoadAllTorrents := file_LoadAllTorrents;
  DeleteTorrent := file_DeleteTorrent; SaveSessionConfig := file_SaveSessionConfig; LoadSessionConfig := file_LoadSessionConfig; Close := fun fp => (Ok (), fp) |}.

(** ** The database *)

(** What is used of bbolt within a transaction: [None] where the bucket does
    not exist; [bolt_Commit] ends a transaction that has not failed. *)
Class Bolt (DB : Type) := {
  bolt_Get : bytes -> bytes -> DB -> option (option json);
  bolt_ForEach : bytes -> DB -> option (list (bytes * json));
  bolt_Put : bytes -> bytes -> json -> DB -> res DB;
  bolt_Delete : bytes -> bytes -> DB -> res DB;
  bolt_CreateBucketIfNotExists : bytes -> DB -> res DB;
  bolt_Commit : DB -> res DB;
  bolt_Close : DB -> res ()
}.

Section Database.
Context {DB : Type} `{!Bolt DB}.

Record DatabasePersistence := MkDatabase { dp_db : DB; dp_metricsEnabled : bool }.

(** [db.Update]: an error rolls back. *)
Definition Update (f : DB -> res DB) (dp : DatabasePersistence) : res () * DatabasePersistence :=
  match (db ← f (dp_db dp); bolt_Commit db) with
  | Ok db => (Ok (), MkDatabase db (dp_metricsEnabled dp))
  | Err e => (Err e, dp) | Panic p => (Panic p, dp) | NoFuel => (NoFuel, dp)
  end.
Definition bucket_torrents : bytes := bs "torrents".
Definition bucket_session : bytes := bs "session".
Definition with_bucket {A} (b : bytes) (db : DB) (f : res A) : res A :=
  match bolt_ForEach b db with None => Err (Strconv.text b ++ " bucket not found")%string | Some _ => f end.

Definition initBuckets (metrics : bool) (db : DB) : res DB :=
  db ← bolt_CreateBucketIfNotExists bucket_torrents db;
  db ← bolt_CreateBucketIfNotExists bucket_session db;
  if metrics then bolt_CreateBucketIfNotExists (bs "metrics") db else Ok db.
(** [opened]: what [bbolt.Open] gave. *)
Definition NewDatabasePersistence (dbPath : bytes) (enableMetrics : bool) (opened : res DB) : res DatabasePersistence :=
  if decide (dbPath = []) then Err "database path cannot be empty"
  else
    db ← opened;
    match Update (initBuckets enableMetrics) (MkDatabase db enableMetrics) with
    | (Ok _, dp) => Ok dp
    | (Err e, _) => Err ("failed to initialize buckets: " ++ e) | (Panic p, _) => Panic p | (NoFuel, _) => NoFuel
    end%string.

Definition db_put (t : TorrentState) (db : DB) : res DB :=
  data ← Marshal (db_createSerializableTorrent t); bolt_Put bucket_torrents (HexString (t_InfoHash t)) data db.
Definition db_SaveTorrent (ctx : Context_) (torrent : option TorrentState) (dp : DatabasePersistence) : res () * DatabasePersistence :=
  match torrent with
  | None => (Err "torrent cannot be nil", dp)
  | Some t =>
      match Marshal (db_createSerializableTorrent t) with
      | Ok data => Update (fun db => with_bucket bucket_torrents db (bolt_Put bucket_torrents (HexString (t_InfoHash t)) data db)) dp
      | Err e => (Err ("failed to marshal torrent state: " ++ e), dp) | Panic p => (Panic p, dp) | NoFuel => (NoFuel, dp)
      end
  end%string.
Definition db_LoadTorrent (ctx : Context_) (infoHash : bytes) (dp : DatabasePersistence) : res TorrentState * DatabasePersistence :=
  (with_bucket bucket_torrents (dp_db dp)
     match bolt_Get bucket_torrents (HexString infoHash) (dp_db dp) with
     | Some (Some data) => t ← dec_torrent data; Ok (with_hash infoHash t)
     | _ => Err (not_found infoHash)
     end, dp).
Fixpoint db_save_all (torrents : list (option TorrentState)) (db : DB) : res DB :=
  match torrents with
  | [] => Ok db
  | None :: _ => Err "torrent cannot be nil"
  | Some t :: torrents' => db ← db_put t db; db_save_all torrents' db
  end.
Definition db_SaveAllTorrents (ctx : Context_) (torrents : list (option TorrentState)) (dp : DatabasePersistence) : res () * DatabasePersistence :=
  if decide (torrents = []) then (Ok (), dp) else Update (fun db => with_bucket bucket_torrents db (db_save_all torrents db)) dp.
Fixpoint db_load_all (l : list (bytes * json)) : res (list TorrentState) :=
  match l with
  | [] => Ok []
  | (k, v) :: l' =>
      match dec_torrent v with
      | Ok t => h ← NewHashFromString k; ts ← db_load_all l'; Ok (with_hash h t :: ts)
      | _ => db_load_all l'
      end
  end.
Definition db_LoadAllTorrents (ctx : Context_) (dp : DatabasePersistence) : res (list TorrentState) * DatabasePersistence :=
  (match bolt_ForEach bucket_torrents (dp_db dp) with None => Err "torrents bucket not found" | Some l => db_load_all l end, dp).
Definition db_DeleteTorrent (ctx : Context_) (infoHash : bytes) (dp : DatabasePersistence) : res () * DatabasePersistence :=
  Update (fun db => with_bucket bucket_torrents db
    match bolt_Get bucket_torrents (HexString infoHash) db with
    | Some (Some _) => bolt_Delete bucket_torrents (HexString infoHash) db
    | _ => Err (not_found infoHash)
    end) dp.
Definition db_SaveSessionConfig (ctx : Context_) (config : option SessionConfiguration) (dp : DatabasePersistence) : res () * DatabasePersistence :=
  match config with
  | None => (Err "session configuration cannot be nil", dp)
  | Some c =>
      match Marshal (session_json c) with
      | Ok data => Update (fun db => with_bucket bucket_session db (bolt_Put bucket_session (bs "config") data db)) dp
      | Err e => (Err ("failed to marshal session configuration: " ++ e), dp) | Panic p => (Panic p, dp) | NoFuel => (NoFuel, dp)
      end
  end%string.
Definition db_LoadSessionConfig (ctx : Context_) (dp : DatabasePersistence) : res SessionConfiguration * DatabasePersistence :=
  (with_bucket bucket_session (dp_db dp)
     match bolt_Get bucket_session (bs "config") (dp_db dp) with Some (Some data) => dec_session data | _ => Err no_session end, dp).

#[global] Instance database_persistence : TorrentPersistence DatabasePersistence := {|
  SaveTorrent := db_SaveTorrent; LoadTorrent := db_LoadTorrent; SaveAllTorrents := db_SaveAllTorrents; LoadAllTorrents := db_LoadAllTorrents;
  DeleteTorrent := db_DeleteTorrent; SaveSessionConfig := db_SaveSessionConfig; LoadSessionConfig := db_LoadSessionConfig;
  Close := fun dp => (bolt_Close (dp_db dp), dp) |}.
End Database.

End Persistence.
