(* ===== verification/PersistenceFacts.v ===== *)
(** * The stores: what comes back

    Numbers and documents survive the JSON files within bounds; the store in
    memory and the files answer alike; a fault never leaves half a document;
    the database never gives a torrent back. *)

From Stdlib Require Import SpecFloat.
From S2P Require Import Prelude Strconv BencodeFacts Hash Metainfo TorrentFile Bandwidth RpcTypes QueueManager Blocklist PexManager WebSeed FileManager TorrentManager.
From S2P Require Import RpcMessages Json Persistence.
Import Hash RpcTypes Bandwidth Json Persistence.

Module PersistenceFacts.

(** ** Integers as floats *)
Lemma digits_pos_bound p : 2 ^ (Z.pos (digits2_pos p) - 1) <= Z.pos p < 2 ^ Z.pos (digits2_pos p).
Proof.
  induction p as [p IH|p IH|]; cbn [digits2_pos]; [| |done].
  - rewrite Pos2Z.inj_succ. replace (Z.succ (Z.pos (digits2_pos p)) - 1) with (Z.succ (Z.pos (digits2_pos p) - 1)) by lia.
    rewrite !Z.pow_succ_r by lia. lia.
  - rewrite Pos2Z.inj_succ. replace (Z.succ (Z.pos (digits2_pos p)) - 1) with (Z.succ (Z.pos (digits2_pos p) - 1)) by lia.
    rewrite !Z.pow_succ_r by lia. lia.
Qed.
Lemma digits_small p n : 0 < n -> Z.pos p < 2 ^ n -> Z.pos (digits2_pos p) <= n.
Proof.
  intros Hn Hp. destruct (digits_pos_bound p) as [Hl _]. destruct (decide (Z.pos (digits2_pos p) <= n)); [done|].
  assert (2 ^ n <= 2 ^ (Z.pos (digits2_pos p) - 1)) by (apply Z.pow_le_mono_r; lia). lia.
Qed.
Lemma shift_digits k p : Z.pos (digits2_pos (shift_pos k p)) = Z.pos (digits2_pos p) + Z.pos k.
Proof.
  unfold shift_pos. revert p. induction k as [|k IH] using Pos.peano_ind; intros p; [cbn; lia|]. rewrite Pos.iter_succ. cbn [digits2_pos]. rewrite !Pos2Z.inj_succ, IH. lia.
Qed.
Lemma shift_value k p : Z.pos (shift_pos k p) = Z.pos p * 2 ^ Z.pos k.
Proof. rewrite shift_pos_correct. apply Z.mul_comm. Qed.

Lemma shr_nothing m e : shr_fexp 53 1024 (Z.pos m) e loc_Exact = (shr_record_of_loc (Z.pos m) loc_Exact, e) \/ fexp 53 1024 (Z.pos (digits2_pos m) + e) > e.
Proof. unfold shr_fexp. cbn [Zdigits2]. destruct (fexp 53 1024 (Z.pos (digits2_pos m) + e) - e) eqn:E; [by left| |by left]. right. lia. Qed.
Lemma round_aux_exact s m e :
  Z.pos (digits2_pos m) = 53 -> -1074 <= e <= 971 -> binary_round_aux 53 1024 s (Z.pos m) e loc_Exact = S754_finite s m e.
Proof.
  intros Hd He. assert (Hf : fexp 53 1024 (Z.pos (digits2_pos m) + e) = e) by (rewrite Hd; unfold fexp, emin; lia).
  unfold binary_round_aux. destruct (shr_nothing m e) as [E|E]; [|lia]. rewrite E. cbn [shr_record_of_loc shr_m loc_of_shr_record round_nearest_even].
  rewrite E. cbn [shr_record_of_loc shr_m]. rewrite (proj2 (Z.leb_le e (1024 - 53))) by lia. done.
Qed.

(** A number below 2^53 is kept by a [float64]. *)
Lemma float_of_pos s p : Z.pos p < 2 ^ 53 ->
  exists m e, binary_round 53 1024 s p 0 = S754_finite s m e /\ e <= 0 /\ Z.pos m = Z.pos p * 2 ^ (- e).
Proof.
  intros Hp. pose proof (digits_small p 53 ltac:(lia) Hp) as Hd. set (d := Z.pos (digits2_pos p)) in *.
  assert (Hd1 : 0 < d) by (unfold d; lia).
  unfold binary_round, shl_align. fold d. change (Pos.iter xO p) with (fun k => shift_pos k p). replace (fexp 53 1024 (d + 0) - 0) with (d - 53) by (unfold fexp, emin; lia).
  cbv beta. destruct (d - 53) as [|k|k] eqn:Ek; [| lia |].
  - exists p, 0. rewrite round_aux_exact; [|unfold d in *; lia|lia]. split; [done|]. split; lia.
  - exists (shift_pos k p), (Z.neg k). replace (fexp 53 1024 (d + 0)) with (Z.neg k) by (unfold fexp, emin; lia).
    rewrite round_aux_exact; [|rewrite shift_digits; fold d; lia|lia]. split; [done|]. split; [lia|]. by rewrite shift_value.
Qed.
Lemma trunc_exact m e p : e <= 0 -> Z.pos m = Z.pos p * 2 ^ (- e) ->
  (if decide (0 <= e) then Z.pos m * 2 ^ e else Z.pos m / 2 ^ (- e)) = Z.pos p /\ (0 <= e \/ Z.pos m mod 2 ^ (- e) = 0).
Proof.
  intros He Hm. destruct (decide (0 <= e)) as [H|H].
  - assert (e = 0) as -> by lia. rewrite Hm. cbn. lia.
  - rewrite Hm. assert (0 < 2 ^ (- e)) by (apply Z.pow_pos_nonneg; lia). split; [by apply Z.div_mul; lia|]. right. by apply Z.mod_mul; lia.
Qed.
Lemma rounded_exact z : 0 <= z < 2 ^ 53 -> rounded z = z.
Proof.
  intros Hz. unfold rounded, f_of_int, binary_normalize. destruct z as [|p|p]; [done| |lia].
  destruct (float_of_pos false p) as (m & e & -> & He & Hm); [lia|]. cbn [f_trunc default]. by destruct (trunc_exact m e p He Hm) as [-> _].
Qed.

(** A number below 10^15 is printed as it was. *)
Lemma shortest_exact k v : (k <= 20)%nat -> 0 < v < 10 ^ 15 -> shortest k v = v.
Proof.
  intros Hk Hv. induction k as [|k IH]; cbn [shortest].
  - rewrite Z.div_1_r, Z.mul_1_r, rounded_exact, bool_decide_true by lia. cbn [andb].
    rewrite rounded_exact by lia. rewrite bool_decide_false by lia. done.
  - set (p := 10 ^ Z.of_nat (S k)). assert (Hp : 0 < p) by (apply Z.pow_pos_nonneg; lia). pose proof (Z.div_mod v p ltac:(lia)) as Hdm.
    pose proof (Z.mod_pos_bound v p Hp). assert (Hq : 0 <= v / p) by (apply Z.div_pos; lia). set (lo := v / p * p). assert (Hlo : 0 <= lo <= v) by (unfold lo; nia).
    rewrite (rounded_exact lo) by lia. assert (Hhi : rounded (lo + p) <> v).
    { destruct (decide (S k <= 14)%nat) as [H14|H14].
      - assert (lo + p <= 10 ^ 15). { assert (Hq15 : 10 ^ 15 = 10 ^ (15 - Z.of_nat (S k)) * p) by (unfold p; rewrite <- Z.pow_add_r by lia; f_equal; lia). set (q := 10 ^ (15 - Z.of_nat (S k))) in *. unfold lo. assert (v / p < q) by (apply Z.div_lt_upper_bound; lia). nia. }
        rewrite rounded_exact by lia. lia.
      - assert (lo = 0) as ->. { unfold lo. rewrite Z.div_small; [done|]. assert (10 ^ 15 <= p) by (unfold p; apply Z.pow_le_mono_r; lia). lia. }
        assert (Hbig : 10 ^ 15 <= rounded (0 + p)); [|lia]. unfold p.
        assert (S k ∈ [15; 16; 17; 18; 19; 20]%nat) as Hin by (assert (15 <= S k <= 20)%nat as Hr by lia; clear -Hr; do 21 (destruct k as [|k]; [set_solver || lia|]); lia).
        revert Hin. generalize (S k). intros n Hin. repeat (apply elem_of_cons in Hin as [->|Hin]; [vm_compute; discriminate|]). by apply elem_of_nil in Hin. }
    rewrite (bool_decide_false (rounded (lo + p) = v)) by done. cbn [negb orb]. rewrite andb_true_r. case_bool_decide as E; [done|]. apply IH. lia.
Qed.
Lemma printed_exact z : - 10 ^ 15 < z < 10 ^ 15 -> printed_int (f_of_int z) = Some z.
Proof.
  intros Hz. unfold f_of_int, binary_normalize. destruct z as [|p|p]; [done| |].
  - destruct (float_of_pos false p) as (m & e & -> & He & Hm); [lia|]. cbn [printed_int]. destruct (trunc_exact m e p He Hm) as [-> Hi].
    rewrite decide_True by (split; [done|lia]). rewrite shortest_exact by lia. done.
  - destruct (float_of_pos true p) as (m & e & -> & He & Hm); [lia|]. cbn [printed_int]. destruct (trunc_exact m e p He Hm) as [-> Hi].
    rewrite decide_True by (split; [done|lia]). rewrite shortest_exact by lia. done.
Qed.
Lemma float_of_int_finite z : - 10 ^ 15 < z < 10 ^ 15 -> is_finite (f_of_int z) = true.
Proof.
  intros Hz. unfold f_of_int, binary_normalize. destruct z as [|p|p]; [done| |].
  - by destruct (float_of_pos false p) as (m & e & -> & _); [lia|].
  - by destruct (float_of_pos true p) as (m & e & -> & _); [lia|].
Qed.

(** ** Documents *)
Definition marshals (v : json) : Prop := Marshal v = Ok v.

Lemma marshal_array l : Forall marshals l -> marshals (JArray l).
Proof.
  intros Hl. unfold marshals. cbn. match goal with |- context [?go l] => assert (E : go l = Ok l) end; [|by rewrite E].
  induction Hl as [|v l Hv Hl IH]; [done|]. rewrite Hv. cbn. by rewrite IH.
Qed.
Lemma marshal_object o : Forall (fun kv => valid_text kv.1 /\ marshals kv.2) o -> marshals (JObject o).
Proof.
  intros Ho. unfold marshals. cbn. match goal with |- context [?go o] => assert (E : go o = Ok o) end; [|by rewrite E].
  induction Ho as [|[k v] o [Hk Hv] Ho IH]; [done|]. cbn in Hk, Hv. rewrite Hv. cbn. rewrite IH. cbn. by rewrite Hk.
Qed.
Lemma ascii_valid s : Forall (fun c => 0 <= c < 128) s -> valid_text s.
Proof.
  induction 1 as [|c s Hc Hs IH]; [done|]. unfold valid_text in *. cbn [to_valid rune_length]. unfold between. rewrite bool_decide_true by lia. cbn. by rewrite IH.
Qed.
Lemma hex_valid h : bytes_ok h -> valid_text (HexString h).
Proof.
  intros Hh. apply ascii_valid. unfold HexString. apply Forall_concat, Forall_map. apply (Forall_impl _ _ _ Hh). intros b Hb. unfold is_byte in Hb.
  assert (0 <= b / 16 < 16) by (split; [apply Z.div_pos; lia|apply Z.div_lt_upper_bound; lia]). pose proof (Z.mod_pos_bound b 16 ltac:(lia)).
  repeat apply Forall_cons_2; [| |done]; unfold hex_digit; case_decide; lia.
Qed.

Definition small (z : Z) : Prop := - 10 ^ 15 < z < 10 ^ 15.
#[global] Instance small_dec z : Decision (small z).
Proof. unfold small. apply _. Defined.

(** What a document of strings, small numbers, finite floats and times of four
    digit years loses in a map of [interface{}]: its integers are floats. *)
Inductive plain : json -> Prop :=
  | plain_bool b : plain (JBool b)
  | plain_int z : small z -> plain (JInt z)
  | plain_float f : is_finite f = true -> plain (JFloat f)
  | plain_string t : valid_text t -> plain (JString t)
  | plain_time t : year_ok t = true -> plain (JTime t)
  | plain_array l : Forall plain l -> plain (JArray l)
  | plain_object o : Forall (fun kv => valid_text kv.1 /\ plain kv.2) o -> plain (JObject o).

Fixpoint plain_marshals v (H : plain v) {struct H} : marshals v.
Proof.
  destruct H as [b|z Hz|f Hf|t Ht|t Ht|l Hl|o Ho]; try done.
  - unfold marshals. cbn. by rewrite Hf.
  - unfold marshals. cbn. by rewrite Ht.
  - unfold marshals. cbn. by rewrite Ht.
  - apply marshal_array. induction Hl; constructor; [by apply plain_marshals|done].
  - apply marshal_object. induction Ho as [|kv o [Hk Hv] Ho IH]; constructor; [split; [done|by apply plain_marshals]|done].
Qed.
Fixpoint plain_interface v (H : plain v) {struct H} : plain (to_interface v).
Proof.
  destruct H as [b|z Hz|f Hf|t Ht|t Ht|l Hl|o Ho]; cbn; try (by constructor).
  - apply plain_float. by apply float_of_int_finite.
  - apply plain_array. induction Hl; cbn; constructor; [by apply plain_interface|done].
  - apply plain_object. induction Ho as [|kv o [Hk Hv] Ho IH]; cbn; constructor; [split; [done|by apply plain_interface]|done].
Qed.

(** ** Torrents in files *)
Definition file_ok (f : FileInfo) : Prop := valid_text (fi_Name f) /\ small (fi_Length f) /\ small (fi_BytesCompleted f) /\ small (fi_Priority f).
Record storable (t : TorrentState) : Prop := {
  so_hash : hash_ok (t_InfoHash t);
  so_texts : valid_text (t_DownloadDir t) /\ Forall valid_text (t_Labels t) /\ Forall valid_text (t_TrackerList t);
  so_ints : Forall small [t_ID t; t_Status t; t_Downloaded t; t_Uploaded t; t_Left t; t_PieceCount t; t_PiecesComplete t; t_PiecesAvailable t; t_SeedIdleLimit t];
  so_floats : is_finite (t_PercentDone t) = true /\ is_finite (t_SeedRatioLimit t) = true;
  so_times : year_ok (Some (t_AddedDate t)) = true /\ year_ok (t_StartDate t) = true;
  so_files : Forall file_ok (t_Files t) /\ Forall small (t_Priorities t)
}.

(** What comes back of a torrent: not its error, its rates, its peers and what
    is not exported; the metainfo is that of its file. *)
Definition restored (mi : option TorrentFile.MetaInfo) (t : TorrentState) : TorrentState :=
  MkTorrent (t_ID t) (t_InfoHash t) mi (t_Status t) None (t_DownloadDir t) (t_AddedDate t) (t_StartDate t) (t_Labels t) (t_Downloaded t) (t_Uploaded t)
    (t_Left t) (t_PercentDone t) (t_PieceCount t) (t_PiecesComplete t) (t_PiecesAvailable t) 0 0 0 0 0 0 0 None 0 0 false (t_Files t) (t_Priorities t)
    (t_Wanted t) (t_TrackerList t) [] (t_SeedRatioLimit t) (t_SeedIdleLimit t) (t_HonorsSessionLimits t).

Lemma file_plain f : file_ok f -> plain (file_json f).
Proof.
  intros (H1 & H2 & H3 & H4). apply plain_object. repeat apply Forall_cons_2; try apply Forall_nil_2; (split; [apply (bool_decide_unpack _); vm_compute; exact I|]);
    constructor; done.
Qed.
Lemma torrent_plain t : storable t -> plain (file_createSerializableTorrent t).
Proof.
  intros [Hh (T1 & T2 & T3) Hi (F1 & F2) (D1 & D2) (L1 & L2)]. rewrite !Forall_cons in Hi. destruct Hi as (I1 & I2 & I3 & I4 & I5 & I6 & I7 & I8 & I9 & _).
  assert (Hs : forall l, Forall valid_text l -> plain (strings_json l)) by (intros l Hl; apply plain_array, Forall_map; apply (Forall_impl _ _ _ Hl); by constructor).
  apply plain_object. unfold ints_json.
  repeat apply Forall_cons_2; try apply Forall_nil_2; (split; [apply (bool_decide_unpack _); vm_compute; exact I|]); cbn [snd];
    try (constructor; done); try (by apply Hs).
  - constructor. apply hex_valid, Hh.
  - apply plain_array, Forall_map. apply (Forall_impl _ _ _ L1). apply file_plain.
  - apply plain_array, Forall_map. apply (Forall_impl _ _ _ L2). by constructor.
  - apply plain_array, Forall_map, Forall_true. by constructor.
Qed.

Lemma field_here {A} (dec : json -> res A) k v o : field dec k ((bs k, v) :: o) = dec v.
Proof. unfold field. cbn [member]. by rewrite decide_True. Qed.
Lemma field_next {A} (dec : json -> res A) k k' v o : bool_decide (bs k = bs k') = false -> field dec k ((bs k', v) :: o) = field dec k o.
Proof. intros Hk%bool_decide_eq_false. unfold field. cbn [member]. by rewrite decide_False. Qed.
Lemma field_nil {A} (dec : json -> res A) k : field dec k [] = dec JNull.
Proof. done. Qed.

Lemma dec_small z : small z -> dec_int (JFloat (f_of_int z)) = Ok z.
Proof. intros Hz. unfold dec_int. rewrite printed_exact by done. unfold small, max_int64 in *. rewrite decide_True by lia. done. Qed.
Lemma dec_all_map {A} (dec : json -> res A) (f : A -> json) (l : list A) : Forall (fun x => dec (f x) = Ok x) l -> dec_all dec (map f l) = Ok l.
Proof. induction 1 as [|x l Hx Hl IH]; [done|]. cbn. rewrite Hx. cbn. by rewrite IH. Qed.
Lemma dec_strings l : dec_list dec_string (JArray (map JString l)) = Ok l.
Proof. cbn. apply dec_all_map. by apply Forall_true. Qed.
Lemma dec_bools l : dec_list dec_bool (JArray (map JBool l)) = Ok l.
Proof. cbn. apply dec_all_map. by apply Forall_true. Qed.
Lemma dec_smalls l : Forall small l -> dec_list dec_int (JArray (map (fun z => JFloat (f_of_int z)) l)) = Ok l.
Proof. intros Hl. cbn [dec_list]. apply dec_all_map. apply (Forall_impl _ _ _ Hl). apply dec_small. Qed.

(** Reading the fields of a document, one after the other. *)
Ltac read_field lems :=
  (repeat rewrite field_next by (vm_compute; reflexivity));
  first [rewrite field_here | rewrite field_nil];
  first [lems | idtac]; cbn [mbind res_bind dec_int dec_string dec_bool dec_time dec_float dec_list dec_hash].

Definition file_interface (f : FileInfo) : json := JObject
  [(bs "name", JString (fi_Name f)); (bs "length", JFloat (f_of_int (fi_Length f))); (bs "bytes_completed", JFloat (f_of_int (fi_BytesCompleted f)));
   (bs "priority", JFloat (f_of_int (fi_Priority f))); (bs "wanted", JBool (fi_Wanted f))].
Lemma dec_file_interface f : file_ok f -> dec_file (file_interface f) = Ok f.
Proof.
  intros (_ & H2 & H3 & H4). unfold dec_file, file_interface. repeat (read_field ltac:(rewrite dec_small by done)). by destruct f.
Qed.
Lemma dec_files l : Forall file_ok l -> dec_list dec_file (JArray (map file_interface l)) = Ok l.
Proof. intros Hl. cbn [dec_list]. apply dec_all_map. apply (Forall_impl _ _ _ Hl). apply dec_file_interface. Qed.

Definition torrent_interface (t : TorrentState) : list (bytes * json) := [
  (bs "id", JFloat (f_of_int (t_ID t))); (bs "status", JFloat (f_of_int (t_Status t)));
  (bs "download_dir", JString (t_DownloadDir t)); (bs "added_date", JTime (Some (t_AddedDate t))); (bs "start_date", JTime (t_StartDate t));
  (bs "labels", JArray (map JString (t_Labels t))); (bs "downloaded", JFloat (f_of_int (t_Downloaded t)));
  (bs "uploaded", JFloat (f_of_int (t_Uploaded t))); (bs "left", JFloat (f_of_int (t_Left t))); (bs "percent_done", JFloat (t_PercentDone t));
  (bs "piece_count", JFloat (f_of_int (t_PieceCount t))); (bs "pieces_complete", JFloat (f_of_int (t_PiecesComplete t)));
  (bs "pieces_available", JFloat (f_of_int (t_PiecesAvailable t))); (bs "files", JArray (map file_interface (t_Files t)));
  (bs "priorities", JArray (map (fun z => JFloat (f_of_int z)) (t_Priorities t))); (bs "wanted", JArray (map JBool (t_Wanted t)));
  (bs "tracker_list", JArray (map JString (t_TrackerList t))); (bs "seed_ratio_limit", JFloat (t_SeedRatioLimit t));
  (bs "seed_idle_limit", JFloat (f_of_int (t_SeedIdleLimit t))); (bs "honors_session_limits", JBool (t_HonorsSessionLimits t))].

(** Looking up the members of an object with known keys. *)
Ltac read_members := repeat match goal with |- context [member ?k ?o] => let r := eval vm_compute in (member k o) in change (member k o) with r end; cbn [default].
Lemma interface_map {A} (f g : A -> json) (l : list A) : (forall x, to_interface (f x) = g x) -> map to_interface (map f l) = map g l.
Proof. intros H. rewrite map_map. by apply map_ext. Qed.
Lemma interface_torrent t : exists o, to_interface (file_createSerializableTorrent t) = JObject o /\ normalizeInfoHashField o = torrent_interface t.
Proof.
  eexists. unfold file_createSerializableTorrent, strings_json, ints_json. cbn [to_interface map fst snd]. split; [reflexivity|].
  rewrite !(interface_map JString JString), (interface_map JInt (fun z => JFloat (f_of_int z))), (interface_map JBool JBool), (interface_map file_json file_interface)
    by reflexivity. reflexivity.
Qed.
Lemma dec_torrent_fields v1 v2 v3 v4 v5 v6 v7 v8 v9 v10 v11 v12 v13 v14 v15 v16 v17 v18 v19 v20 :
  dec_torrent (JObject [
    (bs "id", v1); (bs "status", v2); (bs "download_dir", v3); (bs "added_date", v4); (bs "start_date", v5); (bs "labels", v6); (bs "downloaded", v7);
    (bs "uploaded", v8); (bs "left", v9); (bs "percent_done", v10); (bs "piece_count", v11); (bs "pieces_complete", v12); (bs "pieces_available",
    v13); (bs "files", v14); (bs "priorities", v15); (bs "wanted", v16); (bs "tracker_list", v17); (bs "seed_ratio_limit", v18); (bs
    "seed_idle_limit", v19); (bs "honors_session_limits", v20)]) =
  (
    id ← dec_int v1; status ← dec_int v2; dir ← dec_string v3; added ← dec_time v4; start ← dec_time v5; labels ← (dec_list dec_string) v6; downloaded
    ← dec_int v7; uploaded ← dec_int v8; left_ ← dec_int v9; percent ← dec_float v10; count ← dec_int v11; complete ← dec_int v12; available ← dec_int
    v13; files ← (dec_list dec_file) v14; priorities ← (dec_list dec_int) v15; wanted ← (dec_list dec_bool) v16; trackers ← (dec_list dec_string) v17;
    ratio ← dec_float v18; idle ← dec_int v19; honors ← dec_bool v20;
    Ok (MkTorrent id zeroHash None status None dir (default zero_time added) start labels downloaded uploaded left_ percent count complete available 0
    0 0 0 0 0 0 None 0 0 false files priorities wanted trackers [] ratio idle honors)).
Proof. unfold dec_torrent, field. read_members. reflexivity. Qed.
Lemma interface_plain t : storable t -> plain (JObject (torrent_interface t)).
Proof.
  intros Ht. pose proof (plain_interface _ (torrent_plain t Ht)) as Hp. destruct (interface_torrent t) as (o & E & <-). rewrite E in Hp.
  inversion Hp as [| | | | | |o' Ho]; subst. apply plain_object. unfold normalizeInfoHashField. repeat case_match; try done. rewrite Forall_forall in *. intros kv [_ Hin]%list_elem_of_filter. by apply Ho.
Qed.
Lemma deserialize_saved t : storable t -> deserializeTorrentState (CJson (file_createSerializableTorrent t)) = Ok (with_hash zeroHash (restored None t)).
Proof.
  intros Ht. unfold deserializeTorrentState. destruct (interface_torrent t) as (o & -> & ->). unfold unmarshalTorrentState.
  rewrite (plain_marshals _ (interface_plain t Ht)). cbn [mbind res_bind].
  destruct Ht as [Hh _ Hi _ _ (L1 & L2)]. rewrite !Forall_cons in Hi. destruct Hi as (I1 & I2 & I3 & I4 & I5 & I6 & I7 & I8 & I9 & _).
  unfold torrent_interface. rewrite dec_torrent_fields.
  repeat (first [rewrite dec_small by done | rewrite dec_strings | rewrite dec_bools | rewrite dec_smalls by done | rewrite dec_files by done | progress cbn [dec_string dec_bool dec_time dec_float]];
    cbn [mbind res_bind]). done.
Qed.

(** ** The session *)
Record session_ok (c : SessionConfiguration) : Prop := {
  se_texts : Forall valid_text [s_DownloadDir c; s_IncompleteDir c; s_Encryption c; s_Version c; s_BlocklistURL c; s_ScriptTorrentDoneFilename c];
  se_ints : Forall (fun z => - max_int64 - 1 <= z <= max_int64) [s_PeerPort c; s_PeerLimitGlobal c; s_PeerLimitPerTorrent c; s_SpeedLimitDown c; s_SpeedLimitUp c;
    s_AltSpeedDown c; s_AltSpeedUp c; s_DownloadQueueSize c; s_SeedQueueSize c; s_IdleSeedingLimit c; s_CacheSizeMB c; s_BlocklistSize c];
  se_float : is_finite (s_SeedRatioLimit c) = true
}.
Lemma marshal_float f : is_finite f = true -> marshals (JFloat f).
Proof. intros H. unfold marshals. cbn. by rewrite H. Qed.
Lemma marshal_string t : valid_text t -> marshals (JString t).
Proof. intros H. unfold marshals. cbn. by rewrite H. Qed.
Lemma session_marshals c : session_ok c -> marshals (session_json c).
Proof.
  intros [Ht _ Hf]. rewrite !Forall_cons in Ht. destruct Ht as (T1 & T2 & T3 & T4 & T5 & T6 & _). apply marshal_object.
  repeat apply Forall_cons_2; try apply Forall_nil_2; (split; [apply (bool_decide_unpack _); vm_compute; exact I|]); cbn [snd];
    first [by apply marshal_string|by apply marshal_float|reflexivity].
Qed.
(** The fields of a document, each decoded on its own. *)
Lemma dec_session_fields v1 v2 v3 v4 v5 v6 v7 v8 v9 v10 v11 v12 v13 v14 v15 v16 v17 v18 v19 v20 v21 v22 v23 v24 v25 v26 v27 v28 v29 v30 v31 v32 v33 v34 v35 :
  dec_session (JObject [
    (bs "download_dir", v1); (bs "incomplete_dir", v2); (bs "incomplete_dir_enabled", v3); (bs "peer_port", v4); (bs "peer_limit_global", v5); (bs
    "peer_limit_per_torrent", v6); (bs "dht_enabled", v7); (bs "pex_enabled", v8); (bs "lpd_enabled", v9); (bs "utp_enabled", v10); (bs
    "webseeds_enabled", v11); (bs "encryption", v12); (bs "speed_limit_down", v13); (bs "speed_limit_down_enabled", v14); (bs "speed_limit_up", v15);
    (bs "speed_limit_up_enabled", v16); (bs "alt_speed_down", v17); (bs "alt_speed_up", v18); (bs "alt_speed_enabled", v19); (bs
    "download_queue_enabled", v20); (bs "download_queue_size", v21); (bs "seed_queue_enabled", v22); (bs "seed_queue_size", v23); (bs
    "seed_ratio_limit", v24); (bs "seed_ratio_limited", v25); (bs "idle_seeding_limit", v26); (bs "idle_seeding_limit_enabled", v27); (bs
    "start_added_torrents", v28); (bs "cache_size_mb", v29); (bs "version", v30); (bs "blocklist_enabled", v31); (bs "blocklist_url", v32); (bs
    "blocklist_size", v33); (bs "script_torrent_done_enabled", v34); (bs "script_torrent_done_filename", v35)]) =
  (
    dir ← dec_string v1; inc ← dec_string v2; ince ← dec_bool v3; port ← dec_int v4; plg ← dec_int v5; plt ← dec_int v6; dht ← dec_bool v7; pex ←
    dec_bool v8; lpd ← dec_bool v9; utp ← dec_bool v10; seeds ← dec_bool v11; enc ← dec_string v12; sd ← dec_int v13; sde ← dec_bool v14; su ← dec_int
    v15; sue ← dec_bool v16; ad ← dec_int v17; au ← dec_int v18; ae ← dec_bool v19; dqe ← dec_bool v20; dqs ← dec_int v21; sqe ← dec_bool v22; sqs ←
    dec_int v23; ratio ← dec_float v24; limited ← dec_bool v25; idle ← dec_int v26; idlee ← dec_bool v27; start ← dec_bool v28; cache ← dec_int v29;
    version ← dec_string v30; ble ← dec_bool v31; blu ← dec_string v32; bls ← dec_int v33; done_ ← dec_bool v34; donef ← dec_string v35;
    Ok (MkSession dir inc ince port plg plt dht pex lpd utp seeds enc sd sde su sue ad au ae dqe dqs sqe sqs ratio limited idle idlee start cache
    version ble blu bls done_ donef)).
Proof. unfold dec_session, field. read_members. reflexivity. Qed.
Lemma dec_range z : - max_int64 - 1 <= z <= max_int64 -> dec_int (JInt z) = Ok z.
Proof. intros Hz. unfold dec_int. by rewrite decide_True. Qed.
Lemma session_reads_back c : session_ok c -> dec_session (session_json c) = Ok c.
Proof.
  intros [_ Hi _]. rewrite !Forall_cons in Hi. destruct Hi as (I1 & I2 & I3 & I4 & I5 & I6 & I7 & I8 & I9 & I10 & I11 & I12 & _).
  unfold session_json. rewrite dec_session_fields. rewrite !dec_range by done. by destruct c.
Qed.

(** ** Paths *)
Lemma hex_inj h h' : hash_ok h -> hash_ok h' -> HexString h = HexString h' -> h = h'.
Proof. intros [_ H] [_ H'] E. apply (f_equal hexDecode) in E. rewrite !hexDecode_HexString in E by done. congruence. Qed.
Lemma torrent_path_inj h h' : hash_ok h -> hash_ok h' -> getTorrentFilePath h = getTorrentFilePath h' -> h = h'.
Proof. intros H H' [= E%app_inv_tail]. by apply hex_inj. Qed.
Lemma meta_path_inj h h' : hash_ok h -> hash_ok h' -> getMetaInfoFilePath h = getMetaInfoFilePath h' -> h = h'.
Proof. intros H H' [= E%app_inv_tail]. by apply hex_inj. Qed.
Lemma suffix_differs (a b x y : bytes) c d : c <> d -> a ++ (x ++ [c]) <> b ++ (y ++ [d]).
Proof. intros Hn E. rewrite !app_assoc in E. apply app_inj_tail in E as [_ ?]. done. Qed.
Lemma tmp_not_torrent p h : tmp p <> getTorrentFilePath h.
Proof. intros E. apply (f_equal snd) in E. exact (suffix_differs _ _ (bs ".tm") (bs ".jso") 112 110 ltac:(done) E). Qed.
Lemma tmp_not_session p : tmp p <> sessionFile.
Proof. intros E. apply (f_equal snd) in E. exact (suffix_differs _ [] (bs ".tm") (bs "session.jso") 112 110 ltac:(done) E). Qed.

(** ** Faults *)

(** A document written by way of a temporary file is there as a whole, or what
    was there before still is; all else but the temporary file is untouched. *)
Lemma atomic_write p v fp written fp' :
  tmp p <> p -> write_atomically p v fp = (written, fp') ->
  (forall q, q <> p -> q <> tmp p -> fp_files fp' !! q = fp_files fp !! q) /\
  fp_files fp' !! p = (if written : bool then Some (CJson v) else fp_files fp !! p).
Proof.
  intros Ht. unfold write_atomically, WriteFile, Rename, Remove, next_fault.
  assert (Hi : forall c (fs : gmap path content) q, q <> tmp p -> <[tmp p := c]> fs !! q = fs !! q) by (intros; by rewrite lookup_insert_ne).
  assert (Hd : forall (fs : gmap path content) q, q <> tmp p -> delete (tmp p) fs !! q = fs !! q) by (intros; by rewrite lookup_delete_ne).
  destruct (fp_faults fp) as [|[] l]; cbn [tail negb fp_faults fp_files];
    [| |intros [= <- <-]; by split|intros [= <- <-]; split; [intros q _ Hq; by apply Hi|by apply Hi]].
  - rewrite lookup_insert_eq. intros [= <- <-]. cbn. split; [|by rewrite lookup_insert_eq].
    intros q Hq Hq'. rewrite lookup_insert_ne, Hd, Hi by done. done.
  - destruct l as [|[] l]; cbn [tail fp_faults fp_files].
    1, 2: rewrite lookup_insert_eq; intros [= <- <-]; cbn; split; [|by rewrite lookup_insert_eq]; intros q Hq Hq'; by rewrite lookup_insert_ne, Hd, Hi by done.
    all: destruct l as [|[] l]; cbn [fp_files snd]; intros [= <- <-]; cbn; (split; [intros q Hq Hq'|]); by rewrite ?Hd, ?Hi by done.
Qed.
Lemma meta_saved h mi fp q : q <> getMetaInfoFilePath h -> fp_files (saveMetaInfo h mi fp) !! q = fp_files fp !! q.
Proof. intros Hq. unfold saveMetaInfo, WriteFile, next_fault. destruct (fp_faults fp) as [|[] l]; cbn; by rewrite ?lookup_insert_ne by done. Qed.

(** C26: whatever operations of the file system fail or stop half way, saving a
    torrent leaves the documents of all other torrents as they are; it reports
    success exactly if the new document is in place as a whole, and otherwise
    the old one is still there. *)
Theorem save_torrent_atomic t fp r fp' :
  file_SaveTorrent None (Some t) fp = (r, fp') ->
  (forall h, getTorrentFilePath h <> getTorrentFilePath (t_InfoHash t) -> fp_files fp' !! getTorrentFilePath h = fp_files fp !! getTorrentFilePath h) /\
  match r with
  | Ok _ => exists data, Marshal (file_createSerializableTorrent t) = Ok data /\ fp_files fp' !! getTorrentFilePath (t_InfoHash t) = Some (CJson data)
  | _ => fp_files fp' !! getTorrentFilePath (t_InfoHash t) = fp_files fp !! getTorrentFilePath (t_InfoHash t)
  end.
Proof.
  cbn [file_SaveTorrent canceled]. destruct (Marshal (file_createSerializableTorrent t)) as [data|e|e|]; [|intros [= <- <-]; by split..].
  destruct (write_atomically _ data fp) as [written fp1] eqn:Ew. apply atomic_write in Ew as [W1 W2]; [|apply tmp_not_torrent].
  assert (Hm : forall h, fp_files (match t_MetaInfo t with Some mi => saveMetaInfo (t_InfoHash t) mi fp1 | None => fp1 end) !! getTorrentFilePath h = fp_files fp1 !! getTorrentFilePath h).
  { intros h. destruct (t_MetaInfo t); [|done]. by apply meta_saved. }
  destruct written; intros [= <- <-].
  - split; [intros h Hh; rewrite Hm; apply W1; [done|]; intros E; symmetry in E; by apply tmp_not_torrent in E|].
    exists data. split; [done|]. by rewrite Hm.
  - split; [intros h Hh; apply W1; [done|]; intros E; symmetry in E; by apply tmp_not_torrent in E|]. done.
Qed.

(** ** Histories *)
Inductive op :=
  | OSave (t : TorrentState) | OSaveAll (ts : list TorrentState) | OLoad (h : bytes) | ODelete (h : bytes)
  | OSaveSession (c : SessionConfiguration) | OLoadSession.
Inductive answer := ADone (r : res ()) | ATorrent (r : res TorrentState) | ASession (r : res SessionConfiguration).

Definition perform {S} `{!TorrentPersistence S} (o : op) (s : S) : answer * S :=
  match o with
  | OSave t => let '(r, s) := SaveTorrent None (Some t) s in (ADone r, s)
  | OSaveAll ts => let '(r, s) := SaveAllTorrents None (map Some ts) s in (ADone r, s)
  | OLoad h => let '(r, s) := LoadTorrent None h s in (ATorrent r, s)
  | ODelete h => let '(r, s) := DeleteTorrent None h s in (ADone r, s)
  | OSaveSession c => let '(r, s) := SaveSessionConfig None (Some c) s in (ADone r, s)
  | OLoadSession => let '(r, s) := LoadSessionConfig None s in (ASession r, s)
  end.
Fixpoint run {S} `{!TorrentPersistence S} (ops : list op) (s : S) : list answer * S :=
  match ops with
  | [] => ([], s)
  | o :: ops' => let '(a, s) := perform o s in let '(l, s) := run ops' s in (a :: l, s)
  end.

(** A torrent with its metainfo, which a file gives back. *)
Definition complete (t : TorrentState) : Prop :=
  storable t /\ exists mi data, t_MetaInfo t = Some mi /\ TorrentFile.Write mi = Ok data /\ TorrentFile.Load data = Ok mi.
Definition good_op (o : op) : Prop :=
  match o with
  | OSave t => complete t
  | OSaveAll ts => Forall complete ts
  | OLoad h | ODelete h => hash_ok h
  | OSaveSession c => session_ok c
  | OLoadSession => True
  end.

(** The answers of the store in memory and of the files to one operation. *)
Definition agree (o : op) (a b : answer) : Prop :=
  match o with
  | OLoad h =>
      match a with
      | ATorrent (Ok t) => t_InfoHash t = h /\ b = ATorrent (Ok (restored (t_MetaInfo t) t))
      | _ => a = ATorrent (Err (not_found h)) /\ b = a
      end
  | ODelete h => (a = ADone (Ok ()) \/ a = ADone (Err (not_found h))) /\ b = ADone (Ok ())
  | _ => b = a
  end.

(** The documents of one torrent in the files. *)
Definition in_files (fs : gmap path content) (h : bytes) (t : option TorrentState) : Prop :=
  match t with
  | None => fs !! getTorrentFilePath h = None /\ fs !! getMetaInfoFilePath h = None
  | Some t => t_InfoHash t = h /\ storable t /\ fs !! getTorrentFilePath h = Some (CJson (file_createSerializableTorrent t)) /\
      exists mi data, t_MetaInfo t = Some mi /\ TorrentFile.Load data = Ok mi /\ fs !! getMetaInfoFilePath h = Some (CBytes data)
  end.
Definition session_in_files (fs : gmap path content) (c : option SessionConfiguration) : Prop :=
  match c with None => fs !! sessionFile = None | Some c => session_ok c /\ fs !! sessionFile = Some (CJson (session_json c)) end.

Lemma in_files_same fs fs' h t :
  fs' !! getTorrentFilePath h = fs !! getTorrentFilePath h -> fs' !! getMetaInfoFilePath h = fs !! getMetaInfoFilePath h -> in_files fs h t -> in_files fs' h t.
Proof. intros E1 E2. unfold in_files. by rewrite E1, E2. Qed.
Lemma copy_storable t : storable t -> storable (deepCopyTorrent t).
Proof. by intros []. Qed.
Lemma torrent_marshals t : storable t -> Marshal (file_createSerializableTorrent t) = Ok (file_createSerializableTorrent t).
Proof. intros Ht. by apply plain_marshals, torrent_plain. Qed.

Section Stores.
Context {B : Type} `{!TorrentPersistence B} `{!SetRange} (now : Z).
Abbreviation Memory := (MemoryPersistence (B := B)).

Record same (mp : Memory) (fp : FilePersistence) : Prop := {
  sa_faults : fp_faults fp = [];
  sa_torrents : forall h, hash_ok h -> in_files (fp_files fp) h (mp_torrents mp !! h);
  sa_session : session_in_files (fp_files fp) (mp_session mp)
}.

Lemma write_works p v fs : write_atomically p v (MkFiles fs []) = (true, MkFiles (<[p := CJson v]> (delete (tmp p) (<[tmp p := CJson v]> fs))) []).
Proof. unfold write_atomically, WriteFile, Rename, next_fault. cbn. by rewrite lookup_insert_eq. Qed.

(** Saving one torrent. *)
Lemma saved_files t fs : complete t ->
  exists fs', file_SaveTorrent None (Some t) (MkFiles fs []) = (Ok (), MkFiles fs' []) /\
    in_files fs' (t_InfoHash t) (Some (deepCopyTorrent t)) /\ fs' !! sessionFile = fs !! sessionFile /\
    forall h, hash_ok h -> h <> t_InfoHash t ->
      fs' !! getTorrentFilePath h = fs !! getTorrentFilePath h /\ fs' !! getMetaInfoFilePath h = fs !! getMetaInfoFilePath h.
Proof.
  intros [Ht (mi & data & Em & Ew & El)]. cbn [file_SaveTorrent canceled]. rewrite torrent_marshals, write_works, Em by done.
  unfold saveMetaInfo, WriteFile, next_fault. cbn [fp_faults fp_files tail snd]. rewrite Ew.
  set (p := getTorrentFilePath (t_InfoHash t)). set (q := getMetaInfoFilePath (t_InfoHash t)).
  assert (Hpq : p <> q) by done. pose proof (so_hash t Ht) as Hok.
  assert (Hother : forall (x : path), x <> q -> x <> p -> x <> tmp p ->
    <[q := CBytes data]> (<[p := CJson (file_createSerializableTorrent t)]> (delete (tmp p) (<[tmp p := CJson (file_createSerializableTorrent t)]> fs))) !! x = fs !! x).
  { intros x H1 H2 H3. by rewrite lookup_insert_ne, lookup_insert_ne, lookup_delete_ne, lookup_insert_ne by done. }
  eexists. split; [done|]. split; [split; [done|]; split; [by apply copy_storable|]; split|split].
  - rewrite lookup_insert_ne by done. by rewrite lookup_insert_eq.
  - exists mi, data. split; [done|]. split; [done|]. by rewrite lookup_insert_eq.
  - apply Hother; [done|done|]. intros E. symmetry in E. by apply tmp_not_session in E.
  - intros h Hh Hn. split; apply Hother; try done.
    + intros E. by apply torrent_path_inj in E.
    + intros E. symmetry in E. by apply tmp_not_torrent in E.
    + intros E. by apply meta_path_inj in E.
Qed.
Lemma save_same t mp fp : same mp fp -> complete t ->
  exists fp', file_SaveTorrent None (Some t) fp = (Ok (), fp') /\ same (mem_SaveTorrent None (Some t) mp).2 fp'.
Proof.
  intros [Hf Ht Hs] Hc. destruct fp as [fs l]. cbn in Hf, Ht, Hs. subst l. destruct (saved_files t fs Hc) as (fs' & E & Hnew & Hsession & Hold). exists (MkFiles fs' []). split; [done|].
  split; cbn; [done| |unfold session_in_files in *; by rewrite Hsession]. intros h Hh. unfold put. destruct (decide (t_InfoHash t = h)) as [<-|Hn].
  - by rewrite lookup_insert_eq.
  - rewrite lookup_insert_ne by done. destruct (Hold h Hh) as [E1 E2]; [congruence|]. exact (in_files_same fs fs' h _ E1 E2 (Ht h Hh)).
Qed.

(** *** Saving several at once *)

(** With no faults the temporary files are written one after the other, and the
    metainfo with them. *)
Fixpoint prepared (ts : list TorrentState) (fs : gmap path content) : gmap path content :=
  match ts with
  | [] => fs
  | t :: ts' =>
      prepared ts' (<[getMetaInfoFilePath (t_InfoHash t) := CBytes (match t_MetaInfo t with Some mi => match TorrentFile.Write mi with Ok d => d | _ => [] end | None => [] end)]>
        (<[tmp (getTorrentFilePath (t_InfoHash t)) := CJson (file_createSerializableTorrent t)]> fs))
  end.
Definition prepared_paths (ts : list TorrentState) (m : gmap bytes path) : gmap bytes path :=
  foldl (fun m t => <[(getTorrentFilePath (t_InfoHash t)).2 := getTorrentFilePath (t_InfoHash t)]> m) m ts.
Lemma prepare_works (ts : list TorrentState) (m : gmap bytes path) (fs : gmap path content) : Forall complete ts ->
  prepareTorrentsForBatchSave (map Some ts) m (MkFiles fs []) = (Ok (prepared_paths ts m), MkFiles (prepared ts fs) []).
Proof.
  intros Hts. revert m fs. induction Hts as [|t ts [Ht (mi & data & Em & Ew & El)] Hts IH]; intros m fs; [done|].
  cbn [map prepareTorrentsForBatchSave]. unfold writeTorrentToTempFile. rewrite torrent_marshals by done.
  unfold WriteFile, next_fault at 1. cbn [fp_faults fp_files tail]. rewrite Em. unfold saveMetaInfo, WriteFile, next_fault. cbn [fp_faults fp_files tail snd]. rewrite Ew.
  rewrite IH. unfold prepared_paths. cbn [foldl prepared]. by rewrite Em, Ew.
Qed.

(** The last torrent of the list with a hash, else what was there. *)
Definition latest (h : bytes) (ts : list TorrentState) (before : option TorrentState) : option TorrentState :=
  foldl (fun acc t => if decide (t_InfoHash t = h) then Some (deepCopyTorrent t) else acc) before ts.
Lemma latest_put (h : bytes) (ts : list TorrentState) (m : gmap bytes TorrentState) : foldl (fun m t => put t m) m ts !! h = latest h ts (m !! h).
Proof.
  unfold latest. revert m. induction ts as [|t ts IH]; intros m; cbn; [done|]. rewrite IH. unfold put. destruct (decide (t_InfoHash t = h)) as [<-|Hn].
  - by rewrite lookup_insert_eq.
  - by rewrite lookup_insert_ne.
Qed.
Lemma latest_app (h : bytes) (ts : list TorrentState) (t : TorrentState) before : latest h (ts ++ [t]) before = (if decide (t_InfoHash t = h) then Some (deepCopyTorrent t) else latest h ts before).
Proof. unfold latest. by rewrite foldl_app. Qed.
Lemma prepared_app (ts : list TorrentState) (t : TorrentState) (fs : gmap path content) : prepared (ts ++ [t]) fs = prepared [t] (prepared ts fs).
Proof. revert fs. induction ts as [|u ts IH]; intros fs; [done|]. cbn [app prepared]. by rewrite IH. Qed.

(** The path of a torrent that is in the list, after the preparation. *)
Lemma prepared_spec (ts : list TorrentState) (fs : gmap path content) (h : bytes) : Forall complete ts -> hash_ok h ->
  prepared ts fs !! getTorrentFilePath h = fs !! getTorrentFilePath h /\ prepared ts fs !! sessionFile = fs !! sessionFile /\
  (if decide (h ∈ map t_InfoHash ts) then
     exists t mi data, latest h ts None = Some (deepCopyTorrent t) /\ t_InfoHash t = h /\ storable t /\ t_MetaInfo t = Some mi /\ TorrentFile.Load data = Ok mi /\
       prepared ts fs !! tmp (getTorrentFilePath h) = Some (CJson (file_createSerializableTorrent t)) /\
       prepared ts fs !! getMetaInfoFilePath h = Some (CBytes data)
   else latest h ts None = None /\ prepared ts fs !! getMetaInfoFilePath h = fs !! getMetaInfoFilePath h).
Proof.
  intros Hts Hh. induction ts as [|t ts IH] using rev_ind; [rewrite decide_False by apply not_elem_of_nil; done|].
  apply Forall_app in Hts as [Hts [[Ht (mi & data & Em & Ew & El)] _]%Forall_cons]. destruct (IH Hts) as (I1 & I2 & I3). clear IH.
  rewrite prepared_app, latest_app. set (fs1 := prepared ts fs) in *. cbn [prepared]. rewrite Em, Ew. pose proof (so_hash t Ht) as Hok.
  assert (Hts1 : forall q (fs : gmap path content) c, q <> getMetaInfoFilePath (t_InfoHash t) -> q <> tmp (getTorrentFilePath (t_InfoHash t)) ->
    <[getMetaInfoFilePath (t_InfoHash t) := CBytes data]> (<[tmp (getTorrentFilePath (t_InfoHash t)) := c]> fs) !! q = fs !! q)
    by (intros; by rewrite !lookup_insert_ne by done).
  split; [|split].
  - rewrite Hts1; [done|done|]. intros E. symmetry in E. by apply tmp_not_torrent in E.
  - rewrite Hts1; [done|done|]. intros E. symmetry in E. by apply tmp_not_session in E.
  - rewrite map_app. cbn [map]. destruct (decide (t_InfoHash t = h)) as [<-|Hn].
    + rewrite decide_True by (apply elem_of_app; right; apply list_elem_of_here). exists t, mi, data. split; [done|]. split; [done|]. split; [done|]. split; [done|].
      split; [done|]. split; [|by rewrite lookup_insert_eq]. rewrite lookup_insert_ne by done. by rewrite lookup_insert_eq.
    + assert (Hiff : h ∈ map t_InfoHash ts ++ [t_InfoHash t] <-> h ∈ map t_InfoHash ts).
      { rewrite elem_of_app, list_elem_of_singleton. split; [intros [?|?]; [done|congruence]|by left]. }
      assert (N1 : getMetaInfoFilePath h <> getMetaInfoFilePath (t_InfoHash t)) by (intros E; apply meta_path_inj in E; congruence).
      assert (N2 : tmp (getTorrentFilePath h) <> tmp (getTorrentFilePath (t_InfoHash t))).
      { intros [= E]. rewrite <- !app_assoc in E. apply app_inv_tail in E. apply hex_inj in E; congruence. }
      destruct (decide (h ∈ map t_InfoHash ts)) as [Hin|Hin].
      * rewrite decide_True by (by apply Hiff). destruct I3 as (u & mu & du & J1 & J2 & J3 & J4 & J5 & J6 & J7). exists u, mu, du. split; [done|]. split; [done|].
        split; [done|]. split; [done|]. split; [done|]. by rewrite !Hts1.
      * rewrite decide_False by (by rewrite Hiff). destruct I3 as [J1 J2]. split; [done|]. by rewrite Hts1.
Qed.

Lemma rename_works (ps : list path) (fs : gmap path content) :
  NoDup ps -> (forall p q, p ∈ ps -> tmp q <> p) -> (forall p q, p ∈ ps -> q ∈ ps -> tmp p = tmp q -> p = q) -> (forall p, p ∈ ps -> is_Some (fs !! tmp p)) ->
  exists fs', renameTempFilesAtomically ps (MkFiles fs []) = (true, MkFiles fs' []) /\
    (forall p, p ∈ ps -> fs' !! p = fs !! tmp p) /\ (forall q, q ∉ ps -> (forall p, p ∈ ps -> q <> tmp p) -> fs' !! q = fs !! q).
Proof.
  revert fs. induction ps as [|p ps IH]; intros fs; cbn [renameTempFilesAtomically].
  { intros _ _ _ _. exists fs. split; [done|]. split; [intros p Hp; by apply elem_of_nil in Hp|done]. }
  intros [Hp Hn]%NoDup_cons Ht Hinj Hs. destruct (Hs p (list_elem_of_here _ _)) as [c Hc].
  unfold Rename, next_fault. cbn [fp_faults fp_files tail]. rewrite Hc.
  assert (Hkeep : forall q, q ∈ ps -> <[p := c]> (delete (tmp p) fs) !! tmp q = fs !! tmp q).
  { intros q Hq. rewrite lookup_insert_ne, lookup_delete_ne; [done| |intros E; symmetry in E; by apply (Ht p q (list_elem_of_here _ _)) in E].
    intros E. apply Hinj in E; [by subst|apply list_elem_of_here|by apply list_elem_of_further]. }
  destruct (IH (<[p := c]> (delete (tmp p) fs))) as (fs' & E & H1 & H2).
  - done.
  - intros a b Ha. apply Ht. by apply list_elem_of_further.
  - intros a b Ha Hb. apply Hinj; by apply list_elem_of_further.
  - intros q Hq. rewrite Hkeep by done. apply Hs. by apply list_elem_of_further.
  - exists fs'. split; [done|]. split.
    + intros q [->|Hq]%elem_of_cons; [|by rewrite H1, Hkeep].
      rewrite H2; [by rewrite lookup_insert_eq|done|]. intros r Hr E'. symmetry in E'. by apply (Ht p r (list_elem_of_here _ _)) in E'.
    + intros q Hq Hq'. rewrite H2; [|by intros ?; apply Hq, list_elem_of_further|intros r Hr; by apply Hq', list_elem_of_further].
      rewrite lookup_insert_ne by (intros ->; apply Hq, list_elem_of_here). apply lookup_delete_ne. intros E'. by apply (Hq' p (list_elem_of_here _ _)).
Qed.

Lemma paths_spec (ts : list TorrentState) (k : bytes) (v : path) :
  prepared_paths ts ∅ !! k = Some v <-> k = v.2 /\ exists t, t ∈ ts /\ v = getTorrentFilePath (t_InfoHash t).
Proof.
  unfold prepared_paths. induction ts as [|t ts IH] using rev_ind; cbn.
  { rewrite lookup_empty. split; [done|]. intros (_ & t & Ht & _). by apply elem_of_nil in Ht. }
  rewrite foldl_app. cbn [foldl]. destruct (decide ((getTorrentFilePath (t_InfoHash t)).2 = k)) as [<-|Hn].
  - rewrite lookup_insert_eq. split.
    + intros [= <-]. split; [done|]. exists t. split; [apply elem_of_app; right; apply list_elem_of_here|done].
    + intros (E & u & Hu & ->). f_equal. unfold getTorrentFilePath in *. cbn [snd] in E. by rewrite E.
  - rewrite lookup_insert_ne by done. rewrite IH. split.
    + intros (E & u & Hu & Ev). split; [done|]. exists u. split; [apply elem_of_app; by left|done].
    + intros (E & u & Hu & Ev). split; [done|]. exists u. split; [|done]. apply elem_of_app in Hu as [Hu|Hu]; [done|]. apply list_elem_of_singleton in Hu as ->.
      subst v k. done.
Qed.
Lemma ranged_paths (ts : list TorrentState) :
  let ps := map snd (set_range (prepared_paths ts ∅)) in
  NoDup ps /\ forall p, p ∈ ps <-> exists t, t ∈ ts /\ p = getTorrentFilePath (t_InfoHash t).
Proof.
  cbv zeta. assert (Hin : forall k v, (k, v) ∈ set_range (prepared_paths ts ∅) <-> prepared_paths ts ∅ !! k = Some v).
  { intros k v. rewrite (set_range_perm (prepared_paths ts ∅)). apply elem_of_map_to_list. }
  split.
  - assert (Hd : NoDup (set_range (prepared_paths ts ∅))) by (rewrite (set_range_perm (prepared_paths ts ∅)); apply NoDup_map_to_list).
    apply NoDup_fmap_2_strong; [|done]. intros [k v] [k' v'] H1 H2 [= ->]. rewrite Hin, paths_spec in H1. rewrite Hin, paths_spec in H2. f_equal.
    destruct H1 as [-> _], H2 as [-> _]. done.
  - intros p. rewrite list_elem_of_fmap. split.
    + intros ([k v] & -> & Hkv). rewrite Hin, paths_spec in Hkv. exact (proj2 Hkv).
    + intros (t & Ht & ->). exists ((getTorrentFilePath (t_InfoHash t)).2, getTorrentFilePath (t_InfoHash t)). split; [done|].
      rewrite Hin, paths_spec. split; [done|]. by exists t.
Qed.

Lemma latest_before (h : bytes) (ts : list TorrentState) before :
  latest h ts before = (if decide (h ∈ map t_InfoHash ts) then latest h ts None else before).
Proof.
  unfold latest. revert before. induction ts as [|t ts IH]; intros before; cbn; [by rewrite decide_False by apply not_elem_of_nil|].
  destruct (decide (t_InfoHash t = h)) as [E|E].
  - by rewrite decide_True by (rewrite E; apply list_elem_of_here).
  - rewrite (IH before). destruct (decide (h ∈ map t_InfoHash ts)) as [Hin|Hin].
    + by rewrite decide_True by (by apply list_elem_of_further).
    + rewrite decide_False; [done|]. intros [?|?]%elem_of_cons; [congruence|done].
Qed.
Lemma save_all_files (ts : list TorrentState) (fs : gmap path content) : Forall complete ts -> ts <> [] ->
  exists fs', file_SaveAllTorrents None (map Some ts) (MkFiles fs []) = (Ok (), MkFiles fs' []) /\ fs' !! sessionFile = fs !! sessionFile /\
    forall h before, hash_ok h -> in_files fs h before -> in_files fs' h (latest h ts before).
Proof.
  intros Hts Hne. unfold file_SaveAllTorrents. rewrite decide_False by (by destruct ts). cbn [canceled]. rewrite prepare_works by done.
  destruct (ranged_paths ts) as [Hd Hps]. set (ps := map snd (set_range (prepared_paths ts ∅))) in *.
  assert (Hok : forall t, t ∈ ts -> hash_ok (t_InfoHash t)) by (intros t Ht; rewrite Forall_forall in Hts; apply Hts in Ht as [Ht _]; by destruct Ht).
  destruct (rename_works ps (prepared ts fs)) as (fs' & E & H1 & H2).
  - done.
  - intros p q (t & _ & ->)%Hps. apply tmp_not_torrent.
  - intros p q (t & Ht & ->)%Hps (u & Hu & ->)%Hps [= Ep]. rewrite <- !app_assoc in Ep. apply app_inv_tail in Ep. unfold getTorrentFilePath. by rewrite Ep.
  - intros p (t & Ht & ->)%Hps. destruct (prepared_spec ts fs (t_InfoHash t) Hts (Hok t Ht)) as (_ & _ & Hp).
    rewrite decide_True in Hp by (apply list_elem_of_fmap; by exists t). destruct Hp as (u & mi & data & _ & _ & _ & _ & _ & Hp & _). by rewrite Hp.
  - rewrite E. exists fs'. split; [done|].
    assert (Hsame : forall q, (forall h, q <> getTorrentFilePath h) -> (forall h, q <> tmp (getTorrentFilePath h)) -> fs' !! q = prepared ts fs !! q).
    { intros q Q1 Q2. apply H2; [intros (t & _ & Eq)%Hps; by apply Q1 in Eq|intros p (t & _ & ->)%Hps; apply Q2]. }
    split.
    + rewrite Hsame; [|done|intros h Eh; symmetry in Eh; by apply tmp_not_session in Eh]. destruct ts as [|t ts']; [done|].
      by destruct (prepared_spec (t :: ts') fs (t_InfoHash t) Hts (Hok t (list_elem_of_here _ _))) as (_ & Hsession & _).
    + intros h before Hh Hb. rewrite latest_before. destruct (prepared_spec ts fs h Hts Hh) as (P1 & _ & P3). destruct (decide (h ∈ map t_InfoHash ts)) as [Hin|Hin].
      * destruct P3 as (t & mi & data & -> & Et & Hst & Em & El & Htmp & Hmeta). split; [done|]. split; [by apply copy_storable|]. split.
        -- rewrite H1; [done|]. apply Hps. apply list_elem_of_fmap in Hin as (u & -> & Hu). by exists u.
        -- exists mi, data. split; [done|]. split; [done|]. by rewrite Hsame.
      * destruct P3 as [_ P3]. apply (in_files_same fs); [|by rewrite Hsame|done]. rewrite H2, P1; [done| |].
        -- intros (t & Ht & Ep)%Hps. apply torrent_path_inj in Ep; [|done|by apply Hok]. subst h. apply Hin, list_elem_of_fmap. by exists t.
        -- intros p _ Ep. symmetry in Ep. by apply tmp_not_torrent in Ep.
Qed.
Lemma save_all_same (ts : list TorrentState) (mp : Memory) fp : same mp fp -> Forall complete ts ->
  exists fp', file_SaveAllTorrents None (map Some ts) fp = (Ok (), fp') /\
    (mem_SaveAllTorrents None (map Some ts) mp).1 = Ok () /\ same (mem_SaveAllTorrents None (map Some ts) mp).2 fp'.
Proof.
  intros [Hf Ht Hs] Hts. destruct fp as [fs l]. cbn in Hf, Ht, Hs. subst l.
  destruct (decide (ts = [])) as [->|Hne]; [by exists (MkFiles fs [])|].
  destruct (save_all_files ts fs Hts Hne) as (fs' & E & Hsession & Hnew). exists (MkFiles fs' []). split; [done|].
  unfold mem_SaveAllTorrents. rewrite decide_False by (by destruct ts). cbn [canceled].
  assert (Hm : mapM id (map Some ts) = Some ts) by (clear; induction ts as [|t ts IH]; [done|]; cbn; by rewrite IH). rewrite Hm. split; [done|].
  split; cbn; [done| |unfold session_in_files in *; by rewrite Hsession]. intros h Hh. rewrite latest_put. by apply Hnew, Ht.
Qed.

(** *** The other operations *)
Lemma load_files h t fs : in_files fs h (Some t) -> file_LoadTorrent None h (MkFiles fs []) = (Ok (restored (t_MetaInfo t) t), MkFiles fs []).
Proof.
  intros (Hh & Ht & Hf & mi & data & Em & El & Hm). unfold file_LoadTorrent, readTorrentFile, attachMetaInfo, loadMetaInfo, ReadFile, next_fault.
  cbn [canceled fp_faults fp_files tail]. rewrite Hf. cbn [mbind res_bind]. rewrite (deserialize_saved t Ht). cbn [fp_faults fp_files tail].
  rewrite Hm, El, Em. subst h. done.
Qed.
Lemma load_missing h fs : in_files fs h None -> file_LoadTorrent None h (MkFiles fs []) = (Err (not_found h), MkFiles fs []).
Proof.
  intros [Hf Hm]. unfold file_LoadTorrent, readTorrentFile, ReadFile, next_fault. cbn [canceled fp_faults fp_files tail]. by rewrite Hf.
Qed.
Lemma delete_files h fs : hash_ok h ->
  exists fs', file_DeleteTorrent None h (MkFiles fs []) = (Ok (), MkFiles fs' []) /\ in_files fs' h None /\ fs' !! sessionFile = fs !! sessionFile /\
    forall h', hash_ok h' -> h' <> h -> fs' !! getTorrentFilePath h' = fs !! getTorrentFilePath h' /\ fs' !! getMetaInfoFilePath h' = fs !! getMetaInfoFilePath h'.
Proof.
  intros Hh. unfold file_DeleteTorrent, Remove, next_fault. cbn [canceled fp_faults fp_files tail snd].
  exists (delete (getMetaInfoFilePath h) (delete (getTorrentFilePath h) fs)). split; [by destruct (decide (is_Some _))|]. split; [|split].
  - split; [rewrite lookup_delete_ne by done; apply lookup_delete_eq|apply lookup_delete_eq].
  - by rewrite !lookup_delete_ne by done.
  - intros h' Hh' Hn. split; rewrite !lookup_delete_ne; try done; intros E; [apply torrent_path_inj in E|apply meta_path_inj in E]; congruence.
Qed.
Lemma session_files c fs : session_ok c ->
  exists fs', file_SaveSessionConfig None (Some c) (MkFiles fs []) = (Ok (), MkFiles fs' []) /\ session_in_files fs' (Some c) /\
    forall h, fs' !! getTorrentFilePath h = fs !! getTorrentFilePath h /\ fs' !! getMetaInfoFilePath h = fs !! getMetaInfoFilePath h.
Proof.
  intros Hc. cbn [file_SaveSessionConfig canceled]. rewrite (session_marshals c Hc), write_works. eexists. split; [done|].
  split; [split; [done|]; by rewrite lookup_insert_eq|]. intros h. by rewrite !lookup_insert_ne, !lookup_delete_ne, !lookup_insert_ne by done.
Qed.

Lemma perform_same o (mp : Memory) fp : same mp fp -> good_op o ->
  agree o (perform (TorrentPersistence0 := memory_persistence now) o mp).1 (perform o fp).1 /\ same (perform (TorrentPersistence0 := memory_persistence now) o mp).2 (perform o fp).2.
Proof.
  intros Hsame. destruct Hsame as [Hf Ht Hs] eqn:E0. clear E0. destruct fp as [fs l]. cbn in Hf, Ht, Hs. subst l.
  destruct o as [t|ts|h|h|c|]; cbn [good_op perform].
  - intros Hc. destruct (save_same t mp (MkFiles fs []) Hsame Hc) as (fp' & E & Hnew). cbn [SaveTorrent memory_persistence file_persistence]. rewrite E. done.
  - intros Hc. destruct (save_all_same ts mp (MkFiles fs []) Hsame Hc) as (fp' & E & Er & Hnew).
    cbn [SaveAllTorrents memory_persistence file_persistence]. rewrite E. destruct (mem_SaveAllTorrents None (map Some ts) mp) as [r mp']. cbn in *. by subst r.
  - intros Hh. cbn [LoadTorrent memory_persistence file_persistence]. unfold mem_LoadTorrent. cbn [canceled]. specialize (Ht h Hh) as Hh'.
    destruct (mp_torrents mp !! h) as [t|] eqn:Et.
    + rewrite (load_files h t) by done. cbn. split; [|by split]. destruct Hh' as (<- & _). by split.
    + rewrite load_missing by done. cbn. split; [done|by split].
  - intros Hh. cbn [DeleteTorrent memory_persistence file_persistence]. unfold mem_DeleteTorrent. cbn [canceled].
    destruct (delete_files h fs Hh) as (fs' & -> & Hgone & Hsession & Hold). cbn.
    assert (Hnew : forall m, m = mp_torrents mp \/ m = delete h (mp_torrents mp) -> m !! h = None -> forall h', hash_ok h' -> in_files fs' h' (m !! h')).
    { intros m Hm Hnone h' Hh'. destruct (decide (h' = h)) as [->|Hn]; [by rewrite Hnone|]. destruct (Hold h' Hh' Hn) as [E1 E2].
      assert (m !! h' = mp_torrents mp !! h') as -> by (destruct Hm as [->| ->]; [done|by apply lookup_delete_ne]). exact (in_files_same fs fs' h' _ E1 E2 (Ht h' Hh')). }
    destruct (mp_torrents mp !! h) as [t|] eqn:Et; cbn.
    + split; [split; [by left|done]|]. split; cbn; [done| |unfold session_in_files in *; by rewrite Hsession]. apply Hnew; [by right|apply lookup_delete_eq].
    + split; [split; [by right|done]|]. split; cbn; [done| |unfold session_in_files in *; by rewrite Hsession]. apply Hnew; [by left|done].
  - intros Hc. cbn [SaveSessionConfig memory_persistence file_persistence]. destruct (session_files c fs Hc) as (fs' & -> & Hnew & Hold). cbn.
    split; [done|]. split; cbn; [done| |done]. intros h Hh. destruct (Hold h) as [E1 E2]. exact (in_files_same fs fs' h _ E1 E2 (Ht h Hh)).
  - intros _. cbn [LoadSessionConfig memory_persistence file_persistence]. unfold mem_LoadSessionConfig, file_LoadSessionConfig, ReadFile, next_fault.
    cbn [canceled fp_faults fp_files tail]. destruct (mp_session mp) as [c|] eqn:Ec; cbn in Hs.
    + destruct Hs as [Hc Hs]. rewrite Hs. cbv iota beta. rewrite (session_reads_back c Hc). split; [done|]. split; [done|done|]. cbn. rewrite Ec. by split.
    + rewrite Hs. cbn. split; [done|]. split; [done|done|]. by rewrite Ec.
Qed.
Lemma new_same (backup : option B) interval : same (NewMemoryPersistence backup interval) (MkFiles ∅ []).
Proof. split; cbn; [done| |by rewrite lookup_empty]. intros h _. by rewrite lookup_empty. Qed.

(** The answers to a whole history. *)
Fixpoint agree_all (ops : list op) (l l' : list answer) : Prop :=
  match ops, l, l' with
  | [], [], [] => True
  | o :: ops, a :: l, b :: l' => agree o a b /\ agree_all ops l l'
  | _, _, _ => False
  end.
Lemma run_same ops (mp : Memory) fp : same mp fp -> Forall good_op ops -> agree_all ops (run (TorrentPersistence0 := memory_persistence now) ops mp).1 (run ops fp).1.
Proof.
  intros Hsame Hops. revert mp fp Hsame. induction Hops as [|o ops Ho Hops IH]; intros mp fp Hsame; [done|]. cbn [run].
  destruct (perform_same o mp fp Hsame Ho) as [Ha Hn]. destruct (perform (TorrentPersistence0 := memory_persistence now) o mp) as [a mp'], (perform o fp) as [b fp']. cbn in Ha, Hn.
  specialize (IH mp' fp' Hn). destruct (run (TorrentPersistence0 := memory_persistence now) ops mp') as [l mp''], (run ops fp') as [l' fp'']. by split.
Qed.

(** C13: the store in memory and the JSON files, both new, answer every history
    of saving (one torrent or several), loading and deleting torrents, and of
    saving and loading the session, alike but for two differences: a torrent
    that memory gives back the files give back without its error, rates and
    peers, and the deletion of a torrent that is not there is an error in memory
    and a success in the files. The conditions: no operation of the file system
    fails and no context is cancelled; the texts are UTF-8 and the numbers below
    10^15; and every torrent that is saved has its metainfo, of a form that is
    read back from its file as it was. (A torrent saved without metainfo does
    not agree: the files keep the metainfo of an earlier save.) *)
Theorem stores_agree ops (backup : option B) interval : Forall good_op ops ->
  agree_all ops (run (TorrentPersistence0 := memory_persistence now) ops (NewMemoryPersistence backup interval)).1 (run ops (MkFiles ∅ [])).1.
Proof. intros Hops. apply run_same; [apply new_same|done]. Qed.
End Stores.

(** ** The database *)
Lemma marshal_members o v : Marshal (JObject o) = Ok v ->
  exists o', v = JObject o' /\ Forall2 (fun kv kv' => kv'.1 = to_valid 0 kv.1 /\ Marshal kv.2 = Ok kv'.2) o o'.
Proof.
  cbn. match goal with |- context [?go o] => set (marshal_all := go) end.
  assert (Hgo : forall o', marshal_all o = Ok o' -> Forall2 (fun kv kv' => kv'.1 = to_valid 0 kv.1 /\ Marshal kv.2 = Ok kv'.2) o o').
  { induction o as [|[k x] o IH]; cbn; [intros o' [= <-]; constructor|]. intros o'. destruct (Marshal x) as [y| | |] eqn:Ex; cbn; try done.
    fold marshal_all. destruct (marshal_all o) as [o1| | |]; cbn; try done. intros [= <-]. constructor; [done|]. by apply IH. }
  destruct (marshal_all o) as [o'| | |]; cbn; try done. intros [= <-]. exists o'. split; [done|]. by apply Hgo.
Qed.
(** No document that the database store writes is read back as a torrent: the
    hash is a string. *)
Lemma database_document t v : Marshal (db_createSerializableTorrent t) = Ok v -> exists e, dec_torrent v = Err e.
Proof.
  intros (o' & -> & Ho)%marshal_members.
  inversion Ho as [|? [k1 v1] ? o1 [K1 V1] Ho1]; subst. inversion Ho1 as [|? [k2 v2] ? o2 [K2 V2] _]; subst. cbn in V1, V2. injection V1 as <-. injection V2 as <-.
  assert (k1 = bs "id") as -> by (etransitivity; [exact K1|vm_compute; reflexivity]). assert (k2 = bs "info_hash") as -> by (etransitivity; [exact K2|vm_compute; reflexivity]).
  unfold dec_torrent. rewrite field_here. destruct (dec_int (JInt (t_ID t))) as [z|e| |] eqn:E; cbn [mbind res_bind]; [|by eexists|unfold dec_int in E; by case_decide..].
  rewrite (field_next dec_hash "info_hash" "id") by (vm_compute; reflexivity). rewrite (field_here dec_hash "info_hash"). by eexists.
Qed.

#[local] Opaque Marshal db_createSerializableTorrent.
Section Database.
Context {DB : Type} `{!Bolt DB}.
(** What bbolt documents: a value that was put is found, and the others as
    before, in this bucket and in others; deleting and committing add no value;
    and a bucket consists of what is found in it. *)
Context (get_put : forall b k v db db', bolt_Put b k v db = Ok db' -> bolt_Get b k db' = Some (Some v))
  (get_other : forall b k k' v db db', bolt_Put b k v db = Ok db' -> k' <> k -> bolt_Get b k' db' = bolt_Get b k' db)
  (get_bucket : forall b b' k k' v db db', bolt_Put b k v db = Ok db' -> b' <> b -> bolt_Get b' k' db' = bolt_Get b' k' db)
  (get_delete : forall b k k' v db db', bolt_Delete b k db = Ok db' -> bolt_Get b k' db' = Some (Some v) -> bolt_Get b k' db = Some (Some v))
  (get_commit : forall b k db db', bolt_Commit db = Ok db' -> bolt_Get b k db' = bolt_Get b k db)
  (each_get : forall b db l, bolt_ForEach b db = Some l -> forall k v, (k, v) ∈ l -> bolt_Get b k db = Some (Some v)).

(** A database whose torrents were all written by the store. *)
Definition written (dp : DatabasePersistence (DB := DB)) : Prop :=
  forall k v, bolt_Get bucket_torrents k (dp_db dp) = Some (Some v) -> exists t, Marshal (db_createSerializableTorrent t) = Ok v.

Lemma put_written t db db' : db_put t db = Ok db' -> written (MkDatabase db false) -> written (MkDatabase db' false).
Proof.
  unfold db_put. destruct (Marshal (db_createSerializableTorrent t)) as [data| | |] eqn:Em; cbn [mbind res_bind]; try done. intros Ep Hw k v. cbn [dp_db].
  destruct (decide (k = HexString (t_InfoHash t))) as [->|Hk].
  - rewrite (get_put _ _ _ _ _ Ep). intros [= <-]. by exists t.
  - rewrite (get_other _ _ _ _ _ _ Ep Hk). apply Hw.
Qed.
Lemma commit_written db db' b : bolt_Commit db = Ok db' -> written (MkDatabase db false) -> written (MkDatabase db' b).
Proof. intros Ec Hw k v. cbn [dp_db]. rewrite (get_commit _ _ _ _ Ec). apply Hw. Qed.
Lemma save_written t dp : written dp -> written (db_SaveTorrent None (Some t) dp).2.
Proof.
  intros Hw. cbn [db_SaveTorrent]. destruct (Marshal (db_createSerializableTorrent t)) as [data| | |] eqn:Em; try done. unfold Update, with_bucket.
  destruct (bolt_ForEach bucket_torrents (dp_db dp)); [|done]. destruct (bolt_Put _ _ _ _) as [db| | |] eqn:Ep; cbn [mbind res_bind]; try done.
  destruct (bolt_Commit db) as [db'| | |] eqn:Ec; try done. cbn [snd]. apply (commit_written db); [done|]. apply (put_written t (dp_db dp)); [|done].
  unfold db_put. by rewrite Em.
Qed.
Lemma save_all_written ts dp : written dp -> written (db_SaveAllTorrents None ts dp).2.
Proof.
  intros Hw. unfold db_SaveAllTorrents. case_decide; [done|]. unfold Update, with_bucket. destruct (bolt_ForEach bucket_torrents (dp_db dp)); [|done].
  assert (Hall : forall db', db_save_all ts (dp_db dp) = Ok db' -> written (MkDatabase db' false)).
  { assert (Hw' : written (MkDatabase (dp_db dp) false)) by done. revert Hw'. generalize (dp_db dp). clear -get_put get_other. induction ts as [|[t|] ts IH]; intros db Hdb db'; cbn; [by intros [= <-]| |done].
    destruct (db_put t db) as [db1| | |] eqn:Ep; cbn [mbind res_bind]; try done. apply IH. by apply (put_written t db). }
  destruct (db_save_all ts (dp_db dp)) as [db| | |]; cbn [mbind res_bind]; try done. destruct (bolt_Commit db) as [db'| | |] eqn:Ec; try done. cbn [snd].
  by apply (commit_written db), Hall.
Qed.

Lemma delete_written h dp : written dp -> written (db_DeleteTorrent None h dp).2.
Proof.
  intros Hw. unfold db_DeleteTorrent, Update, with_bucket. destruct (bolt_ForEach bucket_torrents (dp_db dp)); [|done].
  destruct (bolt_Get bucket_torrents (HexString h) (dp_db dp)) as [[v|]|]; [|done..]. destruct (bolt_Delete _ _ _) as [db| | |] eqn:Ed; cbn [mbind res_bind]; try done.
  destruct (bolt_Commit db) as [db'| | |] eqn:Ec; try done. cbn [snd]. apply (commit_written db); [done|]. intros k u Hk. apply (Hw k). by apply (get_delete _ _ _ _ _ _ Ed).
Qed.
Lemma session_written c dp : written dp -> written (db_SaveSessionConfig None (Some c) dp).2.
Proof.
  intros Hw. cbn [db_SaveSessionConfig]. destruct (Marshal (session_json c)) as [data| | |]; try done. unfold Update, with_bucket.
  destruct (bolt_ForEach bucket_session (dp_db dp)); [|done]. destruct (bolt_Put _ _ _ _) as [db| | |] eqn:Ep; cbn [mbind res_bind]; try done.
  destruct (bolt_Commit db) as [db'| | |] eqn:Ec; try done. cbn [snd]. apply (commit_written db); [done|]. intros k u. cbn [dp_db].
  rewrite (get_bucket _ bucket_torrents _ _ _ _ _ Ep) by done. apply Hw.
Qed.

(** Every database the operations lead to from one without torrents. *)
Inductive stored : DatabasePersistence (DB := DB) -> Prop :=
  | stored_new dp : (forall k v, bolt_Get bucket_torrents k (dp_db dp) <> Some (Some v)) -> stored dp
  | stored_delete h dp : stored dp -> stored (db_DeleteTorrent None h dp).2
  | stored_session c dp : stored dp -> stored (db_SaveSessionConfig None (Some c) dp).2
  | stored_save t dp : stored dp -> stored (db_SaveTorrent None (Some t) dp).2
  | stored_save_all ts dp : stored dp -> stored (db_SaveAllTorrents None ts dp).2.
Lemma stored_written dp : stored dp -> written dp.
Proof.
  induction 1 as [dp Hd|h dp _ IH|c dp _ IH|t dp _ IH|ts dp _ IH];
    [|by apply delete_written|by apply session_written|by apply save_written|by apply save_all_written].
  intros k v Hk. by apply Hd in Hk.
Qed.

(** C39: whatever is saved in the database and deleted from it, no torrent is
    ever loaded: loading one by its hash is an error and loading all gives
    none. *)
Theorem database_never_loads dp :
  stored dp ->
  (forall h t, (db_LoadTorrent None h dp).1 <> Ok t) /\ (forall ts, (db_LoadAllTorrents None dp).1 = Ok ts -> ts = []).
Proof.
  intros Hw%stored_written. split.
  - intros h t. unfold db_LoadTorrent, with_bucket. cbn [fst]. destruct (bolt_ForEach bucket_torrents (dp_db dp)); [|done].
    destruct (bolt_Get bucket_torrents (HexString h) (dp_db dp)) as [[v|]|] eqn:Eg; [|done..]. destruct (Hw _ _ Eg) as [u Hu].
    destruct (database_document u v Hu) as [e ->]. done.
  - unfold db_LoadAllTorrents. cbn [fst]. destruct (bolt_ForEach bucket_torrents (dp_db dp)) as [l|] eqn:El; [|done].
    pose proof (each_get _ _ _ El) as Hl. assert (Hall : Forall (fun kv => exists u, Marshal (db_createSerializableTorrent u) = Ok kv.2) l).
    { apply Forall_forall. intros [k v] Hin. apply (Hw k). by apply Hl. }
    clear El Hl. assert (db_load_all l = Ok []) as ->; [|by intros ts [= <-]].
    induction Hall as [|[k v] l [u Hu] Hl IH]; cbn; [done|]. by destruct (database_document u v Hu) as [e ->].
Qed.
End Database.
#[local] Transparent Marshal db_createSerializableTorrent.

(** ** Examples *)
#[local] Instance demo_range : SetRange := {| set_range := fun A m => map_to_list m; set_range_perm := fun A m => reflexivity _ |}.
Abbreviation demo_db := (gmap bytes (gmap bytes json)).
#[local] Instance demo_bolt : Bolt demo_db := {|
  bolt_Get := fun b k db => (fun m : gmap bytes json => m !! k) <$> db !! b;
  bolt_ForEach := fun b db => (fun m : gmap bytes json => map_to_list m) <$> db !! b;
  bolt_Put := fun b k v db => match db !! b with Some m => Ok (<[b := <[k := v]> m]> db) | None => Err "no bucket" end;
  bolt_Delete := fun b k db => match db !! b with Some m => Ok (<[b := delete k m]> db) | None => Err "no bucket" end;
  bolt_CreateBucketIfNotExists := fun b db => Ok (<[b := default ∅ (db !! b)]> db);
  bolt_Commit := Ok;
  bolt_Close := fun _ => Ok () |}.

Definition demo_hash : bytes := replicate 20 7.
Definition demo_info : bytes := bs "d4:name1:f12:piece lengthi1e6:pieces0:e".
Definition demo_meta : TorrentFile.MetaInfo := TorrentFile.MkMeta (Some demo_info) (bs "http://t/a") [] [] [] 0 [] [] [].
Definition demo_torrent (downloaded : Z) (mi : option TorrentFile.MetaInfo) : TorrentState :=
  MkTorrent 1 demo_hash mi 4 None (bs "/data") (1700000000 * Second) None [bs "x"] downloaded 0 0 (f_of_int 1) 1 1 1 500 0 9 3 3 0 0 None 0 0 false
    [MkFileInfo (bs "f") 1 1 0 true] [0] [true] [bs "http://t/a"] [] (f_of_int 2) 0 true.
Lemma demo_complete : complete (demo_torrent 5 (Some demo_meta)).
Proof.
  split.
  - split; try (apply (bool_decide_unpack _); vm_compute; exact I).
  - exists demo_meta. eexists. split; [reflexivity|]. split; [vm_compute; reflexivity|]. vm_compute. reflexivity.
Defined.

Lemma database_never_loads_witness :
  let dp := MkDatabase (DB := demo_db) {[bucket_torrents := ∅]} false in
  let dp' := (db_SaveTorrent None (Some (demo_torrent 5 None)) dp).2 in
  (db_SaveTorrent None (Some (demo_torrent 5 None)) dp).1 = Ok () /\ forall t, (db_LoadTorrent None demo_hash dp').1 <> Ok t.
Proof.
  split; [vm_compute; reflexivity|]. intros t.
  refine (proj1 (database_never_loads (DB := demo_db) _ _ _ _ _ _ _ _) demo_hash t).
  - intros b k v db db'. cbn. destruct (db !! b) as [m|] eqn:E; [|done]. intros [= <-]. rewrite lookup_insert_eq. cbn. by rewrite lookup_insert_eq.
  - intros b k k' v db db'. cbn. destruct (db !! b) as [m|] eqn:E; [|done]. intros [= <-] Hn. rewrite lookup_insert_eq. cbn. by rewrite lookup_insert_ne.
  - intros b b' k k' v db db'. cbn. destruct (db !! b) as [m|] eqn:E; [|done]. intros [= <-] Hn. by rewrite lookup_insert_ne.
  - intros b k k' v db db'. cbn. destruct (db !! b) as [m|] eqn:E; [|done]. intros [= <-]. rewrite lookup_insert_eq. cbn. intros [= Hd]. apply lookup_delete_Some in Hd as [_ Hd]. by rewrite Hd.
  - intros b k db db' [= <-]. done.
  - intros b db l. cbn. destruct (db !! b) as [m|] eqn:E; [|done]. intros [= <-] k v Hin. cbn. f_equal. by apply elem_of_map_to_list.
  - apply stored_save, stored_new. intros k v. vm_compute. discriminate.
Defined.
Lemma save_torrent_atomic_witness :
  let fp := MkFiles ∅ [Stops] in
  (file_SaveTorrent None (Some (demo_torrent 5 None)) fp).1 <> Ok () /\
  fp_files (file_SaveTorrent None (Some (demo_torrent 5 None)) fp).2 !! getTorrentFilePath demo_hash = None.
Proof.
  cbv zeta. pose proof (save_torrent_atomic (demo_torrent 5 None) (MkFiles ∅ [Stops]) _ _ (surjective_pairing (file_SaveTorrent None (Some (demo_torrent 5 None)) (MkFiles ∅ [Stops])))) as [_ Hr].
  assert (E : (file_SaveTorrent None (Some (demo_torrent 5 None)) (MkFiles ∅ [Stops])).1 = Err "failed to write torrent file") by (vm_compute; reflexivity).
  rewrite E in Hr. split; [by rewrite E|exact Hr].
Defined.
Lemma stores_agree_witness :
  let ops := [OSave (demo_torrent 5 (Some demo_meta)); OLoad demo_hash; ODelete demo_hash; OLoad demo_hash] in
  agree_all ops (run (TorrentPersistence0 := memory_persistence 0) ops (NewMemoryPersistence (B := FilePersistence) None 0)).1 (run ops (MkFiles ∅ [])).1 /\
  (run ops (MkFiles ∅ [])).1 =
    [ADone (Ok ()); ATorrent (Ok (restored (Some demo_meta) (demo_torrent 5 (Some demo_meta)))); ADone (Ok ()); ATorrent (Err (not_found demo_hash))].
Proof.
  cbv zeta. split; [|vm_compute; reflexivity].
  apply (stores_agree (B := FilePersistence) 0 [OSave (demo_torrent 5 (Some demo_meta)); OLoad demo_hash; ODelete demo_hash; OLoad demo_hash] None 0).
  constructor; [apply demo_complete|]. repeat (constructor; [apply (bool_decide_unpack _); vm_compute; exact I|]). constructor.
Defined.

(** Beyond 2^53 a number does not survive a file, and the largest ones cannot be
    read at all: a torrent saved with success is then lost. *)
Example big_numbers_changed :
  let saved downloaded := (file_SaveTorrent None (Some (demo_torrent downloaded None)) (MkFiles ∅ [])) in
  let loaded downloaded := (file_LoadTorrent None demo_hash (saved downloaded).2).1 in
  (t' ← loaded (2 ^ 53 + 1); Ok (t_Downloaded t')) = Ok (2 ^ 53) /\ (t' ← loaded (2 ^ 60); Ok (t_Downloaded t')) = Ok 1152921504606847000 /\
  (saved max_int64).1 = Ok () /\ loaded max_int64 = Err type_error.
Proof. vm_compute. done. Qed.

(** A torrent saved again without its metainfo keeps the old one in the files,
    but not in memory. *)
Example metainfo_kept :
  let ops := [OSave (demo_torrent 5 (Some demo_meta)); OSave (demo_torrent 5 None); OLoad demo_hash] in
  (run ops (MkFiles ∅ [])).1 = [ADone (Ok ()); ADone (Ok ()); ATorrent (Ok (restored (Some demo_meta) (demo_torrent 5 None)))] /\
  (run (TorrentPersistence0 := memory_persistence 0) ops (NewMemoryPersistence (B := FilePersistence) None 0)).1 =
    [ADone (Ok ()); ADone (Ok ()); ATorrent (Ok (demo_torrent 5 None))].
Proof. vm_compute. done. Qed.

(** Any other file with the extension in the directory ends the program when all
    torrents are loaded. *)
Example stray_file_panics : (file_LoadAllTorrents None (MkFiles {[(DTorrents, bs "notes.json") := CJson JNull]} [])).1 = Panic "hash string has bad length".
Proof. vm_compute. done. Qed.

(** Saving several torrents is not atomic: when the second rename fails, the
    first torrent is replaced, although the save as a whole fails. *)
Definition other_torrent : TorrentState := with_hash (replicate 20 9) (demo_torrent 5 None).
Example save_all_not_atomic :
  let '(r, fp) := file_SaveAllTorrents None [Some (demo_torrent 5 None); Some other_torrent] (MkFiles ∅ [Works; Works; Works; Fails]) in
  r = Err "failed to rename temporary file" /\ size (fp_files fp) = 1%nat.
Proof. vm_compute. done. Qed.
(** A list with a nil in it leaves the temporary files of those before it. *)
Example save_all_leaks :
  let '(r, fp) := file_SaveAllTorrents None [Some (demo_torrent 5 None); None] (MkFiles ∅ []) in
  r = Err "torrent cannot be nil" /\ is_Some (fp_files fp !! tmp (getTorrentFilePath demo_hash)).
Proof. vm_compute. split; [done|]. by eexists. Qed.

(** A snapshot only adds: a torrent deleted from memory comes back from the
    backup. *)
Example deleted_comes_back :
  let mp := NewMemoryPersistence (B := FilePersistence) (Some (MkFiles ∅ [])) 0 in
  let mp := (mem_SaveTorrent None (Some (demo_torrent 5 None)) mp).2 in
  let mp := (ForceSnapshot 1 None mp).2 in
  let mp := (mem_DeleteTorrent None demo_hash mp).2 in
  let mp := (ForceSnapshot 2 None mp).2 in
  mp_torrents mp = ∅ /\ is_Some (mp_torrents (LoadFromBackup None mp).2 !! demo_hash).
Proof. vm_compute. split; [done|]. by eexists. Qed.
End PersistenceFacts.
