(* ===== verification/Analytics.v ===== *)
(** * Event analytics

    Models [AnalyticsSubscriber] of [src/examples/integration/event_analytics.go],
    a subscriber of the event notification that counts events and measures its
    own processing times. [HandleEvent] holds the lock for its body, and the
    deferred [recordProcessingTime] takes it again after it was released: the two
    parts are operations of their own, and those of several calls may
    interleave. A call reads the clock once. What is logged and printed is left
    out; [StartDashboard] stops its ticker before it returns and shows nothing. *)

From Stdlib Require Import SpecFloat.
From S2P Require Import Prelude Metainfo TorrentFile Bandwidth RpcTypes EventNotification.
Import Bandwidth RpcTypes EventNotification.

Module Analytics.

(** ** Data *)

(** The values of [event.Data] the code looks at. *)
Inductive datum := DBool (b : bool) | DOther.
Abbreviation Event := (Event (D := gmap bytes datum)).

Record AnalyticsStats := MkStats {
  st_TorrentsAdded : Z;
  st_TorrentsStarted : Z;
  st_TorrentsCompleted : Z;
  st_TorrentsRemoved : Z;
  st_TorrentsErrored : Z;
  st_SessionStarts : Z;
  st_SessionStops : Z;
  st_ConfigChanges : Z;
  st_TotalEvents : Z;
  st_AvgProcessingTime : Z;
  st_PeakProcessingTime : Z;
  st_FirstEvent : option Z;
  st_LastEvent : option Z;
  st_Uptime : Z;
  st_ProcessingErrors : Z;
  st_ErrorRate : float
}.

Record AnalyticsSubscriber := MkAnalytics {
  an_stats : AnalyticsStats;
  an_eventCounts : gmap bytes Z;
  an_lastEvents : gmap bytes Z;
  an_processingTimes : list Z;
  an_maxProcessingTime : Z
}.

Definition filters : list EventType :=
  [EventTorrentAdded; EventTorrentStarted; EventTorrentCompleted; EventTorrentRemoved; EventTorrentError; EventSessionStarted; EventSessionStopped;
   EventSessionConfigChanged].
Definition NewAnalyticsSubscriber (now : Z) : AnalyticsSubscriber :=
  MkAnalytics (MkStats 0 0 0 0 0 0 0 0 0 0 0 (Some now) None 0 0 (S754_zero false)) ∅ ∅ [] 0.
Definition subscriber : EventSubscriber := MkSubscriber (bs "analytics-subscriber") filters.

(** ** Handling an event *)
Definition count_one (one : bool) (n : Z) : Z := if one then i64 (n + 1) else n.

(** The counter of the handler of a type is [stats] with the type's field one
    higher: [handleTorrentAdded] and the other handlers, without their logs. *)
Definition dispatch (ty : EventType) (s : AnalyticsStats) : AnalyticsStats :=
  let same := fun t => bool_decide (ty = t) in
  MkStats (count_one (same EventTorrentAdded) (st_TorrentsAdded s)) (count_one (same EventTorrentStarted) (st_TorrentsStarted s))
    (count_one (same EventTorrentCompleted) (st_TorrentsCompleted s)) (count_one (same EventTorrentRemoved) (st_TorrentsRemoved s))
    (count_one (same EventTorrentError) (st_TorrentsErrored s)) (count_one (same EventSessionStarted) (st_SessionStarts s))
    (count_one (same EventSessionStopped) (st_SessionStops s)) (count_one (same EventSessionConfigChanged) (st_ConfigChanges s))
    (st_TotalEvents s) (st_AvgProcessingTime s) (st_PeakProcessingTime s) (st_FirstEvent s) (st_LastEvent s) (st_Uptime s)
    (st_ProcessingErrors s) (st_ErrorRate s).
Definition with_general (total : Z) (first last : option Z) (uptime : Z) (s : AnalyticsStats) : AnalyticsStats :=
  MkStats (st_TorrentsAdded s) (st_TorrentsStarted s) (st_TorrentsCompleted s) (st_TorrentsRemoved s) (st_TorrentsErrored s) (st_SessionStarts s)
    (st_SessionStops s) (st_ConfigChanges s) total (st_AvgProcessingTime s) (st_PeakProcessingTime s) first last uptime (st_ProcessingErrors s)
    (st_ErrorRate s).
Definition with_errors (n : Z) (rate : float) (s : AnalyticsStats) : AnalyticsStats :=
  MkStats (st_TorrentsAdded s) (st_TorrentsStarted s) (st_TorrentsCompleted s) (st_TorrentsRemoved s) (st_TorrentsErrored s) (st_SessionStarts s)
    (st_SessionStops s) (st_ConfigChanges s) (st_TotalEvents s) (st_AvgProcessingTime s) (st_PeakProcessingTime s) (st_FirstEvent s) (st_LastEvent s)
    (st_Uptime s) n rate.
Definition with_times (avg peak : Z) (s : AnalyticsStats) : AnalyticsStats :=
  MkStats (st_TorrentsAdded s) (st_TorrentsStarted s) (st_TorrentsCompleted s) (st_TorrentsRemoved s) (st_TorrentsErrored s) (st_SessionStarts s)
    (st_SessionStops s) (st_ConfigChanges s) (st_TotalEvents s) avg peak (st_FirstEvent s) (st_LastEvent s) (st_Uptime s) (st_ProcessingErrors s)
    (st_ErrorRate s).

Definition updateErrorRate (s : AnalyticsStats) : AnalyticsStats :=
  if decide (0 < st_TotalEvents s)
  then with_errors (st_ProcessingErrors s) (fmul (fdiv (f_of_int (st_ProcessingErrors s)) (f_of_int (st_TotalEvents s))) (f_of_int 100)) s
  else s.

(** The body of [HandleEvent], under the lock. *)
Definition HandleEvent (now : Z) (event : Event) (an : AnalyticsSubscriber) : res () * AnalyticsSubscriber :=
  let s := an_stats an in
  let first := match st_FirstEvent s with Some t => t | None => now end in
  let s := with_general (i64 (st_TotalEvents s + 1)) (Some first) (Some now) (Sub now first) s in
  let counts := <[ev_Type event := i64 (default 0 (an_eventCounts an !! ev_Type event) + 1)]> (an_eventCounts an) in
  let lasts := <[ev_Type event := now]> (an_lastEvents an) in
  let s := dispatch (ev_Type event) s in
  let an := fun s => MkAnalytics s counts lasts (an_processingTimes an) (an_maxProcessingTime an) in
  if decide (ev_Type event = EventTorrentError) then
    match ev_Data event !! bs "simulate_processing_error" with
    | Some (DBool true) =>
        (Err "simulated processing error", an (updateErrorRate (with_errors (i64 (st_ProcessingErrors s + 1)) (st_ErrorRate s) s)))
    | _ => (Ok (), an s)
    end
  else (Ok (), an s).

(** ** Measuring *)
Definition sum_times (l : list Z) : Z := fold_left (fun total pt => i64 (total + pt)) l 0.
Definition recordProcessingTime (duration : Z) (an : AnalyticsSubscriber) : AnalyticsSubscriber :=
  let times := an_processingTimes an ++ [duration] in
  let times := if decide (1000 < len times) then drop (length times - 1000) times else times in
  let '(max, peak) := if decide (an_maxProcessingTime an < duration) then (duration, duration)
                      else (an_maxProcessingTime an, st_PeakProcessingTime (an_stats an)) in
  MkAnalytics (with_times (Z.quot (sum_times times) (len times)) peak (an_stats an)) (an_eventCounts an) (an_lastEvents an) times max.

(** ** Reading *)
Definition GetStats (now : Z) (an : AnalyticsSubscriber) : AnalyticsStats :=
  let s := an_stats an in
  with_general (st_TotalEvents s) (st_FirstEvent s) (st_LastEvent s)
    (match st_FirstEvent s with Some t => Sub now t | None => 0 end) s.
Definition GetEventCounts (an : AnalyticsSubscriber) : gmap bytes Z := an_eventCounts an.
Definition GetLastEventTimes (an : AnalyticsSubscriber) : gmap bytes Z := an_lastEvents an.

(** ** A history *)
Inductive op := Handle (now : Z) (event : Event) | Record_ (duration : Z).
Definition do_op (an : AnalyticsSubscriber) (o : op) : AnalyticsSubscriber :=
  match o with Handle now event => (HandleEvent now event an).2 | Record_ d => recordProcessingTime d an end.
Definition run (now : Z) (ops : list op) : AnalyticsSubscriber := fold_left do_op ops (NewAnalyticsSubscriber now).

(** ** What is counted *)
Definition handled (ops : list op) : list EventType := omap (fun o => match o with Handle _ e => Some (ev_Type e) | Record_ _ => None end) ops.
Definition recorded (ops : list op) : list Z := omap (fun o => match o with Record_ d => Some d | Handle _ _ => None end) ops.
Definition failing (e : Event) : bool :=
  bool_decide (ev_Type e = EventTorrentError) && match ev_Data e !! bs "simulate_processing_error" with Some (DBool true) => true | _ => false end.
Definition failures (ops : list op) : list op := List.filter (fun o => match o with Handle _ e => failing e | Record_ _ => false end) ops.
Definition times (ty : EventType) (l : list EventType) : Z := len (filter (ty =.) l).
Definition recent (l : list Z) : list Z := drop (length l - 1000) l.

Record accounted (ops : list op) (an : AnalyticsSubscriber) : Prop := {
  ac_added : st_TorrentsAdded (an_stats an) = times EventTorrentAdded (handled ops);
  ac_started : st_TorrentsStarted (an_stats an) = times EventTorrentStarted (handled ops);
  ac_completed : st_TorrentsCompleted (an_stats an) = times EventTorrentCompleted (handled ops);
  ac_removed : st_TorrentsRemoved (an_stats an) = times EventTorrentRemoved (handled ops);
  ac_errored : st_TorrentsErrored (an_stats an) = times EventTorrentError (handled ops);
  ac_starts : st_SessionStarts (an_stats an) = times EventSessionStarted (handled ops);
  ac_stops : st_SessionStops (an_stats an) = times EventSessionStopped (handled ops);
  ac_changes : st_ConfigChanges (an_stats an) = times EventSessionConfigChanged (handled ops);
  ac_total : st_TotalEvents (an_stats an) = len (handled ops);
  ac_errors : st_ProcessingErrors (an_stats an) = len (failures ops);
  ac_counts : forall ty, default 0 (an_eventCounts an !! ty) = times ty (handled ops);
  ac_times : an_processingTimes an = recent (recorded ops);
  ac_max : an_maxProcessingTime an = foldr Z.max 0 (recorded ops);
  ac_peak : st_PeakProcessingTime (an_stats an) = an_maxProcessingTime an;
  ac_avg : recorded ops <> [] -> st_AvgProcessingTime (an_stats an) = Z.quot (sum_times (recent (recorded ops))) (len (recent (recorded ops)))
}.

Lemma times_snoc ty l x : times ty (l ++ [x]) = times ty l + (if bool_decide (x = ty) then 1 else 0).
Proof.
  unfold times. rewrite filter_app, len_app. f_equal. rewrite filter_cons, filter_nil. case_bool_decide as E.
  - by rewrite decide_True.
  - by rewrite decide_False.
Qed.
Lemma times_bound ty l : 0 <= times ty l <= len l.
Proof. unfold times, len. pose proof (length_filter (ty =.) l). lia. Qed.
Lemma handled_len ops : len (handled ops) <= len ops.
Proof. unfold handled, len. induction ops as [|[now e|d] ops IH]; cbn; lia. Qed.
Lemma failures_len ops : len (failures ops) <= len ops.
Proof. unfold failures, len. induction ops as [|[now e|d] ops IH]; cbn [List.filter]; [done|destruct (failing e)|]; cbn [length]; lia. Qed.

Lemma recent_snoc l x : recent (l ++ [x]) = let t := recent l ++ [x] in if decide (1000 < len t) then drop (length t - 1000) t else t.
Proof.
  unfold recent, len. rewrite !length_app, length_drop. cbn [length]. case_decide as E.
  - rewrite <- drop_app_le, drop_drop by lia. f_equal. lia.
  - rewrite drop_app_le by lia. f_equal. f_equal. lia.
Qed.

Lemma count_one_i64 ty x l n : len l < 2 ^ 62 -> n = times ty l -> count_one (bool_decide (x = ty)) n = times ty (l ++ [x]).
Proof.
  intros Hl ->. rewrite times_snoc. pose proof (times_bound ty l). unfold count_one. case_bool_decide; [apply (swrap_small 64); lia|lia].
Qed.

Lemma handle_accounted ops now e an :
  len ops < 2 ^ 62 -> accounted ops an -> accounted (ops ++ [Handle now e]) (HandleEvent now e an).2.
Proof.
  intros Hl []. pose proof (handled_len ops). pose proof (failures_len ops). pose proof (len_nonneg (handled ops)). pose proof (len_nonneg (failures ops)).
  assert (Hh : handled (ops ++ [Handle now e]) = handled ops ++ [ev_Type e]) by (unfold handled; by rewrite omap_app).
  assert (Hr : recorded (ops ++ [Handle now e]) = recorded ops) by (unfold recorded; by rewrite omap_app, app_nil_r).
  assert (Hf : failures (ops ++ [Handle now e]) = failures ops ++ (if failing e then [Handle now e] else []))
    by (unfold failures; by rewrite List.filter_app).
  assert (Hsplit : exists s', (HandleEvent now e an).2 =
      MkAnalytics s' (<[ev_Type e := i64 (default 0 (an_eventCounts an !! ev_Type e) + 1)]> (an_eventCounts an)) (<[ev_Type e := now]> (an_lastEvents an))
        (an_processingTimes an) (an_maxProcessingTime an) /\
    (let d := dispatch (ev_Type e) (with_general (i64 (st_TotalEvents (an_stats an) + 1)) (st_FirstEvent (an_stats an)) None 0 (an_stats an)) in
     [st_TorrentsAdded s'; st_TorrentsStarted s'; st_TorrentsCompleted s'; st_TorrentsRemoved s'; st_TorrentsErrored s'; st_SessionStarts s';
      st_SessionStops s'; st_ConfigChanges s'; st_TotalEvents s'; st_AvgProcessingTime s'; st_PeakProcessingTime s'] =
     [st_TorrentsAdded d; st_TorrentsStarted d; st_TorrentsCompleted d; st_TorrentsRemoved d; st_TorrentsErrored d; st_SessionStarts d;
      st_SessionStops d; st_ConfigChanges d; st_TotalEvents d; st_AvgProcessingTime d; st_PeakProcessingTime d]) /\
    st_ProcessingErrors s' = if failing e then i64 (st_ProcessingErrors (an_stats an) + 1) else st_ProcessingErrors (an_stats an)).
  { unfold HandleEvent, failing. case_bool_decide as Et; [rewrite decide_True by done|rewrite decide_False by done; by eexists].
    destruct (ev_Data e !! _) as [[[|]|]|]; cbn [andb]; try by eexists. eexists. split; [reflexivity|]. unfold updateErrorRate. by case_decide. }
  destruct Hsplit as (s' & -> & [= E1 E2 E3 E4 E5 E6 E7 E8 E9 E10 E11] & E12).
  constructor; cbn [an_stats an_eventCounts an_processingTimes an_maxProcessingTime]; rewrite ?Hh, ?Hr, ?Hf, ?E1, ?E2, ?E3, ?E4, ?E5, ?E6, ?E7, ?E8, ?E9, ?E10, ?E11, ?E12;
    try done; try (apply count_one_i64; [lia|done]).
  - rewrite len_app, ac_total0. change (len [ev_Type e]) with 1. apply (swrap_small 64); lia.
  - rewrite len_app. destruct (failing e); [rewrite ac_errors0; change (len [Handle now e]) with 1; apply (swrap_small 64); lia|rewrite ac_errors0; unfold len; cbn; lia].
  - intros ty. rewrite times_snoc. destruct (bool_decide (ev_Type e = ty)) eqn:Et; [apply bool_decide_eq_true in Et|apply bool_decide_eq_false in Et].
    + subst ty. rewrite lookup_insert_eq. cbn. rewrite ac_counts0. pose proof (times_bound (ev_Type e) (handled ops)). apply (swrap_small 64); lia.
    + rewrite lookup_insert_ne by done. rewrite ac_counts0. lia.
Qed.

Lemma max_snoc l d : foldr Z.max 0 (l ++ [d]) = Z.max (foldr Z.max 0 l) d.
Proof. induction l as [|x l IH]; cbn; [lia|]. rewrite IH. lia. Qed.
Lemma record_accounted ops d an : accounted ops an -> accounted (ops ++ [Record_ d]) (recordProcessingTime d an).
Proof.
  intros [].
  assert (Hh : handled (ops ++ [Record_ d]) = handled ops) by (unfold handled; by rewrite omap_app, app_nil_r).
  assert (Hr : recorded (ops ++ [Record_ d]) = recorded ops ++ [d]) by (unfold recorded; by rewrite omap_app).
  assert (Hf : failures (ops ++ [Record_ d]) = failures ops) by (unfold failures; by rewrite List.filter_app, app_nil_r).
  pose proof (max_snoc (recorded ops) d) as Hm.
  assert (Et : recent (recorded ops ++ [d]) =
    if decide (1000 < len (an_processingTimes an ++ [d])) then drop (length (an_processingTimes an ++ [d]) - 1000) (an_processingTimes an ++ [d])
    else an_processingTimes an ++ [d]) by (rewrite recent_snoc, ac_times0; done).
  unfold recordProcessingTime. rewrite <- Et. clear Et. case_decide as Hd; constructor; cbn [an_stats an_eventCounts an_processingTimes an_maxProcessingTime with_times];
    rewrite ?Hh, ?Hr, ?Hf, ?Hm; try done; rewrite <- ?ac_max0; cbn; lia.
Qed.

(** The counters of the analytics are those of the events handled, and the
    times those recorded: in every interleaving of the calls, every counter is
    the number of events of its type, the total the number of all events, the
    peak the longest time, and the average that of the last thousand times. *)
Theorem analytics_account now ops : len ops < 2 ^ 62 -> accounted ops (run now ops).
Proof.
  unfold run. induction ops as [|o ops IH] using rev_ind; [by constructor|]. rewrite len_app, fold_left_app. cbn [fold_left]. intros Hl.
  change (len [o]) with 1 in Hl. destruct o as [t e|d]; cbn [do_op]; [apply handle_accounted; [lia|]|apply record_accounted]; apply IH; lia.
Qed.

(** The error rate is computed only when an event fails: it does not fall when
    others succeed. *)
Definition fails : Event := MkEvent EventTorrentError [] None [] {[bs "simulate_processing_error" := DBool true]} None None.
Definition succeeds : Event := MkEvent EventTorrentAdded [] None [] ∅ None None.
Example error_rate_stays :
  let an := run 0 (Handle 1 fails :: replicate 99 (Handle 2 succeeds)) in
  st_TotalEvents (an_stats an) = 100 /\ st_ProcessingErrors (an_stats an) = 1 /\ st_ErrorRate (an_stats an) = f_of_int 100.
Proof. vm_compute. repeat split; reflexivity. Qed.
End Analytics.
