(* ===== verification/MetadataExtensions.v ===== *)
(** * Categories, quality, tracking and preferences as metadata

    Models [MetadataExtensions] of
    [src/examples/integration/metadata_advanced.go], which keeps a map per
    subject of a torrent in the metadata manager.

    A Go value is a [gov], with the type it was stored with: the code asks for
    types with assertions. The maps the manager hands out are the stored ones:
    where the code writes into one, [poke] changes the stored value at once,
    before the value is set again. A map belongs to one entry. The manager has no
    callbacks here; the order in which its torrents are enumerated is [ids_of].
    The search for the highest ratings and the printed reports are left out. *)

From Stdlib Require Import SpecFloat.
From S2P Require Import Prelude Strconv Metainfo MetainfoFacts Bandwidth TorrentFile RpcTypes Metadata MetadataFacts.
Import Bandwidth Metadata MetadataFacts.

Module MetadataExtensions.

(** ** Values *)
Inductive gov :=
  | GString (s : bytes) | GInt (z : Z) | GInt64 (z : Z) | GFloat (f : float) | GBool (b : bool) | GStrings (l : list bytes) | GSlice (l : list gov)
  | GMap (m : gmap bytes gov).
Definition gov_kind (v : gov) : Kind :=
  match v with
  | GString _ => KString | GInt _ => KInt | GInt64 _ => KInt64 | GFloat _ => KFloat64 | GBool _ => KBool | GStrings _ | GSlice _ => KSlice
  | GMap _ => KMap
  end.
(** [json.Marshal], which is used for the size only. *)
Class Marshals := { marshal : gov -> option bytes }.
#[global] Instance gov_value `{!Marshals} : GoValue gov := {| kind_of := fun v => Some (gov_kind v); json_Marshal := marshal |}.

Section Extensions.
Context `{!Marshals} `{!SetRange}.
Abbreviation MM := (MetadataManager (V := gov) (C := unit)).
Abbreviation TMeta := (TorrentMetadata (V := gov)).
(** The keys of the answer to a query, in the order of [range]; a conversion of
    a float that does not fit. *)
Context (ids_of : gmap Z TMeta -> list Z) (wild : float -> Z).

(** ** The interface of the manager *)
Definition setMetadata (now elapsed torrentID : Z) (key : bytes) (value : gov) (source : bytes) (tags : list bytes) (mm : MM) : res () * MM :=
  let '(response, _, mm) := SetMetadata now elapsed (Some (MkRequest torrentID {[key := value]} [] source tags 0)) mm in
  (if mp_Success response then Ok () else Err "failed to set metadata", mm).
Definition getMetadata (torrentID : Z) (key : bytes) (mm : MM) : option gov :=
  match GetMetadata (Some (MkQuery [torrentID] [key] [] [] None None)) mm with
  | Ok results => tm ← results !! torrentID; mv_Value <$> tm_Metadata tm !! key
  | _ => None
  end.
Definition getAllTorrentIDs (mm : MM) : list Z :=
  match GetMetadata (Some (MkQuery [] [] [] [] None None)) mm with Ok results => ids_of results | _ => [] end.
(** Writing into the map that an entry holds. *)
Definition poke (torrentID : Z) (key : bytes) (value : gov) (mm : MM) : MM :=
  with_torrents (alter (fun tm => with_entries (alter (fun e => MkValue value (mv_Type e) (mv_CreatedAt e) (mv_UpdatedAt e) (mv_Source e) (mv_Tags e))
    key (tm_Metadata tm)) tm) torrentID (mm_metadata mm)) mm.

Definition Unix (now : Z) : gov := GInt64 (now / Second).
Definition as_map (v : gov) : option (gmap bytes gov) := match v with GMap m => Some m | _ => None end.
Definition existing_map (torrentID : Z) (key : bytes) (mm : MM) : option (gmap bytes gov) := v ← getMetadata torrentID key mm; as_map v.
(** The loops that copy what exists but the keys [except]. *)
Definition copy_fields (except : list bytes) (existing : option (gmap bytes gov)) (own : gmap bytes gov) : gmap bytes gov :=
  match existing with Some m => filter (fun kv => kv.1 ∉ except) m ∪ own | None => own end.

(** ** Categories *)
Definition SetTorrentCategory (now elapsed torrentID : Z) (category subcategory : bytes) (tags : list bytes) (contentType : bytes) (mm : MM) : res () * MM :=
  setMetadata now elapsed torrentID (bs "category") (GMap (list_to_map [
    (bs "category", GString category); (bs "subcategory", GString subcategory); (bs "tags", GStrings tags); (bs "content_type", GString contentType);
    (bs "updated_at", Unix now)])) (bs "category_manager") [bs "category"] mm.
Definition has_category (category : bytes) (mm : MM) (torrentID : Z) : bool :=
  match existing_map torrentID (bs "category") mm with
  | Some catMap => match catMap !! bs "category" with Some (GString cat) => bool_decide (cat = category) | _ => false end
  | None => false
  end.
Definition GetTorrentsByCategory (category : bytes) (mm : MM) : list Z := List.filter (has_category category mm) (getAllTorrentIDs mm).
Definition has_tag (tag : bytes) (mm : MM) (torrentID : Z) : bool :=
  match existing_map torrentID (bs "category") mm with
  | Some catMap => match catMap !! bs "tags" with Some (GSlice tags) => existsb (fun t => match t with GString s => bool_decide (s = tag) | _ => false end) tags | _ => false end
  | None => false
  end.
Definition GetTorrentsByTag (tag : bytes) (mm : MM) : list Z := List.filter (has_tag tag mm) (getAllTorrentIDs mm).

(** ** Quality *)
Definition size_category (bitrate : Z) : bytes := if decide (bitrate < 1000000) then bs "small" else if decide (bitrate < 5000000) then bs "medium" else bs "large".
Definition SetTorrentQuality (now elapsed torrentID : Z) (videoQuality audioQuality encoding resolution : bytes) (bitrate : Z) (userRating : float) (mm : MM) :
    res () * MM :=
  let qualityData : gmap bytes gov := list_to_map [
    (bs "video_quality", GString videoQuality); (bs "audio_quality", GString audioQuality); (bs "encoding", GString encoding);
    (bs "resolution", GString resolution); (bs "bitrate", GInt bitrate); (bs "user_rating", GFloat userRating);
    (bs "community_rating", GFloat (S754_zero false)); (bs "updated_at", Unix now)] in
  let qualityData := if decide (0 < bitrate) then <[bs "size_category" := GString (size_category bitrate)]> qualityData else qualityData in
  setMetadata now elapsed torrentID (bs "quality") (GMap qualityData) (bs "quality_manager") [bs "quality"] mm.
Definition UpdateCommunityRating (now elapsed torrentID : Z) (rating : float) (mm : MM) : res () * MM :=
  let qualityData := copy_fields [bs "community_rating"; bs "updated_at"] (existing_map torrentID (bs "quality") mm)
    (list_to_map [(bs "community_rating", GFloat rating); (bs "updated_at", Unix now)]) in
  setMetadata now elapsed torrentID (bs "quality") (GMap qualityData) (bs "community_rating") [bs "quality"; bs "rating"] mm.
(** [extractTorrentRating], also [extractQualityRating]. *)
Definition extractTorrentRating (torrentID : Z) (mm : MM) : option float :=
  m ← existing_map torrentID (bs "quality") mm; match m !! bs "community_rating" with Some (GFloat r) => Some r | _ => None end.

(** ** Tracking *)
Definition StartTorrentTracking (now elapsed torrentID : Z) (sourceTracker : bytes) (mm : MM) : res () * MM :=
  setMetadata now elapsed torrentID (bs "tracking") (GMap (list_to_map [
    (bs "download_start", Unix now); (bs "first_seen", Unix now); (bs "last_activity", Unix now); (bs "retry_count", GInt 0);
    (bs "error_history", GStrings []); (bs "source_tracker", GString sourceTracker)])) (bs "tracking_manager") [bs "tracking"] mm.
Definition UpdateTorrentActivity (now elapsed torrentID : Z) (mm : MM) : res () * MM :=
  setMetadata now elapsed torrentID (bs "tracking")
    (GMap (copy_fields [bs "last_activity"] (existing_map torrentID (bs "tracking") mm) {[bs "last_activity" := Unix now]}))
    (bs "activity_tracker") [bs "tracking"; bs "activity"] mm.
Definition CompleteTorrentDownload (now elapsed torrentID : Z) (mm : MM) : res () * MM :=
  setMetadata now elapsed torrentID (bs "tracking")
    (GMap (copy_fields [bs "download_complete"; bs "last_activity"] (existing_map torrentID (bs "tracking") mm)
      (list_to_map [(bs "download_complete", Unix now); (bs "last_activity", Unix now)])))
    (bs "completion_tracker") [bs "tracking"; bs "completed"] mm.

Definition incrementRetryCount (trackingData : gmap bytes gov) : gmap bytes gov :=
  <[bs "retry_count" := GInt match trackingData !! bs "retry_count" with
                             | Some (GFloat count) => i64 (f_to_int64 wild count + 1)
                             | Some (GInt count) => i64 (count + 1)
                             | _ => 0
                             end]> trackingData.
Definition extractErrorHistory (trackingData : gmap bytes gov) : list bytes :=
  match trackingData !! bs "error_history" with
  | Some (GSlice history) => omap (fun e => match e with GString s => Some s | _ => None end) history
  | _ => []
  end.
Definition formatErrorEntry (now : Z) (errorMsg : bytes) : bytes := Strconv.FormatInt (now / Second) ++ bs ": " ++ errorMsg.
Definition limitErrorHistory (history : list bytes) (maxSize : nat) : list bytes :=
  if decide (maxSize < length history)%nat then drop (length history - maxSize) history else history.
Definition updateErrorHistory (now : Z) (errorMsg : bytes) (trackingData : gmap bytes gov) : gmap bytes gov :=
  <[bs "error_history" := GStrings (limitErrorHistory (extractErrorHistory trackingData ++ [formatErrorEntry now errorMsg]) 10)]> trackingData.
Definition updateLastActivity (now : Z) (trackingData : gmap bytes gov) : gmap bytes gov := <[bs "last_activity" := Unix now]> trackingData.
Definition RecordTorrentError (now elapsed torrentID : Z) (errorMsg : bytes) (mm : MM) : res () * MM :=
  match existing_map torrentID (bs "tracking") mm with
  | None => (Err "tracking data not found", mm)
  | Some trackingData =>
      let trackingData := updateLastActivity now (updateErrorHistory now errorMsg (incrementRetryCount trackingData)) in
      setMetadata now elapsed torrentID (bs "tracking") (GMap trackingData) (bs "error_tracker") [bs "tracking"; bs "error"]
        (poke torrentID (bs "tracking") (GMap trackingData) mm)
  end.

Definition GetDownloadDuration (now torrentID : Z) (mm : MM) : res Z :=
  match getMetadata torrentID (bs "tracking") mm with
  | None => Err "tracking data not found"
  | Some v =>
      match as_map v with
      | None => Err "invalid tracking data format"
      | Some m =>
          match m !! bs "download_start" with
          | Some (GFloat start) =>
              let startTime := f_to_int64 wild start * Second in
              let endTime := match m !! bs "download_complete" with Some (GFloat e) => f_to_int64 wild e * Second | _ => now end in
              Ok (Sub endTime startTime)
          | _ => Err "download start time not found"
          end
      end
  end.

(** ** Preferences *)
Definition SetTorrentPreferences (now elapsed torrentID : Z) (autoStart : bool) (priority : bytes) (bandwidthLimit : Z) (seedRatioLimit : float)
    (downloadLocation : bytes) (mm : MM) : res () * MM :=
  setMetadata now elapsed torrentID (bs "preferences") (GMap (list_to_map [
    (bs "auto_start", GBool autoStart); (bs "priority", GString priority); (bs "bandwidth_limit", GInt bandwidthLimit);
    (bs "seed_ratio_limit", GFloat seedRatioLimit); (bs "seed_time_limit", GInt64 86400); (bs "download_location", GString downloadLocation);
    (bs "custom_flags", GMap ∅); (bs "updated_at", Unix now)])) (bs "preferences_manager") [bs "preferences"] mm.

Definition flags_of (m : gmap bytes gov) : option (gmap bytes gov) := v ← m !! bs "custom_flags"; as_map v.
(** The flags of the stored preferences are written in place, if there are. *)
Definition SetCustomFlag (now elapsed torrentID : Z) (flagName : bytes) (flagValue : gov) (mm : MM) : res () * MM :=
  let existing := existing_map torrentID (bs "preferences") mm in
  let preferencesData := copy_fields [bs "updated_at"] existing (list_to_map [(bs "custom_flags", GMap ∅); (bs "updated_at", Unix now)]) in
  let customFlags := <[flagName := flagValue]> (default ∅ (flags_of preferencesData)) in
  let mm := match existing with
            | Some m => match flags_of m with
                        | Some _ => poke torrentID (bs "preferences") (GMap (<[bs "custom_flags" := GMap customFlags]> m)) mm
                        | None => mm
                        end
            | None => mm
            end in
  setMetadata now elapsed torrentID (bs "preferences")
    (GMap (<[bs "updated_at" := Unix now]> (<[bs "custom_flags" := GMap customFlags]> preferencesData))) (bs "custom_flags") [bs "preferences"; bs "custom"] mm.
Definition has_flag (flagName : bytes) (mm : MM) (torrentID : Z) : bool :=
  match existing_map torrentID (bs "preferences") mm ≫= flags_of with Some flags => bool_decide (is_Some (flags !! flagName)) | None => false end.
Definition GetTorrentsWithCustomFlag (flagName : bytes) (mm : MM) : list Z := List.filter (has_flag flagName mm) (getAllTorrentIDs mm).

(** ** Statistics *)
Definition bump (key : bytes) (stats : gmap bytes Z) : gmap bytes Z := <[key := i64 (default 0 (stats !! key) + 1)]> stats.
Definition incrementCategoryCount (catMap : gmap bytes gov) (stats : gmap bytes Z) : gmap bytes Z :=
  match catMap !! bs "category" with Some (GString category) => bump category stats | _ => stats end.
Definition incrementTagCounts (catMap : gmap bytes gov) (stats : gmap bytes Z) : gmap bytes Z :=
  match catMap !! bs "tags" with
  | Some (GSlice tags) => fold_left (fun stats t => match t with GString s => bump s stats | _ => stats end) tags stats
  | _ => stats
  end.
Definition processTorrentCategories (mm : MM) (stats : gmap bytes Z * gmap bytes Z) (torrentID : Z) : gmap bytes Z * gmap bytes Z :=
  match existing_map torrentID (bs "category") mm with
  | Some catMap => (incrementCategoryCount catMap stats.1, incrementTagCounts catMap stats.2)
  | None => stats
  end.
Definition collectCategoryStatistics (torrentIDs : list Z) (mm : MM) : gmap bytes Z * gmap bytes Z :=
  fold_left (processTorrentCategories mm) torrentIDs (∅, ∅).

Definition categorizeByRating (rating : float) : bytes :=
  if SFleb (f_of_int 4) rating then bs "high_quality"
  else if SFleb (fdiv (f_of_int 5) (f_of_int 2)) rating then bs "medium_quality"
  else bs "low_quality".
Definition processTorrentQuality (mm : MM) (stats : gmap bytes Z) (torrentID : Z) : gmap bytes Z :=
  match extractTorrentRating torrentID mm with None => bump (bs "unrated") stats | Some rating => bump (categorizeByRating rating) stats end.
Definition collectQualityStatistics (torrentIDs : list Z) (mm : MM) : gmap bytes Z :=
  fold_left (processTorrentQuality mm) torrentIDs
    (list_to_map [(bs "high_quality", 0); (bs "medium_quality", 0); (bs "low_quality", 0); (bs "unrated", 0)]).

Definition hasRetryErrors (m : gmap bytes gov) : bool :=
  match m !! bs "retry_count" with
  | Some (GFloat r) => SFltb (S754_zero false) r
  | Some (GInt r) => bool_decide (0 < r)
  | _ => false
  end.
Definition determineDownloadStatus (m : gmap bytes gov) : bytes :=
  if decide (is_Some (m !! bs "download_complete")) then bs "completed" else if hasRetryErrors m then bs "errored" else bs "in_progress".
Definition processTorrentDownloadStatus (mm : MM) (stats : gmap bytes Z) (torrentID : Z) : gmap bytes Z :=
  match existing_map torrentID (bs "tracking") mm with Some m => bump (determineDownloadStatus m) stats | None => stats end.
Definition collectDownloadStatusStatistics (torrentIDs : list Z) (mm : MM) : gmap bytes Z :=
  fold_left (processTorrentDownloadStatus mm) torrentIDs (list_to_map [(bs "completed", 0); (bs "in_progress", 0); (bs "errored", 0)]).
End Extensions.

(** ** What is stored *)
Section Facts.
Context `{!Marshals} `{!SetRange}.
Abbreviation MM := (MetadataManager (V := gov) (C := unit)).
Abbreviation TMeta := (TorrentMetadata (V := gov)).
Context (ids_of : gmap Z TMeta -> list Z) (wild : float -> Z).

Definition value_at (id : Z) (key : bytes) (mm : MM) : option gov := tm ← mm_metadata mm !! id; mv_Value <$> tm_Metadata tm !! key.

Lemma get_value_at id key (mm : MM) : getMetadata id key mm = value_at id key mm.
Proof.
  unfold getMetadata, value_at. destruct (metadata_query (MkQuery [id] [key] [] [] None None) mm) as (r & -> & Hr).
  assert (Hsat : forall v, satisfies (V := gov) (MkQuery [id] [key] [] [] None None) key v) by (intros v; constructor; cbn; try done; [right|left|]; set_solver).
  assert (Hiff : forall v, (exists tm, r !! id = Some tm /\ tm_Metadata tm !! key = Some v) <-> exists tm, mm_metadata mm !! id = Some tm /\ tm_Metadata tm !! key = Some v).
  { intros v. rewrite (Hr id key v). split; [tauto|]. intros Hm. split; [right; cbn; set_solver|]. auto. }
  destruct (mm_metadata mm !! id) as [tm|] eqn:Em; cbn.
  - destruct (tm_Metadata tm !! key) as [v|] eqn:Ek; cbn.
    + destruct (proj2 (Hiff v)) as (tm' & -> & Hv); [eauto|]. cbn. by rewrite Hv.
    + destruct (r !! id) as [tm'|] eqn:Er; cbn; [|done]. destruct (tm_Metadata tm' !! key) as [v|] eqn:Ev; cbn; [|done].
      destruct (proj1 (Hiff v)) as (tm'' & [= <-] & Hv); [eauto|]. congruence.
  - destruct (r !! id) as [tm'|] eqn:Er; cbn; [|done]. destruct (tm_Metadata tm' !! key) as [v|] eqn:Ev; cbn; [|done].
    destruct (proj1 (Hiff v)) as (tm'' & ? & _); [eauto|]. congruence.
Qed.

(** Setting one key succeeds and stores the value, or fails and changes no
    value. *)
Lemma set_value_at now elapsed id key v source tags (mm : MM) :
  let '(r, mm') := setMetadata now elapsed id key v source tags mm in
  (r = Ok () /\ forall id' key', value_at id' key' mm' = if decide (id' = id /\ key' = key) then Some v else value_at id' key' mm) \/
  (r <> Ok () /\ forall id' key', value_at id' key' mm' = value_at id' key' mm).
Proof.
  unfold setMetadata. set (req := MkRequest id {[key := v]} [] source tags 0).
  destruct (set_applies now elapsed req mm) as (calls & mm' & tm & refused & rejected & gone & E & Em & _ & Href & Hk & Hrej & _); [done|].
  rewrite E. cbn [mp_Success mr_TorrentID mr_Remove mr_Set req] in *. rewrite filter_nil in Href. apply fmap_nil_inv in Href as ->. cbn [map app] in *.
  assert (Hkeys : forall k, k ∈ rejected.*1 -> k = key).
  { intros k Hin. destruct (Hrej k Hin) as (v' & Hs & _). apply lookup_singleton_Some in Hs as [-> _]. done. }
  assert (Hold : forall k, mv_Value <$> kept_entries (mm_constraints mm) [] (tm_Metadata (entry_at now id mm)) !! k = value_at id k mm).
  { intros k. unfold kept_entries. rewrite map_filter_id by (intros ? ? _; left; apply not_elem_of_nil). unfold value_at, entry_at.
    destruct (mm_metadata mm !! id); cbn; [done|by rewrite lookup_empty]. }
  assert (Hother : forall id' key', id' <> id -> value_at id' key' mm' = value_at id' key' mm).
  { intros id' key' Hne. unfold value_at. by rewrite Em, lookup_insert_ne. }
  assert (Hsame : forall key', key' <> key \/ key' ∈ rejected.*1 -> value_at id key' mm' = value_at id key' mm).
  { intros key' Hc. unfold value_at at 1. rewrite Em, lookup_insert_eq. cbn. rewrite Hk, <- Hold. f_equal. unfold updated.
    destruct ({[key := v]} !! key') as [v'|] eqn:El; [|done]. apply lookup_singleton_Some in El as [<- <-]. rewrite decide_True; [done|]. tauto. }
  destruct rejected as [|[k e] rejected].
  - left. rewrite bool_decide_eq_true_2 by done. split; [done|]. intros id' key'. case_decide as Hd.
    + destruct Hd as [-> ->]. unfold value_at. rewrite Em, lookup_insert_eq. cbn. rewrite Hk. unfold updated. rewrite lookup_singleton_eq.
      by rewrite decide_False by apply not_elem_of_nil.
    + destruct (decide (id' = id)) as [->|Hne]; [|by apply Hother]. apply Hsame. left. naive_solver.
  - right. rewrite bool_decide_eq_false_2 by done. split; [done|]. intros id' key'. destruct (decide (id' = id)) as [->|Hne]; [|by apply Hother].
    apply Hsame. destruct (decide (key' = key)) as [->|]; [right|by left]. rewrite <- (Hkeys k) by (cbn; left). cbn. left.
Qed.

Lemma poke_value_at id key v id' key' (mm : MM) :
  value_at id' key' (poke id key v mm) = if decide (id' = id /\ key' = key /\ is_Some (value_at id key mm)) then Some v else value_at id' key' mm.
Proof.
  unfold value_at, poke. cbn [mm_metadata with_torrents]. destruct (decide (id' = id)) as [->|Hne].
  - rewrite lookup_alter_eq. destruct (mm_metadata mm !! id) as [tm|]; cbn.
    + destruct (decide (key' = key)) as [->|Hk].
      * rewrite lookup_alter_eq. destruct (tm_Metadata tm !! key) as [e|]; cbn; [rewrite decide_True by eauto; done|].
        rewrite decide_False; [done|]. by intros (_ & _ & []).
      * rewrite lookup_alter_ne by done. rewrite decide_False; [done|]. tauto.
    + rewrite decide_False; [done|]. by intros (_ & _ & []).
  - rewrite lookup_alter_ne by done. rewrite decide_False; [done|]. tauto.
Qed.

(** ** The types that are stored *)
Definition tags_typed (m : gmap bytes gov) : Prop := forall l, m !! bs "tags" <> Some (GSlice l).
Record tracking_typed (m : gmap bytes gov) : Prop := {
  tt_start : forall f, m !! bs "download_start" <> Some (GFloat f);
  tt_history : forall l, m !! bs "error_history" <> Some (GSlice l);
  tt_short : forall l, m !! bs "error_history" = Some (GStrings l) -> (length l <= 1)%nat
}.
(** What a value under a key has to be. *)
Definition fits (key : bytes) (v : gov) : Prop :=
  (key = bs "category" -> forall m, v = GMap m -> tags_typed m) /\ (key = bs "tracking" -> forall m, v = GMap m -> tracking_typed m).
Definition typed (mm : MM) : Prop := forall id key v, value_at id key mm = Some v -> fits key v.

Lemma set_typed now elapsed id key v source tags (mm : MM) :
  fits key v -> typed mm -> typed (setMetadata now elapsed id key v source tags mm).2.
Proof.
  intros Hv Hm. pose proof (set_value_at now elapsed id key v source tags mm) as Hs. destruct (setMetadata _ _ _ _ _ _ _ mm) as [r mm'].
  destruct Hs as [[_ Hs]|[_ Hs]]; intros id' key' v'; cbn [snd]; rewrite Hs; [|apply Hm]. case_decide as Hd; [|apply Hm].
  destruct Hd as [-> ->]. by intros [= <-].
Qed.
Lemma poke_typed id key v (mm : MM) : fits key v -> typed mm -> typed (poke id key v mm).
Proof.
  intros Hv Hm id' key' v'. rewrite poke_value_at. case_decide as Hd; [|apply Hm]. destruct Hd as (-> & -> & _). by intros [= <-].
Qed.
Lemma existing_typed id (mm : MM) m : typed mm -> existing_map id (bs "tracking") mm = Some m -> tracking_typed m.
Proof.
  unfold existing_map. rewrite get_value_at. intros Hm E. destruct (value_at id (bs "tracking") mm) as [v|] eqn:Ev; cbn in E; [|done].
  destruct v; cbn in E; try done. injection E as ->. by apply (Hm _ _ _ Ev).
Qed.
Lemma fits_other key v : key <> bs "category" -> key <> bs "tracking" -> fits key v.
Proof. by split. Qed.
Lemma fits_tracking m : tracking_typed m -> fits (bs "tracking") (GMap m).
Proof. intros Hm. split; [done|]. by intros _ m' [= <-]. Qed.

(** Copying what exists keeps it typed, if the new fields are. *)
Lemma copy_typed (except : list bytes) (id : Z) (own : gmap bytes gov) (mm : MM) :
  typed mm -> tracking_typed own -> tracking_typed (copy_fields except (existing_map id (bs "tracking") mm) own).
Proof.
  intros Hm Ho. unfold copy_fields. destruct (existing_map id (bs "tracking") mm) as [m|] eqn:E; [|done].
  pose proof (existing_typed _ _ _ Hm E) as Ht.
  assert (Hc : forall k v, (filter (fun kv => kv.1 ∉ except) m ∪ own) !! k = Some v -> m !! k = Some v \/ own !! k = Some v).
  { intros k v [Hv|[_ Hv]]%lookup_union_Some_raw; [left|by right]. by apply map_lookup_filter_Some in Hv as [Hv _]. }
  split; [intros f Hf|intros l Hl|intros l Hl]; (apply Hc in Hf as [Hf|Hf] || apply Hc in Hl as [Hl|Hl]).
  - by apply (tt_start _ Ht f).
  - by apply (tt_start _ Ho f).
  - by apply (tt_history _ Ht l).
  - by apply (tt_history _ Ho l).
  - by apply (tt_short _ Ht l).
  - by apply (tt_short _ Ho l).
Qed.

Lemma recorded_typed (now : Z) (msg : bytes) (m : gmap bytes gov) :
  tracking_typed m -> tracking_typed (updateLastActivity now (updateErrorHistory now msg (incrementRetryCount wild m))).
Proof.
  intros [Hs Hh _]. unfold updateLastActivity, updateErrorHistory, incrementRetryCount.
  assert (Hx : extractErrorHistory (<[bs "retry_count" := GInt match m !! bs "retry_count" with
      | Some (GFloat count) => i64 (f_to_int64 wild count + 1) | Some (GInt count) => i64 (count + 1) | _ => 0 end]> m) = []).
  { unfold extractErrorHistory. rewrite lookup_insert_ne by done. destruct (m !! bs "error_history") as [[]|]; try done. by edestruct Hh. }
  rewrite Hx. split.
  - intros f. rewrite lookup_insert_ne, lookup_insert_ne, lookup_insert_ne by done. apply Hs.
  - intros l. rewrite lookup_insert_ne, lookup_insert_eq by done. discriminate.
  - intros l. rewrite lookup_insert_ne, lookup_insert_eq by done. intros [= <-]. unfold limitErrorHistory. by rewrite decide_False by (cbn; lia).
Qed.

(** ** The calls *)
Inductive xcall :=
  | XCategory (category subcategory : bytes) (tags : list bytes) (contentType : bytes) | XQuality (video audio encoding resolution : bytes) (bitrate : Z) (rating : float)
  | XRating (rating : float) | XStart (tracker : bytes) | XActivity | XComplete | XError (msg : bytes)
  | XPreferences (autoStart : bool) (priority : bytes) (limit : Z) (ratio : float) (location : bytes) | XFlag (name : bytes) (value : gov).
Definition do_xcall (now elapsed id : Z) (c : xcall) (mm : MM) : res () * MM :=
  match c with
  | XCategory c s t ty => SetTorrentCategory now elapsed id c s t ty mm
  | XQuality v a e r b u => SetTorrentQuality now elapsed id v a e r b u mm
  | XRating r => UpdateCommunityRating now elapsed id r mm
  | XStart t => StartTorrentTracking now elapsed id t mm
  | XActivity => UpdateTorrentActivity now elapsed id mm
  | XComplete => CompleteTorrentDownload now elapsed id mm
  | XError m => RecordTorrentError wild now elapsed id m mm
  | XPreferences a p l r d => SetTorrentPreferences now elapsed id a p l r d mm
  | XFlag n v => SetCustomFlag now elapsed id n v mm
  end.
Inductive reachable : MM -> Prop :=
  | reach_new : reachable NewMetadataManager
  | reach_constraints c mm : reachable mm -> reachable (SetConstraints c mm)
  | reach_call now elapsed id c mm : reachable mm -> reachable (do_xcall now elapsed id c mm).2.

Lemma call_typed now elapsed id c (mm : MM) : typed mm -> typed (do_xcall now elapsed id c mm).2.
Proof.
  intros Hm. destruct c; cbn [do_xcall].
  - apply set_typed; [|done]. split; [|done]. intros _ m [= <-] l. unfold Unix. generalize (now / Second) as z. intros z. vm_compute. discriminate.
  - by apply set_typed; [apply fits_other|].
  - by apply set_typed; [apply fits_other|].
  - apply set_typed; [|done]. apply fits_tracking. unfold Unix. generalize (now / Second) as z. intros z.
    split; [intros f|intros l|intros l]; vm_compute; try discriminate. intros [= <-]. vm_compute. lia.
  - apply set_typed; [|done]. apply fits_tracking, copy_typed; [done|]. unfold Unix. generalize (now / Second) as z. intros z.
    split; [intros f|intros l|intros l]; vm_compute; discriminate.
  - apply set_typed; [|done]. apply fits_tracking, copy_typed; [done|]. unfold Unix. generalize (now / Second) as z. intros z.
    split; [intros f|intros l|intros l]; vm_compute; discriminate.
  - unfold RecordTorrentError. destruct (existing_map id (bs "tracking") mm) as [m|] eqn:E; [|done]. apply existing_typed in E; [|done].
    apply recorded_typed with (now := now) (msg := msg) in E. apply set_typed; [by apply fits_tracking|]. by apply poke_typed; [apply fits_tracking|].
  - by apply set_typed; [apply fits_other|].
  - unfold SetCustomFlag. apply set_typed; [by apply fits_other|]. destruct (existing_map id (bs "preferences") mm) as [m|]; [|done].
    destruct (flags_of m); [|done]. by apply poke_typed; [apply fits_other|].
Qed.
Lemma reachable_typed (mm : MM) : reachable mm -> typed mm.
Proof.
  induction 1 as [|c mm _ IH|now elapsed id c mm _ IH]; [|exact IH|by apply call_typed]. intros id key v. unfold value_at. cbn. by rewrite lookup_empty.
Qed.

(** What the extensions look for is never of the type they store: whatever was
    set through them, no torrent is found by a tag, no download has a duration,
    and of the errors recorded only the last is kept. *)
Theorem assertions_miss (mm : MM) :
  reachable mm ->
  (forall tag, GetTorrentsByTag ids_of tag mm = []) /\ (forall now id d, GetDownloadDuration wild now id mm <> Ok d) /\
  (forall id m l, existing_map id (bs "tracking") mm = Some m -> m !! bs "error_history" = Some (GStrings l) -> (length l <= 1)%nat).
Proof.
  intros Hr%reachable_typed. split_and!.
  - intros tag. unfold GetTorrentsByTag. induction (getAllTorrentIDs ids_of mm) as [|id ids IH]; cbn [List.filter]; [done|].
    replace (has_tag tag mm id) with false; [done|]. unfold has_tag, existing_map. rewrite get_value_at.
    destruct (value_at id (bs "category") mm) as [v|] eqn:Ev; cbn [mbind option_bind]; [|done].
    destruct v as [| | | | | | |m]; cbn [as_map]; try done. destruct (m !! bs "tags") as [[]|] eqn:Et; try done. by apply (proj1 (Hr _ _ _ Ev)) in Et.
  - intros now id d. unfold GetDownloadDuration. rewrite get_value_at. destruct (value_at id (bs "tracking") mm) as [v|] eqn:Ev; [|done].
    destruct v as [| | | | | | |m]; cbn [as_map]; try done. destruct (m !! bs "download_start") as [[]|] eqn:Et; try done.
    by apply (tt_start m) in Et; [|apply (proj2 (Hr _ _ _ Ev))].
  - intros id m l E. apply (tt_short m). by eapply existing_typed.
Qed.

(** ** What is found *)
Hypothesis ids_perm : forall r, ids_of r ≡ₚ (map_to_list r).*1.

Lemma all_ids id (mm : MM) : id ∈ getAllTorrentIDs ids_of mm <-> exists key v, value_at id key mm = Some v.
Proof.
  unfold getAllTorrentIDs, value_at. destruct (metadata_query (MkQuery [] [] [] [] None None) mm) as (r & E & Hr). rewrite E.
  assert (Hsat : forall key v, satisfies (V := gov) (MkQuery [] [] [] [] None None) key v)
    by (intros key v; constructor; cbn; try done; [by left|by left|apply list_subseteq_nil]).
  rewrite ids_perm, list_elem_of_fmap. split.
  - intros ([id' tm] & -> & Hin%elem_of_map_to_list). cbn. assert (Hne : tm_Metadata tm <> ∅).
    { unfold GetMetadata in E. cbv zeta in E. rewrite query_fold in E. injection E as <-. rewrite collect_lookup, lookup_empty in Hin. case_decide; [|done].
      unfold answer in Hin. destruct (mm_metadata mm !! id'); [|done]. case_decide; [done|]. by injection Hin as <-. }
    apply map_choose in Hne as (key & e & He). destruct (proj1 (Hr id' key e)) as (_ & _ & tm' & -> & He'); [eauto|].
    exists key, (mv_Value e). cbn. by rewrite He'.
  - intros (key & v & Hv). destruct (mm_metadata mm !! id) as [tm|] eqn:Em; [|done]. cbn in Hv. destruct (tm_Metadata tm !! key) as [e|] eqn:Ee; [|done].
    destruct (proj2 (Hr id key e)) as (tm' & Hin & _); [split_and!; [by left|apply Hsat|eauto]|]. exists (id, tm'). split; [done|]. by apply elem_of_map_to_list.
Qed.

(** Setting a category succeeds and makes the torrent, and of the torrents only
    this one, change its answer to the search by category; a failure changes
    none. *)
Theorem category_found now elapsed id category sub tags ty (mm : MM) :
  let '(r, mm') := SetTorrentCategory now elapsed id category sub tags ty mm in
  (r = Ok () -> forall c id', id' ∈ GetTorrentsByCategory ids_of c mm' <-> (if decide (id' = id) then c = category else id' ∈ GetTorrentsByCategory ids_of c mm)) /\
  (r <> Ok () -> forall c id', id' ∈ GetTorrentsByCategory ids_of c mm' <-> id' ∈ GetTorrentsByCategory ids_of c mm).
Proof.
  assert (Hin : forall c id' (mm : MM), id' ∈ GetTorrentsByCategory ids_of c mm <-> exists m, value_at id' (bs "category") mm = Some (GMap m) /\ m !! bs "category" = Some (GString c)).
  { intros c id' m0. unfold GetTorrentsByCategory. rewrite list_elem_of_In, List.filter_In, <- list_elem_of_In, all_ids. unfold has_category, existing_map. rewrite get_value_at. split.
    - intros [_ Hh]. destruct (value_at id' (bs "category") m0) as [[]|]; cbn [mbind option_bind as_map] in Hh; try done. destruct (m !! bs "category") as [[]|] eqn:E; try done.
      apply bool_decide_eq_true in Hh. subst. eauto.
    - intros (m & Ev & Ec). split; [eauto|]. rewrite Ev. cbn [mbind option_bind as_map]. rewrite Ec. by apply bool_decide_eq_true. }
  unfold SetTorrentCategory. match goal with |- context [setMetadata _ _ _ ?k ?v ?s ?t _] => pose proof (set_value_at now elapsed id k v s t mm) as Hs; set (val := v) in * end.
  destruct (setMetadata _ _ _ _ _ _ _ mm) as [r mm'] in *. destruct Hs as [[-> Hs]|[Hne Hs]].
  - split; [|done]. intros _ c id'. rewrite !Hin. setoid_rewrite Hs. case_decide as Hd.
    + destruct Hd as [-> _]. rewrite decide_True by done. split.
      * intros (m & [= <-] & E). rewrite lookup_insert_eq in E. by injection E.
      * intros ->. eexists. split; [reflexivity|]. apply lookup_insert_eq.
    + rewrite decide_False; [done|]. naive_solver.
  - split; [done|]. intros _ c id'. rewrite !Hin. by setoid_rewrite Hs.
Qed.
End Facts.

(** An error too long to be stored is refused, and is in the store. *)
Section Demo.
#[local] Instance demo_marshals : Marshals :=
  {| marshal := fun v => match v with GMap m => match m !! bs "error_history" with Some (GStrings l) => Some (concat l) | _ => Some [] end | _ => Some [] end |}.
#[local] Instance demo_set_range : SetRange := {| set_range := fun A m => map_to_list m; set_range_perm := fun A m => Permutation_refl _ |}.
Definition no_wild (f : float) : Z := 0.
Definition demo_tracked : MetadataManager (V := gov) (C := unit) := (StartTorrentTracking 0 1 7 (bs "t") NewMetadataManager).2.
Example refused_error_is_stored :
  let '(r, mm) := RecordTorrentError no_wild 0 1 7 (replicate (Z.to_nat 11000) 120) demo_tracked in
  r = Err "failed to set metadata" /\
  match getMetadata 7 (bs "tracking") mm with
  | Some (GMap m) => m !! bs "retry_count" = Some (GInt 1) /\ (exists l, m !! bs "error_history" = Some (GStrings l) /\ length l = 1%nat)
  | _ => False
  end.
Proof. vm_compute. split; [reflexivity|]. split; [reflexivity|]. eexists. split; reflexivity. Qed.
End Demo.
End MetadataExtensions.
