(* ===== verification/PluginPersistence.v ===== *)
(** * A plugin that persists torrents

    Models [PersistencePlugin] of [src/examples/integration/plugin_persistence.go].
    The mutex of the plugin is not reentrant: an operation that locks it again
    waits for itself, which is the outcome [Blocks]. A file holds the value that
    was marshalled into it; the file system is the class [PluginDisk].
    [LoadTorrentState] is not modelled. *)

From S2P Require Import Prelude Strconv Metainfo TorrentFile Bandwidth RpcTypes.
Import Bandwidth RpcTypes.

Module PluginPersistence.

Inductive outcome (A : Type) := Returns (a : A) | Blocks.
Arguments Returns {A}. Arguments Blocks {A}.

(** What is written: the marker of a save, a torrent, or the metadata [M] of
    one. *)
Inductive doc (M : Type) := DMarker (timestamp saveCount : Z) | DTorrent (t : TorrentState) | DMetadata (m : M).
Arguments DMarker {M}. Arguments DTorrent {M}. Arguments DMetadata {M}.

Inductive removal := Removed | NotThere | RemoveFails.
(** [os.MkdirAll], [os.WriteFile], [os.Remove] and [os.Stat]. *)
Class PluginDisk (M D : Type) := {
  pd_MkdirAll : bytes -> D -> bool * D;
  pd_WriteFile : bytes -> doc M -> D -> bool * D;
  pd_Remove : bytes -> D -> removal * D;
  pd_Exists : bytes -> D -> bool
}.

Section Plugin.
Context {M D : Type} `{!PluginDisk M D}.
(** Whether [json.Marshal] accepts a torrent or metadata. *)
Context (marshals : doc M -> bool).

Record PersistencePlugin := MkPlugin {
  pp_dataDir : bytes;
  pp_saveInterval : Z;
  pp_locked : bool;
  pp_initialized : bool;
  pp_closed : bool;
  pp_manager : bool;
  pp_saveCount : Z;
  pp_lastSave : option Z;
  pp_savers : nat;
  pp_disk : D
}.

Definition NewPersistencePlugin (dataDir : bytes) (saveInterval : Z) (disk : D) : PersistencePlugin :=
  MkPlugin dataDir saveInterval false false false false 0 None 0 disk.

Definition with_lock (b : bool) (p : PersistencePlugin) : PersistencePlugin :=
  MkPlugin (pp_dataDir p) (pp_saveInterval p) b (pp_initialized p) (pp_closed p) (pp_manager p) (pp_saveCount p) (pp_lastSave p) (pp_savers p) (pp_disk p).
Definition with_disk (d : D) (p : PersistencePlugin) : PersistencePlugin :=
  MkPlugin (pp_dataDir p) (pp_saveInterval p) (pp_locked p) (pp_initialized p) (pp_closed p) (pp_manager p) (pp_saveCount p) (pp_lastSave p) (pp_savers p) d.
(** [p.mu.Lock()] with the deferred unlock around a body. *)
Definition locked {A} (body : PersistencePlugin -> outcome (A * PersistencePlugin)) (p : PersistencePlugin) : outcome (A * PersistencePlugin) :=
  if pp_locked p then Blocks
  else match body (with_lock true p) with Returns (a, p) => Returns (a, with_lock false p) | Blocks => Blocks end.

(** ** Files *)
Definition file_in (dir name : bytes) (p : PersistencePlugin) : bytes := Metainfo.Join [pp_dataDir p; dir; name].
Definition torrent_file (id : Z) (p : PersistencePlugin) : bytes := file_in (bs "torrents") (bs "torrent_" ++ Strconv.FormatInt id ++ bs ".json") p.
Definition metadata_file (id : Z) (p : PersistencePlugin) : bytes := file_in (bs "metadata") (bs "metadata_" ++ Strconv.FormatInt id ++ bs ".json") p.

Definition saveState (now : Z) : PersistencePlugin -> outcome (res () * PersistencePlugin) :=
  locked (fun p =>
    let p := MkPlugin (pp_dataDir p) (pp_saveInterval p) (pp_locked p) (pp_initialized p) (pp_closed p) (pp_manager p) (i64 (pp_saveCount p + 1)) (Some now)
      (pp_savers p) (pp_disk p) in
    let '(ok, d) := pd_WriteFile (Metainfo.Join [pp_dataDir p; bs "last_save.json"]) (DMarker now (pp_saveCount p)) (pp_disk p) in
    Returns (if ok then Ok () else Err "failed to write save marker", with_disk d p)).

Definition write_in (dir file : bytes) (what : doc M) (p : PersistencePlugin) : res () * PersistencePlugin :=
  let '(made, d) := pd_MkdirAll (Metainfo.Join [pp_dataDir p; dir]) (pp_disk p) in
  if negb made then (Err "failed to create directory", with_disk d p)
  else if negb (marshals what) then (Err "failed to marshal", with_disk d p)
  else let '(ok, d) := pd_WriteFile file what d in (if ok then Ok () else Err "failed to write", with_disk d p).
Definition saveTorrentState (t : TorrentState) (p : PersistencePlugin) : res () * PersistencePlugin :=
  write_in (bs "torrents") (torrent_file (t_ID t) p) (DTorrent t) p.
Definition removeTorrentState (id : Z) (p : PersistencePlugin) : res () * PersistencePlugin :=
  let '(r, d) := pd_Remove (torrent_file id p) (pp_disk p) in
  (match r with RemoveFails => Err "failed to remove torrent state file" | _ => Ok () end, with_disk d p).
(** [held]: the metadata of the torrents in the manager at the call. *)
Definition saveMetadata (held : gmap Z M) (id : Z) (p : PersistencePlugin) : res () * PersistencePlugin :=
  if negb (pp_manager p) then (Err "metadata manager not available", p)
  else match held !! id with Some meta => write_in (bs "metadata") (metadata_file id p) (DMetadata meta) p | None => (Ok (), p) end.

(** ** The interface of a plugin *)

(** [interval]: the interval of the configuration, if there is one that parses;
    [manager]: whether it has a metadata manager. *)
Definition Initialize (interval : option Z) (manager : bool) : PersistencePlugin -> outcome (res () * PersistencePlugin) :=
  locked (fun p =>
    let '(made, d) := pd_MkdirAll (pp_dataDir p) (pp_disk p) in
    if negb made then Returns (Err "failed to create data directory", with_disk d p)
    else
      Returns (Ok (), MkPlugin (pp_dataDir p) (default (pp_saveInterval p) interval) (pp_locked p) true (pp_closed p)
        (manager || pp_manager p) (pp_saveCount p) (pp_lastSave p) (S (pp_savers p)) d)).

Definition Shutdown (now : Z) : PersistencePlugin -> outcome (res () * PersistencePlugin) :=
  locked (fun p =>
    if negb (pp_initialized p) then Returns (Ok (), p)
    else if pp_closed p then Returns (Panic "close of closed channel", p)
    else
      let p := MkPlugin (pp_dataDir p) (pp_saveInterval p) (pp_locked p) (pp_initialized p) true (pp_manager p) (pp_saveCount p) (pp_lastSave p)
        (pp_savers p) (pp_disk p) in
      match saveState now p with
      | Blocks => Blocks
      | Returns (_, p) =>
          Returns (Ok (), MkPlugin (pp_dataDir p) (pp_saveInterval p) (pp_locked p) false (pp_closed p) (pp_manager p) (pp_saveCount p) (pp_lastSave p)
            (pp_savers p) (pp_disk p))
      end).

(** The parameters are a map that may be nil; [add] marks it with the time and
    the plugin. Errors of saving and removing are logged. *)
Definition handleTorrentAdd {P} (add : P -> P) (torrent : option TorrentState) (params : option P) (p : PersistencePlugin) : res (option P) * PersistencePlugin :=
  match torrent with
  | None => (Ok params, p)
  | Some t =>
      match params with
      | None => (Panic "assignment to entry in nil map", p)
      | Some ps => (Ok (Some (add ps)), (saveTorrentState t p).2)
      end
  end.
Definition handleTorrentRemove {P} (torrent : option TorrentState) (params : option P) (p : PersistencePlugin) : res (option P) * PersistencePlugin :=
  (Ok params, match torrent with Some t => (removeTorrentState (t_ID t) p).2 | None => p end).
Definition handleMetadataSet {P} (held : gmap Z M) (torrent : option TorrentState) (params : option P) (p : PersistencePlugin) : res (option P) * PersistencePlugin :=
  (Ok params, match torrent with Some t => if pp_manager p then (saveMetadata held (t_ID t) p).2 else p | None => p end).
Definition HandleTorrentBehavior {P} (add : P -> P) (held : gmap Z M) (operation : bytes) (torrent : option TorrentState) (params : option P) (p : PersistencePlugin) :
    res (option P) * PersistencePlugin :=
  if decide (operation = bs "torrent-add") then handleTorrentAdd add torrent params p
  else if decide (operation = bs "torrent-remove") then handleTorrentRemove torrent params p
  else if decide (operation = bs "metadata-set") then handleMetadataSet held torrent params p
  else (Ok params, p).

(** The zero time is more than 292 years ago, the longest duration. *)
Definition since (now : Z) (t : option Z) : Z := match t with Some t => Sub now t | None => max_int64 end.
Definition GetHealthStatus (now : Z) (p : PersistencePlugin) : bytes :=
  let status := if pd_Exists (pp_dataDir p) (pp_disk p) then bs "healthy" else bs "unhealthy" in
  if pp_initialized p && bool_decide (i64 (pp_saveInterval p * 2) < since now (pp_lastSave p)) then bs "degraded" else status.

(** ** Properties *)

(** Shutting down a plugin that was initialized never returns: it holds the
    lock that its last save waits for. *)
Theorem shutdown_blocks now (p : PersistencePlugin) :
  pp_locked p = false -> pp_initialized p = true -> pp_closed p = false -> Shutdown now p = Blocks.
Proof. intros Hl Hi Hc. unfold Shutdown, locked. rewrite Hl. cbn [pp_initialized with_lock pp_closed]. by rewrite Hi, Hc. Qed.

Theorem shutdown_unstarted now (p : PersistencePlugin) :
  pp_locked p = false -> pp_initialized p = false -> Shutdown now p = Returns (Ok (), p).
Proof. intros Hl Hi. unfold Shutdown, locked. rewrite Hl. cbn [pp_initialized with_lock]. rewrite Hi. destruct p. cbn in Hl. by subst. Qed.

(** Every other operation gives the lock back. *)
Theorem operations_unlock now interval manager (p : PersistencePlugin) :
  pp_locked p = false ->
  (exists r p', saveState now p = Returns (r, p') /\ pp_locked p' = false /\ pp_saveCount p' = i64 (pp_saveCount p + 1)) /\
  (exists r p', Initialize interval manager p = Returns (r, p') /\ pp_locked p' = false).
Proof.
  intros Hl. split.
  - unfold saveState, locked. rewrite Hl. destruct (pd_WriteFile _ _ _) as [ok d]. by eexists _, _.
  - unfold Initialize, locked. rewrite Hl. destruct (pd_MkdirAll _ _) as [[|] d]; by eexists _, _.
Qed.

(** From its initialization to its first save the plugin calls itself
    degraded, whether or not its directory is there. *)
Theorem degraded_until_saved now (p : PersistencePlugin) :
  pp_initialized p = true -> pp_lastSave p = None -> 0 <= pp_saveInterval p < 2 ^ 62 - 1 -> GetHealthStatus now p = bs "degraded".
Proof.
  intros Hi Hs Hr. unfold GetHealthStatus, since. rewrite Hi, Hs. cbn [andb]. rewrite bool_decide_eq_true_2; [done|].
  unfold i64. rewrite swrap_small by lia. unfold max_int64. lia.
Qed.

(** Adding a torrent and removing it again leaves no file of it. *)
Theorem added_then_removed {P} (add : P -> P) (held held' : gmap Z M) t params (p : PersistencePlugin) :
  (forall f d, (pd_Remove (M := M) f d).1 <> RemoveFails -> pd_Exists (M := M) f (pd_Remove (M := M) f d).2 = false) ->
  (forall f d, (pd_Remove (M := M) f d).1 <> RemoveFails) ->
  let '(r, p1) := HandleTorrentBehavior add held (bs "torrent-add") (Some t) (Some params) p in
  let '(r2, p2) := HandleTorrentBehavior add held' (bs "torrent-remove") (Some t) (Some params) p1 in
  r = Ok (Some (add params)) /\ r2 = Ok (Some params) /\ pd_Exists (torrent_file (t_ID t) p) (pp_disk p2) = false.
Proof.
  intros Hlaw Hok. unfold HandleTorrentBehavior. rewrite decide_True by done. cbn [handleTorrentAdd].
  rewrite decide_False by (vm_compute; discriminate). rewrite decide_True by done. cbn [handleTorrentRemove].
  split; [done|]. split; [done|]. unfold removeTorrentState.
  assert (Hf : torrent_file (t_ID t) (saveTorrentState t p).2 = torrent_file (t_ID t) p).
  { unfold saveTorrentState, write_in. destruct (pd_MkdirAll _ _) as [[|] d]; cbn [negb]; [|done]. destruct (marshals _); cbn [negb]; [|done].
    by destruct (pd_WriteFile _ _ d). }
  rewrite Hf. pose proof (Hlaw (torrent_file (t_ID t) p) (pp_disk (saveTorrentState t p).2) (Hok _ _)) as He.
  by destruct (pd_Remove _ _) as [r d].
Qed.
End Plugin.
End PluginPersistence.
